(* ===== verification/_CoqProject ===== *)
-Q . S2P
Prelude.v
RustStd.v
Ids.v
Errors.v
CurrentState.v
Execution.v
Outbox.v
Transactional.v
Inspection.v
Workers.v
Dispatch.v
Stores.v
Memory.v
MemoryStore.v
MemoryDispatch.v
MemoryInv.v
MemorySelect.v
MemoryClaim.v
MemoryLease.v
MemoryFinal.v
MemoryRecover.v
MemoryLife.v
MemoryLaws.v
MemoryInspect.v
Scheduler.v
RunnerTypes.v
Runner.v
RunnerProps.v
Inspector.v
StoreCore.v
StoreCoreProps.v
AppOutbox.v
AppOutboxProps.v
RustStr.v
Identity.v
AccountingRecords.v
Schema.v
SliceCore.v
Operators.v
Auth.v
OperatorRoutes.v
AuthProps.v
OAuthState.v
OperatorProps.v
WorkItems.v
WorkQueue.v
WorkProps.v
WorkFeed.v
Calendar.v
DateInput.v
Ingress.v
CalendarProps.v
DateProps.v
DraftStore.v
DraftProps.v
CrmDrafts.v
CrmDraftProps.v
Json.v
ProviderWrites.v
GoogleCalendar.v
AccountingStore.v
AccountingViews.v
AccountingSync.v
AccountingProps.v
AccountingSyncProps.v
QuoteProfile.v
QuoteGuardrails.v
QuoteWorkflow.v
QuoteProps.v
QuoteFlow.v
QuoteTrace.v
FollowUpTasks.v
FollowUpProps.v
LedgerDrafts.v
LedgerProps.v
DeliveryProps.v
InvoiceDrafts.v
InvoiceProps.v
CalendarDrafts.v
CalendarDraftProps.v
