(* ===== verification/Prelude.v ===== *)
(** * BusinessOS: a verification library for the work kernel and the application's spines

    BusinessOS runs small-business work.  Its Rust workspace [crates/] has a
    domain-free kernel ([bos-kernel]: queues of work, leases, dispatch), an
    application ([bos-app]: slices over one SQLite file, whose writes go through
    [store_core.rs] and whose external effects go through [outbox.rs]), the DTOs
    ([bos-contracts]) and the provider clients ([bos-integrations]).  This library
    models the kernel, the application's two spines, its authentication and some of
    its slices, definition by definition, and proves what they promise.  A comment
    [src: file:lines symbol] over a definition names the code it translates,
    relative to [src/].

    ** The parts and how they interact

    - A producer writes a [TransactionalWrite] (idempotency claims, execution
      records, outbox messages) into a work store.  The store keeps two queues,
      executions and outbox messages, and hands out work under leases.
      [WorkerDispatchCoordinator] (scheduler.rs) drives any store through the
      traits of dispatch.rs and workers.rs, and [ReferenceDispatchRunner]
      (runner/dispatch_runner.rs) drives the coordinator.
    - [mutate] (bos-app/store_core.rs) is the one path by which slices write:
      idempotency, revisions, rollback and a receipt for every attempt.  The
      provider outbox (bos-app/outbox.rs) enqueues jobs inside such mutations,
      leases them to workers and records each delivery attempt as a mutation.
    - A request is authenticated (http.rs: bearer tokens, sessions) to an operator
      identity with a scope; the stores of the slices check that scope.
    - Slices are clients of [mutate] and [enqueue_within]: operators and their
      tokens, OAuth states, the work queue, CRM note drafts, quotes, follow-ups,
      received payments, invoices, calendar events and the accounting caches.
      An item of the work queue gets drafts; an operator edits and decides them; an
      approval enqueues a provider job or creates a task.  A quote request runs
      through a profile, whose steps are traced by receipts, and its guardrails
      decide who may approve it.  A pump fills the accounting caches from a provider,
      page by page and within a budget of requests, and the owner's figures are
      computed from them.
    - A received payment or an invoice is read from an e-mail by a model whose answer is
      checked, staged, edited and approved; its job carries a payload to a client of
      bos-integrations, which validates it and brings it about at QuickBooks, Invoice
      Ninja or Stripe, looking first for what an earlier delivery did.  A calendar event
      takes the same way to Google Calendar, where its id stands for its job.

    ** Files

    - [Prelude]: results, operations on a locked state ([Op], with its notations,
      laws, postconditions [op_post] and the hint database [op_db]), machine integers,
      lists.  [RustStd]:
      what the code uses of the standard library ([Ord], [sort_by_key],
      [SystemTime], number formats).  [RustStr]: strings as bytes with their
      UTF-8 characters ([trim], [split], [chars], [lines], [parse]).  [Json]:
      [serde_json::Value] and its accessors.
    - bos-kernel data: [Ids] (ids.rs), [Errors] (observability.rs, error.rs,
      evidence.rs), [Execution] (execution.rs), [Outbox] and [Transactional]
      (outbox.rs), [Inspection] (execution/inspection.rs, outbox/inspection.rs),
      [Workers] (workers.rs), [Dispatch] (dispatch.rs).  One Module per Rust type,
      one Definition per method, a [Record] per struct, an [Inductive] per enum.
      [CurrentState]: current_state.rs and its theorems.
    - [Stores]: the store traits as type classes over a state, and
      [WorkerStoreLaws], what their clients rely on.
    - The in-memory work store (memory.rs): [Memory] (state, selection, the lease
      sequence), [MemoryStore] (the methods of both queues), [MemoryDispatch] (the
      dispatch, recovery, heartbeat and status traits, as instances of [Stores]).
      Its theorems: [MemoryInv] (the invariant [store_wf], [reachable]),
      [MemorySelect] (with the concrete states at which theorems are evaluated),
      [MemoryClaim], [MemoryLease], [MemoryFinal], [MemoryRecover], [MemoryLife],
      [MemoryInspect], and [MemoryLaws] (the instance of [WorkerStoreLaws]).
    - [Scheduler]: the coordinator and its theorems over any lawful store.
      [RunnerTypes] (runner/types.rs, runner/types/), [Runner], [RunnerProps]: the
      reference runner over the in-memory store, interleaved with everybody else's
      calls.  [Inspector] (runner/inspector.rs): the operator's read-only views.
    - [StoreCore], [StoreCoreProps]: the receipt spine and its guarantees.
      [AppOutbox], [AppOutboxProps]: the provider outbox as a state machine.
    - [Identity] (capabilities, scopes, identities), [Auth] (sessions and bearer
      tokens, the gates of [AppState]), [OAuthState] (oauth_state.rs, and its theorem), [Operators]
      and [OperatorRoutes] (slices/operator_users, slices/operator_tokens); their
      theorems in [AuthProps], [OperatorProps].
    - [Schema]: the rows and tables of the modelled slices in one record, with a
      setter each; [SliceCore]: what their mutations share ([update_tables],
      the operator contexts, requests, and the lemmas on [mutate] by which their
      theorems are proved).
    - [WorkItems], [WorkQueue] (slices/work_queue/store.rs); [WorkProps] (the
      invariant, scopes), [WorkFeed] (listing, policies, assignment).
    - [Calendar] (the calendar algorithms), [DateInput] (datetime_input.rs),
      [Ingress] (the mail webhook's door); [CalendarProps], [DateProps].
    - [DraftStore] (draft_store.rs: a type class [DraftStore] of what a draft table
      provides, and the decisions over any instance), [DraftProps]; its instances
      [CrmDrafts] (slices/crm_drafts) with [CrmDraftProps], and [FollowUpTasks]
      (slices/follow_up_tasks: drafts, tasks, the fill, the watchdog) with
      [FollowUpProps].
    - [QuoteProfile] (the profile trait and the built-in profile), [QuoteGuardrails]
      (validation, guardrails), [QuoteWorkflow] (slices/quote_workflows: store and
      service); [QuoteProps] (prices and guardrails), [QuoteFlow] (all requests in
      any order), [QuoteTrace] (one run from start to finish).
    - The accounting slice (slices/accounting): [AccountingRecords] (the provider's
      records, the rows), [AccountingStore] (store.rs: credentials, cursors, the
      caches as instances of a class [CacheTable]), [AccountingViews] (service.rs),
      with the periods of the reports, [AccountingSync] (worker.rs: a cycle over any
      provider); [AccountingProps] (what the caches hold), [AccountingSyncProps] (the
      cycle, the walk over the pages).
    - [ProviderWrites] (bos-integrations: qbo_payment_write.rs, and the writing clients of
      invoice_ninja.rs and stripe.rs, over any transport); [DeliveryProps] (what any
      number of deliveries does at a provider that keeps its documented laws).
      [LedgerDrafts] (slices/ledger_drafts), [LedgerProps]; [InvoiceDrafts]
      (slices/invoice_drafts), [InvoiceProps]: two more instances of [DraftStore].
    - [GoogleCalendar] (bos-integrations: google_calendar.rs, google_calendar/, and the
      reading of Google's errors; the lists of attendees and the ids of events with their
      theorems), [CalendarDrafts] (slices/calendar_drafts, the last instance of
      [DraftStore]), [CalendarDraftProps].

    ** How code becomes definitions

    - A method that takes a mutex, or one SQLite transaction, runs to completion
      with it held: it is an [Op], a function from the state to a result and a new
      state.  An error return of the kernel's store keeps what was written before
      it, as in the source; a transaction dropped without a commit restores the
      tables.  Interleavings are sequences of such calls: an inductive type of calls, a
      function that serves them, and theorems over all sequences (or the relations
      [step] and [steps]).
    - The application's database is a pool of eight connections (persistence.rs).  A
      write transaction begins by taking SQLite's one write lock, so a [mutate] is atomic
      (but for the receipt of a failed write, which is a transaction of its own); a
      handler is not: what it reads before its [mutate], the check that a draft is
      staged for one, may be outdated when the transaction begins.  The theorems about
      the spine and a single operation speak of transactions.  Where a theorem ranges over
      sequences of operations that read before they write - what an approval of an
      invoice, a payment, an event or a quote hands on, the work queue, the users, the
      reports of attempts - it holds for operations served one at a time.  Checks and commits are taken apart in
      [DraftProps] and [CrmDraftProps]: decisions can cross ([decisions_can_cross]),
      unless they are made on a revision that was seen ([seen_revision_excludes]), and
      the rows stay well formed however they cross ([drafts_always_wf]).
    - In the theorems about providers the deliveries of a job follow one another, as they
      do while the outbox's lease lasts; but a request that was given up may still take
      effect after its delivery has ended.
    - [HashMap]s are [gmap]s; where the source iterates over one, the theorems say
      that the result is the same for every iteration order.  SQL tables are lists
      in insertion order or [gmap]s by primary key, with [ORDER BY] and [LIMIT]
      written out.
    - [SystemTime] is a [Z] of nanoseconds with the [i64] bound on its seconds, so
      that [checked_add] can fail; [Duration] is an [N].  [u32] and [u64] counters
      are [N]s with saturation or wrap-around written out, and the casts between
      [u64] and SQLite's [i64] are functions.  Arithmetic the source leaves
      unchecked wraps around, as in a release build.
    - Every loop of the modelled code but two runs over a finite list or spends a
      counter and is structural recursion, so each operation is total by definition.
      The loop over the months of the reports ([month_periods]) has the distance in
      days as fuel, which is shown to be enough; the search for a weekday over at most
      seven days is shown never to run out.  The scan over the pages of a client's
      invoices ([scan_pages]) is bounded by nothing in the code: with more fuel than
      hundreds of invoices it is shown to end.
    - Amounts of money are integers of cents; where they cross the wire as [f64] they are
      [SpecFloat]'s binary64 numbers.
    - Parameters stand for what is not under [src/] or lies outside the part:
      [CorrelationId::generate] and [SystemTime::now] ([Env]), random bytes,
      [sha256_hex], SQLite's error text ([constraint_failed]), the text of JSON and
      serde's reading of it ([json_text], [QuoteTexts], [parse_provenance], and
      [parse_lines], which reads back the lines that were written), the provider calls
      ([dispatch], [AccountingReadClient], [get_json] and [post_json], with the laws
      [ReceiptServer], [ClientServer], [DraftServer], [PaymentServer], [StripeServer] and
      [EventServer] of what a provider does), SHA-256 ([sha256], 32 bytes), the percent encoding of urls
      ([encode]), a configured contact's existence, Unicode's lower case.  What other
      slices do between two modelled calls is a mutation that leaves the modelled
      tables alone; its write is assumed to leave receipts alone up to their
      payloads ([spares_receipts]), for lost updates to lower no revision and raise none
      by more than one ([raises_revisions], which the slices' creations and advances of
      other entities keep), and to change jobs by enqueueing only ([enqueues_only]).

    ** What the theorems show

    - The work store: every reachable state is well formed; a claim returns and
      leases exactly the earliest due work, by an order stated without the code's sort; until its lease expires nobody else is
      handed the work; a resolution is accepted exactly from the holder of the
      current lease at the expected revision; a lost lease never comes back;
      recovery, renewal, selection, summaries and listings do exactly what they name.
    - The coordinator and the runner: for any lawful store, a cycle hands on all
      it claimed and finalizing is all or nothing; the runner finishes a
      registered claim exactly if the store still holds it.
    - The receipt spine: [mutate] refines a four-case specification and never
      violates a constraint of its tables; a key takes effect once; no update is
      lost, whatever entities other writes create or advance; every call leaves exactly
      one receipt.
    - The provider outbox: attempts are bounded, settled jobs stay settled until
      an operator intervenes, leases exclude, claims are exact.
    - Authentication: an identity is always backed by a live credential, a session
      stands for its token, a disabled user is locked out, an OAuth state is
      consumed once.
    - Slices: invariants over all requests in any order (note drafts, with interleaved
      handlers; quotes and follow-ups, served one at a time; the work queue's own
      operations); operators cannot edit or see what is not theirs; an
      approval is all or nothing, and enqueues or creates exactly what is stored;
      quotes are priced exactly, flagged exactly (by a reading of the price list and the
      thresholds that is stated apart from the code's), approved by their approver only and
      traced from start to finish; dates that are accepted exist, instants are read
      as they are written, and due days are counted by the calendar.
    - Accounting: the requests a cycle sends, counted where they are sent ([Pump]), keep to
      its budget and its deadlines, with the refresh of the token; a first walk, from an
      initial cursor and undisturbed, brings a provider's whole list; between purges and
      before them a cache shows the last new thing said of a record; the periods kept of the reports tile the time since a year before the
      quarter.
    - Money that leaves: after whatever requests, what an approval of a payment or an
      invoice hands to the outbox is what is stored and passes the client's validation;
      the totals of invoices are the sums of their lines.  However often a job is delivered
      and whichever answers are lost, a receipt is paid and an invoice drafted at most
      once at Invoice Ninja, and a payment posted at most once at QuickBooks, but for
      the exceptions that the theorems count: a post that takes effect after its delivery
      was given up, and a look-up that succeeds with a body that cannot be read.
    - Calendar events: every attendee stands in the message as a whole address and is kept
      with such a quote; what an
      approval hands to the outbox passes the client's checks and acts with its owner's
      credential; the event's id spells the digest of its key, and any number of deliveries
      makes at most one event.
    - What the code gets wrong, proved as such: a record in flight without a lease
      blocks its queue ([MemoryLaws.orphan_blocks_claims]); a claim whose lease was
      lost stays in the runner's table ([RunnerProps.lost_claim_stays_registered])
      and is shown as active ([Inspector.taken_over_claim_shown_active]);
      lease expiry never counts as an attempt ([MemoryRecover.expiry_never_counts]);
      a second report of an attempt is dropped although it is answered as stored
      ([AppOutboxProps.second_report_dropped]) and a late one can revive a delivered
      job ([AppOutboxProps.stale_report_revives_delivered]); a replayed user token is
      dead ([OperatorProps.replayed_user_token_is_dead]); the retry of an applied
      decision is refused ([DraftProps.retried_approval_is_refused]); an approval and a
      rejection of one draft can both be applied ([DraftProps.decisions_can_cross]); signed years
      are dates ([DateProps.accepted_dates_exist]); an amount is read as a quantity
      ([QuoteProps.amount_read_as_quantity]); a quote whose guardrails cannot be
      evaluated stays running ([QuoteFlow.failed_persist_sticks]); a record that returns
      to earlier contents is never cached again
      ([AccountingProps.reverted_invoice_is_lost]), nor is anything after a purge
      ([AccountingProps.purged_books_stay_empty]), where a walk never leaves its first
      page ([AccountingSyncProps.purged_walk_restarts]); a second rejected grant is not
      marked ([AccountingProps.second_rejection_is_unmarked]); other books keep the old
      profit and loss ([AccountingSyncProps.other_books_keep_profit]); a quote grounds a
      part of the amount it names ([LedgerProps.quote_grounds_part_of_amount]); an invoice
      with two lines of one number is never delivered to Stripe
      ([InvoiceProps.shared_line_number_stuck]), one whose address has a blank inside is
      refused by Invoice Ninja after its approval
      ([InvoiceProps.approved_invoice_is_deliverable]); a look-up that was cut off doubles
      a draft ([DeliveryProps.unread_page_duplicates_draft]); a payment whose answer was
      lost is reported failed ([DeliveryProps.lost_payment_reported_failed]);
      nothing compares the beginning of an event with its end
      ([CalendarDraftProps.event_times_unrelated]).

    ** What is not modelled

    Mutex poisoning (no modelled method panics with a lock held), tracing output,
    failures of the database file, and the error [source] chain.  Of the kernel:
    ai_usage.rs (a record and a tracing sink).  Of the application:
    the decoding of HTTP requests, settings and overlays, language-model calls and
    prompts (so also the flow of [produce.rs] around the staging of a draft, and the
    grounding and enrichment that read the web and the books for it), migrations (the
    tables' constraints are part of the writes), and the slices not named above: e-mail
    triage and drafts, CRM records, packet proposals, claims,
    inventory, marketing and administration.  They write through [mutate] and
    [enqueue_within] like the slices that are modelled; here they are the mutations
    other slices may make between two calls.  Of bos-integrations only the clients that
    write payments, invoices and events are modelled; the others read providers or send
    mail, and are [dispatch] or a read client here.  bos-contracts is data without behaviour;
    the frontend is TypeScript. *)

From Stdlib Require Export Lia.
From stdpp Require Export base option numbers.
From stdpp Require Export sorting strings gmap list_numbers list.
From Stdlib Require HexadecimalString HexadecimalN.

#[export] Set Default Proof Using "Type".

(** ** Results

    [Result E T] is Rust's [Result<T, E>]; the error type comes first so that
    [Result E] is the monad and stdpp's [x ← m; k] reads as the source's [?]. *)

Inductive Result (E T : Type) : Type :=
| Ok (v : T)
| Err (e : E).
Arguments Ok {E T} v.
Arguments Err {E T} e.

#[global] Instance Result_ret {E} : MRet (Result E) := fun T v => Ok v.
#[global] Instance Result_bind {E} : MBind (Result E) :=
  fun T U k m => match m with Ok v => k v | Err e => Err e end.

Definition is_ok {E T} (r : Result E T) : bool :=
  match r with Ok _ => true | Err _ => false end.

Definition Result_map {E T U} (f : T → U) (r : Result E T) : Result E U :=
  match r with Ok v => Ok (f v) | Err e => Err e end.

(** [Option::ok_or_else]. *)
Definition ok_or {E T} (o : option T) (e : E) : Result E T :=
  match o with Some v => Ok v | None => Err e end.

(** A guard that returns early with an error: [if c { return Err(e) }]. *)
Definition guard_err {E} (c : bool) (e : E) : Result E unit :=
  if c then Err e else Ok tt.

(** ** Operations on a locked state

    A method that takes the mutex runs to completion with the guard held: it
    is a function from the state to a result and a new state.  An early error
    return does not roll the state back, so the new state is there in both
    cases. *)

Definition Op (S E A : Type) : Type := S → Result E A * S.

Definition op_ret {S E A} (a : A) : Op S E A := fun s => (Ok a, s).
Definition op_bind {S E A B} (m : Op S E A) (k : A → Op S E B) : Op S E B :=
  fun s => match m s with
           | (Ok a, s') => k a s'
           | (Err e, s') => (Err e, s')
           end.
Definition op_get {S E} : Op S E S := fun s => (Ok s, s).
Definition op_put {S E} (s : S) : Op S E unit := fun _ => (Ok tt, s).
Definition op_lift {S E A} (r : Result E A) : Op S E A := fun s => (r, s).
Definition op_map {S E A B} (f : A → B) (m : Op S E A) : Op S E B :=
  op_bind m (fun a => op_ret (f a)).

Declare Scope op_scope.
Delimit Scope op_scope with op.
Notation "'let?' x ':=' m 'in' k" := (op_bind m (fun x => k))
  (at level 10, x binder, m at level 100, k at level 200,
   format "'let?'  x  ':='  m  'in' '//' k") : op_scope.
Notation "m ';;?' k" := (op_bind m (fun _ => k))
  (at level 199, right associativity, format "m  ';;?' '//' k") : op_scope.
Open Scope op_scope.

(** [preserves I m]: whatever [m] returns, it keeps the invariant [I]. *)
Definition preserves {S E A} (I : S → Prop) (m : Op S E A) : Prop :=
  ∀ s, I s → I (m s).2.

(** [rejects_unchanged m]: an error leaves the state as it was. *)
Definition rejects_unchanged {S E A} (m : Op S E A) : Prop :=
  ∀ s e s', m s = (Err e, s') → s' = s.

(** [reads m]: the operation never writes. *)
Definition reads {S E A} (m : Op S E A) : Prop := ∀ s, (m s).2 = s.

Section op_lemmas.
  Context {S E : Type}.

Lemma op_bind_step {A B} (m : Op S E A) (k : A → Op S E B) s a s' :
  m s = (Ok a, s') → op_bind m k s = k a s'.
Proof. unfold op_bind. by intros ->. Qed.

Lemma preserves_ret {A} (I : S → Prop) (a : A) : preserves I (op_ret (E:=E) a).
Proof. intros s Hs. exact Hs. Qed.

Lemma preserves_lift {A} (I : S → Prop) (r : Result E A) : preserves I (op_lift r).
Proof. intros s Hs. exact Hs. Qed.

Lemma preserves_bind {A B} (I : S → Prop) (m : Op S E A) (k : A → Op S E B) :
  preserves I m → (∀ a, preserves I (k a)) → preserves I (op_bind m k).
Proof.
  intros Hm Hk s Hs. unfold op_bind. specialize (Hm s Hs).
  destruct (m s) as [[a|e] s']; simpl in *; [by apply Hk|done].
Qed.

Lemma preserves_map {A B} (I : S → Prop) (f : A → B) (m : Op S E A) :
  preserves I m → preserves I (op_map f m).
Proof. intros Hm. apply preserves_bind; [done|]. intros a. apply preserves_ret. Qed.

Lemma preserves_reads {A} (I : S → Prop) (m : Op S E A) : reads m → preserves I m.
Proof. intros Hm s Hs. by rewrite Hm. Qed.

Lemma reads_ret {A} (a : A) : reads (op_ret (S:=S) (E:=E) a).
Proof. done. Qed.

Lemma reads_lift {A} (r : Result E A) : reads (op_lift (S:=S) r).
Proof. done. Qed.

Lemma reads_bind {A B} (m : Op S E A) (k : A → Op S E B) :
  reads m → (∀ a, reads (k a)) → reads (op_bind m k).
Proof.
  intros Hm Hk s. unfold op_bind. specialize (Hm s). destruct (m s) as [[a|e] s']; simpl in *; subst; [apply Hk|done].
Qed.

Lemma reads_map {A B} (f : A → B) (m : Op S E A) : reads m → reads (op_map f m).
Proof. intros Hm. apply reads_bind; [done|]. intros a. apply reads_ret. Qed.

(** What a sequence of reads returns depends on each of them at the same state. *)
Lemma reads_bind_ok {A B} (m : Op S E A) (k : A → Op S E B) s b s' :
  reads m → op_bind m k s = (Ok b, s') → ∃ a, m s = (Ok a, s) ∧ k a s = (Ok b, s').
Proof.
  intros Hm. unfold op_bind. specialize (Hm s). destruct (m s) as [[a|e] s1]; simpl in *; subst; [|done].
  intros Hk. by exists a.
Qed.

Lemma reads_rejects {A} (m : Op S E A) : reads m → rejects_unchanged m.
Proof. intros Hm s e s' Hs. by rewrite <- (Hm s), Hs. Qed.

Lemma op_bind_ok {A B} (m : Op S E A) (k : A → Op S E B) s b s' :
  op_bind m k s = (Ok b, s') ↔ ∃ a s1, m s = (Ok a, s1) ∧ k a s1 = (Ok b, s').
Proof.
  unfold op_bind. destruct (m s) as [[a|e] s1]; split; intros H; try done;
    try (by repeat eexists); destruct H as (?&?&?&?); by simplify_eq.
Qed.

Lemma op_map_ok {A B} (f : A → B) (m : Op S E A) s b s' :
  op_map f m s = (Ok b, s') ↔ ∃ a, m s = (Ok a, s') ∧ b = f a.
Proof.
  unfold op_map. rewrite op_bind_ok. unfold op_ret. split.
  - intros (a & s1 & ? & ?); simplify_eq; eauto.
  - intros (a & ? & ->); eauto.
Qed.

Lemma op_bind_err {A B} (m : Op S E A) (k : A → Op S E B) s e s' :
  op_bind m k s = (Err e, s') ↔
  m s = (Err e, s') ∨ ∃ a s1, m s = (Ok a, s1) ∧ k a s1 = (Err e, s').
Proof.
  unfold op_bind. destruct (m s) as [[a|e'] s1] eqn:Hm; split; intros H.
  - right; eauto.
  - destruct H as [H|(a'&s2&H1&H2)]; by simplify_eq.
  - left; by simplify_eq.
  - destruct H as [H|(a'&s2&H1&H2)]; by simplify_eq.
Qed.
End op_lemmas.

(** *** Postconditions

    [op_post m w Q X]: from [w], an answer of [m] satisfies [Q], and where it fails the
    state satisfies [X]. *)

Definition op_post {W E A} (m : Op W E A) (w : W) (Q : A → W → Prop) (X : W → Prop) : Prop :=
  match m w with (Ok a, w') => Q a w' | (Err _, w') => X w' end.

Section posts.
Context {W E : Type}.

Lemma op_post_bind {A B} (m : Op W E A) (k : A → Op W E B) w Q X :
  op_post m w (fun a w' => op_post (k a) w' Q X) X → op_post (op_bind m k) w Q X.
Proof. unfold op_post, op_bind. by destruct (m w) as [[a|e] w']. Qed.

Lemma op_post_lift {A} (r : Result E A) w (Q : A → W → Prop) (X : W → Prop) :
  (∀ a, r = Ok a → Q a w) → X w → op_post (op_lift r) w Q X.
Proof. unfold op_post, op_lift. destruct r; auto. Qed.

Lemma op_post_lift_any {A} (r : Result E A) w (Q : A → W → Prop) (X : W → Prop) :
  (∀ a, Q a w) → X w → op_post (op_lift r) w Q X.
Proof. intros HQ HX. by apply op_post_lift. Qed.

Lemma op_post_ret {A} (a : A) w (Q : A → W → Prop) X : Q a w → op_post (op_ret (E:=E) a) w Q X.
Proof. done. Qed.

Lemma op_post_mono {A} (m : Op W E A) w (Q Q' : A → W → Prop) (X X' : W → Prop) :
  op_post m w Q X → (∀ a w', Q a w' → Q' a w') → (∀ w', X w' → X' w') → op_post m w Q' X'.
Proof. unfold op_post. destruct (m w) as [[a|e] w']; auto. Qed.

(** An operation that keeps an invariant. *)
Lemma op_post_preserves {A} (I : W → Prop) (m : Op W E A) w (Q : A → W → Prop) :
  preserves I m → I w → (∀ a w', I w' → Q a w') → op_post m w Q I.
Proof. intros Hm Hw HQ. specialize (Hm w Hw). unfold op_post. destruct (m w) as [[a|e] w']; auto. Qed.

Lemma op_post_ends {A} (m : Op W E A) w (Q : A → W → Prop) (X : W → Prop) :
  op_post m w Q X → (∀ a w', Q a w' → X w') → X (m w).2.
Proof. unfold op_post. destruct (m w) as [[a|e] w']; simpl; eauto. Qed.
End posts.

Create HintDb op_db discriminated.
#[export] Hint Resolve preserves_ret preserves_lift preserves_bind preserves_map : op_db.
#[export] Hint Resolve reads_ret reads_lift reads_bind reads_map : op_db.

(** ** Unsigned machine integers *)

Definition u32_max : N := 4294967295.
Definition u64_modulus : N := 18446744073709551616.
Definition u64_max : N := 18446744073709551615.
Definition usize_max : N := u64_max.

(** [u32::saturating_add], [u64::saturating_add], [usize::saturating_add]. *)
Definition saturating_add_u32 (a b : N) : N := N.min (a + b) u32_max.
Definition saturating_add_u64 (a b : N) : N := N.min (a + b) u64_max.
Definition saturating_add_usize (a b : N) : N := N.min (a + b) usize_max.

(** [a + b] on [u64] in a release build: wrap-around. *)
Definition wrapping_add_u64 (a b : N) : N := ((a + b) mod u64_modulus)%N.

(** [x as i64] for a [u64], and [v as u64] for an [i64]. *)
Definition u64_as_i64 (v : N) : Z :=
  if (v <=? 9223372036854775807)%N then Z.of_N v else (Z.of_N v - 18446744073709551616)%Z.
Definition i64_as_u64 (v : Z) : N := Z.to_N (v mod 18446744073709551616).

(** ** Lists *)

(** [Vec::truncate]: keep the first [n] elements.  The counter is a machine
    integer, so [usize::MAX] is a value like any other. *)
Fixpoint truncate {A} (n : N) (l : list A) : list A :=
  match l with
  | [] => []
  | x :: l' => if (n =? 0)%N then [] else x :: truncate (N.pred n) l'
  end.

Definition len {A} (l : list A) : N := N.of_nat (length l).

(** [Iterator::min] over keys. *)
Definition iter_min (l : list Z) : option Z :=
  foldr (fun x acc => Some (match acc with Some y => Z.min x y | None => x end)) None l.

(** [Iterator::sum] over [usize] counts (a count of entries in memory cannot
    overflow). *)
Definition iter_sum (l : list N) : N := foldr N.add 0%N l.

Definition option_any {A} (f : A → bool) (o : option A) : bool :=
  match o with Some a => f a | None => false end.

(** [o.map(f).unwrap_or(true)], the filter idiom of the queries. *)
Definition map_or_true {A} (f : A → bool) (o : option A) : bool :=
  match o with Some a => f a | None => true end.

(** The values of a hash map in one iteration order; no operation may depend on
    which one it is. *)
Definition values {K V} `{Countable K} (m : gmap K V) : list V := (map_to_list m).*2.

Lemma list_filter_fmap {A B} (g : A → B) (P : B → Prop) `{∀ b, Decision (P b)} (l : list A) :
  filter P (g <$> l) = g <$> filter (fun a => P (g a)) l.
Proof.
  induction l as [|a l IH]; [done|]. rewrite fmap_cons, !filter_cons, IH. by destruct (decide (P (g a))).
Qed.

(** An update of one key is an insertion of the new value, if there is one. *)
Lemma alter_lookup {K V} `{Countable K} (m : gmap K V) k f :
  alter f k m = match m !! k with Some v => <[k := f v]> m | None => m end.
Proof.
  apply map_eq. intros k'. destruct (m !! k) as [v|] eqn:Hk.
  - destruct (decide (k = k')) as [<-|Hne]; [by rewrite lookup_alter_eq, lookup_insert_eq, Hk|].
    by rewrite lookup_alter_ne, lookup_insert_ne.
  - destruct (decide (k = k')) as [<-|Hne]; [by rewrite lookup_alter_eq, Hk|by rewrite lookup_alter_ne].
Qed.

Lemma elem_of_values {K V} `{Countable K} (m : gmap K V) v :
  v ∈ values m ↔ ∃ k, m !! k = Some v.
Proof.
  unfold values. rewrite list_elem_of_fmap. split.
  - intros ([k v'] & -> & Hk%elem_of_map_to_list). eauto.
  - intros [k Hk]. exists (k, v). by rewrite elem_of_map_to_list.
Qed.

Lemma existsb_values_false {K V} `{Countable K} (f : V → bool) (m : gmap K V) k v :
  existsb f (values m) = false → m !! k = Some v → f v = false.
Proof.
  intros Hf Hk. destruct (f v) eqn:Hv; [|done]. assert (existsb f (values m) = true); [|congruence].
  apply existsb_exists. exists v. split; [|done]. apply list_elem_of_In, elem_of_values. by exists k.
Qed.

Lemma values_insert_new {K V} `{Countable K} (m : gmap K V) k v :
  m !! k = None → values (<[k := v]> m) ≡ₚ v :: values m.
Proof. intros Hk. unfold values. by rewrite map_to_list_insert. Qed.

Lemma values_lookup {K V} `{Countable K} (m : gmap K V) k v :
  m !! k = Some v → values m ≡ₚ v :: values (delete k m).
Proof.
  intros Hk. rewrite <- (insert_delete_id m k v Hk) at 1.
  apply values_insert_new, lookup_delete_eq.
Qed.

Lemma values_insert {K V} `{Countable K} (m : gmap K V) k v :
  values (<[k := v]> m) ≡ₚ v :: values (delete k m).
Proof. rewrite <- insert_delete_eq. apply values_insert_new, lookup_delete_eq. Qed.

Lemma length_values {K V} `{Countable K} (m : gmap K V) : length (values m) = size m.
Proof. unfold values. by rewrite length_fmap, length_map_to_list. Qed.

(** When each value knows its own key, the values' keys are different. *)
Lemma values_keyed_NoDup {K V} `{Countable K} (m : gmap K V) (key : V → K) :
  (∀ i v, m !! i = Some v → key v = i) → NoDup (key <$> values m).
Proof.
  intros Hkey. unfold values. rewrite <- list_fmap_compose.
  replace (key ∘ snd <$> map_to_list m) with ((map_to_list m).*1); [apply NoDup_fst_map_to_list|].
  apply list_fmap_ext. intros n [i v] Hn. simpl. symmetry. apply Hkey.
  by apply elem_of_map_to_list, list_elem_of_lookup_2 with n.
Qed.

Lemma truncate_take {A} n (l : list A) : truncate n l = take (N.to_nat n) l.
Proof.
  revert n. induction l as [|x l IH]; intros n; simpl; [by destruct (N.to_nat n)|].
  destruct (N.eqb_spec n 0) as [->|Hn]; [done|].
  rewrite IH. replace (N.to_nat n) with (S (N.to_nat (N.pred n))) by lia. done.
Qed.

Lemma truncate_sublist {A} n (l : list A) : truncate n l `prefix_of` l.
Proof. rewrite truncate_take. apply prefix_take. Qed.

Lemma elem_of_truncate {A} n (l : list A) x : x ∈ truncate n l → x ∈ l.
Proof. rewrite truncate_take. intros Hx. by apply elem_of_take in Hx as (i & ? & _); eapply list_elem_of_lookup_2. Qed.

Lemma length_truncate {A} n (l : list A) : len (truncate n l) = N.min n (len l).
Proof. unfold len. rewrite truncate_take, length_take. lia. Qed.

Lemma len_truncate_le {A} n (l : list A) : (len (truncate n l) ≤ n)%N.
Proof. rewrite length_truncate. lia. Qed.

Lemma len_fmap {A B} (f : A → B) (l : list A) : len (f <$> l) = len l.
Proof. unfold len. by rewrite length_fmap. Qed.

Lemma truncate_fmap {A B} (f : A → B) n (l : list A) : truncate n (f <$> l) = f <$> truncate n l.
Proof. by rewrite !truncate_take, fmap_take. Qed.

Lemma NoDup_truncate {A} n (l : list A) : NoDup l → NoDup (truncate n l).
Proof. intros Hl. rewrite truncate_take. by apply (sublist_NoDup _ l), sublist_take. Qed.

Lemma truncate_all {A} n (l : list A) : (len l ≤ n)%N → truncate n l = l.
Proof. unfold len. intros Hn. rewrite truncate_take. apply take_ge. lia. Qed.

Lemma iter_min_le l x : x ∈ l → ∃ m, iter_min l = Some m ∧ (m ≤ x)%Z.
Proof.
  induction 1 as [x l|x y l _ (m & Hm & Hle)]; unfold iter_min in *; simpl.
  - case_match; eexists; split; done || lia.
  - rewrite Hm. eexists; split; [done|lia].
Qed.

Lemma iter_min_in l m : iter_min l = Some m → m ∈ l.
Proof.
  revert m. induction l as [|x l IH]; intros m; [done|].
  unfold iter_min in *. simpl. case_match; intros [= <-]; [|by left].
  match goal with |- context [Z.min x ?z] => rename z into y end.
  destruct (Z.min_spec x y) as [[_ ->]|[_ ->]]; [by left|right; by apply IH].
Qed.

Lemma iter_min_none l : iter_min l = None ↔ l = [].
Proof. destruct l; simpl; done. Qed.

Lemma iter_min_cons x l :
  iter_min (x :: l) = Some (match iter_min l with Some y => Z.min x y | None => x end).
Proof. done. Qed.

Lemma iter_min_perm l1 l2 : l1 ≡ₚ l2 → iter_min l1 = iter_min l2.
Proof.
  induction 1 as [|x l1 l2 _ IH|x y l|l1 l2 l3 _ IH1 _ IH2]; [done| | |by rewrite IH1].
  - by rewrite !iter_min_cons, IH.
  - rewrite !iter_min_cons. destruct (iter_min l); f_equal; lia.
Qed.

Lemma iter_sum_perm l1 l2 : l1 ≡ₚ l2 → iter_sum l1 = iter_sum l2.
Proof. unfold iter_sum. induction 1; simpl; lia. Qed.

Lemma filter_perm_length {A} (P : A → bool) (l1 l2 : list A) :
  l1 ≡ₚ l2 → length (filter P l1) = length (filter P l2).
Proof. intros ->. done. Qed.

Lemma filter_ext_in {A} (p q : A → bool) (l : list A) :
  (∀ x, x ∈ l → p x = q x) → filter (fun x => p x) l = filter (fun x => q x) l.
Proof.
  induction l as [|x l IH]; intros Hpq; [done|].
  rewrite !filter_cons, (Hpq x) by (by left). rewrite IH; [done|].
  intros y Hy. apply Hpq. by right.
Qed.

Lemma len_cons {A} (x : A) l : len (x :: l) = (1 + len l)%N.
Proof. unfold len. simpl. lia. Qed.

Lemma saturating_add_u32_bound a b : (saturating_add_u32 a b ≤ u32_max)%N.
Proof. unfold saturating_add_u32. lia. Qed.

Lemma u64_as_i64_roundtrip v : (v < u64_modulus)%N → i64_as_u64 (u64_as_i64 v) = v.
Proof.
  unfold u64_modulus, i64_as_u64, u64_as_i64. intros Hv.
  destruct (N.leb_spec v 9223372036854775807).
  - rewrite Z.mod_small; lia.
  - replace (Z.of_N v - 18446744073709551616)%Z
      with (Z.of_N v + (-1) * 18446744073709551616)%Z by lia.
    rewrite Z.mod_add, Z.mod_small; lia.
Qed.
