(* ===== verification/RustStd.v ===== *)
(** * The parts of the Rust standard library the program leans on

    Total orders ([Ord]) and [sort_by_key], [SystemTime] and [Duration],
    [str::trim] on UTF-8 bytes, and the number formats [{}], [{:x}] and
    [{:012}].  Everything here is executable. *)

From Stdlib Require Export Ascii.
From Stdlib Require String.
From Stdlib Require DecimalString DecimalN.
From Stdlib Require Import ZifyBool.
From S2P Require Import Prelude.
Open Scope string_scope.
Open Scope list_scope.

(** ** [Ord] and [sort_by_key] *)

Class Ord (K : Type) := {
  ord_le : relation K;
  #[global] ord_dec :: RelDecision ord_le;
  #[global] ord_po :: PartialOrder ord_le;
  #[global] ord_total :: Total ord_le;
}.

#[global] Instance Z_ord : Ord Z := { ord_le := Z.le }.
#[global] Instance string_ord : Ord string := { ord_le := String.le }.

(** [None < Some _]. *)
Definition option_ord_le {K} `{Ord K} (a b : option K) : Prop :=
  match a, b with
  | None, _ => True
  | Some _, None => False
  | Some x, Some y => ord_le x y
  end.

(** Tuples compare lexicographically. *)
Definition prod_ord_le {K L} `{Ord K} `{Ord L} (a b : K * L) : Prop :=
  ord_le a.1 b.1 ∧ (ord_le b.1 a.1 → ord_le a.2 b.2).

#[global] Instance option_ord_le_dec {K} `{Ord K} : RelDecision (option_ord_le (K:=K)).
Proof. intros [x|] [y|]; simpl; apply _. Defined.
#[global] Instance prod_ord_le_dec {K L} `{Ord K} `{Ord L} : RelDecision (prod_ord_le (K:=K) (L:=L)).
Proof.
  intros [x1 y1] [x2 y2]. unfold prod_ord_le; simpl.
  destruct (decide (ord_le x1 x2)); [|right; by intros [??]].
  destruct (decide (ord_le x2 x1)); [|left; by split].
  destruct (decide (ord_le y1 y2)); [left; by split|right; intros [_ ?]; auto].
Defined.

#[global] Program Instance option_ord {K} `{Ord K} : Ord (option K) :=
  { ord_le := option_ord_le }.
Next Obligation.
  intros K HK. split; [split|].
  - intros [x|]; simpl; [reflexivity|done].
  - intros [x|] [y|] [z|]; simpl; try done. intros; by etrans.
  - intros [x|] [y|]; simpl; try done. intros; f_equal; by apply (anti_symm ord_le).
Qed.
Next Obligation. intros K HK [x|] [y|]; simpl; auto. apply (total ord_le). Qed.

#[global] Program Instance prod_ord {K L} `{Ord K} `{Ord L} : Ord (K * L) :=
  { ord_le := prod_ord_le }.
Next Obligation.
  intros K L HK HL. unfold prod_ord_le. split; [split|].
  - intros [x y]; simpl. split; intros; reflexivity.
  - intros [x1 y1] [x2 y2] [x3 y3]; simpl. intros [H1 H2] [H3 H4]. split; [by etrans|].
    intros H5. etrans; [apply H2|apply H4]; by etrans.
  - intros [x1 y1] [x2 y2]; simpl. intros [H1 H2] [H3 H4].
    f_equal; by apply (anti_symm ord_le); auto.
Qed.
Next Obligation.
  intros K L HK HL [x1 y1] [x2 y2]. unfold prod_ord_le; simpl.
  destruct (decide (ord_le x1 x2)), (decide (ord_le x2 x1)).
  - destruct (total ord_le y1 y2); [left|right]; by split.
  - left; by split.
  - right; by split.
  - destruct (total ord_le x1 x2); done.
Qed.

(** [std::cmp::Reverse]. *)
Record Reverse (K : Type) := MkReverse { unreverse : K }.
Arguments MkReverse {K} _.
Arguments unreverse {K} _.

#[global] Program Instance Reverse_ord {K} `{Ord K} : Ord (Reverse K) :=
  { ord_le := fun a b => ord_le (unreverse b) (unreverse a) }.
Next Obligation. intros K HK [a] [b]; simpl; apply _. Defined.
Next Obligation.
  intros K HK. split; [split|].
  - intros [a]; simpl; reflexivity.
  - intros [a] [b] [c]; simpl. intros; by etrans.
  - intros [a] [b]; simpl. intros; f_equal; by apply (anti_symm ord_le).
Qed.
Next Obligation. intros K HK [a] [b]; simpl. apply (total ord_le). Qed.

(** [slice::sort_by_key] is a stable sort: an element goes before the elements
    with an equal key that came after it. *)
Fixpoint insert_by_key {A K} `{Ord K} (f : A → K) (x : A) (l : list A) : list A :=
  match l with
  | [] => [x]
  | y :: l' => if decide (ord_le (f x) (f y)) then x :: l else y :: insert_by_key f x l'
  end.

Definition sort_by_key {A K} `{Ord K} (f : A → K) (l : list A) : list A :=
  foldr (insert_by_key f) [] l.

Definition key_le {A K} `{Ord K} (f : A → K) (x y : A) : Prop := ord_le (f x) (f y).

Section sort.
  Context {A K : Type} `{Ord K} (f : A → K).

#[local] Instance key_le_trans : Transitive (key_le f).
Proof. intros x y z. unfold key_le. intros; by etrans. Qed.

Lemma insert_by_key_perm x l : insert_by_key f x l ≡ₚ x :: l.
Proof.
  induction l as [|y l IH]; simpl; [done|]. case_decide; [done|].
  rewrite IH. by apply Permutation_swap.
Qed.

Lemma sort_by_key_perm l : sort_by_key f l ≡ₚ l.
Proof.
  induction l as [|x l IH]; simpl; [done|]. by rewrite insert_by_key_perm, IH.
Qed.

Lemma insert_by_key_sorted x l :
  StronglySorted (key_le f) l → StronglySorted (key_le f) (insert_by_key f x l).
Proof.
  induction 1 as [|y l Hl IH Hy]; simpl; [repeat constructor|].
  case_decide as Hxy.
  - repeat constructor; try done.
    rewrite Forall_forall in Hy |- *. intros z Hz%Hy. unfold key_le in *. by etrans.
  - constructor; [done|]. rewrite insert_by_key_perm. constructor; [|done].
    unfold key_le. by destruct (total ord_le (f x) (f y)).
Qed.

Lemma sort_by_key_sorted l : StronglySorted (key_le f) (sort_by_key f l).
Proof. induction l as [|x l IH]; simpl; [constructor|by apply insert_by_key_sorted]. Qed.

Lemma elem_of_sort_by_key x l : x ∈ sort_by_key f l ↔ x ∈ l.
Proof. by rewrite sort_by_key_perm. Qed.

(** When the keys tell the elements apart, the result does not depend on the
    order the elements come in: this is what makes sorting the values of a hash
    map deterministic. *)
Lemma sort_by_key_order_independent l1 l2 :
  l1 ≡ₚ l2 →
  (∀ x y, x ∈ l1 → y ∈ l1 → f x = f y → x = y) →
  sort_by_key f l1 = sort_by_key f l2.
Proof.
  intros Hp Hinj. apply (StronglySorted_unique_strong (key_le f)).
  - intros x y Hx Hy Hxy Hyx. apply Hinj.
    + by rewrite <- (elem_of_sort_by_key x l1).
    + by rewrite Hp, <- (elem_of_sort_by_key y l2).
    + by apply (anti_symm ord_le).
  - apply sort_by_key_sorted.
  - apply sort_by_key_sorted.
  - by rewrite !sort_by_key_perm.
Qed.

(** The prefix that [truncate] keeps holds the smallest keys. *)
Lemma truncate_sort_least n l x y :
  x ∈ truncate n (sort_by_key f l) →
  y ∈ l → y ∉ truncate n (sort_by_key f l) →
  ord_le (f x) (f y).
Proof.
  rewrite truncate_take. intros Hx Hy Hn.
  pose proof (sort_by_key_sorted l) as Hs.
  rewrite <- (take_drop (N.to_nat n) (sort_by_key f l)) in Hs.
  eapply (StronglySorted_app_1_elem_of (key_le f)); [exact Hs|done|].
  apply elem_of_sort_by_key in Hy.
  rewrite <- (take_drop (N.to_nat n) (sort_by_key f l)) in Hy.
  by apply elem_of_app in Hy as [?|?].
Qed.

Lemma insert_by_key_fmap {B} (g : B → A) x l :
  insert_by_key f (g x) (g <$> l) = g <$> insert_by_key (fun y => f (g y)) x l.
Proof.
  induction l as [|y l IH]; [done|]. rewrite fmap_cons. simpl.
  case_decide; [done|]. by rewrite IH.
Qed.

Lemma sort_by_key_fmap {B} (g : B → A) l :
  sort_by_key f (g <$> l) = g <$> sort_by_key (fun y => f (g y)) l.
Proof.
  induction l as [|x l IH]; [done|]. rewrite fmap_cons. simpl. rewrite IH.
  apply insert_by_key_fmap.
Qed.

Lemma insert_by_key_filter (P : A → Prop) `{∀ a, Decision (P a)} x l :
  StronglySorted (key_le f) l →
  filter P (insert_by_key f x l) = if decide (P x) then insert_by_key f x (filter P l) else filter P l.
Proof.
  induction 1 as [|y l Hs IH Hall]; simpl.
  { rewrite filter_cons. by case_decide. }
  destruct (decide (ord_le (f x) (f y))) as [Hle|Hgt].
  - rewrite filter_cons. destruct (decide (P x)); [|done].
    assert (Hx : Forall (key_le f x) (filter P (y :: l))).
    { apply Forall_forall. intros z [_ Hz]%list_elem_of_filter. apply elem_of_cons in Hz as [->|Hz]; [done|].
      rewrite Forall_forall in Hall. unfold key_le in *. etrans; [done|by apply Hall]. }
    destruct (filter P (y :: l)) as [|z l']; simpl; [done|]. apply Forall_cons in Hx as [Hx _].
    by rewrite decide_True.
  - rewrite !filter_cons, IH. destruct (decide (P y)), (decide (P x)); simpl; rewrite ?decide_False by done; done.
Qed.

(** Sorting and filtering commute. *)
Lemma sort_by_key_filter (P : A → Prop) `{∀ a, Decision (P a)} l :
  filter P (sort_by_key f l) = sort_by_key f (filter P l).
Proof.
  induction l as [|x l IH]; [done|]. simpl. rewrite insert_by_key_filter by apply sort_by_key_sorted.
  rewrite filter_cons, IH. by destruct (decide (P x)).
Qed.

Lemma length_sort_by_key l : length (sort_by_key f l) = length l.
Proof. by rewrite sort_by_key_perm. Qed.
End sort.

(** ** [SystemTime] and [Duration]

    A [SystemTime] is a count of nanoseconds since the Unix epoch whose seconds
    are an [i64]; a [Duration] is a count of nanoseconds. *)

Abbreviation SystemTime := Z (only parsing).
Abbreviation Duration := N (only parsing).

Definition SystemTime_max : Z := 9223372036854775807 * 1000000000 + 999999999.

(** [SystemTime::checked_add]. *)
Definition checked_add (t : SystemTime) (d : Duration) : option SystemTime :=
  let r := (t + Z.of_N d)%Z in
  if (r <=? SystemTime_max)%Z then Some r else None.

(** [now.checked_add(ttl).unwrap_or(now)]. *)
Definition add_or_now (now : SystemTime) (ttl : Duration) : SystemTime :=
  default now (checked_add now ttl).

Definition is_zero (d : Duration) : bool := (d =? 0)%N.

Lemma add_or_now_ge now ttl : (now ≤ add_or_now now ttl)%Z.
Proof.
  unfold add_or_now, checked_add. destruct (Z.leb_spec (now + Z.of_N ttl) SystemTime_max); simpl; lia.
Qed.

Lemma add_or_now_exact now ttl :
  (now + Z.of_N ttl ≤ SystemTime_max)%Z → add_or_now now ttl = (now + Z.of_N ttl)%Z.
Proof. unfold add_or_now, checked_add. intros H%Z.leb_le. by rewrite H. Qed.

Lemma add_or_now_overflow now ttl :
  (SystemTime_max < now + Z.of_N ttl)%Z → add_or_now now ttl = now.
Proof.
  unfold add_or_now, checked_add. intros H.
  by replace (now + Z.of_N ttl <=? SystemTime_max)%Z with false by (symmetry; apply Z.leb_gt; lia).
Qed.

(** ** [str::trim]

    Strings are UTF-8 byte strings.  [trim] strips the code points with the
    Unicode property White_Space from both ends; these are, by the length of
    their encoding:
    - one byte: U+0009..U+000D and U+0020;
    - two bytes: U+0085 (C2 85) and U+00A0 (C2 A0);
    - three bytes: U+1680 (E1 9A 80), U+2000..U+200A (E2 80 80..8A), U+2028 and
      U+2029 (E2 80 A8, A9), U+202F (E2 80 AF), U+205F (E2 81 9F), U+3000 (E3 80 80). *)

Definition byte_of (a : ascii) : N := N_of_ascii a.

Definition is_ws1 (a : ascii) : bool :=
  let b := byte_of a in ((9 <=? b) && (b <=? 13) || (b =? 32))%N.
Definition is_ws2 (a b : ascii) : bool :=
  ((byte_of a =? 194) && ((byte_of b =? 133) || (byte_of b =? 160)))%N.
Definition is_ws3 (a b c : ascii) : bool :=
  let x := byte_of a in let y := byte_of b in let z := byte_of c in
  (((x =? 225) && (y =? 154) && (z =? 128))
   || ((x =? 226) && (y =? 128)
       && (((128 <=? z) && (z <=? 138)) || (z =? 168) || (z =? 169) || (z =? 175)))
   || ((x =? 226) && (y =? 129) && (z =? 159))
   || ((x =? 227) && (y =? 128) && (z =? 128)))%N.

(** Strip leading white space, with the multi-byte encodings as parameters: the
    end of a string is stripped by reading its bytes backwards. *)
Fixpoint strip_front (w2 : ascii → ascii → bool) (w3 : ascii → ascii → ascii → bool)
    (l : list ascii) : list ascii :=
  match l with
  | [] => []
  | a :: l1 =>
    if is_ws1 a then strip_front w2 w3 l1 else
    match l1 with
    | [] => l
    | b :: l2 =>
      if w2 a b then strip_front w2 w3 l2 else
      match l2 with
      | [] => l
      | c :: l3 => if w3 a b c then strip_front w2 w3 l3 else l
      end
    end
  end.

Definition strip_start : list ascii → list ascii := strip_front is_ws2 is_ws3.
Definition strip_end (l : list ascii) : list ascii :=
  reverse (strip_front (fun a b => is_ws2 b a) (fun a b c => is_ws3 c b a) (reverse l)).

Definition trim (s : string) : string :=
  String.string_of_list_ascii (strip_end (strip_start (String.list_ascii_of_string s))).

Definition is_empty (s : string) : bool :=
  match s with EmptyString => true | String _ _ => false end.

(** [s.trim().is_empty()]. *)
Definition is_blank (s : string) : bool := is_empty (trim s).

Section strip.
  Context (w2 : ascii → ascii → bool) (w3 : ascii → ascii → ascii → bool).
  Local Abbreviation strip := (strip_front w2 w3).

(** Some white space in front. *)
Definition ws_head (l : list ascii) : bool :=
  match l with
  | [] => false
  | a :: l1 => is_ws1 a || match l1 with
      | [] => false
      | b :: l2 => w2 a b || match l2 with [] => false | c :: _ => w3 a b c end
      end
  end.

Lemma strip_front_spec l :
  ws_head (strip l) = false ∧ ∃ p, l = p ++ strip l ∧ (ws_head l = false → p = []).
Proof.
  induction l as [l IH] using (well_founded_induction (well_founded_ltof _ length)).
  unfold ltof in IH. destruct l as [|a [|b [|c l3]]]; simpl.
  - split; [done|]. by exists [].
  - destruct (is_ws1 a) eqn:Ha; simpl; rewrite ?Ha; (split; [done|]); [by exists [a]|by exists []].
  - destruct (is_ws1 a) eqn:Ha; simpl.
    + destruct (IH [b]) as [H1 [p [H2 _]]]; [simpl; lia|]. split; [done|].
      exists (a :: p). simpl. split; [by f_equal|done].
    + destruct (w2 a b) eqn:Hab; simpl; rewrite ?Ha, ?Hab; (split; [done|]);
        [by exists [a; b]|by exists []].
  - destruct (is_ws1 a) eqn:Ha; [|destruct (w2 a b) eqn:Hab; [|destruct (w3 a b c) eqn:Habc]].
    + destruct (IH (b :: c :: l3)) as [H1 [p [H2 _]]]; [simpl; lia|]. split; [done|].
      exists (a :: p). simpl. split; [by f_equal|done].
    + destruct (IH (c :: l3)) as [H1 [p [H2 _]]]; [simpl; lia|]. split; [done|].
      exists (a :: b :: p). simpl. split; [by do 2 f_equal|done].
    + destruct (IH l3) as [H1 [p [H2 _]]]; [simpl; lia|]. split; [done|].
      exists (a :: b :: c :: p). simpl. split; [by do 3 f_equal|done].
    + simpl. rewrite Ha, Hab, Habc. split; [done|]. by exists [].
Qed.

Lemma strip_front_id l : ws_head l = false → strip l = l.
Proof.
  intros Hl. destruct (strip_front_spec l) as [_ (p & Heq & Hp)].
  rewrite (Hp Hl) in Heq. done.
Qed.

Lemma ws_head_app p q : ws_head (p ++ q) = false → ws_head p = false.
Proof.
  destruct p as [|a [|b [|c p]]]; simpl; try done.
  - by intros [-> _]%orb_false_iff.
  - intros [-> [-> _]%orb_false_iff]%orb_false_iff. done.
Qed.
End strip.

Lemma trim_bytes_idemp l :
  strip_end (strip_start (strip_end (strip_start l))) = strip_end (strip_start l).
Proof.
  unfold strip_end, strip_start.
  set (t := strip_front is_ws2 is_ws3 l).
  set (w2 := fun a b => is_ws2 b a). set (w3 := fun a b c => is_ws3 c b a).
  destruct (strip_front_spec w2 w3 (reverse t)) as [Hend (p & Hp & _)].
  set (u := strip_front w2 w3 (reverse t)) in *.
  assert (Ht : t = reverse u ++ reverse p).
  { rewrite <- reverse_app, <- Hp. by rewrite reverse_involutive. }
  assert (Hu : ws_head is_ws2 is_ws3 (reverse u) = false).
  { apply (ws_head_app _ _ _ (reverse p)). rewrite <- Ht. apply strip_front_spec. }
  rewrite (strip_front_id _ _ _ Hu), reverse_involutive.
  by rewrite (strip_front_id w2 w3 u Hend).
Qed.

Lemma trim_idemp s : trim (trim s) = trim s.
Proof. unfold trim. by rewrite String.list_ascii_of_string_of_list_ascii, trim_bytes_idemp. Qed.

Lemma is_blank_trim s : is_blank (trim s) = is_blank s.
Proof. unfold is_blank. by rewrite trim_idemp. Qed.

(** ** Number formats *)

(** [{:x}]: lower-case hexadecimal, no padding. *)
Definition fmt_hex (n : N) : string :=
  HexadecimalString.NilEmpty.string_of_uint (N.to_hex_uint n).

(** [{}]: decimal. *)
Definition fmt_dec (n : N) : string :=
  DecimalString.NilEmpty.string_of_uint (N.to_uint n).

(** [{:012}]: decimal, padded with zeros on the left to twelve digits. *)
Fixpoint zeros (k : nat) (s : string) : string :=
  match k with O => s | S k' => String "0" (zeros k' s) end.
Definition fmt_dec_pad12 (n : N) : string :=
  zeros (12 - String.length (fmt_dec n)) (fmt_dec n).

Lemma fmt_hex_inj m n : fmt_hex m = fmt_hex n → m = n.
Proof.
  unfold fmt_hex. intros Heq.
  apply (f_equal HexadecimalString.NilEmpty.uint_of_string) in Heq.
  rewrite !HexadecimalString.NilEmpty.usu in Heq. injection Heq as Heq.
  by apply HexadecimalN.Unsigned.to_uint_inj.
Qed.

Lemma fmt_dec_inj m n : fmt_dec m = fmt_dec n → m = n.
Proof.
  unfold fmt_dec. intros Heq.
  apply (f_equal DecimalString.NilEmpty.uint_of_string) in Heq.
  rewrite !DecimalString.NilEmpty.usu in Heq. injection Heq as Heq.
  by apply DecimalN.Unsigned.to_uint_inj.
Qed.

Lemma string_app_inj_r p s t : p +:+ s = p +:+ t → s = t.
Proof. apply (inj (String.append p)). Qed.

(** Dropping the padding gives the number back. *)
Lemma zeros_to_N k s u :
  DecimalString.NilEmpty.uint_of_string s = Some u →
  ∃ v, DecimalString.NilEmpty.uint_of_string (zeros k s) = Some v ∧ N.of_uint v = N.of_uint u.
Proof.
  intros Hs. induction k as [|k (v & Hv & Hn)]; simpl; [eauto|].
  rewrite Hv. simpl. eauto.
Qed.

Lemma fmt_dec_pad12_inj m n : fmt_dec_pad12 m = fmt_dec_pad12 n → m = n.
Proof.
  unfold fmt_dec_pad12. intros Heq.
  destruct (zeros_to_N (12 - String.length (fmt_dec m)) (fmt_dec m) (N.to_uint m))
    as (u & Hu & Hun); [apply DecimalString.NilEmpty.usu|].
  destruct (zeros_to_N (12 - String.length (fmt_dec n)) (fmt_dec n) (N.to_uint n))
    as (v & Hv & Hvn); [apply DecimalString.NilEmpty.usu|].
  rewrite Heq, Hv in Hu. simplify_eq. rewrite Hun in Hvn.
  by rewrite !DecimalN.Unsigned.of_to in Hvn.
Qed.

(** ** Strings of visible ASCII

    A non-empty one has nothing to trim: this covers the identifiers the program
    builds itself. *)

Definition visible (a : ascii) : bool :=
  let b := byte_of a in ((33 <=? b) && (b <=? 126))%N.
Definition all_visible (s : string) : bool := forallb visible (String.list_ascii_of_string s).

Lemma list_ascii_app s t :
  String.list_ascii_of_string (s +:+ t) = String.list_ascii_of_string s ++ String.list_ascii_of_string t.
Proof. induction s as [|a s IH]; simpl; [done|by rewrite IH]. Qed.

Lemma all_visible_app s t : all_visible (s +:+ t) = all_visible s && all_visible t.
Proof. unfold all_visible. by rewrite list_ascii_app, forallb_app. Qed.

Lemma visible_ws_head w2 w3 l :
  (∀ a b, visible a = true → w2 a b = false) →
  (∀ a b c, visible a = true → w3 a b c = false) →
  forallb visible l = true → ws_head w2 w3 l = false.
Proof.
  intros Hw2 Hw3. destruct l as [|a l]; [done|]. simpl. intros [Ha _]%andb_true_iff.
  assert (Hw1 : is_ws1 a = false).
  { unfold visible, is_ws1 in *. apply not_true_is_false. intros H. lia. }
  rewrite Hw1. destruct l as [|b l]; [done|]. rewrite Hw2 by done.
  destruct l as [|c l]; [done|]. by rewrite Hw3.
Qed.

Lemma trim_visible s : all_visible s = true → trim s = s.
Proof.
  intros Hs. unfold trim, strip_end, strip_start, all_visible in *.
  set (l := String.list_ascii_of_string s) in *.
  assert (Hr : forallb visible (reverse l) = true).
  { rewrite forallb_forall in *. intros x Hx. apply Hs, list_elem_of_In.
    by rewrite <- elem_of_reverse, list_elem_of_In. }
  rewrite (strip_front_id _ _ l); [rewrite strip_front_id|].
  - rewrite reverse_involutive. unfold l. apply String.string_of_list_ascii_of_string.
  - apply visible_ws_head; [| |done].
    + intros a b Ha. unfold visible, is_ws2 in *. apply not_true_is_false. intros H. lia.
    + intros a b c Ha. unfold visible, is_ws3 in *. apply not_true_is_false. intros H. lia.
  - apply visible_ws_head; [| |done].
    + intros a b Ha. unfold visible, is_ws2 in *. apply not_true_is_false. intros H. lia.
    + intros a b c Ha. unfold visible, is_ws3 in *. apply not_true_is_false. intros H. lia.
Qed.

Lemma is_blank_visible s : all_visible s = true → s ≠ "" → is_blank s = false.
Proof. intros Hs Hne. unfold is_blank. rewrite trim_visible by done. by destruct s. Qed.

Lemma fmt_hex_visible n : all_visible (fmt_hex n) = true.
Proof.
  unfold fmt_hex, all_visible. generalize (N.to_hex_uint n). intros d.
  induction d; simpl; rewrite ?IHd; done.
Qed.

Lemma fmt_dec_visible n : all_visible (fmt_dec n) = true.
Proof.
  unfold fmt_dec, all_visible. generalize (N.to_uint n). intros d.
  induction d; simpl; rewrite ?IHd; done.
Qed.

(** ** Decisions used throughout *)

Definition string_eqb (s t : string) : bool := bool_decide (s = t).

Example trim_ascii : trim "  projection:1  " = "projection:1".
Proof. reflexivity. Qed.
Example fmt_hex_26 : fmt_hex 26 = "1a".
Proof. reflexivity. Qed.
Example fmt_pad_7 : fmt_dec_pad12 7 = "000000000007".
Proof. reflexivity. Qed.

(** [s.strip_prefix(p)]. *)
Fixpoint strip_prefix (p s : string) : option string :=
  match p, s with
  | EmptyString, _ => Some s
  | String a p', String b s' => if Ascii.eqb a b then strip_prefix p' s' else None
  | String _ _, EmptyString => None
  end.

(** [s.contains(p)]. *)
Fixpoint contains (s p : string) : bool :=
  bool_decide (is_Some (strip_prefix p s))
  || match s with EmptyString => false | String _ s' => contains s' p end.
