(* ===== verification/Ids.v ===== *)
(** * Identifiers ([bos-kernel/src/ids.rs])

    The macro [define_id!] makes one newtype over [String] per identifier.  Here
    it is one record indexed by the kind, so that two kinds of identifier are
    two types, as in the source.  An identifier made by [try_new] is trimmed and
    not empty, and parsing it again gives it back. *)

From S2P Require Import Prelude RustStd.

(* src: crates/bos-kernel/src/ids.rs:87-100 define_id! instances *)
Inductive IdKind :=
| CommandIdK | EventIdK | ThreadIdK | ParticipantIdK | MessageIdK | DeliveryIdK
| AgentSessionIdK | WorkflowIdK | ExecutionIdK | CorrelationIdK | CausationIdK
| IdempotencyKeyK | LeaseIdK | OutboxMessageIdK.

(** [stringify!($name)]. *)
Definition kind_name (k : IdKind) : string :=
  match k with
  | CommandIdK => "CommandId" | EventIdK => "EventId" | ThreadIdK => "ThreadId"
  | ParticipantIdK => "ParticipantId" | MessageIdK => "MessageId"
  | DeliveryIdK => "DeliveryId" | AgentSessionIdK => "AgentSessionId"
  | WorkflowIdK => "WorkflowId" | ExecutionIdK => "ExecutionId"
  | CorrelationIdK => "CorrelationId" | CausationIdK => "CausationId"
  | IdempotencyKeyK => "IdempotencyKey" | LeaseIdK => "LeaseId"
  | OutboxMessageIdK => "OutboxMessageId"
  end.

Module InvalidId.
(* src: crates/bos-kernel/src/ids.rs:4-17 InvalidId *)
Record t := mk { type_name : string }.

(* src: crates/bos-kernel/src/ids.rs:21-25 InvalidId::fmt *)
Definition fmt (e : t) : string := type_name e +:+ " cannot be empty".
End InvalidId.

Module Id.
(* src: crates/bos-kernel/src/ids.rs:27-30 define_id! *)
Record t (k : IdKind) := MkId { as_str : string }.
Arguments MkId {k} _.
Arguments as_str {k} _.

(* src: crates/bos-kernel/src/ids.rs:37-45 $name::try_new *)
Definition try_new {k} (value : string) : Result InvalidId.t (t k) :=
  let normalized := trim value in
  if is_empty normalized then Err (InvalidId.mk (kind_name k)) else Ok (MkId normalized).

(** [new] panics on a blank value: no identifier comes out. *)
(* src: crates/bos-kernel/src/ids.rs:33-35 $name::new *)
Definition new {k} (value : string) : option (t k) :=
  match try_new value with Ok i => Some i | Err _ => None end.

(* src: crates/bos-kernel/src/ids.rs:47-50 $name::new_unchecked *)
Definition new_unchecked {k} (value : string) : t k := MkId value.

#[global] Instance eq_dec k : EqDecision (t k).
Proof. intros [a] [b]. destruct (decide (a = b)) as [->|]; [by left|right; congruence]. Defined.

#[global] Program Instance countable k : Countable (t k) :=
  inj_countable' as_str MkId _.
Next Obligation. by intros k [s]. Qed.

(** The derived [Ord] compares the strings. *)
#[global] Program Instance ord k : Ord (t k) :=
  { ord_le := fun a b => ord_le (as_str a) (as_str b) }.
Next Obligation. intros k [a] [b]; simpl; apply _. Defined.
Next Obligation.
  intros k. split; [split|].
  - intros [a]; simpl; reflexivity.
  - intros [a] [b] [c]; simpl. intros; by etrans.
  - intros [a] [b]; simpl. intros; f_equal; by apply (anti_symm String.le).
Qed.
Next Obligation. intros k [a] [b]; simpl. apply (total String.le). Qed.

Definition eqb {k} (a b : t k) : bool := bool_decide (a = b).

(** What the newtype promises: the string is its own trim and not empty. *)
Definition valid {k} (i : t k) : Prop := trim (as_str i) = as_str i ∧ as_str i ≠ "".

Lemma is_empty_spec s : is_empty s = true ↔ s = "".
Proof. by destruct s. Qed.

Lemma try_new_ok {k} s (i : t k) : try_new s = Ok i ↔ i = MkId (trim s) ∧ is_blank s = false.
Proof.
  unfold try_new, is_blank. destruct (is_empty (trim s)); split; try done.
  - by intros [-> ?].
  - by intros [= <-].
  - by intros [-> _].
Qed.

Lemma as_str_inj {k} (a b : t k) : as_str a = as_str b → a = b.
Proof. destruct a, b; simpl; congruence. Qed.
End Id.

Abbreviation ExecutionId := (Id.t ExecutionIdK).
Abbreviation CorrelationId := (Id.t CorrelationIdK).
Abbreviation CausationId := (Id.t CausationIdK).
Abbreviation IdempotencyKey := (Id.t IdempotencyKeyK).
Abbreviation LeaseId := (Id.t LeaseIdK).
Abbreviation OutboxMessageId := (Id.t OutboxMessageIdK).
Abbreviation WorkflowId := (Id.t WorkflowIdK).
Abbreviation AgentSessionId := (Id.t AgentSessionIdK).
Abbreviation ThreadId := (Id.t ThreadIdK).

(** [CorrelationId::generate]: the wall clock in milliseconds and the process-wide
    sequence number are read by the caller. *)
(* src: crates/bos-kernel/src/ids.rs:102-116 CorrelationId::generate *)
Definition CorrelationId_generate (timestamp_ms sequence : N) : option CorrelationId :=
  Id.new ("corr_" +:+ fmt_hex timestamp_ms +:+ "_" +:+ fmt_hex sequence).

(** ** Properties *)

(** Parsing an identifier trims it once and for all.  [try_new] fails exactly
    on blank input, and then names the type; what it returns is trimmed and not
    empty, and [try_new] of its string gives it back. *)
Theorem try_new_roundtrip (k : IdKind) (s : string) :
  match Id.try_new (k:=k) s with
  | Ok i => Id.valid i ∧ Id.try_new (Id.as_str i) = Ok i
  | Err e => is_blank s = true ∧ InvalidId.fmt e = kind_name k +:+ " cannot be empty"
  end.
Proof.
  destruct (Id.try_new s) as [i|e] eqn:Hs.
  - apply Id.try_new_ok in Hs as [-> Hb]. split.
    + split; simpl; [apply trim_idemp|]. intros Ht. unfold is_blank in Hb. by rewrite Ht in Hb.
    + apply Id.try_new_ok; simpl. by rewrite trim_idemp, is_blank_trim.
  - unfold Id.try_new, is_blank in *. destruct (is_empty (trim s)); by simplify_eq.
Qed.
