(* ===== verification/Errors.v ===== *)
(** * Context, telemetry and errors ([bos-kernel/src/observability.rs], [error.rs])

    Who acts, on whose behalf and since when, and the events that are recorded; the
    codes of an error, how it may be retried, and its text. *)

From S2P Require Import Prelude RustStd Ids.
Module ActorRef.
(* src: crates/bos-kernel/src/observability.rs:5-18 ActorRef *)
Record t := mk { kind : string; id : string }.
End ActorRef.

Module ExecutionContext.
(* src: crates/bos-kernel/src/observability.rs:20-32 ExecutionContext *)
Record t := mk {
  actor : option ActorRef.t;
  correlation_id : CorrelationId;
  causation_id : option CausationId;
  idempotency_key : option IdempotencyKey;
  workflow_id : option WorkflowId;
  session_id : option AgentSessionId;
  thread_id : option ThreadId;
  attempt : N;
  started_at : SystemTime;
  finished_at : option SystemTime;
}.

(** [SystemTime::now()] is read by the caller. *)
(* src: crates/bos-kernel/src/observability.rs:35-48 ExecutionContext::new *)
Definition new (correlation_id : CorrelationId) (now : SystemTime) : t := {|
  actor := None;
  correlation_id := correlation_id;
  causation_id := None;
  idempotency_key := None;
  workflow_id := None;
  session_id := None;
  thread_id := None;
  attempt := 1;
  started_at := now;
  finished_at := None;
|}.

(* src: crates/bos-kernel/src/observability.rs:54-57 ExecutionContext::with_actor *)
Definition with_actor (c : t) (a : ActorRef.t) : t :=
  mk (Some a) (correlation_id c) (causation_id c) (idempotency_key c) (workflow_id c)
     (session_id c) (thread_id c) (attempt c) (started_at c) (finished_at c).

(* src: crates/bos-kernel/src/observability.rs:59-62 ExecutionContext::with_causation_id *)
Definition with_causation_id (c : t) (id : CausationId) : t :=
  mk (actor c) (correlation_id c) (Some id) (idempotency_key c) (workflow_id c)
     (session_id c) (thread_id c) (attempt c) (started_at c) (finished_at c).

(* src: crates/bos-kernel/src/observability.rs:64-67 ExecutionContext::with_idempotency_key *)
Definition with_idempotency_key (c : t) (k : IdempotencyKey) : t :=
  mk (actor c) (correlation_id c) (causation_id c) (Some k) (workflow_id c) (session_id c)
     (thread_id c) (attempt c) (started_at c) (finished_at c).

(* src: crates/bos-kernel/src/observability.rs:69-72 ExecutionContext::with_workflow_id *)
Definition with_workflow_id (c : t) (id : WorkflowId) : t :=
  mk (actor c) (correlation_id c) (causation_id c) (idempotency_key c) (Some id)
     (session_id c) (thread_id c) (attempt c) (started_at c) (finished_at c).

(* src: crates/bos-kernel/src/observability.rs:74-77 ExecutionContext::with_session_id *)
Definition with_session_id (c : t) (id : AgentSessionId) : t :=
  mk (actor c) (correlation_id c) (causation_id c) (idempotency_key c) (workflow_id c)
     (Some id) (thread_id c) (attempt c) (started_at c) (finished_at c).

(* src: crates/bos-kernel/src/observability.rs:79-82 ExecutionContext::with_thread_id *)
Definition with_thread_id (c : t) (id : ThreadId) : t :=
  mk (actor c) (correlation_id c) (causation_id c) (idempotency_key c) (workflow_id c)
     (session_id c) (Some id) (attempt c) (started_at c) (finished_at c).

(* src: crates/bos-kernel/src/observability.rs:84-87 ExecutionContext::with_attempt *)
Definition with_attempt (c : t) (a : N) : t :=
  mk (actor c) (correlation_id c) (causation_id c) (idempotency_key c) (workflow_id c)
     (session_id c) (thread_id c) (N.max a 1) (started_at c) (finished_at c).

(* src: crates/bos-kernel/src/observability.rs:89-92 ExecutionContext::start_at *)
Definition start_at (c : t) (s : SystemTime) : t :=
  mk (actor c) (correlation_id c) (causation_id c) (idempotency_key c) (workflow_id c)
     (session_id c) (thread_id c) (attempt c) s (finished_at c).

(* src: crates/bos-kernel/src/observability.rs:94-97 ExecutionContext::finish *)
Definition finish (c : t) (f : SystemTime) : t :=
  mk (actor c) (correlation_id c) (causation_id c) (idempotency_key c) (workflow_id c)
     (session_id c) (thread_id c) (attempt c) (started_at c) (Some f).
End ExecutionContext.

Module TelemetryEvent.
(* src: crates/bos-kernel/src/observability.rs:100-105 TelemetryEvent *)
Record t := mk { name : string; at_ : SystemTime; attributes : list (string * string) }.

(* src: crates/bos-kernel/src/observability.rs:108-114 TelemetryEvent::new *)
Definition new (name : string) (now : SystemTime) : t := mk name now [].

(* src: crates/bos-kernel/src/observability.rs:116-119 TelemetryEvent::with_attribute *)
Definition with_attribute (e : t) (key value : string) : t :=
  mk (name e) (at_ e) (attributes e ++ [(key, value)]).
End TelemetryEvent.

(** * Errors ([bos-kernel/src/error.rs]) *)

(* src: crates/bos-kernel/src/error.rs:8-22 ErrorCode *)
Inductive ErrorCode :=
| InvalidInput | InvalidState | Conflict | ConcurrentModification | NotFound | Policy
| ExternalDependency | Timeout | BudgetExceeded | Unauthorized | Transient | Unexpected.

(* src: crates/bos-kernel/src/error.rs:26-31 RetryClass *)
Inductive RetryClass := Never | AfterReload | Backoff.

#[global] Instance ErrorCode_eq_dec : EqDecision ErrorCode.
Proof. solve_decision. Defined.
#[global] Instance RetryClass_eq_dec : EqDecision RetryClass.
Proof. solve_decision. Defined.

(* src: crates/bos-kernel/src/error.rs:34-47 ErrorCode::default_retry_class *)
Definition default_retry_class (c : ErrorCode) : RetryClass :=
  match c with
  | ConcurrentModification => AfterReload
  | ExternalDependency | Timeout | Transient => Backoff
  | InvalidInput | InvalidState | Conflict | NotFound | Policy | BudgetExceeded
  | Unauthorized | Unexpected => Never
  end.

(* src: crates/bos-kernel/src/error.rs:51-67 ErrorCode::fmt *)
Definition ErrorCode_fmt (c : ErrorCode) : string :=
  match c with
  | InvalidInput => "invalid_input"
  | InvalidState => "invalid_state"
  | Conflict => "conflict"
  | ConcurrentModification => "concurrent_modification"
  | NotFound => "not_found"
  | Policy => "policy"
  | ExternalDependency => "external_dependency"
  | Timeout => "timeout"
  | BudgetExceeded => "budget_exceeded"
  | Unauthorized => "unauthorized"
  | Transient => "transient"
  | Unexpected => "unexpected"
  end.

Module AppError.
(* src: crates/bos-kernel/src/error.rs:70-77 AppError *)
Record t := mk {
  kind : ErrorCode;
  code : string;
  message : string;
  retry : RetryClass;
  correlation_id : CorrelationId;
}.

(* src: crates/bos-kernel/src/error.rs:80-93 AppError::new *)
Definition new (kind : ErrorCode) (code message : string) (c : CorrelationId) : t := {|
  kind := kind;
  code := code;
  message := message;
  retry := default_retry_class kind;
  correlation_id := c;
|}.

(* src: crates/bos-kernel/src/error.rs:95-102 AppError::from_context *)
Definition from_context (kind : ErrorCode) (code message : string) (ctx : ExecutionContext.t) : t :=
  new kind code message (ExecutionContext.correlation_id ctx).

(* src: crates/bos-kernel/src/error.rs:104-110 AppError::conflict *)
Definition conflict (code message : string) (c : CorrelationId) : t :=
  new Conflict code message c.

(* src: crates/bos-kernel/src/error.rs:112-123 AppError::concurrent_modification *)
Definition concurrent_modification (code message : string) (c : CorrelationId) : t :=
  new ConcurrentModification code message c.

(* src: crates/bos-kernel/src/error.rs:125-131 AppError::invalid_input *)
Definition invalid_input (code message : string) (c : CorrelationId) : t :=
  new InvalidInput code message c.

(* src: crates/bos-kernel/src/error.rs:133-139 AppError::invalid_input_from_context *)
Definition invalid_input_from_context (code message : string) (ctx : ExecutionContext.t) : t :=
  from_context InvalidInput code message ctx.

(* src: crates/bos-kernel/src/error.rs:141-147 AppError::not_found *)
Definition not_found (code message : string) (c : CorrelationId) : t :=
  new NotFound code message c.

(* src: crates/bos-kernel/src/error.rs:149-155 AppError::policy *)
Definition policy (code message : string) (c : CorrelationId) : t :=
  new Policy code message c.

(* src: crates/bos-kernel/src/error.rs:157-163 AppError::transient *)
Definition transient (code message : string) (c : CorrelationId) : t :=
  new Transient code message c.

(* src: crates/bos-kernel/src/error.rs:165-171 AppError::unexpected *)
Definition unexpected (code message : string) (c : CorrelationId) : t :=
  new Unexpected code message c.

(* src: crates/bos-kernel/src/error.rs:173-176 AppError::with_retry *)
Definition with_retry (e : t) (r : RetryClass) : t :=
  mk (kind e) (code e) (message e) r (correlation_id e).

(* src: crates/bos-kernel/src/error.rs:199-203 AppError::fmt *)
Definition fmt (e : t) : string :=
  code e +:+ " [" +:+ ErrorCode_fmt (kind e) +:+ "]: " +:+ message e.
End AppError.

Abbreviation AppResult := (Result AppError.t).

Lemma ErrorCode_fmt_inj c d : ErrorCode_fmt c = ErrorCode_fmt d → c = d.
Proof. by destruct c, d. Qed.

(** ** Kinds of evidence ([evidence.rs]) *)

(* src: crates/bos-kernel/src/evidence.rs:5-9 EvidenceKind *)
Inductive EvidenceKind := Artifact | Url | Note.

(* src: crates/bos-kernel/src/evidence.rs:12-18 EvidenceKind::as_str *)
Definition EvidenceKind_as_str (k : EvidenceKind) : string :=
  match k with Artifact => "artifact" | Url => "url" | Note => "note" end.
