(* ===== verification/CurrentState.v ===== *)
(** * Audited current state ([bos-kernel/src/current_state.rs])

    A state value behind optimistic revisions and idempotency keys, with the log
    of the events that produced it.  The theorems: the state is always the fold
    of its log, each idempotency key is applied at most once, and revisions are
    log positions. *)

From S2P Require Import Prelude RustStd.

(** A revision is a [u64]; [next] is [self.0 + 1], which wraps in a release
    build (and panics where overflow checks are on). *)
Module RevisionToken.
(* src: crates/bos-kernel/src/current_state.rs:5-6 RevisionToken *)
Record t := mk { value : N }.

(* src: crates/bos-kernel/src/current_state.rs:9-11 RevisionToken::initial *)
Definition initial : t := mk 0.

(* src: crates/bos-kernel/src/current_state.rs:21-23 RevisionToken::next *)
Definition next (r : t) : t := mk (wrapping_add_u64 (value r) 1).

#[global] Instance eq_dec : EqDecision t.
Proof. solve_decision. Defined.

Definition eqb (a b : t) : bool := bool_decide (a = b).

Lemma next_value r : (value r < u64_max)%N → value (next r) = (value r + 1)%N.
Proof.
  unfold next, wrapping_add_u64, u64_modulus, u64_max; simpl. intros ?.
  apply N.mod_small; lia.
Qed.

Lemma next_neq r : next r ≠ r.
Proof.
  destruct r as [v]. unfold next, wrapping_add_u64, u64_modulus; simpl. intros [= Hv].
  assert ((v + 1) mod 18446744073709551616 < 18446744073709551616)%N by (apply N.mod_lt; done).
  destruct (N.eq_dec v 18446744073709551615%N) as [->|]; [done|].
  rewrite N.mod_small in Hv; lia.
Qed.
End RevisionToken.
Abbreviation RevisionToken := RevisionToken.t.

Module CurrentStateIdempotencyKey.
(* src: crates/bos-kernel/src/current_state.rs:55-56 CurrentStateIdempotencyKey *)
Record t := mk { as_str : string }.

(** [InvalidCurrentStateIdempotencyKey] is the unit error. *)
(* src: crates/bos-kernel/src/current_state.rs:63-71 CurrentStateIdempotencyKey::try_new *)
Definition try_new (value : string) : Result unit t :=
  let normalized := trim value in
  if is_empty normalized then Err tt else Ok (mk normalized).

#[global] Instance eq_dec : EqDecision t.
Proof. solve_decision. Defined.
#[global] Program Instance countable : Countable t := inj_countable' as_str mk _.
Next Obligation. by intros [s]. Qed.
End CurrentStateIdempotencyKey.

Module StaleRevisionError.
(* src: crates/bos-kernel/src/current_state.rs:106-124 StaleRevisionError *)
Record t := mk { expected : RevisionToken; actual : RevisionToken }.
End StaleRevisionError.

Module AppendResult.
(* src: crates/bos-kernel/src/current_state.rs:138-148 AppendResult *)
Inductive t :=
| Appended (revision : RevisionToken) (idempotency_key : CurrentStateIdempotencyKey.t)
| Duplicate (revision : RevisionToken) (idempotency_key : CurrentStateIdempotencyKey.t).

(* src: crates/bos-kernel/src/current_state.rs:165-170 AppendResult::revision *)
Definition revision (r : t) : RevisionToken :=
  match r with Appended v _ => v | Duplicate v _ => v end.

(* src: crates/bos-kernel/src/current_state.rs:172-181 AppendResult::idempotency_key *)
Definition idempotency_key (r : t) : CurrentStateIdempotencyKey.t :=
  match r with Appended _ k => k | Duplicate _ k => k end.

(* src: crates/bos-kernel/src/current_state.rs:183-185 AppendResult::is_appended *)
Definition is_appended (r : t) : bool := match r with Appended _ _ => true | _ => false end.

(* src: crates/bos-kernel/src/current_state.rs:187-189 AppendResult::is_duplicate *)
Definition is_duplicate (r : t) : bool := match r with Duplicate _ _ => true | _ => false end.
End AppendResult.

Module AuditLogEntry.
(* src: crates/bos-kernel/src/current_state.rs:192-197 AuditLogEntry *)
Record t (E : Type) := mk {
  revision : RevisionToken;
  idempotency_key : CurrentStateIdempotencyKey.t;
  payload : E;
}.
Arguments mk {E} _ _ _.
Arguments revision {E} _.
Arguments idempotency_key {E} _.
Arguments payload {E} _.
End AuditLogEntry.

Module AuditedCurrentState.
(* src: crates/bos-kernel/src/current_state.rs:229-235 AuditedCurrentState *)
Record t (S E : Type) := mk {
  state : S;
  revision : RevisionToken;
  audit_log : list (AuditLogEntry.t E);
  idempotency_keys : gmap CurrentStateIdempotencyKey.t RevisionToken;
}.
Arguments mk {S E} _ _ _ _.
Arguments state {S E} _.
Arguments revision {S E} _.
Arguments audit_log {S E} _.
Arguments idempotency_keys {S E} _.

(* src: crates/bos-kernel/src/current_state.rs:238-245 AuditedCurrentState::new *)
Definition new {S E} (s : S) : t S E := mk s RevisionToken.initial [] ∅.

(* src: crates/bos-kernel/src/current_state.rs:259-288 AuditedCurrentState::append *)
Definition append {S E} (expected_revision : RevisionToken)
    (idempotency_key : CurrentStateIdempotencyKey.t) (payload : E) (apply : S → E → S)
    : Op (t S E) StaleRevisionError.t AppendResult.t := fun self =>
  match idempotency_keys self !! idempotency_key with
  | Some revision => (Ok (AppendResult.Duplicate revision idempotency_key), self)
  | None =>
    if negb (RevisionToken.eqb expected_revision (revision self)) then
      (Err (StaleRevisionError.mk expected_revision (revision self)), self)
    else
      let state' := apply (state self) payload in
      let revision' := RevisionToken.next (revision self) in
      (Ok (AppendResult.Appended revision' idempotency_key),
       mk state' revision'
          (audit_log self ++ [AuditLogEntry.mk revision' idempotency_key payload])
          (<[idempotency_key := revision']> (idempotency_keys self)))
  end.
End AuditedCurrentState.

(** ** The event-sourcing contract *)

Section audited.
  Context {S E : Type} (apply : S → E → S).
  Local Abbreviation T := (AuditedCurrentState.t S E).

(** A client is a list of append requests, run one after the other. *)
Record Request := MkRequest {
  rq_expected : RevisionToken;
  rq_key : CurrentStateIdempotencyKey.t;
  rq_payload : E;
}.

Definition run_one (s : T) (q : Request) : T :=
  (AuditedCurrentState.append (rq_expected q) (rq_key q) (rq_payload q) apply s).2.
Definition run (s : T) (qs : list Request) : T := foldl run_one s qs.

(** The state is the fold of the log, the [i]-th entry holds revision [i + 1],
    the current revision is the length of the log, and the key table is the log
    read by key. *)
Record sourced (init : S) (s : T) : Prop := {
  sourced_state :
    AuditedCurrentState.state s
    = foldl apply init (AuditLogEntry.payload <$> AuditedCurrentState.audit_log s);
  sourced_revision :
    AuditedCurrentState.revision s
    = RevisionToken.mk (len (AuditedCurrentState.audit_log s) mod u64_modulus);
  sourced_positions : ∀ i e, AuditedCurrentState.audit_log s !! i = Some e →
    AuditLogEntry.revision e = RevisionToken.mk (N.of_nat (i + 1) mod u64_modulus);
  sourced_nodup : NoDup (AuditLogEntry.idempotency_key <$> AuditedCurrentState.audit_log s);
  sourced_keys : ∀ k r, AuditedCurrentState.idempotency_keys s !! k = Some r ↔
    ∃ e, e ∈ AuditedCurrentState.audit_log s ∧
      AuditLogEntry.idempotency_key e = k ∧ AuditLogEntry.revision e = r;
}.

Lemma sourced_new init : sourced init (AuditedCurrentState.new init).
Proof.
  constructor; simpl; try done; [constructor|].
  intros k r. rewrite lookup_empty. split; [done|].
  intros (e & He & _). by apply elem_of_nil in He.
Qed.

Lemma next_len {A} (l : list A) x :
  RevisionToken.next (RevisionToken.mk (len l mod u64_modulus))
  = RevisionToken.mk (len (l ++ [x]) mod u64_modulus).
Proof.
  unfold RevisionToken.next, wrapping_add_u64, len, u64_modulus; simpl. f_equal.
  rewrite length_app; simpl. rewrite Nat2N.inj_add.
  rewrite <- (N.Div0.add_mod_idemp_l (N.of_nat (length l))). done.
Qed.

Lemma append_sourced init s q : sourced init s → sourced init (run_one s q).
Proof.
  intros [Hst Hrev Hpos Hnd Hk]. unfold run_one, AuditedCurrentState.append.
  destruct (AuditedCurrentState.idempotency_keys s !! rq_key q) as [r|] eqn:Hq; [done|].
  destruct (RevisionToken.eqb _ _) eqn:He; simpl; [|done].
  assert (Hfresh : rq_key q ∉ AuditLogEntry.idempotency_key <$> AuditedCurrentState.audit_log s).
  { rewrite list_elem_of_fmap. intros (e & Hqe & Hel).
    assert (Hc : AuditedCurrentState.idempotency_keys s !! AuditLogEntry.idempotency_key e
                 = Some (AuditLogEntry.revision e)) by (apply Hk; eauto).
    rewrite Hqe in Hq. congruence. }
  constructor; simpl; rewrite ?fmap_app, ?Hrev.
  - by rewrite foldl_app, <- Hst.
  - apply next_len.
  - intros i e [Hi|[Hlen Hi]]%lookup_app_Some; [by apply Hpos|].
    destruct (i - _) eqn:Hd; simpl in Hi; [|done]. simplify_eq; simpl.
    rewrite (next_len _ (AuditLogEntry.mk (AuditedCurrentState.revision s) (rq_key q) (rq_payload q))).
    unfold len. rewrite length_app; simpl. do 3 f_equal. lia.
  - apply NoDup_app. split; [done|]. split; [|by apply NoDup_singleton].
    intros x Hx ->%list_elem_of_singleton. done.
  - intros k r. rewrite lookup_insert. case_decide as Hkk.
    + subst k. split.
      * intros [= <-]. eexists. split; [apply elem_of_app; right; by left|done].
      * intros (e & [Hel|Hel]%elem_of_app & Hek & Her).
        { exfalso. apply Hfresh. rewrite <- Hek. by apply list_elem_of_fmap_2. }
        apply list_elem_of_singleton in Hel as ->. simpl in *. by subst.
    + rewrite Hk. split; intros (e & Hel & Hek & Her); exists e.
      * split; [apply elem_of_app; by left|done].
      * apply elem_of_app in Hel as [Hel|Hel]; [done|].
        apply list_elem_of_singleton in Hel as ->. done.
Qed.

Lemma run_sourced init s qs : sourced init s → sourced init (run s qs).
Proof. revert s. induction qs as [|q qs IH]; intros s Hs; simpl; [done|]. by apply IH, append_sourced. Qed.

(** whatever requests arrive, in whatever order and however often repeated,
    the audited state stays the fold of its audit log, the log's revisions are
    the positions 1, 2, 3, ..., and the key table is exactly the log's keys, each
    of them there once. *)
Theorem audited_state_is_log_fold (init : S) (qs : list Request) :
  sourced init (run (AuditedCurrentState.new init) qs).
Proof. apply run_sourced, sourced_new. Qed.

(** A repeated key is answered with the revision its first use got, whatever
    revision and payload come with it, and nothing changes. *)
Theorem append_replay_stable (init : S) (qs : list Request) (q q' : Request) :
  let s := run (AuditedCurrentState.new init) qs in
  AuditedCurrentState.append (rq_expected q) (rq_key q) (rq_payload q) apply s
    = (Ok (AppendResult.Appended (AuditedCurrentState.revision (run_one s q)) (rq_key q)), run_one s q) →
  rq_key q' = rq_key q →
  ∀ qs', let s' := run (run_one s q) qs' in
  AuditedCurrentState.append (rq_expected q') (rq_key q') (rq_payload q') apply s'
    = (Ok (AppendResult.Duplicate (AuditedCurrentState.revision (run_one s q)) (rq_key q)), s').
Proof.
  intros s Happ Hkey qs' s'.
  assert (Hone : AuditedCurrentState.idempotency_keys (run_one s q) !! rq_key q
                 = Some (AuditedCurrentState.revision (run_one s q))).
  { revert Happ. unfold run_one, AuditedCurrentState.append.
    case_match; [done|]. destruct (RevisionToken.eqb _ _); [|done].
    simpl. intros _. by rewrite lookup_insert_eq. }
  assert (Hstay : AuditedCurrentState.idempotency_keys s' !! rq_key q
                  = Some (AuditedCurrentState.revision (run_one s q))).
  { subst s'. revert Hone. generalize (AuditedCurrentState.revision (run_one s q)) as r.
    generalize (run_one s q) as s0. clear.
    induction qs' as [|q1 qs' IH]; intros s0 r Hs0; simpl; [done|]. apply IH.
    unfold run_one, AuditedCurrentState.append.
    destruct (AuditedCurrentState.idempotency_keys s0 !! rq_key q1) eqn:Hq1; [done|].
    destruct (RevisionToken.eqb _ _); simpl; [|done].
    rewrite lookup_insert_ne; [done|congruence]. }
  unfold AuditedCurrentState.append. by rewrite Hkey, Hstay.
Qed.
End audited.

(** The counter of the source's tests. *)
Example counter_run :
  let k1 := CurrentStateIdempotencyKey.mk "k1" in
  let k2 := CurrentStateIdempotencyKey.mk "k2" in
  let s := run Z.add (AuditedCurrentState.new 0%Z)
    [MkRequest RevisionToken.initial k1 7%Z; MkRequest (RevisionToken.mk 1) k2 3%Z;
     MkRequest (RevisionToken.mk 2) k1 100%Z; MkRequest RevisionToken.initial (CurrentStateIdempotencyKey.mk "k3") 9%Z] in
  (AuditedCurrentState.state s, RevisionToken.value (AuditedCurrentState.revision s),
   length (AuditedCurrentState.audit_log s)) = (10%Z, 2%N, 2).
Proof. vm_compute. reflexivity. Qed.

Example append_replay_stable_witness :
  let k1 := CurrentStateIdempotencyKey.mk "k1" in
  let q := MkRequest RevisionToken.initial k1 7%Z in
  let q' := MkRequest (RevisionToken.mk 5) k1 100%Z in
  let s' := run Z.add (run_one Z.add (AuditedCurrentState.new 0%Z) q)
              [MkRequest (RevisionToken.mk 1) (CurrentStateIdempotencyKey.mk "k2") 3%Z] in
  AuditedCurrentState.append (rq_expected q') (rq_key q') (rq_payload q') Z.add s'
    = (Ok (AppendResult.Duplicate (RevisionToken.mk 1) k1), s').
Proof.
  intros k1 q q' s'.
  exact (append_replay_stable Z.add 0%Z [] q q' eq_refl eq_refl
           [MkRequest (RevisionToken.mk 1) (CurrentStateIdempotencyKey.mk "k2") 3%Z]).
Defined.
