(* ===== verification/Execution.v ===== *)
(** * Execution records, leases and claims ([bos-kernel/src/execution.rs])

    The data of the execution queue and the transitions of one record.  A
    [ClaimedExecution] is a record together with the lease under which it was
    claimed; finishing it yields the new record and the message that tells the
    store what happened. *)

From S2P Require Import Prelude RustStd Ids Errors CurrentState.

Module ExecutionRecordStatus.
(* src: crates/bos-kernel/src/execution.rs:8-15 ExecutionRecordStatus *)
Inductive t := Pending | InFlight | Succeeded | Failed | DeadLettered.
#[global] Instance eq_dec : EqDecision t.
Proof. solve_decision. Defined.
Definition eqb (a b : t) : bool := bool_decide (a = b).
End ExecutionRecordStatus.

Module IdempotencyClaimStatus.
(* src: crates/bos-kernel/src/execution.rs:17-22 IdempotencyClaimStatus *)
Inductive t := InProgress | Succeeded | Failed.
End IdempotencyClaimStatus.

(* src: crates/bos-kernel/src/execution.rs:1018-1029 validate_scope *)
Definition validate_scope (scope : string) (ctx : ExecutionContext.t) : AppResult unit :=
  if is_blank scope then
    Err (AppError.from_context InvalidInput "idempotency_scope_required"
           "idempotency claims require a non-empty scope" ctx)
  else Ok tt.

Module IdempotencyClaim.
(* src: crates/bos-kernel/src/execution.rs:24-38 IdempotencyClaim *)
Record t := mk {
  key : IdempotencyKey;
  scope : string;
  status : IdempotencyClaimStatus.t;
  attempt : N;
  duplicate_count : N;
  execution_id : option ExecutionId;
  correlation_id : option CorrelationId;
  created_at : SystemTime;
  first_claimed_at : SystemTime;
  last_claimed_at : SystemTime;
  completed_at : option SystemTime;
  last_error : option string;
}.

(** [now] is the clock read by the constructor. *)
(* src: crates/bos-kernel/src/execution.rs:41-57 IdempotencyClaim::new *)
Definition new (key : IdempotencyKey) (scope : string) (now : SystemTime) : t := {|
  key := key;
  scope := scope;
  status := IdempotencyClaimStatus.InProgress;
  attempt := 1;
  duplicate_count := 0;
  execution_id := None;
  correlation_id := None;
  created_at := now;
  first_claimed_at := now;
  last_claimed_at := now;
  completed_at := None;
  last_error := None;
|}.

(* src: crates/bos-kernel/src/execution.rs:154-157 IdempotencyClaim::attach_execution *)
Definition attach_execution (c : t) (e : ExecutionId) : t :=
  mk (key c) (scope c) (status c) (attempt c) (duplicate_count c) (Some e) (correlation_id c)
     (created_at c) (first_claimed_at c) (last_claimed_at c) (completed_at c) (last_error c).

(* src: crates/bos-kernel/src/execution.rs:159-162 IdempotencyClaim::with_correlation_id *)
Definition with_correlation_id (c : t) (i : CorrelationId) : t :=
  mk (key c) (scope c) (status c) (attempt c) (duplicate_count c) (execution_id c) (Some i)
     (created_at c) (first_claimed_at c) (last_claimed_at c) (completed_at c) (last_error c).

(* src: crates/bos-kernel/src/execution.rs:164-167 IdempotencyClaim::with_attempt *)
Definition with_attempt (c : t) (a : N) : t :=
  mk (key c) (scope c) (status c) (N.max a 1) (duplicate_count c) (execution_id c)
     (correlation_id c) (created_at c) (first_claimed_at c) (last_claimed_at c)
     (completed_at c) (last_error c).

(* src: crates/bos-kernel/src/execution.rs:169-172 IdempotencyClaim::touch *)
Definition touch (c : t) (claimed_at : SystemTime) : t :=
  mk (key c) (scope c) (status c) (attempt c) (duplicate_count c) (execution_id c)
     (correlation_id c) (created_at c) (first_claimed_at c) claimed_at (completed_at c)
     (last_error c).

(* src: crates/bos-kernel/src/execution.rs:174-178 IdempotencyClaim::record_duplicate *)
Definition record_duplicate (c : t) (duplicate_at : SystemTime) : t :=
  mk (key c) (scope c) (status c) (attempt c) (saturating_add_u32 (duplicate_count c) 1)
     (execution_id c) (correlation_id c) (created_at c) (first_claimed_at c) duplicate_at
     (completed_at c) (last_error c).

(* src: crates/bos-kernel/src/execution.rs:180-186 IdempotencyClaim::mark_succeeded *)
Definition mark_succeeded (c : t) (at_ : SystemTime) : t :=
  mk (key c) (scope c) IdempotencyClaimStatus.Succeeded (attempt c) (duplicate_count c)
     (execution_id c) (correlation_id c) (created_at c) (first_claimed_at c) at_ (Some at_) None.

(* src: crates/bos-kernel/src/execution.rs:188-194 IdempotencyClaim::mark_failed *)
Definition mark_failed (c : t) (at_ : SystemTime) (error : string) : t :=
  mk (key c) (scope c) IdempotencyClaimStatus.Failed (attempt c) (duplicate_count c)
     (execution_id c) (correlation_id c) (created_at c) (first_claimed_at c) at_ (Some at_)
     (Some error).

(* src: crates/bos-kernel/src/execution.rs:124-152 IdempotencyClaim::restore *)
Definition restore (key : IdempotencyKey) (scope : string) (status : IdempotencyClaimStatus.t)
    (attempt duplicate_count : N) (execution_id : option ExecutionId)
    (correlation_id : option CorrelationId)
    (created_at first_claimed_at last_claimed_at : SystemTime)
    (completed_at : option SystemTime) (last_error : option string) : t :=
  mk key scope status (N.max attempt 1) duplicate_count execution_id correlation_id
     created_at first_claimed_at last_claimed_at completed_at last_error.

(* src: crates/bos-kernel/src/execution.rs:59-73 IdempotencyClaim::from_context *)
Definition from_context (key : IdempotencyKey) (scope : string) (e : ExecutionId)
    (ctx : ExecutionContext.t) (now : SystemTime) : AppResult t :=
  let claim :=
    touch (with_attempt (with_correlation_id (attach_execution (new key scope now) e)
             (ExecutionContext.correlation_id ctx)) (ExecutionContext.attempt ctx))
          (ExecutionContext.started_at ctx) in
  match validate_scope (IdempotencyClaim.scope claim) ctx with
  | Err e => Err e
  | Ok _ => Ok claim
  end.
End IdempotencyClaim.

Module ExecutionRecord.
(* src: crates/bos-kernel/src/execution.rs:197-212 ExecutionRecord *)
Record t := mk {
  id : ExecutionId;
  operation : string;
  target : string;
  idempotency_key : IdempotencyKey;
  correlation_id : CorrelationId;
  status : ExecutionRecordStatus.t;
  attempt : N;
  recorded_at : SystemTime;
  available_at : SystemTime;
  last_attempted_at : option SystemTime;
  finished_at : option SystemTime;
  last_error : option string;
  revision : RevisionToken;
}.

(** The clock is read twice, first for [recorded_at]. *)
(* src: crates/bos-kernel/src/execution.rs:215-237 ExecutionRecord::new *)
Definition new (id : ExecutionId) (operation target : string)
    (idempotency_key : IdempotencyKey) (correlation_id : CorrelationId)
    (now now' : SystemTime) : t := {|
  id := id;
  operation := operation;
  target := target;
  idempotency_key := idempotency_key;
  correlation_id := correlation_id;
  status := ExecutionRecordStatus.Pending;
  attempt := 1;
  recorded_at := now;
  available_at := now';
  last_attempted_at := None;
  finished_at := None;
  last_error := None;
  revision := RevisionToken.initial;
|}.

(* src: crates/bos-kernel/src/execution.rs:317-320 ExecutionRecord::with_status *)
Definition with_status (r : t) (s : ExecutionRecordStatus.t) : t :=
  mk (id r) (operation r) (target r) (idempotency_key r) (correlation_id r) s (attempt r)
     (recorded_at r) (available_at r) (last_attempted_at r) (finished_at r) (last_error r)
     (revision r).

(* src: crates/bos-kernel/src/execution.rs:322-325 ExecutionRecord::with_attempt *)
Definition with_attempt (r : t) (a : N) : t :=
  mk (id r) (operation r) (target r) (idempotency_key r) (correlation_id r) (status r)
     (N.max a 1) (recorded_at r) (available_at r) (last_attempted_at r) (finished_at r)
     (last_error r) (revision r).

(* src: crates/bos-kernel/src/execution.rs:327-331 ExecutionRecord::with_recorded_at *)
Definition with_recorded_at (r : t) (at_ : SystemTime) : t :=
  mk (id r) (operation r) (target r) (idempotency_key r) (correlation_id r) (status r)
     (attempt r) at_ at_ (last_attempted_at r) (finished_at r) (last_error r) (revision r).

(* src: crates/bos-kernel/src/execution.rs:333-336 ExecutionRecord::with_available_at *)
Definition with_available_at (r : t) (at_ : SystemTime) : t :=
  mk (id r) (operation r) (target r) (idempotency_key r) (correlation_id r) (status r)
     (attempt r) (recorded_at r) at_ (last_attempted_at r) (finished_at r) (last_error r)
     (revision r).

(* src: crates/bos-kernel/src/execution.rs:338-341 ExecutionRecord::with_revision *)
Definition with_revision (r : t) (v : RevisionToken) : t :=
  mk (id r) (operation r) (target r) (idempotency_key r) (correlation_id r) (status r)
     (attempt r) (recorded_at r) (available_at r) (last_attempted_at r) (finished_at r)
     (last_error r) v.

(** A transition of the record: the fields a transition may change, the rest of
    the record kept, and the revision advanced. *)
Definition transition (r : t) (s : ExecutionRecordStatus.t) (attempt : N)
    (available_at : SystemTime) (last_attempted_at finished_at : option SystemTime)
    (last_error : option string) : t :=
  mk (id r) (operation r) (target r) (idempotency_key r) (correlation_id r) s attempt
     (recorded_at r) available_at last_attempted_at finished_at last_error
     (RevisionToken.next (revision r)).

(* src: crates/bos-kernel/src/execution.rs:343-350 ExecutionRecord::mark_in_flight *)
Definition mark_in_flight (r : t) (now : SystemTime) : t :=
  transition r ExecutionRecordStatus.InFlight (attempt r) (available_at r) (Some now) None None.

(* src: crates/bos-kernel/src/execution.rs:352-359 ExecutionRecord::mark_claimed *)
Definition mark_claimed (r : t) (claimed_at : SystemTime) : t :=
  transition r ExecutionRecordStatus.InFlight (attempt r) (available_at r) (Some claimed_at)
    None None.

(* src: crates/bos-kernel/src/execution.rs:361-368 ExecutionRecord::mark_succeeded *)
Definition mark_succeeded (r : t) (at_ : SystemTime) : t :=
  transition r ExecutionRecordStatus.Succeeded (attempt r) (available_at r) (Some at_)
    (Some at_) None.

(* src: crates/bos-kernel/src/execution.rs:370-377 ExecutionRecord::mark_failed *)
Definition mark_failed (r : t) (at_ : SystemTime) (error : string) : t :=
  transition r ExecutionRecordStatus.Failed (attempt r) (available_at r) (Some at_)
    (Some at_) (Some error).

(* src: crates/bos-kernel/src/execution.rs:379-393 ExecutionRecord::schedule_retry *)
Definition schedule_retry (r : t) (attempted_at next_available_at : SystemTime) (error : string) : t :=
  transition r ExecutionRecordStatus.Pending (saturating_add_u32 (attempt r) 1)
    next_available_at (Some attempted_at) None (Some error).

(* src: crates/bos-kernel/src/execution.rs:395-406 ExecutionRecord::mark_dead_lettered *)
Definition mark_dead_lettered (r : t) (at_ : SystemTime) (error : string) : t :=
  transition r ExecutionRecordStatus.DeadLettered (attempt r) (available_at r) (Some at_)
    (Some at_) (Some error).

(* src: crates/bos-kernel/src/execution.rs:408-414 ExecutionRecord::release_claim *)
Definition release_claim (r : t) (released_at : SystemTime) : t :=
  transition r ExecutionRecordStatus.Pending (attempt r) (available_at r) (Some released_at)
    None (last_error r).

(* src: crates/bos-kernel/src/execution.rs:239-263 ExecutionRecord::from_context *)
Definition from_context (id : ExecutionId) (operation target : string)
    (ctx : ExecutionContext.t) (now now' : SystemTime) : AppResult t :=
  match ExecutionContext.idempotency_key ctx with
  | None =>
    Err (AppError.from_context InvalidState "execution_context_missing_idempotency_key"
           "execution records require an execution context with an idempotency key" ctx)
  | Some key =>
    Ok (with_recorded_at
          (with_attempt
             (new id operation target key (ExecutionContext.correlation_id ctx) now now')
             (ExecutionContext.attempt ctx))
          (ExecutionContext.started_at ctx))
  end.
End ExecutionRecord.

Module ExecutionLease.
(* src: crates/bos-kernel/src/execution.rs:417-423 ExecutionLease *)
Record t := mk {
  lease_id : LeaseId;
  leased_by : string;
  leased_at : SystemTime;
  lease_expires_at : SystemTime;
}.

(* src: crates/bos-kernel/src/execution.rs:440-452 ExecutionLease::from_now *)
Definition from_now (lease_id : LeaseId) (leased_by : string) (lease_ttl : Duration)
    (now : SystemTime) : t :=
  mk lease_id leased_by now (add_or_now now lease_ttl).

(* src: crates/bos-kernel/src/execution.rs:470-472 ExecutionLease::is_expired_at *)
Definition is_expired_at (l : t) (now : SystemTime) : bool := (lease_expires_at l <? now)%Z.

(* src: crates/bos-kernel/src/execution.rs:474-476 ExecutionLease::renew *)
Definition renew (l : t) (renewed_at : SystemTime) (lease_ttl : Duration) : t :=
  from_now (lease_id l) (leased_by l) lease_ttl renewed_at.
End ExecutionLease.

Module ExecutionLeaseRequest.
(* src: crates/bos-kernel/src/execution.rs:479-485 ExecutionLeaseRequest *)
Record t := mk {
  leased_by : string;
  batch_size : N;
  lease_ttl : Duration;
  now : SystemTime;
}.

(* src: crates/bos-kernel/src/execution.rs:488-495 ExecutionLeaseRequest::new *)
Definition new (leased_by : string) (batch_size : N) (lease_ttl : Duration) (now : SystemTime) : t :=
  mk leased_by (N.max batch_size 1) lease_ttl now.

(* src: crates/bos-kernel/src/execution.rs:513-516 ExecutionLeaseRequest::at *)
Definition at_ (r : t) (now : SystemTime) : t := mk (leased_by r) (batch_size r) (lease_ttl r) now.
End ExecutionLeaseRequest.

Module DueExecutionRequest.
(* src: crates/bos-kernel/src/execution.rs:519-524 DueExecutionRequest *)
Record t := mk {
  due_before : SystemTime;
  limit : N;
  include_expired_leases : bool;
}.

(* src: crates/bos-kernel/src/execution.rs:527-533 DueExecutionRequest::new *)
Definition new (limit : N) (now : SystemTime) : t := mk now (N.max limit 1) true.

(* src: crates/bos-kernel/src/execution.rs:547-550 DueExecutionRequest::at *)
Definition at_ (r : t) (due_before : SystemTime) : t :=
  mk due_before (limit r) (include_expired_leases r).

(* src: crates/bos-kernel/src/execution.rs:552-555 DueExecutionRequest::with_expired_leases *)
Definition with_expired_leases (r : t) (b : bool) : t := mk (due_before r) (limit r) b.
End DueExecutionRequest.

Module ExecutionLeaseRenewal.
(* src: crates/bos-kernel/src/execution.rs:558-565 ExecutionLeaseRenewal *)
Record t := mk {
  execution_id : ExecutionId;
  lease_id : LeaseId;
  leased_by : string;
  renewed_at : SystemTime;
  lease_ttl : Duration;
}.

(* src: crates/bos-kernel/src/execution.rs:568-581 ExecutionLeaseRenewal::new *)
Definition new (execution_id : ExecutionId) (lease_id : LeaseId) (leased_by : string)
    (lease_ttl : Duration) (now : SystemTime) : t :=
  mk execution_id lease_id leased_by now lease_ttl.

(* src: crates/bos-kernel/src/execution.rs:603-606 ExecutionLeaseRenewal::at *)
Definition at_ (r : t) (renewed_at : SystemTime) : t :=
  mk (execution_id r) (lease_id r) (leased_by r) renewed_at (lease_ttl r).

(* src: crates/bos-kernel/src/execution.rs:608-615 ExecutionLeaseRenewal::renewed_lease *)
Definition renewed_lease (r : t) : ExecutionLease.t :=
  ExecutionLease.from_now (lease_id r) (leased_by r) (lease_ttl r) (renewed_at r).

(* src: crates/bos-kernel/src/execution.rs:994-1016 ExecutionLeaseRenewal::validate *)
Definition validate (r : t) (ctx : ExecutionContext.t) : AppResult unit :=
  if is_blank (leased_by r) then
    Err (AppError.from_context InvalidInput "execution_lease_renewal_owner_required"
           "execution lease renewals require a non-empty worker identity" ctx)
  else if is_zero (lease_ttl r) then
    Err (AppError.from_context InvalidInput "execution_lease_renewal_ttl_required"
           "execution lease renewals require a positive lease ttl" ctx)
  else Ok tt.
End ExecutionLeaseRenewal.

Module ExecutionSuccess.
(* src: crates/bos-kernel/src/execution.rs:618-624 ExecutionSuccess *)
Record t := mk {
  execution_id : ExecutionId;
  lease_id : LeaseId;
  finished_at : SystemTime;
  expected_revision : option RevisionToken;
}.

(* src: crates/bos-kernel/src/execution.rs:627-634 ExecutionSuccess::new *)
Definition new (e : ExecutionId) (l : LeaseId) (finished_at : SystemTime) : t :=
  mk e l finished_at None.

(* src: crates/bos-kernel/src/execution.rs:652-655 ExecutionSuccess::with_expected_revision *)
Definition with_expected_revision (s : t) (v : RevisionToken) : t :=
  mk (execution_id s) (lease_id s) (finished_at s) (Some v).
End ExecutionSuccess.

Module ExecutionRetry.
(* src: crates/bos-kernel/src/execution.rs:658-666 ExecutionRetry *)
Record t := mk {
  execution_id : ExecutionId;
  lease_id : LeaseId;
  attempted_at : SystemTime;
  next_available_at : SystemTime;
  error : string;
  expected_revision : option RevisionToken;
}.

(* src: crates/bos-kernel/src/execution.rs:669-684 ExecutionRetry::new *)
Definition new (e : ExecutionId) (l : LeaseId) (attempted_at next_available_at : SystemTime)
    (error : string) : t :=
  mk e l attempted_at next_available_at error None.

(* src: crates/bos-kernel/src/execution.rs:710-713 ExecutionRetry::with_expected_revision *)
Definition with_expected_revision (r : t) (v : RevisionToken) : t :=
  mk (execution_id r) (lease_id r) (attempted_at r) (next_available_at r) (error r) (Some v).
End ExecutionRetry.

Module ExecutionDeadLetter.
(* src: crates/bos-kernel/src/execution.rs:716-723 ExecutionDeadLetter *)
Record t := mk {
  execution_id : ExecutionId;
  lease_id : LeaseId;
  dead_lettered_at : SystemTime;
  error : string;
  expected_revision : option RevisionToken;
}.

(* src: crates/bos-kernel/src/execution.rs:726-739 ExecutionDeadLetter::new *)
Definition new (e : ExecutionId) (l : LeaseId) (dead_lettered_at : SystemTime) (error : string) : t :=
  mk e l dead_lettered_at error None.

(* src: crates/bos-kernel/src/execution.rs:761-764 ExecutionDeadLetter::with_expected_revision *)
Definition with_expected_revision (d : t) (v : RevisionToken) : t :=
  mk (execution_id d) (lease_id d) (dead_lettered_at d) (error d) (Some v).
End ExecutionDeadLetter.

Module ClaimedExecution.
(* src: crates/bos-kernel/src/execution.rs:767-771 ClaimedExecution *)
Record t := mk { record : ExecutionRecord.t; lease : ExecutionLease.t }.

(* src: crates/bos-kernel/src/execution.rs:774-813 ClaimedExecution::claim *)
Definition claim (record : ExecutionRecord.t) (lease : ExecutionLease.t) : AppResult t :=
  if is_blank (ExecutionLease.leased_by lease) then
    Err (AppError.new InvalidInput "execution_lease_owner_required"
           "execution leases require a non-empty worker identity"
           (ExecutionRecord.correlation_id record))
  else if (ExecutionLease.leased_at lease <? ExecutionRecord.available_at record)%Z then
    Err (AppError.new InvalidState "execution_not_available_for_claim"
           "execution work cannot be claimed before it is available"
           (ExecutionRecord.correlation_id record))
  else
    match ExecutionRecord.status record with
    | ExecutionRecordStatus.Pending | ExecutionRecordStatus.Failed =>
      Ok (mk (ExecutionRecord.mark_claimed record (ExecutionLease.leased_at lease)) lease)
    | ExecutionRecordStatus.InFlight =>
      Err (AppError.new Conflict "execution_already_claimed"
             "execution work is already in flight" (ExecutionRecord.correlation_id record))
    | ExecutionRecordStatus.Succeeded | ExecutionRecordStatus.DeadLettered =>
      Err (AppError.new InvalidState "execution_not_claimable"
             "completed execution work cannot be claimed again"
             (ExecutionRecord.correlation_id record))
    end.

(* src: crates/bos-kernel/src/execution.rs:827-838 ClaimedExecution::replace_lease *)
Definition replace_lease (c : t) (lease : ExecutionLease.t) : AppResult t :=
  if is_blank (ExecutionLease.leased_by lease) then
    Err (AppError.new InvalidInput "execution_lease_owner_required"
           "execution leases require a non-empty worker identity"
           (ExecutionRecord.correlation_id (record c)))
  else Ok (mk (record c) lease).

(* src: crates/bos-kernel/src/execution.rs:840-849 ClaimedExecution::complete *)
Definition complete (c : t) (finished_at : SystemTime) : ExecutionRecord.t * ExecutionSuccess.t :=
  let success :=
    ExecutionSuccess.with_expected_revision
      (ExecutionSuccess.new (ExecutionRecord.id (record c)) (ExecutionLease.lease_id (lease c))
         finished_at)
      (ExecutionRecord.revision (record c)) in
  (ExecutionRecord.mark_succeeded (record c) finished_at, success).

(* src: crates/bos-kernel/src/execution.rs:851-888 ClaimedExecution::retry *)
Definition retry (c : t) (attempted_at next_available_at : SystemTime) (error : string)
    : AppResult (ExecutionRecord.t * ExecutionRetry.t) :=
  if (next_available_at <? attempted_at)%Z then
    Err (AppError.new InvalidInput "execution_retry_before_attempt"
           "execution retries require next availability at or after the attempt time"
           (ExecutionRecord.correlation_id (record c)))
  else if is_blank error then
    Err (AppError.new InvalidInput "execution_retry_error_required"
           "execution retries require a failure reason"
           (ExecutionRecord.correlation_id (record c)))
  else
    let retry :=
      ExecutionRetry.with_expected_revision
        (ExecutionRetry.new (ExecutionRecord.id (record c)) (ExecutionLease.lease_id (lease c))
           attempted_at next_available_at error)
        (ExecutionRecord.revision (record c)) in
    Ok (ExecutionRecord.schedule_retry (record c) attempted_at next_available_at error, retry).

(* src: crates/bos-kernel/src/execution.rs:890-914 ClaimedExecution::dead_letter *)
Definition dead_letter (c : t) (dead_lettered_at : SystemTime) (error : string)
    : AppResult (ExecutionRecord.t * ExecutionDeadLetter.t) :=
  if is_blank error then
    Err (AppError.new InvalidInput "execution_dead_letter_error_required"
           "dead-lettering execution work requires a failure reason"
           (ExecutionRecord.correlation_id (record c)))
  else
    let dead_letter :=
      ExecutionDeadLetter.with_expected_revision
        (ExecutionDeadLetter.new (ExecutionRecord.id (record c))
           (ExecutionLease.lease_id (lease c)) dead_lettered_at error)
        (ExecutionRecord.revision (record c)) in
    Ok (ExecutionRecord.mark_dead_lettered (record c) dead_lettered_at error, dead_letter).
End ClaimedExecution.

(* src: crates/bos-kernel/src/execution.rs:917-922 IdempotencyClaimed *)
Inductive IdempotencyClaimed :=
| Claimed (c : IdempotencyClaim.t)
| DuplicateClaim (c : IdempotencyClaim.t)
| Busy (c : IdempotencyClaim.t).

(** ** When a claim succeeds *)

Lemma claim_execution_ok r l c :
  ClaimedExecution.claim r l = Ok c ↔
  is_blank (ExecutionLease.leased_by l) = false ∧
  (ExecutionRecord.available_at r ≤ ExecutionLease.leased_at l)%Z ∧
  (ExecutionRecord.status r = ExecutionRecordStatus.Pending ∨
   ExecutionRecord.status r = ExecutionRecordStatus.Failed) ∧
  c = ClaimedExecution.mk (ExecutionRecord.mark_claimed r (ExecutionLease.leased_at l)) l.
Proof.
  unfold ClaimedExecution.claim. destruct (is_blank (ExecutionLease.leased_by l)).
  { split; [done|]. by intros (? & _). }
  destruct (Z.ltb_spec (ExecutionLease.leased_at l) (ExecutionRecord.available_at r)).
  { split; [done|]. intros (_ & ? & _). lia. }
  destruct (ExecutionRecord.status r); split;
    try (by intros (_ & _ & [?|?] & _)); try done;
    try (intros [= <-]; split_and!; auto); by intros (_ & _ & _ & ->).
Qed.
