(* ===== verification/Outbox.v ===== *)
(** * Outbox messages and transactional writes ([bos-kernel/src/outbox.rs])

    The message queue's data and the transitions of one message, and the
    validation that ties a transaction's outbox messages to its execution
    records and idempotency claims. *)

From S2P Require Import Prelude RustStd Ids Errors CurrentState Execution.

Module OutboxEnvelope.
(* src: crates/bos-kernel/src/outbox.rs:10-17 OutboxEnvelope *)
Record t := mk {
  topic : string;
  key : string;
  payload : string;
  content_type : string;
  headers : list (string * string);
}.

(* src: crates/bos-kernel/src/outbox.rs:20-32 OutboxEnvelope::new *)
Definition new (topic key payload : string) : t := mk topic key payload "application/json" [].

(* src: crates/bos-kernel/src/outbox.rs:34-37 OutboxEnvelope::with_content_type *)
Definition with_content_type (e : t) (c : string) : t :=
  mk (topic e) (key e) (payload e) c (headers e).

(* src: crates/bos-kernel/src/outbox.rs:39-42 OutboxEnvelope::with_header *)
Definition with_header (e : t) (k v : string) : t :=
  mk (topic e) (key e) (payload e) (content_type e) (headers e ++ [(k, v)]).
End OutboxEnvelope.

Module OutboxMessage.
(* src: crates/bos-kernel/src/outbox.rs:65-76 OutboxMessage *)
Record t := mk {
  id : OutboxMessageId;
  aggregate : string;
  aggregate_id : string;
  execution_id : ExecutionId;
  envelope : OutboxEnvelope.t;
  available_at : SystemTime;
  attempts : N;
  last_attempted_at : option SystemTime;
  revision : RevisionToken;
}.

(* src: crates/bos-kernel/src/outbox.rs:79-97 OutboxMessage::new *)
Definition new (id : OutboxMessageId) (aggregate aggregate_id : string)
    (execution_id : ExecutionId) (envelope : OutboxEnvelope.t) (now : SystemTime) : t :=
  mk id aggregate aggregate_id execution_id envelope now 0 None RevisionToken.initial.

(* src: crates/bos-kernel/src/outbox.rs:135-138 OutboxMessage::schedule_at *)
Definition schedule_at (m : t) (at_ : SystemTime) : t :=
  mk (id m) (aggregate m) (aggregate_id m) (execution_id m) (envelope m) at_ (attempts m)
     (last_attempted_at m) (revision m).

(* src: crates/bos-kernel/src/outbox.rs:140-143 OutboxMessage::with_revision *)
Definition with_revision (m : t) (v : RevisionToken) : t :=
  mk (id m) (aggregate m) (aggregate_id m) (execution_id m) (envelope m) (available_at m)
     (attempts m) (last_attempted_at m) v.

(* src: crates/bos-kernel/src/outbox.rs:145-157 OutboxMessage::mark_attempted *)
Definition mark_attempted (m : t) (attempted_at : SystemTime) (at_ : option SystemTime) : t :=
  mk (id m) (aggregate m) (aggregate_id m) (execution_id m) (envelope m)
     (match at_ with Some a => a | None => available_at m end)
     (saturating_add_u32 (attempts m) 1) (Some attempted_at)
     (RevisionToken.next (revision m)).

(* src: crates/bos-kernel/src/outbox.rs:159-162 OutboxMessage::mark_claimed *)
Definition mark_claimed (m : t) : t := with_revision m (RevisionToken.next (revision m)).

(* src: crates/bos-kernel/src/outbox.rs:164-168 OutboxMessage::release_claim *)
Definition release_claim (m : t) (at_ : SystemTime) : t :=
  mk (id m) (aggregate m) (aggregate_id m) (execution_id m) (envelope m) at_ (attempts m)
     (last_attempted_at m) (RevisionToken.next (revision m)).
End OutboxMessage.

Module OutboxDeliveryLease.
(* src: crates/bos-kernel/src/outbox.rs:171-177 OutboxDeliveryLease *)
Record t := mk {
  lease_id : LeaseId;
  leased_by : string;
  leased_at : SystemTime;
  lease_expires_at : SystemTime;
}.

(* src: crates/bos-kernel/src/outbox.rs:194-206 OutboxDeliveryLease::from_now *)
Definition from_now (lease_id : LeaseId) (leased_by : string) (lease_ttl : Duration)
    (now : SystemTime) : t :=
  mk lease_id leased_by now (add_or_now now lease_ttl).

(* src: crates/bos-kernel/src/outbox.rs:224-226 OutboxDeliveryLease::is_expired_at *)
Definition is_expired_at (l : t) (now : SystemTime) : bool := (lease_expires_at l <? now)%Z.

(* src: crates/bos-kernel/src/outbox.rs:228-230 OutboxDeliveryLease::renew *)
Definition renew (l : t) (renewed_at : SystemTime) (lease_ttl : Duration) : t :=
  from_now (lease_id l) (leased_by l) lease_ttl renewed_at.
End OutboxDeliveryLease.

Module OutboxDeliveryLeaseRequest.
(* src: crates/bos-kernel/src/outbox.rs:233-239 OutboxDeliveryLeaseRequest *)
Record t := mk {
  leased_by : string;
  batch_size : N;
  lease_ttl : Duration;
  now : SystemTime;
}.

(* src: crates/bos-kernel/src/outbox.rs:242-249 OutboxDeliveryLeaseRequest::new *)
Definition new (leased_by : string) (batch_size : N) (lease_ttl : Duration) (now : SystemTime) : t :=
  mk leased_by (N.max batch_size 1) lease_ttl now.

(* src: crates/bos-kernel/src/outbox.rs:267-270 OutboxDeliveryLeaseRequest::at *)
Definition at_ (r : t) (now : SystemTime) : t := mk (leased_by r) (batch_size r) (lease_ttl r) now.
End OutboxDeliveryLeaseRequest.

Module DueOutboxMessageRequest.
(* src: crates/bos-kernel/src/outbox.rs:273-278 DueOutboxMessageRequest *)
Record t := mk {
  due_before : SystemTime;
  limit : N;
  include_expired_leases : bool;
}.

(* src: crates/bos-kernel/src/outbox.rs:281-287 DueOutboxMessageRequest::new *)
Definition new (limit : N) (now : SystemTime) : t := mk now (N.max limit 1) true.

(* src: crates/bos-kernel/src/outbox.rs:301-304 DueOutboxMessageRequest::at *)
Definition at_ (r : t) (due_before : SystemTime) : t :=
  mk due_before (limit r) (include_expired_leases r).

(* src: crates/bos-kernel/src/outbox.rs:306-309 DueOutboxMessageRequest::with_expired_leases *)
Definition with_expired_leases (r : t) (b : bool) : t := mk (due_before r) (limit r) b.
End DueOutboxMessageRequest.

Module OutboxDeliveryLeaseRenewal.
(* src: crates/bos-kernel/src/outbox.rs:312-319 OutboxDeliveryLeaseRenewal *)
Record t := mk {
  message_id : OutboxMessageId;
  lease_id : LeaseId;
  leased_by : string;
  renewed_at : SystemTime;
  lease_ttl : Duration;
}.

(* src: crates/bos-kernel/src/outbox.rs:322-335 OutboxDeliveryLeaseRenewal::new *)
Definition new (message_id : OutboxMessageId) (lease_id : LeaseId) (leased_by : string)
    (lease_ttl : Duration) (now : SystemTime) : t :=
  mk message_id lease_id leased_by now lease_ttl.

(* src: crates/bos-kernel/src/outbox.rs:357-360 OutboxDeliveryLeaseRenewal::at *)
Definition at_ (r : t) (renewed_at : SystemTime) : t :=
  mk (message_id r) (lease_id r) (leased_by r) renewed_at (lease_ttl r).

(* src: crates/bos-kernel/src/outbox.rs:362-369 OutboxDeliveryLeaseRenewal::renewed_lease *)
Definition renewed_lease (r : t) : OutboxDeliveryLease.t :=
  OutboxDeliveryLease.from_now (lease_id r) (leased_by r) (lease_ttl r) (renewed_at r).

(* src: crates/bos-kernel/src/outbox.rs:727-749 OutboxDeliveryLeaseRenewal::validate *)
Definition validate (r : t) (ctx : ExecutionContext.t) : AppResult unit :=
  if is_blank (leased_by r) then
    Err (AppError.from_context InvalidInput "outbox_lease_renewal_owner_required"
           "outbox lease renewals require a non-empty worker identity" ctx)
  else if is_zero (lease_ttl r) then
    Err (AppError.from_context InvalidInput "outbox_lease_renewal_ttl_required"
           "outbox lease renewals require a positive lease ttl" ctx)
  else Ok tt.
End OutboxDeliveryLeaseRenewal.

Module OutboxDeliverySuccess.
(* src: crates/bos-kernel/src/outbox.rs:372-378 OutboxDeliverySuccess *)
Record t := mk {
  message_id : OutboxMessageId;
  lease_id : LeaseId;
  delivered_at : SystemTime;
  expected_revision : option RevisionToken;
}.

(* src: crates/bos-kernel/src/outbox.rs:381-388 OutboxDeliverySuccess::new *)
Definition new (m : OutboxMessageId) (l : LeaseId) (delivered_at : SystemTime) : t :=
  mk m l delivered_at None.

(* src: crates/bos-kernel/src/outbox.rs:406-409 OutboxDeliverySuccess::with_expected_revision *)
Definition with_expected_revision (s : t) (v : RevisionToken) : t :=
  mk (message_id s) (lease_id s) (delivered_at s) (Some v).
End OutboxDeliverySuccess.

Module OutboxDeliveryRetry.
(* src: crates/bos-kernel/src/outbox.rs:412-420 OutboxDeliveryRetry *)
Record t := mk {
  message_id : OutboxMessageId;
  lease_id : LeaseId;
  attempted_at : SystemTime;
  next_available_at : SystemTime;
  error : string;
  expected_revision : option RevisionToken;
}.

(* src: crates/bos-kernel/src/outbox.rs:423-438 OutboxDeliveryRetry::new *)
Definition new (m : OutboxMessageId) (l : LeaseId) (attempted_at next_available_at : SystemTime)
    (error : string) : t :=
  mk m l attempted_at next_available_at error None.

(* src: crates/bos-kernel/src/outbox.rs:464-467 OutboxDeliveryRetry::with_expected_revision *)
Definition with_expected_revision (r : t) (v : RevisionToken) : t :=
  mk (message_id r) (lease_id r) (attempted_at r) (next_available_at r) (error r) (Some v).
End OutboxDeliveryRetry.

Module OutboxDeliveryDeadLetter.
(* src: crates/bos-kernel/src/outbox.rs:470-477 OutboxDeliveryDeadLetter *)
Record t := mk {
  message_id : OutboxMessageId;
  lease_id : LeaseId;
  dead_lettered_at : SystemTime;
  error : string;
  expected_revision : option RevisionToken;
}.

(* src: crates/bos-kernel/src/outbox.rs:480-493 OutboxDeliveryDeadLetter::new *)
Definition new (m : OutboxMessageId) (l : LeaseId) (dead_lettered_at : SystemTime) (error : string) : t :=
  mk m l dead_lettered_at error None.

(* src: crates/bos-kernel/src/outbox.rs:515-518 OutboxDeliveryDeadLetter::with_expected_revision *)
Definition with_expected_revision (d : t) (v : RevisionToken) : t :=
  mk (message_id d) (lease_id d) (dead_lettered_at d) (error d) (Some v).
End OutboxDeliveryDeadLetter.

(** An outbox claim has no correlation id of its own, so its errors carry a fresh
    one: [gen] is what [CorrelationId::generate()] returns at that point. *)
Module ClaimedOutboxDelivery.
(* src: crates/bos-kernel/src/outbox.rs:521-525 ClaimedOutboxDelivery *)
Record t := mk { lease : OutboxDeliveryLease.t; message : OutboxMessage.t }.

(* src: crates/bos-kernel/src/outbox.rs:528-551 ClaimedOutboxDelivery::claim *)
Definition claim (gen : CorrelationId) (message : OutboxMessage.t) (lease : OutboxDeliveryLease.t)
    : AppResult t :=
  if is_blank (OutboxDeliveryLease.leased_by lease) then
    Err (AppError.new InvalidInput "outbox_lease_owner_required"
           "outbox leases require a non-empty worker identity" gen)
  else if (OutboxDeliveryLease.leased_at lease <? OutboxMessage.available_at message)%Z then
    Err (AppError.new InvalidState "outbox_not_available_for_claim"
           "outbox messages cannot be claimed before they are available" gen)
  else Ok (mk lease (OutboxMessage.mark_claimed message)).

(* src: crates/bos-kernel/src/outbox.rs:565-576 ClaimedOutboxDelivery::replace_lease *)
Definition replace_lease (gen : CorrelationId) (c : t) (lease : OutboxDeliveryLease.t) : AppResult t :=
  if is_blank (OutboxDeliveryLease.leased_by lease) then
    Err (AppError.new InvalidInput "outbox_lease_owner_required"
           "outbox leases require a non-empty worker identity" gen)
  else Ok (mk lease (message c)).

(* src: crates/bos-kernel/src/outbox.rs:578-587 ClaimedOutboxDelivery::complete *)
Definition complete (c : t) (delivered_at : SystemTime) : OutboxMessage.t * OutboxDeliverySuccess.t :=
  let success :=
    OutboxDeliverySuccess.with_expected_revision
      (OutboxDeliverySuccess.new (OutboxMessage.id (message c))
         (OutboxDeliveryLease.lease_id (lease c)) delivered_at)
      (OutboxMessage.revision (message c)) in
  (OutboxMessage.mark_attempted (message c) delivered_at None, success).

(* src: crates/bos-kernel/src/outbox.rs:589-626 ClaimedOutboxDelivery::retry *)
Definition retry (gen : CorrelationId) (c : t) (attempted_at next_available_at : SystemTime)
    (error : string) : AppResult (OutboxMessage.t * OutboxDeliveryRetry.t) :=
  if (next_available_at <? attempted_at)%Z then
    Err (AppError.new InvalidInput "outbox_retry_before_attempt"
           "outbox retries require next availability at or after the attempt time" gen)
  else if is_blank error then
    Err (AppError.new InvalidInput "outbox_retry_error_required"
           "outbox retries require a failure reason" gen)
  else
    let retry :=
      OutboxDeliveryRetry.with_expected_revision
        (OutboxDeliveryRetry.new (OutboxMessage.id (message c))
           (OutboxDeliveryLease.lease_id (lease c)) attempted_at next_available_at error)
        (OutboxMessage.revision (message c)) in
    Ok (OutboxMessage.mark_attempted (message c) attempted_at (Some next_available_at), retry).

(* src: crates/bos-kernel/src/outbox.rs:628-652 ClaimedOutboxDelivery::dead_letter *)
Definition dead_letter (gen : CorrelationId) (c : t) (dead_lettered_at : SystemTime)
    (error : string) : AppResult (OutboxMessage.t * OutboxDeliveryDeadLetter.t) :=
  if is_blank error then
    Err (AppError.new InvalidInput "outbox_dead_letter_error_required"
           "dead-lettering outbox work requires a failure reason" gen)
  else
    let dead_letter :=
      OutboxDeliveryDeadLetter.with_expected_revision
        (OutboxDeliveryDeadLetter.new (OutboxMessage.id (message c))
           (OutboxDeliveryLease.lease_id (lease c)) dead_lettered_at error)
        (OutboxMessage.revision (message c)) in
    Ok (OutboxMessage.mark_attempted (message c) dead_lettered_at None, dead_letter).
End ClaimedOutboxDelivery.

Module PendingOutbox.
(* src: crates/bos-kernel/src/outbox.rs:655-658 PendingOutbox *)
Record t := mk { messages : list OutboxMessage.t }.

(* src: crates/bos-kernel/src/outbox.rs:661-663 PendingOutbox::push *)
Definition push (p : t) (m : OutboxMessage.t) : t := mk (messages p ++ [m]).

(* src: crates/bos-kernel/src/outbox.rs:665-667 PendingOutbox::drain *)
Definition drain (p : t) : list OutboxMessage.t * t := (messages p, mk []).

(* src: crates/bos-kernel/src/outbox.rs:669-671 PendingOutbox::len *)
Definition len (p : t) : N := Prelude.len (messages p).

(* src: crates/bos-kernel/src/outbox.rs:673-675 PendingOutbox::is_empty *)
Definition is_empty (p : t) : bool := match messages p with [] => true | _ => false end.
End PendingOutbox.

(** ** When a claim succeeds *)

Lemma claim_message_ok gen m l c :
  ClaimedOutboxDelivery.claim gen m l = Ok c ↔
  is_blank (OutboxDeliveryLease.leased_by l) = false ∧
  (OutboxMessage.available_at m ≤ OutboxDeliveryLease.leased_at l)%Z ∧
  c = ClaimedOutboxDelivery.mk l (OutboxMessage.mark_claimed m).
Proof.
  unfold ClaimedOutboxDelivery.claim. destruct (is_blank (OutboxDeliveryLease.leased_by l)).
  { split; [done|]. by intros (? & _). }
  destruct (Z.ltb_spec (OutboxDeliveryLease.leased_at l) (OutboxMessage.available_at m)).
  { split; [done|]. intros (_ & ? & _). lia. }
  split; [intros [= <-]; auto|]. by intros (_ & _ & ->).
Qed.
