(* ===== verification/Transactional.v ===== *)
(** * Transactional writes ([bos-kernel/src/outbox.rs], second half)

    A [TransactionalWrite] collects what one transaction wants to store; its
    [validate] ties every outbox message to its own execution record and every
    record to an idempotency claim.  The loops and their hash sets are those of
    the source; the theorem states what they decide together. *)

From S2P Require Import Prelude RustStd Ids Errors CurrentState Execution Outbox.

(* src: crates/bos-kernel/src/outbox.rs:960-976 require_non_empty *)
Definition require_non_empty (value field_name code : string) (ctx : ExecutionContext.t)
    : AppResult unit :=
  if is_blank value then
    Err (AppError.from_context InvalidInput code (field_name +:+ " must not be empty") ctx)
  else Ok tt.

Module TransactionalWrite.
Section events.
Context {E U : Type}.

(* src: crates/bos-kernel/src/outbox.rs:751-758 TransactionalWrite *)
Record t := mk {
  aggregate_updates : list U;
  domain_events : list E;
  idempotency_claims : list IdempotencyClaim.t;
  execution_records : list ExecutionRecord.t;
  outbox_messages : list OutboxMessage.t;
}.

Definition default : t := mk [] [] [] [] [].

(* src: crates/bos-kernel/src/outbox.rs:761-763 TransactionalWrite::push_aggregate_update *)
Definition push_aggregate_update (w : t) (u : U) : t :=
  mk (aggregate_updates w ++ [u]) (domain_events w) (idempotency_claims w)
     (execution_records w) (outbox_messages w).

(* src: crates/bos-kernel/src/outbox.rs:765-767 TransactionalWrite::push_domain_event *)
Definition push_domain_event (w : t) (e : E) : t :=
  mk (aggregate_updates w) (domain_events w ++ [e]) (idempotency_claims w)
     (execution_records w) (outbox_messages w).

(* src: crates/bos-kernel/src/outbox.rs:769-771 TransactionalWrite::push_idempotency_claim *)
Definition push_idempotency_claim (w : t) (c : IdempotencyClaim.t) : t :=
  mk (aggregate_updates w) (domain_events w) (idempotency_claims w ++ [c])
     (execution_records w) (outbox_messages w).

(* src: crates/bos-kernel/src/outbox.rs:773-775 TransactionalWrite::push_execution_record *)
Definition push_execution_record (w : t) (r : ExecutionRecord.t) : t :=
  mk (aggregate_updates w) (domain_events w) (idempotency_claims w)
     (execution_records w ++ [r]) (outbox_messages w).

(* src: crates/bos-kernel/src/outbox.rs:777-779 TransactionalWrite::push_outbox_message *)
Definition push_outbox_message (w : t) (m : OutboxMessage.t) : t :=
  mk (aggregate_updates w) (domain_events w) (idempotency_claims w)
     (execution_records w) (outbox_messages w ++ [m]).

Definition nil_b {A} (l : list A) : bool := match l with [] => true | _ => false end.

(* src: crates/bos-kernel/src/outbox.rs:781-787 TransactionalWrite::is_empty *)
Definition is_empty (w : t) : bool :=
  nil_b (aggregate_updates w) && nil_b (domain_events w) && nil_b (idempotency_claims w)
  && nil_b (execution_records w) && nil_b (outbox_messages w).
End events.
Arguments t : clear implicits.

(** The first loop: claims with a scope and pairwise different keys. *)
(* src: crates/bos-kernel/src/outbox.rs:805-815 TransactionalWrite::validate (claims) *)
Fixpoint validate_claims (ctx : ExecutionContext.t) (claim_keys : gset IdempotencyKey)
    (claims : list IdempotencyClaim.t) : AppResult unit :=
  match claims with
  | [] => Ok tt
  | claim :: claims =>
    _ ← validate_scope (IdempotencyClaim.scope claim) ctx;
    if decide (IdempotencyClaim.key claim ∈ claim_keys) then
      Err (AppError.from_context Conflict "duplicate_idempotency_claim"
             "transactional writes cannot contain duplicate idempotency claims" ctx)
    else validate_claims ctx ({[ IdempotencyClaim.key claim ]} ∪ claim_keys) claims
  end.

(** [has_claim || matches_context] of the last two loops. *)
(* src: crates/bos-kernel/src/outbox.rs:858-865 TransactionalWrite::validate (key backed) *)
Definition backed (ctx : ExecutionContext.t) (claims : list IdempotencyClaim.t)
    (record : ExecutionRecord.t) : bool :=
  let has_claim :=
    existsb (fun claim => Id.eqb (IdempotencyClaim.key claim) (ExecutionRecord.idempotency_key record))
      claims in
  let matches_context :=
    option_any (fun key => Id.eqb key (ExecutionRecord.idempotency_key record))
      (ExecutionContext.idempotency_key ctx) in
  has_claim || matches_context.

(** The second loop returns the map from execution ids to records. *)
(* src: crates/bos-kernel/src/outbox.rs:817-876 TransactionalWrite::validate (records) *)
Fixpoint validate_records (ctx : ExecutionContext.t) (claims : list IdempotencyClaim.t)
    (execution_ids : gset ExecutionId) (idempotency_keys : gset IdempotencyKey)
    (execution_by_id : gmap ExecutionId ExecutionRecord.t) (records : list ExecutionRecord.t)
    : AppResult (gmap ExecutionId ExecutionRecord.t) :=
  match records with
  | [] => Ok execution_by_id
  | record :: records =>
    _ ← require_non_empty (ExecutionRecord.operation record) "execution operation"
          "execution_operation_required" ctx;
    _ ← require_non_empty (ExecutionRecord.target record) "execution target"
          "execution_target_required" ctx;
    if negb (Id.eqb (ExecutionRecord.correlation_id record) (ExecutionContext.correlation_id ctx)) then
      Err (AppError.from_context InvalidState "execution_record_correlation_mismatch"
             "execution records must use the current execution context correlation id" ctx)
    else if decide (ExecutionRecord.id record ∈ execution_ids) then
      Err (AppError.from_context Conflict "duplicate_execution_record"
             "transactional writes cannot contain duplicate execution record ids" ctx)
    else if decide (ExecutionRecord.idempotency_key record ∈ idempotency_keys) then
      Err (AppError.from_context Conflict "duplicate_execution_idempotency_key"
             "transactional writes cannot contain multiple execution records for one idempotency key"
             ctx)
    else if negb (backed ctx claims record) then
      Err (AppError.from_context InvalidState "execution_record_missing_idempotency_claim"
             "execution records require a matching idempotency claim or execution context key" ctx)
    else
      validate_records ctx claims ({[ ExecutionRecord.id record ]} ∪ execution_ids)
        ({[ ExecutionRecord.idempotency_key record ]} ∪ idempotency_keys)
        (<[ ExecutionRecord.id record := record ]> execution_by_id) records
  end.

(* src: crates/bos-kernel/src/outbox.rs:878-954 TransactionalWrite::validate (messages) *)
Fixpoint validate_messages (ctx : ExecutionContext.t) (claims : list IdempotencyClaim.t)
    (execution_by_id : gmap ExecutionId ExecutionRecord.t)
    (outbox_message_ids : gset OutboxMessageId) (outbox_execution_ids : gset ExecutionId)
    (messages : list OutboxMessage.t) : AppResult unit :=
  match messages with
  | [] => Ok tt
  | message :: messages =>
    let envelope := OutboxMessage.envelope message in
    if decide (OutboxMessage.id message ∈ outbox_message_ids) then
      Err (AppError.from_context Conflict "duplicate_outbox_message"
             "transactional writes cannot contain duplicate outbox message ids" ctx)
    else
    _ ← require_non_empty (OutboxMessage.aggregate message) "outbox aggregate"
          "outbox_aggregate_required" ctx;
    _ ← require_non_empty (OutboxMessage.aggregate_id message) "outbox aggregate id"
          "outbox_aggregate_id_required" ctx;
    _ ← require_non_empty (OutboxEnvelope.topic envelope) "outbox topic"
          "outbox_topic_required" ctx;
    _ ← require_non_empty (OutboxEnvelope.key envelope) "outbox key" "outbox_key_required" ctx;
    _ ← require_non_empty (OutboxEnvelope.payload envelope) "outbox payload"
          "outbox_payload_required" ctx;
    match execution_by_id !! OutboxMessage.execution_id message with
    | None =>
      Err (AppError.from_context InvalidState "outbox_execution_record_missing"
             "outbox messages require a matching execution record" ctx)
    | Some record =>
      if decide (OutboxMessage.execution_id message ∈ outbox_execution_ids) then
        Err (AppError.from_context Conflict "outbox_execution_record_reused"
               "each outbox message requires its own execution record" ctx)
      else if negb (backed ctx claims record) then
        Err (AppError.from_context InvalidState "outbox_missing_idempotency_claim"
               "outbox messages require execution records backed by an idempotency claim or context key"
               ctx)
      else
        validate_messages ctx claims execution_by_id
          ({[ OutboxMessage.id message ]} ∪ outbox_message_ids)
          ({[ OutboxMessage.execution_id message ]} ∪ outbox_execution_ids) messages
    end
  end.
End TransactionalWrite.

Module ValidatedTransactionalWrite.
(* src: crates/bos-kernel/src/outbox.rs:978-979 ValidatedTransactionalWrite *)
Record t (E U : Type) := mk { inner : TransactionalWrite.t E U }.
Arguments mk {E U} _.
Arguments inner {E U} _.
End ValidatedTransactionalWrite.

(* src: crates/bos-kernel/src/outbox.rs:789-957 TransactionalWrite::validate *)
Definition validate {E U} (w : TransactionalWrite.t E U) (ctx : ExecutionContext.t)
    : AppResult (ValidatedTransactionalWrite.t E U) :=
  let claims := TransactionalWrite.idempotency_claims w in
  let records := TransactionalWrite.execution_records w in
  let messages := TransactionalWrite.outbox_messages w in
  if negb (TransactionalWrite.nil_b messages) && TransactionalWrite.nil_b records then
    Err (AppError.from_context InvalidState "outbox_requires_execution_record"
           "outbox messages require at least one execution record" ctx)
  else
    _ ← TransactionalWrite.validate_claims ctx ∅ claims;
    execution_by_id ← TransactionalWrite.validate_records ctx claims ∅ ∅ ∅ records;
    _ ← TransactionalWrite.validate_messages ctx claims execution_by_id ∅ ∅ messages;
    Ok (ValidatedTransactionalWrite.mk w).

(** ** What validation decides *)

(** The contract, without loops or sets: what a committed transaction may hold. *)
Record claims_ok (claims : list IdempotencyClaim.t) : Prop := {
  claims_scoped : ∀ c, c ∈ claims → is_blank (IdempotencyClaim.scope c) = false;
  claims_nodup : NoDup (IdempotencyClaim.key <$> claims);
}.

Definition key_backed (ctx : ExecutionContext.t) (claims : list IdempotencyClaim.t)
    (k : IdempotencyKey) : Prop :=
  k ∈ (IdempotencyClaim.key <$> claims) ∨ ExecutionContext.idempotency_key ctx = Some k.

Record record_ok (ctx : ExecutionContext.t) (claims : list IdempotencyClaim.t)
    (r : ExecutionRecord.t) : Prop := {
  record_operation : is_blank (ExecutionRecord.operation r) = false;
  record_target : is_blank (ExecutionRecord.target r) = false;
  record_correlation : ExecutionRecord.correlation_id r = ExecutionContext.correlation_id ctx;
  record_backed : key_backed ctx claims (ExecutionRecord.idempotency_key r);
}.

Record message_ok (m : OutboxMessage.t) : Prop := {
  message_aggregate : is_blank (OutboxMessage.aggregate m) = false;
  message_aggregate_id : is_blank (OutboxMessage.aggregate_id m) = false;
  message_topic : is_blank (OutboxEnvelope.topic (OutboxMessage.envelope m)) = false;
  message_key : is_blank (OutboxEnvelope.key (OutboxMessage.envelope m)) = false;
  message_payload : is_blank (OutboxEnvelope.payload (OutboxMessage.envelope m)) = false;
}.

Record well_formed {E U} (w : TransactionalWrite.t E U) (ctx : ExecutionContext.t) : Prop := {
  wf_claims : claims_ok (TransactionalWrite.idempotency_claims w);
  wf_records : ∀ r, r ∈ TransactionalWrite.execution_records w →
    record_ok ctx (TransactionalWrite.idempotency_claims w) r;
  wf_record_ids : NoDup (ExecutionRecord.id <$> TransactionalWrite.execution_records w);
  wf_record_keys : NoDup (ExecutionRecord.idempotency_key <$> TransactionalWrite.execution_records w);
  wf_messages : ∀ m, m ∈ TransactionalWrite.outbox_messages w → message_ok m;
  wf_message_ids : NoDup (OutboxMessage.id <$> TransactionalWrite.outbox_messages w);
  wf_message_executions :
    NoDup (OutboxMessage.execution_id <$> TransactionalWrite.outbox_messages w);
  wf_message_records : ∀ m, m ∈ TransactionalWrite.outbox_messages w →
    OutboxMessage.execution_id m ∈ (ExecutionRecord.id <$> TransactionalWrite.execution_records w);
}.

Lemma require_non_empty_ok v f c ctx :
  require_non_empty v f c ctx = Ok tt ↔ is_blank v = false.
Proof. unfold require_non_empty. by destruct (is_blank v). Qed.

Lemma validate_scope_ok s ctx : validate_scope s ctx = Ok tt ↔ is_blank s = false.
Proof. unfold validate_scope. by destruct (is_blank s). Qed.

(** A chain of [?] succeeds when each of its steps does. *)
Lemma Result_bind_ok {E A B} (r : Result E A) (k : A → Result E B) b :
  r ≫= k = Ok b ↔ ∃ a, r = Ok a ∧ k a = Ok b.
Proof. destruct r; simpl; split; [eauto|by intros (?&[= <-]&?)|done|by intros (?&?&?)]. Qed.

Lemma Result_seq_ok {E B} (r : Result E unit) (k : Result E B) b :
  (r ≫= fun _ => k) = Ok b ↔ r = Ok tt ∧ k = Ok b.
Proof. rewrite Result_bind_ok. split; [intros ([] & ? & ?)|intros [? ?]; exists tt]; done. Qed.

Lemma decide_err_ok {E B} (P : Prop) `{Decision P} (e : E) (k : Result E B) b :
  (if decide P then Err e else k) = Ok b ↔ ¬ P ∧ k = Ok b.
Proof. case_decide; naive_solver. Qed.

Lemma guard_err_ok {E B} (c : bool) (e : E) (k : Result E B) b :
  (if c then Err e else k) = Ok b ↔ c = false ∧ k = Ok b.
Proof. destruct c; naive_solver. Qed.

Lemma backed_spec ctx claims r :
  TransactionalWrite.backed ctx claims r = true ↔
  key_backed ctx claims (ExecutionRecord.idempotency_key r).
Proof.
  unfold TransactionalWrite.backed, key_backed, Id.eqb.
  rewrite orb_true_iff, existsb_exists.
  assert (Hclaim : (∃ c, In c claims ∧
      bool_decide (IdempotencyClaim.key c = ExecutionRecord.idempotency_key r) = true) ↔
    ExecutionRecord.idempotency_key r ∈ (IdempotencyClaim.key <$> claims)).
  { rewrite list_elem_of_fmap. split.
    - intros (c & Hc%list_elem_of_In & Hk%bool_decide_eq_true). by exists c.
    - intros (c & Hk & Hc%list_elem_of_In). exists c. by rewrite bool_decide_eq_true. }
  rewrite Hclaim. clear Hclaim.
  destruct (ExecutionContext.idempotency_key ctx) as [k|]; simpl.
  - rewrite bool_decide_eq_true. split; (intros [?|[=]]; [by left|right; congruence]).
  - split; (intros [?|?]; [by left|done]).
Qed.

#[local] Ltac unfold_seq :=
  repeat first [ rewrite Result_seq_ok | rewrite decide_err_ok | rewrite guard_err_ok
               | rewrite require_non_empty_ok | rewrite validate_scope_ok ].

(** Each loop, with the sets it has built so far. *)
Lemma validate_claims_ok ctx ks claims :
  TransactionalWrite.validate_claims ctx ks claims = Ok tt ↔
  claims_ok claims ∧ ∀ c, c ∈ claims → IdempotencyClaim.key c ∉ ks.
Proof.
  revert ks. induction claims as [|c claims IH]; intros ks; simpl.
  - split; [|done]. intros _. split; [split|]; [intros ? []%not_elem_of_nil|constructor|].
    intros ? []%not_elem_of_nil.
  - unfold_seq. rewrite IH. split.
    + intros (Hs & Hk & [Hsc Hnd] & Hks). split; [split|].
      * intros c' [->|?]%elem_of_cons; auto.
      * rewrite fmap_cons. constructor; [|done].
        intros (c' & Heq & Hc'%Hks)%list_elem_of_fmap. set_solver.
      * intros c' [->|Hc'%Hks]%elem_of_cons; set_solver.
    + intros ([Hsc [Hn Hnd]%NoDup_cons] & Hks).
      split_and!; [apply Hsc; by left|apply Hks; by left|split; [intros; apply Hsc; by right|done]|].
      intros c' Hc'. apply not_elem_of_union. split; [|apply Hks; by right].
      intros Heq%elem_of_singleton. apply Hn. rewrite <- Heq. by apply list_elem_of_fmap_2.
Qed.

Lemma validate_records_ok ctx claims ids ks m records m' :
  (TransactionalWrite.validate_records ctx claims ids ks m records = Ok m') ↔
  (∀ r, r ∈ records → record_ok ctx claims r) ∧
  NoDup (ExecutionRecord.id <$> records) ∧ NoDup (ExecutionRecord.idempotency_key <$> records) ∧
  (∀ r, r ∈ records → ExecutionRecord.id r ∉ ids ∧ ExecutionRecord.idempotency_key r ∉ ks) ∧
  m' = foldl (fun acc r => <[ExecutionRecord.id r := r]> acc) m records.
Proof.
  revert ids ks m. induction records as [|r records IH]; intros ids ks m; simpl.
  - split; [intros [= <-]|by intros (_ & _ & _ & _ & ->)].
    split_and!; [by intros ? ?%not_elem_of_nil|apply NoDup_nil_2|apply NoDup_nil_2|
                 by intros ? ?%not_elem_of_nil|done].
  - unfold_seq. unfold Id.eqb. rewrite !negb_false_iff, bool_decide_eq_true, backed_spec, IH. split.
    + intros (Ho & Ht & Hc & Hi & Hk & Hb & Hr & Hn1 & Hn2 & Hf & ->). split_and!; try done.
      * intros r' [->|?]%elem_of_cons; [by split|auto].
      * constructor; [|done]. intros (r' & Heq & [Hr' _]%Hf)%list_elem_of_fmap. set_solver.
      * constructor; [|done]. intros (r' & Heq & [_ Hr']%Hf)%list_elem_of_fmap. set_solver.
      * intros r' [->|[??]%Hf]%elem_of_cons; set_solver.
    + intros (Hr & [Hx1 Hn1]%NoDup_cons & [Hx2 Hn2]%NoDup_cons & Hf & ->).
      destruct (Hr r) as [??? Hb]; [by left|]. destruct (Hf r) as [??]; [by left|].
      split_and!; try done; [intros; apply Hr; by right|].
      intros r' Hr'. destruct (Hf r') as [??]; [by right|]. rewrite !not_elem_of_union.
      split_and!; try done; intros Heq%elem_of_singleton.
      * apply Hx1. rewrite <- Heq. by apply list_elem_of_fmap_2.
      * apply Hx2. rewrite <- Heq. by apply list_elem_of_fmap_2.
Qed.

(** The map the second loop leaves holds exactly the records, under their ids. *)
Lemma record_map_lookup records (m : gmap ExecutionId ExecutionRecord.t) i :
  is_Some (foldl (fun m r => <[ExecutionRecord.id r := r]> m) m records !! i) ↔
  is_Some (m !! i) ∨ i ∈ (ExecutionRecord.id <$> records).
Proof.
  revert m. induction records as [|r records IH]; intros m; simpl.
  - set_solver.
  - rewrite IH, elem_of_cons. destruct (decide (i = ExecutionRecord.id r)) as [->|Hi].
    + rewrite lookup_insert_eq. naive_solver.
    + rewrite lookup_insert_ne by done. naive_solver.
Qed.

Lemma record_map_in records (m : gmap ExecutionId ExecutionRecord.t) i r :
  foldl (fun m r => <[ExecutionRecord.id r := r]> m) m records !! i = Some r →
  m !! i = Some r ∨ r ∈ records.
Proof.
  revert m. induction records as [|r' records IH]; intros m; simpl; [by left|].
  intros [Hm|?]%IH; [|right; by right].
  apply lookup_insert_Some in Hm as [[_ ->]|[_ ?]]; [right; by left|by left].
Qed.

Lemma validate_messages_ok ctx claims m mids eids messages :
  (∀ i r, m !! i = Some r → TransactionalWrite.backed ctx claims r = true) →
  TransactionalWrite.validate_messages ctx claims m mids eids messages = Ok tt ↔
  (∀ x, x ∈ messages → message_ok x ∧ is_Some (m !! OutboxMessage.execution_id x)) ∧
  NoDup (OutboxMessage.id <$> messages) ∧ NoDup (OutboxMessage.execution_id <$> messages) ∧
  (∀ x, x ∈ messages → OutboxMessage.id x ∉ mids ∧ OutboxMessage.execution_id x ∉ eids).
Proof.
  intros Hm. revert mids eids. induction messages as [|x messages IH]; intros mids eids; simpl.
  - split; [|done]. intros _.
    split_and!; [by intros ? ?%not_elem_of_nil|apply NoDup_nil_2|apply NoDup_nil_2|
                 by intros ? ?%not_elem_of_nil].
  - unfold_seq. split.
    + intros (Hi & H1 & H2 & H3 & H4 & H5 & Hk).
      destruct (m !! OutboxMessage.execution_id x) as [r|] eqn:Hr; [|done].
      revert Hk. unfold_seq. rewrite IH. intros (He & _ & Hx & Hn1 & Hn2 & Hf). split_and!.
      * intros x' [->|?]%elem_of_cons; [|auto]. split; [by split|by rewrite Hr].
      * constructor; [|done]. intros (x' & Heq & [Hx' _]%Hf)%list_elem_of_fmap. set_solver.
      * constructor; [|done]. intros (x' & Heq & [_ Hx']%Hf)%list_elem_of_fmap. set_solver.
      * intros x' [->|[??]%Hf]%elem_of_cons; set_solver.
    + intros (Hx & [Hx1 Hn1]%NoDup_cons & [Hx2 Hn2]%NoDup_cons & Hf).
      destruct (Hx x) as [[] [r Hr]]; [by left|]. destruct (Hf x) as [??]; [by left|].
      split_and!; try done. rewrite Hr. unfold_seq. rewrite negb_false_iff, IH. split_and!; eauto.
      * intros; apply Hx; by right.
      * intros x' Hx'. destruct (Hf x') as [??]; [by right|]. rewrite !not_elem_of_union.
        split_and!; try done; intros Heq%elem_of_singleton.
        -- apply Hx1. rewrite <- Heq. by apply list_elem_of_fmap_2.
        -- apply Hx2. rewrite <- Heq. by apply list_elem_of_fmap_2.
Qed.

(** [validate] accepts a transactional write exactly when it is well formed:
    scoped claims with different keys; records with an operation, a target, the
    context's correlation id, a backing claim (or the context's own key), and
    different ids and keys; messages with every field filled, different ids, and
    each with an execution record of the same write that no other message uses.
    What it accepts it returns unchanged. *)
Theorem validate_spec {E U} (w : TransactionalWrite.t E U) (ctx : ExecutionContext.t)
    (v : ValidatedTransactionalWrite.t E U) :
  validate w ctx = Ok v ↔ well_formed w ctx ∧ v = ValidatedTransactionalWrite.mk w.
Proof.
  unfold validate. rewrite guard_err_ok, Result_seq_ok, validate_claims_ok, Result_bind_ok.
  split.
  - intros (_ & [Hc _] & m & (Hr & Hn1 & Hn2 & _ & ->)%validate_records_ok & Hv).
    apply Result_seq_ok in Hv as [Hv [= <-]]. split; [|done].
    apply validate_messages_ok in Hv as (Hx & Hn3 & Hn4 & _).
    + split; try done; intros x [Hx1 Hx2]%Hx; [done|].
      apply record_map_lookup in Hx2 as [[? ?]|?]; by simplify_map_eq.
    + intros i r [?|?%Hr]%record_map_in; [by simplify_map_eq|]. by apply backed_spec, record_backed.
  - intros ([Hc Hr Hn1 Hn2 Hx Hn3 Hn4 He] & ->). split_and!; [|done|set_solver|].
    { destruct (TransactionalWrite.outbox_messages w) as [|x l]; [done|simpl].
      destruct (TransactionalWrite.execution_records w); [|done].
      exfalso. eapply not_elem_of_nil, (He x). by left. }
    eexists. rewrite validate_records_ok, Result_seq_ok. split_and!; try done.
    apply validate_messages_ok.
    + intros i r [?|?%Hr]%record_map_in; [by simplify_map_eq|]. by apply backed_spec, record_backed.
    + split_and!; try done. intros x Hx'. split; [by apply Hx|].
      rewrite record_map_lookup. right. by apply He.
Qed.
