(* ===== verification/Inspection.v ===== *)
(** * Inspection of queued work ([execution/inspection.rs], [outbox/inspection.rs])

    What an operator sees of a record: due, leased, stale, waiting for a retry;
    the queries that select records, and the summaries that count them one at a
    time. *)

From S2P Require Import Prelude RustStd Ids Errors CurrentState Execution Outbox.

Module ExecutionInspectionRecord.
(* src: crates/bos-kernel/src/execution/inspection.rs:93-97 ExecutionInspectionRecord *)
Record t := mk { record : ExecutionRecord.t; lease : option ExecutionLease.t }.

(* src: crates/bos-kernel/src/execution/inspection.rs:100-105 ExecutionInspectionRecord::new *)
Definition new (record : ExecutionRecord.t) : t := mk record None.

(* src: crates/bos-kernel/src/execution/inspection.rs:163-166 ExecutionInspectionRecord::with_lease *)
Definition with_lease (r : t) (l : option ExecutionLease.t) : t := mk (record r) l.

(* src: crates/bos-kernel/src/execution/inspection.rs:180-185 ExecutionInspectionRecord::is_terminal *)
Definition is_terminal (r : t) : bool :=
  match ExecutionRecord.status (record r) with
  | ExecutionRecordStatus.Succeeded | ExecutionRecordStatus.DeadLettered => true
  | _ => false
  end.

(* src: crates/bos-kernel/src/execution/inspection.rs:187-191 ExecutionInspectionRecord::has_active_lease_at *)
Definition has_active_lease_at (r : t) (observed_at : SystemTime) : bool :=
  option_any (fun l => negb (ExecutionLease.is_expired_at l observed_at)) (lease r).

(* src: crates/bos-kernel/src/execution/inspection.rs:193-197 ExecutionInspectionRecord::has_stale_lease_at *)
Definition has_stale_lease_at (r : t) (observed_at : SystemTime) : bool :=
  option_any (fun l => ExecutionLease.is_expired_at l observed_at) (lease r).

(* src: crates/bos-kernel/src/execution/inspection.rs:199-208 ExecutionInspectionRecord::is_due_at *)
Definition is_due_at (r : t) (observed_at : SystemTime) : bool :=
  (ExecutionRecord.available_at (record r) <=? observed_at)%Z
  && match ExecutionRecord.status (record r) with
     | ExecutionRecordStatus.Pending | ExecutionRecordStatus.Failed
     | ExecutionRecordStatus.InFlight => true
     | _ => false
     end
  && negb (has_active_lease_at r observed_at).

(* src: crates/bos-kernel/src/execution/inspection.rs:210-214 ExecutionInspectionRecord::is_retry_scheduled_at *)
Definition is_retry_scheduled_at (r : t) (observed_at : SystemTime) : bool :=
  ExecutionRecordStatus.eqb (ExecutionRecord.status (record r)) ExecutionRecordStatus.Pending
  && (1 <? ExecutionRecord.attempt (record r))%N
  && (observed_at <? ExecutionRecord.available_at (record r))%Z.
End ExecutionInspectionRecord.

Module ExecutionInspectionSnapshot.
(* src: crates/bos-kernel/src/execution/inspection.rs:244-265 ExecutionInspectionSnapshot *)
Record t := mk {
  execution_id : ExecutionId;
  operation : string;
  target : string;
  correlation_id : CorrelationId;
  idempotency_key : IdempotencyKey;
  status : ExecutionRecordStatus.t;
  attempt : N;
  recorded_at : SystemTime;
  available_at : SystemTime;
  last_attempted_at : option SystemTime;
  finished_at : option SystemTime;
  last_error : option string;
  lease_id : option LeaseId;
  leased_by : option string;
  lease_expires_at : option SystemTime;
  active_lease : bool;
  stale_lease : bool;
  due : bool;
  retry_scheduled : bool;
}.

(* src: crates/bos-kernel/src/execution/inspection.rs:344-349 ExecutionInspectionSnapshot::is_terminal *)
Definition is_terminal (s : t) : bool :=
  match status s with
  | ExecutionRecordStatus.Succeeded | ExecutionRecordStatus.DeadLettered => true
  | _ => false
  end.

(* src: crates/bos-kernel/src/execution/inspection.rs:216-241 ExecutionInspectionRecord::snapshot_at *)
Definition snapshot_at (r : ExecutionInspectionRecord.t) (observed_at : SystemTime) : t :=
  let rec := ExecutionInspectionRecord.record r in
  let lease := ExecutionInspectionRecord.lease r in
  {| execution_id := ExecutionRecord.id rec;
     operation := ExecutionRecord.operation rec;
     target := ExecutionRecord.target rec;
     correlation_id := ExecutionRecord.correlation_id rec;
     idempotency_key := ExecutionRecord.idempotency_key rec;
     status := ExecutionRecord.status rec;
     attempt := ExecutionRecord.attempt rec;
     recorded_at := ExecutionRecord.recorded_at rec;
     available_at := ExecutionRecord.available_at rec;
     last_attempted_at := ExecutionRecord.last_attempted_at rec;
     finished_at := ExecutionRecord.finished_at rec;
     last_error := ExecutionRecord.last_error rec;
     lease_id := ExecutionLease.lease_id <$> lease;
     leased_by := ExecutionLease.leased_by <$> lease;
     lease_expires_at := ExecutionLease.lease_expires_at <$> lease;
     active_lease := ExecutionInspectionRecord.has_active_lease_at r observed_at;
     stale_lease := ExecutionInspectionRecord.has_stale_lease_at r observed_at;
     due := ExecutionInspectionRecord.is_due_at r observed_at;
     retry_scheduled := ExecutionInspectionRecord.is_retry_scheduled_at r observed_at |}.
End ExecutionInspectionSnapshot.

Module ExecutionInspectionQuery.
(* src: crates/bos-kernel/src/execution/inspection.rs:7-14 ExecutionInspectionQuery *)
Record t := mk {
  observed_at : SystemTime;
  limit : N;
  status : option ExecutionRecordStatus.t;
  operation : option string;
  target : option string;
}.

(* src: crates/bos-kernel/src/execution/inspection.rs:17-25 ExecutionInspectionQuery::new *)
Definition new (limit : N) (now : SystemTime) : t := mk now (N.max limit 1) None None None.

(* src: crates/bos-kernel/src/execution/inspection.rs:47-50 ExecutionInspectionQuery::at *)
Definition at_ (q : t) (observed_at : SystemTime) : t :=
  mk observed_at (limit q) (status q) (operation q) (target q).

(* src: crates/bos-kernel/src/execution/inspection.rs:52-55 ExecutionInspectionQuery::with_status *)
Definition with_status (q : t) (s : ExecutionRecordStatus.t) : t :=
  mk (observed_at q) (limit q) (Some s) (operation q) (target q).

(* src: crates/bos-kernel/src/execution/inspection.rs:57-60 ExecutionInspectionQuery::with_operation *)
Definition with_operation (q : t) (o : string) : t :=
  mk (observed_at q) (limit q) (status q) (Some o) (target q).

(* src: crates/bos-kernel/src/execution/inspection.rs:62-65 ExecutionInspectionQuery::with_target *)
Definition with_target (q : t) (g : string) : t :=
  mk (observed_at q) (limit q) (status q) (operation q) (Some g).

(* src: crates/bos-kernel/src/execution/inspection.rs:67-70 ExecutionInspectionQuery::with_limit *)
Definition with_limit (q : t) (limit : N) : t :=
  mk (observed_at q) (N.max limit 1) (status q) (operation q) (target q).

(* src: crates/bos-kernel/src/execution/inspection.rs:72-86 ExecutionInspectionQuery::matches_record *)
Definition matches_record (q : t) (r : ExecutionRecord.t) : bool :=
  map_or_true (fun s => ExecutionRecordStatus.eqb (ExecutionRecord.status r) s) (status q)
  && map_or_true (fun o => string_eqb (ExecutionRecord.operation r) o) (operation q)
  && map_or_true (fun g => string_eqb (ExecutionRecord.target r) g) (target q).

(* src: crates/bos-kernel/src/execution/inspection.rs:88-90 ExecutionInspectionQuery::matches_inspection *)
Definition matches_inspection (q : t) (r : ExecutionInspectionRecord.t) : bool :=
  matches_record q (ExecutionInspectionRecord.record r).
End ExecutionInspectionQuery.

(** [self.n = self.n.saturating_add(1)] under a condition. *)
Definition bump (c : bool) (n : N) : N := if c then saturating_add_usize n 1 else n.

(** The earliest of the availability times of the due work seen so far. *)
Definition bump_oldest (c : bool) (oldest : option SystemTime) (at_ : SystemTime) : option SystemTime :=
  if c then Some (match oldest with Some o => Z.min o at_ | None => at_ end) else oldest.

Module ExecutionInspectionSummary.
(* src: crates/bos-kernel/src/execution/inspection.rs:352-365 ExecutionInspectionSummary *)
Record t := mk {
  total : N;
  pending : N;
  in_flight : N;
  succeeded : N;
  failed : N;
  dead_lettered : N;
  due : N;
  leased : N;
  retry_scheduled : N;
  stale_leases : N;
  oldest_due_at : option SystemTime;
}.

Definition default : t := mk 0 0 0 0 0 0 0 0 0 0 None.

(* src: crates/bos-kernel/src/execution/inspection.rs:424-462 ExecutionInspectionSummary::observe_record *)
Definition observe_record (s : t) (r : ExecutionInspectionRecord.t) (observed_at : SystemTime) : t :=
  let st := ExecutionRecord.status (ExecutionInspectionRecord.record r) in
  let is_due := ExecutionInspectionRecord.is_due_at r observed_at in
  {| total := saturating_add_usize (total s) 1;
     pending := bump (ExecutionRecordStatus.eqb st ExecutionRecordStatus.Pending) (pending s);
     in_flight := bump (ExecutionRecordStatus.eqb st ExecutionRecordStatus.InFlight) (in_flight s);
     succeeded := bump (ExecutionRecordStatus.eqb st ExecutionRecordStatus.Succeeded) (succeeded s);
     failed := bump (ExecutionRecordStatus.eqb st ExecutionRecordStatus.Failed) (failed s);
     dead_lettered :=
       bump (ExecutionRecordStatus.eqb st ExecutionRecordStatus.DeadLettered) (dead_lettered s);
     due := bump is_due (due s);
     leased := bump (ExecutionInspectionRecord.has_active_lease_at r observed_at) (leased s);
     retry_scheduled :=
       bump (ExecutionInspectionRecord.is_retry_scheduled_at r observed_at) (retry_scheduled s);
     stale_leases :=
       bump (ExecutionInspectionRecord.has_stale_lease_at r observed_at) (stale_leases s);
     oldest_due_at :=
       bump_oldest is_due (oldest_due_at s)
         (ExecutionRecord.available_at (ExecutionInspectionRecord.record r)) |}.

(* src: crates/bos-kernel/src/execution/inspection.rs:412-422 ExecutionInspectionSummary::observe *)
Definition observe (s : t) (r : ExecutionRecord.t) (l : option ExecutionLease.t)
    (observed_at : SystemTime) : t :=
  observe_record s (ExecutionInspectionRecord.with_lease (ExecutionInspectionRecord.new r) l)
    observed_at.
End ExecutionInspectionSummary.

Module OutboxMessageStatus.
(* src: crates/bos-kernel/src/outbox/inspection.rs:7-13 OutboxMessageStatus *)
Inductive t := Pending | InFlight | Delivered | DeadLettered.
#[global] Instance eq_dec : EqDecision t.
Proof. solve_decision. Defined.
Definition eqb (a b : t) : bool := bool_decide (a = b).
End OutboxMessageStatus.

Module OutboxInspectionRecord.
(* src: crates/bos-kernel/src/outbox/inspection.rs:15-23 OutboxInspectionRecord *)
Record t := mk {
  message : OutboxMessage.t;
  status : OutboxMessageStatus.t;
  lease : option OutboxDeliveryLease.t;
  delivered_at : option SystemTime;
  dead_lettered_at : option SystemTime;
  last_error : option string;
}.

(* src: crates/bos-kernel/src/outbox/inspection.rs:26-35 OutboxInspectionRecord::new *)
Definition new (m : OutboxMessage.t) (s : OutboxMessageStatus.t) : t := mk m s None None None None.

(* src: crates/bos-kernel/src/outbox/inspection.rs:101-104 OutboxInspectionRecord::with_lease *)
Definition with_lease (r : t) (l : option OutboxDeliveryLease.t) : t :=
  mk (message r) (status r) l (delivered_at r) (dead_lettered_at r) (last_error r).

(* src: crates/bos-kernel/src/outbox/inspection.rs:106-109 OutboxInspectionRecord::with_delivered_at *)
Definition with_delivered_at (r : t) (d : option SystemTime) : t :=
  mk (message r) (status r) (lease r) d (dead_lettered_at r) (last_error r).

(* src: crates/bos-kernel/src/outbox/inspection.rs:111-114 OutboxInspectionRecord::with_dead_lettered_at *)
Definition with_dead_lettered_at (r : t) (d : option SystemTime) : t :=
  mk (message r) (status r) (lease r) (delivered_at r) d (last_error r).

(* src: crates/bos-kernel/src/outbox/inspection.rs:116-119 OutboxInspectionRecord::with_last_error *)
Definition with_last_error (r : t) (e : option string) : t :=
  mk (message r) (status r) (lease r) (delivered_at r) (dead_lettered_at r) e.

(* src: crates/bos-kernel/src/outbox/inspection.rs:133-138 OutboxInspectionRecord::is_terminal *)
Definition is_terminal (r : t) : bool :=
  match status r with
  | OutboxMessageStatus.Delivered | OutboxMessageStatus.DeadLettered => true
  | _ => false
  end.

(* src: crates/bos-kernel/src/outbox/inspection.rs:140-144 OutboxInspectionRecord::has_active_lease_at *)
Definition has_active_lease_at (r : t) (observed_at : SystemTime) : bool :=
  option_any (fun l => negb (OutboxDeliveryLease.is_expired_at l observed_at)) (lease r).

(* src: crates/bos-kernel/src/outbox/inspection.rs:146-150 OutboxInspectionRecord::has_stale_lease_at *)
Definition has_stale_lease_at (r : t) (observed_at : SystemTime) : bool :=
  option_any (fun l => OutboxDeliveryLease.is_expired_at l observed_at) (lease r).

(* src: crates/bos-kernel/src/outbox/inspection.rs:152-154 OutboxInspectionRecord::is_due_at *)
Definition is_due_at (r : t) (observed_at : SystemTime) : bool :=
  OutboxMessageStatus.eqb (status r) OutboxMessageStatus.Pending
  && (OutboxMessage.available_at (message r) <=? observed_at)%Z.

(* src: crates/bos-kernel/src/outbox/inspection.rs:156-160 OutboxInspectionRecord::is_retry_scheduled_at *)
Definition is_retry_scheduled_at (r : t) (observed_at : SystemTime) : bool :=
  OutboxMessageStatus.eqb (status r) OutboxMessageStatus.Pending
  && (0 <? OutboxMessage.attempts (message r))%N
  && (observed_at <? OutboxMessage.available_at (message r))%Z.
End OutboxInspectionRecord.

Module OutboxInspectionSnapshot.
(* src: crates/bos-kernel/src/outbox/inspection.rs:278-301 OutboxInspectionSnapshot *)
Record t := mk {
  message_id : OutboxMessageId;
  aggregate : string;
  aggregate_id : string;
  execution_id : ExecutionId;
  topic : string;
  key : string;
  content_type : string;
  status : OutboxMessageStatus.t;
  attempts : N;
  available_at : SystemTime;
  last_attempted_at : option SystemTime;
  delivered_at : option SystemTime;
  dead_lettered_at : option SystemTime;
  last_error : option string;
  lease_id : option LeaseId;
  leased_by : option string;
  lease_expires_at : option SystemTime;
  active_lease : bool;
  stale_lease : bool;
  due : bool;
  retry_scheduled : bool;
}.

(* src: crates/bos-kernel/src/outbox/inspection.rs:388-393 OutboxInspectionSnapshot::is_terminal *)
Definition is_terminal (s : t) : bool :=
  match status s with
  | OutboxMessageStatus.Delivered | OutboxMessageStatus.DeadLettered => true
  | _ => false
  end.

(* src: crates/bos-kernel/src/outbox/inspection.rs:162-189 OutboxInspectionRecord::snapshot_at *)
Definition snapshot_at (r : OutboxInspectionRecord.t) (observed_at : SystemTime) : t :=
  let msg := OutboxInspectionRecord.message r in
  let lease := OutboxInspectionRecord.lease r in
  {| message_id := OutboxMessage.id msg;
     aggregate := OutboxMessage.aggregate msg;
     aggregate_id := OutboxMessage.aggregate_id msg;
     execution_id := OutboxMessage.execution_id msg;
     topic := OutboxEnvelope.topic (OutboxMessage.envelope msg);
     key := OutboxEnvelope.key (OutboxMessage.envelope msg);
     content_type := OutboxEnvelope.content_type (OutboxMessage.envelope msg);
     status := OutboxInspectionRecord.status r;
     attempts := OutboxMessage.attempts msg;
     available_at := OutboxMessage.available_at msg;
     last_attempted_at := OutboxMessage.last_attempted_at msg;
     delivered_at := OutboxInspectionRecord.delivered_at r;
     dead_lettered_at := OutboxInspectionRecord.dead_lettered_at r;
     last_error := OutboxInspectionRecord.last_error r;
     lease_id := OutboxDeliveryLease.lease_id <$> lease;
     leased_by := OutboxDeliveryLease.leased_by <$> lease;
     lease_expires_at := OutboxDeliveryLease.lease_expires_at <$> lease;
     active_lease := OutboxInspectionRecord.has_active_lease_at r observed_at;
     stale_lease := OutboxInspectionRecord.has_stale_lease_at r observed_at;
     due := OutboxInspectionRecord.is_due_at r observed_at;
     retry_scheduled := OutboxInspectionRecord.is_retry_scheduled_at r observed_at |}.
End OutboxInspectionSnapshot.

Module OutboxInspectionQuery.
(* src: crates/bos-kernel/src/outbox/inspection.rs:192-199 OutboxInspectionQuery *)
Record t := mk {
  observed_at : SystemTime;
  limit : N;
  status : option OutboxMessageStatus.t;
  aggregate : option string;
  topic : option string;
}.

(* src: crates/bos-kernel/src/outbox/inspection.rs:202-210 OutboxInspectionQuery::new *)
Definition new (limit : N) (now : SystemTime) : t := mk now (N.max limit 1) None None None.

(* src: crates/bos-kernel/src/outbox/inspection.rs:232-235 OutboxInspectionQuery::at *)
Definition at_ (q : t) (observed_at : SystemTime) : t :=
  mk observed_at (limit q) (status q) (aggregate q) (topic q).

(* src: crates/bos-kernel/src/outbox/inspection.rs:237-240 OutboxInspectionQuery::with_status *)
Definition with_status (q : t) (s : OutboxMessageStatus.t) : t :=
  mk (observed_at q) (limit q) (Some s) (aggregate q) (topic q).

(* src: crates/bos-kernel/src/outbox/inspection.rs:242-245 OutboxInspectionQuery::with_aggregate *)
Definition with_aggregate (q : t) (a : string) : t :=
  mk (observed_at q) (limit q) (status q) (Some a) (topic q).

(* src: crates/bos-kernel/src/outbox/inspection.rs:247-250 OutboxInspectionQuery::with_topic *)
Definition with_topic (q : t) (g : string) : t :=
  mk (observed_at q) (limit q) (status q) (aggregate q) (Some g).

(* src: crates/bos-kernel/src/outbox/inspection.rs:252-255 OutboxInspectionQuery::with_limit *)
Definition with_limit (q : t) (limit : N) : t :=
  mk (observed_at q) (N.max limit 1) (status q) (aggregate q) (topic q).

(* src: crates/bos-kernel/src/outbox/inspection.rs:257-271 OutboxInspectionQuery::matches_message *)
Definition matches_message (q : t) (m : OutboxMessage.t) (s : OutboxMessageStatus.t) : bool :=
  map_or_true (fun expected => OutboxMessageStatus.eqb s expected) (status q)
  && map_or_true (fun a => string_eqb (OutboxMessage.aggregate m) a) (aggregate q)
  && map_or_true (fun g => string_eqb (OutboxEnvelope.topic (OutboxMessage.envelope m)) g) (topic q).

(* src: crates/bos-kernel/src/outbox/inspection.rs:273-275 OutboxInspectionQuery::matches_inspection *)
Definition matches_inspection (q : t) (r : OutboxInspectionRecord.t) : bool :=
  matches_message q (OutboxInspectionRecord.message r) (OutboxInspectionRecord.status r).
End OutboxInspectionQuery.

Module OutboxInspectionSummary.
(* src: crates/bos-kernel/src/outbox/inspection.rs:396-408 OutboxInspectionSummary *)
Record t := mk {
  total : N;
  pending : N;
  in_flight : N;
  delivered : N;
  dead_lettered : N;
  due : N;
  retry_scheduled : N;
  leased : N;
  stale_leases : N;
  oldest_due_at : option SystemTime;
}.

Definition default : t := mk 0 0 0 0 0 0 0 0 0 None.

(* src: crates/bos-kernel/src/outbox/inspection.rs:451-484 OutboxInspectionSummary::observe *)
Definition observe (s : t) (r : OutboxInspectionRecord.t) (observed_at : SystemTime) : t :=
  let st := OutboxInspectionRecord.status r in
  let is_due := OutboxInspectionRecord.is_due_at r observed_at in
  {| total := saturating_add_usize (total s) 1;
     pending := bump (OutboxMessageStatus.eqb st OutboxMessageStatus.Pending) (pending s);
     in_flight := bump (OutboxMessageStatus.eqb st OutboxMessageStatus.InFlight) (in_flight s);
     delivered := bump (OutboxMessageStatus.eqb st OutboxMessageStatus.Delivered) (delivered s);
     dead_lettered :=
       bump (OutboxMessageStatus.eqb st OutboxMessageStatus.DeadLettered) (dead_lettered s);
     due := bump is_due (due s);
     retry_scheduled :=
       bump (OutboxInspectionRecord.is_retry_scheduled_at r observed_at) (retry_scheduled s);
     leased := bump (OutboxInspectionRecord.has_active_lease_at r observed_at) (leased s);
     stale_leases := bump (OutboxInspectionRecord.has_stale_lease_at r observed_at) (stale_leases s);
     oldest_due_at :=
       bump_oldest is_due (oldest_due_at s)
         (OutboxMessage.available_at (OutboxInspectionRecord.message r)) |}.
End OutboxInspectionSummary.
