(* ===== verification/Workers.v ===== *)
(** * Worker heartbeats ([bos-kernel/src/workers.rs]) *)

From S2P Require Import Prelude RustStd Ids Errors Transactional.

(* src: crates/bos-kernel/src/workers.rs:5-9 WorkerVisibility *)
Inductive WorkerVisibility := Visible | Expired.

#[global] Instance WorkerVisibility_eq_dec : EqDecision WorkerVisibility.
Proof. solve_decision. Defined.

(** The file has its own copy of the helper, word for word the one of [outbox.rs]. *)
(* src: crates/bos-kernel/src/workers.rs:213-229 require_non_empty *)
Definition worker_require_non_empty (value field_name code : string) (ctx : ExecutionContext.t)
    : AppResult unit :=
  if is_blank value then
    Err (AppError.from_context InvalidInput code (field_name +:+ " must not be empty") ctx)
  else Ok tt.

Module WorkerHeartbeat.
(* src: crates/bos-kernel/src/workers.rs:11-18 WorkerHeartbeat *)
Record t := mk {
  worker_id : string;
  scope : string;
  recorded_at : SystemTime;
  visible_until : SystemTime;
  active_leases : N;
}.

(* src: crates/bos-kernel/src/workers.rs:21-34 WorkerHeartbeat::new *)
Definition new (worker_id scope : string) (recorded_at visible_until : SystemTime) : t :=
  mk worker_id scope recorded_at visible_until 0.

(* src: crates/bos-kernel/src/workers.rs:36-50 WorkerHeartbeat::from_ttl *)
Definition from_ttl (worker_id scope : string) (recorded_at : SystemTime)
    (visibility_ttl : Duration) : t :=
  new worker_id scope recorded_at
    (match checked_add recorded_at visibility_ttl with
     | Some visible_until => visible_until
     | None => recorded_at
     end).

(* src: crates/bos-kernel/src/workers.rs:72-75 WorkerHeartbeat::with_active_leases *)
Definition with_active_leases (h : t) (n : N) : t :=
  mk (worker_id h) (scope h) (recorded_at h) (visible_until h) n.

(* src: crates/bos-kernel/src/workers.rs:77-83 WorkerHeartbeat::visibility_at *)
Definition visibility_at (h : t) (now : SystemTime) : WorkerVisibility :=
  if (now <=? visible_until h)%Z then Visible else Expired.

(* src: crates/bos-kernel/src/workers.rs:85-109 WorkerHeartbeat::validate *)
Definition validate (h : t) (ctx : ExecutionContext.t) : AppResult unit :=
  _ ← worker_require_non_empty (worker_id h) "worker heartbeat worker id"
        "worker_heartbeat_worker_id_required" ctx;
  _ ← worker_require_non_empty (scope h) "worker heartbeat scope"
        "worker_heartbeat_scope_required" ctx;
  if (visible_until h <? recorded_at h)%Z then
    Err (AppError.from_context InvalidInput "worker_heartbeat_visibility_window_invalid"
           "worker heartbeat visibility must not end before it was recorded" ctx)
  else Ok tt.
End WorkerHeartbeat.

Module WorkerVisibilityRef.
(* src: crates/bos-kernel/src/workers.rs:112-118 WorkerVisibilityRef *)
Record t := mk {
  worker_id : string;
  scope : string;
  visible_at : SystemTime;
  limit : N;
}.

(* src: crates/bos-kernel/src/workers.rs:121-128 WorkerVisibilityRef::new *)
Definition new (worker_id scope : string) (now : SystemTime) : t := mk worker_id scope now 1.

(* src: crates/bos-kernel/src/workers.rs:146-149 WorkerVisibilityRef::at *)
Definition at_ (r : t) (visible_at : SystemTime) : t :=
  mk (worker_id r) (scope r) visible_at (limit r).

(* src: crates/bos-kernel/src/workers.rs:151-154 WorkerVisibilityRef::with_limit *)
Definition with_limit (r : t) (limit : N) : t :=
  mk (worker_id r) (scope r) (visible_at r) (N.max limit 1).
End WorkerVisibilityRef.

Module VisibleWorkersQuery.
(* src: crates/bos-kernel/src/workers.rs:157-162 VisibleWorkersQuery *)
Record t := mk {
  scope : string;
  visible_at : SystemTime;
  limit : N;
}.

(* src: crates/bos-kernel/src/workers.rs:165-171 VisibleWorkersQuery::new *)
Definition new (scope : string) (now : SystemTime) : t := mk scope now usize_max.

(* src: crates/bos-kernel/src/workers.rs:185-188 VisibleWorkersQuery::at *)
Definition at_ (q : t) (visible_at : SystemTime) : t := mk (scope q) visible_at (limit q).

(* src: crates/bos-kernel/src/workers.rs:190-193 VisibleWorkersQuery::with_limit *)
Definition with_limit (q : t) (limit : N) : t := mk (scope q) (visible_at q) (N.max limit 1).
End VisibleWorkersQuery.

(** ** Lemmas *)

(** A heartbeat made from a ttl is valid whatever the clock does: an overflow
    shrinks the window to an instant, it never turns it around. *)
Lemma from_ttl_window w s at_ ttl :
  (WorkerHeartbeat.recorded_at (WorkerHeartbeat.from_ttl w s at_ ttl) ≤
   WorkerHeartbeat.visible_until (WorkerHeartbeat.from_ttl w s at_ ttl))%Z.
Proof. unfold WorkerHeartbeat.from_ttl, checked_add; simpl. repeat case_match; simplify_eq; lia. Qed.

Lemma heartbeat_validate_ok h ctx :
  WorkerHeartbeat.validate h ctx = Ok tt ↔
  is_blank (WorkerHeartbeat.worker_id h) = false ∧ is_blank (WorkerHeartbeat.scope h) = false ∧
  (WorkerHeartbeat.recorded_at h ≤ WorkerHeartbeat.visible_until h)%Z.
Proof.
  unfold WorkerHeartbeat.validate, worker_require_non_empty.
  destruct (is_blank (WorkerHeartbeat.worker_id h)); [naive_solver|].
  destruct (is_blank (WorkerHeartbeat.scope h)); [naive_solver|].
  cbn. destruct (Z.ltb_spec (WorkerHeartbeat.visible_until h) (WorkerHeartbeat.recorded_at h)).
  - split; [done|]. intros (_ & _ & ?). lia.
  - split; [|done]. intros _. split_and!; done || lia.
Qed.
