(* ===== verification/Dispatch.v ===== *)
(** * One interface over the two queues ([bos-kernel/src/dispatch.rs])

    The dispatcher treats execution work and outbox messages alike: requests,
    leases, claimed work and resolutions are sums over the two queues. *)

From S2P Require Import Prelude RustStd Ids Errors Execution Outbox Transactional Workers.

(* src: crates/bos-kernel/src/dispatch.rs:12-16 DispatchQueue *)
Inductive DispatchQueue := ExecutionQueue | OutboxQueue.

#[global] Instance DispatchQueue_eq_dec : EqDecision DispatchQueue.
Proof. solve_decision. Defined.

Definition queue_eqb (a b : DispatchQueue) : bool := bool_decide (a = b).

(* src: crates/bos-kernel/src/dispatch.rs:19-24 DispatchQueue::as_str *)
Definition DispatchQueue_as_str (q : DispatchQueue) : string :=
  match q with ExecutionQueue => "execution" | OutboxQueue => "outbox" end.

Module DispatchSelectionRequest.
(* src: crates/bos-kernel/src/dispatch.rs:27-33 DispatchSelectionRequest *)
Record t := mk {
  queue : DispatchQueue;
  due_before : SystemTime;
  limit : N;
  include_expired_leases : bool;
}.

(* src: crates/bos-kernel/src/dispatch.rs:36-43 DispatchSelectionRequest::new *)
Definition new (queue : DispatchQueue) (limit : N) (now : SystemTime) : t :=
  mk queue now (N.max limit 1) true.

(* src: crates/bos-kernel/src/dispatch.rs:61-64 DispatchSelectionRequest::at *)
Definition at_ (r : t) (due_before : SystemTime) : t :=
  mk (queue r) due_before (limit r) (include_expired_leases r).

(* src: crates/bos-kernel/src/dispatch.rs:66-69 DispatchSelectionRequest::with_expired_leases *)
Definition with_expired_leases (r : t) (b : bool) : t := mk (queue r) (due_before r) (limit r) b.

(* src: crates/bos-kernel/src/dispatch.rs:71-77 DispatchSelectionRequest::as_execution_request *)
Definition as_execution_request (r : t) (now : SystemTime) : option DueExecutionRequest.t :=
  if queue_eqb (queue r) ExecutionQueue then
    Some (DueExecutionRequest.with_expired_leases
            (DueExecutionRequest.at_ (DueExecutionRequest.new (limit r) now) (due_before r))
            (include_expired_leases r))
  else None.

(* src: crates/bos-kernel/src/dispatch.rs:79-85 DispatchSelectionRequest::as_outbox_request *)
Definition as_outbox_request (r : t) (now : SystemTime) : option DueOutboxMessageRequest.t :=
  if queue_eqb (queue r) OutboxQueue then
    Some (DueOutboxMessageRequest.with_expired_leases
            (DueOutboxMessageRequest.at_ (DueOutboxMessageRequest.new (limit r) now) (due_before r))
            (include_expired_leases r))
  else None.
End DispatchSelectionRequest.

Module DispatchClaimRequest.
(* src: crates/bos-kernel/src/dispatch.rs:88-95 DispatchClaimRequest *)
Record t := mk {
  queue : DispatchQueue;
  worker_id : string;
  batch_size : N;
  lease_ttl : Duration;
  now : SystemTime;
}.

(* src: crates/bos-kernel/src/dispatch.rs:98-111 DispatchClaimRequest::new *)
Definition new (queue : DispatchQueue) (worker_id : string) (batch_size : N) (lease_ttl : Duration)
    (now : SystemTime) : t :=
  mk queue worker_id (N.max batch_size 1) lease_ttl now.

(* src: crates/bos-kernel/src/dispatch.rs:133-136 DispatchClaimRequest::at *)
Definition at_ (r : t) (now : SystemTime) : t :=
  mk (queue r) (worker_id r) (batch_size r) (lease_ttl r) now.

(** [now'] is the clock the inner constructor reads before [at] replaces it. *)
(* src: crates/bos-kernel/src/dispatch.rs:138-143 DispatchClaimRequest::as_execution_request *)
Definition as_execution_request (r : t) (now' : SystemTime) : option ExecutionLeaseRequest.t :=
  if queue_eqb (queue r) ExecutionQueue then
    Some (ExecutionLeaseRequest.at_
            (ExecutionLeaseRequest.new (worker_id r) (batch_size r) (lease_ttl r) now') (now r))
  else None.

(* src: crates/bos-kernel/src/dispatch.rs:145-150 DispatchClaimRequest::as_outbox_request *)
Definition as_outbox_request (r : t) (now' : SystemTime) : option OutboxDeliveryLeaseRequest.t :=
  if queue_eqb (queue r) OutboxQueue then
    Some (OutboxDeliveryLeaseRequest.at_
            (OutboxDeliveryLeaseRequest.new (worker_id r) (batch_size r) (lease_ttl r) now') (now r))
  else None.
End DispatchClaimRequest.

Module DispatchLease.
(* src: crates/bos-kernel/src/dispatch.rs:202-206 DispatchLease *)
Inductive t := Execution (l : ExecutionLease.t) | Outbox (l : OutboxDeliveryLease.t).

(* src: crates/bos-kernel/src/dispatch.rs:209-214 DispatchLease::queue *)
Definition queue (l : t) : DispatchQueue :=
  match l with Execution _ => ExecutionQueue | Outbox _ => OutboxQueue end.

(* src: crates/bos-kernel/src/dispatch.rs:216-221 DispatchLease::lease_id *)
Definition lease_id (l : t) : LeaseId :=
  match l with
  | Execution l => ExecutionLease.lease_id l
  | Outbox l => OutboxDeliveryLease.lease_id l
  end.

(* src: crates/bos-kernel/src/dispatch.rs:223-228 DispatchLease::leased_by *)
Definition leased_by (l : t) : string :=
  match l with
  | Execution l => ExecutionLease.leased_by l
  | Outbox l => OutboxDeliveryLease.leased_by l
  end.

(* src: crates/bos-kernel/src/dispatch.rs:230-235 DispatchLease::leased_at *)
Definition leased_at (l : t) : SystemTime :=
  match l with
  | Execution l => ExecutionLease.leased_at l
  | Outbox l => OutboxDeliveryLease.leased_at l
  end.

(* src: crates/bos-kernel/src/dispatch.rs:237-242 DispatchLease::lease_expires_at *)
Definition lease_expires_at (l : t) : SystemTime :=
  match l with
  | Execution l => ExecutionLease.lease_expires_at l
  | Outbox l => OutboxDeliveryLease.lease_expires_at l
  end.

(* src: crates/bos-kernel/src/dispatch.rs:244-249 DispatchLease::is_expired_at *)
Definition is_expired_at (l : t) (now : SystemTime) : bool :=
  match l with
  | Execution l => ExecutionLease.is_expired_at l now
  | Outbox l => OutboxDeliveryLease.is_expired_at l now
  end.
End DispatchLease.

Module DispatchLeaseRenewal.
(* src: crates/bos-kernel/src/dispatch.rs:252-256 DispatchLeaseRenewal *)
Inductive t := Execution (r : ExecutionLeaseRenewal.t) | Outbox (r : OutboxDeliveryLeaseRenewal.t).

(* src: crates/bos-kernel/src/dispatch.rs:259-264 DispatchLeaseRenewal::queue *)
Definition queue (r : t) : DispatchQueue :=
  match r with Execution _ => ExecutionQueue | Outbox _ => OutboxQueue end.

(* src: crates/bos-kernel/src/dispatch.rs:266-271 DispatchLeaseRenewal::lease_id *)
Definition lease_id (r : t) : LeaseId :=
  match r with
  | Execution r => ExecutionLeaseRenewal.lease_id r
  | Outbox r => OutboxDeliveryLeaseRenewal.lease_id r
  end.

(* src: crates/bos-kernel/src/dispatch.rs:273-278 DispatchLeaseRenewal::leased_by *)
Definition leased_by (r : t) : string :=
  match r with
  | Execution r => ExecutionLeaseRenewal.leased_by r
  | Outbox r => OutboxDeliveryLeaseRenewal.leased_by r
  end.

(* src: crates/bos-kernel/src/dispatch.rs:280-285 DispatchLeaseRenewal::renewed_at *)
Definition renewed_at (r : t) : SystemTime :=
  match r with
  | Execution r => ExecutionLeaseRenewal.renewed_at r
  | Outbox r => OutboxDeliveryLeaseRenewal.renewed_at r
  end.

(* src: crates/bos-kernel/src/dispatch.rs:287-292 DispatchLeaseRenewal::lease_ttl *)
Definition lease_ttl (r : t) : Duration :=
  match r with
  | Execution r => ExecutionLeaseRenewal.lease_ttl r
  | Outbox r => OutboxDeliveryLeaseRenewal.lease_ttl r
  end.

(* src: crates/bos-kernel/src/dispatch.rs:294-299 DispatchLeaseRenewal::validate *)
Definition validate (r : t) (ctx : ExecutionContext.t) : AppResult unit :=
  match r with
  | Execution r => ExecutionLeaseRenewal.validate r ctx
  | Outbox r => OutboxDeliveryLeaseRenewal.validate r ctx
  end.

(* src: crates/bos-kernel/src/dispatch.rs:301-306 DispatchLeaseRenewal::renewed_lease *)
Definition renewed_lease (r : t) : DispatchLease.t :=
  match r with
  | Execution r => DispatchLease.Execution (ExecutionLeaseRenewal.renewed_lease r)
  | Outbox r => DispatchLease.Outbox (OutboxDeliveryLeaseRenewal.renewed_lease r)
  end.
End DispatchLeaseRenewal.

Module DispatchResolution.
(* src: crates/bos-kernel/src/dispatch.rs:385-411 DispatchResolution *)
Inductive t :=
| ExecutionCompleted (record : ExecutionRecord.t) (success : ExecutionSuccess.t)
| ExecutionRetried (record : ExecutionRecord.t) (retry : ExecutionRetry.t)
| ExecutionDeadLettered (record : ExecutionRecord.t) (dead_letter : ExecutionDeadLetter.t)
| OutboxCompleted (message : OutboxMessage.t) (success : OutboxDeliverySuccess.t)
| OutboxRetried (message : OutboxMessage.t) (retry : OutboxDeliveryRetry.t)
| OutboxDeadLettered (message : OutboxMessage.t) (dead_letter : OutboxDeliveryDeadLetter.t).

(* src: crates/bos-kernel/src/dispatch.rs:414-423 DispatchResolution::queue *)
Definition queue (r : t) : DispatchQueue :=
  match r with
  | ExecutionCompleted _ _ | ExecutionRetried _ _ | ExecutionDeadLettered _ _ => ExecutionQueue
  | OutboxCompleted _ _ | OutboxRetried _ _ | OutboxDeadLettered _ _ => OutboxQueue
  end.

(* src: crates/bos-kernel/src/dispatch.rs:425-434 DispatchResolution::lease_id *)
Definition lease_id (r : t) : LeaseId :=
  match r with
  | ExecutionCompleted _ success => ExecutionSuccess.lease_id success
  | ExecutionRetried _ retry => ExecutionRetry.lease_id retry
  | ExecutionDeadLettered _ dead_letter => ExecutionDeadLetter.lease_id dead_letter
  | OutboxCompleted _ success => OutboxDeliverySuccess.lease_id success
  | OutboxRetried _ retry => OutboxDeliveryRetry.lease_id retry
  | OutboxDeadLettered _ dead_letter => OutboxDeliveryDeadLetter.lease_id dead_letter
  end.
End DispatchResolution.

(** [gen] is what [CorrelationId::generate()] returns, where an error needs it. *)
Module ClaimedDispatchWork.
(* src: crates/bos-kernel/src/dispatch.rs:309-313 ClaimedDispatchWork *)
Inductive t := Execution (c : ClaimedExecution.t) | Outbox (c : ClaimedOutboxDelivery.t).

(* src: crates/bos-kernel/src/dispatch.rs:316-321 ClaimedDispatchWork::queue *)
Definition queue (c : t) : DispatchQueue :=
  match c with Execution _ => ExecutionQueue | Outbox _ => OutboxQueue end.

(* src: crates/bos-kernel/src/dispatch.rs:323-328 ClaimedDispatchWork::lease *)
Definition lease (c : t) : DispatchLease.t :=
  match c with
  | Execution c => DispatchLease.Execution (ClaimedExecution.lease c)
  | Outbox c => DispatchLease.Outbox (ClaimedOutboxDelivery.lease c)
  end.

(* src: crates/bos-kernel/src/dispatch.rs:330-341 ClaimedDispatchWork::complete *)
Definition complete (c : t) (completed_at : SystemTime) : DispatchResolution.t :=
  match c with
  | Execution c =>
    let '(record, success) := ClaimedExecution.complete c completed_at in
    DispatchResolution.ExecutionCompleted record success
  | Outbox c =>
    let '(message, success) := ClaimedOutboxDelivery.complete c completed_at in
    DispatchResolution.OutboxCompleted message success
  end.

(* src: crates/bos-kernel/src/dispatch.rs:343-359 ClaimedDispatchWork::retry *)
Definition retry (gen : CorrelationId) (c : t) (attempted_at next_available_at : SystemTime)
    (error : string) : AppResult DispatchResolution.t :=
  match c with
  | Execution c =>
    '(record, retry) ← ClaimedExecution.retry c attempted_at next_available_at error;
    Ok (DispatchResolution.ExecutionRetried record retry)
  | Outbox c =>
    '(message, retry) ← ClaimedOutboxDelivery.retry gen c attempted_at next_available_at error;
    Ok (DispatchResolution.OutboxRetried message retry)
  end.

(* src: crates/bos-kernel/src/dispatch.rs:361-382 ClaimedDispatchWork::dead_letter *)
Definition dead_letter (gen : CorrelationId) (c : t) (dead_lettered_at : SystemTime)
    (error : string) : AppResult DispatchResolution.t :=
  match c with
  | Execution c =>
    '(record, dead_letter) ← ClaimedExecution.dead_letter c dead_lettered_at error;
    Ok (DispatchResolution.ExecutionDeadLettered record dead_letter)
  | Outbox c =>
    '(message, dead_letter) ← ClaimedOutboxDelivery.dead_letter gen c dead_lettered_at error;
    Ok (DispatchResolution.OutboxDeadLettered message dead_letter)
  end.
End ClaimedDispatchWork.

Module DueDispatchWork.
(* src: crates/bos-kernel/src/dispatch.rs:153-157 DueDispatchWork *)
Inductive t := Execution (r : ExecutionRecord.t) | Outbox (m : OutboxMessage.t).

(* src: crates/bos-kernel/src/dispatch.rs:160-165 DueDispatchWork::queue *)
Definition queue (w : t) : DispatchQueue :=
  match w with Execution _ => ExecutionQueue | Outbox _ => OutboxQueue end.

(* src: crates/bos-kernel/src/dispatch.rs:167-172 DueDispatchWork::available_at *)
Definition available_at (w : t) : SystemTime :=
  match w with
  | Execution r => ExecutionRecord.available_at r
  | Outbox m => OutboxMessage.available_at m
  end.

(* src: crates/bos-kernel/src/dispatch.rs:178-199 DueDispatchWork::claim *)
Definition claim (gen : CorrelationId) (w : t) (lease : DispatchLease.t)
    : AppResult ClaimedDispatchWork.t :=
  match w, lease with
  | Execution record, DispatchLease.Execution lease =>
    Result_map ClaimedDispatchWork.Execution (ClaimedExecution.claim record lease)
  | Outbox message, DispatchLease.Outbox lease =>
    Result_map ClaimedDispatchWork.Outbox (ClaimedOutboxDelivery.claim gen message lease)
  | Execution record, DispatchLease.Outbox _ =>
    Err (AppError.new InvalidInput "dispatch_claim_queue_mismatch"
           "execution work requires an execution lease" (ExecutionRecord.correlation_id record))
  | Outbox _, DispatchLease.Execution _ =>
    Err (AppError.new InvalidInput "dispatch_claim_queue_mismatch"
           "outbox work requires an outbox lease" gen)
  end.
End DueDispatchWork.

Module ExpiredLeaseRecoveryRequest.
(* src: crates/bos-kernel/src/dispatch.rs:459-465 ExpiredLeaseRecoveryRequest *)
Record t := mk {
  queue : DispatchQueue;
  now : SystemTime;
  limit : N;
  max_attempts : N;
}.

(* src: crates/bos-kernel/src/dispatch.rs:468-475 ExpiredLeaseRecoveryRequest::new *)
Definition new (queue : DispatchQueue) (limit max_attempts : N) (now : SystemTime) : t :=
  mk queue now (N.max limit 1) (N.max max_attempts 1).

(* src: crates/bos-kernel/src/dispatch.rs:493-496 ExpiredLeaseRecoveryRequest::at *)
Definition at_ (r : t) (now : SystemTime) : t := mk (queue r) now (limit r) (max_attempts r).
End ExpiredLeaseRecoveryRequest.

Module ExpiredLeaseRecoverySummary.
(* src: crates/bos-kernel/src/dispatch.rs:499-503 ExpiredLeaseRecoverySummary *)
Record t := mk { recovered : N; dead_lettered : N }.

Definition default : t := mk 0 0.

(* src: crates/bos-kernel/src/dispatch.rs:514-516 ExpiredLeaseRecoverySummary::observe_recovered *)
Definition observe_recovered (s : t) : t :=
  mk (saturating_add_usize (recovered s) 1) (dead_lettered s).

(* src: crates/bos-kernel/src/dispatch.rs:518-520 ExpiredLeaseRecoverySummary::observe_dead_lettered *)
Definition observe_dead_lettered (s : t) : t :=
  mk (recovered s) (saturating_add_usize (dead_lettered s) 1).
End ExpiredLeaseRecoverySummary.

Module WorkerDispatchSnapshotRef.
(* src: crates/bos-kernel/src/dispatch.rs:531-536 WorkerDispatchSnapshotRef *)
Record t := mk { worker_id : string; scope : string; observed_at : SystemTime }.

(* src: crates/bos-kernel/src/dispatch.rs:539-545 WorkerDispatchSnapshotRef::new *)
Definition new (worker_id scope : string) (now : SystemTime) : t := mk worker_id scope now.

(* src: crates/bos-kernel/src/dispatch.rs:559-562 WorkerDispatchSnapshotRef::at *)
Definition at_ (r : t) (observed_at : SystemTime) : t := mk (worker_id r) (scope r) observed_at.
End WorkerDispatchSnapshotRef.

Module WorkerDispatchSnapshotsQuery.
(* src: crates/bos-kernel/src/dispatch.rs:565-571 WorkerDispatchSnapshotsQuery *)
Record t := mk {
  scope : string;
  observed_at : SystemTime;
  limit : N;
  include_expired_workers : bool;
}.

(* src: crates/bos-kernel/src/dispatch.rs:574-581 WorkerDispatchSnapshotsQuery::new *)
Definition new (scope : string) (now : SystemTime) : t := mk scope now usize_max true.

(* src: crates/bos-kernel/src/dispatch.rs:599-602 WorkerDispatchSnapshotsQuery::at *)
Definition at_ (q : t) (observed_at : SystemTime) : t :=
  mk (scope q) observed_at (limit q) (include_expired_workers q).

(* src: crates/bos-kernel/src/dispatch.rs:604-607 WorkerDispatchSnapshotsQuery::with_limit *)
Definition with_limit (q : t) (limit : N) : t :=
  mk (scope q) (observed_at q) (N.max limit 1) (include_expired_workers q).

(* src: crates/bos-kernel/src/dispatch.rs:609-612 WorkerDispatchSnapshotsQuery::with_expired_workers *)
Definition with_expired_workers (q : t) (b : bool) : t := mk (scope q) (observed_at q) (limit q) b.
End WorkerDispatchSnapshotsQuery.

Module DispatchQueueStatusSnapshot.
(* src: crates/bos-kernel/src/dispatch.rs:615-622 DispatchQueueStatusSnapshot *)
Record t := mk {
  queue : DispatchQueue;
  due_count : N;
  claimed_count : N;
  stale_claim_count : N;
  oldest_due_at : option SystemTime;
}.

(* src: crates/bos-kernel/src/dispatch.rs:625-633 DispatchQueueStatusSnapshot::new *)
Definition new (queue : DispatchQueue) : t := mk queue 0 0 0 None.

(* src: crates/bos-kernel/src/dispatch.rs:655-658 DispatchQueueStatusSnapshot::with_due_count *)
Definition with_due_count (s : t) (n : N) : t :=
  mk (queue s) n (claimed_count s) (stale_claim_count s) (oldest_due_at s).

(* src: crates/bos-kernel/src/dispatch.rs:660-663 DispatchQueueStatusSnapshot::with_claimed_count *)
Definition with_claimed_count (s : t) (n : N) : t :=
  mk (queue s) (due_count s) n (stale_claim_count s) (oldest_due_at s).

(* src: crates/bos-kernel/src/dispatch.rs:665-668 DispatchQueueStatusSnapshot::with_stale_claim_count *)
Definition with_stale_claim_count (s : t) (n : N) : t :=
  mk (queue s) (due_count s) (claimed_count s) n (oldest_due_at s).

(* src: crates/bos-kernel/src/dispatch.rs:670-673 DispatchQueueStatusSnapshot::with_oldest_due_at *)
Definition with_oldest_due_at (s : t) (o : option SystemTime) : t :=
  mk (queue s) (due_count s) (claimed_count s) (stale_claim_count s) o.
End DispatchQueueStatusSnapshot.

Module WorkerDispatchSnapshot.
(* src: crates/bos-kernel/src/dispatch.rs:676-683 WorkerDispatchSnapshot *)
Record t := mk {
  worker_id : string;
  scope : string;
  observed_at : SystemTime;
  heartbeat : option WorkerHeartbeat.t;
  queues : list DispatchQueueStatusSnapshot.t;
}.

(* src: crates/bos-kernel/src/dispatch.rs:686-698 WorkerDispatchSnapshot::new *)
Definition new (worker_id scope : string) (observed_at : SystemTime) : t :=
  mk worker_id scope observed_at None [].

(* src: crates/bos-kernel/src/dispatch.rs:720-725 WorkerDispatchSnapshot::visibility *)
Definition visibility (s : t) : WorkerVisibility :=
  match heartbeat s with
  | Some h => WorkerHeartbeat.visibility_at h (observed_at s)
  | None => Expired
  end.

(* src: crates/bos-kernel/src/dispatch.rs:734-736 WorkerDispatchSnapshot::claimed_work *)
Definition claimed_work (s : t) : N :=
  iter_sum (DispatchQueueStatusSnapshot.claimed_count <$> queues s).

(* src: crates/bos-kernel/src/dispatch.rs:727-732 WorkerDispatchSnapshot::active_leases *)
Definition active_leases (s : t) : N :=
  match heartbeat s with
  | Some h => WorkerHeartbeat.active_leases h
  | None => claimed_work s
  end.

(* src: crates/bos-kernel/src/dispatch.rs:738-743 WorkerDispatchSnapshot::stale_claims *)
Definition stale_claims (s : t) : N :=
  iter_sum (DispatchQueueStatusSnapshot.stale_claim_count <$> queues s).

(* src: crates/bos-kernel/src/dispatch.rs:745-749 WorkerDispatchSnapshot::queue *)
Definition queue (s : t) (q : DispatchQueue) : option DispatchQueueStatusSnapshot.t :=
  List.find (fun snapshot => queue_eqb (DispatchQueueStatusSnapshot.queue snapshot) q) (queues s).

(* src: crates/bos-kernel/src/dispatch.rs:751-754 WorkerDispatchSnapshot::with_heartbeat *)
Definition with_heartbeat (s : t) (h : WorkerHeartbeat.t) : t :=
  mk (worker_id s) (scope s) (observed_at s) (Some h) (queues s).

(* src: crates/bos-kernel/src/dispatch.rs:756-761 WorkerDispatchSnapshot::push_queue *)
Definition push_queue (s : t) (q : DispatchQueueStatusSnapshot.t) : t :=
  mk (worker_id s) (scope s) (observed_at s) (heartbeat s)
     (List.filter
        (fun existing => negb (queue_eqb (DispatchQueueStatusSnapshot.queue existing)
                                         (DispatchQueueStatusSnapshot.queue q)))
        (queues s) ++ [q]).
End WorkerDispatchSnapshot.
