(* ===== verification/Stores.v ===== *)
(** * The store interfaces ([DispatchWorkStore], [WorkerHeartbeatStore],
      [DispatchStatusStore], [ExpiredLeaseRecoveryStore], the inspection stores)

    The traits of [dispatch.rs] and [workers.rs] as type classes over the state
    of a store, and the laws their clients rely on.  The coordinator and the
    runner are proved against [WorkerStoreLaws]; the in-memory store is an
    instance. *)

From S2P Require Import Prelude RustStd Ids Errors Execution Outbox Transactional.
From S2P Require Import Inspection Workers Dispatch.

(** What the process reads from its surroundings during one call:
    [CorrelationId::generate()] and [SystemTime::now()]. *)
Class Env := { env_gen : CorrelationId; env_clock : SystemTime }.

(* src: crates/bos-kernel/src/dispatch.rs:437-457 DispatchWorkStore *)
Class DispatchWorkStore (S : Type) := {
  select_due : DispatchSelectionRequest.t → ExecutionContext.t → Op S AppError.t (list DueDispatchWork.t);
  claim_due : DispatchClaimRequest.t → ExecutionContext.t → Op S AppError.t (list ClaimedDispatchWork.t);
  renew_claim : DispatchLeaseRenewal.t → ExecutionContext.t → Op S AppError.t DispatchLease.t;
  finalize : DispatchResolution.t → ExecutionContext.t → Op S AppError.t unit;
}.

(* src: crates/bos-kernel/src/workers.rs:196-211 WorkerHeartbeatStore *)
Class WorkerHeartbeatStore (S : Type) := {
  record_heartbeat : WorkerHeartbeat.t → ExecutionContext.t → Op S AppError.t unit;
  lookup_worker : WorkerVisibilityRef.t → ExecutionContext.t → Op S AppError.t (option WorkerHeartbeat.t);
  list_visible_workers :
    VisibleWorkersQuery.t → ExecutionContext.t → Op S AppError.t (list WorkerHeartbeat.t);
}.

(* src: crates/bos-kernel/src/dispatch.rs:764-776 DispatchStatusStore *)
Class DispatchStatusStore (S : Type) := {
  lookup_worker_snapshot :
    WorkerDispatchSnapshotRef.t → ExecutionContext.t → Op S AppError.t (option WorkerDispatchSnapshot.t);
  list_worker_snapshots :
    WorkerDispatchSnapshotsQuery.t → ExecutionContext.t → Op S AppError.t (list WorkerDispatchSnapshot.t);
}.

(* src: crates/bos-kernel/src/dispatch.rs:523-529 ExpiredLeaseRecoveryStore *)
Class ExpiredLeaseRecoveryStore (S : Type) := {
  recover_expired_leases :
    ExpiredLeaseRecoveryRequest.t → ExecutionContext.t → Op S AppError.t ExpiredLeaseRecoverySummary.t;
}.

(* src: crates/bos-kernel/src/execution/inspection.rs:465-496 ExecutionInspectionStore *)
Class ExecutionInspectionStore (S : Type) := {
  lookup_execution : ExecutionId → ExecutionContext.t → Op S AppError.t (option ExecutionRecord.t);
  lookup_execution_inspection : ExecutionId → SystemTime → ExecutionContext.t →
    Op S AppError.t (option ExecutionInspectionRecord.t);
  list_executions :
    ExecutionInspectionQuery.t → ExecutionContext.t → Op S AppError.t (list ExecutionRecord.t);
  list_execution_inspection :
    ExecutionInspectionQuery.t → ExecutionContext.t → Op S AppError.t (list ExecutionInspectionRecord.t);
  summarize_executions :
    ExecutionInspectionQuery.t → ExecutionContext.t → Op S AppError.t ExecutionInspectionSummary.t;
}.

(* src: crates/bos-kernel/src/outbox/inspection.rs:487-506 OutboxInspectionStore *)
Class OutboxInspectionStore (S : Type) := {
  lookup_outbox_message : OutboxMessageId → SystemTime → ExecutionContext.t →
    Op S AppError.t (option OutboxInspectionRecord.t);
  list_outbox_messages :
    OutboxInspectionQuery.t → ExecutionContext.t → Op S AppError.t (list OutboxInspectionRecord.t);
  summarize_outbox :
    OutboxInspectionQuery.t → ExecutionContext.t → Op S AppError.t OutboxInspectionSummary.t;
}.

(** Inspecting a store changes nothing in it. *)
Class InspectionLaws (S : Type) `{DispatchStatusStore S} `{ExecutionInspectionStore S}
    `{OutboxInspectionStore S} := {
  law_lookup_snapshot_reads : ∀ w ctx, reads (lookup_worker_snapshot (S:=S) w ctx);
  law_list_snapshots_reads : ∀ query ctx, reads (list_worker_snapshots (S:=S) query ctx);
  law_lookup_inspection_reads : ∀ i at_ ctx, reads (lookup_execution_inspection (S:=S) i at_ ctx);
  law_list_inspection_reads : ∀ query ctx, reads (list_execution_inspection (S:=S) query ctx);
  law_summarize_executions_reads : ∀ query ctx, reads (summarize_executions (S:=S) query ctx);
  law_lookup_message_reads : ∀ i at_ ctx, reads (lookup_outbox_message (S:=S) i at_ ctx);
  law_list_messages_reads : ∀ query ctx, reads (list_outbox_messages (S:=S) query ctx);
  law_summarize_outbox_reads : ∀ query ctx, reads (summarize_outbox (S:=S) query ctx);
}.

(** Two heartbeats that say the same but for the lease count, which the store
    fills in. *)
Definition same_heartbeat (h h' : WorkerHeartbeat.t) : Prop :=
  WorkerHeartbeat.with_active_leases h 0 = WorkerHeartbeat.with_active_leases h' 0.

(** What a claim promises about each item it hands out. *)
Definition leased_for (request : DispatchClaimRequest.t) (c : ClaimedDispatchWork.t) : Prop :=
  ClaimedDispatchWork.queue c = DispatchClaimRequest.queue request ∧
  DispatchLease.leased_by (ClaimedDispatchWork.lease c) = DispatchClaimRequest.worker_id request ∧
  DispatchLease.leased_at (ClaimedDispatchWork.lease c) = DispatchClaimRequest.now request ∧
  DispatchLease.lease_expires_at (ClaimedDispatchWork.lease c) =
    add_or_now (DispatchClaimRequest.now request) (DispatchClaimRequest.lease_ttl request).

Class WorkerStoreLaws (S : Type) `{DispatchWorkStore S} `{WorkerHeartbeatStore S}
    `{DispatchStatusStore S} := {
  (** A claim hands out at most a batch, all of it leased as asked. *)
  law_claim_batch : ∀ request ctx s claimed s',
    claim_due request ctx s = (Ok claimed, s') →
    (len claimed ≤ N.max (DispatchClaimRequest.batch_size request) 1)%N ∧
    ∀ c, c ∈ claimed → leased_for request c;
  (** A rejected resolution or renewal leaves no trace. *)
  law_finalize_rejects : ∀ resolution ctx, rejects_unchanged (finalize (S:=S) resolution ctx);
  law_renew_rejects : ∀ renewal ctx, rejects_unchanged (renew_claim (S:=S) renewal ctx);
  (** A renewal keeps the queue, the id and the owner of the lease. *)
  law_renew_lease : ∀ renewal ctx (s : S) lease s',
    renew_claim renewal ctx s = (Ok lease, s') →
    lease = DispatchLeaseRenewal.renewed_lease renewal;
  (** A heartbeat is stored exactly when it is valid. *)
  law_heartbeat_result : ∀ h ctx (s : S),
    (record_heartbeat h ctx s).1 = WorkerHeartbeat.validate h ctx;
  law_heartbeat_rejects : ∀ h ctx, rejects_unchanged (record_heartbeat (S:=S) h ctx);
  (** What was recorded is read back for as long as it is visible. *)
  law_heartbeat_visible : ∀ h ctx ctx' (s : S) s' w,
    record_heartbeat h ctx s = (Ok tt, s') →
    WorkerVisibilityRef.worker_id w = WorkerHeartbeat.worker_id h →
    WorkerVisibilityRef.scope w = WorkerHeartbeat.scope h →
    (WorkerVisibilityRef.visible_at w ≤ WorkerHeartbeat.visible_until h)%Z →
    ∃ h', lookup_worker w ctx' s' = (Ok (Some h'), s') ∧ same_heartbeat h h';
  (** A heartbeat touches no work. *)
  law_heartbeat_frame : ∀ h ctx (s : S) request ctx',
    (select_due request ctx' (record_heartbeat h ctx s).2).1 = (select_due request ctx' s).1;
  (** A worker that recorded a heartbeat has a snapshot, with that heartbeat. *)
  law_snapshot_recorded : ∀ h ctx ctx' (s : S) s' w,
    record_heartbeat h ctx s = (Ok tt, s') →
    WorkerDispatchSnapshotRef.worker_id w = WorkerHeartbeat.worker_id h →
    WorkerDispatchSnapshotRef.scope w = WorkerHeartbeat.scope h →
    ∃ snapshot h', lookup_worker_snapshot w ctx' s' = (Ok (Some snapshot), s') ∧
      WorkerDispatchSnapshot.heartbeat snapshot = Some h' ∧ same_heartbeat h h';
}.
