(* ===== verification/Memory.v ===== *)
(** * The in-memory work store ([bos-kernel/src/memory.rs])

    [InMemoryExecutionWorkStore] is a state behind a mutex.  Every method takes
    the lock, runs to completion and releases it, so a method is a function of
    the state ([Op]); an error return keeps whatever was written before it.  No
    method panics with the guard held ([next_lease_id_never_panics]), so the
    mutex is never poisoned and the [lock_state] error does not occur.

    Two values come from outside: [gen], what [CorrelationId::generate()] returns
    for an error that needs it, and [clock], what [SystemTime::now()] returns
    inside the constructors whose clock reading is overwritten right away. *)

From S2P Require Import Prelude RustStd Ids Errors CurrentState Execution Outbox.
From S2P Require Import Transactional Inspection Workers Dispatch.

Module StoredExecution.
(* src: crates/bos-kernel/src/memory.rs:36-40 StoredExecution *)
Record t := mk { record : ExecutionRecord.t; lease : option ExecutionLease.t }.

(* src: crates/bos-kernel/src/memory.rs:359-378 StoredExecution::is_due_at *)
Definition is_due_at (e : t) (now : SystemTime) (include_expired_leases : bool) : bool :=
  match ExecutionRecord.status (record e) with
  | ExecutionRecordStatus.Pending | ExecutionRecordStatus.Failed
  | ExecutionRecordStatus.InFlight =>
    if (now <? ExecutionRecord.available_at (record e))%Z then false
    else match lease e with
         | None => true
         | Some l => if ExecutionLease.is_expired_at l now then include_expired_leases else false
         end
  | _ => false
  end.

(* src: crates/bos-kernel/src/memory.rs:380-392 StoredExecution::materialize_due_record *)
Definition materialize_due_record (e : t) (now : SystemTime) : ExecutionRecord.t :=
  match lease e with
  | Some l =>
    if ExecutionLease.is_expired_at l now
       && ExecutionRecordStatus.eqb (ExecutionRecord.status (record e)) ExecutionRecordStatus.InFlight
    then ExecutionRecord.with_status (record e) ExecutionRecordStatus.Pending
    else record e
  | None => record e
  end.

(* src: crates/bos-kernel/src/memory.rs:394-396 StoredExecution::inspection_record *)
Definition inspection_record (e : t) : ExecutionInspectionRecord.t :=
  ExecutionInspectionRecord.with_lease (ExecutionInspectionRecord.new (record e)) (lease e).
End StoredExecution.

Module StoredOutboxMessage.
(* src: crates/bos-kernel/src/memory.rs:42-50 StoredOutboxMessage *)
Record t := mk {
  message : OutboxMessage.t;
  lease : option OutboxDeliveryLease.t;
  status : OutboxMessageStatus.t;
  delivered_at : option SystemTime;
  dead_lettered_at : option SystemTime;
  last_error : option string;
}.

(* src: crates/bos-kernel/src/memory.rs:400-417 StoredOutboxMessage::is_due_at *)
Definition is_due_at (e : t) (now : SystemTime) (include_expired_leases : bool) : bool :=
  match status e with
  | OutboxMessageStatus.Pending | OutboxMessageStatus.InFlight =>
    if (now <? OutboxMessage.available_at (message e))%Z then false
    else match lease e with
         | None => true
         | Some l =>
           if OutboxDeliveryLease.is_expired_at l now then include_expired_leases else false
         end
  | _ => false
  end.

(* src: crates/bos-kernel/src/memory.rs:419-421 StoredOutboxMessage::materialize_due_message *)
Definition materialize_due_message (e : t) : OutboxMessage.t := message e.

(* src: crates/bos-kernel/src/memory.rs:423-435 StoredOutboxMessage::inspection_status_at *)
Definition inspection_status_at (e : t) (now : SystemTime) : OutboxMessageStatus.t :=
  match status e with
  | OutboxMessageStatus.InFlight =>
    if option_any (fun l => negb (OutboxDeliveryLease.is_expired_at l now)) (lease e)
    then OutboxMessageStatus.InFlight
    else OutboxMessageStatus.Pending
  | s => s
  end.

(* src: crates/bos-kernel/src/memory.rs:437-443 StoredOutboxMessage::inspection_record *)
Definition inspection_record (e : t) (now : SystemTime) : OutboxInspectionRecord.t :=
  OutboxInspectionRecord.with_last_error
    (OutboxInspectionRecord.with_dead_lettered_at
       (OutboxInspectionRecord.with_delivered_at
          (OutboxInspectionRecord.with_lease
             (OutboxInspectionRecord.new (message e) (inspection_status_at e now))
             (lease e))
          (delivered_at e))
       (dead_lettered_at e))
    (last_error e).
End StoredOutboxMessage.

Module State.
(* src: crates/bos-kernel/src/memory.rs:28-34 State *)
Record t := mk {
  records : gmap ExecutionId StoredExecution.t;
  outbox : gmap OutboxMessageId StoredOutboxMessage.t;
  heartbeats : gmap (string * string) WorkerHeartbeat.t;
  next_lease_sequence : N;
}.

Definition default : t := mk ∅ ∅ ∅ 0.

Definition set_records (s : t) (r : gmap ExecutionId StoredExecution.t) : t :=
  mk r (outbox s) (heartbeats s) (next_lease_sequence s).
Definition set_outbox (s : t) (o : gmap OutboxMessageId StoredOutboxMessage.t) : t :=
  mk (records s) o (heartbeats s) (next_lease_sequence s).
Definition set_heartbeats (s : t) (h : gmap (string * string) WorkerHeartbeat.t) : t :=
  mk (records s) (outbox s) h (next_lease_sequence s).

Definition lease_name (sequence : N) : string := "lease_exec_mem_" +:+ fmt_hex sequence.

(** [LeaseId::new] panics on a blank string; the name is never blank. *)
(* src: crates/bos-kernel/src/memory.rs:131-134 State::next_lease_id *)
Definition next_lease_id (s : t) : LeaseId * t :=
  let sequence := saturating_add_u64 (next_lease_sequence s) 1 in
  (match Id.new (lease_name sequence) with Some i => i | None => Id.new_unchecked "" end,
   mk (records s) (outbox s) (heartbeats s) sequence).

(** The leases of one worker, active or stale, in either queue. *)
Definition execution_lease_is (f : ExecutionLease.t → bool) (e : StoredExecution.t) : bool :=
  option_any f (StoredExecution.lease e).
Definition outbox_lease_is (f : OutboxDeliveryLease.t → bool) (e : StoredOutboxMessage.t) : bool :=
  option_any f (StoredOutboxMessage.lease e).

(* src: crates/bos-kernel/src/memory.rs:141-150 State::active_execution_leases_for_worker *)
Definition active_execution_leases_for_worker (s : t) (worker_id : string) (now : SystemTime) : N :=
  len (filter (fun e => execution_lease_is (fun l =>
          string_eqb (ExecutionLease.leased_by l) worker_id
          && negb (ExecutionLease.is_expired_at l now)) e) (values (records s))).

(* src: crates/bos-kernel/src/memory.rs:152-161 State::active_outbox_leases_for_worker *)
Definition active_outbox_leases_for_worker (s : t) (worker_id : string) (now : SystemTime) : N :=
  len (filter (fun e => outbox_lease_is (fun l =>
          string_eqb (OutboxDeliveryLease.leased_by l) worker_id
          && negb (OutboxDeliveryLease.is_expired_at l now)) e) (values (outbox s))).

(* src: crates/bos-kernel/src/memory.rs:136-139 State::active_leases_for_worker *)
Definition active_leases_for_worker (s : t) (worker_id : string) (now : SystemTime) : N :=
  (active_execution_leases_for_worker s worker_id now + active_outbox_leases_for_worker s worker_id now)%N.

(* src: crates/bos-kernel/src/memory.rs:163-173 State::stale_execution_claim_count_for_worker *)
Definition stale_execution_claim_count_for_worker (s : t) (worker_id : string) (now : SystemTime) : N :=
  len (filter (fun e => execution_lease_is (fun l =>
          string_eqb (ExecutionLease.leased_by l) worker_id
          && ExecutionLease.is_expired_at l now) e) (values (records s))).

(* src: crates/bos-kernel/src/memory.rs:175-185 State::stale_outbox_claim_count_for_worker *)
Definition stale_outbox_claim_count_for_worker (s : t) (worker_id : string) (now : SystemTime) : N :=
  len (filter (fun e => outbox_lease_is (fun l =>
          string_eqb (OutboxDeliveryLease.leased_by l) worker_id
          && OutboxDeliveryLease.is_expired_at l now) e) (values (outbox s))).

(* src: crates/bos-kernel/src/memory.rs:187-192 State::due_execution_count *)
Definition due_execution_count (s : t) (now : SystemTime) : N :=
  len (filter (fun e => StoredExecution.is_due_at e now true) (values (records s))).

(* src: crates/bos-kernel/src/memory.rs:194-199 State::due_outbox_count *)
Definition due_outbox_count (s : t) (now : SystemTime) : N :=
  len (filter (fun e => StoredOutboxMessage.is_due_at e now true) (values (outbox s))).

(* src: crates/bos-kernel/src/memory.rs:201-207 State::oldest_due_execution_at *)
Definition oldest_due_execution_at (s : t) (now : SystemTime) : option SystemTime :=
  iter_min ((fun e => ExecutionRecord.available_at (StoredExecution.record e)) <$>
    filter (fun e => StoredExecution.is_due_at e now true) (values (records s))).

(* src: crates/bos-kernel/src/memory.rs:209-215 State::oldest_due_outbox_at *)
Definition oldest_due_outbox_at (s : t) (now : SystemTime) : option SystemTime :=
  iter_min ((fun e => OutboxMessage.available_at (StoredOutboxMessage.message e)) <$>
    filter (fun e => StoredOutboxMessage.is_due_at e now true) (values (outbox s))).

(** The sort keys of the listings; a tuple compares lexicographically. *)
Definition record_key (r : ExecutionRecord.t) : Z * (Z * ExecutionId) :=
  (ExecutionRecord.available_at r, (ExecutionRecord.recorded_at r, ExecutionRecord.id r)).
Definition message_key (m : OutboxMessage.t) : Z * (option Z * OutboxMessageId) :=
  (OutboxMessage.available_at m, (OutboxMessage.last_attempted_at m, OutboxMessage.id m)).

(* src: crates/bos-kernel/src/memory.rs:217-234 State::selectable_due_records *)
Definition selectable_due_records (s : t) (request : DueExecutionRequest.t) : list ExecutionRecord.t :=
  let due_before := DueExecutionRequest.due_before request in
  let due :=
    (fun e => StoredExecution.materialize_due_record e due_before) <$>
      filter (fun e => StoredExecution.is_due_at e due_before
                         (DueExecutionRequest.include_expired_leases request))
        (values (records s)) in
  truncate (DueExecutionRequest.limit request) (sort_by_key record_key due).

(* src: crates/bos-kernel/src/memory.rs:247-264 State::selectable_due_messages *)
Definition selectable_due_messages (s : t) (request : DueOutboxMessageRequest.t) : list OutboxMessage.t :=
  let due_before := DueOutboxMessageRequest.due_before request in
  let due :=
    StoredOutboxMessage.materialize_due_message <$>
      filter (fun e => StoredOutboxMessage.is_due_at e due_before
                         (DueOutboxMessageRequest.include_expired_leases request))
        (values (outbox s)) in
  truncate (DueOutboxMessageRequest.limit request) (sort_by_key message_key due).

(* src: crates/bos-kernel/src/memory.rs:236-245 State::find_claimable_ids *)
Definition find_claimable_ids (clock : SystemTime) (s : t) (request : ExecutionLeaseRequest.t)
    : list ExecutionId :=
  let selection :=
    DueExecutionRequest.with_expired_leases
      (DueExecutionRequest.at_
         (DueExecutionRequest.new (ExecutionLeaseRequest.batch_size request) clock)
         (ExecutionLeaseRequest.now request))
      true in
  ExecutionRecord.id <$> selectable_due_records s selection.

(* src: crates/bos-kernel/src/memory.rs:266-278 State::find_claimable_message_ids *)
Definition find_claimable_message_ids (clock : SystemTime) (s : t)
    (request : OutboxDeliveryLeaseRequest.t) : list OutboxMessageId :=
  let selection :=
    DueOutboxMessageRequest.with_expired_leases
      (DueOutboxMessageRequest.at_
         (DueOutboxMessageRequest.new (OutboxDeliveryLeaseRequest.batch_size request) clock)
         (OutboxDeliveryLeaseRequest.now request))
      true in
  OutboxMessage.id <$> selectable_due_messages s selection.

(* src: crates/bos-kernel/src/memory.rs:280-292 State::snapshot_heartbeat *)
Definition snapshot_heartbeat (s : t) (worker_id scope : string) (observed_at : SystemTime)
    : option WorkerHeartbeat.t :=
  (fun h => WorkerHeartbeat.with_active_leases h (active_leases_for_worker s worker_id observed_at))
    <$> heartbeats s !! (scope, worker_id).

(* src: crates/bos-kernel/src/memory.rs:294-302 State::visible_heartbeat *)
Definition visible_heartbeat (s : t) (worker_id scope : string) (visible_at : SystemTime)
    : option WorkerHeartbeat.t :=
  h ← snapshot_heartbeat s worker_id scope visible_at;
  if (visible_at <=? WorkerHeartbeat.visible_until h)%Z then Some h else None.

(* src: crates/bos-kernel/src/memory.rs:304-326 State::queue_snapshot_for_worker *)
Definition queue_snapshot_for_worker (s : t) (queue : DispatchQueue) (worker_id : string)
    (observed_at : SystemTime) : DispatchQueueStatusSnapshot.t :=
  match queue with
  | ExecutionQueue =>
    DispatchQueueStatusSnapshot.with_oldest_due_at
      (DispatchQueueStatusSnapshot.with_stale_claim_count
         (DispatchQueueStatusSnapshot.with_claimed_count
            (DispatchQueueStatusSnapshot.with_due_count
               (DispatchQueueStatusSnapshot.new ExecutionQueue)
               (due_execution_count s observed_at))
            (active_execution_leases_for_worker s worker_id observed_at))
         (stale_execution_claim_count_for_worker s worker_id observed_at))
      (oldest_due_execution_at s observed_at)
  | OutboxQueue =>
    DispatchQueueStatusSnapshot.with_oldest_due_at
      (DispatchQueueStatusSnapshot.with_stale_claim_count
         (DispatchQueueStatusSnapshot.with_claimed_count
            (DispatchQueueStatusSnapshot.with_due_count
               (DispatchQueueStatusSnapshot.new OutboxQueue)
               (due_outbox_count s observed_at))
            (active_outbox_leases_for_worker s worker_id observed_at))
         (stale_outbox_claim_count_for_worker s worker_id observed_at))
      (oldest_due_outbox_at s observed_at)
  end.

(** A [BTreeSet] yields its elements in order, each once. *)
(* src: crates/bos-kernel/src/memory.rs:328-355 State::worker_ids_for_scope *)
Definition worker_ids_for_scope (s : t) (scope : string) : list string :=
  let from_heartbeats :=
    WorkerHeartbeat.worker_id <$>
      filter (fun h => string_eqb (WorkerHeartbeat.scope h) scope) (values (heartbeats s)) in
  let from_records :=
    omap (fun e => ExecutionLease.leased_by <$> StoredExecution.lease e) (values (records s)) in
  let from_outbox :=
    omap (fun e => OutboxDeliveryLease.leased_by <$> StoredOutboxMessage.lease e) (values (outbox s)) in
  let worker_ids : gset string := list_to_set (from_heartbeats ++ from_records ++ from_outbox) in
  sort_by_key (fun w => w) (elements worker_ids).
End State.
