(* ===== verification/MemoryStore.v ===== *)
(** * The operations of the in-memory work store ([bos-kernel/src/memory.rs])

    The methods of [InMemoryExecutionWorkStore], trait by trait.  Where the
    source holds a mutable reference into the map, the entry is read, and the
    changed entry is written back under the same key. *)

From S2P Require Import Prelude RustStd Ids Errors CurrentState Execution Outbox.
From S2P Require Import Transactional Inspection Workers Dispatch Memory.

Abbreviation StoreOp := (Op State.t AppError.t).

(** Write an entry back. *)
Definition put_record (i : ExecutionId) (e : StoredExecution.t) : StoreOp unit :=
  fun s => (Ok tt, State.set_records s (<[i := e]> (State.records s))).
Definition put_outbox (i : OutboxMessageId) (e : StoredOutboxMessage.t) : StoreOp unit :=
  fun s => (Ok tt, State.set_outbox s (<[i := e]> (State.outbox s))).
Definition draw_lease_id : StoreOp LeaseId :=
  fun s => let '(i, s') := State.next_lease_id s in (Ok i, s').

(** The errors of the store carry the caller's correlation id. *)
Definition record_not_found (i : ExecutionId) (ctx : ExecutionContext.t) : AppError.t :=
  AppError.not_found "execution_record_not_found"
    ("execution record " +:+ Id.as_str i +:+ " was not found") (ExecutionContext.correlation_id ctx).
Definition message_not_found (i : OutboxMessageId) (ctx : ExecutionContext.t) : AppError.t :=
  AppError.not_found "outbox_message_not_found"
    ("outbox message " +:+ Id.as_str i +:+ " was not found") (ExecutionContext.correlation_id ctx).

Definition get_record (i : ExecutionId) (ctx : ExecutionContext.t) : StoreOp StoredExecution.t :=
  fun s => (ok_or (State.records s !! i) (record_not_found i ctx), s).
Definition get_outbox (i : OutboxMessageId) (ctx : ExecutionContext.t) : StoreOp StoredOutboxMessage.t :=
  fun s => (ok_or (State.outbox s !! i) (message_not_found i ctx), s).

Module Store.
(* src: crates/bos-kernel/src/memory.rs:57-63 InMemoryExecutionWorkStore::record *)
Definition record (i : ExecutionId) : StoreOp (option ExecutionRecord.t) :=
  fun s => (Ok (StoredExecution.record <$> State.records s !! i), s).

(* src: crates/bos-kernel/src/memory.rs:65-71 InMemoryExecutionWorkStore::lease *)
Definition lease (i : ExecutionId) : StoreOp (option ExecutionLease.t) :=
  fun s => (Ok (e ← State.records s !! i; StoredExecution.lease e), s).

(* src: crates/bos-kernel/src/memory.rs:73-95 InMemoryExecutionWorkStore::append_outbox *)
Definition append_outbox (message : OutboxMessage.t) (ctx : ExecutionContext.t) : StoreOp unit :=
  let? s := op_get in
  if decide (is_Some (State.outbox s !! OutboxMessage.id message)) then
    op_lift (Err (AppError.conflict "outbox_message_exists"
      ("outbox message " +:+ Id.as_str (OutboxMessage.id message) +:+ " already exists")
      (ExecutionContext.correlation_id ctx)))
  else
    put_outbox (OutboxMessage.id message)
      {| StoredOutboxMessage.message := message;
         StoredOutboxMessage.lease := None;
         StoredOutboxMessage.status := OutboxMessageStatus.Pending;
         StoredOutboxMessage.delivered_at := None;
         StoredOutboxMessage.dead_lettered_at := None;
         StoredOutboxMessage.last_error := None |}.

(* src: crates/bos-kernel/src/memory.rs:107-111 InMemoryExecutionWorkStore::require_queue_supported *)
Definition require_queue_supported (queue : DispatchQueue) (_ctx : ExecutionContext.t)
    : StoreOp unit :=
  match queue with ExecutionQueue | OutboxQueue => op_ret tt end.

(* src: crates/bos-kernel/src/memory.rs:113-127 InMemoryExecutionWorkStore::require_revision *)
Definition require_revision (expected : option RevisionToken) (actual : RevisionToken)
    (ctx : ExecutionContext.t) (code : string) : AppResult unit :=
  if option_any (fun expected => negb (RevisionToken.eqb expected actual)) expected then
    Err (AppError.concurrent_modification code
           "state transition revision did not match current persisted revision"
           (ExecutionContext.correlation_id ctx))
  else Ok tt.

(** *** [ExecutionJournal] *)

(* src: crates/bos-kernel/src/memory.rs:447-465 ExecutionJournal::append *)
Definition append (record : ExecutionRecord.t) (ctx : ExecutionContext.t) : StoreOp unit :=
  let? s := op_get in
  if decide (is_Some (State.records s !! ExecutionRecord.id record)) then
    op_lift (Err (AppError.conflict "execution_record_exists"
      ("execution record " +:+ Id.as_str (ExecutionRecord.id record) +:+ " already exists")
      (ExecutionContext.correlation_id ctx)))
  else put_record (ExecutionRecord.id record) (StoredExecution.mk record None).

(* src: crates/bos-kernel/src/memory.rs:467-483 ExecutionJournal::update *)
Definition update (record : ExecutionRecord.t) (ctx : ExecutionContext.t) : StoreOp unit :=
  let? entry := get_record (ExecutionRecord.id record) ctx in
  put_record (ExecutionRecord.id record)
    (StoredExecution.mk record
       (if ExecutionRecordStatus.eqb (ExecutionRecord.status record) ExecutionRecordStatus.InFlight
        then StoredExecution.lease entry else None)).

(** *** [ExecutionInspectionStore] *)

(* src: crates/bos-kernel/src/memory.rs:487-493 ExecutionInspectionStore::lookup_execution *)
Definition lookup_execution (i : ExecutionId) (_ctx : ExecutionContext.t)
    : StoreOp (option ExecutionRecord.t) := record i.

(* src: crates/bos-kernel/src/memory.rs:495-506 ExecutionInspectionStore::lookup_execution_inspection *)
Definition lookup_execution_inspection (i : ExecutionId) (_observed_at : SystemTime)
    (_ctx : ExecutionContext.t) : StoreOp (option ExecutionInspectionRecord.t) :=
  fun s => (Ok (StoredExecution.inspection_record <$> State.records s !! i), s).

(** The three chained filters of the execution listings. *)
Definition query_selects (query : ExecutionInspectionQuery.t) (e : StoredExecution.t) : bool :=
  let r := StoredExecution.record e in
  map_or_true (fun st => ExecutionRecordStatus.eqb (ExecutionRecord.status r) st)
    (ExecutionInspectionQuery.status query)
  && map_or_true (fun o => string_eqb (ExecutionRecord.operation r) o)
       (ExecutionInspectionQuery.operation query)
  && map_or_true (fun t => string_eqb (ExecutionRecord.target r) t)
       (ExecutionInspectionQuery.target query).

(* src: crates/bos-kernel/src/memory.rs:508-547 ExecutionInspectionStore::list_executions *)
Definition list_executions (query : ExecutionInspectionQuery.t) (_ctx : ExecutionContext.t)
    : StoreOp (list ExecutionRecord.t) :=
  fun s =>
    let records :=
      StoredExecution.record <$> filter (fun e => query_selects query e) (values (State.records s)) in
    (Ok (truncate (ExecutionInspectionQuery.limit query) (sort_by_key State.record_key records)), s).

(* src: crates/bos-kernel/src/memory.rs:549-588 ExecutionInspectionStore::list_execution_inspection *)
Definition list_execution_inspection (query : ExecutionInspectionQuery.t) (_ctx : ExecutionContext.t)
    : StoreOp (list ExecutionInspectionRecord.t) :=
  fun s =>
    let records :=
      StoredExecution.inspection_record <$>
        filter (fun e => query_selects query e) (values (State.records s)) in
    (Ok (truncate (ExecutionInspectionQuery.limit query)
           (sort_by_key (fun r => State.record_key (ExecutionInspectionRecord.record r)) records)), s).

(* src: crates/bos-kernel/src/memory.rs:590-620 ExecutionInspectionStore::summarize_executions *)
Definition summarize_executions (query : ExecutionInspectionQuery.t) (_ctx : ExecutionContext.t)
    : StoreOp ExecutionInspectionSummary.t :=
  fun s =>
    (Ok (foldl (fun summary e =>
                  ExecutionInspectionSummary.observe_record summary
                    (StoredExecution.inspection_record e)
                    (ExecutionInspectionQuery.observed_at query))
           ExecutionInspectionSummary.default
           (filter (fun e => query_selects query e) (values (State.records s)))), s).

(** *** [LeasedExecutions] *)

(* src: crates/bos-kernel/src/memory.rs:624-631 LeasedExecutions::select_due *)
Definition select_due_executions (request : DueExecutionRequest.t) (_ctx : ExecutionContext.t)
    : StoreOp (list ExecutionRecord.t) :=
  fun s => (Ok (State.selectable_due_records s request), s).

(** The body of the claim loop for one id. *)
(* src: crates/bos-kernel/src/memory.rs:649-677 LeasedExecutions::claim_available (loop body) *)
Definition claim_execution (request : ExecutionLeaseRequest.t) (ctx : ExecutionContext.t)
    (i : ExecutionId) : StoreOp ClaimedExecution.t :=
  let? lease_id := draw_lease_id in
  let lease :=
    ExecutionLease.from_now lease_id (ExecutionLeaseRequest.leased_by request)
      (ExecutionLeaseRequest.lease_ttl request) (ExecutionLeaseRequest.now request) in
  let? entry := get_record i ctx in
  let claimable_record :=
    StoredExecution.materialize_due_record entry (ExecutionLeaseRequest.now request) in
  let? next_claim := op_lift (ClaimedExecution.claim claimable_record lease) in
  put_record i (StoredExecution.mk (ClaimedExecution.record next_claim) (Some lease)) ;;?
  op_ret next_claim.

(** [for id in ids { claimed.push(f(id)?) }]. *)
Fixpoint for_each {S E A B} (f : A → Op S E B) (l : list A) : Op S E (list B) :=
  match l with
  | [] => op_ret []
  | x :: l' =>
    let? y := f x in
    let? ys := for_each f l' in
    op_ret (y :: ys)
  end.

(* src: crates/bos-kernel/src/memory.rs:633-687 LeasedExecutions::claim_available *)
Definition claim_available (clock : SystemTime) (request : ExecutionLeaseRequest.t)
    (ctx : ExecutionContext.t) : StoreOp (list ClaimedExecution.t) :=
  let? s := op_get in
  for_each (claim_execution request ctx) (State.find_claimable_ids clock s request).

(* src: crates/bos-kernel/src/memory.rs:689-734 LeasedExecutions::renew_lease *)
Definition renew_execution_lease (renewal : ExecutionLeaseRenewal.t) (ctx : ExecutionContext.t)
    : StoreOp ExecutionLease.t :=
  op_lift (ExecutionLeaseRenewal.validate renewal ctx) ;;?
  let? entry := get_record (ExecutionLeaseRenewal.execution_id renewal) ctx in
  match StoredExecution.lease entry with
  | None =>
    op_lift (Err (AppError.conflict "execution_lease_missing"
      "execution work is not currently leased" (ExecutionContext.correlation_id ctx)))
  | Some lease =>
    if negb (Id.eqb (ExecutionLease.lease_id lease) (ExecutionLeaseRenewal.lease_id renewal))
       || negb (string_eqb (ExecutionLease.leased_by lease) (ExecutionLeaseRenewal.leased_by renewal))
    then
      op_lift (Err (AppError.concurrent_modification "execution_lease_mismatch"
        "execution lease renewal did not match the active lease owner or lease id"
        (ExecutionContext.correlation_id ctx)))
    else if ExecutionLease.is_expired_at lease (ExecutionLeaseRenewal.renewed_at renewal) then
      op_lift (Err (AppError.conflict "execution_lease_expired"
        "expired execution leases cannot be renewed" (ExecutionContext.correlation_id ctx)))
    else
      let renewed := ExecutionLeaseRenewal.renewed_lease renewal in
      put_record (ExecutionLeaseRenewal.execution_id renewal)
        (StoredExecution.mk (StoredExecution.record entry) (Some renewed)) ;;?
      op_ret renewed
  end.

(* src: crates/bos-kernel/src/memory.rs:736-776 LeasedExecutions::acknowledge_completion *)
Definition acknowledge_completion (success : ExecutionSuccess.t) (ctx : ExecutionContext.t)
    : StoreOp unit :=
  let? entry := get_record (ExecutionSuccess.execution_id success) ctx in
  match StoredExecution.lease entry with
  | Some lease =>
    if Id.eqb (ExecutionLease.lease_id lease) (ExecutionSuccess.lease_id success) then
      op_lift (require_revision (ExecutionSuccess.expected_revision success)
                 (ExecutionRecord.revision (StoredExecution.record entry)) ctx
                 "execution_completion_revision_mismatch") ;;?
      put_record (ExecutionSuccess.execution_id success)
        (StoredExecution.mk
           (ExecutionRecord.mark_succeeded (StoredExecution.record entry)
              (ExecutionSuccess.finished_at success))
           None)
    else
      op_lift (Err (AppError.concurrent_modification "execution_completion_lease_mismatch"
        "execution completion did not match the active lease" (ExecutionContext.correlation_id ctx)))
  | None =>
    op_lift (Err (AppError.conflict "execution_completion_lease_missing"
      "execution completion requires an active lease" (ExecutionContext.correlation_id ctx)))
  end.

(* src: crates/bos-kernel/src/memory.rs:778-815 LeasedExecutions::retry_execution *)
Definition retry_execution (retry : ExecutionRetry.t) (ctx : ExecutionContext.t) : StoreOp unit :=
  let? entry := get_record (ExecutionRetry.execution_id retry) ctx in
  match StoredExecution.lease entry with
  | Some lease =>
    if Id.eqb (ExecutionLease.lease_id lease) (ExecutionRetry.lease_id retry) then
      op_lift (require_revision (ExecutionRetry.expected_revision retry)
                 (ExecutionRecord.revision (StoredExecution.record entry)) ctx
                 "execution_retry_revision_mismatch") ;;?
      put_record (ExecutionRetry.execution_id retry)
        (StoredExecution.mk
           (ExecutionRecord.schedule_retry (StoredExecution.record entry)
              (ExecutionRetry.attempted_at retry) (ExecutionRetry.next_available_at retry)
              (ExecutionRetry.error retry))
           None)
    else
      op_lift (Err (AppError.concurrent_modification "execution_retry_lease_mismatch"
        "execution retry did not match the active lease" (ExecutionContext.correlation_id ctx)))
  | None =>
    op_lift (Err (AppError.conflict "execution_retry_lease_missing"
      "execution retry requires an active lease" (ExecutionContext.correlation_id ctx)))
  end.

(* src: crates/bos-kernel/src/memory.rs:817-863 LeasedExecutions::dead_letter_execution *)
Definition dead_letter_execution (dead_letter : ExecutionDeadLetter.t) (ctx : ExecutionContext.t)
    : StoreOp unit :=
  let? entry := get_record (ExecutionDeadLetter.execution_id dead_letter) ctx in
  match StoredExecution.lease entry with
  | Some lease =>
    if Id.eqb (ExecutionLease.lease_id lease) (ExecutionDeadLetter.lease_id dead_letter) then
      op_lift (require_revision (ExecutionDeadLetter.expected_revision dead_letter)
                 (ExecutionRecord.revision (StoredExecution.record entry)) ctx
                 "execution_dead_letter_revision_mismatch") ;;?
      put_record (ExecutionDeadLetter.execution_id dead_letter)
        (StoredExecution.mk
           (ExecutionRecord.mark_dead_lettered (StoredExecution.record entry)
              (ExecutionDeadLetter.dead_lettered_at dead_letter)
              (ExecutionDeadLetter.error dead_letter))
           None)
    else
      op_lift (Err (AppError.concurrent_modification "execution_dead_letter_lease_mismatch"
        "execution dead-letter acknowledgement did not match the active lease"
        (ExecutionContext.correlation_id ctx)))
  | None =>
    op_lift (Err (AppError.conflict "execution_dead_letter_lease_missing"
      "execution dead-letter acknowledgement requires an active lease"
      (ExecutionContext.correlation_id ctx)))
  end.

(** *** [OutboxInspectionStore] *)

(* src: crates/bos-kernel/src/memory.rs:867-878 OutboxInspectionStore::lookup_outbox_message *)
Definition lookup_outbox_message (i : OutboxMessageId) (observed_at : SystemTime)
    (_ctx : ExecutionContext.t) : StoreOp (option OutboxInspectionRecord.t) :=
  fun s => (Ok ((fun e => StoredOutboxMessage.inspection_record e observed_at)
                  <$> State.outbox s !! i), s).

(** The three chained filters of the outbox listings. *)
Definition outbox_query_selects (query : OutboxInspectionQuery.t) (e : StoredOutboxMessage.t) : bool :=
  let m := StoredOutboxMessage.message e in
  map_or_true (fun st =>
      OutboxMessageStatus.eqb
        (StoredOutboxMessage.inspection_status_at e (OutboxInspectionQuery.observed_at query)) st)
    (OutboxInspectionQuery.status query)
  && map_or_true (fun a => string_eqb (OutboxMessage.aggregate m) a)
       (OutboxInspectionQuery.aggregate query)
  && map_or_true (fun t => string_eqb (OutboxEnvelope.topic (OutboxMessage.envelope m)) t)
       (OutboxInspectionQuery.topic query).

(* src: crates/bos-kernel/src/memory.rs:880-919 OutboxInspectionStore::list_outbox_messages *)
Definition list_outbox_messages (query : OutboxInspectionQuery.t) (_ctx : ExecutionContext.t)
    : StoreOp (list OutboxInspectionRecord.t) :=
  fun s =>
    let records :=
      (fun e => StoredOutboxMessage.inspection_record e (OutboxInspectionQuery.observed_at query)) <$>
        filter (fun e => outbox_query_selects query e) (values (State.outbox s)) in
    (Ok (truncate (OutboxInspectionQuery.limit query)
           (sort_by_key (fun r => State.message_key (OutboxInspectionRecord.message r)) records)), s).

(* src: crates/bos-kernel/src/memory.rs:921-954 OutboxInspectionStore::summarize_outbox *)
Definition summarize_outbox (query : OutboxInspectionQuery.t) (_ctx : ExecutionContext.t)
    : StoreOp OutboxInspectionSummary.t :=
  fun s =>
    (Ok (foldl (fun summary e =>
                  OutboxInspectionSummary.observe summary
                    (StoredOutboxMessage.inspection_record e (OutboxInspectionQuery.observed_at query))
                    (OutboxInspectionQuery.observed_at query))
           OutboxInspectionSummary.default
           (filter (fun e => outbox_query_selects query e) (values (State.outbox s)))), s).

(** *** [LeasedOutbox] *)

(* src: crates/bos-kernel/src/memory.rs:958-965 LeasedOutbox::select_due *)
Definition select_due_messages (request : DueOutboxMessageRequest.t) (_ctx : ExecutionContext.t)
    : StoreOp (list OutboxMessage.t) :=
  fun s => (Ok (State.selectable_due_messages s request), s).

(* src: crates/bos-kernel/src/memory.rs:983-1012 LeasedOutbox::lease_available (loop body) *)
Definition claim_message (gen : CorrelationId) (request : OutboxDeliveryLeaseRequest.t)
    (ctx : ExecutionContext.t) (i : OutboxMessageId) : StoreOp ClaimedOutboxDelivery.t :=
  let? lease_id := draw_lease_id in
  let lease :=
    OutboxDeliveryLease.from_now lease_id (OutboxDeliveryLeaseRequest.leased_by request)
      (OutboxDeliveryLeaseRequest.lease_ttl request) (OutboxDeliveryLeaseRequest.now request) in
  let? entry := get_outbox i ctx in
  let claimable_message := StoredOutboxMessage.materialize_due_message entry in
  let? next_claim := op_lift (ClaimedOutboxDelivery.claim gen claimable_message lease) in
  put_outbox i
    (StoredOutboxMessage.mk (ClaimedOutboxDelivery.message next_claim) (Some lease)
       OutboxMessageStatus.InFlight (StoredOutboxMessage.delivered_at entry)
       (StoredOutboxMessage.dead_lettered_at entry) (StoredOutboxMessage.last_error entry)) ;;?
  op_ret next_claim.

(* src: crates/bos-kernel/src/memory.rs:967-1022 LeasedOutbox::lease_available *)
Definition lease_available (gen : CorrelationId) (clock : SystemTime)
    (request : OutboxDeliveryLeaseRequest.t) (ctx : ExecutionContext.t)
    : StoreOp (list ClaimedOutboxDelivery.t) :=
  let? s := op_get in
  for_each (claim_message gen request ctx) (State.find_claimable_message_ids clock s request).

(* src: crates/bos-kernel/src/memory.rs:1024-1066 LeasedOutbox::renew_lease *)
Definition renew_outbox_lease (renewal : OutboxDeliveryLeaseRenewal.t) (ctx : ExecutionContext.t)
    : StoreOp OutboxDeliveryLease.t :=
  op_lift (OutboxDeliveryLeaseRenewal.validate renewal ctx) ;;?
  let? entry := get_outbox (OutboxDeliveryLeaseRenewal.message_id renewal) ctx in
  match StoredOutboxMessage.lease entry with
  | None =>
    op_lift (Err (AppError.conflict "outbox_lease_missing"
      "outbox work is not currently leased" (ExecutionContext.correlation_id ctx)))
  | Some lease =>
    if negb (Id.eqb (OutboxDeliveryLease.lease_id lease) (OutboxDeliveryLeaseRenewal.lease_id renewal))
       || negb (string_eqb (OutboxDeliveryLease.leased_by lease)
                  (OutboxDeliveryLeaseRenewal.leased_by renewal))
    then
      op_lift (Err (AppError.concurrent_modification "outbox_lease_mismatch"
        "outbox lease renewal did not match the active lease owner or lease id"
        (ExecutionContext.correlation_id ctx)))
    else if OutboxDeliveryLease.is_expired_at lease (OutboxDeliveryLeaseRenewal.renewed_at renewal)
    then
      op_lift (Err (AppError.conflict "outbox_lease_expired"
        "expired outbox leases cannot be renewed" (ExecutionContext.correlation_id ctx)))
    else
      let renewed := OutboxDeliveryLeaseRenewal.renewed_lease renewal in
      put_outbox (OutboxDeliveryLeaseRenewal.message_id renewal)
        (StoredOutboxMessage.mk (StoredOutboxMessage.message entry) (Some renewed)
           (StoredOutboxMessage.status entry) (StoredOutboxMessage.delivered_at entry)
           (StoredOutboxMessage.dead_lettered_at entry) (StoredOutboxMessage.last_error entry)) ;;?
      op_ret renewed
  end.

(* src: crates/bos-kernel/src/memory.rs:1068-1111 LeasedOutbox::acknowledge_delivery *)
Definition acknowledge_delivery (success : OutboxDeliverySuccess.t) (ctx : ExecutionContext.t)
    : StoreOp unit :=
  let? entry := get_outbox (OutboxDeliverySuccess.message_id success) ctx in
  match StoredOutboxMessage.lease entry with
  | Some lease =>
    if Id.eqb (OutboxDeliveryLease.lease_id lease) (OutboxDeliverySuccess.lease_id success) then
      op_lift (require_revision (OutboxDeliverySuccess.expected_revision success)
                 (OutboxMessage.revision (StoredOutboxMessage.message entry)) ctx
                 "outbox_delivery_revision_mismatch") ;;?
      put_outbox (OutboxDeliverySuccess.message_id success)
        {| StoredOutboxMessage.message :=
             OutboxMessage.mark_attempted (StoredOutboxMessage.message entry)
               (OutboxDeliverySuccess.delivered_at success) None;
           StoredOutboxMessage.lease := None;
           StoredOutboxMessage.status := OutboxMessageStatus.Delivered;
           StoredOutboxMessage.delivered_at := Some (OutboxDeliverySuccess.delivered_at success);
           StoredOutboxMessage.dead_lettered_at := StoredOutboxMessage.dead_lettered_at entry;
           StoredOutboxMessage.last_error := None |}
    else
      op_lift (Err (AppError.concurrent_modification "outbox_delivery_lease_mismatch"
        "outbox delivery acknowledgement did not match the active lease"
        (ExecutionContext.correlation_id ctx)))
  | None =>
    op_lift (Err (AppError.conflict "outbox_delivery_lease_missing"
      "outbox delivery acknowledgement requires an active lease"
      (ExecutionContext.correlation_id ctx)))
  end.

(* src: crates/bos-kernel/src/memory.rs:1113-1151 LeasedOutbox::retry_delivery *)
Definition retry_delivery (retry : OutboxDeliveryRetry.t) (ctx : ExecutionContext.t) : StoreOp unit :=
  let? entry := get_outbox (OutboxDeliveryRetry.message_id retry) ctx in
  match StoredOutboxMessage.lease entry with
  | Some lease =>
    if Id.eqb (OutboxDeliveryLease.lease_id lease) (OutboxDeliveryRetry.lease_id retry) then
      op_lift (require_revision (OutboxDeliveryRetry.expected_revision retry)
                 (OutboxMessage.revision (StoredOutboxMessage.message entry)) ctx
                 "outbox_retry_revision_mismatch") ;;?
      put_outbox (OutboxDeliveryRetry.message_id retry)
        {| StoredOutboxMessage.message :=
             OutboxMessage.mark_attempted (StoredOutboxMessage.message entry)
               (OutboxDeliveryRetry.attempted_at retry)
               (Some (OutboxDeliveryRetry.next_available_at retry));
           StoredOutboxMessage.lease := None;
           StoredOutboxMessage.status := OutboxMessageStatus.Pending;
           StoredOutboxMessage.delivered_at := StoredOutboxMessage.delivered_at entry;
           StoredOutboxMessage.dead_lettered_at := StoredOutboxMessage.dead_lettered_at entry;
           StoredOutboxMessage.last_error := Some (OutboxDeliveryRetry.error retry) |}
    else
      op_lift (Err (AppError.concurrent_modification "outbox_retry_lease_mismatch"
        "outbox retry did not match the active lease" (ExecutionContext.correlation_id ctx)))
  | None =>
    op_lift (Err (AppError.conflict "outbox_retry_lease_missing"
      "outbox retry requires an active lease" (ExecutionContext.correlation_id ctx)))
  end.

(* src: crates/bos-kernel/src/memory.rs:1153-1199 LeasedOutbox::dead_letter_delivery *)
Definition dead_letter_delivery (dead_letter : OutboxDeliveryDeadLetter.t) (ctx : ExecutionContext.t)
    : StoreOp unit :=
  let? entry := get_outbox (OutboxDeliveryDeadLetter.message_id dead_letter) ctx in
  match StoredOutboxMessage.lease entry with
  | Some lease =>
    if Id.eqb (OutboxDeliveryLease.lease_id lease) (OutboxDeliveryDeadLetter.lease_id dead_letter) then
      op_lift (require_revision (OutboxDeliveryDeadLetter.expected_revision dead_letter)
                 (OutboxMessage.revision (StoredOutboxMessage.message entry)) ctx
                 "outbox_dead_letter_revision_mismatch") ;;?
      put_outbox (OutboxDeliveryDeadLetter.message_id dead_letter)
        {| StoredOutboxMessage.message :=
             OutboxMessage.mark_attempted (StoredOutboxMessage.message entry)
               (OutboxDeliveryDeadLetter.dead_lettered_at dead_letter) None;
           StoredOutboxMessage.lease := None;
           StoredOutboxMessage.status := OutboxMessageStatus.DeadLettered;
           StoredOutboxMessage.delivered_at := StoredOutboxMessage.delivered_at entry;
           StoredOutboxMessage.dead_lettered_at :=
             Some (OutboxDeliveryDeadLetter.dead_lettered_at dead_letter);
           StoredOutboxMessage.last_error := Some (OutboxDeliveryDeadLetter.error dead_letter) |}
    else
      op_lift (Err (AppError.concurrent_modification "outbox_dead_letter_lease_mismatch"
        "outbox dead-letter acknowledgement did not match the active lease"
        (ExecutionContext.correlation_id ctx)))
  | None =>
    op_lift (Err (AppError.conflict "outbox_dead_letter_lease_missing"
      "outbox dead-letter acknowledgement requires an active lease"
      (ExecutionContext.correlation_id ctx)))
  end.
End Store.
