(* ===== verification/MemoryDispatch.v ===== *)
(** * The dispatcher's view of the in-memory store ([bos-kernel/src/memory.rs])

    The implementations of [DispatchWorkStore], [ExpiredLeaseRecoveryStore],
    [WorkerHeartbeatStore], [DispatchStatusStore] and the inspection traits for
    [InMemoryExecutionWorkStore], and their registration as instances. *)

From S2P Require Import Prelude RustStd Ids Errors CurrentState Execution Outbox.
From S2P Require Import Transactional Inspection Workers Dispatch Stores Memory MemoryStore.

Module MemDispatch.
Section env.
Context {env : Env}.

(** The conversions below cannot fail on the queue they are under. *)
Definition convert {A} (o : option A) (code message : string) (ctx : ExecutionContext.t) : StoreOp A :=
  op_lift (ok_or o (AppError.unexpected code message (ExecutionContext.correlation_id ctx))).

(* src: crates/bos-kernel/src/memory.rs:1203-1237 DispatchWorkStore::select_due *)
Definition select_due (request : DispatchSelectionRequest.t) (ctx : ExecutionContext.t)
    : StoreOp (list DueDispatchWork.t) :=
  Store.require_queue_supported (DispatchSelectionRequest.queue request) ctx ;;?
  match DispatchSelectionRequest.queue request with
  | ExecutionQueue =>
    let? request := convert (DispatchSelectionRequest.as_execution_request request env_clock)
        "dispatch_selection_queue_mismatch" "execution dispatch request did not convert" ctx in
    op_map (fmap DueDispatchWork.Execution) (Store.select_due_executions request ctx)
  | OutboxQueue =>
    let? request := convert (DispatchSelectionRequest.as_outbox_request request env_clock)
        "dispatch_selection_queue_mismatch" "outbox dispatch request did not convert" ctx in
    op_map (fmap DueDispatchWork.Outbox) (Store.select_due_messages request ctx)
  end.

(* src: crates/bos-kernel/src/memory.rs:1239-1277 DispatchWorkStore::claim_due *)
Definition claim_due (request : DispatchClaimRequest.t) (ctx : ExecutionContext.t)
    : StoreOp (list ClaimedDispatchWork.t) :=
  Store.require_queue_supported (DispatchClaimRequest.queue request) ctx ;;?
  match DispatchClaimRequest.queue request with
  | ExecutionQueue =>
    let? request := convert (DispatchClaimRequest.as_execution_request request env_clock)
        "dispatch_claim_queue_mismatch" "execution dispatch claim request did not convert" ctx in
    op_map (fmap ClaimedDispatchWork.Execution) (Store.claim_available env_clock request ctx)
  | OutboxQueue =>
    let? request := convert (DispatchClaimRequest.as_outbox_request request env_clock)
        "dispatch_claim_queue_mismatch" "outbox dispatch claim request did not convert" ctx in
    op_map (fmap ClaimedDispatchWork.Outbox) (Store.lease_available env_gen env_clock request ctx)
  end.

(* src: crates/bos-kernel/src/memory.rs:1279-1292 DispatchWorkStore::renew_claim *)
Definition renew_claim (renewal : DispatchLeaseRenewal.t) (ctx : ExecutionContext.t)
    : StoreOp DispatchLease.t :=
  match renewal with
  | DispatchLeaseRenewal.Execution renewal =>
    op_map DispatchLease.Execution (Store.renew_execution_lease renewal ctx)
  | DispatchLeaseRenewal.Outbox renewal =>
    op_map DispatchLease.Outbox (Store.renew_outbox_lease renewal ctx)
  end.

(* src: crates/bos-kernel/src/memory.rs:1294-1315 DispatchWorkStore::finalize *)
Definition finalize (resolution : DispatchResolution.t) (ctx : ExecutionContext.t) : StoreOp unit :=
  match resolution with
  | DispatchResolution.ExecutionCompleted _ success => Store.acknowledge_completion success ctx
  | DispatchResolution.ExecutionRetried _ retry => Store.retry_execution retry ctx
  | DispatchResolution.ExecutionDeadLettered _ dead_letter =>
    Store.dead_letter_execution dead_letter ctx
  | DispatchResolution.OutboxCompleted _ success => Store.acknowledge_delivery success ctx
  | DispatchResolution.OutboxRetried _ retry => Store.retry_delivery retry ctx
  | DispatchResolution.OutboxDeadLettered _ dead_letter =>
    Store.dead_letter_delivery dead_letter ctx
  end.

(** The ids whose lease has expired, oldest availability first, at most [limit]. *)
(* src: crates/bos-kernel/src/memory.rs:1330-1342 ExpiredLeaseRecoveryStore::recover_expired_leases (execution ids) *)
Definition expired_execution_ids (request : ExpiredLeaseRecoveryRequest.t) (s : State.t)
    : list (SystemTime * ExecutionId) :=
  let ids :=
    (fun p : ExecutionId * StoredExecution.t =>
       (ExecutionRecord.available_at (StoredExecution.record p.2), p.1)) <$>
      filter (fun p : ExecutionId * StoredExecution.t =>
                State.execution_lease_is
                  (fun l => ExecutionLease.is_expired_at l (ExpiredLeaseRecoveryRequest.now request)) p.2)
        (map_to_list (State.records s)) in
  truncate (ExpiredLeaseRecoveryRequest.limit request) (sort_by_key (fun p => p) ids).

(* src: crates/bos-kernel/src/memory.rs:1362-1374 ExpiredLeaseRecoveryStore::recover_expired_leases (outbox ids) *)
Definition expired_outbox_ids (request : ExpiredLeaseRecoveryRequest.t) (s : State.t)
    : list (SystemTime * OutboxMessageId) :=
  let ids :=
    (fun p : OutboxMessageId * StoredOutboxMessage.t =>
       (OutboxMessage.available_at (StoredOutboxMessage.message p.2), p.1)) <$>
      filter (fun p : OutboxMessageId * StoredOutboxMessage.t =>
                State.outbox_lease_is
                  (fun l => OutboxDeliveryLease.is_expired_at l
                              (ExpiredLeaseRecoveryRequest.now request)) p.2)
        (map_to_list (State.outbox s)) in
  truncate (ExpiredLeaseRecoveryRequest.limit request) (sort_by_key (fun p => p) ids).

(** What recovery does to one entry, and what it counts. *)
(* src: crates/bos-kernel/src/memory.rs:1344-1359 ExpiredLeaseRecoveryStore::recover_expired_leases (execution entry) *)
Definition recover_execution (request : ExpiredLeaseRecoveryRequest.t) (e : StoredExecution.t)
    (summary : ExpiredLeaseRecoverySummary.t) : StoredExecution.t * ExpiredLeaseRecoverySummary.t :=
  let now := ExpiredLeaseRecoveryRequest.now request in
  if (ExpiredLeaseRecoveryRequest.max_attempts request
        <=? ExecutionRecord.attempt (StoredExecution.record e))%N
  then (StoredExecution.mk
          (ExecutionRecord.mark_dead_lettered (StoredExecution.record e) now
             "lease expired beyond retry limit") None,
        ExpiredLeaseRecoverySummary.observe_dead_lettered summary)
  else (StoredExecution.mk (ExecutionRecord.release_claim (StoredExecution.record e) now) None,
        ExpiredLeaseRecoverySummary.observe_recovered summary).

(* src: crates/bos-kernel/src/memory.rs:1376-1392 ExpiredLeaseRecoveryStore::recover_expired_leases (outbox entry) *)
Definition recover_outbox (request : ExpiredLeaseRecoveryRequest.t) (e : StoredOutboxMessage.t)
    (summary : ExpiredLeaseRecoverySummary.t)
    : StoredOutboxMessage.t * ExpiredLeaseRecoverySummary.t :=
  let now := ExpiredLeaseRecoveryRequest.now request in
  if (ExpiredLeaseRecoveryRequest.max_attempts request
        <=? OutboxMessage.attempts (StoredOutboxMessage.message e))%N
  then
    ({| StoredOutboxMessage.message :=
          OutboxMessage.mark_attempted (StoredOutboxMessage.message e) now None;
        StoredOutboxMessage.lease := None;
        StoredOutboxMessage.status := OutboxMessageStatus.DeadLettered;
        StoredOutboxMessage.delivered_at := StoredOutboxMessage.delivered_at e;
        StoredOutboxMessage.dead_lettered_at := Some now;
        StoredOutboxMessage.last_error := Some "lease expired beyond retry limit"%string |},
     ExpiredLeaseRecoverySummary.observe_dead_lettered summary)
  else
    ({| StoredOutboxMessage.message :=
          OutboxMessage.release_claim (StoredOutboxMessage.message e) now;
        StoredOutboxMessage.lease := None;
        StoredOutboxMessage.status := OutboxMessageStatus.Pending;
        StoredOutboxMessage.delivered_at := StoredOutboxMessage.delivered_at e;
        StoredOutboxMessage.dead_lettered_at := StoredOutboxMessage.dead_lettered_at e;
        StoredOutboxMessage.last_error := StoredOutboxMessage.last_error e |},
     ExpiredLeaseRecoverySummary.observe_recovered summary).

(** The loop over ids; an id that is gone is skipped. *)
Fixpoint recover_loop {K V} `{Countable K}
    (step : V → ExpiredLeaseRecoverySummary.t → V * ExpiredLeaseRecoverySummary.t)
    (ids : list (SystemTime * K)) (m : gmap K V) (summary : ExpiredLeaseRecoverySummary.t)
    : gmap K V * ExpiredLeaseRecoverySummary.t :=
  match ids with
  | [] => (m, summary)
  | (_, i) :: ids =>
    match m !! i with
    | None => recover_loop step ids m summary
    | Some e => let '(e', summary') := step e summary in recover_loop step ids (<[i := e']> m) summary'
    end
  end.

(* src: crates/bos-kernel/src/memory.rs:1319-1405 ExpiredLeaseRecoveryStore::recover_expired_leases *)
Definition recover_expired_leases (request : ExpiredLeaseRecoveryRequest.t) (ctx : ExecutionContext.t)
    : StoreOp ExpiredLeaseRecoverySummary.t :=
  Store.require_queue_supported (ExpiredLeaseRecoveryRequest.queue request) ctx ;;?
  fun s =>
    match ExpiredLeaseRecoveryRequest.queue request with
    | ExecutionQueue =>
      let '(records, summary) :=
        recover_loop (recover_execution request) (expired_execution_ids request s) (State.records s)
          ExpiredLeaseRecoverySummary.default in
      (Ok summary, State.set_records s records)
    | OutboxQueue =>
      let '(outbox, summary) :=
        recover_loop (recover_outbox request) (expired_outbox_ids request s) (State.outbox s)
          ExpiredLeaseRecoverySummary.default in
      (Ok summary, State.set_outbox s outbox)
    end.

(* src: crates/bos-kernel/src/memory.rs:1409-1428 WorkerHeartbeatStore::record_heartbeat *)
Definition record_heartbeat (heartbeat : WorkerHeartbeat.t) (ctx : ExecutionContext.t) : StoreOp unit :=
  op_lift (WorkerHeartbeat.validate heartbeat ctx) ;;?
  fun s =>
    let active_leases :=
      State.active_leases_for_worker s (WorkerHeartbeat.worker_id heartbeat)
        (WorkerHeartbeat.recorded_at heartbeat) in
    let heartbeat := WorkerHeartbeat.with_active_leases heartbeat active_leases in
    (Ok tt, State.set_heartbeats s
       (<[(WorkerHeartbeat.scope heartbeat, WorkerHeartbeat.worker_id heartbeat) := heartbeat]>
          (State.heartbeats s))).

(* src: crates/bos-kernel/src/memory.rs:1430-1437 WorkerHeartbeatStore::lookup_worker *)
Definition lookup_worker (worker : WorkerVisibilityRef.t) (_ctx : ExecutionContext.t)
    : StoreOp (option WorkerHeartbeat.t) :=
  fun s => (Ok (State.visible_heartbeat s (WorkerVisibilityRef.worker_id worker)
                  (WorkerVisibilityRef.scope worker) (WorkerVisibilityRef.visible_at worker)), s).

Definition heartbeat_key (h : WorkerHeartbeat.t) : Reverse Z * string :=
  (MkReverse (WorkerHeartbeat.recorded_at h), WorkerHeartbeat.worker_id h).

(* src: crates/bos-kernel/src/memory.rs:1439-1466 WorkerHeartbeatStore::list_visible_workers *)
Definition list_visible_workers (query : VisibleWorkersQuery.t) (_ctx : ExecutionContext.t)
    : StoreOp (list WorkerHeartbeat.t) :=
  fun s =>
    let workers :=
      omap (fun h => State.visible_heartbeat s (WorkerHeartbeat.worker_id h) (WorkerHeartbeat.scope h)
                       (VisibleWorkersQuery.visible_at query))
        (filter (fun h => string_eqb (WorkerHeartbeat.scope h) (VisibleWorkersQuery.scope query))
           (values (State.heartbeats s))) in
    (Ok (truncate (VisibleWorkersQuery.limit query) (sort_by_key heartbeat_key workers)), s).

(* src: crates/bos-kernel/src/memory.rs:1570-1575 WorkerDispatchSnapshotExt::with_optional_heartbeat *)
Definition with_optional_heartbeat (s : WorkerDispatchSnapshot.t) (h : option WorkerHeartbeat.t)
    : WorkerDispatchSnapshot.t :=
  match h with Some h => WorkerDispatchSnapshot.with_heartbeat s h | None => s end.

(** The snapshot of one worker, as both status methods assemble it. *)
Definition worker_snapshot (s : State.t) (worker_id scope : string) (observed_at : SystemTime)
    (heartbeat : option WorkerHeartbeat.t) : WorkerDispatchSnapshot.t :=
  with_optional_heartbeat
    (WorkerDispatchSnapshot.push_queue
       (WorkerDispatchSnapshot.push_queue
          (WorkerDispatchSnapshot.new worker_id scope observed_at)
          (State.queue_snapshot_for_worker s ExecutionQueue worker_id observed_at))
       (State.queue_snapshot_for_worker s OutboxQueue worker_id observed_at))
    heartbeat.

(* src: crates/bos-kernel/src/memory.rs:1470-1513 DispatchStatusStore::lookup_worker_snapshot *)
Definition lookup_worker_snapshot (worker : WorkerDispatchSnapshotRef.t) (_ctx : ExecutionContext.t)
    : StoreOp (option WorkerDispatchSnapshot.t) :=
  fun s =>
    let worker_id := WorkerDispatchSnapshotRef.worker_id worker in
    let scope := WorkerDispatchSnapshotRef.scope worker in
    let observed_at := WorkerDispatchSnapshotRef.observed_at worker in
    let heartbeat := State.snapshot_heartbeat s worker_id scope observed_at in
    let has_queue_activity :=
      (0 <? State.active_execution_leases_for_worker s worker_id observed_at)%N
      || (0 <? State.active_outbox_leases_for_worker s worker_id observed_at)%N
      || (0 <? State.stale_execution_claim_count_for_worker s worker_id observed_at)%N
      || (0 <? State.stale_outbox_claim_count_for_worker s worker_id observed_at)%N
      || bool_decide (is_Some (State.heartbeats s !! (scope, worker_id))) in
    (Ok (if negb has_queue_activity && negb (bool_decide (is_Some heartbeat)) then None
         else Some (worker_snapshot s worker_id scope observed_at heartbeat)), s).

Definition snapshot_key (s : WorkerDispatchSnapshot.t) : Reverse Z * string :=
  (MkReverse (WorkerDispatchSnapshot.observed_at s), WorkerDispatchSnapshot.worker_id s).

(* src: crates/bos-kernel/src/memory.rs:1515-1562 DispatchStatusStore::list_worker_snapshots *)
Definition list_worker_snapshots (query : WorkerDispatchSnapshotsQuery.t) (_ctx : ExecutionContext.t)
    : StoreOp (list WorkerDispatchSnapshot.t) :=
  fun s =>
    let scope := WorkerDispatchSnapshotsQuery.scope query in
    let observed_at := WorkerDispatchSnapshotsQuery.observed_at query in
    let snapshots :=
      omap (fun worker_id =>
              let heartbeat := State.snapshot_heartbeat s worker_id scope observed_at in
              let snapshot := worker_snapshot s worker_id scope observed_at heartbeat in
              if negb (WorkerDispatchSnapshotsQuery.include_expired_workers query)
                 && bool_decide (WorkerDispatchSnapshot.visibility snapshot = Expired)
              then None else Some snapshot)
        (State.worker_ids_for_scope s scope) in
    (Ok (truncate (WorkerDispatchSnapshotsQuery.limit query) (sort_by_key snapshot_key snapshots)), s).
End env.

#[global] Instance memory_dispatch {env : Env} : DispatchWorkStore State.t := {
  Stores.select_due := select_due;
  Stores.claim_due := claim_due;
  Stores.renew_claim := renew_claim;
  Stores.finalize := finalize;
}.
#[global] Instance memory_heartbeats : WorkerHeartbeatStore State.t := {
  Stores.record_heartbeat := record_heartbeat;
  Stores.lookup_worker := lookup_worker;
  Stores.list_visible_workers := list_visible_workers;
}.
#[global] Instance memory_status : DispatchStatusStore State.t := {
  Stores.lookup_worker_snapshot := lookup_worker_snapshot;
  Stores.list_worker_snapshots := list_worker_snapshots;
}.
#[global] Instance memory_recovery : ExpiredLeaseRecoveryStore State.t := {
  Stores.recover_expired_leases := recover_expired_leases;
}.
#[global] Instance memory_execution_inspection : ExecutionInspectionStore State.t := {
  Stores.lookup_execution := Store.lookup_execution;
  Stores.lookup_execution_inspection := Store.lookup_execution_inspection;
  Stores.list_executions := Store.list_executions;
  Stores.list_execution_inspection := Store.list_execution_inspection;
  Stores.summarize_executions := Store.summarize_executions;
}.
#[global] Instance memory_outbox_inspection : OutboxInspectionStore State.t := {
  Stores.lookup_outbox_message := Store.lookup_outbox_message;
  Stores.list_outbox_messages := Store.list_outbox_messages;
  Stores.summarize_outbox := Store.summarize_outbox;
}.
End MemDispatch.

(** ** The dispatch methods on each queue *)

Section dispatch_lemmas.
Context {env : Env}.

(** The queue-specific requests a dispatch request turns into; the clock value of
    the inner constructor is gone. *)
Definition execution_claim (r : DispatchClaimRequest.t) : ExecutionLeaseRequest.t :=
  ExecutionLeaseRequest.mk (DispatchClaimRequest.worker_id r) (N.max (DispatchClaimRequest.batch_size r) 1)
    (DispatchClaimRequest.lease_ttl r) (DispatchClaimRequest.now r).
Definition outbox_claim (r : DispatchClaimRequest.t) : OutboxDeliveryLeaseRequest.t :=
  OutboxDeliveryLeaseRequest.mk (DispatchClaimRequest.worker_id r)
    (N.max (DispatchClaimRequest.batch_size r) 1)
    (DispatchClaimRequest.lease_ttl r) (DispatchClaimRequest.now r).

Lemma claim_due_execution request ctx s :
  DispatchClaimRequest.queue request = ExecutionQueue →
  MemDispatch.claim_due request ctx s =
  op_map (fmap ClaimedDispatchWork.Execution)
    (Store.claim_available env_clock (execution_claim request) ctx) s.
Proof.
  intros Hq. unfold MemDispatch.claim_due, Store.require_queue_supported, MemDispatch.convert.
  unfold DispatchClaimRequest.as_execution_request. by rewrite Hq.
Qed.

Lemma claim_due_outbox request ctx s :
  DispatchClaimRequest.queue request = OutboxQueue →
  MemDispatch.claim_due request ctx s =
  op_map (fmap ClaimedDispatchWork.Outbox)
    (Store.lease_available env_gen env_clock (outbox_claim request) ctx) s.
Proof.
  intros Hq. unfold MemDispatch.claim_due, Store.require_queue_supported, MemDispatch.convert.
  unfold DispatchClaimRequest.as_outbox_request. by rewrite Hq.
Qed.

Lemma claim_due_execution_state request ctx s :
  DispatchClaimRequest.queue request = ExecutionQueue →
  (MemDispatch.claim_due request ctx s).2 =
  (Store.claim_available env_clock (execution_claim request) ctx s).2.
Proof.
  intros Hq. rewrite claim_due_execution by done. unfold op_map, op_bind.
  by destruct (Store.claim_available _ _ _ _) as [[c|err] s'].
Qed.

Lemma claim_due_outbox_state request ctx s :
  DispatchClaimRequest.queue request = OutboxQueue →
  (MemDispatch.claim_due request ctx s).2 =
  (Store.lease_available env_gen env_clock (outbox_claim request) ctx s).2.
Proof.
  intros Hq. rewrite claim_due_outbox by done. unfold op_map, op_bind.
  by destruct (Store.lease_available _ _ _ _) as [[c|err] s'].
Qed.
End dispatch_lemmas.
