(* ===== verification/MemoryInv.v ===== *)
(** * The invariant of the in-memory work store

    What every reachable state of the store satisfies: entries sit under their
    own id, a lease means work in flight, lease ids are handed out once, and
    heartbeats are valid.  Each operation keeps it, on success and on error. *)

From stdpp Require Import relations.
From S2P Require Import Prelude RustStd Ids Errors CurrentState Execution Outbox.
From S2P Require Import Transactional Inspection Workers Dispatch Stores Memory MemoryStore MemoryDispatch.

(** A place a lease can be held at: an execution record or an outbox message. *)
Definition Slot : Type := ExecutionId + OutboxMessageId.

Definition lease_at (s : State.t) (slot : Slot) : option LeaseId :=
  match slot with
  | inl i => ExecutionLease.lease_id <$> (State.records s !! i ≫= StoredExecution.lease)
  | inr i => OutboxDeliveryLease.lease_id <$> (State.outbox s !! i ≫= StoredOutboxMessage.lease)
  end.

(** The lease ids the store has made so far. *)
Definition issued (s : State.t) (l : LeaseId) : Prop :=
  ∃ k, (1 ≤ k ≤ State.next_lease_sequence s)%N ∧ l = Id.MkId (State.lease_name k).

Definition in_flight_if_leased (e : StoredExecution.t) : Prop :=
  is_Some (StoredExecution.lease e) →
  ExecutionRecord.status (StoredExecution.record e) = ExecutionRecordStatus.InFlight.

Definition leased_iff_in_flight (e : StoredOutboxMessage.t) : Prop :=
  is_Some (StoredOutboxMessage.lease e) ↔ StoredOutboxMessage.status e = OutboxMessageStatus.InFlight.

Definition heartbeat_ok (h : WorkerHeartbeat.t) : Prop :=
  is_blank (WorkerHeartbeat.worker_id h) = false ∧ is_blank (WorkerHeartbeat.scope h) = false ∧
  (WorkerHeartbeat.recorded_at h ≤ WorkerHeartbeat.visible_until h)%Z.

Record store_wf (s : State.t) : Prop := {
  wf_record_key : ∀ i e, State.records s !! i = Some e → ExecutionRecord.id (StoredExecution.record e) = i;
  wf_record_lease : ∀ i e, State.records s !! i = Some e → in_flight_if_leased e;
  wf_outbox_key : ∀ i e, State.outbox s !! i = Some e → OutboxMessage.id (StoredOutboxMessage.message e) = i;
  wf_outbox_lease : ∀ i e, State.outbox s !! i = Some e → leased_iff_in_flight e;
  wf_sequence : (State.next_lease_sequence s ≤ u64_max)%N;
  wf_issued : ∀ a l, lease_at s a = Some l → issued s l;
  (** Until the counter saturates, no lease id is held twice. *)
  wf_unique : (State.next_lease_sequence s < u64_max)%N →
    ∀ a b l, lease_at s a = Some l → lease_at s b = Some l → a = b;
  wf_heartbeat : ∀ k h, State.heartbeats s !! k = Some h →
    k = (WorkerHeartbeat.scope h, WorkerHeartbeat.worker_id h) ∧ heartbeat_ok h;
}.

(** ** Lease ids *)

Lemma lease_name_visible k : all_visible (State.lease_name k) = true.
Proof. unfold State.lease_name. by rewrite all_visible_app, fmt_hex_visible. Qed.

(** [LeaseId::new] does not panic on the names the store makes. *)
Lemma next_lease_id_never_panics k :
  Id.new (k:=LeaseIdK) (State.lease_name k) = Some (Id.MkId (State.lease_name k)).
Proof.
  unfold Id.new, Id.try_new. rewrite trim_visible by apply lease_name_visible. done.
Qed.

Lemma lease_name_inj j k : State.lease_name j = State.lease_name k → j = k.
Proof. unfold State.lease_name. intros H. by apply fmt_hex_inj, (string_app_inj_r "lease_exec_mem_"). Qed.

Lemma lease_id_inj j k :
  Id.MkId (k:=LeaseIdK) (State.lease_name j) = Id.MkId (State.lease_name k) → j = k.
Proof. intros H. apply lease_name_inj. exact (f_equal Id.as_str H). Qed.

Lemma next_lease_id_eq s :
  State.next_lease_id s =
  (Id.MkId (State.lease_name (saturating_add_u64 (State.next_lease_sequence s) 1)),
   State.mk (State.records s) (State.outbox s) (State.heartbeats s)
     (saturating_add_u64 (State.next_lease_sequence s) 1)).
Proof. unfold State.next_lease_id. by rewrite next_lease_id_never_panics. Qed.

Lemma draw_lease_id_eq s :
  draw_lease_id s =
  (Ok (Id.MkId (State.lease_name (saturating_add_u64 (State.next_lease_sequence s) 1))),
   (State.next_lease_id s).2).
Proof. unfold draw_lease_id. by rewrite next_lease_id_eq. Qed.

(** The id drawn is new, unless the counter is at its maximum. *)
Lemma drawn_fresh s a :
  store_wf s → (State.next_lease_sequence s < u64_max)%N →
  lease_at s a ≠ Some (Id.MkId (State.lease_name (saturating_add_u64 (State.next_lease_sequence s) 1))).
Proof.
  intros Hwf Hlt Ha. apply (wf_issued s Hwf) in Ha as (k & Hk & Heq%lease_id_inj).
  unfold saturating_add_u64 in Heq. lia.
Qed.

(** ** Writing one entry *)

Lemma lease_at_set_record s i e a :
  lease_at (State.set_records s (<[i := e]> (State.records s))) a =
  if decide (a = inl i) then ExecutionLease.lease_id <$> StoredExecution.lease e else lease_at s a.
Proof.
  case_decide as Ha; [subst a; simpl; by rewrite lookup_insert_eq|].
  destruct a as [j|j]; simpl; [|done]. rewrite lookup_insert_ne; [done|congruence].
Qed.

Lemma lease_at_set_outbox s i e a :
  lease_at (State.set_outbox s (<[i := e]> (State.outbox s))) a =
  if decide (a = inr i) then OutboxDeliveryLease.lease_id <$> StoredOutboxMessage.lease e
  else lease_at s a.
Proof.
  case_decide as Ha; [subst a; simpl; by rewrite lookup_insert_eq|].
  destruct a as [j|j]; simpl; [done|]. rewrite lookup_insert_ne; [done|congruence].
Qed.

(** What the lease of a new entry at [slot] must satisfy. *)
Definition lease_id_ok (s : State.t) (slot : Slot) (l : LeaseId) : Prop :=
  issued s l ∧
  ((State.next_lease_sequence s < u64_max)%N → ∀ a, lease_at s a = Some l → a = slot).

Lemma held_lease_id_ok s slot l : store_wf s → lease_at s slot = Some l → lease_id_ok s slot l.
Proof.
  intros Hwf Hl. split; [by eapply wf_issued|].
  intros Hlt a Ha. by apply (wf_unique s Hwf Hlt a slot l).
Qed.

Lemma wf_set_record s i e :
  store_wf s →
  ExecutionRecord.id (StoredExecution.record e) = i →
  in_flight_if_leased e →
  (∀ l, StoredExecution.lease e = Some l → lease_id_ok s (inl i) (ExecutionLease.lease_id l)) →
  store_wf (State.set_records s (<[i := e]> (State.records s))).
Proof.
  intros Hwf Hid Hfl Hl. split; simpl; try apply Hwf.
  - intros j e' [[<- <-]|[_ Hj]]%lookup_insert_Some; [done|by apply (wf_record_key s Hwf)].
  - intros j e' [[<- <-]|[_ Hj]]%lookup_insert_Some; [done|by apply (wf_record_lease s Hwf j)].
  - intros a l. rewrite lease_at_set_record. case_decide; [|apply (wf_issued s Hwf)].
    intros (l' & Hl' & ->)%fmap_Some. by apply Hl in Hl' as [? _].
  - intros Hlt a b l. rewrite !lease_at_set_record. case_decide as Ha; case_decide as Hb.
    + by subst.
    + intros (l' & Hl' & ->)%fmap_Some Hlb. apply Hl in Hl' as [_ Hu]. subst a.
      symmetry. by apply Hu.
    + intros Hla (l' & Hl' & ->)%fmap_Some. apply Hl in Hl' as [_ Hu]. subst b. by apply Hu.
    + by apply (wf_unique s Hwf Hlt).
Qed.

Lemma wf_set_outbox s i e :
  store_wf s →
  OutboxMessage.id (StoredOutboxMessage.message e) = i →
  leased_iff_in_flight e →
  (∀ l, StoredOutboxMessage.lease e = Some l → lease_id_ok s (inr i) (OutboxDeliveryLease.lease_id l)) →
  store_wf (State.set_outbox s (<[i := e]> (State.outbox s))).
Proof.
  intros Hwf Hid Hfl Hl. split; simpl; try apply Hwf.
  - intros j e' [[<- <-]|[_ Hj]]%lookup_insert_Some; [done|by apply (wf_outbox_key s Hwf)].
  - intros j e' [[<- <-]|[_ Hj]]%lookup_insert_Some; [done|by apply (wf_outbox_lease s Hwf j)].
  - intros a l. rewrite lease_at_set_outbox. case_decide; [|apply (wf_issued s Hwf)].
    intros (l' & Hl' & ->)%fmap_Some. by apply Hl in Hl' as [? _].
  - intros Hlt a b l. rewrite !lease_at_set_outbox. case_decide as Ha; case_decide as Hb.
    + by subst.
    + intros (l' & Hl' & ->)%fmap_Some Hlb. apply Hl in Hl' as [_ Hu]. subst a.
      symmetry. by apply Hu.
    + intros Hla (l' & Hl' & ->)%fmap_Some. apply Hl in Hl' as [_ Hu]. subst b. by apply Hu.
    + by apply (wf_unique s Hwf Hlt).
Qed.

Lemma wf_default : store_wf State.default.
Proof.
  split; simpl; try (intros ? ?; rewrite lookup_empty; done); [done| |].
  - intros [i|i] l; simpl; by rewrite lookup_empty.
  - intros _ [i|i] b l; simpl; by rewrite lookup_empty.
Qed.

Lemma wf_drawn s :
  store_wf s →
  store_wf (State.next_lease_id s).2 ∧
  ∀ slot, lease_id_ok (State.next_lease_id s).2 slot (State.next_lease_id s).1.
Proof.
  intros Hwf. rewrite next_lease_id_eq. simpl. unfold saturating_add_u64.
  pose proof (wf_sequence s Hwf) as Hseq. unfold u64_max in *.
  split; [split; simpl; try apply Hwf|intros slot; split; simpl]; unfold u64_max in *.
  - lia.
  - intros [i|i] l Hl; [apply (wf_issued s Hwf (inl i)) in Hl|apply (wf_issued s Hwf (inr i)) in Hl];
      destruct Hl as (k & Hk & ->); exists k; simpl; (split; [lia|done]).
  - intros Hlt [i|i] [j|j] l Hl Hl'; simpl in Hl, Hl';
      [apply (wf_unique s Hwf ltac:(unfold u64_max; lia) (inl i) (inl j) l)
      |apply (wf_unique s Hwf ltac:(unfold u64_max; lia) (inl i) (inr j) l)
      |apply (wf_unique s Hwf ltac:(unfold u64_max; lia) (inr i) (inl j) l)
      |apply (wf_unique s Hwf ltac:(unfold u64_max; lia) (inr i) (inr j) l)]; done.
  - exists (N.min (State.next_lease_sequence s + 1) 18446744073709551615)%N. split; [simpl; lia|done].
  - intros Hlt a Ha. exfalso. apply (drawn_fresh s a Hwf); [unfold u64_max; lia|].
    destruct a; exact Ha.
Qed.

(** ** Every operation keeps the invariant *)

#[local] Abbreviation keeps m := (preserves store_wf m).

Lemma get_record_bind {A} (I : State.t → Prop) i ctx (k : StoredExecution.t → StoreOp A) :
  (∀ s e, I s → State.records s !! i = Some e → I (k e s).2) →
  preserves I (op_bind (get_record i ctx) k).
Proof.
  intros Hk s Hs. unfold op_bind, get_record.
  destruct (State.records s !! i) as [e|] eqn:He; simpl; [by apply Hk|done].
Qed.

Lemma get_outbox_bind {A} (I : State.t → Prop) i ctx (k : StoredOutboxMessage.t → StoreOp A) :
  (∀ s e, I s → State.outbox s !! i = Some e → I (k e s).2) →
  preserves I (op_bind (get_outbox i ctx) k).
Proof.
  intros Hk s Hs. unfold op_bind, get_outbox.
  destruct (State.outbox s !! i) as [e|] eqn:He; simpl; [by apply Hk|done].
Qed.

(** Releasing or finishing an entry: the record keeps its id and the lease goes. *)
Lemma wf_put_released s i e r :
  store_wf s → State.records s !! i = Some e → ExecutionRecord.id r = ExecutionRecord.id (StoredExecution.record e) →
  store_wf (State.set_records s (<[i := StoredExecution.mk r None]> (State.records s))).
Proof.
  intros Hwf He Hid. apply wf_set_record; simpl; [done| | |done].
  - rewrite Hid. by apply (wf_record_key s Hwf).
  - by intros [? [=]].
Qed.

Lemma wf_put_message_released s i e m st d dl err :
  store_wf s → State.outbox s !! i = Some e →
  OutboxMessage.id m = OutboxMessage.id (StoredOutboxMessage.message e) →
  st ≠ OutboxMessageStatus.InFlight →
  store_wf (State.set_outbox s (<[i := StoredOutboxMessage.mk m None st d dl err]> (State.outbox s))).
Proof.
  intros Hwf He Hid Hst. apply wf_set_outbox; simpl; [done| | |done].
  - rewrite Hid. by apply (wf_outbox_key s Hwf).
  - split; simpl; [by intros [? [=]]|done].
Qed.

Lemma wf_append r ctx : keeps (Store.append r ctx).
Proof.
  intros s Hwf. unfold Store.append, op_bind, op_get, op_lift, put_record.
  case_decide; simpl; [done|]. apply wf_set_record; simpl; try done. by intros [? [=]].
Qed.

Lemma wf_append_outbox m ctx : keeps (Store.append_outbox m ctx).
Proof.
  intros s Hwf. unfold Store.append_outbox, op_bind, op_get, op_lift, put_outbox.
  case_decide; simpl; [done|]. apply wf_set_outbox; simpl; try done.
  split; simpl; [by intros [? [=]]|done].
Qed.

Lemma wf_update r ctx : keeps (Store.update r ctx).
Proof.
  apply get_record_bind. intros s e Hwf He. simpl. unfold ExecutionRecordStatus.eqb.
  case_bool_decide as Hst; [|by apply wf_set_record; simpl; try done; intros [? [=]]].
  apply wf_set_record; simpl; [done|done|by intros _|].
  intros l Hl. apply held_lease_id_ok; [done|]. simpl. by rewrite He; simpl; rewrite Hl.
Qed.

Lemma wf_for_each {A B} (I : State.t → Prop) (f : A → StoreOp B) l :
  (∀ x, preserves I (f x)) → preserves I (Store.for_each f l).
Proof. intros Hf. induction l as [|x l IH]; simpl; auto with op_db. Qed.

(** What the body of each claim loop does when it succeeds. *)
Lemma claim_execution_step request ctx i s c s' :
  Store.claim_execution request ctx i s = (Ok c, s') ↔
  ∃ e, State.records s !! i = Some e ∧
    let '(l, s1) := State.next_lease_id s in
    let lease := ExecutionLease.from_now l (ExecutionLeaseRequest.leased_by request)
        (ExecutionLeaseRequest.lease_ttl request) (ExecutionLeaseRequest.now request) in
    ClaimedExecution.claim
      (StoredExecution.materialize_due_record e (ExecutionLeaseRequest.now request)) lease = Ok c ∧
    s' = State.set_records s1 (<[i := StoredExecution.mk (ClaimedExecution.record c) (Some lease)]>
           (State.records s)).
Proof.
  unfold Store.claim_execution, get_record, op_lift, put_record, op_ret, op_bind.
  rewrite draw_lease_id_eq, ?next_lease_id_eq; simpl.
  destruct (State.records s !! i) as [e|]; simpl; [|by split; [|intros (?&[=]&_)]].
  destruct (ClaimedExecution.claim _ _) as [c'|] eqn:Hc; split.
  - intros [= -> <-]. by exists e.
  - intros (? & [= <-] & Hc' & ->). rewrite Hc in Hc'. by simplify_eq.
  - done.
  - intros (? & [= <-] & Hc' & _). by rewrite Hc in Hc'.
Qed.

Lemma claim_message_step gen request ctx i s c s' :
  Store.claim_message gen request ctx i s = (Ok c, s') ↔
  ∃ e, State.outbox s !! i = Some e ∧
    let '(l, s1) := State.next_lease_id s in
    let lease := OutboxDeliveryLease.from_now l (OutboxDeliveryLeaseRequest.leased_by request)
        (OutboxDeliveryLeaseRequest.lease_ttl request) (OutboxDeliveryLeaseRequest.now request) in
    ClaimedOutboxDelivery.claim gen (StoredOutboxMessage.message e) lease = Ok c ∧
    s' = State.set_outbox s1
           (<[i := StoredOutboxMessage.mk (ClaimedOutboxDelivery.message c) (Some lease)
                     OutboxMessageStatus.InFlight (StoredOutboxMessage.delivered_at e)
                     (StoredOutboxMessage.dead_lettered_at e) (StoredOutboxMessage.last_error e)]>
           (State.outbox s)).
Proof.
  unfold Store.claim_message, get_outbox, op_lift, put_outbox, op_ret, op_bind.
  rewrite draw_lease_id_eq, ?next_lease_id_eq; simpl.
  destruct (State.outbox s !! i) as [e|]; simpl; [|by split; [|intros (?&[=]&_)]].
  unfold StoredOutboxMessage.materialize_due_message.
  destruct (ClaimedOutboxDelivery.claim _ _ _) as [c'|] eqn:Hc; split.
  - intros [= -> <-]. by exists e.
  - intros (? & [= <-] & Hc' & ->). rewrite Hc in Hc'. by simplify_eq.
  - done.
  - intros (? & [= <-] & Hc' & _). by rewrite Hc in Hc'.
Qed.

(** A claim that fails has drawn a lease id and nothing else. *)
Lemma claim_execution_err request ctx i s e s' :
  Store.claim_execution request ctx i s = (Err e, s') → s' = (State.next_lease_id s).2.
Proof.
  unfold Store.claim_execution, get_record, op_lift, put_record, op_ret, op_bind.
  rewrite draw_lease_id_eq, ?next_lease_id_eq; simpl.
  destruct (State.records s !! i) as [e'|]; simpl; [|by intros [= _ <-]].
  destruct (ClaimedExecution.claim _ _) as [c'|]; by intros [= _ <-].
Qed.

Lemma claim_message_err gen request ctx i s e s' :
  Store.claim_message gen request ctx i s = (Err e, s') → s' = (State.next_lease_id s).2.
Proof.
  unfold Store.claim_message, get_outbox, op_lift, put_outbox, op_ret, op_bind.
  rewrite draw_lease_id_eq, ?next_lease_id_eq; simpl.
  destruct (State.outbox s !! i) as [e'|]; simpl; [|by intros [= _ <-]].
  destruct (ClaimedOutboxDelivery.claim _ _ _) as [c'|]; by intros [= _ <-].
Qed.

Lemma materialize_id e now :
  ExecutionRecord.id (StoredExecution.materialize_due_record e now) =
  ExecutionRecord.id (StoredExecution.record e).
Proof. unfold StoredExecution.materialize_due_record. by repeat case_match. Qed.

Lemma wf_claim_execution request ctx i : keeps (Store.claim_execution request ctx i).
Proof.
  intros s Hwf. destruct (wf_drawn s Hwf) as [Hwf' Hfresh].
  destruct (Store.claim_execution request ctx i s) as [[c|err] s'] eqn:Hc; simpl;
    [|by apply claim_execution_err in Hc as ->].
  apply claim_execution_step in Hc as (e & He & Hc).
  rewrite next_lease_id_eq in *. destruct Hc as [Hc ->].
  apply claim_execution_ok in Hc as (_ & _ & _ & ->).
  apply (wf_set_record _ i _ Hwf'); simpl.
  - rewrite materialize_id. by apply (wf_record_key s Hwf).
  - by intros _.
  - intros l [= <-]. apply Hfresh.
Qed.

Lemma wf_claim_message gen request ctx i : keeps (Store.claim_message gen request ctx i).
Proof.
  intros s Hwf. destruct (wf_drawn s Hwf) as [Hwf' Hfresh].
  destruct (Store.claim_message gen request ctx i s) as [[c|err] s'] eqn:Hc; simpl;
    [|by apply claim_message_err in Hc as ->].
  apply claim_message_step in Hc as (e & He & Hc).
  rewrite next_lease_id_eq in *. destruct Hc as [Hc ->].
  apply claim_message_ok in Hc as (_ & _ & ->).
  apply (wf_set_outbox _ i _ Hwf'); simpl.
  - by apply (wf_outbox_key s Hwf).
  - by split.
  - intros l [= <-]. apply Hfresh.
Qed.

(** Finishing or renewing: the six resolutions and the two renewals. *)
#[local] Ltac op_cases :=
  unfold op_bind, op_lift, op_ret, put_record, put_outbox; simpl; repeat case_match; simplify_eq/=; try done.

Lemma wf_acknowledge_completion x ctx : keeps (Store.acknowledge_completion x ctx).
Proof. apply get_record_bind. intros s e Hwf He. op_cases. by eapply wf_put_released. Qed.

Lemma wf_retry_execution x ctx : keeps (Store.retry_execution x ctx).
Proof. apply get_record_bind. intros s e Hwf He. op_cases. by eapply wf_put_released. Qed.

Lemma wf_dead_letter_execution x ctx : keeps (Store.dead_letter_execution x ctx).
Proof. apply get_record_bind. intros s e Hwf He. op_cases. by eapply wf_put_released. Qed.

Lemma wf_acknowledge_delivery x ctx : keeps (Store.acknowledge_delivery x ctx).
Proof. apply get_outbox_bind. intros s e Hwf He. op_cases. by eapply wf_put_message_released. Qed.

Lemma wf_retry_delivery x ctx : keeps (Store.retry_delivery x ctx).
Proof. apply get_outbox_bind. intros s e Hwf He. op_cases. by eapply wf_put_message_released. Qed.

Lemma wf_dead_letter_delivery x ctx : keeps (Store.dead_letter_delivery x ctx).
Proof. apply get_outbox_bind. intros s e Hwf He. op_cases. by eapply wf_put_message_released. Qed.

Lemma Id_eqb_eq {k} (a b : Id.t k) : Id.eqb a b = true ↔ a = b.
Proof. apply bool_decide_eq_true. Qed.

Lemma string_eqb_eq a b : string_eqb a b = true ↔ a = b.
Proof. apply bool_decide_eq_true. Qed.

(** When a renewal succeeds, and what it does. *)
Lemma renew_execution_ok r ctx s l s' :
  Store.renew_execution_lease r ctx s = (Ok l, s') →
  ExecutionLeaseRenewal.validate r ctx = Ok tt ∧
  ∃ e old, State.records s !! ExecutionLeaseRenewal.execution_id r = Some e ∧
    StoredExecution.lease e = Some old ∧
    ExecutionLease.lease_id old = ExecutionLeaseRenewal.lease_id r ∧
    ExecutionLease.leased_by old = ExecutionLeaseRenewal.leased_by r ∧
    ExecutionLease.is_expired_at old (ExecutionLeaseRenewal.renewed_at r) = false ∧
    l = ExecutionLeaseRenewal.renewed_lease r ∧
    s' = State.set_records s (<[ExecutionLeaseRenewal.execution_id r :=
           StoredExecution.mk (StoredExecution.record e) (Some l)]> (State.records s)).
Proof.
  unfold Store.renew_execution_lease, get_record, op_bind, op_lift, op_ret, put_record.
  destruct (ExecutionLeaseRenewal.validate r ctx) as [[]|]; [|done].
  destruct (State.records s !! _) as [e|] eqn:He; simpl; [|done].
  destruct (StoredExecution.lease e) as [old|] eqn:Hold; [|done].
  case_match eqn:Hg; [done|]. apply orb_false_iff in Hg as [Hid Hby].
  apply negb_false_iff, Id_eqb_eq in Hid. apply negb_false_iff, string_eqb_eq in Hby.
  destruct (ExecutionLease.is_expired_at _ _) eqn:Hexp; [done|].
  intros [= <- <-]. split; [done|]. by exists e, old.
Qed.

Lemma renew_outbox_ok r ctx s l s' :
  Store.renew_outbox_lease r ctx s = (Ok l, s') →
  OutboxDeliveryLeaseRenewal.validate r ctx = Ok tt ∧
  ∃ e old, State.outbox s !! OutboxDeliveryLeaseRenewal.message_id r = Some e ∧
    StoredOutboxMessage.lease e = Some old ∧
    OutboxDeliveryLease.lease_id old = OutboxDeliveryLeaseRenewal.lease_id r ∧
    OutboxDeliveryLease.leased_by old = OutboxDeliveryLeaseRenewal.leased_by r ∧
    OutboxDeliveryLease.is_expired_at old (OutboxDeliveryLeaseRenewal.renewed_at r) = false ∧
    l = OutboxDeliveryLeaseRenewal.renewed_lease r ∧
    s' = State.set_outbox s (<[OutboxDeliveryLeaseRenewal.message_id r :=
           StoredOutboxMessage.mk (StoredOutboxMessage.message e) (Some l)
             (StoredOutboxMessage.status e) (StoredOutboxMessage.delivered_at e)
             (StoredOutboxMessage.dead_lettered_at e) (StoredOutboxMessage.last_error e)]>
             (State.outbox s)).
Proof.
  unfold Store.renew_outbox_lease, get_outbox, op_bind, op_lift, op_ret, put_outbox.
  destruct (OutboxDeliveryLeaseRenewal.validate r ctx) as [[]|]; [|done].
  destruct (State.outbox s !! _) as [e|] eqn:He; simpl; [|done].
  destruct (StoredOutboxMessage.lease e) as [old|] eqn:Hold; [|done].
  case_match eqn:Hg; [done|]. apply orb_false_iff in Hg as [Hid Hby].
  apply negb_false_iff, Id_eqb_eq in Hid. apply negb_false_iff, string_eqb_eq in Hby.
  destruct (OutboxDeliveryLease.is_expired_at _ _) eqn:Hexp; [done|].
  intros [= <- <-]. split; [done|]. by exists e, old.
Qed.

(** A rejected renewal leaves the state alone. *)
Lemma renew_execution_rejects r ctx : rejects_unchanged (Store.renew_execution_lease r ctx).
Proof.
  intros s e s'. unfold Store.renew_execution_lease, get_record, op_bind, op_lift, op_ret, put_record.
  repeat (case_match; simplify_eq/=; try by intros [= _ <-]).
Qed.

Lemma renew_outbox_rejects r ctx : rejects_unchanged (Store.renew_outbox_lease r ctx).
Proof.
  intros s e s'. unfold Store.renew_outbox_lease, get_outbox, op_bind, op_lift, op_ret, put_outbox.
  repeat (case_match; simplify_eq/=; try by intros [= _ <-]).
Qed.

Lemma wf_renew_execution r ctx : keeps (Store.renew_execution_lease r ctx).
Proof.
  intros s Hwf. destruct (Store.renew_execution_lease r ctx s) as [[l|err] s'] eqn:Hr; simpl;
    [|by apply renew_execution_rejects in Hr as ->].
  apply renew_execution_ok in Hr as (_ & e & old & He & Hold & Hid & _ & _ & -> & ->).
  apply wf_set_record; simpl; [done|by apply (wf_record_key s Hwf)| |].
  - intros _. by apply (wf_record_lease s Hwf _ _ He).
  - intros l [= <-]. simpl. apply held_lease_id_ok; [done|]. simpl.
    by rewrite He; simpl; rewrite Hold; simpl; rewrite Hid.
Qed.

Lemma wf_renew_outbox r ctx : keeps (Store.renew_outbox_lease r ctx).
Proof.
  intros s Hwf. destruct (Store.renew_outbox_lease r ctx s) as [[l|err] s'] eqn:Hr; simpl;
    [|by apply renew_outbox_rejects in Hr as ->].
  apply renew_outbox_ok in Hr as (_ & e & old & He & Hold & Hid & _ & _ & -> & ->).
  apply wf_set_outbox; simpl; [done|by apply (wf_outbox_key s Hwf)| |].
  - pose proof (wf_outbox_lease s Hwf _ _ He) as Hiff. unfold leased_iff_in_flight in *; simpl.
    rewrite <- Hiff, Hold. by split.
  - intros l [= <-]. simpl. apply held_lease_id_ok; [done|]. simpl.
    by rewrite He; simpl; rewrite Hold; simpl; rewrite Hid.
Qed.

(** Recovery rewrites expired entries one by one. *)
Lemma recover_loop_ind {K V} `{Countable K} (P : gmap K V → Prop)
    (step : V → ExpiredLeaseRecoverySummary.t → V * ExpiredLeaseRecoverySummary.t) ids m summary :
  (∀ m i e sm, P m → m !! i = Some e → P (<[i := (step e sm).1]> m)) →
  P m → P (MemDispatch.recover_loop step ids m summary).1.
Proof.
  intros Hstep. revert m summary. induction ids as [|[t i] ids IH]; intros m summary Hm; simpl; [done|].
  destruct (m !! i) as [e|] eqn:He; [|by apply IH].
  pose proof (Hstep m i e summary Hm He) as Hm'.
  destruct (step e summary) as [e' sm']. by apply IH.
Qed.

Lemma wf_recover request ctx : keeps (MemDispatch.recover_expired_leases request ctx).
Proof.
  intros s Hwf. unfold MemDispatch.recover_expired_leases, Store.require_queue_supported, op_bind.
  destruct (ExpiredLeaseRecoveryRequest.queue request); simpl.
  - pose proof (recover_loop_ind (fun m => store_wf (State.set_records s m))
      (MemDispatch.recover_execution request) (MemDispatch.expired_execution_ids request s)
      (State.records s) ExpiredLeaseRecoverySummary.default) as Hrec.
    destruct (MemDispatch.recover_loop _ _ _ _) as [m sm]; simpl in *. apply Hrec; [|by destruct s].
    intros m' i e sm' Hm' He. unfold MemDispatch.recover_execution.
    case_match; refine (wf_put_released (State.set_records s m') i e _ Hm' He _); reflexivity.
  - pose proof (recover_loop_ind (fun m => store_wf (State.set_outbox s m))
      (MemDispatch.recover_outbox request) (MemDispatch.expired_outbox_ids request s)
      (State.outbox s) ExpiredLeaseRecoverySummary.default) as Hrec.
    destruct (MemDispatch.recover_loop _ _ _ _) as [m sm]; simpl in *. apply Hrec; [|by destruct s].
    intros m' i e sm' Hm' He. unfold MemDispatch.recover_outbox.
    case_match; refine (wf_put_message_released (State.set_outbox s m') i e _ _ _ _ _ Hm' He _ _);
      done.
Qed.

Lemma wf_record_heartbeat h ctx : keeps (MemDispatch.record_heartbeat h ctx).
Proof.
  intros s Hwf. unfold MemDispatch.record_heartbeat, op_bind, op_lift.
  destruct (WorkerHeartbeat.validate h ctx) as [[]|] eqn:Hv; simpl; [|done].
  apply heartbeat_validate_ok in Hv. split; simpl; try apply Hwf.
  intros k h' [[<- <-]|[_ Hk]]%lookup_insert_Some; [done|by apply (wf_heartbeat s Hwf)].
Qed.

(** ** The steps of a store

    One step is one call of a method that writes, whatever it returns. *)

Inductive StoreCall :=
| CallAppend (r : ExecutionRecord.t) (ctx : ExecutionContext.t)
| CallUpdate (r : ExecutionRecord.t) (ctx : ExecutionContext.t)
| CallAppendOutbox (m : OutboxMessage.t) (ctx : ExecutionContext.t)
| CallClaim (env : Env) (request : DispatchClaimRequest.t) (ctx : ExecutionContext.t)
| CallRenew (renewal : DispatchLeaseRenewal.t) (ctx : ExecutionContext.t)
| CallFinalize (resolution : DispatchResolution.t) (ctx : ExecutionContext.t)
| CallRecover (request : ExpiredLeaseRecoveryRequest.t) (ctx : ExecutionContext.t)
| CallHeartbeat (h : WorkerHeartbeat.t) (ctx : ExecutionContext.t).

(** The state a call leaves. *)
Definition run_call (s : State.t) (c : StoreCall) : State.t :=
  match c with
  | CallAppend r ctx => (Store.append r ctx s).2
  | CallUpdate r ctx => (Store.update r ctx s).2
  | CallAppendOutbox m ctx => (Store.append_outbox m ctx s).2
  | CallClaim env request ctx => (MemDispatch.claim_due (env:=env) request ctx s).2
  | CallRenew renewal ctx => (MemDispatch.renew_claim renewal ctx s).2
  | CallFinalize resolution ctx => (MemDispatch.finalize resolution ctx s).2
  | CallRecover request ctx => (MemDispatch.recover_expired_leases request ctx s).2
  | CallHeartbeat h ctx => (MemDispatch.record_heartbeat h ctx s).2
  end.

Definition run_calls : State.t → list StoreCall → State.t := foldl run_call.

Inductive store_step : State.t → State.t → Prop :=
| step_call s c : store_step s (run_call s c).

Definition reachable (s : State.t) : Prop := rtc store_step State.default s.

#[local] Hint Resolve wf_append wf_update wf_append_outbox wf_claim_execution wf_claim_message
  wf_renew_execution wf_renew_outbox wf_recover wf_record_heartbeat wf_acknowledge_completion
  wf_retry_execution wf_dead_letter_execution wf_acknowledge_delivery wf_retry_delivery
  wf_dead_letter_delivery wf_for_each : op_db.

Lemma wf_claim_due {env : Env} request ctx : keeps (MemDispatch.claim_due request ctx).
Proof.
  unfold MemDispatch.claim_due, Store.require_queue_supported, Store.claim_available,
    Store.lease_available, MemDispatch.convert.
  apply preserves_bind; [case_match; auto with op_db|intros _].
  case_match; (apply preserves_bind; [auto with op_db|intros x]);
    apply preserves_map, preserves_bind; try (intros s Hs; exact Hs); intros s0; auto with op_db.
Qed.

Lemma wf_renew_claim renewal ctx : keeps (MemDispatch.renew_claim renewal ctx).
Proof. destruct renewal; apply preserves_map; auto with op_db. Qed.

Lemma wf_finalize resolution ctx : keeps (MemDispatch.finalize resolution ctx).
Proof. destruct resolution; simpl; auto with op_db. Qed.

#[local] Hint Resolve wf_claim_due wf_renew_claim wf_finalize : op_db.

Lemma wf_run_call s c : store_wf s → store_wf (run_call s c).
Proof.
  intros Hwf. destruct c; [apply wf_append|apply wf_update|apply wf_append_outbox|
    apply wf_claim_due|apply wf_renew_claim|apply wf_finalize|apply wf_recover|
    apply wf_record_heartbeat]; done.
Qed.

Lemma wf_run_calls s cs : store_wf s → store_wf (run_calls s cs).
Proof. revert s. induction cs as [|c cs IH]; intros s Hwf; [done|]. by apply IH, wf_run_call. Qed.

Lemma run_calls_steps s cs : rtc store_step s (run_calls s cs).
Proof.
  revert s. induction cs as [|c cs IH]; intros s; [apply rtc_refl|].
  eapply rtc_l; [apply (step_call s c)|apply IH].
Qed.

(** C1: every state the in-memory store can reach, by any calls in any order and
    whatever they return, is well formed: entries sit under their own id, a
    leased execution is in flight, an outbox message is leased exactly when it is
    in flight, every lease id was issued by the store and, until the 64-bit
    counter saturates, is held at most once; heartbeats are valid. *)
Theorem reachable_wf s : reachable s → store_wf s.
Proof.
  unfold reachable. generalize wf_default. generalize State.default. intros s0 Hwf Hr.
  induction Hr as [s0|s0 s1 s2 Hstep _ IH]; [done|].
  destruct Hstep as [s0 c]. by apply IH, wf_run_call.
Qed.

Lemma reachable_wf_witness :
  let m := OutboxMessage.new (Id.MkId "msg_1") "thread" "thread_1" (Id.MkId "exec_1")
             (OutboxEnvelope.new "agent_bus" "thread_1" "{}") 0 in
  let env := {| env_gen := Id.MkId "corr_1"; env_clock := 0%Z |} in
  let ctx := ExecutionContext.new (Id.MkId "corr_1") 0 in
  let s := run_calls State.default
    [CallAppendOutbox m ctx;
     CallClaim env (DispatchClaimRequest.new OutboxQueue "worker" 1 10%N 5) ctx] in
  lease_at s (inr (Id.MkId "msg_1")) = Some (Id.MkId "lease_exec_mem_1") ∧ store_wf s.
Proof.
  intros m env ctx s. split; [vm_compute; reflexivity|].
  apply (reachable_wf s), run_calls_steps.
Defined.
