(* ===== verification/MemorySelect.v ===== *)
(** * What the in-memory store selects, and a small store to evaluate it at

    The small store: two executions and one message are queued; a worker claims the first
    execution at time 5 for 10; its lease expires after 15 and a second worker
    may take it over.

    Selection returns the earliest due entries, whatever order the hash map
    iterates in; a claim hands out exactly the selected entries. *)

From S2P Require Import Prelude RustStd Ids Errors CurrentState Execution Outbox Transactional Inspection Workers Dispatch Stores Memory MemoryStore MemoryDispatch MemoryInv.

Definition demo_ctx : ExecutionContext.t := ExecutionContext.new (Id.MkId "corr_1") 0.
Definition demo_env : Env := {| env_gen := Id.MkId "corr_gen"; env_clock := 0%Z |}.

Definition demo_record (id : string) (at_ : SystemTime) : ExecutionRecord.t :=
  ExecutionRecord.new (Id.MkId id) "billing.charge" "account/1" (Id.MkId "key_1")
    (Id.MkId "corr_1") at_ at_.

Definition demo_message : OutboxMessage.t :=
  OutboxMessage.new (Id.MkId "msg_1") "thread" "thread_1" (Id.MkId "exec_1")
    (OutboxEnvelope.new "agent_bus" "thread_1" "{}") 0.

Definition demo_queued : State.t := run_calls State.default
  [CallAppend (demo_record "exec_1" 0) demo_ctx; CallAppend (demo_record "exec_2" 3) demo_ctx;
   CallAppendOutbox demo_message demo_ctx].

Definition demo_request (queue : DispatchQueue) (worker : string) (now : SystemTime) : DispatchClaimRequest.t :=
  DispatchClaimRequest.new queue worker 1 10 now.

(** What the claims below hand out. *)
Definition demo_lease (worker : string) (k : N) (now : SystemTime) : ExecutionLease.t :=
  ExecutionLease.from_now (Id.MkId (State.lease_name k)) worker 10 now.

Definition demo_claim : ClaimedExecution.t :=
  ClaimedExecution.mk (ExecutionRecord.mark_claimed (demo_record "exec_1" 0) 5) (demo_lease "worker_a" 1 5).

Definition demo_claimed : State.t :=
  run_calls demo_queued [CallClaim demo_env (demo_request ExecutionQueue "worker_a" 5) demo_ctx].

Definition demo_reclaim : ClaimedExecution.t :=
  ClaimedExecution.mk
    (ExecutionRecord.mark_claimed
       (ExecutionRecord.with_status (ClaimedExecution.record demo_claim) ExecutionRecordStatus.Pending) 20)
    (demo_lease "worker_b" 2 20).

Definition demo_reclaimed : State.t :=
  run_calls demo_claimed [CallClaim demo_env (demo_request ExecutionQueue "worker_b" 20) demo_ctx].

Lemma demo_queued_wf : store_wf demo_queued.
Proof. apply wf_run_calls, wf_default. Qed.

Lemma demo_claimed_wf : store_wf demo_claimed.
Proof. apply wf_run_calls, demo_queued_wf. Qed.

Lemma demo_claim_runs :
  MemDispatch.claim_due (env:=demo_env) (demo_request ExecutionQueue "worker_a" 5) demo_ctx demo_queued =
  (Ok [ClaimedDispatchWork.Execution demo_claim], demo_claimed).
Proof. vm_compute. reflexivity. Qed.

Lemma demo_reclaim_runs :
  MemDispatch.claim_due (env:=demo_env) (demo_request ExecutionQueue "worker_b" 20) demo_ctx demo_claimed =
  (Ok [ClaimedDispatchWork.Execution demo_reclaim], demo_reclaimed).
Proof. vm_compute. reflexivity. Qed.

Lemma demo_held :
  State.records demo_claimed !! (Id.MkId "exec_1" : ExecutionId) =
  Some (StoredExecution.mk (ClaimedExecution.record demo_claim) (Some (ClaimedExecution.lease demo_claim))).
Proof. vm_compute. reflexivity. Qed.

Lemma demo_queued_entries i e :
  State.records demo_queued !! i = Some e →
  e = StoredExecution.mk (demo_record "exec_1" 0) None ∨ e = StoredExecution.mk (demo_record "exec_2" 3) None.
Proof.
  intros He%elem_of_map_to_list.
  assert (Hl : map_to_list (State.records demo_queued) =
    [(Id.MkId "exec_2", StoredExecution.mk (demo_record "exec_2" 3) None);
     (Id.MkId "exec_1", StoredExecution.mk (demo_record "exec_1" 0) None)] ∨
   map_to_list (State.records demo_queued) =
    [(Id.MkId "exec_1", StoredExecution.mk (demo_record "exec_1" 0) None);
     (Id.MkId "exec_2", StoredExecution.mk (demo_record "exec_2" 3) None)])
    by (vm_compute; auto).
  destruct Hl as [Hl|Hl]; rewrite Hl in He;
    apply list_elem_of_In in He as [[= _ <-]|[[= _ <-]|[]]]; auto.
Qed.

(** * What the in-memory store selects and claims *)

(** ** The common shape: filter, convert, sort, truncate *)

Lemma elem_of_due {A} (due : A → bool) e (entries : list A) :
  e ∈ filter (fun e => due e) entries ↔ e ∈ entries ∧ due e = true.
Proof. rewrite list_elem_of_filter, Is_true_true. by rewrite (comm and). Qed.

Section selection.
  Context {A B K : Type} `{Ord K} (due : A → bool) (mat : A → B) (key : B → K).

Definition selection (limit : N) (entries : list A) : list B :=
  truncate limit (sort_by_key key (mat <$> filter (fun e => due e) entries)).

(** What a selection promises of a collection of entries. *)
Record selects (limit : N) (entries : list A) (out : list B) : Prop := {
  selects_sorted : StronglySorted (key_le key) out;
  selects_length : len out = N.min limit (len (filter (fun e => due e) entries));
  selects_due : ∀ x, x ∈ out → ∃ e, e ∈ entries ∧ due e = true ∧ x = mat e;
  selects_least : ∀ e, e ∈ entries → due e = true → mat e ∉ out →
    ∀ x, x ∈ out → ord_le (key x) (key (mat e));
}.

Lemma selection_selects limit entries : selects limit entries (selection limit entries).
Proof.
  unfold selection. split.
  - rewrite truncate_take. pose proof (sort_by_key_sorted key (mat <$> filter (fun e => due e) entries)) as Hs.
    rewrite <- (take_drop (N.to_nat limit) (sort_by_key _ _)) in Hs.
    by apply StronglySorted_app_1_l in Hs.
  - rewrite length_truncate. f_equal. unfold len. by rewrite length_sort_by_key, length_fmap.
  - intros x Hx%elem_of_truncate. apply elem_of_sort_by_key, list_elem_of_fmap in Hx as (e & -> & He).
    exists e. by apply elem_of_due in He as [? ?].
  - intros e He Hd Hn x Hx. eapply truncate_sort_least; [done| |done].
    apply list_elem_of_fmap_2, elem_of_due. done.
Qed.

(** Where a due entry is left out, the limit is reached. *)
Lemma selection_full limit entries e :
  e ∈ entries → due e = true → mat e ∉ selection limit entries → len (selection limit entries) = limit.
Proof.
  intros He Hd Hn. rewrite (selects_length _ _ _ (selection_selects limit entries)). apply N.min_l.
  destruct (N.le_gt_cases limit (len (filter (fun e => due e) entries))) as [|Hlt]; [done|]. destruct Hn. unfold selection.
  rewrite truncate_take, take_ge.
  - apply elem_of_sort_by_key, list_elem_of_fmap_2, elem_of_due. done.
  - unfold len in Hlt. rewrite length_sort_by_key, length_fmap. lia.
Qed.

(** Entries with different keys are selected in one way only. *)
Lemma selection_perm limit entries entries' :
  entries ≡ₚ entries' →
  (∀ e e', e ∈ entries → e' ∈ entries → key (mat e) = key (mat e') → e = e') →
  selection limit entries = selection limit entries'.
Proof.
  intros Hp Hinj. unfold selection. f_equal. apply sort_by_key_order_independent.
  - by rewrite Hp.
  - intros x y Hx Hy Hk. apply list_elem_of_fmap in Hx as (e & -> & [He _]%elem_of_due).
    apply list_elem_of_fmap in Hy as (e' & -> & [He' _]%elem_of_due). f_equal. by apply Hinj.
Qed.

(** Different entries are selected once each. *)
Lemma selection_NoDup {I} limit entries (idA : A → I) (idB : B → I) :
  (∀ e, idB (mat e) = idA e) → NoDup (idA <$> entries) → NoDup (idB <$> selection limit entries).
Proof.
  intros Hid Hnd. unfold selection. rewrite <- truncate_fmap. apply NoDup_truncate.
  rewrite sort_by_key_perm, <- list_fmap_compose.
  apply (sublist_NoDup _ (idA <$> entries)); [done|].
  replace (idB ∘ mat <$> filter (fun e => due e) entries)
    with (idA <$> filter (fun e => due e) entries) by (apply list_fmap_ext; intros; by symmetry; apply Hid).
  apply fmap_sublist, sublist_filter.
Qed.
End selection.

(** ** The two queues *)

Lemma selectable_due_records_selection s r :
  State.selectable_due_records s r =
  selection (fun e => StoredExecution.is_due_at e (DueExecutionRequest.due_before r)
                        (DueExecutionRequest.include_expired_leases r))
    (fun e => StoredExecution.materialize_due_record e (DueExecutionRequest.due_before r))
    State.record_key (DueExecutionRequest.limit r) (values (State.records s)).
Proof. done. Qed.

Lemma selectable_due_messages_selection s r :
  State.selectable_due_messages s r =
  selection (fun e => StoredOutboxMessage.is_due_at e (DueOutboxMessageRequest.due_before r)
                        (DueOutboxMessageRequest.include_expired_leases r))
    StoredOutboxMessage.message
    State.message_key (DueOutboxMessageRequest.limit r) (values (State.outbox s)).
Proof. done. Qed.

(** Under the invariant an entry is known by its id. *)
Lemma record_entry_inj s e e' :
  store_wf s → e ∈ values (State.records s) → e' ∈ values (State.records s) →
  ExecutionRecord.id (StoredExecution.record e) = ExecutionRecord.id (StoredExecution.record e') →
  e = e'.
Proof.
  intros Hwf [i He]%elem_of_values [j He']%elem_of_values.
  rewrite (wf_record_key s Hwf i e He), (wf_record_key s Hwf j e' He'). naive_solver.
Qed.

Lemma outbox_entry_inj s e e' :
  store_wf s → e ∈ values (State.outbox s) → e' ∈ values (State.outbox s) →
  OutboxMessage.id (StoredOutboxMessage.message e) = OutboxMessage.id (StoredOutboxMessage.message e') →
  e = e'.
Proof.
  intros Hwf [i He]%elem_of_values [j He']%elem_of_values.
  rewrite (wf_outbox_key s Hwf i e He), (wf_outbox_key s Hwf j e' He'). naive_solver.
Qed.

(** [select_due] on the execution queue returns, in the order (available_at,
    recorded_at, id), the earliest due records and as many as the limit allows;
    each is a due entry of the store as the worker may see it, and the result is
    the same for every iteration order of the hash map. *)
Theorem select_due_executions_spec s r ctx :
  store_wf s →
  ∃ out, Store.select_due_executions r ctx s = (Ok out, s) ∧
    selects (fun e => StoredExecution.is_due_at e (DueExecutionRequest.due_before r)
                        (DueExecutionRequest.include_expired_leases r))
      (fun e => StoredExecution.materialize_due_record e (DueExecutionRequest.due_before r))
      State.record_key (DueExecutionRequest.limit r) (values (State.records s)) out ∧
    ∀ entries, entries ≡ₚ values (State.records s) →
      out = selection (fun e => StoredExecution.is_due_at e (DueExecutionRequest.due_before r)
                        (DueExecutionRequest.include_expired_leases r))
              (fun e => StoredExecution.materialize_due_record e (DueExecutionRequest.due_before r))
              State.record_key (DueExecutionRequest.limit r) entries.
Proof.
  intros Hwf. eexists. split; [reflexivity|]. rewrite selectable_due_records_selection.
  split; [apply selection_selects|]. intros entries Hp. apply selection_perm; [done|].
  intros e e' He He' [= _ _ Hid]. rewrite !materialize_id in Hid. by eapply record_entry_inj.
Qed.

Lemma select_due_executions_spec_witness :
  store_wf demo_queued ∧
  ∃ out, Store.select_due_executions (DueExecutionRequest.new 1 4) demo_ctx demo_queued = (Ok out, demo_queued) ∧
    out = [demo_record "exec_1" 0].
Proof.
  split; [apply demo_queued_wf|].
  destruct (select_due_executions_spec demo_queued (DueExecutionRequest.new 1 4) demo_ctx demo_queued_wf)
    as (out & Hout & _).
  exists out. split; [exact Hout|]. revert Hout. vm_compute. congruence.
Defined.

(** The same for the outbox queue, in the order (available_at,
    last_attempted_at, id). *)
Theorem select_due_messages_spec s r ctx :
  store_wf s →
  ∃ out, Store.select_due_messages r ctx s = (Ok out, s) ∧
    selects (fun e => StoredOutboxMessage.is_due_at e (DueOutboxMessageRequest.due_before r)
                        (DueOutboxMessageRequest.include_expired_leases r))
      StoredOutboxMessage.message
      State.message_key (DueOutboxMessageRequest.limit r) (values (State.outbox s)) out ∧
    ∀ entries, entries ≡ₚ values (State.outbox s) →
      out = selection (fun e => StoredOutboxMessage.is_due_at e (DueOutboxMessageRequest.due_before r)
                        (DueOutboxMessageRequest.include_expired_leases r))
              StoredOutboxMessage.message State.message_key (DueOutboxMessageRequest.limit r) entries.
Proof.
  intros Hwf. eexists. split; [reflexivity|]. rewrite selectable_due_messages_selection.
  split; [apply selection_selects|]. intros entries Hp. apply selection_perm; [done|].
  intros e e' He He' [= _ _ Hid]. by eapply outbox_entry_inj.
Qed.

Lemma select_due_messages_spec_witness :
  store_wf demo_queued ∧
  ∃ out, Store.select_due_messages (DueOutboxMessageRequest.new 7 4) demo_ctx demo_queued = (Ok out, demo_queued) ∧
    out = [demo_message].
Proof.
  split; [apply demo_queued_wf|].
  destruct (select_due_messages_spec demo_queued (DueOutboxMessageRequest.new 7 4) demo_ctx demo_queued_wf)
    as (out & Hout & _).
  exists out. split; [exact Hout|]. revert Hout. vm_compute. congruence.
Defined.
