(* ===== verification/MemoryClaim.v ===== *)
(** * Claiming execution work from the in-memory store

    A claim leases exactly what selection returns, in the same order, and the
    store holds exactly what was handed out. *)

From S2P Require Import Prelude RustStd Ids Errors CurrentState Execution Outbox.
From S2P Require Import Transactional Inspection Workers Dispatch Stores Memory MemoryStore MemoryDispatch.
From S2P Require Import MemoryInv MemorySelect.

(** ** The claim loop *)

Lemma for_each_preserves {A B} (I : State.t → Prop) (f : A → StoreOp B) l :
  (∀ x, x ∈ l → preserves I (f x)) → preserves I (Store.for_each f l).
Proof.
  induction l as [|x l IH]; intros Hf; simpl; [apply preserves_ret|].
  apply preserves_bind; [apply Hf; by left|intros y].
  apply preserves_bind; [apply IH; intros z Hz; apply Hf; by right|intros ys; apply preserves_ret].
Qed.

(** How claim [c] for id [i] relates the states before and after. *)
Record claimed_as (request : ExecutionLeaseRequest.t) (s s' : State.t) (i : ExecutionId)
    (c : ClaimedExecution.t) : Prop := {
  claimed_entry : ∃ e, State.records s !! i = Some e ∧
    ClaimedExecution.record c =
      ExecutionRecord.mark_claimed
        (StoredExecution.materialize_due_record e (ExecutionLeaseRequest.now request))
        (ExecutionLeaseRequest.now request);
  claimed_lease : ∃ k, ClaimedExecution.lease c =
    ExecutionLease.from_now (Id.MkId (State.lease_name k)) (ExecutionLeaseRequest.leased_by request)
      (ExecutionLeaseRequest.lease_ttl request) (ExecutionLeaseRequest.now request) ∧
    (State.next_lease_sequence s < k ∨ k = u64_max)%N;
  claimed_stored :
    State.records s' !! i = Some (StoredExecution.mk (ClaimedExecution.record c) (Some (ClaimedExecution.lease c)));
}.

Lemma claim_execution_claimed_as request ctx i s c s' :
  Store.claim_execution request ctx i s = (Ok c, s') →
  claimed_as request s s' i c ∧ (∀ j, j ≠ i → State.records s' !! j = State.records s !! j) ∧
  State.outbox s' = State.outbox s ∧ State.heartbeats s' = State.heartbeats s ∧
  State.next_lease_sequence s' = saturating_add_u64 (State.next_lease_sequence s) 1.
Proof.
  intros (e & He & Hc)%claim_execution_step. rewrite next_lease_id_eq in Hc. destruct Hc as [Hc ->].
  apply claim_execution_ok in Hc as (_ & _ & _ & ->). simpl. split_and!; try done.
  - split; simpl.
    + by exists e.
    + eexists. split; [done|]. unfold saturating_add_u64, u64_max. lia.
    + by rewrite lookup_insert_eq.
  - intros j Hj. by rewrite lookup_insert_ne.
Qed.

Lemma claim_execution_frame request ctx i j s :
  j ≠ i → State.records (Store.claim_execution request ctx i s).2 !! j = State.records s !! j.
Proof.
  intros Hj. destruct (Store.claim_execution request ctx i s) as [[c|e] s'] eqn:Hc; simpl.
  - by apply claim_execution_claimed_as in Hc as (_ & Hf & _); apply Hf.
  - apply claim_execution_err in Hc as ->. by rewrite next_lease_id_eq.
Qed.

(** Ids not in the batch are left alone, whether the loop succeeds or stops. *)
Lemma claim_loop_frame request ctx ids j s :
  j ∉ ids →
  State.records (Store.for_each (Store.claim_execution request ctx) ids s).2 !! j = State.records s !! j.
Proof.
  intros Hj. apply (for_each_preserves (fun s' => State.records s' !! j = State.records s !! j)); [|done].
  intros i Hi s' Hs'. rewrite claim_execution_frame; [done|]. by intros ->.
Qed.

Lemma claim_loop_outbox request ctx ids s :
  State.outbox (Store.for_each (Store.claim_execution request ctx) ids s).2 = State.outbox s.
Proof.
  apply (for_each_preserves (fun s' => State.outbox s' = State.outbox s)); [|done].
  intros i Hi s' <-. destruct (Store.claim_execution request ctx i s') as [[c|e] s''] eqn:Hc; simpl.
  - by apply claim_execution_claimed_as in Hc as (_ & _ & ? & _).
  - apply claim_execution_err in Hc as ->. by rewrite next_lease_id_eq.
Qed.

Lemma for_each_cons_ok {S E A B} (f : A → Op S E B) x l s bs s' :
  Store.for_each f (x :: l) s = (Ok bs, s') →
  ∃ b s1 bs', f x s = (Ok b, s1) ∧ Store.for_each f l s1 = (Ok bs', s') ∧ bs = b :: bs'.
Proof.
  simpl. intros (b & s1 & Hb & (bs' & s2 & Hbs & Hret)%op_bind_ok)%op_bind_ok.
  unfold op_ret in Hret. simplify_eq. eauto 10.
Qed.

Lemma claim_loop_claimed request ctx ids s claimed s' :
  (State.next_lease_sequence s ≤ u64_max)%N → NoDup ids →
  Store.for_each (Store.claim_execution request ctx) ids s = (Ok claimed, s') →
  Forall2 (claimed_as request s s') ids claimed.
Proof.
  revert s claimed. induction ids as [|i ids IH]; intros s claimed Hseq Hnd.
  { simpl. unfold op_ret. intros [= <- _]. constructor. }
  apply NoDup_cons in Hnd as [Hi Hnd].
  intros (c & s1 & cs & Hc & Hcs & ->)%for_each_cons_ok.
  pose proof (claim_loop_frame request ctx ids i s1 Hi) as Hfr. rewrite Hcs in Hfr; simpl in Hfr.
  apply claim_execution_claimed_as in Hc as ([He Hl Hst] & Hf & Hob & _ & Hs1).
  assert (Hseq1 : (State.next_lease_sequence s ≤ State.next_lease_sequence s1 ≤ u64_max)%N)
    by (rewrite Hs1; unfold saturating_add_u64; lia).
  constructor; [split; [done|done|by rewrite Hfr]|].
  specialize (IH s1 cs (proj2 Hseq1) Hnd Hcs). rewrite Forall2_same_length_lookup in IH |- *.
  destruct IH as [Hlen IH]. split; [done|].
  intros n j c' Hj Hc'. destruct (IH n j c' Hj Hc') as [(e' & He' & Hr') (k & Hl' & Hk) Hst'].
  assert (Hji : j ≠ i) by (intros ->; by apply Hi; eapply list_elem_of_lookup_2).
  split; [|exists k; split; [done|lia]|done].
  exists e'. by rewrite <- (Hf j Hji).
Qed.

(** ** When the whole batch can be claimed *)

(** A due entry that [ClaimedExecution::claim] accepts: only a record that is in
    flight without a lease is due and cannot be claimed. *)
Definition claimable (e : StoredExecution.t) (now : SystemTime) : Prop :=
  StoredExecution.is_due_at e now true = true ∧
  (ExecutionRecord.status (StoredExecution.record e) = ExecutionRecordStatus.InFlight →
   is_Some (StoredExecution.lease e)).

Lemma due_claimable e now lease :
  claimable e now → is_blank (ExecutionLease.leased_by lease) = false →
  ExecutionLease.leased_at lease = now →
  ClaimedExecution.claim (StoredExecution.materialize_due_record e now) lease =
  Ok (ClaimedExecution.mk
        (ExecutionRecord.mark_claimed (StoredExecution.materialize_due_record e now) now) lease).
Proof.
  intros [Hd Ho] Hb Hat. apply claim_execution_ok. rewrite Hat. split_and!; [done| | |done].
  - unfold StoredExecution.is_due_at, StoredExecution.materialize_due_record in *.
    repeat case_match; simpl; try done; lia.
  - unfold StoredExecution.is_due_at, StoredExecution.materialize_due_record, ExecutionRecordStatus.eqb in *.
    destruct (ExecutionRecord.status (StoredExecution.record e)) eqn:Hst; try done;
      destruct (StoredExecution.lease e) as [l|] eqn:Hl; simpl; auto;
      try (destruct (ExecutionLease.is_expired_at l now); simpl; auto).
    + by case_match.
    + by destruct (Ho eq_refl).
Qed.

Lemma claim_loop_total request ctx ids s :
  is_blank (ExecutionLeaseRequest.leased_by request) = false → NoDup ids →
  (∀ i, i ∈ ids → ∃ e, State.records s !! i = Some e ∧ claimable e (ExecutionLeaseRequest.now request)) →
  ∃ claimed s', Store.for_each (Store.claim_execution request ctx) ids s = (Ok claimed, s').
Proof.
  intros Hb. revert s. induction ids as [|i ids IH]; intros s Hnd Hids; [by eexists _, _|].
  apply NoDup_cons in Hnd as [Hi Hnd].
  destruct (Hids i) as (e & He & Hcl); [by left|].
  assert (∃ c s1, Store.claim_execution request ctx i s = (Ok c, s1)) as (c & s1 & Hc).
  { eexists _, _. apply claim_execution_step. exists e. split; [done|].
    rewrite next_lease_id_eq. split; [by apply due_claimable|done]. }
  destruct (IH s1 Hnd) as (cs & s' & Hcs).
  { intros j Hj. destruct (Hids j) as (e' & He' & ?); [by right|]. exists e'. split; [|done].
    apply claim_execution_claimed_as in Hc as (_ & Hf & _). rewrite Hf; [done|]. by intros ->. }
  exists (c :: cs), s'. simpl. unfold op_bind. by rewrite Hc, Hcs.
Qed.

(** ** The ids of a claim *)

Definition claim_selection (request : ExecutionLeaseRequest.t) : DueExecutionRequest.t :=
  DueExecutionRequest.mk (ExecutionLeaseRequest.now request)
    (N.max (ExecutionLeaseRequest.batch_size request) 1) true.

Lemma find_claimable_ids_eq clock s request :
  State.find_claimable_ids clock s request =
  ExecutionRecord.id <$> State.selectable_due_records s (claim_selection request).
Proof. done. Qed.

Lemma claimable_ids_NoDup clock s request :
  store_wf s → NoDup (State.find_claimable_ids clock s request).
Proof.
  intros Hwf. rewrite find_claimable_ids_eq, selectable_due_records_selection.
  apply (selection_NoDup _ _ _ _ _ (fun e => ExecutionRecord.id (StoredExecution.record e))).
  - intros e. apply materialize_id.
  - apply values_keyed_NoDup. apply (wf_record_key s Hwf).
Qed.

Lemma claimable_ids_due clock s request i :
  store_wf s → i ∈ State.find_claimable_ids clock s request →
  ∃ e, State.records s !! i = Some e ∧
    StoredExecution.is_due_at e (ExecutionLeaseRequest.now request) true = true.
Proof.
  intros Hwf. rewrite find_claimable_ids_eq, selectable_due_records_selection.
  intros (r & -> & Hr)%list_elem_of_fmap.
  destruct (selects_due _ _ _ _ _ _ (selection_selects _ _ _ _ _) r Hr) as (e & He & Hd & ->).
  exists e. simpl in Hd. split; [|done]. rewrite materialize_id.
  apply elem_of_values in He as [j Hj]. by rewrite (wf_record_key s Hwf j e Hj).
Qed.

(** An entry under a lease that has not expired is not due. *)
Lemma leased_not_due e l now include :
  StoredExecution.lease e = Some l → (now ≤ ExecutionLease.lease_expires_at l)%Z →
  StoredExecution.is_due_at e now include = false.
Proof.
  intros Hl Hnow. unfold StoredExecution.is_due_at. rewrite Hl.
  unfold ExecutionLease.is_expired_at.
  replace (ExecutionLease.lease_expires_at l <? now)%Z with false by (symmetry; apply Z.ltb_ge; lia).
  by repeat case_match.
Qed.

(** ** What a claim is to hand out *)

(** Work that is ready at [now]: it is not finished, its time has come, and no lease that
    still lasts holds it. *)
Record ready (e : StoredExecution.t) (now : SystemTime) : Prop := {
  ready_open : ExecutionRecord.status (StoredExecution.record e) ≠ ExecutionRecordStatus.Succeeded ∧
               ExecutionRecord.status (StoredExecution.record e) ≠ ExecutionRecordStatus.DeadLettered;
  ready_time : (ExecutionRecord.available_at (StoredExecution.record e) <= now)%Z;
  ready_free : ∀ l, StoredExecution.lease e = Some l → (ExecutionLease.lease_expires_at l < now)%Z;
}.

(** The earlier available goes first, then the earlier recorded, then the smaller id. *)
Definition goes_before (a b : ExecutionRecord.t) : Prop :=
  (ExecutionRecord.available_at a < ExecutionRecord.available_at b)%Z ∨
  ExecutionRecord.available_at a = ExecutionRecord.available_at b ∧
  ((ExecutionRecord.recorded_at a < ExecutionRecord.recorded_at b)%Z ∨
   ExecutionRecord.recorded_at a = ExecutionRecord.recorded_at b ∧
   String.ltb (Id.as_str (ExecutionRecord.id a)) (Id.as_str (ExecutionRecord.id b)) = true).

(** A claim: ready work, now in flight and a revision on, under a new lease of the worker's
    that lasts its time; and the store holds just that. *)
Record hands_out (request : ExecutionLeaseRequest.t) (s s' : State.t) (c : ClaimedExecution.t) : Prop := {
  handed_entry : ∃ e, let r := StoredExecution.record e in
    State.records s !! ExecutionRecord.id (ClaimedExecution.record c) = Some e ∧
    ready e (ExecutionLeaseRequest.now request) ∧
    ClaimedExecution.record c = {|
      ExecutionRecord.id := ExecutionRecord.id r;
      ExecutionRecord.operation := ExecutionRecord.operation r;
      ExecutionRecord.target := ExecutionRecord.target r;
      ExecutionRecord.idempotency_key := ExecutionRecord.idempotency_key r;
      ExecutionRecord.correlation_id := ExecutionRecord.correlation_id r;
      ExecutionRecord.status := ExecutionRecordStatus.InFlight;
      ExecutionRecord.attempt := ExecutionRecord.attempt r;
      ExecutionRecord.recorded_at := ExecutionRecord.recorded_at r;
      ExecutionRecord.available_at := ExecutionRecord.available_at r;
      ExecutionRecord.last_attempted_at := Some (ExecutionLeaseRequest.now request);
      ExecutionRecord.finished_at := None;
      ExecutionRecord.last_error := None;
      ExecutionRecord.revision := RevisionToken.next (ExecutionRecord.revision r);
    |};
  handed_lease : ∃ k, (State.next_lease_sequence s < k ∨ k = u64_max)%N ∧
    ExecutionLease.lease_id (ClaimedExecution.lease c) = Id.MkId (State.lease_name k) ∧
    ExecutionLease.leased_by (ClaimedExecution.lease c) = ExecutionLeaseRequest.leased_by request ∧
    ExecutionLease.leased_at (ClaimedExecution.lease c) = ExecutionLeaseRequest.now request ∧
    let expires := (ExecutionLeaseRequest.now request + Z.of_N (ExecutionLeaseRequest.lease_ttl request))%Z in
    (expires <= SystemTime_max)%Z → ExecutionLease.lease_expires_at (ClaimedExecution.lease c) = expires;
  handed_stored : State.records s' !! ExecutionRecord.id (ClaimedExecution.record c)
    = Some (StoredExecution.mk (ClaimedExecution.record c) (Some (ClaimedExecution.lease c)));
}.

Lemma is_due_ready e now : StoredExecution.is_due_at e now true = true ↔ ready e now.
Proof.
  unfold StoredExecution.is_due_at, ExecutionLease.is_expired_at. split.
  - intros Hd. destruct (ExecutionRecord.status (StoredExecution.record e)) eqn:Hs; try done;
      (destruct (Z.ltb_spec now (ExecutionRecord.available_at (StoredExecution.record e))); [done|]);
      (split; [by rewrite Hs|lia|]); intros l Hl; rewrite Hl in Hd; by destruct (Z.ltb_spec (ExecutionLease.lease_expires_at l) now).
  - intros [[Ho Ho'] Ht Hf].
    assert (Hlease : match StoredExecution.lease e with
                     | None => true
                     | Some l => if (ExecutionLease.lease_expires_at l <? now)%Z then true else false
                     end = true).
    { destruct (StoredExecution.lease e) as [l|]; [|done]. specialize (Hf l eq_refl). by rewrite (proj2 (Z.ltb_lt _ _) Hf). }
    rewrite (proj2 (Z.ltb_ge _ _) Ht). by destruct (ExecutionRecord.status (StoredExecution.record e)).
Qed.

Lemma key_le_goes_before a b :
  ExecutionRecord.id a ≠ ExecutionRecord.id b → key_le State.record_key a b → goes_before a b.
Proof.
  unfold key_le, State.record_key, goes_before. cbn. unfold prod_ord_le. cbn. intros Hne [H1 H2].
  destruct (Z.lt_trichotomy (ExecutionRecord.available_at a) (ExecutionRecord.available_at b)) as [|[Heq|]]; [by left| |lia].
  right. split; [done|]. destruct H2 as [H2 H3]; [cbn; lia|]. cbn in H2, H3.
  destruct (Z.lt_trichotomy (ExecutionRecord.recorded_at a) (ExecutionRecord.recorded_at b)) as [|[Heq'|]]; [by left| |lia].
  right. split; [done|]. specialize (H3 ltac:(lia)). unfold String.le, String.leb, String.ltb in *.
  destruct (String.compare _ _) eqn:Hc; [|done|done]. apply String.compare_eq_iff in Hc. destruct Hne.
  destruct (ExecutionRecord.id a), (ExecutionRecord.id b). cbn in Hc. by f_equal.
Qed.

(** Records told apart by their ids. *)
Lemma sorted_goes_before l :
  NoDup (ExecutionRecord.id <$> l) → StronglySorted (key_le State.record_key) l → StronglySorted goes_before l.
Proof.
  induction 2 as [|r l Hs IH Hr]; [constructor|]. rewrite fmap_cons in H. apply NoDup_cons in H as [Hn Hnd].
  constructor; [by apply IH|]. rewrite Forall_forall in Hr |- *. intros x Hx. apply key_le_goes_before; [|by apply Hr].
  intros Heq. apply Hn. rewrite Heq. by apply list_elem_of_fmap_2.
Qed.

Lemma claim_loop_rest request ctx ids s claimed s' :
  Store.for_each (Store.claim_execution request ctx) ids s = (Ok claimed, s') →
  (State.next_lease_sequence s ≤ u64_max)%N →
  State.heartbeats s' = State.heartbeats s ∧
  State.next_lease_sequence s' = saturating_add_u64 (State.next_lease_sequence s) (len claimed).
Proof.
  revert s claimed. induction ids as [|i ids IH]; intros s claimed.
  { simpl. unfold op_ret, saturating_add_u64, len. intros [= <- <-] Hs. split; [done|]. simpl. lia. }
  intros (c & s1 & cs & Hc & Hcs & ->)%for_each_cons_ok Hs.
  apply claim_execution_claimed_as in Hc as (_ & _ & _ & Hh & Hq).
  destruct (IH s1 cs Hcs) as [-> ->]; [rewrite Hq; unfold saturating_add_u64; lia|].
  split; [done|]. rewrite Hq. unfold saturating_add_u64, len. simpl. lia.
Qed.

Lemma claimed_as_hands_out request s s' i c :
  store_wf s → claimed_as request s s' i c →
  (∀ e, State.records s !! i = Some e → ready e (ExecutionLeaseRequest.now request)) →
  ExecutionRecord.id (ClaimedExecution.record c) = i ∧ hands_out request s s' c.
Proof.
  intros Hwf [(e & He & Hr) (k & Hl & Hk) Hst] Hready.
  assert (Hm : ClaimedExecution.record c = ExecutionRecord.mark_claimed (StoredExecution.record e) (ExecutionLeaseRequest.now request)).
  { rewrite Hr. unfold StoredExecution.materialize_due_record. destruct (StoredExecution.lease e); [|done]. by case_match. }
  assert (Hid : ExecutionRecord.id (ClaimedExecution.record c) = i) by (rewrite Hm; exact (wf_record_key s Hwf i e He)).
  split; [done|]. split; rewrite ?Hid; [|rewrite Hl; cbn|done].
  - exists e. split; [done|]. split; [by apply Hready|]. rewrite Hm. reflexivity.
  - exists k. split; [done|]. split; [done|]. split; [done|]. split; [done|]. unfold add_or_now, checked_add. intros Hle.
    by rewrite (proj2 (Z.leb_le _ _) Hle).
Qed.

Lemma claim_selects request s :
  selects (fun e => StoredExecution.is_due_at e (ExecutionLeaseRequest.now request) true)
    (fun e => StoredExecution.materialize_due_record e (ExecutionLeaseRequest.now request)) State.record_key
    (N.max (ExecutionLeaseRequest.batch_size request) 1) (values (State.records s))
    (State.selectable_due_records s (claim_selection request)).
Proof. rewrite selectable_due_records_selection. apply selection_selects. Qed.

(** The records of a claim are those selected, in flight. *)
Lemma claimed_records clock request ctx s claimed s' :
  store_wf s → Store.for_each (Store.claim_execution request ctx) (State.find_claimable_ids clock s request) s = (Ok claimed, s') →
  (ClaimedExecution.record <$> claimed)
  = (fun r => ExecutionRecord.mark_claimed r (ExecutionLeaseRequest.now request)) <$> State.selectable_due_records s (claim_selection request).
Proof.
  intros Hwf Hc. pose proof (claimable_ids_NoDup clock s request Hwf) as Hnd.
  apply (claim_loop_claimed _ _ _ _ _ _ (wf_sequence s Hwf) Hnd) in Hc. rewrite find_claimable_ids_eq in Hc.
  pose proof (selects_due _ _ _ _ _ _ (claim_selects request s)) as Hsel.
  clear Hnd. revert claimed Hc Hsel. generalize (State.selectable_due_records s (claim_selection request)).
  intros l. induction l as [|r l IH]; intros claimed Hc Hsel; simpl in Hc; inversion Hc as [|? c ? cs Hca Hcs]; subst; [done|].
  rewrite !fmap_cons. f_equal; [|apply IH; [done|intros x Hx; apply Hsel; by right]].
  destruct Hca as [(e & He & Hr) _ _]. destruct (Hsel r ltac:(by left)) as (e' & He' & _ & Hm). apply elem_of_values in He' as [j Hj].
  rewrite Hm, materialize_id, (wf_record_key s Hwf j e' Hj), Hj in He. injection He as <-. by rewrite Hr, Hm.
Qed.

(** C26: A claim hands out exactly the earliest work.  When the worker has a name and no
    ready work is stored in flight without a lease, [claim_available] succeeds: it hands
    out ready work only, each in flight under a new lease of the worker's that expires
    [lease_ttl] after [now], as the store now holds it, the earliest first and at most the
    batch (one, if the batch is 0); what is ready and not handed out comes after everything
    that is, and then the batch is full.  Nothing else in the store changes but the lease
    counter, by one for each. *)
Theorem claim_available_exact clock request ctx s :
  store_wf s →
  is_blank (ExecutionLeaseRequest.leased_by request) = false →
  (∀ i e, State.records s !! i = Some e → ready e (ExecutionLeaseRequest.now request) →
     ExecutionRecord.status (StoredExecution.record e) = ExecutionRecordStatus.InFlight → StoredExecution.lease e ≠ None) →
  ∃ claimed s', Store.claim_available clock request ctx s = (Ok claimed, s') ∧
    let records := ClaimedExecution.record <$> claimed in
    let batch := N.max (ExecutionLeaseRequest.batch_size request) 1 in
    StronglySorted goes_before records ∧ (len claimed ≤ batch)%N ∧
    (∀ c, c ∈ claimed → hands_out request s s' c) ∧
    (∀ i e, State.records s !! i = Some e → ready e (ExecutionLeaseRequest.now request) →
       i ∉ (ExecutionRecord.id <$> records) →
       len claimed = batch ∧ ∀ r, r ∈ records → goes_before r (StoredExecution.record e)) ∧
    (∀ i, i ∉ (ExecutionRecord.id <$> records) → State.records s' !! i = State.records s !! i) ∧
    State.outbox s' = State.outbox s ∧ State.heartbeats s' = State.heartbeats s ∧
    State.next_lease_sequence s' = N.min (State.next_lease_sequence s + len claimed) u64_max.
Proof.
  intros Hwf Hb Hcl. unfold Store.claim_available, op_bind, op_get.
  pose proof (claimable_ids_NoDup clock s request Hwf) as Hnd.
  assert (Hdue : ∀ i, i ∈ State.find_claimable_ids clock s request → ∃ e, State.records s !! i = Some e ∧
            ready e (ExecutionLeaseRequest.now request)).
  { intros i (e & He & Hd%is_due_ready)%claimable_ids_due; [|done]. eauto. }
  destruct (claim_loop_total request ctx (State.find_claimable_ids clock s request) s Hb Hnd) as (claimed & s' & Hc).
  { intros i Hi. destruct (Hdue i Hi) as (e & He & Hr). exists e. split; [done|]. split; [by apply is_due_ready|].
    intros Hf. pose proof (Hcl i e He Hr Hf). by destruct (StoredExecution.lease e). }
  exists claimed, s'. split; [done|]. pose proof (claimed_records _ _ _ _ _ _ Hwf Hc) as Hrec.
  assert (Hids : ExecutionRecord.id <$> (ClaimedExecution.record <$> claimed) = State.find_claimable_ids clock s request).
  { rewrite Hrec, <- list_fmap_compose. done. }
  pose proof (claim_selects request s) as [Hsorted Hlen _ Hleast].
  assert (Hl : len claimed = len (State.selectable_due_records s (claim_selection request))).
  { apply (f_equal length) in Hrec. rewrite !length_fmap in Hrec. unfold len. by rewrite Hrec. }
  split_and!.
  - apply sorted_goes_before; [by rewrite Hids|]. rewrite Hrec. clear -Hsorted.
    induction Hsorted as [|r l _ IH Hr]; [constructor|]. rewrite fmap_cons. constructor; [done|].
    apply Forall_fmap. eapply Forall_impl; [exact Hr|]. done.
  - rewrite Hl, Hlen. apply N.le_min_l.
  - intros c Hin. pose proof (claim_loop_claimed _ _ _ _ _ _ (wf_sequence s Hwf) Hnd Hc) as Hall.
    apply list_elem_of_lookup in Hin as [n Hn]. destruct (Forall2_lookup_r _ _ _ _ _ Hall Hn) as (i & Hi & Hca).
    apply list_elem_of_lookup_2 in Hi. destruct (Hdue i Hi) as (e & He & Hr).
    by destruct (claimed_as_hands_out _ _ _ _ _ Hwf Hca) as [_ ?]; [intros e' He'; rewrite He in He'; by injection He' as <-|].
  - intros i e He Hr Hn. rewrite Hids, find_claimable_ids_eq in Hn.
    assert (Hid : ExecutionRecord.id (StoredExecution.record e) = i) by exact (wf_record_key s Hwf i e He).
    pose proof (proj2 (is_due_ready _ _) Hr) as Hd.
    assert (Hout : StoredExecution.materialize_due_record e (ExecutionLeaseRequest.now request)
                   ∉ State.selectable_due_records s (claim_selection request)).
    { intros Hin. apply Hn. rewrite <- Hid, <- (materialize_id e (ExecutionLeaseRequest.now request)). by apply list_elem_of_fmap_2. }
    assert (Hv : e ∈ values (State.records s)) by (apply elem_of_values; by exists i).
    split.
    + rewrite Hl. exact (selection_full _ _ _ _ _ e Hv Hd Hout).
    + intros r Hin. pose proof Hin as Hin'. rewrite Hrec in Hin. apply list_elem_of_fmap in Hin as (x & -> & Hx).
      apply key_le_goes_before.
      * cbn. intros Heq. apply Hn. rewrite <- Hid, <- Heq. by apply list_elem_of_fmap_2.
      * pose proof (Hleast e Hv Hd Hout x Hx) as Hle. unfold key_le.
        replace (State.record_key (StoredExecution.record e))
          with (State.record_key (StoredExecution.materialize_due_record e (ExecutionLeaseRequest.now request))); [exact Hle|].
        unfold StoredExecution.materialize_due_record. destruct (StoredExecution.lease e); [|done]. by case_match.
  - intros j Hj. rewrite Hids in Hj. pose proof (claim_loop_frame request ctx _ j s Hj) as Hf. by rewrite Hc in Hf.
  - pose proof (claim_loop_outbox request ctx (State.find_claimable_ids clock s request) s) as Hf. by rewrite Hc in Hf.
  - by apply (claim_loop_rest _ _ _ _ _ _ Hc), (wf_sequence s Hwf).
  - by apply (claim_loop_rest _ _ _ _ _ _ Hc), (wf_sequence s Hwf).
Qed.

Lemma claim_available_exact_witness :
  let request := ExecutionLeaseRequest.new "worker_a" 1 10 5 in
  store_wf demo_queued ∧
  ∃ claimed s', Store.claim_available 0 request demo_ctx demo_queued = (Ok claimed, s') ∧
    (ClaimedExecution.record <$> claimed) = [ExecutionRecord.mark_claimed (demo_record "exec_1" 0) 5] ∧
    (∀ c, c ∈ claimed → hands_out request demo_queued s' c).
Proof.
  intros request. split; [apply demo_queued_wf|].
  destruct (claim_available_exact 0 request demo_ctx demo_queued demo_queued_wf eq_refl)
    as (claimed & s' & Hc & _ & _ & Hall & _).
  - intros i e He _ Hfl. exfalso. revert Hfl. apply demo_queued_entries in He as [->| ->]; discriminate.
  - exists claimed, s'. split; [exact Hc|]. split; [|exact Hall]. revert Hc. vm_compute. by intros [= <- _].
Defined.
