(* ===== verification/MemoryLease.v ===== *)
(** * Leases in the in-memory store: exclusion, finalization, stale workers *)

From S2P Require Import Prelude RustStd Ids Errors CurrentState Execution Outbox.
From S2P Require Import Transactional Inspection Workers Dispatch Stores Memory MemoryStore MemoryDispatch.
From S2P Require Import MemoryInv MemorySelect MemoryClaim.

(** ** What leaves a leased execution alone *)

Lemma lease_available_records gen clock request ctx s :
  State.records (Store.lease_available gen clock request ctx s).2 = State.records s.
Proof.
  unfold Store.lease_available, op_bind, op_get.
  apply (for_each_preserves (fun s' => State.records s' = State.records s)); [|done].
  intros i Hi s' <-. destruct (Store.claim_message gen request ctx i s') as [[c|e] s''] eqn:Hc; simpl.
  - apply claim_message_step in Hc as (e & He & Hc). rewrite next_lease_id_eq in Hc.
    by destruct Hc as [_ ->].
  - apply claim_message_err in Hc as ->. by rewrite next_lease_id_eq.
Qed.

Lemma claim_available_frame clock request ctx s i e l :
  store_wf s → State.records s !! i = Some e → StoredExecution.lease e = Some l →
  (ExecutionLeaseRequest.now request ≤ ExecutionLease.lease_expires_at l)%Z →
  i ∉ State.find_claimable_ids clock s request ∧
  State.records (Store.claim_available clock request ctx s).2 !! i = Some e.
Proof.
  intros Hwf He Hl Hnow.
  assert (Hi : i ∉ State.find_claimable_ids clock s request).
  { intros (e' & He' & Hd)%claimable_ids_due; [|done]. simplify_eq.
    by rewrite (leased_not_due _ _ _ _ Hl Hnow) in Hd. }
  split; [done|]. unfold Store.claim_available, op_bind, op_get. by rewrite claim_loop_frame.
Qed.

Lemma recover_loop_frame {K V} `{Countable K}
    (step : V → ExpiredLeaseRecoverySummary.t → V * ExpiredLeaseRecoverySummary.t) ids (m : gmap K V) summary i :
  i ∉ ids.*2 → (MemDispatch.recover_loop step ids m summary).1 !! i = m !! i.
Proof.
  revert m summary. induction ids as [|[t j] ids IH]; intros m summary Hi; simpl in *; [done|].
  apply not_elem_of_cons in Hi as [Hij Hi].
  destruct (m !! j) as [e|]; [|by apply IH]. destruct (step e summary) as [e' sm'].
  rewrite IH by done. by rewrite lookup_insert_ne.
Qed.

Lemma expired_execution_ids_in request s i :
  i ∈ (MemDispatch.expired_execution_ids request s).*2 →
  ∃ e l, State.records s !! i = Some e ∧ StoredExecution.lease e = Some l ∧
    ExecutionLease.is_expired_at l (ExpiredLeaseRecoveryRequest.now request) = true.
Proof.
  intros ([t j] & -> & Hj%elem_of_truncate)%list_elem_of_fmap. simpl.
  apply elem_of_sort_by_key, list_elem_of_fmap in Hj as ([j' e] & Heq & Hj'). simpl in Heq. simplify_eq.
  apply list_elem_of_filter in Hj' as [Hexp Hin%elem_of_map_to_list]. simpl in Hexp.
  unfold State.execution_lease_is in Hexp. destruct (StoredExecution.lease e) as [l|] eqn:Hl; [|done].
  exists e, l. apply Is_true_true in Hexp. done.
Qed.

(** The calls that may end the lease [l] of execution [i]: an overwrite of the
    record, the holder's own renewal or resolution, and a claim or a recovery run
    after the lease expired. *)
Definition may_end (i : ExecutionId) (l : ExecutionLease.t) (c : StoreCall) : Prop :=
  match c with
  | CallUpdate r _ => ExecutionRecord.id r = i
  | CallRenew (DispatchLeaseRenewal.Execution r) _ =>
    ExecutionLeaseRenewal.execution_id r = i ∧
    ExecutionLeaseRenewal.lease_id r = ExecutionLease.lease_id l
  | CallFinalize r _ =>
    DispatchResolution.queue r = ExecutionQueue ∧
    DispatchResolution.lease_id r = ExecutionLease.lease_id l
  | CallClaim _ request _ =>
    (ExecutionLease.lease_expires_at l < DispatchClaimRequest.now request)%Z
  | CallRecover request _ =>
    (ExecutionLease.lease_expires_at l < ExpiredLeaseRecoveryRequest.now request)%Z
  | _ => False
  end.

(** What a resolution does to the records: nothing, or one entry rewritten whose
    lease carries the resolution's lease id. *)
Lemma finalize_records r ctx s :
  State.records (MemDispatch.finalize r ctx s).2 = State.records s ∨
  ∃ i e l e', State.records s !! i = Some e ∧ StoredExecution.lease e = Some l ∧
    DispatchResolution.queue r = ExecutionQueue ∧
    ExecutionLease.lease_id l = DispatchResolution.lease_id r ∧
    State.records (MemDispatch.finalize r ctx s).2 = <[i := e']> (State.records s).
Proof.
  destruct r; simpl; unfold Store.acknowledge_completion, Store.retry_execution,
    Store.dead_letter_execution, Store.acknowledge_delivery, Store.retry_delivery,
    Store.dead_letter_delivery, op_bind, op_lift, get_record, get_outbox, put_record, put_outbox;
    try (left; repeat case_match; simplify_eq/=; done).
  all: destruct (State.records s !! _) as [e|] eqn:He; simpl; [|by left].
  all: destruct (StoredExecution.lease e) as [l|] eqn:Hl; [|by left].
  all: destruct (Id.eqb _ _) eqn:Hid; [|by left]; apply Id_eqb_eq in Hid.
  all: destruct (Store.require_revision _ _ _ _) as [[]|]; [|by left]; simpl.
  all: right; eexists _, e, l, _; split_and!; [exact He|done|done|done|reflexivity].
Qed.

Lemma finalize_keeps r ctx s i e l :
  State.records s !! i = Some e → StoredExecution.lease e = Some l →
  ¬ may_end i l (CallFinalize r ctx) →
  State.records (MemDispatch.finalize r ctx s).2 !! i = Some e.
Proof.
  intros He Hl Hm. simpl in Hm.
  destruct (finalize_records r ctx s) as [->|(j & e1 & l1 & e' & He1 & Hl1 & Hq & Hid & ->)]; [done|].
  rewrite lookup_insert_ne; [done|]. intros ->. simplify_eq. apply Hm. by split.
Qed.

Lemma renew_keeps r ctx s i e l :
  State.records s !! i = Some e → StoredExecution.lease e = Some l →
  ¬ may_end i l (CallRenew r ctx) →
  State.records (MemDispatch.renew_claim r ctx s).2 !! i = Some e.
Proof.
  intros He Hl Hm. destruct r as [r|r]; simpl in *; unfold op_map, op_bind.
  - destruct (Store.renew_execution_lease r ctx s) as [[l'|err] s'] eqn:Hr; simpl.
    + apply renew_execution_ok in Hr as (_ & e1 & old & He1 & Hold & Hid & _ & _ & -> & ->).
      simpl. rewrite lookup_insert_ne; [done|]. intros Heq. apply Hm. rewrite Heq in He1. by simplify_eq.
    + by apply renew_execution_rejects in Hr as ->.
  - destruct (Store.renew_outbox_lease r ctx s) as [[l'|err] s'] eqn:Hr; simpl.
    + by apply renew_outbox_ok in Hr as (_ & e1 & old & _ & _ & _ & _ & _ & -> & ->).
    + by apply renew_outbox_rejects in Hr as ->.
Qed.

Lemma recover_keeps r ctx s i e l :
  State.records s !! i = Some e → StoredExecution.lease e = Some l →
  (ExpiredLeaseRecoveryRequest.now r ≤ ExecutionLease.lease_expires_at l)%Z →
  State.records (MemDispatch.recover_expired_leases r ctx s).2 !! i = Some e.
Proof.
  intros He Hl Hnow. unfold MemDispatch.recover_expired_leases, Store.require_queue_supported, op_bind.
  destruct (ExpiredLeaseRecoveryRequest.queue r); simpl.
  - pose proof (recover_loop_frame (MemDispatch.recover_execution r)
      (MemDispatch.expired_execution_ids r s) (State.records s) ExpiredLeaseRecoverySummary.default i) as Hf.
    destruct (MemDispatch.recover_loop _ _ _ _) as [m sm]; simpl in *. rewrite Hf; [done|].
    intros (e' & l' & He' & Hl' & Hexp)%expired_execution_ids_in. simplify_eq.
    unfold ExecutionLease.is_expired_at in Hexp. lia.
  - by destruct (MemDispatch.recover_loop _ _ _ _).
Qed.

Lemma claim_keeps {env : Env} request ctx s i e l :
  store_wf s → State.records s !! i = Some e → StoredExecution.lease e = Some l →
  (DispatchClaimRequest.now request ≤ ExecutionLease.lease_expires_at l)%Z →
  State.records (MemDispatch.claim_due request ctx s).2 !! i = Some e.
Proof.
  intros Hwf He Hl Hnow. destruct (DispatchClaimRequest.queue request) eqn:Hq.
  - rewrite claim_due_execution_state by done. by eapply claim_available_frame.
  - by rewrite claim_due_outbox_state, lease_available_records.
Qed.

Lemma run_call_keeps s c i e l :
  store_wf s → State.records s !! i = Some e → StoredExecution.lease e = Some l →
  ¬ may_end i l c → State.records (run_call s c) !! i = Some e.
Proof.
  intros Hwf He Hl Hm. destruct c as [r ctx|r ctx|m ctx|env request ctx|r ctx|r ctx|r ctx|h ctx];
    simpl in Hm |- *.
  - unfold Store.append, op_bind, op_get, op_lift, put_record. case_decide as Hr; simpl; [done|].
    rewrite lookup_insert_ne; [done|]. intros Heq. apply Hr. rewrite Heq, He. by eexists.
  - unfold Store.update, op_bind, get_record, put_record.
    destruct (State.records s !! ExecutionRecord.id r); simpl; [|done]. by rewrite lookup_insert_ne.
  - unfold Store.append_outbox, op_bind, op_get, op_lift, put_outbox. by case_decide.
  - eapply claim_keeps; [done|done|done|lia].
  - by eapply renew_keeps.
  - by eapply finalize_keeps.
  - eapply recover_keeps; [done|done|lia].
  - unfold MemDispatch.record_heartbeat, op_bind, op_lift. by destruct (WorkerHeartbeat.validate h ctx) as [[]|].
Qed.

Lemma run_calls_keep s cs i e l :
  store_wf s → State.records s !! i = Some e → StoredExecution.lease e = Some l →
  Forall (fun c => ¬ may_end i l c) cs → State.records (run_calls s cs) !! i = Some e.
Proof.
  intros Hwf He Hl Hcs. revert s Hwf He. induction Hcs as [|c cs Hc Hcs IH]; intros s Hwf He; [done|].
  apply IH; [by apply wf_run_call|by eapply run_call_keeps].
Qed.

Lemma claimed_ids {env : Env} request ctx s claimed s' c :
  store_wf s → MemDispatch.claim_due request ctx s = (Ok claimed, s') →
  ClaimedDispatchWork.Execution c ∈ claimed →
  ∃ i, i ∈ State.find_claimable_ids env_clock s (execution_claim request) ∧
    claimed_as (execution_claim request) s s' i c ∧ DispatchClaimRequest.queue request = ExecutionQueue.
Proof.
  intros Hwf Hc Hin. destruct (DispatchClaimRequest.queue request) eqn:Hq.
  - rewrite claim_due_execution in Hc by done. apply op_map_ok in Hc as (cs & Hcs & ->).
    apply list_elem_of_fmap in Hin as (c' & [= <-] & Hin).
    unfold Store.claim_available, op_bind, op_get in Hcs.
    apply claim_loop_claimed in Hcs; [|apply Hwf|by apply claimable_ids_NoDup].
    apply list_elem_of_lookup in Hin as [n Hn].
    destruct (Forall2_lookup_r _ _ _ _ _ Hcs Hn) as (i & Hi & Hca).
    exists i. split; [by eapply list_elem_of_lookup_2|done].
  - rewrite claim_due_outbox in Hc by done. apply op_map_ok in Hc as (cs & _ & ->).
    by apply list_elem_of_fmap in Hin as (c' & [=] & _).
Qed.

Lemma claimed_as_id request s s' i c :
  store_wf s → claimed_as request s s' i c → ExecutionRecord.id (ClaimedExecution.record c) = i.
Proof.
  intros Hwf [(e & He & ->) _ _]. simpl. rewrite materialize_id. by apply (wf_record_key s Hwf).
Qed.

(** C2: a lease excludes every other worker until it expires.  From a state where
    execution [i] is held under lease [l], run any calls at all except the ones
    that may end that lease (an overwrite of the record, the holder's own renewal
    or resolution, a claim or recovery later than the expiry): the entry is still
    there, untouched, and a claim made by anyone no later than the expiry does
    not hand out [i]. *)
Theorem lease_excludes {env : Env} s i e l calls request ctx :
  store_wf s → State.records s !! i = Some e → StoredExecution.lease e = Some l →
  Forall (fun c => ¬ may_end i l c) calls →
  (DispatchClaimRequest.now request ≤ ExecutionLease.lease_expires_at l)%Z →
  State.records (run_calls s calls) !! i = Some e ∧
  ∀ claimed s' c, MemDispatch.claim_due request ctx (run_calls s calls) = (Ok claimed, s') →
    ClaimedDispatchWork.Execution c ∈ claimed → ExecutionRecord.id (ClaimedExecution.record c) ≠ i.
Proof.
  intros Hwf He Hl Hcs Hnow. pose proof (run_calls_keep s calls i e l Hwf He Hl Hcs) as He'.
  split; [done|]. intros claimed s' c Hc Hin Hid. pose proof (wf_run_calls s calls Hwf) as Hwf'.
  destruct (claimed_ids _ _ _ _ _ _ Hwf' Hc Hin) as (j & Hj & Hca & Hq).
  rewrite (claimed_as_id _ _ _ _ _ Hwf' Hca) in Hid. subst j. revert Hj.
  by eapply (claim_available_frame env_clock (execution_claim request) ctx).
Qed.

(** Worker b tries to claim, renew and complete; the lease of worker a stands. *)
Lemma lease_excludes_witness :
  let e := StoredExecution.mk (ClaimedExecution.record demo_claim) (Some (ClaimedExecution.lease demo_claim)) in
  let calls :=
    [CallClaim demo_env (demo_request ExecutionQueue "worker_b" 9) demo_ctx;
     CallFinalize (DispatchResolution.ExecutionCompleted (ClaimedExecution.record demo_claim)
       (ExecutionSuccess.new (Id.MkId "exec_1") (Id.MkId "lease_exec_mem_2") 9)) demo_ctx;
     CallRecover (ExpiredLeaseRecoveryRequest.new ExecutionQueue 10 1 9) demo_ctx] in
  State.records (run_calls demo_claimed calls) !! (Id.MkId "exec_1" : ExecutionId) = Some e.
Proof.
  intros e calls.
  refine (proj1 (lease_excludes (env:=demo_env) demo_claimed (Id.MkId "exec_1") e (ClaimedExecution.lease demo_claim)
    calls (demo_request ExecutionQueue "worker_c" 15) demo_ctx demo_claimed_wf demo_held eq_refl _ _)).
  - repeat constructor; simpl; try (intros [_ H]; discriminate H); vm_compute; intros H; discriminate H.
  - vm_compute. intros H; discriminate H.
Defined.
