(* ===== verification/MemoryFinal.v ===== *)
(** * Finalizing claimed work in the in-memory store *)

From S2P Require Import Prelude RustStd Ids Errors CurrentState Execution Outbox.
From S2P Require Import Transactional Inspection Workers Dispatch Stores Memory MemoryStore MemoryDispatch.
From S2P Require Import MemoryInv MemorySelect MemoryClaim MemoryLease.

(** ** A view of one slot *)

Definition entry_at (s : State.t) (a : Slot) : option (StoredExecution.t + StoredOutboxMessage.t) :=
  match a with
  | inl i => inl <$> State.records s !! i
  | inr i => inr <$> State.outbox s !! i
  end.

Definition revision_at (s : State.t) (a : Slot) : option RevisionToken :=
  match a with
  | inl i => (fun e => ExecutionRecord.revision (StoredExecution.record e)) <$> State.records s !! i
  | inr i => (fun e => OutboxMessage.revision (StoredOutboxMessage.message e)) <$> State.outbox s !! i
  end.

Definition attempts_at (s : State.t) (a : Slot) : option N :=
  match a with
  | inl i => (fun e => ExecutionRecord.attempt (StoredExecution.record e)) <$> State.records s !! i
  | inr i => (fun e => OutboxMessage.attempts (StoredOutboxMessage.message e)) <$> State.outbox s !! i
  end.

(** Due for selection with expired leases included, as claims select. *)
Definition due_at (s : State.t) (a : Slot) (t : SystemTime) : bool :=
  match a with
  | inl i => option_any (fun e => StoredExecution.is_due_at e t true) (State.records s !! i)
  | inr i => option_any (fun e => StoredOutboxMessage.is_due_at e t true) (State.outbox s !! i)
  end.

(** ** What a resolution names *)

Definition resolution_slot (r : DispatchResolution.t) : Slot :=
  match r with
  | DispatchResolution.ExecutionCompleted _ x => inl (ExecutionSuccess.execution_id x)
  | DispatchResolution.ExecutionRetried _ x => inl (ExecutionRetry.execution_id x)
  | DispatchResolution.ExecutionDeadLettered _ x => inl (ExecutionDeadLetter.execution_id x)
  | DispatchResolution.OutboxCompleted _ x => inr (OutboxDeliverySuccess.message_id x)
  | DispatchResolution.OutboxRetried _ x => inr (OutboxDeliveryRetry.message_id x)
  | DispatchResolution.OutboxDeadLettered _ x => inr (OutboxDeliveryDeadLetter.message_id x)
  end.

Definition resolution_revision (r : DispatchResolution.t) : option RevisionToken :=
  match r with
  | DispatchResolution.ExecutionCompleted _ x => ExecutionSuccess.expected_revision x
  | DispatchResolution.ExecutionRetried _ x => ExecutionRetry.expected_revision x
  | DispatchResolution.ExecutionDeadLettered _ x => ExecutionDeadLetter.expected_revision x
  | DispatchResolution.OutboxCompleted _ x => OutboxDeliverySuccess.expected_revision x
  | DispatchResolution.OutboxRetried _ x => OutboxDeliveryRetry.expected_revision x
  | DispatchResolution.OutboxDeadLettered _ x => OutboxDeliveryDeadLetter.expected_revision x
  end.

(** The store accepts a resolution when the slot is held under its lease id and,
    if it expects a revision, at that revision. *)
Definition accepts (s : State.t) (r : DispatchResolution.t) : Prop :=
  lease_at s (resolution_slot r) = Some (DispatchResolution.lease_id r) ∧
  ∀ v, resolution_revision r = Some v → revision_at s (resolution_slot r) = Some v.

(** The entry a resolution writes. *)
Definition resolved_execution (r : DispatchResolution.t) (e : ExecutionRecord.t) : ExecutionRecord.t :=
  match r with
  | DispatchResolution.ExecutionCompleted _ x =>
    ExecutionRecord.mark_succeeded e (ExecutionSuccess.finished_at x)
  | DispatchResolution.ExecutionRetried _ x =>
    ExecutionRecord.schedule_retry e (ExecutionRetry.attempted_at x)
      (ExecutionRetry.next_available_at x) (ExecutionRetry.error x)
  | DispatchResolution.ExecutionDeadLettered _ x =>
    ExecutionRecord.mark_dead_lettered e (ExecutionDeadLetter.dead_lettered_at x)
      (ExecutionDeadLetter.error x)
  | _ => e
  end.

Lemma require_revision_ok expected actual ctx code :
  Store.require_revision expected actual ctx code = Ok tt ↔
  ∀ v, expected = Some v → Some actual = Some v.
Proof.
  unfold Store.require_revision. destruct expected as [v|]; simpl; [|naive_solver].
  unfold RevisionToken.eqb. case_bool_decide; simpl; naive_solver.
Qed.

Lemma require_revision_err expected actual ctx code e :
  Store.require_revision expected actual ctx code = Err e → AppError.kind e = ConcurrentModification.
Proof. unfold Store.require_revision. case_match; [|done]. by intros [= <-]. Qed.

(** The six handlers have one shape: this is what it does. *)
Inductive finalize_result (r : DispatchResolution.t) (s : State.t) : Result AppError.t unit * State.t → Prop :=
| finalized_execution i e :
    resolution_slot r = inl i → State.records s !! i = Some e → accepts s r →
    finalize_result r s
      (Ok tt, State.set_records s
         (<[i := StoredExecution.mk (resolved_execution r (StoredExecution.record e)) None]> (State.records s)))
| finalized_outbox i e m st d dl err :
    resolution_slot r = inr i → State.outbox s !! i = Some e → accepts s r →
    m = match r with
        | DispatchResolution.OutboxCompleted _ x =>
          OutboxMessage.mark_attempted (StoredOutboxMessage.message e) (OutboxDeliverySuccess.delivered_at x) None
        | DispatchResolution.OutboxRetried _ x =>
          OutboxMessage.mark_attempted (StoredOutboxMessage.message e) (OutboxDeliveryRetry.attempted_at x)
            (Some (OutboxDeliveryRetry.next_available_at x))
        | DispatchResolution.OutboxDeadLettered _ x =>
          OutboxMessage.mark_attempted (StoredOutboxMessage.message e)
            (OutboxDeliveryDeadLetter.dead_lettered_at x) None
        | _ => StoredOutboxMessage.message e
        end →
    st = match r with
         | DispatchResolution.OutboxCompleted _ _ => OutboxMessageStatus.Delivered
         | DispatchResolution.OutboxRetried _ _ => OutboxMessageStatus.Pending
         | _ => OutboxMessageStatus.DeadLettered
         end →
    finalize_result r s
      (Ok tt, State.set_outbox s
         (<[i := StoredOutboxMessage.mk m None st d dl err]> (State.outbox s)))
| finalize_rejected e :
    ¬ accepts s r →
    (∀ l, lease_at s (resolution_slot r) = Some l → AppError.kind e = ConcurrentModification) →
    finalize_result r s (Err e, s).

Lemma finalize_execution_shape r ctx s i :
  resolution_slot r = inl i → finalize_result r s (MemDispatch.finalize r ctx s).
Proof.
  intros Hi. destruct r; simpl in Hi; simplify_eq; simpl; unfold Store.acknowledge_completion,
    Store.retry_execution, Store.dead_letter_execution, op_bind, op_lift, get_record, put_record.
  all: destruct (State.records s !! _) as [e|] eqn:He; simpl;
    [|apply finalize_rejected; unfold accepts; simpl; rewrite He; simpl; naive_solver].
  all: destruct (StoredExecution.lease e) as [l|] eqn:Hl;
    [|apply finalize_rejected; unfold accepts; simpl; rewrite He; simpl; rewrite Hl; naive_solver].
  all: destruct (Id.eqb _ _) eqn:Hid;
    [apply Id_eqb_eq in Hid
    |apply finalize_rejected; [|done]; unfold accepts; simpl; rewrite He; simpl; rewrite Hl; simpl;
     unfold Id.eqb in Hid; apply bool_decide_eq_false in Hid; naive_solver].
  all: destruct (Store.require_revision _ _ _ _) as [[]|err] eqn:Hr;
    [|apply finalize_rejected; [|intros _ _; by eapply require_revision_err];
      unfold accepts; simpl; rewrite He; simpl; intros [_ Hv];
      rewrite (proj2 (require_revision_ok _ _ _ _) Hv) in Hr; done].
  all: match goal with |- finalize_result ?r _ _ =>
         refine (finalized_execution r s _ e _ He _); [done|] end.
  all: unfold accepts; simpl; rewrite He; simpl; rewrite Hl; simpl;
    split; [by f_equal|by eapply require_revision_ok].
Qed.

Lemma finalize_outbox_shape r ctx s i :
  resolution_slot r = inr i → finalize_result r s (MemDispatch.finalize r ctx s).
Proof.
  intros Hi. destruct r; simpl in Hi; simplify_eq; simpl; unfold Store.acknowledge_delivery,
    Store.retry_delivery, Store.dead_letter_delivery, op_bind, op_lift, get_outbox, put_outbox.
  all: destruct (State.outbox s !! _) as [e|] eqn:He; simpl;
    [|apply finalize_rejected; unfold accepts; simpl; rewrite He; simpl; naive_solver].
  all: destruct (StoredOutboxMessage.lease e) as [l|] eqn:Hl;
    [|apply finalize_rejected; unfold accepts; simpl; rewrite He; simpl; rewrite Hl; naive_solver].
  all: destruct (Id.eqb _ _) eqn:Hid;
    [apply Id_eqb_eq in Hid
    |apply finalize_rejected; [|done]; unfold accepts; simpl; rewrite He; simpl; rewrite Hl; simpl;
     unfold Id.eqb in Hid; apply bool_decide_eq_false in Hid; naive_solver].
  all: destruct (Store.require_revision _ _ _ _) as [[]|err] eqn:Hr;
    [|apply finalize_rejected; [|intros _ _; by eapply require_revision_err];
      unfold accepts; simpl; rewrite He; simpl; intros [_ Hv];
      rewrite (proj2 (require_revision_ok _ _ _ _) Hv) in Hr; done].
  all: eapply finalized_outbox; [done|exact He| |done|done].
  all: unfold accepts; simpl; rewrite He; simpl; rewrite Hl; simpl;
    split; [by f_equal|by eapply require_revision_ok].
Qed.

Lemma finalize_shape r ctx s : finalize_result r s (MemDispatch.finalize r ctx s).
Proof.
  destruct (resolution_slot r) as [i|i] eqn:Hi;
    [by eapply finalize_execution_shape|by eapply finalize_outbox_shape].
Qed.

Lemma entry_at_set_record s i e a :
  a ≠ inl i → entry_at (State.set_records s (<[i := e]> (State.records s))) a = entry_at s a.
Proof.
  intros Ha. destruct a as [j|j]; simpl; [|done]. rewrite lookup_insert_ne; [done|congruence].
Qed.

Lemma entry_at_set_outbox s i e a :
  a ≠ inr i → entry_at (State.set_outbox s (<[i := e]> (State.outbox s))) a = entry_at s a.
Proof.
  intros Ha. destruct a as [j|j]; simpl; [done|]. rewrite lookup_insert_ne; [done|congruence].
Qed.

(** C31: [finalize] succeeds exactly for the holder of the lease: the slot must be
    leased under the resolution's lease id, and at the expected revision if one
    is given.  A rejected resolution leaves the store as it was; an accepted one
    ends the lease and touches no other entry. *)
Theorem finalize_spec r ctx s :
  let '(result, s') := MemDispatch.finalize r ctx s in
  (result = Ok tt ↔ accepts s r) ∧
  (¬ accepts s r → s' = s) ∧
  (accepts s r → lease_at s' (resolution_slot r) = None ∧
     ∀ a, a ≠ resolution_slot r → entry_at s' a = entry_at s a).
Proof.
  destruct (finalize_shape r ctx s) as [i e Hi He Ha|i e m st d dl err Hi He Ha _ _|e Ha _].
  - split_and!; [done|done|]. intros _. rewrite Hi. split; [simpl; by rewrite lookup_insert_eq|].
    intros a Hne. by apply entry_at_set_record.
  - split_and!; [done|done|]. intros _. rewrite Hi. split; [simpl; by rewrite lookup_insert_eq|].
    intros a Hne. by apply entry_at_set_outbox.
  - by split_and!.
Qed.

(** When the work of a finalized slot is due again. *)
Definition due_after (r : DispatchResolution.t) (t : SystemTime) : bool :=
  match r with
  | DispatchResolution.ExecutionRetried _ x => (ExecutionRetry.next_available_at x <=? t)%Z
  | DispatchResolution.OutboxRetried _ x => (OutboxDeliveryRetry.next_available_at x <=? t)%Z
  | _ => false
  end.

(** Whether a resolution counts one more attempt: always on the outbox, only on a
    retry for executions. *)
Definition counts_attempt (r : DispatchResolution.t) : bool :=
  match r with
  | DispatchResolution.ExecutionCompleted _ _ | DispatchResolution.ExecutionDeadLettered _ _ => false
  | _ => true
  end.

(** What an accepted resolution means for the future of the work.  Completed
    and dead-lettered work is never due again; retried work is due exactly from
    its next availability time on.  A retry, and on the outbox every resolution,
    counts one more attempt (saturating at [u32::MAX]). *)
Theorem finalize_outcome r ctx s :
  accepts s r →
  let s' := (MemDispatch.finalize r ctx s).2 in
  (∀ t, due_at s' (resolution_slot r) t = due_after r t) ∧
  attempts_at s' (resolution_slot r) =
    (fun n => if counts_attempt r then saturating_add_u32 n 1 else n)
      <$> attempts_at s (resolution_slot r).
Proof.
  intros Hacc. destruct (finalize_shape r ctx s) as [i e Hi He _|i e m st d dl err Hi He _ -> ->|e Ha _];
    [| |done]; simpl; rewrite Hi; simpl; rewrite lookup_insert_eq, He; simpl;
    destruct r; simpl in Hi |- *; simplify_eq; (split; [intros t|done]); try done.
  - unfold StoredExecution.is_due_at; simpl.
    destruct (Z.ltb_spec t (ExecutionRetry.next_available_at retry)); symmetry;
      [apply Z.leb_gt|apply Z.leb_le]; lia.
  - unfold StoredOutboxMessage.is_due_at; simpl.
    destruct (Z.ltb_spec t (OutboxDeliveryRetry.next_available_at retry)); symmetry;
      [apply Z.leb_gt|apply Z.leb_le]; lia.
Qed.

Lemma finalize_outcome_witness :
  let r := DispatchResolution.ExecutionRetried (ClaimedExecution.record demo_claim)
    (ExecutionRetry.new (Id.MkId "exec_1") (Id.MkId "lease_exec_mem_1") 6 30 "timeout") in
  let s' := (MemDispatch.finalize r demo_ctx demo_claimed).2 in
  accepts demo_claimed r ∧ due_at s' (resolution_slot r) 29 = false ∧
  due_at s' (resolution_slot r) 30 = true ∧ attempts_at s' (resolution_slot r) = Some 2%N.
Proof.
  intros r s'. assert (Ha : accepts demo_claimed r) by (split; [vm_compute; reflexivity|intros v [=]]).
  destruct (finalize_outcome r demo_ctx demo_claimed Ha) as [Hd Hn].
  split; [exact Ha|]. split; [exact (Hd 29%Z)|]. split; [exact (Hd 30%Z)|exact Hn].
Defined.

(** a worker that lost its lease cannot finish the work.  When execution [i],
    last leased as [old], is claimed again, every resolution and every renewal
    under the old lease id is rejected, a resolution as a concurrent
    modification, and the store does not change. *)
Theorem stale_worker_rejected {env : Env} s i e old request ctx claimed s' c :
  store_wf s → (State.next_lease_sequence s < u64_max)%N →
  State.records s !! i = Some e → StoredExecution.lease e = Some old →
  MemDispatch.claim_due request ctx s = (Ok claimed, s') →
  ClaimedDispatchWork.Execution c ∈ claimed →
  ExecutionRecord.id (ClaimedExecution.record c) = i →
  (∀ r ctx', resolution_slot r = inl i →
     DispatchResolution.lease_id r = ExecutionLease.lease_id old →
     ∃ err, MemDispatch.finalize r ctx' s' = (Err err, s') ∧
            AppError.kind err = ConcurrentModification) ∧
  (∀ r ctx', ExecutionLeaseRenewal.execution_id r = i →
     ExecutionLeaseRenewal.lease_id r = ExecutionLease.lease_id old →
     ∃ err, Store.renew_execution_lease r ctx' s' = (Err err, s')).
Proof.
  intros Hwf Hseq He Hold Hc Hin Hid.
  destruct (claimed_ids _ _ _ _ _ _ Hwf Hc Hin) as (j & _ & Hca & _).
  rewrite (claimed_as_id _ _ _ _ _ Hwf Hca) in Hid. subst j.
  destruct Hca as [_ (k & Hl & Hk) Hst].
  assert (Hne : ExecutionLease.lease_id (ClaimedExecution.lease c) ≠ ExecutionLease.lease_id old).
  { rewrite Hl. simpl. intros Heq.
    destruct (wf_issued s Hwf (inl i) (ExecutionLease.lease_id old)) as (k' & Hk' & Heq');
      [by simpl; rewrite He; simpl; rewrite Hold|].
    rewrite Heq' in Heq. apply lease_id_inj in Heq. lia. }
  split.
  - intros r ctx' Hr Hrl.
    assert (Hheld : lease_at s' (resolution_slot r) = Some (ExecutionLease.lease_id (ClaimedExecution.lease c)))
      by (rewrite Hr; simpl; by rewrite Hst).
    destruct (finalize_shape r ctx' s') as [i' e' _ _ [Hacc _]|i' e' m st d dl err _ _ [Hacc _]|err _ Hk'];
      [congruence|congruence|].
    exists err. split; [done|]. by eapply Hk'.
  - intros r ctx' Hr Hrl. destruct (Store.renew_execution_lease r ctx' s') as [[l'|err] s''] eqn:Hren.
    + apply renew_execution_ok in Hren as (_ & e1 & old1 & He1 & Hold1 & Hid1 & _).
      rewrite Hr, Hst in He1. simplify_eq/=. congruence.
    + exists err. f_equal. by eapply renew_execution_rejects.
Qed.

(** Worker a wakes up at 21, after worker b took the work over at 20. *)
Lemma stale_worker_rejected_witness :
  let success := ExecutionSuccess.new (Id.MkId "exec_1") (Id.MkId "lease_exec_mem_1") 21 in
  ∃ err, MemDispatch.finalize (DispatchResolution.ExecutionCompleted (ClaimedExecution.record demo_claim) success)
           demo_ctx demo_reclaimed = (Err err, demo_reclaimed) ∧
         AppError.kind err = ConcurrentModification.
Proof.
  intros success.
  refine (proj1 (stale_worker_rejected (env:=demo_env) demo_claimed (Id.MkId "exec_1") _
    (ClaimedExecution.lease demo_claim) _ _ _ _ demo_reclaim demo_claimed_wf _ demo_held eq_refl
    demo_reclaim_runs _ _)
    (DispatchResolution.ExecutionCompleted (ClaimedExecution.record demo_claim) success) demo_ctx _ _).
  - vm_compute. reflexivity.
  - apply list_elem_of_here.
  - reflexivity.
  - reflexivity.
  - reflexivity.
Defined.
