(* ===== verification/MemoryRecover.v ===== *)
(** * Renewal and recovery of leases in the in-memory store *)

From S2P Require Import Prelude RustStd Ids Errors CurrentState Execution Outbox.
From S2P Require Import Transactional Inspection Workers Dispatch Stores Memory MemoryStore MemoryDispatch.
From S2P Require Import MemoryInv MemorySelect MemoryClaim MemoryLease MemoryFinal.

(** ** Renewal *)

(** Who holds a slot, and until when. *)
Definition holder_at (s : State.t) (a : Slot) : option (LeaseId * string * SystemTime) :=
  match a with
  | inl i =>
    (fun l => (ExecutionLease.lease_id l, ExecutionLease.leased_by l, ExecutionLease.lease_expires_at l))
      <$> (State.records s !! i ≫= StoredExecution.lease)
  | inr i =>
    (fun l => (OutboxDeliveryLease.lease_id l, OutboxDeliveryLease.leased_by l,
               OutboxDeliveryLease.lease_expires_at l))
      <$> (State.outbox s !! i ≫= StoredOutboxMessage.lease)
  end.

Definition renewal_slot (r : DispatchLeaseRenewal.t) : Slot :=
  match r with
  | DispatchLeaseRenewal.Execution r => inl (ExecutionLeaseRenewal.execution_id r)
  | DispatchLeaseRenewal.Outbox r => inr (OutboxDeliveryLeaseRenewal.message_id r)
  end.

(** The condition for a renewal: valid, by the holder, before the expiry. *)
Definition renewable (s : State.t) (r : DispatchLeaseRenewal.t) (ctx : ExecutionContext.t) : Prop :=
  DispatchLeaseRenewal.validate r ctx = Ok tt ∧
  ∃ expires, holder_at s (renewal_slot r) =
    Some (DispatchLeaseRenewal.lease_id r, DispatchLeaseRenewal.leased_by r, expires) ∧
    (DispatchLeaseRenewal.renewed_at r ≤ expires)%Z.

Lemma renew_shape r ctx s :
  (renewable s r ctx ∧ ∃ s', MemDispatch.renew_claim r ctx s = (Ok (DispatchLeaseRenewal.renewed_lease r), s') ∧
     holder_at s' (renewal_slot r) =
       Some (DispatchLeaseRenewal.lease_id r, DispatchLeaseRenewal.leased_by r,
             add_or_now (DispatchLeaseRenewal.renewed_at r) (DispatchLeaseRenewal.lease_ttl r)) ∧
     ∀ a, a ≠ renewal_slot r → entry_at s' a = entry_at s a) ∨
  (¬ renewable s r ctx ∧ ∃ e, MemDispatch.renew_claim r ctx s = (Err e, s)).
Proof.
  unfold renewable. destruct r as [r|r]; simpl; unfold op_map, op_bind.
  - destruct (Store.renew_execution_lease r ctx s) as [[l|err] s'] eqn:Hr.
    + left. apply renew_execution_ok in Hr as (Hv & e & old & He & Hold & Hid & Hby & Hexp & -> & ->).
      split.
      * split; [done|]. rewrite He; simpl. rewrite Hold; simpl. eexists. rewrite Hid, Hby.
        split; [done|]. unfold ExecutionLease.is_expired_at in Hexp. lia.
      * eexists. split_and!; [done|simpl; by rewrite lookup_insert_eq|].
        intros a Ha. by apply entry_at_set_record.
    + right. pose proof (renew_execution_rejects r ctx s err s' Hr) as ->. split; [|by eexists].
      intros (Hv & expires & Hh & Hle). unfold Store.renew_execution_lease, get_record, op_bind, op_lift in Hr.
      rewrite Hv in Hr. apply fmap_Some in Hh as (l & Hl & [= Hid Hby Hex]).
      apply bind_Some in Hl as (e & He & Hl). rewrite He in Hr; simpl in Hr. rewrite Hl in Hr.
      unfold ExecutionLease.is_expired_at in Hr.
      rewrite (proj2 (Id_eqb_eq _ _) (eq_sym Hid)), (proj2 (string_eqb_eq _ _) (eq_sym Hby)) in Hr.
      simpl in Hr. rewrite (proj2 (Z.ltb_ge _ _)) in Hr; [done|lia].
  - destruct (Store.renew_outbox_lease r ctx s) as [[l|err] s'] eqn:Hr.
    + left. apply renew_outbox_ok in Hr as (Hv & e & old & He & Hold & Hid & Hby & Hexp & -> & ->).
      split.
      * split; [done|]. rewrite He; simpl. rewrite Hold; simpl. eexists. rewrite Hid, Hby.
        split; [done|]. unfold OutboxDeliveryLease.is_expired_at in Hexp. lia.
      * eexists. split_and!; [done|simpl; by rewrite lookup_insert_eq|].
        intros a Ha. by apply entry_at_set_outbox.
    + right. pose proof (renew_outbox_rejects r ctx s err s' Hr) as ->. split; [|by eexists].
      intros (Hv & expires & Hh & Hle). unfold Store.renew_outbox_lease, get_outbox, op_bind, op_lift in Hr.
      rewrite Hv in Hr. apply fmap_Some in Hh as (l & Hl & [= Hid Hby Hex]).
      apply bind_Some in Hl as (e & He & Hl). rewrite He in Hr; simpl in Hr. rewrite Hl in Hr.
      unfold OutboxDeliveryLease.is_expired_at in Hr.
      rewrite (proj2 (Id_eqb_eq _ _) (eq_sym Hid)), (proj2 (string_eqb_eq _ _) (eq_sym Hby)) in Hr.
      simpl in Hr. rewrite (proj2 (Z.ltb_ge _ _)) in Hr; [done|lia].
Qed.

(** a lease is renewed exactly by its holder, no later than it expires, and
    with a positive ttl.  The renewed lease keeps its id and owner and runs until
    [renewed_at + lease_ttl]; when that overflows the clock it ends at
    [renewed_at], never before.  A rejected renewal changes nothing, an accepted
    one touches no other entry. *)
Theorem renew_claim_spec r ctx s :
  let '(result, s') := MemDispatch.renew_claim r ctx s in
  ((∃ l, result = Ok l) ↔ renewable s r ctx) ∧
  (¬ renewable s r ctx → s' = s) ∧
  (renewable s r ctx →
     result = Ok (DispatchLeaseRenewal.renewed_lease r) ∧
     (∃ expires, holder_at s' (renewal_slot r) =
        Some (DispatchLeaseRenewal.lease_id r, DispatchLeaseRenewal.leased_by r, expires) ∧
        let sum := (DispatchLeaseRenewal.renewed_at r + Z.of_N (DispatchLeaseRenewal.lease_ttl r))%Z in
        expires = if (sum <=? SystemTime_max)%Z then sum else DispatchLeaseRenewal.renewed_at r) ∧
     ∀ a, a ≠ renewal_slot r → entry_at s' a = entry_at s a).
Proof.
  destruct (renew_shape r ctx s) as [(Hok & s' & -> & Hh & Hfr)|(Hno & e & ->)].
  - split_and!; [by split; [|by eexists]|done|]. intros _. split_and!; [done| |done].
    eexists. split; [exact Hh|]. simpl. unfold add_or_now, checked_add. by case_match.
  - split_and!; [|done|done]. split; [by intros [? ?]|done].
Qed.

(** ** Recovery *)

Section recover_loop.
  Context {K V : Type} `{Countable K} (f : V → V) (dead : V → bool).
  Context (step : V → ExpiredLeaseRecoverySummary.t → V * ExpiredLeaseRecoverySummary.t).
  Hypothesis step_eq : ∀ e sm, step e sm =
    (f e, if dead e then ExpiredLeaseRecoverySummary.observe_dead_lettered sm
          else ExpiredLeaseRecoverySummary.observe_recovered sm).

(** The loop rewrites each id's entry once and counts it once. *)
Lemma recover_loop_spec (ids : list (SystemTime * K)) (m : gmap K V) sm :
  NoDup ids.*2 → (∀ i, i ∈ ids.*2 → is_Some (m !! i)) →
  (ExpiredLeaseRecoverySummary.recovered sm + ExpiredLeaseRecoverySummary.dead_lettered sm
     + len ids ≤ usize_max)%N →
  let '(m', sm') := MemDispatch.recover_loop step ids m sm in
  (∀ i, i ∈ ids.*2 → m' !! i = f <$> m !! i) ∧
  (∀ i, i ∉ ids.*2 → m' !! i = m !! i) ∧
  (ExpiredLeaseRecoverySummary.dead_lettered sm' =
     ExpiredLeaseRecoverySummary.dead_lettered sm +
     len (filter (fun i => option_any dead (m !! i)) ids.*2))%N ∧
  (ExpiredLeaseRecoverySummary.recovered sm' + ExpiredLeaseRecoverySummary.dead_lettered sm' =
     ExpiredLeaseRecoverySummary.recovered sm + ExpiredLeaseRecoverySummary.dead_lettered sm + len ids)%N.
Proof using step_eq.
  revert m sm. induction ids as [|[t i] ids IH]; intros m sm; rewrite ?fmap_cons; intros Hnd Hin Hmax;
    cbn [MemDispatch.recover_loop snd] in *.
  { split_and!; try done; try (unfold len; simpl; lia). by intros i ?%not_elem_of_nil. }
  apply NoDup_cons in Hnd as [Hi Hnd]. destruct (Hin i) as [e He]; [by left|].
  rewrite He, step_eq. rewrite len_cons in Hmax |- *.
  set (sm1 := if dead e then ExpiredLeaseRecoverySummary.observe_dead_lettered sm
              else ExpiredLeaseRecoverySummary.observe_recovered sm).
  assert (Hsm1 : (ExpiredLeaseRecoverySummary.dead_lettered sm1 =
             ExpiredLeaseRecoverySummary.dead_lettered sm + if dead e then 1 else 0)%N ∧
     (ExpiredLeaseRecoverySummary.recovered sm1 + ExpiredLeaseRecoverySummary.dead_lettered sm1 =
      ExpiredLeaseRecoverySummary.recovered sm + ExpiredLeaseRecoverySummary.dead_lettered sm + 1)%N).
  { unfold sm1. destruct (dead e); simpl; unfold saturating_add_usize; lia. }
  clearbody sm1. destruct Hsm1 as [Hd1 Ht1].
  specialize (IH (<[i := f e]> m) sm1 Hnd).
  destruct (MemDispatch.recover_loop step ids (<[i := f e]> m) sm1) as [m' sm'].
  destruct IH as (H1 & H2 & H3 & H4).
  { intros j Hj. destruct (decide (j = i)) as [->|]; [by rewrite lookup_insert_eq|].
    rewrite lookup_insert_ne by done. apply Hin. by right. }
  { lia. }
  assert (Hother : ∀ j, j ∈ ids.*2 → <[i := f e]> m !! j = m !! j).
  { intros j Hj. rewrite lookup_insert_ne; [done|]. by intros ->. }
  rewrite filter_cons, He. simpl.
  rewrite (filter_ext_in _ (fun j => option_any dead (m !! j))) in H3
    by (intros j Hj; by rewrite Hother).
  split_and!.
  - intros j [->|Hj]%elem_of_cons; [by rewrite H2, lookup_insert_eq, He|]. by rewrite H1, Hother.
  - intros j [Hji Hj]%not_elem_of_cons. by rewrite H2, lookup_insert_ne.
  - rewrite H3, Hd1. destruct (dead e); simpl; [rewrite len_cons|]; lia.
  - lia.
Qed.
End recover_loop.

Definition recovered_execution (request : ExpiredLeaseRecoveryRequest.t) (e : StoredExecution.t) :=
  (MemDispatch.recover_execution request e ExpiredLeaseRecoverySummary.default).1.
Definition recovered_outbox (request : ExpiredLeaseRecoveryRequest.t) (e : StoredOutboxMessage.t) :=
  (MemDispatch.recover_outbox request e ExpiredLeaseRecoverySummary.default).1.
Definition gives_up_execution (request : ExpiredLeaseRecoveryRequest.t) (e : StoredExecution.t) : bool :=
  (ExpiredLeaseRecoveryRequest.max_attempts request
     <=? ExecutionRecord.attempt (StoredExecution.record e))%N.
Definition gives_up_outbox (request : ExpiredLeaseRecoveryRequest.t) (e : StoredOutboxMessage.t) : bool :=
  (ExpiredLeaseRecoveryRequest.max_attempts request
     <=? OutboxMessage.attempts (StoredOutboxMessage.message e))%N.

Lemma recover_execution_eq request e sm :
  MemDispatch.recover_execution request e sm =
  (recovered_execution request e,
   if gives_up_execution request e then ExpiredLeaseRecoverySummary.observe_dead_lettered sm
   else ExpiredLeaseRecoverySummary.observe_recovered sm).
Proof.
  unfold recovered_execution, gives_up_execution, MemDispatch.recover_execution. by case_match.
Qed.

Lemma recover_outbox_eq request e sm :
  MemDispatch.recover_outbox request e sm =
  (recovered_outbox request e,
   if gives_up_outbox request e then ExpiredLeaseRecoverySummary.observe_dead_lettered sm
   else ExpiredLeaseRecoverySummary.observe_recovered sm).
Proof.
  unfold recovered_outbox, gives_up_outbox, MemDispatch.recover_outbox. by case_match.
Qed.

Lemma expired_execution_ids_selection request s :
  MemDispatch.expired_execution_ids request s =
  selection (fun p : ExecutionId * StoredExecution.t =>
      State.execution_lease_is
        (fun l => ExecutionLease.is_expired_at l (ExpiredLeaseRecoveryRequest.now request)) p.2)
    (fun p => (ExecutionRecord.available_at (StoredExecution.record p.2), p.1))
    (fun p => p) (ExpiredLeaseRecoveryRequest.limit request) (map_to_list (State.records s)).
Proof. done. Qed.

Lemma expired_outbox_ids_selection request s :
  MemDispatch.expired_outbox_ids request s =
  selection (fun p : OutboxMessageId * StoredOutboxMessage.t =>
      State.outbox_lease_is
        (fun l => OutboxDeliveryLease.is_expired_at l (ExpiredLeaseRecoveryRequest.now request)) p.2)
    (fun p => (OutboxMessage.available_at (StoredOutboxMessage.message p.2), p.1))
    (fun p => p) (ExpiredLeaseRecoveryRequest.limit request) (map_to_list (State.outbox s)).
Proof. done. Qed.

Lemma expired_execution_ids_NoDup request s : NoDup (MemDispatch.expired_execution_ids request s).*2.
Proof.
  rewrite expired_execution_ids_selection.
  apply (selection_NoDup _ _ _ _ _ fst); [done|apply NoDup_fst_map_to_list].
Qed.

(** The stored executions whose lease has expired. *)
Definition expired_executions (s : State.t) (now : SystemTime) : list StoredExecution.t :=
  filter (fun e => State.execution_lease_is (fun l => ExecutionLease.is_expired_at l now) e)
    (values (State.records s)).

Lemma filter_fmap_len {A B} (g : A → B) (p : B → bool) (l : list A) :
  len (filter (fun x => p (g x)) l) = len (filter (fun y => p y) (g <$> l)).
Proof.
  unfold len. f_equal. induction l as [|x l IH]; [done|].
  rewrite fmap_cons, !filter_cons. repeat case_decide; simpl; lia || done.
Qed.

(** Recovery on the execution queue.  Of the entries whose lease has expired
    it takes the [limit] earliest by (available_at, id); each of them loses its
    lease and becomes pending again, or dead-lettered when its attempt count has
    reached [max_attempts]; attempt count and availability stay.  The summary
    counts exactly these entries, and everything else is untouched. *)
Theorem recover_executions_spec request ctx s :
  ExpiredLeaseRecoveryRequest.queue request = ExecutionQueue →
  (ExpiredLeaseRecoveryRequest.limit request ≤ usize_max)%N →
  ∃ summary s', MemDispatch.recover_expired_leases request ctx s = (Ok summary, s') ∧
    let ids := (MemDispatch.expired_execution_ids request s).*2 in
    (ExpiredLeaseRecoverySummary.recovered summary + ExpiredLeaseRecoverySummary.dead_lettered summary =
       N.min (ExpiredLeaseRecoveryRequest.limit request)
         (len (expired_executions s (ExpiredLeaseRecoveryRequest.now request))))%N ∧
    ExpiredLeaseRecoverySummary.dead_lettered summary =
      len (filter (fun i => option_any (gives_up_execution request) (State.records s !! i)) ids) ∧
    (∀ i, i ∈ ids → ∃ e l e', State.records s !! i = Some e ∧ StoredExecution.lease e = Some l ∧
       ExecutionLease.is_expired_at l (ExpiredLeaseRecoveryRequest.now request) = true ∧
       State.records s' !! i = Some e' ∧ StoredExecution.lease e' = None ∧
       ExecutionRecord.status (StoredExecution.record e') =
         (if gives_up_execution request e then ExecutionRecordStatus.DeadLettered
          else ExecutionRecordStatus.Pending) ∧
       ExecutionRecord.attempt (StoredExecution.record e') =
         ExecutionRecord.attempt (StoredExecution.record e) ∧
       ExecutionRecord.available_at (StoredExecution.record e') =
         ExecutionRecord.available_at (StoredExecution.record e)) ∧
    (∀ i, i ∉ ids → State.records s' !! i = State.records s !! i) ∧
    State.outbox s' = State.outbox s.
Proof.
  intros Hq Hlim. unfold MemDispatch.recover_expired_leases, Store.require_queue_supported, op_bind.
  rewrite Hq. simpl.
  assert (Hlen : len (MemDispatch.expired_execution_ids request s) =
    N.min (ExpiredLeaseRecoveryRequest.limit request)
      (len (expired_executions s (ExpiredLeaseRecoveryRequest.now request)))).
  { rewrite expired_execution_ids_selection. rewrite (selects_length _ _ _ _ _ _ (selection_selects _ _ _ _ _)).
    f_equal. unfold expired_executions, values. apply filter_fmap_len. }
  pose proof (recover_loop_spec (recovered_execution request) (gives_up_execution request)
    (MemDispatch.recover_execution request) (recover_execution_eq request)
    (MemDispatch.expired_execution_ids request s) (State.records s) ExpiredLeaseRecoverySummary.default
    (expired_execution_ids_NoDup request s)) as Hspec.
  destruct (MemDispatch.recover_loop _ _ _ _) as [m sm]. eexists _, _. split; [reflexivity|].
  destruct Hspec as (H1 & H2 & H3 & H4).
  { intros i (e & l & -> & _)%expired_execution_ids_in. by eexists. }
  { simpl. rewrite Hlen. lia. }
  simpl in *. split_and!; [by rewrite H4, Hlen|done| |done|done].
  intros i Hi. destruct (expired_execution_ids_in _ _ _ Hi) as (e & l & He & Hl & Hexp).
  exists e, l, (recovered_execution request e).
  assert (Hm : m !! i = Some (recovered_execution request e)) by (rewrite H1, He by done; done).
  rewrite Hm. clear Hm H1.
  unfold recovered_execution, gives_up_execution, MemDispatch.recover_execution.
  by case_match; split_and!.
Qed.

Lemma recover_executions_spec_witness :
  let request := ExpiredLeaseRecoveryRequest.new ExecutionQueue 10 3 20 in
  ∃ summary s', MemDispatch.recover_expired_leases request demo_ctx demo_claimed = (Ok summary, s') ∧
    (ExpiredLeaseRecoverySummary.recovered summary + ExpiredLeaseRecoverySummary.dead_lettered summary = 1)%N ∧
    State.outbox s' = State.outbox demo_claimed.
Proof.
  intros request.
  destruct (recover_executions_spec request demo_ctx demo_claimed)
    as (summary & s' & Hr & Hn & _ & _ & _ & Ho); [reflexivity|vm_compute; discriminate|].
  exists summary, s'. split; [exact Hr|]. split; [exact Hn|exact Ho].
Defined.

(** ** Expiry is not an attempt *)

(** The life of work whose workers keep dying: claims, renewals, heartbeats, and
    recovery runs with the limit [max]. *)
Definition expiry_call (max : N) (c : StoreCall) : Prop :=
  match c with
  | CallClaim _ _ _ | CallRenew _ _ | CallHeartbeat _ _ => True
  | CallRecover request _ => ExpiredLeaseRecoveryRequest.max_attempts request = max
  | _ => False
  end.

Definition still_tried (i : ExecutionId) (n : N) (s : State.t) : Prop :=
  ∃ e, State.records s !! i = Some e ∧ ExecutionRecord.attempt (StoredExecution.record e) = n ∧
    ExecutionRecord.status (StoredExecution.record e) ≠ ExecutionRecordStatus.DeadLettered.

Lemma still_tried_claim request ctx i j n :
  preserves (still_tried i n) (Store.claim_execution request ctx j).
Proof.
  intros s (e & He & Hn & Hd). destruct (decide (i = j)) as [<-|Hij].
  - destruct (Store.claim_execution request ctx i s) as [[c|err] s'] eqn:Hc; simpl.
    + apply claim_execution_step in Hc as (e1 & He1 & Hc). rewrite next_lease_id_eq in Hc.
      destruct Hc as [Hc ->]. apply claim_execution_ok in Hc as (_ & _ & _ & ->).
      simplify_eq. eexists. split; [simpl; apply lookup_insert_eq|]. simpl. split; [|done].
      unfold StoredExecution.materialize_due_record. by repeat case_match.
    + apply claim_execution_err in Hc as ->. rewrite next_lease_id_eq. by exists e.
  - exists e. by rewrite claim_execution_frame.
Qed.

Lemma still_tried_call max i n c s :
  (n < max)%N → expiry_call max c → still_tried i n s → still_tried i n (run_call s c).
Proof.
  intros Hn Hc Hs. destruct c as [| | |env request ctx|r ctx| |r ctx|h ctx]; try done; simpl in *.
  - destruct (DispatchClaimRequest.queue request) eqn:Hq.
    + rewrite claim_due_execution_state by done. unfold Store.claim_available, op_bind, op_get.
      apply (for_each_preserves (still_tried i n)); [|done]. intros j _. apply still_tried_claim.
    + rewrite claim_due_outbox_state by done. unfold still_tried. by rewrite lease_available_records.
  - destruct (MemDispatch.renew_claim r ctx s) as [[l|err] s'] eqn:Hr; simpl.
    + destruct Hs as (e & He & Hna & Hd). destruct r as [r|r]; simpl in Hr.
      * apply op_map_ok in Hr as (l' & Hr & _).
        apply renew_execution_ok in Hr as (_ & e1 & old & He1 & _ & _ & _ & _ & _ & ->). simpl.
        destruct (decide (i = ExecutionLeaseRenewal.execution_id r)) as [->|Hne].
        -- simplify_eq. eexists. split; [simpl; apply lookup_insert_eq|done].
        -- exists e. split; [simpl; by rewrite lookup_insert_ne|done].
      * apply op_map_ok in Hr as (l' & Hr & _).
        apply renew_outbox_ok in Hr as (_ & e1 & old & _ & _ & _ & _ & _ & _ & ->). by exists e.
    + destruct (renew_shape r ctx s) as [(_ & s1 & Heq & _)|(_ & e & Heq)]; rewrite Hr in Heq; by simplify_eq.
  - unfold MemDispatch.recover_expired_leases, Store.require_queue_supported, op_bind.
    destruct (ExpiredLeaseRecoveryRequest.queue r); simpl; [|by destruct (MemDispatch.recover_loop _ _ _ _)].
    pose proof (recover_loop_ind (fun m => still_tried i n (State.set_records s m))
      (MemDispatch.recover_execution r) (MemDispatch.expired_execution_ids r s) (State.records s)
      ExpiredLeaseRecoverySummary.default) as Hrec.
    destruct (MemDispatch.recover_loop _ _ _ _) as [m sm]; simpl in *. apply Hrec; [|by destruct s].
    intros m' j e sm' (e1 & He1 & Hn1 & Hd1) He. unfold still_tried; simpl in *.
    destruct (decide (i = j)) as [->|Hij]; [|exists e1; split; [by rewrite lookup_insert_ne|done]].
    simplify_eq. eexists. split; [apply lookup_insert_eq|].
    unfold MemDispatch.recover_execution. rewrite (proj2 (N.leb_gt _ _)) by lia. done.
  - unfold MemDispatch.record_heartbeat, op_bind, op_lift.
    by destruct (WorkerHeartbeat.validate h ctx) as [[]|].
Qed.

(** Lease expiry alone never dead-letters work.  However often an execution
    below the attempt limit is claimed, loses its lease and is recovered, its
    attempt count stays and it is not dead-lettered: the "lease expired beyond
    retry limit" branch is only reached by work whose attempts were counted by
    explicit retries. *)
Theorem expiry_never_counts max i n calls s :
  (n < max)%N → Forall (expiry_call max) calls → still_tried i n s →
  still_tried i n (run_calls s calls).
Proof.
  intros Hn Hcs. revert s. induction Hcs as [|c cs Hc Hcs IH]; intros s Hs; [done|].
  by apply IH, (still_tried_call max).
Qed.

Lemma expiry_never_counts_witness :
  still_tried (Id.MkId "exec_1") 1 (run_calls demo_queued
    [CallClaim demo_env (demo_request ExecutionQueue "worker_a" 5) demo_ctx;
     CallRecover (ExpiredLeaseRecoveryRequest.new ExecutionQueue 10 2 20) demo_ctx;
     CallClaim demo_env (demo_request ExecutionQueue "worker_a" 20) demo_ctx;
     CallRecover (ExpiredLeaseRecoveryRequest.new ExecutionQueue 10 2 40) demo_ctx]).
Proof.
  apply (expiry_never_counts 2); [reflexivity|repeat constructor|].
  exists (StoredExecution.mk (demo_record "exec_1" 0) None).
  split; [vm_compute; reflexivity|]. split; [reflexivity|discriminate].
Defined.
