(* ===== verification/MemoryLife.v ===== *)
(** * The life of a lease in the in-memory store

    A lease id is drawn once, sits at one slot until it is given up, and never
    comes back: this is what lets a worker rely on its lease id as proof that the
    work is still its own. *)

From S2P Require Import Prelude RustStd Ids Errors CurrentState Execution Outbox.
From S2P Require Import Transactional Inspection Workers Dispatch Stores Memory MemoryStore MemoryDispatch.
From S2P Require Import MemoryInv MemorySelect MemoryClaim MemoryLease MemoryFinal MemoryRecover.

Section life.
  Context (a : Slot) (l : LeaseId) (Q : option RevisionToken → Prop).

(** [l] was issued, and as long as it is held at [a] the revision there satisfies
    [Q] (until the lease counter saturates). *)
Definition lease_view (s : State.t) : Prop :=
  ((State.next_lease_sequence s ≤ u64_max)%N ∧ issued s l) ∧
  ((State.next_lease_sequence s < u64_max)%N → lease_at s a = Some l → Q (revision_at s a)).

Lemma issued_later s s' :
  (State.next_lease_sequence s ≤ State.next_lease_sequence s')%N → issued s l → issued s' l.
Proof. intros Hle (k & Hk & ->). exists k. split; [lia|done]. Qed.

(** A change that leaves the slot's lease and revision alone. *)
Lemma view_frame s s' :
  State.next_lease_sequence s' = State.next_lease_sequence s →
  lease_at s' a = lease_at s a → revision_at s' a = revision_at s a →
  lease_view s → lease_view s'.
Proof.
  intros Hseq Hl Hr [[Hb Hi] HQ]. split.
  { rewrite Hseq. split; [done|]. by apply (issued_later s); [rewrite Hseq|]. }
  by rewrite Hseq, Hl, Hr.
Qed.

Lemma view_set_record s i e :
  lease_view s →
  (∀ le, a = inl i → StoredExecution.lease e = Some le → ExecutionLease.lease_id le = l →
     (State.next_lease_sequence s < u64_max)%N →
     Q (Some (ExecutionRecord.revision (StoredExecution.record e)))) →
  lease_view (State.set_records s (<[i := e]> (State.records s))).
Proof.
  intros [Hi HQ] He. split; [done|]. simpl. intros Hlt. rewrite lease_at_set_record.
  case_decide as Ha.
  - intros (le & Hle & Hid)%fmap_Some. specialize (He le Ha Hle (eq_sym Hid) Hlt). rewrite Ha. simpl.
    by rewrite lookup_insert_eq.
  - intros Hl. destruct a as [j|j]; simpl; [|by apply HQ].
    rewrite lookup_insert_ne by congruence. by apply HQ.
Qed.

Lemma view_set_outbox s i e :
  lease_view s →
  (∀ le, a = inr i → StoredOutboxMessage.lease e = Some le → OutboxDeliveryLease.lease_id le = l →
     (State.next_lease_sequence s < u64_max)%N →
     Q (Some (OutboxMessage.revision (StoredOutboxMessage.message e)))) →
  lease_view (State.set_outbox s (<[i := e]> (State.outbox s))).
Proof.
  intros [Hi HQ] He. split; [done|]. simpl. intros Hlt. rewrite lease_at_set_outbox.
  case_decide as Ha.
  - intros (le & Hle & Hid)%fmap_Some. specialize (He le Ha Hle (eq_sym Hid) Hlt). rewrite Ha. simpl.
    by rewrite lookup_insert_eq.
  - intros Hl. destruct a as [j|j]; simpl; [by apply HQ|].
    rewrite lookup_insert_ne by congruence. by apply HQ.
Qed.

(** Drawing an id: [l] stays issued, and the new one is another. *)
Lemma view_drawn s :
  lease_view s → lease_view (State.next_lease_id s).2 ∧
  ((State.next_lease_sequence (State.next_lease_id s).2 < u64_max)%N → (State.next_lease_id s).1 ≠ l).
Proof.
  intros [[Hb Hi] HQ]. rewrite next_lease_id_eq. simpl. unfold saturating_add_u64. split; [split; simpl|].
  - split; [lia|]. destruct Hi as (k & Hk & ->). exists k. split; [simpl; lia|done].
  - intros Hlt Hl. assert (Hr : Q (revision_at s a)); [|by destruct a].
    apply HQ; [lia|]. by destruct a.
  - intros Hlt Heq. destruct Hi as (k & Hk & Hl'). rewrite <- Heq in Hl'. apply lease_id_inj in Hl'. lia.
Qed.

Lemma view_claim_execution request ctx i : preserves lease_view (Store.claim_execution request ctx i).
Proof.
  intros s Hs. destruct (view_drawn s Hs) as [Hs1 Hfresh].
  destruct (Store.claim_execution request ctx i s) as [[c|err] s'] eqn:Hc; simpl;
    [|by apply claim_execution_err in Hc as ->].
  apply claim_execution_step in Hc as (e & He & Hc). rewrite next_lease_id_eq in *.
  destruct Hc as [_ ->]. refine (view_set_record _ i _ Hs1 _); simpl.
  intros le _ [= <-] Hid Hlt. by destruct (Hfresh Hlt).
Qed.

Lemma view_claim_message gen request ctx i : preserves lease_view (Store.claim_message gen request ctx i).
Proof.
  intros s Hs. destruct (view_drawn s Hs) as [Hs1 Hfresh].
  destruct (Store.claim_message gen request ctx i s) as [[c|err] s'] eqn:Hc; simpl;
    [|by apply claim_message_err in Hc as ->].
  apply claim_message_step in Hc as (e & He & Hc). rewrite next_lease_id_eq in *.
  destruct Hc as [_ ->]. refine (view_set_outbox _ i _ Hs1 _); simpl.
  intros le _ [= <-] Hid Hlt. by destruct (Hfresh Hlt).
Qed.

Lemma view_claim {env : Env} request ctx : preserves lease_view (MemDispatch.claim_due request ctx).
Proof.
  intros s Hs. destruct (DispatchClaimRequest.queue request) eqn:Hq.
  - rewrite claim_due_execution_state by done. unfold Store.claim_available, op_bind, op_get.
    apply (for_each_preserves lease_view); [|done]. intros i _. apply view_claim_execution.
  - rewrite claim_due_outbox_state by done. unfold Store.lease_available, op_bind, op_get.
    apply (for_each_preserves lease_view); [|done]. intros i _. apply view_claim_message.
Qed.

(** A renewal keeps the id and the revision. *)
Lemma view_renew r ctx : preserves lease_view (MemDispatch.renew_claim r ctx).
Proof.
  intros s Hs. destruct r as [r|r]; simpl; unfold op_map, op_bind.
  - destruct (Store.renew_execution_lease r ctx s) as [[l'|err] s'] eqn:Hr; simpl;
      [|by apply renew_execution_rejects in Hr as ->].
    apply renew_execution_ok in Hr as (_ & e & old & He & Hold & Hid & _ & _ & -> & ->).
    apply view_set_record; simpl; [done|]. intros le Ha [= <-]. simpl. intros Hl Hlt.
    destruct Hs as [_ HQ]. specialize (HQ Hlt). rewrite Ha in HQ. simpl in HQ. rewrite He in HQ. simpl in HQ.
    apply HQ. rewrite Hold. simpl. congruence.
  - destruct (Store.renew_outbox_lease r ctx s) as [[l'|err] s'] eqn:Hr; simpl;
      [|by apply renew_outbox_rejects in Hr as ->].
    apply renew_outbox_ok in Hr as (_ & e & old & He & Hold & Hid & _ & _ & -> & ->).
    apply view_set_outbox; simpl; [done|]. intros le Ha [= <-]. simpl. intros Hl Hlt.
    destruct Hs as [_ HQ]. specialize (HQ Hlt). rewrite Ha in HQ. simpl in HQ. rewrite He in HQ. simpl in HQ.
    apply HQ. rewrite Hold. simpl. congruence.
Qed.

Lemma view_finalize r ctx : preserves lease_view (MemDispatch.finalize r ctx).
Proof.
  intros s Hs. destruct (finalize_shape r ctx s) as [i e _ _ _|i e m st d dl err _ _ _ _ _|e _ _]; simpl.
  - by apply view_set_record.
  - by apply view_set_outbox.
  - done.
Qed.

Lemma view_recover r ctx : preserves lease_view (MemDispatch.recover_expired_leases r ctx).
Proof.
  intros s Hs. unfold MemDispatch.recover_expired_leases, Store.require_queue_supported, op_bind.
  destruct (ExpiredLeaseRecoveryRequest.queue r); simpl.
  - pose proof (recover_loop_ind (fun m => lease_view (State.set_records s m))
      (MemDispatch.recover_execution r) (MemDispatch.expired_execution_ids r s)
      (State.records s) ExpiredLeaseRecoverySummary.default) as Hrec.
    destruct (MemDispatch.recover_loop _ _ _ _) as [m sm]; simpl in *. apply Hrec; [|by destruct s].
    intros m' i e sm' Hm' _. refine (view_set_record (State.set_records s m') i _ Hm' _).
    unfold MemDispatch.recover_execution. by case_match.
  - pose proof (recover_loop_ind (fun m => lease_view (State.set_outbox s m))
      (MemDispatch.recover_outbox r) (MemDispatch.expired_outbox_ids r s)
      (State.outbox s) ExpiredLeaseRecoverySummary.default) as Hrec.
    destruct (MemDispatch.recover_loop _ _ _ _) as [m sm]; simpl in *. apply Hrec; [|by destruct s].
    intros m' i e sm' Hm' _. refine (view_set_outbox (State.set_outbox s m') i _ Hm' _).
    unfold MemDispatch.recover_outbox. by case_match.
Qed.

Lemma view_append r ctx : preserves lease_view (Store.append r ctx).
Proof.
  intros s Hs. unfold Store.append, op_bind, op_get, op_lift, put_record.
  case_decide; simpl; [done|]. by apply view_set_record.
Qed.

Lemma view_append_outbox m ctx : preserves lease_view (Store.append_outbox m ctx).
Proof.
  intros s Hs. unfold Store.append_outbox, op_bind, op_get, op_lift, put_outbox.
  case_decide; simpl; [done|]. by apply view_set_outbox.
Qed.

Lemma view_heartbeat h ctx : preserves lease_view (MemDispatch.record_heartbeat h ctx).
Proof.
  intros s Hs. unfold MemDispatch.record_heartbeat, op_bind, op_lift.
  destruct (WorkerHeartbeat.validate h ctx) as [[]|]; simpl; [|done].
  by apply (view_frame s); destruct a.
Qed.

(** An overwrite of the record is the one call that may change its revision under
    the lease. *)
Definition overwrites (c : StoreCall) : Prop :=
  match c with CallUpdate r _ => a = inl (ExecutionRecord.id r) | _ => False end.

Lemma view_update r ctx s :
  (a = inl (ExecutionRecord.id r) → ∀ x y, Q x → Q y) →
  lease_view s → lease_view (Store.update r ctx s).2.
Proof.
  intros Hindep Hs. unfold Store.update, op_bind, get_record, put_record.
  destruct (State.records s !! ExecutionRecord.id r) as [e|] eqn:He; simpl; [|done].
  apply view_set_record; [done|]. simpl. intros le Ha Hle Hid Hlt.
  destruct (ExecutionRecordStatus.eqb _ _); [|done].
  apply (Hindep Ha (revision_at s a)). destruct Hs as [_ HQ]. apply HQ; [done|].
  rewrite Ha. simpl. rewrite He. simpl. rewrite Hle. simpl. by f_equal.
Qed.

Lemma view_call c s :
  (overwrites c → ∀ x y, Q x → Q y) → lease_view s → lease_view (run_call s c).
Proof.
  intros Hc Hs. destruct c; simpl in *; [by apply view_append|by apply view_update|by apply view_append_outbox|
    by apply view_claim|by apply view_renew|by apply view_finalize|by apply view_recover|by apply view_heartbeat].
Qed.

Lemma view_calls cs s :
  Forall (fun c => overwrites c → ∀ x y, Q x → Q y) cs → lease_view s → lease_view (run_calls s cs).
Proof.
  intros Hcs. revert s. induction Hcs as [|c cs Hc Hcs IH]; intros s Hs; [done|]. by apply IH, view_call.
Qed.
End life.

(** [l] was issued and slot [a] is not, or no longer, held under it. *)
Definition lost (s : State.t) (a : Slot) (l : LeaseId) : Prop := issued s l ∧ lease_at s a ≠ Some l.

(** a lost lease never comes back.  Once the store has issued lease id [l] and
    slot [a] is no longer held under it, no calls whatever, in any order, make
    [a] held under [l] again (until the 64-bit counter saturates): a worker that
    was overtaken stays overtaken. *)
Theorem lost_lease_never_returns s a l calls :
  store_wf s → (State.next_lease_sequence (run_calls s calls) < u64_max)%N →
  lost s a l → lost (run_calls s calls) a l.
Proof.
  intros Hwf Hlt [Hi Hl].
  assert (Hv : lease_view a l (fun _ => False) (run_calls s calls)).
  { apply view_calls; [apply Forall_forall; by intros|].
    split; [split; [apply (wf_sequence s Hwf)|done]|]. by intros _ ?%Hl. }
  destruct Hv as [[_ Hi'] Hv]. split; [done|]. intros Hheld. by apply Hv.
Qed.

Lemma lost_lease_never_returns_witness :
  let calls :=
    [CallClaim demo_env (demo_request ExecutionQueue "worker_a" 40) demo_ctx;
     CallRecover (ExpiredLeaseRecoveryRequest.new ExecutionQueue 10 3 60) demo_ctx;
     CallClaim demo_env (demo_request ExecutionQueue "worker_a" 60) demo_ctx] in
  lost (run_calls demo_reclaimed calls) (inl (Id.MkId "exec_1")) (Id.MkId "lease_exec_mem_1").
Proof.
  intros calls. apply (lost_lease_never_returns demo_reclaimed).
  - apply wf_run_calls, demo_claimed_wf.
  - vm_compute. reflexivity.
  - split; [exists 1%N; split; [vm_compute; split; discriminate|reflexivity]|vm_compute; discriminate].
Defined.
