(* ===== verification/MemoryLaws.v ===== *)
(** * The in-memory store keeps the promises of the store interfaces

    The instance of [WorkerStoreLaws], the head-of-line effect of records in
    flight without a lease, and the round trip from a claim to its resolution. *)

From S2P Require Import Prelude RustStd Ids Errors CurrentState Execution Outbox.
From S2P Require Import Transactional Inspection Workers Dispatch Stores Memory MemoryStore MemoryDispatch.
From S2P Require Import MemoryInv MemorySelect MemoryClaim MemoryLease MemoryFinal MemoryRecover.

(** ** The laws *)

Lemma for_each_Forall {S E A B} (P : B → Prop) (f : A → Op S E B) l s bs s' :
  (∀ x s b s', f x s = (Ok b, s') → P b) →
  Store.for_each f l s = (Ok bs, s') → length bs = length l ∧ ∀ b, b ∈ bs → P b.
Proof.
  intros Hf. revert s bs. induction l as [|x l IH]; intros s bs.
  - simpl. unfold op_ret. intros [= <- _]. split; [done|]. by intros b ?%not_elem_of_nil.
  - intros (b & s1 & bs' & Hb & Hbs & ->)%for_each_cons_ok. apply IH in Hbs as [Hlen HP].
    split; [simpl; lia|]. intros b' [->|?]%elem_of_cons; [by eapply Hf|by apply HP].
Qed.

Lemma find_claimable_len clock s request :
  (len (State.find_claimable_ids clock s request) ≤ N.max (ExecutionLeaseRequest.batch_size request) 1)%N.
Proof.
  rewrite find_claimable_ids_eq, len_fmap. apply len_truncate_le.
Qed.

Lemma find_claimable_messages_len clock s request :
  (len (State.find_claimable_message_ids clock s request)
   ≤ N.max (OutboxDeliveryLeaseRequest.batch_size request) 1)%N.
Proof.
  unfold State.find_claimable_message_ids. rewrite len_fmap. apply len_truncate_le.
Qed.

Lemma memory_claim_batch {env : Env} request ctx s claimed s' :
  MemDispatch.claim_due request ctx s = (Ok claimed, s') →
  (len claimed ≤ N.max (DispatchClaimRequest.batch_size request) 1)%N ∧
  ∀ c, c ∈ claimed → leased_for request c.
Proof.
  intros Hc. destruct (DispatchClaimRequest.queue request) eqn:Hq.
  - rewrite claim_due_execution in Hc by done. apply op_map_ok in Hc as (cs & Hcs & ->).
    unfold Store.claim_available, op_bind, op_get in Hcs.
    apply (for_each_Forall (fun c => leased_for request (ClaimedDispatchWork.Execution c))) in Hcs as [Hlen HP].
    + split; [|by intros c (c' & -> & Hc')%list_elem_of_fmap; apply HP].
      rewrite len_fmap. unfold len. rewrite Hlen.
      pose proof (find_claimable_len env_clock s (execution_claim request)) as Hl.
      unfold len in Hl. simpl in Hl. lia.
    + intros i s1 c s2 ([_ (k & Hl & _) _] & _)%claim_execution_claimed_as.
      unfold leased_for; simpl. rewrite Hl. by split_and!.
  - rewrite claim_due_outbox in Hc by done. apply op_map_ok in Hc as (cs & Hcs & ->).
    unfold Store.lease_available, op_bind, op_get in Hcs.
    apply (for_each_Forall (fun c => leased_for request (ClaimedDispatchWork.Outbox c))) in Hcs as [Hlen HP].
    + split; [|by intros c (c' & -> & Hc')%list_elem_of_fmap; apply HP].
      rewrite len_fmap. unfold len. rewrite Hlen.
      pose proof (find_claimable_messages_len env_clock s (outbox_claim request)) as Hl.
      unfold len in Hl. simpl in Hl. lia.
    + intros i s1 c s2 (e & _ & Hstep)%claim_message_step. rewrite next_lease_id_eq in Hstep.
      destruct Hstep as [(_ & _ & ->)%claim_message_ok _]. by split_and!.
Qed.

Lemma finalize_rejects r ctx : rejects_unchanged (MemDispatch.finalize r ctx).
Proof.
  intros s e s' Hf. destruct (finalize_shape r ctx s) in Hf; by simplify_eq.
Qed.

Lemma renew_rejects r ctx : rejects_unchanged (MemDispatch.renew_claim r ctx).
Proof.
  intros s e s' Hr. destruct (renew_shape r ctx s) as [(_ & s1 & Heq & _)|(_ & e1 & Heq)];
    rewrite Heq in Hr; by simplify_eq.
Qed.

Lemma record_heartbeat_ok h ctx s s' :
  MemDispatch.record_heartbeat h ctx s = (Ok tt, s') →
  s' = State.set_heartbeats s
    (<[(WorkerHeartbeat.scope h, WorkerHeartbeat.worker_id h) :=
        WorkerHeartbeat.with_active_leases h
          (State.active_leases_for_worker s (WorkerHeartbeat.worker_id h) (WorkerHeartbeat.recorded_at h))]>
       (State.heartbeats s)).
Proof.
  unfold MemDispatch.record_heartbeat, op_bind, op_lift.
  destruct (WorkerHeartbeat.validate h ctx) as [[]|]; [|done]. by intros [= <-].
Qed.

Lemma snapshot_heartbeat_recorded h ctx s s' worker scope t :
  MemDispatch.record_heartbeat h ctx s = (Ok tt, s') →
  worker = WorkerHeartbeat.worker_id h → scope = WorkerHeartbeat.scope h →
  ∃ h', State.snapshot_heartbeat s' worker scope t = Some h' ∧ same_heartbeat h h'.
Proof.
  intros Hr -> ->. apply record_heartbeat_ok in Hr as ->. unfold State.snapshot_heartbeat. simpl.
  rewrite lookup_insert_eq. simpl. eexists. split; [done|]. by destruct h.
Qed.

#[global] Instance memory_laws {env : Env} : WorkerStoreLaws State.t.
Proof.
  split; simpl.
  - intros. by eapply memory_claim_batch.
  - apply finalize_rejects.
  - apply renew_rejects.
  - intros r ctx s l s' Hr. destruct (renew_shape r ctx s) as [(_ & s1 & Heq & _)|(_ & e1 & Heq)];
      rewrite Heq in Hr; by simplify_eq.
  - intros h ctx s. unfold MemDispatch.record_heartbeat, op_bind, op_lift.
    by destruct (WorkerHeartbeat.validate h ctx) as [[]|].
  - intros h ctx s e s'. unfold MemDispatch.record_heartbeat, op_bind, op_lift.
    destruct (WorkerHeartbeat.validate h ctx) as [[]|]; by intros [= _ <-].
  - intros h ctx ctx' s s' w Hr Hw Hs Hv.
    destruct (snapshot_heartbeat_recorded h ctx s s' (WorkerVisibilityRef.worker_id w)
      (WorkerVisibilityRef.scope w) (WorkerVisibilityRef.visible_at w) Hr Hw Hs) as (h' & Hh' & Hsame).
    exists h'. split; [|done]. unfold MemDispatch.lookup_worker, State.visible_heartbeat.
    rewrite Hh'. simpl.
    replace (WorkerHeartbeat.visible_until h') with (WorkerHeartbeat.visible_until h)
      by (destruct h, h'; unfold same_heartbeat, WorkerHeartbeat.with_active_leases in Hsame; simpl in *; congruence).
    by rewrite (proj2 (Z.leb_le _ _) Hv).
  - intros h ctx s request ctx'. unfold MemDispatch.record_heartbeat, op_bind, op_lift.
    destruct (WorkerHeartbeat.validate h ctx) as [[]|]; simpl; [|done].
    unfold MemDispatch.select_due, Store.require_queue_supported, MemDispatch.convert, op_bind, op_lift, op_map.
    unfold DispatchSelectionRequest.as_execution_request, DispatchSelectionRequest.as_outbox_request.
    by destruct (DispatchSelectionRequest.queue request).
  - intros h ctx ctx' s s' w Hr Hw Hs.
    destruct (snapshot_heartbeat_recorded h ctx s s' (WorkerDispatchSnapshotRef.worker_id w)
      (WorkerDispatchSnapshotRef.scope w) (WorkerDispatchSnapshotRef.observed_at w) Hr Hw Hs)
      as (h' & Hh' & Hsame).
    unfold MemDispatch.lookup_worker_snapshot. rewrite Hh'. simpl. rewrite andb_false_r.
    eexists _, h'. split; [done|]. by split.
Qed.

(** ** From a claim to its resolution *)

Lemma claim_message_frame gen request ctx i j s :
  j ≠ i → State.outbox (Store.claim_message gen request ctx i s).2 !! j = State.outbox s !! j.
Proof.
  intros Hj. destruct (Store.claim_message gen request ctx i s) as [[c|e] s'] eqn:Hc; simpl.
  - apply claim_message_step in Hc as (e & He & Hc). rewrite next_lease_id_eq in Hc.
    destruct Hc as [_ ->]. simpl. by rewrite lookup_insert_ne.
  - apply claim_message_err in Hc as ->. by rewrite next_lease_id_eq.
Qed.

(** What the store holds for a message claim. *)
Definition message_claim_stored (s : State.t) (c : ClaimedOutboxDelivery.t) : Prop :=
  ∃ e, State.outbox s !! OutboxMessage.id (ClaimedOutboxDelivery.message c) = Some e ∧
    StoredOutboxMessage.message e = ClaimedOutboxDelivery.message c ∧
    StoredOutboxMessage.lease e = Some (ClaimedOutboxDelivery.lease c).

Lemma lease_loop_stored gen request ctx ids s claimed s' :
  store_wf s → NoDup ids →
  Store.for_each (Store.claim_message gen request ctx) ids s = (Ok claimed, s') →
  ∀ c, c ∈ claimed →
    OutboxMessage.id (ClaimedOutboxDelivery.message c) ∈ ids ∧ message_claim_stored s' c.
Proof.
  revert s claimed. induction ids as [|i ids IH]; intros s claimed Hwf Hnd.
  { simpl. unfold op_ret. by intros [= <- _] c ?%not_elem_of_nil. }
  apply NoDup_cons in Hnd as [Hi Hnd].
  intros (c & s1 & cs & Hc & Hcs & ->)%for_each_cons_ok.
  pose proof (wf_claim_message gen request ctx i s Hwf) as Hwf1. rewrite Hc in Hwf1; simpl in Hwf1.
  intros c' [->|Hc']%elem_of_cons.
  - assert (Hid : OutboxMessage.id (ClaimedOutboxDelivery.message c) = i ∧ message_claim_stored s1 c).
    { apply claim_message_step in Hc as (e & He & Hc). rewrite next_lease_id_eq in Hc.
      destruct Hc as [(_ & _ & ->)%claim_message_ok ->]. simpl.
      split; [by apply (wf_outbox_key s Hwf)|]. unfold message_claim_stored; simpl.
      rewrite (wf_outbox_key s Hwf i e He), lookup_insert_eq. by eexists. }
    destruct Hid as [Hid (e & He & Hm & Hl)]. rewrite Hid in He. split; [rewrite Hid; by left|].
    exists e. rewrite Hid. split; [|done].
    assert (Hfr : State.outbox s' !! i = State.outbox s1 !! i); [|by rewrite Hfr].
    pose proof (for_each_preserves (fun s2 => State.outbox s2 !! i = State.outbox s1 !! i)
      (Store.claim_message gen request ctx) ids) as Hp.
    specialize (Hp ltac:(intros j Hj s2 Hs2; rewrite claim_message_frame; [done|by intros ->]) s1 eq_refl).
    by rewrite Hcs in Hp.
  - destruct (IH s1 cs Hwf1 Hnd Hcs c' Hc') as [Hin Hst]. split; [by right|done].
Qed.

Lemma claimable_messages_NoDup clock s request :
  store_wf s → NoDup (State.find_claimable_message_ids clock s request).
Proof.
  intros Hwf. unfold State.find_claimable_message_ids. rewrite selectable_due_messages_selection.
  apply (selection_NoDup _ _ _ _ _ (fun e => OutboxMessage.id (StoredOutboxMessage.message e))); [done|].
  apply values_keyed_NoDup. apply (wf_outbox_key s Hwf).
Qed.

(** The resolutions a worker can make of its claim. *)
Inductive resolution_of (c : ClaimedDispatchWork.t) : DispatchResolution.t → Prop :=
| resolves_complete t : resolution_of c (ClaimedDispatchWork.complete c t)
| resolves_retry gen t next error r :
    ClaimedDispatchWork.retry gen c t next error = Ok r → resolution_of c r
| resolves_dead_letter gen t error r :
    ClaimedDispatchWork.dead_letter gen c t error = Ok r → resolution_of c r.

(** Where the claimed work sits in the store, and at which revision. *)
Definition work_slot (c : ClaimedDispatchWork.t) : Slot :=
  match c with
  | ClaimedDispatchWork.Execution c => inl (ExecutionRecord.id (ClaimedExecution.record c))
  | ClaimedDispatchWork.Outbox c => inr (OutboxMessage.id (ClaimedOutboxDelivery.message c))
  end.

Definition work_revision (c : ClaimedDispatchWork.t) : RevisionToken :=
  match c with
  | ClaimedDispatchWork.Execution c => ExecutionRecord.revision (ClaimedExecution.record c)
  | ClaimedDispatchWork.Outbox c => OutboxMessage.revision (ClaimedOutboxDelivery.message c)
  end.

Definition work_lease_id (c : ClaimedDispatchWork.t) : LeaseId :=
  DispatchLease.lease_id (ClaimedDispatchWork.lease c).

Lemma resolution_of_work c r :
  resolution_of c r →
  resolution_slot r = work_slot c ∧ DispatchResolution.lease_id r = work_lease_id c ∧
  resolution_revision r = Some (work_revision c).
Proof.
  destruct c as [c|c]; intros [t|gen t next error r' Hr|gen t error r' Hr]; [done| | |done| |];
    simpl in Hr; unfold ClaimedExecution.retry, ClaimedExecution.dead_letter,
      ClaimedOutboxDelivery.retry, ClaimedOutboxDelivery.dead_letter in Hr;
    repeat case_match; simplify_eq/=; done.
Qed.

(** The store holds the slot under the claim's lease, at the claim's revision. *)
Definition work_held (s : State.t) (c : ClaimedDispatchWork.t) : Prop :=
  lease_at s (work_slot c) = Some (work_lease_id c) ∧
  revision_at s (work_slot c) = Some (work_revision c).

Lemma held_accepts s c r : work_held s c → resolution_of c r → accepts s r.
Proof.
  intros [Hl Hv] (Hs & Hid & Hr)%resolution_of_work. unfold accepts. rewrite Hs, Hid, Hr.
  split; [done|congruence].
Qed.

(** Right after a claim the store holds everything it handed out. *)
Lemma claimed_held {env : Env} request ctx s claimed s' c :
  store_wf s → MemDispatch.claim_due request ctx s = (Ok claimed, s') → c ∈ claimed → work_held s' c.
Proof.
  intros Hwf Hc Hin. destruct c as [c|c].
  - destruct (claimed_ids _ _ _ _ _ _ Hwf Hc Hin) as (i & _ & Hca & _).
    pose proof (claimed_as_id _ _ _ _ _ Hwf Hca) as Hid. destruct Hca as [_ _ Hst].
    unfold work_held; simpl. rewrite Hid, Hst. done.
  - destruct (DispatchClaimRequest.queue request) eqn:Hq.
    { rewrite claim_due_execution in Hc by done. apply op_map_ok in Hc as (cs & _ & ->).
      by apply list_elem_of_fmap in Hin as (c' & [=] & _). }
    rewrite claim_due_outbox in Hc by done. apply op_map_ok in Hc as (cs & Hcs & ->).
    apply list_elem_of_fmap in Hin as (c' & [= <-] & Hin).
    unfold Store.lease_available, op_bind, op_get in Hcs.
    destruct (lease_loop_stored _ _ _ _ _ _ _ Hwf (claimable_messages_NoDup _ _ _ Hwf) Hcs c Hin)
      as [_ (e & He & Hm & Hle)].
    unfold work_held; simpl. rewrite He. simpl. rewrite Hle, Hm. done.
Qed.

(** what a worker claimed it can finish.  Right after a claim, on either queue,
    the store accepts every resolution (completion, retry, dead letter) a worker
    makes of any of the items it was handed. *)
Theorem claimed_work_can_finish {env : Env} request ctx s claimed s' c r ctx' :
  store_wf s → MemDispatch.claim_due request ctx s = (Ok claimed, s') →
  c ∈ claimed → resolution_of c r →
  (MemDispatch.finalize r ctx' s').1 = Ok tt.
Proof.
  intros Hwf Hc Hin Hr.
  pose proof (held_accepts _ _ _ (claimed_held _ _ _ _ _ _ Hwf Hc Hin) Hr) as Hacc.
  by destruct (finalize_shape r ctx' s') as [| |e Hno _].
Qed.

Lemma claimed_work_can_finish_witness :
  (MemDispatch.finalize (ClaimedDispatchWork.complete (ClaimedDispatchWork.Execution demo_claim) 7)
     demo_ctx demo_claimed).1 = Ok tt.
Proof.
  refine (claimed_work_can_finish (env:=demo_env) _ _ _ _ _ _ _ _ demo_queued_wf demo_claim_runs _
    (resolves_complete _ 7)).
  apply list_elem_of_here.
Defined.

(** ** Records in flight without a lease *)

(** A due record that is in flight but leased to nobody.  [append] and [update]
    can store one; selection offers it, and no claim accepts it. *)
Definition orphaned (e : StoredExecution.t) : Prop :=
  ExecutionRecord.status (StoredExecution.record e) = ExecutionRecordStatus.InFlight ∧
  StoredExecution.lease e = None.

Lemma for_each_app_err {S E A B} (f : A → Op S E B) l1 x l2 s bs s1 e s2 :
  Store.for_each f l1 s = (Ok bs, s1) → f x s1 = (Err e, s2) →
  Store.for_each f (l1 ++ x :: l2) s = (Err e, s2).
Proof.
  revert s bs. induction l1 as [|y l1 IH]; intros s bs.
  - simpl. unfold op_ret. intros [= _ ->] Hx. unfold op_bind. by rewrite Hx.
  - intros (b & s3 & bs' & Hb & Hbs & ->)%for_each_cons_ok Hx.
    simpl. unfold op_bind. rewrite Hb. by rewrite (IH s3 bs').
Qed.

(** One record in flight without a lease blocks its queue.  If the batch that
    selection proposes contains such a record, the whole claim fails with
    [execution_already_claimed]; the entries before it in the batch stay leased
    to the worker, which never learns of them; and the record is still there to
    block the next claim. *)
Theorem orphan_blocks_claims clock request ctx s l1 i l2 e :
  store_wf s → is_blank (ExecutionLeaseRequest.leased_by request) = false →
  State.find_claimable_ids clock s request = l1 ++ i :: l2 →
  State.records s !! i = Some e → orphaned e →
  (∀ j e', j ∈ l1 → State.records s !! j = Some e' → ¬ orphaned e') →
  ∃ err s', Store.claim_available clock request ctx s = (Err err, s') ∧
    AppError.code err = "execution_already_claimed"%string ∧
    State.records s' !! i = Some e ∧
    ∀ j, j ∈ l1 → ∃ e' l', State.records s' !! j = Some e' ∧ StoredExecution.lease e' = Some l' ∧
      ExecutionLease.leased_by l' = ExecutionLeaseRequest.leased_by request ∧
      ExecutionRecord.status (StoredExecution.record e') = ExecutionRecordStatus.InFlight.
Proof.
  intros Hwf Hb Hids He [Hst Hle] Hl1.
  pose proof (claimable_ids_NoDup clock s request Hwf) as Hnd. rewrite Hids in Hnd.
  apply NoDup_app in Hnd as (Hnd1 & Hdisj & [Hi2 _]%NoDup_cons).
  assert (Hi1 : i ∉ l1) by (intros Hi; apply (Hdisj i Hi); by left).
  assert (Hdue : ∀ j, j ∈ l1 ++ i :: l2 → ∃ e', State.records s !! j = Some e' ∧
     StoredExecution.is_due_at e' (ExecutionLeaseRequest.now request) true = true)
    by (intros j Hj; rewrite <- Hids in Hj; by apply (claimable_ids_due clock s request)).
  destruct (claim_loop_total request ctx l1 s Hb Hnd1) as (cs & s1 & Hcs).
  { intros j Hj. destruct (Hdue j) as (e' & He' & Hd); [apply elem_of_app; by left|].
    exists e'. split; [done|]. split; [done|]. intros Hfl.
    destruct (StoredExecution.lease e') eqn:Hle'; [by eexists|]. by destruct (Hl1 j e' Hj He'). }
  pose proof (claim_loop_frame request ctx l1 i s Hi1) as Hfr. rewrite Hcs, He in Hfr. simpl in Hfr.
  assert (∃ err, Store.claim_execution request ctx i s1 = (Err err, (State.next_lease_id s1).2) ∧
    AppError.code err = "execution_already_claimed"%string) as (err & Hx & Hcode).
  { unfold Store.claim_execution, get_record, op_lift, op_ret, op_bind.
    rewrite draw_lease_id_eq, next_lease_id_eq; simpl. rewrite Hfr. simpl.
    unfold StoredExecution.materialize_due_record. rewrite Hle. unfold ClaimedExecution.claim; simpl.
    rewrite Hb, Hst. destruct (Hdue i) as (e' & He' & Hd); [apply elem_of_app; right; by left|].
    simplify_eq. unfold StoredExecution.is_due_at in Hd. rewrite Hst in Hd.
    destruct (_ <? _)%Z; [done|]. by eexists. }
  exists err, (State.next_lease_id s1).2. rewrite next_lease_id_eq. simpl. split_and!; [|done|done|].
  - unfold Store.claim_available, op_bind, op_get. rewrite Hids.
    rewrite next_lease_id_eq in Hx. by eapply for_each_app_err.
  - intros j Hj. apply claim_loop_claimed in Hcs; [|apply Hwf|done].
    apply list_elem_of_lookup in Hj as [n Hn].
    destruct (Forall2_lookup_l _ _ _ _ _ Hcs Hn) as (c & _ & [(e' & _ & Hr) (k & Hl & _) Hst']).
    eexists _, _. split; [exact Hst'|]. simpl. rewrite Hl, Hr. done.
Qed.

(** A record appended in flight, between two that could run. *)
Lemma orphan_blocks_claims_witness :
  let orphan := ExecutionRecord.with_status (demo_record "exec_15" 2) ExecutionRecordStatus.InFlight in
  let s := run_calls demo_queued [CallAppend orphan demo_ctx] in
  ∃ err s', Store.claim_available 0 (ExecutionLeaseRequest.new "worker_a" 5 10 5) demo_ctx s = (Err err, s') ∧
    AppError.code err = "execution_already_claimed"%string.
Proof.
  intros orphan s.
  destruct (orphan_blocks_claims 0 (ExecutionLeaseRequest.new "worker_a" 5 10 5) demo_ctx s
    [Id.MkId "exec_1"] (Id.MkId "exec_15") [Id.MkId "exec_2"] (StoredExecution.mk orphan None))
    as (err & s' & Hc & Hcode & _).
  - apply wf_run_calls, demo_queued_wf.
  - reflexivity.
  - vm_compute. reflexivity.
  - vm_compute. reflexivity.
  - split; reflexivity.
  - intros j e' Hj%list_elem_of_singleton He' [Hst _]. subst j.
    assert (Hrun : State.records s !! (Id.MkId "exec_1" : ExecutionId) =
      Some (StoredExecution.mk (demo_record "exec_1" 0) None)) by (vm_compute; reflexivity).
    rewrite Hrun in He'. injection He' as <-. discriminate Hst.
  - exists err, s'. split; [exact Hc|exact Hcode].
Defined.
