(* ===== verification/MemoryInspect.v ===== *)
(** * What operators see of the in-memory store

    The summaries count what they name, the inspection view and the claim path
    agree on what is due, and the listings use the filters the queries declare. *)

From S2P Require Import Prelude RustStd Ids Errors CurrentState Execution Outbox.
From S2P Require Import Transactional Inspection Workers Dispatch Stores Memory MemoryStore MemoryDispatch.
From S2P Require Import MemoryInv MemorySelect.

(** ** Counting folds *)

Lemma foldl_project {S T A} (π : S → T) (step : S → A → S) (step' : T → A → T) s l :
  (∀ s a, π (step s a) = step' (π s) a) → π (foldl step s l) = foldl step' (π s) l.
Proof.
  intros Hπ. revert s. induction l as [|a l IH]; intros s; simpl; [done|]. by rewrite IH, Hπ.
Qed.

Definition count {A} (p : A → bool) (l : list A) : N := len (filter (fun x => p x) l).

Lemma count_cons {A} (p : A → bool) x l : count p (x :: l) = ((if p x then 1 else 0) + count p l)%N.
Proof.
  unfold count. rewrite filter_cons. destruct (p x); simpl; [apply len_cons|done].
Qed.

Lemma count_le {A} (p : A → bool) l : (count p l ≤ len l)%N.
Proof. induction l as [|x l IH]; [done|]. rewrite count_cons, len_cons. destruct (p x); lia. Qed.

Lemma count_true {A} (l : list A) : count (fun _ => true) l = len l.
Proof. induction l as [|x l IH]; [done|]. rewrite count_cons, len_cons. lia. Qed.

Lemma count_ext_in {A} (p q : A → bool) l : (∀ x, x ∈ l → p x = q x) → count p l = count q l.
Proof. intros Hpq. unfold count. by rewrite (filter_ext_in p q). Qed.

(** A counter bumped for each element that satisfies [p] ends at their number. *)
Lemma foldl_bump {A} (p : A → bool) l n :
  (n + len l ≤ usize_max)%N → foldl (fun n x => bump (p x) n) n l = (n + count p l)%N.
Proof.
  revert n. induction l as [|x l IH]; intros n Hn; simpl; [unfold count, len; simpl; lia|].
  rewrite len_cons in Hn. rewrite count_cons, IH; unfold bump, saturating_add_usize; destruct (p x); lia.
Qed.

Definition oldest {A} (p : A → bool) (f : A → Z) (l : list A) : option Z :=
  iter_min (f <$> filter (fun x => p x) l).

Lemma oldest_cons {A} (p : A → bool) (f : A → Z) x l :
  oldest p f (x :: l) =
  if p x then Some (match oldest p f l with Some y => Z.min (f x) y | None => f x end) else oldest p f l.
Proof. unfold oldest. rewrite filter_cons. by destruct (p x). Qed.

Lemma foldl_oldest {A} (p : A → bool) (f : A → Z) l acc :
  foldl (fun o x => bump_oldest (p x) o (f x)) acc l =
  match acc, oldest p f l with
  | Some a, Some b => Some (Z.min a b)
  | Some a, None => Some a
  | None, o => o
  end.
Proof.
  revert acc. induction l as [|x l IH]; intros acc; simpl.
  - by destruct acc.
  - rewrite IH, oldest_cons. unfold bump_oldest.
    destruct (p x), acc as [a|], (oldest p f l); f_equal; lia.
Qed.

(** ** Executions *)

Section executions.
  Context (t : SystemTime).
Let view (e : StoredExecution.t) := StoredExecution.inspection_record e.
Definition has_status (st : ExecutionRecordStatus.t) (e : StoredExecution.t) : bool :=
  ExecutionRecordStatus.eqb (ExecutionRecord.status (StoredExecution.record e)) st.

(** The inspection view and the claim path agree on what is due. *)
Lemma inspection_due e :
  ExecutionInspectionRecord.is_due_at (view e) t = StoredExecution.is_due_at e t true.
Proof.
  unfold view, ExecutionInspectionRecord.is_due_at, StoredExecution.is_due_at,
    ExecutionInspectionRecord.has_active_lease_at; simpl.
  rewrite Z.leb_antisym.
  destruct (ExecutionRecord.status (StoredExecution.record e)), (_ <? _)%Z; simpl; try done;
    destruct (StoredExecution.lease e); simpl; try done; by destruct (ExecutionLease.is_expired_at _ _).
Qed.

(** The reference: each field is a count over the entries, or the earliest time. *)
Definition execution_summary (entries : list StoredExecution.t) : ExecutionInspectionSummary.t := {|
  ExecutionInspectionSummary.total := len entries;
  ExecutionInspectionSummary.pending := count (has_status ExecutionRecordStatus.Pending) entries;
  ExecutionInspectionSummary.in_flight := count (has_status ExecutionRecordStatus.InFlight) entries;
  ExecutionInspectionSummary.succeeded := count (has_status ExecutionRecordStatus.Succeeded) entries;
  ExecutionInspectionSummary.failed := count (has_status ExecutionRecordStatus.Failed) entries;
  ExecutionInspectionSummary.dead_lettered :=
    count (has_status ExecutionRecordStatus.DeadLettered) entries;
  ExecutionInspectionSummary.due := count (fun e => StoredExecution.is_due_at e t true) entries;
  ExecutionInspectionSummary.leased :=
    count (fun e => ExecutionInspectionRecord.has_active_lease_at (view e) t) entries;
  ExecutionInspectionSummary.retry_scheduled :=
    count (fun e => ExecutionInspectionRecord.is_retry_scheduled_at (view e) t) entries;
  ExecutionInspectionSummary.stale_leases :=
    count (fun e => ExecutionInspectionRecord.has_stale_lease_at (view e) t) entries;
  ExecutionInspectionSummary.oldest_due_at :=
    oldest (fun e => StoredExecution.is_due_at e t true)
      (fun e => ExecutionRecord.available_at (StoredExecution.record e)) entries;
|}.

Lemma foldl_execution_summary entries :
  (len entries ≤ usize_max)%N →
  foldl (fun sm e => ExecutionInspectionSummary.observe_record sm (view e) t)
    ExecutionInspectionSummary.default entries = execution_summary entries.
Proof.
  intros Hlen. set (step := fun sm e => ExecutionInspectionSummary.observe_record sm (view e) t).
  assert (Hb : ∀ (π : ExecutionInspectionSummary.t → N) p,
    π ExecutionInspectionSummary.default = 0%N →
    (∀ sm e, π (step sm e) = bump (p e) (π sm)) →
    π (foldl step ExecutionInspectionSummary.default entries) = count p entries).
  { intros π p H0 Hstep. rewrite (foldl_project π _ (fun n e => bump (p e) n)) by done.
    rewrite H0. rewrite foldl_bump by lia. lia. }
  assert (Heta : ∀ sm : ExecutionInspectionSummary.t, sm = ExecutionInspectionSummary.mk
    (ExecutionInspectionSummary.total sm) (ExecutionInspectionSummary.pending sm)
    (ExecutionInspectionSummary.in_flight sm) (ExecutionInspectionSummary.succeeded sm)
    (ExecutionInspectionSummary.failed sm) (ExecutionInspectionSummary.dead_lettered sm)
    (ExecutionInspectionSummary.due sm) (ExecutionInspectionSummary.leased sm)
    (ExecutionInspectionSummary.retry_scheduled sm) (ExecutionInspectionSummary.stale_leases sm)
    (ExecutionInspectionSummary.oldest_due_at sm)) by (by intros []).
  rewrite (Heta (foldl _ _ _)). unfold execution_summary. f_equal;
    try (by apply Hb); [by rewrite (Hb _ (fun _ => true)), count_true| |].
  - apply Hb; [done|]. intros sm e. by rewrite <- inspection_due.
  - rewrite (foldl_project _ _ (fun o e => bump_oldest (StoredExecution.is_due_at e t true) o
      (ExecutionRecord.available_at (StoredExecution.record e))));
      [by rewrite foldl_oldest|intros sm e; by rewrite <- inspection_due].
Qed.

Lemma count_statuses entries :
  (count (has_status ExecutionRecordStatus.Pending) entries +
   count (has_status ExecutionRecordStatus.InFlight) entries +
   count (has_status ExecutionRecordStatus.Succeeded) entries +
   count (has_status ExecutionRecordStatus.Failed) entries +
   count (has_status ExecutionRecordStatus.DeadLettered) entries = len entries)%N.
Proof.
  induction entries as [|e entries IH]; [done|]. rewrite !count_cons, len_cons.
  unfold has_status at 1 3 5 7 9. destruct (ExecutionRecord.status _); simpl; lia.
Qed.
End executions.

(** [summarize_executions] counts what it names over the records the query
    selects: the total, each status, due work (as the claim path decides it),
    active and stale leases, scheduled retries, and the earliest due time.  The
    five status counts add up to the total. *)
Theorem summarize_executions_spec query ctx s :
  let entries := filter (fun e => Store.query_selects query e) (values (State.records s)) in
  (len entries ≤ usize_max)%N →
  let sm := execution_summary (ExecutionInspectionQuery.observed_at query) entries in
  Store.summarize_executions query ctx s = (Ok sm, s) ∧
  (ExecutionInspectionSummary.pending sm + ExecutionInspectionSummary.in_flight sm +
   ExecutionInspectionSummary.succeeded sm + ExecutionInspectionSummary.failed sm +
   ExecutionInspectionSummary.dead_lettered sm = ExecutionInspectionSummary.total sm)%N.
Proof.
  intros entries Hlen sm. split; [|apply count_statuses].
  unfold Store.summarize_executions. do 2 f_equal. by apply foldl_execution_summary.
Qed.

Lemma summarize_executions_spec_witness :
  let query := ExecutionInspectionQuery.new 5 0 in
  (Store.summarize_executions query demo_ctx demo_claimed).1 =
  Ok (execution_summary 0 (filter (fun e => Store.query_selects query e) (values (State.records demo_claimed)))).
Proof.
  intros query.
  refine (f_equal fst (proj1 (summarize_executions_spec query demo_ctx demo_claimed _))).
  vm_compute. discriminate.
Defined.

(** ** Outbox messages *)

Section messages.
  Context (t : SystemTime).
Let view (e : StoredOutboxMessage.t) := StoredOutboxMessage.inspection_record e t.
Definition shows_status (st : OutboxMessageStatus.t) (e : StoredOutboxMessage.t) : bool :=
  OutboxMessageStatus.eqb (StoredOutboxMessage.inspection_status_at e t) st.

(** Under the invariant the view and the claim path agree on what is due: a stale
    lease shows as pending, and is due. *)
Lemma outbox_inspection_due e :
  leased_iff_in_flight e →
  OutboxInspectionRecord.is_due_at (view e) t = StoredOutboxMessage.is_due_at e t true.
Proof.
  unfold leased_iff_in_flight. intros Hiff.
  unfold view, OutboxInspectionRecord.is_due_at, StoredOutboxMessage.is_due_at; simpl.
  unfold StoredOutboxMessage.inspection_status_at. rewrite Z.leb_antisym.
  destruct (StoredOutboxMessage.status e), (StoredOutboxMessage.lease e) as [l|]; simpl; try done;
    try (by destruct (_ <? _)%Z); try (by destruct Hiff as [Hiff _]; discriminate Hiff; eexists).
  all: try (by destruct Hiff as [_ [? [=]]]).
  all: by destruct (OutboxDeliveryLease.is_expired_at l t), (_ <? _)%Z.
Qed.

Definition outbox_summary (entries : list StoredOutboxMessage.t) : OutboxInspectionSummary.t := {|
  OutboxInspectionSummary.total := len entries;
  OutboxInspectionSummary.pending := count (shows_status OutboxMessageStatus.Pending) entries;
  OutboxInspectionSummary.in_flight := count (shows_status OutboxMessageStatus.InFlight) entries;
  OutboxInspectionSummary.delivered := count (shows_status OutboxMessageStatus.Delivered) entries;
  OutboxInspectionSummary.dead_lettered := count (shows_status OutboxMessageStatus.DeadLettered) entries;
  OutboxInspectionSummary.due := count (fun e => StoredOutboxMessage.is_due_at e t true) entries;
  OutboxInspectionSummary.retry_scheduled :=
    count (fun e => OutboxInspectionRecord.is_retry_scheduled_at (view e) t) entries;
  OutboxInspectionSummary.leased :=
    count (fun e => OutboxInspectionRecord.has_active_lease_at (view e) t) entries;
  OutboxInspectionSummary.stale_leases :=
    count (fun e => OutboxInspectionRecord.has_stale_lease_at (view e) t) entries;
  OutboxInspectionSummary.oldest_due_at :=
    oldest (fun e => StoredOutboxMessage.is_due_at e t true)
      (fun e => OutboxMessage.available_at (StoredOutboxMessage.message e)) entries;
|}.

Lemma foldl_outbox_summary entries :
  (len entries ≤ usize_max)%N → (∀ e, e ∈ entries → leased_iff_in_flight e) →
  foldl (fun sm e => OutboxInspectionSummary.observe sm (view e) t)
    OutboxInspectionSummary.default entries = outbox_summary entries.
Proof.
  intros Hlen Hiff. set (step := fun sm e => OutboxInspectionSummary.observe sm (view e) t).
  assert (Hb : ∀ (π : OutboxInspectionSummary.t → N) p,
    π OutboxInspectionSummary.default = 0%N →
    (∀ sm e, π (step sm e) = bump (p e) (π sm)) →
    π (foldl step OutboxInspectionSummary.default entries) = count p entries).
  { intros π p H0 Hstep. rewrite (foldl_project π _ (fun n e => bump (p e) n)) by done.
    rewrite H0. rewrite foldl_bump by lia. lia. }
  assert (Heta : ∀ sm : OutboxInspectionSummary.t, sm = OutboxInspectionSummary.mk
    (OutboxInspectionSummary.total sm) (OutboxInspectionSummary.pending sm)
    (OutboxInspectionSummary.in_flight sm) (OutboxInspectionSummary.delivered sm)
    (OutboxInspectionSummary.dead_lettered sm) (OutboxInspectionSummary.due sm)
    (OutboxInspectionSummary.retry_scheduled sm) (OutboxInspectionSummary.leased sm)
    (OutboxInspectionSummary.stale_leases sm) (OutboxInspectionSummary.oldest_due_at sm)) by (by intros []).
  rewrite (Heta (foldl _ _ _)). unfold outbox_summary. f_equal;
    try (by apply Hb); [by rewrite (Hb _ (fun _ => true)), count_true| |].
  - rewrite (Hb _ (fun e => OutboxInspectionRecord.is_due_at (view e) t)) by done.
    apply count_ext_in. intros e He. by apply outbox_inspection_due, Hiff.
  - rewrite (foldl_project _ _ (fun o e => bump_oldest (OutboxInspectionRecord.is_due_at (view e) t) o
      (OutboxMessage.available_at (StoredOutboxMessage.message e)))) by done.
    rewrite foldl_oldest. simpl. unfold oldest. do 2 f_equal. apply filter_ext_in.
    intros e He. by apply outbox_inspection_due, Hiff.
Qed.

Lemma count_shown_statuses entries :
  (count (shows_status OutboxMessageStatus.Pending) entries +
   count (shows_status OutboxMessageStatus.InFlight) entries +
   count (shows_status OutboxMessageStatus.Delivered) entries +
   count (shows_status OutboxMessageStatus.DeadLettered) entries = len entries)%N.
Proof.
  induction entries as [|e entries IH]; [done|]. rewrite !count_cons, len_cons.
  unfold shows_status at 1 3 5 7. destruct (StoredOutboxMessage.inspection_status_at _ _); simpl; lia.
Qed.
End messages.

(** [summarize_outbox], in the same way: a message whose lease went stale
    counts as pending and due, and the four status counts add up to the total. *)
Theorem summarize_outbox_spec query ctx s :
  store_wf s →
  let entries := filter (fun e => Store.outbox_query_selects query e) (values (State.outbox s)) in
  (len entries ≤ usize_max)%N →
  let sm := outbox_summary (OutboxInspectionQuery.observed_at query) entries in
  Store.summarize_outbox query ctx s = (Ok sm, s) ∧
  (OutboxInspectionSummary.pending sm + OutboxInspectionSummary.in_flight sm +
   OutboxInspectionSummary.delivered sm + OutboxInspectionSummary.dead_lettered sm =
   OutboxInspectionSummary.total sm)%N.
Proof.
  intros Hwf entries Hlen sm. split; [|apply count_shown_statuses].
  unfold Store.summarize_outbox. do 2 f_equal. apply foldl_outbox_summary; [done|].
  intros e [_ He]%list_elem_of_filter. apply elem_of_values in He as [i Hi].
  by apply (wf_outbox_lease s Hwf i).
Qed.

Lemma summarize_outbox_spec_witness :
  let query := OutboxInspectionQuery.new 5 0 in
  (Store.summarize_outbox query demo_ctx demo_claimed).1 =
  Ok (outbox_summary 0 (filter (fun e => Store.outbox_query_selects query e) (values (State.outbox demo_claimed)))).
Proof.
  intros query.
  refine (f_equal fst (proj1 (summarize_outbox_spec query demo_ctx demo_claimed demo_claimed_wf _))).
  vm_compute. discriminate.
Defined.

(** ** The listings *)

(** The filters written out in the store are those the queries declare. *)
Lemma query_selects_matches query e :
  Store.query_selects query e =
  ExecutionInspectionQuery.matches_inspection query (StoredExecution.inspection_record e).
Proof. done. Qed.

Lemma outbox_query_selects_matches query e :
  Store.outbox_query_selects query e =
  OutboxInspectionQuery.matches_inspection query
    (StoredOutboxMessage.inspection_record e (OutboxInspectionQuery.observed_at query)).
Proof. done. Qed.

(** the listings return what the query's own [matches_inspection] selects,
    earliest first and cut at the limit, with the lease and status an operator
    should see; on both queues the result is the same for every iteration order
    of the hash maps. *)
Theorem inspection_listings_spec s ctx equery oquery :
  store_wf s →
  (∃ out, Store.list_execution_inspection equery ctx s = (Ok out, s) ∧
     selects (fun e => ExecutionInspectionQuery.matches_inspection equery (StoredExecution.inspection_record e))
       StoredExecution.inspection_record
       (fun r => State.record_key (ExecutionInspectionRecord.record r))
       (ExecutionInspectionQuery.limit equery) (values (State.records s)) out ∧
     (∀ entries, entries ≡ₚ values (State.records s) → out = selection
        (fun e => ExecutionInspectionQuery.matches_inspection equery (StoredExecution.inspection_record e))
        StoredExecution.inspection_record
        (fun r => State.record_key (ExecutionInspectionRecord.record r))
        (ExecutionInspectionQuery.limit equery) entries) ∧
     (Store.list_executions equery ctx s).1 = Ok (ExecutionInspectionRecord.record <$> out)) ∧
  (∃ out, Store.list_outbox_messages oquery ctx s = (Ok out, s) ∧
     let view e := StoredOutboxMessage.inspection_record e (OutboxInspectionQuery.observed_at oquery) in
     selects (fun e => OutboxInspectionQuery.matches_inspection oquery (view e)) view
       (fun r => State.message_key (OutboxInspectionRecord.message r))
       (OutboxInspectionQuery.limit oquery) (values (State.outbox s)) out ∧
     ∀ entries, entries ≡ₚ values (State.outbox s) → out = selection
       (fun e => OutboxInspectionQuery.matches_inspection oquery (view e)) view
       (fun r => State.message_key (OutboxInspectionRecord.message r))
       (OutboxInspectionQuery.limit oquery) entries).
Proof.
  intros Hwf. split.
  - eexists. split; [reflexivity|]. split_and!; [apply selection_selects| |].
    + intros entries Hp. apply selection_perm; [done|].
      intros e e' He He' [= _ _ Hid]. by eapply record_entry_inj.
    + unfold Store.list_executions; simpl. f_equal. rewrite <- truncate_fmap. f_equal.
      rewrite <- (sort_by_key_fmap State.record_key ExecutionInspectionRecord.record).
      by rewrite <- list_fmap_compose.
  - eexists. split; [reflexivity|]. split; [apply selection_selects|].
    intros entries Hp. apply selection_perm; [done|].
    intros e e' He He' [= _ _ Hid]. by eapply outbox_entry_inj.
Qed.

Lemma inspection_listings_spec_witness :
  ∃ out, Store.list_execution_inspection (ExecutionInspectionQuery.new 5 0) demo_ctx demo_claimed =
    (Ok out, demo_claimed) ∧ len out = 2%N.
Proof.
  destruct (inspection_listings_spec demo_claimed demo_ctx (ExecutionInspectionQuery.new 5 0)
    (OutboxInspectionQuery.new 5 0) demo_claimed_wf) as [(out & Hout & _) _].
  exists out. split; [exact Hout|].
  apply (f_equal fst) in Hout. vm_compute in Hout. by injection Hout as <-.
Defined.
