(* ===== verification/Scheduler.v ===== *)
(** * The worker dispatch coordinator ([bos-kernel/src/scheduler.rs])

    [WorkerDispatchCoordinator] claims, renews and finalizes work on behalf of a
    worker, and records a heartbeat each time.  It knows its stores only by their
    interfaces; the three trait objects are one state [S] here, which may be a
    product of three.  The telemetry sink is the list of events it was sent. *)

From S2P Require Import Prelude RustStd Ids Errors Execution Outbox Transactional Workers Dispatch Stores Memory MemoryStore MemoryDispatch MemoryInv MemorySelect MemoryLaws.

(** The file's own copy of the helper. *)
(* src: crates/bos-kernel/src/scheduler.rs:651-667 require_non_empty *)
Definition dispatch_require_non_empty (value field_name code : string) (ctx : ExecutionContext.t)
    : AppResult unit :=
  if is_blank value then
    Err (AppError.from_context InvalidInput code (field_name +:+ " must not be empty") ctx)
  else Ok tt.

(* src: crates/bos-kernel/src/scheduler.rs:669-685 require_positive_duration *)
Definition require_positive_duration (duration : Duration) (field_name code : string)
    (ctx : ExecutionContext.t) : AppResult unit :=
  if is_zero duration then
    Err (AppError.from_context InvalidInput code (field_name +:+ " must be positive") ctx)
  else Ok tt.

Module WorkerDispatchCoordinatorConfig.
(* src: crates/bos-kernel/src/scheduler.rs:12-17 WorkerDispatchCoordinatorConfig *)
Record t := mk { queue : DispatchQueue; scope : string; visibility_ttl : Duration }.

(* src: crates/bos-kernel/src/scheduler.rs:40-54 WorkerDispatchCoordinatorConfig::validate *)
Definition validate (c : t) (ctx : ExecutionContext.t) : AppResult unit :=
  _ ← dispatch_require_non_empty (scope c) "worker dispatch scope" "worker_dispatch_scope_required" ctx;
  _ ← require_positive_duration (visibility_ttl c) "worker dispatch visibility ttl"
        "worker_dispatch_visibility_ttl_required" ctx;
  Ok tt.
End WorkerDispatchCoordinatorConfig.

Module WorkerHeartbeatRequest.
(* src: crates/bos-kernel/src/scheduler.rs:57-61 WorkerHeartbeatRequest *)
Record t := mk { worker_id : string; observed_at : SystemTime }.

(* src: crates/bos-kernel/src/scheduler.rs:84-91 WorkerHeartbeatRequest::validate *)
Definition validate (r : t) (ctx : ExecutionContext.t) : AppResult unit :=
  dispatch_require_non_empty (worker_id r) "worker id" "worker_dispatch_worker_id_required" ctx.
End WorkerHeartbeatRequest.

Module WorkerDispatchCycleRequest.
(* src: crates/bos-kernel/src/scheduler.rs:94-100 WorkerDispatchCycleRequest *)
Record t := mk {
  worker_id : string;
  batch_size : N;
  lease_ttl : Duration;
  observed_at : SystemTime;
}.

(* src: crates/bos-kernel/src/scheduler.rs:103-110 WorkerDispatchCycleRequest::new *)
Definition new (worker_id : string) (batch_size : N) (lease_ttl : Duration) (now : SystemTime) : t :=
  mk worker_id (N.max batch_size 1) lease_ttl now.

(* src: crates/bos-kernel/src/scheduler.rs:133-147 WorkerDispatchCycleRequest::validate *)
Definition validate (r : t) (ctx : ExecutionContext.t) : AppResult unit :=
  _ ← dispatch_require_non_empty (worker_id r) "worker id" "worker_dispatch_worker_id_required" ctx;
  _ ← require_positive_duration (lease_ttl r) "worker lease ttl" "worker_dispatch_lease_ttl_required" ctx;
  Ok tt.
End WorkerDispatchCycleRequest.

Module WorkerSnapshotQuery.
(* src: crates/bos-kernel/src/scheduler.rs:150-154 WorkerSnapshotQuery *)
Record t := mk { worker_id : string; observed_at : SystemTime }.

(* src: crates/bos-kernel/src/scheduler.rs:177-184 WorkerSnapshotQuery::validate *)
Definition validate (q : t) (ctx : ExecutionContext.t) : AppResult unit :=
  dispatch_require_non_empty (worker_id q) "worker id" "worker_dispatch_worker_id_required" ctx.
End WorkerSnapshotQuery.

Module WorkerSnapshotListQuery.
(* src: crates/bos-kernel/src/scheduler.rs:187-192 WorkerSnapshotListQuery *)
Record t := mk { observed_at : SystemTime; limit : N; include_expired_workers : bool }.
End WorkerSnapshotListQuery.

Module VisibleWorkerListQuery.
(* src: crates/bos-kernel/src/scheduler.rs:237-241 VisibleWorkerListQuery *)
Record t := mk { observed_at : SystemTime; limit : N }.
End VisibleWorkerListQuery.

Module WorkerObservation.
(* src: crates/bos-kernel/src/scheduler.rs:276-283 WorkerObservation *)
Record t := mk {
  worker_id : string;
  scope : string;
  observed_at : SystemTime;
  heartbeat : WorkerHeartbeat.t;
  snapshot : option WorkerDispatchSnapshot.t;
}.
End WorkerObservation.

Module WorkerDispatchCycle.
(* src: crates/bos-kernel/src/scheduler.rs:323-327 WorkerDispatchCycle *)
Record t := mk { observation : WorkerObservation.t; claimed : list ClaimedDispatchWork.t }.
End WorkerDispatchCycle.

Module WorkerStoredLeaseRenewal.
(* src: crates/bos-kernel/src/scheduler.rs:346-350 WorkerStoredLeaseRenewal *)
Record t := mk { observation : WorkerObservation.t; lease : DispatchLease.t }.
End WorkerStoredLeaseRenewal.

(** The stores together with what telemetry has received. *)
Module World.
Record t (S : Type) := mk { store : S; events : list TelemetryEvent.t }.
Arguments mk {S} _ _.
Arguments store {S} _.
Arguments events {S} _.
End World.

Module WorkerDispatchCoordinator.
(* src: crates/bos-kernel/src/scheduler.rs:366-372 WorkerDispatchCoordinator *)
Record t := mk { telemetry : bool; config : WorkerDispatchCoordinatorConfig.t }.

Section stores.
Context {S : Type} `{DispatchWorkStore S} `{WorkerHeartbeatStore S} `{DispatchStatusStore S}.
Context {env : Env}.

Abbreviation W := (World.t S) (only parsing).

(** A call of a store method. *)
Definition on_store {A} (m : Op S AppError.t A) : Op W AppError.t A :=
  fun w => let '(r, s) := m (World.store w) in (r, World.mk s (World.events w)).

(* src: crates/bos-kernel/src/scheduler.rs:644-648 WorkerDispatchCoordinator::record_event *)
Definition record_event (c : t) (event : TelemetryEvent.t) : Op W AppError.t unit :=
  fun w => (Ok tt, if telemetry c then World.mk (World.store w) (World.events w ++ [event]) else w).

(* src: crates/bos-kernel/src/scheduler.rs:599-642 WorkerDispatchCoordinator::observe_worker *)
Definition observe_worker (c : t) (worker_id : string) (observed_at : SystemTime)
    (ctx : ExecutionContext.t) : Op W AppError.t WorkerObservation.t :=
  let scope := WorkerDispatchCoordinatorConfig.scope (config c) in
  let heartbeat :=
    WorkerHeartbeat.from_ttl worker_id scope observed_at
      (WorkerDispatchCoordinatorConfig.visibility_ttl (config c)) in
  on_store (record_heartbeat heartbeat ctx) ;;?
  let? found := on_store (lookup_worker
      (WorkerVisibilityRef.at_ (WorkerVisibilityRef.new worker_id scope env_clock) observed_at) ctx) in
  let? heartbeat := op_lift (ok_or found
      (AppError.from_context Unexpected "worker_heartbeat_lookup_missing"
         "worker heartbeat store could not read back a recorded heartbeat" ctx)) in
  let? snapshot := on_store (lookup_worker_snapshot
      (WorkerDispatchSnapshotRef.at_ (WorkerDispatchSnapshotRef.new worker_id scope env_clock)
         observed_at) ctx) in
  op_ret (WorkerObservation.mk worker_id scope observed_at heartbeat snapshot).

(** The attributes every event of the coordinator starts with. *)
Definition event (c : t) (name worker_id : string) : TelemetryEvent.t :=
  TelemetryEvent.with_attribute
    (TelemetryEvent.with_attribute
       (TelemetryEvent.with_attribute (TelemetryEvent.new name env_clock) "scope"
          (WorkerDispatchCoordinatorConfig.scope (config c)))
       "queue" (DispatchQueue_as_str (WorkerDispatchCoordinatorConfig.queue (config c))))
    "worker_id" worker_id.

(* src: crates/bos-kernel/src/scheduler.rs:399-415 WorkerDispatchCoordinator::record_heartbeat *)
Definition coordinator_heartbeat (c : t) (request : WorkerHeartbeatRequest.t)
    (ctx : ExecutionContext.t) : Op W AppError.t WorkerObservation.t :=
  op_lift (WorkerDispatchCoordinatorConfig.validate (config c) ctx) ;;?
  op_lift (WorkerHeartbeatRequest.validate request ctx) ;;?
  let? observation := observe_worker c (WorkerHeartbeatRequest.worker_id request)
      (WorkerHeartbeatRequest.observed_at request) ctx in
  record_event c (event c "worker.heartbeat" (WorkerHeartbeatRequest.worker_id request)) ;;?
  op_ret observation.

(* src: crates/bos-kernel/src/scheduler.rs:417-446 WorkerDispatchCoordinator::dispatch_cycle *)
Definition dispatch_cycle (c : t) (request : WorkerDispatchCycleRequest.t)
    (ctx : ExecutionContext.t) : Op W AppError.t WorkerDispatchCycle.t :=
  op_lift (WorkerDispatchCoordinatorConfig.validate (config c) ctx) ;;?
  op_lift (WorkerDispatchCycleRequest.validate request ctx) ;;?
  let? claimed := on_store (claim_due
      (DispatchClaimRequest.at_
         (DispatchClaimRequest.new (WorkerDispatchCoordinatorConfig.queue (config c))
            (WorkerDispatchCycleRequest.worker_id request)
            (WorkerDispatchCycleRequest.batch_size request)
            (WorkerDispatchCycleRequest.lease_ttl request) env_clock)
         (WorkerDispatchCycleRequest.observed_at request)) ctx) in
  let? observation := observe_worker c (WorkerDispatchCycleRequest.worker_id request)
      (WorkerDispatchCycleRequest.observed_at request) ctx in
  record_event c
    (TelemetryEvent.with_attribute
       (event c "worker.dispatch_cycle" (WorkerDispatchCycleRequest.worker_id request))
       "claimed_count" (fmt_dec (len claimed))) ;;?
  op_ret (WorkerDispatchCycle.mk observation claimed).

(** The renewal the coordinator sends for a claim. *)
Definition renewal_for (claimed : ClaimedDispatchWork.t) (renewed_at : SystemTime)
    (lease_ttl : Duration) : DispatchLeaseRenewal.t :=
  let worker_id := DispatchLease.leased_by (ClaimedDispatchWork.lease claimed) in
  match claimed with
  | ClaimedDispatchWork.Execution claimed =>
    DispatchLeaseRenewal.Execution
      (ExecutionLeaseRenewal.at_
         (ExecutionLeaseRenewal.new (ExecutionRecord.id (ClaimedExecution.record claimed))
            (ExecutionLease.lease_id (ClaimedExecution.lease claimed)) worker_id lease_ttl env_clock)
         renewed_at)
  | ClaimedDispatchWork.Outbox claimed =>
    DispatchLeaseRenewal.Outbox
      (OutboxDeliveryLeaseRenewal.at_
         (OutboxDeliveryLeaseRenewal.new (OutboxMessage.id (ClaimedOutboxDelivery.message claimed))
            (OutboxDeliveryLease.lease_id (ClaimedOutboxDelivery.lease claimed)) worker_id lease_ttl
            env_clock)
         renewed_at)
  end.

(* src: crates/bos-kernel/src/scheduler.rs:448-497 WorkerDispatchCoordinator::renew_claim *)
Definition coordinator_renew_claim (c : t) (claimed : ClaimedDispatchWork.t) (renewed_at : SystemTime)
    (lease_ttl : Duration) (ctx : ExecutionContext.t) : Op W AppError.t WorkerStoredLeaseRenewal.t :=
  op_lift (WorkerDispatchCoordinatorConfig.validate (config c) ctx) ;;?
  op_lift (require_positive_duration lease_ttl "worker lease ttl"
             "worker_dispatch_lease_ttl_required" ctx) ;;?
  let worker_id := DispatchLease.leased_by (ClaimedDispatchWork.lease claimed) in
  let? lease := on_store (renew_claim (renewal_for claimed renewed_at lease_ttl) ctx) in
  let? observation := observe_worker c worker_id renewed_at ctx in
  record_event c
    (TelemetryEvent.with_attribute (event c "worker.lease_renewed" worker_id)
       "lease_id" (Id.as_str (DispatchLease.lease_id lease))) ;;?
  op_ret (WorkerStoredLeaseRenewal.mk observation lease).

(* src: crates/bos-kernel/src/scheduler.rs:577-597 WorkerDispatchCoordinator::finalize_resolution *)
Definition finalize_resolution (c : t) (worker_id : string) (resolution : DispatchResolution.t)
    (observed_at : SystemTime) (ctx : ExecutionContext.t) : Op W AppError.t WorkerObservation.t :=
  op_lift (WorkerDispatchCoordinatorConfig.validate (config c) ctx) ;;?
  on_store (finalize resolution ctx) ;;?
  let? observation := observe_worker c worker_id observed_at ctx in
  record_event c
    (TelemetryEvent.with_attribute
       (TelemetryEvent.with_attribute (event c "worker.dispatch_finalized" worker_id)
          "resolution_queue" (DispatchQueue_as_str (DispatchResolution.queue resolution)))
       "lease_id" (Id.as_str (DispatchResolution.lease_id resolution))) ;;?
  op_ret observation.

(* src: crates/bos-kernel/src/scheduler.rs:499-507 WorkerDispatchCoordinator::complete_claim *)
Definition complete_claim (c : t) (claimed : ClaimedDispatchWork.t) (completed_at : SystemTime)
    (ctx : ExecutionContext.t) : Op W AppError.t WorkerObservation.t :=
  let worker_id := DispatchLease.leased_by (ClaimedDispatchWork.lease claimed) in
  finalize_resolution c worker_id (ClaimedDispatchWork.complete claimed completed_at) completed_at ctx.

(* src: crates/bos-kernel/src/scheduler.rs:509-520 WorkerDispatchCoordinator::retry_claim *)
Definition retry_claim (c : t) (claimed : ClaimedDispatchWork.t)
    (attempted_at next_available_at : SystemTime) (error : string) (ctx : ExecutionContext.t)
    : Op W AppError.t WorkerObservation.t :=
  let worker_id := DispatchLease.leased_by (ClaimedDispatchWork.lease claimed) in
  let? resolution := op_lift (ClaimedDispatchWork.retry env_gen claimed attempted_at next_available_at error) in
  finalize_resolution c worker_id resolution attempted_at ctx.

(* src: crates/bos-kernel/src/scheduler.rs:522-532 WorkerDispatchCoordinator::dead_letter_claim *)
Definition dead_letter_claim (c : t) (claimed : ClaimedDispatchWork.t) (dead_lettered_at : SystemTime)
    (error : string) (ctx : ExecutionContext.t) : Op W AppError.t WorkerObservation.t :=
  let worker_id := DispatchLease.leased_by (ClaimedDispatchWork.lease claimed) in
  let? resolution := op_lift (ClaimedDispatchWork.dead_letter env_gen claimed dead_lettered_at error) in
  finalize_resolution c worker_id resolution dead_lettered_at ctx.

(* src: crates/bos-kernel/src/scheduler.rs:534-546 WorkerDispatchCoordinator::snapshot_worker *)
Definition snapshot_worker (c : t) (query : WorkerSnapshotQuery.t) (ctx : ExecutionContext.t)
    : Op W AppError.t (option WorkerDispatchSnapshot.t) :=
  op_lift (WorkerDispatchCoordinatorConfig.validate (config c) ctx) ;;?
  op_lift (WorkerSnapshotQuery.validate query ctx) ;;?
  on_store (lookup_worker_snapshot
    (WorkerDispatchSnapshotRef.at_
       (WorkerDispatchSnapshotRef.new (WorkerSnapshotQuery.worker_id query)
          (WorkerDispatchCoordinatorConfig.scope (config c)) env_clock)
       (WorkerSnapshotQuery.observed_at query)) ctx).

(* src: crates/bos-kernel/src/scheduler.rs:548-561 WorkerDispatchCoordinator::list_worker_snapshots *)
Definition coordinator_list_worker_snapshots (c : t) (query : WorkerSnapshotListQuery.t)
    (ctx : ExecutionContext.t) : Op W AppError.t (list WorkerDispatchSnapshot.t) :=
  op_lift (WorkerDispatchCoordinatorConfig.validate (config c) ctx) ;;?
  on_store (list_worker_snapshots
    (WorkerDispatchSnapshotsQuery.with_expired_workers
       (WorkerDispatchSnapshotsQuery.with_limit
          (WorkerDispatchSnapshotsQuery.at_
             (WorkerDispatchSnapshotsQuery.new (WorkerDispatchCoordinatorConfig.scope (config c)) env_clock)
             (WorkerSnapshotListQuery.observed_at query))
          (WorkerSnapshotListQuery.limit query))
       (WorkerSnapshotListQuery.include_expired_workers query)) ctx).

(* src: crates/bos-kernel/src/scheduler.rs:563-575 WorkerDispatchCoordinator::list_visible_workers *)
Definition coordinator_list_visible_workers (c : t) (query : VisibleWorkerListQuery.t)
    (ctx : ExecutionContext.t) : Op W AppError.t (list WorkerHeartbeat.t) :=
  op_lift (WorkerDispatchCoordinatorConfig.validate (config c) ctx) ;;?
  on_store (list_visible_workers
    (VisibleWorkersQuery.with_limit
       (VisibleWorkersQuery.at_
          (VisibleWorkersQuery.new (WorkerDispatchCoordinatorConfig.scope (config c)) env_clock)
          (VisibleWorkerListQuery.observed_at query))
       (VisibleWorkerListQuery.limit query)) ctx).
End stores.
End WorkerDispatchCoordinator.

(** ** What the coordinator guarantees, for any store that keeps its laws *)

Import WorkerDispatchCoordinator.

#[local] Set Default Proof Using "Type*".

Section coordinator.
Context {S : Type} `{WorkerStoreLaws S} {env : Env}.
Implicit Types (w : World.t S) (c : t).

Lemma on_store_eq {A} (m : Op S AppError.t A) s es r s' :
  m s = (r, s') → on_store m (World.mk s es) = (r, World.mk s' es).
Proof. unfold on_store. simpl. by intros ->. Qed.

Lemma config_valid c ctx :
  WorkerDispatchCoordinatorConfig.validate (config c) ctx = Ok tt →
  is_blank (WorkerDispatchCoordinatorConfig.scope (config c)) = false.
Proof.
  unfold WorkerDispatchCoordinatorConfig.validate, dispatch_require_non_empty.
  by destruct (is_blank _).
Qed.

Lemma request_valid r ctx :
  WorkerDispatchCycleRequest.validate r ctx = Ok tt →
  is_blank (WorkerDispatchCycleRequest.worker_id r) = false.
Proof.
  unfold WorkerDispatchCycleRequest.validate, dispatch_require_non_empty. by destruct (is_blank _).
Qed.

Lemma same_heartbeat_fields h h' :
  same_heartbeat h h' →
  WorkerHeartbeat.worker_id h' = WorkerHeartbeat.worker_id h ∧
  WorkerHeartbeat.scope h' = WorkerHeartbeat.scope h ∧
  WorkerHeartbeat.recorded_at h' = WorkerHeartbeat.recorded_at h ∧
  WorkerHeartbeat.visible_until h' = WorkerHeartbeat.visible_until h.
Proof.
  destruct h, h'. unfold same_heartbeat, WorkerHeartbeat.with_active_leases. simpl.
  intros [=]; subst. done.
Qed.

(** What an observation says: the worker is visible, and both views of the store
    show the heartbeat just recorded. *)
Record observed (c : t) (worker_id : string) (at_ : SystemTime) (o : WorkerObservation.t) : Prop := {
  observed_worker : WorkerObservation.worker_id o = worker_id;
  observed_scope : WorkerObservation.scope o = WorkerDispatchCoordinatorConfig.scope (config c);
  observed_time : WorkerObservation.observed_at o = at_;
  observed_heartbeat : same_heartbeat
    (WorkerHeartbeat.from_ttl worker_id (WorkerDispatchCoordinatorConfig.scope (config c)) at_
       (WorkerDispatchCoordinatorConfig.visibility_ttl (config c)))
    (WorkerObservation.heartbeat o);
  observed_visible : WorkerHeartbeat.visibility_at (WorkerObservation.heartbeat o) at_ = Visible;
  observed_snapshot : ∃ snapshot h, WorkerObservation.snapshot o = Some snapshot ∧
    WorkerDispatchSnapshot.heartbeat snapshot = Some h ∧
    same_heartbeat (WorkerHeartbeat.from_ttl worker_id (WorkerDispatchCoordinatorConfig.scope (config c))
      at_ (WorkerDispatchCoordinatorConfig.visibility_ttl (config c))) h;
}.

(** Observing a named worker never fails; the only write is the heartbeat. *)
Lemma observe_worker_total c worker at_ ctx w :
  is_blank worker = false → is_blank (WorkerDispatchCoordinatorConfig.scope (config c)) = false →
  ∃ o s', observe_worker c worker at_ ctx w = (Ok o, World.mk s' (World.events w)) ∧
    observed c worker at_ o ∧
    s' = (record_heartbeat (WorkerHeartbeat.from_ttl worker
            (WorkerDispatchCoordinatorConfig.scope (config c)) at_
            (WorkerDispatchCoordinatorConfig.visibility_ttl (config c))) ctx (World.store w)).2.
Proof.
  intros Hw Hs. set (h := WorkerHeartbeat.from_ttl worker _ at_ _).
  pose proof (law_heartbeat_result h ctx (World.store w)) as Hres.
  pose proof (from_ttl_window worker (WorkerDispatchCoordinatorConfig.scope (config c)) at_
    (WorkerDispatchCoordinatorConfig.visibility_ttl (config c))) as Hwin. fold h in Hwin.
  rewrite (proj2 (heartbeat_validate_ok h ctx)) in Hres by (by split_and!).
  destruct (record_heartbeat h ctx (World.store w)) as [r s'] eqn:Hr. simpl in Hres. subst r.
  destruct (law_heartbeat_visible h ctx ctx (World.store w) s'
    (WorkerVisibilityRef.at_ (WorkerVisibilityRef.new worker
       (WorkerDispatchCoordinatorConfig.scope (config c)) env_clock) at_)) as (h' & Hl & Hsame);
    [done|done|done|exact Hwin|].
  destruct (law_snapshot_recorded h ctx ctx (World.store w) s'
    (WorkerDispatchSnapshotRef.at_ (WorkerDispatchSnapshotRef.new worker
       (WorkerDispatchCoordinatorConfig.scope (config c)) env_clock) at_)) as (sn & h2 & Hsn & Hh2 & Hsame2);
    [done|done|done|].
  eexists _, s'. split; [|split; [|done]].
  - unfold observe_worker, op_bind, op_lift, op_ret, on_store. fold h. rewrite Hr. simpl.
    rewrite Hl. simpl. rewrite Hsn. done.
  - split; simpl; try done; [|by exists sn, h2].
    destruct (same_heartbeat_fields _ _ Hsame) as (_ & _ & _ & Hv).
    unfold WorkerHeartbeat.visibility_at. rewrite Hv, (proj2 (Z.leb_le _ _)); done.
Qed.

(** The claim request a cycle sends. *)
Definition cycle_claim (c : t) (r : WorkerDispatchCycleRequest.t) : DispatchClaimRequest.t :=
  DispatchClaimRequest.mk (WorkerDispatchCoordinatorConfig.queue (config c))
    (WorkerDispatchCycleRequest.worker_id r) (N.max (WorkerDispatchCycleRequest.batch_size r) 1)
    (WorkerDispatchCycleRequest.lease_ttl r) (WorkerDispatchCycleRequest.observed_at r).

(** The heartbeat an observation records. *)
Definition observation_heartbeat (c : t) (worker : string) (at_ : SystemTime) : WorkerHeartbeat.t :=
  WorkerHeartbeat.from_ttl worker (WorkerDispatchCoordinatorConfig.scope (config c)) at_
    (WorkerDispatchCoordinatorConfig.visibility_ttl (config c)).

(** One event, if there is a sink. *)
Lemma record_event_new c ev w :
  ∃ new, record_event (S:=S) c ev w = (Ok tt, World.mk (World.store w) (World.events w ++ new)) ∧
    len new = (if telemetry c then 1 else 0)%N.
Proof using.
  unfold record_event. destruct (telemetry c); [by exists [ev]|].
  exists []. rewrite app_nil_r. by destruct w.
Qed.

(** A finalization either changes nothing or resolves, observes and reports. *)
Lemma finalize_resolution_cases c worker r at_ ctx w :
  WorkerDispatchCoordinatorConfig.validate (config c) ctx = Ok tt → is_blank worker = false →
  (∃ e, finalize r ctx (World.store w) = (Err e, World.store w) ∧
     finalize_resolution c worker r at_ ctx w = (Err e, w)) ∨
  (∃ s1 o new, finalize r ctx (World.store w) = (Ok tt, s1) ∧
     finalize_resolution c worker r at_ ctx w =
       (Ok o, World.mk (record_heartbeat (observation_heartbeat c worker at_) ctx s1).2 (World.events w ++ new)) ∧
     observed c worker at_ o ∧ len new = (if telemetry c then 1 else 0)%N).
Proof.
  intros Hc Hb. unfold finalize_resolution, op_bind, op_lift, op_ret. rewrite Hc.
  unfold on_store. destruct (finalize r ctx (World.store w)) as [[[]|e] s1] eqn:Hf.
  - right. destruct (observe_worker_total c worker at_ ctx (World.mk s1 (World.events w)))
      as (o & s2 & Ho & Hobs & Hs2); [done|by eapply config_valid|]. rewrite Ho.
    match goal with |- context [record_event c ?ev ?w'] =>
      destruct (record_event_new c ev w') as (new & Hev & Hnew) end.
    rewrite Hev. simpl. exists s1, o, new. by rewrite Hs2.
  - left. apply law_finalize_rejects in Hf as ->. exists e. by destruct w.
Qed.

(** a dispatch cycle never loses a claim.  With a valid configuration and
    request, whenever the store claims work the cycle succeeds and hands all of it
    to the worker: at most a batch, each item leased to this worker from
    [observed_at] for [lease_ttl]; the worker is observed as visible; and
    telemetry, when there is any, gets exactly one event.  When the store's claim
    fails, the cycle fails with the same error and emits nothing. *)
Theorem dispatch_cycle_keeps_claims c request ctx w :
  WorkerDispatchCoordinatorConfig.validate (config c) ctx = Ok tt →
  WorkerDispatchCycleRequest.validate request ctx = Ok tt →
  match claim_due (cycle_claim c request) ctx (World.store w) with
  | (Ok claimed, s1) =>
    ∃ o s2 new, dispatch_cycle c request ctx w =
      (Ok (WorkerDispatchCycle.mk o claimed), World.mk s2 (World.events w ++ new)) ∧
      observed c (WorkerDispatchCycleRequest.worker_id request)
        (WorkerDispatchCycleRequest.observed_at request) o ∧
      (len claimed ≤ N.max (WorkerDispatchCycleRequest.batch_size request) 1)%N ∧
      (∀ x, x ∈ claimed → leased_for (cycle_claim c request) x) ∧
      len new = (if telemetry c then 1 else 0)%N
  | (Err e, s1) => dispatch_cycle c request ctx w = (Err e, World.mk s1 (World.events w))
  end.
Proof.
  intros Hc Hr. unfold dispatch_cycle, op_bind, op_lift, op_ret. rewrite Hc, Hr.
  change (DispatchClaimRequest.at_ _ _) with (cycle_claim c request).
  unfold on_store.
  destruct (claim_due (cycle_claim c request) ctx (World.store w)) as [[claimed|e] s1] eqn:Hcl; [|done].
  destruct (observe_worker_total c (WorkerDispatchCycleRequest.worker_id request)
    (WorkerDispatchCycleRequest.observed_at request) ctx (World.mk s1 (World.events w)))
    as (o & s2 & Ho & Hobs & _); [eapply request_valid; exact Hr|eapply config_valid; exact Hc|].
  destruct (law_claim_batch _ _ _ _ _ Hcl) as [Hlen Hfor]. rewrite Ho.
  match goal with |- context [record_event c ?ev ?w'] =>
    destruct (record_event_new c ev w') as (new & Hev & Hnew) end.
  rewrite Hev. simpl in *. exists o, s2, new. split_and!; try done. lia.
Qed.

(** finalizing through the coordinator is all or nothing.  If the store
    rejects the resolution, the coordinator returns the store's error and neither
    the store nor telemetry changes; if the store accepts it, the coordinator
    succeeds, with the worker observed as visible. *)
Theorem finalize_resolution_spec c worker r at_ ctx w :
  WorkerDispatchCoordinatorConfig.validate (config c) ctx = Ok tt → is_blank worker = false →
  match finalize r ctx (World.store w) with
  | (Ok _, s1) =>
    ∃ o s2 new, finalize_resolution c worker r at_ ctx w = (Ok o, World.mk s2 (World.events w ++ new)) ∧
      observed c worker at_ o ∧ len new = (if telemetry c then 1 else 0)%N
  | (Err e, _) => finalize_resolution c worker r at_ ctx w = (Err e, w)
  end.
Proof.
  intros Hc Hb.
  destruct (finalize_resolution_cases c worker r at_ ctx w Hc Hb)
    as [(e & Hf & Hr)|(s1 & o & new & Hf & Hr & Ho & Hn)]; rewrite Hf; [done|].
  by eexists o, _, new.
Qed.
End coordinator.

#[local] Existing Instance demo_env.

Definition demo_config : t :=
  mk true (WorkerDispatchCoordinatorConfig.mk ExecutionQueue "billing" 30).

Lemma dispatch_cycle_keeps_claims_witness :
  let request := WorkerDispatchCycleRequest.mk "worker_a" 1 10 5 in
  ∃ o s2 new, dispatch_cycle (env:=demo_env) demo_config request demo_ctx (World.mk demo_queued []) =
    (Ok (WorkerDispatchCycle.mk o [ClaimedDispatchWork.Execution demo_claim]), World.mk s2 new) ∧
    observed demo_config "worker_a" 5 o ∧ len new = 1%N.
Proof.
  intros request.
  pose proof (dispatch_cycle_keeps_claims (env:=demo_env) demo_config request demo_ctx
    (World.mk demo_queued []) eq_refl eq_refl) as Hd.
  change (claim_due _ _ _) with
    (MemDispatch.claim_due (env:=demo_env) (demo_request ExecutionQueue "worker_a" 5) demo_ctx demo_queued) in Hd.
  rewrite demo_claim_runs in Hd. destruct Hd as (o & s2 & new & Hd & Ho & _ & _ & Hn).
  exists o, s2, new. split; [exact Hd|]. split; [exact Ho|exact Hn].
Defined.

Lemma finalize_resolution_spec_witness :
  let r := ClaimedDispatchWork.complete (ClaimedDispatchWork.Execution demo_claim) 21 in
  ∃ e, finalize_resolution (env:=demo_env) demo_config "worker_a" r 21 demo_ctx (World.mk demo_reclaimed []) =
    (Err e, World.mk demo_reclaimed []).
Proof.
  intros r.
  pose proof (finalize_resolution_spec (env:=demo_env) demo_config "worker_a" r 21 demo_ctx
    (World.mk demo_reclaimed []) eq_refl eq_refl) as Hf.
  destruct (finalize r demo_ctx (World.store (World.mk demo_reclaimed []))) as [[u|e] s1] eqn:Hr.
  - exfalso. apply (f_equal fst) in Hr. vm_compute in Hr. discriminate Hr.
  - exists e. exact Hf.
Defined.
