(* ===== verification/RunnerTypes.v ===== *)
(** * The values the reference runner hands out ([bos-kernel/src/runner/types/types_core.rs])

    Claims, cycles and outcomes as an operator sees them, the query of the
    scheduler-state inspector, and the sums over the two queues it reports.

    Summaries of the scheduler, of one queue, of one worker and of the runner's
    active claims, computed from snapshots. *)

From S2P Require Import Prelude RustStd Ids Errors Execution Outbox Inspection Workers Dispatch Scheduler.
Module ReferenceActiveClaimRef.
(* src: crates/bos-kernel/src/runner/types/types_core.rs:11-14 ReferenceActiveClaimRef *)
Record t := mk { worker_id : string; lease_id : LeaseId }.
End ReferenceActiveClaimRef.

Module ReferenceWorkClaim.
(* src: crates/bos-kernel/src/runner/types/types_core.rs:33-42 ReferenceWorkClaim *)
Record t := mk {
  queue : DispatchQueue;
  worker_id : string;
  lease_id : LeaseId;
  leased_at : SystemTime;
  lease_expires_at : SystemTime;
  work_id : string;
  available_at : SystemTime;
}.

(* src: crates/bos-kernel/src/runner/types/types_core.rs:45-66 ReferenceWorkClaim::from_claimed *)
Definition from_claimed (claimed : ClaimedDispatchWork.t) : t :=
  match claimed with
  | ClaimedDispatchWork.Execution claimed => {|
      queue := ExecutionQueue;
      worker_id := ExecutionLease.leased_by (ClaimedExecution.lease claimed);
      lease_id := ExecutionLease.lease_id (ClaimedExecution.lease claimed);
      leased_at := ExecutionLease.leased_at (ClaimedExecution.lease claimed);
      lease_expires_at := ExecutionLease.lease_expires_at (ClaimedExecution.lease claimed);
      work_id := Id.as_str (ExecutionRecord.id (ClaimedExecution.record claimed));
      available_at := ExecutionRecord.available_at (ClaimedExecution.record claimed);
    |}
  | ClaimedDispatchWork.Outbox claimed => {|
      queue := OutboxQueue;
      worker_id := OutboxDeliveryLease.leased_by (ClaimedOutboxDelivery.lease claimed);
      lease_id := OutboxDeliveryLease.lease_id (ClaimedOutboxDelivery.lease claimed);
      leased_at := OutboxDeliveryLease.leased_at (ClaimedOutboxDelivery.lease claimed);
      lease_expires_at := OutboxDeliveryLease.lease_expires_at (ClaimedOutboxDelivery.lease claimed);
      work_id := Id.as_str (OutboxMessage.id (ClaimedOutboxDelivery.message claimed));
      available_at := OutboxMessage.available_at (ClaimedOutboxDelivery.message claimed);
    |}
  end.

Lemma from_claimed_lease c :
  lease_id (from_claimed c) = DispatchLease.lease_id (ClaimedDispatchWork.lease c) ∧
  worker_id (from_claimed c) = DispatchLease.leased_by (ClaimedDispatchWork.lease c) ∧
  leased_at (from_claimed c) = DispatchLease.leased_at (ClaimedDispatchWork.lease c) ∧
  lease_expires_at (from_claimed c) = DispatchLease.lease_expires_at (ClaimedDispatchWork.lease c) ∧
  queue (from_claimed c) = ClaimedDispatchWork.queue c.
Proof. by destruct c. Qed.
End ReferenceWorkClaim.

Module ReferenceDispatchCycle.
(* src: crates/bos-kernel/src/runner/types/types_core.rs:97-101 ReferenceDispatchCycle *)
Record t := mk { observation : WorkerObservation.t; claims : list ReferenceWorkClaim.t }.
End ReferenceDispatchCycle.

Module ReferenceLeaseRenewal.
(* src: crates/bos-kernel/src/runner/types/types_core.rs:120-125 ReferenceLeaseRenewal *)
Record t := mk {
  observation : WorkerObservation.t;
  previous_claim : ReferenceWorkClaim.t;
  renewed_claim : ReferenceWorkClaim.t;
}.
End ReferenceLeaseRenewal.

(* src: crates/bos-kernel/src/runner/types/types_core.rs:153-158 ReferenceClaimDisposition *)
Inductive ReferenceClaimDisposition := Completed | Retried | DeadLettered.

Module ReferenceClaimOutcome.
(* src: crates/bos-kernel/src/runner/types/types_core.rs:160-165 ReferenceClaimOutcome *)
Record t := mk {
  observation : WorkerObservation.t;
  claim : ReferenceWorkClaim.t;
  disposition : ReferenceClaimDisposition;
}.
End ReferenceClaimOutcome.

Module ReferenceWorkerSnapshot.
(* src: crates/bos-kernel/src/runner/types/types_core.rs:193-198 ReferenceWorkerSnapshot *)
Record t := mk {
  worker_id : string;
  snapshot : option WorkerDispatchSnapshot.t;
  active_claims : list ReferenceWorkClaim.t;
}.

(* src: crates/bos-kernel/src/runner/types/types_core.rs:225-230 ReferenceWorkerSnapshot::visibility *)
Definition visibility (s : t) : WorkerVisibility :=
  from_option WorkerDispatchSnapshot.visibility Expired (snapshot s).

(* src: crates/bos-kernel/src/runner/types/types_core.rs:232-234 ReferenceWorkerSnapshot::active_claim_count *)
Definition active_claim_count (s : t) : N := len (active_claims s).

(* src: crates/bos-kernel/src/runner/types/types_core.rs:236-241 ReferenceWorkerSnapshot::claimed_work *)
Definition claimed_work (s : t) : N :=
  from_option WorkerDispatchSnapshot.claimed_work (len (active_claims s)) (snapshot s).

(* src: crates/bos-kernel/src/runner/types/types_core.rs:243-248 ReferenceWorkerSnapshot::stale_claims *)
Definition stale_claims (s : t) : N := from_option WorkerDispatchSnapshot.stale_claims 0%N (snapshot s).

(* src: crates/bos-kernel/src/runner/types/types_core.rs:250-261 ReferenceWorkerSnapshot::due_work *)
Definition due_work (s : t) : N :=
  from_option
    (fun snapshot => iter_sum (DispatchQueueStatusSnapshot.due_count <$> WorkerDispatchSnapshot.queues snapshot))
    0%N (snapshot s).

(* src: crates/bos-kernel/src/runner/types/types_core.rs:263-267 ReferenceWorkerSnapshot::queue *)
Definition queue (s : t) (q : DispatchQueue) : option DispatchQueueStatusSnapshot.t :=
  snapshot s ≫= fun snapshot => WorkerDispatchSnapshot.queue snapshot q.
End ReferenceWorkerSnapshot.

Module ReferenceSchedulerStateQuery.
(* src: crates/bos-kernel/src/runner/types/types_core.rs:274-287 ReferenceSchedulerStateQuery *)
Record t := mk {
  observed_at : SystemTime;
  worker_limit : N;
  backlog_limit : N;
  active_claim_limit : N;
  include_expired_workers : bool;
  execution_status : option ExecutionRecordStatus.t;
  outbox_status : option OutboxMessageStatus.t;
  operation : option string;
  target : option string;
  aggregate : option string;
  topic : option string;
}.

(* src: crates/bos-kernel/src/runner/types/types_core.rs:290-304 ReferenceSchedulerStateQuery::new *)
Definition new (now : SystemTime) : t := {|
  observed_at := now;
  worker_limit := usize_max;
  backlog_limit := 50;
  active_claim_limit := 50;
  include_expired_workers := true;
  execution_status := None;
  outbox_status := None;
  operation := None;
  target := None;
  aggregate := None;
  topic := None;
|}.

(** [clock] is the reading the inner constructor makes before [at] replaces it. *)
(* src: crates/bos-kernel/src/runner/types/types_core.rs:405-417 ReferenceSchedulerStateQuery::execution_query *)
Definition execution_query (q : t) (limit : N) (clock : SystemTime) : ExecutionInspectionQuery.t :=
  let inspection := ExecutionInspectionQuery.at_ (ExecutionInspectionQuery.new limit clock) (observed_at q) in
  let inspection :=
    from_option (ExecutionInspectionQuery.with_status inspection) inspection (execution_status q) in
  let inspection :=
    from_option (ExecutionInspectionQuery.with_operation inspection) inspection (operation q) in
  from_option (ExecutionInspectionQuery.with_target inspection) inspection (target q).

(* src: crates/bos-kernel/src/runner/types/types_core.rs:419-431 ReferenceSchedulerStateQuery::outbox_query *)
Definition outbox_query (q : t) (limit : N) (clock : SystemTime) : OutboxInspectionQuery.t :=
  let inspection := OutboxInspectionQuery.at_ (OutboxInspectionQuery.new limit clock) (observed_at q) in
  let inspection :=
    from_option (OutboxInspectionQuery.with_status inspection) inspection (outbox_status q) in
  let inspection :=
    from_option (OutboxInspectionQuery.with_aggregate inspection) inspection (aggregate q) in
  from_option (OutboxInspectionQuery.with_topic inspection) inspection (topic q).
End ReferenceSchedulerStateQuery.

Module ReferenceQueueInspectionSummary.
(* src: crates/bos-kernel/src/runner/types/types_core.rs:440-444 ReferenceQueueInspectionSummary *)
Inductive t :=
| Execution (s : ExecutionInspectionSummary.t)
| Outbox (s : OutboxInspectionSummary.t).

(* src: crates/bos-kernel/src/runner/types/types_core.rs:447-452 ReferenceQueueInspectionSummary::total *)
Definition total (s : t) : N :=
  match s with
  | Execution s => ExecutionInspectionSummary.total s
  | Outbox s => OutboxInspectionSummary.total s
  end.

(* src: crates/bos-kernel/src/runner/types/types_core.rs:489-494 ReferenceQueueInspectionSummary::pending *)
Definition pending (s : t) : N :=
  match s with
  | Execution s => ExecutionInspectionSummary.pending s
  | Outbox s => OutboxInspectionSummary.pending s
  end.

(* src: crates/bos-kernel/src/runner/types/types_core.rs:496-501 ReferenceQueueInspectionSummary::in_flight *)
Definition in_flight (s : t) : N :=
  match s with
  | Execution s => ExecutionInspectionSummary.in_flight s
  | Outbox s => OutboxInspectionSummary.in_flight s
  end.

(* src: crates/bos-kernel/src/runner/types/types_core.rs:503-508 ReferenceQueueInspectionSummary::completed *)
Definition completed (s : t) : N :=
  match s with
  | Execution s => ExecutionInspectionSummary.succeeded s
  | Outbox s => OutboxInspectionSummary.delivered s
  end.

(* src: crates/bos-kernel/src/runner/types/types_core.rs:510-515 ReferenceQueueInspectionSummary::failed *)
Definition failed (s : t) : N :=
  match s with
  | Execution s => ExecutionInspectionSummary.failed s
  | Outbox _ => 0
  end.

(* src: crates/bos-kernel/src/runner/types/types_core.rs:517-522 ReferenceQueueInspectionSummary::dead_lettered *)
Definition dead_lettered (s : t) : N :=
  match s with
  | Execution s => ExecutionInspectionSummary.dead_lettered s
  | Outbox s => OutboxInspectionSummary.dead_lettered s
  end.

(* src: crates/bos-kernel/src/runner/types/types_core.rs:454-459 ReferenceQueueInspectionSummary::due *)
Definition due (s : t) : N :=
  match s with
  | Execution s => ExecutionInspectionSummary.due s
  | Outbox s => OutboxInspectionSummary.due s
  end.

(* src: crates/bos-kernel/src/runner/types/types_core.rs:461-466 ReferenceQueueInspectionSummary::leased *)
Definition leased (s : t) : N :=
  match s with
  | Execution s => ExecutionInspectionSummary.leased s
  | Outbox s => OutboxInspectionSummary.leased s
  end.

(* src: crates/bos-kernel/src/runner/types/types_core.rs:468-473 ReferenceQueueInspectionSummary::retry_scheduled *)
Definition retry_scheduled (s : t) : N :=
  match s with
  | Execution s => ExecutionInspectionSummary.retry_scheduled s
  | Outbox s => OutboxInspectionSummary.retry_scheduled s
  end.

(* src: crates/bos-kernel/src/runner/types/types_core.rs:475-480 ReferenceQueueInspectionSummary::stale_leases *)
Definition stale_leases (s : t) : N :=
  match s with
  | Execution s => ExecutionInspectionSummary.stale_leases s
  | Outbox s => OutboxInspectionSummary.stale_leases s
  end.

(* src: crates/bos-kernel/src/runner/types/types_core.rs:482-487 ReferenceQueueInspectionSummary::oldest_due_at *)
Definition oldest_due_at (s : t) : option SystemTime :=
  match s with
  | Execution s => ExecutionInspectionSummary.oldest_due_at s
  | Outbox s => OutboxInspectionSummary.oldest_due_at s
  end.
End ReferenceQueueInspectionSummary.

Module ReferenceQueueInspectionSnapshot.
(* src: crates/bos-kernel/src/runner/types/types_core.rs:650-654 ReferenceQueueInspectionSnapshot *)
Inductive t :=
| Execution (s : ExecutionInspectionSnapshot.t)
| Outbox (s : OutboxInspectionSnapshot.t).

(* src: crates/bos-kernel/src/runner/types/types_core.rs:657-662 ReferenceQueueInspectionSnapshot::queue *)
Definition queue (s : t) : DispatchQueue :=
  match s with Execution _ => ExecutionQueue | Outbox _ => OutboxQueue end.

(* src: crates/bos-kernel/src/runner/types/types_core.rs:664-669 ReferenceQueueInspectionSnapshot::id *)
Definition id (s : t) : string :=
  match s with
  | Execution s => Id.as_str (ExecutionInspectionSnapshot.execution_id s)
  | Outbox s => Id.as_str (OutboxInspectionSnapshot.message_id s)
  end.

(* src: crates/bos-kernel/src/runner/types/types_core.rs:678-683 ReferenceQueueInspectionSnapshot::leased_by *)
Definition leased_by (s : t) : option string :=
  match s with
  | Execution s => ExecutionInspectionSnapshot.leased_by s
  | Outbox s => OutboxInspectionSnapshot.leased_by s
  end.

(* src: crates/bos-kernel/src/runner/types/types_core.rs:699-704 ReferenceQueueInspectionSnapshot::active_lease *)
Definition active_lease (s : t) : bool :=
  match s with
  | Execution s => ExecutionInspectionSnapshot.active_lease s
  | Outbox s => OutboxInspectionSnapshot.active_lease s
  end.

(* src: crates/bos-kernel/src/runner/types/types_core.rs:706-711 ReferenceQueueInspectionSnapshot::stale_lease *)
Definition stale_lease (s : t) : bool :=
  match s with
  | Execution s => ExecutionInspectionSnapshot.stale_lease s
  | Outbox s => OutboxInspectionSnapshot.stale_lease s
  end.

(* src: crates/bos-kernel/src/runner/types/types_core.rs:713-718 ReferenceQueueInspectionSnapshot::due *)
Definition due (s : t) : bool :=
  match s with
  | Execution s => ExecutionInspectionSnapshot.due s
  | Outbox s => OutboxInspectionSnapshot.due s
  end.

(* src: crates/bos-kernel/src/runner/types/types_core.rs:720-725 ReferenceQueueInspectionSnapshot::retry_scheduled *)
Definition retry_scheduled (s : t) : bool :=
  match s with
  | Execution s => ExecutionInspectionSnapshot.retry_scheduled s
  | Outbox s => OutboxInspectionSnapshot.retry_scheduled s
  end.
End ReferenceQueueInspectionSnapshot.

Module ReferenceQueueInspectionRecord.
(* src: crates/bos-kernel/src/runner/types/types_core.rs:533-537 ReferenceQueueInspectionRecord *)
Inductive t :=
| Execution (r : ExecutionInspectionRecord.t)
| Outbox (r : OutboxInspectionRecord.t).

(* src: crates/bos-kernel/src/runner/types/types_core.rs:561-566 ReferenceQueueInspectionRecord::id *)
Definition id (r : t) : string :=
  match r with
  | Execution r => Id.as_str (ExecutionRecord.id (ExecutionInspectionRecord.record r))
  | Outbox r => Id.as_str (OutboxMessage.id (OutboxInspectionRecord.message r))
  end.

(* src: crates/bos-kernel/src/runner/types/types_core.rs:603-608 ReferenceQueueInspectionRecord::is_terminal *)
Definition is_terminal (r : t) : bool :=
  match r with
  | Execution r => ExecutionInspectionRecord.is_terminal r
  | Outbox r => OutboxInspectionRecord.is_terminal r
  end.

(* src: crates/bos-kernel/src/runner/types/types_core.rs:610-615 ReferenceQueueInspectionRecord::is_due_at *)
Definition is_due_at (r : t) (observed_at : SystemTime) : bool :=
  match r with
  | Execution r => ExecutionInspectionRecord.is_due_at r observed_at
  | Outbox r => OutboxInspectionRecord.is_due_at r observed_at
  end.

(* src: crates/bos-kernel/src/runner/types/types_core.rs:638-647 ReferenceQueueInspectionRecord::snapshot_at *)
Definition snapshot_at (r : t) (observed_at : SystemTime) : ReferenceQueueInspectionSnapshot.t :=
  match r with
  | Execution r => ReferenceQueueInspectionSnapshot.Execution (ExecutionInspectionSnapshot.snapshot_at r observed_at)
  | Outbox r => ReferenceQueueInspectionSnapshot.Outbox (OutboxInspectionSnapshot.snapshot_at r observed_at)
  end.
End ReferenceQueueInspectionRecord.

(** * What operators see of a runner ([bos-kernel/src/runner/types/types_views.rs]) *)

(** [worker.visibility() == WorkerVisibility::Expired]. *)
Definition worker_expired (w : ReferenceWorkerSnapshot.t) : bool :=
  bool_decide (ReferenceWorkerSnapshot.visibility w = Expired).

Module ReferenceActiveClaimSnapshot.
(* src: crates/bos-kernel/src/runner/types/types_views.rs:10-13 ReferenceActiveClaimSnapshot *)
Record t := mk { claim : ReferenceWorkClaim.t; snapshot : ReferenceQueueInspectionSnapshot.t }.

(* src: crates/bos-kernel/src/runner/types/types_views.rs:35-37 ReferenceActiveClaimSnapshot::worker_id *)
Definition worker_id (s : t) : string := ReferenceWorkClaim.worker_id (claim s).
(* src: crates/bos-kernel/src/runner/types/types_views.rs:67-69 ReferenceActiveClaimSnapshot::active_lease *)
Definition active_lease (s : t) : bool := ReferenceQueueInspectionSnapshot.active_lease (snapshot s).
(* src: crates/bos-kernel/src/runner/types/types_views.rs:71-73 ReferenceActiveClaimSnapshot::stale_lease *)
Definition stale_lease (s : t) : bool := ReferenceQueueInspectionSnapshot.stale_lease (snapshot s).
(* src: crates/bos-kernel/src/runner/types/types_views.rs:75-77 ReferenceActiveClaimSnapshot::due *)
Definition due (s : t) : bool := ReferenceQueueInspectionSnapshot.due (snapshot s).
(* src: crates/bos-kernel/src/runner/types/types_views.rs:79-81 ReferenceActiveClaimSnapshot::retry_scheduled *)
Definition retry_scheduled (s : t) : bool := ReferenceQueueInspectionSnapshot.retry_scheduled (snapshot s).
End ReferenceActiveClaimSnapshot.

(** [filter(f).count()]. *)
Definition count_if {A} (f : A → bool) (l : list A) : N := len (filter (fun x => f x) l).

Module ReferenceActiveClaimSummary.
(* src: crates/bos-kernel/src/runner/types/types_views.rs:92-104 ReferenceActiveClaimSummary *)
Record t := mk {
  queue : DispatchQueue;
  observed_at : SystemTime;
  total : N;
  workers : N;
  active_leases : N;
  stale_leases : N;
  due_work : N;
  retry_scheduled : N;
  oldest_leased_at : option SystemTime;
  earliest_lease_expiry : option SystemTime;
}.

(* src: crates/bos-kernel/src/runner/types/types_views.rs:107-132 ReferenceActiveClaimSummary::new *)
Definition new (queue : DispatchQueue) (observed_at : SystemTime)
    (claims : list ReferenceActiveClaimSnapshot.t) : t := {|
  queue := queue;
  observed_at := observed_at;
  total := len claims;
  workers := N.of_nat (size (list_to_set (ReferenceActiveClaimSnapshot.worker_id <$> claims) : gset string));
  active_leases := count_if ReferenceActiveClaimSnapshot.active_lease claims;
  stale_leases := count_if ReferenceActiveClaimSnapshot.stale_lease claims;
  due_work := count_if ReferenceActiveClaimSnapshot.due claims;
  retry_scheduled := count_if ReferenceActiveClaimSnapshot.retry_scheduled claims;
  oldest_leased_at :=
    iter_min ((fun c => ReferenceWorkClaim.leased_at (ReferenceActiveClaimSnapshot.claim c)) <$> claims);
  earliest_lease_expiry :=
    iter_min ((fun c => ReferenceWorkClaim.lease_expires_at (ReferenceActiveClaimSnapshot.claim c)) <$> claims);
|}.
End ReferenceActiveClaimSummary.

Module ReferenceQueueSummary.
(* src: crates/bos-kernel/src/runner/types/types_views.rs:484-499 ReferenceQueueSummary *)
Record t := mk {
  queue : DispatchQueue;
  observed_at : SystemTime;
  total : N;
  pending : N;
  in_flight : N;
  completed : N;
  failed : N;
  dead_lettered : N;
  due : N;
  leased : N;
  retry_scheduled : N;
  stale_leases : N;
  oldest_due_at : option SystemTime;
}.

(* src: crates/bos-kernel/src/runner/types/types_views.rs:502-522 ReferenceQueueSummary::new *)
Definition new (queue : DispatchQueue) (observed_at : SystemTime)
    (summary : ReferenceQueueInspectionSummary.t) : t := {|
  queue := queue;
  observed_at := observed_at;
  total := ReferenceQueueInspectionSummary.total summary;
  pending := ReferenceQueueInspectionSummary.pending summary;
  in_flight := ReferenceQueueInspectionSummary.in_flight summary;
  completed := ReferenceQueueInspectionSummary.completed summary;
  failed := ReferenceQueueInspectionSummary.failed summary;
  dead_lettered := ReferenceQueueInspectionSummary.dead_lettered summary;
  due := ReferenceQueueInspectionSummary.due summary;
  leased := ReferenceQueueInspectionSummary.leased summary;
  retry_scheduled := ReferenceQueueInspectionSummary.retry_scheduled summary;
  stale_leases := ReferenceQueueInspectionSummary.stale_leases summary;
  oldest_due_at := ReferenceQueueInspectionSummary.oldest_due_at summary;
|}.

(* src: crates/bos-kernel/src/runner/types/types_views.rs:576-580 ReferenceQueueSummary::unfinished *)
Definition unfinished (s : t) : N := (total s - completed s - dead_lettered s)%N.
End ReferenceQueueSummary.

(* src: crates/bos-kernel/src/runner/types/types_core.rs:524-530 ReferenceQueueInspectionSummary::operator_summary *)
Definition backlog_operator_summary (s : ReferenceQueueInspectionSummary.t) (queue : DispatchQueue)
    (observed_at : SystemTime) : ReferenceQueueSummary.t :=
  ReferenceQueueSummary.new queue observed_at s.

Module ReferenceSchedulerStateSummary.
(* src: crates/bos-kernel/src/runner/types/types_views.rs:175-187 ReferenceSchedulerStateSummary *)
Record t := mk {
  queue : DispatchQueue;
  scope : string;
  observed_at : SystemTime;
  workers : N;
  visible_workers : N;
  expired_workers : N;
  workers_with_claims : N;
  active_claims : N;
  stale_active_claims : N;
  backlog : ReferenceQueueInspectionSummary.t;
}.

(* src: crates/bos-kernel/src/runner/types/types_views.rs:190-222 ReferenceSchedulerStateSummary::new *)
Definition new (queue : DispatchQueue) (scope : string) (observed_at : SystemTime)
    (workers : list ReferenceWorkerSnapshot.t) (active_claims : list ReferenceWorkClaim.t)
    (backlog : ReferenceQueueInspectionSummary.t) : t := {|
  queue := queue;
  scope := scope;
  observed_at := observed_at;
  workers := len workers;
  visible_workers := count_if (fun w => negb (worker_expired w)) workers;
  expired_workers := count_if worker_expired workers;
  workers_with_claims := count_if (fun w => 0 <? ReferenceWorkerSnapshot.active_claim_count w)%N workers;
  active_claims := len active_claims;
  stale_active_claims :=
    count_if (fun c => ReferenceWorkClaim.lease_expires_at c <? observed_at)%Z active_claims;
  backlog := backlog;
|}.

(* src: crates/bos-kernel/src/runner/types/types_views.rs:264-266 ReferenceSchedulerStateSummary::queue_summary *)
Definition queue_summary (s : t) : ReferenceQueueSummary.t :=
  backlog_operator_summary (backlog s) (queue s) (observed_at s).
End ReferenceSchedulerStateSummary.

Module ReferenceWorkerQueueSummary.
(* src: crates/bos-kernel/src/runner/types/types_views.rs:328-335 ReferenceWorkerQueueSummary *)
Record t := mk {
  queue : DispatchQueue;
  due : N;
  claimed : N;
  stale_claims : N;
  oldest_due_at : option SystemTime;
}.

(* src: crates/bos-kernel/src/runner/types/types_views.rs:338-346 ReferenceWorkerQueueSummary::from_snapshot *)
Definition from_snapshot (s : DispatchQueueStatusSnapshot.t) : t := {|
  queue := DispatchQueueStatusSnapshot.queue s;
  due := DispatchQueueStatusSnapshot.due_count s;
  claimed := DispatchQueueStatusSnapshot.claimed_count s;
  stale_claims := DispatchQueueStatusSnapshot.stale_claim_count s;
  oldest_due_at := DispatchQueueStatusSnapshot.oldest_due_at s;
|}.

(** The derived order of [DispatchQueue]: by constructor. *)
Definition queue_rank (q : DispatchQueue) : Z := match q with ExecutionQueue => 0 | OutboxQueue => 1 end.
End ReferenceWorkerQueueSummary.

Module ReferenceWorkerSummary.
(* src: crates/bos-kernel/src/runner/types/types_views.rs:369-383 ReferenceWorkerSummary *)
Record t := mk {
  worker_id : string;
  scope : option string;
  observed_at : option SystemTime;
  visibility : WorkerVisibility;
  heartbeat_recorded_at : option SystemTime;
  visible_until : option SystemTime;
  active_leases : N;
  active_claims : N;
  claimed_work : N;
  stale_claims : N;
  due_work : N;
  queues : list ReferenceWorkerQueueSummary.t;
}.

(* src: crates/bos-kernel/src/runner/types/types_views.rs:386-427 ReferenceWorkerSummary::from_snapshot *)
Definition from_snapshot (s : ReferenceWorkerSnapshot.t) : t :=
  let worker := ReferenceWorkerSnapshot.snapshot s in
  let heartbeat := worker ≫= WorkerDispatchSnapshot.heartbeat in
  {|
    worker_id := ReferenceWorkerSnapshot.worker_id s;
    scope := WorkerDispatchSnapshot.scope <$> worker;
    observed_at := WorkerDispatchSnapshot.observed_at <$> worker;
    visibility := ReferenceWorkerSnapshot.visibility s;
    heartbeat_recorded_at := WorkerHeartbeat.recorded_at <$> heartbeat;
    visible_until := WorkerHeartbeat.visible_until <$> heartbeat;
    active_leases :=
      from_option WorkerDispatchSnapshot.active_leases (ReferenceWorkerSnapshot.active_claim_count s) worker;
    active_claims := ReferenceWorkerSnapshot.active_claim_count s;
    claimed_work := ReferenceWorkerSnapshot.claimed_work s;
    stale_claims := ReferenceWorkerSnapshot.stale_claims s;
    due_work := ReferenceWorkerSnapshot.due_work s;
    queues :=
      from_option (fun worker =>
          sort_by_key (fun q => ReferenceWorkerQueueSummary.queue_rank (ReferenceWorkerQueueSummary.queue q))
            (ReferenceWorkerQueueSummary.from_snapshot <$> WorkerDispatchSnapshot.queues worker))
        [] worker;
  |}.
End ReferenceWorkerSummary.

(* src: crates/bos-kernel/src/runner/types/types_core.rs:269-271 ReferenceWorkerSnapshot::operator_summary *)
Definition worker_operator_summary (s : ReferenceWorkerSnapshot.t) : ReferenceWorkerSummary.t :=
  ReferenceWorkerSummary.from_snapshot s.

Module ReferenceOperatorSummary.
(* src: crates/bos-kernel/src/runner/types/types_views.rs:583-588 ReferenceOperatorSummary *)
Record t := mk {
  scheduler : ReferenceSchedulerStateSummary.t;
  queue : ReferenceQueueSummary.t;
  workers : list ReferenceWorkerSummary.t;
}.

(* src: crates/bos-kernel/src/runner/types/types_views.rs:591-603 ReferenceOperatorSummary::new *)
Definition new (scheduler : ReferenceSchedulerStateSummary.t) (workers : list ReferenceWorkerSnapshot.t) : t :=
  mk scheduler (ReferenceSchedulerStateSummary.queue_summary scheduler) (worker_operator_summary <$> workers).
End ReferenceOperatorSummary.

Module ReferenceSchedulerState.
(* src: crates/bos-kernel/src/runner/types/types_views.rs:269-275 ReferenceSchedulerState *)
Record t := mk {
  summary : ReferenceSchedulerStateSummary.t;
  workers : list ReferenceWorkerSnapshot.t;
  active_claims : list ReferenceWorkClaim.t;
  backlog : list ReferenceQueueInspectionRecord.t;
}.

(* src: crates/bos-kernel/src/runner/types/types_views.rs:308-312 ReferenceSchedulerState::worker *)
Definition worker (s : t) (worker_id : string) : option ReferenceWorkerSnapshot.t :=
  List.find (fun w => string_eqb (ReferenceWorkerSnapshot.worker_id w) worker_id) (workers s).

(* src: crates/bos-kernel/src/runner/types/types_views.rs:314-316 ReferenceSchedulerState::backlog_record *)
Definition backlog_record (s : t) (id : string) : option ReferenceQueueInspectionRecord.t :=
  List.find (fun r => string_eqb (ReferenceQueueInspectionRecord.id r) id) (backlog s).

(* src: crates/bos-kernel/src/runner/types/types_views.rs:318-321 ReferenceSchedulerState::backlog_snapshot *)
Definition backlog_snapshot (s : t) (id : string) : option ReferenceQueueInspectionSnapshot.t :=
  (fun r => ReferenceQueueInspectionRecord.snapshot_at r
              (ReferenceSchedulerStateSummary.observed_at (summary s))) <$> backlog_record s id.

(* src: crates/bos-kernel/src/runner/types/types_views.rs:323-325 ReferenceSchedulerState::operator_summary *)
Definition operator_summary (s : t) : ReferenceOperatorSummary.t :=
  ReferenceOperatorSummary.new (summary s) (workers s).
End ReferenceSchedulerState.

Lemma count_if_split {A} (f : A → bool) l : (count_if (fun x => negb (f x)) l + count_if f l = len l)%N.
Proof.
  unfold count_if. induction l as [|x l IH]; [done|]. rewrite !filter_cons.
  destruct (f x) eqn:Hx; simpl; rewrite ?len_cons; lia.
Qed.

Lemma count_if_le {A} (f : A → bool) l : (count_if f l ≤ len l)%N.
Proof. rewrite <- (count_if_split f l). lia. Qed.
