(* ===== verification/Runner.v ===== *)
(** * The reference dispatch runner ([bos-kernel/src/runner/dispatch_runner.rs])

    [ReferenceDispatchRunner] drives the coordinator for a worker and remembers,
    per lease id, the work it has claimed and not yet finished.  Its mutex guards
    that table alone: the store is called before the lock is taken.  Here the
    table and the world of the coordinator are one state, and a method is one
    operation of it. *)

From S2P Require Import Prelude RustStd Ids Errors Execution Outbox.
From S2P Require Import Workers Dispatch Stores Scheduler RunnerTypes.

Module RegisteredClaim.
(* src: crates/bos-kernel/src/runner/dispatch_runner.rs:18-21 RegisteredClaim *)
Record t := mk { claimed : ClaimedDispatchWork.t }.
End RegisteredClaim.

(** [gen] is what [CorrelationId::generate()] returns for an error. *)
(* src: crates/bos-kernel/src/runner/dispatch_runner.rs:315-339 rebuild_claimed_with_lease *)
Definition rebuild_claimed_with_lease (gen : CorrelationId) (claimed : ClaimedDispatchWork.t)
    (renewed_lease : DispatchLease.t) : AppResult ClaimedDispatchWork.t :=
  match claimed, renewed_lease with
  | ClaimedDispatchWork.Execution claimed, DispatchLease.Execution lease =>
    Result_map ClaimedDispatchWork.Execution (ClaimedExecution.replace_lease claimed lease)
  | ClaimedDispatchWork.Outbox claimed, DispatchLease.Outbox lease =>
    Result_map ClaimedDispatchWork.Outbox (ClaimedOutboxDelivery.replace_lease gen claimed lease)
  | ClaimedDispatchWork.Execution _, DispatchLease.Outbox _ =>
    Err (AppError.new InvalidInput "reference_runner_lease_queue_mismatch"
           "execution claims require execution lease renewals" gen)
  | ClaimedDispatchWork.Outbox _, DispatchLease.Execution _ =>
    Err (AppError.new InvalidInput "reference_runner_lease_queue_mismatch"
           "outbox claims require outbox lease renewals" gen)
  end.

Module ReferenceDispatchRunner.
(** The runner's table and everything it reaches through its references; the
    coordinator itself is an argument of the methods. *)
(* src: crates/bos-kernel/src/runner/dispatch_runner.rs:23-26 ReferenceDispatchRunner *)
Record t (S : Type) := mk {
  active_claims : gmap LeaseId RegisteredClaim.t;
  world : World.t S;
}.
Arguments mk {S} _ _.
Arguments active_claims {S} _.
Arguments world {S} _.

Section stores.
Context {S : Type} `{DispatchWorkStore S} `{WorkerHeartbeatStore S} `{DispatchStatusStore S}.
Context {env : Env}.

Abbreviation Coordinator := WorkerDispatchCoordinator.t.
Abbreviation R := (t S) (only parsing).

(** A call of a coordinator method. *)
Definition on_world {A} (m : Op (World.t S) AppError.t A) : Op R AppError.t A :=
  fun s => let '(r, w) := m (world s) in (r, mk (active_claims s) w).

(** The table under its lock. *)
Definition modify_claims (f : gmap LeaseId RegisteredClaim.t → gmap LeaseId RegisteredClaim.t)
    : Op R AppError.t unit :=
  fun s => (Ok tt, mk (f (active_claims s)) (world s)).

(** [active_claims.insert], once per claimed item. *)
Definition register (claims : gmap LeaseId RegisteredClaim.t) (claimed : ClaimedDispatchWork.t)
    : gmap LeaseId RegisteredClaim.t :=
  <[DispatchLease.lease_id (ClaimedDispatchWork.lease claimed) := RegisteredClaim.mk claimed]> claims.

(* src: crates/bos-kernel/src/runner/dispatch_runner.rs:50-56 ReferenceDispatchRunner::heartbeat *)
Definition heartbeat (c : Coordinator) (request : WorkerHeartbeatRequest.t) (ctx : ExecutionContext.t)
    : Op R AppError.t WorkerObservation.t :=
  on_world (WorkerDispatchCoordinator.coordinator_heartbeat c request ctx).

(* src: crates/bos-kernel/src/runner/dispatch_runner.rs:58-84 ReferenceDispatchRunner::claim *)
Definition claim (c : Coordinator) (request : WorkerDispatchCycleRequest.t) (ctx : ExecutionContext.t)
    : Op R AppError.t ReferenceDispatchCycle.t :=
  let? cycle := on_world (WorkerDispatchCoordinator.dispatch_cycle c request ctx) in
  let claims := ReferenceWorkClaim.from_claimed <$> WorkerDispatchCycle.claimed cycle in
  modify_claims (fun active => foldl register active (WorkerDispatchCycle.claimed cycle)) ;;?
  op_ret (ReferenceDispatchCycle.mk (WorkerDispatchCycle.observation cycle) claims).

(* src: crates/bos-kernel/src/runner/dispatch_runner.rs:252-279 ReferenceDispatchRunner::lookup_claim *)
Definition lookup_claim (claim : ReferenceActiveClaimRef.t) (ctx : ExecutionContext.t)
    : Op R AppError.t RegisteredClaim.t :=
  let? s := op_get in
  let? registered := op_lift (ok_or (active_claims s !! ReferenceActiveClaimRef.lease_id claim)
      (AppError.not_found "reference_runner_claim_not_found"
         ("active claim " +:+ Id.as_str (ReferenceActiveClaimRef.lease_id claim) +:+ " was not found")
         (ExecutionContext.correlation_id ctx))) in
  if negb (String.eqb
       (DispatchLease.leased_by (ClaimedDispatchWork.lease (RegisteredClaim.claimed registered)))
       (ReferenceActiveClaimRef.worker_id claim)) then
    op_lift (Err (AppError.new ConcurrentModification "reference_runner_claim_owner_mismatch"
      "active claim does not belong to the requested worker" (ExecutionContext.correlation_id ctx)))
  else op_ret registered.

(* src: crates/bos-kernel/src/runner/dispatch_runner.rs:86-115 ReferenceDispatchRunner::renew *)
Definition renew (c : Coordinator) (claim : ReferenceActiveClaimRef.t) (renewed_at : SystemTime)
    (lease_ttl : Duration) (ctx : ExecutionContext.t) : Op R AppError.t ReferenceLeaseRenewal.t :=
  let? previous := lookup_claim claim ctx in
  let previous_claim := ReferenceWorkClaim.from_claimed (RegisteredClaim.claimed previous) in
  let? renewal := on_world (WorkerDispatchCoordinator.coordinator_renew_claim c
      (RegisteredClaim.claimed previous) renewed_at lease_ttl ctx) in
  let? renewed_claim := op_lift (rebuild_claimed_with_lease env_gen (RegisteredClaim.claimed previous)
      (WorkerStoredLeaseRenewal.lease renewal)) in
  let renewed_summary := ReferenceWorkClaim.from_claimed renewed_claim in
  modify_claims (fun active =>
    <[ReferenceWorkClaim.lease_id renewed_summary := RegisteredClaim.mk renewed_claim]>
      (delete (ReferenceActiveClaimRef.lease_id claim) active)) ;;?
  op_ret (ReferenceLeaseRenewal.mk (WorkerStoredLeaseRenewal.observation renewal)
            previous_claim renewed_summary).

(** The shape [complete], [retry] and [dead_letter] share: look the claim up,
    finish it through the coordinator, and only then drop it from the table. *)
Definition finish (finalize : ClaimedDispatchWork.t → Op (World.t S) AppError.t WorkerObservation.t)
    (disposition : ReferenceClaimDisposition) (claim : ReferenceActiveClaimRef.t)
    (ctx : ExecutionContext.t) : Op R AppError.t ReferenceClaimOutcome.t :=
  let? registered := lookup_claim claim ctx in
  let claim_summary := ReferenceWorkClaim.from_claimed (RegisteredClaim.claimed registered) in
  let? observation := on_world (finalize (RegisteredClaim.claimed registered)) in
  modify_claims (delete (ReferenceActiveClaimRef.lease_id claim)) ;;?
  op_ret (ReferenceClaimOutcome.mk observation claim_summary disposition).

(* src: crates/bos-kernel/src/runner/dispatch_runner.rs:117-135 ReferenceDispatchRunner::complete *)
Definition complete (c : Coordinator) (claim : ReferenceActiveClaimRef.t) (completed_at : SystemTime)
    (ctx : ExecutionContext.t) : Op R AppError.t ReferenceClaimOutcome.t :=
  finish (fun claimed => WorkerDispatchCoordinator.complete_claim c claimed completed_at ctx)
    Completed claim ctx.

(* src: crates/bos-kernel/src/runner/dispatch_runner.rs:137-161 ReferenceDispatchRunner::retry *)
Definition retry (c : Coordinator) (claim : ReferenceActiveClaimRef.t)
    (attempted_at next_available_at : SystemTime) (error : string) (ctx : ExecutionContext.t)
    : Op R AppError.t ReferenceClaimOutcome.t :=
  finish (fun claimed =>
      WorkerDispatchCoordinator.retry_claim c claimed attempted_at next_available_at error ctx)
    Retried claim ctx.

(* src: crates/bos-kernel/src/runner/dispatch_runner.rs:163-182 ReferenceDispatchRunner::dead_letter *)
Definition dead_letter (c : Coordinator) (claim : ReferenceActiveClaimRef.t)
    (dead_lettered_at : SystemTime) (error : string) (ctx : ExecutionContext.t)
    : Op R AppError.t ReferenceClaimOutcome.t :=
  finish (fun claimed =>
      WorkerDispatchCoordinator.dead_letter_claim c claimed dead_lettered_at error ctx)
    DeadLettered claim ctx.

(* src: crates/bos-kernel/src/runner/dispatch_runner.rs:281-299 ReferenceDispatchRunner::list_active_claims_inner *)
Definition list_active_claims_inner (worker_id : option string) (ctx : ExecutionContext.t)
    : Op R AppError.t (list ReferenceWorkClaim.t) :=
  let? s := op_get in
  let claims :=
    (fun registered => ReferenceWorkClaim.from_claimed (RegisteredClaim.claimed registered)) <$>
    filter (fun registered => map_or_true (fun worker_id => String.eqb
              (DispatchLease.leased_by (ClaimedDispatchWork.lease (RegisteredClaim.claimed registered)))
              worker_id) worker_id)
      (values (active_claims s)) in
  op_ret (sort_by_key (fun claim => (ReferenceWorkClaim.leased_at claim, ReferenceWorkClaim.lease_id claim))
            claims).

(* src: crates/bos-kernel/src/runner/dispatch_runner.rs:240-242 ReferenceDispatchRunner::list_active_claims *)
Definition list_active_claims (ctx : ExecutionContext.t) : Op R AppError.t (list ReferenceWorkClaim.t) :=
  list_active_claims_inner None ctx.

(* src: crates/bos-kernel/src/runner/dispatch_runner.rs:244-250 ReferenceDispatchRunner::list_active_claims_for_worker *)
Definition list_active_claims_for_worker (worker_id : string) (ctx : ExecutionContext.t)
    : Op R AppError.t (list ReferenceWorkClaim.t) :=
  list_active_claims_inner (Some worker_id) ctx.

(* src: crates/bos-kernel/src/runner/dispatch_runner.rs:184-202 ReferenceDispatchRunner::snapshot_worker *)
Definition snapshot_worker (c : Coordinator) (query : WorkerSnapshotQuery.t) (ctx : ExecutionContext.t)
    : Op R AppError.t (option ReferenceWorkerSnapshot.t) :=
  let worker_id := WorkerSnapshotQuery.worker_id query in
  let? snapshot := on_world (WorkerDispatchCoordinator.snapshot_worker c query ctx) in
  let? active_claims := list_active_claims_for_worker worker_id ctx in
  match snapshot, active_claims with
  | None, [] => op_ret None
  | _, _ => op_ret (Some (ReferenceWorkerSnapshot.mk worker_id snapshot active_claims))
  end.

(* src: crates/bos-kernel/src/runner/dispatch_runner.rs:204-210 ReferenceDispatchRunner::list_worker_snapshots *)
Definition runner_list_worker_snapshots (c : Coordinator) (query : WorkerSnapshotListQuery.t)
    (ctx : ExecutionContext.t) : Op R AppError.t (list WorkerDispatchSnapshot.t) :=
  on_world (WorkerDispatchCoordinator.coordinator_list_worker_snapshots c query ctx).

(** The [collect] of [list_worker_details]: the first error ends it. *)
Fixpoint collect_details (snapshots : list WorkerDispatchSnapshot.t) (ctx : ExecutionContext.t)
    : Op R AppError.t (list ReferenceWorkerSnapshot.t) :=
  match snapshots with
  | [] => op_ret []
  | snapshot :: snapshots =>
    let worker_id := WorkerDispatchSnapshot.worker_id snapshot in
    let? active_claims := list_active_claims_for_worker worker_id ctx in
    let? details := collect_details snapshots ctx in
    op_ret (ReferenceWorkerSnapshot.mk worker_id (Some snapshot) active_claims :: details)
  end.

(* src: crates/bos-kernel/src/runner/dispatch_runner.rs:212-230 ReferenceDispatchRunner::list_worker_details *)
Definition list_worker_details (c : Coordinator) (query : WorkerSnapshotListQuery.t)
    (ctx : ExecutionContext.t) : Op R AppError.t (list ReferenceWorkerSnapshot.t) :=
  let? snapshots := on_world (WorkerDispatchCoordinator.coordinator_list_worker_snapshots c query ctx) in
  collect_details snapshots ctx.

(* src: crates/bos-kernel/src/runner/dispatch_runner.rs:232-238 ReferenceDispatchRunner::list_visible_workers *)
Definition runner_list_visible_workers (c : Coordinator) (query : VisibleWorkerListQuery.t)
    (ctx : ExecutionContext.t) : Op R AppError.t (list WorkerHeartbeat.t) :=
  on_world (WorkerDispatchCoordinator.coordinator_list_visible_workers c query ctx).
End stores.
End ReferenceDispatchRunner.
