(* ===== verification/RunnerProps.v ===== *)
(** * The reference runner over the in-memory store

    Runners, producers and other workers share one store and interleave freely.
    The theorems: what a runner has registered it can finish exactly as long as
    the store still holds it under the registered lease; and a claim whose lease
    was lost stays registered for good. *)

From S2P Require Import Prelude RustStd Ids Errors CurrentState Execution Outbox.
From S2P Require Import Transactional Inspection Workers Dispatch Stores Memory MemoryStore MemoryDispatch.
From S2P Require Import MemoryInv MemorySelect MemoryFinal MemoryRecover MemoryLife MemoryLaws.
From S2P Require Import Scheduler RunnerTypes Runner.

Module Coord := WorkerDispatchCoordinator.
Module Run := ReferenceDispatchRunner.

(** ** What the coordinator does to the store *)

(** Any call but an overwrite of a record. *)
Definition no_update (c : StoreCall) : Prop :=
  match c with CallUpdate _ _ => False | _ => True end.

(** The operation reaches the store by such calls alone. *)
Definition store_calls {A} (m : Op (World.t State.t) AppError.t A) : Prop :=
  ∀ w, ∃ cs, Forall no_update cs ∧ World.store (m w).2 = run_calls (World.store w) cs.

Lemma run_calls_app s cs cs' : run_calls s (cs ++ cs') = run_calls (run_calls s cs) cs'.
Proof. apply foldl_app. Qed.

Lemma store_calls_ret {A} (a : A) : store_calls (op_ret a).
Proof. intros w. by exists []. Qed.

Lemma store_calls_lift {A} (r : Result AppError.t A) : store_calls (op_lift r).
Proof. intros w. by exists []. Qed.

Lemma store_calls_bind {A B} (m : Op (World.t State.t) AppError.t A) (k : A → Op (World.t State.t) AppError.t B) :
  store_calls m → (∀ x, store_calls (k x)) → store_calls (op_bind m k).
Proof.
  intros Hm Hk w. unfold op_bind. destruct (Hm w) as (cs & Hcs & Hs).
  destruct (m w) as [[x|e] w1]; simpl in *; [|by exists cs].
  destruct (Hk x w1) as (cs' & Hcs' & Hs'). exists (cs ++ cs').
  split; [by apply Forall_app|]. by rewrite Hs', Hs, run_calls_app.
Qed.

Lemma store_calls_on_store {A} (m : Op State.t AppError.t A) :
  (∀ s, ∃ cs, Forall no_update cs ∧ (m s).2 = run_calls s cs) → store_calls (Coord.on_store m).
Proof.
  intros Hm w. unfold Coord.on_store. destruct (Hm (World.store w)) as (cs & Hcs & Hs).
  exists cs. split; [done|]. by destruct (m (World.store w)).
Qed.

Lemma store_calls_reads {A} (m : Op State.t AppError.t A) : reads m → store_calls (Coord.on_store m).
Proof. intros Hm. apply store_calls_on_store. intros s. exists []. by rewrite Hm. Qed.

Lemma store_calls_event c ev : store_calls (Coord.record_event c ev).
Proof. intros w. exists []. unfold Coord.record_event. by destruct (Coord.telemetry c). Qed.

#[local] Hint Resolve store_calls_ret store_calls_lift store_calls_bind store_calls_event : op_db.

Section coordinator.
Context {env : Env}.

Lemma store_calls_claim request ctx : store_calls (Coord.on_store (claim_due request ctx)).
Proof.
  apply store_calls_on_store. intros s. exists [CallClaim env request ctx].
  split; [by repeat constructor|done].
Qed.

Lemma store_calls_renew r ctx : store_calls (Coord.on_store (renew_claim r ctx)).
Proof.
  apply store_calls_on_store. intros s. exists [CallRenew r ctx]. split; [by repeat constructor|done].
Qed.

Lemma store_calls_finalize r ctx : store_calls (Coord.on_store (finalize r ctx)).
Proof.
  apply store_calls_on_store. intros s. exists [CallFinalize r ctx]. split; [by repeat constructor|done].
Qed.

Lemma store_calls_observe c worker at_ ctx : store_calls (Coord.observe_worker c worker at_ ctx).
Proof.
  unfold Coord.observe_worker. apply store_calls_bind.
  { apply store_calls_on_store. intros s. eexists [CallHeartbeat _ ctx].
    split; [by repeat constructor|reflexivity]. }
  intros _. apply store_calls_bind; [by apply store_calls_reads|]. intros found.
  apply store_calls_bind; [apply store_calls_lift|]. intros h.
  apply store_calls_bind; [by apply store_calls_reads|]. intros sn. apply store_calls_ret.
Qed.

#[local] Hint Resolve store_calls_claim store_calls_renew store_calls_finalize store_calls_observe : op_db.

Lemma store_calls_heartbeat c request ctx : store_calls (Coord.coordinator_heartbeat c request ctx).
Proof. unfold Coord.coordinator_heartbeat. auto 10 with op_db. Qed.

Lemma store_calls_cycle c request ctx : store_calls (Coord.dispatch_cycle c request ctx).
Proof. unfold Coord.dispatch_cycle. auto 10 with op_db. Qed.

Lemma store_calls_renewal c claimed at_ ttl ctx :
  store_calls (Coord.coordinator_renew_claim c claimed at_ ttl ctx).
Proof. unfold Coord.coordinator_renew_claim. auto 10 with op_db. Qed.

Lemma store_calls_resolution c worker r at_ ctx : store_calls (Coord.finalize_resolution c worker r at_ ctx).
Proof. unfold Coord.finalize_resolution. auto 10 with op_db. Qed.
End coordinator.

(** ** The calls of a runner, and of those it shares the store with *)

(** The three ways to finish a claim. *)
Inductive Finishing :=
| FinishComplete (completed_at : SystemTime)
| FinishRetry (attempted_at next_available_at : SystemTime) (error : string)
| FinishDeadLetter (dead_lettered_at : SystemTime) (error : string).

Definition finishing_at (how : Finishing) : SystemTime :=
  match how with FinishComplete t | FinishRetry t _ _ | FinishDeadLetter t _ => t end.

Definition finishing_disposition (how : Finishing) : ReferenceClaimDisposition :=
  match how with
  | FinishComplete _ => Completed
  | FinishRetry _ _ _ => Retried
  | FinishDeadLetter _ _ => DeadLettered
  end.

Section runner.
Context {env : Env}.

Definition finish_claim (c : Coord.t) (how : Finishing) (claim : ReferenceActiveClaimRef.t)
    (ctx : ExecutionContext.t) : Op (Run.t State.t) AppError.t ReferenceClaimOutcome.t :=
  match how with
  | FinishComplete t => Run.complete c claim t ctx
  | FinishRetry t next error => Run.retry c claim t next error ctx
  | FinishDeadLetter t error => Run.dead_letter c claim t error ctx
  end.

Definition finishing_resolution (how : Finishing) (claimed : ClaimedDispatchWork.t)
    : AppResult DispatchResolution.t :=
  match how with
  | FinishComplete t => Ok (ClaimedDispatchWork.complete claimed t)
  | FinishRetry t next error => ClaimedDispatchWork.retry env_gen claimed t next error
  | FinishDeadLetter t error => ClaimedDispatchWork.dead_letter env_gen claimed t error
  end.

Definition finish_work (c : Coord.t) (how : Finishing) (ctx : ExecutionContext.t)
    (claimed : ClaimedDispatchWork.t) : Op (World.t State.t) AppError.t WorkerObservation.t :=
  let? r := op_lift (finishing_resolution how claimed) in
  Coord.finalize_resolution c (DispatchLease.leased_by (ClaimedDispatchWork.lease claimed)) r
    (finishing_at how) ctx.

Lemma finish_claim_eq c how claim ctx :
  finish_claim c how claim ctx = Run.finish (finish_work c how ctx) (finishing_disposition how) claim ctx.
Proof. by destruct how. Qed.

Lemma store_calls_finish_work c how ctx claimed : store_calls (finish_work c how ctx claimed).
Proof. apply store_calls_bind; [apply store_calls_lift|intros r; apply store_calls_resolution]. Qed.

(** A resolution is refused before the store sees it only for its own arguments. *)
Definition finishing_valid (how : Finishing) : Prop :=
  match how with
  | FinishComplete _ => True
  | FinishRetry t next error => (t ≤ next)%Z ∧ is_blank error = false
  | FinishDeadLetter _ error => is_blank error = false
  end.

Lemma finishing_resolution_ok how claimed :
  (finishing_valid how ∧ ∃ r, finishing_resolution how claimed = Ok r ∧ resolution_of claimed r) ∨
  (¬ finishing_valid how ∧ ∃ e, finishing_resolution how claimed = Err e).
Proof.
  destruct how as [t|t next error|t error]; simpl.
  - left. split; [done|]. eexists. split; [done|constructor].
  - destruct (ClaimedDispatchWork.retry env_gen claimed t next error) as [r|e] eqn:Hr.
    + left. split; [|exists r; split; [done|by econstructor]].
      destruct claimed; simpl in Hr; unfold ClaimedExecution.retry, ClaimedOutboxDelivery.retry in Hr;
        destruct (Z.ltb_spec next t); destruct (is_blank error); done.
    + right. split; [|by exists e]. intros [Hle Hb].
      destruct claimed; simpl in Hr; unfold ClaimedExecution.retry, ClaimedOutboxDelivery.retry in Hr;
        rewrite Hb, (proj2 (Z.ltb_ge _ _)) in Hr by lia; done.
  - destruct (ClaimedDispatchWork.dead_letter env_gen claimed t error) as [r|e] eqn:Hr.
    + left. split; [|exists r; split; [done|by econstructor]].
      destruct claimed; simpl in Hr; unfold ClaimedExecution.dead_letter, ClaimedOutboxDelivery.dead_letter in Hr;
        by destruct (is_blank error).
    + right. split; [|by exists e]. intros Hb.
      destruct claimed; simpl in Hr; unfold ClaimedExecution.dead_letter, ClaimedOutboxDelivery.dead_letter in Hr;
        by rewrite Hb in Hr.
Qed.
End runner.

Inductive RunnerCall :=
| RunHeartbeat (env : Env) (request : WorkerHeartbeatRequest.t) (ctx : ExecutionContext.t)
| RunClaim (env : Env) (request : WorkerDispatchCycleRequest.t) (ctx : ExecutionContext.t)
| RunRenew (env : Env) (claim : ReferenceActiveClaimRef.t) (renewed_at : SystemTime) (ttl : Duration)
    (ctx : ExecutionContext.t)
| RunFinish (env : Env) (how : Finishing) (claim : ReferenceActiveClaimRef.t) (ctx : ExecutionContext.t)
(** Anyone else who shares the store. *)
| RunOther (c : StoreCall).

Definition run_runner (c : Coord.t) (s : Run.t State.t) (call : RunnerCall) : Run.t State.t :=
  match call with
  | RunHeartbeat env request ctx => (Run.heartbeat (env:=env) c request ctx s).2
  | RunClaim env request ctx => (Run.claim (env:=env) c request ctx s).2
  | RunRenew env claim at_ ttl ctx => (Run.renew (env:=env) c claim at_ ttl ctx s).2
  | RunFinish env how claim ctx => (finish_claim (env:=env) c how claim ctx s).2
  | RunOther call =>
    Run.mk (Run.active_claims s)
      (World.mk (run_call (World.store (Run.world s)) call) (World.events (Run.world s)))
  end.

(** Others may do anything but overwrite records. *)
Definition runner_call_ok (call : RunnerCall) : Prop :=
  match call with RunOther call => no_update call | _ => True end.

Definition run_runners (c : Coord.t) : Run.t State.t → list RunnerCall → Run.t State.t := foldl (run_runner c).

Definition runner_new : Run.t State.t := Run.mk ∅ (World.mk State.default []).

Definition store_of (s : Run.t State.t) : State.t := World.store (Run.world s).

(** ** What a registered claim knows of the store *)

Record registered_ok (s : State.t) (l : LeaseId) (r : RegisteredClaim.t) : Prop := {
  reg_lease : work_lease_id (RegisteredClaim.claimed r) = l;
  reg_worker :
    is_blank (DispatchLease.leased_by (ClaimedDispatchWork.lease (RegisteredClaim.claimed r))) = false;
  (** While the lease is held at the claim's slot, the revision is the claim's. *)
  reg_view : lease_view (work_slot (RegisteredClaim.claimed r)) l
    (fun v => v = Some (work_revision (RegisteredClaim.claimed r))) s;
  (** The lease is held nowhere else. *)
  reg_only : ∀ b, b ≠ work_slot (RegisteredClaim.claimed r) → lease_view b l (fun _ => False) s;
}.

Definition runner_ok (s : Run.t State.t) : Prop :=
  store_wf (store_of s) ∧
  ∀ l r, Run.active_claims s !! l = Some r → registered_ok (store_of s) l r.

Lemma view_no_update a l Q cs s :
  Forall no_update cs → lease_view a l Q s → lease_view a l Q (run_calls s cs).
Proof.
  intros Hcs. apply view_calls. eapply Forall_impl; [exact Hcs|]. by intros [].
Qed.

Lemma registered_calls cs s l r :
  Forall no_update cs → registered_ok s l r → registered_ok (run_calls s cs) l r.
Proof.
  intros Hcs [Hl Hw Hv Ho]. split; [done|done|by apply view_no_update|].
  intros b Hb. by apply view_no_update, Ho.
Qed.

(** Freshly claimed work is registered soundly. *)
Lemma registered_claimed {env : Env} request ctx s claimed s' x :
  store_wf s → is_blank (DispatchClaimRequest.worker_id request) = false →
  MemDispatch.claim_due request ctx s = (Ok claimed, s') → x ∈ claimed →
  registered_ok s' (work_lease_id x) (RegisteredClaim.mk x).
Proof.
  intros Hwf Hb Hc Hx. pose proof (claimed_held _ _ _ _ _ _ Hwf Hc Hx) as [Hl Hv].
  destruct (memory_claim_batch request ctx s claimed s' Hc) as [_ Hfor].
  destruct (Hfor x Hx) as (_ & Hby & _).
  pose proof (wf_claim_due request ctx s Hwf) as Hwf'. rewrite Hc in Hwf'. simpl in Hwf'.
  assert (Hi : (State.next_lease_sequence s' ≤ u64_max)%N ∧ issued s' (work_lease_id x))
    by (split; [apply (wf_sequence s' Hwf')|by eapply wf_issued]).
  split; simpl; [done|by rewrite Hby|by split|].
  intros b Hne. split; [done|]. intros Hlt Hlb. apply Hne. by eapply (wf_unique s' Hwf' Hlt).
Qed.

(** ** The runner's methods keep it *)

Lemma on_world_eq {A} (m : Op (World.t State.t) AppError.t A) s :
  Run.on_world m s = ((m (Run.world s)).1, Run.mk (Run.active_claims s) (m (Run.world s)).2).
Proof. unfold Run.on_world. by destruct (m (Run.world s)). Qed.

(** Moving the store on by store calls. *)
Lemma runner_ok_world s w cs :
  runner_ok s → Forall no_update cs → World.store w = run_calls (store_of s) cs →
  runner_ok (Run.mk (Run.active_claims s) w).
Proof.
  intros [Hwf Hr] Hcs Hw. unfold runner_ok, store_of; simpl. rewrite Hw.
  split; [by apply wf_run_calls|]. intros l r Hl. by apply registered_calls, Hr.
Qed.

Lemma runner_ok_on_world {A} (m : Op (World.t State.t) AppError.t A) :
  store_calls m → preserves runner_ok (Run.on_world m).
Proof.
  intros Hm s Hs. rewrite on_world_eq. simpl. destruct (Hm (Run.world s)) as (cs & Hcs & Hst).
  by eapply runner_ok_world.
Qed.

Lemma lookup_claim_ok claim ctx s r s' :
  Run.lookup_claim (S:=State.t) claim ctx s = (Ok r, s') ↔
  s' = s ∧ Run.active_claims s !! ReferenceActiveClaimRef.lease_id claim = Some r ∧
  DispatchLease.leased_by (ClaimedDispatchWork.lease (RegisteredClaim.claimed r)) =
    ReferenceActiveClaimRef.worker_id claim.
Proof.
  unfold Run.lookup_claim, op_bind, op_get, op_lift, op_ret, ok_or.
  destruct (Run.active_claims s !! _) as [r'|]; [|naive_solver].
  destruct (String.eqb_spec (DispatchLease.leased_by
    (ClaimedDispatchWork.lease (RegisteredClaim.claimed r'))) (ReferenceActiveClaimRef.worker_id claim));
    simpl; naive_solver.
Qed.

Lemma lookup_claim_reads claim ctx : reads (Run.lookup_claim (S:=State.t) claim ctx).
Proof.
  intros s. unfold Run.lookup_claim, op_bind, op_get, op_lift, op_ret, ok_or. repeat case_match; simplify_eq/=; done.
Qed.

Lemma foldl_register xs (m : gmap LeaseId RegisteredClaim.t) l r :
  foldl Run.register m xs !! l = Some r →
  m !! l = Some r ∨ ∃ x, x ∈ xs ∧ l = work_lease_id x ∧ r = RegisteredClaim.mk x.
Proof.
  revert m. induction xs as [|x xs IH]; intros m; simpl; [by left|].
  intros [Hm|(y & Hy & -> & ->)]%IH; [|right; exists y; split; [by right|done]].
  unfold Run.register in Hm. apply lookup_insert_Some in Hm as [[<- <-]|[_ Hm]]; [|by left].
  right. exists x. split; [by left|done].
Qed.

Section keeps.
Context {env : Env}.

(** What a successful cycle did. *)
Lemma dispatch_cycle_ok c request ctx w cycle w' :
  Coord.dispatch_cycle c request ctx w = (Ok cycle, w') →
  is_blank (WorkerDispatchCycleRequest.worker_id request) = false ∧
  ∃ s1 cs, MemDispatch.claim_due (cycle_claim c request) ctx (World.store w) =
             (Ok (WorkerDispatchCycle.claimed cycle), s1) ∧
    Forall no_update cs ∧ World.store w' = run_calls s1 cs.
Proof.
  unfold Coord.dispatch_cycle. intros ([] & w1 & Hc & H1)%op_bind_ok. unfold op_lift in Hc. simplify_eq.
  apply op_bind_ok in H1 as ([] & w2 & Hr & H1). unfold op_lift in Hr. simplify_eq.
  apply op_bind_ok in H1 as (claimed & w3 & Hcl & H1).
  split; [by eapply request_valid|].
  unfold Coord.on_store in Hcl. change (DispatchClaimRequest.at_ _ _) with (cycle_claim c request) in Hcl.
  change (claim_due ?r ?x) with (MemDispatch.claim_due r x) in Hcl.
  destruct (MemDispatch.claim_due _ _ _) as [r s1] eqn:Hcd. simplify_eq.
  assert (Hrest : store_calls
    (let? o := Coord.observe_worker c (WorkerDispatchCycleRequest.worker_id request)
        (WorkerDispatchCycleRequest.observed_at request) ctx in
     Coord.record_event c (TelemetryEvent.with_attribute
       (Coord.event c "worker.dispatch_cycle" (WorkerDispatchCycleRequest.worker_id request))
       "claimed_count" (fmt_dec (len claimed))) ;;? op_ret (WorkerDispatchCycle.mk o claimed))).
  { apply store_calls_bind; [apply store_calls_observe|auto with op_db]. }
  destruct (Hrest (World.mk s1 (World.events w2))) as (cs & Hcs & Hst). rewrite H1 in Hst. simpl in Hst.
  apply op_bind_ok in H1 as (o & w4 & _ & H1). apply op_bind_ok in H1 as (u & w5 & _ & H1).
  unfold op_ret in H1. simplify_eq. by exists s1, cs.
Qed.

Lemma runner_ok_claim c request ctx : preserves runner_ok (Run.claim c request ctx).
Proof.
  intros s Hs. unfold Run.claim, op_bind. rewrite on_world_eq.
  destruct (Coord.dispatch_cycle c request ctx (Run.world s)) as [[cycle|e] w'] eqn:Hd; simpl.
  - destruct (dispatch_cycle_ok _ _ _ _ _ _ Hd) as (Hb & s1 & cs & Hcl & Hcs & Hst).
    destruct Hs as [Hwf Hr].
    pose proof (wf_claim_due (cycle_claim c request) ctx _ Hwf) as Hwf1.
    unfold store_of in Hwf1. rewrite Hcl in Hwf1. simpl in Hwf1.
    split; unfold store_of; simpl; rewrite Hst; [by apply wf_run_calls|].
    intros l r [Hl|(x & Hx & -> & ->)]%foldl_register.
    + apply registered_calls; [done|].
      pose proof (registered_calls [CallClaim env (cycle_claim c request) ctx] (World.store (Run.world s)) l r) as Hreg.
      simpl in Hreg. unfold store_of in Hr. rewrite Hcl in Hreg. apply Hreg; [by repeat constructor|by apply Hr].
    + apply registered_calls; [done|]. exact (registered_claimed (cycle_claim c request) ctx _ _ s1 x Hwf Hb Hcl Hx).
  - pose proof (store_calls_cycle c request ctx (Run.world s)) as (cs & Hcs & Hst).
    rewrite Hd in Hst. by eapply runner_ok_world.
Qed.

(** The work a renewal registers is the work it renewed. *)
Lemma rebuild_same claimed at_ ttl x :
  rebuild_claimed_with_lease env_gen claimed
    (DispatchLeaseRenewal.renewed_lease (Coord.renewal_for claimed at_ ttl)) = Ok x →
  work_slot x = work_slot claimed ∧ work_revision x = work_revision claimed ∧
  work_lease_id x = work_lease_id claimed ∧
  DispatchLease.leased_by (ClaimedDispatchWork.lease x) =
    DispatchLease.leased_by (ClaimedDispatchWork.lease claimed).
Proof.
  destruct claimed; simpl; unfold ClaimedExecution.replace_lease, ClaimedOutboxDelivery.replace_lease;
    case_match; simpl; [done| |done|]; by intros [= <-].
Qed.

Lemma renew_claim_lease c claimed at_ ttl ctx w renewal w' :
  Coord.coordinator_renew_claim c claimed at_ ttl ctx w = (Ok renewal, w') →
  WorkerStoredLeaseRenewal.lease renewal =
    DispatchLeaseRenewal.renewed_lease (Coord.renewal_for claimed at_ ttl).
Proof.
  unfold Coord.coordinator_renew_claim.
  intros (u1 & w1 & _ & H1)%op_bind_ok. apply op_bind_ok in H1 as (u2 & w2 & _ & H1).
  apply op_bind_ok in H1 as (lease & w3 & Hl & H1). apply op_bind_ok in H1 as (o & w4 & _ & H1).
  apply op_bind_ok in H1 as (u3 & w5 & _ & H1). unfold op_ret in H1. simplify_eq. simpl.
  unfold Coord.on_store in Hl. destruct (renew_claim _ _ _) as [r s'] eqn:Hr. simplify_eq.
  by apply law_renew_lease in Hr.
Qed.

Lemma runner_ok_renew c claim at_ ttl ctx : preserves runner_ok (Run.renew c claim at_ ttl ctx).
Proof.
  intros s Hs. unfold Run.renew, op_bind.
  destruct (Run.lookup_claim claim ctx s) as [[r|e] s0] eqn:Hlk.
  2: { pose proof (lookup_claim_reads claim ctx s) as Hrd. rewrite Hlk in Hrd. simpl in *. by subst. }
  apply lookup_claim_ok in Hlk as (-> & Hl & _). rewrite on_world_eq.
  destruct (store_calls_renewal c (RegisteredClaim.claimed r) at_ ttl ctx (Run.world s)) as (cs & Hcs & Hst).
  destruct (Coord.coordinator_renew_claim _ _ _ _ _ _) as [[renewal|e] w'] eqn:Hren; simpl in *;
    [|by eapply runner_ok_world].
  rewrite (renew_claim_lease _ _ _ _ _ _ _ _ Hren). unfold op_lift.
  pose proof (runner_ok_world s w' cs Hs Hcs Hst) as [Hwf' Hr'].
  destruct (rebuild_claimed_with_lease _ _ _) as [x|e] eqn:Hx; simpl; [|by eapply runner_ok_world].
  split; [done|]. unfold store_of; simpl. unfold store_of in Hr'; simpl in Hr'.
  apply rebuild_same in Hx as (Hs1 & Hs2 & Hs3 & Hs4).
  destruct (ReferenceWorkClaim.from_claimed_lease x) as (Hid & _). rewrite Hid.
  intros l r' [[<- <-]|[_ [_ Hl']%lookup_delete_Some]]%lookup_insert_Some; [|by apply Hr'].
  destruct (Hr' _ _ Hl) as [Hlid Hw Hv Ho].
  change (DispatchLease.lease_id (ClaimedDispatchWork.lease x)) with (work_lease_id x).
  rewrite Hs3, Hlid. split; simpl; [congruence|by rewrite Hs4|by rewrite Hs1, Hs2|by rewrite Hs1].
Qed.

Lemma runner_ok_finish c how claim ctx : preserves runner_ok (finish_claim c how claim ctx).
Proof.
  rewrite finish_claim_eq. intros s Hs. unfold Run.finish, op_bind.
  destruct (Run.lookup_claim claim ctx s) as [[r|e] s0] eqn:Hlk.
  2: { pose proof (lookup_claim_reads claim ctx s) as Hrd. rewrite Hlk in Hrd. simpl in *. by subst. }
  apply lookup_claim_ok in Hlk as (-> & Hl & _). rewrite on_world_eq.
  destruct (store_calls_finish_work c how ctx (RegisteredClaim.claimed r) (Run.world s)) as (cs & Hcs & Hst).
  pose proof (runner_ok_world s _ cs Hs Hcs Hst) as [Hwf' Hr'].
  destruct (finish_work _ _ _ _ _) as [[o|e] w']; simpl in *; [|by eapply runner_ok_world].
  split; [done|]. intros l r' Hl'. simpl in Hl'. apply lookup_delete_Some in Hl' as [_ Hl']. by apply Hr'.
Qed.
End keeps.

Lemma runner_ok_call c call s : runner_call_ok call → runner_ok s → runner_ok (run_runner c s call).
Proof.
  intros Hc Hs. destruct call as [env r ctx|env r ctx|env claim at_ ttl ctx|env how claim ctx|call].
  - by apply (runner_ok_on_world _ (store_calls_heartbeat c r ctx)).
  - by apply runner_ok_claim.
  - by apply runner_ok_renew.
  - by apply runner_ok_finish.
  - by apply (runner_ok_world s _ [call] Hs); [repeat constructor|].
Qed.

Lemma runner_ok_calls c calls s :
  Forall runner_call_ok calls → runner_ok s → runner_ok (run_runners c s calls).
Proof.
  intros Hcs. revert s. induction Hcs as [|call calls Hc Hcs IH]; intros s Hs; [done|].
  by apply IH, runner_ok_call.
Qed.

Lemma runner_ok_new : runner_ok runner_new.
Proof. split; [apply wf_default|]. intros l r. simpl. by rewrite lookup_empty. Qed.

(** ** What the runner guarantees *)

Section finish.
Context {env : Env}.

Lemma registered_held s l r :
  runner_ok s → Run.active_claims s !! l = Some r →
  (State.next_lease_sequence (store_of s) < u64_max)%N →
  lease_at (store_of s) (work_slot (RegisteredClaim.claimed r)) = Some l →
  work_held (store_of s) (RegisteredClaim.claimed r).
Proof.
  intros [_ Hr] Hl Hlt Hla. destruct (Hr l r Hl) as [Hid _ [_ Hv] _].
  split; [by rewrite Hid|by apply Hv].
Qed.

(** Finishing work: through to the store's answer. *)
Lemma finish_work_cases c how ctx claimed w :
  WorkerDispatchCoordinatorConfig.validate (Coord.config c) ctx = Ok tt →
  is_blank (DispatchLease.leased_by (ClaimedDispatchWork.lease claimed)) = false →
  finishing_valid how →
  (∃ r o w', resolution_of claimed r ∧ accepts (World.store w) r ∧ finish_work c how ctx claimed w = (Ok o, w')) ∨
  (∃ r e, resolution_of claimed r ∧ ¬ accepts (World.store w) r ∧ finish_work c how ctx claimed w = (Err e, w)).
Proof.
  intros Hc Hb Hv. destruct (finishing_resolution_ok how claimed) as [(_ & r & Hr & Hof)|[Hno _]]; [|done].
  unfold finish_work, op_bind, op_lift. rewrite Hr.
  pose proof (finalize_shape r ctx (World.store w)) as Hshape.
  destruct (finalize_resolution_cases c (DispatchLease.leased_by (ClaimedDispatchWork.lease claimed)) r
    (finishing_at how) ctx w Hc Hb) as [(e & Hf & Hres)|(s1 & o & new & Hf & Hres & _)];
    change (finalize r ctx (World.store w)) with (MemDispatch.finalize r ctx (World.store w)) in Hf;
    rewrite Hf in Hshape; [right; exists r, e|left; eexists r, o, _]; split_and!; try done; by inversion Hshape.
Qed.

(** C33: a runner can finish what it registered exactly as long as the store still
    holds it.  After any interleaving of the runner's own calls with those of
    producers, other workers and recovery, on either queue: completing, retrying
    or dead-lettering a registered claim (with valid arguments, by its worker)
    succeeds iff the work is still leased under the registered lease id; then
    exactly that registration is dropped.  Otherwise nothing changes: the claim
    stays registered. *)
Theorem runner_finishes_iff_held c calls how l r ctx :
  let s := run_runners c runner_new calls in
  let claimed := RegisteredClaim.claimed r in
  let worker := DispatchLease.leased_by (ClaimedDispatchWork.lease claimed) in
  Forall runner_call_ok calls →
  (State.next_lease_sequence (store_of s) < u64_max)%N →
  WorkerDispatchCoordinatorConfig.validate (Coord.config c) ctx = Ok tt →
  finishing_valid how →
  Run.active_claims s !! l = Some r →
  let '(result, s') := finish_claim c how (ReferenceActiveClaimRef.mk worker l) ctx s in
  (is_ok result = true ↔ lease_at (store_of s) (work_slot claimed) = Some l) ∧
  (is_ok result = true → Run.active_claims s' = delete l (Run.active_claims s)) ∧
  (is_ok result = false → s' = s).
Proof.
  intros s claimed worker Hcalls Hlt Hc Hv Hl.
  pose proof (runner_ok_calls c calls _ Hcalls runner_ok_new) as Hok. fold s in Hok.
  pose proof (proj2 Hok l r Hl) as [Hid Hb _ _]. fold claimed worker in Hb, Hid.
  rewrite finish_claim_eq. unfold Run.finish, op_bind.
  rewrite (proj2 (lookup_claim_ok (ReferenceActiveClaimRef.mk worker l) ctx s r s)) by done.
  rewrite on_world_eq. fold claimed.
  destruct (finish_work_cases c how ctx claimed (Run.world s) Hc Hb Hv)
    as [(res & o & w' & Hof & Hacc & ->)|(res & e & Hof & Hno & ->)]; simpl.
  - split_and!; [|done|done]. split; [intros _|done].
    destruct Hacc as [Hla _]. destruct (resolution_of_work _ _ Hof) as (Hs & Hi & _).
    by rewrite Hs, Hi, Hid in Hla.
  - split_and!; [|done|by destruct s]. split; [done|]. intros Hla. exfalso. apply Hno.
    eapply held_accepts; [|done]. by apply (registered_held s l).
Qed.

(** A success means the store accepted. *)
Lemma finish_work_ok c how ctx claimed w o w' :
  finish_work c how ctx claimed w = (Ok o, w') → lease_at (World.store w) (work_slot claimed) = Some (work_lease_id claimed).
Proof.
  unfold finish_work. intros (res & w1 & Hres & H1)%op_bind_ok. unfold op_lift in Hres. simplify_eq.
  unfold Coord.finalize_resolution in H1. apply op_bind_ok in H1 as (u & w2 & Hu & H1).
  unfold op_lift in Hu. simplify_eq. apply op_bind_ok in H1 as (u' & w3 & Hf & _).
  unfold Coord.on_store in Hf. change (finalize ?r ?x) with (MemDispatch.finalize r x) in Hf.
  pose proof (finalize_shape res ctx (World.store w2)) as Hshape.
  destruct (MemDispatch.finalize res ctx (World.store w2)) as [fr s1]. simplify_eq.
  destruct (finishing_resolution_ok how claimed) as [(_ & r' & Hr' & Hof)|(_ & e & He)]; [|congruence].
  assert (res = r') as -> by congruence. destruct (resolution_of_work _ _ Hof) as (Hs & Hi & _).
  rewrite <- Hs, <- Hi. inversion Hshape as [i e _ _ [Hacc _]|i e m st d dl err _ _ [Hacc _] _ _|]; exact Hacc.
Qed.

Lemma renew_work_ok c claimed at_ ttl ctx w renewal w' :
  Coord.coordinator_renew_claim c claimed at_ ttl ctx w = (Ok renewal, w') →
  lease_at (World.store w) (work_slot claimed) = Some (work_lease_id claimed).
Proof.
  unfold Coord.coordinator_renew_claim.
  intros (u1 & w1 & Hu & H1)%op_bind_ok. apply op_bind_ok in H1 as (u2 & w2 & Hu2 & H1).
  unfold op_lift in *. simplify_eq. apply op_bind_ok in H1 as (lease & w3 & Hl & _).
  unfold Coord.on_store in Hl. change (renew_claim ?r ?x) with (MemDispatch.renew_claim r x) in Hl.
  destruct (renew_shape (Coord.renewal_for claimed at_ ttl) ctx (World.store w2))
    as [([_ (ex & Hh & _)] & _)|(_ & e & He)]; [|rewrite He in Hl; by simplify_eq].
  destruct claimed as [x|x]; simpl in *; apply fmap_Some in Hh as (le & Hle & [= Hid _ _]);
    unfold work_lease_id; simpl; rewrite Hle; simpl; by rewrite Hid.
Qed.
End finish.

(** ** Lost claims *)

(** Every call reaches the store by store calls. *)
Lemma runner_store_calls c call s :
  runner_call_ok call →
  ∃ cs, Forall no_update cs ∧ store_of (run_runner c s call) = run_calls (store_of s) cs.
Proof.
  intros Hc. unfold store_of. destruct call as [env r ctx|env r ctx|env claim at_ ttl ctx|env how claim ctx|call]; simpl.
  - unfold Run.heartbeat. rewrite on_world_eq. apply store_calls_heartbeat.
  - destruct (store_calls_cycle c r ctx (Run.world s)) as (cs & Hcs & Hst). exists cs. split; [done|].
    unfold Run.claim, op_bind. rewrite on_world_eq. by destruct (Coord.dispatch_cycle _ _ _ _) as [[cy|e] w].
  - unfold Run.renew, op_bind. pose proof (lookup_claim_reads claim ctx s) as Hrd.
    destruct (Run.lookup_claim claim ctx s) as [[rc|e] s0]; simpl in Hrd; subst s0; [|by exists []].
    destruct (store_calls_renewal c (RegisteredClaim.claimed rc) at_ ttl ctx (Run.world s)) as (cs & Hcs & Hst).
    exists cs. split; [done|]. rewrite on_world_eq. unfold op_lift.
    destruct (Coord.coordinator_renew_claim _ _ _ _ _ _) as [[rn|e] w]; simpl in *; [|done].
    by destruct (rebuild_claimed_with_lease _ _ _).
  - rewrite finish_claim_eq. unfold Run.finish, op_bind. pose proof (lookup_claim_reads claim ctx s) as Hrd.
    destruct (Run.lookup_claim claim ctx s) as [[rc|e] s0]; simpl in Hrd; subst s0; [|by exists []].
    destruct (store_calls_finish_work c how ctx (RegisteredClaim.claimed rc) (Run.world s)) as (cs & Hcs & Hst).
    exists cs. split; [done|]. rewrite on_world_eq. by destruct (finish_work _ _ _ _ _) as [[o|e] w].
  - exists [call]. by split; [repeat constructor|].
Qed.

Lemma runners_store_calls c calls s :
  Forall runner_call_ok calls →
  ∃ cs, Forall no_update cs ∧ store_of (run_runners c s calls) = run_calls (store_of s) cs.
Proof.
  intros Hcs. revert s. induction Hcs as [|call calls Hc _ IH]; intros s; [by exists []|].
  destruct (runner_store_calls c call s Hc) as (cs1 & H1 & Hs1).
  destruct (IH (run_runner c s call)) as (cs2 & H2 & Hs2). exists (cs1 ++ cs2).
  split; [by apply Forall_app|]. simpl. by rewrite Hs2, Hs1, run_calls_app.
Qed.

(** The lease counter only grows. *)
Lemma sequence_grows s cs :
  store_wf s → (State.next_lease_sequence s ≤ State.next_lease_sequence (run_calls s cs))%N.
Proof.
  intros Hwf. destruct (decide (State.next_lease_sequence s = 0%N)) as [->|Hne]; [lia|].
  assert (Hv : lease_view (inl (Id.MkId "")) (Id.MkId (State.lease_name (State.next_lease_sequence s)))
    (fun _ => True) (run_calls s cs)).
  { apply view_calls; [apply Forall_forall; by intros|]. split; [|done].
    split; [apply (wf_sequence s Hwf)|]. exists (State.next_lease_sequence s). split; [lia|done]. }
  destruct Hv as [[_ (k & Hk & Heq%lease_id_inj)] _]. lia.
Qed.

Lemma foldl_register_other xs (m : gmap LeaseId RegisteredClaim.t) l :
  (∀ x, x ∈ xs → work_lease_id x ≠ l) → foldl Run.register m xs !! l = m !! l.
Proof.
  revert m. induction xs as [|x xs IH]; intros m Hxs; [done|]. simpl.
  rewrite IH by (intros y Hy; apply Hxs; by right). unfold Run.register.
  rewrite lookup_insert_ne; [done|]. apply (Hxs x). by left.
Qed.

(** [r] is registered and its lease is lost. *)
Definition lost_in (s : Run.t State.t) (l : LeaseId) (r : RegisteredClaim.t) : Prop :=
  Run.active_claims s !! l = Some r ∧
  lease_view (work_slot (RegisteredClaim.claimed r)) l (fun _ => False) (store_of s).

Lemma lost_in_nowhere s l r b :
  runner_ok s → lost_in s l r → lease_view b l (fun _ => False) (store_of s).
Proof.
  intros [_ Hr] [Hl Hv]. destruct (decide (b = work_slot (RegisteredClaim.claimed r))) as [->|Hb]; [done|].
  by apply (reg_only _ _ _ (Hr l r Hl)).
Qed.

Lemma claim_keeps_lost {env : Env} c request ctx s l r :
  runner_ok s → lost_in s l r →
  (State.next_lease_sequence (store_of (Run.claim c request ctx s).2) < u64_max)%N →
  Run.active_claims (Run.claim c request ctx s).2 !! l = Some r.
Proof.
  intros Hok Hlost. pose proof Hlost as [Hl _]. unfold Run.claim, op_bind. rewrite on_world_eq.
  destruct (Coord.dispatch_cycle c request ctx (Run.world s)) as [[cycle|e] w'] eqn:Hd; simpl; [|done].
  intros Hlt. rewrite foldl_register_other; [done|]. intros x Hx Hid.
  destruct (dispatch_cycle_ok _ _ _ _ _ _ Hd) as (_ & s1 & cs & Hcl & Hcs & Hst).
  destruct Hok as [Hwf Hr]. destruct (claimed_held _ _ _ _ _ _ Hwf Hcl Hx) as [Hheld _].
  pose proof (wf_claim_due (cycle_claim c request) ctx _ Hwf) as Hwf1. unfold store_of in Hwf1, Hlt.
  simpl in Hlt. rewrite Hcl in Hwf1. simpl in Hwf1. rewrite Hst in Hlt.
  pose proof (sequence_grows s1 cs Hwf1) as Hgrow.
  pose proof (view_claim (work_slot x) l (fun _ => False) (cycle_claim c request) ctx _
    (lost_in_nowhere s l r (work_slot x) (conj Hwf Hr) Hlost)) as [_ Hv].
  unfold store_of in Hv. rewrite Hcl in Hv. simpl in Hv. rewrite Hid in Hheld. apply Hv; [lia|done].
Qed.

Lemma lost_other s l lid r rc :
  Run.active_claims s !! l = Some r → Run.active_claims s !! lid = Some rc → work_lease_id (RegisteredClaim.claimed rc) = lid →
  lease_at (store_of s) (work_slot (RegisteredClaim.claimed rc)) = Some (work_lease_id (RegisteredClaim.claimed rc)) →
  lease_at (store_of s) (work_slot (RegisteredClaim.claimed r)) ≠ Some l → lid ≠ l.
Proof. intros Hl Hlid Hid Hheld Hno ->. rewrite Hl in Hlid. injection Hlid as <-. congruence. Qed.

Lemma call_keeps_lost c call s l r :
  runner_call_ok call → runner_ok s → lost_in s l r →
  (State.next_lease_sequence (store_of (run_runner c s call)) < u64_max)%N →
  Run.active_claims (run_runner c s call) !! l = Some r.
Proof.
  intros Hc Hok Hlost Hlt. pose proof Hlost as [Hl [_ Hv]].
  assert (Hno : lease_at (store_of s) (work_slot (RegisteredClaim.claimed r)) ≠ Some l).
  { destruct (runner_store_calls c call s Hc) as (cs & _ & Hst). rewrite Hst in Hlt.
    pose proof (sequence_grows (store_of s) cs (proj1 Hok)). intros Hheld. apply Hv; [lia|done]. }
  pose proof (reg_lease _ _ _ (proj2 Hok l r Hl)) as Hid.
  destruct call as [env q ctx|env q ctx|env claim at_ ttl ctx|env how claim ctx|call]; simpl in *; [| | | |done].
  - unfold Run.heartbeat. by rewrite on_world_eq.
  - by apply claim_keeps_lost.
  - unfold Run.renew, op_bind.
    destruct (Run.lookup_claim claim ctx s) as [[rc|e] s0] eqn:Hlk;
      [|pose proof (lookup_claim_reads claim ctx s) as Hrd; rewrite Hlk in Hrd; simpl in Hrd; by subst].
    apply lookup_claim_ok in Hlk as (-> & Hrc & _). rewrite on_world_eq. unfold op_lift.
    destruct (Coord.coordinator_renew_claim _ _ _ _ _ _) as [[rn|e] w] eqn:Hren; simpl; [|done].
    pose proof (renew_work_ok _ _ _ _ _ _ _ _ Hren) as Hheld. change (World.store (Run.world s)) with (store_of s) in Hheld.
    rewrite (renew_claim_lease _ _ _ _ _ _ _ _ Hren).
    destruct (rebuild_claimed_with_lease _ _ _) as [x|e] eqn:Hx; simpl; [|done].
    apply rebuild_same in Hx as (_ & _ & Hxid & _).
    pose proof (reg_lease _ _ _ (proj2 Hok _ _ Hrc)) as Hrcid.
    destruct (ReferenceWorkClaim.from_claimed_lease x) as (-> & _).
    change (DispatchLease.lease_id (ClaimedDispatchWork.lease x)) with (work_lease_id x).
    rewrite Hxid, Hrcid. assert (ReferenceActiveClaimRef.lease_id claim ≠ l) by (by eapply lost_other).
    by rewrite lookup_insert_ne, lookup_delete_ne.
  - rewrite finish_claim_eq. unfold Run.finish, op_bind.
    destruct (Run.lookup_claim claim ctx s) as [[rc|e] s0] eqn:Hlk;
      [|pose proof (lookup_claim_reads claim ctx s) as Hrd; rewrite Hlk in Hrd; simpl in Hrd; by subst].
    apply lookup_claim_ok in Hlk as (-> & Hrc & _). rewrite on_world_eq.
    destruct (finish_work _ _ _ _ _) as [[o|e] w] eqn:Hfin; simpl; [|done].
    pose proof (finish_work_ok _ _ _ _ _ _ _ Hfin) as Hheld. change (World.store (Run.world s)) with (store_of s) in Hheld.
    pose proof (reg_lease _ _ _ (proj2 Hok _ _ Hrc)) as Hrcid.
    assert (ReferenceActiveClaimRef.lease_id claim ≠ l) by (by eapply lost_other).
    by rewrite lookup_delete_ne.
Qed.

(** The claim a runner lost it never forgets.  When a registered claim's work
    is no longer held under its lease, then whatever the runner and the others do
    next, the claim stays in the runner's table: it cannot be finished, and
    nothing else removes it. *)
Theorem lost_claim_stays_registered c calls more l r :
  let s := run_runners c runner_new calls in
  let s' := run_runners c s more in
  Forall runner_call_ok calls → Forall runner_call_ok more →
  (State.next_lease_sequence (store_of s') < u64_max)%N →
  Run.active_claims s !! l = Some r →
  lease_at (store_of s) (work_slot (RegisteredClaim.claimed r)) ≠ Some l →
  Run.active_claims s' !! l = Some r.
Proof.
  intros s s' Hcalls Hmore Hlt Hl Hno.
  pose proof (runner_ok_calls c calls _ Hcalls runner_ok_new) as Hok. fold s in Hok.
  assert (Hlost : lost_in s l r).
  { split; [done|]. split; [apply (reg_view _ _ _ (proj2 Hok l r Hl))|by intros _ ?%Hno]. }
  clear Hl Hno. subst s'. revert Hok Hlost Hlt. generalize s. clear s Hcalls.
  induction Hmore as [|call more Hc Hmore IH]; intros s Hok Hlost Hlt; [apply Hlost|]. simpl in *.
  pose proof (runner_ok_call c call s Hc Hok) as Hok'. apply IH; [done| |done].
  split.
  - apply call_keeps_lost; [done|done|done|].
    destruct (runners_store_calls c more (run_runner c s call) Hmore) as (cs & _ & Hst).
    rewrite Hst in Hlt.
    pose proof (sequence_grows (store_of (run_runner c s call)) cs (proj1 Hok')). lia.
  - destruct (runner_store_calls c call s Hc) as (cs & Hcs & ->). by apply view_no_update, Hlost.
Qed.

(** ** At a concrete run

    A producer queues a record, the runner claims it at 5 for 10, and worker b
    takes it over at 20. *)

Definition demo_runner_calls : list RunnerCall :=
  [RunOther (CallAppend (demo_record "exec_1" 0) demo_ctx);
   RunClaim demo_env (WorkerDispatchCycleRequest.mk "worker_a" 1 10 5) demo_ctx].

Definition demo_takeover : list RunnerCall :=
  [RunOther (CallClaim demo_env (demo_request ExecutionQueue "worker_b" 20) demo_ctx)].

Definition demo_registered : RegisteredClaim.t :=
  RegisteredClaim.mk (ClaimedDispatchWork.Execution demo_claim).

Lemma runner_finishes_iff_held_witness :
  let s := run_runners demo_config runner_new demo_runner_calls in
  let '(result, s') := finish_claim (env:=demo_env) demo_config (FinishRetry 7 9 "timeout")
    (ReferenceActiveClaimRef.mk "worker_a" (Id.MkId "lease_exec_mem_1")) demo_ctx s in
  is_ok result = true ∧ Run.active_claims s' = delete (Id.MkId "lease_exec_mem_1") (Run.active_claims s).
Proof.
  intros s.
  pose proof (runner_finishes_iff_held (env:=demo_env) demo_config demo_runner_calls (FinishRetry 7 9 "timeout")
    (Id.MkId "lease_exec_mem_1") demo_registered demo_ctx) as H. cbv zeta in H. fold s in H.
  change (DispatchLease.leased_by (ClaimedDispatchWork.lease (RegisteredClaim.claimed demo_registered)))
    with "worker_a"%string in H.
  destruct (finish_claim _ _ _ _ s) as [result s'].
  destruct H as (H1 & H2 & _); [repeat constructor|vm_compute; reflexivity|reflexivity
    |split; [vm_compute; discriminate|reflexivity]|vm_compute; reflexivity|].
  assert (Hok : is_ok result = true) by (apply H1; vm_compute; reflexivity).
  split; [exact Hok|apply H2, Hok].
Defined.

Lemma lost_claim_stays_registered_witness :
  let s := run_runners demo_config runner_new (demo_runner_calls ++ demo_takeover) in
  let s' := run_runners demo_config s
    [RunFinish demo_env (FinishComplete 21) (ReferenceActiveClaimRef.mk "worker_a" (Id.MkId "lease_exec_mem_1")) demo_ctx;
     RunHeartbeat demo_env (WorkerHeartbeatRequest.mk "worker_a" 22) demo_ctx] in
  Run.active_claims s' !! (Id.MkId "lease_exec_mem_1" : LeaseId) = Some demo_registered.
Proof.
  apply lost_claim_stays_registered.
  - repeat constructor.
  - repeat constructor.
  - vm_compute. reflexivity.
  - vm_compute. reflexivity.
  - vm_compute. discriminate.
Defined.

(** ** Listing *)

Definition claim_key (x : ReferenceWorkClaim.t) : SystemTime * LeaseId :=
  (ReferenceWorkClaim.leased_at x, ReferenceWorkClaim.lease_id x).

Definition listed (worker : option string) (r : RegisteredClaim.t) : bool :=
  map_or_true (fun worker => String.eqb
    (DispatchLease.leased_by (ClaimedDispatchWork.lease (RegisteredClaim.claimed r))) worker) worker.

Definition summary_of (r : RegisteredClaim.t) : ReferenceWorkClaim.t :=
  ReferenceWorkClaim.from_claimed (RegisteredClaim.claimed r).

(** The listing of active claims is what the table holds: the registered claims
    of the worker asked for (or of all), each of them once, in the order
    (leased_at, lease id), and the same for every iteration order of the hash
    map.  Listing changes nothing. *)
Theorem active_claims_listing_spec c calls worker ctx :
  let s := run_runners c runner_new calls in
  Forall runner_call_ok calls →
  ∃ out, Run.list_active_claims_inner worker ctx s = (Ok out, s) ∧
    StronglySorted (key_le claim_key) out ∧
    NoDup (ReferenceWorkClaim.lease_id <$> out) ∧
    (∀ x, x ∈ out ↔ ∃ l r, Run.active_claims s !! l = Some r ∧ listed worker r = true ∧ x = summary_of r) ∧
    ∀ entries, entries ≡ₚ values (Run.active_claims s) →
      out = sort_by_key claim_key (summary_of <$> filter (fun r => listed worker r) entries).
Proof.
  intros s Hcalls. pose proof (runner_ok_calls c calls _ Hcalls runner_ok_new) as [_ Hr]. fold s in Hr.
  assert (Hkey : ∀ l r, Run.active_claims s !! l = Some r → ReferenceWorkClaim.lease_id (summary_of r) = l).
  { intros l r Hl. destruct (ReferenceWorkClaim.from_claimed_lease (RegisteredClaim.claimed r)) as (Hid & _).
    unfold summary_of. rewrite Hid. apply (Hr l r Hl). }
  assert (Hnd : NoDup (ReferenceWorkClaim.lease_id <$> (summary_of <$> values (Run.active_claims s)))).
  { rewrite <- list_fmap_compose. by apply (values_keyed_NoDup (Run.active_claims s) (fun r => ReferenceWorkClaim.lease_id (summary_of r))). }
  eexists. split; [reflexivity|]. split; [apply sort_by_key_sorted|]. split_and!.
  - rewrite sort_by_key_perm. eapply sublist_NoDup; [exact Hnd|]. apply fmap_sublist, fmap_sublist, sublist_filter.
  - intros x. rewrite elem_of_sort_by_key, list_elem_of_fmap. split.
    + intros (r & -> & [[l Hl]%elem_of_values Hw]%elem_of_due). by exists l, r.
    + intros (l & r & Hl & Hw & ->). exists r. split; [done|]. apply elem_of_due. split; [|done].
      apply elem_of_values. by exists l.
  - intros entries Hp. symmetry. apply sort_by_key_order_independent; [by rewrite Hp|].
    intros x y Hx Hy [= _ Hk].
    assert (Hin : ∀ z, z ∈ summary_of <$> filter (fun r => listed worker r) entries →
      z ∈ summary_of <$> values (Run.active_claims s)).
    { intros z (r & -> & [Hz _]%elem_of_due)%list_elem_of_fmap. apply list_elem_of_fmap_2. by rewrite <- Hp. }
    apply Hin in Hx, Hy. apply list_elem_of_lookup in Hx as [n Hn], Hy as [m Hm].
    assert (n = m) as ->; [|congruence].
    eapply (NoDup_lookup _ n m); [exact Hnd| |].
    + rewrite list_lookup_fmap, Hn. simpl. reflexivity.
    + rewrite list_lookup_fmap, Hm. simpl. by rewrite Hk.
Qed.

Lemma active_claims_listing_spec_witness :
  let s := run_runners demo_config runner_new demo_runner_calls in
  ∃ out, Run.list_active_claims_inner (Some "worker_a"%string) demo_ctx s = (Ok out, s) ∧
    NoDup (ReferenceWorkClaim.lease_id <$> out) ∧ len out = 1%N.
Proof.
  intros s.
  destruct (active_claims_listing_spec demo_config demo_runner_calls (Some "worker_a"%string) demo_ctx)
    as (out & Hout & _ & Hnd & _); [repeat constructor|].
  exists out. split; [exact Hout|]. split; [exact Hnd|].
  apply (f_equal fst) in Hout. vm_compute in Hout. by injection Hout as <-.
Defined.
