(* ===== verification/Inspector.v ===== *)
(** * The scheduler-state inspector ([bos-kernel/src/runner/inspector.rs])

    [ReferenceDispatchInspector] joins the runner's table of active claims with the
    workers' snapshots and one queue's inspection store.  Its two references are
    the arguments [c] (the runner's coordinator) and [kind] (which of the two
    inspection stores it was made for); the state is the runner's.

    Inspecting changes nothing, and the views agree with each other: the summary
    inside [inspect] is [summarize]'s, and the summaries derived from it are the
    ones the other methods return.  What the views do not do is compare leases: a
    claim whose work was taken over is shown with the other worker's lease. *)

From S2P Require Import Prelude RustStd Ids Errors Execution Outbox Transactional Inspection Workers Dispatch Stores Memory MemoryStore MemoryDispatch MemorySelect Scheduler RunnerTypes Runner RunnerProps.

Module ReferenceDispatchInspector.
Section stores.
Context {S : Type} `{DispatchWorkStore S} `{WorkerHeartbeatStore S} `{DispatchStatusStore S}.
Context `{ExecutionInspectionStore S} `{OutboxInspectionStore S}.
Context {env : Env}.
Context (c : WorkerDispatchCoordinator.t) (kind : DispatchQueue).

Abbreviation Query := ReferenceSchedulerStateQuery.t.
Abbreviation R := (ReferenceDispatchRunner.t S) (only parsing).
Abbreviation InspectorOp := (Op (ReferenceDispatchRunner.t S) AppError.t).

(** A call of the inspection store. *)
Definition on_inspection_store {A} (m : Op S AppError.t A) : InspectorOp A :=
  ReferenceDispatchRunner.on_world (WorkerDispatchCoordinator.on_store m).

(** [runner.config()]. *)
Definition config_queue : DispatchQueue :=
  WorkerDispatchCoordinatorConfig.queue (WorkerDispatchCoordinator.config c).
Definition config_scope : string :=
  WorkerDispatchCoordinatorConfig.scope (WorkerDispatchCoordinator.config c).

(** [with_limit] raises a limit of 0 to 1. *)
Definition worker_list_query (query : Query) (limit : N) : WorkerSnapshotListQuery.t :=
  WorkerSnapshotListQuery.mk (ReferenceSchedulerStateQuery.observed_at query) (N.max limit 1)
    (ReferenceSchedulerStateQuery.include_expired_workers query).

(* src: crates/bos-kernel/src/runner/inspector.rs:250-262 ReferenceDispatchInspector::list_workers *)
Definition list_workers (query : Query) (ctx : ExecutionContext.t)
    : InspectorOp (list ReferenceWorkerSnapshot.t) :=
  ReferenceDispatchRunner.list_worker_details c
    (worker_list_query query (ReferenceSchedulerStateQuery.worker_limit query)) ctx.

(* src: crates/bos-kernel/src/runner/inspector.rs:264-276 ReferenceDispatchInspector::list_workers_for_summary *)
Definition list_workers_for_summary (query : Query) (ctx : ExecutionContext.t)
    : InspectorOp (list ReferenceWorkerSnapshot.t) :=
  ReferenceDispatchRunner.list_worker_details c (worker_list_query query usize_max) ctx.

(* src: crates/bos-kernel/src/runner/inspector.rs:288-293 ReferenceDispatchInspector::list_claims_for_summary *)
Definition list_claims_for_summary (ctx : ExecutionContext.t) : InspectorOp (list ReferenceWorkClaim.t) :=
  ReferenceDispatchRunner.list_active_claims ctx.

(* src: crates/bos-kernel/src/runner/inspector.rs:278-286 ReferenceDispatchInspector::list_claims *)
Definition list_claims (query : Query) (ctx : ExecutionContext.t)
    : InspectorOp (list ReferenceWorkClaim.t) :=
  op_map (truncate (ReferenceSchedulerStateQuery.active_claim_limit query))
    (ReferenceDispatchRunner.list_active_claims ctx).

(** The queries of the two stores. *)
(* src: crates/bos-kernel/src/runner/inspector.rs:396-398 execution_query *)
Definition execution_query (query : Query) (limit : N) : ExecutionInspectionQuery.t :=
  ReferenceSchedulerStateQuery.execution_query query limit env_clock.
(* src: crates/bos-kernel/src/runner/inspector.rs:400-402 outbox_query *)
Definition outbox_query (query : Query) (limit : N) : OutboxInspectionQuery.t :=
  ReferenceSchedulerStateQuery.outbox_query query limit env_clock.

(* src: crates/bos-kernel/src/runner/inspector.rs:359-374 ReferenceDispatchInspector::summarize_backlog *)
Definition summarize_backlog (query : Query) (ctx : ExecutionContext.t)
    : InspectorOp ReferenceQueueInspectionSummary.t :=
  match kind with
  | ExecutionQueue =>
    op_map ReferenceQueueInspectionSummary.Execution
      (on_inspection_store (summarize_executions (execution_query query usize_max) ctx))
  | OutboxQueue =>
    op_map ReferenceQueueInspectionSummary.Outbox
      (on_inspection_store (summarize_outbox (outbox_query query usize_max) ctx))
  end.

(* src: crates/bos-kernel/src/runner/inspector.rs:376-393 ReferenceDispatchInspector::list_backlog *)
Definition list_backlog (query : Query) (ctx : ExecutionContext.t)
    : InspectorOp (list ReferenceQueueInspectionRecord.t) :=
  let limit := ReferenceSchedulerStateQuery.backlog_limit query in
  match kind with
  | ExecutionQueue =>
    op_map (fmap ReferenceQueueInspectionRecord.Execution)
      (on_inspection_store (list_execution_inspection (execution_query query limit) ctx))
  | OutboxQueue =>
    op_map (fmap ReferenceQueueInspectionRecord.Outbox)
      (on_inspection_store (list_outbox_messages (outbox_query query limit) ctx))
  end.

(** The summary of the scheduler from its parts. *)
Definition scheduler_summary (query : Query) (workers : list ReferenceWorkerSnapshot.t)
    (claims : list ReferenceWorkClaim.t) (backlog : ReferenceQueueInspectionSummary.t)
    : ReferenceSchedulerStateSummary.t :=
  ReferenceSchedulerStateSummary.new config_queue config_scope
    (ReferenceSchedulerStateQuery.observed_at query) workers claims backlog.

(* src: crates/bos-kernel/src/runner/inspector.rs:48-64 ReferenceDispatchInspector::summarize *)
Definition summarize (query : Query) (ctx : ExecutionContext.t)
    : InspectorOp ReferenceSchedulerStateSummary.t :=
  let? workers := list_workers_for_summary query ctx in
  let? active_claims := list_claims_for_summary ctx in
  let? backlog := summarize_backlog query ctx in
  op_ret (scheduler_summary query workers active_claims backlog).

(* src: crates/bos-kernel/src/runner/inspector.rs:66-92 ReferenceDispatchInspector::inspect *)
Definition inspect (query : Query) (ctx : ExecutionContext.t) : InspectorOp ReferenceSchedulerState.t :=
  let? summary_workers := list_workers_for_summary query ctx in
  let? summary_claims := list_claims_for_summary ctx in
  let? workers := list_workers query ctx in
  let? active_claims := list_claims query ctx in
  let? backlog_summary := summarize_backlog query ctx in
  let? backlog := list_backlog query ctx in
  op_ret (ReferenceSchedulerState.mk
    (scheduler_summary query summary_workers summary_claims backlog_summary)
    workers active_claims backlog).

(* src: crates/bos-kernel/src/runner/inspector.rs:94-101 ReferenceDispatchInspector::operator_summary *)
Definition operator_summary (query : Query) (ctx : ExecutionContext.t)
    : InspectorOp ReferenceOperatorSummary.t :=
  op_map ReferenceSchedulerState.operator_summary (inspect query ctx).

(* src: crates/bos-kernel/src/runner/inspector.rs:103-111 ReferenceDispatchInspector::queue_summary *)
Definition queue_summary (query : Query) (ctx : ExecutionContext.t) : InspectorOp ReferenceQueueSummary.t :=
  let? backlog := summarize_backlog query ctx in
  op_ret (backlog_operator_summary backlog config_queue (ReferenceSchedulerStateQuery.observed_at query)).

(* src: crates/bos-kernel/src/runner/inspector.rs:113-133 ReferenceDispatchInspector::worker_snapshot *)
Definition worker_snapshot (worker_id : string) (query : Query) (ctx : ExecutionContext.t)
    : InspectorOp (option ReferenceWorkerSnapshot.t) :=
  let? snapshot := ReferenceDispatchRunner.snapshot_worker c
      (WorkerSnapshotQuery.mk worker_id (ReferenceSchedulerStateQuery.observed_at query)) ctx in
  if negb (ReferenceSchedulerStateQuery.include_expired_workers query)
     && option_any worker_expired snapshot
  then op_ret None else op_ret snapshot.

(* src: crates/bos-kernel/src/runner/inspector.rs:135-144 ReferenceDispatchInspector::worker_summary *)
Definition worker_summary (worker_id : string) (query : Query) (ctx : ExecutionContext.t)
    : InspectorOp (option ReferenceWorkerSummary.t) :=
  op_map (fmap worker_operator_summary) (worker_snapshot worker_id query ctx).

(* src: crates/bos-kernel/src/runner/inspector.rs:146-156 ReferenceDispatchInspector::worker_summaries *)
Definition worker_summaries (query : Query) (ctx : ExecutionContext.t)
    : InspectorOp (list ReferenceWorkerSummary.t) :=
  op_map (fmap worker_operator_summary) (list_workers query ctx).

(** The snapshot of one claim's work, if the store still has it and the query
    selects it.  [ExecutionId::new] of a work id, which is an id's text, does not
    panic. *)
Definition claim_snapshot (query : Query) (ctx : ExecutionContext.t) (claim : ReferenceWorkClaim.t)
    : InspectorOp (option ReferenceActiveClaimSnapshot.t) :=
  let observed_at := ReferenceSchedulerStateQuery.observed_at query in
  match kind with
  | ExecutionQueue =>
    let i := match Id.new (ReferenceWorkClaim.work_id claim) with Some i => i | None => Id.new_unchecked "" end in
    let? found := on_inspection_store (lookup_execution_inspection i observed_at ctx) in
    op_ret (record ← found;
            if ExecutionInspectionQuery.matches_inspection (execution_query query usize_max) record
            then Some (ReferenceActiveClaimSnapshot.mk claim
                   (ReferenceQueueInspectionSnapshot.Execution
                      (ExecutionInspectionSnapshot.snapshot_at record observed_at)))
            else None)
  | OutboxQueue =>
    let i := match Id.new (ReferenceWorkClaim.work_id claim) with Some i => i | None => Id.new_unchecked "" end in
    let? found := on_inspection_store (lookup_outbox_message i observed_at ctx) in
    op_ret (record ← found;
            if OutboxInspectionQuery.matches_inspection (outbox_query query usize_max) record
            then Some (ReferenceActiveClaimSnapshot.mk claim
                   (ReferenceQueueInspectionSnapshot.Outbox
                      (OutboxInspectionSnapshot.snapshot_at record observed_at)))
            else None)
  end.

(** The loop over the claims: a missing or unselected record is skipped. *)
Fixpoint claim_snapshots (query : Query) (ctx : ExecutionContext.t) (claims : list ReferenceWorkClaim.t)
    : InspectorOp (list ReferenceActiveClaimSnapshot.t) :=
  match claims with
  | [] => op_ret []
  | claim :: claims =>
    let? snapshot := claim_snapshot query ctx claim in
    let? snapshots := claim_snapshots query ctx claims in
    op_ret (match snapshot with Some s => s :: snapshots | None => snapshots end)
  end.

(* src: crates/bos-kernel/src/runner/inspector.rs:295-357 ReferenceDispatchInspector::list_active_claim_snapshots *)
Definition list_active_claim_snapshots (query : Query) (ctx : ExecutionContext.t)
    : InspectorOp (list ReferenceActiveClaimSnapshot.t) :=
  let? claims := list_claims_for_summary ctx in
  claim_snapshots query ctx claims.

(* src: crates/bos-kernel/src/runner/inspector.rs:158-166 ReferenceDispatchInspector::active_claim_snapshots *)
Definition active_claim_snapshots (query : Query) (ctx : ExecutionContext.t)
    : InspectorOp (list ReferenceActiveClaimSnapshot.t) :=
  op_map (truncate (ReferenceSchedulerStateQuery.active_claim_limit query))
    (list_active_claim_snapshots query ctx).

(* src: crates/bos-kernel/src/runner/inspector.rs:168-179 ReferenceDispatchInspector::active_claim_summary *)
Definition active_claim_summary (query : Query) (ctx : ExecutionContext.t)
    : InspectorOp ReferenceActiveClaimSummary.t :=
  let? claims := list_active_claim_snapshots query ctx in
  op_ret (ReferenceActiveClaimSummary.new config_queue
            (ReferenceSchedulerStateQuery.observed_at query) claims).

(* src: crates/bos-kernel/src/runner/inspector.rs:181-192 ReferenceDispatchInspector::worker_active_claim_snapshots *)
Definition worker_active_claim_snapshots (worker_id : string) (query : Query) (ctx : ExecutionContext.t)
    : InspectorOp (list ReferenceActiveClaimSnapshot.t) :=
  let? claims := list_active_claim_snapshots query ctx in
  op_ret (truncate (ReferenceSchedulerStateQuery.active_claim_limit query)
            (filter (fun claim => string_eqb (ReferenceActiveClaimSnapshot.worker_id claim) worker_id) claims)).

(* src: crates/bos-kernel/src/runner/inspector.rs:194-235 ReferenceDispatchInspector::active_claim_snapshot *)
Definition active_claim_snapshot (claim : ReferenceActiveClaimRef.t) (observed_at : SystemTime)
    (ctx : ExecutionContext.t) : InspectorOp (option ReferenceActiveClaimSnapshot.t) :=
  fun s =>
    match ReferenceDispatchRunner.lookup_claim claim ctx s with
    | (Ok registered, s) =>
      let summary := ReferenceWorkClaim.from_claimed (RegisteredClaim.claimed registered) in
      match kind, RegisteredClaim.claimed registered with
      | ExecutionQueue, ClaimedDispatchWork.Execution claimed =>
        op_map (fmap (fun record => ReferenceActiveClaimSnapshot.mk summary
                        (ReferenceQueueInspectionSnapshot.Execution
                           (ExecutionInspectionSnapshot.snapshot_at record observed_at))))
          (on_inspection_store (lookup_execution_inspection
             (ExecutionRecord.id (ClaimedExecution.record claimed)) observed_at ctx)) s
      | OutboxQueue, ClaimedDispatchWork.Outbox claimed =>
        op_map (fmap (fun record => ReferenceActiveClaimSnapshot.mk summary
                        (ReferenceQueueInspectionSnapshot.Outbox
                           (OutboxInspectionSnapshot.snapshot_at record observed_at))))
          (on_inspection_store (lookup_outbox_message
             (OutboxMessage.id (ClaimedOutboxDelivery.message claimed)) observed_at ctx)) s
      | _, _ => (Ok None, s)
      end
    | (Err error, s) =>
      if string_eqb (AppError.code error) "reference_runner_claim_not_found" then (Ok None, s)
      else (Err error, s)
    end.

(* src: crates/bos-kernel/src/runner/inspector.rs:237-248 ReferenceDispatchInspector::backlog_snapshots *)
Definition backlog_snapshots (query : Query) (ctx : ExecutionContext.t)
    : InspectorOp (list ReferenceQueueInspectionSnapshot.t) :=
  let observed_at := ReferenceSchedulerStateQuery.observed_at query in
  op_map (fmap (fun record => ReferenceQueueInspectionRecord.snapshot_at record observed_at))
    (list_backlog query ctx).
End stores.
End ReferenceDispatchInspector.

(** * What the inspector reports *)

Import ReferenceDispatchInspector.

(** Every worker is visible or expired, and stale claims are among the active ones. *)
Definition counts_add_up (summary : ReferenceSchedulerStateSummary.t) : Prop :=
  (ReferenceSchedulerStateSummary.visible_workers summary +
   ReferenceSchedulerStateSummary.expired_workers summary = ReferenceSchedulerStateSummary.workers summary)%N ∧
  (ReferenceSchedulerStateSummary.stale_active_claims summary ≤
   ReferenceSchedulerStateSummary.active_claims summary)%N.

(** The store has the execution under the lease [l]. *)
Definition leased_under (s : State.t) (i : ExecutionId) (l : ExecutionLease.t) : Prop :=
  ∃ e, State.records s !! i = Some e ∧ StoredExecution.lease e = Some l.

(** ** Inspecting changes nothing *)

#[local] Set Default Proof Using "Type*".

#[global] Instance memory_inspection_laws : InspectionLaws State.t.
Proof. split; intros; by intros s. Qed.

Section lawful.
Context {S : Type} `{DispatchWorkStore S} `{WorkerHeartbeatStore S} `{DispatchStatusStore S}.
Context `{ExecutionInspectionStore S} `{OutboxInspectionStore S} `{!InspectionLaws S}.
Context {env : Env}.
Context (c : WorkerDispatchCoordinator.t) (kind : DispatchQueue).
Implicit Types (query : ReferenceSchedulerStateQuery.t) (ctx : ExecutionContext.t) (s : ReferenceDispatchRunner.t S).

Lemma on_store_reads {A} (m : Op S AppError.t A) : reads m → reads (on_inspection_store m).
Proof.
  intros Hm [active [store events]]. unfold on_inspection_store, ReferenceDispatchRunner.on_world,
    WorkerDispatchCoordinator.on_store. simpl. specialize (Hm store). destruct (m store). simpl in *. by subst.
Qed.

Lemma list_active_claims_reads w ctx : reads (ReferenceDispatchRunner.list_active_claims_inner (S:=S) w ctx).
Proof. by intros s. Qed.

Lemma on_world_reads {A} (m : Op (World.t S) AppError.t A) : reads m → reads (ReferenceDispatchRunner.on_world m).
Proof.
  intros Hm [active w]. unfold ReferenceDispatchRunner.on_world. simpl. specialize (Hm w).
  destruct (m w). simpl in *. by subst.
Qed.

Lemma world_store_reads {A} (m : Op S AppError.t A) : reads m → reads (WorkerDispatchCoordinator.on_store m).
Proof.
  intros Hm [store events]. unfold WorkerDispatchCoordinator.on_store. simpl. specialize (Hm store).
  destruct (m store). simpl in *. by subst.
Qed.

Lemma collect_details_reads snapshots ctx : reads (ReferenceDispatchRunner.collect_details (S:=S) snapshots ctx).
Proof.
  induction snapshots as [|snapshot snapshots IH]; simpl; [apply reads_ret|].
  apply reads_bind; [apply list_active_claims_reads|]. intros claims.
  apply reads_bind; [exact IH|]. intros details. apply reads_ret.
Qed.

Lemma list_worker_details_reads q ctx : reads (ReferenceDispatchRunner.list_worker_details (S:=S) c q ctx).
Proof.
  apply reads_bind; [|intros snapshots; apply collect_details_reads].
  apply on_world_reads, reads_bind; [apply reads_lift|]. intros _.
  apply world_store_reads, law_list_snapshots_reads.
Qed.

Lemma runner_snapshot_reads q ctx : reads (ReferenceDispatchRunner.snapshot_worker (S:=S) c q ctx).
Proof.
  apply reads_bind.
  - apply on_world_reads. apply reads_bind; [apply reads_lift|]. intros _. apply reads_bind; [apply reads_lift|].
    intros _. apply world_store_reads, law_lookup_snapshot_reads.
  - intros snapshot. apply reads_bind; [apply list_active_claims_reads|]. intros claims.
    repeat case_match; apply reads_ret.
Qed.

Lemma summarize_backlog_reads query ctx : reads (summarize_backlog (S:=S) kind query ctx).
Proof.
  unfold summarize_backlog. destruct kind; apply reads_map, on_store_reads;
    [apply law_summarize_executions_reads|apply law_summarize_outbox_reads].
Qed.

Lemma list_backlog_reads query ctx : reads (list_backlog (S:=S) kind query ctx).
Proof.
  unfold list_backlog. destruct kind; apply reads_map, on_store_reads;
    [apply law_list_inspection_reads|apply law_list_messages_reads].
Qed.

Lemma inspect_reads query ctx : reads (inspect c kind query ctx).
Proof.
  apply reads_bind; [apply list_worker_details_reads|intros workers].
  apply reads_bind; [apply list_active_claims_reads|intros claims].
  apply reads_bind; [apply list_worker_details_reads|intros listed_workers].
  apply reads_bind; [apply reads_map, list_active_claims_reads|intros listed_claims].
  apply reads_bind; [apply summarize_backlog_reads|intros summary].
  apply reads_bind; [apply list_backlog_reads|intros backlog]. apply reads_ret.
Qed.

Lemma claim_snapshot_reads query ctx claim : reads (claim_snapshot (S:=S) kind query ctx claim).
Proof.
  unfold claim_snapshot. destruct kind; (apply reads_bind; [apply on_store_reads|intros ?; apply reads_ret]);
    [apply law_lookup_inspection_reads|apply law_lookup_message_reads].
Qed.

Lemma active_claim_snapshots_reads query ctx : reads (list_active_claim_snapshots (S:=S) kind query ctx).
Proof.
  apply reads_bind; [apply list_active_claims_reads|]. intros claims.
  induction claims as [|claim claims IH]; simpl; [apply reads_ret|].
  apply reads_bind; [apply claim_snapshot_reads|]. intros snapshot.
  apply reads_bind; [exact IH|]. intros snapshots. apply reads_ret.
Qed.

Lemma worker_snapshot_reads w query ctx : reads (worker_snapshot (S:=S) c w query ctx).
Proof.
  apply reads_bind; [apply runner_snapshot_reads|]. intros snapshot. case_match; apply reads_ret.
Qed.

(** The five views of one scheduler state. *)
Lemma inspect_parts query ctx s state s' :
  inspect c kind query ctx s = (Ok state, s') →
  s' = s ∧ ∃ workers claims listed_workers summary backlog,
    list_workers_for_summary c query ctx s = (Ok workers, s) ∧
    list_claims_for_summary ctx s = (Ok claims, s) ∧
    list_workers c query ctx s = (Ok listed_workers, s) ∧
    summarize_backlog kind query ctx s = (Ok summary, s) ∧
    list_backlog kind query ctx s = (Ok backlog, s) ∧
    state = ReferenceSchedulerState.mk (scheduler_summary c query workers claims summary) listed_workers
      (truncate (ReferenceSchedulerStateQuery.active_claim_limit query) claims) backlog.
Proof.
  intros Hi. pose proof (inspect_reads query ctx s) as Hr. rewrite Hi in Hr. simpl in Hr. subst s'.
  split; [done|]. unfold inspect in Hi.
  apply reads_bind_ok in Hi as (workers & Hw & Hi); [|apply list_worker_details_reads].
  apply reads_bind_ok in Hi as (claims & Hc & Hi); [|apply list_active_claims_reads].
  apply reads_bind_ok in Hi as (listed_workers & Hlw & Hi); [|apply list_worker_details_reads].
  apply reads_bind_ok in Hi as (listed & Hl & Hi); [|apply reads_map, list_active_claims_reads].
  apply reads_bind_ok in Hi as (summary & Hs & Hi); [|apply summarize_backlog_reads].
  apply reads_bind_ok in Hi as (backlog & Hb & Hi); [|apply list_backlog_reads]. injection Hi as <-.
  exists workers, claims, listed_workers, summary, backlog.
  unfold list_claims in Hl. apply op_map_ok in Hl as (claims' & Hc' & ->).
  unfold list_claims_for_summary in Hc. rewrite Hc in Hc'. injection Hc' as <-. done.
Qed.

(** the inspector's views agree.  When [inspect] answers, for any store that
    keeps the laws, nothing has changed, and [summarize], [operator_summary] and
    [queue_summary] answer with exactly what its state holds; visible and expired
    workers add up to the workers, and the listed claims are the first of the
    claims counted, up to the limit. *)
Theorem inspect_agrees_with_summaries query ctx s state s' :
  inspect c kind query ctx s = (Ok state, s') →
  let summary := ReferenceSchedulerState.summary state in
  s' = s ∧
  summarize c kind query ctx s = (Ok summary, s) ∧
  operator_summary c kind query ctx s = (Ok (ReferenceSchedulerState.operator_summary state), s) ∧
  queue_summary c kind query ctx s = (Ok (ReferenceSchedulerStateSummary.queue_summary summary), s) ∧
  counts_add_up summary ∧
  len (ReferenceSchedulerState.active_claims state) =
    N.min (ReferenceSchedulerStateQuery.active_claim_limit query)
      (ReferenceSchedulerStateSummary.active_claims summary).
Proof.
  intros Hi. destruct (inspect_parts query ctx s state s' Hi)
    as (-> & workers & claims & listed & backlog_summary & backlog & Hw & Hc & Hlw & Hs & Hb & ->).
  split; [done|]. split; [|split; [|split]].
  - unfold summarize, op_bind. by rewrite Hw, Hc, Hs.
  - unfold operator_summary, op_map, op_bind. by rewrite Hi.
  - unfold queue_summary, op_bind. by rewrite Hs.
  - split; [split; [apply count_if_split|apply count_if_le]|apply length_truncate].
Qed.
End lawful.

(** ** Whose lease is shown *)

Section memory.
Context {env : Env}.

(** A claim is shown with whatever lease its work has now.  While the work of a
    registered execution claim is leased, to anyone, the inspector shows the claim
    as holding an active lease: it never compares the lease ids.  A worker whose
    work was taken over is still shown, and counted, as actively leasing it. *)
Theorem taken_over_claim_shown_active (s : ReferenceDispatchRunner.t State.t) claim claimed l observed_at ctx :
  ReferenceDispatchRunner.active_claims s !! ReferenceActiveClaimRef.lease_id claim =
    Some (RegisteredClaim.mk (ClaimedDispatchWork.Execution claimed)) →
  ExecutionLease.leased_by (ClaimedExecution.lease claimed) = ReferenceActiveClaimRef.worker_id claim →
  leased_under (World.store (ReferenceDispatchRunner.world s))
    (ExecutionRecord.id (ClaimedExecution.record claimed)) l →
  ExecutionLease.is_expired_at l observed_at = false →
  ∃ snapshot, active_claim_snapshot ExecutionQueue claim observed_at ctx s = (Ok (Some snapshot), s) ∧
    ReferenceActiveClaimSnapshot.worker_id snapshot = ReferenceActiveClaimRef.worker_id claim ∧
    ReferenceActiveClaimSnapshot.active_lease snapshot = true ∧
    ReferenceQueueInspectionSnapshot.leased_by (ReferenceActiveClaimSnapshot.snapshot snapshot) =
      Some (ExecutionLease.leased_by l).
Proof.
  intros Hreg Hworker (e & He & Hl) Hexp. unfold active_claim_snapshot, ReferenceDispatchRunner.lookup_claim, op_bind,
    op_get, op_lift. rewrite Hreg. simpl. rewrite Hworker, String.eqb_refl. simpl.
  unfold op_map, op_bind, on_inspection_store, ReferenceDispatchRunner.on_world,
    WorkerDispatchCoordinator.on_store. simpl. rewrite He. simpl. destruct s as [active [store events]].
  eexists. split; [reflexivity|]. simpl. split; [done|].
  unfold ReferenceActiveClaimSnapshot.active_lease, StoredExecution.inspection_record. simpl.
  unfold ExecutionInspectionRecord.has_active_lease_at. simpl. rewrite Hl. simpl. by rewrite Hexp.
Qed.
End memory.

(** ** Witnesses *)

#[local] Existing Instance demo_env.

(** Worker a's claim, after worker b took the work over at 20. *)
Definition demo_lost : ReferenceDispatchRunner.t State.t :=
  run_runners demo_config runner_new (demo_runner_calls ++ demo_takeover).

Definition demo_ref : ReferenceActiveClaimRef.t :=
  ReferenceActiveClaimRef.mk "worker_a" (Id.MkId "lease_exec_mem_1").

Lemma taken_over_claim_shown_active_witness :
  ∃ snapshot, active_claim_snapshot ExecutionQueue demo_ref 21 demo_ctx demo_lost = (Ok (Some snapshot), demo_lost) ∧
    ReferenceActiveClaimSnapshot.worker_id snapshot = "worker_a"%string ∧
    ReferenceActiveClaimSnapshot.active_lease snapshot = true ∧
    ReferenceQueueInspectionSnapshot.leased_by (ReferenceActiveClaimSnapshot.snapshot snapshot) =
      Some "worker_b"%string.
Proof.
  apply (taken_over_claim_shown_active demo_lost demo_ref demo_claim
    (ClaimedExecution.lease demo_reclaim) 21 demo_ctx); [vm_compute; reflexivity..| |vm_compute; reflexivity].
  exists (StoredExecution.mk (ClaimedExecution.record demo_reclaim) (Some (ClaimedExecution.lease demo_reclaim))).
  split; vm_compute; reflexivity.
Defined.

Lemma inspect_agrees_with_summaries_witness :
  ∃ state, inspect demo_config ExecutionQueue (ReferenceSchedulerStateQuery.new 21) demo_ctx demo_lost
      = (Ok state, demo_lost) ∧
    summarize demo_config ExecutionQueue (ReferenceSchedulerStateQuery.new 21) demo_ctx demo_lost
      = (Ok (ReferenceSchedulerState.summary state), demo_lost) ∧
    ReferenceSchedulerStateSummary.stale_active_claims (ReferenceSchedulerState.summary state) = 1%N.
Proof.
  destruct (inspect demo_config ExecutionQueue (ReferenceSchedulerStateQuery.new 21) demo_ctx demo_lost)
    as [[state|e] s'] eqn:Hi; [|exfalso; revert Hi; vm_compute; discriminate].
  destruct (inspect_agrees_with_summaries demo_config ExecutionQueue
    (ReferenceSchedulerStateQuery.new 21) demo_ctx demo_lost state s' Hi) as (-> & Hs & _).
  exists state. split; [reflexivity|]. split; [exact Hs|]. revert Hi. vm_compute. by intros [= <-].
Defined.
