(* ===== verification/StoreCore.v ===== *)
(** * The receipt spine ([bos-app/src/store_core.rs])

    [mutate] is the one path by which slices write: in one transaction it checks
    the idempotency key, checks the revision, runs the slice's own writes, bumps
    the revision and inserts a receipt; a failed write is rolled back and leaves
    a failure receipt.

    The tables are those of [persistence/migrations/0001_receipt_spine.sql]: the
    receipts in insertion order, with their primary key and their partial unique
    index, and the revisions by entity.  [D] is the slices' own tables.  A
    statement of the source is a function of the tables, a transaction a sequence of
    them: SQLite lets one write at a time, so it is atomic, and one that is dropped
    without a commit leaves the tables as they were when it began.  Callers come from a
    pool of eight connections, so what a caller reads before its transaction may have
    changed when the transaction begins.  Failures of the database file itself (busy,
    full, corrupt) are not modelled.

    Two values come from libraries: [constraint_failed], the text of SQLite's
    error for a violated uniqueness constraint, and [json_text], the text
    [serde_json] gives an object.  SQLite integers are 64-bit and signed: the
    casts [as i64] and [as u64] are written out. *)

From S2P Require Import Prelude RustStd.

(* src: crates/bos-contracts/src/receipt.rs:31-38 ActorKindDto *)
Inductive ActorKindDto := Operator | System | Agent.
(* src: crates/bos-contracts/src/receipt.rs:40-48 ReceiptOutcomeDto *)
Inductive ReceiptOutcomeDto := Applied | ReplayedIdempotent | RevisionConflict | Failed.

(** What the columns [actor_kind] and [outcome] hold. *)
(* src: crates/bos-app/src/store_core.rs:737-743 actor_kind_str *)
Definition actor_kind_str (kind : ActorKindDto) : string :=
  match kind with Operator => "operator" | System => "system" | Agent => "agent" end.

(* src: crates/bos-app/src/store_core.rs:745-751 actor_kind_from_str *)
Definition actor_kind_from_str (raw : string) : ActorKindDto :=
  if string_eqb raw "operator" then Operator else if string_eqb raw "agent" then Agent else System.

(* src: crates/bos-app/src/store_core.rs:753-760 outcome_str *)
Definition outcome_str (outcome : ReceiptOutcomeDto) : string :=
  match outcome with
  | Applied => "applied"
  | ReplayedIdempotent => "replayed_idempotent"
  | RevisionConflict => "revision_conflict"
  | Failed => "failed"
  end.

(* src: crates/bos-app/src/store_core.rs:762-769 outcome_from_str *)
Definition outcome_from_str (raw : string) : ReceiptOutcomeDto :=
  if string_eqb raw "applied" then Applied
  else if string_eqb raw "replayed_idempotent" then ReplayedIdempotent
  else if string_eqb raw "revision_conflict" then RevisionConflict
  else Failed.

Module StoreError.
(* src: crates/bos-app/src/store_core.rs:48-52 StoreError *)
Inductive t := Sqlite (msg : string) | Domain (msg : string).

(* src: crates/bos-app/src/store_core.rs:57-64 StoreError::fmt *)
Definition fmt (e : t) : string :=
  match e with
  | Sqlite msg => "store sqlite error: " +:+ msg
  | Domain msg => "store domain error: " +:+ msg
  end.
End StoreError.

(* src: crates/bos-app/src/store_core.rs:730-735 error_class *)
Definition error_class (err : StoreError.t) : string :=
  match err with StoreError.Sqlite _ => "sqlite" | StoreError.Domain _ => "domain" end.

(** [str::to_ascii_lowercase]. *)
Definition ascii_lower (a : ascii) : ascii :=
  let b := byte_of a in
  if ((65 <=? b) && (b <=? 90))%N then ascii_of_N (b + 32) else a.
Definition to_ascii_lowercase (s : string) : string :=
  String.string_of_list_ascii (ascii_lower <$> String.list_ascii_of_string s).

(* src: crates/bos-app/src/store_core.rs:81-88 sqlite_busy_message *)
Definition sqlite_busy_message (message : string) : bool :=
  let lower := to_ascii_lowercase message in
  contains lower "database is locked" || contains lower "database is busy"
  || contains lower "sqlite_busy" || contains lower "sqlite_locked"
  || contains lower "database schema is locked".

(* src: crates/bos-app/src/store_core.rs:73-78 StoreError::is_sqlite_busy *)
Definition is_sqlite_busy (e : StoreError.t) : bool :=
  match e with StoreError.Sqlite message => sqlite_busy_message message | StoreError.Domain _ => false end.

Module Receipt.
(* src: crates/bos-app/src/persistence/migrations/0001_receipt_spine.sql:13-31 receipts *)
Record t := mk {
  receipt_id : string;
  client_id : string;
  entity_kind : string;
  entity_id : string;
  change_kind : string;
  actor_id : string;
  actor_kind : string;
  outcome : string;
  error_class : option string;
  before_json : option string;
  after_json : option string;
  revision_before : option Z;
  revision_after : option Z;
  idempotency_key : string;
  correlation_id : option string;
  causation_id : option string;
  created_at_ms : Z;
}.

Definition is_applied (r : t) : bool := string_eqb (outcome r) "applied".

(** [SET before_json = NULL, after_json = NULL]. *)
Definition strip (r : t) : t :=
  mk (receipt_id r) (client_id r) (entity_kind r) (entity_id r) (change_kind r) (actor_id r)
    (actor_kind r) (outcome r) (error_class r) None None (revision_before r) (revision_after r)
    (idempotency_key r) (correlation_id r) (causation_id r) (created_at_ms r).

(** The receipt a caller reads back. *)
(* src: crates/bos-contracts/src/receipt.rs:3-29 ReceiptDto *)
Record dto := mk_dto {
  dto_receipt_id : string;
  dto_client_id : string;
  dto_entity_kind : string;
  dto_entity_id : string;
  dto_change_kind : string;
  dto_actor_id : string;
  dto_actor_kind : ActorKindDto;
  dto_outcome : ReceiptOutcomeDto;
  dto_error_class : option string;
  dto_revision_before : option N;
  dto_revision_after : option N;
  dto_idempotency_key : string;
  dto_correlation_id : option string;
  dto_causation_id : option string;
  dto_created_at_ms : N;
}.

(* src: crates/bos-app/src/store_core.rs:523-541 receipt_from_row *)
Definition receipt_from_row (r : t) : dto := {|
  dto_receipt_id := receipt_id r;
  dto_client_id := client_id r;
  dto_entity_kind := entity_kind r;
  dto_entity_id := entity_id r;
  dto_change_kind := change_kind r;
  dto_actor_id := actor_id r;
  dto_actor_kind := actor_kind_from_str (actor_kind r);
  dto_outcome := outcome_from_str (outcome r);
  dto_error_class := error_class r;
  dto_revision_before := i64_as_u64 <$> revision_before r;
  dto_revision_after := i64_as_u64 <$> revision_after r;
  dto_idempotency_key := idempotency_key r;
  dto_correlation_id := correlation_id r;
  dto_causation_id := causation_id r;
  dto_created_at_ms := i64_as_u64 (created_at_ms r);
|}.
End Receipt.

Module MutationRequest.
(* src: crates/bos-app/src/store_core.rs:14-30 MutationRequest *)
Record t := mk {
  client_id : string;
  entity_kind : string;
  entity_id : string;
  change_kind : string;
  actor_id : string;
  actor_kind : ActorKindDto;
  expected_revision : option N;
  idempotency_key : string;
  correlation_id : option string;
  causation_id : option string;
  before_json : option string;
  after_json : option string;
  now_ms : N;
}.
End MutationRequest.

Module MutationOutcome.
(* src: crates/bos-app/src/store_core.rs:32-46 MutationOutcome *)
Inductive t :=
| Applied (receipt_id : string) (revision : N)
| ReplayedIdempotent (receipt_id : string) (revision : option N)
| RevisionConflict (receipt_id : string) (current_revision : option N).
End MutationOutcome.

(** The tables.  [entity_revisions] has the primary key (client, kind, id) and
    holds the revision and the time of its last change. *)
Module Db.
(* src: crates/bos-app/src/persistence/migrations/0001_receipt_spine.sql:4-11 entity_revisions *)
Record t (D : Type) := mk {
  receipts : list Receipt.t;
  revisions : gmap (string * string * string) (Z * Z);
  domain : D;
}.
Arguments mk {D} _ _ _.
Arguments receipts {D} _.
Arguments revisions {D} _.
Arguments domain {D} _.

Definition set_receipts {D} (db : t D) (rs : list Receipt.t) : t D := mk rs (revisions db) (domain db).
Definition set_revisions {D} (db : t D) (rv : gmap (string * string * string) (Z * Z)) : t D :=
  mk (receipts db) rv (domain db).
Definition set_domain {D} (db : t D) (d : D) : t D := mk (receipts db) (revisions db) d.
End Db.

(** [LIMIT ?]: a negative limit is no limit. *)
Definition sql_limit {A} (limit : Z) (rows : list A) : list A :=
  if (limit <? 0)%Z then rows else truncate (Z.to_N limit) rows.

(** [ORDER BY created_at_ms DESC, receipt_id DESC]. *)
Definition newest_first (r : Receipt.t) : Reverse Z * Reverse string :=
  (MkReverse (Receipt.created_at_ms r), MkReverse (Receipt.receipt_id r)).

(** The values in the JSON objects the spine and the slices write, before
    [to_string]. *)
Inductive JsonValue := JString (s : string) | JNumber (n : N) | JBool (b : bool) | JStrings (l : list string) | JNull.

Module Spine.
Section spine.
Context {D : Type}.
Context (constraint_failed : string) (json_text : list (string * JsonValue) → string).

Abbreviation DbOp := (Op (Db.t D) StoreError.t).

(** A transaction: dropped without a commit on an error. *)
Definition transaction {A} (m : DbOp A) : DbOp A :=
  fun db => match m db with (Ok a, db') => (Ok a, db') | (Err e, _) => (Err e, db) end.

(* src: crates/bos-app/src/store_core.rs:725-728 next_receipt_id *)
Definition next_receipt_id : DbOp string :=
  fun db => (Ok ("rcpt_" +:+ fmt_dec_pad12 (len (Db.receipts db) + 1)), db).

(** The row violates the primary key, or the unique index on applied receipts. *)
Definition receipt_conflicts (row existing : Receipt.t) : bool :=
  string_eqb (Receipt.receipt_id existing) (Receipt.receipt_id row)
  || (Receipt.is_applied row && Receipt.is_applied existing
      && string_eqb (Receipt.client_id existing) (Receipt.client_id row)
      && string_eqb (Receipt.idempotency_key existing) (Receipt.idempotency_key row)).

(** [INSERT INTO receipts]. *)
Definition insert_receipt_row (row : Receipt.t) : DbOp unit :=
  fun db =>
    if existsb (receipt_conflicts row) (Db.receipts db)
    then (Err (StoreError.Sqlite constraint_failed), db)
    else (Ok tt, Db.set_receipts db (Db.receipts db ++ [row])).

(** The row [insert_receipt] builds. *)
Definition receipt_row (request : MutationRequest.t) (outcome : ReceiptOutcomeDto)
    (error_class : option string) (revision_before revision_after : option N) (receipt_id : string)
    : Receipt.t := {|
  Receipt.receipt_id := receipt_id;
  Receipt.client_id := MutationRequest.client_id request;
  Receipt.entity_kind := MutationRequest.entity_kind request;
  Receipt.entity_id := MutationRequest.entity_id request;
  Receipt.change_kind := MutationRequest.change_kind request;
  Receipt.actor_id := MutationRequest.actor_id request;
  Receipt.actor_kind := actor_kind_str (MutationRequest.actor_kind request);
  Receipt.outcome := outcome_str outcome;
  Receipt.error_class := error_class;
  Receipt.before_json := MutationRequest.before_json request;
  Receipt.after_json := MutationRequest.after_json request;
  Receipt.revision_before := u64_as_i64 <$> revision_before;
  Receipt.revision_after := u64_as_i64 <$> revision_after;
  Receipt.idempotency_key := MutationRequest.idempotency_key request;
  Receipt.correlation_id := MutationRequest.correlation_id request;
  Receipt.causation_id := MutationRequest.causation_id request;
  Receipt.created_at_ms := u64_as_i64 (MutationRequest.now_ms request);
|}.

(* src: crates/bos-app/src/store_core.rs:687-723 insert_receipt *)
Definition insert_receipt (request : MutationRequest.t) (outcome : ReceiptOutcomeDto)
    (error_class : option string) (revision_before revision_after : option N) : DbOp string :=
  let? receipt_id := next_receipt_id in
  insert_receipt_row (receipt_row request outcome error_class revision_before revision_after receipt_id) ;;?
  op_ret receipt_id.

(** The row the idempotency query asks for. *)
(* src: crates/bos-app/src/store_core.rs:549-552 find_applied_receipt (query) *)
Definition applied_with_key (client_id idempotency_key : string) (r : Receipt.t) : bool :=
  string_eqb (Receipt.client_id r) client_id
  && string_eqb (Receipt.idempotency_key r) idempotency_key && Receipt.is_applied r.

(* src: crates/bos-app/src/store_core.rs:543-562 find_applied_receipt *)
Definition find_applied_receipt (client_id idempotency_key : string)
    : DbOp (option (string * option N)) :=
  fun db =>
    (Ok ((fun r => (Receipt.receipt_id r, i64_as_u64 <$> Receipt.revision_after r)) <$>
           List.find (applied_with_key client_id idempotency_key) (Db.receipts db)), db).

(* src: crates/bos-app/src/store_core.rs:585-600 read_revision *)
Definition read_revision (client_id entity_kind entity_id : string) : DbOp (option N) :=
  fun db =>
    (Ok ((fun row => i64_as_u64 row.1) <$> Db.revisions db !! (client_id, entity_kind, entity_id)), db).

(* src: crates/bos-app/src/store_core.rs:622-638 write_revision *)
Definition write_revision (client_id entity_kind entity_id : string) (revision now_ms : N) : DbOp unit :=
  fun db => (Ok tt, Db.set_revisions db
    (<[(client_id, entity_kind, entity_id) := (u64_as_i64 revision, u64_as_i64 now_ms)]> (Db.revisions db))).

(** The transaction of the inner [mutate] up to its commit.  When the slice's write fails,
    its error and the revision read before it come out for the failure receipt. *)
(* src: crates/bos-app/src/store_core.rs:354-425 mutate_with_receipt_id_inner (transaction) *)
Definition mutate_transaction (request : MutationRequest.t) (domain_write : string → DbOp unit)
    : DbOp (MutationOutcome.t + StoreError.t * option N) :=
  let client_id := MutationRequest.client_id request in
  let entity_kind := MutationRequest.entity_kind request in
  let entity_id := MutationRequest.entity_id request in
  let? found := find_applied_receipt client_id (MutationRequest.idempotency_key request) in
  match found with
  | Some (_, revision) =>
    let? replay_receipt_id := insert_receipt request ReplayedIdempotent None revision revision in
    op_ret (inl (MutationOutcome.ReplayedIdempotent replay_receipt_id revision))
  | None =>
    let? current_revision := read_revision client_id entity_kind entity_id in
    if option_any (fun expected => negb (bool_decide (current_revision = Some expected)))
         (MutationRequest.expected_revision request)
    then
      let? receipt_id := insert_receipt request RevisionConflict (Some "revision_conflict"%string)
          current_revision current_revision in
      op_ret (inl (MutationOutcome.RevisionConflict receipt_id current_revision))
    else
      let? applied_receipt_id := next_receipt_id in
      fun db =>
        match domain_write applied_receipt_id db with
        | (Ok _, db1) =>
          (let next_revision := wrapping_add_u64 (default 0%N current_revision) 1 in
           write_revision client_id entity_kind entity_id next_revision (MutationRequest.now_ms request) ;;?
           let? receipt_id := insert_receipt request Applied None current_revision (Some next_revision) in
           op_ret (inl (MutationOutcome.Applied receipt_id next_revision))) db1
        | (Err err, db1) => (Ok (inr (err, current_revision)), db1)
        end
  end.

(* src: crates/bos-app/src/store_core.rs:346-440 mutate_with_receipt_id_inner *)
Definition mutate_with_receipt_id_inner (request : MutationRequest.t) (domain_write : string → DbOp unit)
    : DbOp MutationOutcome.t :=
  fun db =>
    match transaction (mutate_transaction request domain_write) db with
    | (Ok (inl outcome), db') => (Ok outcome, db')
    | (Ok (inr (err, current_revision)), _) =>
      (** [drop(tx)]: back to [db]; then the failure receipt in a transaction of its own. *)
      match transaction (insert_receipt request Failed (Some (error_class err))
                           current_revision current_revision) db with
      | (Ok _, db') => (Err err, db')
      | (Err err', db') => (Err err', db')
      end
    | (Err err, db') => (Err err, db')
    end.

(* src: crates/bos-app/src/store_core.rs:305-314 mutate_with_receipt_id *)
Definition mutate_with_receipt_id (request : MutationRequest.t) (domain_write : string → DbOp unit)
    : DbOp MutationOutcome.t :=
  mutate_with_receipt_id_inner request domain_write.

(* src: crates/bos-app/src/store_core.rs:291-300 mutate *)
Definition mutate (request : MutationRequest.t) (domain_write : DbOp unit) : DbOp MutationOutcome.t :=
  mutate_with_receipt_id request (fun _ => domain_write).

(* src: crates/bos-app/src/store_core.rs:322-344 record_failed_receipt *)
Definition record_failed_receipt (request : MutationRequest.t) (error_class : string) : DbOp string :=
  transaction
    (let? current_revision := read_revision (MutationRequest.client_id request)
        (MutationRequest.entity_kind request) (MutationRequest.entity_id request) in
     insert_receipt request Failed (Some error_class) current_revision current_revision).

(** ** Reading receipts and revisions *)

(* src: crates/bos-app/src/store_core.rs:443-467 receipts_for_entity *)
Definition receipts_for_entity (client_id entity_kind entity_id : string) (limit : N)
    : DbOp (list Receipt.dto) :=
  fun db =>
    (Ok (Receipt.receipt_from_row <$>
         sql_limit (u64_as_i64 limit)
           (sort_by_key newest_first
              (filter (fun r => string_eqb (Receipt.client_id r) client_id
                                && string_eqb (Receipt.entity_kind r) entity_kind
                                && string_eqb (Receipt.entity_id r) entity_id) (Db.receipts db)))), db).

(* src: crates/bos-app/src/store_core.rs:470-502 receipts_by_correlation *)
Definition receipts_by_correlation (client_id : string) (correlation_ids : list string) (limit : N)
    : DbOp (list Receipt.dto) :=
  match correlation_ids with
  | [] => op_ret []
  | _ =>
    fun db =>
      (Ok (Receipt.receipt_from_row <$>
           sql_limit (u64_as_i64 limit)
             (sort_by_key newest_first
                (filter (fun r => string_eqb (Receipt.client_id r) client_id
                                  && option_any (fun c => existsb (string_eqb c) correlation_ids)
                                       (Receipt.correlation_id r)) (Db.receipts db)))), db)
  end.

(* src: crates/bos-app/src/store_core.rs:505-521 latest_applied_receipt_actor *)
Definition latest_applied_receipt_actor (client_id entity_kind entity_id : string)
    : DbOp (option string) :=
  fun db =>
    (Ok (Receipt.actor_id <$>
         head (sort_by_key newest_first
           (filter (fun r => string_eqb (Receipt.client_id r) client_id
                             && string_eqb (Receipt.entity_kind r) entity_kind
                             && string_eqb (Receipt.entity_id r) entity_id
                             && Receipt.is_applied r) (Db.receipts db)))), db).

(* src: crates/bos-app/src/store_core.rs:567-583 applied_revision_for_idempotency *)
Definition applied_revision_for_idempotency (client_id idempotency_key : string) : DbOp (option N) :=
  fun db =>
    (Ok (r ← head (sort_by_key newest_first
                     (filter (fun r => applied_with_key client_id idempotency_key r) (Db.receipts db)));
         i64_as_u64 <$> Receipt.revision_after r), db).

(* src: crates/bos-app/src/store_core.rs:605-620 current_revision *)
Definition current_revision (client_id entity_kind entity_id : string) : DbOp (option N) :=
  fun db =>
    (Ok ((fun row => i64_as_u64 row.1) <$> Db.revisions db !! (client_id, entity_kind, entity_id)), db).

(** ** Revisions inside another entity's mutation *)

(* src: crates/bos-app/src/store_core.rs:644-659 advance_revision_within *)
Definition advance_revision_within (client_id entity_kind entity_id : string)
    (expected_revision now_ms : N) : DbOp N :=
  let? current := read_revision client_id entity_kind entity_id in
  if negb (bool_decide (current = Some expected_revision)) then
    op_lift (Err (StoreError.Domain "entity_revision_changed"))
  else
    let next := wrapping_add_u64 expected_revision 1 in
    write_revision client_id entity_kind entity_id next now_ms ;;?
    op_ret next.

(* src: crates/bos-app/src/store_core.rs:665-685 initialize_revision_within *)
Definition initialize_revision_within (client_id entity_kind entity_id : string)
    (revision now_ms : N) : DbOp unit :=
  fun db =>
    if decide (is_Some (Db.revisions db !! (client_id, entity_kind, entity_id)))
    then (Err (StoreError.Sqlite constraint_failed), db)
    else write_revision client_id entity_kind entity_id revision now_ms db.

(** ** Compaction of old receipt payloads *)

(** [entity_kind <> ? OR change_kind IN (...)], once per restriction: what
    [change_kind_restriction_sql] and [push_change_kind_restriction_values] put
    into a query. *)
(* src: crates/bos-app/src/store_core.rs:264-286 change_kind_restriction_sql *)
Definition change_kind_restriction (restrictions : list (string * list string)) (r : Receipt.t) : bool :=
  forallb (fun '(entity_kind, changes) =>
    negb (string_eqb (Receipt.entity_kind r) entity_kind)
    || existsb (string_eqb (Receipt.change_kind r)) changes) restrictions.

(** The condition the three compaction statements share. *)
(* src: crates/bos-app/src/store_core.rs:124-133 receipt_payload_compaction_candidates (WHERE) *)
Definition compactable (client_id : string) (cutoff_ms : N) (kinds : list string)
    (restrictions : list (string * list string)) (r : Receipt.t) : bool :=
  string_eqb (Receipt.client_id r) client_id && Receipt.is_applied r
  && (Receipt.created_at_ms r <? u64_as_i64 cutoff_ms)%Z
  && (bool_decide (is_Some (Receipt.before_json r)) || bool_decide (is_Some (Receipt.after_json r)))
  && existsb (string_eqb (Receipt.entity_kind r)) kinds
  && change_kind_restriction restrictions r.

(** [ORDER BY created_at_ms ASC, receipt_id ASC]. *)
Definition oldest_first (r : Receipt.t) : Z * string := (Receipt.created_at_ms r, Receipt.receipt_id r).

(* src: crates/bos-app/src/store_core.rs:112-151 receipt_payload_compaction_candidates *)
Definition receipt_payload_compaction_candidates (client_id : string) (cutoff_ms : N)
    (allowlisted_entity_kinds : list string) (restricted_change_kinds : list (string * list string))
    (limit : N) : DbOp (list string) :=
  match allowlisted_entity_kinds with
  | [] => op_ret []
  | _ =>
    if (limit =? 0)%N then op_ret [] else
    fun db =>
      (Ok (Receipt.receipt_id <$>
           sql_limit (u64_as_i64 limit)
             (sort_by_key oldest_first
                (filter (fun r => compactable client_id cutoff_ms allowlisted_entity_kinds
                                    restricted_change_kinds r) (Db.receipts db)))), db)
  end.

(* src: crates/bos-app/src/store_core.rs:153-185 eligible_receipt_payload_count *)
Definition eligible_receipt_payload_count (client_id : string) (cutoff_ms : N)
    (allowlisted_entity_kinds : list string) (restricted_change_kinds : list (string * list string))
    : DbOp N :=
  match allowlisted_entity_kinds with
  | [] => op_ret 0%N
  | _ =>
    fun db =>
      (Ok (len (filter (fun r => compactable client_id cutoff_ms allowlisted_entity_kinds
                                   restricted_change_kinds r) (Db.receipts db))), db)
  end.

(* src: crates/bos-app/src/store_core.rs:90-108 ReceiptPayloadCompactionBatch *)
Record CompactionBatch := {
  batch_client_id : string;
  batch_actor_id : string;
  batch_actor_kind : ActorKindDto;
  batch_cutoff_ms : N;
  batch_allowlisted_entity_kinds : list string;
  batch_restricted_change_kinds : list (string * list string);
  batch_receipt_ids : list string;
  batch_mutation_entity_kind : string;
  batch_mutation_change_kind : string;
  batch_entity_id : string;
  batch_idempotency_key : string;
  batch_correlation_id : option string;
  batch_causation_id : option string;
  batch_now_ms : N;
}.

(** The receipts the batch's [UPDATE] touches. *)
Definition batch_selects (batch : CompactionBatch) (r : Receipt.t) : bool :=
  compactable (batch_client_id batch) (batch_cutoff_ms batch) (batch_allowlisted_entity_kinds batch)
    (batch_restricted_change_kinds batch) r
  && existsb (string_eqb (Receipt.receipt_id r)) (batch_receipt_ids batch).

(** The write inside the compaction's mutation. *)
(* src: crates/bos-app/src/store_core.rs:243-261 compact_receipt_payloads (domain write) *)
Definition compaction_write (batch : CompactionBatch) : DbOp unit :=
  fun db =>
    let changed := len (filter (fun r => batch_selects batch r) (Db.receipts db)) in
    let expected_rows := len (batch_receipt_ids batch) in
    let db' := Db.set_receipts db
      ((fun r => if batch_selects batch r then Receipt.strip r else r) <$> Db.receipts db) in
    if negb (changed =? expected_rows)%N then
      (Err (StoreError.Domain ("receipt_payload_compaction_race:expected=" +:+ fmt_dec expected_rows
                               +:+ ":changed=" +:+ fmt_dec changed)), db')
    else (Ok tt, db').

(* src: crates/bos-app/src/store_core.rs:189-262 compact_receipt_payloads *)
Definition compact_receipt_payloads (batch : CompactionBatch) : DbOp MutationOutcome.t :=
  match batch_receipt_ids batch, batch_allowlisted_entity_kinds batch with
  | [], _ | _, [] => op_lift (Err (StoreError.Domain "receipt_payload_compaction_batch_empty"))
  | receipt_ids, _ =>
    let first_receipt_id := default ""%string (head receipt_ids) in
    let last_receipt_id := default ""%string (last receipt_ids) in
    let after_json := json_text
      [("operation"%string, JString "receipt_payload_compaction");
       ("cutoff_ms"%string, JNumber (batch_cutoff_ms batch));
       ("rows_compacted"%string, JNumber (len receipt_ids));
       ("first_receipt_id"%string, JString first_receipt_id);
       ("last_receipt_id"%string, JString last_receipt_id)] in
    mutate {|
      MutationRequest.client_id := batch_client_id batch;
      MutationRequest.entity_kind := batch_mutation_entity_kind batch;
      MutationRequest.entity_id := batch_entity_id batch;
      MutationRequest.change_kind := batch_mutation_change_kind batch;
      MutationRequest.actor_id := batch_actor_id batch;
      MutationRequest.actor_kind := batch_actor_kind batch;
      MutationRequest.expected_revision := None;
      MutationRequest.idempotency_key := batch_idempotency_key batch;
      MutationRequest.correlation_id := batch_correlation_id batch;
      MutationRequest.causation_id := batch_causation_id batch;
      MutationRequest.before_json := None;
      MutationRequest.after_json := Some after_json;
      MutationRequest.now_ms := batch_now_ms batch;
    |} (compaction_write batch)
  end.
End spine.
End Spine.
