(* ===== verification/StoreCoreProps.v ===== *)
(** * What the receipt spine guarantees

    Receipts are numbered without gaps and an idempotency key is applied once per
    client; [mutate] does one of four things, each with exactly one receipt; a
    replay changes nothing and answers with the first revision; and of two writes
    against the same revision at most one is applied. *)

From S2P Require Import Prelude RustStd StoreCore.
Import Spine.

Definition receipt_name (k : N) : string := "rcpt_" +:+ fmt_dec_pad12 k.

Lemma receipt_name_inj j k : receipt_name j = receipt_name k → j = k.
Proof. unfold receipt_name. by intros ?%string_app_inj_r%fmt_dec_pad12_inj. Qed.

Lemma outcome_roundtrip o : outcome_from_str (outcome_str o) = o.
Proof. by destruct o. Qed.

Lemma string_eqb_true a b : string_eqb a b = true ↔ a = b.
Proof. apply bool_decide_eq_true. Qed.

Lemma string_eqb_refl a : string_eqb a a = true.
Proof. by apply string_eqb_true. Qed.

Lemma wrapping_add_lt a b : (wrapping_add_u64 a b < u64_modulus)%N.
Proof. unfold wrapping_add_u64. by apply N.mod_lt. Qed.

Section spine.
Context {D : Type} (constraint_failed : string).
Implicit Types (db : Db.t D) (r : Receipt.t) (request : MutationRequest.t).

Abbreviation Write := (string → Op (Db.t D) StoreError.t unit).

(** ** The invariant *)

Record spine_wf db : Prop := {
  (** The n-th receipt carries the n-th name. *)
  wf_names : ∀ n r, Db.receipts db !! n = Some r → Receipt.receipt_id r = receipt_name (N.of_nat n + 1);
  (** One applied receipt per client and key. *)
  wf_applied : ∀ n m r r', Db.receipts db !! n = Some r → Db.receipts db !! m = Some r' →
    Receipt.is_applied r = true → Receipt.is_applied r' = true →
    Receipt.client_id r = Receipt.client_id r' → Receipt.idempotency_key r = Receipt.idempotency_key r' → n = m;
}.

(** Two tables of receipts that differ in payloads at most. *)
Definition same_receipts (rs rs' : list Receipt.t) : Prop := Receipt.strip <$> rs = Receipt.strip <$> rs'.

(** A slice's write leaves the receipts alone, up to their payloads: the spine is
    their only writer. *)
Definition spares_receipts (dw : Write) : Prop :=
  ∀ id db db', dw id db = (Ok tt, db') → same_receipts (Db.receipts db') (Db.receipts db).

Definition spares_revisions (dw : Write) : Prop :=
  ∀ id db db', dw id db = (Ok tt, db') → Db.revisions db' = Db.revisions db.

(** The revision of an entity, none counting as 0. *)
Definition revision_at db (entity : string * string * string) : N :=
  default 0%N ((fun row => i64_as_u64 row.1) <$> Db.revisions db !! entity).

(** A slice's write may also create entities at revision 1 and advance others by one: as
    long as no counter is exhausted, it lowers no revision and raises none by more than one. *)
Definition raises_revisions (dw : Write) : Prop :=
  ∀ id db db', (∀ entity, (revision_at db entity < u64_max)%N) → dw id db = (Ok tt, db') →
    ∀ entity, (revision_at db entity ≤ revision_at db' entity ≤ revision_at db entity + 1)%N.

Lemma same_receipts_lookup rs rs' n r :
  same_receipts rs rs' → rs !! n = Some r → ∃ r', rs' !! n = Some r' ∧ Receipt.strip r' = Receipt.strip r.
Proof.
  intros Hs Hn. assert (Hl : (Receipt.strip <$> rs) !! n = Some (Receipt.strip r)) by (by rewrite list_lookup_fmap, Hn).
  rewrite Hs, list_lookup_fmap in Hl. by apply fmap_Some in Hl as (r' & Hr' & Heq); exists r'.
Qed.

Lemma same_receipts_length rs rs' : same_receipts rs rs' → length rs = length rs'.
Proof. intros Hs. apply (f_equal length) in Hs. by rewrite !length_fmap in Hs. Qed.

(** What a payload does not touch. *)
Lemma strip_fields r r' :
  Receipt.strip r = Receipt.strip r' →
  Receipt.receipt_id r = Receipt.receipt_id r' ∧ Receipt.is_applied r = Receipt.is_applied r' ∧
  Receipt.client_id r = Receipt.client_id r' ∧ Receipt.idempotency_key r = Receipt.idempotency_key r' ∧
  Receipt.revision_after r = Receipt.revision_after r'.
Proof. destruct r, r'. unfold Receipt.strip, Receipt.is_applied. simpl. intros [=]. by subst. Qed.

Lemma spine_wf_same db db' :
  same_receipts (Db.receipts db') (Db.receipts db) → spine_wf db → spine_wf db'.
Proof.
  intros Hs [Hn Ha]. split.
  - intros n r Hr. destruct (same_receipts_lookup _ _ _ _ Hs Hr) as (r' & Hr' & Heq).
    destruct (strip_fields _ _ Heq) as (<- & _). by apply Hn.
  - intros n m r1 r2 H1 H2. destruct (same_receipts_lookup _ _ _ _ Hs H1) as (r1' & H1' & E1).
    destruct (same_receipts_lookup _ _ _ _ Hs H2) as (r2' & H2' & E2).
    destruct (strip_fields _ _ E1) as (_ & <- & <- & <- & _).
    destruct (strip_fields _ _ E2) as (_ & <- & <- & <- & _). by apply Ha.
Qed.

(** No receipt of the client was applied under the key. *)
Definition key_free db (client key : string) : Prop :=
  ∀ r, r ∈ Db.receipts db → applied_with_key client key r = false.

Lemma applied_with_key_true client key r :
  applied_with_key client key r = true ↔
  Receipt.client_id r = client ∧ Receipt.idempotency_key r = key ∧ Receipt.is_applied r = true.
Proof. unfold applied_with_key. rewrite !andb_true_iff, !string_eqb_true. tauto. Qed.

Lemma key_free_same db db' client key :
  same_receipts (Db.receipts db') (Db.receipts db) → key_free db client key → key_free db' client key.
Proof.
  intros Hs Hf r [n Hr]%list_elem_of_lookup. destruct (same_receipts_lookup _ _ _ _ Hs Hr) as (r' & Hr' & Heq).
  apply list_elem_of_lookup_2 in Hr'. apply Hf in Hr'. destruct (strip_fields _ _ Heq) as (_ & H1 & H2 & H3 & _).
  unfold applied_with_key in *. by rewrite <- H1, <- H2, <- H3.
Qed.

(** ** Inserting a receipt *)

Definition append_receipt db (r : Receipt.t) : Db.t D := Db.set_receipts db (Db.receipts db ++ [r]).

(** The name the next receipt gets. *)
Definition next_name db : string := receipt_name (len (Db.receipts db) + 1).

Lemma is_applied_row request o ec rb ra id :
  Receipt.is_applied (receipt_row request o ec rb ra id) = true ↔ o = Applied.
Proof. unfold Receipt.is_applied. simpl. by destruct o. Qed.

(** The insert never violates a constraint. *)
Lemma insert_receipt_ok request o ec rb ra db :
  spine_wf db →
  (o = Applied → key_free db (MutationRequest.client_id request) (MutationRequest.idempotency_key request)) →
  insert_receipt constraint_failed request o ec rb ra db =
    (Ok (next_name db), append_receipt db (receipt_row request o ec rb ra (next_name db))) ∧
  spine_wf (append_receipt db (receipt_row request o ec rb ra (next_name db))).
Proof.
  intros Hwf Hfree. set (row := receipt_row request o ec rb ra (next_name db)).
  assert (Hno : existsb (receipt_conflicts row) (Db.receipts db) = false).
  { apply not_true_iff_false. rewrite existsb_exists. intros (r & Hin & Hc).
    apply list_elem_of_In in Hin. apply orb_true_iff in Hc as [Hc|Hc].
    - apply string_eqb_true in Hc. apply list_elem_of_lookup in Hin as [n Hn].
      rewrite (wf_names db Hwf n r Hn) in Hc. apply receipt_name_inj in Hc.
      apply lookup_lt_Some in Hn. unfold len in Hc. lia.
    - rewrite !andb_true_iff, !string_eqb_true in Hc. destruct Hc as [[[Hrow Hr] Hcl] Hk].
      apply is_applied_row in Hrow. specialize (Hfree Hrow r Hin).
      rewrite (proj2 (applied_with_key_true _ _ r)) in Hfree; done. }
  split.
  - unfold insert_receipt, next_receipt_id, insert_receipt_row, op_bind, op_ret. fold (receipt_name (len (Db.receipts db) + 1)).
    fold (next_name db). fold row. by rewrite Hno.
  - split; unfold append_receipt; simpl.
    + intros n r [Hn|[Hlen Hn]]%lookup_app_Some; [by apply (wf_names db Hwf)|].
      destruct (n - length (Db.receipts db)) eqn:Hd; simpl in Hn; [|done]. injection Hn as <-. simpl.
      unfold next_name, len. f_equal. lia.
    + intros n m r r' Hn Hm Ha Ha' Hcl Hk.
      apply lookup_app_Some in Hn as [Hn|[Hln Hn]]; apply lookup_app_Some in Hm as [Hm|[Hlm Hm]].
      * by eapply (wf_applied db Hwf n m r r').
      * destruct (m - length (Db.receipts db)) eqn:Hd; simpl in Hm; [|done]. injection Hm as <-.
        apply is_applied_row in Ha'. apply list_elem_of_lookup_2 in Hn. specialize (Hfree Ha' r Hn).
        rewrite (proj2 (applied_with_key_true _ _ r)) in Hfree; done.
      * destruct (n - length (Db.receipts db)) eqn:Hd; simpl in Hn; [|done]. injection Hn as <-.
        apply is_applied_row in Ha. apply list_elem_of_lookup_2 in Hm. specialize (Hfree Ha r' Hm).
        rewrite (proj2 (applied_with_key_true _ _ r')) in Hfree; done.
      * destruct (n - length (Db.receipts db)) eqn:Hd; simpl in Hn; [|done].
        destruct (m - length (Db.receipts db)) eqn:Hd'; simpl in Hm; [|done]. lia.
Qed.

(** ** One mutation *)

Abbreviation client := MutationRequest.client_id (only parsing).
Abbreviation key := MutationRequest.idempotency_key (only parsing).

(** The entity's revision, as the source reads it. *)
Definition revision_of db (request : MutationRequest.t) : option N :=
  (fun row => i64_as_u64 row.1) <$>
    Db.revisions db !! (client request, MutationRequest.entity_kind request, MutationRequest.entity_id request).

Definition set_revision db (request : MutationRequest.t) (revision : N) : Db.t D :=
  Db.set_revisions db
    (<[(client request, MutationRequest.entity_kind request, MutationRequest.entity_id request) :=
       (u64_as_i64 revision, u64_as_i64 (MutationRequest.now_ms request))]> (Db.revisions db)).

Definition expectation_met db request : Prop :=
  ∀ expected, MutationRequest.expected_revision request = Some expected → revision_of db request = Some expected.

(** The four things a mutation does. *)
Inductive mutated request (dw : Write) db : Result StoreError.t MutationOutcome.t * Db.t D → Prop :=
| mutated_replayed r :
    r ∈ Db.receipts db → applied_with_key (client request) (key request) r = true →
    let revision := i64_as_u64 <$> Receipt.revision_after r in
    mutated request dw db
      (Ok (MutationOutcome.ReplayedIdempotent (next_name db) revision),
       append_receipt db (receipt_row request ReplayedIdempotent None revision revision (next_name db)))
| mutated_conflict :
    key_free db (client request) (key request) → ¬ expectation_met db request →
    let revision := revision_of db request in
    mutated request dw db
      (Ok (MutationOutcome.RevisionConflict (next_name db) revision),
       append_receipt db (receipt_row request RevisionConflict (Some "revision_conflict"%string)
                            revision revision (next_name db)))
| mutated_applied db1 :
    key_free db (client request) (key request) → expectation_met db request →
    dw (next_name db) db = (Ok tt, db1) →
    let revision := wrapping_add_u64 (default 0%N (revision_of db request)) 1 in
    mutated request dw db
      (Ok (MutationOutcome.Applied (next_name db) revision),
       append_receipt (set_revision db1 request revision)
         (receipt_row request Applied None (revision_of db request) (Some revision) (next_name db)))
| mutated_failed err db1 :
    key_free db (client request) (key request) → expectation_met db request →
    dw (next_name db) db = (Err err, db1) →
    let revision := revision_of db request in
    mutated request dw db
      (Err err,
       append_receipt db (receipt_row request Failed (Some (error_class err)) revision revision (next_name db))).

Lemma find_applied_some db request r :
  List.find (applied_with_key (client request) (key request)) (Db.receipts db) = Some r →
  r ∈ Db.receipts db ∧ applied_with_key (client request) (key request) r = true.
Proof. intros [Hin Ha]%List.find_some. by rewrite list_elem_of_In. Qed.

Lemma find_applied_none db request :
  List.find (applied_with_key (client request) (key request)) (Db.receipts db) = None →
  key_free db (client request) (key request).
Proof. intros Hn r Hin%list_elem_of_In. by apply (List.find_none _ _ Hn). Qed.

Lemma expectation_dec db request :
  option_any (fun expected => negb (bool_decide (revision_of db request = Some expected)))
    (MutationRequest.expected_revision request) = false ↔ expectation_met db request.
Proof.
  unfold expectation_met. destruct (MutationRequest.expected_revision request) as [e|]; simpl; [|done].
  case_bool_decide as He; simpl; split; try done; [by intros _ ? [= <-]|]. intros Hm. by destruct He; apply Hm.
Qed.

Lemma next_name_same db db' :
  same_receipts (Db.receipts db') (Db.receipts db) → next_name db' = next_name db.
Proof. intros Hs. unfold next_name, len. by rewrite (same_receipts_length _ _ Hs). Qed.

(** The mutation always does one of them: the spine's own statements never fail. *)
Lemma mutate_cases request (dw : Write) db :
  spine_wf db → spares_receipts dw →
  mutated request dw db (mutate_with_receipt_id_inner constraint_failed request dw db) ∧
  spine_wf (mutate_with_receipt_id_inner constraint_failed request dw db).2.
Proof.
  intros Hwf Hdw. unfold mutate_with_receipt_id_inner, transaction, mutate_transaction, op_bind.
  unfold find_applied_receipt.
  destruct (List.find _ _) as [r|] eqn:Hfind; cbn [fmap option_fmap option_map].
  { apply find_applied_some in Hfind as [Hin Ha].
    destruct (insert_receipt_ok request ReplayedIdempotent None (i64_as_u64 <$> Receipt.revision_after r)
      (i64_as_u64 <$> Receipt.revision_after r) db Hwf) as [Hi Hwf']; [done|].
    rewrite Hi. split; [by apply mutated_replayed|exact Hwf']. }
  apply find_applied_none in Hfind. unfold read_revision. fold (revision_of db request).
  destruct (option_any _ _) eqn:Hexp.
  { assert (Hno : ¬ expectation_met db request) by (by rewrite <- expectation_dec, Hexp).
    destruct (insert_receipt_ok request RevisionConflict (Some "revision_conflict"%string)
      (revision_of db request) (revision_of db request) db Hwf) as [Hi Hwf']; [done|].
    rewrite Hi. split; [by apply mutated_conflict|exact Hwf']. }
  apply expectation_dec in Hexp. unfold next_receipt_id.
  fold (receipt_name (len (Db.receipts db) + 1)). fold (next_name db).
  destruct (dw (next_name db) db) as [[[]|err] db1] eqn:Hw.
  - specialize (Hdw _ _ _ Hw). set (rev := wrapping_add_u64 _ 1). unfold write_revision.
    fold (set_revision db1 request rev).
    assert (Hs : same_receipts (Db.receipts (set_revision db1 request rev)) (Db.receipts db)) by exact Hdw.
    destruct (insert_receipt_ok request Applied None (revision_of db request) (Some rev)
      (set_revision db1 request rev) (spine_wf_same _ _ Hs Hwf)) as [Hi Hwf'];
      [intros _; by eapply key_free_same|].
    rewrite Hi. rewrite (next_name_same _ _ Hs) in *. split; [by apply mutated_applied|exact Hwf'].
  - destruct (insert_receipt_ok request Failed (Some (error_class err)) (revision_of db request)
      (revision_of db request) db Hwf) as [Hi Hwf']; [done|].
    rewrite Hi. split; [by eapply mutated_failed|exact Hwf'].
Qed.

Lemma mutated_applied_row request dw db id revision db' :
  mutated request dw db (Ok (MutationOutcome.Applied id revision), db') →
  ∃ before, receipt_row request Applied None before (Some revision) id ∈ Db.receipts db' ∧
    (revision < u64_modulus)%N.
Proof.
  inversion 1; subst. eexists. split; [|apply wrapping_add_lt].
  unfold append_receipt. simpl. apply elem_of_app. right. by left.
Qed.

(** ** Sequences of mutations *)

Record MutateCall := Mutation { call_request : MutationRequest.t; call_write : Write }.

Definition run_mutation db (c : MutateCall) : Result StoreError.t MutationOutcome.t * Db.t D :=
  mutate_with_receipt_id constraint_failed (call_request c) (call_write c) db.

Fixpoint run_mutations db (calls : list MutateCall) : list (Result StoreError.t MutationOutcome.t) * Db.t D :=
  match calls with
  | [] => ([], db)
  | c :: calls =>
    let '(result, db1) := run_mutation db c in
    let '(results, db2) := run_mutations db1 calls in
    (result :: results, db2)
  end.

Definition spare_receipts : list MutateCall → Prop := Forall (fun c => spares_receipts (call_write c)).

(** An empty database. *)
Definition spine_new (d : D) : Db.t D := Db.mk [] ∅ d.

Lemma spine_wf_new d : spine_wf (spine_new d).
Proof. split; intros n; [intros r|intros m r r']; simpl; by rewrite lookup_nil. Qed.

Lemma run_mutation_cases db c :
  spine_wf db → spares_receipts (call_write c) →
  mutated (call_request c) (call_write c) db (run_mutation db c) ∧ spine_wf (run_mutation db c).2.
Proof. apply mutate_cases. Qed.

Lemma run_mutations_wf db calls : spine_wf db → spare_receipts calls → spine_wf (run_mutations db calls).2.
Proof.
  intros Hwf Hs. revert db Hwf. induction Hs as [|c calls Hc Hs IH]; intros db Hwf; simpl; [done|].
  destruct (run_mutation_cases db c Hwf Hc) as [_ Hwf'].
  destruct (run_mutation db c) as [result db1]. simpl in Hwf'. specialize (IH db1 Hwf').
  by destruct (run_mutations db1 calls).
Qed.

(** How a call ended, as its receipt says it. *)
Definition result_outcome (result : Result StoreError.t MutationOutcome.t) : ReceiptOutcomeDto :=
  match result with
  | Ok (MutationOutcome.Applied _ _) => Applied
  | Ok (MutationOutcome.ReplayedIdempotent _ _) => ReplayedIdempotent
  | Ok (MutationOutcome.RevisionConflict _ _) => RevisionConflict
  | Err _ => Failed
  end.

(** The receipt [row] records the call and its result. *)
Record audits (cr : MutateCall * Result StoreError.t MutationOutcome.t) (row : Receipt.t) : Prop := {
  audits_client : Receipt.client_id row = client (call_request cr.1);
  audits_entity : Receipt.entity_kind row = MutationRequest.entity_kind (call_request cr.1) ∧
    Receipt.entity_id row = MutationRequest.entity_id (call_request cr.1);
  audits_actor : Receipt.actor_id row = MutationRequest.actor_id (call_request cr.1);
  audits_key : Receipt.idempotency_key row = key (call_request cr.1);
  audits_outcome : Receipt.outcome row = outcome_str (result_outcome cr.2);
}.

Lemma same_receipts_app rs rs' l :
  same_receipts rs rs' → same_receipts (rs ++ l) (rs' ++ l).
Proof. unfold same_receipts. rewrite !fmap_app. by intros ->. Qed.

Lemma mutated_audits c db out :
  spares_receipts (call_write c) → mutated (call_request c) (call_write c) db out →
  ∃ row, audits (c, out.1) row ∧ same_receipts (Db.receipts out.2) (Db.receipts db ++ [row]).
Proof.
  intros Hs. inversion 1 as [r _ _ rev|_ _ rev|db1 _ _ Hw rev|err db1 _ _ _ rev]; subst; simpl.
  1, 2, 4: eexists; split; [|reflexivity]; by split.
  eexists. split; [|by apply same_receipts_app, (Hs _ _ _ Hw)]. by split.
Qed.

Lemma mutate_audited db calls :
  spine_wf db → spare_receipts calls →
  ∃ rows, Forall2 audits (zip calls (run_mutations db calls).1) rows ∧
    same_receipts (Db.receipts (run_mutations db calls).2) (Db.receipts db ++ rows).
Proof.
  intros Hwf Hs. revert db Hwf. induction Hs as [|c calls Hc Hs IH]; intros db Hwf; simpl.
  { exists []. rewrite app_nil_r. split; [constructor|done]. }
  destruct (run_mutation_cases db c Hwf Hc) as [Hm Hwf'].
  destruct (mutated_audits c db _ Hc Hm) as (row & Hrow & Hsame).
  destruct (run_mutation db c) as [result db1]. simpl in *.
  destruct (IH db1 Hwf') as (rows & Hrows & Hsames).
  destruct (run_mutations db1 calls) as [results db2]. simpl in *.
  exists (row :: rows). split; [by constructor|].
  unfold same_receipts in *. rewrite Hsames, fmap_app, Hsame, <- fmap_app, <- app_assoc. done.
Qed.

(** ** Replays *)

(** A receipt applied under a key is there for good. *)
Lemma applied_stays db calls r :
  spine_wf db → spare_receipts calls → r ∈ Db.receipts db → Receipt.is_applied r = true →
  ∃ r', r' ∈ Db.receipts (run_mutations db calls).2 ∧ Receipt.strip r' = Receipt.strip r.
Proof.
  intros Hwf Hs Hin Ha. destruct (mutate_audited db calls Hwf Hs) as (rows & _ & Hsame).
  apply list_elem_of_lookup in Hin as [n Hn].
  assert (Hn' : (Db.receipts db ++ rows) !! n = Some r) by by apply lookup_app_l_Some.
  destruct (same_receipts_lookup _ _ n r (eq_sym Hsame) Hn') as (r' & Hr' & Heq).
  exists r'. split; [by eapply list_elem_of_lookup_2|done].
Qed.

Lemma replay_of_applied request dw db r :
  spine_wf db → spares_receipts dw → r ∈ Db.receipts db →
  applied_with_key (client request) (key request) r = true →
  mutate_with_receipt_id_inner constraint_failed request dw db =
    (Ok (MutationOutcome.ReplayedIdempotent (next_name db) (i64_as_u64 <$> Receipt.revision_after r)),
     append_receipt db (receipt_row request ReplayedIdempotent None (i64_as_u64 <$> Receipt.revision_after r)
       (i64_as_u64 <$> Receipt.revision_after r) (next_name db))).
Proof.
  intros Hwf Hs Hin Ha. destruct (mutate_cases request dw db Hwf Hs) as [Hm _].
  inversion Hm as [r' Hin' Ha' rev|Hf _ rev|db1 Hf _ _ rev|err db1 Hf _ _ rev];
    [|by rewrite (Hf r Hin) in Ha|by rewrite (Hf r Hin) in Ha|by rewrite (Hf r Hin) in Ha].
  subst rev. assert (r' = r) as ->; [|done].
  apply applied_with_key_true in Ha as (H1 & H2 & H3). apply applied_with_key_true in Ha' as (H1' & H2' & H3').
  apply list_elem_of_lookup in Hin as [n Hn]. apply list_elem_of_lookup in Hin' as [m Hm'].
  assert (n = m) as ->; [|congruence].
  eapply (wf_applied db Hwf n m r r'); congruence.
Qed.

(** ** Revisions *)

(** The revision a request is checked against, none counting as 0. *)
Definition revision_number db request : N := default 0%N (revision_of db request).

Definition raise_revisions : list MutateCall → Prop := Forall (fun c => raises_revisions (call_write c)).

(** Every mutation adds a receipt, so no revision outgrows their number. *)
Definition revisions_bounded db : Prop :=
  ∀ entity, (revision_at db entity ≤ len (Db.receipts db))%N.

Lemma revision_number_at db request :
  revision_number db request = revision_at db (client request, MutationRequest.entity_kind request, MutationRequest.entity_id request).
Proof. done. Qed.

Lemma revision_number_set db q v request :
  (v < u64_modulus)%N →
  revision_number (set_revision db q v) request = v ∨
  revision_number (set_revision db q v) request = revision_number db request.
Proof.
  intros Hv. unfold revision_number, revision_of, set_revision. simpl. rewrite lookup_insert.
  case_decide; [left; simpl; by apply u64_as_i64_roundtrip|by right].
Qed.

Lemma revision_number_set_same db q v request :
  (v < u64_modulus)%N → client q = client request →
  MutationRequest.entity_kind q = MutationRequest.entity_kind request →
  MutationRequest.entity_id q = MutationRequest.entity_id request →
  revision_number (set_revision db q v) request = v.
Proof.
  intros Hv H1 H2 H3. unfold revision_number, revision_of, set_revision. simpl.
  rewrite H1, H2, H3, lookup_insert_eq. simpl. by apply u64_as_i64_roundtrip.
Qed.

Lemma revision_number_same_entity db q request :
  client q = client request → MutationRequest.entity_kind q = MutationRequest.entity_kind request →
  MutationRequest.entity_id q = MutationRequest.entity_id request → revision_of db q = revision_of db request.
Proof. intros H1 H2 H3. unfold revision_of. by rewrite H1, H2, H3. Qed.

Lemma mutation_step db c :
  spine_wf db → spares_receipts (call_write c) → raises_revisions (call_write c) → revisions_bounded db →
  (len (Db.receipts (run_mutation db c).2) ≤ u64_max)%N →
  revisions_bounded (run_mutation db c).2 ∧
  len (Db.receipts (run_mutation db c).2) = (len (Db.receipts db) + 1)%N ∧
  (∀ request, (revision_number db request ≤ revision_number (run_mutation db c).2 request)%N) ∧
  (result_outcome (run_mutation db c).1 = Applied → ∀ request,
     client (call_request c) = client request →
     MutationRequest.entity_kind (call_request c) = MutationRequest.entity_kind request →
     MutationRequest.entity_id (call_request c) = MutationRequest.entity_id request →
     expectation_met db (call_request c) ∧
     revision_number (run_mutation db c).2 request = (revision_number db request + 1)%N).
Proof.
  intros Hwf Hs Hv Hb. destruct (run_mutation_cases db c Hwf Hs) as [Hm _].
  destruct (mutated_audits c db _ Hs Hm) as (row & _ & Hsame).
  assert (Hlen : len (Db.receipts (run_mutation db c).2) = (len (Db.receipts db) + 1)%N).
  { apply same_receipts_length in Hsame. rewrite length_app in Hsame. simpl in Hsame. unfold len. lia. }
  rewrite Hlen. intros Hmax.
  assert (Hsmall : ∀ request, (wrapping_add_u64 (revision_number db request) 1 = revision_number db request + 1)%N).
  { intros q. rewrite revision_number_at. specialize (Hb (client q, MutationRequest.entity_kind q, MutationRequest.entity_id q)).
    unfold wrapping_add_u64, u64_modulus, u64_max in *. apply N.mod_small. lia. }
  destruct Hm as [r _ _ rev|_ _ rev|db1 _ Hexp Hw rev|err db1 _ _ _ rev]; simpl in *.
  1, 2, 4: split_and!; [intros q; specialize (Hb q); simpl; rewrite Hlen; unfold revision_at in *; simpl in *; lia
    |done|intros q; unfold revision_number, revision_of; simpl; lia|done].
  assert (Hraised : ∀ q, (revision_at db q ≤ revision_at db1 q ≤ revision_at db q + 1)%N).
  { refine (Hv _ db db1 _ Hw). intros q. specialize (Hb q). lia. }
  assert (Hrev : rev = (revision_number db (call_request c) + 1)%N) by apply Hsmall.
  assert (Hlt : (rev < u64_modulus)%N) by apply wrapping_add_lt.
  set (db2 := append_receipt _ _).
  assert (Hgrow : ∀ q, (revision_at db q ≤ revision_at db2 q ≤ len (Db.receipts db) + 1)%N).
  { intros q. change (revision_at db2 q) with (revision_at (set_revision db1 (call_request c) rev) q).
    specialize (Hb q). specialize (Hraised q). unfold revision_at at 2 3, set_revision. simpl. rewrite lookup_insert.
    case_decide as Heq; simpl.
    - rewrite u64_as_i64_roundtrip by done. rewrite revision_number_at in Hrev. subst q. lia.
    - unfold revision_at in *. lia. }
  split_and!; [intros q; unfold db2; simpl; rewrite Hlen; apply Hgrow|done|intros q; rewrite !revision_number_at; apply Hgrow|].
  intros _ q H1 H2 H3. split; [done|].
  change (revision_number db2 q) with (revision_number (set_revision db1 (call_request c) rev) q).
  rewrite revision_number_set_same by done.
  rewrite Hrev. unfold revision_number. by rewrite (revision_number_same_entity db (call_request c) q).
Qed.

Lemma run_mutations_revisions db calls :
  spine_wf db → spare_receipts calls → raise_revisions calls → revisions_bounded db →
  (len (Db.receipts (run_mutations db calls).2) ≤ u64_max)%N →
  revisions_bounded (run_mutations db calls).2 ∧
  ∀ request, (revision_number db request ≤ revision_number (run_mutations db calls).2 request)%N.
Proof.
  intros Hwf Hs Hv. revert db Hwf.
  induction Hs as [|c calls Hc Hs IH]; intros db Hwf Hb; simpl; [by split|].
  apply Forall_cons in Hv as [Hvc Hv]. destruct (run_mutation_cases db c Hwf Hc) as [_ Hwf'].
  pose proof (mutation_step db c Hwf Hc Hvc Hb) as Hstep.
  destruct (mutate_audited (run_mutation db c).2 calls Hwf' Hs) as (rows & _ & Hsame).
  destruct (run_mutation db c) as [result db1]. simpl in *.
  specialize (IH Hv db1 Hwf'). destruct (run_mutations db1 calls) as [results db2]. simpl in *.
  intros Hmax. apply same_receipts_length in Hsame. rewrite length_app in Hsame.
  destruct Hstep as (Hb1 & _ & Hle & _); [unfold len in *; lia|].
  destruct (IH Hb1 Hmax) as [Hb2 Hle2]. split; [done|]. intros q. specialize (Hle q). specialize (Hle2 q). lia.
Qed.
(** *** Writes that create and advance entities *)

Lemma spares_raises dw : spares_revisions dw → raises_revisions dw.
Proof. intros Hs id db db' _ Hw q. unfold revision_at. rewrite (Hs _ _ _ Hw). lia. Qed.

(** Every entity keeps its revision, or is new at revision 1. *)
Definition creates_only (m : Op (Db.t D) StoreError.t unit) : Prop :=
  ∀ db db', m db = (Ok tt, db') → ∀ entity,
    Db.revisions db' !! entity = Db.revisions db !! entity ∨
    Db.revisions db !! entity = None ∧ ∃ now_ms, Db.revisions db' !! entity = Some (1%Z, now_ms).

Lemma creates_raises m : creates_only m → raises_revisions (fun _ => m).
Proof.
  intros Hc id db db' _ Hw q. unfold revision_at. destruct (Hc _ _ Hw q) as [->|[-> [t ->]]]; simpl; [lia|].
  change (i64_as_u64 1) with 1%N. lia.
Qed.

Lemma spares_creates (m : Op (Db.t D) StoreError.t unit) : spares_revisions (fun _ => m) → creates_only m.
Proof. intros Hs db db' Hw q. left. by rewrite (Hs ""%string _ _ Hw). Qed.

Lemma creates_seq (m1 m2 : Op (Db.t D) StoreError.t unit) : creates_only m1 → creates_only m2 → creates_only (m1 ;;? m2).
Proof.
  intros H1 H2 db db' ([] & db1 & Hm1 & Hm2)%op_bind_ok q.
  destruct (H1 _ _ Hm1 q) as [He|[He [t Ht]]], (H2 _ _ Hm2 q) as [He2|[He2 [t2 Ht2]]]; rewrite ?He2, ?Ht2; try (by left; congruence); right.
  - split; [congruence|by eexists].
  - split; [done|by eexists].
Qed.

Lemma initialize_creates c k i now_ms : creates_only (initialize_revision_within constraint_failed c k i 1 now_ms).
Proof.
  intros db db'. unfold initialize_revision_within. destruct (decide _) as [|Hn]; [done|].
  intros [= <-] q. simpl. destruct (decide ((c, k, i) = q)) as [<-|Hne].
  - right. split; [by apply eq_None_not_Some|]. rewrite lookup_insert_eq. by eexists.
  - left. by rewrite lookup_insert_ne.
Qed.

Lemma advance_raises c k i expected now_ms :
  raises_revisions (fun _ => (advance_revision_within c k i expected now_ms ;;? op_ret tt)).
Proof.
  intros id db db' Hb. unfold advance_revision_within. intros (r & db1 & Ha & [= <-])%op_bind_ok.
  apply op_bind_ok in Ha as (current & db2 & [= <- <-] & Ha).
  destruct (bool_decide _) eqn:Hd; simpl in Ha; [|done]. apply bool_decide_eq_true in Hd.
  injection Ha as _ <-. intros q. unfold revision_at at 2 3. simpl. specialize (Hb (c, k, i)).
  destruct (decide ((c, k, i) = q)) as [<-|Hne]; [|rewrite lookup_insert_ne by done; unfold revision_at; lia].
  rewrite lookup_insert_eq. unfold revision_at in *. rewrite Hd in *. simpl in *.
  assert (Hw : wrapping_add_u64 expected 1 = (expected + 1)%N).
  { unfold wrapping_add_u64. apply N.mod_small. unfold u64_max, u64_modulus in *. lia. }
  rewrite Hw, u64_as_i64_roundtrip; [lia|]. unfold u64_max, u64_modulus in *. lia.
Qed.

End spine.

(** ** Compaction *)

(** [clear_payloads ids]: the receipts named in [ids] lose their payloads. *)
Definition clear_payloads (ids : list string) (r : Receipt.t) : Receipt.t :=
  if bool_decide (Receipt.receipt_id r ∈ ids) then Receipt.strip r else r.

Section compaction.
Context {D : Type} (constraint_failed : string) (json_text : list (string * JsonValue) → string).
Implicit Types (db : Db.t D) (batch : CompactionBatch).

Abbreviation candidates db batch limit :=
  (receipt_payload_compaction_candidates (batch_client_id batch) (batch_cutoff_ms batch)
     (batch_allowlisted_entity_kinds batch) (batch_restricted_change_kinds batch) limit db).

Abbreviation may_compact batch := (compactable (batch_client_id batch) (batch_cutoff_ms batch)
  (batch_allowlisted_entity_kinds batch) (batch_restricted_change_kinds batch)).

Lemma existsb_string_eqb s l : existsb (string_eqb s) l = bool_decide (s ∈ l).
Proof.
  apply eq_true_iff_eq. rewrite existsb_exists, bool_decide_eq_true. split.
  - intros (x & Hx%list_elem_of_In & ->%string_eqb_true). done.
  - intros Hx%list_elem_of_In. exists s. split; [done|apply string_eqb_refl].
Qed.

Lemma sql_limit_sublist {A} limit (l : list A) : sublist (sql_limit limit l) l.
Proof.
  unfold sql_limit. case_match; [done|]. rewrite truncate_take. apply sublist_take.
Qed.

Lemma receipt_by_id db r r' :
  spine_wf db → r ∈ Db.receipts db → r' ∈ Db.receipts db →
  Receipt.receipt_id r = Receipt.receipt_id r' → r = r'.
Proof.
  intros Hwf [n Hn]%list_elem_of_lookup [m Hm]%list_elem_of_lookup Heq.
  rewrite (wf_names _ Hwf n r Hn), (wf_names _ Hwf m r' Hm) in Heq. apply receipt_name_inj in Heq.
  assert (n = m) as -> by lia. congruence.
Qed.

Lemma receipts_NoDup db : spine_wf db → NoDup (Db.receipts db).
Proof.
  intros Hwf. apply NoDup_alt. intros n m r Hn Hm.
  pose proof (wf_names _ Hwf n r Hn) as H1. rewrite (wf_names _ Hwf m r Hm) in H1.
  apply receipt_name_inj in H1. lia.
Qed.

(** The listed receipts: distinct, and all of them may be compacted. *)
Lemma candidates_rows db batch limit ids :
  candidates db batch limit = (Ok ids, db) →
  ∃ rows, ids = Receipt.receipt_id <$> rows ∧
    rows ⊆+ filter (fun r => may_compact batch r) (Db.receipts db).
Proof.
  unfold receipt_payload_compaction_candidates, op_ret.
  destruct (batch_allowlisted_entity_kinds batch) as [|k ks]; [intros [= <-]; exists []; split; [done|apply submseteq_nil_l]|].
  case_match; [intros [= <-]; exists []; split; [done|apply submseteq_nil_l]|].
  intros [= <-]. eexists. split; [done|].
  etrans; [apply sublist_submseteq, sql_limit_sublist|]. by rewrite sort_by_key_perm.
Qed.

(** A batch of candidates selects exactly its receipts. *)
Lemma batch_of_candidates db batch limit :
  spine_wf db → candidates db batch limit = (Ok (batch_receipt_ids batch), db) →
  (∀ r, r ∈ Db.receipts db → batch_selects batch r = bool_decide (Receipt.receipt_id r ∈ batch_receipt_ids batch)) ∧
  len (filter (fun r => batch_selects batch r) (Db.receipts db)) = len (batch_receipt_ids batch).
Proof.
  intros Hwf (rows & Hids & Hsub)%candidates_rows.
  assert (Hin : ∀ r, r ∈ rows → may_compact batch r = true ∧ r ∈ Db.receipts db).
  { intros r Hr. eapply elem_of_submseteq in Hr; [|exact Hsub].
    apply list_elem_of_filter in Hr as [Hr ?]. split; [by apply Is_true_true in Hr|done]. }
  assert (Hsel : ∀ r, r ∈ Db.receipts db → batch_selects batch r = true ↔ r ∈ rows).
  { intros r Hr. unfold batch_selects. rewrite existsb_string_eqb, andb_true_iff, bool_decide_eq_true, Hids.
    split.
    - intros [_ (r' & Heq & Hr')%list_elem_of_fmap]. destruct (Hin r' Hr').
      by rewrite (receipt_by_id db r r').
    - intros Hrows. split; [by apply Hin|]. by apply list_elem_of_fmap_2. }
  split.
  - intros r Hr. apply eq_true_iff_eq. rewrite Hsel, bool_decide_eq_true, Hids by done. split.
    + apply list_elem_of_fmap_2.
    + intros (r' & Heq & Hr')%list_elem_of_fmap. destruct (Hin r' Hr'). by rewrite (receipt_by_id db r r').
  - rewrite Hids, len_fmap. unfold len. f_equal. apply Permutation_length, NoDup_Permutation.
    + by apply NoDup_filter, receipts_NoDup.
    + apply submseteq_Permutation in Hsub as [others Hp].
      assert (Hnd : NoDup (rows ++ others)) by (rewrite <- Hp; by apply NoDup_filter, receipts_NoDup).
      by apply NoDup_app in Hnd as [Hnd _].
    + intros r. rewrite list_elem_of_filter. split.
      * intros [Hb Hr]. apply Is_true_true in Hb. by apply Hsel.
      * intros Hr. destruct (Hin r Hr). split; [|done]. by apply Is_true_true, Hsel.
Qed.

Lemma compaction_write_spares batch : spares_receipts (D:=D) (fun _ => compaction_write batch).
Proof.
  intros id db db'. unfold compaction_write. case_match; [done|]. intros [= <-]. unfold same_receipts. simpl.
  rewrite <- list_fmap_compose. apply list_fmap_ext. intros _ r _. simpl. by case_match.
Qed.

Lemma compaction_write_batch db batch limit :
  spine_wf db → candidates db batch limit = (Ok (batch_receipt_ids batch), db) →
  compaction_write batch db =
    (Ok tt, Db.set_receipts db (clear_payloads (batch_receipt_ids batch) <$> Db.receipts db)).
Proof.
  intros Hwf Hc. destruct (batch_of_candidates db batch limit Hwf Hc) as [Hsel Hlen].
  unfold compaction_write. rewrite Hlen, N.eqb_refl. simpl. do 2 f_equal.
  apply list_fmap_ext. intros n r Hr%list_elem_of_lookup_2. unfold clear_payloads. by rewrite Hsel.
Qed.
End compaction.

(** ** The guarantees *)

Section guarantees.
Context {D : Type} (constraint_failed : string).
Implicit Types (db : Db.t D).

Abbreviation run := (run_mutation (D:=D) constraint_failed).
Abbreviation runs := (run_mutations (D:=D) constraint_failed).

(** The database some mutations made of an empty one. *)
Definition spine_after (d : D) (calls : list MutateCall) : Db.t D := (runs (spine_new d) calls).2.

Lemma spine_after_wf d calls : spare_receipts calls → spine_wf (spine_after d calls).
Proof. intros Hs. apply run_mutations_wf; [apply spine_wf_new|done]. Qed.

(** C3: a mutation does exactly what the spine promises.  Whatever mutations came
    before, [mutate] either answers a key applied before with its revision, or
    reports a revision other than the expected one, or runs the slice's write and
    bumps the revision by one, or rolls a failing write back; each time one
    receipt is appended, and nothing else changes.  No statement of the spine
    itself fails: no uniqueness constraint is ever violated. *)
Theorem mutate_refines d calls c :
  spare_receipts calls → spares_receipts (call_write c) →
  mutated (call_request c) (call_write c) (spine_after d calls) (run (spine_after d calls) c).
Proof. intros Hs Hc. by apply run_mutation_cases; [apply spine_after_wf|]. Qed.

(** nothing goes unaudited.  After any mutations there are exactly as many
    receipts, in the same order: each carries the client, entity, actor and key of
    its call and says how the call ended, failures included; and receipts are
    numbered 1, 2, 3, ... without a gap. *)
Theorem every_mutation_audited d calls :
  spare_receipts calls →
  let results := (runs (spine_new d) calls).1 in
  let db := (runs (spine_new d) calls).2 in
  (∃ rows, Forall2 audits (zip calls results) rows ∧ same_receipts (Db.receipts db) rows) ∧
  ∀ n r, Db.receipts db !! n = Some r → Receipt.receipt_id r = receipt_name (N.of_nat n + 1).
Proof.
  intros Hs results db. split.
  - exact (mutate_audited constraint_failed (spine_new d) calls (spine_wf_new d) Hs).
  - exact (wf_names _ (spine_after_wf d calls Hs)).
Qed.

(** C32: a mutation takes effect once.  After a key was applied for a client, every
    later mutation under it, whatever it asks and whatever happened in between,
    is answered as a replay with the revision of the first one; it runs no write,
    and changes neither the slices' tables nor any revision. *)
Theorem mutation_applied_once d calls c more c' receipt_id revision db1 :
  spare_receipts calls → spares_receipts (call_write c) → spare_receipts more →
  run (spine_after d calls) c = (Ok (MutationOutcome.Applied receipt_id revision), db1) →
  MutationRequest.client_id (call_request c') = MutationRequest.client_id (call_request c) →
  MutationRequest.idempotency_key (call_request c') = MutationRequest.idempotency_key (call_request c) →
  spares_receipts (call_write c') →
  let db2 := (runs db1 more).2 in
  ∃ replay_id db3, run db2 c' = (Ok (MutationOutcome.ReplayedIdempotent replay_id (Some revision)), db3) ∧
    Db.domain db3 = Db.domain db2 ∧ Db.revisions db3 = Db.revisions db2.
Proof.
  intros Hs Hc Hm Hrun Hcl Hk Hc' db2.
  destruct (run_mutation_cases constraint_failed (spine_after d calls) c (spine_after_wf d calls Hs) Hc) as [Hcase Hwf1].
  fold (run (spine_after d calls) c) in Hcase. rewrite Hrun in Hcase, Hwf1. simpl in Hwf1.
  destruct (mutated_applied_row _ _ _ _ _ _ Hcase) as (before & Hin & Hrev_lt).
  set (row := receipt_row _ _ _ _ _ _) in *.
  destruct (applied_stays constraint_failed db1 more row Hwf1 Hm Hin) as (row' & Hin' & Heq); [done|].
  destruct (strip_fields _ _ Heq) as (_ & Ha & Hcl' & Hk' & Hrev).
  assert (Hwf2 : spine_wf db2) by (by apply run_mutations_wf).
  unfold run_mutation, mutate_with_receipt_id.
  rewrite (replay_of_applied constraint_failed (call_request c') (call_write c') db2 row' Hwf2 Hc' Hin').
  - rewrite Hrev. simpl. rewrite u64_as_i64_roundtrip by done. eexists _, _. split; [reflexivity|]. by split.
  - apply applied_with_key_true. rewrite Hcl', Hk', Ha. split_and!; [by rewrite Hcl|by rewrite Hk|done].
Qed.

(** C34: No lost update.  Of two mutations of one entity that expect the same revision at
    most one is applied, whatever mutations happen before and between them: the writes of
    the slices may create and advance other entities, as long as they write no receipts,
    lower no revision and raise none by more than one (and until receipts number
    [u64::MAX]). *)
Theorem no_lost_update d calls c1 more c2 expected :
  let db := spine_after d calls in
  let db1 := (run db c1).2 in
  let db2 := (runs db1 more).2 in
  spare_receipts (c1 :: c2 :: calls ++ more) → raise_revisions (c1 :: c2 :: calls ++ more) →
  MutationRequest.client_id (call_request c1) = MutationRequest.client_id (call_request c2) →
  MutationRequest.entity_kind (call_request c1) = MutationRequest.entity_kind (call_request c2) →
  MutationRequest.entity_id (call_request c1) = MutationRequest.entity_id (call_request c2) →
  MutationRequest.expected_revision (call_request c1) = Some expected →
  MutationRequest.expected_revision (call_request c2) = Some expected →
  (len (Db.receipts (run db2 c2).2) ≤ u64_max)%N →
  result_outcome (run db c1).1 = Applied → result_outcome (run db2 c2).1 ≠ Applied.
Proof.
  intros db db1 db2 [Hs1 [Hs2 [Hsc Hsm]%Forall_app]%Forall_cons]%Forall_cons
    [Hv1 [Hv2 [Hvc Hvm]%Forall_app]%Forall_cons]%Forall_cons Hcl Hkind Hid He1 He2 Hmax Ha1 Ha2.
  pose proof (spine_after_wf d calls Hsc) as Hwf. fold db in Hwf.
  destruct (run_mutation_cases constraint_failed db c1 Hwf Hs1) as [_ Hwf1]. fold db1 in Hwf1.
  assert (Hwf2 : spine_wf db2) by (by apply run_mutations_wf).
  assert (Hl2 : (len (Db.receipts db2) + 1 = len (Db.receipts (run db2 c2).2))%N).
  { destruct (run_mutation_cases constraint_failed db2 c2 Hwf2 Hs2) as [Hm _].
    destruct (mutated_audits c2 db2 _ Hs2 Hm) as (row & _ & Hsame%same_receipts_length).
    rewrite length_app in Hsame. simpl in Hsame. unfold len. lia. }
  assert (Hl1 : (len (Db.receipts db1) ≤ len (Db.receipts db2))%N).
  { destruct (mutate_audited constraint_failed db1 more Hwf1 Hsm) as (rows & _ & Hsame%same_receipts_length).
    rewrite length_app in Hsame. unfold db2, len. lia. }
  assert (Hl0 : (len (Db.receipts db) ≤ len (Db.receipts db1))%N).
  { destruct (run_mutation_cases constraint_failed db c1 Hwf Hs1) as [Hm _].
    destruct (mutated_audits c1 db _ Hs1 Hm) as (row & _ & Hsame%same_receipts_length).
    rewrite length_app in Hsame. unfold db1, len. lia. }
  assert (Hb : revisions_bounded db).
  { apply run_mutations_revisions; [apply spine_wf_new|done|done| |unfold db, spine_after in *; lia].
    intros q. unfold revision_at. simpl. by rewrite lookup_empty. }
  destruct (mutation_step constraint_failed db c1 Hwf Hs1 Hv1 Hb) as (Hb1 & _ & _ & Happ1); [fold db1; lia|].
  destruct (Happ1 Ha1 (call_request c2) Hcl Hkind Hid) as [Hexp1 Hn1]. fold db1 in Hb1, Hn1.
  destruct (run_mutations_revisions constraint_failed db1 more Hwf1 Hsm Hvm Hb1) as [Hb2 Hle];
    [fold db2; lia|]. fold db2 in Hb2, Hle.
  destruct (mutation_step constraint_failed db2 c2 Hwf2 Hs2 Hv2 Hb2) as (_ & _ & _ & Happ2); [lia|].
  destruct (Happ2 Ha2 (call_request c2) eq_refl eq_refl eq_refl) as [Hexp2 _].
  specialize (Hexp1 expected He1). specialize (Hexp2 expected He2). specialize (Hle (call_request c2)).
  unfold revision_number in *. rewrite Hexp2 in Hle. simpl in Hle.
  rewrite <- (revision_number_same_entity db (call_request c1) (call_request c2)) in Hn1 by done.
  rewrite Hexp1 in Hn1. simpl in Hn1. lia.
Qed.

(** compaction clears exactly its batch.  A batch holding what the candidates
    query returned, under a key not used before, is applied: the listed receipts
    lose their payloads and nothing else, every other receipt stays as it is, the
    slices' tables are untouched, and the compaction has its own receipt.  Every
    listed receipt is one that may be compacted: applied, of the client, older
    than the cutoff, of an allowed kind. *)
Theorem compaction_exact (json_text : list (string * JsonValue) → string) d calls batch limit :
  let db := spine_after d calls in
  spare_receipts calls →
  receipt_payload_compaction_candidates (batch_client_id batch) (batch_cutoff_ms batch)
    (batch_allowlisted_entity_kinds batch) (batch_restricted_change_kinds batch) limit db
    = (Ok (batch_receipt_ids batch), db) →
  batch_receipt_ids batch ≠ [] →
  key_free db (batch_client_id batch) (batch_idempotency_key batch) →
  (∃ receipt_id revision row db',
    compact_receipt_payloads constraint_failed json_text batch db =
      (Ok (MutationOutcome.Applied receipt_id revision), db') ∧
    Db.receipts db' = (clear_payloads (batch_receipt_ids batch) <$> Db.receipts db) ++ [row] ∧
    Receipt.receipt_id row = receipt_id ∧ Db.domain db' = Db.domain db) ∧
  ∀ r, r ∈ Db.receipts db → Receipt.receipt_id r ∈ batch_receipt_ids batch →
    compactable (batch_client_id batch) (batch_cutoff_ms batch)
      (batch_allowlisted_entity_kinds batch) (batch_restricted_change_kinds batch) r = true.
Proof.
  intros db Hs Hc Hne Hfree. pose proof (spine_after_wf d calls Hs) as Hwf. fold db in Hwf.
  destruct (batch_of_candidates db batch limit Hwf Hc) as [Hsel _]. split.
  - unfold compact_receipt_payloads.
    destruct (batch_receipt_ids batch) as [|id ids] eqn:Hids; [done|].
    destruct (batch_allowlisted_entity_kinds batch) as [|k ks] eqn:Hkinds.
    { unfold receipt_payload_compaction_candidates, op_ret in Hc. by injection Hc. }
    unfold mutate, mutate_with_receipt_id. set (request := MutationRequest.mk _ _ _ _ _ _ _ _ _ _ _ _ _).
    destruct (mutate_cases constraint_failed request (fun _ => compaction_write batch) db Hwf
      (compaction_write_spares batch)) as [Hm _].
    rewrite <- Hids, <- Hkinds in Hc.
    pose proof (compaction_write_batch db batch limit Hwf Hc) as Hw. rewrite Hids in Hw.
    inversion Hm as [r Hin Ha rev|_ Hexp rev|db1 _ _ Hw' rev|err db1 _ _ Hw' rev].
    + change (applied_with_key (batch_client_id batch) (batch_idempotency_key batch) r = true) in Ha.
      by rewrite (Hfree r Hin) in Ha.
    + by destruct Hexp.
    + rewrite Hw in Hw'. injection Hw' as <-. repeat eexists.
    + by rewrite Hw in Hw'.
  - intros r Hr Hin. specialize (Hsel r Hr). rewrite (bool_decide_eq_true_2 _ Hin) in Hsel.
    unfold batch_selects in Hsel. by apply andb_true_iff in Hsel as [? _].
Qed.
End guarantees.

(** ** Witnesses *)

(** A slice whose only table lists the receipts its writes ran under. *)
Definition demo_log (id : string) : Op (Db.t (list string)) StoreError.t unit :=
  fun db => (Ok tt, Db.set_domain db (Db.domain db ++ [id])).

Definition demo_request (key : string) (expected : option N) (now_ms : N) : MutationRequest.t :=
  MutationRequest.mk "acme" "note" "n1" "edit" "ann" Operator expected key None None
    (Some "{}"%string) (Some "{1}"%string) now_ms.

Definition demo_mutation (key : string) (expected : option N) (now_ms : N) : MutateCall (D:=list string) :=
  Mutation (demo_request key expected now_ms) demo_log.

(** One that is refused by the slice. *)
Definition demo_refused : MutateCall (D:=list string) :=
  Mutation (demo_request "k9" None 5) (fun _ => op_lift (Err (StoreError.Domain "refused"))).

Lemma demo_log_spares : spares_receipts demo_log.
Proof. intros id db db' [= <-]. done. Qed.
Lemma demo_log_raises : raises_revisions demo_log.
Proof. apply spares_raises. intros id db db' [= <-]. done. Qed.
Lemma demo_refused_spares : spares_receipts (call_write demo_refused).
Proof. by intros id db db' ?. Qed.

Lemma mutate_refines_witness :
  mutated (call_request demo_refused) (call_write demo_refused)
    (spine_after "UNIQUE" [] [demo_mutation "k1" None 1])
    (run_mutation "UNIQUE" (spine_after "UNIQUE" [] [demo_mutation "k1" None 1]) demo_refused) ∧
  (run_mutation "UNIQUE" (spine_after "UNIQUE" [] [demo_mutation "k1" None 1]) demo_refused).1
    = Err (StoreError.Domain "refused").
Proof.
  split; [|vm_compute; reflexivity].
  apply (mutate_refines "UNIQUE" [] [demo_mutation "k1" None 1] demo_refused).
  - repeat constructor; exact demo_log_spares.
  - exact demo_refused_spares.
Defined.

Definition demo_history : list (MutateCall (D:=list string)) :=
  [demo_mutation "k1" None 1; demo_refused; demo_mutation "k1" None 3; demo_mutation "k2" (Some 7%N) 4].

Lemma demo_history_spares : spare_receipts demo_history.
Proof. repeat constructor; (exact demo_log_spares || exact demo_refused_spares). Qed.

Lemma every_mutation_audited_witness :
  (∃ rows, Forall2 audits (zip demo_history (run_mutations "UNIQUE" (spine_new []) demo_history).1) rows ∧
    same_receipts (Db.receipts (run_mutations "UNIQUE" (spine_new []) demo_history).2) rows) ∧
  (Receipt.outcome <$> Db.receipts (run_mutations "UNIQUE" (spine_new []) demo_history).2)
    = ["applied"; "failed"; "replayed_idempotent"; "revision_conflict"]%string.
Proof.
  split; [|vm_compute; reflexivity].
  apply (every_mutation_audited "UNIQUE" [] demo_history demo_history_spares).
Defined.

Lemma mutation_applied_once_witness :
  ∃ db1, run_mutation "UNIQUE" (spine_after "UNIQUE" [] []) (demo_mutation "k1" None 1)
      = (Ok (MutationOutcome.Applied "rcpt_000000000001" 1), db1) ∧
    ∃ replay_id db3,
      run_mutation "UNIQUE" (run_mutations "UNIQUE" db1 [demo_mutation "k2" (Some 1%N) 2]).2
        (demo_mutation "k1" (Some 5%N) 3)
        = (Ok (MutationOutcome.ReplayedIdempotent replay_id (Some 1%N)), db3).
Proof.
  eexists. split; [reflexivity|].
  edestruct (mutation_applied_once "UNIQUE" [] [] (demo_mutation "k1" None 1)
    [demo_mutation "k2" (Some 1%N) 2] (demo_mutation "k1" (Some 5%N) 3) "rcpt_000000000001" 1)
    as (replay_id & db3 & Hrun & _ & _).
  - constructor.
  - exact demo_log_spares.
  - repeat constructor; exact demo_log_spares.
  - reflexivity.
  - reflexivity.
  - reflexivity.
  - exact demo_log_spares.
  - exists replay_id, db3. exact Hrun.
Defined.

(** A mutation in between that creates another entity. *)
Definition demo_creating : MutateCall (D:=list string) :=
  Mutation (demo_request "k3" (Some 2%N) 3) (fun _ => initialize_revision_within "UNIQUE" "acme" "task" "t1" 1 3).

Lemma demo_creating_spares : spares_receipts (call_write demo_creating).
Proof. intros id db db'. cbn. unfold initialize_revision_within. case_decide; [done|]. by intros [= <-]. Qed.
Lemma demo_creating_raises : raises_revisions (call_write demo_creating).
Proof. exact (creates_raises _ (initialize_creates "UNIQUE" "acme" "task" "t1" 3)). Qed.

Lemma no_lost_update_witness :
  let db1 := (run_mutation "UNIQUE" (spine_after "UNIQUE" [] [demo_mutation "k1" None 1])
                (demo_mutation "k2" (Some 1%N) 2)).2 in
  let db2 := (run_mutations "UNIQUE" db1 [demo_creating]).2 in
  Db.revisions db2 !! ("acme", "task", "t1")%string = Some (1%Z, 3%Z) ∧
  result_outcome (run_mutation "UNIQUE" db2 (demo_mutation "k4" (Some 1%N) 4)).1 ≠ Applied.
Proof.
  intros db1 db2. split; [by vm_compute|].
  apply (no_lost_update "UNIQUE" [] [demo_mutation "k1" None 1] (demo_mutation "k2" (Some 1%N) 2)
    [demo_creating] (demo_mutation "k4" (Some 1%N) 4) 1).
  - repeat (apply Forall_cons; split; [exact demo_log_spares || exact demo_creating_spares|]). constructor.
  - repeat (apply Forall_cons; split; [exact demo_log_raises || exact demo_creating_raises|]). constructor.
  - reflexivity.
  - reflexivity.
  - reflexivity.
  - reflexivity.
  - reflexivity.
  - vm_compute. discriminate.
  - vm_compute. reflexivity.
Defined.

Definition demo_batch : CompactionBatch :=
  Build_CompactionBatch "acme" "cleaner" System 3 ["note"%string] [] ["rcpt_000000000001"%string]
    "receipts" "compact" "batch1" "c1" None None 9.

Lemma compaction_exact_witness :
  let db := spine_after "UNIQUE" [] demo_history in
  ∃ receipt_id revision row db',
    compact_receipt_payloads "UNIQUE" (fun _ => "{..}"%string) demo_batch db =
      (Ok (MutationOutcome.Applied receipt_id revision), db') ∧
    Db.receipts db' = (clear_payloads ["rcpt_000000000001"%string] <$> Db.receipts db) ++ [row].
Proof.
  edestruct (compaction_exact "UNIQUE" (fun _ => "{..}"%string) [] demo_history demo_batch 10)
    as [(receipt_id & revision & row & db' & H1 & H2 & _) _].
  - exact demo_history_spares.
  - vm_compute. reflexivity.
  - discriminate.
  - intros r Hr. apply list_elem_of_In in Hr. vm_compute in Hr.
    repeat destruct Hr as [<-|Hr]; [vm_compute; reflexivity..|destruct Hr].
  - exists receipt_id, revision, row, db'. split; [exact H1|exact H2].
Defined.
