(* ===== verification/AppOutbox.v ===== *)
(** * The provider outbox ([bos-app/src/outbox.rs])

    A slice enqueues a job inside its own mutation, so the job commits with the
    write that authorises it.  Workers claim due jobs under a lease, call the
    provider, and record the attempt through the receipt spine; an operator may
    give a terminally failed job a new budget.

    The table is that of [persistence/migrations/0008_outbox_jobs.sql], keyed by
    client and job, next to the other slices' tables [R].  [dispatch], the
    slices' executors with the providers behind them, and the reconciliation of
    content campaigns at the end of a cycle are parameters; the HTTP route and the
    thread that repeats the cycle are left out. *)

From S2P Require Import Prelude RustStd StoreCore.
Import Spine.

(** [v as u32] for an [i64]; [a + 1] on [u32] in a release build. *)
Definition i64_as_u32 (v : Z) : N := Z.to_N (v mod 4294967296).
Definition wrapping_add_u32 (a b : N) : N := ((a + b) mod 4294967296)%N.

(* src: crates/bos-app/src/outbox.rs:25-25 JOB_ENTITY_KIND *)
Definition JOB_ENTITY_KIND : string := "outbox_job".
(* src: crates/bos-app/src/outbox.rs:27-27 STATUS_PENDING *)
Definition STATUS_PENDING : string := "pending".
(* src: crates/bos-app/src/outbox.rs:28-28 STATUS_DELIVERED *)
Definition STATUS_DELIVERED : string := "delivered".
(* src: crates/bos-app/src/outbox.rs:29-29 STATUS_FAILED_TERMINAL *)
Definition STATUS_FAILED_TERMINAL : string := "failed_terminal".
(* src: crates/bos-app/src/outbox.rs:30-30 STATUS_DELIVERY_OUTCOME_UNKNOWN *)
Definition STATUS_DELIVERY_OUTCOME_UNKNOWN : string := "delivery_outcome_unknown".
(* src: crates/bos-app/src/outbox.rs:32-33 MAX_ATTEMPTS *)
Definition MAX_ATTEMPTS : N := 8.
(* src: crates/bos-app/src/outbox.rs:512-513 LEASE_MS *)
Definition LEASE_MS : N := 120000.
(* src: crates/bos-app/src/outbox.rs:514-514 CLAIM_BATCH *)
Definition CLAIM_BATCH : N := 5.
(* src: crates/bos-app/src/outbox.rs:251-251 PROVIDER_ERROR_DETAIL_MAX_CHARS *)
Definition PROVIDER_ERROR_DETAIL_MAX_CHARS : nat := 500.

(** ** Rows and requests *)

Module Job.
(* src: crates/bos-app/src/persistence/migrations/0008_outbox_jobs.sql:6-27 outbox_jobs *)
Record t := mk {
  client_id : string;
  job_id : string;
  provider : string;
  capability : string;
  payload_json : string;
  status : string;
  attempts : Z;
  next_attempt_at_ms : Z;
  leased_until_ms : option Z;
  last_error : option string;
  result_json : option string;
  source_entity_kind : string;
  source_entity_id : string;
  correlation_id : option string;
  causation_id : option string;
  idempotency_key : string;
  created_at_ms : Z;
  updated_at_ms : Z;
}.

(** [SET leased_until_ms = ?3, updated_at_ms = ?4]. *)
Definition lease (j : t) (until now : Z) : t :=
  mk (client_id j) (job_id j) (provider j) (capability j) (payload_json j) (status j) (attempts j)
    (next_attempt_at_ms j) (Some until) (last_error j) (result_json j) (source_entity_kind j)
    (source_entity_id j) (correlation_id j) (causation_id j) (idempotency_key j) (created_at_ms j) now.

(** The columns an attempt or an operator's retry sets; the lease is cleared. *)
Definition settle (j : t) (new_status : string) (new_attempts next_at : Z)
    (error result : option string) (now : Z) : t :=
  mk (client_id j) (job_id j) (provider j) (capability j) (payload_json j) new_status new_attempts
    next_at None error result (source_entity_kind j)
    (source_entity_id j) (correlation_id j) (causation_id j) (idempotency_key j) (created_at_ms j) now.
End Job.

Module NewOutboxJob.
(* src: crates/bos-app/src/outbox.rs:35-46 NewOutboxJob *)
Record t := mk {
  job_id : string;
  provider : string;
  capability : string;
  payload_json : string;
  source_entity_kind : string;
  source_entity_id : string;
  correlation_id : option string;
  causation_id : option string;
  idempotency_key : string;
}.
End NewOutboxJob.

(* src: crates/bos-contracts/src/calendar_drafts.rs:74-93 OutboxJobSummary *)
Record OutboxJobSummary := {
  summary_job_id : string;
  summary_status : string;
  summary_attempts : N;
  summary_last_error : option string;
  summary_dry_run : option bool;
  summary_provider_object_id : option string;
}.

Module ClaimedJob.
(* src: crates/bos-app/src/outbox.rs:48-60 ClaimedJob *)
Record t := mk {
  job_id : string;
  provider : string;
  capability : string;
  payload_json : string;
  attempts : N;
  source_entity_kind : string;
  source_entity_id : string;
  correlation_id : option string;
  idempotency_key : string;
}.

(** The row mapping of both claim queries. *)
(* src: crates/bos-app/src/outbox.rs:119-131 claim_due_jobs (row mapping) *)
Definition from_row (j : Job.t) : t := {|
  job_id := Job.job_id j;
  provider := Job.provider j;
  capability := Job.capability j;
  payload_json := Job.payload_json j;
  attempts := i64_as_u32 (Job.attempts j);
  source_entity_kind := Job.source_entity_kind j;
  source_entity_id := Job.source_entity_id j;
  correlation_id := Job.correlation_id j;
  idempotency_key := Job.idempotency_key j;
|}.
End ClaimedJob.

Module AttemptOutcome.
(* src: crates/bos-app/src/outbox.rs:229-249 AttemptOutcome *)
Inductive t :=
| Delivered (result_json : string)
| Retry (error : string) (retry_at_ms : N)
| Terminal (error : string) (result_json : option string)
| OutcomeUnknown (error : string) (result_json : option string).
End AttemptOutcome.

(* src: crates/bos-app/src/outbox.rs:399-401 retry_backoff_ms *)
Definition retry_backoff_ms (attempts : N) : N :=
  N.min (N.shiftl 30000 (N.min attempts 5) mod u64_modulus) 900000.

(** ** The text of a provider's error *)

(** [str::split_whitespace], on bytes; [word] is the current word, reversed. *)
Fixpoint split_words (word l : list ascii) : list (list ascii) :=
  let flush := match word with [] => [] | _ => [reverse word] end in
  match l with
  | [] => flush
  | a :: l1 =>
    if is_ws1 a then flush ++ split_words [] l1 else
    match l1 with
    | [] => split_words (a :: word) l1
    | b :: l2 =>
      if is_ws2 a b then flush ++ split_words [] l2 else
      match l2 with
      | [] => split_words (a :: word) l1
      | c :: l3 =>
        if is_ws3 a b c then flush ++ split_words [] l3 else split_words (a :: word) l1
      end
    end
  end.

(** [join(" ")]. *)
Fixpoint join_words (ws : list (list ascii)) : list ascii :=
  match ws with
  | [] => []
  | [w] => w
  | w :: ws => w ++ " "%char :: join_words ws
  end.

(** A byte that begins a UTF-8 code point; [chars().count()]; [chars().take(n)]. *)
Definition begins_char (a : ascii) : bool :=
  negb ((128 <=? byte_of a) && (byte_of a <=? 191))%N.
Definition chars_count (l : list ascii) : nat := length (filter (fun a => begins_char a) l).
Fixpoint chars_take (n : nat) (l : list ascii) : list ascii :=
  match l with
  | [] => []
  | a :: l =>
    if begins_char a then match n with O => [] | S n => a :: chars_take n l end
    else a :: chars_take n l
  end.

(* src: crates/bos-app/src/outbox.rs:253-271 provider_error_detail *)
Definition provider_error_detail (code message : string) : string :=
  let normalized := join_words (split_words [] (String.list_ascii_of_string message)) in
  match normalized with
  | [] => code
  | _ =>
    let detail := String.list_ascii_of_string code ++ String.list_ascii_of_string ": " ++ normalized in
    String.string_of_list_ascii
      (if bool_decide (PROVIDER_ERROR_DETAIL_MAX_CHARS < chars_count detail)%nat
       then chars_take PROVIDER_ERROR_DETAIL_MAX_CHARS detail ++ String.list_ascii_of_string "..."
       else detail)
  end.

(** ** The table and its operations *)

Record Tables (R : Type) := mk_tables {
  outbox_jobs : gmap (string * string) Job.t;
  others : R;
}.
Arguments mk_tables {R} _ _.
Arguments outbox_jobs {R} _.
Arguments others {R} _.

(** [ORDER BY next_attempt_at_ms ASC, job_id ASC]. *)
Definition due_order (j : Job.t) : Z * string := (Job.next_attempt_at_ms j, Job.job_id j).

(** The conditions both claim queries share. *)
(* src: crates/bos-app/src/outbox.rs:169-171 claim_due_job_by_id (WHERE) *)
Definition claimable (now_ms : N) (j : Job.t) : bool :=
  string_eqb (Job.status j) "pending"
  && (Job.next_attempt_at_ms j <=? u64_as_i64 now_ms)%Z
  && map_or_true (fun until => (until <=? u64_as_i64 now_ms)%Z) (Job.leased_until_ms j).

Module Outbox.
Section outbox.
Context {R : Type}.
Context (constraint_failed : string) (json_text : list (string * JsonValue) → string).

Abbreviation OutboxOp := (Op (Db.t (Tables R)) StoreError.t).

Definition jobs (db : Db.t (Tables R)) : gmap (string * string) Job.t := outbox_jobs (Db.domain db).
Definition set_jobs (db : Db.t (Tables R)) (js : gmap (string * string) Job.t) : Db.t (Tables R) :=
  Db.set_domain db (mk_tables js (others (Db.domain db))).

(** [UPDATE outbox_jobs SET ... WHERE client_id = ?1 AND job_id = ?2]. *)
Definition update_job (client_id job_id : string) (f : Job.t → Job.t) (db : Db.t (Tables R)) : Db.t (Tables R) :=
  set_jobs db (alter f (client_id, job_id) (jobs db)).

(* src: crates/bos-app/src/outbox.rs:65-92 enqueue_within *)
Definition enqueue_within (client_id : string) (job : NewOutboxJob.t) (now_ms : N) : OutboxOp unit :=
  fun db =>
    let job_id := NewOutboxJob.job_id job in
    if decide (is_Some (jobs db !! (client_id, job_id)))
    then (Err (StoreError.Sqlite constraint_failed), db)
    else (Ok tt, set_jobs db (<[(client_id, job_id) := {|
      Job.client_id := client_id;
      Job.job_id := job_id;
      Job.provider := NewOutboxJob.provider job;
      Job.capability := NewOutboxJob.capability job;
      Job.payload_json := NewOutboxJob.payload_json job;
      Job.status := "pending";
      Job.attempts := 0;
      Job.next_attempt_at_ms := u64_as_i64 now_ms;
      Job.leased_until_ms := None;
      Job.last_error := None;
      Job.result_json := None;
      Job.source_entity_kind := NewOutboxJob.source_entity_kind job;
      Job.source_entity_id := NewOutboxJob.source_entity_id job;
      Job.correlation_id := NewOutboxJob.correlation_id job;
      Job.causation_id := NewOutboxJob.causation_id job;
      Job.idempotency_key := NewOutboxJob.idempotency_key job;
      Job.created_at_ms := u64_as_i64 now_ms;
      Job.updated_at_ms := u64_as_i64 now_ms;
    |}]> (jobs db))).

(** The lease a claim sets. *)
Definition lease_job (client_id : string) (lease_ms now_ms : N) (db : Db.t (Tables R)) (job_id : string)
    : Db.t (Tables R) :=
  update_job client_id job_id
    (fun j => Job.lease j (u64_as_i64 (wrapping_add_u64 now_ms lease_ms)) (u64_as_i64 now_ms)) db.

(** The rows [claim_due_jobs] selects. *)
(* src: crates/bos-app/src/outbox.rs:107-117 claim_due_jobs (query) *)
Definition due_jobs (client_id : string) (provider : option string) (limit now_ms : N)
    (db : Db.t (Tables R)) : list Job.t :=
  sql_limit (u64_as_i64 limit)
    (sort_by_key due_order
       (filter (fun j => string_eqb (Job.client_id j) client_id
                         && map_or_true (string_eqb (Job.provider j)) provider
                         && claimable now_ms j) (values (jobs db)))).

(* src: crates/bos-app/src/outbox.rs:97-152 claim_due_jobs *)
Definition claim_due_jobs (client_id : string) (provider : option string) (lease_ms limit now_ms : N)
    : OutboxOp (list ClaimedJob.t) :=
  transaction (fun db =>
    let claimed := ClaimedJob.from_row <$> due_jobs client_id provider limit now_ms db in
    (Ok claimed, foldl (lease_job client_id lease_ms now_ms) db (ClaimedJob.job_id <$> claimed))).

(* src: crates/bos-app/src/outbox.rs:154-200 claim_due_job_by_id *)
Definition claim_due_job_by_id (client_id job_id : string) (lease_ms now_ms : N)
    : OutboxOp (option ClaimedJob.t) :=
  transaction (fun db =>
    match jobs db !! (client_id, job_id) with
    | Some row =>
      if claimable now_ms row then
        let job := ClaimedJob.from_row row in
        (Ok (Some job), lease_job client_id lease_ms now_ms db (ClaimedJob.job_id job))
      else (Ok None, db)
    | None => (Ok None, db)
    end).

(* src: crates/bos-app/src/outbox.rs:202-216 job_result_json *)
Definition job_result_json (client_id job_id : string) : OutboxOp (option string) :=
  fun db =>
    (Ok (j ← jobs db !! (client_id, job_id);
         if string_eqb (Job.status j) "delivered" then Job.result_json j else None), db).

(* src: crates/bos-app/src/outbox.rs:218-227 job_exists *)
Definition job_exists (client_id job_id : string) : OutboxOp bool :=
  fun db => (Ok (bool_decide (is_Some (jobs db !! (client_id, job_id)))), db).

(** ** Read models *)

(** [as u32] of the stored counter; [result_fields] reads [dry_run] and
    [provider_object_id] out of the result's JSON. *)
Definition summary_of_row (result_fields : string → option bool * option string) (j : Job.t) : OutboxJobSummary :=
  let fields := match Job.result_json j with Some raw => result_fields raw | None => (None, None) end in {|
  summary_job_id := Job.job_id j;
  summary_status := Job.status j;
  summary_attempts := Z.to_N (Job.attempts j mod 4294967296)%Z;
  summary_last_error := Job.last_error j;
  summary_dry_run := fields.1;
  summary_provider_object_id := fields.2;
|}.

(* src: crates/bos-app/src/outbox.rs:716-760 job_summary *)
Definition job_summary (result_fields : string → option bool * option string) (client_id job_id : string)
    : OutboxOp (option OutboxJobSummary) :=
  fun db => (Ok (summary_of_row result_fields <$> jobs db !! (client_id, job_id)), db).

(** [ORDER BY created_at_ms DESC, job_id DESC LIMIT ?]; a negative limit is none. *)
(* src: crates/bos-app/src/outbox.rs:762-813 jobs_by_correlation *)
Definition jobs_by_correlation (result_fields : string → option bool * option string) (client_id : string)
    (correlation_ids : list string) (limit : N) : OutboxOp (list OutboxJobSummary) :=
  fun db =>
    let rows := sort_by_key (fun j => MkReverse (Job.created_at_ms j, Job.job_id j))
      (filter (fun j => string_eqb (Job.client_id j) client_id
                        && option_any (fun id => existsb (string_eqb id) correlation_ids) (Job.correlation_id j))
         (values (jobs db))) in
    (Ok (summary_of_row result_fields <$>
         (if (u64_as_i64 limit <? 0)%Z then rows else truncate limit rows)), db).

(** ** Recording an attempt *)

(** What an attempt makes of the job: status, change kind, error, result, next
    attempt. *)
(* src: crates/bos-app/src/outbox.rs:281-329 record_attempt (outcome) *)
Definition attempt_result (attempts : N) (outcome : AttemptOutcome.t)
    : string * string * option string * option string * option N :=
  match outcome with
  | AttemptOutcome.Delivered result_json =>
    (STATUS_DELIVERED, "deliver_succeeded"%string, None, Some result_json, None)
  | AttemptOutcome.Retry error retry_at_ms =>
    if (MAX_ATTEMPTS <=? attempts)%N then
      (STATUS_FAILED_TERMINAL, "deliver_attempts_exhausted"%string, Some error, None, None)
    else
      (STATUS_PENDING, "deliver_retry_scheduled"%string, Some error, None, Some retry_at_ms)
  | AttemptOutcome.Terminal error result_json =>
    (STATUS_FAILED_TERMINAL, "deliver_failed_terminal"%string, Some error, result_json, None)
  | AttemptOutcome.OutcomeUnknown error result_json =>
    (STATUS_DELIVERY_OUTCOME_UNKNOWN, "deliver_outcome_unknown"%string, Some error, result_json, None)
  end.

(** The last operator retry of the job. *)
(* src: crates/bos-app/src/outbox.rs:336-345 record_attempt (retry cycle) *)
Definition retry_cycle (client_id job_id : string) (db : Db.t (Tables R)) : option string :=
  Receipt.receipt_id <$>
    head (sort_by_key newest_first
      (filter (fun r => string_eqb (Receipt.client_id r) client_id
                        && string_eqb (Receipt.entity_kind r) JOB_ENTITY_KIND
                        && string_eqb (Receipt.entity_id r) job_id
                        && string_eqb (Receipt.change_kind r) "retry_requested"
                        && Receipt.is_applied r) (Db.receipts db))).

Definition attempt_key (job_id cycle : string) (attempts : N) : string :=
  "outbox_attempt:" +:+ job_id +:+ ":" +:+ cycle +:+ ":" +:+ fmt_dec attempts.

(** The row write of an attempt. *)
(* src: crates/bos-app/src/outbox.rs:372-391 record_attempt (row write) *)
Definition attempt_write (client_id job_id status : string) (attempts : N)
    (error_detail result_json : option string) (next_attempt_at_ms : option N) (now_ms : N) : OutboxOp unit :=
  fun db => (Ok tt, update_job client_id job_id (fun j =>
    Job.settle j status (Z.of_N attempts)
      (match next_attempt_at_ms with Some v => u64_as_i64 v | None => Job.next_attempt_at_ms j end)
      error_detail
      (match result_json with Some v => Some v | None => Job.result_json j end)
      (u64_as_i64 now_ms)) db).

(** The mutation request of an attempt. *)
(* src: crates/bos-app/src/outbox.rs:330-371 record_attempt (request) *)
Definition attempt_request (client_id : string) (job : ClaimedJob.t) (status change_kind : string)
    (error_detail : option string) (attempts : N) (cycle : option string) (now_ms : N) : MutationRequest.t := {|
  MutationRequest.client_id := client_id;
  MutationRequest.entity_kind := JOB_ENTITY_KIND;
  MutationRequest.entity_id := ClaimedJob.job_id job;
  MutationRequest.change_kind := change_kind;
  MutationRequest.actor_id := "outbox_delivery_worker";
  MutationRequest.actor_kind := System;
  MutationRequest.expected_revision := None;
  MutationRequest.idempotency_key :=
    attempt_key (ClaimedJob.job_id job) (default "initial"%string cycle) attempts;
  MutationRequest.correlation_id := ClaimedJob.correlation_id job;
  MutationRequest.causation_id := None;
  MutationRequest.before_json := None;
  MutationRequest.after_json := Some (json_text
    [("status"%string, JString status); ("attempts"%string, JNumber attempts);
     ("error"%string, match error_detail with Some e => JString e | None => JNull end)]);
  MutationRequest.now_ms := now_ms;
|}.

(* src: crates/bos-app/src/outbox.rs:275-395 record_attempt *)
Definition record_attempt (client_id : string) (job : ClaimedJob.t) (outcome : AttemptOutcome.t)
    (now_ms : N) : OutboxOp string :=
  fun db =>
    let attempts := wrapping_add_u32 (ClaimedJob.attempts job) 1 in
    let '(status, change_kind, error_detail, result_json, next_attempt_at_ms) :=
      attempt_result attempts outcome in
    let cycle := retry_cycle client_id (ClaimedJob.job_id job) db in
    (let? _ := mutate constraint_failed
       (attempt_request client_id job status change_kind error_detail attempts cycle now_ms)
       (attempt_write client_id (ClaimedJob.job_id job) status attempts error_detail result_json
          next_attempt_at_ms now_ms) in
     op_ret status) db.

(** ** The operator's retry *)

(** The row write of a retry: only a terminally failed job is reset. *)
(* src: crates/bos-app/src/outbox.rs:452-474 retry_terminal_job (row write) *)
Definition retry_write (client_id job_id : string) (now_ms : N) : OutboxOp unit :=
  fun db =>
    match jobs db !! (client_id, job_id) with
    | Some j =>
      if string_eqb (Job.status j) "failed_terminal" then
        (Ok tt, update_job client_id job_id (fun j =>
           Job.settle j "pending" 0 (u64_as_i64 now_ms) None None (u64_as_i64 now_ms)) db)
      else (Err (StoreError.Domain ("outbox_retry_not_failed:" +:+ Job.status j)), db)
    | None => (Err (StoreError.Domain "outbox_job_not_found"), db)
    end.

(* src: crates/bos-app/src/outbox.rs:406-475 retry_terminal_job *)
Definition retry_terminal_job (client_id job_id actor_id idempotency_key : string) (now_ms : N)
    : OutboxOp MutationOutcome.t :=
  fun db =>
    let before_json := (fun j => json_text
      [("status"%string, JString (Job.status j));
       ("attempts"%string, JNumber (i64_as_u32 (Job.attempts j)))]) <$> jobs db !! (client_id, job_id) in
    mutate constraint_failed {|
      MutationRequest.client_id := client_id;
      MutationRequest.entity_kind := JOB_ENTITY_KIND;
      MutationRequest.entity_id := job_id;
      MutationRequest.change_kind := "retry_requested";
      MutationRequest.actor_id := actor_id;
      MutationRequest.actor_kind := Operator;
      MutationRequest.expected_revision := None;
      MutationRequest.idempotency_key := idempotency_key;
      MutationRequest.correlation_id := Some job_id;
      MutationRequest.causation_id := None;
      MutationRequest.before_json := before_json;
      MutationRequest.after_json := Some (json_text
        [("status"%string, JString STATUS_PENDING); ("attempts"%string, JNumber 0)]);
      MutationRequest.now_ms := now_ms;
    |} (retry_write client_id job_id now_ms) db.

(** ** The delivery cycle *)

(** [dispatch] has the slices' executors and the providers behind it: it may read
    and write the database.  [clock n] is the cycle's n-th reading of the clock. *)
Section cycle.
Context (dispatch : ClaimedJob.t → N → Db.t (Tables R) → AttemptOutcome.t * Db.t (Tables R)).
Context (reconcile : N → Db.t (Tables R) → Db.t (Tables R)).
Context (clock : nat → N).

(** One round of the loop over the claimed jobs: deliver, then record. *)
(* src: crates/bos-app/src/outbox.rs:595-616 run_delivery_cycle (loop) *)
Fixpoint deliver_claimed (client_id : string) (claimed : list ClaimedJob.t) (tick : nat)
    (db : Db.t (Tables R)) : nat * Db.t (Tables R) :=
  match claimed with
  | [] => (tick, db)
  | job :: claimed =>
    let '(outcome, db1) := dispatch job (clock tick) db in
    let '(_, db2) := record_attempt client_id job outcome (clock (S tick)) db1 in
    deliver_claimed client_id claimed (S (S tick)) db2
  end.

(* src: crates/bos-app/src/outbox.rs:575-629 run_delivery_cycle *)
Definition run_delivery_cycle (client_id : string) (db : Db.t (Tables R)) : Db.t (Tables R) :=
  match claim_due_jobs client_id None LEASE_MS CLAIM_BATCH (clock 0) db with
  | (Ok claimed, db1) =>
    let '(tick, db2) := deliver_claimed client_id claimed 1 db1 in
    reconcile (clock tick) db2
  | (Err _, db1) => db1
  end.
End cycle.
End outbox.
End Outbox.

Example backoff_curve :
  map retry_backoff_ms [0; 1; 2; 3; 4; 5; 6; 4294967295]%N
  = [30000; 60000; 120000; 240000; 480000; 900000; 900000; 900000]%N.
Proof. reflexivity. Qed.

Example detail_normalizes :
  provider_error_detail "code" ("  bad" +:+ String (ascii_of_nat 10) "   request ") = "code: bad request".
Proof. reflexivity. Qed.

Example detail_blank : provider_error_detail "code" "   " = "code".
Proof. reflexivity. Qed.

(** ** The retry curve and the error text *)

(** the retry curve is 30 seconds doubled per attempt and capped at 15 minutes,
    for every count of attempts: the bounded shift never overflows and loses
    nothing. *)
Theorem retry_backoff_is_capped_doubling n :
  retry_backoff_ms n = N.min (30000 * 2 ^ n) 900000.
Proof.
  unfold retry_backoff_ms. rewrite N.shiftl_mul_pow2.
  destruct (N.le_gt_cases n 5) as [Hn|Hn].
  - rewrite (N.min_l n 5) by lia. assert (2 ^ n ≤ 2 ^ 5)%N by (apply N.pow_le_mono_r; lia).
    change (2 ^ 5)%N with 32%N in *. rewrite N.mod_small; [reflexivity|]. unfold u64_modulus. lia.
  - rewrite (N.min_r n 5) by lia. assert (2 ^ 5 ≤ 2 ^ n)%N by (apply N.pow_le_mono_r; lia).
    change (30000 * 2 ^ 5 mod u64_modulus)%N with 960000%N. change (2 ^ 5)%N with 32%N in *. lia.
Qed.

Lemma chars_count_app l1 l2 : chars_count (l1 ++ l2) = (chars_count l1 + chars_count l2)%nat.
Proof. unfold chars_count. by rewrite filter_app, length_app. Qed.

Lemma chars_count_cons a l : chars_count (a :: l) = ((if begins_char a then 1 else 0) + chars_count l)%nat.
Proof. unfold chars_count. rewrite filter_cons. by destruct (begins_char a). Qed.

Lemma chars_take_count n l : (chars_count (chars_take n l) ≤ n)%nat.
Proof.
  revert n. induction l as [|a l IH]; intros n; simpl; [unfold chars_count; simpl; lia|].
  destruct (begins_char a) eqn:Ha; [destruct n as [|n]; [unfold chars_count; simpl; lia|]|];
    rewrite chars_count_cons, Ha; [specialize (IH n); lia|apply IH].
Qed.

(** A provider's error text is bounded: it is the code alone, or at most 503
    characters, however long the provider's message. *)
Theorem provider_error_detail_bounded code message :
  provider_error_detail code message = code ∨
  (chars_count (String.list_ascii_of_string (provider_error_detail code message)) ≤ 503)%nat.
Proof.
  unfold provider_error_detail. destruct (join_words _) as [|a l]; [by left|right].
  set (detail := _ ++ _ ++ _). rewrite String.list_ascii_of_string_of_list_ascii.
  unfold PROVIDER_ERROR_DETAIL_MAX_CHARS in *. case_bool_decide as Hlen; [|lia].
  rewrite chars_count_app. pose proof (chars_take_count 500 detail).
  change (chars_count (String.list_ascii_of_string "...")) with 3%nat. lia.
Qed.
