(* ===== verification/AppOutboxProps.v ===== *)
(** * What the provider outbox guarantees

    The outbox as a state machine: slices' mutations, claims, recorded attempts
    and operator retries in any order.  A pending job has attempts left; a claim
    takes the earliest due jobs and keeps others off them until its lease ends;
    an attempt is recorded once; a job that is no longer pending stays as it is
    until an operator asks for a retry.  Two flaws of [record_attempt] come out:
    it checks neither the lease nor the job's status. *)

From S2P Require Import Prelude RustStd StoreCore StoreCoreProps AppOutbox.
Import Spine Outbox.

(** ** Calls *)

Section machine.
Context {R : Type} (constraint_failed : string) (json_text : list (string * JsonValue) → string).
Implicit Types (db : Db.t (Tables R)) (j : Job.t) (job : ClaimedJob.t).

Abbreviation Write := (Op (Db.t (Tables R)) StoreError.t unit).

Inductive OutboxCall :=
| CMutate (request : MutationRequest.t) (write : Write)
| CClaim (client_id : string) (provider : option string) (lease_ms limit now_ms : N)
| CClaimById (client_id job_id : string) (lease_ms now_ms : N)
| CRecord (client_id : string) (job : ClaimedJob.t) (outcome : AttemptOutcome.t) (now_ms : N)
| CRetry (client_id job_id actor_id idempotency_key : string) (now_ms : N).

(** The database, and every claim ever handed to a worker of a client. *)
Record World := mk_world { world_db : Db.t (Tables R); issued : list (string * ClaimedJob.t) }.

Definition run_call (w : World) (call : OutboxCall) : World :=
  let db := world_db w in
  match call with
  | CMutate request write => mk_world (mutate constraint_failed request write db).2 (issued w)
  | CClaim c provider lease_ms limit now_ms =>
    match claim_due_jobs c provider lease_ms limit now_ms db with
    | (Ok claimed, db') => mk_world db' (((fun job => (c, job)) <$> claimed) ++ issued w)
    | (Err _, db') => mk_world db' (issued w)
    end
  | CClaimById c job_id lease_ms now_ms =>
    match claim_due_job_by_id c job_id lease_ms now_ms db with
    | (Ok (Some job), db') => mk_world db' ((c, job) :: issued w)
    | (_, db') => mk_world db' (issued w)
    end
  | CRecord c job outcome now_ms =>
    mk_world (record_attempt constraint_failed json_text c job outcome now_ms db).2 (issued w)
  | CRetry c job_id actor_id key now_ms =>
    mk_world (retry_terminal_job constraint_failed json_text c job_id actor_id key now_ms db).2 (issued w)
  end.

(** What [enqueue_within] inserts. *)
Definition fresh_job (k : string * string) (j : Job.t) : Prop :=
  Job.client_id j = k.1 ∧ Job.job_id j = k.2 ∧ Job.status j = STATUS_PENDING ∧ Job.attempts j = 0%Z ∧
  Job.leased_until_ms j = None.

(** A slice's write touches receipts in their payloads at most, and changes the
    table of jobs by enqueueing only. *)
Definition enqueues_only (write : Write) : Prop :=
  ∀ db db', write db = (Ok tt, db') →
    same_receipts (Db.receipts db') (Db.receipts db) ∧
    ∀ k, match jobs db !! k with
         | Some j => jobs db' !! k = Some j
         | None => ∀ j, jobs db' !! k = Some j → fresh_job k j
         end.

(** Workers record claims they were handed, once or more often, early or late. *)
Definition allowed (w : World) (call : OutboxCall) : Prop :=
  match call with
  | CMutate _ write => enqueues_only write
  | CRecord c job _ _ => (c, job) ∈ issued w
  | _ => True
  end.

Inductive step (w : World) : OutboxCall → World → Prop :=
| step_call call : allowed w call → step w call (run_call w call).

Inductive steps (w : World) : list OutboxCall → World → Prop :=
| steps_nil : steps w [] w
| steps_snoc calls w1 call w2 : steps w calls w1 → step w1 call w2 → steps w (calls ++ [call]) w2.

Definition world_new (others : R) : World := mk_world (spine_new (mk_tables ∅ others)) [].

Definition reachable (w : World) : Prop := ∃ others calls, steps (world_new others) calls w.

Lemma enqueue_within_enqueues c new now_ms : enqueues_only (enqueue_within constraint_failed c new now_ms).
Proof.
  intros db db'. unfold enqueue_within. case_decide as Hn; [done|]. intros [= <-]. split; [done|].
  intros k. unfold set_jobs, jobs. simpl. rewrite lookup_insert. case_decide as Hk.
  - subst k. destruct (outbox_jobs (Db.domain db) !! _) eqn:Hj; [destruct Hn; unfold jobs; by rewrite Hj|].
    intros j [= <-]. by repeat split.
  - case_match; [done|]. by intros ? [=].
Qed.

(** ** Receipts grow *)

Definition receipts_grow db db' : Prop :=
  ∃ rows, same_receipts (Db.receipts db') (Db.receipts db ++ rows).

Definition key_used db (client key : string) : Prop :=
  ∃ r, r ∈ Db.receipts db ∧ applied_with_key client key r = true.

Definition is_retry (c id : string) (r : Receipt.t) : bool :=
  string_eqb (Receipt.client_id r) c && string_eqb (Receipt.entity_kind r) JOB_ENTITY_KIND
  && string_eqb (Receipt.entity_id r) id && string_eqb (Receipt.change_kind r) "retry_requested"
  && Receipt.is_applied r.

(** No operator asked for the job again. *)
Definition never_retried db (c id : string) : Prop := ∀ r, r ∈ Db.receipts db → is_retry c id r = false.

Lemma receipts_grow_refl db : receipts_grow db db.
Proof. exists []. by rewrite app_nil_r. Qed.

Lemma receipts_grow_trans db1 db2 db3 : receipts_grow db1 db2 → receipts_grow db2 db3 → receipts_grow db1 db3.
Proof.
  intros [r1 H1] [r2 H2]. exists (r1 ++ r2). unfold same_receipts in *.
  by rewrite H2, fmap_app, H1, <- fmap_app, app_assoc.
Qed.

Lemma grow_lookup db db' r :
  receipts_grow db db' → r ∈ Db.receipts db →
  ∃ r', r' ∈ Db.receipts db' ∧ Receipt.strip r' = Receipt.strip r.
Proof.
  intros [rows Hs] [n Hn]%list_elem_of_lookup.
  assert (Hn' : (Db.receipts db ++ rows) !! n = Some r) by by apply lookup_app_l_Some.
  destruct (same_receipts_lookup _ _ n r (eq_sym Hs) Hn') as (r' & Hr' & Heq).
  exists r'. split; [by eapply list_elem_of_lookup_2|done].
Qed.

Lemma applied_with_key_strip client key r r' :
  Receipt.strip r = Receipt.strip r' → applied_with_key client key r = applied_with_key client key r'.
Proof. intros (_ & H1 & H2 & H3 & _)%strip_fields. unfold applied_with_key. by rewrite H1, H2, H3. Qed.

Lemma is_retry_strip c id r r' : Receipt.strip r = Receipt.strip r' → is_retry c id r = is_retry c id r'.
Proof. destruct r, r'. unfold Receipt.strip, is_retry, Receipt.is_applied. simpl. intros [=]. by subst. Qed.

Lemma key_used_grow db db' client key : receipts_grow db db' → key_used db client key → key_used db' client key.
Proof.
  intros Hg (r & Hin & Ha). destruct (grow_lookup _ _ r Hg Hin) as (r' & Hin' & Heq).
  exists r'. by rewrite (applied_with_key_strip _ _ _ _ Heq).
Qed.

Lemma never_retried_grow db db' c id : receipts_grow db db' → never_retried db' c id → never_retried db c id.
Proof.
  intros Hg Hn r Hin. destruct (grow_lookup _ _ r Hg Hin) as (r' & Hin' & Heq).
  rewrite <- (is_retry_strip _ _ _ _ Heq). by apply Hn.
Qed.

Lemma retry_cycle_eq db c id :
  retry_cycle c id db =
    Receipt.receipt_id <$> head (sort_by_key newest_first (filter (fun r => is_retry c id r) (Db.receipts db))).
Proof. reflexivity. Qed.

Lemma retry_cycle_none db c id : never_retried db c id ↔ retry_cycle c id db = None.
Proof.
  rewrite retry_cycle_eq. split.
  - intros Hn. destruct (head _) as [r|] eqn:Hh; [|done].
    apply head_Some_elem_of, elem_of_sort_by_key, list_elem_of_filter in Hh as [Hr%Is_true_true Hin].
    by rewrite (Hn r Hin) in Hr.
  - intros Hh r Hin. apply not_true_iff_false. intros Ha%Is_true_true.
    assert (Hr : r ∈ sort_by_key newest_first (filter (fun r => is_retry c id r) (Db.receipts db)))
      by by apply elem_of_sort_by_key, list_elem_of_filter.
    destruct (sort_by_key _ _); [by apply elem_of_nil in Hr|done].
Qed.

Lemma key_free_or_used db client key : key_free db client key ∨ key_used db client key.
Proof.
  destruct (List.find (applied_with_key client key) (Db.receipts db)) as [r|] eqn:Hf.
  - right. apply List.find_some in Hf as [Hin Ha]. exists r. by rewrite list_elem_of_In.
  - left. intros r Hin%list_elem_of_In. by apply (List.find_none _ _ Hf).
Qed.

Lemma key_used_not_free db client key : key_used db client key → ¬ key_free db client key.
Proof. intros (r & Hin & Ha) Hf. by rewrite Hf in Ha. Qed.
(** ** One mutation of the outbox *)

Abbreviation mutate := (Spine.mutate (D:=Tables R) constraint_failed).

(** What a mutation without an expected revision does, as far as the outbox sees. *)
Inductive within (request : MutationRequest.t) (write : Write) db :
    Result StoreError.t MutationOutcome.t * Db.t (Tables R) → Prop :=
| within_replayed db' id revision :
    key_used db (MutationRequest.client_id request) (MutationRequest.idempotency_key request) →
    Db.domain db' = Db.domain db →
    within request write db (Ok (MutationOutcome.ReplayedIdempotent id revision), db')
| within_applied db1 db' id revision before :
    key_free db (MutationRequest.client_id request) (MutationRequest.idempotency_key request) →
    write db = (Ok tt, db1) → Db.domain db' = Db.domain db1 →
    receipt_row request Applied None before (Some revision) id ∈ Db.receipts db' →
    within request write db (Ok (MutationOutcome.Applied id revision), db')
| within_failed err db1 db' :
    key_free db (MutationRequest.client_id request) (MutationRequest.idempotency_key request) →
    write db = (Err err, db1) → Db.domain db' = Db.domain db →
    within request write db (Err err, db').

Definition write_spares (write : Write) : Prop := spares_receipts (fun _ => write).

Lemma mutate_grows request write db :
  spine_wf db → write_spares write →
  spine_wf (mutate request write db).2 ∧ receipts_grow db (mutate request write db).2.
Proof.
  intros Hwf Hs. destruct (mutate_cases constraint_failed request (fun _ => write) db Hwf Hs) as [Hm Hwf'].
  split; [done|].
  destruct (mutated_audits (Mutation request (fun _ => write)) db _ Hs Hm) as (row & _ & Hsame).
  by exists [row].
Qed.

Lemma mutate_within request write db :
  spine_wf db → write_spares write → MutationRequest.expected_revision request = None →
  within request write db (mutate request write db).
Proof.
  intros Hwf Hs He. destruct (mutate_cases constraint_failed request (fun _ => write) db Hwf Hs) as [Hm _].
  unfold Spine.mutate, mutate_with_receipt_id. inversion Hm as [r Hin Ha rev|Hf Hexp rev|db1 Hf _ Hw rev|err db1 Hf _ Hw rev].
  - apply within_replayed; [by exists r|done].
  - destruct Hexp. intros e. by rewrite He.
  - eapply within_applied; [done|exact Hw|done|]. apply elem_of_app. right. by left.
  - by eapply within_failed.
Qed.

(** ** One row *)

Lemma jobs_domain db db' : Db.domain db' = Db.domain db → jobs db' = jobs db.
Proof. unfold jobs. by intros ->. Qed.

Lemma jobs_set db js : jobs (set_jobs db js) = js.
Proof. done. Qed.

Lemma update_job_lookup db c id f k :
  jobs (update_job c id f db) !! k = (if decide (k = (c, id)) then f <$> jobs db !! k else jobs db !! k).
Proof.
  unfold update_job. rewrite jobs_set. case_decide as Hk; [subst k; apply lookup_alter_eq|].
  by apply lookup_alter_ne.
Qed.

Lemma attempt_write_spares c id st n e r nx t : write_spares (attempt_write (R:=R) c id st n e r nx t).
Proof. by intros ? ? ? [= <-]. Qed.

Lemma retry_write_spares c id t : write_spares (retry_write (R:=R) c id t).
Proof. intros ? db db'. unfold retry_write. repeat case_match; try done. by intros [= <-]. Qed.

(** The row an attempt leaves. *)
Definition attempted (attempts : N) (outcome : AttemptOutcome.t) (now_ms : N) (j : Job.t) : Job.t :=
  let '(status, _, error_detail, result_json, next_attempt_at_ms) := attempt_result attempts outcome in
  Job.settle j status (Z.of_N attempts)
    (match next_attempt_at_ms with Some v => u64_as_i64 v | None => Job.next_attempt_at_ms j end)
    error_detail (match result_json with Some v => Some v | None => Job.result_json j end) (u64_as_i64 now_ms).

Definition attempt_status (attempts : N) (outcome : AttemptOutcome.t) : string :=
  (attempt_result attempts outcome).1.1.1.1.

(** The key an attempt is recorded under. *)
Definition report_key db (c : string) (job : ClaimedJob.t) : string :=
  attempt_key (ClaimedJob.job_id job) (default "initial"%string (retry_cycle c (ClaimedJob.job_id job) db))
    (wrapping_add_u32 (ClaimedJob.attempts job) 1).

Lemma record_attempt_cases c job outcome now_ms db :
  spine_wf db →
  let attempts := wrapping_add_u32 (ClaimedJob.attempts job) 1 in
  ∃ db', record_attempt constraint_failed json_text c job outcome now_ms db
      = (Ok (attempt_status attempts outcome), db') ∧
    spine_wf db' ∧ receipts_grow db db' ∧ key_used db' c (report_key db c job) ∧
    (key_used db c (report_key db c job) → jobs db' = jobs db) ∧
    (key_free db c (report_key db c job) → ∀ k, jobs db' !! k =
       if decide (k = (c, ClaimedJob.job_id job)) then attempted attempts outcome now_ms <$> jobs db !! k
       else jobs db !! k).
Proof.
  intros Hwf attempts. unfold record_attempt, attempt_status, attempted. fold attempts.
  destruct (attempt_result attempts outcome) as [[[[st ck] err] res] nx] eqn:Hres. simpl.
  unfold op_bind. set (request := attempt_request _ _ _ _ _ _ _ _ _). set (write := attempt_write _ _ _ _ _ _ _ _).
  assert (Hs : write_spares write) by apply attempt_write_spares.
  destruct (mutate_grows request write db Hwf Hs) as [Hwf' Hg].
  pose proof (mutate_within request write db Hwf Hs eq_refl) as Hm.
  change (key_used db c (report_key db c job)) with
    (key_used db (MutationRequest.client_id request) (MutationRequest.idempotency_key request)).
  change (key_free db c (report_key db c job)) with
    (key_free db (MutationRequest.client_id request) (MutationRequest.idempotency_key request)).
  inversion Hm as [db' id rev Hu Hd Heq|db1 db' id rev bf Hf Hw Hd Hin Heq|err' db1 db' Hf Hw Hd Heq]; rewrite <- Heq in *; simpl in *.
  - exists db'. split_and!; [done|done|done|by eapply key_used_grow|intros _; by apply jobs_domain|].
    intros Hf. by destruct (key_used_not_free _ _ _ Hu).
  - exists db'. split_and!; [done|done|done| |intros Hu; by destruct (key_used_not_free _ _ _ Hu)|].
    + eexists. split; [exact Hin|]. by apply applied_with_key_true.
    + intros _ k. rewrite (jobs_domain _ _ Hd). injection Hw as <-. apply update_job_lookup.
  - done.
Qed.
(** The row an operator's retry leaves. *)
Definition retried (now_ms : N) (j : Job.t) : Job.t :=
  Job.settle j STATUS_PENDING 0 (u64_as_i64 now_ms) None None (u64_as_i64 now_ms).

(** The operator's retry: a used key replays; otherwise a terminally failed job is
    reset, and any other answers with its own error and stays. *)
Inductive retry_spec (c id key : string) (now_ms : N) db :
    Result StoreError.t MutationOutcome.t * Db.t (Tables R) → Prop :=
| retry_replayed receipt_id revision db' :
    key_used db c key → jobs db' = jobs db →
    retry_spec c id key now_ms db (Ok (MutationOutcome.ReplayedIdempotent receipt_id revision), db')
| retry_reset j receipt_id revision db' :
    key_free db c key → jobs db !! (c, id) = Some j → Job.status j = STATUS_FAILED_TERMINAL →
    jobs db' = <[(c, id) := retried now_ms j]> (jobs db) →
    ¬ never_retried db' c id →
    retry_spec c id key now_ms db (Ok (MutationOutcome.Applied receipt_id revision), db')
| retry_refused j db' :
    key_free db c key → jobs db !! (c, id) = Some j → Job.status j ≠ STATUS_FAILED_TERMINAL →
    jobs db' = jobs db →
    retry_spec c id key now_ms db
      (Err (StoreError.Domain ("outbox_retry_not_failed:" +:+ Job.status j)), db')
| retry_unknown db' :
    key_free db c key → jobs db !! (c, id) = None → jobs db' = jobs db →
    retry_spec c id key now_ms db (Err (StoreError.Domain "outbox_job_not_found"), db').

Lemma retry_terminal_job_cases c id actor key now_ms db :
  spine_wf db →
  let out := retry_terminal_job constraint_failed json_text c id actor key now_ms db in
  spine_wf out.2 ∧ receipts_grow db out.2 ∧ retry_spec c id key now_ms db out.
Proof.
  intros Hwf. unfold retry_terminal_job. set (request := MutationRequest.mk _ _ _ _ _ _ _ _ _ _ _ _ _).
  set (write := retry_write _ _ _). cbv zeta. assert (Hs : write_spares write) by apply retry_write_spares.
  destruct (mutate_grows request write db Hwf Hs) as [Hwf' Hg]. split_and!; [done|done|].
  pose proof (mutate_within request write db Hwf Hs eq_refl) as Hm.
  inversion Hm as [db' rid rev Hu Hd Heq|db1 db' rid rev bf Hf Hw Hd Hin Heq|err' db1 db' Hf Hw Hd Heq];
    clear Hm; rewrite <- Heq in *; simpl in *.
  - apply retry_replayed; [done|by apply jobs_domain].
  - unfold write, retry_write in Hw. destruct (jobs db !! (c, id)) as [j|] eqn:Hj; [|done].
    destruct (string_eqb _ _) eqn:Hst; [|done]. apply string_eqb_true in Hst. injection Hw as <-.
    eapply retry_reset; [done|exact Hj|done| |].
    + rewrite (jobs_domain _ _ Hd). apply map_eq. intros k. rewrite update_job_lookup, lookup_insert.
      case_decide as Hk; [subst k; rewrite Hj; by rewrite decide_True|].
      rewrite decide_False; [done|]. by intros <-.
    + intros Hn. specialize (Hn _ Hin). unfold is_retry in Hn. simpl in Hn.
      by rewrite !string_eqb_refl in Hn.
  - unfold write, retry_write in Hw. destruct (jobs db !! (c, id)) as [j|] eqn:Hj.
    + destruct (string_eqb _ _) eqn:Hst; [done|]. injection Hw as <- <-.
      eapply retry_refused; [done|exact Hj| |by apply jobs_domain].
      apply not_true_iff_false in Hst. intros Hc. by apply Hst, string_eqb_true.
    + injection Hw as <- <-. apply retry_unknown; [done|done|by apply jobs_domain].
Qed.

(** ** Claims *)

Definition leased_row (lease_ms now_ms : N) (j : Job.t) : Job.t :=
  Job.lease j (u64_as_i64 (wrapping_add_u64 now_ms lease_ms)) (u64_as_i64 now_ms).

(** Every row knows its key. *)
Definition jobs_keyed db : Prop := ∀ k j, jobs db !! k = Some j → Job.client_id j = k.1 ∧ Job.job_id j = k.2.

Lemma lease_jobs_lookup c lease_ms now_ms ids db k :
  NoDup ids →
  jobs (foldl (lease_job c lease_ms now_ms) db ids) !! k =
    if bool_decide (k.1 = c ∧ k.2 ∈ ids) then leased_row lease_ms now_ms <$> jobs db !! k else jobs db !! k.
Proof.
  revert db. induction ids as [|id ids IH]; intros db Hnd; simpl.
  { rewrite bool_decide_eq_false_2; [done|]. by intros [_ ?%elem_of_nil]. }
  apply NoDup_cons in Hnd as [Hid Hnd]. rewrite (IH _ Hnd).
  unfold lease_job. rewrite update_job_lookup. destruct k as [c' id']. simpl.
  destruct (decide ((c', id') = (c, id))) as [[= -> ->]|Hne].
  - rewrite bool_decide_eq_false_2 by by intros [_ ?].
    rewrite bool_decide_eq_true_2; [done|]. split; [done|by left].
  - rewrite (bool_decide_ext (c' = c ∧ id' ∈ id :: ids) (c' = c ∧ id' ∈ ids)); [done|].
    rewrite elem_of_cons. split; [|tauto]. intros [-> [->|?]]; [by destruct Hne|tauto].
Qed.

(** The conditions of the claim query. *)
Definition due_for (c : string) (provider : option string) (now_ms : N) (j : Job.t) : bool :=
  string_eqb (Job.client_id j) c && map_or_true (string_eqb (Job.provider j)) provider && claimable now_ms j.

Lemma due_jobs_eq c provider limit now_ms db :
  due_jobs c provider limit now_ms db =
    sql_limit (u64_as_i64 limit)
      (sort_by_key due_order (filter (fun j => due_for c provider now_ms j) (values (jobs db)))).
Proof. reflexivity. Qed.

Lemma elem_of_due_jobs c provider limit now_ms db j :
  j ∈ due_jobs c provider limit now_ms db →
  due_for c provider now_ms j = true ∧ ∃ k, jobs db !! k = Some j.
Proof.
  rewrite due_jobs_eq. intros Hj. eapply elem_of_sublist in Hj; [|apply sql_limit_sublist].
  apply elem_of_sort_by_key, list_elem_of_filter in Hj as [Hd%Is_true_true Hj].
  by apply elem_of_values in Hj.
Qed.

Lemma due_jobs_NoDup c provider limit now_ms db :
  jobs_keyed db → NoDup (Job.job_id <$> due_jobs c provider limit now_ms db).
Proof.
  intros Hk. rewrite due_jobs_eq.
  eapply sublist_NoDup; [|apply fmap_sublist, sql_limit_sublist].
  rewrite sort_by_key_perm. apply NoDup_fmap_2_strong.
  - intros j j' [Hj%Is_true_true Hin]%list_elem_of_filter [Hj'%Is_true_true Hin']%list_elem_of_filter Heq.
    unfold due_for in Hj, Hj'. rewrite !andb_true_iff, !string_eqb_true in Hj, Hj'.
    apply elem_of_values in Hin as [k Hin]. apply elem_of_values in Hin' as [k' Hin'].
    destruct (Hk _ _ Hin) as [H1 H2]. destruct (Hk _ _ Hin') as [H1' H2'].
    assert (k = k') as ->; [|congruence]. destruct k, k'. simpl in *.
    destruct Hj as [[Hc _] _], Hj' as [[Hc' _] _]. congruence.
  - apply NoDup_filter, (NoDup_fmap_1 (fun j => (Job.client_id j, Job.job_id j))), values_keyed_NoDup.
    intros k j Hj. destruct (Hk _ _ Hj) as [H1 H2]. rewrite H1, H2. by destruct k.
Qed.
Lemma lease_jobs_spine c lease_ms now_ms ids db :
  let db' := foldl (lease_job c lease_ms now_ms) db ids in
  Db.receipts db' = Db.receipts db ∧ Db.revisions db' = Db.revisions db ∧
  others (Db.domain db') = others (Db.domain db).
Proof.
  revert db. induction ids as [|id ids IH]; intros db; [done|]. cbn [foldl].
  destruct (IH (lease_job c lease_ms now_ms db id)) as (H1 & H2 & H3). by rewrite H1, H2, H3.
Qed.

Lemma from_row_ids (rows : list Job.t) : ClaimedJob.job_id <$> (ClaimedJob.from_row <$> rows) = Job.job_id <$> rows.
Proof. by rewrite <- list_fmap_compose. Qed.

Lemma claim_due_jobs_cases c provider lease_ms limit now_ms db :
  jobs_keyed db →
  let rows := due_jobs c provider limit now_ms db in
  ∃ db', claim_due_jobs c provider lease_ms limit now_ms db = (Ok (ClaimedJob.from_row <$> rows), db') ∧
    (Db.receipts db' = Db.receipts db ∧ Db.revisions db' = Db.revisions db ∧
     others (Db.domain db') = others (Db.domain db)) ∧
    ∀ k, jobs db' !! k = if bool_decide (k.1 = c ∧ k.2 ∈ Job.job_id <$> rows)
                         then leased_row lease_ms now_ms <$> jobs db !! k else jobs db !! k.
Proof.
  intros Hk rows. eexists. split; [reflexivity|]. fold rows. rewrite from_row_ids. split; [apply lease_jobs_spine|].
  intros k. by apply lease_jobs_lookup, due_jobs_NoDup.
Qed.

(** ** What a call does to one job *)

(** The clock of a claim. *)
Definition claims_at (call : OutboxCall) : option N :=
  match call with CClaim _ _ _ _ now_ms | CClaimById _ _ _ now_ms => Some now_ms | _ => None end.

Inductive row_change (w w' : World) (k : string * string) : OutboxCall → option Job.t → option Job.t → Prop :=
| row_same call row : row_change w w' k call row row
| row_new call j : fresh_job k j → row_change w w' k call None (Some j)
| row_leased call j lease_ms now_ms :
    claims_at call = Some now_ms → claimable now_ms j = true →
    row_change w w' k call (Some j) (Some (leased_row lease_ms now_ms j))
| row_attempted job outcome now_ms j :
    (k.1, job) ∈ issued w → ClaimedJob.job_id job = k.2 →
    key_free (world_db w) k.1 (report_key (world_db w) k.1 job) →
    key_used (world_db w') k.1 (report_key (world_db w) k.1 job) →
    row_change w w' k (CRecord k.1 job outcome now_ms) (Some j)
      (Some (attempted (wrapping_add_u32 (ClaimedJob.attempts job) 1) outcome now_ms j))
| row_retried actor key now_ms j :
    Job.status j = STATUS_FAILED_TERMINAL → ¬ never_retried (world_db w') k.1 k.2 →
    row_change w w' k (CRetry k.1 k.2 actor key now_ms) (Some j) (Some (retried now_ms j)).

(** A claim handed out by the call: of a row that was claimable then. *)
Definition newly_issued (w : World) (call : OutboxCall) (c : string) (job : ClaimedJob.t) : Prop :=
  ∃ j now_ms, jobs (world_db w) !! (c, ClaimedJob.job_id job) = Some j ∧ claims_at call = Some now_ms ∧
    claimable now_ms j = true ∧ job = ClaimedJob.from_row j.

Record call_effect (w : World) (call : OutboxCall) (w' : World) : Prop := {
  effect_wf : spine_wf (world_db w');
  effect_grow : receipts_grow (world_db w) (world_db w');
  effect_rows : ∀ k, row_change w w' k call (jobs (world_db w) !! k) (jobs (world_db w') !! k);
  effect_issued : ∃ new, issued w' = new ++ issued w ∧
    ∀ c job, (c, job) ∈ new → newly_issued w call c job;
}.

Lemma same_receipts_grow db db' : Db.receipts db' = Db.receipts db → receipts_grow db db'.
Proof. intros Hr. exists []. unfold same_receipts. by rewrite Hr, app_nil_r. Qed.

Lemma spine_wf_receipts db db' : Db.receipts db' = Db.receipts db → spine_wf db → spine_wf db'.
Proof. intros Hr. apply spine_wf_same. unfold same_receipts. by rewrite Hr. Qed.

Lemma no_new_claims (w : World) call : ∃ new, issued w = new ++ issued w ∧
  ∀ c job, (c, job) ∈ new → newly_issued w call c job.
Proof. exists []. split; [done|]. by intros ? ? ?%elem_of_nil. Qed.

Lemma mutate_effect w request write :
  spine_wf (world_db w) → enqueues_only write →
  call_effect w (CMutate request write) (run_call w (CMutate request write)).
Proof.
  intros Hwf He. assert (Hs : write_spares write) by (intros ? db db' Hw; by apply He in Hw as [? _]).
  set (db := world_db w) in *. simpl. fold db.
  destruct (mutate_grows request write db Hwf Hs) as [Hwf' Hg].
  destruct (mutate_cases constraint_failed request (fun _ => write) db Hwf Hs) as [Hm _].
  change (mutated request (fun _ => write) db (mutate request write db)) in Hm.
  split; simpl; [done|done| |apply no_new_claims].
  intros k. set (w' := mk_world _ _). fold db.
  assert (Hrow : jobs (world_db w') !! k = jobs db !! k ∨
    (jobs db !! k = None ∧ ∀ j, jobs (world_db w') !! k = Some j → fresh_job k j)).
  { unfold w'. simpl. inversion Hm as [r _ _ rev|_ _ rev|db1 _ _ Hw rev|err db1 _ _ Hw rev]; simpl; try by left.
    apply He in Hw as [_ Hk]. specialize (Hk k). change (jobs (append_receipt _ _)) with (jobs db1).
    destruct (jobs db !! k) as [j|]; [by left|by right]. }
  change (mutate request write db).2 with (world_db w').
  destruct Hrow as [->|[-> Hf]]; [apply row_same|].
  destruct (jobs (world_db w') !! k) as [j|]; [by apply row_new, Hf|apply row_same].
Qed.

Lemma claim_effect w c provider lease_ms limit now_ms :
  spine_wf (world_db w) → jobs_keyed (world_db w) →
  call_effect w (CClaim c provider lease_ms limit now_ms) (run_call w (CClaim c provider lease_ms limit now_ms)).
Proof.
  intros Hwf Hk. destruct (claim_due_jobs_cases c provider lease_ms limit now_ms (world_db w) Hk)
    as (db' & Hrun & (Hr & _ & _) & Hrows).
  unfold run_call. rewrite Hrun. split; simpl; [by apply (spine_wf_receipts (world_db w))|by apply same_receipts_grow| |].
  - intros k. rewrite Hrows. case_bool_decide as Hin; [|apply row_same]. destruct Hin as [<- Hin].
    apply list_elem_of_fmap in Hin as (j & Hid & Hj). apply elem_of_due_jobs in Hj as [Hdue [k' Hj]].
    destruct (Hk _ _ Hj) as [H1 H2]. unfold due_for in Hdue. rewrite !andb_true_iff, string_eqb_true in Hdue.
    destruct Hdue as [[Hc _] Hcl]. assert (k' = k) as -> by (destruct k, k'; simpl in *; congruence).
    rewrite Hj. simpl. by apply row_leased.
  - eexists. split; [done|]. intros c' job (job' & [= -> ->] & Hin)%list_elem_of_fmap.
    apply list_elem_of_fmap in Hin as (j & -> & Hj). apply elem_of_due_jobs in Hj as [Hdue [k' Hj]].
    destruct (Hk _ _ Hj) as [H1 H2]. unfold due_for in Hdue. rewrite !andb_true_iff, string_eqb_true in Hdue.
    destruct Hdue as [[Hc _] Hcl]. exists j, now_ms. split_and!; [|done|done|done].
    simpl. rewrite <- Hj. f_equal. destruct k'; simpl in *; congruence.
Qed.

Lemma claim_by_id_effect w c id lease_ms now_ms :
  spine_wf (world_db w) → jobs_keyed (world_db w) →
  call_effect w (CClaimById c id lease_ms now_ms) (run_call w (CClaimById c id lease_ms now_ms)).
Proof.
  intros Hwf Hk. unfold run_call, claim_due_job_by_id, transaction.
  destruct (jobs (world_db w) !! (c, id)) as [j|] eqn:Hj; [destruct (claimable now_ms j) eqn:Hcl|];
    [|by split; simpl; [done|apply receipts_grow_refl|intros k; apply row_same|apply no_new_claims]..].
  destruct (Hk _ _ Hj) as [_ Hid]. simpl in Hid.
  split; simpl; [by apply (spine_wf_receipts (world_db w))|by apply same_receipts_grow| |].
  - intros k. unfold lease_job. rewrite update_job_lookup. rewrite Hid.
    case_decide as Heq; [|apply row_same]. subst k. rewrite Hj. simpl. by apply row_leased.
  - exists [(c, ClaimedJob.from_row j)]. split; [done|]. intros c' job [= -> ->]%list_elem_of_singleton.
    exists j, now_ms. simpl. by rewrite Hid.
Qed.

Lemma record_effect w c job outcome now_ms :
  spine_wf (world_db w) → (c, job) ∈ issued w →
  call_effect w (CRecord c job outcome now_ms) (run_call w (CRecord c job outcome now_ms)).
Proof.
  intros Hwf Hi. destruct (record_attempt_cases c job outcome now_ms (world_db w) Hwf)
    as (db' & Hrun & Hwf' & Hg & Hused & Hold & Hnew).
  unfold run_call. rewrite Hrun. split; simpl; [done|done| |apply no_new_claims].
  intros k. destruct (key_free_or_used (world_db w) c (report_key (world_db w) c job)) as [Hf|Hu];
    [|rewrite (Hold Hu); apply row_same].
  rewrite (Hnew Hf). case_decide as Hk; [|apply row_same]. subst k.
  destruct (jobs (world_db w) !! _) as [j|]; [|apply row_same]. simpl.
  by apply (row_attempted w _ (c, ClaimedJob.job_id job)).
Qed.

Lemma retry_effect w c id actor key now_ms :
  spine_wf (world_db w) →
  call_effect w (CRetry c id actor key now_ms) (run_call w (CRetry c id actor key now_ms)).
Proof.
  intros Hwf. destruct (retry_terminal_job_cases c id actor key now_ms (world_db w) Hwf) as (Hwf' & Hg & Hspec).
  unfold run_call. split; simpl; [done|done| |apply no_new_claims].
  intros k. set (w' := mk_world _ _). change (retry_terminal_job _ _ _ _ _ _ _ _).2 with (world_db w').
  assert (Hw : world_db w' = (retry_terminal_job constraint_failed json_text c id actor key now_ms (world_db w)).2) by done.
  revert Hw. generalize w'. clear w'. intros w'.
  inversion Hspec as [rid rev db' Hu Hj Heq|j rid rev db' Hf Hj Hst Hjobs Hn Heq|j db' Hf Hj Hst Hjobs Heq|db' Hf Hj Hjobs Heq];
    rewrite <- Heq in *; simpl; intros Hw; rewrite Hw, ?Hj, ?Hjobs; try apply row_same.
  rewrite lookup_insert. case_decide as Hk; [|apply row_same]. subst k. rewrite Hj.
  apply (row_retried w w' (c, id)); [done|by rewrite Hw].
Qed.

Lemma call_effects w call :
  spine_wf (world_db w) → jobs_keyed (world_db w) → allowed w call → call_effect w call (run_call w call).
Proof.
  intros Hwf Hk Ha. destruct call; [by apply mutate_effect|by apply claim_effect|by apply claim_by_id_effect
    |by apply record_effect|by apply retry_effect].
Qed.
(** ** The invariant *)

Definition job_statuses : list string :=
  [STATUS_PENDING; STATUS_DELIVERED; STATUS_FAILED_TERMINAL; STATUS_DELIVERY_OUTCOME_UNKNOWN].

(** A row within its budget: at most [MAX_ATTEMPTS] attempts, fewer while it is pending. *)
Definition within_budget (j : Job.t) : Prop :=
  Job.status j ∈ job_statuses ∧ (0 ≤ Job.attempts j ≤ Z.of_N MAX_ATTEMPTS)%Z ∧
  (Job.status j = STATUS_PENDING → Job.attempts j < Z.of_N MAX_ATTEMPTS)%Z.

(** While no operator asked for a retry: every attempt counted was recorded under
    its key, and no claim in any worker's hands is ahead of the row; once the job
    is settled, every claim is behind it. *)
Definition attempts_recorded (w : World) (k : string * string) (j : Job.t) : Prop :=
  never_retried (world_db w) k.1 k.2 →
  (∀ n, (1 ≤ n)%N → (Z.of_N n ≤ Job.attempts j)%Z →
     key_used (world_db w) k.1 (attempt_key k.2 "initial" n)) ∧
  (∀ job, (k.1, job) ∈ issued w → ClaimedJob.job_id job = k.2 →
     (Z.of_N (ClaimedJob.attempts job) ≤ Job.attempts j)%Z ∧
     (Job.status j ≠ STATUS_PENDING → Z.of_N (ClaimedJob.attempts job) < Job.attempts j)%Z).

Record outbox_wf (w : World) : Prop := {
  wf_spine : spine_wf (world_db w);
  wf_keyed : jobs_keyed (world_db w);
  wf_budget : ∀ k j, jobs (world_db w) !! k = Some j → within_budget j;
  wf_issued : ∀ c job, (c, job) ∈ issued w →
    (ClaimedJob.attempts job < MAX_ATTEMPTS)%N ∧ is_Some (jobs (world_db w) !! (c, ClaimedJob.job_id job));
  wf_recorded : ∀ k j, jobs (world_db w) !! k = Some j → attempts_recorded w k j;
}.

Lemma attempted_fields n outcome now_ms j :
  Job.status (attempted n outcome now_ms j) = attempt_status n outcome ∧
  Job.attempts (attempted n outcome now_ms j) = Z.of_N n ∧
  Job.client_id (attempted n outcome now_ms j) = Job.client_id j ∧
  Job.job_id (attempted n outcome now_ms j) = Job.job_id j ∧
  Job.leased_until_ms (attempted n outcome now_ms j) = None.
Proof. unfold attempted, attempt_status. by destruct (attempt_result n outcome) as [[[[? ?] ?] ?] ?]. Qed.

Lemma attempted_budget n outcome now_ms j :
  (n ≤ MAX_ATTEMPTS)%N → within_budget (attempted n outcome now_ms j).
Proof.
  intros Hn. destruct (attempted_fields n outcome now_ms j) as (H1 & H2 & _).
  unfold within_budget. rewrite H1, H2. unfold attempt_status, attempt_result, job_statuses, MAX_ATTEMPTS in *.
  destruct outcome as [r|e t|e r|e r]; [| |..]; simpl; try case_match eqn:Hm; simpl;
    (split_and!; [set_solver|lia|lia|]); try done.
  intros _. apply N.leb_gt in Hm. lia.
Qed.

Lemma wrapping_succ_attempts n : (n < MAX_ATTEMPTS)%N → wrapping_add_u32 n 1 = (n + 1)%N.
Proof. unfold MAX_ATTEMPTS, wrapping_add_u32. intros Hn. apply N.mod_small. lia. Qed.

Lemma claimable_pending now_ms j : claimable now_ms j = true → Job.status j = STATUS_PENDING.
Proof. unfold claimable. rewrite !andb_true_iff, string_eqb_true. tauto. Qed.

Lemma from_row_attempts j :
  within_budget j → Z.of_N (ClaimedJob.attempts (ClaimedJob.from_row j)) = Job.attempts j.
Proof.
  intros (_ & Ha & _). unfold MAX_ATTEMPTS in Ha. simpl. unfold i64_as_u32. rewrite Z.mod_small; lia.
Qed.

(** Nothing takes a row away, or changes its key. *)
Lemma row_change_keyed w w' k call row row' :
  row_change w w' k call row row' →
  (∀ j, row = Some j → Job.client_id j = k.1 ∧ Job.job_id j = k.2) →
  (is_Some row → is_Some row') ∧ ∀ j, row' = Some j → Job.client_id j = k.1 ∧ Job.job_id j = k.2.
Proof.
  intros Hc Hk. destruct Hc as [call row|call j Hf|call j l n _ _|job o n j _ _ _ _|actor key n j _ _].
  - done.
  - split; [by intros []|]. intros j' [= <-]. by destruct Hf as (? & ? & _).
  - split; [done|]. intros j' [= <-]. exact (Hk j eq_refl).
  - split; [done|]. intros j' [= <-]. destruct (attempted_fields (wrapping_add_u32 (ClaimedJob.attempts job) 1) o n j)
      as (_ & _ & -> & -> & _). exact (Hk j eq_refl).
  - split; [done|]. intros j' [= <-]. exact (Hk j eq_refl).
Qed.

Lemma row_change_budget w w' k call row row' :
  row_change w w' k call row row' → outbox_wf w →
  (∀ j, row = Some j → within_budget j) → ∀ j, row' = Some j → within_budget j.
Proof.
  intros Hc Hwf Hb. destruct Hc as [call row|call j Hf|call j l n _ _|job o n j Hi _ _ _|actor key n j _ _]; [done|..];
    intros j' [= <-].
  - destruct Hf as (_ & _ & H1 & H2 & _). unfold within_budget, job_statuses, MAX_ATTEMPTS. rewrite H1, H2.
    split_and!; [set_solver|lia..].
  - exact (Hb j eq_refl).
  - destruct (wf_issued w Hwf _ _ Hi) as [Ha _]. apply attempted_budget.
    rewrite wrapping_succ_attempts by done. lia.
  - unfold within_budget, job_statuses, MAX_ATTEMPTS. simpl. split_and!; [set_solver|lia..].
Qed.

Lemma newly_issued_row w call c job :
  outbox_wf w → newly_issued w call c job →
  ∃ j, jobs (world_db w) !! (c, ClaimedJob.job_id job) = Some j ∧ Job.status j = STATUS_PENDING ∧
    Z.of_N (ClaimedJob.attempts job) = Job.attempts j ∧ (ClaimedJob.attempts job < MAX_ATTEMPTS)%N.
Proof.
  intros Hwf (j & n & Hj & _ & Hcl & ->). pose proof (wf_budget w Hwf _ _ Hj) as Hb.
  apply claimable_pending in Hcl. pose proof (from_row_attempts j Hb) as Ha.
  exists j. split_and!; [done|done|done|]. destruct Hb as (_ & _ & Hlt). specialize (Hlt Hcl). lia.
Qed.

(** An unretried job's attempts go under the keys of the initial cycle. *)
Lemma report_key_initial db c job :
  never_retried db c (ClaimedJob.job_id job) → (ClaimedJob.attempts job < MAX_ATTEMPTS)%N →
  report_key db c job = attempt_key (ClaimedJob.job_id job) "initial" (ClaimedJob.attempts job + 1).
Proof.
  intros Hn Ha. unfold report_key. apply retry_cycle_none in Hn. rewrite Hn. simpl.
  by rewrite wrapping_succ_attempts.
Qed.
(** The claims held after a call: those held before, and new ones of pending rows. *)
Lemma issued_after w call w' c job :
  outbox_wf w → call_effect w call w' → (c, job) ∈ issued w' →
  (c, job) ∈ issued w ∨ newly_issued w call c job.
Proof.
  intros Hwf He Hi. destruct (effect_issued _ _ _ He) as (new & Heq & Hnew). rewrite Heq in Hi.
  apply elem_of_app in Hi as [Hi|Hi]; [right; by apply Hnew|by left].
Qed.

(** An unretried row whose status and attempts a call leaves alone. *)
Lemma recorded_keeps w call w' k j j' :
  outbox_wf w → call_effect w call w' → jobs (world_db w) !! k = Some j →
  Job.status j' = Job.status j → Job.attempts j' = Job.attempts j → attempts_recorded w' k j'.
Proof.
  intros Hwf He Hj Hst Hat Hn'. pose proof (effect_grow _ _ _ He) as Hg.
  destruct (wf_recorded w Hwf k j Hj (never_retried_grow _ _ _ _ Hg Hn')) as [Hkeys Hclaims].
  rewrite Hst, Hat. split.
  - intros n H1 H2. eapply key_used_grow; [exact Hg|by apply Hkeys].
  - intros job Hi Hid. destruct (issued_after w call w' _ _ Hwf He Hi) as [Hi'|Hi']; [by apply Hclaims|].
    destruct (newly_issued_row w call _ _ Hwf Hi') as (j0 & Hj0 & Hp & Ha & _).
    rewrite Hid in Hj0. rewrite <- surjective_pairing, Hj in Hj0. injection Hj0 as <-. split; [lia|done].
Qed.

(** The attempt of a claim that takes effect on an unretried row was the row's next one. *)
Lemma attempt_is_next w k job j :
  outbox_wf w → jobs (world_db w) !! k = Some j → never_retried (world_db w) k.1 k.2 →
  (k.1, job) ∈ issued w → ClaimedJob.job_id job = k.2 →
  key_free (world_db w) k.1 (report_key (world_db w) k.1 job) →
  Z.of_N (ClaimedJob.attempts job) = Job.attempts j ∧ Job.status j = STATUS_PENDING ∧
  report_key (world_db w) k.1 job = attempt_key k.2 "initial" (ClaimedJob.attempts job + 1).
Proof.
  intros Hwf Hj Hn Hi Hid Hf. destruct (wf_recorded w Hwf k j Hj Hn) as [Hkeys Hclaims].
  destruct (wf_issued w Hwf _ _ Hi) as [Hlt _]. destruct (Hclaims job Hi Hid) as [Hle Hbehind].
  rewrite report_key_initial, Hid in Hf |- * by (by rewrite ?Hid).
  assert (Heq : Z.of_N (ClaimedJob.attempts job) = Job.attempts j).
  { destruct (Z.lt_ge_cases (Z.of_N (ClaimedJob.attempts job)) (Job.attempts j)); [|lia].
    destruct (key_used_not_free (world_db w) k.1 (attempt_key k.2 "initial" (ClaimedJob.attempts job + 1)));
      [apply Hkeys; lia|done]. }
  split_and!; [done| |done].
  destruct (decide (Job.status j = STATUS_PENDING)); [done|]. specialize (Hbehind n). lia.
Qed.

Lemma recorded_step w call w' k j' :
  outbox_wf w → call_effect w call w' → jobs (world_db w') !! k = Some j' → attempts_recorded w' k j'.
Proof.
  intros Hwf He Hj'. pose proof (effect_rows _ _ _ He k) as Hrow. rewrite Hj' in Hrow.
  remember (jobs (world_db w) !! k) as row eqn:Hj. symmetry in Hj. remember (Some j') as row' eqn:Hr'.
  destruct Hrow as [call row|call j1 Hf|call j l n _ _|job o n j Hi Hid Hfree Hused|actor key n j _ Hre];
    subst; try injection Hr' as <-.
  - by eapply recorded_keeps.
  - intros _. destruct Hf as (_ & _ & _ & Ha & _). rewrite Ha. split; [lia|].
    intros job Hi Hid. exfalso. rewrite (surjective_pairing k), <- Hid in Hj.
    destruct (issued_after w call w' _ _ Hwf He Hi) as [Hi'|Hi'].
    + apply (wf_issued w Hwf) in Hi' as [_ [? Hs]]. by rewrite Hj in Hs.
    + destruct Hi' as (? & ? & Hs & _). by rewrite Hj in Hs.
  - by eapply recorded_keeps.
  - intros Hn'. pose proof (effect_grow _ _ _ He) as Hg. pose proof (never_retried_grow _ _ _ _ Hg Hn') as Hn.
    destruct (attempt_is_next w k job j Hwf Hj Hn Hi Hid Hfree) as (Heq & _ & Hkey).
    destruct (wf_recorded w Hwf k j Hj Hn) as [Hkeys Hclaims]. rewrite Hkey in Hused.
    destruct (wf_issued w Hwf _ _ Hi) as [Hlt _].
    destruct (attempted_fields (wrapping_add_u32 (ClaimedJob.attempts job) 1) o n j) as (_ & -> & _).
    rewrite wrapping_succ_attempts by done. split.
    + intros m H1 H2. destruct (N.eq_dec m (ClaimedJob.attempts job + 1)%N) as [->|Hm]; [done|].
      eapply key_used_grow; [exact Hg|]. apply Hkeys; lia.
    + intros job' Hi' Hid'. destruct (issued_after w _ w' _ _ Hwf He Hi') as [Ho|(? & ? & _ & Hc & _)]; [|done].
      destruct (Hclaims job' Ho Hid'). lia.
  - intros Hn'. done.
Qed.

Lemma outbox_wf_step w call w' : outbox_wf w → step w call w' → outbox_wf w'.
Proof.
  intros Hwf [call' Ha]. pose proof (call_effects w call' (wf_spine w Hwf) (wf_keyed w Hwf) Ha) as He.
  assert (Hkeyed : ∀ k, (is_Some (jobs (world_db w) !! k) → is_Some (jobs (world_db (run_call w call')) !! k)) ∧
    ∀ j, jobs (world_db (run_call w call')) !! k = Some j → Job.client_id j = k.1 ∧ Job.job_id j = k.2).
  { intros k. eapply row_change_keyed; [apply (effect_rows _ _ _ He)|]. apply (wf_keyed w Hwf). }
  split.
  - apply (effect_wf _ _ _ He).
  - intros k. apply (Hkeyed k).
  - intros k. eapply row_change_budget; [apply (effect_rows _ _ _ He k)|done|]. apply (wf_budget w Hwf).
  - intros c job Hi. destruct (issued_after w call' _ _ _ Hwf He Hi) as [Hi'|Hi'].
    + apply (wf_issued w Hwf) in Hi' as [Hlt Hs]. split; [done|]. by apply Hkeyed.
    + destruct (newly_issued_row w call' _ _ Hwf Hi') as (j & Hj & _ & _ & Hlt). split; [done|].
      apply Hkeyed. by exists j.
  - intros k j. by apply recorded_step with w call'.
Qed.

Lemma outbox_wf_new others : outbox_wf (world_new others).
Proof.
  split; unfold world_new, jobs; simpl.
  - apply spine_wf_new.
  - intros k j. unfold jobs. simpl. by rewrite lookup_empty.
  - intros k j. by rewrite lookup_empty.
  - intros c job Hi. by apply elem_of_nil in Hi.
  - intros k j. by rewrite lookup_empty.
Qed.

Lemma outbox_wf_steps w calls w' : outbox_wf w → steps w calls w' → outbox_wf w'.
Proof. intros Hwf Hs. induction Hs as [|calls w1 call w2 _ IH Hs]; [done|]. by eapply outbox_wf_step. Qed.

Lemma reachable_outbox_wf w : reachable w → outbox_wf w.
Proof. intros (others & calls & Hs). eapply outbox_wf_steps, Hs. apply outbox_wf_new. Qed.
(** ** The guarantees *)

Lemma steps_prefix w calls w' : steps w calls w' → outbox_wf w → spine_wf (world_db w') ∧
  receipts_grow (world_db w) (world_db w').
Proof.
  intros Hs Hwf. induction Hs as [|calls w1 call w2 Hs IH Hstep]; [split; [apply Hwf|apply receipts_grow_refl]|].
  destruct IH as [Hwf1 Hg]. pose proof (outbox_wf_steps _ _ _ Hwf Hs) as Hw1. destruct Hstep as [call Ha].
  pose proof (call_effects w1 call Hwf1 (wf_keyed _ Hw1) Ha) as He.
  split; [apply (effect_wf _ _ _ He)|]. destruct Hg as [rows Hg], (effect_grow _ _ _ He) as [rows' Hg'].
  exists (rows ++ rows'). unfold same_receipts in *. by rewrite Hg', fmap_app, Hg, <- fmap_app, <- app_assoc.
Qed.

(** attempts are bounded.  Whatever slices, workers and operators do in
    whatever order, and however often a worker reports a claim it was handed, a job
    has one of the four statuses and at most eight attempts, and while it is pending
    it has fewer than eight; so no claim is ever handed out for a ninth attempt. *)
Theorem attempts_bounded w :
  reachable w →
  (∀ k j, jobs (world_db w) !! k = Some j → within_budget j) ∧
  (∀ c job, (c, job) ∈ issued w → (ClaimedJob.attempts job < MAX_ATTEMPTS)%N).
Proof.
  intros Hw%reachable_outbox_wf. split; [apply (wf_budget w Hw)|]. intros c job Hi. by apply (wf_issued w Hw) in Hi as [? _].
Qed.

(** C30: a settled job stays settled.  A job that is delivered, of unknown outcome
    or terminally failed is never claimed again and its row never changes, whatever
    follows and however late a worker reports, unless an operator asked for a retry
    of it at some time. *)
Theorem settled_job_final w calls w' k j :
  reachable w → steps w calls w' → jobs (world_db w) !! k = Some j → Job.status j ≠ STATUS_PENDING →
  never_retried (world_db w') k.1 k.2 →
  jobs (world_db w') !! k = Some j ∧
  ∀ job, (k.1, job) ∈ issued w' → ClaimedJob.job_id job = k.2 → (k.1, job) ∈ issued w.
Proof.
  intros Hw%reachable_outbox_wf Hs Hj Hst.
  induction Hs as [|calls w1 call w2 Hs IH Hstep]; [done|]. intros Hn2.
  pose proof (outbox_wf_steps _ _ _ Hw Hs) as Hw1. destruct Hstep as [call Ha].
  pose proof (call_effects w1 call (wf_spine _ Hw1) (wf_keyed _ Hw1) Ha) as He.
  pose proof (never_retried_grow _ _ _ _ (effect_grow _ _ _ He) Hn2) as Hn1.
  destruct (IH Hn1) as [Hj1 Hi1]. split.
  - pose proof (effect_rows _ _ _ He k) as Hrow. rewrite Hj1 in Hrow. revert Hj1 Hst Hn1 Hn2.
    clear - Hrow Hw1. remember (run_call w1 call) as w2. inversion Hrow; subst; intros Hj1 Hst Hn1 Hn2.
    + done.
    + by destruct Hst; eapply claimable_pending.
    + by destruct Hst; eapply attempt_is_next.
    + done.
  - intros job Hi Hid. destruct (issued_after w1 call _ _ _ Hw1 He Hi) as [Hi'|Hi']; [by apply Hi1|].
    destruct (newly_issued_row w1 call _ _ Hw1 Hi') as (j' & Hj' & Hp & _).
    rewrite Hid, <- surjective_pairing, Hj1 in Hj'. congruence.
Qed.

(** A call that may touch the row of a job that is leased until [until]. *)
Definition leaves_alone (k : string * string) (until : Z) (call : OutboxCall) : Prop :=
  match call with
  | CMutate _ _ => True
  | CClaim _ _ _ _ now_ms | CClaimById _ _ _ now_ms => (u64_as_i64 now_ms < until)%Z
  | CRecord c job _ _ => (c, ClaimedJob.job_id job) ≠ k
  | CRetry c job_id _ _ _ => (c, job_id) ≠ k
  end.

(** a lease keeps others off.  While a job is leased, no claim that reads an
    earlier clock hands it to anyone, and its row stays as it is until its own
    attempt is recorded or an operator retries it. *)
Theorem lease_keeps_others_off w calls w' k j until :
  reachable w → steps w calls w' → jobs (world_db w) !! k = Some j →
  Job.leased_until_ms j = Some until → Forall (leaves_alone k until) calls →
  jobs (world_db w') !! k = Some j ∧
  ∀ job, (k.1, job) ∈ issued w' → ClaimedJob.job_id job = k.2 → (k.1, job) ∈ issued w.
Proof.
  intros Hw%reachable_outbox_wf Hs Hj Hl.
  induction Hs as [|calls w1 call w2 Hs IH Hstep]; [done|]. intros [Hf [Hc _]%Forall_cons]%Forall_app.
  pose proof (outbox_wf_steps _ _ _ Hw Hs) as Hw1. destruct Hstep as [call Ha].
  pose proof (call_effects w1 call (wf_spine _ Hw1) (wf_keyed _ Hw1) Ha) as He.
  destruct (IH Hf) as [Hj1 Hi1].
  assert (Hnot : ∀ now_ms, claims_at call = Some now_ms → claimable now_ms j = true → False).
  { intros now_ms Hat Hcl. unfold claimable in Hcl. rewrite !andb_true_iff, Hl in Hcl. cbn [map_or_true] in Hcl.
    destruct Hcl as [_ Hcl%Z.leb_le]. destruct call; try done; injection Hat as ->; unfold leaves_alone in Hc; lia. }
  split.
  - pose proof (effect_rows _ _ _ He k) as Hrow. rewrite Hj1 in Hrow. revert Hc Hnot.
    clear - Hrow. remember (run_call w1 call) as w2. inversion Hrow; subst; intros Hc Hnot.
    + done.
    + by edestruct Hnot.
    + destruct Hc. destruct k. simpl in *. congruence.
    + destruct Hc. by destruct k.
  - intros job Hi Hid. destruct (issued_after w1 call _ _ _ Hw1 He Hi) as [Hi'|Hi']; [by apply Hi1|].
    destruct Hi' as (j' & now_ms & Hj' & Hat & Hcl & _).
    rewrite Hid, <- surjective_pairing, Hj1 in Hj'. injection Hj' as <-. by edestruct Hnot.
Qed.
(** The [limit] earliest of some rows, in order. *)
Record earliest (limit : N) (due rows : list Job.t) : Prop := {
  earliest_among : rows ⊆+ due;
  earliest_length : len rows = N.min limit (len due);
  earliest_sorted : StronglySorted (key_le due_order) rows;
  earliest_first : ∀ j j', j ∈ rows → j' ∈ due → j' ∉ rows → ord_le (due_order j) (due_order j');
}.

Lemma due_jobs_earliest c provider limit now_ms db :
  (limit ≤ 9223372036854775807)%N →
  earliest limit (filter (fun j => due_for c provider now_ms j) (values (jobs db)))
    (due_jobs c provider limit now_ms db).
Proof.
  intros Hlim. rewrite due_jobs_eq. set (due := filter _ _).
  assert (Heq : sql_limit (u64_as_i64 limit) (sort_by_key due_order due) = truncate limit (sort_by_key due_order due)).
  { unfold sql_limit, u64_as_i64. destruct (N.leb_spec limit 9223372036854775807); [|lia].
    rewrite (proj2 (Z.ltb_ge _ _)) by lia. by rewrite N2Z.id. }
  rewrite Heq. split.
  - rewrite truncate_take. etrans; [apply sublist_submseteq, sublist_take|]. by rewrite sort_by_key_perm.
  - rewrite length_truncate. unfold len. by rewrite length_sort_by_key.
  - pose proof (sort_by_key_sorted due_order due) as Hs. rewrite truncate_take.
    rewrite <- (take_drop (N.to_nat limit)) in Hs. by eapply StronglySorted_app_1_l.
  - intros j j' Hj Hj' Hn. by eapply truncate_sort_least.
Qed.

(** a claim hands out the earliest due jobs.  It always succeeds and returns the
    [limit] earliest of the client's pending jobs that are due and not leased, in the
    order (next attempt, id), the same for every order the table is read in; exactly
    their rows are leased until [now + lease], and nothing else changes. *)
Theorem claim_due_jobs_spec w c provider lease_ms limit now_ms :
  reachable w → (limit ≤ 9223372036854775807)%N →
  let db := world_db w in
  ∃ rows db', claim_due_jobs c provider lease_ms limit now_ms db = (Ok (ClaimedJob.from_row <$> rows), db') ∧
    earliest limit (filter (fun j => due_for c provider now_ms j) (values (jobs db))) rows ∧
    (∀ table, table ≡ₚ values (jobs db) → rows = sql_limit (u64_as_i64 limit)
       (sort_by_key due_order (filter (fun j => due_for c provider now_ms j) table))) ∧
    (∀ k, jobs db' !! k = if bool_decide (k.1 = c ∧ k.2 ∈ Job.job_id <$> rows)
                          then leased_row lease_ms now_ms <$> jobs db !! k else jobs db !! k) ∧
    Db.receipts db' = Db.receipts db ∧ Db.revisions db' = Db.revisions db ∧
    others (Db.domain db') = others (Db.domain db).
Proof.
  intros Hw%reachable_outbox_wf Hlim db. pose proof (wf_keyed w Hw) as Hk.
  destruct (claim_due_jobs_cases c provider lease_ms limit now_ms db Hk) as (db' & Hrun & Hspine & Hrows).
  exists (due_jobs c provider limit now_ms db), db'. split; [done|]. split; [by apply due_jobs_earliest|].
  split; [|done]. intros table Hp. rewrite due_jobs_eq. f_equal.
  apply sort_by_key_order_independent; [by rewrite Hp|].
  intros j j' [Hj%Is_true_true Hin]%list_elem_of_filter [Hj'%Is_true_true Hin']%list_elem_of_filter [= _ Hid].
  apply elem_of_values in Hin as [k Hin], Hin' as [k' Hin'].
  destruct (Hk _ _ Hin) as [H1 H2], (Hk _ _ Hin') as [H1' H2'].
  unfold due_for in Hj, Hj'. rewrite !andb_true_iff, string_eqb_true in Hj, Hj'.
  destruct Hj as [[Hc _] _], Hj' as [[Hc' _] _].
  assert (k = k') as -> by (destruct k, k'; simpl in *; congruence). congruence.
Qed.

(** an attempt is recorded once.  Reporting a claim always succeeds and answers
    with the status its outcome stands for.  The first report of an attempt (of the
    job, since the last operator retry) sets the row accordingly and ends the lease;
    any other report of the same attempt changes no job. *)
Theorem record_attempt_spec w c job outcome now_ms :
  reachable w → (c, job) ∈ issued w →
  let db := world_db w in
  let attempts := (ClaimedJob.attempts job + 1)%N in
  ∃ j db', jobs db !! (c, ClaimedJob.job_id job) = Some j ∧
    record_attempt constraint_failed json_text c job outcome now_ms db
      = (Ok (attempt_status attempts outcome), db') ∧
    (key_free db c (report_key db c job) →
       jobs db' = <[(c, ClaimedJob.job_id job) := attempted attempts outcome now_ms j]> (jobs db)) ∧
    (key_used db c (report_key db c job) → jobs db' = jobs db) ∧
    key_used db' c (report_key db c job).
Proof.
  intros Hw%reachable_outbox_wf Hi db attempts. destruct (wf_issued w Hw _ _ Hi) as [Hlt [j Hj]].
  destruct (record_attempt_cases c job outcome now_ms db (wf_spine w Hw)) as (db' & Hrun & _ & _ & Hu & Hold & Hnew).
  rewrite wrapping_succ_attempts in Hrun, Hnew by done. exists j, db'. split_and!; [done|done| |done|done].
  intros Hf. apply map_eq. intros k. rewrite (Hnew Hf), lookup_insert.
  destruct (decide (k = _)) as [->|Hne]; [rewrite decide_True by done; unfold db; by rewrite Hj|].
  by rewrite decide_False by by intros <-.
Qed.

(** The operator's retry.  A key used before is replayed; otherwise a
    terminally failed job becomes pending with no attempts, due now and not leased,
    an unknown job or one in another status is refused with its own error, and
    nothing else changes. *)
Theorem retry_terminal_job_spec w c id actor key now_ms :
  reachable w →
  retry_spec c id key now_ms (world_db w)
    (retry_terminal_job constraint_failed json_text c id actor key now_ms (world_db w)).
Proof. intros Hw%reachable_outbox_wf. by apply retry_terminal_job_cases, wf_spine. Qed.

(** the outcome that is reported second is lost.  [record_attempt] checks neither
    the lease nor the row: when a claim's lease ran out and the job was claimed
    again, both workers report the same attempt; the second report is answered with
    its own status as if it had been stored, and changes no job.  A delivery
    reported after an expired worker's retry leaves the job pending, to be delivered
    again. *)
Theorem second_report_dropped w c job1 outcome1 now1 w1 job2 outcome2 now2 :
  reachable w → (c, job1) ∈ issued w → (c, job2) ∈ issued w →
  ClaimedJob.job_id job1 = ClaimedJob.job_id job2 → ClaimedJob.attempts job1 = ClaimedJob.attempts job2 →
  w1 = run_call w (CRecord c job1 outcome1 now1) →
  never_retried (world_db w1) c (ClaimedJob.job_id job2) →
  ∃ db2, record_attempt constraint_failed json_text c job2 outcome2 now2 (world_db w1)
      = (Ok (attempt_status (ClaimedJob.attempts job2 + 1) outcome2), db2) ∧
    jobs db2 = jobs (world_db w1).
Proof.
  intros Hw%reachable_outbox_wf Hi1 Hi2 Hid Hat -> Hn. set (w1 := run_call _ _) in *.
  pose proof (record_effect w c job1 outcome1 now1 (wf_spine w Hw) Hi1) as He. fold w1 in He.
  pose proof (never_retried_grow _ _ _ _ (effect_grow _ _ _ He) Hn) as Hn0.
  destruct (wf_issued w Hw _ _ Hi2) as [Hlt _].
  destruct (record_attempt_cases c job1 outcome1 now1 (world_db w) (wf_spine w Hw)) as (db1 & Hr1 & _ & _ & Hu & _).
  destruct (record_attempt_cases c job2 outcome2 now2 (world_db w1) (effect_wf _ _ _ He))
    as (db2 & Hr2 & _ & _ & _ & Hold & _).
  rewrite wrapping_succ_attempts in Hr2 by done. exists db2. split; [done|]. apply Hold.
  rewrite report_key_initial by done. rewrite report_key_initial in Hu by (rewrite ?Hid, ?Hat; done).
  rewrite Hid, Hat in Hu. unfold w1. simpl. by rewrite Hr1.
Qed.
(** ** Running calls *)

Fixpoint all_allowed (w : World) (calls : list OutboxCall) : Prop :=
  match calls with
  | [] => True
  | call :: calls => allowed w call ∧ all_allowed (run_call w call) calls
  end.

Lemma steps_cons w call calls w' : step w call (run_call w call) → steps (run_call w call) calls w' →
  steps w (call :: calls) w'.
Proof.
  intros Hs. induction 1 as [|calls w1 call' w2 _ IH Hs'].
  - apply (steps_snoc w [] w call); [constructor|done].
  - rewrite app_comm_cons. by apply (steps_snoc w (call :: calls) w1).
Qed.

Lemma steps_run w calls : all_allowed w calls → steps w calls (foldl run_call w calls).
Proof.
  revert w. induction calls as [|call calls IH]; intros w; [constructor|]. intros [Ha Hs].
  cbn [foldl]. by apply steps_cons; [constructor|apply IH].
Qed.

Lemma reachable_run others calls :
  all_allowed (world_new others) calls → reachable (foldl run_call (world_new others) calls).
Proof. intros Ha. exists others, calls. by apply steps_run. Qed.
End machine.

(** ** A run, and the flaw it shows *)

Definition demo_json : list (string * JsonValue) → string := fun _ => "{..}"%string.

Definition demo_enqueue (id : string) (now_ms : N) : OutboxCall (R:=unit) :=
  CMutate (MutationRequest.mk "acme" "draft" id "approve" "ann" Operator None ("approve:" +:+ id) None None
             None None now_ms)
    (enqueue_within "UNIQUE" "acme"
       (NewOutboxJob.mk id "buffer" "post" "{}" "draft" id None None ("key:" +:+ id)) now_ms).

Definition demo_run : World → list OutboxCall → World := foldl (run_call (R:=unit) "UNIQUE" demo_json).

Definition demo_claim (id : string) (attempts : N) : ClaimedJob.t :=
  ClaimedJob.mk id "buffer" "post" "{}" attempts "draft" id None ("key:" +:+ id).

(** A job is claimed by one worker; its lease runs out and another worker claims it. *)
Definition demo_overlap : list OutboxCall :=
  [demo_enqueue "job_1" 1000; CClaim "acme" None LEASE_MS CLAIM_BATCH 2000;
   CClaimById "acme" "job_1" LEASE_MS 150000].

Definition demo_start : World := demo_run (world_new tt) demo_overlap.

Lemma demo_start_reachable : reachable "UNIQUE" demo_json demo_start.
Proof.
  apply (reachable_run "UNIQUE" demo_json tt demo_overlap).
  split; [apply enqueue_within_enqueues|]. split; [exact I|]. split; exact I.
Qed.

Lemma demo_start_issued :
  issued demo_start = [("acme", demo_claim "job_1" 0); ("acme", demo_claim "job_1" 0)]%string.
Proof. vm_compute. reflexivity. Qed.

Lemma demo_claim_issued : ("acme"%string, demo_claim "job_1" 0) ∈ issued demo_start.
Proof. rewrite demo_start_issued. by left. Qed.

(** A slow worker holds a claim of the second attempt; meanwhile that attempt fails
    for good, an operator retries the job, and it is delivered.  Then the slow
    worker reports. *)
Definition stale_report_run : list OutboxCall :=
  [demo_enqueue "job_1" 1000;
   CClaim "acme" None LEASE_MS CLAIM_BATCH 2000;
   CRecord "acme" (demo_claim "job_1" 0) (AttemptOutcome.Retry "timeout" 3000) 2500;
   CClaim "acme" None LEASE_MS CLAIM_BATCH 3000;
   CClaimById "acme" "job_1" LEASE_MS 200000;
   CRecord "acme" (demo_claim "job_1" 1) (AttemptOutcome.Terminal "refused" None) 201000;
   CRetry "acme" "job_1" "ann" "retry-1" 300000;
   CClaimById "acme" "job_1" LEASE_MS 300001;
   CRecord "acme" (demo_claim "job_1" 0) (AttemptOutcome.Delivered "{}") 301000].

Definition stale_report : OutboxCall (R:=unit) :=
  CRecord "acme" (demo_claim "job_1" 1) (AttemptOutcome.Retry "timeout" 310000) 302000.

Definition job_status (w : World (R:=unit)) (id : string) : option (string * Z) :=
  (fun j => (Job.status j, Job.attempts j)) <$> jobs (world_db w) !! ("acme"%string, id).

(** A delivered job can come back.  After an operator's retry the attempts count
    anew, and the report of a worker that still holds a claim from before is taken
    for a new attempt: it makes a job that was delivered pending again, and the next
    claim hands it out for another delivery. *)
Theorem stale_report_revives_delivered :
  let w := demo_run (world_new tt) stale_report_run in
  let w' := run_call "UNIQUE" demo_json w stale_report in
  steps "UNIQUE" demo_json (world_new tt) (stale_report_run ++ [stale_report]) w' ∧
  job_status w "job_1" = Some (STATUS_DELIVERED, 1%Z) ∧
  job_status w' "job_1" = Some (STATUS_PENDING, 2%Z) ∧
  ∃ w2, run_call "UNIQUE" demo_json w' (CClaim "acme" None LEASE_MS CLAIM_BATCH 310000) = w2 ∧
    issued w2 = ("acme"%string, demo_claim "job_1" 2) :: issued w'.
Proof.
  intros w w'. split_and!.
  - eapply steps_snoc.
    + apply (steps_run "UNIQUE" demo_json (world_new tt) stale_report_run).
      unfold stale_report_run. repeat (split; [first [apply enqueue_within_enqueues|exact I|apply list_elem_of_In; vm_compute; auto 10]|]).
      exact I.
    + constructor. apply list_elem_of_In. vm_compute. auto 10.
  - vm_compute. reflexivity.
  - vm_compute. reflexivity.
  - eexists. split; [reflexivity|]. vm_compute. reflexivity.
Qed.

(** ** Witnesses *)

Abbreviation demo_reach := (reachable "UNIQUE" demo_json).
Abbreviation demo_step := (run_call "UNIQUE" demo_json).

Definition demo_key : string * string := ("acme"%string, "job_1"%string).

Lemma attempts_bounded_witness :
  demo_reach demo_start ∧
  (∀ k j, jobs (world_db demo_start) !! k = Some j → within_budget j) ∧
  (∀ c job, (c, job) ∈ issued demo_start → (ClaimedJob.attempts job < MAX_ATTEMPTS)%N).
Proof.
  split; [exact demo_start_reachable|].
  apply (attempts_bounded "UNIQUE" demo_json demo_start demo_start_reachable).
Defined.

(** The job delivered at the first try. *)
Definition demo_delivered : World :=
  demo_step demo_start (CRecord "acme" (demo_claim "job_1" 0) (AttemptOutcome.Delivered "{}") 160000).

Lemma demo_delivered_reachable : demo_reach demo_delivered.
Proof.
  apply (reachable_run "UNIQUE" demo_json tt
    (demo_overlap ++ [CRecord "acme" (demo_claim "job_1" 0) (AttemptOutcome.Delivered "{}") 160000])).
  split; [apply enqueue_within_enqueues|]. do 2 (split; [exact I|]).
  split; [apply list_elem_of_In; vm_compute; auto|exact I].
Qed.

Lemma settled_job_final_witness :
  let w' := demo_step demo_delivered
    (CRecord "acme" (demo_claim "job_1" 0) (AttemptOutcome.Retry "timeout" 1) 170000) in
  jobs (world_db w') !! demo_key = jobs (world_db demo_delivered) !! demo_key ∧
  job_status w' "job_1" = Some (STATUS_DELIVERED, 1%Z).
Proof.
  destruct (jobs (world_db demo_delivered) !! demo_key) as [j|] eqn:Hj;
    [|exfalso; revert Hj; vm_compute; discriminate].
  split; [|vm_compute; reflexivity].
  eapply (settled_job_final "UNIQUE" demo_json demo_delivered
    [CRecord "acme" (demo_claim "job_1" 0) (AttemptOutcome.Retry "timeout" 1) 170000] _ demo_key j).
  - exact demo_delivered_reachable.
  - apply (steps_run "UNIQUE" demo_json demo_delivered). split; [|exact I]. exact demo_claim_issued.
  - exact Hj.
  - revert Hj. vm_compute. intros [= <-]. discriminate.
  - apply retry_cycle_none. vm_compute. reflexivity.
Defined.

Lemma lease_keeps_others_off_witness :
  let calls := [CClaim "acme" None LEASE_MS CLAIM_BATCH 269999; demo_enqueue "job_2" 1] in
  jobs (world_db (demo_run demo_start calls)) !! demo_key = jobs (world_db demo_start) !! demo_key ∧
  Job.leased_until_ms <$> jobs (world_db demo_start) !! demo_key = Some (Some 270000%Z).
Proof.
  intros calls. split; [|vm_compute; reflexivity].
  destruct (jobs (world_db demo_start) !! demo_key) as [j|] eqn:Hj;
    [|exfalso; revert Hj; vm_compute; discriminate].
  apply (lease_keeps_others_off "UNIQUE" demo_json demo_start calls _ demo_key j 270000).
  - exact demo_start_reachable.
  - apply (steps_run "UNIQUE" demo_json demo_start).
    split; [exact I|]. split; [apply enqueue_within_enqueues|exact I].
  - exact Hj.
  - revert Hj. vm_compute. by intros [= <-].
  - repeat constructor.
Defined.

Lemma claim_due_jobs_spec_witness :
  let w := demo_run (world_new tt) [demo_enqueue "job_2" 900; demo_enqueue "job_1" 1000] in
  demo_reach w ∧
  ∃ rows db', claim_due_jobs "acme" None LEASE_MS 1 2000 (world_db w) = (Ok (ClaimedJob.from_row <$> rows), db') ∧
    earliest 1 (filter (fun j => due_for "acme" None 2000 j) (values (jobs (world_db w)))) rows ∧
    Job.job_id <$> rows = ["job_2"%string].
Proof.
  intros w. assert (Hw : demo_reach w).
  { apply (reachable_run "UNIQUE" demo_json tt [demo_enqueue "job_2" 900; demo_enqueue "job_1" 1000]).
    repeat (split; [apply enqueue_within_enqueues|]). exact I. }
  split; [exact Hw|].
  destruct (claim_due_jobs_spec "UNIQUE" demo_json w "acme" None LEASE_MS 1 2000 Hw)
    as (rows & db' & Hrun & He & Hrows & _); [lia|].
  exists rows, db'. split; [exact Hrun|]. split; [exact He|].
  rewrite (Hrows _ (reflexivity _)). vm_compute. reflexivity.
Defined.

Lemma record_attempt_spec_witness :
  ∃ j db', jobs (world_db demo_start) !! demo_key = Some j ∧
    record_attempt "UNIQUE" demo_json "acme" (demo_claim "job_1" 0) (AttemptOutcome.Delivered "{}") 160000
      (world_db demo_start) = (Ok STATUS_DELIVERED, db') ∧
    jobs db' = <[demo_key := attempted 1 (AttemptOutcome.Delivered "{}") 160000 j]> (jobs (world_db demo_start)).
Proof.
  destruct (record_attempt_spec "UNIQUE" demo_json demo_start "acme" (demo_claim "job_1" 0)
    (AttemptOutcome.Delivered "{}") 160000 demo_start_reachable demo_claim_issued)
    as (j & db' & Hj & Hrun & Hfree & _).
  exists j, db'. split; [exact Hj|]. split; [exact Hrun|]. apply Hfree.
  intros r Hr. apply list_elem_of_In in Hr. vm_compute in Hr.
  repeat destruct Hr as [<-|Hr]; [vm_compute; reflexivity..|destruct Hr].
Defined.

Lemma retry_terminal_job_spec_witness :
  demo_reach demo_delivered ∧
  retry_spec "acme" "job_1" "retry-1" 200000 (world_db demo_delivered)
    (retry_terminal_job "UNIQUE" demo_json "acme" "job_1" "ann" "retry-1" 200000 (world_db demo_delivered)).
Proof.
  split; [exact demo_delivered_reachable|].
  apply (retry_terminal_job_spec "UNIQUE" demo_json demo_delivered "acme" "job_1" "ann" "retry-1" 200000
    demo_delivered_reachable).
Defined.

(** The worker whose lease ran out reports a retry; the other one's delivery is lost. *)
Lemma second_report_dropped_witness :
  let w1 := demo_step demo_start
    (CRecord "acme" (demo_claim "job_1" 0) (AttemptOutcome.Retry "timeout" 170000) 160000) in
  job_status w1 "job_1" = Some (STATUS_PENDING, 1%Z) ∧
  ∃ db2, record_attempt "UNIQUE" demo_json "acme" (demo_claim "job_1" 0) (AttemptOutcome.Delivered "{}") 161000
      (world_db w1) = (Ok STATUS_DELIVERED, db2) ∧ jobs db2 = jobs (world_db w1).
Proof.
  intros w1. split; [vm_compute; reflexivity|].
  apply (second_report_dropped "UNIQUE" demo_json demo_start "acme" (demo_claim "job_1" 0)
    (AttemptOutcome.Retry "timeout" 170000) 160000 w1 (demo_claim "job_1" 0) (AttemptOutcome.Delivered "{}") 161000).
  - exact demo_start_reachable.
  - exact demo_claim_issued.
  - exact demo_claim_issued.
  - reflexivity.
  - reflexivity.
  - reflexivity.
  - apply retry_cycle_none. vm_compute. reflexivity.
Defined.
