(* ===== verification/RustStr.v ===== *)
(** * String operations of the Rust standard library

    [split], [split_once], [strip_prefix], [join], [char::is_ascii_*] and
    [u64::from_str] on UTF-8 bytes.  Every separator the program uses is ASCII, so
    splitting on the byte is splitting on the character. *)

From S2P Require Import Prelude RustStd StoreCore.
From Stdlib Require Import ZifyBool.

(** [s.split(c)]. *)
Fixpoint split_on (c : ascii) (s : string) : list string :=
  match s with
  | EmptyString => [""%string]
  | String a s' =>
    if Ascii.eqb a c then ""%string :: split_on c s'
    else match split_on c s' with
         | [] => [String a EmptyString]
         | w :: ws => String a w :: ws
         end
  end.

(** [s.split_once(c)]. *)
Fixpoint split_once (c : ascii) (s : string) : option (string * string) :=
  match s with
  | EmptyString => None
  | String a s' =>
    if Ascii.eqb a c then Some (""%string, s')
    else (fun '(x, y) => (String a x, y)) <$> split_once c s'
  end.

(** [s.contains(char::is_whitespace)]: an encoding of one begins at some byte. *)
Fixpoint has_whitespace_bytes (l : list ascii) : bool :=
  match l with
  | [] => false
  | a :: l1 =>
    is_ws1 a
    || match l1 with
       | b :: l2 => is_ws2 a b || match l2 with c :: _ => is_ws3 a b c | [] => false end
       | [] => false
       end
    || has_whitespace_bytes l1
  end.
Definition has_whitespace (s : string) : bool := has_whitespace_bytes (String.list_ascii_of_string s).

(** [s.trim_end_matches(suffix)]: as often as it ends so. *)
Definition strip_suffix (suffix s : string) : option string :=
  let n := (String.length s - String.length suffix)%nat in
  if (String.length suffix <=? String.length s)%nat && string_eqb (String.substring n (String.length suffix) s) suffix
  then Some (String.substring 0 n s) else None.
Fixpoint trim_end_fuel (fuel : nat) (suffix s : string) : string :=
  match fuel with
  | O => s
  | S fuel => match strip_suffix suffix s with Some s' => trim_end_fuel fuel suffix s' | None => s end
  end.
Definition trim_end_matches (suffix s : string) : string := trim_end_fuel (String.length s) suffix s.

(** [words.join(sep)]. *)
Fixpoint join (sep : string) (words : list string) : string :=
  match words with
  | [] => ""
  | [w] => w
  | w :: words => w +:+ sep +:+ join sep words
  end.

Definition map_bytes (f : ascii → ascii) (s : string) : string :=
  String.string_of_list_ascii (f <$> String.list_ascii_of_string s).

Definition all_bytes (p : ascii → bool) (s : string) : bool := forallb p (String.list_ascii_of_string s).

Definition is_digit (a : ascii) : bool := ((48 <=? byte_of a) && (byte_of a <=? 57))%N.
Definition is_ascii_alphanumeric (a : ascii) : bool :=
  (is_digit a || ((65 <=? byte_of a) && (byte_of a <=? 90)) || ((97 <=? byte_of a) && (byte_of a <=? 122)))%N.
Definition is_ascii_hexdigit (a : ascii) : bool :=
  (is_digit a || ((65 <=? byte_of a) && (byte_of a <=? 70)) || ((97 <=? byte_of a) && (byte_of a <=? 102)))%N.

(** [s.parse::<u64>()]: an optional plus sign and digits, no overflow. *)
Definition parse_u64 (s : string) : option N :=
  let digits := match s with String "+" s' => s' | _ => s end in
  match digits with
  | EmptyString => None
  | _ => d ← DecimalString.NilEmpty.uint_of_string digits;
         let n := N.of_uint d in
         if (n <=? u64_max)%N then Some n else None
  end.

(** [&s[..n]] for ASCII strings. *)
Definition take_bytes (n : nat) (s : string) : string :=
  String.string_of_list_ascii (take n (String.list_ascii_of_string s)).

(** ** Lemmas *)

Lemma string_app_assoc s t u : (s +:+ t) +:+ u = s +:+ t +:+ u.
Proof. induction s as [|a s IH]; [done|]. change (String a ((s +:+ t) +:+ u) = String a (s +:+ t +:+ u)). by rewrite IH. Qed.

Lemma strip_prefix_app p s : strip_prefix p (p +:+ s) = Some s.
Proof. induction p as [|a p IH]; simpl; [done|]. by rewrite Ascii.eqb_refl. Qed.

Lemma strip_prefix_some p s t : strip_prefix p s = Some t → s = p +:+ t.
Proof.
  revert s. induction p as [|a p IH]; intros s; simpl; [by intros [= ->]|].
  destruct s as [|b s]; [done|]. destruct (Ascii.eqb_spec a b) as [->|]; [|done].
  by intros ->%IH.
Qed.

(** [contains] finds its pattern. *)
Lemma contains_spec s p : contains s p = true ↔ ∃ before after, s = before +:+ p +:+ after.
Proof.
  split.
  - induction s as [|a s IH]; cbn [contains]; (case_bool_decide as Hp; cbn [orb]; [intros _; destruct Hp as [t Ht]|]).
    + exists ""%string, t. exact (strip_prefix_some _ _ _ Ht).
    + done.
    + exists ""%string, t. exact (strip_prefix_some _ _ _ Ht).
    + intros (b & t & ->)%IH. by exists (String a b), t.
  - intros (b & t & ->). induction b as [|a b IH].
    + change ("" +:+ p +:+ t) with (p +:+ t). assert (Hp : is_Some (strip_prefix p (p +:+ t))) by by rewrite strip_prefix_app.
      destruct (p +:+ t); cbn [contains]; by rewrite bool_decide_eq_true_2.
    + change (String a b +:+ p +:+ t) with (String a (b +:+ p +:+ t)). cbn [contains]. rewrite IH. apply orb_true_r.
Qed.

(** No byte of [s] is the separator. *)
Definition lacks (c : ascii) (s : string) : bool := all_bytes (fun a => negb (Ascii.eqb a c)) s.
(** [s.contains(c)] of an ASCII character. *)
Definition has_char (c : ascii) (s : string) : bool := negb (lacks c s).

Lemma split_on_app c s t : lacks c s = true → split_on c (s +:+ String c t) = s :: split_on c t.
Proof.
  induction s as [|a s IH]; simpl; [by rewrite Ascii.eqb_refl|].
  unfold lacks, all_bytes in *. simpl. intros [Ha%negb_true_iff Hs]%andb_true_iff.
  by rewrite Ha, IH.
Qed.

Lemma split_on_lacks c s : lacks c s = true → split_on c s = [s].
Proof.
  induction s as [|a s IH]; simpl; [done|]. unfold lacks, all_bytes in *. simpl.
  intros [Ha%negb_true_iff Hs]%andb_true_iff. by rewrite Ha, IH.
Qed.

Lemma split_once_app c s t : lacks c s = true → split_once c (s +:+ String c t) = Some (s, t).
Proof.
  induction s as [|a s IH]; simpl; [by rewrite Ascii.eqb_refl|].
  unfold lacks, all_bytes in *. simpl. intros [Ha%negb_true_iff Hs]%andb_true_iff.
  by rewrite Ha, IH.
Qed.

Lemma all_bytes_impl (p q : ascii → bool) s :
  (∀ a, p a = true → q a = true) → all_bytes p s = true → all_bytes q s = true.
Proof. unfold all_bytes. rewrite !forallb_forall. auto. Qed.

Lemma all_bytes_app p s t : all_bytes p (s +:+ t) = all_bytes p s && all_bytes p t.
Proof. unfold all_bytes. by rewrite list_ascii_app, forallb_app. Qed.

Lemma fmt_dec_digits n : all_bytes is_digit (fmt_dec n) = true.
Proof.
  unfold fmt_dec, all_bytes. generalize (N.to_uint n). intros d. induction d; simpl; rewrite ?IHd; done.
Qed.

Lemma fmt_dec_nonempty n : fmt_dec n ≠ ""%string.
Proof.
  unfold fmt_dec. intros H. assert (Hd : N.to_uint n = Decimal.Nil).
  { destruct (N.to_uint n); try done. }
  destruct n as [|p]; [done|]. simpl in Hd. by apply DecimalPos.Unsigned.to_uint_nonnil in Hd.
Qed.

Lemma digits_lack c s : is_digit c = false → all_bytes is_digit s = true → lacks c s = true.
Proof.
  intros Hc. apply all_bytes_impl. intros a Ha. apply negb_true_iff.
  destruct (Ascii.eqb_spec a c) as [->|]; [by rewrite Ha in Hc|done].
Qed.

Lemma parse_u64_fmt_dec n : (n ≤ u64_max)%N → parse_u64 (fmt_dec n) = Some n.
Proof.
  intros Hn. pose proof (fmt_dec_digits n) as Hd. pose proof (fmt_dec_nonempty n) as Hne.
  assert (Hu : DecimalString.NilEmpty.uint_of_string (fmt_dec n) = Some (N.to_uint n))
    by apply DecimalString.NilEmpty.usu.
  unfold parse_u64. destruct (fmt_dec n) as [|a s]; [done|].
  replace (match a with "+"%char => s | _ => String a s end) with (String a s).
  - rewrite Hu. simpl. rewrite DecimalN.Unsigned.of_to. apply N.leb_le in Hn. by rewrite Hn.
  - unfold all_bytes in Hd. simpl in Hd. apply andb_true_iff in Hd as [Ha _].
    destruct a as [[] [] [] [] [] [] [] []]; try done.
Qed.

Lemma length_list_ascii s : length (String.list_ascii_of_string s) = String.length s.
Proof. induction s as [|a s IH]; simpl; [done|by rewrite IH]. Qed.

Lemma length_string_of_list l : String.length (String.string_of_list_ascii l) = length l.
Proof. induction l as [|a l IH]; simpl; [done|by rewrite IH]. Qed.

Lemma take_bytes_min n s : take_bytes (Nat.min (String.length s) n) s = take_bytes n s.
Proof.
  unfold take_bytes. f_equal. rewrite <- length_list_ascii.
  destruct (Nat.min_spec (length (String.list_ascii_of_string s)) n) as [[Hl ->]|[_ ->]]; [|done].
  rewrite (take_ge _ (length _)) by lia. rewrite take_ge by lia. done.
Qed.

Lemma length_take_bytes n s : (String.length (take_bytes n s) ≤ n)%nat.
Proof. unfold take_bytes. rewrite length_string_of_list, length_take. lia. Qed.

Lemma take_bytes_all p n s : all_bytes p s = true → all_bytes p (take_bytes n s) = true.
Proof.
  unfold take_bytes, all_bytes. rewrite String.list_ascii_of_string_of_list_ascii, !forallb_forall.
  intros H a Ha. apply H. apply list_elem_of_In. apply list_elem_of_In in Ha. by eapply elem_of_take in Ha as (i & Hi & _); apply list_elem_of_lookup_2 in Hi.
Qed.

(** ** Texts that are not blank *)

(** Only white space is stripped from the end: what is stripped whole begins with some. *)
Lemma strip_end_whole l : strip_front (fun a b => is_ws2 b a) (fun a b c => is_ws3 c b a) l = [] → l ≠ [] →
  ws_head is_ws2 is_ws3 (reverse l) = true.
Proof.
  assert (Hhead : ∀ l1 tail, tail ≠ [] → (l1 ≠ [] → ws_head is_ws2 is_ws3 (reverse l1) = true) →
    ws_head is_ws2 is_ws3 tail = true → ws_head is_ws2 is_ws3 (reverse l1 ++ tail) = true).
  { intros l1 tail _ Hl Ht. destruct (decide (l1 = [])) as [->|Hne]; [exact Ht|].
    apply not_false_is_true. intros H%ws_head_app. by rewrite (Hl Hne) in H. }
  induction l as [l IH] using (well_founded_induction (well_founded_ltof _ length)). unfold ltof in IH.
  destruct l as [|a l1]; [done|]. cbn [strip_front]. intros H _. rewrite reverse_cons.
  destruct (is_ws1 a) eqn:Ha.
  { apply Hhead; [done|intros; apply IH; [simpl; lia|done..]|simpl; by rewrite Ha]. }
  destruct l1 as [|b l2]; [done|]. destruct (is_ws2 b a) eqn:Hb.
  { rewrite reverse_cons, <- (assoc_L (++)). simpl.
    apply Hhead; [done|intros; apply IH; [simpl; lia|done..]|simpl; rewrite Hb; by rewrite orb_true_r]. }
  destruct l2 as [|c l3]; [done|]. destruct (is_ws3 c b a) eqn:Hc; [|done].
  rewrite !reverse_cons, <- !(assoc_L (++)). simpl.
  apply Hhead; [done|intros; apply IH; [simpl; lia|done..]|simpl; rewrite Hc; by rewrite !orb_true_r].
Qed.

Lemma no_head_not_blank l : ws_head is_ws2 is_ws3 l = false → l ≠ [] → is_blank (String.string_of_list_ascii l) = false.
Proof.
  intros Hl Hne. unfold is_blank, trim. rewrite String.list_ascii_of_string_of_list_ascii. unfold strip_start.
  rewrite strip_front_id by done. unfold strip_end.
  destruct (strip_front _ _ (reverse l)) as [|a t] eqn:Hs.
  - pose proof (strip_end_whole (reverse l) Hs) as H. rewrite reverse_involutive in H. rewrite H in Hl; [done|].
    by intros ->%(f_equal reverse)%(eq_trans (eq_sym (reverse_involutive l))).
  - rewrite reverse_cons. by destruct (reverse t).
Qed.

Lemma trim_no_head s : ws_head is_ws2 is_ws3 (String.list_ascii_of_string (trim s)) = false.
Proof.
  unfold trim. rewrite String.list_ascii_of_string_of_list_ascii. unfold strip_end.
  set (t := strip_start _). assert (Ht : ws_head is_ws2 is_ws3 t = false) by apply strip_front_spec.
  set (w2 := fun a b => is_ws2 b a). set (w3 := fun a b c => is_ws3 c b a).
  destruct (strip_front_spec w2 w3 (reverse t)) as [_ (p & Hp & _)].
  apply (f_equal reverse) in Hp. rewrite reverse_involutive, reverse_app in Hp. rewrite Hp in Ht. by apply ws_head_app in Ht.
Qed.

(** A text that begins with a visible character is not blank. *)
Lemma is_blank_visible_head a s : visible a = true → is_blank (String a s) = false.
Proof.
  intros Ha. rewrite <- (String.string_of_list_ascii_of_string (String a s)). apply no_head_not_blank; [|done].
  assert (H1 : is_ws1 a = false) by (unfold visible, is_ws1 in *; lia).
  assert (H2 : ∀ x, is_ws2 a x = false) by (intros x; unfold visible, is_ws2 in *; lia).
  assert (H3 : ∀ x y, is_ws3 a x y = false) by (intros x y; unfold visible, is_ws3 in *; lia).
  cbn [String.list_ascii_of_string ws_head]. rewrite H1. destruct (String.list_ascii_of_string s) as [|b [|c l]]; by rewrite ?H2, ?H3.
Qed.

(** *** Texts without white space *)

Lemma has_whitespace_suffix p q : has_whitespace_bytes q = true → has_whitespace_bytes (p ++ q) = true.
Proof.
  intros Hq. induction p as [|a p IH]; [done|]. cbn [app has_whitespace_bytes]. rewrite IH. by rewrite !orb_true_r.
Qed.

Lemma ws_head_whitespace l : ws_head is_ws2 is_ws3 l = true → has_whitespace_bytes l = true.
Proof.
  destruct l as [|a [|b [|c l]]]; simpl; [done| | |]; rewrite ?orb_false_r; intros H.
  - by rewrite H.
  - apply orb_true_iff in H as [->| ->]; [done|]. by rewrite orb_true_r.
  - apply orb_true_iff in H as [->|H]; [done|]. rewrite H. by rewrite orb_true_r.
Qed.

Lemma trim_no_whitespace s : has_whitespace s = false → trim s = s.
Proof.
  unfold has_whitespace, trim. intros Hs. set (l := String.list_ascii_of_string s) in *.
  assert (Hfront : ws_head is_ws2 is_ws3 l = false).
  { apply not_true_is_false. intros H%ws_head_whitespace. by rewrite H in Hs. }
  assert (Hend : ws_head (fun a b => is_ws2 b a) (fun a b c => is_ws3 c b a) (reverse l) = false).
  { apply not_true_is_false. intros H. rewrite <- (reverse_involutive l) in Hs.
    apply not_true_iff_false in Hs. apply Hs. clear -H. destruct (reverse l) as [|a [|b [|c r]]]; [done| | |].
    all: rewrite ?reverse_cons, <- ?(assoc_L app); try apply has_whitespace_suffix; cbn [app ws_head has_whitespace_bytes] in *; rewrite ?orb_false_r in *.
    all: repeat match goal with
         | |- context [is_ws1 ?x] => destruct (is_ws1 x)
         | |- context [is_ws2 ?x ?y] => destruct (is_ws2 x y)
         | |- context [is_ws3 ?x ?y ?z] => destruct (is_ws3 x y z) end; done. }
  unfold strip_start, strip_end. rewrite (strip_front_id _ _ _ Hfront), (strip_front_id _ _ _ Hend), reverse_involutive.
  apply String.string_of_list_ascii_of_string.
Qed.
