(* ===== verification/Identity.v ===== *)
(** * Who a request acts as ([bos-app/src/http.rs])

    Capabilities, identities and scopes, and the predicate that keeps operators
    apart: the same scope is a Rust test on a loaded row and a [WHERE] clause of
    the queries.

    A response is modelled by its status and the error code in its body.  A
    [BTreeSet] of capabilities is a finite set; it is listed in the order of the
    variants. *)

From S2P Require Import Prelude RustStd StoreCore.

Module ErrorResponse.
(** The status, and the [error] field of the body. *)
Record t := mk { status : N; code : string }.
End ErrorResponse.

(* src: crates/bos-app/src/http.rs:1327-1329 error_response *)
Definition error_response (status : N) (code : string) : ErrorResponse.t := ErrorResponse.mk status code.

Definition UNAUTHORIZED : N := 401.
Definition FORBIDDEN : N := 403.
Definition UNPROCESSABLE_ENTITY : N := 422.
Definition INTERNAL_SERVER_ERROR : N := 500.
Definition SERVICE_UNAVAILABLE : N := 503.

(* src: crates/bos-app/src/http.rs:1210-1215 scope_forbidden *)
Definition scope_forbidden : ErrorResponse.t := error_response UNPROCESSABLE_ENTITY "scope_forbidden".
(* src: crates/bos-app/src/http.rs:1217-1222 capability_denied *)
Definition capability_denied : ErrorResponse.t := error_response FORBIDDEN "operator_capability_denied".

(* src: crates/bos-app/src/http.rs:1015-1016 SHARED_OPERATOR_ACTOR *)
Definition SHARED_OPERATOR_ACTOR : string := "operator".

(** ** Capabilities *)

Module OperatorCapability.
(* src: crates/bos-app/src/http.rs:1018-1028 OperatorCapability *)
Inductive t :=
| SocialPublishingRead
| SocialPublishingUpdate
| SocialPublishingApprove
| SocialPublishingStage
| SocialPublishingGenerate
| AgentMcpIngest.

#[export] Instance eq_dec : EqDecision t.
Proof. solve_decision. Defined.

(** The derived order: the position of the variant. *)
Definition rank (c : t) : nat :=
  match c with
  | SocialPublishingRead => 0
  | SocialPublishingUpdate => 1
  | SocialPublishingApprove => 2
  | SocialPublishingStage => 3
  | SocialPublishingGenerate => 4
  | AgentMcpIngest => 5
  end.
Definition variants : list t :=
  [SocialPublishingRead; SocialPublishingUpdate; SocialPublishingApprove; SocialPublishingStage;
   SocialPublishingGenerate; AgentMcpIngest].

Lemma variants_rank c : variants !! rank c = Some c.
Proof. by destruct c. Qed.

#[export] Instance countable : Countable t :=
  inj_countable rank (fun n => variants !! n) variants_rank.

(* src: crates/bos-app/src/http.rs:1031-1040 OperatorCapability::as_str *)
Definition as_str (c : t) : string :=
  match c with
  | SocialPublishingRead => "social_publishing:read"
  | SocialPublishingUpdate => "social_publishing:update"
  | SocialPublishingApprove => "social_publishing:approve"
  | SocialPublishingStage => "social_publishing:stage"
  | SocialPublishingGenerate => "social_publishing:generate"
  | AgentMcpIngest => "agent_mcp:ingest"
  end.

(* src: crates/bos-app/src/http.rs:1042-1052 OperatorCapability::parse *)
Definition parse (value : string) : option t :=
  if string_eqb value "social_publishing:read" then Some SocialPublishingRead
  else if string_eqb value "social_publishing:update" then Some SocialPublishingUpdate
  else if string_eqb value "social_publishing:approve" then Some SocialPublishingApprove
  else if string_eqb value "social_publishing:stage" then Some SocialPublishingStage
  else if string_eqb value "social_publishing:generate" then Some SocialPublishingGenerate
  else if string_eqb value "agent_mcp:ingest" then Some AgentMcpIngest
  else None.

Lemma parse_as_str c : parse (as_str c) = Some c.
Proof. by destruct c. Qed.

Lemma parse_some value c : parse value = Some c → value = as_str c.
Proof.
  unfold parse, string_eqb. repeat case_bool_decide; intros [= <-]; done.
Qed.
End OperatorCapability.
Export (hints) OperatorCapability.

Module TokenCapabilities.
(* src: crates/bos-app/src/http.rs:1055-1060 TokenCapabilities *)
Inductive t := Unscoped | Scoped (set : gset OperatorCapability.t).

(* src: crates/bos-app/src/http.rs:1063-1068 TokenCapabilities::allows *)
Definition allows (caps : t) (capability : OperatorCapability.t) : bool :=
  match caps with Unscoped => true | Scoped set => bool_decide (capability ∈ set) end.

(* src: crates/bos-app/src/http.rs:1070-1072 TokenCapabilities::allows_mcp_endpoint *)
Definition allows_mcp_endpoint (caps : t) : bool := allows caps OperatorCapability.AgentMcpIngest.

(* src: crates/bos-app/src/http.rs:1074-1076 TokenCapabilities::is_unscoped *)
Definition is_unscoped (caps : t) : bool := match caps with Unscoped => true | Scoped _ => false end.

(* src: crates/bos-app/src/http.rs:1078-1083 TokenCapabilities::as_strings *)
Definition as_strings (caps : t) : option (list string) :=
  match caps with
  | Unscoped => None
  | Scoped set =>
    Some (OperatorCapability.as_str <$> filter (fun c => c ∈ set) OperatorCapability.variants)
  end.
End TokenCapabilities.

(** ** Scopes *)

Module OperatorScope.
(* src: crates/bos-app/src/http.rs:1162-1169 OperatorScope *)
Inductive t := All | User (user_id : string).

#[export] Instance eq_dec : EqDecision t.
Proof. solve_decision. Defined.

(* src: crates/bos-app/src/http.rs:1227-1232 OperatorScope::sql_params *)
Definition sql_params (scope : t) : Z * string :=
  match scope with All => (1%Z, ""%string) | User user_id => (0%Z, user_id) end.

(** SQL's [(?all = 1 OR col = ?user)] on a row with [col], with the bound
    parameters: a comparison with NULL is not true. *)
(* src: crates/bos-app/src/http.rs:1235-1242 OperatorScope::sql_filter *)
Definition sql_filter (scope : t) (col : option string) : bool :=
  let '(scope_all, scope_user) := sql_params scope in
  (scope_all =? 1)%Z || option_any (fun v => string_eqb v scope_user) col.

(* src: crates/bos-app/src/http.rs:1245-1250 OperatorScope::matches_source_user *)
Definition matches_source_user (scope : t) (source_user_id : option string) : bool :=
  match scope with All => true | User user_id => bool_decide (source_user_id = Some user_id) end.

(* src: crates/bos-app/src/http.rs:1252-1263 OperatorScope::require_source_user *)
Definition require_source_user (scope : t) (source_user_id : option string) : Result StoreError.t unit :=
  if matches_source_user scope source_user_id then Ok tt
  else Err (StoreError.Domain "scope_forbidden").

(** The query's predicate and the test on a loaded row agree. *)
Lemma sql_filter_matches scope source_user_id :
  sql_filter scope source_user_id = matches_source_user scope source_user_id.
Proof.
  destruct scope as [|u]; [done|]. unfold sql_filter, matches_source_user, string_eqb; simpl.
  destruct source_user_id as [v|]; simpl; [|done].
  apply bool_decide_ext. split; [by intros ->|by intros [= ->]].
Qed.
End OperatorScope.

(** ** Identities *)

Module OperatorIdentity.
(* src: crates/bos-app/src/http.rs:1086-1094 OperatorIdentity *)
Record t := mk {
  actor_id : string;
  display_name : string;
  capabilities : TokenCapabilities.t;
}.

(* src: crates/bos-app/src/http.rs:1097-1103 OperatorIdentity::shared *)
Definition shared : t := mk SHARED_OPERATOR_ACTOR "Operator" TokenCapabilities.Unscoped.

(** The loop over the stored capabilities. *)
(* src: crates/bos-app/src/http.rs:1110-1117 OperatorIdentity::scoped (loop) *)
Fixpoint collect (set : gset OperatorCapability.t) (capabilities : list string)
    : Result ErrorResponse.t (gset OperatorCapability.t) :=
  match capabilities with
  | [] => Ok set
  | raw :: capabilities =>
    match OperatorCapability.parse raw with
    | None => Err capability_denied
    | Some cap => collect ({[cap]} ∪ set) capabilities
    end
  end.

(* src: crates/bos-app/src/http.rs:1105-1123 OperatorIdentity::scoped *)
Definition scoped (token_id label : string) (capabilities : list string) : Result ErrorResponse.t t :=
  set ← collect ∅ capabilities;
  Ok (mk token_id label (TokenCapabilities.Scoped set)).

(* src: crates/bos-app/src/http.rs:1125-1133 OperatorIdentity::scope *)
Definition scope (i : t) : OperatorScope.t :=
  match capabilities i with
  | TokenCapabilities.Scoped _ => OperatorScope.All
  | TokenCapabilities.Unscoped =>
    if string_eqb (actor_id i) SHARED_OPERATOR_ACTOR then OperatorScope.All
    else OperatorScope.User (actor_id i)
  end.

(* src: crates/bos-app/src/http.rs:1135-1141 OperatorIdentity::require_unscoped *)
Definition require_unscoped (i : t) : Result ErrorResponse.t unit :=
  if TokenCapabilities.is_unscoped (capabilities i) then Ok tt else Err capability_denied.

(* src: crates/bos-app/src/http.rs:1143-1149 OperatorIdentity::require_capability *)
Definition require_capability (i : t) (capability : OperatorCapability.t) : Result ErrorResponse.t unit :=
  if TokenCapabilities.allows (capabilities i) capability then Ok tt else Err capability_denied.
End OperatorIdentity.

Module AuthContext.
(* src: crates/bos-app/src/http.rs:1171-1176 AuthContext *)
Record t := mk {
  identity : OperatorIdentity.t;
  scope : OperatorScope.t;
  actor_id : string;
}.

(* src: crates/bos-app/src/http.rs:1152-1160 auth_context *)
Definition auth_context (i : OperatorIdentity.t) : t :=
  mk i (OperatorIdentity.scope i) (OperatorIdentity.actor_id i).

(** [requested.map(str::trim).filter(non-empty).unwrap_or("operator")]. *)
Definition requested_actor (requested : option string) : string :=
  match requested with
  | Some value => if is_empty (trim value) then SHARED_OPERATOR_ACTOR else trim value
  | None => SHARED_OPERATOR_ACTOR
  end.

(* src: crates/bos-app/src/http.rs:1179-1189 AuthContext::actor_or *)
Definition actor_or (auth : t) (requested : option string) : string :=
  if string_eqb (actor_id auth) SHARED_OPERATOR_ACTOR then requested_actor requested
  else actor_id auth.

(* src: crates/bos-app/src/http.rs:1191-1197 AuthContext::require_all_scope *)
Definition require_all_scope (auth : t) : Result ErrorResponse.t unit :=
  OperatorIdentity.require_unscoped (identity auth) ;;
  match scope auth with
  | OperatorScope.All => Ok tt
  | OperatorScope.User _ => Err scope_forbidden
  end.

(* src: crates/bos-app/src/http.rs:1200-1207 AuthContext::require_all_scope_or_self *)
Definition require_all_scope_or_self (auth : t) (user_id : string) : Result ErrorResponse.t unit :=
  OperatorIdentity.require_unscoped (identity auth) ;;
  match scope auth with
  | OperatorScope.All => Ok tt
  | OperatorScope.User actor => if string_eqb actor user_id then Ok tt else Err scope_forbidden
  end.
End AuthContext.

(** Stored capabilities are all known, or the token grants nothing at all. *)
Lemma collect_ok set caps set' :
  OperatorIdentity.collect set caps = Ok set' ↔
  ∃ parsed, caps = OperatorCapability.as_str <$> parsed ∧ set' = list_to_set parsed ∪ set.
Proof.
  revert set. induction caps as [|raw caps IH]; intros set; simpl.
  - split.
    + intros [= <-]. exists []. split; [done|]. set_solver.
    + intros ([|? ?] & ? & ->); [|done]. f_equal. set_solver.
  - destruct (OperatorCapability.parse raw) as [cap|] eqn:Hp.
    + apply OperatorCapability.parse_some in Hp as ->. rewrite IH. split.
      * intros (parsed & -> & ->). exists (cap :: parsed). split; [done|]. simpl. set_solver.
      * intros ([|cap' parsed] & Heq & ->); [done|]. simpl in Heq. injection Heq as Hc ->.
        apply (f_equal OperatorCapability.parse) in Hc. rewrite !OperatorCapability.parse_as_str in Hc.
        injection Hc as ->. exists parsed. split; [done|]. simpl. set_solver.
    + split; [done|]. intros ([|cap' parsed] & Heq & _); [done|]. simpl in Heq. injection Heq as -> _.
      by rewrite OperatorCapability.parse_as_str in Hp.
Qed.
