(* ===== verification/AccountingRecords.v ===== *)
(** * What the accounting slice keeps ([bos-integrations/src/accounting_read.rs],
    [bos-app/src/slices/accounting/store.rs])

    The records a provider answers with, and the tables they are cached in.  Each
    cache table has the columns of the provider's record and three more: the hash of
    the record's contents, when it was first seen and when it was last written
    ([Cached]).  The tables of the slice are one record, a part of the database of
    Schema.v. *)

From S2P Require Import Prelude RustStd.

(** ** The provider's records *)

(* src: crates/bos-integrations/src/accounting_read.rs:11-25 AccountingError *)
Inductive AccountingError :=
| RateLimited (retry_after_ms : option N) (message : string)
| AuthExpired (message : string)
| Retryable (code message : string)
| Permanent (code message : string).

(* src: crates/bos-integrations/src/accounting_read.rs:28-35 AccountingError::fmt *)
Definition accounting_error_text (e : AccountingError) : string :=
  match e with
  | RateLimited _ message => "rate_limited: " +:+ message
  | AuthExpired message => "auth_expired: " +:+ message
  | Retryable code message | Permanent code message => code +:+ ": " +:+ message
  end.

Definition ACCOUNTING_MAX_PAGE_SIZE : N := 100.

Module PageRequest.
(* src: crates/bos-integrations/src/accounting_read.rs:38-50 PageRequest *)
Record t := mk {
  since_updated_at : option string;
  start_position : N;
  page_size : N;
}.

(* src: crates/bos-integrations/src/accounting_read.rs:53-55 PageRequest::effective_page_size *)
Definition effective_page_size (p : t) : N := N.max 1 (N.min (page_size p) ACCOUNTING_MAX_PAGE_SIZE).
End PageRequest.

(* src: crates/bos-integrations/src/accounting_read.rs:58-64 Page *)
Record Page (T : Type) := mk_page {
  records : list T;
  requested_page_size : N;
}.
Arguments mk_page {T} _ _.
Arguments records {T} _.
Arguments requested_page_size {T} _.

Module InvoiceRecord.
(* src: crates/bos-integrations/src/accounting_read.rs:66-81 InvoiceRecord *)
Record t := mk {
  invoice_id : string;
  doc_number : option string;
  customer_id : option string;
  customer_name : option string;
  txn_date : option string;
  due_date : option string;
  total_amt_cents : Z;
  balance_cents : Z;
  voided : bool;
  updated_at : string;
}.
End InvoiceRecord.

Module BillRecord.
(* src: crates/bos-integrations/src/accounting_read.rs:83-97 BillRecord *)
Record t := mk {
  bill_id : string;
  vendor_id : option string;
  vendor_name : option string;
  txn_date : option string;
  due_date : option string;
  total_amt_cents : Z;
  balance_cents : Z;
  voided : bool;
  updated_at : string;
}.
End BillRecord.

(* src: crates/bos-integrations/src/accounting_read.rs:99-104 TierSource *)
Inductive TierSource := CustomerTypeRefName | CustomField | NotProvided.

(* src: crates/bos-integrations/src/accounting_read.rs:107-113 TierSource::as_str *)
Definition tier_source_str (s : TierSource) : string :=
  match s with
  | CustomerTypeRefName => "customer_type_ref"
  | CustomField => "custom_field"
  | NotProvided => "not_provided"
  end.

Module CustomerRecord.
(* src: crates/bos-integrations/src/accounting_read.rs:116-127 CustomerRecord *)
Record t := mk {
  customer_id : string;
  display_name : string;
  company_name : option string;
  email : option string;
  phone : option string;
  active : bool;
  tier_raw : option string;
  tier_source : TierSource;
  updated_at : option string;
}.
End CustomerRecord.

(* src: crates/bos-integrations/src/accounting_read.rs:129-135 PnlSummary *)
Record PnlSummary := {
  total_income : Z;
  total_cogs : Z;
  gross_profit : Z;
}.

(* src: crates/bos-integrations/src/accounting_read.rs:137-142 PnlDailySummary *)
Record PnlDailySummary := {
  day_date : string;
  day_income : Z;
}.

(* src: crates/bos-integrations/src/accounting_read.rs:144-148 PnlSummarizeColumnBy *)
Inductive PnlSummarizeColumnBy := ByTotal | ByDays.

(* src: crates/bos-integrations/src/accounting_read.rs:150-155 PnlReportRequest *)
Record PnlReportRequest := {
  start_date : string;
  end_date : string;
  summarize_column_by : PnlSummarizeColumnBy;
}.

(* src: crates/bos-integrations/src/accounting_read.rs:175-179 PnlReport *)
Record PnlReport := {
  summary : PnlSummary;
  daily_income : list PnlDailySummary;
}.

(* src: crates/bos-integrations/src/accounting_read.rs:181-184 BalanceSheetSummary *)
Record BalanceSheetSummary := {
  cash_on_hand : Z;
}.

(* src: crates/bos-integrations/src/qbo_oauth.rs:75-83 QboTokenGrant *)
Record QboTokenGrant := {
  grant_access_token : string;
  grant_access_token_expires_at_ms : N;
  grant_refresh_token : string;
  grant_refresh_token_expires_at_ms : N;
}.

(** ** The tables *)

(** A cached record. *)
Record Cached (R : Type) := mk_cached {
  cached_record : R;
  content_hash : string;
  first_seen_at_ms : Z;
  last_written_at_ms : Z;
}.
Arguments mk_cached {R} _ _ _ _.
Arguments cached_record {R} _.
Arguments content_hash {R} _.
Arguments first_seen_at_ms {R} _.
Arguments last_written_at_ms {R} _.

Module PnlSnapshotRow.
(* src: crates/bos-app/src/slices/accounting/store.rs:1175-1185 PnlSnapshotRow *)
Record t := mk {
  period_kind : string;
  period_start : string;
  period_end : string;
  total_income_cents : Z;
  total_cogs_cents : Z;
  gross_profit_cents : Z;
  is_complete : bool;
}.
End PnlSnapshotRow.

Module BalanceSheetSnapshotRow.
(* src: crates/bos-app/src/slices/accounting/store.rs:1072-1076 BalanceSheetSnapshotRow *)
Record t := mk {
  as_of_date : string;
  cash_on_hand_cents : Z;
}.
End BalanceSheetSnapshotRow.

Module SyncCursorRow.
(* src: crates/bos-app/src/persistence/migrations/0021_qbo_views.sql:28-39 qbo_sync_cursors *)
Record t := mk {
  high_water_updated_at : option string;
  walk_since : option string;
  walk_max_updated_at : option string;
  next_start_position : Z;
  backfill_complete : bool;
  rate_limited_until_ms : Z;
  last_error : option string;
  last_advanced_at_ms : option Z;
}.
End SyncCursorRow.

Module QboCredentialRow.
(* src: crates/bos-app/src/persistence/migrations/0021_qbo_views.sql:8-20 qbo_credentials *)
Record t := mk {
  realm_id : string;
  environment : string;
  refresh_token : string;
  refresh_token_expires_at_ms : Z;
  access_token : option string;
  access_token_expires_at_ms : Z;
  connected_by_user_id : string;
  connected_at_ms : Z;
  last_refreshed_at_ms : option Z;
  reconnect_required : bool;
  connection_error_code : option string;
  connection_error_at_ms : option Z;
}.

(** [SET refresh_token = ?, .., reconnect_required = 0, connection_error_code = NULL, ..]. *)
Definition refresh (r : t) (grant : QboTokenGrant) (refresh_expires access_expires now : Z) : t :=
  mk (realm_id r) (environment r) (grant_refresh_token grant) refresh_expires (Some (grant_access_token grant))
    access_expires (connected_by_user_id r) (connected_at_ms r) (Some now) false None None.

(** [SET reconnect_required = 1, connection_error_code = ?2, connection_error_at_ms = ?3]. *)
Definition require_reconnect (r : t) (error_code : string) (now : Z) : t :=
  mk (realm_id r) (environment r) (refresh_token r) (refresh_token_expires_at_ms r) (access_token r)
    (access_token_expires_at_ms r) (connected_by_user_id r) (connected_at_ms r) (last_refreshed_at_ms r)
    true (Some error_code) (Some now).
End QboCredentialRow.

(** Keys: (client, provider's id), (client, entity), (client, date), (client, (kind, start)). *)
Record AccountingTables := mk_accounting {
  accounting_sync_cursors : gmap (string * string) SyncCursorRow.t;
  accounting_invoice_snapshots : gmap (string * string) (Cached InvoiceRecord.t);
  accounting_bill_snapshots : gmap (string * string) (Cached BillRecord.t);
  accounting_customer_snapshots : gmap (string * string) (Cached CustomerRecord.t);
  accounting_pnl_snapshots : gmap (string * (string * string)) (Cached PnlSnapshotRow.t);
  accounting_balance_sheet_snapshots : gmap (string * string) (Cached BalanceSheetSnapshotRow.t);
}.

Definition empty_accounting : AccountingTables := mk_accounting ∅ ∅ ∅ ∅ ∅ ∅.

Definition set_sync_cursors (t : AccountingTables) v : AccountingTables :=
  mk_accounting v (accounting_invoice_snapshots t) (accounting_bill_snapshots t) (accounting_customer_snapshots t)
    (accounting_pnl_snapshots t) (accounting_balance_sheet_snapshots t).
Definition set_invoice_snapshots (t : AccountingTables) v : AccountingTables :=
  mk_accounting (accounting_sync_cursors t) v (accounting_bill_snapshots t) (accounting_customer_snapshots t)
    (accounting_pnl_snapshots t) (accounting_balance_sheet_snapshots t).
Definition set_bill_snapshots (t : AccountingTables) v : AccountingTables :=
  mk_accounting (accounting_sync_cursors t) (accounting_invoice_snapshots t) v (accounting_customer_snapshots t)
    (accounting_pnl_snapshots t) (accounting_balance_sheet_snapshots t).
Definition set_customer_snapshots (t : AccountingTables) v : AccountingTables :=
  mk_accounting (accounting_sync_cursors t) (accounting_invoice_snapshots t) (accounting_bill_snapshots t) v
    (accounting_pnl_snapshots t) (accounting_balance_sheet_snapshots t).
Definition set_pnl_snapshots (t : AccountingTables) v : AccountingTables :=
  mk_accounting (accounting_sync_cursors t) (accounting_invoice_snapshots t) (accounting_bill_snapshots t)
    (accounting_customer_snapshots t) v (accounting_balance_sheet_snapshots t).
Definition set_balance_sheet_snapshots (t : AccountingTables) v : AccountingTables :=
  mk_accounting (accounting_sync_cursors t) (accounting_invoice_snapshots t) (accounting_bill_snapshots t)
    (accounting_customer_snapshots t) (accounting_pnl_snapshots t) v.
