(* ===== verification/Schema.v ===== *)
(** * The tables of the slices ([bos-app/src/persistence/migrations])

    One database holds the spine's tables (StoreCore), the outbox's jobs
    (AppOutbox) and the slices' tables below.  A table with a primary key is a
    finite map by that key; its rows carry every column.  A column that the
    program only writes as 0 or 1 is a boolean; integers are signed 64-bit.

    [update_tables] is a statement that changes slices' tables only. *)

From S2P Require Import Prelude RustStd StoreCore AppOutbox AccountingRecords.

(** ** The drafts that move money: the rows of ledger entry drafts (a received
    payment to be recorded) and invoice drafts, and the invoicing defaults; the
    tables are one record, a part of the database below. *)

Module LedgerDraftRow.
(* src: crates/bos-app/src/persistence/migrations/0024_ledger_entry_drafts.sql:6-25 ledger_entry_drafts *)
Record t := mk {
  client_id : string;
  draft_id : string;
  item_id : string;
  source_kind : string;
  source_ref : string;
  source_user_id : option string;
  status : string;
  payer_name : string;
  payer_email : option string;
  amount_cents : Z;
  paid_date : string;
  description : string;
  provenance_json : string;
  model : string;
  confidence : string;
  outbox_job_id : option string;
  created_at_ms : Z;
  updated_at_ms : Z;
}.

(** [SET status = 'approved', outbox_job_id = ?3, updated_at_ms = ?4]. *)
Definition approve (r : t) (job_id : string) (now : Z) : t :=
  mk (client_id r) (draft_id r) (item_id r) (source_kind r) (source_ref r) (source_user_id r) "approved" (payer_name r)
    (payer_email r) (amount_cents r) (paid_date r) (description r) (provenance_json r) (model r) (confidence r)
    (Some job_id) (created_at_ms r) now.
(** [SET status = 'rejected', updated_at_ms = ?3]. *)
Definition reject (r : t) (now : Z) : t :=
  mk (client_id r) (draft_id r) (item_id r) (source_kind r) (source_ref r) (source_user_id r) "rejected" (payer_name r)
    (payer_email r) (amount_cents r) (paid_date r) (description r) (provenance_json r) (model r) (confidence r)
    (outbox_job_id r) (created_at_ms r) now.
(** [SET payer_name = ?3, .., updated_at_ms = ?8]. *)
Definition edit (r : t) (payer_name : string) (payer_email : option string) (amount_cents : Z) (paid_date description : string)
    (now : Z) : t :=
  mk (client_id r) (draft_id r) (item_id r) (source_kind r) (source_ref r) (source_user_id r) (status r) payer_name
    payer_email amount_cents paid_date description (provenance_json r) (model r) (confidence r) (outbox_job_id r)
    (created_at_ms r) now.
End LedgerDraftRow.

Module InvoiceDraftRow.
(* src: crates/bos-app/src/persistence/migrations/0030_invoice_drafts.sql:8-30 invoice_drafts *)
Record t := mk {
  client_id : string;
  draft_id : string;
  item_id : string;
  source_kind : string;
  source_ref : string;
  source_user_id : option string;
  status : string;
  customer_name : string;
  customer_email : option string;
  currency : string;
  line_items_json : string;
  subtotal_cents : Z;
  total_cents : Z;
  due_date : option string;
  memo : string;
  provenance_json : string;
  model : string;
  confidence : string;
  outbox_job_id : option string;
  created_at_ms : Z;
  updated_at_ms : Z;
}.

(** [SET status = 'approved', outbox_job_id = ?3, updated_at_ms = ?4]. *)
Definition approve (r : t) (job_id : string) (now : Z) : t :=
  mk (client_id r) (draft_id r) (item_id r) (source_kind r) (source_ref r) (source_user_id r) "approved" (customer_name r)
    (customer_email r) (currency r) (line_items_json r) (subtotal_cents r) (total_cents r) (due_date r) (memo r)
    (provenance_json r) (model r) (confidence r) (Some job_id) (created_at_ms r) now.
(** [SET status = 'rejected', updated_at_ms = ?3]. *)
Definition reject (r : t) (now : Z) : t :=
  mk (client_id r) (draft_id r) (item_id r) (source_kind r) (source_ref r) (source_user_id r) "rejected" (customer_name r)
    (customer_email r) (currency r) (line_items_json r) (subtotal_cents r) (total_cents r) (due_date r) (memo r)
    (provenance_json r) (model r) (confidence r) (outbox_job_id r) (created_at_ms r) now.
(** [SET customer_name = ?3, .., subtotal_cents = ?8, total_cents = ?8, updated_at_ms = ?9]. *)
Definition edit (r : t) (customer_name : string) (customer_email due_date : option string) (memo line_items_json : string)
    (total : Z) (now : Z) : t :=
  mk (client_id r) (draft_id r) (item_id r) (source_kind r) (source_ref r) (source_user_id r) (status r) customer_name
    customer_email (currency r) line_items_json total total due_date memo (provenance_json r) (model r) (confidence r)
    (outbox_job_id r) (created_at_ms r) now.
(** [SET customer_name = ?3, customer_email = ?4, provenance_json = ?5, updated_at_ms = ?6]. *)
Definition enrich (r : t) (customer_name : string) (customer_email : option string) (provenance_json : string) (now : Z) : t :=
  mk (client_id r) (draft_id r) (item_id r) (source_kind r) (source_ref r) (source_user_id r) (status r) customer_name
    customer_email (currency r) (line_items_json r) (subtotal_cents r) (total_cents r) (due_date r) (memo r)
    provenance_json (model r) (confidence r) (outbox_job_id r) (created_at_ms r) now.
End InvoiceDraftRow.

Module InvoiceSettingsRow.
(* src: crates/bos-app/src/persistence/migrations/0042_invoice_settings.sql:5-9 invoice_settings *)
Record t := mk {
  default_due_days : option Z;
  updated_at_ms : Z;
}.
End InvoiceSettingsRow.

(** Keys: (client, draft), (client, draft), client. *)
Record MoneyTables := mk_money {
  ledger_entry_drafts : gmap (string * string) LedgerDraftRow.t;
  invoice_drafts : gmap (string * string) InvoiceDraftRow.t;
  invoice_settings : gmap string InvoiceSettingsRow.t;
}.

Definition empty_money : MoneyTables := mk_money ∅ ∅ ∅.

Definition set_ledger_entry_drafts (t : MoneyTables) v : MoneyTables := mk_money v (invoice_drafts t) (invoice_settings t).
Definition set_invoice_drafts (t : MoneyTables) v : MoneyTables := mk_money (ledger_entry_drafts t) v (invoice_settings t).
Definition set_invoice_settings (t : MoneyTables) v : MoneyTables := mk_money (ledger_entry_drafts t) (invoice_drafts t) v.

(** ** The slices' rows and the whole database *)

Module CalendarDraftRow.
(** With the columns later migrations add. *)
(* src: crates/bos-app/src/persistence/migrations/0009_calendar_event_drafts.sql:5-25 calendar_event_drafts *)
Record t := mk {
  client_id : string;
  draft_id : string;
  item_id : string;
  source_kind : string;
  source_ref : string;
  source_user_id : option string;
  status : string;
  title : string;
  start_at : string;
  end_at : string;
  timezone : option string;
  location : option string;
  description : option string;
  calendar_id : option string;
  attendees_json : string;
  send_invitations : bool;
  provenance_json : string;
  model : string;
  confidence : string;
  outbox_job_id : option string;
  created_at_ms : Z;
  updated_at_ms : Z;
}.

(** [SET status = 'approved', outbox_job_id = ?3, updated_at_ms = ?4]. *)
Definition approve (r : t) (job_id : string) (now : Z) : t :=
  mk (client_id r) (draft_id r) (item_id r) (source_kind r) (source_ref r) (source_user_id r) "approved" (title r) (start_at r)
    (end_at r) (timezone r) (location r) (description r) (calendar_id r) (attendees_json r) (send_invitations r)
    (provenance_json r) (model r) (confidence r) (Some job_id) (created_at_ms r) now.
(** [SET status = 'rejected', updated_at_ms = ?3]. *)
Definition reject (r : t) (now : Z) : t :=
  mk (client_id r) (draft_id r) (item_id r) (source_kind r) (source_ref r) (source_user_id r) "rejected" (title r) (start_at r)
    (end_at r) (timezone r) (location r) (description r) (calendar_id r) (attendees_json r) (send_invitations r)
    (provenance_json r) (model r) (confidence r) (outbox_job_id r) (created_at_ms r) now.
(** [SET title = ?3, .., send_invitations = ?11, updated_at_ms = ?12]. *)
Definition edit (r : t) (title start_at end_at : string) (timezone location description calendar_id : option string)
    (attendees_json : string) (send_invitations : bool) (now : Z) : t :=
  mk (client_id r) (draft_id r) (item_id r) (source_kind r) (source_ref r) (source_user_id r) (status r) title start_at end_at
    timezone location description calendar_id attendees_json send_invitations (provenance_json r) (model r) (confidence r)
    (outbox_job_id r) (created_at_ms r) now.
End CalendarDraftRow.

Module OperatorUserRow.
(* src: crates/bos-app/src/persistence/migrations/0018_operator_users.sql:3-15 operator_users *)
Record t := mk {
  client_id : string;
  user_id : string;
  display_name : string;
  token : string;
  active : bool;
  created_at_ms : Z;
  updated_at_ms : Z;
  archived_at_ms : option Z;
  default_calendar_id : option string;
}.

Definition key (r : t) : string * string := (client_id r, user_id r).

(** [SET active = ?, updated_at_ms = ?]. *)
Definition set_active (r : t) (active : bool) (now : Z) : t :=
  mk (client_id r) (user_id r) (display_name r) (token r) active (created_at_ms r) now
    (archived_at_ms r) (default_calendar_id r).
(** [SET active = 0, archived_at_ms = ?, updated_at_ms = ?]. *)
Definition archive (r : t) (now : Z) : t :=
  mk (client_id r) (user_id r) (display_name r) (token r) false (created_at_ms r) now
    (Some now) (default_calendar_id r).
(** [SET token = ?, updated_at_ms = ?]. *)
Definition set_token (r : t) (token : string) (now : Z) : t :=
  mk (client_id r) (user_id r) (display_name r) token (active r) (created_at_ms r) now
    (archived_at_ms r) (default_calendar_id r).
(** [SET default_calendar_id = ?, updated_at_ms = ?]. *)
Definition set_calendar (r : t) (calendar : option string) (now : Z) : t :=
  mk (client_id r) (user_id r) (display_name r) (token r) (active r) (created_at_ms r) now
    (archived_at_ms r) calendar.
End OperatorUserRow.

Module OperatorApiTokenRow.
(* src: crates/bos-app/src/persistence/migrations/0114_operator_api_tokens.sql:5-20 operator_api_tokens *)
Record t := mk {
  client_id : string;
  token_id : string;
  label : string;
  token_hash : string;
  capabilities_json : string;
  active : bool;
  created_by : string;
  created_at_ms : Z;
  updated_at_ms : Z;
  revoked_at_ms : option Z;
}.

Definition key (r : t) : string * string := (client_id r, token_id r).

(** [SET active = ?, updated_at_ms = ?]. *)
Definition set_active (r : t) (active : bool) (now : Z) : t :=
  mk (client_id r) (token_id r) (label r) (token_hash r) (capabilities_json r) active (created_by r)
    (created_at_ms r) now (revoked_at_ms r).
(** [SET active = 0, revoked_at_ms = ?, updated_at_ms = ?]. *)
Definition revoke (r : t) (now : Z) : t :=
  mk (client_id r) (token_id r) (label r) (token_hash r) (capabilities_json r) false (created_by r)
    (created_at_ms r) now (Some now).
(** [SET token_hash = ?, updated_at_ms = ?]. *)
Definition set_hash (r : t) (token_hash : string) (now : Z) : t :=
  mk (client_id r) (token_id r) (label r) token_hash (capabilities_json r) (active r) (created_by r)
    (created_at_ms r) now (revoked_at_ms r).
End OperatorApiTokenRow.

Module OAuthStateRow.
(** The key is (client, connector, state_hash). *)
(* src: crates/bos-app/src/persistence/migrations/0105_connector_oauth_states.sql:1-9 connector_oauth_states *)
Record t := mk {
  user_id : string;
  issued_at_ms : Z;
  expires_at_ms : Z;
}.
End OAuthStateRow.

Module WorkItemRow.
(* src: crates/bos-app/src/persistence/migrations/0006_work_queue.sql:5-21 work_items *)
Record t := mk {
  client_id : string;
  item_id : string;
  source_kind : string;
  source_ref : string;
  category_id : string;
  title : string;
  summary : string;
  packet_kinds_json : string;
  status : string;
  accept_actor : option string;
  ai_suggested : bool;
  rationale : string;
  produce_guidance : string;
  source_user_id : option string;
  assignee_user_id : option string;
  created_at_ms : Z;
  updated_at_ms : Z;
}.

Definition key (r : t) : string * string := (client_id r, item_id r).

(** [SET status = ?, accept_actor = ?, updated_at_ms = ?]. *)
Definition set_status (r : t) (status : string) (accept_actor : option string) (now : Z) : t :=
  mk (client_id r) (item_id r) (source_kind r) (source_ref r) (category_id r) (title r) (summary r)
    (packet_kinds_json r) status accept_actor (ai_suggested r) (rationale r) (produce_guidance r)
    (source_user_id r) (assignee_user_id r) (created_at_ms r) now.
(** [SET packet_kinds_json = ?, updated_at_ms = ?]. *)
Definition set_kinds (r : t) (kinds : string) (now : Z) : t :=
  mk (client_id r) (item_id r) (source_kind r) (source_ref r) (category_id r) (title r) (summary r)
    kinds (status r) (accept_actor r) (ai_suggested r) (rationale r) (produce_guidance r)
    (source_user_id r) (assignee_user_id r) (created_at_ms r) now.
(** [SET packet_kinds_json = ?, ai_suggested = 1, rationale = ?, updated_at_ms = ?]. *)
Definition set_ai_kinds (r : t) (kinds rationale : string) (now : Z) : t :=
  mk (client_id r) (item_id r) (source_kind r) (source_ref r) (category_id r) (title r) (summary r)
    kinds (status r) (accept_actor r) true rationale (produce_guidance r)
    (source_user_id r) (assignee_user_id r) (created_at_ms r) now.
(** [SET produce_guidance = ?, updated_at_ms = ?]. *)
Definition set_guidance (r : t) (guidance : string) (now : Z) : t :=
  mk (client_id r) (item_id r) (source_kind r) (source_ref r) (category_id r) (title r) (summary r)
    (packet_kinds_json r) (status r) (accept_actor r) (ai_suggested r) (rationale r) guidance
    (source_user_id r) (assignee_user_id r) (created_at_ms r) now.
(** [SET assignee_user_id = ?, updated_at_ms = ?]. *)
Definition set_assignee (r : t) (assignee : option string) (now : Z) : t :=
  mk (client_id r) (item_id r) (source_kind r) (source_ref r) (category_id r) (title r) (summary r)
    (packet_kinds_json r) (status r) (accept_actor r) (ai_suggested r) (rationale r) (produce_guidance r)
    (source_user_id r) assignee (created_at_ms r) now.
End WorkItemRow.

Module PolicyRow.
(* src: crates/bos-app/src/persistence/migrations/0006_work_queue.sql:26-33 work_queue_policies *)
Record t := mk {
  client_id : string;
  category_id : string;
  create_work_item : bool;
  packet_kinds_json : string;
  auto_produce : bool;
  ai_suggestible_packet_kinds_json : string;
  ai_suggestible_gmail_scope : string;
  ai_suggestible_gmail_categories_json : string;
  updated_at_ms : Z;
}.
End PolicyRow.

Module CrmNoteDraftRow.
(* src: crates/bos-app/src/persistence/migrations/0013_crm_note_drafts.sql:5-26 crm_note_drafts *)
Record t := mk {
  client_id : string;
  draft_id : string;
  item_id : string;
  source_kind : string;
  source_ref : string;
  source_user_id : option string;
  status : string;
  note_body : string;
  contact_email : option string;
  occurred_at : string;
  provenance_json : string;
  model : string;
  confidence : string;
  outbox_job_id : option string;
  created_at_ms : Z;
  updated_at_ms : Z;
}.

(** [SET status = 'approved', outbox_job_id = ?, updated_at_ms = ?]. *)
Definition approve (r : t) (job_id : string) (now : Z) : t :=
  mk (client_id r) (draft_id r) (item_id r) (source_kind r) (source_ref r) (source_user_id r) "approved"
    (note_body r) (contact_email r) (occurred_at r) (provenance_json r) (model r) (confidence r)
    (Some job_id) (created_at_ms r) now.
(** [SET status = 'rejected', updated_at_ms = ?]. *)
Definition reject (r : t) (now : Z) : t :=
  mk (client_id r) (draft_id r) (item_id r) (source_kind r) (source_ref r) (source_user_id r) "rejected"
    (note_body r) (contact_email r) (occurred_at r) (provenance_json r) (model r) (confidence r)
    (outbox_job_id r) (created_at_ms r) now.
(** [SET note_body = ?, contact_email = ?, updated_at_ms = ?]. *)
Definition edit (r : t) (body : string) (email : option string) (now : Z) : t :=
  mk (client_id r) (draft_id r) (item_id r) (source_kind r) (source_ref r) (source_user_id r) (status r)
    body email (occurred_at r) (provenance_json r) (model r) (confidence r)
    (outbox_job_id r) (created_at_ms r) now.
End CrmNoteDraftRow.

Module FollowUpDraftRow.
(* src: crates/bos-app/src/persistence/migrations/0010_follow_up_tasks.sql:5-22 follow_up_task_drafts *)
Record t := mk {
  client_id : string;
  draft_id : string;
  item_id : string;
  source_kind : string;
  source_ref : string;
  source_user_id : option string;
  status : string;
  title : string;
  due_date : option string;
  context : string;
  provenance_json : string;
  model : string;
  confidence : string;
  task_id : option string;
  created_at_ms : Z;
  updated_at_ms : Z;
}.

(** [SET status = 'approved', task_id = ?, updated_at_ms = ?]. *)
Definition approve (r : t) (task_id : option string) (now : Z) : t :=
  mk (client_id r) (draft_id r) (item_id r) (source_kind r) (source_ref r) (source_user_id r) "approved"
    (title r) (due_date r) (context r) (provenance_json r) (model r) (confidence r) task_id (created_at_ms r) now.
(** [SET status = 'rejected', updated_at_ms = ?]. *)
Definition reject (r : t) (now : Z) : t :=
  mk (client_id r) (draft_id r) (item_id r) (source_kind r) (source_ref r) (source_user_id r) "rejected"
    (title r) (due_date r) (context r) (provenance_json r) (model r) (confidence r) (task_id r) (created_at_ms r) now.
(** [SET title = ?, due_date = ?, context = ?, updated_at_ms = ?]. *)
Definition edit (r : t) (title : string) (due_date : option string) (context : string) (now : Z) : t :=
  mk (client_id r) (draft_id r) (item_id r) (source_kind r) (source_ref r) (source_user_id r) (status r)
    title due_date context (provenance_json r) (model r) (confidence r) (task_id r) (created_at_ms r) now.
End FollowUpDraftRow.

Module TaskRow.
(* src: crates/bos-app/src/persistence/migrations/0010_follow_up_tasks.sql:33-45 tasks *)
Record t := mk {
  client_id : string;
  task_id : string;
  title : string;
  due_date : option string;
  context : string;
  source_kind : string;
  source_ref : string;
  source_user_id : option string;
  status : string;
  created_at_ms : Z;
  updated_at_ms : Z;
}.

(** [SET status = ?, updated_at_ms = ?]. *)
Definition set_status (r : t) (status : string) (now : Z) : t :=
  mk (client_id r) (task_id r) (title r) (due_date r) (context r) (source_kind r) (source_ref r)
    (source_user_id r) status (created_at_ms r) now.
End TaskRow.

Module WorkflowRunRow.
(* src: crates/bos-app/src/persistence/migrations/0045_workflow_runs.sql:1-14 workflow_runs *)
Record t := mk {
  client_id : string;
  run_id : string;
  workflow : string;
  version : string;
  profile_id : string;
  build_sha : option string;
  status : string;
  input_snapshot_json : string;
  terminal_json : option string;
  started_at_ms : Z;
  finished_at_ms : option Z;
  updated_at_ms : Z;
}.

(** [SET status = ?, updated_at_ms = ?]. *)
Definition set_status (r : t) (status : string) (now : Z) : t :=
  mk (client_id r) (run_id r) (workflow r) (version r) (profile_id r) (build_sha r) status
    (input_snapshot_json r) (terminal_json r) (started_at_ms r) (finished_at_ms r) now.
(** [SET status = ?, terminal_json = ?, finished_at_ms = ?, updated_at_ms = ?]. *)
Definition finish (r : t) (status terminal : string) (now : Z) : t :=
  mk (client_id r) (run_id r) (workflow r) (version r) (profile_id r) (build_sha r) status
    (input_snapshot_json r) (Some terminal) (started_at_ms r) (Some now) now.
End WorkflowRunRow.

Module WorkflowStepRow.
(** The key is (client, run, step_index). *)
(* src: crates/bos-app/src/persistence/migrations/0046_quote_workflow.sql:1-17 workflow_steps *)
Record t := mk {
  node : string;
  node_kind : string;
  input_hash : option string;
  output_hash : option string;
  decision : option string;
  input_values_json : string;
  output_values_json : string;
  llm_usage_json : option string;
  latency_ms : Z;
  status : string;
  error_code : option string;
  receipt_id : string;
  created_at_ms : Z;
}.
End WorkflowStepRow.

Module QuoteDraftRow.
(* src: crates/bos-app/src/persistence/migrations/0046_quote_workflow.sql:22-42 quote_drafts *)
Record t := mk {
  client_id : string;
  draft_id : string;
  run_id : string;
  source_kind : string;
  source_ref : string;
  status : string;
  customer_name : string;
  summary : string;
  line_items_json : string;
  subtotal_cents : Z;
  policy_notes_json : string;
  guardrails_json : option string;
  guardrail_config_json : option string;
  outbox_job_id : option string;
  created_at_ms : Z;
  updated_at_ms : Z;
}.

(** [SET status = 'approved', outbox_job_id = ?, updated_at_ms = ?]. *)
Definition approve (r : t) (job_id : string) (now : Z) : t :=
  mk (client_id r) (draft_id r) (run_id r) (source_kind r) (source_ref r) "approved" (customer_name r)
    (summary r) (line_items_json r) (subtotal_cents r) (policy_notes_json r) (guardrails_json r)
    (guardrail_config_json r) (Some job_id) (created_at_ms r) now.
(** [SET status = 'rejected', updated_at_ms = ?]. *)
Definition reject (r : t) (now : Z) : t :=
  mk (client_id r) (draft_id r) (run_id r) (source_kind r) (source_ref r) "rejected" (customer_name r)
    (summary r) (line_items_json r) (subtotal_cents r) (policy_notes_json r) (guardrails_json r)
    (guardrail_config_json r) (outbox_job_id r) (created_at_ms r) now.
End QuoteDraftRow.

(** ** The database *)

Record SliceTables := mk_slices {
  operator_users : gmap (string * string) OperatorUserRow.t;
  operator_api_tokens : gmap (string * string) OperatorApiTokenRow.t;
  connector_oauth_states : gmap (string * string * string) OAuthStateRow.t;
  (** The keys (client, user, service) of the stored Google credentials. *)
  google_oauth_credentials : gset (string * string * string);
  (** By client. *)
  qbo_credentials : gmap string QboCredentialRow.t;
  (** The caches and cursors of the accounting slice. *)
  accounting : AccountingTables;
  work_items : gmap (string * string) WorkItemRow.t;
  (** [created_at_ms] by (client, item, user). *)
  work_item_visibility : gmap (string * string * string) Z;
  work_queue_policies : gmap (string * string) PolicyRow.t;
  crm_note_drafts : gmap (string * string) CrmNoteDraftRow.t;
  follow_up_task_drafts : gmap (string * string) FollowUpDraftRow.t;
  follow_up_tasks : gmap (string * string) TaskRow.t;
  workflow_runs : gmap (string * string) WorkflowRunRow.t;
  workflow_steps : gmap (string * string * Z) WorkflowStepRow.t;
  quote_drafts : gmap (string * string) QuoteDraftRow.t;
  (** The ledger's and the invoices' drafts. *)
  money : MoneyTables;
  calendar_event_drafts : gmap (string * string) CalendarDraftRow.t;
}.

Definition empty_slices : SliceTables := mk_slices ∅ ∅ ∅ ∅ ∅ empty_accounting ∅ ∅ ∅ ∅ ∅ ∅ ∅ ∅ ∅ empty_money ∅.

Definition set_operator_users (t : SliceTables) v : SliceTables :=
  mk_slices v (operator_api_tokens t) (connector_oauth_states t) (google_oauth_credentials t)
    (qbo_credentials t) (accounting t) (work_items t) (work_item_visibility t) (work_queue_policies t) (crm_note_drafts t)
    (follow_up_task_drafts t) (follow_up_tasks t) (workflow_runs t) (workflow_steps t) (quote_drafts t) (money t) (calendar_event_drafts t).
Definition set_operator_api_tokens (t : SliceTables) v : SliceTables :=
  mk_slices (operator_users t) v (connector_oauth_states t) (google_oauth_credentials t) (qbo_credentials t) (accounting t)
    (work_items t) (work_item_visibility t) (work_queue_policies t) (crm_note_drafts t)
    (follow_up_task_drafts t) (follow_up_tasks t) (workflow_runs t) (workflow_steps t) (quote_drafts t) (money t) (calendar_event_drafts t).
Definition set_connector_oauth_states (t : SliceTables) v : SliceTables :=
  mk_slices (operator_users t) (operator_api_tokens t) v (google_oauth_credentials t) (qbo_credentials t) (accounting t)
    (work_items t) (work_item_visibility t) (work_queue_policies t) (crm_note_drafts t)
    (follow_up_task_drafts t) (follow_up_tasks t) (workflow_runs t) (workflow_steps t) (quote_drafts t) (money t) (calendar_event_drafts t).
Definition set_work_items (t : SliceTables) v : SliceTables :=
  mk_slices (operator_users t) (operator_api_tokens t) (connector_oauth_states t) (google_oauth_credentials t)
    (qbo_credentials t) (accounting t) v (work_item_visibility t) (work_queue_policies t) (crm_note_drafts t)
    (follow_up_task_drafts t) (follow_up_tasks t) (workflow_runs t) (workflow_steps t) (quote_drafts t) (money t) (calendar_event_drafts t).
Definition set_work_item_visibility (t : SliceTables) v : SliceTables :=
  mk_slices (operator_users t) (operator_api_tokens t) (connector_oauth_states t) (google_oauth_credentials t)
    (qbo_credentials t) (accounting t) (work_items t) v (work_queue_policies t) (crm_note_drafts t) (follow_up_task_drafts t)
    (follow_up_tasks t) (workflow_runs t) (workflow_steps t) (quote_drafts t) (money t) (calendar_event_drafts t).
Definition set_work_queue_policies (t : SliceTables) v : SliceTables :=
  mk_slices (operator_users t) (operator_api_tokens t) (connector_oauth_states t) (google_oauth_credentials t)
    (qbo_credentials t) (accounting t) (work_items t) (work_item_visibility t) v (crm_note_drafts t) (follow_up_task_drafts t)
    (follow_up_tasks t) (workflow_runs t) (workflow_steps t) (quote_drafts t) (money t) (calendar_event_drafts t).
Definition set_crm_note_drafts (t : SliceTables) v : SliceTables :=
  mk_slices (operator_users t) (operator_api_tokens t) (connector_oauth_states t) (google_oauth_credentials t)
    (qbo_credentials t) (accounting t) (work_items t) (work_item_visibility t) (work_queue_policies t) v
    (follow_up_task_drafts t) (follow_up_tasks t) (workflow_runs t) (workflow_steps t) (quote_drafts t) (money t) (calendar_event_drafts t).
Definition set_follow_up_task_drafts (t : SliceTables) v : SliceTables :=
  mk_slices (operator_users t) (operator_api_tokens t) (connector_oauth_states t) (google_oauth_credentials t)
    (qbo_credentials t) (accounting t) (work_items t) (work_item_visibility t) (work_queue_policies t) (crm_note_drafts t) v
    (follow_up_tasks t) (workflow_runs t) (workflow_steps t) (quote_drafts t) (money t) (calendar_event_drafts t).
Definition set_follow_up_tasks (t : SliceTables) v : SliceTables :=
  mk_slices (operator_users t) (operator_api_tokens t) (connector_oauth_states t) (google_oauth_credentials t)
    (qbo_credentials t) (accounting t) (work_items t) (work_item_visibility t) (work_queue_policies t) (crm_note_drafts t)
    (follow_up_task_drafts t) v (workflow_runs t) (workflow_steps t) (quote_drafts t) (money t) (calendar_event_drafts t).
Definition set_workflow_runs (t : SliceTables) v : SliceTables :=
  mk_slices (operator_users t) (operator_api_tokens t) (connector_oauth_states t) (google_oauth_credentials t)
    (qbo_credentials t) (accounting t) (work_items t) (work_item_visibility t) (work_queue_policies t) (crm_note_drafts t)
    (follow_up_task_drafts t) (follow_up_tasks t) v (workflow_steps t) (quote_drafts t) (money t) (calendar_event_drafts t).
Definition set_workflow_steps (t : SliceTables) v : SliceTables :=
  mk_slices (operator_users t) (operator_api_tokens t) (connector_oauth_states t) (google_oauth_credentials t)
    (qbo_credentials t) (accounting t) (work_items t) (work_item_visibility t) (work_queue_policies t) (crm_note_drafts t)
    (follow_up_task_drafts t) (follow_up_tasks t) (workflow_runs t) v (quote_drafts t) (money t) (calendar_event_drafts t).
Definition set_quote_drafts (t : SliceTables) v : SliceTables :=
  mk_slices (operator_users t) (operator_api_tokens t) (connector_oauth_states t) (google_oauth_credentials t)
    (qbo_credentials t) (accounting t) (work_items t) (work_item_visibility t) (work_queue_policies t) (crm_note_drafts t)
    (follow_up_task_drafts t) (follow_up_tasks t) (workflow_runs t) (workflow_steps t) v (money t) (calendar_event_drafts t).
Definition set_qbo_credentials (t : SliceTables) v : SliceTables :=
  mk_slices (operator_users t) (operator_api_tokens t) (connector_oauth_states t) (google_oauth_credentials t)
    v (accounting t) (work_items t) (work_item_visibility t) (work_queue_policies t) (crm_note_drafts t)
    (follow_up_task_drafts t) (follow_up_tasks t) (workflow_runs t) (workflow_steps t) (quote_drafts t) (money t) (calendar_event_drafts t).
Definition set_accounting (t : SliceTables) v : SliceTables :=
  mk_slices (operator_users t) (operator_api_tokens t) (connector_oauth_states t) (google_oauth_credentials t)
    (qbo_credentials t) v (work_items t) (work_item_visibility t) (work_queue_policies t) (crm_note_drafts t)
    (follow_up_task_drafts t) (follow_up_tasks t) (workflow_runs t) (workflow_steps t) (quote_drafts t) (money t) (calendar_event_drafts t).
Definition set_money (t : SliceTables) v : SliceTables :=
  mk_slices (operator_users t) (operator_api_tokens t) (connector_oauth_states t) (google_oauth_credentials t)
    (qbo_credentials t) (accounting t) (work_items t) (work_item_visibility t) (work_queue_policies t) (crm_note_drafts t)
    (follow_up_task_drafts t) (follow_up_tasks t) (workflow_runs t) (workflow_steps t) (quote_drafts t) v (calendar_event_drafts t).
Definition set_calendar_event_drafts (t : SliceTables) v : SliceTables :=
  mk_slices (operator_users t) (operator_api_tokens t) (connector_oauth_states t) (google_oauth_credentials t)
    (qbo_credentials t) (accounting t) (work_items t) (work_item_visibility t) (work_queue_policies t) (crm_note_drafts t)
    (follow_up_task_drafts t) (follow_up_tasks t) (workflow_runs t) (workflow_steps t) (quote_drafts t) (money t) v.

Abbreviation AppDb := (Db.t (Tables SliceTables)).
Abbreviation AppOp := (Op (Db.t (Tables SliceTables)) StoreError.t).

Definition tables (db : AppDb) : SliceTables := others (Db.domain db).
Definition set_tables (db : AppDb) (t : SliceTables) : AppDb :=
  Db.set_domain db (mk_tables (outbox_jobs (Db.domain db)) t).

(** A statement that changes slices' tables and cannot fail. *)
Definition update_tables (f : SliceTables → SliceTables) : AppOp unit :=
  fun db => (Ok tt, set_tables db (f (tables db))).

(** A query over the slices' tables. *)
Definition read_tables {A} (f : SliceTables → A) : AppOp A := fun db => (Ok (f (tables db)), db).

(** ** Texts the slices write by [format!] *)

Definition dquote : string := String "034" EmptyString.
Definition in_quotes (s : string) : string := dquote +:+ s +:+ dquote.
Definition fmt_bool (b : bool) : string := if b then "true" else "false".

(** [s.chars().count()] and [s.chars().take(n).collect()]. *)
Definition str_chars (s : string) : N := N.of_nat (chars_count (String.list_ascii_of_string s)).
Definition take_chars (n : nat) (s : string) : string :=
  String.string_of_list_ascii (chars_take n (String.list_ascii_of_string s)).
