(* ===== verification/SliceCore.v ===== *)
(** * What a slice's mutation does

    A slice writes through [mutate] only.  Seen from its tables a mutation replays
    a used key, reports a conflict, applies the write or fails; only an applied
    one changes a table.  Slices' statements keep the contracts of the spine and
    of the outbox: they leave receipts, revisions and jobs alone. *)

From S2P Require Import Prelude RustStd StoreCore StoreCoreProps AppOutbox AppOutboxProps Schema.
Import Spine Outbox.

Abbreviation SliceWrite := (Op (Db.t (Tables SliceTables)) StoreError.t unit).

(** ** Statements *)

Lemma tables_set (db : AppDb) t : tables (set_tables db t) = t.
Proof. done. Qed.

Lemma update_tables_ok f (db : AppDb) : update_tables f db = (Ok tt, set_tables db (f (tables db))).
Proof. done. Qed.

(** Statements that leave receipts, revisions and jobs alone: what the spine and
    the outbox ask of a slice, together. *)
Definition slice_write (write : SliceWrite) : Prop :=
  ∀ db db', write db = (Ok tt, db') →
    Db.receipts db' = Db.receipts db ∧ Db.revisions db' = Db.revisions db ∧ jobs db' = jobs db.

Lemma slice_write_update f : slice_write (update_tables f).
Proof. by intros db db' [= <-]. Qed.

Lemma slice_write_seq m1 m2 : slice_write m1 → slice_write m2 → slice_write (m1 ;;? m2).
Proof.
  intros H1 H2 db db' ([] & db1 & Hm1 & Hm2)%op_bind_ok.
  destruct (H1 _ _ Hm1) as (<- & <- & <-). by apply H2.
Qed.

Lemma slice_write_if (c : AppDb → bool) e (m : SliceWrite) :
  slice_write m → slice_write (fun db => if c db then (Err e, db) else m db).
Proof. intros Hm db db'. destruct (c db); [done|apply Hm]. Qed.

Lemma slice_write_spares_receipts write : slice_write write → spares_receipts (fun _ => write).
Proof. intros Hw id db db' H. by destruct (Hw _ _ H) as (-> & _). Qed.

Lemma slice_write_spares_revisions write : slice_write write → spares_revisions (fun _ => write).
Proof. intros Hw id db db' H. by destruct (Hw _ _ H) as (_ & -> & _). Qed.

Lemma slice_write_enqueues write : slice_write write → enqueues_only write.
Proof.
  intros Hw db db' H. destruct (Hw _ _ H) as (Hr & _ & Hj). split; [by rewrite Hr|].
  intros k. rewrite Hj. destruct (jobs db !! k); done.
Qed.

(** A write followed by an enqueue keeps the outbox's contract. *)
Lemma enqueues_only_seq (m1 m2 : SliceWrite) :
  slice_write m1 → enqueues_only m2 → enqueues_only (m1 ;;? m2).
Proof.
  intros H1 H2 db db' ([] & db1 & Hm1 & Hm2)%op_bind_ok.
  destruct (H1 _ _ Hm1) as (Hr & _ & Hj). rewrite <- Hr. destruct (H2 _ _ Hm2) as [Hr2 Hj2].
  split; [done|]. intros k. rewrite <- Hj. apply Hj2.
Qed.

Create HintDb slice_db discriminated.
#[export] Hint Resolve slice_write_update slice_write_seq slice_write_if
  slice_write_spares_receipts slice_write_spares_revisions slice_write_enqueues enqueues_only_seq : slice_db.

(** ** One mutation *)

Section effect.
Context (constraint_failed : string).
Implicit Types (db : AppDb) (request : MutationRequest.t).
Abbreviation mutate := (Spine.mutate (D:=Tables SliceTables) constraint_failed).

Definition request_used db request : Prop :=
  key_used db (MutationRequest.client_id request) (MutationRequest.idempotency_key request).
Definition request_free db request : Prop :=
  key_free db (MutationRequest.client_id request) (MutationRequest.idempotency_key request).

(** A mutation seen from the tables. *)
Inductive effect request (write : SliceWrite) db : Result StoreError.t MutationOutcome.t * AppDb → Prop :=
| effect_replayed db' id revision :
    request_used db request → Db.domain db' = Db.domain db →
    effect request write db (Ok (MutationOutcome.ReplayedIdempotent id revision), db')
| effect_conflict db' id revision :
    request_free db request → ¬ expectation_met db request → Db.domain db' = Db.domain db →
    effect request write db (Ok (MutationOutcome.RevisionConflict id revision), db')
| effect_applied db1 db' id revision :
    request_free db request → expectation_met db request →
    write db = (Ok tt, db1) → Db.domain db' = Db.domain db1 → request_used db' request →
    effect request write db (Ok (MutationOutcome.Applied id revision), db')
| effect_failed err db1 db' :
    request_free db request → expectation_met db request →
    write db = (Err err, db1) → Db.domain db' = Db.domain db →
    effect request write db (Err err, db').

Lemma slice_mutate_effect request write db :
  spine_wf db → write_spares write →
  effect request write db (mutate request write db) ∧
  spine_wf (mutate request write db).2 ∧ receipts_grow db (mutate request write db).2.
Proof.
  intros Hwf Hs. split; [|by apply mutate_grows].
  destruct (mutate_cases constraint_failed request (fun _ => write) db Hwf Hs) as [Hm _].
  unfold Spine.mutate, mutate_with_receipt_id.
  inversion Hm as [r Hin Ha rev|Hf Hexp rev|db1 Hf He Hw rev|err db1 Hf He Hw rev].
  - apply effect_replayed; [by exists r|done].
  - by apply effect_conflict.
  - eapply effect_applied; [done|done|exact Hw|done|]. eexists. split; [apply elem_of_app; right; by left|].
    by apply applied_with_key_true.
  - by eapply effect_failed.
Qed.

(** Every outcome but an applied one leaves all tables as they are. *)
Lemma mutate_tables request write db (P : Tables SliceTables → Prop) :
  spine_wf db → write_spares write → P (Db.domain db) →
  (∀ db1, write db = (Ok tt, db1) → P (Db.domain db1)) →
  P (Db.domain (mutate request write db).2).
Proof.
  intros Hwf Hs HP Hw. destruct (slice_mutate_effect request write db Hwf Hs) as [He _].
  inversion He as [? ? ? ? Hd|? ? ? ? ? Hd|db1 ? ? ? ? ? Hw1 Hd|? ? ? ? ? ? Hd]; simpl; rewrite Hd; auto.
Qed.

(** What was applied can be told from the result. *)
Lemma mutate_applied request write db id revision db' :
  spine_wf db → write_spares write → mutate request write db = (Ok (MutationOutcome.Applied id revision), db') →
  request_free db request ∧ expectation_met db request ∧
  ∃ db1, write db = (Ok tt, db1) ∧ Db.domain db' = Db.domain db1.
Proof.
  intros Hwf Hs Hm. destruct (slice_mutate_effect request write db Hwf Hs) as [He _]. rewrite Hm in He.
  inversion He; subst. eauto.
Qed.

Lemma key_used_same db db' c k :
  same_receipts (Db.receipts db') (Db.receipts db) → key_used db' c k → key_used db c k.
Proof.
  intros Hs Hu. destruct (key_free_or_used db c k) as [Hf|]; [|done].
  by destruct (key_used_not_free _ _ _ Hu); eapply key_free_same.
Qed.

(** Only an applied mutation uses a key, its own. *)
Lemma mutate_id_uses request dw db c k :
  spine_wf db → spares_receipts dw → key_used (mutate_with_receipt_id constraint_failed request dw db).2 c k →
  key_used db c k ∨
  MutationRequest.client_id request = c ∧ MutationRequest.idempotency_key request = k ∧
    ∃ id revision, (mutate_with_receipt_id constraint_failed request dw db).1 = Ok (MutationOutcome.Applied id revision).
Proof.
  intros Hwf Hs. destruct (mutate_cases constraint_failed request dw db Hwf Hs) as [Hm _]. unfold mutate_with_receipt_id.
  inversion Hm as [r ? Ha rev|? ? rev|db1 ? ? Hw rev|err db1 ? ? Hw rev]; simpl;
    intros (r' & [Hin|Heq%list_elem_of_singleton]%elem_of_app & Hr'); try (left; by exists r'); try subst r'.
  - by apply applied_with_key_true in Hr' as (_ & _ & [=]).
  - by apply applied_with_key_true in Hr' as (_ & _ & [=]).
  - left. eapply key_used_same; [by eapply Hs|]. by exists r'.
  - right. apply applied_with_key_true in Hr' as (<- & <- & _). eauto.
  - by apply applied_with_key_true in Hr' as (_ & _ & [=]).
Qed.

Lemma mutate_uses request write db c k :
  spine_wf db → write_spares write → key_used (mutate request write db).2 c k →
  key_used db c k ∨
  MutationRequest.client_id request = c ∧ MutationRequest.idempotency_key request = k ∧
    ∃ id revision, (mutate request write db).1 = Ok (MutationOutcome.Applied id revision).
Proof. apply (mutate_id_uses request (fun _ => write)). Qed.

(** A mutation as a step of tables and used keys. *)
Inductive step request (write : SliceWrite) db db' : Prop :=
| step_idle :
    Db.domain db' = Db.domain db → (∀ c k, key_used db' c k → key_used db c k) → step request write db db'
| step_applied db1 :
    request_free db request → write db = (Ok tt, db1) → Db.domain db' = Db.domain db1 → request_used db' request →
    (∀ c k, key_used db' c k → key_used db c k ∨
       c = MutationRequest.client_id request ∧ k = MutationRequest.idempotency_key request) →
    step request write db db'.

Lemma mutate_step request write db :
  spine_wf db → write_spares write → step request write db (mutate request write db).2.
Proof.
  intros Hwf Hs. destruct (slice_mutate_effect request write db Hwf Hs) as [He _].
  pose proof (fun c k => mutate_uses request write db c k Hwf Hs) as Hu. revert Hu.
  inversion He as [db' ? ? ? Hd|db' ? ? ? ? Hd|db1 db' ? ? ? ? Hw Hd Hused|err db1 db' ? ? ? Hd]; simpl; intros Hu.
  1,2,4: apply step_idle; [done|]; intros c k Hk; by destruct (Hu c k Hk) as [?|(_ & _ & ? & ? & [=])].
  eapply step_applied; [done|exact Hw|done|done|]. intros c k Hk. destruct (Hu c k Hk) as [?|(<- & <- & _)]; auto.
Qed.

(** A fresh key at the right revision: the write decides. *)
Lemma mutate_fresh request write db :
  spine_wf db → write_spares write → request_free db request → expectation_met db request →
  match write db with
  | (Ok _, db1) => ∃ id revision db',
      mutate request write db = (Ok (MutationOutcome.Applied id revision), db') ∧ Db.domain db' = Db.domain db1
  | (Err err, _) => ∃ db', mutate request write db = (Err err, db') ∧ Db.domain db' = Db.domain db
  end.
Proof.
  intros Hwf Hs Hf Hx. destruct (slice_mutate_effect request write db Hwf Hs) as [He _].
  inversion He as [db' id rev Hu|db' id rev _ Hn|db1 db' id rev _ _ Hw Hd Hu Heq|err db1 db' _ _ Hw Hd Heq].
  - by destruct (key_used_not_free _ _ _ Hu).
  - done.
  - rewrite Hw. eauto.
  - rewrite Hw. eauto.
Qed.

(** A property of the slices' tables, along with the spine's invariant. *)
Definition tables_keep (P : SliceTables → Prop) db : Prop := spine_wf db ∧ P (tables db).

Lemma mutate_keeps P request write :
  write_spares write →
  (∀ db db', write db = (Ok tt, db') → P (tables db) → P (tables db')) →
  preserves (tables_keep P) (mutate request write).
Proof.
  intros Hs Hw db [Hwf HP]. destruct (slice_mutate_effect request write db Hwf Hs) as (_ & Hwf' & _).
  split; [done|]. apply (mutate_tables request write db (fun d => P (others d)) Hwf Hs HP).
  intros db1 Hd. by apply (Hw db db1).
Qed.
End effect.

(** ** A mutation seen from the log

    Every mutation extends the log of receipts; an applied one leaves its own receipt
    there, under the name its write was told. *)

Section logged.
Context (constraint_failed : string).
Implicit Types (db : AppDb) (request : MutationRequest.t) (dw : string → SliceWrite).

Inductive logged request dw db : Result StoreError.t MutationOutcome.t * AppDb → Prop :=
| logged_replayed db' id revision :
    request_used db request → Db.domain db' = Db.domain db → receipts_grow db db' → spine_wf db' →
    logged request dw db (Ok (MutationOutcome.ReplayedIdempotent id revision), db')
| logged_conflict db' id revision :
    request_free db request → ¬ expectation_met db request →
    Db.domain db' = Db.domain db → receipts_grow db db' → spine_wf db' →
    logged request dw db (Ok (MutationOutcome.RevisionConflict id revision), db')
| logged_applied db1 db' before revision :
    request_free db request → expectation_met db request →
    dw (next_name db) db = (Ok tt, db1) → Db.domain db' = Db.domain db1 →
    receipts_grow db db' → spine_wf db' →
    receipt_row request Applied None before (Some revision) (next_name db) ∈ Db.receipts db' →
    logged request dw db (Ok (MutationOutcome.Applied (next_name db) revision), db')
| logged_failed err db1 db' :
    request_free db request → expectation_met db request →
    dw (next_name db) db = (Err err, db1) → Db.domain db' = Db.domain db → receipts_grow db db' → spine_wf db' →
    logged request dw db (Err err, db').

Lemma mutate_logged request dw db :
  spine_wf db → spares_receipts dw → logged request dw db (mutate_with_receipt_id constraint_failed request dw db).
Proof.
  intros Hwf Hs. destruct (mutate_cases constraint_failed request dw db Hwf Hs) as [Hm Hwf'].
  assert (Hg : receipts_grow db (mutate_with_receipt_id constraint_failed request dw db).2).
  { destruct (mutated_audits (Mutation request dw) db _ Hs Hm) as (row & _ & Hsame). by exists [row]. }
  unfold mutate_with_receipt_id in *. revert Hg Hwf'.
  inversion Hm as [r Hin Ha rev|Hf Hexp rev|db1 Hf He Hw rev|err db1 Hf He Hw rev]; simpl; intros Hg Hwf'.
  - apply logged_replayed; [by exists r|done..].
  - by apply logged_conflict.
  - eapply logged_applied; [done|done|exact Hw|done..|]. apply elem_of_app. right. by left.
  - by eapply logged_failed.
Qed.

(** A fresh key without an expectation: the write decides, and only the key is new. *)
Lemma mutate_logged_fresh request dw db db1 :
  spine_wf db → spares_receipts dw → request_free db request → MutationRequest.expected_revision request = None →
  dw (next_name db) db = (Ok tt, db1) →
  ∃ before revision db',
    mutate_with_receipt_id constraint_failed request dw db = (Ok (MutationOutcome.Applied (next_name db) revision), db') ∧
    Db.domain db' = Db.domain db1 ∧ spine_wf db' ∧ receipts_grow db db' ∧
    receipt_row request Applied None before (Some revision) (next_name db) ∈ Db.receipts db' ∧
    ∀ c k, key_used db' c k → key_used db c k ∨ c = MutationRequest.client_id request ∧ k = MutationRequest.idempotency_key request.
Proof.
  intros Hwf Hs Hfree Hnone Hw. pose proof (fun c k => mutate_id_uses constraint_failed request dw db c k Hwf Hs) as Hu.
  pose proof (mutate_logged request dw db Hwf Hs) as Hm. revert Hu.
  inversion Hm as [db' id rev Hused|db' id rev _ Hx|db2 db' before rev _ _ Hw2 Hd Hg Hwf' Hin|err db2 db' _ _ Hw2]; cbn [fst snd]; intros Hu.
  - by destruct (key_used_not_free _ _ _ Hused).
  - destruct Hx. intros e He. by rewrite Hnone in He.
  - rewrite Hw in Hw2. injection Hw2 as <-. exists before, rev, db'. split_and!; [done..|].
    intros c k Hk. destruct (Hu c k Hk) as [?|(<- & <- & _)]; auto.
  - by rewrite Hw in Hw2.
Qed.

(** The receipt of an applied mutation uses its key. *)
Lemma applied_uses request before revision id db :
  receipt_row request Applied None before (Some revision) id ∈ Db.receipts db → request_used db request.
Proof. intros Hin. eexists. split; [exact Hin|]. by apply applied_with_key_true. Qed.
End logged.

(** ** A write that cannot fail

    A statement without a condition, under no expected revision: the key decides. *)

Section put.
Context (constraint_failed : string).
Implicit Types (db : AppDb) (request : MutationRequest.t) (f : SliceTables → SliceTables).

Inductive put request f db : Result StoreError.t MutationOutcome.t * AppDb → Prop :=
| put_replayed db' id revision :
    request_used db request → tables db' = tables db → spine_wf db' → receipts_grow db db' →
    (∀ c k, key_used db' c k → key_used db c k) →
    put request f db (Ok (MutationOutcome.ReplayedIdempotent id revision), db')
| put_applied db' id revision :
    request_free db request → tables db' = f (tables db) → spine_wf db' → receipts_grow db db' →
    request_used db' request →
    (∀ c k, key_used db' c k → key_used db c k ∨
       c = MutationRequest.client_id request ∧ k = MutationRequest.idempotency_key request) →
    put request f db (Ok (MutationOutcome.Applied id revision), db').

Lemma mutate_put request (write : SliceWrite) f db :
  spine_wf db → slice_write write → MutationRequest.expected_revision request = None →
  (∃ db1, write db = (Ok tt, db1) ∧ tables db1 = f (tables db)) →
  put request f db (Spine.mutate constraint_failed request write db).
Proof.
  intros Hwf Hs Hx (db1 & Hw & Hf). apply slice_write_spares_receipts in Hs.
  destruct (slice_mutate_effect constraint_failed request write db Hwf Hs) as (He & Hwf' & Hg).
  pose proof (fun c k => mutate_uses constraint_failed request write db c k Hwf Hs) as Hu. revert Hwf' Hg Hu.
  inversion He as [db' id rev Hused Hd|db' id rev _ Hn|db2 db' id rev Hfree _ Hw2 Hd Hused|err db2 db' _ _ Hw2]; cbn [fst snd];
    intros Hwf' Hg Hu.
  - apply put_replayed; [done|unfold tables; by rewrite Hd|done|done|].
    intros c k Hk. destruct (Hu c k Hk) as [?|(_ & _ & ? & ? & [=])]; done.
  - destruct Hn. intros e He'. by rewrite Hx in He'.
  - rewrite Hw in Hw2. injection Hw2 as <-.
    apply put_applied; [done|unfold tables in *; by rewrite Hd|done|done|done|].
    intros c k Hk. destruct (Hu c k Hk) as [?|(<- & <- & _)]; auto.
  - by rewrite Hw in Hw2.
Qed.
End put.
