(* ===== verification/Operators.v ===== *)
(** * Operator users and machine tokens
    ([bos-app/src/slices/operator_users], [bos-app/src/slices/operator_api_tokens])

    The two credential tables.  A personal token is stored as it is, a machine
    token as the hash of its secret; both are written through [mutate], with
    receipts that name the change and never the credential.

    [sha256_hex] is the digest of a byte string in lower-case hexadecimal;
    [json_text], [strings_json] and [parse_strings] are [serde_json] on objects and
    on lists of strings; [constraint_failed] is the text of SQLite's error.  All
    are parameters. *)

From S2P Require Import Prelude RustStd RustStr StoreCore AppOutbox Identity AccountingRecords Schema.
Import Spine.

Definition nul : string := String "000" EmptyString.

(** [value.and_then(|value| u64::try_from(value).ok())]. *)
Definition i64_to_u64 (v : Z) : option N := if (0 <=? v)%Z then Some (Z.to_N v) else None.

(** [format!("{byte:02x}")]. *)
Definition fmt_hex_byte (b : N) : string :=
  if (b <? 16)%N then "0" +:+ fmt_hex b else fmt_hex b.
(* src: crates/bos-app/src/slices/operator_api_tokens/service.rs:50-56 hex *)
Definition hex (bytes : list N) : string := foldr (fun b s => fmt_hex_byte b +:+ s) ""%string bytes.

(** Who mutates, and under what key; the context of the token store has the same
    fields. *)
(* src: crates/bos-app/src/slices/operator_users/store.rs:234-240 UserActionContext *)
Record UserActionContext := {
  ctx_client_id : string;
  ctx_actor_id : string;
  ctx_expected_revision : option N;
  ctx_idempotency_key : string;
  ctx_now_ms : N;
}.

(** The request of a mutation by an operator under [ctx]. *)
Definition ctx_request (ctx : UserActionContext) (entity_kind entity_id change_kind : string)
    (before_json after_json : option string) : MutationRequest.t := {|
  MutationRequest.client_id := ctx_client_id ctx;
  MutationRequest.entity_kind := entity_kind;
  MutationRequest.entity_id := entity_id;
  MutationRequest.change_kind := change_kind;
  MutationRequest.actor_id := ctx_actor_id ctx;
  MutationRequest.actor_kind := Operator;
  MutationRequest.expected_revision := ctx_expected_revision ctx;
  MutationRequest.idempotency_key := ctx_idempotency_key ctx;
  MutationRequest.correlation_id := None;
  MutationRequest.causation_id := None;
  MutationRequest.before_json := before_json;
  MutationRequest.after_json := after_json;
  MutationRequest.now_ms := ctx_now_ms ctx;
|}.

Definition json_option_number (v : option N) : JsonValue :=
  match v with Some n => JNumber n | None => JNull end.
Definition json_option_string (v : option string) : JsonValue :=
  match v with Some s => JString s | None => JNull end.

(** [format!("{{\"active\":{active}}}")]. *)
Definition active_json (active : bool) : string :=
  "{" +:+ in_quotes "active" +:+ ":" +:+ fmt_bool active +:+ "}".

(** ** Personal users *)

Module OperatorUser.
(* src: crates/bos-contracts/src/operator_users.rs:8-28 OperatorUser *)
Record t := mk {
  user_id : string;
  display_name : string;
  active : bool;
  archived_at_ms : option N;
  default_calendar_id : option string;
  created_at_ms : N;
  updated_at_ms : N;
}.
End OperatorUser.

Module UserStore.
Section store.
Context (constraint_failed : string) (sha256_hex : string → string)
  (json_text : list (string * JsonValue) → string).

(* src: crates/bos-app/src/slices/operator_users/store.rs:11-11 USER_ENTITY_KIND *)
Definition USER_ENTITY_KIND : string := "operator_user".

(* src: crates/bos-app/src/slices/operator_users/store.rs:13-25 user_from_row *)
Definition user_from_row (row : OperatorUserRow.t) : OperatorUser.t := {|
  OperatorUser.user_id := OperatorUserRow.user_id row;
  OperatorUser.display_name := OperatorUserRow.display_name row;
  OperatorUser.active := OperatorUserRow.active row;
  OperatorUser.archived_at_ms := OperatorUserRow.archived_at_ms row ≫= i64_to_u64;
  OperatorUser.default_calendar_id := OperatorUserRow.default_calendar_id row;
  OperatorUser.created_at_ms := i64_as_u64 (OperatorUserRow.created_at_ms row);
  OperatorUser.updated_at_ms := i64_as_u64 (OperatorUserRow.updated_at_ms row);
|}.

(** [archived_at_ms IS NULL]. *)
Definition not_archived (row : OperatorUserRow.t) : bool :=
  bool_decide (OperatorUserRow.archived_at_ms row = None).

(** [client_id = ?1 AND active = 1 AND archived_at_ms IS NULL]. *)
Definition live (client_id : string) (row : OperatorUserRow.t) : bool :=
  string_eqb (OperatorUserRow.client_id row) client_id && OperatorUserRow.active row && not_archived row.

(* src: crates/bos-app/src/slices/operator_users/store.rs:27-49 list_users *)
Definition list_users (client_id : string) (include_archived : bool) : AppOp (list OperatorUser.t) :=
  read_tables (fun t =>
    user_from_row <$> sort_by_key OperatorUserRow.created_at_ms
      (filter (fun row => string_eqb (OperatorUserRow.client_id row) client_id
                          && (include_archived || not_archived row)) (values (operator_users t)))).

(* src: crates/bos-app/src/slices/operator_users/store.rs:51-66 get_user *)
Definition get_user (client_id user_id : string) : AppOp (option OperatorUser.t) :=
  read_tables (fun t => user_from_row <$> operator_users t !! (client_id, user_id)).

(** The index on (client, token) is unique, so the query has at most one row. *)
(* src: crates/bos-app/src/slices/operator_users/store.rs:70-86 find_active_by_token *)
Definition find_active_by_token (client_id token : string) : AppOp (option OperatorUser.t) :=
  read_tables (fun t =>
    user_from_row <$>
      List.find (fun row => live client_id row && string_eqb (OperatorUserRow.token row) token)
        (values (operator_users t))).

(* src: crates/bos-app/src/slices/operator_users/store.rs:88-96 any_active_token *)
Definition any_active_token (client_id : string) : AppOp bool :=
  read_tables (fun t => (0 <? len (filter (live client_id) (values (operator_users t))))%N).

(* src: crates/bos-app/src/slices/operator_users/store.rs:124-130 session_token_fingerprint *)
Definition session_token_fingerprint (token : string) : string :=
  sha256_hex ("bos.operator_session.token.v1" +:+ nul +:+ token).

(* src: crates/bos-app/src/slices/operator_users/store.rs:132-142 session_token_proof *)
Definition session_token_proof (token token_fingerprint proof_material : string) : string :=
  sha256_hex ("bos.operator_session.proof.v1" +:+ nul +:+ proof_material +:+ nul
              +:+ token_fingerprint +:+ nul +:+ token).

(** The test a session's fingerprint and proof must pass. *)
Definition proves (token_fingerprint proof proof_material token : string) : bool :=
  string_eqb (session_token_fingerprint token) token_fingerprint
  && string_eqb (session_token_proof token token_fingerprint proof_material) proof.

(* src: crates/bos-app/src/slices/operator_users/store.rs:101-122 find_active_token_by_session_proof *)
Definition find_active_token_by_session_proof (client_id token_fingerprint proof proof_material : string)
    : AppOp (option string) :=
  read_tables (fun t =>
    List.find (proves token_fingerprint proof proof_material)
      (OperatorUserRow.token <$> filter (live client_id) (values (operator_users t)))).

(** [INSERT INTO operator_users]: a violated key or token index is a domain error. *)
(* src: crates/bos-app/src/slices/operator_users/store.rs:181-203 create_user (row write) *)
Definition insert_user (row : OperatorUserRow.t) : AppOp unit :=
  fun db =>
    if bool_decide (is_Some (operator_users (tables db) !! OperatorUserRow.key row))
       || existsb (fun r => string_eqb (OperatorUserRow.client_id r) (OperatorUserRow.client_id row)
                            && string_eqb (OperatorUserRow.token r) (OperatorUserRow.token row))
            (values (operator_users (tables db)))
    then (Err (StoreError.Domain "operator_user_exists"), db)
    else update_tables (fun t =>
      set_operator_users t (<[OperatorUserRow.key row := row]> (operator_users t))) db.

(* src: crates/bos-app/src/slices/operator_users/store.rs:147-205 create_user *)
Definition create_user (client_id actor_id : string) (user : OperatorUser.t)
    (token idempotency_key : string) : AppOp MutationOutcome.t :=
  mutate constraint_failed {|
    MutationRequest.client_id := client_id;
    MutationRequest.entity_kind := USER_ENTITY_KIND;
    MutationRequest.entity_id := OperatorUser.user_id user;
    MutationRequest.change_kind := "create";
    MutationRequest.actor_id := actor_id;
    MutationRequest.actor_kind := Operator;
    MutationRequest.expected_revision := None;
    MutationRequest.idempotency_key := idempotency_key;
    MutationRequest.correlation_id := None;
    MutationRequest.causation_id := None;
    MutationRequest.before_json := None;
    MutationRequest.after_json := Some (json_text
      [("user_id"%string, JString (OperatorUser.user_id user));
       ("display_name"%string, JString (OperatorUser.display_name user));
       ("active"%string, JBool (OperatorUser.active user));
       ("archived_at_ms"%string, json_option_number (OperatorUser.archived_at_ms user))]);
    MutationRequest.now_ms := OperatorUser.created_at_ms user;
  |} (insert_user {|
    OperatorUserRow.client_id := client_id;
    OperatorUserRow.user_id := OperatorUser.user_id user;
    OperatorUserRow.display_name := OperatorUser.display_name user;
    OperatorUserRow.token := token;
    OperatorUserRow.active := true;
    OperatorUserRow.created_at_ms := u64_as_i64 (OperatorUser.created_at_ms user);
    OperatorUserRow.updated_at_ms := u64_as_i64 (OperatorUser.created_at_ms user);
    OperatorUserRow.archived_at_ms := None;
    OperatorUserRow.default_calendar_id := None;
  |}).

(* src: crates/bos-app/src/slices/operator_users/store.rs:207-218 has_google_credentials *)
Definition has_google_credentials (client_id user_id : string) : AppOp bool :=
  read_tables (fun t =>
    existsb (fun '(client, user, _) => string_eqb client client_id && string_eqb user user_id)
      (elements (google_oauth_credentials t))).

(* src: crates/bos-app/src/slices/operator_users/store.rs:220-232 has_qbo_credential_connected_by *)
Definition has_qbo_credential_connected_by (client_id user_id : string) : AppOp bool :=
  read_tables (fun t => bool_decide (QboCredentialRow.connected_by_user_id <$> qbo_credentials t !! client_id = Some user_id)).

(** [UPDATE operator_users SET ... WHERE client_id = ?1 AND user_id = ?2]. *)
Definition update_user (client_id user_id : string) (f : OperatorUserRow.t → OperatorUserRow.t) : AppOp unit :=
  update_tables (fun t => set_operator_users t (alter f (client_id, user_id) (operator_users t))).

(** [get_user(...)?.ok_or_else(operator_user_not_found)?]. *)
Definition require_user (client_id user_id : string) : AppOp OperatorUser.t :=
  let? user := get_user client_id user_id in
  op_lift (ok_or user (StoreError.Domain "operator_user_not_found")).

(* src: crates/bos-app/src/slices/operator_users/store.rs:246-311 archive_user *)
Definition archive_user (ctx : UserActionContext) (user_id : string) : AppOp MutationOutcome.t :=
  let client_id := ctx_client_id ctx in
  let? current := require_user client_id user_id in
  if OperatorUser.active current then
    op_lift (Err (StoreError.Domain "operator_user_archive_requires_disabled"))
  else if bool_decide (is_Some (OperatorUser.archived_at_ms current)) then
    op_lift (Err (StoreError.Domain "operator_user_already_archived"))
  else
    let? google := has_google_credentials client_id user_id in
    if google : bool then op_lift (Err (StoreError.Domain "operator_user_has_google_credentials"))
    else
      let? qbo := has_qbo_credential_connected_by client_id user_id in
      if qbo : bool then op_lift (Err (StoreError.Domain "operator_user_has_qbo_credential"))
      else
        mutate constraint_failed
          (ctx_request ctx USER_ENTITY_KIND user_id "archive"
             (Some (json_text [("active"%string, JBool (OperatorUser.active current));
                               ("archived_at_ms"%string,
                                json_option_number (OperatorUser.archived_at_ms current))]))
             (Some (json_text [("active"%string, JBool false);
                               ("archived_at_ms"%string, JNumber (ctx_now_ms ctx))])))
          (update_user client_id user_id
             (fun row => OperatorUserRow.archive row (u64_as_i64 (ctx_now_ms ctx)))).

(** The guard the remaining actions share. *)
Definition require_not_archived (current : OperatorUser.t) : AppOp unit :=
  if bool_decide (is_Some (OperatorUser.archived_at_ms current))
  then op_lift (Err (StoreError.Domain "operator_user_archived")) else op_ret tt.

(* src: crates/bos-app/src/slices/operator_users/store.rs:315-355 set_active *)
Definition set_active (ctx : UserActionContext) (user_id : string) (active : bool) : AppOp MutationOutcome.t :=
  let? current := require_user (ctx_client_id ctx) user_id in
  require_not_archived current ;;?
  mutate constraint_failed
    (ctx_request ctx USER_ENTITY_KIND user_id (if active then "enable" else "disable")
       (Some (active_json (OperatorUser.active current))) (Some (active_json active)))
    (update_user (ctx_client_id ctx) user_id
       (fun row => OperatorUserRow.set_active row active (u64_as_i64 (ctx_now_ms ctx)))).

(** [UPDATE operator_users SET token = ?]: another row with the token violates the index. *)
(* src: crates/bos-app/src/slices/operator_users/store.rs:391-398 rotate_token (row write) *)
Definition update_user_token (client_id user_id token : string) (now_ms : N) : AppOp unit :=
  fun db =>
    if bool_decide (is_Some (operator_users (tables db) !! (client_id, user_id)))
       && existsb (fun r => string_eqb (OperatorUserRow.client_id r) client_id
                            && string_eqb (OperatorUserRow.token r) token
                            && negb (string_eqb (OperatorUserRow.user_id r) user_id))
            (values (operator_users (tables db)))
    then (Err (StoreError.Sqlite constraint_failed), db)
    else update_user client_id user_id
           (fun row => OperatorUserRow.set_token row token (u64_as_i64 now_ms)) db.

(* src: crates/bos-app/src/slices/operator_users/store.rs:359-400 rotate_token *)
Definition rotate_token (ctx : UserActionContext) (user_id new_token : string) : AppOp MutationOutcome.t :=
  let? current := require_user (ctx_client_id ctx) user_id in
  require_not_archived current ;;?
  mutate constraint_failed
    (ctx_request ctx USER_ENTITY_KIND user_id "rotate_token" None
       (Some ("{" +:+ in_quotes "token_rotated" +:+ ":true}")))
    (update_user_token (ctx_client_id ctx) user_id new_token (ctx_now_ms ctx)).

(* src: crates/bos-app/src/slices/operator_users/store.rs:404-447 set_default_calendar *)
Definition set_default_calendar (ctx : UserActionContext) (user_id : string) (calendar_id : option string)
    : AppOp MutationOutcome.t :=
  let? current := require_user (ctx_client_id ctx) user_id in
  require_not_archived current ;;?
  mutate constraint_failed
    (ctx_request ctx USER_ENTITY_KIND user_id "set_default_calendar"
       (Some (json_text [("default_calendar_id"%string,
                          json_option_string (OperatorUser.default_calendar_id current))]))
       (Some (json_text [("default_calendar_id"%string, json_option_string calendar_id)])))
    (update_user (ctx_client_id ctx) user_id
       (fun row => OperatorUserRow.set_calendar row calendar_id (u64_as_i64 (ctx_now_ms ctx)))).
End store.
End UserStore.

Module UserService.
(** Bytes of a character outside ASCII are mapped one by one; the empty parts
    between them are dropped either way. *)
(* src: crates/bos-app/src/slices/operator_users/service.rs:5-20 user_id_from_display_name *)
Definition user_id_from_display_name (display_name : string) : Result string string :=
  let slug := join "-" (filter (fun part => negb (is_empty part))
    (split_on "-" (map_bytes (fun c => if is_ascii_alphanumeric c then c else "-"%char)
      (to_ascii_lowercase (trim display_name))))) in
  if is_empty slug then Err "operator_user_name_required"%string
  else Ok ("user_" +:+ take_bytes (Nat.min (String.length slug) 48) slug).

(** [bytes] is what [/dev/urandom] gives. *)
(* src: crates/bos-app/src/slices/operator_users/service.rs:24-34 generate_token *)
Definition generate_token (bytes : option (list N)) : option string :=
  (fun bytes => "bosu_" +:+ hex bytes) <$> bytes.
End UserService.

(** ** Machine tokens *)

Module OperatorApiToken.
(* src: crates/bos-contracts/src/operator_api_tokens.rs:7-23 OperatorApiToken *)
Record t := mk {
  token_id : string;
  label : string;
  capabilities : list string;
  active : bool;
  revoked_at_ms : option N;
  created_by : string;
  created_at_ms : N;
  updated_at_ms : N;
}.
End OperatorApiToken.

Module TokenStore.
Section store.
Context (constraint_failed conversion_failed : string) (sha256_hex : string → string)
  (json_text : list (string * JsonValue) → string)
  (strings_json : list string → string) (parse_strings : string → option (list string)).

(* src: crates/bos-app/src/slices/operator_api_tokens/store.rs:12-12 TOKEN_ENTITY_KIND *)
Definition TOKEN_ENTITY_KIND : string := "operator_api_token".

(* src: crates/bos-app/src/slices/operator_api_tokens/store.rs:14-20 token_hash *)
Definition token_hash (token : string) : string :=
  sha256_hex ("bos.operator_api_token.v1" +:+ nul +:+ token).

(** Capabilities that do not parse fail the query. *)
(* src: crates/bos-app/src/slices/operator_api_tokens/store.rs:22-39 token_from_row *)
Definition token_from_row (row : OperatorApiTokenRow.t) : Result StoreError.t OperatorApiToken.t :=
  match parse_strings (OperatorApiTokenRow.capabilities_json row) with
  | None => Err (StoreError.Sqlite conversion_failed)
  | Some capabilities => Ok {|
      OperatorApiToken.token_id := OperatorApiTokenRow.token_id row;
      OperatorApiToken.label := OperatorApiTokenRow.label row;
      OperatorApiToken.capabilities := capabilities;
      OperatorApiToken.active := OperatorApiTokenRow.active row;
      OperatorApiToken.revoked_at_ms := OperatorApiTokenRow.revoked_at_ms row ≫= i64_to_u64;
      OperatorApiToken.created_by := OperatorApiTokenRow.created_by row;
      OperatorApiToken.created_at_ms := i64_as_u64 (OperatorApiTokenRow.created_at_ms row);
      OperatorApiToken.updated_at_ms := i64_as_u64 (OperatorApiTokenRow.updated_at_ms row);
    |}
  end.

(** [.optional()?] over a row mapping that can fail. *)
Definition optional_row (row : option OperatorApiTokenRow.t) : Result StoreError.t (option OperatorApiToken.t) :=
  match row with None => Ok None | Some row => token ← token_from_row row; Ok (Some token) end.

(** [for row in rows { tokens.push(row?) }]. *)
Fixpoint collect_rows (rows : list OperatorApiTokenRow.t) : Result StoreError.t (list OperatorApiToken.t) :=
  match rows with
  | [] => Ok []
  | row :: rows => token ← token_from_row row; tokens ← collect_rows rows; Ok (token :: tokens)
  end.

(* src: crates/bos-app/src/slices/operator_api_tokens/store.rs:44-58 list_tokens *)
Definition list_tokens (client_id : string) : AppOp (list OperatorApiToken.t) :=
  fun db => (collect_rows (sort_by_key OperatorApiTokenRow.created_at_ms
    (filter (fun row => string_eqb (OperatorApiTokenRow.client_id row) client_id)
      (values (operator_api_tokens (tables db))))), db).

(* src: crates/bos-app/src/slices/operator_api_tokens/store.rs:60-76 get_token *)
Definition get_token (client_id token_id : string) : AppOp (option OperatorApiToken.t) :=
  fun db => (optional_row (operator_api_tokens (tables db) !! (client_id, token_id)), db).

(** [client_id = ?1 AND active = 1 AND revoked_at_ms IS NULL]. *)
Definition live (client_id : string) (row : OperatorApiTokenRow.t) : bool :=
  string_eqb (OperatorApiTokenRow.client_id row) client_id && OperatorApiTokenRow.active row
  && bool_decide (OperatorApiTokenRow.revoked_at_ms row = None).

(** The index on (client, hash) is unique, so the query has at most one row. *)
(* src: crates/bos-app/src/slices/operator_api_tokens/store.rs:79-96 find_active_by_token_hash *)
Definition find_active_by_token_hash (client_id token_hash : string) : AppOp (option OperatorApiToken.t) :=
  fun db => (optional_row (List.find
    (fun row => live client_id row && string_eqb (OperatorApiTokenRow.token_hash row) token_hash)
    (values (operator_api_tokens (tables db)))), db).

(* src: crates/bos-app/src/slices/operator_api_tokens/store.rs:98-106 any_active_token *)
Definition any_active_token (client_id : string) : AppOp bool :=
  read_tables (fun t => (0 <? len (filter (live client_id) (values (operator_api_tokens t))))%N).

(* src: crates/bos-app/src/slices/operator_api_tokens/store.rs:116-125 metadata_json *)
Definition metadata_json (token : OperatorApiToken.t) : string :=
  json_text
    [("token_id"%string, JString (OperatorApiToken.token_id token));
     ("label"%string, JString (OperatorApiToken.label token));
     ("capabilities"%string, JStrings (OperatorApiToken.capabilities token));
     ("active"%string, JBool (OperatorApiToken.active token));
     ("revoked_at_ms"%string, json_option_number (OperatorApiToken.revoked_at_ms token))].

(** Another row of the client holds the hash. *)
Definition hash_taken (client_id token_id token_hash : string) (t : SliceTables) : bool :=
  existsb (fun r => string_eqb (OperatorApiTokenRow.client_id r) client_id
                    && string_eqb (OperatorApiTokenRow.token_hash r) token_hash
                    && negb (string_eqb (OperatorApiTokenRow.token_id r) token_id))
    (values (operator_api_tokens t)).

(** [INSERT INTO operator_api_tokens]: a violated key or hash index is a domain error. *)
(* src: crates/bos-app/src/slices/operator_api_tokens/store.rs:156-183 create_token (row write) *)
Definition insert_token (row : OperatorApiTokenRow.t) : AppOp unit :=
  fun db =>
    if bool_decide (is_Some (operator_api_tokens (tables db) !! OperatorApiTokenRow.key row))
       || hash_taken (OperatorApiTokenRow.client_id row) (OperatorApiTokenRow.token_id row)
            (OperatorApiTokenRow.token_hash row) (tables db)
    then (Err (StoreError.Domain "operator_api_token_exists"), db)
    else update_tables (fun t =>
      set_operator_api_tokens t (<[OperatorApiTokenRow.key row := row]> (operator_api_tokens t))) db.

(* src: crates/bos-app/src/slices/operator_api_tokens/store.rs:127-184 create_token *)
Definition create_token (client_id actor_id : string) (token : OperatorApiToken.t)
    (token_hash idempotency_key : string) : AppOp MutationOutcome.t :=
  mutate constraint_failed {|
    MutationRequest.client_id := client_id;
    MutationRequest.entity_kind := TOKEN_ENTITY_KIND;
    MutationRequest.entity_id := OperatorApiToken.token_id token;
    MutationRequest.change_kind := "create";
    MutationRequest.actor_id := actor_id;
    MutationRequest.actor_kind := Operator;
    MutationRequest.expected_revision := None;
    MutationRequest.idempotency_key := idempotency_key;
    MutationRequest.correlation_id := None;
    MutationRequest.causation_id := None;
    MutationRequest.before_json := None;
    MutationRequest.after_json := Some (metadata_json token);
    MutationRequest.now_ms := OperatorApiToken.created_at_ms token;
  |} (insert_token {|
    OperatorApiTokenRow.client_id := client_id;
    OperatorApiTokenRow.token_id := OperatorApiToken.token_id token;
    OperatorApiTokenRow.label := OperatorApiToken.label token;
    OperatorApiTokenRow.token_hash := token_hash;
    OperatorApiTokenRow.capabilities_json := strings_json (OperatorApiToken.capabilities token);
    OperatorApiTokenRow.active := true;
    OperatorApiTokenRow.created_by := OperatorApiToken.created_by token;
    OperatorApiTokenRow.created_at_ms := u64_as_i64 (OperatorApiToken.created_at_ms token);
    OperatorApiTokenRow.updated_at_ms := u64_as_i64 (OperatorApiToken.created_at_ms token);
    OperatorApiTokenRow.revoked_at_ms := None;
  |}).

(* src: crates/bos-app/src/slices/operator_api_tokens/store.rs:186-191 require_live *)
Definition require_live (token : OperatorApiToken.t) : AppOp unit :=
  if bool_decide (is_Some (OperatorApiToken.revoked_at_ms token))
  then op_lift (Err (StoreError.Domain "operator_api_token_revoked")) else op_ret tt.

(** [get_token(...)?.ok_or_else(operator_api_token_not_found)?; require_live(&current)?]. *)
Definition require_token (client_id token_id : string) : AppOp OperatorApiToken.t :=
  let? found := get_token client_id token_id in
  let? token := op_lift (ok_or found (StoreError.Domain "operator_api_token_not_found")) in
  require_live token ;;?
  op_ret token.

(** [UPDATE operator_api_tokens SET ... WHERE client_id = ?1 AND token_id = ?2]. *)
Definition update_token (client_id token_id : string) (f : OperatorApiTokenRow.t → OperatorApiTokenRow.t)
    : AppOp unit :=
  update_tables (fun t => set_operator_api_tokens t (alter f (client_id, token_id) (operator_api_tokens t))).

(* src: crates/bos-app/src/slices/operator_api_tokens/store.rs:193-231 set_active *)
Definition set_active (ctx : UserActionContext) (token_id : string) (active : bool) : AppOp MutationOutcome.t :=
  let? current := require_token (ctx_client_id ctx) token_id in
  mutate constraint_failed
    (ctx_request ctx TOKEN_ENTITY_KIND token_id (if active then "enable" else "disable")
       (Some (active_json (OperatorApiToken.active current))) (Some (active_json active)))
    (update_token (ctx_client_id ctx) token_id
       (fun row => OperatorApiTokenRow.set_active row active (u64_as_i64 (ctx_now_ms ctx)))).

(* src: crates/bos-app/src/slices/operator_api_tokens/store.rs:233-271 revoke_token *)
Definition revoke_token (ctx : UserActionContext) (token_id : string) : AppOp MutationOutcome.t :=
  let? current := require_token (ctx_client_id ctx) token_id in
  mutate constraint_failed
    (ctx_request ctx TOKEN_ENTITY_KIND token_id "revoke" (Some (metadata_json current))
       (Some ("{" +:+ in_quotes "active" +:+ ":false," +:+ in_quotes "revoked_at_ms" +:+ ":"
              +:+ fmt_dec (ctx_now_ms ctx) +:+ "}")))
    (update_token (ctx_client_id ctx) token_id
       (fun row => OperatorApiTokenRow.revoke row (u64_as_i64 (ctx_now_ms ctx)))).

(** [UPDATE operator_api_tokens SET token_hash = ?]: a violated index is a domain error. *)
(* src: crates/bos-app/src/slices/operator_api_tokens/store.rs:305-320 rotate_token (row write) *)
Definition update_token_hash (client_id token_id token_hash : string) (now_ms : N) : AppOp unit :=
  fun db =>
    if bool_decide (is_Some (operator_api_tokens (tables db) !! (client_id, token_id)))
       && hash_taken client_id token_id token_hash (tables db)
    then (Err (StoreError.Domain "operator_api_token_exists"), db)
    else update_token client_id token_id
           (fun row => OperatorApiTokenRow.set_hash row token_hash (u64_as_i64 now_ms)) db.

(* src: crates/bos-app/src/slices/operator_api_tokens/store.rs:275-322 rotate_token *)
Definition rotate_token (ctx : UserActionContext) (token_id new_token_hash : string) : AppOp MutationOutcome.t :=
  let? _ := require_token (ctx_client_id ctx) token_id in
  mutate constraint_failed
    (ctx_request ctx TOKEN_ENTITY_KIND token_id "rotate_token"
       (Some ("{" +:+ in_quotes "token_rotated" +:+ ":false}"))
       (Some ("{" +:+ in_quotes "token_rotated" +:+ ":true}")))
    (update_token_hash (ctx_client_id ctx) token_id new_token_hash (ctx_now_ms ctx)).
End store.
End TokenStore.

Module TokenService.
(* src: crates/bos-app/src/slices/operator_api_tokens/service.rs:6-9 generate_secret *)
Definition generate_secret (bytes : option (list N)) : option string :=
  (fun bytes => "bost_" +:+ hex bytes) <$> bytes.

(* src: crates/bos-app/src/slices/operator_api_tokens/service.rs:12-15 generate_token_id *)
Definition generate_token_id (bytes : option (list N)) : option string :=
  (fun bytes => "apitok_" +:+ hex bytes) <$> bytes.

(* src: crates/bos-app/src/slices/operator_api_tokens/service.rs:17-26 parse_label *)
Definition parse_label (label : string) : Result string string :=
  let label := trim label in
  if is_empty label then Err "operator_api_token_label_required"%string
  else if (80 <? String.length label)%nat then Err "operator_api_token_label_too_long"%string
  else Ok label.

(** The loop of [parse_capabilities]. *)
(* src: crates/bos-app/src/slices/operator_api_tokens/service.rs:32-38 parse_capabilities (loop) *)
Fixpoint parse_all (parsed : list OperatorCapability.t) (raw : list string)
    : Result string (list OperatorCapability.t) :=
  match raw with
  | [] => Ok parsed
  | value :: raw =>
    match OperatorCapability.parse (trim value) with
    | None => Err "operator_capability_unknown"%string
    | Some cap => parse_all (if bool_decide (cap ∈ parsed) then parsed else parsed ++ [cap]) raw
    end
  end.

(** [parsed.sort()]: by the position of the variant. *)
Definition capability_rank (c : OperatorCapability.t) : Z := Z.of_nat (OperatorCapability.rank c).

(* src: crates/bos-app/src/slices/operator_api_tokens/service.rs:28-41 parse_capabilities *)
Definition parse_capabilities (raw : list string) : Result string (list OperatorCapability.t) :=
  match raw with
  | [] => Err "operator_capabilities_required"%string
  | _ => parsed ← parse_all [] raw; Ok (sort_by_key capability_rank parsed)
  end.
End TokenService.
