(* ===== verification/Auth.v ===== *)
(** * Authentication, sessions and the operator routes
    ([bos-app/src/http.rs], [slices/operator_users/routes.rs],
    [slices/operator_api_tokens/routes.rs])

    A request is identified by a bearer token, else by its session cookie, else it
    is anonymous.  A session cookie is stateless: it carries a fingerprint of the
    token and a proof over client, time and token, and is checked against the live
    credentials on every request; only logged-out cookies are remembered.

    [Server] is the part of [AppState] these functions use; every map is behind a
    mutex held for one step.  Headers come as the [http] crate decodes them, the
    clock and the random bytes as arguments; [pool_exhausted] says that the bounded
    wait for a pooled connection times out. *)

From S2P Require Import Prelude RustStd RustStr StoreCore AppOutbox Identity Schema Operators.
Import Spine.

(* src: crates/bos-app/src/http.rs:27-27 OPERATOR_SESSION_COOKIE *)
Definition OPERATOR_SESSION_COOKIE : string := "bos_operator_session".
(* src: crates/bos-app/src/http.rs:28-28 OPERATOR_SESSION_COOKIE_PREFIX *)
Definition OPERATOR_SESSION_COOKIE_PREFIX : string := "boss2".
(* src: crates/bos-app/src/http.rs:29-33 OPERATOR_SESSION_ABSOLUTE_TTL_MS *)
Definition OPERATOR_SESSION_ABSOLUTE_TTL_MS : N := 7 * 24 * 60 * 60 * 1000.
(* src: crates/bos-app/src/http.rs:34-36 OPERATOR_SESSION_IDLE_TTL_MS *)
Definition OPERATOR_SESSION_IDLE_TTL_MS : N := 12 * 60 * 60 * 1000.
Definition BAD_REQUEST : N := 400.
Definition CONFLICT : N := 409.

(** [a.saturating_sub(b)] on [u64]. *)
Definition saturating_sub (a b : N) : N := (a - b)%N.

Module OperatorSession.
(* src: crates/bos-app/src/http.rs:40-45 OperatorSession *)
Record t := mk { token : string; issued_at_ms : N; last_seen_at_ms : N }.
End OperatorSession.

(** The two headers the gates read, decoded. *)
Record Headers := { authorization : option string; cookie : option string }.

Module Server.
(* src: crates/bos-app/src/http.rs:66-77 AppState *)
Record t := mk {
  db : AppDb;
  client_id : string;
  operator_token : option string;
  operator_sessions : gmap string OperatorSession.t;
  revoked_operator_sessions : gset string;
  pool_exhausted : bool;
}.

Definition set_db (s : t) (d : AppDb) : t :=
  mk d (client_id s) (operator_token s) (operator_sessions s) (revoked_operator_sessions s) (pool_exhausted s).
Definition set_sessions (s : t) (m : gmap string OperatorSession.t) : t :=
  mk (db s) (client_id s) (operator_token s) m (revoked_operator_sessions s) (pool_exhausted s).
Definition set_revoked (s : t) (m : gset string) : t :=
  mk (db s) (client_id s) (operator_token s) (operator_sessions s) m (pool_exhausted s).
End Server.

Abbreviation HttpOp := (Op Server.t ErrorResponse.t).

(** ** Cookies *)

(** [cookie.split(';').find_map(...)]. *)
Fixpoint find_cookie (name : string) (parts : list string) : option string :=
  match parts with
  | [] => None
  | part :: parts =>
    match split_once "=" (trim part) with
    | Some (key, value) => if string_eqb key name then Some value else find_cookie name parts
    | None => find_cookie name parts
    end
  end.

(* src: crates/bos-app/src/http.rs:951-957 cookie_value *)
Definition cookie_value (headers : Headers) (name : string) : option string :=
  c ← cookie headers; find_cookie name (split_on ";" c).

(* src: crates/bos-app/src/http.rs:959-963 SignedOperatorSessionCookie *)
Record SignedOperatorSessionCookie := {
  issued_at_ms : N;
  token_fingerprint : string;
  proof : string;
}.

(* src: crates/bos-app/src/http.rs:997-999 is_hex_256 *)
Definition is_hex_256 (value : string) : bool :=
  Nat.eqb (String.length value) 64 && all_bytes is_ascii_hexdigit value.

(* src: crates/bos-app/src/http.rs:993-995 session_proof_material *)
Definition session_proof_material (client_id : string) (issued_at_ms : N) : string :=
  client_id +:+ ":" +:+ fmt_dec issued_at_ms.

(* src: crates/bos-app/src/http.rs:976-991 parse_signed_session_cookie_value *)
Definition parse_signed_session_cookie_value (value : string) : option SignedOperatorSessionCookie :=
  rest ← strip_prefix OPERATOR_SESSION_COOKIE_PREFIX value;
  rest ← strip_prefix "_" rest;
  match split_on "_" rest with
  | [issued; fingerprint; proof] =>
    issued_at_ms ← parse_u64 issued;
    if negb (is_hex_256 fingerprint) || negb (is_hex_256 proof) then None
    else Some {| issued_at_ms := issued_at_ms; token_fingerprint := fingerprint; proof := proof |}
  | _ => None
  end.

(* src: crates/bos-app/src/http.rs:1001-1007 session_cookie *)
Definition session_cookie (cookie_value : string) : string :=
  OPERATOR_SESSION_COOKIE +:+ "=" +:+ cookie_value +:+ "; Path=/; HttpOnly; Secure; SameSite=Lax; Max-Age="
  +:+ fmt_dec (OPERATOR_SESSION_ABSOLUTE_TTL_MS / 1000).

(* src: crates/bos-app/src/http.rs:1009-1013 clear_session_cookie *)
Definition clear_session_cookie : string :=
  "bos_operator_session=; Path=/; HttpOnly; Secure; SameSite=Lax; Max-Age=0".

(** ** Responses *)

(* src: crates/bos-contracts/src/mutation.rs:5-12 MutationOutcomeKind *)
Inductive MutationOutcomeKind := KApplied | KReplayedIdempotent | KRevisionConflict.

(* src: crates/bos-contracts/src/mutation.rs:14-22 MutationResponse *)
Record MutationResponse := {
  response_outcome : MutationOutcomeKind;
  response_receipt_id : string;
  response_revision : option N;
}.

(** What the routes answer on success. *)
Inductive Body :=
| BMutation (status : N) (response : MutationResponse)
| BWhoAmI (actor_id display_name : string) (capabilities : option (list string))
| BUsers (users : list OperatorUser.t)
| BUserCreated (user : OperatorUser.t) (token : string)
| BUserToken (token : string)
| BTokens (tokens : list OperatorApiToken.t)
| BTokenCreated (api_token : OperatorApiToken.t) (token : string)
| BTokenRotated (token : string)
| BSession (set_cookie : string).

Definition OK : N := 200.

(* src: crates/bos-app/src/http.rs:1378-1414 mutation_response *)
Definition mutation_response (outcome : MutationOutcome.t) : Body :=
  match outcome with
  | MutationOutcome.Applied receipt_id revision =>
    BMutation OK {| response_outcome := KApplied; response_receipt_id := receipt_id;
                    response_revision := Some revision |}
  | MutationOutcome.ReplayedIdempotent receipt_id revision =>
    BMutation OK {| response_outcome := KReplayedIdempotent; response_receipt_id := receipt_id;
                    response_revision := revision |}
  | MutationOutcome.RevisionConflict receipt_id current_revision =>
    BMutation CONFLICT {| response_outcome := KRevisionConflict; response_receipt_id := receipt_id;
                          response_revision := current_revision |}
  end.

(* src: crates/bos-app/src/http.rs:1418-1427 store_error_response *)
Definition store_error_response (err : StoreError.t) : ErrorResponse.t :=
  match err with
  | StoreError.Domain code => error_response UNPROCESSABLE_ENTITY code
  | StoreError.Sqlite _ => error_response INTERNAL_SERVER_ERROR "storage_failure"
  end.

Definition operator_token_invalid : ErrorResponse.t := error_response UNAUTHORIZED "operator_token_invalid".
Definition operator_session_invalid : ErrorResponse.t := error_response UNAUTHORIZED "operator_session_invalid".
Definition operator_session_expired : ErrorResponse.t := error_response UNAUTHORIZED "operator_session_expired".
Definition auth_lookup_failed : ErrorResponse.t := error_response INTERNAL_SERVER_ERROR "auth_lookup_failed".

Module Auth.
Section auth.
Context (constraint_failed conversion_failed : string) (sha256_hex : string → string)
  (json_text : list (string * JsonValue) → string)
  (strings_json : list string → string) (parse_strings : string → option (list string)).

Abbreviation session_token_fingerprint := (UserStore.session_token_fingerprint sha256_hex).
Abbreviation session_token_proof := (UserStore.session_token_proof sha256_hex).
Abbreviation token_hash := (TokenStore.token_hash sha256_hex).

(* src: crates/bos-app/src/http.rs:965-974 signed_session_cookie_value *)
Definition signed_session_cookie_value (client_id token : string) (issued_at_ms : N) : string :=
  let fingerprint := session_token_fingerprint token in
  let proof := session_token_proof token fingerprint (session_proof_material client_id issued_at_ms) in
  OPERATOR_SESSION_COOKIE_PREFIX +:+ "_" +:+ fmt_dec issued_at_ms +:+ "_" +:+ fingerprint +:+ "_" +:+ proof.

(** The state, and a query or a mutation on the pooled connection. *)
Definition get_server : HttpOp Server.t := op_get.

Definition on_db {A} (m : AppOp A) : Op Server.t ErrorResponse.t (Result StoreError.t A) :=
  fun s => let '(r, d) := m (Server.db s) in (Ok r, Server.set_db s d).

(* src: crates/bos-app/src/http.rs:317-325 AppState::persistence_or_busy *)
Definition persistence_or_busy : HttpOp unit :=
  fun s => if Server.pool_exhausted s
           then (Err (error_response SERVICE_UNAVAILABLE "persistence_busy"), s) else (Ok tt, s).

(** A lookup whose failure is answered with [auth_lookup_failed]. *)
Definition auth_lookup {A} (m : AppOp A) : HttpOp A :=
  let? r := on_db m in
  op_lift (match r with Ok a => Ok a | Err _ => Err auth_lookup_failed end).

(* src: crates/bos-app/src/http.rs:464-528 AppState::authenticate_presented_token *)
Definition authenticate_presented_token (presented : option string) : HttpOp OperatorIdentity.t :=
  let? s := get_server in
  match presented with
  | None =>
    op_lift (if bool_decide (Server.operator_token s = None) then Ok OperatorIdentity.shared
             else Err operator_token_invalid)
  | Some token =>
    if bool_decide (Server.operator_token s = Some token) then op_ret OperatorIdentity.shared
    else
      persistence_or_busy ;;?
      let? user := auth_lookup (UserStore.find_active_by_token (Server.client_id s) token) in
      match user with
      | Some user =>
        op_ret (OperatorIdentity.mk (OperatorUser.user_id user) (OperatorUser.display_name user)
                  TokenCapabilities.Unscoped)
      | None =>
        let? api_token := auth_lookup (TokenStore.find_active_by_token_hash conversion_failed parse_strings
                                         (Server.client_id s) (token_hash token)) in
        op_lift (match api_token with
          | Some api_token =>
            OperatorIdentity.scoped (OperatorApiToken.token_id api_token) (OperatorApiToken.label api_token)
              (OperatorApiToken.capabilities api_token)
          | None => Err operator_token_invalid
          end)
      end
  end.

(* src: crates/bos-app/src/http.rs:530-535 AppState::create_operator_session_for_token *)
Definition create_operator_session_for_token (token : string) (now_ms : N) : HttpOp string :=
  let? identity := authenticate_presented_token (Some token) in
  op_lift (OperatorIdentity.require_unscoped identity) ;;?
  let? s := get_server in
  op_ret (signed_session_cookie_value (Server.client_id s) token now_ms).

(** The token matches the cookie's fingerprint and proof. *)
Definition cookie_proves (client_id : string) (signed : SignedOperatorSessionCookie) (token : string) : bool :=
  UserStore.proves sha256_hex (token_fingerprint signed) (proof signed)
    (session_proof_material client_id (issued_at_ms signed)) token.

(* src: crates/bos-app/src/http.rs:568-621 AppState::signed_session_token *)
Definition signed_session_token (session_id : string) (now_ms : N) : HttpOp (option string) :=
  match parse_signed_session_cookie_value session_id with
  | None => op_ret None
  | Some signed =>
    let? s := get_server in
    if bool_decide (session_id ∈ Server.revoked_operator_sessions s) then
      op_lift (Err operator_session_invalid)
    else if (OPERATOR_SESSION_ABSOLUTE_TTL_MS <? saturating_sub now_ms (issued_at_ms signed))%N then
      op_lift (Err operator_session_expired)
    else if option_any (cookie_proves (Server.client_id s) signed) (Server.operator_token s) then
      op_ret (Server.operator_token s)
    else
      persistence_or_busy ;;?
      let? token := auth_lookup (UserStore.find_active_token_by_session_proof sha256_hex (Server.client_id s)
          (token_fingerprint signed) (proof signed)
          (session_proof_material (Server.client_id s) (issued_at_ms signed))) in
      match token with
      | Some token => op_ret (Some token)
      | None => op_lift (Err operator_session_invalid)
      end
  end.

(** The older sessions kept in memory: an idle or old one is removed, any other is
    touched. *)
(* src: crates/bos-app/src/http.rs:547-565 AppState::session_token_from_headers (in-memory session) *)
Definition in_memory_session (session_id : string) (now_ms : N) : HttpOp (option string) :=
  fun s =>
    match Server.operator_sessions s !! session_id with
    | None => (Err operator_session_invalid, s)
    | Some session =>
      if (OPERATOR_SESSION_IDLE_TTL_MS <? saturating_sub now_ms (OperatorSession.last_seen_at_ms session))%N
         || (OPERATOR_SESSION_ABSOLUTE_TTL_MS <? saturating_sub now_ms (OperatorSession.issued_at_ms session))%N
      then (Err operator_session_expired,
            Server.set_sessions s (delete session_id (Server.operator_sessions s)))
      else (Ok (Some (OperatorSession.token session)),
            Server.set_sessions s (<[session_id := OperatorSession.mk (OperatorSession.token session)
                (OperatorSession.issued_at_ms session) now_ms]> (Server.operator_sessions s)))
    end.

(* src: crates/bos-app/src/http.rs:537-566 AppState::session_token_from_headers *)
Definition session_token_from_headers (headers : Headers) (now_ms : N) : HttpOp (option string) :=
  match cookie_value headers OPERATOR_SESSION_COOKIE with
  | None => op_ret None
  | Some session_id =>
    let? token := signed_session_token session_id now_ms in
    match token with
    | Some token => op_ret (Some token)
    | None => in_memory_session session_id now_ms
    end
  end.

(** [headers.get("authorization") ... strip_prefix("Bearer ")]. *)
Definition bearer (headers : Headers) : option string :=
  v ← authorization headers; strip_prefix "Bearer " v.

(* src: crates/bos-app/src/http.rs:450-462 AppState::resolve_operator *)
Definition resolve_operator (headers : Headers) (now_ms : N) : HttpOp OperatorIdentity.t :=
  match bearer headers with
  | Some token => authenticate_presented_token (Some token)
  | None =>
    let? token := session_token_from_headers headers now_ms in
    authenticate_presented_token token
  end.

(* src: crates/bos-app/src/http.rs:439-446 AppState::authenticate_operator *)
Definition authenticate_operator (headers : Headers) (now_ms : N) : HttpOp OperatorIdentity.t :=
  let? identity := resolve_operator headers now_ms in
  op_lift (OperatorIdentity.require_unscoped identity) ;;?
  op_ret identity.

(* src: crates/bos-app/src/http.rs:363-365 AppState::authenticate *)
Definition authenticate (headers : Headers) (now_ms : N) : HttpOp AuthContext.t :=
  op_map AuthContext.auth_context (authenticate_operator headers now_ms).

(* src: crates/bos-app/src/http.rs:344-346 AppState::require_operator *)
Definition require_operator (headers : Headers) (now_ms : N) : HttpOp unit :=
  op_map (fun _ => tt) (authenticate headers now_ms).

(* src: crates/bos-app/src/http.rs:348-350 AppState::require_scope *)
Definition require_scope (headers : Headers) (now_ms : N) : HttpOp OperatorScope.t :=
  op_map AuthContext.scope (authenticate headers now_ms).

(* src: crates/bos-app/src/http.rs:352-360 AppState::require_all_scope *)
Definition require_all_scope (headers : Headers) (now_ms : N) : HttpOp unit :=
  let? scope := require_scope headers now_ms in
  op_lift (match scope with
    | OperatorScope.All => Ok tt
    | OperatorScope.User _ => Err (error_response UNPROCESSABLE_ENTITY "scope_forbidden")
    end).

(* src: crates/bos-app/src/http.rs:368-376 AppState::require_capability *)
Definition require_capability (headers : Headers) (capability : OperatorCapability.t) (now_ms : N)
    : HttpOp AuthContext.t :=
  let? identity := resolve_operator headers now_ms in
  op_lift (OperatorIdentity.require_capability identity capability) ;;?
  op_ret (AuthContext.auth_context identity).

(* src: crates/bos-app/src/http.rs:405-431 AppState::operator_credentials_configured *)
Definition operator_credentials_configured : HttpOp bool :=
  let? s := get_server in
  if bool_decide (is_Some (Server.operator_token s)) then op_ret true
  else
    persistence_or_busy ;;?
    let? users := auth_lookup (UserStore.any_active_token (Server.client_id s)) in
    if users : bool then op_ret true
    else auth_lookup (TokenStore.any_active_token (Server.client_id s)).

(** The session is looked up twice: once for its presence, once by [resolve_operator]. *)
(* src: crates/bos-app/src/http.rs:378-403 AppState::authenticate_agent_mcp *)
Definition authenticate_agent_mcp (headers : Headers) (now_ms now_ms' : N) : HttpOp AuthContext.t :=
  let? configured := operator_credentials_configured in
  if negb configured then op_lift (Err operator_token_invalid)
  else
    (match bearer headers with
     | Some _ => op_ret tt
     | None =>
       let? token := session_token_from_headers headers now_ms in
       op_lift (if bool_decide (token = None) then Err operator_token_invalid else Ok tt)
     end) ;;?
    let? identity := resolve_operator headers now_ms' in
    op_lift (if TokenCapabilities.allows_mcp_endpoint (OperatorIdentity.capabilities identity)
             then Ok (AuthContext.auth_context identity) else Err capability_denied).

(** Logging out remembers a signed cookie as revoked, and forgets any other. *)
(* src: crates/bos-app/src/http.rs:623-634 AppState::clear_operator_session *)
Definition clear_operator_session (headers : Headers) (s : Server.t) : Server.t :=
  match cookie_value headers OPERATOR_SESSION_COOKIE with
  | None => s
  | Some session_id =>
    match parse_signed_session_cookie_value session_id with
    | Some _ => Server.set_revoked s ({[session_id]} ∪ Server.revoked_operator_sessions s)
    | None => Server.set_sessions s (delete session_id (Server.operator_sessions s))
    end
  end.

(* src: crates/bos-app/src/http.rs:640-649 AppState::resolve_actor *)
Definition resolve_actor (headers : Headers) (requested : option string) (now_ms : N) (s : Server.t)
    : string * Server.t :=
  match authenticate headers now_ms s with
  | (Ok auth, s') => (AuthContext.actor_or auth requested, s')
  | (Err _, s') => (AuthContext.requested_actor requested, s')
  end.

(** [query_token.map(str::trim).filter(|token| !token.is_empty())]. *)
Definition presented_query_token (query_token : option string) : option string :=
  t ← query_token; if is_empty (trim t) then None else Some (trim t).

(* src: crates/bos-app/src/http.rs:655-702 AppState::authenticate_operator_or_query_token *)
Definition authenticate_operator_or_query_token (headers : Headers) (query_token : option string) (now_ms : N)
    : HttpOp OperatorIdentity.t :=
  let? s := get_server in
  let? identity :=
    match presented_query_token query_token with
    | Some token =>
      if bool_decide (Server.operator_token s = Some token) then op_ret OperatorIdentity.shared
      else
        persistence_or_busy ;;?
        let? user := auth_lookup (UserStore.find_active_by_token (Server.client_id s) token) in
        op_lift (match user with
          | Some user => Ok (OperatorIdentity.mk (OperatorUser.user_id user) (OperatorUser.display_name user)
                               TokenCapabilities.Unscoped)
          | None => Err operator_token_invalid
          end)
    | None => authenticate_operator headers now_ms
    end in
  op_lift (OperatorIdentity.require_unscoped identity) ;;?
  op_ret identity.
End auth.
End Auth.
