(* ===== verification/OperatorRoutes.v ===== *)
(** * The routes of operator users, machine tokens and sessions
    ([slices/operator_users/routes.rs], [slices/operator_api_tokens/routes.rs],
    [login_session] and [logout_session] of [http.rs])

    Each handler passes its gate, checks its input, writes through the store and
    renders the outcome.  [random] is what [/dev/urandom] gives; [now_ms] is read
    by the gate and again, as [now_ms'], for the write. *)

From S2P Require Import Prelude RustStd RustStr StoreCore AppOutbox Identity Schema Operators Auth.

(* src: crates/bos-contracts/src/operator_users.rs:53-60 OperatorUserActionKind *)
Inductive OperatorUserActionKind := UserDisable | UserEnable | UserArchive.
(* src: crates/bos-contracts/src/operator_api_tokens.rs:49-56 OperatorApiTokenActionKind *)
Inductive OperatorApiTokenActionKind := TokenDisable | TokenEnable | TokenRevoke.

Module OperatorRoutes.
Section routes.
Context (constraint_failed conversion_failed : string) (sha256_hex : string → string)
  (json_text : list (string * JsonValue) → string)
  (strings_json : list string → string) (parse_strings : string → option (list string)).

Abbreviation authenticate := (Auth.authenticate conversion_failed sha256_hex parse_strings).
Abbreviation resolve_operator := (Auth.resolve_operator conversion_failed sha256_hex parse_strings).
Abbreviation require_all_scope := (Auth.require_all_scope conversion_failed sha256_hex parse_strings).

Definition token_generation_failed : ErrorResponse.t :=
  error_response INTERNAL_SERVER_ERROR "token_generation_failed".

(** [if request.idempotency_key.trim().is_empty() { return 400 }]. *)
Definition require_key (idempotency_key : string) : HttpOp unit :=
  if is_blank idempotency_key then op_lift (Err (error_response BAD_REQUEST "idempotency_key_required"))
  else op_ret tt.

(** A store operation, its errors rendered by [store_error_response]. *)
Definition store_op {A} (m : AppOp A) : HttpOp A :=
  let? r := Auth.on_db m in
  op_lift (match r with Ok a => Ok a | Err e => Err (store_error_response e) end).

(** An error code with status 422. *)
Definition unprocessable {A} (r : Result string A) : HttpOp A :=
  op_lift (match r with Ok a => Ok a | Err code => Err (error_response UNPROCESSABLE_ENTITY code) end).

Definition generated (token : option string) : HttpOp string := op_lift (ok_or token token_generation_failed).

(** The gates: all-scope, or all-scope or the user's own record. *)
Definition all_scope_gate (headers : Headers) (now_ms : N) : HttpOp AuthContext.t :=
  let? auth := authenticate headers now_ms in
  op_lift (AuthContext.require_all_scope auth) ;;?
  op_ret auth.
Definition self_gate (headers : Headers) (user_id : string) (now_ms : N) : HttpOp AuthContext.t :=
  let? auth := authenticate headers now_ms in
  op_lift (AuthContext.require_all_scope_or_self auth user_id) ;;?
  op_ret auth.

Definition action_context (client_id actor_id : string) (expected_revision : option N)
    (idempotency_key : string) (now_ms : N) : UserActionContext :=
  Build_UserActionContext client_id actor_id expected_revision idempotency_key now_ms.

(** ** Sessions *)

(* src: crates/bos-app/src/http.rs:1634-1650 login_session *)
Definition login_session (token : string) (now_ms : N) : HttpOp Body :=
  let token := trim token in
  if is_empty token then op_lift (Err operator_token_invalid)
  else
    let? session_id := Auth.create_operator_session_for_token conversion_failed sha256_hex parse_strings token now_ms in
    op_ret (BSession (session_cookie session_id)).

(* src: crates/bos-app/src/http.rs:1652-1662 logout_session *)
Definition logout_session (headers : Headers) : HttpOp Body :=
  fun s => (Ok (BSession clear_session_cookie), Auth.clear_operator_session headers s).

(** ** Users *)

(* src: crates/bos-app/src/slices/operator_users/routes.rs:36-47 whoami *)
Definition whoami (headers : Headers) (now_ms : N) : HttpOp Body :=
  let? identity := resolve_operator headers now_ms in
  op_ret (BWhoAmI (OperatorIdentity.actor_id identity) (OperatorIdentity.display_name identity)
            (TokenCapabilities.as_strings (OperatorIdentity.capabilities identity))).

(* src: crates/bos-app/src/slices/operator_users/routes.rs:49-66 users_list *)
Definition users_list (include_archived : bool) (headers : Headers) (now_ms : N) : HttpOp Body :=
  require_all_scope headers now_ms ;;?
  let? s := Auth.get_server in
  let? users := store_op (UserStore.list_users (Server.client_id s) include_archived) in
  op_ret (BUsers users).

(** Any outcome of the mutation is answered with the generated token. *)
(* src: crates/bos-app/src/slices/operator_users/routes.rs:68-117 user_create *)
Definition user_create (headers : Headers) (display_name idempotency_key : string) (actor_id : option string)
    (random : option (list N)) (now_ms now_ms' : N) : HttpOp Body :=
  let? auth := all_scope_gate headers now_ms in
  require_key idempotency_key ;;?
  let actor_id := AuthContext.actor_or auth actor_id in
  let? user_id := unprocessable (UserService.user_id_from_display_name display_name) in
  let? token := generated (UserService.generate_token random) in
  let user := OperatorUser.mk user_id (trim display_name) true None None now_ms' now_ms' in
  let? s := Auth.get_server in
  let? _ := store_op (UserStore.create_user constraint_failed json_text (Server.client_id s) actor_id user
                        token idempotency_key) in
  op_ret (BUserCreated user token).

(* src: crates/bos-app/src/slices/operator_users/routes.rs:119-170 user_action *)
Definition user_action (headers : Headers) (user_id : string) (action : OperatorUserActionKind)
    (expected_revision : option N) (idempotency_key : string) (actor_id : option string) (now_ms now_ms' : N)
    : HttpOp Body :=
  let? auth := all_scope_gate headers now_ms in
  require_key idempotency_key ;;?
  let actor_id := AuthContext.actor_or auth actor_id in
  let? s := Auth.get_server in
  let ctx := action_context (Server.client_id s) actor_id expected_revision idempotency_key now_ms' in
  match action with
  | UserEnable => op_map mutation_response (store_op (UserStore.set_active constraint_failed ctx user_id true))
  | UserDisable => op_map mutation_response (store_op (UserStore.set_active constraint_failed ctx user_id false))
  | UserArchive =>
    if string_eqb actor_id user_id
    then op_lift (Err (error_response UNPROCESSABLE_ENTITY "operator_user_self_archive"))
    else op_map mutation_response (store_op (UserStore.archive_user constraint_failed json_text ctx user_id))
  end.

(** Any outcome of the mutation is answered with the generated token. *)
(* src: crates/bos-app/src/slices/operator_users/routes.rs:172-208 rotate_token *)
Definition rotate_user_token (headers : Headers) (user_id idempotency_key : string) (actor_id : option string)
    (random : option (list N)) (now_ms now_ms' : N) : HttpOp Body :=
  let? auth := self_gate headers user_id now_ms in
  require_key idempotency_key ;;?
  let actor_id := AuthContext.actor_or auth actor_id in
  let? token := generated (UserService.generate_token random) in
  let? s := Auth.get_server in
  let ctx := action_context (Server.client_id s) actor_id None idempotency_key now_ms' in
  let? _ := store_op (UserStore.rotate_token constraint_failed ctx user_id token) in
  op_ret (BUserToken token).

(* src: crates/bos-app/src/slices/operator_users/routes.rs:210-245 set_default_calendar *)
Definition set_default_calendar (headers : Headers) (user_id : string) (calendar_id : option string)
    (expected_revision : option N) (idempotency_key : string) (actor_id : option string) (now_ms now_ms' : N)
    : HttpOp Body :=
  let? auth := self_gate headers user_id now_ms in
  require_key idempotency_key ;;?
  let actor_id := AuthContext.actor_or auth actor_id in
  let calendar_id := (c ← calendar_id; if is_empty (trim c) then None else Some (trim c)) in
  let? s := Auth.get_server in
  let ctx := action_context (Server.client_id s) actor_id expected_revision idempotency_key now_ms' in
  op_map mutation_response
    (store_op (UserStore.set_default_calendar constraint_failed json_text ctx user_id calendar_id)).

(** ** Machine tokens *)

(* src: crates/bos-app/src/slices/operator_api_tokens/routes.rs:28-37 tokens_list *)
Definition tokens_list (headers : Headers) (now_ms : N) : HttpOp Body :=
  require_all_scope headers now_ms ;;?
  let? s := Auth.get_server in
  let? tokens := store_op (TokenStore.list_tokens conversion_failed parse_strings (Server.client_id s)) in
  op_ret (BTokens tokens).

(** The secret is answered only when it was stored. *)
(* src: crates/bos-app/src/slices/operator_api_tokens/routes.rs:39-108 token_create *)
Definition token_create (headers : Headers) (label : string) (capabilities : list string)
    (idempotency_key : string) (actor_id : option string) (random_id random : option (list N))
    (now_ms now_ms' : N) : HttpOp Body :=
  let? auth := all_scope_gate headers now_ms in
  require_key idempotency_key ;;?
  let? label := unprocessable (TokenService.parse_label label) in
  let? capabilities := unprocessable (TokenService.parse_capabilities capabilities) in
  let? token_id := generated (TokenService.generate_token_id random_id) in
  let? secret := generated (TokenService.generate_secret random) in
  let actor_id := AuthContext.actor_or auth actor_id in
  let api_token := OperatorApiToken.mk token_id label (OperatorCapability.as_str <$> capabilities) true None
                     actor_id now_ms' now_ms' in
  let? s := Auth.get_server in
  let? outcome := store_op (TokenStore.create_token constraint_failed json_text strings_json (Server.client_id s)
                              actor_id api_token (TokenStore.token_hash sha256_hex secret) idempotency_key) in
  op_ret (match outcome with
    | MutationOutcome.Applied _ _ => BTokenCreated api_token secret
    | other => mutation_response other
    end).

(* src: crates/bos-app/src/slices/operator_api_tokens/routes.rs:110-150 token_action *)
Definition token_action (headers : Headers) (token_id : string) (action : OperatorApiTokenActionKind)
    (expected_revision : option N) (idempotency_key : string) (actor_id : option string) (now_ms now_ms' : N)
    : HttpOp Body :=
  let? auth := all_scope_gate headers now_ms in
  require_key idempotency_key ;;?
  let actor_id := AuthContext.actor_or auth actor_id in
  let? s := Auth.get_server in
  let ctx := action_context (Server.client_id s) actor_id expected_revision idempotency_key now_ms' in
  op_map mutation_response (store_op
    match action with
    | TokenEnable => TokenStore.set_active constraint_failed conversion_failed parse_strings ctx token_id true
    | TokenDisable => TokenStore.set_active constraint_failed conversion_failed parse_strings ctx token_id false
    | TokenRevoke => TokenStore.revoke_token constraint_failed conversion_failed json_text parse_strings ctx token_id
    end).

(** The secret is answered only when it was stored. *)
(* src: crates/bos-app/src/slices/operator_api_tokens/routes.rs:152-196 rotate_token *)
Definition rotate_api_token (headers : Headers) (token_id idempotency_key : string) (actor_id : option string)
    (random : option (list N)) (now_ms now_ms' : N) : HttpOp Body :=
  let? auth := all_scope_gate headers now_ms in
  require_key idempotency_key ;;?
  let? secret := generated (TokenService.generate_secret random) in
  let actor_id := AuthContext.actor_or auth actor_id in
  let? s := Auth.get_server in
  let ctx := action_context (Server.client_id s) actor_id None idempotency_key now_ms' in
  let? outcome := store_op (TokenStore.rotate_token constraint_failed conversion_failed parse_strings ctx token_id
                              (TokenStore.token_hash sha256_hex secret)) in
  op_ret (match outcome with
    | MutationOutcome.Applied _ _ => BTokenRotated secret
    | other => mutation_response other
    end).
End routes.
End OperatorRoutes.
