(* ===== verification/AuthProps.v ===== *)
(** * What authentication guarantees

    A session cookie survives the round trip through the browser and stands for
    its token, no more and no longer; every identity is backed by a live
    credential that was presented; a disabled user is locked out at once.  *)

From S2P Require Import Prelude RustStd RustStr StoreCore StoreCoreProps AppOutbox Identity Schema SliceCore.
From S2P Require Import Operators Auth.

(** ** Session cookies *)

Section auth.
Context (conversion_failed : string) (sha256_hex : string → string)
  (parse_strings : string → option (list string)).

Abbreviation fingerprint := (UserStore.session_token_fingerprint sha256_hex).
Abbreviation token_proof := (UserStore.session_token_proof sha256_hex).
Abbreviation cookie_of := (Auth.signed_session_cookie_value sha256_hex).
Abbreviation present := (Auth.authenticate_presented_token conversion_failed sha256_hex parse_strings).
Abbreviation resolve := (Auth.resolve_operator conversion_failed sha256_hex parse_strings).
Abbreviation session_token := (Auth.session_token_from_headers sha256_hex).

(** A SHA-256 digest has 64 hexadecimal digits. *)
Definition digests_hex : Prop := ∀ s, is_hex_256 (sha256_hex s) = true.

(** What the browser sends back. *)
Definition cookie_header (value : string) : Headers :=
  {| authorization := None; cookie := Some (OPERATOR_SESSION_COOKIE +:+ "=" +:+ value) |}.

Lemma hex_lacks c s : is_ascii_hexdigit c = false → is_hex_256 s = true → lacks c s = true.
Proof.
  intros Hc [_ Hs]%andb_true_iff. revert Hs. apply all_bytes_impl. intros a Ha. apply negb_true_iff.
  destruct (Ascii.eqb_spec a c) as [->|]; [by rewrite Ha in Hc|done].
Qed.

(** The bytes a cookie value is made of. *)
Definition cookie_byte (a : ascii) : bool := is_ascii_alphanumeric a || Ascii.eqb a "_".

Lemma cookie_of_bytes client_id token issued :
  digests_hex → all_bytes cookie_byte (cookie_of client_id token issued) = true.
Proof.
  intros Hhex. assert (Hh : ∀ s, all_bytes cookie_byte (sha256_hex s) = true).
  { intros s. specialize (Hhex s). unfold is_hex_256 in Hhex. apply andb_true_iff in Hhex as [_ Hb].
    revert Hb. apply all_bytes_impl. intros a Ha. unfold cookie_byte, is_ascii_alphanumeric, is_ascii_hexdigit in *.
    lia. }
  unfold Auth.signed_session_cookie_value. rewrite !all_bytes_app.
  assert (Hd : all_bytes cookie_byte (fmt_dec issued) = true).
  { generalize (fmt_dec_digits issued). apply all_bytes_impl. intros a Ha.
    unfold cookie_byte, is_ascii_alphanumeric. by rewrite Ha. }
  rewrite Hd. unfold UserStore.session_token_proof, UserStore.session_token_fingerprint. by rewrite !Hh.
Qed.

Lemma cookie_header_value v :
  all_bytes cookie_byte v = true → cookie_value (cookie_header v) OPERATOR_SESSION_COOKIE = Some v.
Proof.
  intros Hv. unfold cookie_value, cookie_header. cbn [cookie mbind option_bind].
  set (part := OPERATOR_SESSION_COOKIE +:+ "=" +:+ v).
  rewrite split_on_lacks.
  - cbn [find_cookie]. rewrite trim_visible.
    + unfold part. change ("=" +:+ v) with (String "=" v). by rewrite split_once_app.
    + unfold part. rewrite !all_visible_app.
      assert (Hvis : all_visible v = true); [|by rewrite Hvis].
      change (all_bytes visible v = true). revert Hv. apply all_bytes_impl. intros a Ha.
      unfold cookie_byte, is_ascii_alphanumeric, is_digit, visible in *.
      destruct (Ascii.eqb_spec a "_") as [Heq|Hne]; [by rewrite Heq|]. lia.
  - unfold part, lacks. rewrite !all_bytes_app.
    assert (Hl : all_bytes (fun a => negb (Ascii.eqb a ";")) v = true); [|by rewrite Hl].
    revert Hv. apply all_bytes_impl. intros a Ha. 
    destruct (Ascii.eqb_spec a ";") as [Heq|Hne]; [by rewrite Heq in Ha|done].
Qed.

(** a session cookie is read back as it was signed: parsing the value made for
    a token at a time gives that time, the token's fingerprint and the proof over
    client, time and token. *)
Theorem session_cookie_roundtrip client_id token issued :
  digests_hex → (issued ≤ u64_max)%N →
  parse_signed_session_cookie_value (cookie_of client_id token issued) = Some {|
    issued_at_ms := issued;
    token_fingerprint := fingerprint token;
    proof := token_proof token (fingerprint token) (session_proof_material client_id issued) |}.
Proof.
  intros Hhex Hn. unfold parse_signed_session_cookie_value, Auth.signed_session_cookie_value.
  rewrite strip_prefix_app. cbn [mbind option_bind]. rewrite strip_prefix_app. cbn [mbind option_bind].
  set (fp := fingerprint token). set (pr := token_proof token fp _).
  assert (Hfp : is_hex_256 fp = true) by apply Hhex. assert (Hpr : is_hex_256 pr = true) by apply Hhex.
  change ("_" +:+ fp +:+ "_" +:+ pr) with (String "_" (fp +:+ String "_" pr)).
  rewrite split_on_app by (apply digits_lack; [done|apply fmt_dec_digits]).
  rewrite split_on_app by by apply hex_lacks.
  rewrite split_on_lacks by by apply hex_lacks.
  rewrite parse_u64_fmt_dec by done. simpl. by rewrite Hfp, Hpr.
Qed.

(** ** Lookups *)

Lemma set_db_same s : Server.set_db s (Server.db s) = s.
Proof. by destruct s. Qed.

Lemma auth_lookup_read {A} (f : SliceTables → A) s :
  Auth.auth_lookup (read_tables f) s = (Ok (f (tables (Server.db s))), s).
Proof. unfold Auth.auth_lookup, Auth.on_db, op_bind, read_tables. simpl. by rewrite set_db_same. Qed.

Lemma find_unique {A} `{EqDecision A} (f : A → bool) (a : A) (l : list A) :
  (∀ x, x ∈ l → f x = true ↔ x = a) → List.find f l = if bool_decide (a ∈ l) then Some a else None.
Proof.
  induction l as [|x l IH]; intros Hf; simpl; [done|].
  destruct (f x) eqn:Hx.
  - apply (Hf x) in Hx as ->; [|by left]. rewrite bool_decide_eq_true_2; [done|by left].
  - rewrite IH by (intros y Hy; apply Hf; by right).
    assert (Hne : x ≠ a) by (intros Heq; apply (Hf x) in Heq; [by rewrite Hx in Heq|by left]).
    apply f_equal with (f := fun b : bool => if b then Some a else None), bool_decide_ext.
    rewrite elem_of_cons. split; [by right|]. by intros [->|].
Qed.

(** The personal tokens of the server's client that are live. *)
Definition personal_tokens (s : Server.t) : list string :=
  OperatorUserRow.token <$>
    filter (UserStore.live (Server.client_id s)) (values (operator_users (tables (Server.db s)))).

(** An unscoped credential: the shared token or a live personal one. *)
Definition unscoped_credential (s : Server.t) (token : string) : bool :=
  bool_decide (Server.operator_token s = Some token) || bool_decide (token ∈ personal_tokens s).

(** Among these no other has the token's fingerprint. *)
Definition fingerprint_unique (s : Server.t) (token : string) : Prop :=
  ∀ token', unscoped_credential s token' = true → fingerprint token' = fingerprint token → token' = token.

Lemma signed_token_spec s token issued now_ms :
  digests_hex → (issued ≤ u64_max)%N → fingerprint_unique s token → Server.pool_exhausted s = false →
  let v := cookie_of (Server.client_id s) token issued in
  Auth.signed_session_token sha256_hex v now_ms s =
    (if bool_decide (v ∈ Server.revoked_operator_sessions s) then Err operator_session_invalid
     else if (OPERATOR_SESSION_ABSOLUTE_TTL_MS <? saturating_sub now_ms issued)%N then Err operator_session_expired
     else if unscoped_credential s token then Ok (Some token) else Err operator_session_invalid, s).
Proof.
  intros Hhex Hn Hu Hpool v. unfold Auth.signed_session_token.
  unfold v at 1. rewrite session_cookie_roundtrip by done. cbn [issued_at_ms token_fingerprint proof].
  unfold op_bind at 1, Auth.get_server, op_get. case_bool_decide; [done|]. case_match; [done|].
  set (signed := Build_SignedOperatorSessionCookie _ _ _).
  assert (Hproves : ∀ t, unscoped_credential s t = true → Auth.cookie_proves sha256_hex (Server.client_id s) signed t = true ↔ t = token).
  { intros t Ht. unfold Auth.cookie_proves, UserStore.proves, signed. simpl.
    rewrite andb_true_iff, !string_eqb_true. split; [|by intros ->]. intros [Hf _]. by apply Hu. }
  destruct (option_any _ (Server.operator_token s)) eqn:Hop.
  - destruct (Server.operator_token s) as [t|] eqn:Hs; [|done]. simpl in Hop.
    assert (Hc : unscoped_credential s t = true) by (unfold unscoped_credential; rewrite Hs; by rewrite bool_decide_eq_true_2).
    apply Hproves in Hop as ->; [|done]. by rewrite Hc.
  - unfold op_bind, Auth.persistence_or_busy. rewrite Hpool.
    unfold UserStore.find_active_token_by_session_proof. rewrite auth_lookup_read.
    fold (personal_tokens s). rewrite (find_unique _ token).
    + assert (Hne : Server.operator_token s ≠ Some token).
      { intros Hs. rewrite Hs in Hop. simpl in Hop. assert (Hc : unscoped_credential s token = true).
        { unfold unscoped_credential. by rewrite bool_decide_eq_true_2. }
        by rewrite (proj2 (Hproves token Hc) eq_refl) in Hop. }
      unfold unscoped_credential. rewrite (bool_decide_eq_false_2 _ Hne). simpl. by case_bool_decide.
    + intros t Ht. apply Hproves. unfold unscoped_credential. rewrite orb_true_iff. right. by rewrite bool_decide_eq_true_2.
Qed.

(** C23: a session stands for its token, no more and no longer.  The cookie signed
    for a token at some time is refused once it was logged out, once it is more
    than seven days old, or once the token is neither the shared token nor that of
    a live user; otherwise a request with the cookie is answered exactly like one
    that presents the token itself.  (No other live token may have the same
    fingerprint, and the connection pool must have a connection.) *)
Theorem session_stands_for_token s token issued now_ms :
  digests_hex → (issued ≤ u64_max)%N → fingerprint_unique s token → Server.pool_exhausted s = false →
  let v := cookie_of (Server.client_id s) token issued in
  resolve (cookie_header v) now_ms s =
    if bool_decide (v ∈ Server.revoked_operator_sessions s) then (Err operator_session_invalid, s)
    else if (OPERATOR_SESSION_ABSOLUTE_TTL_MS <? saturating_sub now_ms issued)%N
    then (Err operator_session_expired, s)
    else if unscoped_credential s token then present (Some token) s
    else (Err operator_session_invalid, s).
Proof.
  intros Hhex Hn Hu Hpool v. unfold Auth.resolve_operator. cbn [Auth.bearer cookie_header authorization mbind option_bind].
  unfold Auth.session_token_from_headers. rewrite cookie_header_value by by apply cookie_of_bytes.
  unfold op_bind at 1. unfold op_bind at 1. 
  pose proof (signed_token_spec s token issued now_ms Hhex Hn Hu Hpool) as Hs. fold v in Hs. rewrite Hs.
  destruct (bool_decide _); [done|]. destruct (_ <? _)%N; [done|]. by destruct (unscoped_credential s token).
Qed.

(** ** Identities *)

(** The request presents the token: as its bearer; by a session cookie that is not
    logged out, not too old and proves it; or by a session kept in memory. *)
Inductive presents (h : Headers) (now_ms : N) (s : Server.t) : string → Prop :=
| presents_bearer token : Auth.bearer h = Some token → presents h now_ms s token
| presents_cookie v signed token :
    Auth.bearer h = None → cookie_value h OPERATOR_SESSION_COOKIE = Some v →
    parse_signed_session_cookie_value v = Some signed → v ∉ Server.revoked_operator_sessions s →
    (saturating_sub now_ms (issued_at_ms signed) ≤ OPERATOR_SESSION_ABSOLUTE_TTL_MS)%N →
    Auth.cookie_proves sha256_hex (Server.client_id s) signed token = true → presents h now_ms s token
| presents_session v session :
    Auth.bearer h = None → cookie_value h OPERATOR_SESSION_COOKIE = Some v →
    parse_signed_session_cookie_value v = None → Server.operator_sessions s !! v = Some session →
    (saturating_sub now_ms (OperatorSession.last_seen_at_ms session) ≤ OPERATOR_SESSION_IDLE_TTL_MS)%N →
    (saturating_sub now_ms (OperatorSession.issued_at_ms session) ≤ OPERATOR_SESSION_ABSOLUTE_TTL_MS)%N →
    presents h now_ms s (OperatorSession.token session).

(** The token is a live credential that gives the identity: the shared token, a
    personal token, or a machine token whose stored capabilities are all known. *)
Inductive backed (s : Server.t) (token : string) : OperatorIdentity.t → Prop :=
| backed_shared : Server.operator_token s = Some token → backed s token OperatorIdentity.shared
| backed_user k row :
    operator_users (tables (Server.db s)) !! k = Some row → UserStore.live (Server.client_id s) row = true →
    OperatorUserRow.token row = token →
    backed s token (OperatorIdentity.mk (OperatorUserRow.user_id row) (OperatorUserRow.display_name row)
                      TokenCapabilities.Unscoped)
| backed_machine k row parsed :
    operator_api_tokens (tables (Server.db s)) !! k = Some row → TokenStore.live (Server.client_id s) row = true →
    OperatorApiTokenRow.token_hash row = TokenStore.token_hash sha256_hex token →
    parse_strings (OperatorApiTokenRow.capabilities_json row) = Some (OperatorCapability.as_str <$> parsed) →
    backed s token (OperatorIdentity.mk (OperatorApiTokenRow.token_id row) (OperatorApiTokenRow.label row)
                      (TokenCapabilities.Scoped (list_to_set parsed))).

Lemma find_values {K V} `{Countable K} (f : V → bool) (m : gmap K V) v :
  List.find f (values m) = Some v → f v = true ∧ ∃ k, m !! k = Some v.
Proof. intros [Hin%list_elem_of_In Hf]%List.find_some. split; [done|]. by apply elem_of_values. Qed.

Lemma auth_lookup_ok {A} (m : AppOp A) s a s' :
  reads m → Auth.auth_lookup m s = (Ok a, s') → m (Server.db s) = (Ok a, Server.db s) ∧ s' = s.
Proof.
  intros Hm. unfold Auth.auth_lookup, Auth.on_db, op_bind. specialize (Hm (Server.db s)).
  destruct (m (Server.db s)) as [[x|e] d] eqn:Heq; simpl in *; subst d; rewrite set_db_same; [|done].
  by intros [= <- <-].
Qed.

Lemma present_ok token s i s' : present (Some token) s = (Ok i, s') → s' = s ∧ backed s token i.
Proof.
  unfold Auth.authenticate_presented_token, Auth.get_server, op_get. unfold op_bind at 1.
  case_bool_decide as Hop; [intros [= <- <-]; split; [done|by constructor]|].
  intros ([] & s1 & Hpool & Hu)%op_bind_ok. unfold Auth.persistence_or_busy in Hpool.
  destruct (Server.pool_exhausted s); simplify_eq.
  apply op_bind_ok in Hu as (user & s2 & Hu & Hr).
  unfold UserStore.find_active_by_token in Hu. rewrite auth_lookup_read in Hu. injection Hu as <- <-.
  destruct (List.find _ _) as [row|] eqn:Hf; simpl in Hr.
  - injection Hr as <- <-. split; [done|].
    apply find_values in Hf as [[Hl Ht%string_eqb_true]%andb_true_iff [k Hk]].
    by eapply backed_user.
  - apply op_bind_ok in Hr as (api & s3 & Ha & Hr).
    apply auth_lookup_ok in Ha as [Ha ->]; [|done].
    unfold TokenStore.find_active_by_token_hash in Ha.
    destruct (List.find (fun row => TokenStore.live _ row && _) _) as [row|] eqn:Hft; simpl in Ha;
      [|injection Ha as <-; done].
    unfold TokenStore.token_from_row in Ha. destruct (parse_strings _) as [caps|] eqn:Hp; simpl in Ha; [|done].
    injection Ha as <-. unfold op_lift, OperatorIdentity.scoped in Hr. simpl in Hr.
    destruct (OperatorIdentity.collect ∅ caps) as [set|] eqn:Hc; simpl in Hr; [|done].
    injection Hr as <- <-. split; [done|]. apply collect_ok in Hc as (parsed & -> & ->).
    rewrite union_empty_r_L. apply find_values in Hft as [[Hl Ht%string_eqb_true]%andb_true_iff [k Hk]].
    by eapply backed_machine.
Qed.

Lemma session_token_ok h now_ms s tok s' :
  Auth.bearer h = None → session_token h now_ms s = (Ok tok, s') →
  Server.db s' = Server.db s ∧ Server.client_id s' = Server.client_id s ∧
  Server.operator_token s' = Server.operator_token s ∧
  match tok with
  | Some token => presents h now_ms s token
  | None => cookie_value h OPERATOR_SESSION_COOKIE = None
  end.
Proof.
  intros Hb. unfold Auth.session_token_from_headers.
  destruct (cookie_value h OPERATOR_SESSION_COOKIE) as [v|] eqn:Hv; [|by intros [= <- <-]].
  intros (t & s1 & Hs & Hr)%op_bind_ok. unfold Auth.signed_session_token in Hs.
  destruct (parse_signed_session_cookie_value v) as [signed|] eqn:Hp.
  - unfold Auth.get_server, op_get in Hs. unfold op_bind at 1 in Hs.
    case_bool_decide as Hrev; [done|]. destruct (N.ltb_spec OPERATOR_SESSION_ABSOLUTE_TTL_MS
      (saturating_sub now_ms (issued_at_ms signed))) as [|Hage]; [done|].
    destruct (option_any _ (Server.operator_token s)) eqn:Hop.
    + destruct (Server.operator_token s) as [o|] eqn:Ho; [|done]. injection Hs as <- <-.
      injection Hr as <- <-. split_and!; try done. by eapply presents_cookie.
    + apply op_bind_ok in Hs as ([] & s2 & Hpool & Hs). unfold Auth.persistence_or_busy in Hpool.
      destruct (Server.pool_exhausted s); simplify_eq.
      apply op_bind_ok in Hs as (t' & s3 & Hl & Hs).
      unfold UserStore.find_active_token_by_session_proof in Hl. rewrite auth_lookup_read in Hl. injection Hl as <- <-.
      destruct (List.find _ _) as [token|] eqn:Hf; simplify_eq. injection Hs as <- <-. injection Hr as <- <-.
      split_and!; try done. apply List.find_some in Hf as [_ Hf]. by eapply presents_cookie.
  - injection Hs as <- <-. unfold Auth.in_memory_session in Hr.
    destruct (Server.operator_sessions s !! v) as [session|] eqn:Hsess; [|done].
    destruct (N.ltb_spec OPERATOR_SESSION_IDLE_TTL_MS
      (saturating_sub now_ms (OperatorSession.last_seen_at_ms session))); [done|].
    destruct (N.ltb_spec OPERATOR_SESSION_ABSOLUTE_TTL_MS
      (saturating_sub now_ms (OperatorSession.issued_at_ms session))); [done|].
    injection Hr as <- <-. split_and!; try done. by eapply presents_session.
Qed.

Lemma resolved_backed h now_ms s i s' :
  resolve h now_ms s = (Ok i, s') →
  Server.db s' = Server.db s ∧
  ((∃ token, presents h now_ms s token ∧ backed s token i) ∨
   (Server.operator_token s = None ∧ Auth.bearer h = None ∧
    cookie_value h OPERATOR_SESSION_COOKIE = None ∧ i = OperatorIdentity.shared)).
Proof.
  unfold Auth.resolve_operator. destruct (Auth.bearer h) as [token|] eqn:Hb.
  - intros [-> Hi]%present_ok. split; [done|]. left. exists token. split; [by constructor|done].
  - intros (tok & s1 & Hs & Hp)%op_bind_ok.
    destruct (session_token_ok h now_ms s tok s1 Hb Hs) as (Hdb & Hcl & Hop & Htok).
    destruct tok as [token|].
    + apply present_ok in Hp as [-> Hi]. split; [done|]. left. exists token. split; [done|].
      destruct Hi as [Hi|k row Hk Hl Ht|k row parsed Hk Hl Hh Hc].
      * constructor. by rewrite <- Hop.
      * rewrite Hdb in Hk. rewrite Hcl in Hl. by eapply backed_user.
      * rewrite Hdb in Hk. rewrite Hcl in Hl. by eapply backed_machine.
    + unfold Auth.authenticate_presented_token, Auth.get_server, op_get, op_bind, op_lift in Hp.
      case_bool_decide as Ho; [|done]. injection Hp as <- <-. split; [done|]. right. by rewrite <- Hop.
Qed.

(** C10: no identity without a credential.  Whenever a request is identified, it
    presented a token (as bearer, or by a session that is neither logged out nor
    expired and proves the token) that is live now and stands for exactly that
    identity and capabilities; or it presented nothing at all and no shared token
    is configured.  Identifying a request changes no table. *)
Theorem identity_backed_by_credential h now_ms s i s' :
  resolve h now_ms s = (Ok i, s') →
  Server.db s' = Server.db s ∧
  ((∃ token, presents h now_ms s token ∧ backed s token i) ∨
   (Server.operator_token s = None ∧ Auth.bearer h = None ∧
    cookie_value h OPERATOR_SESSION_COOKIE = None ∧ i = OperatorIdentity.shared)).
Proof. apply resolved_backed. Qed.
End auth.

(** ** Inputs that meet the hypotheses *)

Definition demo_digest : string := "0123456789abcdef0123456789abcdef0123456789abcdef0123456789abcdef".
Definition demo_sha (_ : string) : string := demo_digest.
Definition demo_parse (_ : string) : option (list string) := Some [].

(** A server with a shared token and no users. *)
Definition demo_server : Server.t :=
  Server.mk (spine_new (mk_tables ∅ empty_slices)) "acme" (Some "secret"%string) ∅ ∅ false.

Lemma demo_sha_hex : digests_hex demo_sha.
Proof. by intros s. Qed.

Lemma demo_fingerprint : fingerprint_unique demo_sha demo_server "secret".
Proof.
  intros token'. unfold unscoped_credential, personal_tokens. rewrite orb_true_iff.
  intros [[= <-]%bool_decide_eq_true|Hin%bool_decide_eq_true]; [done|].
  by apply not_elem_of_nil in Hin.
Qed.

Lemma session_cookie_roundtrip_witness :
  digests_hex demo_sha ∧
  parse_signed_session_cookie_value (Auth.signed_session_cookie_value demo_sha "acme" "secret" 1000)
    = Some {| issued_at_ms := 1000; token_fingerprint := demo_digest; proof := demo_digest |}.
Proof. split; [exact demo_sha_hex|]. apply session_cookie_roundtrip; [exact demo_sha_hex|unfold u64_max; lia]. Defined.

Lemma session_stands_for_token_witness :
  Auth.resolve_operator "conversion" demo_sha demo_parse
    (cookie_header (Auth.signed_session_cookie_value demo_sha "acme" "secret" 1000)) 5000 demo_server
    = (Ok OperatorIdentity.shared, demo_server).
Proof.
  eapply eq_trans; [apply (session_stands_for_token "conversion" demo_sha demo_parse demo_server "secret" 1000 5000)|].
  - exact demo_sha_hex.
  - unfold u64_max. lia.
  - exact demo_fingerprint.
  - reflexivity.
  - vm_compute. reflexivity.
Defined.

Lemma identity_backed_by_credential_witness :
  let h := {| authorization := Some "Bearer secret"%string; cookie := None |} in
  ∃ token, presents demo_sha h 5000 demo_server token ∧
    backed demo_sha demo_parse demo_server token OperatorIdentity.shared.
Proof.
  intros h.
  destruct (identity_backed_by_credential "conversion" demo_sha demo_parse h 5000 demo_server
    OperatorIdentity.shared demo_server) as [_ [H|[H _]]]; [vm_compute; reflexivity|exact H|discriminate H].
Defined.
