(* ===== verification/OAuthState.v ===== *)
(** * Pending OAuth states of connectors ([bos-app/src/slices/oauth_state.rs])

    A connect flow registers the hash of a random state under the user who
    started it; the callback consumes it.  Both are mutations of the receipt
    spine.  The table's CHECK constraints are those of
    [persistence/migrations/0105_connector_oauth_states.sql].

    Whatever requests a server handles, the state of a connect flow is consumed at
    most once, by the flow it was registered for and before it expires; a state
    registered a second time does not come back to life. *)

From S2P Require Import Prelude RustStd StoreCore StoreCoreProps AppOutbox AppOutboxProps RustStr Schema SliceCore.
Import Spine.

Module OAuthState.
Section oauth.
Context (constraint_failed : string) (sha256_hex : string → string)
  (json_text : list (string * JsonValue) → string).

(* src: crates/bos-app/src/slices/oauth_state.rs:9-9 ENTITY_KIND *)
Definition ENTITY_KIND : string := "connector_oauth_state".

(* src: crates/bos-app/src/slices/oauth_state.rs:11-16 PendingOAuthState *)
Record PendingOAuthState := {
  user_id : string;
  issued_at_ms : N;
  expires_at_ms : N;
}.

(* src: crates/bos-app/src/slices/oauth_state.rs:18-20 oauth_state_hash *)
Definition oauth_state_hash (state : string) : string := sha256_hex state.

Abbreviation states db := (connector_oauth_states (tables db)).

(** [u64::checked_add]. *)
Definition checked_add_u64 (a b : N) : option N :=
  if (a + b <=? u64_max)%N then Some (a + b)%N else None.

(* src: crates/bos-app/src/slices/oauth_state.rs:31-34 register_oauth_state (expiry) *)
Definition state_expiry (issued_at_ms ttl_ms : N) : option N :=
  e ← checked_add_u64 issued_at_ms ttl_ms; if (issued_at_ms <? e)%N then Some e else None.

(** Expired states of the client go; then the row is inserted, unless a CHECK or
    the primary key refuses it. *)
(* src: crates/bos-app/src/slices/oauth_state.rs:66-85 register_oauth_state (row write) *)
Definition register_write (client_id connector state_hash user_id : string) (issued_at_ms expires_at_ms : N)
    : AppOp unit :=
  let issued := u64_as_i64 issued_at_ms in
  let expires := u64_as_i64 expires_at_ms in
  update_tables (fun t => set_connector_oauth_states t
    (filter (fun kv => ¬ (kv.1.1.1 = client_id ∧ (OAuthStateRow.expires_at_ms kv.2 ≤ issued)%Z))
       (connector_oauth_states t))) ;;?
  fun db =>
    if is_empty connector || is_empty state_hash || is_empty user_id || (issued <? 0)%Z || (expires <=? issued)%Z
       || bool_decide (is_Some (states db !! (client_id, connector, state_hash)))
    then (Err (StoreError.Sqlite constraint_failed), db)
    else update_tables (fun t => set_connector_oauth_states t
      (<[(client_id, connector, state_hash) := OAuthStateRow.mk user_id issued expires]>
         (connector_oauth_states t))) db.

Definition entity_id (connector state_hash : string) : string := connector +:+ ":" +:+ state_hash.
Definition issue_key (connector state_hash : string) : string :=
  "oauth_state_issue:" +:+ entity_id connector state_hash.

Definition state_request (client_id entity_id change_kind actor_id idempotency_key : string)
    (after_json : option string) (now_ms : N) : MutationRequest.t := {|
  MutationRequest.client_id := client_id;
  MutationRequest.entity_kind := ENTITY_KIND;
  MutationRequest.entity_id := entity_id;
  MutationRequest.change_kind := change_kind;
  MutationRequest.actor_id := actor_id;
  MutationRequest.actor_kind := Operator;
  MutationRequest.expected_revision := None;
  MutationRequest.idempotency_key := idempotency_key;
  MutationRequest.correlation_id := None;
  MutationRequest.causation_id := None;
  MutationRequest.before_json := None;
  MutationRequest.after_json := after_json;
  MutationRequest.now_ms := now_ms;
|}.

(* src: crates/bos-app/src/slices/oauth_state.rs:22-87 register_oauth_state *)
Definition register_oauth_state (client_id connector state user_id : string) (issued_at_ms ttl_ms : N)
    : AppOp MutationOutcome.t :=
  let? expires_at_ms := op_lift (ok_or (state_expiry issued_at_ms ttl_ms)
                                   (StoreError.Domain "invalid OAuth state expiry")) in
  let state_hash := oauth_state_hash state in
  let after_json := json_text
    [("connector"%string, JString connector); ("user_id"%string, JString user_id);
     ("issued_at_ms"%string, JNumber issued_at_ms); ("expires_at_ms"%string, JNumber expires_at_ms)] in
  mutate constraint_failed
    (state_request client_id (entity_id connector state_hash) "issue" user_id
       (issue_key connector state_hash) (Some after_json) issued_at_ms)
    (register_write client_id connector state_hash user_id issued_at_ms expires_at_ms).

(** The row with the issue time read before is deleted, or the state is invalid. *)
(* src: crates/bos-app/src/slices/oauth_state.rs:141-156 consume_oauth_state (row write) *)
Definition consume_write (client_id connector state_hash : string) (expected_issued_at_ms : N) : AppOp unit :=
  fun db =>
    match states db !! (client_id, connector, state_hash) with
    | Some row =>
      if (OAuthStateRow.issued_at_ms row =? u64_as_i64 expected_issued_at_ms)%Z
      then update_tables (fun t => set_connector_oauth_states t
             (delete (client_id, connector, state_hash) (connector_oauth_states t))) db
      else (Err (StoreError.Domain "oauth_state_invalid"), db)
    | None => (Err (StoreError.Domain "oauth_state_invalid"), db)
    end.

Definition pending_from_row (row : OAuthStateRow.t) : PendingOAuthState := {|
  user_id := OAuthStateRow.user_id row;
  issued_at_ms := i64_as_u64 (OAuthStateRow.issued_at_ms row);
  expires_at_ms := i64_as_u64 (OAuthStateRow.expires_at_ms row);
|}.

Definition consume_kind (expired : bool) : string := if expired then "expire" else "consume".
Definition consume_key (expired : bool) (connector state_hash attempt_id : string) : string :=
  "oauth_state_" +:+ consume_kind expired +:+ ":" +:+ entity_id connector state_hash +:+ ":" +:+ attempt_id.

(* src: crates/bos-app/src/slices/oauth_state.rs:89-164 consume_oauth_state *)
Definition consume_oauth_state (client_id connector state attempt_id : string) (now_ms : N)
    : AppOp (option string) :=
  fun db =>
    let state_hash := oauth_state_hash state in
    match pending_from_row <$> states db !! (client_id, connector, state_hash) with
    | None => (Ok None, db)
    | Some pending =>
      let expired := (expires_at_ms pending <=? now_ms)%N in
      match mutate constraint_failed
              (state_request client_id (entity_id connector state_hash) (consume_kind expired) (user_id pending)
                 (consume_key expired connector state_hash attempt_id) None now_ms)
              (consume_write client_id connector state_hash (issued_at_ms pending)) db with
      | (Ok _, db') => (Ok (if expired then None else Some (user_id pending)), db')
      | (Err (StoreError.Domain code), db') =>
        if string_eqb code "oauth_state_invalid" then (Ok None, db') else (Err (StoreError.Domain code), db')
      | (Err err, db') => (Err err, db')
      end
    end.
End oauth.
End OAuthState.

(** * A connect flow completes at most once *)

Import Spine OAuthState.

Section oauth.
Context (constraint_failed : string) (sha256_hex : string → string)
  (json_text : list (string * JsonValue) → string).

Abbreviation states db := (connector_oauth_states (tables db)).
Abbreviation hash := (oauth_state_hash sha256_hex).
Abbreviation register := (register_oauth_state constraint_failed sha256_hex json_text).
Abbreviation consume := (consume_oauth_state constraint_failed sha256_hex).

(** ** Keys *)

Lemma colon_split a b s t :
  lacks ":" a = true → lacks ":" b = true → a +:+ ":" +:+ s = b +:+ ":" +:+ t → a = b ∧ s = t.
Proof.
  intros Ha Hb Heq. pose proof (split_once_app ":" a s Ha) as H1. pose proof (split_once_app ":" b t Hb) as H2.
  change (String ":" s) with (":" +:+ s) in H1. change (String ":" t) with (":" +:+ t) in H2.
  rewrite Heq, H2 in H1. by injection H1.
Qed.

Lemma consume_key_inj e e' conn conn' h h' a a' :
  lacks ":" conn = true → lacks ":" conn' = true → lacks ":" h = true → lacks ":" h' = true →
  consume_key e conn h a = consume_key e' conn' h' a' → conn = conn' ∧ h = h'.
Proof.
  intros Hc Hc' Hh Hh'. unfold consume_key, entity_id. intros Heq.
  change ("oauth_state_" +:+ (consume_kind e +:+ ":" +:+ ((conn +:+ ":" +:+ h) +:+ ":" +:+ a))
    = "oauth_state_" +:+ (consume_kind e' +:+ ":" +:+ ((conn' +:+ ":" +:+ h') +:+ ":" +:+ a'))) in Heq.
  apply string_app_inj_r, colon_split in Heq as [_ Heq]; [|by destruct e|by destruct e'].
  rewrite !string_app_assoc in Heq. change (conn +:+ (":" +:+ h) +:+ ":" +:+ a) with (conn +:+ ":" +:+ h +:+ ":" +:+ a) in Heq.
  change ((":" +:+ h') +:+ ":" +:+ a') with (":" +:+ h' +:+ ":" +:+ a') in Heq.
  apply colon_split in Heq as [-> Heq]; [|done|done]. by apply colon_split in Heq as [-> _].
Qed.

Lemma issue_not_consume e conn conn' h h' a : issue_key conn h ≠ consume_key e conn' h' a.
Proof. by destruct e. Qed.

(** ** Writes *)

Lemma slice_write_register c conn h user issued expires :
  slice_write (register_write constraint_failed c conn h user issued expires).
Proof.
  apply slice_write_seq; [apply slice_write_update|]. intros db db'. case_match; [done|]. by intros [= <-].
Qed.

Lemma slice_write_consume c conn h issued : slice_write (consume_write c conn h issued).
Proof. intros db db'. unfold consume_write. repeat case_match; try done. by intros [= <-]. Qed.

Lemma register_write_ok c conn h user issued expires (db db' : AppDb) :
  register_write constraint_failed c conn h user issued expires db = (Ok tt, db') →
  states db' = <[(c, conn, h) := OAuthStateRow.mk user (u64_as_i64 issued) (u64_as_i64 expires)]>
    (filter (fun kv => ¬ (kv.1.1.1 = c ∧ (OAuthStateRow.expires_at_ms kv.2 ≤ u64_as_i64 issued)%Z)) (states db)).
Proof.
  intros ([] & db1 & [= <-] & Hw)%op_bind_ok. revert Hw. case_match; [done|]. by intros [= <-].
Qed.

Lemma consume_write_ok c conn h issued (db db' : AppDb) :
  consume_write c conn h issued db = (Ok tt, db') → states db' = delete (c, conn, h) (states db).
Proof. unfold consume_write. repeat case_match; try done. by intros [= <-]. Qed.

(** ** Requests *)

Inductive Call :=
| CRegister (client_id connector state user_id : string) (issued_at_ms ttl_ms : N)
| CConsume (client_id connector state attempt_id : string) (now_ms : N)
| CMutate (request : MutationRequest.t) (write : SliceWrite).

Definition serve (db : AppDb) (call : Call) : AppDb :=
  match call with
  | CRegister c conn st user issued ttl => (register c conn st user issued ttl db).2
  | CConsume c conn st attempt now => (consume c conn st attempt now db).2
  | CMutate request write => (mutate constraint_failed request write db).2
  end.

(** Connectors are named without a colon; other mutations keep to their own keys
    and leave the pending states alone. *)
Definition allowed (call : Call) : Prop :=
  match call with
  | CRegister _ conn _ _ _ _ | CConsume _ conn _ _ _ => lacks ":" conn = true
  | CMutate request write =>
    write_spares write ∧ strip_prefix "oauth_state_" (MutationRequest.idempotency_key request) = None ∧
    ∀ db db', write db = (Ok tt, db') → states db' = states db
  end.

Definition serve_all : AppDb → list Call → AppDb := foldl serve.

(** A digest has no colon. *)
Definition digests_plain : Prop := ∀ s, lacks ":" (sha256_hex s) = true.

(** What the callback makes of the mutation. *)
Lemma callback_state (expired : bool) user (m : Result StoreError.t MutationOutcome.t * AppDb) :
  (match m with
   | (Ok _, db') => (Ok (if expired then None else Some user), db')
   | (Err (StoreError.Domain code), db') =>
     if string_eqb code "oauth_state_invalid" then (Ok None, db') else (Err (StoreError.Domain code), db')
   | (Err err, db') => (Err err, db')
   end : Result StoreError.t (option string) * AppDb).2 = m.2.
Proof. destruct m as [[o|[code|]] db']; try done. simpl. by case_match. Qed.

(** Every request is a mutation or leaves the database as it is. *)
Lemma serve_mutates call db :
  allowed call → serve db call = db ∨
  ∃ req w, write_spares w ∧ serve db call = (mutate constraint_failed req w db).2.
Proof.
  destruct call as [c conn st user issued ttl|c conn st attempt now|req w]; simpl; intros Ha.
  - unfold register_oauth_state, op_bind, op_lift, ok_or. destruct (state_expiry issued ttl); cbv zeta; [right|by left].
    do 2 eexists. split; [|reflexivity]. apply slice_write_spares_receipts, slice_write_register.
  - unfold consume_oauth_state. destruct (states db !! _); simpl; [right|by left].
    rewrite callback_state. do 2 eexists. split; [|reflexivity]. apply slice_write_spares_receipts, slice_write_consume.
  - right. exists req, w. by destruct Ha.
Qed.

Lemma serve_all_grows calls db :
  Forall allowed calls → spine_wf db → receipts_grow db (serve_all db calls).
Proof.
  intros Hc. revert db. induction Hc as [|call calls Ha Hcs IH]; intros db Hwf; [apply receipts_grow_refl|].
  simpl. destruct (serve_mutates call db Ha) as [->|(req & w & Hsp & ->)]; [by apply IH|].
  destruct (mutate_grows constraint_failed req w db Hwf Hsp) as [Hwf' Hg].
  eapply receipts_grow_trans; [exact Hg|]. by apply IH.
Qed.

Section flow.
Context (client conn st : string) (Hconn : lacks ":" conn = true) (Hplain : digests_plain).

Definition place : string * string * string := (client, conn, hash st).
Definition issued_once (db : AppDb) : Prop := key_used db client (issue_key conn (hash st)).
Definition consumed (db : AppDb) : Prop := ∃ e a, key_used db client (consume_key e conn (hash st) a).

(** The row of the flow, with the registration it comes from. *)
Definition registered (calls : list Call) (row : OAuthStateRow.t) : Prop :=
  ∃ st' user issued ttl expires, CRegister client conn st' user issued ttl ∈ calls ∧ hash st' = hash st ∧
    state_expiry issued ttl = Some expires ∧
    row = OAuthStateRow.mk user (u64_as_i64 issued) (u64_as_i64 expires).

Record flow_inv (calls : list Call) (db : AppDb) : Prop := {
  flow_wf : spine_wf db;
  flow_row row : states db !! place = Some row → registered calls row ∧ issued_once db ∧ ¬ consumed db;
  flow_consumed : consumed db → issued_once db;
}.

Lemma registered_more calls call row : registered calls row → registered (calls ++ [call]) row.
Proof.
  intros (st' & user & issued & ttl & expires & Hin & H). exists st', user, issued, ttl, expires.
  split; [|done]. apply elem_of_app. by left.
Qed.

(** A step that uses no key of the flow and adds no row to it. *)
Lemma flow_step calls call db db' :
  flow_inv calls db → spine_wf db' → receipts_grow db db' →
  (∀ row, states db' !! place = Some row → states db !! place = Some row) →
  (consumed db' → consumed db) → flow_inv (calls ++ [call]) db'.
Proof.
  intros [Hwf Hrow Hcons] Hwf' Hg Hr Hc. split; [done| |].
  - intros row Hk. destruct (Hrow row (Hr row Hk)) as (Hreg & Hi & Hn). split; [by apply registered_more|].
    split; [by eapply key_used_grow|]. intros H. by apply Hn, Hc.
  - intros H. eapply key_used_grow; [done|]. by apply Hcons, Hc.
Qed.

Lemma place_row_dec c conn' st' : {(c, conn', hash st') = place} + {(c, conn', hash st') ≠ place}.
Proof. apply decide, _. Qed.

Lemma flow_register calls c conn' st' user issued ttl db :
  flow_inv calls db →
  flow_inv (calls ++ [CRegister c conn' st' user issued ttl]) (serve db (CRegister c conn' st' user issued ttl)).
Proof.
  intros Hinv. simpl. unfold register_oauth_state, op_bind, op_lift, ok_or. destruct (state_expiry issued ttl) as [expires|] eqn:Hexp; cbv zeta;
    [|apply flow_step with db; [done|by destruct Hinv|apply receipts_grow_refl|done|done]].
  match goal with |- context [mutate _ ?r ?w' db] => set (req := r); set (w := w') end.
  assert (Hsp : write_spares w) by apply slice_write_spares_receipts, slice_write_register.
  destruct Hinv as [Hwf Hrow Hcons]. destruct (mutate_grows constraint_failed req w db Hwf Hsp) as [Hwf' Hg].
  destruct (mutate_step constraint_failed req w db Hwf Hsp) as [Hd Hk|db1 Hfree Hw Hd Hused Hk].
  - apply flow_step with db; [done|done|done| |].
    + unfold tables. by rewrite Hd.
    + intros (e & a & He). exists e, a. by apply Hk.
  - apply register_write_ok in Hw.
    assert (Hc : consumed (mutate constraint_failed req w db).2 → consumed db).
    { intros (e & a & He). exists e, a. destruct (Hk _ _ He) as [?|[_ Heq]]; [done|].
      by destruct (issue_not_consume e conn' conn (hash st') (hash st) a). }
    assert (Hst : states (mutate constraint_failed req w db).2 = states db1) by (unfold tables; by rewrite Hd).
    destruct (place_row_dec c conn' st') as [Heq|Hne].
    + injection Heq as -> -> Hh. split; [done| |].
      * intros row. rewrite Hst, Hw. unfold place. rewrite Hh, lookup_insert_eq. intros [= <-].
        split; [|split].
        -- exists st', user, issued, ttl, expires. split; [apply elem_of_app; right; by left|done].
        -- unfold issued_once. by rewrite <- Hh.
        -- intros Hco. apply Hc, Hcons in Hco. unfold issued_once in Hco. rewrite <- Hh in Hco.
           by destruct (key_used_not_free _ _ _ Hco).
      * intros _. unfold issued_once. by rewrite <- Hh.
    + apply flow_step with db; [done|done|done| |done]. intros row. rewrite Hst, Hw, lookup_insert_ne by done.
      by intros [? _]%map_lookup_filter_Some.
Qed.

Lemma flow_consume calls c conn' st' attempt now db :
  lacks ":" conn' = true → flow_inv calls db →
  flow_inv (calls ++ [CConsume c conn' st' attempt now]) (serve db (CConsume c conn' st' attempt now)).
Proof using Hconn Hplain.
  intros Hcolon Hinv. simpl. unfold consume_oauth_state.
  destruct (states db !! (c, conn', hash st')) as [r|] eqn:Hr; simpl;
    [|apply flow_step with db; [done|by destruct Hinv|apply receipts_grow_refl|done|done]].
  match goal with |- context [mutate _ ?r ?w' db] => set (req := r); set (w := w') end.
  assert (Hsp : write_spares w) by apply slice_write_spares_receipts, slice_write_consume.
  rewrite callback_state. destruct Hinv as [Hwf Hrow Hcons].
  destruct (mutate_grows constraint_failed req w db Hwf Hsp) as [Hwf' Hg].
  destruct (mutate_step constraint_failed req w db Hwf Hsp) as [Hd Hk|db1 Hfree Hw Hd Hused Hk].
  - apply flow_step with db; [done|done|done| |].
    + unfold tables. by rewrite Hd.
    + intros (e & a & He). exists e, a. by apply Hk.
  - apply consume_write_ok in Hw.
    assert (Hst : states (mutate constraint_failed req w db).2 = states db1) by (unfold tables; by rewrite Hd).
    destruct (place_row_dec c conn' st') as [Heq|Hne].
    + split; [done| |].
      * intros row. by rewrite Hst, Hw, Heq, lookup_delete_eq.
      * intros _. eapply key_used_grow; [done|]. rewrite Heq in Hr. by apply (Hrow r).
    + apply flow_step with db; [done|done|done| |].
      * intros row. rewrite Hst, Hw. by intros [_ ?]%lookup_delete_Some.
      * intros (e & a & He). exists e, a. destruct (Hk _ _ He) as [?|[Hcl Heq]]; [done|]. destruct Hne.
        apply consume_key_inj in Heq as [Hco Hh]; [|done|done|apply Hplain|apply Hplain].
        simpl in Hcl. unfold place. congruence.
Qed.

Lemma flow_mutate calls request write db :
  allowed (CMutate request write) → flow_inv calls db →
  flow_inv (calls ++ [CMutate request write]) (serve db (CMutate request write)).
Proof.
  intros (Hsp & Hkey & Hst) Hinv. simpl. destruct Hinv as [Hwf Hrow Hcons].
  destruct (mutate_grows constraint_failed request write db Hwf Hsp) as [Hwf' Hg].
  destruct (mutate_step constraint_failed request write db Hwf Hsp) as [Hd Hk|db1 Hfree Hw Hd Hused Hk].
  - apply flow_step with db; [done|done|done| |].
    + unfold tables. by rewrite Hd.
    + intros (e & a & He). exists e, a. by apply Hk.
  - apply flow_step with db; [done|done|done| |].
    + unfold tables. rewrite Hd. fold (tables db1). by rewrite (Hst db db1 Hw).
    + intros (e & a & He). exists e, a. destruct (Hk _ _ He) as [?|[_ Heq]]; [done|].
      rewrite <- Heq in Hkey. unfold consume_key in Hkey. by rewrite strip_prefix_app in Hkey.
Qed.

Lemma flow_serve_all calls calls' db :
  Forall allowed calls' → flow_inv calls db → flow_inv (calls ++ calls') (serve_all db calls').
Proof using Hconn Hplain.
  intros Hc. revert calls db. induction Hc as [|call calls' Ha Hcs IH]; intros calls db Hinv.
  - by rewrite app_nil_r.
  - rewrite cons_middle, app_assoc. apply IH. destruct call.
    + by apply flow_register.
    + by apply flow_consume.
    + by apply flow_mutate.
Qed.
End flow.

Lemma flow_new client conn st (d : Tables SliceTables) :
  connector_oauth_states (others d) = ∅ → flow_inv client conn st [] (spine_new d).
Proof.
  intros Hd. split; [apply spine_wf_new| |].
  - intros row. unfold tables. simpl. by rewrite Hd, lookup_empty.
  - by intros (e & a & r & Hin%not_elem_of_nil & _).
Qed.

Lemma u64_i64_roundtrip v : (v ≤ u64_max)%N → i64_as_u64 (u64_as_i64 v) = v.
Proof.
  intros Hv. unfold i64_as_u64, u64_as_i64, u64_max in *. case_match eqn:Hle.
  - rewrite Z.mod_small by lia. lia.
  - replace (Z.of_N v - 18446744073709551616)%Z with (Z.of_N v + (-1) * 18446744073709551616)%Z by lia.
    rewrite Z.mod_add, Z.mod_small by lia. lia.
Qed.

Lemma pending_expiry issued ttl expires :
  state_expiry issued ttl = Some expires → i64_as_u64 (u64_as_i64 expires) = expires ∧ expires = (issued + ttl)%N.
Proof.
  unfold state_expiry, checked_add_u64. case_match; [|done]. simpl. case_match; [|done]. intros [= <-].
  split; [|done]. apply u64_i64_roundtrip; lia.
Qed.

(** An answered state had a live row, and its key is used now. *)
Lemma consume_some client conn st attempt now user db db' calls :
  flow_inv client conn st calls db → consume client conn st attempt now db = (Ok (Some user), db') →
  ∃ row, states db !! (client, conn, hash st) = Some row ∧ OAuthStateRow.user_id row = user ∧
    (now < i64_as_u64 (OAuthStateRow.expires_at_ms row))%N ∧ consumed client conn st db'.
Proof.
  intros [Hwf Hrow Hcons]. unfold consume_oauth_state.
  destruct (states db !! (client, conn, hash st)) as [row|] eqn:Hr; simpl; [|done].
  match goal with |- context [mutate _ ?r ?w' db] => set (req := r); set (w := w') end.
  assert (Hsp : write_spares w) by apply slice_write_spares_receipts, slice_write_consume.
  destruct (slice_mutate_effect constraint_failed req w db Hwf Hsp) as [He _].
  set (expired := (_ <=? now)%N) in *.
  assert (Hkey : ∀ db2, request_used db2 req → consumed client conn st db2) by (intros db2 Hu; by exists expired, attempt).
  inversion He as [db2 id rev Hu Hd Heq|db2 id rev _ Hn|db1 db2 id rev _ _ Hw Hd Hu Heq|err db1 db2 _ _ _ _ Heq].
  - apply Hkey in Hu. by destruct (Hrow row Hr) as (_ & _ & []).
  - by destruct Hn.
  - unfold expired. destruct (N.leb_spec (i64_as_u64 (OAuthStateRow.expires_at_ms row)) now); [done|].
    intros [= <- <-]. exists row. auto.
  - destruct err; simpl; try case_match; done.
Qed.

(** C13: a connect flow completes at most once.  When the callback is told the user
    of a state, that state was registered before for that user and connector and
    has not expired; from then on no callback with the state is told anything,
    whatever is registered, consumed or written in between.  (Connector names and
    digests have no colon, and other mutations keep to their own keys.) *)
Theorem oauth_state_consumed_once client conn st (d : Tables SliceTables) calls attempt now user db' calls' attempt' now' :
  digests_plain → connector_oauth_states (others d) = ∅ → lacks ":" conn = true → Forall allowed (calls ++ calls') →
  consume client conn st attempt now (serve_all (spine_new d) calls) = (Ok (Some user), db') →
  (∃ st' issued ttl, CRegister client conn st' user issued ttl ∈ calls ∧ hash st' = hash st ∧ (now < issued + ttl)%N) ∧
  let db := serve_all db' calls' in
  consume client conn st attempt' now' db = (Ok None, db).
Proof.
  intros Hplain Hd Hconn [Hcalls Hcalls']%Forall_app Hcons.
  set (db0 := serve_all (spine_new d) calls) in *.
  assert (Hinv : flow_inv client conn st calls db0).
  { apply (flow_serve_all client conn st Hconn Hplain []); [done|by apply flow_new]. }
  assert (Hinv' : flow_inv client conn st (calls ++ [CConsume client conn st attempt now]) db').
  { pose proof (flow_consume client conn st Hconn Hplain calls client conn st attempt now db0 Hconn Hinv) as H.
    simpl in H. by rewrite Hcons in H. }
  destruct (consume_some client conn st attempt now user db0 db' calls Hinv Hcons) as (row & Hrow & <- & Hnow & Hused).
  split.
  - destruct (flow_row client conn st _ _ Hinv row Hrow) as [(st' & user & issued & ttl & expires & Hin & Hh & He & ->) _].
    destruct (pending_expiry issued ttl expires He) as [Hround ->]. simpl in Hnow. rewrite Hround in Hnow. eauto 10.
  - intros db. pose proof (flow_serve_all client conn st Hconn Hplain _ calls' db' Hcalls' Hinv') as Hend.
    assert (Hco : consumed client conn st db).
    { destruct Hused as (e & a & Hu). exists e, a. eapply key_used_grow; [|exact Hu].
      apply serve_all_grows; [done|by destruct Hinv']. }
    unfold consume_oauth_state. destruct (states db !! (client, conn, hash st)) as [r|] eqn:Hr; [|done].
    by destruct (flow_row client conn st _ _ Hend r Hr) as (_ & _ & []).
Qed.
End oauth.

(** ** Inputs that meet the hypotheses *)

Definition demo_json (_ : list (string * JsonValue)) : string := "{}".
Definition demo_flow : Call := CRegister "acme" "google" "state1" "user_ada" 1000 600.

Definition demo_sha (_ : string) : string := "abc".
Definition demo_callback (attempt : string) (now : N) (db : AppDb) :=
  consume_oauth_state "UNIQUE" demo_sha "acme" "google" "state1" attempt now db.
Definition demo_db : AppDb :=
  serve_all "UNIQUE" demo_sha demo_json (spine_new (mk_tables ∅ empty_slices)) [demo_flow].

Lemma oauth_state_consumed_once_witness :
  let db' := (demo_callback "try1" 1200 demo_db).2 in
  demo_callback "try1" 1200 demo_db = (Ok (Some "user_ada"%string), db') ∧
  (demo_callback "try2" 1300 (serve_all "UNIQUE" demo_sha demo_json db' [demo_flow])).1 = Ok None.
Proof.
  intros db'. assert (H1 : demo_callback "try1" 1200 demo_db = (Ok (Some "user_ada"%string), db')).
  { vm_compute. reflexivity. }
  split; [exact H1|].
  destruct (oauth_state_consumed_once "UNIQUE" demo_sha demo_json "acme" "google" "state1"
    (mk_tables ∅ empty_slices) [demo_flow] "try1" 1200 "user_ada" db' [demo_flow] "try2" 1300) as [_ H].
  - by intros s.
  - reflexivity.
  - reflexivity.
  - repeat constructor.
  - exact H1.
  - exact (f_equal fst H).
Defined.
