(* ===== verification/OperatorProps.v ===== *)
(** * What the operator accounts guarantee

    User ids made from names have one shape, so no personal user can pass for the
    shared operator; a disabled user is locked out at once; secrets do not reach
    receipts.  A flaw of the user routes comes out: a replayed request is answered
    with a token that was never stored. *)

From S2P Require Import Prelude RustStd RustStr StoreCore StoreCoreProps AppOutbox AppOutboxProps Identity Schema.
From S2P Require Import SliceCore Operators Auth AuthProps OperatorRoutes.
Import Spine.

(** ** User ids *)

Lemma split_on_forall p c s :
  all_bytes p s = true → Forall (fun w => all_bytes p w = true ∧ lacks c w = true) (split_on c s).
Proof.
  induction s as [|a s IH]; [by repeat constructor|]. unfold all_bytes in *. simpl.
  intros [Ha Hs]%andb_true_iff. specialize (IH Hs). destruct (Ascii.eqb a c) eqn:Hc; [by repeat constructor|].
  destruct (split_on c s) as [|w ws]; unfold lacks, all_bytes in *; simpl.
  - repeat constructor; simpl; [by rewrite Ha|by rewrite Hc].
  - apply Forall_cons in IH as [[Hw Hl] Hws]. constructor; [|done]. simpl. by rewrite Ha, Hc, Hw, Hl.
Qed.

(** Empty words only: the string is made of separators. *)
Lemma split_on_empty c s :
  filter (fun w => negb (is_empty w)) (split_on c s) = [] ↔ all_bytes (fun a => Ascii.eqb a c) s = true.
Proof.
  induction s as [|a s IH]; [done|]. unfold all_bytes in *. simpl. destruct (Ascii.eqb a c) eqn:Hc; simpl.
  - rewrite filter_cons. simpl. done.
  - destruct (split_on c s) as [|w ws]; rewrite filter_cons; simpl; done.
Qed.

Lemma join_bytes p sep words :
  all_bytes p sep = true → Forall (fun w => all_bytes p w = true) words → all_bytes p (join sep words) = true.
Proof.
  intros Hsep. induction 1 as [|w words Hw Hws IH]; [done|]. simpl. destruct words as [|w' words]; [done|].
  by rewrite !all_bytes_app, Hw, Hsep, IH.
Qed.

Definition slug_byte (a : ascii) : bool :=
  is_digit a || ((97 <=? byte_of a) && (byte_of a <=? 122))%N || Ascii.eqb a "-".

(** The bytes that are not a letter or digit become dashes. *)
Definition dashed (name : string) : string :=
  map_bytes (fun c => if is_ascii_alphanumeric c then c else "-"%char) (to_ascii_lowercase (trim name)).

Lemma all_bytes_map p f s : all_bytes p (map_bytes f s) = all_bytes (fun a => p (f a)) s.
Proof.
  unfold all_bytes, map_bytes. rewrite String.list_ascii_of_string_of_list_ascii.
  induction (String.list_ascii_of_string s) as [|a l IH]; [done|]. rewrite fmap_cons. simpl. by rewrite IH.
Qed.

Lemma all_bytes_ext p q s : (∀ a, p a = q a) → all_bytes p s = all_bytes q s.
Proof. intros H. unfold all_bytes. induction (String.list_ascii_of_string s); simpl; [done|]. by rewrite H, IHl. Qed.

Lemma all_ascii (P : ascii → bool) :
  forallb (fun n => P (ascii_of_nat n)) (seq 0 256) = true → ∀ a, P a = true.
Proof.
  rewrite forallb_forall. intros H a. rewrite <- (ascii_nat_embedding a). apply H.
  apply List.in_seq. pose proof (nat_ascii_bounded a). lia.
Qed.

Lemma dashed_bytes name : all_bytes slug_byte (dashed name) = true.
Proof.
  unfold dashed, to_ascii_lowercase. rewrite all_bytes_map. fold (map_bytes ascii_lower (trim name)).
  rewrite all_bytes_map. unfold all_bytes. rewrite forallb_forall. intros a _. revert a.
  apply all_ascii. vm_compute. reflexivity.
Qed.

(** Nothing but dashes: the trimmed name has no ASCII letter or digit. *)
Lemma dashed_empty name :
  all_bytes (fun a => Ascii.eqb a "-") (dashed name) = all_bytes (fun a => negb (is_ascii_alphanumeric a)) (trim name).
Proof.
  unfold dashed, to_ascii_lowercase. rewrite all_bytes_map. fold (map_bytes ascii_lower (trim name)).
  rewrite all_bytes_map. apply all_bytes_ext. intros a. apply eqb_prop. revert a.
  apply (all_ascii (fun a => Bool.eqb
    (Ascii.eqb (if is_ascii_alphanumeric (ascii_lower a) then ascii_lower a else "-"%char) "-")
    (negb (is_ascii_alphanumeric a)))).
  vm_compute. reflexivity.
Qed.

(** The shape of a user id. *)
Definition user_id_shape (id : string) : Prop :=
  ∃ a slug, id = "user_" +:+ String a slug ∧ (String.length (String a slug) ≤ 48)%nat ∧
    all_bytes slug_byte (String a slug) = true ∧ a ≠ "-"%char.

Lemma user_id_cases name :
  match UserService.user_id_from_display_name name with
  | Ok id => user_id_shape id
  | Err code => code = "operator_user_name_required"%string ∧
      all_bytes (fun a => negb (is_ascii_alphanumeric a)) (trim name) = true
  end.
Proof.
  unfold UserService.user_id_from_display_name. fold (dashed name).
  set (parts := filter (fun part => negb (is_empty part)) (split_on "-" (dashed name))).
  pose proof (split_on_forall slug_byte "-" (dashed name) (dashed_bytes name)) as Hparts.
  assert (Hall : Forall (fun w => all_bytes slug_byte w = true ∧ lacks "-" w = true ∧ is_empty w = false) parts).
  { apply Forall_forall. intros w [Hne%Is_true_true Hin]%list_elem_of_filter.
    rewrite Forall_forall in Hparts. destruct (Hparts w Hin). by apply negb_true_iff in Hne. }
  cbv zeta. destruct parts as [|w parts'] eqn:Hp.
  - split; [done|]. rewrite <- dashed_empty. by apply split_on_empty.
  - assert (Hslug : all_bytes slug_byte (join "-" (w :: parts')) = true).
    { apply join_bytes; [done|]. eapply Forall_impl; [exact Hall|]. by intros ? [? _]. }
    apply Forall_cons in Hall as [(Hw & Hl & Hne) _].
    destruct w as [|a w]; [done|]. assert (Ha : a ≠ "-"%char).
    { intros ->. unfold lacks, all_bytes in Hl. by simpl in Hl. }
    destruct (join "-" (String a w :: parts')) as [|b slug] eqn:Hj; [by destruct parts'|].
    assert (b = a) as ->.
    { destruct parts' as [|w' ps]; [by injection Hj|].
      change (String a (w +:+ "-" +:+ join "-" (w' :: ps)) = String b slug) in Hj. by injection Hj. }
    cbn [is_empty]. rewrite take_bytes_min.
    change (user_id_shape ("user_" +:+ take_bytes 48 (String a slug))). exists a, (take_bytes 47 slug). split; [done|].
    pose proof (length_take_bytes 47 slug). split; [simpl; lia|]. split; [|done].
    change (String a (take_bytes 47 slug)) with (take_bytes 48 (String a slug)). by apply take_bytes_all.
Qed.

(** a display name gives a user id or the error for a missing name, which it
    gives exactly when the trimmed name has no ASCII letter or digit.  A user id is
    [user_] followed by one to forty-eight lower-case letters, digits and dashes,
    the first of them not a dash. *)
Theorem user_id_well_formed name :
  match UserService.user_id_from_display_name name with
  | Ok id => user_id_shape id
  | Err code => code = "operator_user_name_required"%string ∧
      all_bytes (fun a => negb (is_ascii_alphanumeric a)) (trim name) = true
  end.
Proof. apply user_id_cases. Qed.

(** ** The server as a state machine *)

Section server.
Context (constraint_failed conversion_failed : string) (sha256_hex : string → string)
  (json_text : list (string * JsonValue) → string)
  (strings_json : list string → string) (parse_strings : string → option (list string)).

Abbreviation resolve := (Auth.resolve_operator conversion_failed sha256_hex parse_strings).
Abbreviation present := (Auth.authenticate_presented_token conversion_failed sha256_hex parse_strings).

(** The requests that bear on operators, and any other slice's mutation. *)
Inductive Call :=
| CLogin (token : string) (now_ms : N)
| CLogout (headers : Headers)
| CUserCreate (headers : Headers) (display_name idempotency_key : string) (actor_id : option string)
    (random : option (list N)) (now_ms now_ms' : N)
| CUserAction (headers : Headers) (user_id : string) (action : OperatorUserActionKind)
    (expected_revision : option N) (idempotency_key : string) (actor_id : option string) (now_ms now_ms' : N)
| CRotateUserToken (headers : Headers) (user_id idempotency_key : string) (actor_id : option string)
    (random : option (list N)) (now_ms now_ms' : N)
| CSetCalendar (headers : Headers) (user_id : string) (calendar_id : option string)
    (expected_revision : option N) (idempotency_key : string) (actor_id : option string) (now_ms now_ms' : N)
| CTokenCreate (headers : Headers) (label : string) (capabilities : list string) (idempotency_key : string)
    (actor_id : option string) (random_id random : option (list N)) (now_ms now_ms' : N)
| CTokenAction (headers : Headers) (token_id : string) (action : OperatorApiTokenActionKind)
    (expected_revision : option N) (idempotency_key : string) (actor_id : option string) (now_ms now_ms' : N)
| CRotateApiToken (headers : Headers) (token_id idempotency_key : string) (actor_id : option string)
    (random : option (list N)) (now_ms now_ms' : N)
| CRequest (headers : Headers) (now_ms : N)
| CMutate (request : MutationRequest.t) (write : SliceWrite).

Definition handle (c : Call) : HttpOp Body :=
  match c with
  | CLogin token now => OperatorRoutes.login_session conversion_failed sha256_hex parse_strings token now
  | CLogout h => OperatorRoutes.logout_session h
  | CUserCreate h name key actor random now now' =>
    OperatorRoutes.user_create constraint_failed conversion_failed sha256_hex json_text parse_strings
      h name key actor random now now'
  | CUserAction h user action expected key actor now now' =>
    OperatorRoutes.user_action constraint_failed conversion_failed sha256_hex json_text parse_strings
      h user action expected key actor now now'
  | CRotateUserToken h user key actor random now now' =>
    OperatorRoutes.rotate_user_token constraint_failed conversion_failed sha256_hex parse_strings
      h user key actor random now now'
  | CSetCalendar h user calendar expected key actor now now' =>
    OperatorRoutes.set_default_calendar constraint_failed conversion_failed sha256_hex json_text parse_strings
      h user calendar expected key actor now now'
  | CTokenCreate h label caps key actor random_id random now now' =>
    OperatorRoutes.token_create constraint_failed conversion_failed sha256_hex json_text strings_json parse_strings
      h label caps key actor random_id random now now'
  | CTokenAction h token action expected key actor now now' =>
    OperatorRoutes.token_action constraint_failed conversion_failed sha256_hex json_text parse_strings
      h token action expected key actor now now'
  | CRotateApiToken h token key actor random now now' =>
    OperatorRoutes.rotate_api_token constraint_failed conversion_failed sha256_hex parse_strings
      h token key actor random now now'
  | CRequest h now => OperatorRoutes.whoami conversion_failed sha256_hex parse_strings h now
  | CMutate request write =>
    op_map mutation_response (OperatorRoutes.store_op (mutate constraint_failed request write))
  end.

(** Another slice's write leaves the tables of operators alone. *)
Definition spares_operators (write : SliceWrite) : Prop :=
  enqueues_only write ∧
  ∀ db db', write db = (Ok tt, db') → operator_users (tables db') = operator_users (tables db).

Definition allowed (c : Call) : Prop :=
  match c with CMutate _ write => spares_operators write | _ => True end.

Definition serve (s : Server.t) (c : Call) : Server.t := (handle c s).2.
Definition serve_all : Server.t → list Call → Server.t := foldl serve.

(** A fresh server: no users, sessions or receipts. *)
Definition server_new (client_id : string) (operator_token : option string) (jobs_and_tables : Tables SliceTables)
    : Server.t :=
  Server.mk (spine_new jobs_and_tables) client_id operator_token ∅ ∅ false.

(** ** Invariants of the users' table *)

Abbreviation Users := (gmap (string * string) OperatorUserRow.t).

(** A property of the users' table that holds along with the spine's invariant. *)
Definition db_keeps (P : Users → Prop) : AppDb → Prop := tables_keep (fun t => P (operator_users t)).
Definition keeps (client : string) (P : Users → Prop) (s : Server.t) : Prop :=
  Server.client_id s = client ∧ db_keeps P (Server.db s).

Section keeps.
Context (client : string) (P : Users → Prop).
Abbreviation kept m := (preserves (keeps client P) m).

Lemma keeps_on_db {A} (m : AppOp A) : preserves (db_keeps P) m → kept (Auth.on_db m).
Proof.
  intros Hm s [Hc Hd]. unfold Auth.on_db. specialize (Hm (Server.db s) Hd). by destruct (m (Server.db s)).
Qed.

Lemma keeps_lookup {A} (m : AppOp A) : reads m → kept (Auth.auth_lookup m).
Proof.
  intros Hm. apply preserves_bind; [|intros r; apply preserves_lift]. by apply keeps_on_db, preserves_reads.
Qed.

Lemma keeps_get : kept Auth.get_server.
Proof. by intros s Hs. Qed.

Lemma keeps_pool : kept Auth.persistence_or_busy.
Proof. intros s Hs. unfold Auth.persistence_or_busy. by case_match. Qed.

Lemma keeps_if {A} (b : bool) (m1 m2 : HttpOp A) : kept m1 → kept m2 → kept (if b then m1 else m2).
Proof. by destruct b. Qed.

Lemma reads_read_tables {A} (f : SliceTables → A) : reads (read_tables f).
Proof. done. Qed.

Hint Resolve keeps_on_db keeps_lookup keeps_get keeps_pool keeps_if reads_read_tables : op_db.

Lemma keeps_present presented : kept (present presented).
Proof.
  unfold Auth.authenticate_presented_token. apply preserves_bind; [apply keeps_get|]. intros s.
  destruct presented as [token|]; [|apply preserves_lift].
  apply keeps_if; [apply preserves_ret|]. apply preserves_bind; [apply keeps_pool|]. intros _.
  apply preserves_bind; [by apply keeps_lookup|]. intros [user|]; [apply preserves_ret|].
  apply preserves_bind; [by apply keeps_lookup|]. intros api. apply preserves_lift.
Qed.

Lemma keeps_session h now_ms : kept (Auth.session_token_from_headers sha256_hex h now_ms).
Proof.
  unfold Auth.session_token_from_headers. destruct (cookie_value _ _) as [v|]; [|apply preserves_ret].
  apply preserves_bind; [|intros [t|]; [apply preserves_ret|]].
  - unfold Auth.signed_session_token. destruct (parse_signed_session_cookie_value v); [|apply preserves_ret].
    apply preserves_bind; [apply keeps_get|]. intros srv. do 2 (apply keeps_if; [apply preserves_lift|]).
    apply keeps_if; [apply preserves_ret|]. apply preserves_bind; [apply keeps_pool|]. intros _.
    apply preserves_bind; [by apply keeps_lookup|]. intros [t|]; [apply preserves_ret|apply preserves_lift].
  - intros s Hs. unfold Auth.in_memory_session. by repeat case_match.
Qed.

Lemma keeps_resolve h now_ms : kept (resolve h now_ms).
Proof.
  unfold Auth.resolve_operator. destruct (Auth.bearer h); [apply keeps_present|].
  apply preserves_bind; [apply keeps_session|]. intros t. apply keeps_present.
Qed.

Lemma keeps_authenticate h now_ms : kept (Auth.authenticate conversion_failed sha256_hex parse_strings h now_ms).
Proof.
  apply preserves_map, preserves_bind; [apply keeps_resolve|]. intros i.
  apply preserves_bind; [apply preserves_lift|]. intros _. apply preserves_ret.
Qed.

Lemma keeps_store_op {A} (m : AppOp A) : preserves (db_keeps P) m → kept (OperatorRoutes.store_op m).
Proof. intros Hm. apply preserves_bind; [by apply keeps_on_db|]. intros r. apply preserves_lift. Qed.

Lemma keeps_all_scope_gate h now_ms :
  kept (OperatorRoutes.all_scope_gate conversion_failed sha256_hex parse_strings h now_ms).
Proof.
  apply preserves_bind; [apply keeps_authenticate|]. intros a. apply preserves_bind; [apply preserves_lift|].
  intros _. apply preserves_ret.
Qed.

Lemma keeps_self_gate h user now_ms :
  kept (OperatorRoutes.self_gate conversion_failed sha256_hex parse_strings h user now_ms).
Proof.
  apply preserves_bind; [apply keeps_authenticate|]. intros a. apply preserves_bind; [apply preserves_lift|].
  intros _. apply preserves_ret.
Qed.

Lemma keeps_require_key {A} key (k : HttpOp A) : kept k → kept (OperatorRoutes.require_key key ;;? k).
Proof.
  intros Hk. apply preserves_bind; [|done]. apply keeps_if; [apply preserves_lift|apply preserves_ret].
Qed.

(** What follows a check knows its result. *)
Lemma keeps_unprocessable {A B} (r : Result string A) (k : A → HttpOp B) :
  (∀ a, r = Ok a → kept (k a)) → kept (let? a := OperatorRoutes.unprocessable r in k a).
Proof. intros Hk. destruct r as [a|e]; [by apply (Hk a)|]. by intros srv Hs. Qed.

(** What follows [get_server] knows the client. *)
Lemma keeps_get_bind {A} (k : Server.t → HttpOp A) :
  (∀ srv, Server.client_id srv = client → kept (k srv)) → kept (let? srv := Auth.get_server in k srv).
Proof. intros Hk srv Hs. apply (Hk srv); [by destruct Hs|done]. Qed.
End keeps.

(** ** The store's operations on users *)

(** What an update of a user's row may do. *)
Definition row_step (may_enable : Prop) (row row' : OperatorUserRow.t) : Prop :=
  OperatorUserRow.key row' = OperatorUserRow.key row ∧
  (OperatorUserRow.archived_at_ms row ≠ None → OperatorUserRow.archived_at_ms row' ≠ None) ∧
  (OperatorUserRow.active row' = true → OperatorUserRow.active row = true ∨ may_enable).

(** No other row of the client has the token. *)
Definition token_free (users : Users) (row : OperatorUserRow.t) : Prop :=
  ∀ k r, users !! k = Some r → OperatorUserRow.client_id r = OperatorUserRow.client_id row →
    OperatorUserRow.token r = OperatorUserRow.token row → OperatorUserRow.user_id r = OperatorUserRow.user_id row.

(** [P] is kept by the row writes of the store, where [may_enable] says which
    users' rows are made active. *)
Record closed (client : string) (may_enable : string → Prop) (P : Users → Prop) : Prop := {
  closed_keys users k row : P users → users !! k = Some row → OperatorUserRow.key row = k;
  closed_insert users row :
    P users → OperatorUserRow.client_id row = client → user_id_shape (OperatorUserRow.user_id row) →
    users !! OperatorUserRow.key row = None → (∀ k r, users !! k = Some r →
      OperatorUserRow.client_id r = client → OperatorUserRow.token r ≠ OperatorUserRow.token row) →
    P (<[OperatorUserRow.key row := row]> users);
  closed_update users user row row' :
    P users → users !! (client, user) = Some row → row_step (may_enable user) row row' →
    OperatorUserRow.token row' = OperatorUserRow.token row ∨ token_free users row' →
    P (<[(client, user) := row']> users);
}.

Lemma slice_write_user_token client user token now :
  slice_write (UserStore.update_user_token constraint_failed client user token now).
Proof. apply slice_write_if. apply slice_write_update. Qed.

Lemma slice_write_insert_user row : slice_write (UserStore.insert_user row).
Proof. apply slice_write_if. apply slice_write_update. Qed.

Section store.
Set Default Proof Using "Type*".
Context (client : string) (may_enable : string → Prop) (P : Users → Prop) (HP : closed client may_enable P).

Lemma keeps_update_write user f (db db' : AppDb) :
  (∀ row, operator_users (tables db) !! (client, user) = Some row → OperatorUserRow.key row = (client, user) →
     row_step (may_enable user) row (f row) ∧
     (OperatorUserRow.token (f row) = OperatorUserRow.token row ∨ token_free (operator_users (tables db)) (f row))) →
  UserStore.update_user client user f db = (Ok tt, db') → P (operator_users (tables db)) →
  P (operator_users (tables db')).
Proof.
  intros Hf [= <-] HPu. simpl. rewrite alter_lookup.
  destruct (_ !! (client, user)) as [row|] eqn:Hk; [|done]. destruct (Hf row eq_refl) as [Hstep Ht]; [by eapply closed_keys|].
  by eapply closed_update.
Qed.

(** Reads that come before a mutation. *)
Lemma keeps_require_user {A} user (k : OperatorUser.t → AppOp A) :
  (∀ u, preserves (db_keeps P) (k u)) → preserves (db_keeps P) (let? u := UserStore.require_user client user in k u).
Proof.
  intros Hk. apply preserves_bind; [|exact Hk]. apply preserves_bind; [by apply preserves_reads|].
  intros u. apply preserves_lift.
Qed.

Lemma keeps_not_archived {A} u (k : AppOp A) :
  preserves (db_keeps P) k → preserves (db_keeps P) (UserStore.require_not_archived u ;;? k).
Proof.
  intros Hk. apply preserves_bind; [|done]. unfold UserStore.require_not_archived.
  case_bool_decide; [apply preserves_lift|apply preserves_ret].
Qed.

Lemma keeps_update ctx user kind id change before after f :
  (∀ row, row_step (may_enable user) row (f row) ∧ OperatorUserRow.token (f row) = OperatorUserRow.token row) →
  preserves (db_keeps P) (mutate constraint_failed (ctx_request ctx kind id change before after)
                            (UserStore.update_user client user f)).
Proof.
  intros Hf. apply mutate_keeps; [by apply slice_write_spares_receipts, slice_write_update|]. intros db db' Hw.
  eapply keeps_update_write; [|done]. intros row _ _. destruct (Hf row). auto.
Qed.

Lemma keeps_set_active ctx user active :
  ctx_client_id ctx = client → (active = true → may_enable user) →
  preserves (db_keeps P) (UserStore.set_active constraint_failed ctx user active).
Proof.
  intros Hc Ha. unfold UserStore.set_active. rewrite Hc. apply keeps_require_user. intros u.
  apply keeps_not_archived, keeps_update. intros row. split; [|done]. split; [done|]. split; [done|].
  simpl. intros ->. auto.
Qed.

Lemma keeps_archive_user ctx user :
  ctx_client_id ctx = client →
  preserves (db_keeps P) (UserStore.archive_user constraint_failed json_text ctx user).
Proof.
  intros Hc. unfold UserStore.archive_user. rewrite Hc. apply keeps_require_user. intros u.
  do 2 (case_match; [apply preserves_lift|]).
  do 2 (apply preserves_bind; [by apply preserves_reads|]; intros []; [apply preserves_lift|]).
  apply keeps_update. intros row. split; [|done]. by split_and!.
Qed.

Lemma keeps_set_calendar ctx user calendar :
  ctx_client_id ctx = client →
  preserves (db_keeps P) (UserStore.set_default_calendar constraint_failed json_text ctx user calendar).
Proof.
  intros Hc. unfold UserStore.set_default_calendar. rewrite Hc. apply keeps_require_user. intros u.
  apply keeps_not_archived, keeps_update. intros row. split; [|done]. split_and!; auto.
Qed.

Lemma keeps_rotate_token ctx user token :
  ctx_client_id ctx = client →
  preserves (db_keeps P) (UserStore.rotate_token constraint_failed ctx user token).
Proof.
  intros Hc. unfold UserStore.rotate_token. rewrite Hc. apply keeps_require_user. intros u.
  apply keeps_not_archived, mutate_keeps.
  { by apply slice_write_spares_receipts, slice_write_user_token. }
  intros db db' Hw HPu. revert Hw HPu. unfold UserStore.update_user_token.
  destruct (bool_decide _ && existsb _ _) eqn:Hguard; [done|]. apply keeps_update_write.
  intros row Hrow [= Hc' Hu]. split; [split_and!; auto|]. right. intros k r Hk Hcl Ht. simpl in *.
  rewrite bool_decide_eq_true_2 in Hguard by (by eexists). simpl in Hguard.
  pose proof (existsb_values_false _ _ _ _ Hguard Hk) as Hr. simpl in Hr.
  rewrite Hcl, Hc', Ht, !string_eqb_refl in Hr. simpl in Hr. apply negb_false_iff, string_eqb_true in Hr. congruence.
Qed.

Lemma keeps_create_user actor user token key :
  user_id_shape (OperatorUser.user_id user) →
  preserves (db_keeps P) (UserStore.create_user constraint_failed json_text client actor user token key).
Proof.
  intros Hshape. apply mutate_keeps. { by apply slice_write_spares_receipts, slice_write_insert_user. }
  intros db db'. unfold UserStore.insert_user. set (row := OperatorUserRow.mk _ _ _ _ _ _ _ _ _).
  destruct (_ || _) eqn:Hguard; [done|]. intros [= <-] HPu. simpl.
  apply orb_false_iff in Hguard as [Hkey Hdup]. apply bool_decide_eq_false in Hkey.
  apply (closed_insert _ _ _ HP); [done|done|done|by apply eq_None_not_Some|].
  intros k r Hk Hcl Ht. pose proof (existsb_values_false _ _ _ _ Hdup Hk) as Hr. simpl in Hr.
  by rewrite Hcl, Ht, !string_eqb_refl in Hr.
Qed.

(** ** The operations on machine tokens leave users alone *)

Lemma keeps_token_mutate request write :
  slice_write write →
  (∀ db db', write db = (Ok tt, db') → operator_users (tables db') = operator_users (tables db)) →
  preserves (db_keeps P) (mutate constraint_failed request write).
Proof.
  intros Hs Hw. apply mutate_keeps; [by apply slice_write_spares_receipts|].
  intros db db' Hdb. by rewrite (Hw db db' Hdb).
Qed.

Lemma keeps_update_token ctx kind id change before after c token f :
  preserves (db_keeps P) (mutate constraint_failed (ctx_request ctx kind id change before after)
                            (TokenStore.update_token c token f)).
Proof. apply keeps_token_mutate; [apply slice_write_update|]. by intros db db' [= <-]. Qed.

Lemma keeps_require_token {A} c token (k : OperatorApiToken.t → AppOp A) :
  (∀ u, preserves (db_keeps P) (k u)) →
  preserves (db_keeps P) (let? u := TokenStore.require_token conversion_failed parse_strings c token in k u).
Proof.
  intros Hk. apply preserves_bind; [|exact Hk]. apply preserves_bind; [by apply preserves_reads|].
  intros u. apply preserves_bind; [apply preserves_lift|]. intros t. apply preserves_bind; [|intros; apply preserves_ret].
  unfold TokenStore.require_live. case_bool_decide; [apply preserves_lift|apply preserves_ret].
Qed.

Lemma keeps_create_token c actor token hash key :
  preserves (db_keeps P) (TokenStore.create_token constraint_failed json_text strings_json c actor token hash key).
Proof.
  apply keeps_token_mutate; [apply slice_write_if, slice_write_update|].
  intros db db'. unfold TokenStore.insert_token. case_match; [done|]. by intros [= <-].
Qed.

Lemma keeps_rotate_api_token ctx token hash :
  preserves (db_keeps P)
    (TokenStore.rotate_token constraint_failed conversion_failed parse_strings ctx token hash).
Proof.
  apply keeps_require_token. intros u. apply keeps_token_mutate; [apply slice_write_if, slice_write_update|].
  intros db db'. unfold TokenStore.update_token_hash. case_match; [done|]. by intros [= <-].
Qed.

(** ** Every request keeps it *)

(** The calls whose effects on users [may_enable] covers. *)
Definition covered (c : Call) : Prop :=
  match c with
  | CMutate _ write => spares_operators write
  | CUserAction _ user UserEnable _ _ _ _ _ => may_enable user
  | _ => True
  end.

Hint Resolve keeps_all_scope_gate keeps_self_gate : op_db.

Lemma keeps_generated o : preserves (keeps client P) (OperatorRoutes.generated o).
Proof. apply preserves_lift. Qed.

Lemma keeps_login token now_ms :
  preserves (keeps client P)
    (OperatorRoutes.login_session conversion_failed sha256_hex parse_strings token now_ms).
Proof.
  unfold OperatorRoutes.login_session. cbv zeta. apply keeps_if; [apply preserves_lift|].
  apply preserves_bind; [|intros; apply preserves_ret]. apply preserves_bind; [apply keeps_present|].
  intros i. apply preserves_bind; [apply preserves_lift|]. intros _.
  apply preserves_bind; [apply keeps_get|]. intros srv. apply preserves_ret.
Qed.

Lemma keeps_logout h : preserves (keeps client P) (OperatorRoutes.logout_session h).
Proof. intros srv Hs. unfold OperatorRoutes.logout_session, Auth.clear_operator_session. simpl. by repeat case_match. Qed.

Lemma keeps_user_create h name key actor random now_ms now_ms' :
  preserves (keeps client P)
    (OperatorRoutes.user_create constraint_failed conversion_failed sha256_hex json_text parse_strings
       h name key actor random now_ms now_ms').
Proof.
  apply preserves_bind; [apply keeps_all_scope_gate|]. intros a. apply keeps_require_key.
  apply keeps_unprocessable. intros id Hid. pose proof (user_id_cases name) as Hshape. rewrite Hid in Hshape.
  apply preserves_bind; [apply keeps_generated|]. intros token. apply keeps_get_bind. intros srv ->.
  apply preserves_bind; [by apply keeps_store_op, keeps_create_user|]. intros o. apply preserves_ret.
Qed.

Lemma keeps_user_action h user action expected key actor now_ms now_ms' :
  (action = UserEnable → may_enable user) →
  preserves (keeps client P)
    (OperatorRoutes.user_action constraint_failed conversion_failed sha256_hex json_text parse_strings
       h user action expected key actor now_ms now_ms').
Proof.
  intros Ha. apply preserves_bind; [apply keeps_all_scope_gate|]. intros a. apply keeps_require_key.
  apply keeps_get_bind. intros srv Hsrv. destruct action.
  - by apply preserves_map, keeps_store_op, keeps_set_active.
  - apply preserves_map, keeps_store_op, keeps_set_active; auto.
  - apply keeps_if; [apply preserves_lift|]. by apply preserves_map, keeps_store_op, keeps_archive_user.
Qed.

Lemma keeps_rotate_user_token h user key actor random now_ms now_ms' :
  preserves (keeps client P)
    (OperatorRoutes.rotate_user_token constraint_failed conversion_failed sha256_hex parse_strings
       h user key actor random now_ms now_ms').
Proof.
  apply preserves_bind; [apply keeps_self_gate|]. intros a. apply keeps_require_key.
  apply preserves_bind; [apply keeps_generated|]. intros token. apply keeps_get_bind. intros srv Hsrv.
  apply preserves_bind; [by apply keeps_store_op, keeps_rotate_token|]. intros o. apply preserves_ret.
Qed.

Lemma keeps_handle c : covered c → preserves (keeps client P) (handle c).
Proof.
  destruct c; simpl; intros Hc.
  - apply keeps_login.
  - apply keeps_logout.
  - apply keeps_user_create.
  - apply keeps_user_action. by intros ->.
  - apply keeps_rotate_user_token.
  - apply preserves_bind; [apply keeps_self_gate|]. intros a. apply keeps_require_key, keeps_get_bind.
    intros srv Hsrv. by apply preserves_map, keeps_store_op, keeps_set_calendar.
  - apply preserves_bind; [apply keeps_all_scope_gate|]. intros a. apply keeps_require_key.
    do 4 (apply preserves_bind; [apply preserves_lift|]; intros ?). apply keeps_get_bind. intros srv Hsrv.
    apply preserves_bind; [by apply keeps_store_op, keeps_create_token|]. intros o. apply preserves_ret.
  - apply preserves_bind; [apply keeps_all_scope_gate|]. intros a. apply keeps_require_key, keeps_get_bind.
    intros srv Hsrv. apply preserves_map, keeps_store_op.
    destruct action; apply keeps_require_token; intros u; apply keeps_update_token.
  - apply preserves_bind; [apply keeps_all_scope_gate|]. intros a. apply keeps_require_key.
    apply preserves_bind; [apply keeps_generated|]. intros secret. apply keeps_get_bind. intros srv Hsrv.
    apply preserves_bind; [by apply keeps_store_op, keeps_rotate_api_token|]. intros o. apply preserves_ret.
  - apply preserves_bind; [apply keeps_resolve|]. intros i. apply preserves_ret.
  - apply preserves_map, keeps_store_op, mutate_keeps; [intros ? db db' Hw; by apply Hc in Hw as [? _]|].
    intros db db' Hw. by rewrite (proj2 Hc db db' Hw).
Qed.

Lemma keeps_serve_all calls s : Forall covered calls → keeps client P s → keeps client P (serve_all s calls).
Proof.
  intros Hc. revert s. induction Hc as [|c calls Hcov Hcs IH]; intros s Hs; [done|]. simpl. apply IH.
  by apply keeps_handle.
Qed.
End store.
(** ** The tables of a running server *)

(** Rows are stored under their keys, and every user id was made from a name. *)
Definition users_wf (users : Users) : Prop :=
  ∀ k row, users !! k = Some row → OperatorUserRow.key row = k ∧ user_id_shape (OperatorUserRow.user_id row).

Lemma users_wf_update users k row row' :
  users_wf users → users !! k = Some row → OperatorUserRow.key row' = OperatorUserRow.key row →
  users_wf (<[k := row']> users).
Proof.
  intros Hwf Hk Hkey k' r. destruct (Hwf _ _ Hk) as [Hkr Hshape]. destruct (decide (k = k')) as [<-|Hne].
  - rewrite lookup_insert_eq. intros [= <-]. rewrite Hkey. split; [done|].
    revert Hkey Hshape. unfold OperatorUserRow.key. by intros [= _ ->].
  - rewrite lookup_insert_ne by done. apply Hwf.
Qed.

Lemma users_wf_closed client may_enable : closed client may_enable users_wf.
Proof.
  split.
  - intros users k row Hwf Hk. by apply (Hwf k row).
  - intros users row Hwf _ Hshape _ _ k r. destruct (decide (OperatorUserRow.key row = k)) as [<-|Hne].
    + rewrite lookup_insert_eq. by intros [= <-].
    + rewrite lookup_insert_ne by done. apply Hwf.
  - intros users user row row' Hwf Hk (Hkey & _ & _) _. by eapply users_wf_update.
Qed.

Lemma server_new_keeps (client : string) (operator_token : option string) (d : Tables SliceTables) (P : Users → Prop) :
  P (operator_users (others d)) → keeps client P (server_new client operator_token d).
Proof. intros HP. split; [done|]. split; [apply spine_wf_new|done]. Qed.

(** The user's row is there and stays dead. *)
Definition user_out (client user : string) (may_enable : string → Prop) (users : Users) : Prop :=
  users_wf users ∧ ∃ row, users !! (client, user) = Some row ∧
    (OperatorUserRow.archived_at_ms row ≠ None ∨ OperatorUserRow.active row = false ∧ ¬ may_enable user).

Lemma user_out_closed client user may_enable : closed client may_enable (user_out client user may_enable).
Proof.
  destruct (users_wf_closed client may_enable) as [Hkeys Hins Hupd]. split.
  - intros users k row [Hwf _]. by apply Hkeys.
  - intros users row [Hwf (r & Hr & Hdead)] Hc Hs Hf Ht. split; [by apply Hins|]. exists r. split; [|done].
    rewrite lookup_insert_ne; [done|]. intros Heq. by rewrite Heq, Hr in Hf.
  - intros users user' row row' [Hwf (r & Hr & Hdead)] Hk Hstep Ht. split; [by eapply Hupd|].
    destruct (decide (user' = user)) as [->|Hne].
    + exists row'. rewrite lookup_insert_eq. split; [done|]. rewrite Hr in Hk. injection Hk as ->.
      destruct Hstep as (_ & Harch & Hact). destruct Hdead as [Hd|[Hd Hm]]; [by left; apply Harch|].
      right. split; [|done]. destruct (OperatorUserRow.active row'); [|done].
      by destruct (Hact eq_refl) as [?|?]; [congruence|].
    + exists r. split; [|done]. rewrite lookup_insert_ne; [done|]. by intros [= ?].
Qed.

(** A user that is out has no live row, and so no token. *)
Lemma user_out_not_live client user may_enable users k row :
  user_out client user may_enable users → users !! k = Some row → UserStore.live client row = true →
  OperatorUserRow.user_id row ≠ user.
Proof.
  intros [Hwf (r & Hr & Hdead)] Hk Hlive Heq. unfold UserStore.live in Hlive.
  apply andb_true_iff in Hlive as [[Hc%string_eqb_true Hact]%andb_true_iff Harch].
  unfold UserStore.not_archived in Harch. apply bool_decide_eq_true in Harch.
  destruct (Hwf k row Hk) as [Hkey _]. unfold OperatorUserRow.key in Hkey. rewrite Hc, Heq in Hkey. subst k.
  rewrite Hr in Hk. injection Hk as ->. destruct Hdead as [Hd|[Hd _]]; congruence.
Qed.

Lemma shape_not_shared id : user_id_shape id → id ≠ SHARED_OPERATOR_ACTOR.
Proof. by intros (a & slug & -> & _) [=]. Qed.

(** ** Who may act as whom *)

(** Who an identity can be. *)
Inductive standing (h : Headers) (now_ms : N) (s : Server.t) : OperatorIdentity.t → Prop :=
| standing_open : Server.operator_token s = None → standing h now_ms s OperatorIdentity.shared
| standing_shared token :
    Server.operator_token s = Some token → presents sha256_hex h now_ms s token →
    standing h now_ms s OperatorIdentity.shared
| standing_user i :
    OperatorIdentity.scope i = OperatorScope.User (OperatorIdentity.actor_id i) → standing h now_ms s i
| standing_machine i :
    OperatorIdentity.require_unscoped i = Err capability_denied → standing h now_ms s i.

Lemma resolve_standing client h now_ms s i s' :
  keeps client users_wf s → resolve h now_ms s = (Ok i, s') → standing h now_ms s i.
Proof.
  intros [_ [_ Hwf]] Hr. apply resolved_backed in Hr as [_ [(token & Hp & Hb)|(Ho & _ & _ & ->)]]; [|by constructor].
  destruct Hb as [Ho|k row Hk Hl Ht|k row parsed Hk Hl Hh Hc].
  - by eapply standing_shared.
  - apply standing_user. unfold OperatorIdentity.scope. simpl. unfold string_eqb.
    rewrite bool_decide_eq_false_2; [done|]. by apply shape_not_shared, (Hwf k row).
  - by apply standing_machine.
Qed.

(** nobody but the shared operator acts for everybody.  On a server that began
    without users, whatever requests it served, an identity whose scope is not its
    own user is either a machine token, which every all-scope route refuses, or the
    shared operator: then the request presents the shared token, or none is
    configured.  No user id can be made equal to the shared operator's. *)
Theorem personal_users_never_shared (client : string) (operator_token : option string) (d : Tables SliceTables) calls h now_ms i s' :
  operator_users (others d) = ∅ → Forall (covered (fun _ => True)) calls →
  let s := serve_all (server_new client operator_token d) calls in
  resolve h now_ms s = (Ok i, s') →
  standing h now_ms s i ∧
  (AuthContext.require_all_scope (AuthContext.auth_context i) = Ok tt → i = OperatorIdentity.shared).
Proof.
  intros Hd Hcalls s Hr.
  assert (Hk : keeps client users_wf s).
  { apply (keeps_serve_all client (fun _ => True)); [apply users_wf_closed|done|].
    apply server_new_keeps. by rewrite Hd. }
  pose proof (resolve_standing client h now_ms s i s' Hk Hr) as Hst. split; [done|].
  destruct Hst as [| |j Hj|j Hj]; [done|done| |]; unfold AuthContext.require_all_scope; simpl.
  - rewrite Hj. by destruct (OperatorIdentity.require_unscoped j) as [[]|].
  - by rewrite Hj.
Qed.

(** An applied update that makes the row dead takes the user out. *)
Lemma update_applied_out client user may_enable ctx kind change before after f (db db' : AppDb) id revision :
  db_keeps users_wf db →
  is_Some (operator_users (tables db) !! (client, user)) →
  (∀ row, OperatorUserRow.key (f row) = OperatorUserRow.key row) →
  (∀ row, OperatorUserRow.archived_at_ms (f row) ≠ None ∨ OperatorUserRow.active (f row) = false ∧ ¬ may_enable user) →
  mutate constraint_failed (ctx_request ctx kind user change before after) (UserStore.update_user client user f) db
    = (Ok (MutationOutcome.Applied id revision), db') →
  user_out client user may_enable (operator_users (tables db')).
Proof.
  intros [Hwf Hu] [row Hrow] Hkey Hf Hm. apply mutate_applied in Hm as (_ & _ & db1 & Hw & Hd);
    [|done|by apply slice_write_spares_receipts, slice_write_update].
  unfold tables. rewrite Hd. injection Hw as <-.
  change (user_out client user may_enable (alter f (client, user) (operator_users (tables db)))).
  rewrite alter_lookup, Hrow. split; [by eapply users_wf_update|].
  exists (f row). rewrite lookup_insert_eq. auto.
Qed.

(** The answer to an applied mutation. *)
Lemma applied_response o status response :
  mutation_response o = BMutation status response → response_outcome response = KApplied →
  ∃ id revision, o = MutationOutcome.Applied id revision.
Proof. destruct o; intros [= <- <-] Hk; try done. eauto. Qed.

Lemma store_op_ok {A} (m : AppOp A) s a s' :
  OperatorRoutes.store_op m s = (Ok a, s') → ∃ db', m (Server.db s) = (Ok a, db') ∧ s' = Server.set_db s db'.
Proof.
  unfold OperatorRoutes.store_op, Auth.on_db, op_bind, op_lift.
  destruct (m (Server.db s)) as [[x|e] d]; simpl; intros [= <- <-]; eauto.
Qed.

Lemma require_user_ok client user u db db' :
  UserStore.require_user client user db = (Ok u, db') →
  db' = db ∧ is_Some (operator_users (tables db) !! (client, user)).
Proof.
  intros (x & db1 & [= <- <-] & Hr)%op_bind_ok. unfold op_lift in Hr.
  destruct (operator_users (tables db) !! (client, user)); [|done]. injection Hr as <- <-. eauto.
Qed.

Lemma not_archived_ok u db r db' : UserStore.require_not_archived u db = (Ok r, db') → db' = db.
Proof. unfold UserStore.require_not_archived. case_bool_decide; [done|]. by intros [= _ <-]. Qed.

Lemma set_active_out client user may_enable ctx (db db' : AppDb) id revision :
  ctx_client_id ctx = client → ¬ may_enable user → db_keeps users_wf db →
  UserStore.set_active constraint_failed ctx user false db = (Ok (MutationOutcome.Applied id revision), db') →
  user_out client user may_enable (operator_users (tables db')).
Proof.
  intros Hc Hme Hk. unfold UserStore.set_active. rewrite Hc.
  intros (u & db1 & [-> Hu]%require_user_ok & ([] & db2 & Ha & Hm)%op_bind_ok)%op_bind_ok.
  apply not_archived_ok in Ha as ->.
  eapply update_applied_out; [done|done| | |exact Hm]; [done|]. intros row. by right.
Qed.

Lemma archive_user_out client user may_enable ctx (db db' : AppDb) id revision :
  ctx_client_id ctx = client → db_keeps users_wf db →
  UserStore.archive_user constraint_failed json_text ctx user db = (Ok (MutationOutcome.Applied id revision), db') →
  user_out client user may_enable (operator_users (tables db')).
Proof.
  intros Hc Hk. unfold UserStore.archive_user. rewrite Hc.
  intros (u & db1 & [-> Hu]%require_user_ok & Hm)%op_bind_ok.
  do 2 (case_match; [done|]).
  do 2 (apply op_bind_ok in Hm as ([] & ? & [= ? <-] & Hm); [done|]).
  eapply update_applied_out; [done|done| | |exact Hm]; [done|]. intros row. by left.
Qed.

Lemma user_out_not_shared client user may_enable users :
  user_out client user may_enable users → SHARED_OPERATOR_ACTOR ≠ user.
Proof.
  intros [Hwf (row & Hrow & _)] <-. destruct (Hwf _ _ Hrow) as [Hkey Hshape].
  apply shape_not_shared in Hshape. unfold OperatorUserRow.key in Hkey. congruence.
Qed.

(** The gate and the key check keep the invariant, so the store is reached with it. *)
Lemma gated_ok {A} client h now_ms key (k : AuthContext.t → HttpOp A) s r s' :
  keeps client users_wf s →
  (let? auth := OperatorRoutes.all_scope_gate conversion_failed sha256_hex parse_strings h now_ms in
   OperatorRoutes.require_key key ;;? k auth) s = (Ok r, s') →
  ∃ auth s0, keeps client users_wf s0 ∧ k auth s0 = (Ok r, s').
Proof.
  intros Hs (auth & s0 & Hg & ([] & s1 & Hk & Hr)%op_bind_ok)%op_bind_ok.
  pose proof (keeps_all_scope_gate client users_wf h now_ms s Hs) as Hs0. rewrite Hg in Hs0.
  exists auth, s0. split; [exact Hs0|]. unfold OperatorRoutes.require_key in Hk.
  destruct (is_blank key); [done|]. by injection Hk as ->.
Qed.

Lemma user_action_out client s h user action expected key actor t1 t2 status response s1 :
  keeps client users_wf s →
  handle (CUserAction h user action expected key actor t1 t2) s = (Ok (BMutation status response), s1) →
  response_outcome response = KApplied →
  (action = UserDisable → ∀ may_enable, ¬ may_enable user → keeps client (user_out client user may_enable) s1) ∧
  (action = UserArchive → ∀ may_enable, keeps client (user_out client user may_enable) s1).
Proof.
  intros Hs Hact Happ. pose proof (keeps_handle client (fun _ => True) users_wf (users_wf_closed _ _)
    (CUserAction h user action expected key actor t1 t2)) as Hkeep.
  assert (Hwf1 : keeps client users_wf s1).
  { assert (covered (fun _ => True) (CUserAction h user action expected key actor t1 t2)) as Hcov by by destruct action.
    specialize (Hkeep Hcov s Hs). by rewrite Hact in Hkeep. }
  simpl in Hact. apply gated_ok with (client := client) in Hact as (auth & s0 & Hs0 & Hact); [|done].
  apply op_bind_ok in Hact as (srv & ? & [= <- <-] & Hact). destruct Hs0 as [Hc Hdb]. rewrite Hc in Hact.
  destruct action; (split; [|try done]); try done; intros _ may_enable.
  - intros Hme. apply op_bind_ok in Hact as (o & s2 & (db' & Hm & ->)%store_op_ok & [= Hr <-]).
    destruct (applied_response o status response Hr Happ) as (id & rev & ->).
    destruct Hwf1 as (Hc1 & Hsp & _). split; [done|]. split; [done|].
    by eapply set_active_out with (may_enable := may_enable) in Hm.
  - revert Hact. case_match; [done|].
    intros (o & s2 & (db' & Hm & ->)%store_op_ok & [= Hr <-])%op_bind_ok.
    destruct (applied_response o status response Hr Happ) as (id & rev & ->).
    destruct Hwf1 as (Hc1 & Hsp & _). split; [done|]. split; [done|].
    by eapply archive_user_out with (may_enable := may_enable) in Hm.
Qed.

(** C24: a user who was disabled or archived is locked out at once.  Once the route
    answered that the action was applied, then whatever requests follow (as long as
    none enables a disabled user again; nothing brings an archived one back), no
    request is identified as that user, neither by the token nor by any session
    opened before. *)
Theorem disabled_user_locked_out client s h user action expected key actor t1 t2 status response s1 calls h' t3 i s' :
  keeps client users_wf s →
  handle (CUserAction h user action expected key actor t1 t2) s = (Ok (BMutation status response), s1) →
  response_outcome response = KApplied →
  action = UserArchive ∧ Forall (covered (fun _ => True)) calls ∨
  action = UserDisable ∧ Forall (covered (fun u => u ≠ user)) calls →
  resolve h' t3 (serve_all s1 calls) = (Ok i, s') →
  OperatorIdentity.require_unscoped i = Ok tt → OperatorIdentity.actor_id i ≠ user.
Proof.
  intros Hs Hact Happ Hcalls Hr Hi.
  destruct (user_action_out client s h user action expected key actor t1 t2 status response s1 Hs Hact Happ)
    as (Hdis & Harch).
  assert (∃ may_enable, Forall (covered may_enable) calls ∧ keeps client (user_out client user may_enable) s1)
    as (may_enable & Hcov & Hout).
  { destruct Hcalls as [[-> Hc]|[-> Hc]]; eexists; (split; [exact Hc|]); auto. }
  apply (keeps_serve_all client may_enable _ (user_out_closed client user may_enable) calls s1 Hcov) in Hout
    as (Hc & _ & Hu).
  apply resolved_backed in Hr as [_ [(token & _ & Hb)|(_ & _ & _ & ->)]]; [|by eapply user_out_not_shared].
  destruct Hb as [Ho|k row Hk Hl Ht|k row parsed Hk Hl Hh Hcaps]; simpl; [by eapply user_out_not_shared| |done].
  rewrite Hc in Hl. by eapply user_out_not_live.
Qed.

(** ** Replayed requests *)

(** A mutation under a used key is answered as a replay and changes no table. *)
Lemma mutate_used request write (db : AppDb) :
  spine_wf db → write_spares write → request_used db request →
  ∃ id revision db', mutate constraint_failed request write db = (Ok (MutationOutcome.ReplayedIdempotent id revision), db')
    ∧ Db.domain db' = Db.domain db.
Proof.
  intros Hwf Hs Hused. destruct (slice_mutate_effect constraint_failed request write db Hwf Hs) as [He _].
  inversion He as [db' id rev ? Hd Heq|? ? ? Hf|? ? ? ? Hf|? ? ? Hf]; [by eauto|..];
    by destruct (key_used_not_free _ _ _ Hused).
Qed.

Definition same_credentials (s s' : Server.t) : Prop :=
  ∀ token i, backed sha256_hex parse_strings s' token i ↔ backed sha256_hex parse_strings s token i.

Lemma backed_tables s s' token i :
  Server.client_id s' = Server.client_id s → Server.operator_token s' = Server.operator_token s →
  Db.domain (Server.db s') = Db.domain (Server.db s) →
  backed sha256_hex parse_strings s token i → backed sha256_hex parse_strings s' token i.
Proof.
  intros Hc Ho Hd [Hop|k row Hk Hl Ht|k row parsed Hk Hl Hh Hp].
  - constructor. by rewrite Ho.
  - eapply backed_user; [|by rewrite Hc|done]. unfold tables. by rewrite Hd.
  - eapply backed_machine; [|by rewrite Hc|done|done]. unfold tables. by rewrite Hd.
Qed.

Lemma same_credentials_domain s db' :
  Db.domain db' = Db.domain (Server.db s) → same_credentials s (Server.set_db s db').
Proof. intros Hd token i. split; by apply backed_tables. Qed.

Lemma rotate_token_replayed ctx user token (db : AppDb) row :
  spine_wf db → operator_users (tables db) !! (ctx_client_id ctx, user) = Some row →
  OperatorUserRow.archived_at_ms row ≫= i64_to_u64 = None →
  key_used db (ctx_client_id ctx) (ctx_idempotency_key ctx) →
  ∃ o db', UserStore.rotate_token constraint_failed ctx user token db = (Ok o, db') ∧ Db.domain db' = Db.domain db.
Proof.
  intros Hwf Hrow Harch Hused.
  destruct (mutate_used (ctx_request ctx UserStore.USER_ENTITY_KIND user "rotate_token" None
      (Some ("{" +:+ in_quotes "token_rotated" +:+ ":true}")))
    (UserStore.update_user_token constraint_failed (ctx_client_id ctx) user token (ctx_now_ms ctx)) db Hwf)
    as (id & rev & db' & Hm & Hd); [by apply slice_write_spares_receipts, slice_write_user_token|done|].
  exists (MutationOutcome.ReplayedIdempotent id rev), db'. split; [|done]. unfold UserStore.rotate_token.
  rewrite (op_bind_step _ _ db (UserStore.user_from_row row) db).
  - erewrite op_bind_step; [exact Hm|]. unfold UserStore.require_not_archived. simpl. by rewrite Harch.
  - unfold UserStore.require_user, UserStore.get_user. erewrite op_bind_step; [|reflexivity].
    rewrite Hrow. reflexivity.
Qed.

Lemma create_user_replayed client actor user token key (db : AppDb) :
  spine_wf db → key_used db client key →
  ∃ o db', UserStore.create_user constraint_failed json_text client actor user token key db = (Ok o, db') ∧
    Db.domain db' = Db.domain db.
Proof.
  intros Hwf Hused. unfold UserStore.create_user.
  match goal with |- context [mutate _ ?req ?w db] =>
    destruct (mutate_used req w db Hwf) as (id & rev & db' & Hm & Hd) end;
    [by apply slice_write_spares_receipts, slice_write_insert_user|exact Hused|].
  eauto.
Qed.

Lemma store_op_step {A} (m : AppOp A) s a db' :
  m (Server.db s) = (Ok a, db') → OperatorRoutes.store_op m s = (Ok a, Server.set_db s db').
Proof. intros Hm. unfold OperatorRoutes.store_op, Auth.on_db, op_bind, op_lift. by rewrite Hm. Qed.

Lemma require_key_step key s : is_blank key = false → OperatorRoutes.require_key key s = (Ok tt, s).
Proof. unfold OperatorRoutes.require_key. by intros ->. Qed.

(** the answer to a replayed request for a user's token is a token that does
    not work.  When the idempotency key of a rotation was used before, the route
    still answers the token it has just drawn, although nothing is stored; a
    creation of a user does the same.  The answered token is a credential only if
    it already was one, and the caller is not told. *)
Theorem replayed_user_token_is_dead s h user name key actor bytes t1 t2 auth s0 id :
  spine_wf (Server.db s0) →
  OperatorRoutes.self_gate conversion_failed sha256_hex parse_strings h user t1 s = (Ok auth, s0) →
  OperatorRoutes.all_scope_gate conversion_failed sha256_hex parse_strings h t1 s = (Ok auth, s0) →
  is_blank key = false → UserService.user_id_from_display_name name = Ok id →
  (row ← operator_users (tables (Server.db s0)) !! (Server.client_id s0, user);
   OperatorUserRow.archived_at_ms row ≫= i64_to_u64) = None →
  is_Some (operator_users (tables (Server.db s0)) !! (Server.client_id s0, user)) →
  key_used (Server.db s0) (Server.client_id s0) key →
  let token := "bosu_" +:+ hex bytes in
  (∃ s1, handle (CRotateUserToken h user key actor (Some bytes) t1 t2) s = (Ok (BUserToken token), s1) ∧
     same_credentials s0 s1) ∧
  (∃ created s1, handle (CUserCreate h name key actor (Some bytes) t1 t2) s = (Ok (BUserCreated created token), s1) ∧
     same_credentials s0 s1).
Proof.
  intros Hwf Hself Hall Hkey Hid Harch [row Hrow] Hused token. rewrite Hrow in Harch. split; simpl.
  - unfold OperatorRoutes.rotate_user_token. erewrite op_bind_step; [|exact Hself].
    erewrite op_bind_step; [|by apply require_key_step].
    erewrite op_bind_step; [|reflexivity]. erewrite op_bind_step; [|reflexivity]. cbv zeta.
    destruct (rotate_token_replayed (OperatorRoutes.action_context (Server.client_id s0)
      (AuthContext.actor_or auth actor) None key t2) user token (Server.db s0) row) as (o & db' & Hm & Hd); try done.
    erewrite op_bind_step; [|by apply store_op_step]. eexists. split; [reflexivity|]. by apply same_credentials_domain.
  - unfold OperatorRoutes.user_create. erewrite op_bind_step; [|exact Hall].
    erewrite op_bind_step; [|by apply require_key_step]. cbv zeta.
    erewrite op_bind_step; [|unfold OperatorRoutes.unprocessable; rewrite Hid; reflexivity].
    erewrite op_bind_step; [|reflexivity]. erewrite op_bind_step; [|reflexivity].
    edestruct (create_user_replayed (Server.client_id s0)) as (o & db' & Hm & Hd); [done|exact Hused|].
    erewrite op_bind_step; [|apply store_op_step, Hm]. eexists _, _. split; [reflexivity|].
    by apply same_credentials_domain.
Qed.
End server.

(** ** Inputs that meet the hypotheses *)

Definition demo_json (_ : list (string * JsonValue)) : string := "{}".
Definition demo_strings (_ : list string) : string := "[]".

Definition bearer_header (token : string) : Headers :=
  {| authorization := Some ("Bearer " +:+ token); cookie := None |}.

Abbreviation demo_handle :=
  (handle "UNIQUE" "conversion" demo_sha demo_json demo_strings demo_parse).
Abbreviation demo_serve := (serve_all "UNIQUE" "conversion" demo_sha demo_json demo_strings demo_parse).

(** The shared operator creates a user; the drawn bytes make its token. *)
Definition demo_create : Call :=
  CUserCreate (bearer_header "secret") "Ada" "create-ada" None (Some [1%N; 2%N]) 1 2.
Definition demo_start : Server.t := server_new "acme" (Some "secret"%string) (mk_tables ∅ empty_slices).

Lemma personal_users_never_shared_witness :
  let s := demo_serve demo_start [demo_create] in
  let i := OperatorIdentity.mk "user_ada" "Ada" TokenCapabilities.Unscoped in
  standing demo_sha (bearer_header "bosu_0102") 3 s i ∧
  (AuthContext.require_all_scope (AuthContext.auth_context i) = Ok tt → i = OperatorIdentity.shared).
Proof.
  apply (personal_users_never_shared "UNIQUE" "conversion" demo_sha demo_json demo_strings demo_parse "acme"
    (Some "secret"%string) (mk_tables ∅ empty_slices) [demo_create] (bearer_header "bosu_0102") 3 _
    (demo_serve demo_start [demo_create])).
  - reflexivity.
  - repeat constructor.
  - vm_compute. reflexivity.
Defined.

Definition demo_disable : Call :=
  CUserAction (bearer_header "secret") "user_ada" UserDisable None "disable-ada" None 4 5.

Lemma demo_keeps calls :
  Forall (covered (fun _ => True)) calls → keeps "acme" users_wf (demo_serve demo_start calls).
Proof.
  intros Hc. apply (keeps_serve_all _ _ _ _ _ _ "acme" (fun _ => True)); [apply users_wf_closed|done|].
  by apply server_new_keeps.
Qed.

Lemma disabled_user_locked_out_witness :
  ∃ response s1, demo_handle demo_disable (demo_serve demo_start [demo_create]) = (Ok (BMutation OK response), s1) ∧
    OperatorIdentity.actor_id OperatorIdentity.shared ≠ "user_ada"%string.
Proof.
  eexists _, _. split; [vm_compute; reflexivity|].
  eapply (disabled_user_locked_out "UNIQUE" "conversion" demo_sha demo_json demo_strings demo_parse "acme"
    (demo_serve demo_start [demo_create]) (bearer_header "secret") "user_ada" UserDisable None "disable-ada" None 4 5
    OK _ _ [] (bearer_header "secret") 6).
  - apply demo_keeps. repeat constructor.
  - vm_compute. reflexivity.
  - reflexivity.
  - right. split; [reflexivity|constructor].
  - vm_compute. reflexivity.
  - reflexivity.
Defined.

(** A rotation under the key of the creation. *)
Lemma replayed_user_token_is_dead_witness :
  let s := demo_serve demo_start [demo_create] in
  ∃ s1, demo_handle (CRotateUserToken (bearer_header "secret") "user_ada" "create-ada" None (Some [7%N]) 4 5) s
      = (Ok (BUserToken "bosu_07"), s1) ∧ same_credentials demo_sha demo_parse s s1.
Proof.
  intros s.
  edestruct (replayed_user_token_is_dead "UNIQUE" "conversion" demo_sha demo_json demo_strings demo_parse s
    (bearer_header "secret") "user_ada" "Bob" "create-ada" None [7%N] 4 5) as [H _]; [..|exact H].
  - apply (demo_keeps [demo_create]). repeat constructor.
  - vm_compute. reflexivity.
  - vm_compute. reflexivity.
  - vm_compute. reflexivity.
  - vm_compute. reflexivity.
  - vm_compute. reflexivity.
  - vm_compute. eexists. reflexivity.
  - vm_compute. eexists. split; [left|reflexivity].
Defined.
