(* ===== verification/WorkItems.v ===== *)
(** * Work items: data, visibility and queries
    ([bos-app/src/slices/work_queue/store.rs], [work_queue/mod.rs])

    A work item belongs to its source's user and to the named operators its
    visibility rows list; the queries apply the caller's scope in SQL, the other
    operations on a loaded row.

    [serde_json] on lists of strings and the catalog's titles are outside the
    repository: the texts are parameters, the ids of the catalog are listed. *)

From S2P Require Import Prelude RustStd RustStr StoreCore AppOutbox Identity Schema Operators.

(** ** Packet kinds *)

(** [kind_id] of the records, in the catalog's order. *)
(* src: crates/bos-app/src/slices/work_queue/mod.rs:96-189 packet_kind_catalog *)
Definition packet_kind_catalog : list string :=
  ["follow_up_task"; "email_draft_reply"; "calendar_event_draft"; "crm_activity"; "crm_record_create";
   "crm_sales_intent"; "ledger_entry"; "content_draft"; "invoice_draft"; "claim_draft"]%string.

(* src: crates/bos-app/src/slices/work_queue/mod.rs:191-193 packet_kind_exists *)
Definition packet_kind_exists (kind_id : string) : bool := existsb (string_eqb kind_id) packet_kind_catalog.

(** The kinds with the ids of the slices that own them. *)
(* src: crates/bos-app/src/slices/work_queue/mod.rs:200-220 PACKET_KIND_SLICE_OWNERS *)
Definition PACKET_KIND_SLICE_OWNERS : list (string * string) :=
  [("follow_up_task", "follow_up_tasks"); ("email_draft_reply", "email_drafts");
   ("calendar_event_draft", "calendar_drafts"); ("crm_activity", "crm_drafts");
   ("crm_record_create", "crm_record_drafts"); ("crm_sales_intent", "crm_sales_intent");
   ("ledger_entry", "ledger_drafts"); ("content_draft", "content_drafts");
   ("invoice_draft", "invoice_drafts"); ("claim_draft", "claim_drafts")]%string.

(* src: crates/bos-app/src/slices/work_queue/mod.rs:223-227 packet_kind_slice *)
Definition packet_kind_slice (kind_id : string) : option string :=
  snd <$> List.find (fun entry => string_eqb entry.1 kind_id) PACKET_KIND_SLICE_OWNERS.

(* src: crates/bos-app/src/slices/work_queue/mod.rs:232-243 packet_kind_catalog_for_enabled *)
Definition packet_kind_catalog_for_enabled (slice_enabled : string → bool) : list string :=
  filter (fun kind => option_any slice_enabled (packet_kind_slice kind)) packet_kind_catalog.

(** ** Items *)

(* src: crates/bos-contracts/src/work_queue.rs:14-21 WorkItemStatus *)
Inductive WorkItemStatus := Open | Accepted | Dismissed.
(* src: crates/bos-contracts/src/work_queue.rs:23-29 WorkItemAcceptActor *)
Inductive WorkItemAcceptActor := AcceptOperator | AcceptSystem.

(* src: crates/bos-app/src/slices/work_queue/store.rs:1232-1238 status_str *)
Definition status_str (status : WorkItemStatus) : string :=
  match status with Open => "open" | Accepted => "accepted" | Dismissed => "dismissed" end.
(* src: crates/bos-app/src/slices/work_queue/store.rs:1462-1468 status_from_str *)
Definition status_from_str (raw : string) : WorkItemStatus :=
  if string_eqb raw "accepted" then Accepted
  else if string_eqb raw "dismissed" then Dismissed else Open.
(* src: crates/bos-app/src/slices/work_queue/store.rs:1447-1452 accept_actor_str *)
Definition accept_actor_str (actor : WorkItemAcceptActor) : string :=
  match actor with AcceptOperator => "operator" | AcceptSystem => "system" end.
(* src: crates/bos-app/src/slices/work_queue/store.rs:1454-1460 accept_actor_from_str *)
Definition accept_actor_from_str (raw : string) : option WorkItemAcceptActor :=
  if string_eqb raw "operator" then Some AcceptOperator
  else if string_eqb raw "system" then Some AcceptSystem else None.

Module WorkItem.
(* src: crates/bos-contracts/src/work_queue.rs:31-80 WorkItem *)
Record t := mk {
  item_id : string;
  source_kind : string;
  source_ref : string;
  category_id : string;
  title : string;
  summary : string;
  packet_kinds : list string;
  status : WorkItemStatus;
  accept_actor : option WorkItemAcceptActor;
  ai_suggested : bool;
  rationale : string;
  produce_guidance : string;
  source_user_id : option string;
  assignee_user_id : option string;
  visible_to_user_ids : list string;
  created_at_ms : N;
  updated_at_ms : N;
}.
(** [entry.item.visible_to_user_ids = user_ids]. *)
Definition set_visible (i : t) (user_ids : list string) : t :=
  mk (item_id i) (source_kind i) (source_ref i) (category_id i) (title i) (summary i) (packet_kinds i)
    (status i) (accept_actor i) (ai_suggested i) (rationale i) (produce_guidance i) (source_user_id i)
    (assignee_user_id i) user_ids (created_at_ms i) (updated_at_ms i).
End WorkItem.

(** The store leaves the decorations of the feed empty; they are left out. *)
Module WorkItemWithRevision.
(* src: crates/bos-contracts/src/work_queue.rs:112-136 WorkItemWithRevision *)
Record t := mk {
  item : WorkItem.t;
  revision : N;
}.
End WorkItemWithRevision.

(** [value.map(str::trim).filter(|value| !value.is_empty())]. *)
Definition trimmed (value : option string) : option string :=
  v ← value; if is_blank v then None else Some (trim v).

(** [let limit as i64]: SQL takes a negative limit for none. *)
Definition sql_limit {A} (limit : N) (rows : list A) : list A :=
  if (u64_as_i64 limit <? 0)%Z then rows else truncate limit rows.

(** [if !v.contains(x) { v.push(x) }]. *)
Definition push_new (user_ids : list string) (user_id : string) : list string :=
  if bool_decide (user_id ∈ user_ids) then user_ids else user_ids ++ [user_id].

(* src: crates/bos-app/src/slices/work_queue/store.rs:1387-1406 effective_visibility_user_ids *)
Definition effective_visibility_user_ids (item : WorkItem.t) : list string :=
  let user_ids := foldl (fun ids user_id => if is_empty (trim user_id) then ids else push_new ids (trim user_id))
    [] (WorkItem.visible_to_user_ids item) in
  match user_ids with
  | [] => option_list (trimmed (WorkItem.source_user_id item))
  | _ => user_ids
  end.

Module WorkStore.
Section store.
Context (parse_strings : string → option (list string)).

(* src: crates/bos-app/src/slices/work_queue/store.rs:14-14 ITEM_ENTITY_KIND *)
Definition ITEM_ENTITY_KIND : string := "work_item".
(* src: crates/bos-app/src/slices/work_queue/store.rs:15-15 POLICY_ENTITY_KIND *)
Definition POLICY_ENTITY_KIND : string := "work_queue_policy".
(* src: crates/bos-app/src/slices/work_queue/store.rs:16-16 AGENT_LAUNCH_ENTITY_KIND *)
Definition AGENT_LAUNCH_ENTITY_KIND : string := "work_item_agent_launch".
(* src: crates/bos-app/src/slices/work_queue/store.rs:17-17 PRODUCE_GUIDANCE_MAX_CHARS *)
Definition PRODUCE_GUIDANCE_MAX_CHARS : N := 2000.

(** ** Visibility *)

(* src: crates/bos-app/src/slices/work_queue/store.rs:1296-1309 visibility_row_exists *)
Definition visibility_row_exists (client_id item_id user_id : string) : AppOp bool :=
  read_tables (fun t => bool_decide (is_Some (work_item_visibility t !! (client_id, item_id, user_id)))).

(** [ORDER BY user_id COLLATE NOCASE ASC]; the rows are read by primary key. *)
Definition nocase (user_id : string) : string * string := (to_ascii_lowercase user_id, user_id).

(** [SELECT item_id, user_id FROM work_item_visibility WHERE client_id = ? AND ...
    ORDER BY item_id ASC, user_id COLLATE NOCASE ASC]. *)
Definition visibility_rows (client_id : string) (item : string → bool) (t : SliceTables) : list (string * string) :=
  sort_by_key (fun row : string * string => (row.1, nocase row.2))
    ((fun '((_, item_id, user_id), _) => (item_id, user_id)) <$>
      filter (fun '((client, item_id, _), _) => string_eqb client client_id && item item_id)
        (map_to_list (work_item_visibility t))).

(* src: crates/bos-app/src/slices/work_queue/store.rs:1324-1351 item_visible_user_ids_for_source *)
Definition item_visible_user_ids_for_source (client_id item_id : string) (source_user_id : option string)
    : AppOp (list string) :=
  read_tables (fun t =>
    match foldl push_new [] (snd <$> visibility_rows client_id (string_eqb item_id) t) with
    | [] => option_list (trimmed source_user_id)
    | user_ids => user_ids
    end).

(* src: crates/bos-app/src/slices/work_queue/store.rs:1311-1322 item_visible_user_ids *)
Definition item_visible_user_ids (client_id : string) (item : WorkItem.t) : AppOp (list string) :=
  item_visible_user_ids_for_source client_id (WorkItem.item_id item) (WorkItem.source_user_id item).

(** [by_item.entry(item_id).or_default()], then a push unless it is there. *)
Definition push_row (by_item : gmap string (list string)) (row : string * string) : gmap string (list string) :=
  <[row.1 := push_new (default [] (by_item !! row.1)) row.2]> by_item.

(* src: crates/bos-app/src/slices/work_queue/store.rs:1353-1385 visibility_by_item_ids *)
Definition visibility_by_item_ids (client_id : string) (items : list WorkItem.t) (t : SliceTables)
    : gmap string (list string) :=
  foldl push_row ∅ (visibility_rows client_id (fun id => existsb (fun i => string_eqb (WorkItem.item_id i) id) items) t).

(** SQL's [(?all = 1 OR w.source_user_id = ?user OR EXISTS (SELECT 1 FROM
    work_item_visibility v WHERE ...))] with the scope's parameters. *)
(* src: crates/bos-app/src/slices/work_queue/store.rs:1240-1256 visibility_sql_filter *)
Definition visibility_sql_filter (scope : OperatorScope.t) (t : SliceTables) (row : WorkItemRow.t) : bool :=
  let '(scope_all, scope_user) := OperatorScope.sql_params scope in
  (scope_all =? 1)%Z
  || option_any (fun v => string_eqb v scope_user) (WorkItemRow.source_user_id row)
  || bool_decide (is_Some (work_item_visibility t !! (WorkItemRow.client_id row, WorkItemRow.item_id row, scope_user))).

(* src: crates/bos-app/src/slices/work_queue/store.rs:1258-1273 item_visible_to_scope *)
Definition item_visible_to_scope (client_id : string) (item : WorkItem.t) (scope : OperatorScope.t) : AppOp bool :=
  match scope with
  | OperatorScope.All => op_ret true
  | OperatorScope.User user_id =>
    if bool_decide (WorkItem.source_user_id item = Some user_id) then op_ret true
    else visibility_row_exists client_id (WorkItem.item_id item) user_id
  end.

(* src: crates/bos-app/src/slices/work_queue/store.rs:1275-1294 require_item_visible *)
Definition require_item_visible (client_id item_id : string) (source_user_id : option string)
    (scope : OperatorScope.t) : AppOp unit :=
  let? visible :=
    match scope with
    | OperatorScope.All => op_ret true
    | OperatorScope.User user_id =>
      if bool_decide (source_user_id = Some user_id) then op_ret true
      else visibility_row_exists client_id item_id user_id
    end in
  op_lift (if visible : bool then Ok tt else Err (StoreError.Domain "scope_forbidden")).

(* src: crates/bos-app/src/slices/work_queue/store.rs:1425-1445 require_active_operator_user *)
Definition require_active_operator_user (client_id user_id : string) : AppOp unit :=
  let? active := read_tables (fun t =>
    option_any (UserStore.live client_id) (operator_users t !! (client_id, user_id))) in
  op_lift (if active : bool then Ok tt else Err (StoreError.Domain "work_queue_assignee_not_active")).

(** ** Queries *)

(** The closure of the queries that makes an item of a row. *)
(* src: crates/bos-app/src/slices/work_queue/store.rs:51-72 list_items (row) *)
Definition item_of_row (row : WorkItemRow.t) : WorkItem.t := {|
  WorkItem.item_id := WorkItemRow.item_id row;
  WorkItem.source_kind := WorkItemRow.source_kind row;
  WorkItem.source_ref := WorkItemRow.source_ref row;
  WorkItem.category_id := WorkItemRow.category_id row;
  WorkItem.title := WorkItemRow.title row;
  WorkItem.summary := WorkItemRow.summary row;
  WorkItem.packet_kinds := default [] (parse_strings (WorkItemRow.packet_kinds_json row));
  WorkItem.status := status_from_str (WorkItemRow.status row);
  WorkItem.accept_actor := WorkItemRow.accept_actor row ≫= accept_actor_from_str;
  WorkItem.ai_suggested := WorkItemRow.ai_suggested row;
  WorkItem.rationale := WorkItemRow.rationale row;
  WorkItem.produce_guidance := WorkItemRow.produce_guidance row;
  WorkItem.source_user_id := WorkItemRow.source_user_id row;
  WorkItem.assignee_user_id := WorkItemRow.assignee_user_id row;
  WorkItem.visible_to_user_ids := [];
  WorkItem.created_at_ms := i64_as_u64 (WorkItemRow.created_at_ms row);
  WorkItem.updated_at_ms := i64_as_u64 (WorkItemRow.updated_at_ms row);
|}.

(** [COALESCE(er.revision, 0)] of the outer join. *)
Definition item_revision (db : AppDb) (row : WorkItemRow.t) : N :=
  match Db.revisions db !! (WorkItemRow.client_id row, ITEM_ENTITY_KIND, WorkItemRow.item_id row) with
  | Some revision => i64_as_u64 revision.1
  | None => 0
  end.

(** [ORDER BY created_at_ms DESC, item_id DESC]. *)
Definition feed_order (row : WorkItemRow.t) : Reverse (Z * string) :=
  MkReverse (WorkItemRow.created_at_ms row, WorkItemRow.item_id row).

(** The rows the feed selects. *)
Definition listed_rows (client_id : string) (status : option WorkItemStatus) (limit : N) (scope : OperatorScope.t)
    (t : SliceTables) : list WorkItemRow.t :=
  sql_limit limit (sort_by_key feed_order
    (filter (fun row => string_eqb (WorkItemRow.client_id row) client_id
                        && map_or_true (fun st => string_eqb (WorkItemRow.status row) (status_str st)) status
                        && visibility_sql_filter scope t row)
       (values (work_items t)))).

(* src: crates/bos-app/src/slices/work_queue/store.rs:19-104 list_items *)
Definition list_items (client_id : string) (status : option WorkItemStatus) (limit : N) (scope : OperatorScope.t)
    : AppOp (list WorkItemWithRevision.t) :=
  fun db =>
    let t := tables db in
    let rows := listed_rows client_id status limit scope t in
    let visibility_by_item := visibility_by_item_ids client_id (item_of_row <$> rows) t in
    (Ok ((fun row =>
       let item := item_of_row row in
       let visible := match visibility_by_item !! WorkItem.item_id item with
         | Some user_ids => user_ids
         | None => filter (fun user_id => negb (is_blank user_id)) (option_list (WorkItem.source_user_id item))
         end in
       WorkItemWithRevision.mk (WorkItem.set_visible item visible) (item_revision db row)) <$> rows), db).

(* src: crates/bos-app/src/slices/work_queue/store.rs:106-160 get_item_unscoped *)
Definition get_item_unscoped (client_id item_id : string) : AppOp (option WorkItemWithRevision.t) :=
  fun db =>
    match work_items (tables db) !! (client_id, item_id) with
    | None => (Ok None, db)
    | Some row =>
      (let? user_ids := item_visible_user_ids client_id (item_of_row row) in
       op_ret (Some (WorkItemWithRevision.mk (WorkItem.set_visible (item_of_row row) user_ids)
                       (item_revision db row)))) db
    end.

(* src: crates/bos-app/src/slices/work_queue/store.rs:162-174 get_item_scoped *)
Definition get_item_scoped (client_id item_id : string) (scope : OperatorScope.t)
    : AppOp (option WorkItemWithRevision.t) :=
  let? entry := get_item_unscoped client_id item_id in
  match entry with
  | Some entry =>
    let? visible := item_visible_to_scope client_id (WorkItemWithRevision.item entry) scope in
    op_ret (if visible : bool then Some entry else None)
  | None => op_ret None
  end.

(** [client_id = ?1 AND source_kind = ?2 AND source_ref = ?3]. *)
Definition of_source (client_id source_kind source_ref : string) (row : WorkItemRow.t) : bool :=
  string_eqb (WorkItemRow.client_id row) client_id && string_eqb (WorkItemRow.source_kind row) source_kind
  && string_eqb (WorkItemRow.source_ref row) source_ref.

(* src: crates/bos-app/src/slices/work_queue/store.rs:176-189 item_exists_for_source *)
Definition item_exists_for_source (client_id source_kind source_ref : string) : AppOp bool :=
  read_tables (fun t => (0 <? len (filter (of_source client_id source_kind source_ref) (values (work_items t))))%N).

(** The index on (client, kind, ref) is unique, so the query has at most one row. *)
(* src: crates/bos-app/src/slices/work_queue/store.rs:191-209 get_item_for_source *)
Definition get_item_for_source (client_id source_kind source_ref : string)
    : AppOp (option WorkItemWithRevision.t) :=
  let? row := read_tables (fun t => List.find (of_source client_id source_kind source_ref) (values (work_items t))) in
  match row with
  | Some row => get_item_unscoped client_id (WorkItemRow.item_id row)
  | None => op_ret None
  end.

(** [(?4 IS NULL AND source_user_id IS NULL) OR source_user_id = ?4]. *)
(* src: crates/bos-app/src/slices/work_queue/store.rs:211-232 get_item_for_source_user *)
Definition get_item_for_source_user (client_id source_kind source_ref : string) (source_user_id : option string)
    : AppOp (option WorkItemWithRevision.t) :=
  let? rows := read_tables (fun t =>
    sort_by_key (fun row => (WorkItemRow.created_at_ms row, WorkItemRow.item_id row))
      (filter (fun row => of_source client_id source_kind source_ref row
                          && bool_decide (WorkItemRow.source_user_id row = source_user_id))
         (values (work_items t)))) in
  match rows with
  | row :: _ => get_item_unscoped client_id (WorkItemRow.item_id row)
  | [] => op_ret None
  end.

(** [*counts.entry(status).or_insert(0) += 1]. *)
Definition count_status (counts : gmap string N) (status : string) : gmap string N :=
  <[status := (default 0 (counts !! status) + 1)%N]> counts.

(** The [BTreeMap]'s entries, in the order of its keys. *)
(* src: crates/bos-app/src/slices/work_queue/store.rs:234-256 status_counts_for_sources *)
Definition status_counts_for_sources (client_id source_kind : string) (source_refs : list string)
    : AppOp (list (string * N)) :=
  read_tables (fun t =>
    sort_by_key fst (map_to_list (foldl (fun counts source_ref =>
      match List.find (of_source client_id source_kind source_ref) (values (work_items t)) with
      | Some row => count_status counts (WorkItemRow.status row)
      | None => counts
      end) ∅ source_refs))).
End store.
End WorkStore.
