(* ===== verification/WorkQueue.v ===== *)
(** * The work queue's mutations and policies ([bos-app/src/slices/work_queue/store.rs])

    Every change of an item or a policy goes through [mutate]; an operator's change
    first finds the item and checks that it is visible to the caller's scope.

    [item_json] is serde's text of an item, [parse_value] parses any JSON text;
    both are parameters, as are the texts of lists of strings and categories. *)

From S2P Require Import Prelude RustStd RustStr StoreCore AppOutbox Identity Schema Operators WorkItems.
Import Spine.

(** Who mutates, under what scope and key. *)
(* src: crates/bos-app/src/slices/mutation_context.rs:11-18 ScopedMutationContext *)
Record ScopedMutationContext := {
  scoped_client_id : string;
  scoped_actor_id : string;
  scoped_scope : OperatorScope.t;
  scoped_expected_revision : option N;
  scoped_idempotency_key : string;
  scoped_now_ms : N;
}.

(** The same without its scope, for [ctx_request]. *)
Definition unscoped (ctx : ScopedMutationContext) : UserActionContext :=
  Build_UserActionContext (scoped_client_id ctx) (scoped_actor_id ctx) (scoped_expected_revision ctx)
    (scoped_idempotency_key ctx) (scoped_now_ms ctx).

Module ItemAction.
(* src: crates/bos-app/src/slices/work_queue/store.rs:407-412 ItemAction *)
Inductive t := Accept | Dismiss | Reopen.

(* src: crates/bos-app/src/slices/work_queue/store.rs:415-421 ItemAction::change_kind *)
Definition change_kind (a : t) : string :=
  match a with Accept => "accept" | Dismiss => "dismiss" | Reopen => "reopen" end.
(* src: crates/bos-app/src/slices/work_queue/store.rs:423-429 ItemAction::target_status *)
Definition target_status (a : t) : string :=
  match a with Accept => "accepted" | Dismiss => "dismissed" | Reopen => "open" end.
(* src: crates/bos-app/src/slices/work_queue/store.rs:431-436 ItemAction::target_accept_actor *)
Definition target_accept_actor (a : t) : option WorkItemAcceptActor :=
  match a with Accept => Some AcceptOperator | Dismiss | Reopen => None end.
End ItemAction.

(* src: crates/bos-contracts/src/work_queue.rs:224-231 WorkItemAssignActionKind *)
Inductive WorkItemAssignActionKind := AssignToMe | AssignToUser | Unassign.

(* src: crates/bos-contracts/src/work_queue.rs:252-265 WorkQueueAiGmailScope *)
Inductive WorkQueueAiGmailScope := GmailDefault | GmailAll | GmailSelected.
(* src: crates/bos-contracts/src/email_triage.rs:644-655 EmailTriageGmailCategory *)
Inductive EmailTriageGmailCategory := Primary | Updates | Social | Promotions | Forums.

(* src: crates/bos-contracts/src/email_triage.rs:7-11 FALLBACK_CATEGORY_ID *)
Definition FALLBACK_CATEGORY_ID : string := "inbound_email".
(* src: crates/bos-contracts/src/work_queue.rs:247-250 AI_SUGGEST_ALL_SENTINEL *)
Definition AI_SUGGEST_ALL_SENTINEL : string := "*".

#[export] Instance gmail_scope_eq_dec : EqDecision WorkQueueAiGmailScope.
Proof. solve_decision. Defined.

Module Policy.
(* src: crates/bos-contracts/src/work_queue.rs:267-296 WorkQueuePolicy *)
Record t := mk {
  category_id : string;
  create_work_item : bool;
  packet_kinds : list string;
  ai_suggestible_packet_kinds : list string;
  ai_suggestible_gmail_scope : WorkQueueAiGmailScope;
  ai_suggestible_gmail_categories : list EmailTriageGmailCategory;
  auto_produce : bool;
}.

(** [policy.ai_suggestible_gmail_scope = scope; ..._categories = categories]. *)
Definition set_gmail (p : t) (scope : WorkQueueAiGmailScope) (categories : list EmailTriageGmailCategory) : t :=
  mk (category_id p) (create_work_item p) (packet_kinds p) (ai_suggestible_packet_kinds p) scope categories
    (auto_produce p).
(** Kinds, suggestions and automation cleared. *)
Definition quiet (p : t) : t := mk (category_id p) (create_work_item p) [] [] GmailDefault [] false.
End Policy.

Definition domain_err {A} (code : string) : AppOp A := op_lift (Err (StoreError.Domain code)).

Definition kind_unknown (kind : string) : StoreError.t :=
  StoreError.Domain ("work_queue_packet_kind_unknown:" +:+ kind).

(** [for kind in kinds { if !packet_kind_exists(kind) { return Err(...) } }]. *)
Fixpoint require_known_kinds (kinds : list string) : Result StoreError.t unit :=
  match kinds with
  | [] => Ok tt
  | kind :: kinds => if packet_kind_exists kind then require_known_kinds kinds else Err (kind_unknown kind)
  end.

Module WorkQueue.
Section store.
Context (constraint_failed : string) (json_text : list (string * JsonValue) → string)
  (strings_json : list string → string) (parse_strings : string → option (list string))
  (item_json : WorkItem.t → string) (policy_json : Policy.t → string)
  (categories_json : list EmailTriageGmailCategory → string)
  (parse_categories : string → option (list EmailTriageGmailCategory))
  (parse_value : string → option JsonValue).

(** ** Emission *)

(** [INSERT OR IGNORE INTO work_item_visibility]. *)
(* src: crates/bos-app/src/slices/work_queue/store.rs:1408-1423 insert_visibility_rows_within *)
Definition insert_visibility_rows_within (client_id item_id : string) (user_ids : list string) (now_ms : N)
    : AppOp unit :=
  update_tables (fun t => set_work_item_visibility t
    (foldl (fun rows user_id =>
       match rows !! (client_id, item_id, user_id) with
       | Some _ => rows
       | None => <[(client_id, item_id, user_id) := u64_as_i64 now_ms]> rows
       end) (work_item_visibility t) user_ids)).

(** The new row. *)
Definition row_of_item (client_id : string) (item : WorkItem.t) : WorkItemRow.t := {|
  WorkItemRow.client_id := client_id;
  WorkItemRow.item_id := WorkItem.item_id item;
  WorkItemRow.source_kind := WorkItem.source_kind item;
  WorkItemRow.source_ref := WorkItem.source_ref item;
  WorkItemRow.category_id := WorkItem.category_id item;
  WorkItemRow.title := WorkItem.title item;
  WorkItemRow.summary := WorkItem.summary item;
  WorkItemRow.packet_kinds_json := strings_json (WorkItem.packet_kinds item);
  WorkItemRow.status := status_str (WorkItem.status item);
  WorkItemRow.accept_actor := accept_actor_str <$> WorkItem.accept_actor item;
  WorkItemRow.ai_suggested := WorkItem.ai_suggested item;
  WorkItemRow.rationale := WorkItem.rationale item;
  WorkItemRow.produce_guidance := WorkItem.produce_guidance item;
  WorkItemRow.source_user_id := WorkItem.source_user_id item;
  WorkItemRow.assignee_user_id := WorkItem.assignee_user_id item;
  WorkItemRow.created_at_ms := u64_as_i64 (WorkItem.created_at_ms item);
  WorkItemRow.updated_at_ms := u64_as_i64 (WorkItem.created_at_ms item);
|}.

(** [INSERT ... ON CONFLICT (client_id, item_id) DO NOTHING]: a row with the id is
    kept; another item of the source violates the index. *)
(* src: crates/bos-app/src/slices/work_queue/store.rs:310-343 insert_item_with_actor (row write) *)
Definition insert_item_row (row : WorkItemRow.t) : AppOp unit :=
  fun db =>
    if bool_decide (is_Some (work_items (tables db) !! WorkItemRow.key row)) then (Ok tt, db)
    else if existsb (WorkStore.of_source (WorkItemRow.client_id row) (WorkItemRow.source_kind row)
                       (WorkItemRow.source_ref row)) (values (work_items (tables db)))
    then (Err (StoreError.Sqlite constraint_failed), db)
    else update_tables (fun t => set_work_items t (<[WorkItemRow.key row := row]> (work_items t))) db.

(** A request without an expected revision by a given kind of actor. *)
Definition system_request (client_id entity_kind entity_id change_kind actor_id : string) (actor_kind : ActorKindDto)
    (idempotency_key : string) (before_json after_json : option string) (now_ms : N) : MutationRequest.t := {|
  MutationRequest.client_id := client_id;
  MutationRequest.entity_kind := entity_kind;
  MutationRequest.entity_id := entity_id;
  MutationRequest.change_kind := change_kind;
  MutationRequest.actor_id := actor_id;
  MutationRequest.actor_kind := actor_kind;
  MutationRequest.expected_revision := None;
  MutationRequest.idempotency_key := idempotency_key;
  MutationRequest.correlation_id := None;
  MutationRequest.causation_id := None;
  MutationRequest.before_json := before_json;
  MutationRequest.after_json := after_json;
  MutationRequest.now_ms := now_ms;
|}.

(* src: crates/bos-app/src/slices/work_queue/store.rs:276-346 insert_item_with_actor *)
Definition insert_item_with_actor (client_id : string) (item : WorkItem.t) (actor_id : string)
    (actor_kind : ActorKindDto) (idempotency_key : string) : AppOp MutationOutcome.t :=
  mutate constraint_failed
    (system_request client_id WorkStore.ITEM_ENTITY_KIND (WorkItem.item_id item) "emit" actor_id actor_kind
       idempotency_key None (Some (item_json item)) (WorkItem.created_at_ms item))
    (insert_item_row (row_of_item client_id item) ;;?
     insert_visibility_rows_within client_id (WorkItem.item_id item) (effective_visibility_user_ids item)
       (WorkItem.created_at_ms item)).

Definition emit_key (item : WorkItem.t) : string :=
  "emit:" +:+ WorkItem.source_kind item +:+ ":" +:+ WorkItem.source_ref item.

(* src: crates/bos-app/src/slices/work_queue/store.rs:260-274 insert_item *)
Definition insert_item (client_id : string) (item : WorkItem.t) : AppOp MutationOutcome.t :=
  insert_item_with_actor client_id item "work_queue_emitter" System (emit_key item).

(** The users to add: trimmed, each once, and without a row yet. *)
(* src: crates/bos-app/src/slices/work_queue/store.rs:360-371 ensure_visibility_user_ids (loop) *)
Fixpoint visibility_additions (client_id item_id : string) (additions user_ids : list string) (t : SliceTables)
    : list string :=
  match user_ids with
  | [] => additions
  | user_id :: user_ids =>
    let user_id := trim user_id in
    let skip := is_empty user_id || bool_decide (user_id ∈ additions)
      || bool_decide (is_Some (work_item_visibility t !! (client_id, item_id, user_id))) in
    visibility_additions client_id item_id (if skip then additions else additions ++ [user_id]) user_ids t
  end.

(* src: crates/bos-app/src/slices/work_queue/store.rs:348-405 ensure_visibility_user_ids *)
Definition ensure_visibility_user_ids (client_id item_id : string) (user_ids : list string)
    (actor_id idempotency_key : string) (now_ms : N) : AppOp bool :=
  let? additions := read_tables (visibility_additions client_id item_id [] user_ids) in
  match additions with
  | [] => op_ret false
  | _ =>
    let? before := WorkStore.item_visible_user_ids_for_source client_id item_id None in
    let after := sort_by_key to_ascii_lowercase (foldl push_new before additions) in
    mutate constraint_failed
      (system_request client_id WorkStore.ITEM_ENTITY_KIND item_id "set_visibility" actor_id System idempotency_key
         (Some (json_text [("visible_to_user_ids"%string, JStrings before)]))
         (Some (json_text [("visible_to_user_ids"%string, JStrings after)])) now_ms)
      (insert_visibility_rows_within client_id item_id additions now_ms) ;;?
    op_ret true
  end.

(** ** Operators' changes *)

(** [UPDATE work_items SET ... WHERE client_id = ?1 AND item_id = ?2]. *)
Definition update_item (client_id item_id : string) (f : WorkItemRow.t → WorkItemRow.t) : AppOp unit :=
  update_tables (fun t => set_work_items t (alter f (client_id, item_id) (work_items t))).

(** The row, or [work_item_not_found]. *)
Definition require_item (client_id item_id : string) : AppOp WorkItemRow.t :=
  let? current := read_tables (fun t => work_items t !! (client_id, item_id)) in
  op_lift (ok_or current (StoreError.Domain "work_item_not_found")).

(** The row, if it is visible to the scope. *)
Definition require_visible_item (ctx : ScopedMutationContext) (item_id : string) : AppOp WorkItemRow.t :=
  let? current := require_item (scoped_client_id ctx) item_id in
  WorkStore.require_item_visible (scoped_client_id ctx) item_id (WorkItemRow.source_user_id current)
    (scoped_scope ctx) ;;?
  op_ret current.

Definition item_request (ctx : ScopedMutationContext) (item_id change_kind : string)
    (before after : string) : MutationRequest.t :=
  ctx_request (unscoped ctx) WorkStore.ITEM_ENTITY_KIND item_id change_kind (Some before) (Some after).

Definition status_json (status : string) (accept_actor : option string) : string :=
  json_text [("status"%string, JString status); ("accept_actor"%string, json_option_string accept_actor)].

(* src: crates/bos-app/src/slices/work_queue/store.rs:441-512 apply_item_action *)
Definition apply_item_action (ctx : ScopedMutationContext) (item_id : string) (action : ItemAction.t)
    : AppOp MutationOutcome.t :=
  let? current := require_visible_item ctx item_id in
  let next_accept_actor := accept_actor_str <$> ItemAction.target_accept_actor action in
  mutate constraint_failed
    (item_request ctx item_id (ItemAction.change_kind action)
       (status_json (WorkItemRow.status current) (WorkItemRow.accept_actor current))
       (status_json (ItemAction.target_status action) next_accept_actor))
    (update_item (scoped_client_id ctx) item_id
       (fun row => WorkItemRow.set_status row (ItemAction.target_status action) next_accept_actor
                     (u64_as_i64 (scoped_now_ms ctx)))).

(* src: crates/bos-app/src/slices/work_queue/store.rs:514-575 system_accept_item *)
Definition system_accept_item (client_id item_id actor_id : string) (expected_revision : option N)
    (idempotency_key : string) (now_ms : N) : AppOp MutationOutcome.t :=
  let? current := require_item client_id item_id in
  let next_accept_actor := Some (accept_actor_str AcceptSystem) in
  mutate constraint_failed {|
    MutationRequest.client_id := client_id;
    MutationRequest.entity_kind := WorkStore.ITEM_ENTITY_KIND;
    MutationRequest.entity_id := item_id;
    MutationRequest.change_kind := "system_accept";
    MutationRequest.actor_id := actor_id;
    MutationRequest.actor_kind := System;
    MutationRequest.expected_revision := expected_revision;
    MutationRequest.idempotency_key := idempotency_key;
    MutationRequest.correlation_id := None;
    MutationRequest.causation_id := None;
    MutationRequest.before_json :=
      Some (status_json (WorkItemRow.status current) (WorkItemRow.accept_actor current));
    MutationRequest.after_json := Some (status_json "accepted" next_accept_actor);
    MutationRequest.now_ms := now_ms;
  |} (update_item client_id item_id
        (fun row => WorkItemRow.set_status row "accepted" next_accept_actor (u64_as_i64 now_ms))).

Definition kinds_json (kinds : string) : string := "{" +:+ in_quotes "packet_kinds" +:+ ":" +:+ kinds +:+ "}".

(* src: crates/bos-app/src/slices/work_queue/store.rs:580-658 update_packet_kinds *)
Definition update_packet_kinds (ctx : ScopedMutationContext) (item_id : string) (packet_kinds : list string)
    : AppOp MutationOutcome.t :=
  op_lift (require_known_kinds packet_kinds) ;;?
  let deduped := foldl push_new [] packet_kinds in
  let? current := require_visible_item ctx item_id in
  if string_eqb (WorkItemRow.status current) "dismissed" then domain_err "work_item_kinds_not_editable"
  else
    mutate constraint_failed
      (item_request ctx item_id "set_kinds" (kinds_json (WorkItemRow.packet_kinds_json current))
         (kinds_json (strings_json deduped)))
      (update_item (scoped_client_id ctx) item_id
         (fun row => WorkItemRow.set_kinds row (strings_json deduped) (u64_as_i64 (scoped_now_ms ctx)))).

(* src: crates/bos-app/src/slices/work_queue/store.rs:662-755 append_ai_packet_kinds *)
Definition append_ai_packet_kinds (client_id item_id : string) (packet_kinds : list string) (rationale : string)
    (now_ms : N) : AppOp bool :=
  op_lift (require_known_kinds packet_kinds) ;;?
  let? current := require_item client_id item_id in
  if string_eqb (WorkItemRow.status current) "dismissed" then op_ret false
  else
    let before := default [] (parse_strings (WorkItemRow.packet_kinds_json current)) in
    let merged := foldl push_new before packet_kinds in
    if (len merged =? len before)%N then op_ret false
    else
      mutate constraint_failed {|
        MutationRequest.client_id := client_id;
        MutationRequest.entity_kind := WorkStore.ITEM_ENTITY_KIND;
        MutationRequest.entity_id := item_id;
        MutationRequest.change_kind := "ai_add_kinds";
        MutationRequest.actor_id := "ai_triage_pass";
        MutationRequest.actor_kind := Agent;
        MutationRequest.expected_revision := None;
        MutationRequest.idempotency_key := "ai_suggest_kinds:" +:+ item_id +:+ ":" +:+ join "," merged;
        MutationRequest.correlation_id := Some item_id;
        MutationRequest.causation_id := None;
        MutationRequest.before_json := Some (json_text
          [("packet_kinds"%string, default (JStrings []) (parse_value (WorkItemRow.packet_kinds_json current)));
           ("ai_suggested"%string, JBool (WorkItemRow.ai_suggested current));
           ("rationale"%string, JString (WorkItemRow.rationale current))]);
        MutationRequest.after_json := Some (json_text
          [("packet_kinds"%string, JStrings merged); ("ai_suggested"%string, JBool true);
           ("rationale"%string, JString rationale)]);
        MutationRequest.now_ms := now_ms;
      |} (update_item client_id item_id
            (fun row => WorkItemRow.set_ai_kinds row (strings_json merged) rationale (u64_as_i64 now_ms))) ;;?
      op_ret true.

Definition guidance_json (guidance : string) : string :=
  json_text [("produce_guidance"%string, JString guidance)].

(* src: crates/bos-app/src/slices/work_queue/store.rs:760-826 update_produce_guidance *)
Definition update_produce_guidance (ctx : ScopedMutationContext) (item_id produce_guidance : string)
    : AppOp MutationOutcome.t :=
  let produce_guidance := trim produce_guidance in
  if (WorkStore.PRODUCE_GUIDANCE_MAX_CHARS <? str_chars produce_guidance)%N
  then domain_err "work_item_guidance_too_long"
  else
    let? current := require_visible_item ctx item_id in
    if string_eqb (WorkItemRow.status current) "dismissed" then domain_err "work_item_guidance_not_editable"
    else
      mutate constraint_failed
        (item_request ctx item_id "set_guidance" (guidance_json (WorkItemRow.produce_guidance current))
           (guidance_json produce_guidance))
        (update_item (scoped_client_id ctx) item_id
           (fun row => WorkItemRow.set_guidance row produce_guidance (u64_as_i64 (scoped_now_ms ctx)))).

(** The next assignee, or why not. *)
(* src: crates/bos-app/src/slices/work_queue/store.rs:843-871 update_assignment (next assignee) *)
Definition next_assignee (scope : OperatorScope.t) (action : WorkItemAssignActionKind)
    (before requested : option string) : Result StoreError.t (option string) :=
  match action with
  | AssignToMe =>
    match scope with
    | OperatorScope.User user_id => Ok (Some user_id)
    | OperatorScope.All => Err (StoreError.Domain "work_queue_assignment_named_user_required")
    end
  | AssignToUser =>
    assignee ← ok_or (trimmed requested) (StoreError.Domain "work_queue_assignee_required");
    Ok (Some assignee)
  | Unassign =>
    match scope with
    | OperatorScope.User user_id =>
      if bool_decide (before = Some user_id) then Ok None
      else Err (StoreError.Domain "work_queue_unassign_forbidden")
    | OperatorScope.All => Ok None
    end
  end.

(** The assignee is a live user, and sees the item when chosen by another. *)
(* src: crates/bos-app/src/slices/work_queue/store.rs:872-881 update_assignment (checks) *)
Definition check_assignee (client_id : string) (action : WorkItemAssignActionKind) (visible_user_ids : list string)
    (assignee : option string) : AppOp unit :=
  match assignee with
  | None => op_ret tt
  | Some assignee =>
    WorkStore.require_active_operator_user client_id assignee ;;?
    let allowed := match action with AssignToUser => existsb (string_eqb assignee) visible_user_ids | _ => true end in
    if negb allowed then domain_err "work_queue_assignee_not_visible" else op_ret tt
  end.

Definition assignee_json (assignee : option string) : string :=
  json_text [("assignee_user_id"%string, json_option_string assignee)].

(* src: crates/bos-app/src/slices/work_queue/store.rs:828-923 update_assignment *)
Definition update_assignment (ctx : ScopedMutationContext) (item_id : string) (action : WorkItemAssignActionKind)
    (requested_assignee_user_id : option string) : AppOp MutationOutcome.t :=
  let? current := require_visible_item ctx item_id in
  let? visible_user_ids := WorkStore.item_visible_user_ids_for_source (scoped_client_id ctx) item_id
                             (WorkItemRow.source_user_id current) in
  let? assignee := op_lift (next_assignee (scoped_scope ctx) action (WorkItemRow.assignee_user_id current)
                              requested_assignee_user_id) in
  check_assignee (scoped_client_id ctx) action visible_user_ids assignee ;;?
  mutate constraint_failed
    (item_request ctx item_id "assign" (assignee_json (WorkItemRow.assignee_user_id current))
       (assignee_json assignee))
    (update_item (scoped_client_id ctx) item_id
       (fun row => WorkItemRow.set_assignee row assignee (u64_as_i64 (scoped_now_ms ctx)))).

(* src: crates/bos-app/src/slices/work_queue/store.rs:925-933 AgentLaunchRequestContext *)
Record AgentLaunchRequestContext := {
  launch_client_id : string;
  launch_item_id : string;
  launch_actor_id : string;
  launch_operator_context : string;
  launch_job : NewOutboxJob.t;
  launch_idempotency_key : string;
  launch_now_ms : N;
}.

(* src: crates/bos-app/src/slices/work_queue/store.rs:935-966 record_agent_launch_request *)
Definition record_agent_launch_request (ctx : AgentLaunchRequestContext) : AppOp MutationOutcome.t :=
  mutate constraint_failed {|
    MutationRequest.client_id := launch_client_id ctx;
    MutationRequest.entity_kind := WorkStore.AGENT_LAUNCH_ENTITY_KIND;
    MutationRequest.entity_id := launch_item_id ctx;
    MutationRequest.change_kind := "launch_agent";
    MutationRequest.actor_id := launch_actor_id ctx;
    MutationRequest.actor_kind := Operator;
    MutationRequest.expected_revision := None;
    MutationRequest.idempotency_key := launch_idempotency_key ctx;
    MutationRequest.correlation_id := Some (launch_item_id ctx);
    MutationRequest.causation_id := None;
    MutationRequest.before_json := None;
    MutationRequest.after_json := Some (json_text
      [("item_id"%string, JString (launch_item_id ctx));
       ("context_chars"%string, JNumber (str_chars (launch_operator_context ctx)));
       ("outbox_job_id"%string, JString (NewOutboxJob.job_id (launch_job ctx)))]);
    MutationRequest.now_ms := launch_now_ms ctx;
  |} (Outbox.enqueue_within constraint_failed (launch_client_id ctx) (launch_job ctx) (launch_now_ms ctx)).

(** ** Policies *)

(* src: crates/bos-app/src/slices/work_queue/store.rs:1044-1071 policy_from_parts *)
Definition policy_from_parts (category_id : string) (create_work_item : bool) (packet_kinds_json : string)
    (auto_produce : bool) (ai_kinds_json gmail_scope gmail_categories_json : string) : Policy.t :=
  let scope := if string_eqb gmail_scope "all" then GmailAll
               else if string_eqb gmail_scope "selected" then GmailSelected else GmailDefault in {|
  Policy.category_id := category_id;
  Policy.create_work_item := create_work_item;
  Policy.packet_kinds := default [] (parse_strings packet_kinds_json);
  Policy.ai_suggestible_packet_kinds := default [] (parse_strings ai_kinds_json);
  Policy.ai_suggestible_gmail_scope := scope;
  Policy.ai_suggestible_gmail_categories := default [] (parse_categories gmail_categories_json);
  Policy.auto_produce := auto_produce;
|}.

Definition policy_of_row (row : PolicyRow.t) : Policy.t :=
  policy_from_parts (PolicyRow.category_id row) (PolicyRow.create_work_item row) (PolicyRow.packet_kinds_json row)
    (PolicyRow.auto_produce row) (PolicyRow.ai_suggestible_packet_kinds_json row)
    (PolicyRow.ai_suggestible_gmail_scope row) (PolicyRow.ai_suggestible_gmail_categories_json row).

(* src: crates/bos-app/src/slices/work_queue/store.rs:968-995 list_policies *)
Definition list_policies (client_id : string) : AppOp (list Policy.t) :=
  read_tables (fun t => policy_of_row <$> sort_by_key PolicyRow.category_id
    (filter (fun row => string_eqb (PolicyRow.client_id row) client_id) (values (work_queue_policies t)))).

(* src: crates/bos-app/src/slices/work_queue/store.rs:997-1042 policy_for_category *)
Definition policy_for_category (client_id category_id : string) : AppOp (option Policy.t) :=
  read_tables (fun t => policy_of_row <$> work_queue_policies t !! (client_id, category_id)).

(** The sentinel is not a kind of the catalog. *)
(* src: crates/bos-app/src/slices/work_queue/store.rs:1089-1099 sanitize_policy (suggestible kinds) *)
Definition suggestible_kinds (kinds : list string) : list string :=
  filter (fun kind => negb (string_eqb kind AI_SUGGEST_ALL_SENTINEL)) kinds.

(** The Gmail scope of a policy that suggests kinds. *)
(* src: crates/bos-app/src/slices/work_queue/store.rs:1108-1132 sanitize_policy (gmail scope) *)
Definition sanitize_gmail (p : Policy.t) : Result StoreError.t Policy.t :=
  match Policy.ai_suggestible_packet_kinds p with
  | [] => Ok (Policy.set_gmail p GmailDefault [])
  | _ =>
    if string_eqb (Policy.category_id p) FALLBACK_CATEGORY_ID then
      match Policy.ai_suggestible_gmail_scope p with
      | GmailDefault => Ok (Policy.set_gmail p GmailDefault [Primary; Updates])
      | GmailAll => Ok (Policy.set_gmail p GmailAll [])
      | GmailSelected =>
        match Policy.ai_suggestible_gmail_categories p with
        | [] => Err (StoreError.Domain "work_queue_ai_gmail_scope_selected_empty")
        | _ => Ok p
        end
      end
    else Ok p
  end.

(* src: crates/bos-app/src/slices/work_queue/store.rs:1073-1148 sanitize_policy *)
Definition sanitize_policy (policy : Policy.t) : Result StoreError.t Policy.t :=
  guard_err (is_blank (Policy.category_id policy)) (StoreError.Domain "work_queue_category_required") ;;
  require_known_kinds (Policy.packet_kinds policy) ;;
  guard_err (existsb (string_eqb AI_SUGGEST_ALL_SENTINEL) (Policy.ai_suggestible_packet_kinds policy)
             && negb (len (Policy.ai_suggestible_packet_kinds policy) =? 1)%N)
    (StoreError.Domain "work_queue_ai_suggest_all_exclusive") ;;
  require_known_kinds (suggestible_kinds (Policy.ai_suggestible_packet_kinds policy)) ;;
  sanitized ← sanitize_gmail (if negb (Policy.create_work_item policy) then Policy.quiet policy else policy);
  guard_err (negb (string_eqb (Policy.category_id sanitized) FALLBACK_CATEGORY_ID)
             && (negb (bool_decide (Policy.ai_suggestible_gmail_scope sanitized = GmailDefault))
                 || negb (len (Policy.ai_suggestible_gmail_categories sanitized) =? 0)%N))
    (StoreError.Domain "work_queue_ai_gmail_scope_fallback_only") ;;
  Ok sanitized.

Definition gmail_scope_str (scope : WorkQueueAiGmailScope) : string :=
  match scope with GmailDefault => "default" | GmailAll => "all" | GmailSelected => "selected" end.

(** [INSERT ... ON CONFLICT (client_id, category_id) DO UPDATE] of every column. *)
(* src: crates/bos-app/src/slices/work_queue/store.rs:1150-1196 write_policy_tx *)
Definition write_policy_tx (client_id : string) (policy : Policy.t) (now_ms : N) : AppOp unit :=
  update_tables (fun t => set_work_queue_policies t
    (<[(client_id, Policy.category_id policy) := {|
       PolicyRow.client_id := client_id;
       PolicyRow.category_id := Policy.category_id policy;
       PolicyRow.create_work_item := Policy.create_work_item policy;
       PolicyRow.packet_kinds_json := strings_json (Policy.packet_kinds policy);
       PolicyRow.auto_produce := Policy.auto_produce policy;
       PolicyRow.ai_suggestible_packet_kinds_json := strings_json (Policy.ai_suggestible_packet_kinds policy);
       PolicyRow.ai_suggestible_gmail_scope := gmail_scope_str (Policy.ai_suggestible_gmail_scope policy);
       PolicyRow.ai_suggestible_gmail_categories_json :=
         categories_json (Policy.ai_suggestible_gmail_categories policy);
       PolicyRow.updated_at_ms := u64_as_i64 now_ms;
     |}]> (work_queue_policies t))).

(* src: crates/bos-app/src/slices/work_queue/store.rs:1198-1230 upsert_policy *)
Definition upsert_policy (client_id actor_id : string) (policy : Policy.t) (idempotency_key : string) (now_ms : N)
    : AppOp MutationOutcome.t :=
  let? sanitized := op_lift (sanitize_policy policy) in
  mutate constraint_failed
    (system_request client_id WorkStore.POLICY_ENTITY_KIND (Policy.category_id sanitized) "upsert" actor_id Operator
       idempotency_key None (Some (policy_json sanitized)) now_ms)
    (write_policy_tx client_id sanitized now_ms).
End store.
End WorkQueue.
