(* ===== verification/WorkFeed.v ===== *)
(** * The feed of work items

    The query of the feed and a look at one item agree: the [WHERE] clause is the
    test on a loaded row, and the visibility rows fetched for all listed items at
    once are those fetched for each.

    A stored policy is canonical and is read back as it was stored; an item is
    assigned only to a live user who sees it. *)

From S2P Require Import Prelude RustStd StoreCore StoreCoreProps AppOutbox AppOutboxProps RustStr Identity Schema SliceCore Operators WorkItems WorkQueue WorkProps.
Import Spine WorkStore.

(** ** Visibility rows *)

Lemma push_rows_lookup m rows id :
  foldl push_row m rows !! id =
    match filter (fun r => r.1 = id) rows with
    | [] => m !! id
    | l => Some (foldl push_new (default [] (m !! id)) (snd <$> l))
    end.
Proof.
  revert m. induction rows as [|[i u] rows IH]; intros m; [done|]. rewrite filter_cons. cbn [foldl fst]. rewrite IH.
  unfold push_row. cbn [fst snd]. destruct (decide (i = id)) as [->|Hne].
  - rewrite lookup_insert_eq. by destruct (filter _ rows).
  - by rewrite lookup_insert_ne.
Qed.

Lemma visibility_rows_one client item id t :
  item id = true →
  filter (fun r => r.1 = id) (visibility_rows client item t) = visibility_rows client (string_eqb id) t.
Proof.
  intros Hid. unfold visibility_rows. rewrite sort_by_key_filter. f_equal.
  rewrite list_filter_fmap. f_equal. rewrite list_filter_filter. apply list_filter_iff.
  intros [[[c i] u] z]. simpl. rewrite !andb_True. rewrite !Is_true_true, !string_eqb_true.
  split; [intros (-> & ? & ?); done|]. by intros [? <-].
Qed.

Lemma visibility_by_item_spec client items t id :
  existsb (fun i => string_eqb (WorkItem.item_id i) id) items = true →
  visibility_by_item_ids client items t !! id =
    match foldl push_new [] (snd <$> visibility_rows client (string_eqb id) t) with
    | [] => None
    | user_ids => Some user_ids
    end.
Proof.
  intros Hid. unfold visibility_by_item_ids. rewrite push_rows_lookup, (visibility_rows_one client _ id t Hid).
  rewrite lookup_empty. simpl. destruct (visibility_rows _ _ _) as [|r rows]; [done|].
  assert (Hne : foldl push_new [] (snd <$> r :: rows) ≠ []).
  { destruct (push_all_spec [] (snd <$> r :: rows)) as (added & Heq & _ & Hin). rewrite Heq. intros Hnil.
    rewrite Hnil in Hin. assert (Hr : r.2 ∈ []); [|by apply not_elem_of_nil in Hr]. apply Hin. right. by left. }
  by destruct (foldl _ _ _).
Qed.

(** The listed rows. *)
Lemma elem_of_listed client status scope t row :
  row ∈ sort_by_key feed_order
    (filter (fun row => string_eqb (WorkItemRow.client_id row) client
                        && map_or_true (fun st => string_eqb (WorkItemRow.status row) (status_str st)) status
                        && visibility_sql_filter scope t row) (values (work_items t))) ↔
  (∃ k, work_items t !! k = Some row) ∧ WorkItemRow.client_id row = client ∧
  map_or_true (fun st => string_eqb (WorkItemRow.status row) (status_str st)) status = true ∧
  visibility_sql_filter scope t row = true.
Proof.
  rewrite elem_of_sort_by_key, list_elem_of_filter, elem_of_values, !Is_true_true, !andb_true_iff, string_eqb_true. tauto.
Qed.

Lemma sql_limit_subset {A} limit (l : list A) x : x ∈ sql_limit limit l → x ∈ l.
Proof.
  unfold sql_limit. case_match; [done|]. rewrite truncate_take.
  intros Hx. rewrite <- (take_drop (N.to_nat limit) l). apply elem_of_app. by left.
Qed.

Lemma sql_limit_sorted {A K} `{Ord K} (f : A → K) limit l :
  StronglySorted (key_le f) l → StronglySorted (key_le f) (sql_limit limit l).
Proof.
  unfold sql_limit. case_match; [done|]. rewrite truncate_take. intros Hs.
  rewrite <- (take_drop (N.to_nat limit) l) in Hs. by apply StronglySorted_app_1_l in Hs.
Qed.

(** A limit that is none or not reached cuts nothing. *)
Lemma sql_limit_all {A} limit (l : list A) x :
  (u64_as_i64 limit < 0 ∨ Z.of_N (len (sql_limit limit l)) < u64_as_i64 limit)%Z → x ∈ l → x ∈ sql_limit limit l.
Proof.
  unfold sql_limit. destruct (Z.ltb_spec (u64_as_i64 limit) 0) as [|Hpos]; [done|].
  rewrite truncate_take. unfold u64_as_i64, len in *. destruct (N.leb_spec limit 9223372036854775807) as [Hle|Hle].
  - rewrite length_take. intros [?|Hlt] Hx; [lia|]. by rewrite take_ge by lia.
  - intros [?|Hlt] Hx; [lia|]. rewrite length_take in Hlt.
    destruct (decide (length l ≤ N.to_nat limit)%nat); [by rewrite take_ge by lia|]. lia.
Qed.

Section feed.
Context (strings_json : list string → string) (parse_strings : string → option (list string)).

(** Source users are stored as they were trimmed. *)
Definition sources_trimmed (t : SliceTables) : Prop :=
  ∀ k row u, work_items t !! k = Some row → WorkItemRow.source_user_id row = Some u → trim u = u.

(** A row as the feed and a look at the item show it. *)
Definition entry_of (client : string) (db : AppDb) (row : WorkItemRow.t) : WorkItemWithRevision.t :=
  let item := item_of_row parse_strings row in
  let visible := match foldl push_new [] (snd <$> visibility_rows client (string_eqb (WorkItemRow.item_id row)) (tables db)) with
    | [] => option_list (trimmed (WorkItem.source_user_id item))
    | user_ids => user_ids
    end in
  WorkItemWithRevision.mk (WorkItem.set_visible item visible) (item_revision db row).

Lemma get_unscoped_entry client id (db : AppDb) :
  items_wf strings_json (tables db) →
  get_item_unscoped parse_strings client id db =
    (Ok (entry_of client db <$> work_items (tables db) !! (client, id)), db).
Proof.
  intros Hwf. unfold get_item_unscoped. destruct (work_items (tables db) !! (client, id)) as [row|] eqn:Hrow; [|done].
  reflexivity.
Qed.

(** The [WHERE] clause is the test on the loaded item. *)
Lemma sql_filter_is_visible client db row scope item :
  WorkItemRow.client_id row = client → WorkItem.item_id item = WorkItemRow.item_id row →
  WorkItem.source_user_id item = WorkItemRow.source_user_id row →
  item_visible_to_scope client item scope db = (Ok (visibility_sql_filter scope (tables db) row), db).
Proof.
  intros <- Hid Hsrc. destruct scope as [|u]; [done|]. unfold item_visible_to_scope, visibility_sql_filter.
  rewrite Hid, Hsrc. simpl. case_bool_decide as Hu.
  - rewrite Hu. simpl. by rewrite string_eqb_refl.
  - unfold visibility_row_exists, read_tables. f_equal. f_equal.
    destruct (WorkItemRow.source_user_id row) as [v|]; simpl; [|done].
    destruct (string_eqb v u) eqn:Hv; [|done]. apply string_eqb_true in Hv. by subst v.
Qed.

Lemma get_scoped_entry client id scope (db : AppDb) :
  items_wf strings_json (tables db) →
  get_item_scoped parse_strings client id scope db =
    (Ok (row ← work_items (tables db) !! (client, id);
         if visibility_sql_filter scope (tables db) row then Some (entry_of client db row) else None), db).
Proof.
  intros Hwf. unfold get_item_scoped. erewrite op_bind_step; [|by apply get_unscoped_entry].
  destruct (work_items (tables db) !! (client, id)) as [row|] eqn:Hrow; [|done]. simpl.
  pose proof (items_keyed _ _ Hwf _ _ Hrow) as [= Hc Hi].
  erewrite op_bind_step; [|by apply (sql_filter_is_visible client db row)]. by destruct (visibility_sql_filter _ _ _).
Qed.

Lemma list_entries client status limit scope (db : AppDb) :
  items_wf strings_json (tables db) → sources_trimmed (tables db) →
  list_items parse_strings client status limit scope db =
    (Ok (entry_of client db <$> listed_rows client status limit scope (tables db)), db).
Proof.
  intros Hwf Htrim. unfold list_items. f_equal. f_equal. apply list_fmap_ext. intros n row Hn.
  assert (Hin : row ∈ listed_rows client status limit scope (tables db)) by by eapply list_elem_of_lookup_2.
  pose proof Hin as Hl. apply sql_limit_subset, elem_of_listed in Hl as ([k Hk] & Hc & _ & _).
  unfold entry_of. f_equal. f_equal.
  rewrite visibility_by_item_spec; simpl.
  - destruct (foldl _ _ _) eqn:Hf; [|done]. unfold trimmed.
    destruct (WorkItemRow.source_user_id row) as [u|] eqn:Hu; simpl; [|done].
    rewrite filter_cons. specialize (Htrim k row u Hk Hu). simpl.
    destruct (is_blank u); simpl; by rewrite ?Htrim.
  - apply existsb_exists. exists (item_of_row parse_strings row). split; [|by apply string_eqb_true].
    apply list_elem_of_In, list_elem_of_fmap. eauto.
Qed.

(** The item's status is the one asked for. *)
Definition with_status (status : option WorkItemStatus) (e : WorkItemWithRevision.t) : Prop :=
  ∀ st, status = Some st → WorkItem.status (WorkItemWithRevision.item e) = st.

Lemma status_text row st :
  row_ok strings_json row → string_eqb (WorkItemRow.status row) (status_str st) = true ↔
  status_from_str (WorkItemRow.status row) = st.
Proof.
  intros ([[-> _]|[[-> | ->] _]] & _); destruct st; split; try done; by vm_compute.
Qed.

Lemma entry_status client (db : AppDb) k row status :
  items_wf strings_json (tables db) → work_items (tables db) !! k = Some row →
  map_or_true (fun st => string_eqb (WorkItemRow.status row) (status_str st)) status = true ↔
  with_status status (entry_of client db row).
Proof.
  intros Hwf Hk. pose proof (items_ok _ _ Hwf _ _ Hk) as Hok. unfold with_status. destruct status as [st|]; simpl.
  - rewrite (status_text row st Hok). split; [by intros Hs ? [= <-]|]. intros H. by apply H.
  - split; [by intros _ ?|done].
Qed.

(** the feed shows exactly what the caller may look at.  Every entry of the
    feed is what looking up its item under the caller's scope gives, it has the
    status asked for, and newer items come first; when the limit is not reached
    (or is none), every item that a look-up under the scope gives is in the feed. *)
Theorem feed_agrees_with_get client status limit scope (db : AppDb) :
  items_wf strings_json (tables db) → sources_trimmed (tables db) →
  ∃ rows, list_items parse_strings client status limit scope db = (Ok (entry_of client db <$> rows), db) ∧
    StronglySorted (key_le feed_order) rows ∧
    (∀ e, e ∈ entry_of client db <$> rows → with_status status e ∧
       get_item_scoped parse_strings client (WorkItem.item_id (WorkItemWithRevision.item e)) scope db = (Ok (Some e), db)) ∧
    (u64_as_i64 limit < 0 ∨ Z.of_N (len rows) < u64_as_i64 limit → ∀ id e,
       get_item_scoped parse_strings client id scope db = (Ok (Some e), db) → with_status status e →
       e ∈ entry_of client db <$> rows)%Z.
Proof.
  intros Hwf Htrim. exists (listed_rows client status limit scope (tables db)).
  split; [by apply list_entries|]. split; [apply sql_limit_sorted, sort_by_key_sorted|]. split.
  - intros e (row & -> & Hrow)%list_elem_of_fmap.
    apply sql_limit_subset, elem_of_listed in Hrow as ([k Hk] & Hc & Hst & Hv).
    split; [by apply (entry_status client db k row status)|]. rewrite get_scoped_entry by done. simpl.
    pose proof (items_keyed _ _ Hwf _ _ Hk) as Hkey. unfold WorkItemRow.key in Hkey. rewrite Hc in Hkey. subst k.
    rewrite Hk. simpl. by rewrite Hv.
  - intros Hlim id e He Hst. rewrite get_scoped_entry in He by done. injection He as He.
    destruct (work_items (tables db) !! (client, id)) as [row|] eqn:Hrow; [|done]. simpl in He.
    destruct (visibility_sql_filter scope (tables db) row) eqn:Hv; [|done]. injection He as <-.
    apply list_elem_of_fmap_2. apply sql_limit_all; [exact Hlim|]. apply elem_of_listed. split_and!; eauto.
    + by pose proof (items_keyed _ _ Hwf _ _ Hrow) as [= Hc _].
    + by apply (entry_status client db (client, id) row status).
Qed.
End feed.

(** ** Inputs that meet the hypotheses *)

Lemma feed_agrees_with_get_witness :
  items_wf demo_strings (tables demo_queue) ∧
  ∃ rows, list_items demo_parse "acme" (Some Open) 10 (OperatorScope.User "user_ada") demo_queue
    = (Ok (entry_of demo_parse "acme" demo_queue <$> rows), demo_queue).
Proof.
  split; [apply demo_queue_wf|].
  destruct (feed_agrees_with_get demo_strings demo_parse "acme" (Some Open) 10 (OperatorScope.User "user_ada") demo_queue)
    as (rows & Hrows & _).
  - apply demo_queue_wf.
  - intros k row u Hk Hu. apply (elem_of_map_to_list (work_items (tables demo_queue))) in Hk.
    assert (Hl : map_to_list (work_items (tables demo_queue))
      = [(("acme", "wi_1")%string, WorkQueue.row_of_item demo_strings "acme" demo_item)]) by (vm_compute; reflexivity).
    rewrite Hl in Hk. apply list_elem_of_singleton in Hk as [= _ ->]. by injection Hu as <-.
  - exists rows. exact Hrows.
Defined.

(** * Policies and assignments of the work queue *)

Import Spine WorkStore WorkQueue.

(** ** Sanitizing *)

Lemma sanitize_gmail_canonical p s :
  sanitize_gmail p = Ok s →
  Policy.category_id s = Policy.category_id p ∧ Policy.packet_kinds s = Policy.packet_kinds p ∧
  Policy.ai_suggestible_packet_kinds s = Policy.ai_suggestible_packet_kinds p ∧
  Policy.create_work_item s = Policy.create_work_item p ∧ Policy.auto_produce s = Policy.auto_produce p ∧
  sanitize_gmail s = Ok s.
Proof.
  unfold sanitize_gmail. destruct p as [c w pk ak gs gc au]. simpl.
  destruct ak as [|k ak]; [by intros [= <-]|]. destruct (string_eqb c FALLBACK_CATEGORY_ID) eqn:Hc.
  - destruct gs; [by intros [= <-]; simpl; rewrite Hc|by intros [= <-]; simpl; rewrite Hc|].
    destruct gc as [|g gc]; [done|]. intros [= <-]. simpl. by rewrite Hc.
  - intros [= <-]. simpl. by rewrite Hc.
Qed.

Lemma sanitize_idem p s : sanitize_policy p = Ok s → sanitize_policy s = Ok s ∧ Policy.category_id s = Policy.category_id p.
Proof.
  unfold sanitize_policy, guard_err. destruct (is_blank (Policy.category_id p)) eqn:Hb; [done|].
  destruct (require_known_kinds (Policy.packet_kinds p)) as [[]|] eqn:Hk; [|done]. simpl.
  destruct (existsb _ _ && _) eqn:Hx; [done|]. simpl.
  destruct (require_known_kinds (suggestible_kinds _)) as [[]|] eqn:Hak; [|done]. simpl.
  set (q := if negb (Policy.create_work_item p) then Policy.quiet p else p).
  assert (Hq : Policy.category_id q = Policy.category_id p ∧ require_known_kinds (Policy.packet_kinds q) = Ok tt ∧
    existsb (string_eqb AI_SUGGEST_ALL_SENTINEL) (Policy.ai_suggestible_packet_kinds q)
      && negb (len (Policy.ai_suggestible_packet_kinds q) =? 1)%N = false ∧
    require_known_kinds (suggestible_kinds (Policy.ai_suggestible_packet_kinds q)) = Ok tt ∧
    (if negb (Policy.create_work_item q) then Policy.quiet q else q) = q).
  { unfold q. destruct (Policy.create_work_item p) eqn:Hw; simpl; [by rewrite Hw|]. by rewrite Hw. }
  destruct Hq as (Hc & Hqk & Hqx & Hqa & Hqq).
  destruct (sanitize_gmail q) as [r|] eqn:Hg; [|done]. simpl. destruct (negb _ && _) eqn:Hlast; [done|].
  intros [= <-]. destruct (sanitize_gmail_canonical q r Hg) as (H1 & H2 & H3 & H4 & H5 & H6).
  split; [|congruence]. rewrite H1, H2, H3, H4, Hc, Hb, Hqk. simpl. rewrite Hqx. simpl. rewrite Hqa. simpl.
  assert (Hr : (if negb (Policy.create_work_item q) then Policy.quiet r else r) = r).
  { destruct (Policy.create_work_item q) eqn:Hw; [done|]. simpl in *. rewrite <- Hqq in Hg. by injection Hg as <-. }
  rewrite Hr, H6. simpl. by rewrite Hlast.
Qed.

(** A policy that sanitizing leaves as it is. *)
Definition canonical (policy : Policy.t) : Prop := sanitize_policy policy = Ok policy.

(** The user is live, and the item is theirs or shown to them. *)
Definition can_work_on (t : SliceTables) (user : string) (k : string * string) (row : WorkItemRow.t) : Prop :=
  (∃ u, operator_users t !! (k.1, user) = Some u ∧ UserStore.live k.1 u = true) ∧
  (sees t user k row ∨ trimmed (WorkItemRow.source_user_id row) = Some user).

Section rules.
Context (constraint_failed : string) (json_text : list (string * JsonValue) → string)
  (strings_json : list string → string) (parse_strings : string → option (list string))
  (policy_json : Policy.t → string)
  (categories_json : list EmailTriageGmailCategory → string)
  (parse_categories : string → option (list EmailTriageGmailCategory)).

(** a stored policy is canonical and read back as it was stored.  When an
    update of a policy is applied, the category's policy is from then the sanitized
    one, sanitizing it again changes nothing, and no other policy has changed. *)
Theorem stored_policy_roundtrip client actor policy key now (db db' : AppDb) id revision :
  (∀ l, parse_strings (strings_json l) = Some l) → (∀ l, parse_categories (categories_json l) = Some l) →
  spine_wf db →
  upsert_policy constraint_failed strings_json policy_json categories_json client actor policy key now db
    = (Ok (MutationOutcome.Applied id revision), db') →
  ∃ stored, sanitize_policy policy = Ok stored ∧ canonical stored ∧
    policy_for_category parse_strings parse_categories client (Policy.category_id policy) db' = (Ok (Some stored), db') ∧
    ∀ k, k ≠ (client, Policy.category_id policy) → work_queue_policies (tables db') !! k = work_queue_policies (tables db) !! k.
Proof.
  intros Hps Hpc Hwf. unfold upsert_policy. destruct (sanitize_policy policy) as [s|e] eqn:Hs; [|done].
  destruct (sanitize_idem policy s Hs) as [Hidem Hc]. intros (s' & db1 & [= <- <-] & Hm)%op_bind_ok.
  apply mutate_applied in Hm as (_ & _ & db1 & [= <-] & Hd);
    [|done|by apply slice_write_spares_receipts, slice_write_update].
  exists s. split; [done|]. split; [done|]. unfold policy_for_category, read_tables.
  assert (Ht : tables db' = tables (set_tables db (set_work_queue_policies (tables db) _))) by exact (f_equal others Hd).
  rewrite Ht, tables_set. simpl. rewrite Hc. split; [|intros k Hk; by rewrite lookup_insert_ne by congruence].
  rewrite lookup_insert_eq. simpl. unfold policy_of_row, policy_from_parts. simpl.
  rewrite !Hps, Hpc. destruct s as [c w pk ak gs gc au]. simpl in *. rewrite <- Hc. by destruct gs.
Qed.

(** ** Assignments *)

Lemma visible_ids_sees client item source_user t user :
  user ∈ match foldl push_new [] (snd <$> visibility_rows client (string_eqb item) t) with
         | [] => option_list (trimmed source_user) | ids => ids end →
  is_Some (work_item_visibility t !! (client, item, user)) ∨ trimmed source_user = Some user.
Proof.
  destruct (push_all_spec [] (snd <$> visibility_rows client (string_eqb item) t)) as (added & Heq & _ & Hin).
  rewrite Heq. simpl in *. destruct added as [|a added].
  - destruct (trimmed source_user) as [u|]; simpl; [|by intros ?%not_elem_of_nil].
    intros ->%list_elem_of_singleton. by right.
  - intros Hu. apply Hin in Hu as [?%not_elem_of_nil|Hu]; [done|]. left.
    apply list_elem_of_fmap in Hu as ([i u] & -> & Hrow). unfold visibility_rows in Hrow.
    apply elem_of_sort_by_key, list_elem_of_fmap in Hrow as ([[[c i'] u'] z] & [= -> ->] & Hrow).
    apply list_elem_of_filter in Hrow as [Hf Hrow]. apply elem_of_map_to_list in Hrow. simpl in *.
    apply Is_true_true, andb_true_iff in Hf as [->%string_eqb_true ->%string_eqb_true]. eauto.
Qed.

Lemma active_user_ok client user (db db' : AppDb) u :
  require_active_operator_user client user db = (Ok u, db') →
  db' = db ∧ ∃ r, operator_users (tables db) !! (client, user) = Some r ∧ UserStore.live client r = true.
Proof.
  intros (b & db1 & [= <- <-] & Hr)%op_bind_ok. unfold op_lift in Hr.
  destruct (operator_users (tables db) !! (client, user)) as [r|]; [|done]. simpl in Hr.
  destruct (UserStore.live client r) eqn:Hl; [|done]. injection Hr as <- <-. eauto.
Qed.

Lemma check_assignee_ok client action visible assignee (db db' : AppDb) u :
  check_assignee client action visible assignee db = (Ok u, db') →
  db' = db ∧ ∀ a, assignee = Some a →
    (∃ r, operator_users (tables db) !! (client, a) = Some r ∧ UserStore.live client r = true) ∧
    (action = AssignToUser → a ∈ visible).
Proof.
  unfold check_assignee. destruct assignee as [a|]; [|by intros [= _ <-]].
  intros ([] & db1 & [-> Hlive]%active_user_ok & Hc)%op_bind_ok. revert Hc. cbv zeta.
  destruct (negb _) eqn:Hn; [done|]. intros [= _ <-]. split; [done|]. intros b [= <-]. split; [done|].
  intros ->. apply negb_false_iff, existsb_exists in Hn as (x & Hx & ->%string_eqb_true). by apply list_elem_of_In.
Qed.

(** an item is assigned only to somebody who can work on it.  When an
    assignment is applied, exactly the item's assignee and time of change are set;
    the assignee, if any, is a live user and the item is theirs or shown to them,
    whoever assigned it. *)
Theorem assignment_spec ctx user item action requested (db db' : AppDb) id revision :
  spine_wf db → scoped_scope ctx = OperatorScope.User user →
  update_assignment constraint_failed json_text ctx item action requested db
    = (Ok (MutationOutcome.Applied id revision), db') →
  let k := (scoped_client_id ctx, item) in
  ∃ row assignee, work_items (tables db) !! k = Some row ∧
    work_items (tables db') = <[k := WorkItemRow.set_assignee row assignee (u64_as_i64 (scoped_now_ms ctx))]>
                                (work_items (tables db)) ∧
    ∀ a, assignee = Some a → can_work_on (tables db) a k row.
Proof.
  intros Hwf Hscope (row & db0 & Hv & Hm)%op_bind_ok k.
  apply (require_visible_ok ctx user) in Hv as (-> & Hrow & Hsees); [|done].
  apply op_bind_ok in Hm as (visible & db1 & [= Hvis <-] & Hm).
  apply op_bind_ok in Hm as (assignee & db1 & [= Hnext <-] & Hm).
  apply op_bind_ok in Hm as ([] & db1 & Hcheck & Hm). apply check_assignee_ok in Hcheck as [-> Hok].
  exists row, assignee. split; [done|].
  apply mutate_applied in Hm as (_ & _ & db1 & [= <-] & Hd);
    [|done|by apply slice_write_spares_receipts, slice_write_update].
  assert (Ht : tables db' = tables (set_tables db (set_work_items (tables db) _))) by exact (f_equal others Hd).
  split; [rewrite Ht, tables_set; simpl; by rewrite alter_lookup, Hrow|].
  intros a ->. destruct (Hok a eq_refl) as [Hlive Hin]. split; [exact Hlive|].
  destruct action; simpl in Hnext.
  - rewrite Hscope in Hnext. injection Hnext as ->. by left.
  - specialize (Hin eq_refl). rewrite <- Hvis in Hin. apply visible_ids_sees in Hin as [Hrows|Hsrc]; [left; by right|by right].
  - rewrite Hscope in Hnext. by case_bool_decide.
Qed.
End rules.

(** ** Inputs that meet the hypotheses *)

Definition category_mark (c : EmailTriageGmailCategory) : ascii :=
  match c with Primary => "p" | Updates => "u" | Social => "s" | Promotions => "o" | Forums => "f" end.
Definition mark_category (a : ascii) : option EmailTriageGmailCategory :=
  if Ascii.eqb a "p" then Some Primary else if Ascii.eqb a "u" then Some Updates
  else if Ascii.eqb a "s" then Some Social else if Ascii.eqb a "o" then Some Promotions
  else if Ascii.eqb a "f" then Some Forums else None.
Fixpoint demo_categories (l : list EmailTriageGmailCategory) : string :=
  match l with [] => EmptyString | c :: l => String (category_mark c) (demo_categories l) end.
Fixpoint demo_parse_categories (s : string) : option (list EmailTriageGmailCategory) :=
  match s with
  | EmptyString => Some []
  | String a s => c ← mark_category a; cons c <$> demo_parse_categories s
  end.

Lemma demo_categories_parse l : demo_parse_categories (demo_categories l) = Some l.
Proof. induction l as [|c l IH]; [done|]. simpl. rewrite IH. by destruct c. Qed.

Definition demo_policy : Policy.t := Policy.mk "inbound_email" true ["follow_up_task"%string] ["*"%string] GmailDefault [] false.

Lemma stored_policy_roundtrip_witness :
  let out := upsert_policy "UNIQUE" demo_strings demo_policy_json demo_categories "acme" "operator" demo_policy "k" 5
               demo_queue in
  out.1 = Ok (MutationOutcome.Applied "rcpt_000000000002" 1) ∧
  ∃ stored, sanitize_policy demo_policy = Ok stored ∧
    policy_for_category demo_parse demo_parse_categories "acme" "inbound_email" out.2 = (Ok (Some stored), out.2).
Proof.
  intros out. assert (H1 : out.1 = Ok (MutationOutcome.Applied "rcpt_000000000002" 1)) by (vm_compute; reflexivity).
  split; [exact H1|].
  destruct (stored_policy_roundtrip "UNIQUE" demo_strings demo_parse demo_policy_json demo_categories
    demo_parse_categories "acme" "operator" demo_policy "k" 5 demo_queue out.2 "rcpt_000000000002" 1)
    as (stored & Hs & _ & Hp & _).
  - exact demo_parses.
  - exact demo_categories_parse.
  - apply demo_queue_wf.
  - rewrite <- H1. apply surjective_pairing.
  - exists stored. split; [exact Hs|exact Hp].
Defined.

(** Ada, a live user, takes her own item. *)
Definition demo_ada : OperatorUserRow.t := OperatorUserRow.mk "acme" "user_ada" "Ada" "tok" true 1 1 None None.
Definition demo_staffed : AppDb :=
  set_tables demo_queue (set_operator_users (tables demo_queue) {[("acme", "user_ada")%string := demo_ada]}).

Lemma assignment_spec_witness :
  let out := update_assignment "UNIQUE" demo_object (demo_ctx "user_ada" "assign-1") "wi_1" AssignToMe None demo_staffed in
  out.1 = Ok (MutationOutcome.Applied "rcpt_000000000002" 2) ∧
  ∃ row assignee, work_items (tables out.2) !! ("acme", "wi_1")%string = Some (WorkItemRow.set_assignee row assignee 200).
Proof.
  intros out. assert (H1 : out.1 = Ok (MutationOutcome.Applied "rcpt_000000000002" 2)) by (vm_compute; reflexivity).
  split; [exact H1|].
  destruct (assignment_spec "UNIQUE" demo_object (demo_ctx "user_ada" "assign-1") "user_ada" "wi_1" AssignToMe None
    demo_staffed out.2 "rcpt_000000000002" 2) as (row & assignee & _ & Hw & _).
  - apply (spine_wf_same demo_queue); [reflexivity|apply demo_queue_wf].
  - reflexivity.
  - rewrite <- H1. apply surjective_pairing.
  - exists row, assignee. rewrite Hw. apply lookup_insert_eq.
Defined.
