(* ===== verification/Calendar.v ===== *)
(** * Civil dates

    The proleptic Gregorian calendar as days since 1970-01-01.  The program
    carries the same algorithm five times, written differently; each copy is a
    Module here, with the texts its slice builds from dates.  [Calendar] is the copy
    of [bos-app/src/slices/datetime_input.rs].

    Years and days are [i64] and stay far from its bounds: callers parse at most
    four digits or divide a [u64] of milliseconds; the one product that can overflow
    is in Ingress.v.  Rust's [/] truncates ([Z.quot]), [div_euclid] and [rem_euclid]
    by a positive number are [Z.div] and [Z.modulo]. *)

From S2P Require Import Prelude RustStd RustStr Schema.

(** [date.get(a..b)] of a text whose bytes at the borders are ASCII. *)
Definition slice_str (a b : nat) (s : string) : string := String.substring a (b - a) s.

Definition byte_at (i : nat) (s : string) : option ascii := String.get i s.
Definition has_byte (i : nat) (c : ascii) (s : string) : bool := bool_decide (byte_at i s = Some c).

(** [i64] arithmetic of a release build. *)
Definition wrap_i64 (v : Z) : Z := ((v + 9223372036854775808) mod 18446744073709551616 - 9223372036854775808)%Z.

Lemma wrap_small v : (-9223372036854775808 ≤ v < 9223372036854775808)%Z → wrap_i64 v = v.
Proof. intros Hv. unfold wrap_i64. rewrite Z.mod_small; lia. Qed.

(** [as u32] of an [i64]. *)
Definition i64_to_u32 (v : Z) : Z := (v mod 4294967296)%Z.

(** [{:0w}] of an integer: the sign counts, zeros come after it. *)
Definition fmt_pad (w : nat) (v : Z) : string :=
  let digits := fmt_dec (Z.to_N (Z.abs v)) in
  if (v <? 0)%Z then "-" +:+ zeros (w - 1 - String.length digits) digits
  else zeros (w - String.length digits) digits.

(** [format!("{year:04}-{month:02}-{day:02}")]. *)
Definition fmt_ymd (year month day : Z) : string :=
  fmt_pad 4 year +:+ "-" +:+ fmt_pad 2 month +:+ "-" +:+ fmt_pad 2 day.

(** [i64::from_str], [u32::from_str], [i32::from_str]: a sign the type has, digits, no overflow. *)
Definition parse_digits (s : string) : option Z :=
  match s with
  | EmptyString => None
  | _ => d ← DecimalString.NilEmpty.uint_of_string s; Some (Z.of_N (N.of_uint d))
  end.
Definition in_range (lo hi : Z) (v : Z) : option Z := if ((lo <=? v) && (v <=? hi))%Z then Some v else None.
Definition parse_int (lo hi : Z) (s : string) : option Z :=
  match s with
  | String "+" s => n ← parse_digits s; in_range lo hi n
  | String "-" s' => if (lo <? 0)%Z then n ← parse_digits s'; in_range lo hi (- n) else None
  | _ => n ← parse_digits s; in_range lo hi n
  end.
Definition parse_i64 : string → option Z := parse_int (-9223372036854775808) 9223372036854775807.
Definition parse_i32 : string → option Z := parse_int (-2147483648) 2147483647.
Definition parse_u32 : string → option Z := parse_int 0 4294967295.

Local Open Scope Z_scope.

(** [{}] of a signed number. *)
Definition fmt_int (v : Z) : string :=
  if (v <? 0)%Z then "-" +:+ fmt_dec (Z.to_N (- v)) else fmt_dec (Z.to_N v).

Module Calendar.
(* src: crates/bos-app/src/slices/datetime_input.rs:422-424 is_leap_year *)
Definition is_leap_year (year : Z) : bool :=
  ((Z.rem year 4 =? 0) && negb (Z.rem year 100 =? 0)) || (Z.rem year 400 =? 0).

(* src: crates/bos-app/src/slices/datetime_input.rs:412-420 days_in_month *)
Definition days_in_month (year month : Z) : Z :=
  if existsb (Z.eqb month) [1; 3; 5; 7; 8; 10; 12] then 31
  else if existsb (Z.eqb month) [4; 6; 9; 11] then 30
  else if (month =? 2) && is_leap_year year then 29
  else if month =? 2 then 28
  else 0.

(* src: crates/bos-app/src/slices/datetime_input.rs:480-493 days_from_civil *)
Definition days_from_civil (year month day : Z) : Z :=
  let shifted_year := if month <=? 2 then year - 1 else year in
  let era := Z.quot (if 0 <=? shifted_year then shifted_year else shifted_year - 399) 400 in
  let year_of_era := shifted_year - era * 400 in
  let day_of_year := Z.quot (153 * Z.rem (month + 9) 12 + 2) 5 + day - 1 in
  let day_of_era := year_of_era * 365 + Z.quot year_of_era 4 - Z.quot year_of_era 100 + day_of_year in
  era * 146097 + day_of_era - 719468.

(* src: crates/bos-app/src/slices/datetime_input.rs:495-507 civil_from_days *)
Definition civil_from_days (days : Z) : Z * Z * Z :=
  let z := days + 719468 in
  let era := z / 146097 in
  let doe := z mod 146097 in
  let yoe := Z.quot (doe - Z.quot doe 1460 + Z.quot doe 36524 - Z.quot doe 146096) 365 in
  let year := yoe + era * 400 in
  let doy := doe - (365 * yoe + Z.quot yoe 4 - Z.quot yoe 100) in
  let mp := Z.quot (5 * doy + 2) 153 in
  let day := doy - Z.quot (153 * mp + 2) 5 + 1 in
  let month := if mp <? 10 then mp + 3 else mp - 9 in
  let year := if month <=? 2 then year + 1 else year in
  (year, i64_to_u32 month, i64_to_u32 day).

(* src: crates/bos-app/src/slices/datetime_input.rs:472-474 weekday_for_days *)
Definition weekday_for_days (days : Z) : Z := i64_to_u32 ((days + 3) mod 7).

(* src: crates/bos-app/src/slices/datetime_input.rs:179-190 epoch_ms_to_rfc3339_utc *)
Definition epoch_ms_to_rfc3339_utc (epoch_ms : N) : string :=
  let secs := u64_as_i64 (epoch_ms / 1000) in
  let days := secs / 86400 in
  let secs_of_day := secs mod 86400 in
  let hour := Z.quot secs_of_day 3600 in
  let minute := Z.quot (Z.rem secs_of_day 3600) 60 in
  let second := Z.rem secs_of_day 60 in
  let '(year, month, day) := civil_from_days days in
  fmt_ymd year month day +:+ "T" +:+ fmt_pad 2 hour +:+ ":" +:+ fmt_pad 2 minute +:+ ":" +:+ fmt_pad 2 second +:+ "Z".

(* src: crates/bos-app/src/slices/datetime_input.rs:192-194 epoch_ms_to_utc_date *)
Definition epoch_ms_to_utc_date (epoch_ms : N) : string := take_chars 10 (epoch_ms_to_rfc3339_utc epoch_ms).
End Calendar.

(** [parse_date_days] of three slices: the first ten bytes of a text as a date.
    They do not ask whether the month has the day. *)
Definition parse_leading_date (days_from_civil : Z → Z → Z → Z) (date : string) : option Z :=
  if (String.length date <? 10)%nat || negb (has_byte 4 "-" date) || negb (has_byte 7 "-" date) then None
  else
    year ← parse_i64 (slice_str 0 4 date);
    month ← parse_u32 (slice_str 5 7 date);
    day ← parse_u32 (slice_str 8 10 date);
    if ((1 <=? month) && (month <=? 12) && ((1 <=? day) && (day <=? 31))) then Some (days_from_civil year month day)
    else None.

(** ** [bos-app/src/slices/search_console/service.rs] *)

Module SearchConsoleDates.
(* src: crates/bos-app/src/slices/search_console/service.rs:257-265 days_from_civil *)
Definition days_from_civil (year month day : Z) : Z :=
  let year := year - (if month <=? 2 then 1 else 0) in
  let era := year / 400 in
  let yoe := year - era * 400 in
  let doy := Z.quot (153 * (month + (if 2 <? month then -3 else 9)) + 2) 5 + day - 1 in
  let doe := yoe * 365 + Z.quot yoe 4 - Z.quot yoe 100 + doy in
  era * 146097 + doe - 719468.

(* src: crates/bos-app/src/slices/search_console/service.rs:267-282 civil_from_days *)
Definition civil_from_days (days : Z) : Z * Z * Z :=
  let days := days + 719468 in
  let era := days / 146097 in
  let doe := days - era * 146097 in
  let yoe := (doe - Z.quot doe 1460 + Z.quot doe 36524 - Z.quot doe 146096) / 365 in
  let year := yoe + era * 400 in
  let day_of_year := doe - (365 * yoe + Z.quot yoe 4 - Z.quot yoe 100) in
  let month_shift := Z.quot (5 * day_of_year + 2) 153 in
  let day := i64_to_u32 (day_of_year - Z.quot (153 * month_shift + 2) 5 + 1) in
  let month := i64_to_u32 (if month_shift <? 10 then month_shift + 3 else month_shift - 9) in
  ((if month <=? 2 then year + 1 else year), month, day).

(* src: crates/bos-app/src/slices/search_console/service.rs:284-287 format_days *)
Definition format_days (days : Z) : string :=
  let '(year, month, day) := civil_from_days days in fmt_ymd year month day.

(* src: crates/bos-app/src/slices/search_console/service.rs:224-236 parse_date_days *)
Definition parse_date_days : string → option Z := parse_leading_date days_from_civil.

(* src: crates/bos-app/src/slices/search_console/service.rs:215-218 today_utc *)
Definition today_utc (now_ms : N) : string := format_days (Z.quot (u64_as_i64 now_ms) 86400000).

(* src: crates/bos-app/src/slices/search_console/service.rs:220-222 days_before *)
Definition days_before (date : string) (days : Z) : option string :=
  (fun d => format_days (d - days)) <$> parse_date_days date.

(* src: crates/bos-app/src/slices/search_console/service.rs:238-245 sync_window *)
Definition sync_window (today : string) (sync_days : N) : option (string * string) :=
  today_days ← parse_date_days today;
  let fin := today_days - 1 in
  let start := fin - Z.of_N (sync_days - 1) in
  Some (format_days start, format_days fin).

(* src: crates/bos-app/src/slices/search_console/service.rs:247-255 reporting_end_date *)
Definition reporting_end_date (today : string) (synced_end_date : option string) : string :=
  match parse_date_days today with
  | None => today
  | Some today_days =>
    match synced_end_date ≫= parse_date_days with
    | None => today
    | Some synced_end_days => format_days (Z.min synced_end_days today_days)
    end
  end.
End SearchConsoleDates.

(** ** [bos-app/src/slices/accounting/service.rs] *)

Module AccountingDates.
(* src: crates/bos-app/src/slices/accounting/service.rs:421-433 days_from_civil *)
Definition days_from_civil (year month day : Z) : Z :=
  let adjusted_year := if month <=? 2 then year - 1 else year in
  let era := Z.quot (if 0 <=? adjusted_year then adjusted_year else adjusted_year - 399) 400 in
  let year_of_era := adjusted_year - era * 400 in
  let month_shift := if 2 <? month then month - 3 else month + 9 in
  let day_of_year := Z.quot (153 * month_shift + 2) 5 + day - 1 in
  let day_of_era := year_of_era * 365 + Z.quot year_of_era 4 - Z.quot year_of_era 100 + day_of_year in
  era * 146097 + day_of_era - 719468.

(* src: crates/bos-app/src/slices/accounting/service.rs:436-456 civil_from_days *)
Definition civil_from_days (days : Z) : Z * Z * Z :=
  let shifted := days + 719468 in
  let era := Z.quot (if 0 <=? shifted then shifted else shifted - 146096) 146097 in
  let day_of_era := shifted - era * 146097 in
  let year_of_era :=
    Z.quot (day_of_era - Z.quot day_of_era 1460 + Z.quot day_of_era 36524 - Z.quot day_of_era 146096) 365 in
  let year := year_of_era + era * 400 in
  let day_of_year := day_of_era - (365 * year_of_era + Z.quot year_of_era 4 - Z.quot year_of_era 100) in
  let month_shift := Z.quot (5 * day_of_year + 2) 153 in
  let day := i64_to_u32 (day_of_year - Z.quot (153 * month_shift + 2) 5 + 1) in
  let month := i64_to_u32 (if month_shift <? 10 then month_shift + 3 else month_shift - 9) in
  ((if month <=? 2 then year + 1 else year), month, day).

(* src: crates/bos-app/src/slices/accounting/service.rs:459-471 parse_date_days *)
Definition parse_date_days : string → option Z := parse_leading_date days_from_civil.

(* src: crates/bos-app/src/slices/accounting/service.rs:674-677 format_days *)
Definition format_days (days : Z) : string :=
  let '(year, month, day) := civil_from_days days in fmt_ymd year month day.

(* src: crates/bos-app/src/slices/accounting/service.rs:413-418 today_string *)
Definition today_string (now_ms : N) : string :=
  let '(year, month, day) := civil_from_days (u64_as_i64 (now_ms / 86400000)) in fmt_ymd year month day.
End AccountingDates.

(** ** [bos-app/src/slices/inventory/service.rs] *)

Module InventoryDates.
(* src: crates/bos-app/src/slices/inventory/service.rs:236-248 days_from_civil *)
Definition days_from_civil (year month day : Z) : Z :=
  let adjusted_year := if month <=? 2 then year - 1 else year in
  let era := Z.quot (if 0 <=? adjusted_year then adjusted_year else adjusted_year - 399) 400 in
  let year_of_era := adjusted_year - era * 400 in
  let month_shift := if 2 <? month then month - 3 else month + 9 in
  let day_of_year := Z.quot (153 * month_shift + 2) 5 + day - 1 in
  let day_of_era := year_of_era * 365 + Z.quot year_of_era 4 - Z.quot year_of_era 100 + day_of_year in
  era * 146097 + day_of_era - 719468.

(* src: crates/bos-app/src/slices/inventory/service.rs:250-270 civil_from_days *)
Definition civil_from_days (days : Z) : Z * Z * Z :=
  let shifted := days + 719468 in
  let era := Z.quot (if 0 <=? shifted then shifted else shifted - 146096) 146097 in
  let day_of_era := shifted - era * 146097 in
  let year_of_era :=
    Z.quot (day_of_era - Z.quot day_of_era 1460 + Z.quot day_of_era 36524 - Z.quot day_of_era 146096) 365 in
  let year := year_of_era + era * 400 in
  let day_of_year := day_of_era - (365 * year_of_era + Z.quot year_of_era 4 - Z.quot year_of_era 100) in
  let month_shift := Z.quot (5 * day_of_year + 2) 153 in
  let day := i64_to_u32 (day_of_year - Z.quot (153 * month_shift + 2) 5 + 1) in
  let month := i64_to_u32 (if month_shift <? 10 then month_shift + 3 else month_shift - 9) in
  ((if month <=? 2 then year + 1 else year), month, day).

(* src: crates/bos-app/src/slices/inventory/service.rs:272-275 format_days *)
Definition format_days (days : Z) : string :=
  let '(year, month, day) := civil_from_days days in fmt_ymd year month day.

(* src: crates/bos-app/src/slices/inventory/service.rs:279-291 parse_date_days *)
Definition parse_date_days : string → option Z := parse_leading_date days_from_civil.

(* src: crates/bos-app/src/slices/inventory/service.rs:294-296 today_string *)
Definition today_string (now_ms : N) : string := format_days (u64_as_i64 (now_ms / 86400000)).
End InventoryDates.

(** ** [bos-integrations/src/hubspot.rs] *)

Module HubspotDates.
(* src: crates/bos-integrations/src/hubspot.rs:1803-1811 days_from_civil *)
Definition days_from_civil (year month day : Z) : Z :=
  let y := year - (if month <=? 2 then 1 else 0) in
  let era := Z.quot (if 0 <=? y then y else y - 399) 400 in
  let yoe := y - era * 400 in
  let mp := month + (if 2 <? month then -3 else 9) in
  let doy := Z.quot (153 * mp + 2) 5 + day - 1 in
  let doe := yoe * 365 + Z.quot yoe 4 - Z.quot yoe 100 + doy in
  era * 146097 + doe - 719468.

(** The caller passes ten bytes: a year of at most six digits. *)
(* src: crates/bos-integrations/src/hubspot.rs:1790-1800 yyyy_mm_dd_to_epoch_ms *)
Definition yyyy_mm_dd_to_epoch_ms (raw : string) : option Z :=
  match split_on "-" raw with
  | [year; month; day] =>
    year ← parse_i64 year;
    month ← parse_i64 month;
    day ← parse_i64 day;
    if negb ((1 <=? month) && (month <=? 12)) || negb ((1 <=? day) && (day <=? 31)) then None
    else Some (days_from_civil year month day * 86400000)
  | _ => None
  end.
End HubspotDates.
