(* ===== verification/DateInput.v ===== *)
(** * Dates that people and models write ([bos-app/src/slices/datetime_input.rs])

    Civil dates are kept as [YYYY-MM-DD] and instants as RFC 3339 with an offset.
    Other ways of writing a date are read against a context: the day a message was
    sent, or today.

    Texts are cut at byte offsets only where the bytes there were seen to be ASCII,
    or in the context's date, which [from_epoch_ms] writes. *)

From S2P Require Import Prelude RustStd RustStr StoreCore AppOutbox Schema Calendar.
Import Calendar.

(** ** Texts *)

(** [split_whitespace()]. *)
Definition split_whitespace (s : string) : list string :=
  String.string_of_list_ascii <$> split_words [] (String.list_ascii_of_string s).

(** [s.replace(a, b)] of ASCII characters. *)
Definition replace_byte (a b : ascii) : string → string := map_bytes (fun c => if Ascii.eqb c a then b else c).

(** The leading digits of a text, and what follows them. *)
Fixpoint span_digits (s : string) : nat * string :=
  match s with
  | String a s' => if is_digit a then let '(n, rest) := span_digits s' in (S n, rest) else (O, s)
  | EmptyString => (O, s)
  end.
Definition digit_at (i : nat) (s : string) : bool := option_any is_digit (byte_at i s).

(** ** Strict dates *)

Module DateInput.
(* src: crates/bos-app/src/slices/datetime_input.rs:9-14 DateInputContext *)
Record DateInputContext := {
  anchor_date : string;
  anchor_datetime_utc : string;
  timezone_hint : string;
}.

(* src: crates/bos-app/src/slices/datetime_input.rs:17-23 DateInputContext::from_epoch_ms *)
Definition from_epoch_ms (epoch_ms : N) (timezone_hint : string) : DateInputContext :=
  Build_DateInputContext (epoch_ms_to_utc_date epoch_ms) (epoch_ms_to_rfc3339_utc epoch_ms) timezone_hint.

(* src: crates/bos-app/src/slices/datetime_input.rs:26-30 DateInputError *)
Inductive DateInputError := ContextRequired | Invalid.

(** [message.internal_date_ms.unwrap_or(message.ingested_at_ms as i64).max(0) as u64]. *)
(* src: crates/bos-app/src/slices/datetime_input.rs:32-38 context_from_email *)
Definition context_from_email (internal_date_ms : option Z) (ingested_at_ms : N) : DateInputContext :=
  from_epoch_ms (i64_as_u64 (Z.max (default (u64_as_i64 ingested_at_ms) internal_date_ms) 0)) "UTC".

(* src: crates/bos-app/src/slices/datetime_input.rs:40-42 context_from_now_ms *)
Definition context_from_now_ms (now_ms : N) : DateInputContext := from_epoch_ms now_ms "UTC".

Definition newline : string := String "010" EmptyString.
Definition format_lines (epoch date datetime : string) : string :=
  "Date (epoch ms): " +:+ epoch +:+ newline +:+ "Email date (UTC): " +:+ date +:+ newline
  +:+ "Email datetime (UTC): " +:+ datetime +:+ newline
  +:+ "Date output format: YYYY-MM-DD. Datetime output format: RFC3339 with explicit offset or Z.".

(* src: crates/bos-app/src/slices/datetime_input.rs:94-103 email_source_date_block *)
Definition email_source_date_block (internal_date_ms : option Z) : string :=
  match internal_date_ms with
  | None => format_lines "(unknown)" "(unknown)" "(unknown)"
  | Some epoch_ms =>
    let context := from_epoch_ms (i64_as_u64 (Z.max epoch_ms 0)) "UTC" in
    format_lines (fmt_pad 0 epoch_ms) (anchor_date context) (anchor_datetime_utc context)
  end.

(* src: crates/bos-app/src/slices/datetime_input.rs:44-53 email_prompt_datetime_context *)
Definition email_prompt_datetime_context (internal_date_ms : option Z) (ingested_at_ms : N) : string :=
  match internal_date_ms with
  | Some _ => email_source_date_block internal_date_ms
  | None =>
    let context := context_from_email internal_date_ms ingested_at_ms in
    format_lines "(unknown)" (anchor_date context) (anchor_datetime_utc context)
  end.

(* src: crates/bos-app/src/slices/datetime_input.rs:405-410 canonical_date *)
Definition canonical_date (year month day : Z) : option string :=
  if (negb ((1 <=? month) && (month <=? 12)) || (day =? 0) || (days_in_month year month <? day))%Z then None
  else Some (fmt_ymd year month day).

(* src: crates/bos-app/src/slices/datetime_input.rs:394-403 parse_ymd *)
Definition parse_ymd (raw : string) : option (Z * Z * Z) :=
  if negb (String.length raw =? 10)%nat then None
  else
    year ← parse_i64 (slice_str 0 4 raw);
    month ← parse_u32 (slice_str 5 7 raw);
    day ← parse_u32 (slice_str 8 10 raw);
    Some (year, month, day).

(* src: crates/bos-app/src/slices/datetime_input.rs:376-392 strict_civil_date *)
Definition strict_civil_date (raw : string) : option string :=
  if negb (String.length raw =? 10)%nat then None
  else if negb (has_byte 4 "-" raw) || negb (has_byte 7 "-" raw)
          || negb (forallb (fun i => bool_decide (i = 4 ∨ i = 7)%nat || digit_at i raw) (seq 0 10)) then None
  else '(year, month, day) ← parse_ymd raw; canonical_date year month day.

(* src: crates/bos-app/src/slices/datetime_input.rs:90-92 is_civil_date *)
Definition is_civil_date (raw : string) : bool := bool_decide (is_Some (strict_civil_date raw)).

(** [Z], [z] or [+hh:mm] after the seconds' fraction. *)
Definition is_offset (rest : string) : bool :=
  if string_eqb rest "Z" || string_eqb rest "z" then true
  else if negb (String.length rest =? 6)%nat || negb (has_byte 0 "+" rest || has_byte 0 "-" rest)
          || negb (digit_at 1 rest) || negb (digit_at 2 rest) || negb (has_byte 3 ":" rest)
          || negb (digit_at 4 rest) || negb (digit_at 5 rest) then false
  else match parse_u32 (slice_str 1 3 rest), parse_u32 (slice_str 4 6 rest) with
       | Some offset_hour, Some offset_minute => (offset_hour <=? 23)%Z && (offset_minute <=? 59)%Z
       | _, _ => false
       end.

(* src: crates/bos-app/src/slices/datetime_input.rs:105-177 is_rfc3339_with_offset *)
Definition is_rfc3339_with_offset (raw : string) : bool :=
  if (String.length raw <? 20)%nat then false
  else
    let date_ok := digit_at 0 raw && digit_at 1 raw && digit_at 2 raw && digit_at 3 raw && has_byte 4 "-" raw
                   && digit_at 5 raw && digit_at 6 raw && has_byte 7 "-" raw && digit_at 8 raw && digit_at 9 raw in
    if negb date_ok || bool_decide (strict_civil_date (slice_str 0 10 raw) = None) then false
    else
      let time_ok := (has_byte 10 "T" raw || has_byte 10 "t" raw) && digit_at 11 raw && digit_at 12 raw
                     && has_byte 13 ":" raw && digit_at 14 raw && digit_at 15 raw && has_byte 16 ":" raw
                     && digit_at 17 raw && digit_at 18 raw in
      if negb time_ok then false
      else
        match parse_u32 (slice_str 11 13 raw), parse_u32 (slice_str 14 16 raw), parse_u32 (slice_str 17 19 raw) with
        | Some hour, Some minute, Some second =>
          if ((23 <? hour) || (59 <? minute) || (60 <? second))%Z then false
          else
            let rest := slice_str 19 (String.length raw) raw in
            match strip_prefix "." rest with
            | Some stripped =>
              let '(frac_len, rest) := span_digits stripped in
              if (frac_len =? 0)%nat then false else is_offset rest
            | None => is_offset rest
            end
        | _, _, _ => false
        end.

(* src: crates/bos-app/src/slices/datetime_input.rs:73-88 normalize_rfc3339_datetime *)
Definition normalize_rfc3339_datetime (raw : string) : Result DateInputError string :=
  let trimmed := trim raw in
  if is_rfc3339_with_offset trimmed then
    let canonical := if has_byte 10 "t" trimmed
                     then slice_str 0 10 trimmed +:+ "T" +:+ slice_str 11 (String.length trimmed) trimmed
                     else trimmed in
    Ok (match strip_suffix "z" canonical with Some popped => popped +:+ "Z" | None => canonical end)
  else Err Invalid.

(* src: crates/bos-app/src/slices/datetime_input.rs:196-200 civil_day_number *)
Definition civil_day_number (date : string) : option Z :=
  canonical ← strict_civil_date date;
  '(year, month, day) ← parse_ymd canonical;
  Some (days_from_civil year month day).

(* src: crates/bos-app/src/slices/datetime_input.rs:372-374 rfc3339_date_part *)
Definition rfc3339_date_part (raw : string) : option string :=
  if (20 <=? String.length raw)%nat && is_rfc3339_with_offset raw then Some (slice_str 0 10 raw) else None.

(* src: crates/bos-app/src/slices/datetime_input.rs:468-470 weekday_for_date *)
Definition weekday_for_date (date : string) : option Z :=
  weekday_for_days <$> civil_day_number date.

(** ** Words *)

(* src: crates/bos-app/src/slices/datetime_input.rs:426-435 parse_day_token *)
Definition parse_day_token (raw : string) : option Z :=
  day ← parse_u32 (trim_end_matches "th" (trim_end_matches "rd" (trim_end_matches "nd" (trim_end_matches "st" raw))));
  if ((1 <=? day) && (day <=? 31))%Z then Some day else None.

Definition one_of (words : list string) (s : string) : bool := existsb (string_eqb s) words.

(* src: crates/bos-app/src/slices/datetime_input.rs:437-453 month_index *)
Definition month_index (raw : string) : option Z :=
  let m := trim_end_matches "." raw in
  if one_of ["jan"; "january"] m then Some 1%Z
  else if one_of ["feb"; "february"] m then Some 2%Z
  else if one_of ["mar"; "march"] m then Some 3%Z
  else if one_of ["apr"; "april"] m then Some 4%Z
  else if one_of ["may"] m then Some 5%Z
  else if one_of ["jun"; "june"] m then Some 6%Z
  else if one_of ["jul"; "july"] m then Some 7%Z
  else if one_of ["aug"; "august"] m then Some 8%Z
  else if one_of ["sep"; "sept"; "september"] m then Some 9%Z
  else if one_of ["oct"; "october"] m then Some 10%Z
  else if one_of ["nov"; "november"] m then Some 11%Z
  else if one_of ["dec"; "december"] m then Some 12%Z
  else None.

(* src: crates/bos-app/src/slices/datetime_input.rs:455-466 weekday_index *)
Definition weekday_index (raw : string) : option Z :=
  let d := trim_end_matches "." raw in
  if one_of ["mon"; "monday"] d then Some 0%Z
  else if one_of ["tue"; "tues"; "tuesday"] d then Some 1%Z
  else if one_of ["wed"; "wednesday"] d then Some 2%Z
  else if one_of ["thu"; "thur"; "thurs"; "thursday"] d then Some 3%Z
  else if one_of ["fri"; "friday"] d then Some 4%Z
  else if one_of ["sat"; "saturday"] d then Some 5%Z
  else if one_of ["sun"; "sunday"] d then Some 6%Z
  else None.

(** ** Dates against a context *)

(* src: crates/bos-app/src/slices/datetime_input.rs:335-342 nearest_date_on_or_after *)
Definition nearest_date_on_or_after (anchor_date : string) (month day : Z) : option string :=
  '(anchor_year, _, _) ← parse_ymd anchor_date;
  match canonical_date anchor_year month day with
  | Some date => if String.ltb date anchor_date then canonical_date (anchor_year + 1) month day else Some date
  | None => canonical_date (anchor_year + 1) month day
  end.

(** The loop over the months 0 to 12 from the context's. *)
Fixpoint search_months (anchor_date : string) (anchor_month_index day : Z) (weekday : option Z) (offsets : list Z)
    : option string :=
  match offsets with
  | [] => None
  | offset :: offsets =>
    let month_index := (anchor_month_index + offset)%Z in
    match canonical_date (month_index / 12) (i64_to_u32 (month_index mod 12) + 1) day with
    | None => search_months anchor_date anchor_month_index day weekday offsets
    | Some date =>
      if String.ltb date anchor_date then search_months anchor_date anchor_month_index day weekday offsets
      else if map_or_true (fun expected => bool_decide (weekday_for_date date = Some expected)) weekday
      then Some date else None
    end
  end.

(* src: crates/bos-app/src/slices/datetime_input.rs:344-370 nearest_day_of_month_on_or_after *)
Definition nearest_day_of_month_on_or_after (anchor_date : string) (day : Z) (weekday : option Z) : option string :=
  '(anchor_year, anchor_month, _) ← parse_ymd anchor_date;
  search_months anchor_date (anchor_year * 12 + anchor_month - 1) day weekday (seqZ 0 13).

(* src: crates/bos-app/src/slices/datetime_input.rs:230-243 parse_relative_date *)
Definition parse_relative_date (tokens : list string) (anchor_date : string) : option string :=
  match tokens with
  | [token] =>
    if string_eqb token "today" then Some anchor_date
    else if string_eqb token "tomorrow" then
      day ← civil_day_number anchor_date;
      let '(year, month, date_day) := civil_from_days (day + 1) in
      canonical_date year month date_day
    else None
  | _ => None
  end.

(** The year of the third part of a numeric date. *)
Definition numeric_year (raw : string) : option Z :=
  if (String.length raw =? 4)%nat then parse_i64 raw
  else if (String.length raw =? 2)%nat then year ← parse_i64 raw; Some (2000 + year)%Z
  else None.

(* src: crates/bos-app/src/slices/datetime_input.rs:245-278 parse_numeric_date *)
Definition parse_numeric_date (tokens : list string) (anchor_date : string) : option string :=
  match tokens with
  | [token] =>
    separator ← (if has_char "/" token then Some "/"%char else if has_char "." token then Some "."%char else None);
    match split_on separator token with
    | month :: day :: years =>
      if bool_decide (1 < length years)%nat then None else
      month ← parse_u32 month;
      day ← parse_u32 day;
      if (12 <? month)%Z then None
      else
        anchor ← parse_ymd anchor_date;
        match head years with
        | Some raw =>
          year ← numeric_year raw;
          date ← canonical_date year month day;
          if (length years =? 1)%nat || negb (String.ltb date anchor_date) then Some date
          else canonical_date (anchor.1.1 + 1) month day
        | None => nearest_date_on_or_after anchor_date month day
        end
    | _ => None
    end
  | _ => None
  end.

(* src: crates/bos-app/src/slices/datetime_input.rs:280-309 parse_month_name_date *)
Definition parse_month_name_date (tokens : list string) (anchor_year : Z) (anchor_date : string) : option string :=
  let weekday := weekday_index (default ""%string (head tokens)) in
  let tokens := match weekday with Some _ => drop 1 tokens | None => tokens end in
  if bool_decide (length tokens = 2 ∨ length tokens = 3)%nat then
    month ← (token ← tokens !! 0%nat; month_index token);
    day ← (token ← tokens !! 1%nat; parse_day_token token);
    date ← match tokens !! 2%nat with
           | Some year_token =>
             if negb (String.length year_token =? 4)%nat then None
             else year ← parse_i64 year_token; canonical_date year month day
           | None =>
             match nearest_date_on_or_after anchor_date month day with
             | Some date => Some date
             | None => canonical_date anchor_year month day
             end
           end;
    match weekday with
    | Some expected_weekday =>
      actual ← weekday_for_date date;
      if negb (actual =? expected_weekday)%Z then None else Some date
    | None => Some date
    end
  else None.

(** The first of the next seven days that has the weekday. *)
Fixpoint search_week (anchor_day weekday : Z) (offsets : list Z) : option string :=
  match offsets with
  | [] => None
  | offset :: offsets =>
    let candidate_day := (anchor_day + offset)%Z in
    if (weekday_for_days candidate_day =? weekday)%Z then
      let '(year, month, day) := civil_from_days candidate_day in canonical_date year month day
    else search_week anchor_day weekday offsets
  end.

(* src: crates/bos-app/src/slices/datetime_input.rs:311-333 parse_day_or_weekday_date *)
Definition parse_day_or_weekday_date (tokens : list string) (anchor_date : string) : option string :=
  anchor_day ← civil_day_number anchor_date;
  match tokens with
  | [token] =>
    match weekday_index token with
    | Some weekday => search_week anchor_day weekday (seqZ 1 7)
    | None => day ← parse_day_token token; nearest_day_of_month_on_or_after anchor_date day None
    end
  | [token; day] =>
    weekday ← weekday_index token;
    day ← parse_day_token day;
    nearest_day_of_month_on_or_after anchor_date day (Some weekday)
  | _ => None
  end.

(** [if let Some(date) = .. { return Ok(date) }], one after the other. *)
Definition first_some (options : list (option string)) : Result DateInputError string :=
  ok_or (foldr (fun o rest => match o with Some date => Some date | None => rest end) None options) Invalid.

(* src: crates/bos-app/src/slices/datetime_input.rs:202-228 parse_contextual_date *)
Definition parse_contextual_date (normalized : string) (context : DateInputContext) : Result DateInputError string :=
  anchor ← ok_or (parse_ymd (anchor_date context)) Invalid;
  let anchor_year := anchor.1.1 in
  let compact := replace_byte "," " " (to_ascii_lowercase normalized) in
  let tokens := filter (fun token => negb (one_of ["the"; "on"] token)) (split_whitespace compact) in
  first_some [parse_relative_date tokens (anchor_date context); parse_numeric_date tokens (anchor_date context);
              parse_month_name_date tokens anchor_year (anchor_date context);
              parse_day_or_weekday_date tokens (anchor_date context)].

(* src: crates/bos-app/src/slices/datetime_input.rs:476-478 normalize_spaces *)
Definition normalize_spaces (raw : string) : string := join " " (split_whitespace raw).

(* src: crates/bos-app/src/slices/datetime_input.rs:55-71 normalize_civil_date *)
Definition normalize_civil_date (raw : string) (context : option DateInputContext) : Result DateInputError string :=
  let normalized := normalize_spaces raw in
  if is_empty normalized then Err Invalid
  else match strict_civil_date normalized with
       | Some date => Ok date
       | None =>
         match rfc3339_date_part normalized with
         | Some date => Ok date
         | None =>
           context ← ok_or context ContextRequired;
           parse_contextual_date normalized context
         end
       end.
End DateInput.

(** The unit tests of the module. *)
Module DateInputExamples.
Import DateInput.
Definition ctx : option DateInputContext := Some (from_epoch_ms 1781000000000 "UTC").
Example ex_july : normalize_civil_date "July 7" ctx = Ok "2026-07-07". Proof. vm_compute. reflexivity. Qed.
Example ex_jan : normalize_civil_date "Jan 2" ctx = Ok "2027-01-02". Proof. vm_compute. reflexivity. Qed.
Example ex_tue : normalize_civil_date "Tuesday July 7" ctx = Ok "2026-07-07". Proof. vm_compute. reflexivity. Qed.
Example ex_tue7 : normalize_civil_date "Tuesday the 7th" ctx = Ok "2026-07-07". Proof. vm_compute. reflexivity. Qed.
Example ex_mon7 : normalize_civil_date "Monday the 7th" ctx = Err Invalid. Proof. vm_compute. reflexivity. Qed.
Example ex_num : normalize_civil_date "7/7/26" ctx = Ok "2026-07-07". Proof. vm_compute. reflexivity. Qed.
Example ex_the : normalize_civil_date "the 7th" ctx = Ok "2026-07-07". Proof. vm_compute. reflexivity. Qed.
Example ex_wed : normalize_civil_date "Wednesday" ctx = Ok "2026-06-10". Proof. vm_compute. reflexivity. Qed.
Example ex_today : normalize_civil_date "today" ctx = Ok "2026-06-09". Proof. vm_compute. reflexivity. Qed.
Example ex_rfc : normalize_civil_date "2026-07-07T18:30:00Z" ctx = Ok "2026-07-07". Proof. vm_compute. reflexivity. Qed.
Example ex_none : normalize_civil_date "July 7" None = Err ContextRequired. Proof. vm_compute. reflexivity. Qed.
Example ex_bad : normalize_civil_date "2026-02-29" ctx = Err Invalid. Proof. vm_compute. reflexivity. Qed.
Example ex_z : normalize_rfc3339_datetime "2026-06-12t20:00:00.123z" = Ok "2026-06-12T20:00:00.123Z".
Proof. vm_compute. reflexivity. Qed.
Example ex_neg : normalize_civil_date "7/7/-123" ctx = Ok "-123-07-07". Proof. vm_compute. reflexivity. Qed.
End DateInputExamples.
