(* ===== verification/Ingress.v ===== *)
(** * The mail webhook's door ([bos-app/src/slices/email_triage/ingress.rs])

    Who may post mail, how the fields of a post are chosen, and how the time of a
    message is read.  The rest of the slice - rules, the stored messages - is not
    here. *)

From S2P Require Import Prelude RustStd RustStr StoreCore AppOutbox Schema Calendar.
Local Open Scope Z_scope.

(** ** Who may post *)

Module WebhookToken.
(** Bytes differ where their exclusive or is not zero. *)
(* src: crates/bos-app/src/slices/email_triage/ingress.rs:57-66 constant_time_eq *)
Definition constant_time_eq (left right : string) : bool :=
  if negb (String.length left =? String.length right)%nat then false
  else
    let diff := foldl (fun diff '(l, r) => N.lor diff (N.lxor (byte_of l) (byte_of r))) 0%N
                  (zip (String.list_ascii_of_string left) (String.list_ascii_of_string right)) in
    (diff =? 0)%N.

(** [.map(str::trim).filter(|value| !value.is_empty())]. *)
Definition trimmed (value : option string) : option string :=
  value ← value; let value := trim value in if is_empty value then None else Some value.

(* src: crates/bos-app/src/slices/email_triage/ingress.rs:43-55 verify_bearer *)
Definition verify_bearer (authorization_header : option string) (secret : string) : Result string unit :=
  match trimmed (value ← authorization_header; strip_prefix "Bearer " value) with
  | None => Err "webhook_token_invalid"
  | Some token => if constant_time_eq token secret then Ok tt else Err "webhook_token_invalid"
  end.

(** The two headers, decoded. *)
(* src: crates/bos-app/src/slices/email_triage/ingress.rs:25-41 verify_hook_token *)
Definition verify_hook_token (authorization hook_token : option string) (secret : string) : Result string unit :=
  match verify_bearer authorization secret with
  | Ok _ => Ok tt
  | Err _ =>
    match trimmed hook_token with
    | Some token => if constant_time_eq token secret then Ok tt else Err "webhook_token_invalid"
    | None => Err "webhook_token_invalid"
    end
  end.
End WebhookToken.

(** ** Fields *)

Module Ingress.
(* src: crates/bos-app/src/slices/email_triage/ingress.rs:294-296 webhook_source_key *)
Definition webhook_source_key (message_id : string) : string := "webhook:" +:+ message_id.

(* src: crates/bos-app/src/slices/email_triage/ingress.rs:302-307 nonempty *)
Definition nonempty (value : option string) : option string := WebhookToken.trimmed value.

(* src: crates/bos-app/src/slices/email_triage/ingress.rs:298-300 first_nonempty *)
Fixpoint first_nonempty (candidates : list (option string)) : option string :=
  match candidates with
  | [] => None
  | candidate :: candidates =>
    match nonempty candidate with Some value => Some value | None => first_nonempty candidates end
  end.

(** [sha256_hex] is the digest in hexadecimal; its first eight bytes are sixteen digits. *)
(* src: crates/bos-app/src/slices/email_triage/ingress.rs:309-332 generated_message_id *)
Definition generated_message_id (sha256_hex : string → string) (from subject thread_id snippet body : string) : string :=
  let zero := String "000" EmptyString in
  "wh-" +:+ take_bytes 16 (sha256_hex (from +:+ zero +:+ subject +:+ zero +:+ thread_id +:+ zero +:+ snippet
                                       +:+ zero +:+ body)).

(** ** Times *)

(** [year] has no sign but a plus: a date is split at its dashes. *)
(* src: crates/bos-app/src/slices/email_triage/ingress.rs:415-426 days_from_civil *)
Definition days_from_civil (year month day : Z) : option Z :=
  if negb ((1 <=? month) && (month <=? 12)) || (day =? 0) || (31 <? day) then None
  else
    let y := if month <=? 2 then year - 1 else year in
    let era := y / 400 in
    let yoe := i64_to_u32 (y - era * 400) in
    let mp := if 2 <? month then month - 3 else month + 9 in
    let doy := Z.quot (153 * mp + 2) 5 + day - 1 in
    let doe := yoe * 365 + Z.quot yoe 4 - Z.quot yoe 100 + doy in
    Some (era * 146097 + doe - 719468).

(** [rest.len() == 4 && rest.as_bytes().iter().all(u8::is_ascii_digit)]: [+hhmm]. *)
(* src: crates/bos-app/src/slices/email_triage/ingress.rs:392-412 parse_offset_minutes *)
Definition parse_offset_minutes (raw : string) : option Z :=
  '(sign, rest) ← match raw with
                  | String "+" rest => Some (1, rest)
                  | String "-" rest => Some (-1, rest)
                  | _ => None
                  end;
  '(hours, minutes) ←
    (if (String.length rest =? 4)%nat && all_bytes is_digit rest then
       hours ← parse_i32 (slice_str 0 2 rest); minutes ← parse_i32 (slice_str 2 4 rest); Some (hours, minutes)
     else
       '(h, m) ← split_once ":" rest; hours ← parse_i32 h; minutes ← parse_i32 m; Some (hours, minutes));
  if negb ((0 <=? hours) && (hours <=? 23)) || negb ((0 <=? minutes) && (minutes <=? 59)) then None
  else Some (sign * (hours * 60 + minutes)).

(** [raw.rfind(['+', '-'])]. *)
Fixpoint rfind_sign (i : nat) (s : string) : option nat :=
  match s with
  | EmptyString => None
  | String a s' =>
    match rfind_sign (S i) s' with
    | Some j => Some j
    | None => if Ascii.eqb a "+" || Ascii.eqb a "-" then Some i else None
    end
  end.

(** [strip_suffix(c)] of a character. *)
Fixpoint strip_last (c : ascii) (s : string) : option string :=
  match s with
  | EmptyString => None
  | String a EmptyString => if Ascii.eqb a c then Some EmptyString else None
  | String a s => String a <$> strip_last c s
  end.

(** The text before the offset, and the offset's minutes. *)
Definition split_offset (raw : string) : option (string * Z) :=
  match (match strip_last "Z" raw with Some prefix => Some prefix | None => strip_last "z" raw end) with
  | Some prefix => Some (prefix, 0)
  | None =>
    split_at ← rfind_sign 0 raw;
    if (split_at <? 10)%nat then None
    else
      offset ← parse_offset_minutes (slice_str split_at (String.length raw) raw);
      Some (slice_str 0 split_at raw, offset)
  end.

(** Milliseconds after the point: three digits of the fraction and three zeros. *)
Definition parse_millis (frac : option string) : option Z :=
  match frac with
  | None => Some 0
  | Some frac =>
    if all_bytes is_digit frac && negb (is_empty frac) then parse_i64 (slice_str 0 3 (frac +:+ "000")) else None
  end.

(* src: crates/bos-app/src/slices/email_triage/ingress.rs:336-390 parse_rfc3339_ms *)
Definition parse_rfc3339_ms (raw : string) : option Z :=
  let raw := trim raw in
  '(datetime, offset_min) ← split_offset raw;
  '(date, time) ← match split_once "T" datetime with Some parts => Some parts | None => split_once "t" datetime end;
  '(year, month, day) ← match split_on "-" date with
                        | [year; month; day] =>
                          year ← parse_i32 year; month ← parse_u32 month; day ← parse_u32 day; Some (year, month, day)
                        | _ => None
                        end;
  let '(hms, frac) := match split_once "." time with
                      | Some (hms, frac) => (hms, Some frac)
                      | None => (time, None)
                      end in
  '(hour, minute, second) ← match split_on ":" hms with
                            | [hour; minute; second] =>
                              hour ← parse_u32 hour; minute ← parse_u32 minute; second ← parse_u32 second;
                              Some (hour, minute, second)
                            | _ => None
                            end;
  if negb ((1 <=? month) && (month <=? 12)) || (day =? 0) || (23 <? hour) || (59 <? minute) || (60 <? second) then None
  else
    millis ← parse_millis frac;
    days ← days_from_civil year month day;
    Some (wrap_i64 (days * 86400000 + hour * 3600000 + minute * 60000 + second * 1000 + millis - offset_min * 60000)).
End Ingress.

Module IngressExamples.
Import Ingress.
Example ex_utc : parse_rfc3339_ms "2026-06-12T20:00:00.123z" = Some 1781294400123. Proof. vm_compute. reflexivity. Qed.
Example ex_off : parse_rfc3339_ms "2026-06-12T16:00:00-04:00" = Some 1781294400000. Proof. vm_compute. reflexivity. Qed.
Example ex_feb : parse_rfc3339_ms "2026-02-31T00:00:00Z" = parse_rfc3339_ms "2026-03-03T00:00:00Z".
Proof. vm_compute. reflexivity. Qed.
End IngressExamples.
