(* ===== verification/CalendarProps.v ===== *)
(** * The calendar algorithms are right

    Days and dates correspond one to one and in order, for every day and every
    year; the five copies of the algorithm are one function. *)

From S2P Require Import Prelude RustStd RustStr Schema Calendar.
Import Calendar.
Local Open Scope Z_scope.

(** A property of the integers below [n], by evaluation. *)
Fixpoint all_from (k : Z) (n : nat) (p : Z → bool) : bool :=
  match n with O => true | S n => p k && all_from (k + 1) n p end.
Abbreviation all_below := (all_from 0).

Lemma all_from_spec j n p k : all_from j n p = true → j ≤ k < j + Z.of_nat n → p k = true.
Proof.
  revert j. induction n as [|n IH]; intros j; [lia|]. cbn [all_from]. intros [Hp Hn]%andb_true_iff Hk.
  destruct (Z.eq_dec k j) as [->|]; [done|]. apply (IH (j + 1) Hn). lia.
Qed.

Lemma all_below_spec n p k : all_below n p = true → 0 ≤ k < Z.of_nat n → p k = true.
Proof. intros H Hk. by apply (all_from_spec 0 n). Qed.

(** ** Months, within a year that begins in March *)

Definition shifted_month (month : Z) : Z := Z.rem (month + 9) 12.
Definition month_start (mp : Z) : Z := Z.quot (153 * mp + 2) 5.
Definition day_of_year (month day : Z) : Z := month_start (shifted_month month) + day - 1.
Definition month_day (doy : Z) : Z * Z :=
  let mp := Z.quot (5 * doy + 2) 153 in
  ((if mp <? 10 then mp + 3 else mp - 9), doy - month_start mp + 1).

(** The length of a month in a leap year. *)
Definition longest (month : Z) : Z := days_in_month 400 month.

Lemma month_day_ok doy :
  0 ≤ doy ≤ 365 →
  let '(m, d) := month_day doy in
  (1 ≤ m ≤ 12 ∧ 1 ≤ d ≤ longest m ∧ day_of_year m d = doy) ∧ (doy = 365 ↔ m = 2 ∧ d = 29).
Proof.
  intros Hd.
  pose proof (all_below_spec 366 (fun doy => let '(m, d) := month_day doy in
    (1 <=? m) && (m <=? 12) && (1 <=? d) && (d <=? longest m) && (day_of_year m d =? doy)
    && Bool.eqb (doy =? 365) ((m =? 2) && (d =? 29))) doy ltac:(by vm_compute) ltac:(lia)) as H. cbv beta in H.
  destruct (month_day doy) as [m d]. rewrite !andb_true_iff, eqb_true_iff in H. destruct H as (H & He).
  split; [lia|]. destruct (doy =? 365) eqn:H1; destruct (m =? 2) eqn:H2; destruct (d =? 29) eqn:H3; simpl in He; lia.
Qed.

Lemma day_of_year_ok m d :
  1 ≤ m ≤ 12 → 1 ≤ d ≤ longest m → 0 ≤ day_of_year m d ≤ 365 ∧ month_day (day_of_year m d) = (m, d).
Proof.
  intros Hm Hd.
  assert (H : all_below 12 (fun m => all_below 31 (fun d =>
    implb (d + 1 <=? longest (m + 1))
      ((0 <=? day_of_year (m + 1) (d + 1)) && (day_of_year (m + 1) (d + 1) <=? 365)
       && bool_decide (month_day (day_of_year (m + 1) (d + 1)) = (m + 1, d + 1))))) = true) by by vm_compute.
  assert (Hl : longest m ≤ 31).
  { unfold longest, days_in_month. repeat case_match; lia. }
  pose proof (all_below_spec _ _ (m - 1) H ltac:(lia)) as H1.
  pose proof (all_below_spec _ _ (d - 1) H1 ltac:(lia)) as H2. simpl in H2.
  replace (m - 1 + 1) with m in H2 by lia. replace (d - 1 + 1) with d in H2 by lia.
  assert (He : (d <=? longest m) = true) by lia. rewrite He in H2. simpl in H2.
  rewrite !andb_true_iff, bool_decide_eq_true in H2. destruct H2 as [? ?]. split; [lia|done].
Qed.

(** ** Years, within an era of 400 *)

Definition leap (year : Z) : bool := (year mod 4 =? 0) && (negb (year mod 100 =? 0) || (year mod 400 =? 0)).

Lemma is_leap_year_mod year : is_leap_year year = leap year.
Proof.
  unfold is_leap_year, leap.
  assert (He : ∀ k, 0 < k → (Z.rem year k =? 0) = (year mod k =? 0)).
  { intros k Hk. apply eq_iff_eq_true. rewrite !Z.eqb_eq, Z.rem_divide, Z.mod_divide by lia. done. }
  rewrite !He by lia. destruct (Z.eqb_spec (year mod 4) 0), (Z.eqb_spec (year mod 100) 0), (Z.eqb_spec (year mod 400) 0); simpl; try done.
  all: Z.to_euclidean_division_equations; lia.
Qed.

(** The first day of the [yoe]-th year that begins in March, and its length. *)
Definition year_start (yoe : Z) : Z := 365 * yoe + yoe / 4 - yoe / 100.
Definition year_length (yoe : Z) : Z := if leap (yoe + 1) then 366 else 365.

Definition scaled (doe : Z) : Z := doe - doe / 1460 + doe / 36524 - doe / 146096.

Lemma scaled_step doe : scaled doe ≤ scaled (doe + 1).
Proof. unfold scaled. Z.to_euclidean_division_equations. lia. Qed.

Lemma scaled_mono a b : a ≤ b → scaled a ≤ scaled b.
Proof.
  intros Hab. replace b with (a + Z.of_nat (Z.to_nat (b - a))) by lia.
  induction (Z.to_nat (b - a)) as [|n IH]; [rewrite Z.add_0_r; lia|].
  etransitivity; [apply IH|]. replace (a + Z.of_nat (S n)) with (a + Z.of_nat n + 1) by lia. apply scaled_step.
Qed.

Lemma year_of_ends yoe :
  0 ≤ yoe < 400 →
  scaled (year_start yoe) / 365 = yoe ∧ scaled (year_start yoe + year_length yoe - 1) / 365 = yoe ∧
  (yoe < 399 → year_start (yoe + 1) = year_start yoe + year_length yoe).
Proof.
  intros Hy.
  pose proof (all_below_spec 400 (fun yoe =>
    (scaled (year_start yoe) / 365 =? yoe) && (scaled (year_start yoe + year_length yoe - 1) / 365 =? yoe)
    && implb (yoe <? 399) (year_start (yoe + 1) =? year_start yoe + year_length yoe))
    yoe ltac:(by vm_compute) ltac:(lia)) as H. cbv beta in H.
  rewrite !andb_true_iff in H. destruct H as [H H3]. split; [lia|split; [lia|]].
  intros Hlt. assert (Hb : (yoe <? 399) = true) by lia. rewrite Hb in H3. simpl in H3. lia.
Qed.

(** Every day of the era is a day of the year the algorithm finds. *)
Lemma year_of_era_ok doe :
  0 ≤ doe < 146097 →
  let yoe := scaled doe / 365 in 0 ≤ yoe < 400 ∧ year_start yoe ≤ doe < year_start yoe + year_length yoe.
Proof.
  intros Hd yoe.
  assert (Hr : 0 ≤ yoe < 400).
  { pose proof (scaled_mono 0 doe ltac:(lia)). pose proof (scaled_mono doe 146096 ltac:(lia)).
    change (scaled 0) with 0 in *. change (scaled 146096) with 145999 in *. unfold yoe.
    split; [apply Z.div_pos; lia|apply Z.div_lt_upper_bound; lia]. }
  split; [done|]. split.
  - destruct (Z.le_gt_cases (year_start yoe) doe) as [|Hlt]; [done|exfalso].
    destruct (Z.eq_dec yoe 0) as [H0|Hpos]; [rewrite H0 in Hlt; change (year_start 0) with 0 in Hlt; lia|].
    destruct (year_of_ends (yoe - 1) ltac:(lia)) as (_ & He & Hs).
    specialize (Hs ltac:(lia)). replace (yoe - 1 + 1) with yoe in Hs by lia.
    pose proof (scaled_mono doe (year_start (yoe - 1) + year_length (yoe - 1) - 1) ltac:(lia)) as Hm.
    pose proof (Z.div_le_mono _ _ 365 ltac:(lia) Hm) as Hq. fold yoe in Hq. lia.
  - destruct (Z.lt_ge_cases doe (year_start yoe + year_length yoe)) as [|Hge]; [done|exfalso].
    destruct (Z.eq_dec yoe 399) as [H0|Hn].
    { rewrite H0 in Hge. change (year_start 399 + year_length 399) with 146097 in Hge. lia. }
    destruct (year_of_ends yoe ltac:(lia)) as (_ & _ & Hs). specialize (Hs ltac:(lia)).
    destruct (year_of_ends (yoe + 1) ltac:(lia)) as (He & _).
    pose proof (scaled_mono (year_start (yoe + 1)) doe ltac:(lia)) as Hm.
    pose proof (Z.div_le_mono _ _ 365 ltac:(lia) Hm) as Hq. fold yoe in Hq. lia.
Qed.

(** Years of an era begin one after the other. *)
Lemma year_start_mono a b : 0 ≤ a → a < b → b < 400 → year_start a + year_length a ≤ year_start b.
Proof.
  intros Ha Hab Hb. replace b with (a + 1 + Z.of_nat (Z.to_nat (b - a - 1))) in * by lia.
  induction (Z.to_nat (b - a - 1)) as [|n IH].
  { rewrite Z.add_0_r. destruct (year_of_ends a ltac:(lia)) as (_ & _ & H). specialize (H ltac:(lia)). lia. }
  etransitivity; [apply IH; lia|]. replace (a + 1 + Z.of_nat (S n)) with (a + 1 + Z.of_nat n + 1) by lia.
  destruct (year_of_ends (a + 1 + Z.of_nat n) ltac:(lia)) as (_ & _ & H). specialize (H ltac:(lia)).
  unfold year_length in *. case_match; lia.
Qed.

Lemma year_of_era_unique yoe doe :
  0 ≤ yoe < 400 → year_start yoe ≤ doe < year_start yoe + year_length yoe → scaled doe / 365 = yoe.
Proof.
  intros Hy Hd.
  assert (Hl : 0 ≤ doe < 146097).
  { assert (He : year_start 399 + year_length 399 = 146097 ∧ year_start 399 = 145731) by done. split.
    - unfold year_start in *. Z.to_euclidean_division_equations. lia.
    - destruct (Z.eq_dec yoe 399) as [->|]; [lia|].
      pose proof (year_start_mono yoe 399 ltac:(lia) ltac:(lia) ltac:(lia)). lia. }
  destruct (year_of_era_ok doe Hl) as [Hr Hi]. set (y := scaled doe / 365) in *.
  destruct (Z.lt_trichotomy y yoe) as [Hlt|[|Hlt]]; [|done|].
  - pose proof (year_start_mono y yoe ltac:(lia) Hlt ltac:(lia)). lia.
  - pose proof (year_start_mono yoe y ltac:(lia) Hlt ltac:(lia)). lia.
Qed.

(** ** Dates *)

Definition valid_date (date : Z * Z * Z) : Prop :=
  let '(y, m, d) := date in 1 ≤ m ≤ 12 ∧ 1 ≤ d ≤ days_in_month y m.

(** The algorithms over quotients that round down. *)
Definition shifted (year month : Z) : Z := if month <=? 2 then year - 1 else year.
Definition day_number (year month day : Z) : Z :=
  let y := shifted year month in y / 400 * 146097 + year_start (y mod 400) + day_of_year month day - 719468.
Definition date_of (days : Z) : Z * Z * Z :=
  let z := days + 719468 in
  let doe := z mod 146097 in
  let yoe := scaled doe / 365 in
  let '(m, d) := month_day (doe - year_start yoe) in
  ((if m <=? 2 then yoe + z / 146097 * 400 + 1 else yoe + z / 146097 * 400), m, d).

Lemma quot_era y : Z.quot (if 0 <=? y then y else y - 399) 400 = y / 400.
Proof. destruct (Z.leb_spec 0 y); Z.to_euclidean_division_equations; lia. Qed.

Lemma days_in_month_le y m : days_in_month y m ≤ longest m ≤ 31.
Proof. unfold longest, days_in_month. repeat case_match; simpl in *; try done; try lia. Qed.

Lemma days_from_civil_number y m d : 1 ≤ m ≤ 12 → days_from_civil y m d = day_number y m d.
Proof.
  intros Hm. unfold days_from_civil, day_number. fold (shifted y m). rewrite quot_era.
  unfold year_start, day_of_year, month_start, shifted_month. set (sy := shifted y m).
  assert (Hy : sy - sy / 400 * 400 = sy mod 400) by (Z.to_euclidean_division_equations; lia). rewrite Hy.
  rewrite !(Z.quot_div_nonneg (sy mod 400)) by (Z.to_euclidean_division_equations; lia). lia.
Qed.

Lemma month_day_range doy : 0 ≤ doy ≤ 365 → 1 ≤ (month_day doy).1 ≤ 12 ∧ 1 ≤ (month_day doy).2 ≤ 31.
Proof.
  intros Hd. pose proof (month_day_ok doy Hd) as H. destruct (month_day doy) as [m d]. simpl.
  destruct H as [(Hm & Hd' & _) _]. pose proof (days_in_month_le 400 m) as [_ Hl]. unfold longest in *. lia.
Qed.

Lemma year_length_le y : 365 ≤ year_length y ≤ 366.
Proof. unfold year_length. case_match; lia. Qed.

Lemma doy_range z : 0 ≤ z mod 146097 - year_start (scaled (z mod 146097) / 365) ≤ 365.
Proof.
  assert (H : 0 ≤ z mod 146097 < 146097) by (apply Z.mod_pos_bound; lia).
  destruct (year_of_era_ok _ H) as [_ Hi]. pose proof (year_length_le (scaled (z mod 146097) / 365)). lia.
Qed.

Lemma i64_to_u32_small v : 0 ≤ v < 4294967296 → i64_to_u32 v = v.
Proof. apply Z.mod_small. Qed.

Lemma scaled_quot doe :
  0 ≤ doe → doe - Z.quot doe 1460 + Z.quot doe 36524 - Z.quot doe 146096 = scaled doe ∧ 0 ≤ scaled doe.
Proof. intros H. unfold scaled. rewrite !Z.quot_div_nonneg by lia. split; [done|]. Z.to_euclidean_division_equations. lia. Qed.

Lemma year_start_quot y : 0 ≤ y → 365 * y + Z.quot y 4 - Z.quot y 100 = year_start y.
Proof. intros H. unfold year_start. by rewrite !Z.quot_div_nonneg by lia. Qed.

Lemma civil_from_days_of days : civil_from_days days = date_of days.
Proof.
  unfold civil_from_days, date_of. set (z := days + 719468).
  assert (Hd : 0 ≤ z mod 146097 < 146097) by (apply Z.mod_pos_bound; lia).
  destruct (scaled_quot (z mod 146097) ltac:(lia)) as [-> Hs].
  rewrite (Z.quot_div_nonneg (scaled _)) by lia.
  destruct (year_of_era_ok _ Hd) as [Hr _]. rewrite year_start_quot by lia.
  pose proof (doy_range z) as Hdoy. set (doy := z mod 146097 - _) in *.
  pose proof (month_day_range doy Hdoy) as Hmd. unfold month_day in Hmd |- *. fold (month_start (Z.quot (5 * doy + 2) 153)).
  simpl in Hmd. rewrite !i64_to_u32_small by lia. done.
Qed.

Lemma leap_period y : leap (y mod 400 + 1) = leap (y + 1).
Proof.
  unfold leap.
  assert (H : (y mod 400 + 1) mod 4 = (y + 1) mod 4 ∧ (y mod 400 + 1) mod 100 = (y + 1) mod 100 ∧
              (y mod 400 + 1) mod 400 = (y + 1) mod 400).
  { split_and!; Z.to_euclidean_division_equations; lia. }
  by destruct H as (-> & -> & ->).
Qed.

(** The first of March, as a count of days. *)
Definition march_first (y : Z) : Z := y / 400 * 146097 + year_start (y mod 400).

Lemma march_first_next y : march_first (y + 1) = march_first y + year_length (y mod 400).
Proof.
  unfold march_first, year_length. rewrite leap_period.
  assert (Hc : ∀ y, y / 400 * 146097 + year_start (y mod 400) = 365 * y + y / 4 - y / 100 + y / 400).
  { clear. intros y. unfold year_start. Z.to_euclidean_division_equations. lia. }
  rewrite !Hc. unfold leap.
  destruct (Z.eqb_spec ((y + 1) mod 4) 0), (Z.eqb_spec ((y + 1) mod 100) 0), (Z.eqb_spec ((y + 1) mod 400) 0); simpl;
    Z.to_euclidean_division_equations; lia.
Qed.

Lemma days_in_month_eq y m : days_in_month y m = (if (m =? 2) && negb (is_leap_year y) then 28 else longest m).
Proof.
  unfold longest, days_in_month. destruct (Z.eqb_spec m 2) as [->|]; simpl; [by destruct (is_leap_year y)|].
  by repeat case_match.
Qed.

(** The days of a date's year are those before its end of February. *)
Lemma valid_doy y m d :
  1 ≤ m ≤ 12 → 1 ≤ d ≤ longest m →
  d ≤ days_in_month y m ↔ day_of_year m d < year_length (shifted y m mod 400).
Proof.
  intros Hm Hd. rewrite days_in_month_eq. destruct (day_of_year_ok m d Hm Hd) as [Hr Hinv].
  pose proof (month_day_ok _ Hr) as H. rewrite Hinv in H. destruct H as [_ H365].
  unfold year_length. rewrite leap_period. destruct (Z.eqb_spec m 2) as [->|Hne]; simpl.
  - unfold shifted. simpl. replace (y - 1 + 1) with y by lia. rewrite is_leap_year_mod.
    change (longest 2) with 29 in *. destruct (leap y); simpl; [lia|]. split; intros; [|lia].
    destruct (Z.eq_dec (day_of_year 2 d) 365) as [He|]; [|lia]. apply H365 in He. lia.
  - split; [|lia]. intros _. destruct (Z.eq_dec (day_of_year m d) 365) as [He|]; [apply H365 in He; lia|].
    case_match; lia.
Qed.

Lemma date_of_valid days :
  valid_date (date_of days) ∧ (let '(y, m, d) := date_of days in day_number y m d = days).
Proof.
  unfold date_of. set (z := days + 719468). pose proof (doy_range z) as Hdoy.
  assert (Hd : 0 ≤ z mod 146097 < 146097) by (apply Z.mod_pos_bound; lia).
  destruct (year_of_era_ok _ Hd) as [Hr Hi]. set (yoe := scaled (z mod 146097) / 365) in *.
  pose proof (month_day_ok _ Hdoy) as H. destruct (month_day (z mod 146097 - year_start yoe)) as [m d] eqn:Hmd.
  destruct H as [(Hm & Hl & Hday) _]. set (y := if m <=? 2 then _ else _).
  assert (Hs : shifted y m = yoe + z / 146097 * 400) by (unfold shifted, y; case_match; lia).
  assert (Hmod : shifted y m mod 400 = yoe ∧ shifted y m / 400 = z / 146097)
    by (rewrite Hs; Z.to_euclidean_division_equations; lia).
  split.
  - split; [done|]. split; [lia|]. apply (valid_doy y m d Hm Hl). destruct Hmod as [-> _]. lia.
  - unfold day_number. destruct Hmod as [-> ->]. rewrite Hday.
    pose proof (Z.div_mod z 146097 ltac:(lia)). lia.
Qed.

Lemma date_of_day_number y m d : valid_date (y, m, d) → date_of (day_number y m d) = (y, m, d).
Proof.
  intros [Hm Hd]. pose proof (days_in_month_le y m) as Hle.
  destruct (day_of_year_ok m d Hm ltac:(lia)) as [Hr Hinv].
  pose proof (proj1 (valid_doy y m d Hm ltac:(lia)) ltac:(lia)) as Hlt.
  assert (Hy : 0 ≤ shifted y m mod 400 < 400) by (apply Z.mod_pos_bound; lia).
  unfold date_of, day_number. set (sy := shifted y m) in *. set (yoe := sy mod 400) in *.
  replace (_ - 719468 + 719468) with (year_start yoe + day_of_year m d + sy / 400 * 146097) by lia.
  assert (Hrange : 0 ≤ year_start yoe + day_of_year m d < 146097).
  { split; [unfold year_start; Z.to_euclidean_division_equations; lia|].
    destruct (Z.eq_dec yoe 399) as [He|]; [rewrite He in *; change (year_length 399) with 366 in *;
      change (year_start 399) with 145731; lia|].
    pose proof (year_start_mono yoe 399 ltac:(lia) ltac:(lia) ltac:(lia)). change (year_start 399) with 145731 in *. lia. }
  set (doe := year_start yoe + day_of_year m d) in *.
  rewrite Z.div_add, Z.mod_add by lia. rewrite (Z.div_small doe), (Z.mod_small doe) by exact Hrange.
  rewrite (year_of_era_unique yoe) by lia.
  replace (doe - year_start yoe) with (day_of_year m d) by lia. rewrite Hinv.
  f_equal. f_equal. subst yoe sy. unfold shifted. destruct (m <=? 2); Z.to_euclidean_division_equations; lia.
Qed.

(** The date after a date. *)
Definition next_date (date : Z * Z * Z) : Z * Z * Z :=
  let '(y, m, d) := date in
  if d <? days_in_month y m then (y, m, d + 1) else if m <? 12 then (y, m + 1, 1) else (y + 1, 1, 1).

Lemma next_date_valid date : valid_date date → valid_date (next_date date).
Proof.
  destruct date as [[y m] d]. intros [Hm Hd]. unfold next_date.
  assert (Hp : ∀ y m, 1 ≤ m ≤ 12 → 1 ≤ days_in_month y m).
  { clear. intros y m Hm. rewrite days_in_month_eq. case_match; [lia|].
    pose proof (all_below_spec 12 (fun m => 1 <=? longest (m + 1)) (m - 1) ltac:(by vm_compute) ltac:(lia)) as H'.
    cbv beta in H'.
    replace (m - 1 + 1) with m in H' by lia. lia. }
  destruct (Z.ltb_spec d (days_in_month y m)); [simpl; lia|]. destruct (Z.ltb_spec m 12); unfold valid_date.
  - pose proof (Hp y (m + 1) ltac:(lia)). lia.
  - pose proof (Hp (y + 1) 1 ltac:(lia)). lia.
Qed.

Lemma next_month_start m :
  1 ≤ m < 12 → m ≠ 2 → day_of_year (m + 1) 1 = day_of_year m (longest m) + 1.
Proof.
  intros Hm H2. pose proof (all_below_spec 11 (fun m => (m =? 1) || (day_of_year (m + 2) 1 =? day_of_year (m + 1) (longest (m + 1)) + 1))
    (m - 1) ltac:(by vm_compute) ltac:(lia)) as H. cbv beta in H.
  replace (m - 1 + 2) with (m + 1) in H by lia. replace (m - 1 + 1) with m in H by lia. lia.
Qed.

Lemma day_number_next y m d :
  valid_date (y, m, d) →
  (let '(y', m', d') := next_date (y, m, d) in day_number y' m' d') = day_number y m d + 1.
Proof.
  intros [Hm Hd]. unfold next_date. destruct (Z.ltb_spec d (days_in_month y m)) as [Hlt|Hge].
  { unfold day_number, day_of_year. lia. }
  assert (d = days_in_month y m) as -> by lia. unfold day_number.
  fold (march_first (shifted y m)). destruct (Z.ltb_spec m 12) as [Hm12|Hm12].
  - fold (march_first (shifted y (m + 1))). destruct (Z.eq_dec m 2) as [->|Hne].
    + unfold shifted. simpl. change (day_of_year (2 + 1) 1) with 0.
      assert (Hn : march_first y = march_first (y - 1) + year_length ((y - 1) mod 400)).
      { rewrite <- march_first_next. f_equal. lia. }
      rewrite Hn. unfold year_length. rewrite leap_period, days_in_month_eq. simpl. replace (y - 1 + 1) with y by lia.
      rewrite is_leap_year_mod. destruct (leap y); simpl.
      * change (day_of_year 2 (longest 2)) with 365. lia.
      * change (day_of_year 2 28) with 364. lia.
    + rewrite next_month_start by lia. rewrite days_in_month_eq.
      destruct (Z.eqb_spec m 2); [done|]. simpl.
      assert (shifted y (m + 1) = shifted y m) as ->; [|lia]. unfold shifted. repeat case_match; lia.
  - assert (m = 12) as -> by lia. fold (march_first (shifted (y + 1) 1)). unfold shifted. simpl.
    replace (y + 1 - 1) with y by lia. change (day_of_year 1 1) with 306.
    assert (days_in_month y 12 = 31) as -> by done. change (day_of_year 12 31) with 305. lia.
Qed.

(** ** The algorithms *)

Lemma civil_from_days_valid days : valid_date (civil_from_days days).
Proof. rewrite civil_from_days_of. apply date_of_valid. Qed.

Lemma days_of_civil days : let '(y, m, d) := civil_from_days days in days_from_civil y m d = days.
Proof.
  rewrite civil_from_days_of. destruct (date_of_valid days) as [Hv Hn].
  destruct (date_of days) as [[y m] d]. destruct Hv as [Hm _]. by rewrite days_from_civil_number.
Qed.

Lemma civil_of_days y m d : valid_date (y, m, d) → civil_from_days (days_from_civil y m d) = (y, m, d).
Proof.
  intros Hv. rewrite civil_from_days_of, days_from_civil_number by apply Hv. by apply date_of_day_number.
Qed.

(** ** Order *)

(** A date as a number that is ordered as the date is. *)
Definition date_key (date : Z * Z * Z) : Z := let '(y, m, d) := date in y * 10000 + m * 100 + d.

Lemma civil_next days : civil_from_days (days + 1) = next_date (civil_from_days days).
Proof.
  pose proof (civil_from_days_valid days) as Hv. pose proof (days_of_civil days) as Hn.
  destruct (civil_from_days days) as [[y m] d].
  pose proof (next_date_valid _ Hv) as Hv'. pose proof (day_number_next y m d Hv) as Hnext.
  rewrite <- days_from_civil_number in Hnext by apply Hv. rewrite Hn in Hnext.
  destruct (next_date (y, m, d)) as [[y' m'] d']. rewrite <- Hnext.
  rewrite <- days_from_civil_number by apply Hv'. by apply civil_of_days.
Qed.

Lemma next_date_key date : valid_date date → date_key date < date_key (next_date date).
Proof.
  destruct date as [[y m] d]. intros [Hm Hd]. pose proof (days_in_month_le y m) as Hl. unfold next_date.
  repeat case_match; simpl; lia.
Qed.

Lemma civil_key_lt a b : a < b ↔ date_key (civil_from_days a) < date_key (civil_from_days b).
Proof.
  assert (Hlt : ∀ n a, date_key (civil_from_days a) < date_key (civil_from_days (a + 1 + Z.of_nat n))).
  { clear. induction n as [|n IH]; intros a.
    - rewrite Z.add_0_r, civil_next. apply next_date_key, civil_from_days_valid.
    - etransitivity; [apply IH|]. replace (a + 1 + Z.of_nat (S n)) with (a + 1 + Z.of_nat n + 1) by lia.
      rewrite (civil_next (a + 1 + Z.of_nat n)). apply next_date_key, civil_from_days_valid. }
  assert (Hab : ∀ a b, a < b → date_key (civil_from_days a) < date_key (civil_from_days b)).
  { intros x y Hxy. specialize (Hlt (Z.to_nat (y - x - 1)) x). by replace (x + 1 + _) with y in Hlt by lia. }
  split; [apply Hab|]. intros H. destruct (Z.lt_trichotomy a b) as [|[->|Hba]]; [done|lia|].
  specialize (Hab b a Hba). lia.
Qed.

(** The days of the years 0 to 9999. *)
Lemma civil_year_range days y m d : civil_from_days days = (y, m, d) → -719528 ≤ days < 2932897 → 0 ≤ y ≤ 9999.
Proof.
  intros Hc [H0 H1]. pose proof (civil_from_days_valid days) as Hv. rewrite Hc in Hv. destruct Hv as [Hm Hd].
  pose proof (days_in_month_le y m) as Hl.
  apply (civil_key_lt days 2932897) in H1. change (civil_from_days 2932897) with (10000, 1, 1) in H1.
  assert (Hp : -719529 < days) by lia. apply civil_key_lt in Hp.
  change (civil_from_days (-719529)) with (-1, 12, 31) in Hp. rewrite Hc in H1, Hp. simpl in H1, Hp. lia.
Qed.

(** Days since 1970-01-01 and calendar dates correspond one to one: every day,
    before or after the epoch, is a date whose month is 1 to 12 and has that day, and
    counting back from the date gives the day; every date that exists is the date of its
    day. *)
Theorem dates_and_days_correspond :
  (∀ days, valid_date (civil_from_days days) ∧
     let '(y, m, d) := civil_from_days days in days_from_civil y m d = days) ∧
  (∀ y m d, valid_date (y, m, d) → civil_from_days (days_from_civil y m d) = (y, m, d)).
Proof.
  split; [|apply civil_of_days]. intros days. split; [apply civil_from_days_valid|apply days_of_civil].
Qed.

(** The calendar is the Gregorian one, day after day: day 0 is 1970-01-01, and the
    date of the day after is the next date - the next day of the month, or the first of
    the next month, or of the next year; February has 29 days in years divisible by 4 but
    not by 100, unless by 400. *)
Theorem calendar_follows_days :
  civil_from_days 0 = (1970, 1, 1) ∧
  (∀ days, civil_from_days (days + 1) = next_date (civil_from_days days)) ∧
  ∀ y, days_in_month y 2 = if (y mod 4 =? 0) && (negb (y mod 100 =? 0) || (y mod 400 =? 0)) then 29 else 28.
Proof.
  split_and!; [done| |].
  - apply civil_next.
  - intros y. rewrite days_in_month_eq. simpl. rewrite is_leap_year_mod. unfold leap. by destruct (_ && _).
Qed.

(** The five copies of the algorithm - drafts' dates, search console, accounting,
    inventory, HubSpot - are one function: they give every date the same day, and every
    day the same date. *)
Theorem calendars_agree :
  (∀ y m d, 1 ≤ m ≤ 12 →
     SearchConsoleDates.days_from_civil y m d = days_from_civil y m d ∧
     AccountingDates.days_from_civil y m d = days_from_civil y m d ∧
     InventoryDates.days_from_civil y m d = days_from_civil y m d ∧
     HubspotDates.days_from_civil y m d = days_from_civil y m d) ∧
  (∀ days, SearchConsoleDates.civil_from_days days = civil_from_days days ∧
     AccountingDates.civil_from_days days = civil_from_days days ∧
     InventoryDates.civil_from_days days = civil_from_days days).
Proof.
  split.
  - intros y m d Hm.
    assert (Hs : Z.rem (m + 9) 12 = if 2 <? m then m - 3 else m + 9)
      by (destruct (Z.ltb_spec 2 m); Z.to_euclidean_division_equations; lia).
    assert (Ha : AccountingDates.days_from_civil y m d = days_from_civil y m d)
      by (unfold AccountingDates.days_from_civil, days_from_civil; rewrite Hs; done).
    assert (Hh : HubspotDates.days_from_civil y m d = days_from_civil y m d).
    { rewrite <- Ha. unfold AccountingDates.days_from_civil, HubspotDates.days_from_civil.
      destruct (Z.leb_spec m 2), (Z.ltb_spec 2 m); try lia; rewrite ?Z.sub_0_r; done. }
    split_and!; [|done|done|done].
    rewrite <- Hh. unfold SearchConsoleDates.days_from_civil, HubspotDates.days_from_civil. by rewrite quot_era.
  - assert (Hera : ∀ z, Z.quot (if 0 <=? z then z else z - 146096) 146097 = z / 146097)
      by (intros z; destruct (Z.leb_spec 0 z); Z.to_euclidean_division_equations; lia).
    assert (Hmod : ∀ z, z - z / 146097 * 146097 = z mod 146097)
      by (intros z; Z.to_euclidean_division_equations; lia).
    intros days.
    assert (Ha : AccountingDates.civil_from_days days = civil_from_days days).
    { unfold AccountingDates.civil_from_days, civil_from_days. rewrite Hera, Hmod. set (z := days + 719468).
      pose proof (doy_range z) as Hdoy. destruct (scaled_quot (z mod 146097)) as [-> Hp]; [apply Z.mod_pos_bound; lia|].
      rewrite (Z.quot_div_nonneg (scaled _)) by lia.
      destruct (year_of_era_ok (z mod 146097)) as [Hr _]; [apply Z.mod_pos_bound; lia|].
      rewrite year_start_quot by lia. pose proof (month_day_range _ Hdoy) as [Hmd _]. unfold month_day in Hmd. simpl in Hmd.
      rewrite i64_to_u32_small by lia. done. }
    split_and!; [|done|done]. rewrite <- Ha.
    unfold SearchConsoleDates.civil_from_days, AccountingDates.civil_from_days. rewrite Hera, Hmod.
    destruct (scaled_quot ((days + 719468) mod 146097)) as [-> Hp]; [apply Z.mod_pos_bound; lia|].
    by rewrite (Z.quot_div_nonneg (scaled _)) by lia.
Qed.

Lemma dates_and_days_correspond_witness :
  valid_date (2000, 2, 29) ∧ days_from_civil 2000 2 29 = 11016 ∧
  civil_from_days (days_from_civil 2000 2 29) = (2000, 2, 29).
Proof.
  assert (Hv : valid_date (2000, 2, 29)) by (vm_compute; split; split; discriminate).
  split; [done|]. split; [done|]. by apply (proj2 dates_and_days_correspond).
Defined.

Lemma calendars_agree_witness :
  HubspotDates.days_from_civil 2026 6 9 = days_from_civil 2026 6 9.
Proof. apply (proj1 calendars_agree 2026 6 9). split; discriminate. Defined.
