(* ===== verification/DateProps.v ===== *)
(** * Dates and instants as texts

    What the slices write for a date or an instant reads back as the same day and the
    same second; the order of texts is the order of dates; what people write is read
    as a date that exists.

    Texts of instants by their grammar - date, time, fraction, offset - as the mail
    webhook reads them and as the strict check judges them. *)

From S2P Require Import Prelude RustStd StoreCore AppOutbox RustStr Schema Calendar DateInput Ingress CalendarProps.
Import Ingress Calendar DateInput.
Local Open Scope Z_scope.
Local Arguments String.append : simpl nomatch.

(** ** Digits *)

Definition digit (k : Z) : ascii := ascii_of_N (48 + Z.to_N k).

Lemma digit_is k : 0 ≤ k ≤ 9 → is_digit (digit k) = true.
Proof. intros Hk. by apply (all_below_spec 10 (fun k => is_digit (digit k)) k ltac:(by vm_compute)); lia. Qed.

(** A decimal digit is no letter, mark or blank. *)
Lemma digit_not k c : 0 ≤ k ≤ 9 → is_digit c = false → Ascii.eqb (digit k) c = false.
Proof. intros Hk Hc. destruct (Ascii.eqb_spec (digit k) c) as [He|]; [|done]. by rewrite <- He, digit_is in Hc. Qed.

Definition two (v : Z) : string := String (digit (v / 10)) (String (digit (v mod 10)) EmptyString).
Definition four (v : Z) : string :=
  String (digit (v / 1000)) (String (digit (v / 100 mod 10)) (String (digit (v / 10 mod 10)) (String (digit (v mod 10)) EmptyString))).

Definition two_reads (v : Z) : bool :=
  bool_decide (fmt_pad 2 v = two v ∧ parse_u32 (two v) = Some v ∧ parse_i32 (two v) = Some v).
Definition four_reads (v : Z) : bool :=
  bool_decide (fmt_pad 4 v = four v ∧ parse_i64 (four v) = Some v ∧ parse_i32 (four v) = Some v).

Lemma fmt_two v : 0 ≤ v < 100 → fmt_pad 2 v = two v ∧ parse_u32 (two v) = Some v ∧ parse_i32 (two v) = Some v.
Proof.
  intros Hv. apply (bool_decide_eq_true_1 _). apply (all_below_spec 100 two_reads); [by vm_compute|lia].
Qed.

Lemma fmt_four v : 0 ≤ v < 10000 → fmt_pad 4 v = four v ∧ parse_i64 (four v) = Some v ∧ parse_i32 (four v) = Some v.
Proof.
  intros Hv. apply (bool_decide_eq_true_1 _). apply (all_below_spec (N.to_nat 10000) four_reads); [by vm_compute|lia].
Qed.

Lemma two_digits v : 0 ≤ v < 100 → 0 ≤ v / 10 ≤ 9 ∧ 0 ≤ v mod 10 ≤ 9.
Proof. intros. Z.to_euclidean_division_equations. lia. Qed.
Lemma four_digits v : 0 ≤ v < 10000 → 0 ≤ v / 1000 ≤ 9 ∧ 0 ≤ v / 100 mod 10 ≤ 9 ∧ 0 ≤ v / 10 mod 10 ≤ 9 ∧ 0 ≤ v mod 10 ≤ 9.
Proof. intros. Z.to_euclidean_division_equations. lia. Qed.

Lemma two_all v : 0 ≤ v < 100 → all_bytes is_digit (two v) = true.
Proof. intros H%two_digits. unfold all_bytes. simpl. by rewrite !digit_is by lia. Qed.
Lemma four_all v : 0 ≤ v < 10000 → all_bytes is_digit (four v) = true.
Proof. intros H%four_digits. unfold all_bytes. simpl. by rewrite !digit_is by lia. Qed.

(** ** Dates *)

Definition ymd (y m d : Z) : string := four y +:+ "-" +:+ two m +:+ "-" +:+ two d.

(** A date of the calendar with a four-digit year. *)
Definition plain_date (y m d : Z) : Prop := valid_date (y, m, d) ∧ 0 ≤ y ≤ 9999.

Lemma plain_ranges y m d : plain_date y m d → 0 ≤ y < 10000 ∧ 1 ≤ m < 100 ∧ 1 ≤ d < 100.
Proof. intros [[Hm Hd] Hy]. pose proof (days_in_month_le y m). lia. Qed.

Lemma fmt_ymd_plain y m d : plain_date y m d → fmt_ymd y m d = ymd y m d.
Proof.
  intros H%plain_ranges. unfold fmt_ymd, ymd.
  destruct (fmt_four y) as (-> & _ & _); [lia|]. destruct (fmt_two m) as (-> & _ & _); [lia|].
  destruct (fmt_two d) as (-> & _ & _); [lia|]. done.
Qed.

Lemma parse_ymd_plain y m d : plain_date y m d → parse_ymd (ymd y m d) = Some (y, m, d).
Proof.
  intros H%plain_ranges. unfold parse_ymd.
  change (slice_str 0 4 (ymd y m d)) with (four y). change (slice_str 5 7 (ymd y m d)) with (two m).
  change (slice_str 8 10 (ymd y m d)) with (two d). change (String.length (ymd y m d)) with 10%nat. cbn [Nat.eqb negb].
  destruct (fmt_four y) as (_ & -> & _); [lia|]. destruct (fmt_two m) as (_ & -> & _); [lia|].
  destruct (fmt_two d) as (_ & -> & _); [lia|]. done.
Qed.

Lemma canonical_plain y m d : plain_date y m d → canonical_date y m d = Some (ymd y m d).
Proof.
  intros Hp. unfold canonical_date. rewrite fmt_ymd_plain by done. destruct Hp as [[Hm Hd] Hy].
  destruct (Z.leb_spec 1 m), (Z.leb_spec m 12), (Z.eqb_spec d 0), (Z.ltb_spec (days_in_month y m) d); simpl; try lia; done.
Qed.

Lemma strict_plain y m d : plain_date y m d → strict_civil_date (ymd y m d) = Some (ymd y m d).
Proof.
  intros Hp. pose proof (plain_ranges _ _ _ Hp) as (Hy & Hm & Hd).
  unfold strict_civil_date. rewrite parse_ymd_plain by done. simpl mbind.
  rewrite canonical_plain by done.
  replace (negb _) with false by done.
  destruct (two_digits m ltac:(lia)), (two_digits d ltac:(lia)), (four_digits y ltac:(lia)) as (? & ? & ? & ?).
  assert (He : forallb (fun i => bool_decide (i = 4 ∨ i = 7)%nat || digit_at i (ymd y m d)) (seq 0 10) = true).
  { unfold ymd, four, two, digit_at, byte_at. cbn. by rewrite !digit_is by lia. }
  by rewrite He.
Qed.

Lemma day_number_plain y m d : plain_date y m d → civil_day_number (ymd y m d) = Some (days_from_civil y m d).
Proof. intros Hp. unfold civil_day_number. rewrite strict_plain by done. simpl. by rewrite parse_ymd_plain. Qed.

Lemma is_civil_plain y m d : plain_date y m d → is_civil_date (ymd y m d) = true.
Proof. intros Hp. unfold is_civil_date. rewrite strict_plain by done. done. Qed.

Lemma days_plain days : -719528 ≤ days < 2932897 → let '(y, m, d) := civil_from_days days in plain_date y m d.
Proof.
  intros Hd. pose proof (civil_from_days_valid days) as Hv. destruct (civil_from_days days) as [[y m] d] eqn:Hc.
  pose proof (civil_year_range _ _ _ _ Hc Hd). split; [done|lia].
Qed.

(** ** Instants *)

Definition hms (h mi s : Z) : string := two h +:+ ":" +:+ two mi +:+ ":" +:+ two s.

(** The text of the second [secs]. *)
Lemma instant_text ms :
  (ms < 253402300800000)%N →
  let secs := Z.of_N (ms / 1000) in
  let '(y, m, d) := civil_from_days (secs / 86400) in
  let h := secs mod 86400 / 3600 in
  let mi := secs mod 86400 mod 3600 / 60 in
  let s := secs mod 86400 mod 60 in
  plain_date y m d ∧ (0 ≤ h < 24 ∧ 0 ≤ mi < 60 ∧ 0 ≤ s < 60 ∧ h * 3600 + mi * 60 + s = secs mod 86400) ∧
  epoch_ms_to_rfc3339_utc ms = ymd y m d +:+ "T" +:+ hms h mi s +:+ "Z".
Proof.
  intros Hms secs. assert (Hs : 0 ≤ secs < 253402300800).
  { unfold secs. rewrite N2Z.inj_div. Z.to_euclidean_division_equations. lia. }
  pose proof (days_plain (secs / 86400) ltac:(Z.to_euclidean_division_equations; lia)) as Hp.
  unfold epoch_ms_to_rfc3339_utc.
  assert (Hu : u64_as_i64 (ms / 1000) = secs).
  { unfold u64_as_i64. fold secs. destruct (N.leb_spec (ms / 1000) 9223372036854775807); [done|unfold secs in *; lia]. }
  rewrite Hu. destruct (civil_from_days (secs / 86400)) as [[y m] d].
  set (sod := secs mod 86400). assert (Hsod : 0 ≤ sod < 86400) by (apply Z.mod_pos_bound; lia).
  rewrite (Z.quot_div_nonneg sod), (Z.rem_mod_nonneg sod 3600), (Z.rem_mod_nonneg sod 60) by lia.
  rewrite (Z.quot_div_nonneg (sod mod 3600)) by (Z.to_euclidean_division_equations; lia).
  assert (Hr : 0 ≤ sod / 3600 < 24 ∧ 0 ≤ sod mod 3600 / 60 < 60 ∧ 0 ≤ sod mod 60 < 60 ∧
               sod / 3600 * 3600 + sod mod 3600 / 60 * 60 + sod mod 60 = sod)
    by (Z.to_euclidean_division_equations; lia).
  split; [done|]. split; [done|]. rewrite fmt_ymd_plain by done. unfold hms.
  destruct (fmt_two (sod / 3600)) as (-> & _ & _); [lia|]. destruct (fmt_two (sod mod 3600 / 60)) as (-> & _ & _); [lia|].
  destruct (fmt_two (sod mod 60)) as (-> & _ & _); [lia|]. by rewrite !string_app_assoc.
Qed.

Lemma slice_app_0 s t : slice_str 0 (String.length s) (s +:+ t) = s.
Proof.
  unfold slice_str. rewrite Nat.sub_0_r. induction s as [|a s IH]; simpl; [by destruct t|]. by rewrite IH.
Qed.

Lemma is_rfc3339_text y m d h mi s :
  plain_date y m d → 0 ≤ h < 24 → 0 ≤ mi < 60 → 0 ≤ s < 60 →
  is_rfc3339_with_offset (ymd y m d +:+ "T" +:+ hms h mi s +:+ "Z") = true.
Proof.
  intros Hp Hh Hmi Hs. pose proof (plain_ranges _ _ _ Hp) as (Hy & Hm & Hd).
  pose proof (strict_plain _ _ _ Hp) as Hstrict.
  destruct (two_digits m ltac:(lia)), (two_digits d ltac:(lia)), (four_digits y ltac:(lia)) as (? & ? & ? & ?).
  destruct (two_digits h ltac:(lia)), (two_digits mi ltac:(lia)), (two_digits s ltac:(lia)).
  destruct (fmt_two h ltac:(lia)) as (_ & Ph & _), (fmt_two mi ltac:(lia)) as (_ & Pmi & _), (fmt_two s ltac:(lia)) as (_ & Ps & _).
  set (text := ymd y m d +:+ "T" +:+ hms h mi s +:+ "Z").
  unfold is_rfc3339_with_offset. change (String.length text) with 20%nat. cbn [Nat.ltb Nat.leb].
  change (slice_str 0 10 text) with (ymd y m d). rewrite Hstrict.
  change (slice_str 11 13 text) with (two h). change (slice_str 14 16 text) with (two mi).
  change (slice_str 17 19 text) with (two s). rewrite Ph, Pmi, Ps.
  change (slice_str 19 20 text) with "Z"%string.
  unfold text, digit_at, byte_at. cbn -[Z.ltb Z.leb ymd].
  unfold ymd, two, four. cbn -[Z.ltb Z.leb digit]. rewrite !digit_is by lia. cbn -[Z.ltb Z.leb digit].
  destruct (Z.ltb_spec 23 h), (Z.ltb_spec 59 mi), (Z.ltb_spec 60 s); try lia. done.
Qed.

Lemma strip_last_app c s : strip_last c (s +:+ String c EmptyString) = Some s.
Proof.
  induction s as [|a s IH]; simpl; [by rewrite Ascii.eqb_refl|]. rewrite IH.
  by destruct (s +:+ String c EmptyString) eqn:He; [destruct s|].
Qed.

Lemma digits_visible s : all_bytes is_digit s = true → all_visible s = true.
Proof.
  apply all_bytes_impl. intros a. unfold is_digit, visible. rewrite !andb_true_iff, !N.leb_le. lia.
Qed.

(** Ingress counts days as the calendar does. *)
Lemma ingress_days y m d :
  1 ≤ m ≤ 12 → 1 ≤ d ≤ 31 → Ingress.days_from_civil y m d = Some (days_from_civil y m d).
Proof.
  intros Hm Hd. unfold Ingress.days_from_civil, days_from_civil.
  destruct (Z.leb_spec 1 m), (Z.leb_spec m 12), (Z.eqb_spec d 0), (Z.ltb_spec 31 d); try lia. simpl.
  set (sy := if m <=? 2 then y - 1 else y). rewrite quot_era.
  rewrite i64_to_u32_small by (Z.to_euclidean_division_equations; lia).
  assert (Hs : Z.rem (m + 9) 12 = if 2 <? m then m - 3 else m + 9)
    by (destruct (Z.ltb_spec 2 m); Z.to_euclidean_division_equations; lia).
  by rewrite Hs.
Qed.


Lemma split_on_digits c s t :
  is_digit c = false → all_bytes is_digit s = true → split_on c (s +:+ String c t) = s :: split_on c t.
Proof. intros Hc Hs. apply split_on_app. by apply digits_lack. Qed.

Lemma split_date y m d : plain_date y m d → split_on "-" (ymd y m d) = [four y; two m; two d].
Proof.
  intros H%plain_ranges. change (ymd y m d) with (four y +:+ String "-" (two m +:+ String "-" (two d))).
  rewrite (split_on_digits "-" (four y)) by (done || apply four_all; lia).
  rewrite (split_on_digits "-" (two m)) by (done || apply two_all; lia).
  by rewrite split_on_lacks by (apply digits_lack; [done|apply two_all; lia]).
Qed.

Lemma split_time h mi s :
  0 ≤ h < 100 → 0 ≤ mi < 100 → 0 ≤ s < 100 → split_on ":" (hms h mi s) = [two h; two mi; two s].
Proof.
  intros Hh Hmi Hs. change (hms h mi s) with (two h +:+ String ":" (two mi +:+ String ":" (two s))).
  rewrite (split_on_digits ":" (two h)), (split_on_digits ":" (two mi)) by (done || apply two_all; lia).
  by rewrite split_on_lacks by (apply digits_lack; [done|apply two_all; lia]).
Qed.

(** Bytes of dates and times. *)
Definition date_byte (a : ascii) : bool := is_digit a || Ascii.eqb a "-" || Ascii.eqb a ":".
Lemma digits_date_bytes s : all_bytes is_digit s = true → all_bytes date_byte s = true.
Proof. apply all_bytes_impl. unfold date_byte. by intros a ->. Qed.
Lemma date_bytes y m d : plain_date y m d → all_bytes date_byte (ymd y m d) = true.
Proof.
  intros H%plain_ranges. unfold ymd. rewrite !all_bytes_app.
  rewrite (digits_date_bytes (four y)) by (apply four_all; lia).
  by rewrite (digits_date_bytes (two m)), (digits_date_bytes (two d)) by (apply two_all; lia).
Qed.
Lemma time_bytes h mi s :
  0 ≤ h < 100 → 0 ≤ mi < 100 → 0 ≤ s < 100 → all_bytes date_byte (hms h mi s) = true.
Proof.
  intros Hh Hmi Hs. unfold hms. rewrite !all_bytes_app.
  by rewrite (digits_date_bytes (two h)), (digits_date_bytes (two mi)), (digits_date_bytes (two s))
    by (apply two_all; lia).
Qed.
Lemma date_byte_lacks c s : date_byte c = false → all_bytes date_byte s = true → lacks c s = true.
Proof.
  intros Hc. apply all_bytes_impl. intros a Ha. apply negb_true_iff.
  destruct (Ascii.eqb_spec a c) as [->|]; [by rewrite Ha in Hc|done].
Qed.
Lemma date_bytes_visible s : all_bytes date_byte s = true → all_visible s = true.
Proof.
  apply all_bytes_impl. intros a. unfold date_byte, is_digit, visible.
  destruct (Ascii.eqb_spec a "-") as [->|]; [done|]. destruct (Ascii.eqb_spec a ":") as [->|]; [done|].
  rewrite !orb_false_r, !andb_true_iff, !N.leb_le. lia.
Qed.

Lemma instant_visible s t :
  all_bytes date_byte s = true → all_bytes date_byte t = true → all_visible (s +:+ "T" +:+ t +:+ "Z") = true.
Proof.
  intros Hs Ht. rewrite !all_visible_app, (date_bytes_visible s), (date_bytes_visible t) by done. done.
Qed.

Lemma split_once_lacks c s : lacks c s = true → split_once c s = None.
Proof.
  unfold lacks, all_bytes. induction s as [|a s IH]; simpl; [done|].
  intros [Ha%negb_true_iff Hs]%andb_true_iff. by rewrite Ha, IH.
Qed.

(** Every byte of ASCII text begins a character. *)
Lemma take_chars_visible n s : all_visible s = true → take_chars n s = take_bytes n s.
Proof.
  unfold take_chars, take_bytes, all_visible. intros H. f_equal. revert n.
  induction (String.list_ascii_of_string s) as [|a l IH]; intros n; simpl in *; [by destruct n|].
  apply andb_true_iff in H as [Ha Hl]. assert (Hb : begins_char a = true).
  { unfold begins_char, visible in *. rewrite andb_true_iff, !N.leb_le in Ha.
    apply negb_true_iff, andb_false_iff. left. apply N.leb_gt. lia. }
  rewrite Hb. destruct n as [|n]; simpl; [done|]. by rewrite IH.
Qed.

(** A date and a time as the webhook reads them. *)
Lemma ingress_text y m d h mi s :
  plain_date y m d → 0 ≤ h < 24 → 0 ≤ mi < 60 → 0 ≤ s < 60 →
  parse_rfc3339_ms (ymd y m d +:+ "T" +:+ hms h mi s +:+ "Z")
  = Some (wrap_i64 (days_from_civil y m d * 86400000 + h * 3600000 + mi * 60000 + s * 1000)).
Proof.
  intros Hp Hh Hmi Hs. pose proof (plain_ranges _ _ _ Hp) as (Hy & Hm & Hd).
  pose proof (date_bytes _ _ _ Hp) as Hdb. pose proof (time_bytes h mi s ltac:(lia) ltac:(lia) ltac:(lia)) as Htb.
  unfold parse_rfc3339_ms. rewrite trim_visible.
  2: by apply instant_visible.
  assert (Hsp : split_offset (ymd y m d +:+ "T" +:+ hms h mi s +:+ "Z") = Some (ymd y m d +:+ String "T" (hms h mi s), 0)).
  { unfold split_offset. rewrite <- !string_app_assoc. change "Z"%string with (String "Z" EmptyString).
    rewrite strip_last_app, string_app_assoc. done. }
  rewrite Hsp. cbn [mbind option_bind]. rewrite split_once_app by by apply date_byte_lacks.
  cbn [mbind option_bind]. rewrite split_date by done.
  destruct (fmt_four y) as (_ & _ & ->); [lia|]. destruct (fmt_two m) as (_ & -> & _); [lia|].
  destruct (fmt_two d) as (_ & -> & _); [lia|]. cbn [mbind option_bind].
  rewrite split_once_lacks by by apply date_byte_lacks. rewrite split_time by lia.
  destruct (fmt_two h) as (_ & -> & _); [lia|]. destruct (fmt_two mi) as (_ & -> & _); [lia|].
  destruct (fmt_two s) as (_ & -> & _); [lia|]. cbn [mbind option_bind].
  destruct Hp as [[Hm' Hd'] _]. pose proof (days_in_month_le y m) as Hl.
  destruct (Z.leb_spec 1 m), (Z.leb_spec m 12), (Z.eqb_spec d 0), (Z.ltb_spec 23 h), (Z.ltb_spec 59 mi), (Z.ltb_spec 60 s);
    try lia. simpl. rewrite ingress_days by lia. simpl. do 2 f_equal. lia.
Qed.

(** The first millisecond of the year 10000. *)
Definition year_10000_ms : N := 253402300800000.

(** A time in milliseconds cut to the second. *)
Definition to_the_second (ms : N) : N := (ms / 1000 * 1000)%N.

(** An instant written for a prompt or a payload reads back: up to the year 9999,
    the RFC 3339 text of a time in milliseconds passes the check for RFC 3339 and its
    normal form is itself, its first ten bytes are the civil date whose day number is the
    whole days of the time, and the mail webhook reads the text as the same time, cut to
    the second. *)
Theorem instant_text_roundtrip ms :
  (ms < year_10000_ms)%N →
  let text := epoch_ms_to_rfc3339_utc ms in
  is_rfc3339_with_offset text = true ∧ normalize_rfc3339_datetime text = Ok text ∧
  civil_day_number (epoch_ms_to_utc_date ms) = Some (Z.of_N (ms / 86400000)) ∧
  parse_rfc3339_ms text = Some (Z.of_N (to_the_second ms)).
Proof.
  intros Hms text. unfold year_10000_ms in Hms. pose proof (instant_text ms Hms) as H. cbv zeta in H.
  pose proof (days_of_civil (Z.of_N (ms / 1000) / 86400)) as Hdays.
  destruct (civil_from_days (Z.of_N (ms / 1000) / 86400)) as [[y m] d].
  set (secs := Z.of_N (ms / 1000)) in *. set (h := secs mod 86400 / 3600) in *.
  set (mi := secs mod 86400 mod 3600 / 60) in *. set (s := secs mod 86400 mod 60) in *.
  destruct H as (Hp & (Hh & Hmi & Hs & Hsum) & Htext). unfold epoch_ms_to_utc_date. subst text. rewrite Htext.
  assert (Hr : is_rfc3339_with_offset (ymd y m d +:+ "T" +:+ hms h mi s +:+ "Z") = true) by by apply is_rfc3339_text.
  pose proof (date_bytes _ _ _ Hp) as Hdb. pose proof (time_bytes h mi s ltac:(lia) ltac:(lia) ltac:(lia)) as Htb.
  assert (Hsec : secs = Z.of_N ms / 1000) by (unfold secs; by rewrite N2Z.inj_div).
  split_and!; [done| | |].
  - unfold normalize_rfc3339_datetime. rewrite trim_visible.
    2: by apply instant_visible.
    rewrite Hr. done.
  - rewrite take_chars_visible by by apply instant_visible. change (take_bytes 10 _) with (ymd y m d).
    rewrite day_number_plain by done. f_equal. rewrite Hdays, Hsec, N2Z.inj_div.
    Z.to_euclidean_division_equations. lia.
  - rewrite ingress_text by done. f_equal. unfold to_the_second. rewrite Hdays, N2Z.inj_mul. fold secs.
    pose proof (Z.div_mod secs 86400 ltac:(lia)). rewrite wrap_small; [lia|].
    assert (0 ≤ secs < 253402300800) by (rewrite Hsec; Z.to_euclidean_division_equations; lia). lia.
Qed.

(** ** The order of texts *)

Definition digit_order (k : Z) : bool := all_below 10 (fun j => bool_decide (Ascii.compare (digit k) (digit j) = (k ?= j))).

Lemma digit_compare k j : 0 ≤ k ≤ 9 → 0 ≤ j ≤ 9 → Ascii.compare (digit k) (digit j) = (k ?= j).
Proof.
  intros Hk Hj. assert (Ho : digit_order k = true) by (apply (all_below_spec 10 digit_order); [by vm_compute|lia]).
  apply (bool_decide_eq_true_1 _). unfold digit_order in Ho. by apply (all_below_spec _ _ j Ho); lia.
Qed.

Lemma compare_digits p q a b :
  0 ≤ a ≤ 9 → 0 ≤ b ≤ 9 → (p * 10 + a ?= q * 10 + b) = match p ?= q with Eq => a ?= b | c => c end.
Proof.
  intros Ha Hb. destruct (Z.compare_spec p q) as [->|Hlt|Hgt].
  - destruct (Z.compare_spec a b); [subst; apply Z.compare_refl|apply Z.compare_lt_iff; lia|apply Z.compare_gt_iff; lia].
  - apply Z.compare_lt_iff. lia.
  - apply Z.compare_gt_iff. lia.
Qed.

Lemma two_compare v w s t :
  0 ≤ v < 100 → 0 ≤ w < 100 →
  String.compare (two v +:+ s) (two w +:+ t) = match v ?= w with Eq => String.compare s t | c => c end.
Proof.
  intros Hv Hw. destruct (two_digits v Hv), (two_digits w Hw).
  assert (He : (v ?= w) = match v / 10 ?= w / 10 with Eq => v mod 10 ?= w mod 10 | c => c end).
  { rewrite <- compare_digits by lia. f_equal; Z.to_euclidean_division_equations; lia. }
  rewrite He. simpl. rewrite !digit_compare by lia. by destruct (v / 10 ?= w / 10); [destruct (v mod 10 ?= w mod 10)| |].
Qed.

Lemma four_compare v w s t :
  0 ≤ v < 10000 → 0 ≤ w < 10000 →
  String.compare (four v +:+ s) (four w +:+ t) = match v ?= w with Eq => String.compare s t | c => c end.
Proof.
  intros Hv Hw. destruct (four_digits v Hv) as (? & ? & ? & ?), (four_digits w Hw) as (? & ? & ? & ?).
  assert (He : ∀ v w, (v ?= w) = match v / 10 ?= w / 10 with Eq => v mod 10 ?= w mod 10 | c => c end).
  { clear. intros v w. rewrite <- compare_digits by (Z.to_euclidean_division_equations; lia).
    f_equal; Z.to_euclidean_division_equations; lia. }
  assert (Hq2 : ∀ v, v / 10 / 10 = v / 100) by (intros; by rewrite Z.div_div).
  assert (Hq3 : ∀ v, v / 100 / 10 = v / 1000) by (intros; by rewrite Z.div_div).
  rewrite (He v w), (He (v / 10) (w / 10)), !Hq2, (He (v / 100) (w / 100)), !Hq3.
  simpl. rewrite !digit_compare by lia.
  by destruct (v / 1000 ?= w / 1000); [destruct (v / 100 mod 10 ?= w / 100 mod 10);
    [destruct (v / 10 mod 10 ?= w / 10 mod 10); [destruct (v mod 10 ?= w mod 10)| |]| |]| |].
Qed.

Lemma ymd_compare y m d y' m' d' :
  plain_date y m d → plain_date y' m' d' →
  String.compare (ymd y m d) (ymd y' m' d') = (days_from_civil y m d ?= days_from_civil y' m' d').
Proof.
  intros Hp Hp'. pose proof (plain_ranges _ _ _ Hp) as (Hy & Hm & Hd). pose proof (plain_ranges _ _ _ Hp') as (Hy' & Hm' & Hd').
  assert (Hk : (days_from_civil y m d ?= days_from_civil y' m' d') = (date_key (y, m, d) ?= date_key (y', m', d'))).
  { pose proof (civil_key_lt (days_from_civil y m d) (days_from_civil y' m' d')) as H1.
    pose proof (civil_key_lt (days_from_civil y' m' d') (days_from_civil y m d)) as H2.
    rewrite (civil_of_days y m d), (civil_of_days y' m' d') in H1, H2 by (apply Hp || apply Hp').
    destruct (Z.compare_spec (days_from_civil y m d) (days_from_civil y' m' d')) as [He|Hlt|Hgt]; symmetry.
    - apply Z.compare_eq_iff. lia.
    - by apply Z.compare_lt_iff, H1.
    - by apply Z.compare_gt_iff, H2. }
  assert (Hdash : ∀ s t, String.compare ("-" +:+ s) ("-" +:+ t) = String.compare s t) by done.
  unfold ymd. rewrite four_compare, Hdash, two_compare, Hdash by lia.
  assert (Ht : String.compare (two d) (two d') = (d ?= d')).
  { pose proof (two_compare d d' "" "" ltac:(lia) ltac:(lia)) as H. simpl in H. simpl. rewrite H. by destruct (d ?= d'). }
  rewrite Ht, Hk. unfold date_key.
  destruct (Z.compare_spec y y'), (Z.compare_spec m m'), (Z.compare_spec d d'); symmetry;
    (apply Z.compare_eq_iff || apply Z.compare_lt_iff || apply Z.compare_gt_iff); lia.
Qed.

(** Dates with four-digit years are ordered as texts as they are in time: comparing
    two of them byte by byte, as the queries and the date parser do, is comparing their
    day numbers. *)
Theorem date_texts_ordered y m d y' m' d' :
  plain_date y m d → plain_date y' m' d' →
  String.compare (fmt_ymd y m d) (fmt_ymd y' m' d') = (days_from_civil y m d ?= days_from_civil y' m' d').
Proof. intros Hp Hp'. rewrite !fmt_ymd_plain by done. by apply ymd_compare. Qed.

(** ** What people write *)

Lemma of_uint_acc_bound d acc : (N.pos (Pos.of_uint_acc d acc) < (N.pos acc + 1) * 10 ^ N.of_nat (Decimal.nb_digits d))%N.
Proof.
  revert acc. induction d; intros acc; cbn [Pos.of_uint_acc Decimal.nb_digits]; [simpl; lia|..];
    rewrite Nat2N.inj_succ, N.pow_succ_r';
    (eapply N.lt_le_trans; [apply IHd|]); nia.
Qed.

Lemma of_uint_bound d : (N.of_uint d < 10 ^ N.of_nat (Decimal.nb_digits d))%N.
Proof.
  induction d; unfold N.of_uint in *; cbn [Pos.of_uint Decimal.nb_digits]; [simpl; lia|..];
    rewrite Nat2N.inj_succ, N.pow_succ_r'; [nia|..];
    match goal with |- context [Pos.of_uint_acc d ?k] => pose proof (of_uint_acc_bound d k) end; nia.
Qed.

Lemma uint_of_string_length s d : DecimalString.NilEmpty.uint_of_string s = Some d → Decimal.nb_digits d = String.length s.
Proof.
  revert d. induction s as [|a s IH]; intros d; simpl; [by intros [= <-]|].
  destruct (DecimalString.NilEmpty.uint_of_string s) as [d'|]; [|by destruct a as [[] [] [] [] [] [] [] []]].
  specialize (IH d' eq_refl). destruct a as [[] [] [] [] [] [] [] []]; simpl; try done; intros [= <-]; simpl; by rewrite IH.
Qed.

Lemma parse_digits_bound s n : parse_digits s = Some n → 0 ≤ n < 10 ^ Z.of_nat (String.length s).
Proof.
  unfold parse_digits. destruct s as [|a s]; [done|]. intros (d & Hd & [= <-])%bind_Some.
  apply uint_of_string_length in Hd as Hl. pose proof (of_uint_bound d) as Hb. rewrite Hl in Hb.
  split; [lia|]. apply N2Z.inj_lt in Hb. rewrite N2Z.inj_pow, nat_N_Z in Hb. done.
Qed.

Lemma is_digit_digit a : is_digit a = true → ∃ k, 0 ≤ k ≤ 9 ∧ a = digit k.
Proof.
  unfold is_digit, byte_of. rewrite andb_true_iff, !N.leb_le. intros Ha.
  exists (Z.of_N (N_of_ascii a) - 48). split; [lia|]. unfold digit.
  replace (48 + Z.to_N _)%N with (N_of_ascii a) by lia. by rewrite ascii_N_embedding.
Qed.

Lemma four_of a b c d :
  0 ≤ a ≤ 9 → 0 ≤ b ≤ 9 → 0 ≤ c ≤ 9 → 0 ≤ d ≤ 9 →
  0 ≤ a * 1000 + b * 100 + c * 10 + d < 10000 ∧
  four (a * 1000 + b * 100 + c * 10 + d) = String (digit a) (String (digit b) (String (digit c) (String (digit d) EmptyString))).
Proof.
  intros Ha Hb Hc Hd. split; [lia|]. unfold four. set (v := a * 1000 + b * 100 + c * 10 + d).
  assert (v / 1000 = a ∧ v / 100 mod 10 = b ∧ v / 10 mod 10 = c ∧ v mod 10 = d) as (-> & -> & -> & ->); [|done].
  unfold v. split_and!; Z.to_euclidean_division_equations; lia.
Qed.

Lemma two_of a b :
  0 ≤ a ≤ 9 → 0 ≤ b ≤ 9 → 0 ≤ a * 10 + b < 100 ∧ two (a * 10 + b) = String (digit a) (String (digit b) EmptyString).
Proof.
  intros Ha Hb. split; [lia|]. unfold two. set (v := a * 10 + b).
  assert (v / 10 = a ∧ v mod 10 = b) as (-> & ->); [|done].
  unfold v. split_and!; Z.to_euclidean_division_equations; lia.
Qed.

Lemma canonical_some y m d r :
  0 ≤ d → canonical_date y m d = Some r → valid_date (y, m, d) ∧ r = fmt_ymd y m d.
Proof.
  unfold canonical_date. intros Hd. destruct (Z.leb_spec 1 m), (Z.leb_spec m 12), (Z.eqb_spec d 0),
    (Z.ltb_spec (days_in_month y m) d); simpl; try done. intros [= <-]. split; [simpl; lia|done].
Qed.

Lemma string_of_length n (s : string) :
  String.length s = S n → ∃ a s', s = String a s' ∧ String.length s' = n.
Proof. destruct s as [|a s]; [done|]. intros [= H]. eauto. Qed.

(** The texts the strict check accepts are those of four-digit dates, and it leaves
    them as they are. *)
Lemma strict_some raw r : strict_civil_date raw = Some r → r = raw ∧ ∃ y m d, plain_date y m d ∧ raw = ymd y m d.
Proof.
  unfold strict_civil_date. destruct (Nat.eqb_spec (String.length raw) 10) as [Hl|]; [|done]. cbn [negb].
  destruct (has_byte 4 "-" raw) eqn:H4; [|done]. destruct (has_byte 7 "-" raw) eqn:H7; [|done]. cbn [negb orb].
  match goal with |- (if negb ?b then _ else _) = _ → _ => destruct b eqn:Hall; [|done] end. cbn [negb].
  do 10 (let a := fresh "a" in let s := fresh "s" in apply string_of_length in Hl as (a & s & -> & Hl)).
  match type of Hl with String.length ?s = _ => destruct s; [|done] end. clear Hl.
  unfold has_byte, byte_at in H4, H7. simpl in H4, H7. apply bool_decide_eq_true in H4, H7. simplify_eq.
  unfold digit_at, byte_at in Hall. cbn in Hall. rewrite !andb_true_iff in Hall.
  destruct Hall as (D0 & D1 & D2 & D3 & _ & D5 & D6 & _ & D8 & D9 & _).
  apply is_digit_digit in D0 as (k0 & K0 & ->), D1 as (k1 & K1 & ->), D2 as (k2 & K2 & ->), D3 as (k3 & K3 & ->),
    D5 as (k5 & K5 & ->), D6 as (k6 & K6 & ->), D8 as (k8 & K8 & ->), D9 as (k9 & K9 & ->).
  destruct (four_of k0 k1 k2 k3) as [Hy Fy]; [lia..|]. destruct (two_of k5 k6) as [Hm Fm]; [lia..|].
  destruct (two_of k8 k9) as [Hd Fd]; [lia..|].
  set (y := k0 * 1000 + k1 * 100 + k2 * 10 + k3) in *. set (m := k5 * 10 + k6) in *. set (d := k8 * 10 + k9) in *.
  match goal with |- (parse_ymd ?t ≫= _) = _ → _ => assert (Ht : t = ymd y m d) end.
  { unfold ymd. rewrite Fy, Fm, Fd. done. }
  rewrite Ht. unfold parse_ymd.
  change (slice_str 0 4 (ymd y m d)) with (four y). change (slice_str 5 7 (ymd y m d)) with (two m).
  change (slice_str 8 10 (ymd y m d)) with (two d). change (String.length (ymd y m d)) with 10%nat. cbn [Nat.eqb negb].
  destruct (fmt_four y) as (_ & -> & _); [lia|]. destruct (fmt_two m) as (_ & -> & _); [lia|].
  destruct (fmt_two d) as (_ & -> & _); [lia|]. cbn [mbind option_bind].
  intros [Hv ->]%canonical_some; [|lia]. assert (Hp : plain_date y m d) by (split; [done|lia]).
  rewrite fmt_ymd_plain by done. split; [done|]. by exists y, m, d.
Qed.

Lemma parse_int_bound lo hi s v :
  lo ≤ 0 → parse_int lo hi s = Some v →
  - 10 ^ (Z.of_nat (String.length s) - 1) < v < 10 ^ Z.of_nat (String.length s) ∧ lo ≤ v ∧ (lo = 0 → 0 ≤ v).
Proof.
  intros Hlo. assert (Hin : ∀ v w, in_range lo hi v = Some w → w = v ∧ lo ≤ v).
  { clear. unfold in_range. intros v w. destruct (Z.leb_spec lo v), (v <=? hi); simpl; try done. by intros [= <-]. }
  destruct s as [|a s]; [done|]. cbn [String.length]. rewrite Nat2Z.inj_succ.
  replace (Z.succ (Z.of_nat (String.length s)) - 1) with (Z.of_nat (String.length s)) by lia.
  rewrite Z.pow_succ_r by lia. assert (Hpos : 0 < 10 ^ Z.of_nat (String.length s)) by (apply Z.pow_pos_nonneg; lia).
  assert (Hplain : (n ← parse_digits (String a s); in_range lo hi n) = Some v →
    - 10 ^ Z.of_nat (String.length s) < v < 10 * 10 ^ Z.of_nat (String.length s) ∧ lo ≤ v ∧ (lo = 0 → 0 ≤ v)).
  { intros (n & Hn%parse_digits_bound & [-> ?]%Hin)%bind_Some. cbn [String.length] in Hn.
    rewrite Nat2Z.inj_succ, Z.pow_succ_r in Hn by lia. lia. }
  assert (Hsign : ∀ b, a = b → (if Ascii.eqb b "+" || Ascii.eqb b "-" then True else True)) by (intros; by case_match).
  clear Hsign. unfold parse_int. destruct (Ascii.eqb_spec a "+") as [->|Hplus].
  { intros (n & Hn%parse_digits_bound & [-> ?]%Hin)%bind_Some. lia. }
  destruct (Ascii.eqb_spec a "-") as [->|Hminus].
  { destruct (Z.ltb_spec lo 0); [|done]. intros (n & Hn%parse_digits_bound & [-> ?]%Hin)%bind_Some. lia. }
  intros H. apply Hplain. rewrite <- H. destruct a as [[] [] [] [] [] [] [] []]; done.
Qed.

Lemma parse_i64_bound n s v :
  String.length s = n → parse_i64 s = Some v → - 10 ^ (Z.of_nat n - 1) < v < 10 ^ Z.of_nat n.
Proof. intros <- H. by destruct (parse_int_bound (-9223372036854775808) _ s v ltac:(lia) H) as [Hb _]. Qed.

(** A date of the calendar, its year perhaps with a minus sign. *)
Definition real_date (text : string) : Prop :=
  ∃ y m d, valid_date (y, m, d) ∧ -999 ≤ y ≤ 9999 ∧ text = fmt_ymd y m d.

Lemma parse_u32_nonneg s v : parse_u32 s = Some v → 0 ≤ v.
Proof. intros H. destruct (parse_int_bound 0 _ s v ltac:(lia) H) as (_ & _ & Hn). auto. Qed.

Lemma canonical_real y m d r : 0 ≤ d → -999 ≤ y ≤ 9999 → canonical_date y m d = Some r → real_date r.
Proof. intros Hd Hy [Hv ->]%canonical_some; [|done]. by exists y, m, d. Qed.

Lemma plain_real y m d : plain_date y m d → real_date (ymd y m d).
Proof. intros Hp. exists y, m, d. rewrite fmt_ymd_plain by done. destruct Hp. split; [done|]. split; [lia|done]. Qed.

Lemma strict_real raw r : strict_civil_date raw = Some r → real_date r.
Proof. intros (-> & y & m & d & Hp & ->)%strict_some. by apply plain_real. Qed.

Section anchored.
Context (ay am ad : Z) (Hanchor : plain_date ay am ad) (Hay : ay ≤ 9998).
Abbreviation anchor := (ymd ay am ad).

Lemma anchor_parses : parse_ymd anchor = Some (ay, am, ad).
Proof using Hanchor. by apply parse_ymd_plain. Qed.

Lemma anchor_bounds : 0 ≤ ay ≤ 9998 ∧ 1 ≤ am ≤ 12.
Proof using Hanchor Hay. destruct Hanchor as [[? _] ?]. lia. Qed.

Lemma nearest_real m d r : 0 ≤ d → nearest_date_on_or_after anchor m d = Some r → real_date r.
Proof using Hanchor Hay.
  intros Hd. unfold nearest_date_on_or_after. rewrite anchor_parses. pose proof anchor_bounds. cbn [mbind option_bind].
  destruct (canonical_date ay m d) as [r0|] eqn:Hc.
  - case_match; [intros H1; eapply canonical_real, H1; lia|]. intros [= <-]. eapply canonical_real, Hc; lia.
  - intros H1. eapply canonical_real, H1; lia.
Qed.

Lemma search_months_real d weekday offsets r :
  0 ≤ d → Forall (fun o => 0 ≤ o ≤ 12) offsets →
  search_months anchor (ay * 12 + am - 1) d weekday offsets = Some r → real_date r.
Proof using Hanchor Hay.
  intros Hd Ho. pose proof anchor_bounds. induction Ho as [|o offsets Ho _ IH]; [done|]. cbn [search_months].
  destruct (canonical_date _ _ d) as [date|] eqn:Hc; [|done]. case_match; [done|].
  assert (Hr : real_date date).
  { eapply canonical_real, Hc; [lia|]. Z.to_euclidean_division_equations. lia. }
  case_match; [|done]. by intros [= <-].
Qed.

Lemma nearest_day_real d weekday r : 0 ≤ d → nearest_day_of_month_on_or_after anchor d weekday = Some r → real_date r.
Proof using Hanchor Hay.
  intros Hd. unfold nearest_day_of_month_on_or_after. rewrite anchor_parses. cbn [mbind option_bind].
  apply search_months_real; [done|]. apply Forall_forall. intros o Ho%elem_of_seqZ. lia.
Qed.

Lemma civil_real days :
  days_from_civil ay am ad ≤ days ≤ days_from_civil ay am ad + 7 →
  let '(y, m, d) := civil_from_days days in canonical_date y m d = Some (ymd y m d) ∧ plain_date y m d.
Proof using Hanchor Hay.
  intros Hd. destruct Hanchor as [Hv Hy]. pose proof (days_in_month_le ay am) as Hl.
  assert (H0 : -719529 < days_from_civil ay am ad < 2932532).
  { split; apply civil_key_lt; rewrite (civil_of_days ay am ad) by done; destruct Hv as [Hm Hd'].
    - change (civil_from_days (-719529)) with (-1, 12, 31). simpl. lia.
    - change (civil_from_days 2932532) with (9999, 1, 1). simpl. lia. }
  pose proof (days_plain days ltac:(lia)) as Hp. destruct (civil_from_days days) as [[y m] d].
  split; [by apply canonical_plain|done].
Qed.

Lemma relative_real tokens r : parse_relative_date tokens anchor = Some r → real_date r.
Proof using Hanchor Hay.
  unfold parse_relative_date. destruct tokens as [|token [|? ?]]; [done| |done].
  destruct (string_eqb token "today"); [by intros [= <-]; apply plain_real|].
  destruct (string_eqb token "tomorrow"); [|done].
  rewrite day_number_plain by done. cbn [mbind option_bind].
  pose proof (civil_real (days_from_civil ay am ad + 1) ltac:(lia)) as Hc.
  destruct (civil_from_days _) as [[y m] d]. destruct Hc as [-> Hp]. intros [= <-]. by apply plain_real.
Qed.

Lemma numeric_year_range raw y : numeric_year raw = Some y → -999 ≤ y ≤ 9999.
Proof.
  unfold numeric_year. destruct (Nat.eqb_spec (String.length raw) 4) as [H4|].
  { intros Hb%(parse_i64_bound 4); [|done]. simpl in Hb. lia. }
  destruct (Nat.eqb_spec (String.length raw) 2) as [H2|]; [|done].
  intros (v & H & [= <-])%bind_Some.
  apply (parse_i64_bound 2) in H; [|done]. simpl in H. lia.
Qed.

Lemma numeric_real tokens r : parse_numeric_date tokens anchor = Some r → real_date r.
Proof using Hanchor Hay.
  unfold parse_numeric_date. destruct tokens as [|token [|? ?]]; [done| |done].
  intros (sep & _ & H)%bind_Some. destruct (split_on sep token) as [|mo [|da years]]; [done..|].
  case_bool_decide as Hlen; [done|]. apply bind_Some in H as (m & Hm & H). apply bind_Some in H as (d & Hd & H).
  apply parse_u32_nonneg in Hd. case_match; [done|]. rewrite anchor_parses in H. cbn [mbind option_bind] in H.
  destruct years as [|raw [|? ?]]; cbn [head length] in *; [by eapply nearest_real, H| |exfalso; lia].
  apply bind_Some in H as (y & Hy & H). apply bind_Some in H as (date & Hc & H). cbn [Nat.eqb orb] in H.
  injection H as <-. eapply canonical_real, Hc; [done|by eapply numeric_year_range].
Qed.

Lemma day_token_range token d : parse_day_token token = Some d → 1 ≤ d ≤ 31.
Proof.
  unfold parse_day_token. intros (v & _ & H)%bind_Some.
  destruct (Z.leb_spec 1 v), (Z.leb_spec v 31); simpl in H; try done. injection H as <-. lia.
Qed.

Lemma month_name_real tokens r : parse_month_name_date tokens ay anchor = Some r → real_date r.
Proof using Hanchor Hay.
  unfold parse_month_name_date. generalize (weekday_index (default ""%string (head tokens))). intros weekday.
  generalize (match weekday with Some _ => drop 1 tokens | None => tokens end). clear tokens. intros tokens.
  case_bool_decide; [|done]. intros (m & _ & H1)%bind_Some. apply bind_Some in H1 as (d & Hd & H1).
  apply bind_Some in Hd as (token & _ & Hd%day_token_range). apply bind_Some in H1 as (date & Hdate & H1).
  assert (Hr : real_date date).
  { pose proof anchor_bounds. destruct (tokens !! 2%nat) as [year|].
    - destruct (Nat.eqb_spec (String.length year) 4) as [H4|]; [|done]. simpl in Hdate.
      apply bind_Some in Hdate as (y & Hy & Hdate). eapply canonical_real, Hdate; [lia|].
      apply (parse_i64_bound 4) in Hy; [|done]. simpl in Hy. lia.
    - destruct (nearest_date_on_or_after anchor m d) as [near|] eqn:Hn.
      + injection Hdate as <-. eapply nearest_real, Hn. lia.
      + eapply canonical_real, Hdate; lia. }
  destruct weekday as [expected|]; [|by injection H1 as <-].
  apply bind_Some in H1 as (actual & _ & H1). case_match; [done|]. by injection H1 as <-.
Qed.

(** Some day of any seven has the weekday. *)
Lemma search_week_finds weekday from n r :
  0 ≤ from → from + Z.of_nat n ≤ 8 →
  search_week (days_from_civil ay am ad) weekday (seqZ from (Z.of_nat n)) = Some r → real_date r.
Proof using Hanchor Hay.
  revert from. induction n as [|n IH]; intros from Hf Hn; [done|].
  rewrite seqZ_cons by lia. cbn [search_week]. case_match.
  - pose proof (civil_real (days_from_civil ay am ad + from) ltac:(lia)) as Hc.
    destruct (civil_from_days _) as [[y m] d]. destruct Hc as [-> Hp]. intros [= <-]. by apply plain_real.
  - replace (Z.pred (Z.of_nat (S n))) with (Z.of_nat n) by lia. apply IH; lia.
Qed.

Lemma day_or_weekday_real tokens r : parse_day_or_weekday_date tokens anchor = Some r → real_date r.
Proof using Hanchor Hay.
  unfold parse_day_or_weekday_date. rewrite day_number_plain by done. cbn [mbind option_bind].
  destruct tokens as [|token [|day [|? ?]]]; [done| | |done].
  - destruct (weekday_index token) as [weekday|].
    + apply (search_week_finds weekday 1 7%nat); lia.
    + intros (d & Hd%day_token_range & H)%bind_Some. eapply nearest_day_real, H. lia.
  - intros (weekday & _ & H)%bind_Some. apply bind_Some in H as (d & Hd%day_token_range & H).
    eapply nearest_day_real, H. lia.
Qed.

Lemma contextual_real text context r :
  anchor_date context = anchor → parse_contextual_date text context = Ok r → real_date r.
Proof using Hanchor Hay.
  unfold parse_contextual_date. intros ->. rewrite anchor_parses. simpl ok_or. cbn [mbind Result_bind].
  set (tokens := filter _ _). unfold first_some. cbn [foldr fst snd].
  destruct (parse_relative_date tokens anchor) eqn:H1; [intros [= <-]; by eapply relative_real|].
  destruct (parse_numeric_date tokens anchor) eqn:H2; [intros [= <-]; by eapply numeric_real|].
  destruct (parse_month_name_date tokens ay anchor) eqn:H3; [intros [= <-]; by eapply month_name_real|].
  destruct (parse_day_or_weekday_date tokens anchor) eqn:H4; [intros [= <-]; by eapply day_or_weekday_real|done].
Qed.
End anchored.

(** ** Guarantees *)

(** A context whose date is a calendar date before the year 9999. *)
Definition good_context (c : DateInputContext) : Prop :=
  ∃ y m d, plain_date y m d ∧ y ≤ 9998 ∧ anchor_date c = fmt_ymd y m d.

Lemma from_epoch_good ms zone : (ms < 253370764800000)%N → good_context (from_epoch_ms ms zone).
Proof.
  intros Hms. pose proof (instant_text ms ltac:(lia)) as H. cbv zeta in H.
  assert (Hlt : Z.of_N (ms / 1000) / 86400 < 2932532)
    by (rewrite N2Z.inj_div; Z.to_euclidean_division_equations; lia).
  apply civil_key_lt in Hlt. change (civil_from_days 2932532) with (9999, 1, 1) in Hlt.
  destruct (civil_from_days (Z.of_N (ms / 1000) / 86400)) as [[y m] d]. destruct H as (Hp & Hr & Htext).
  exists y, m, d. split; [done|]. split.
  { destruct Hp as [[Hm Hd] ?]. simpl in Hlt. lia. }
  unfold from_epoch_ms, epoch_ms_to_utc_date. simpl. rewrite Htext, fmt_ymd_plain by done.
  rewrite take_chars_visible; [done|]. apply instant_visible; [by apply date_bytes|]. apply time_bytes; lia.
Qed.

Lemma split_words_visible w l :
  forallb visible l = true → split_words w l = match reverse w ++ l with [] => [] | word => [word] end.
Proof.
  revert w. induction l as [|a l IH]; intros w Hl.
  { rewrite app_nil_r. destruct w as [|b w]; [done|]. cbn [split_words]. rewrite reverse_cons.
    by destruct (reverse w). }
  simpl in Hl. apply andb_true_iff in Hl as [Ha Hl].
  assert (Hb : (33 <= byte_of a <= 126)%N).
  { unfold visible in Ha. apply andb_true_iff in Ha as [H1%N.leb_le H2%N.leb_le]. lia. }
  assert (Hw1 : is_ws1 a = false).
  { unfold is_ws1. repeat match goal with |- context [(?x <=? ?y)%N] => destruct (N.leb_spec x y) end;
    repeat match goal with |- context [(?x =? ?y)%N] => destruct (N.eqb_spec x y) end; simpl; lia || done. }
  assert (Hw2 : ∀ b, is_ws2 a b = false).
  { intros b. unfold is_ws2. destruct (N.eqb_spec (byte_of a) 194); simpl; lia || done. }
  assert (Hw3 : ∀ b c, is_ws3 a b c = false).
  { intros b c. unfold is_ws3. repeat match goal with |- context [(byte_of a =? ?y)%N] => destruct (N.eqb_spec (byte_of a) y) end;
    simpl; lia || done. }
  cbn [split_words]. rewrite Hw1.
  assert (Hrec : split_words (a :: w) l = [reverse w ++ a :: l]).
  { rewrite IH by done. rewrite reverse_cons, <- app_assoc. by destruct (reverse w). }
  rewrite <- (app_nil_r (reverse w ++ _)). destruct l as [|b l]; [|rewrite Hw2; destruct l as [|c l]; [|rewrite Hw3]];
    rewrite Hrec, app_nil_r; by destruct (reverse w).
Qed.

Lemma normalize_spaces_visible s : all_visible s = true → s ≠ ""%string → normalize_spaces s = s.
Proof.
  intros Hv Hne. unfold normalize_spaces, split_whitespace. rewrite split_words_visible by done. simpl.
  destruct (String.list_ascii_of_string s) as [|a l] eqn:Hs; [by destruct s|].
  simpl. change (String a (String.string_of_list_ascii l)) with (String.string_of_list_ascii (a :: l)).
  by rewrite <- Hs, String.string_of_list_ascii_of_string.
Qed.

Lemma plain_ymd_visible y m d : plain_date y m d → all_visible (ymd y m d) = true.
Proof. intros Hp. by apply date_bytes_visible, date_bytes. Qed.

Lemma normalize_plain y m d context : plain_date y m d → normalize_civil_date (ymd y m d) context = Ok (ymd y m d).
Proof.
  intros Hp. unfold normalize_civil_date. rewrite normalize_spaces_visible by (done || by apply plain_ymd_visible).
  change (is_empty (ymd y m d)) with false. by rewrite strict_plain.
Qed.

Lemma rfc3339_date_real raw r : rfc3339_date_part raw = Some r → real_date r.
Proof.
  unfold rfc3339_date_part. destruct (is_rfc3339_with_offset raw) eqn:Hr; [|by rewrite andb_false_r].
  unfold is_rfc3339_with_offset in Hr. destruct (String.length raw <? 20)%nat; [done|].
  rewrite andb_true_r. destruct (20 <=? String.length raw)%nat; [|by intros]. intros [= <-].
  match type of Hr with (if ?a || _ then _ else _) = _ => destruct a; [done|] end. cbn [orb] in Hr.
  case_bool_decide as Hs; [done|]. clear Hr.
  destruct (strict_civil_date (slice_str 0 10 raw)) as [r|] eqn:Hstrict; [|by destruct Hs].
  pose proof (strict_real _ _ Hstrict). by apply strict_some in Hstrict as [<- _].
Qed.

Lemma real_civil r : real_date r → is_civil_date r = negb (has_byte 0 "-" r).
Proof.
  intros (y & m & d & Hv & Hy & ->). destruct (Z.le_gt_cases 0 y) as [H0|H0].
  - assert (Hp : plain_date y m d) by (split; [done|lia]). rewrite fmt_ymd_plain by done.
    rewrite is_civil_plain by done. pose proof (plain_ranges _ _ _ Hp).
    destruct (four_digits y ltac:(lia)) as (Hd & _). symmetry. apply negb_true_iff, bool_decide_eq_false.
    unfold byte_at, ymd, four. simpl. intros [= He]. pose proof (digit_is _ Hd) as Hx. by rewrite He in Hx.
  - assert (Hneg : has_byte 0 "-" (fmt_ymd y m d) = true).
    { unfold fmt_ymd, fmt_pad at 1. destruct (Z.ltb_spec y 0); [done|lia]. }
    rewrite Hneg. apply bool_decide_eq_false. intros [r Hr].
    destruct (strict_some _ _ Hr) as (_ & y' & m' & d' & Hp & He). rewrite He in Hneg.
    pose proof (plain_ranges _ _ _ Hp). destruct (four_digits y' ltac:(lia)) as (Hd & _).
    apply bool_decide_eq_true in Hneg. unfold byte_at, ymd, four in Hneg. simpl in Hneg. injection Hneg as Hneg.
    pose proof (digit_is _ Hd) as Hx. by rewrite Hneg in Hx.
Qed.

Lemma accepted_real raw context r :
  (∀ c, context = Some c → good_context c) → normalize_civil_date raw context = Ok r → real_date r.
Proof.
  intros Hc Hr. unfold normalize_civil_date in Hr. case_match; [done|]. case_match eqn:Hs.
  { injection Hr as <-. by eapply strict_real. }
  case_match eqn:Hrfc; [injection Hr as <-; by eapply rfc3339_date_real|].
  destruct context as [c|]; [|done]. destruct (Hc c eq_refl) as (y & m & d & Hp & Hy & Ha).
  rewrite fmt_ymd_plain in Ha by done. exact (contextual_real y m d Hp Hy _ c r Ha Hr).
Qed.

(** C40: Whatever a person or a model writes for a date - against a context of a day before
    the year 9999 - an accepted date is a day that exists, of a year from -999 to 9999.
    It passes the strict check unless it begins with a minus sign, and what passes is in
    normal form: it reads as itself in every context. *)
Theorem accepted_dates_exist raw context r :
  (∀ c, context = Some c → good_context c) →
  normalize_civil_date raw context = Ok r →
  real_date r ∧ is_civil_date r = negb (has_byte 0 "-" r) ∧
  (is_civil_date r = true → ∀ context', normalize_civil_date r context' = Ok r).
Proof.
  intros Hc Hr. pose proof (accepted_real _ _ _ Hc Hr) as Hreal.
  split; [done|]. split; [by apply real_civil|].
  unfold is_civil_date. intros Hciv%bool_decide_eq_true context'. destruct Hciv as [r' Hs].
  destruct (strict_some _ _ Hs) as (_ & y & m & d & Hp & ->). by apply normalize_plain.
Qed.

(** A date without a year is the next one: the parser's answer for a month and a day
    is the first such date that is not before the context's day; it gives none only when
    neither that year nor the year after has the date. *)
Theorem yearless_date_is_next ay am ad m d :
  plain_date ay am ad → ay ≤ 9998 → 0 ≤ d →
  match nearest_date_on_or_after (fmt_ymd ay am ad) m d with
  | Some r => ∃ y, r = fmt_ymd y m d ∧ plain_date y m d ∧
      days_from_civil ay am ad ≤ days_from_civil y m d ∧
      ∀ y', plain_date y' m d → days_from_civil ay am ad ≤ days_from_civil y' m d →
        days_from_civil y m d ≤ days_from_civil y' m d
  | None => ¬ valid_date (ay + 1, m, d) ∧ (valid_date (ay, m, d) → days_from_civil ay m d < days_from_civil ay am ad)
  end.
Proof.
  intros Ha Hay Hd. rewrite fmt_ymd_plain by done. unfold nearest_date_on_or_after.
  rewrite parse_ymd_plain by done. cbn [mbind option_bind].
  assert (Hlt : ∀ y1 y2 m1 d1 m2 d2, plain_date y1 m1 d1 → plain_date y2 m2 d2 →
    days_from_civil y1 m1 d1 < days_from_civil y2 m2 d2 ↔ date_key (y1, m1, d1) < date_key (y2, m2, d2)).
  { intros y1 y2 m1 d1 m2 d2 H1 H2. rewrite civil_key_lt, !civil_of_days by (apply H1 || apply H2). done. }
  assert (Hcanon : ∀ y, ay ≤ y ≤ ay + 1 → canonical_date y m d = None ↔ ¬ valid_date (y, m, d)).
  { intros y _. unfold canonical_date, valid_date. destruct (Z.leb_spec 1 m), (Z.leb_spec m 12), (Z.eqb_spec d 0),
    (Z.ltb_spec (days_in_month y m) d); simpl; split; try done; lia. }
  assert (Hsome : ∀ y r, ay ≤ y ≤ ay + 1 → canonical_date y m d = Some r → plain_date y m d ∧ r = fmt_ymd y m d).
  { intros y r Hy [Hv ->]%canonical_some; [|done]. destruct Ha as [_ ?]. split; [split; [done|lia]|done]. }
  assert (Hnext : ∀ r, canonical_date (ay + 1) m d = Some r →
    (valid_date (ay, m, d) → days_from_civil ay m d < days_from_civil ay am ad) →
    ∃ y, r = fmt_ymd y m d ∧ plain_date y m d ∧ days_from_civil ay am ad ≤ days_from_civil y m d ∧
      ∀ y', plain_date y' m d → days_from_civil ay am ad ≤ days_from_civil y' m d →
        days_from_civil y m d ≤ days_from_civil y' m d).
  { intros r Hr Hb. destruct (Hsome (ay + 1) r ltac:(lia) Hr) as [Hp ->]. exists (ay + 1).
    pose proof (plain_ranges _ _ _ Hp). pose proof (plain_ranges _ _ _ Ha).
    assert (Hm12 : 1 ≤ am ≤ 12 ∧ 1 ≤ m ≤ 12) by (destruct Ha as [[? _] _], Hp as [[? _] _]; lia).
    assert (Hd31 : ad ≤ 31 ∧ d ≤ 31).
    { destruct Ha as [[_ ?] _], Hp as [[_ ?] _]. pose proof (days_in_month_le ay am). pose proof (days_in_month_le (ay + 1) m). lia. }
    split; [done|]. split; [done|]. split.
    - apply Z.lt_le_incl, Hlt; [done..|]. simpl. lia.
    - intros y' Hp' Hle. apply Z.nlt_ge. intros Hgt. apply Hlt in Hgt; [|done..].
      destruct (Z.le_gt_cases y' (ay - 1)).
      + apply Z.nlt_ge in Hle. apply Hle, Hlt; [done..|]. simpl. lia.
      + assert (y' = ay) as -> by (simpl in Hgt; lia). specialize (Hb (proj1 Hp')). lia. }
  destruct (canonical_date ay m d) as [date|] eqn:Hc.
  - destruct (Hsome ay date ltac:(lia) Hc) as [Hp ->]. rewrite (fmt_ymd_plain ay m d) by done.
    unfold String.ltb. rewrite ymd_compare by done.
    destruct (Z.compare_spec (days_from_civil ay m d) (days_from_civil ay am ad)) as [He|Hl|Hg].
    2: { destruct (canonical_date (ay + 1) m d) as [r|] eqn:Hn; [by apply Hnext|]. by apply Hcanon in Hn; [|lia]. }
    all: exists ay; rewrite fmt_ymd_plain by done; split; [done|]; split; [done|]; split; [lia|].
    all: intros y' Hp' Hle; apply Z.nlt_ge; intros Hgt; apply Hlt in Hgt; [|done..].
    all: assert (Hy' : y' ≤ ay - 1) by (simpl in Hgt; lia).
    all: pose proof (plain_ranges _ _ _ Ha); pose proof (plain_ranges _ _ _ Hp').
    all: destruct Ha as [[Ham Had] ?], Hp' as [[Hm' Hd'] ?]; pose proof (days_in_month_le y' m).
    all: apply Z.nlt_ge in Hle; apply Hle, Hlt; [by repeat split; lia..|]; simpl; lia.
  - apply Hcanon in Hc; [|lia]. destruct (canonical_date (ay + 1) m d) as [r|] eqn:Hn.
    + apply Hnext; [done|]. by intros ?%Hc.
    + apply Hcanon in Hn; [|lia]. split; [done|]. by intros ?%Hc.
Qed.

(** Some day of the next seven has the weekday. *)
Lemma search_week_some ay am ad weekday :
  plain_date ay am ad → ay ≤ 9998 → 0 ≤ weekday < 7 →
  ∃ y m d, search_week (days_from_civil ay am ad) weekday (seqZ 1 7) = Some (ymd y m d) ∧ plain_date y m d ∧
    weekday_for_days (days_from_civil y m d) = weekday ∧
    days_from_civil ay am ad < days_from_civil y m d ≤ days_from_civil ay am ad + 7.
Proof.
  intros Ha Hay Hw. set (day := days_from_civil ay am ad).
  assert (Hfrom : ∀ n from, 1 ≤ from → from + Z.of_nat n = 8 →
    (∃ k, from ≤ k ≤ 7 ∧ weekday_for_days (day + k) = weekday) →
    ∃ y m d, search_week day weekday (seqZ from (Z.of_nat n)) = Some (ymd y m d) ∧ plain_date y m d ∧
      weekday_for_days (days_from_civil y m d) = weekday ∧ day < days_from_civil y m d ≤ day + 7).
  { intros n. induction n as [|n IH]; intros from H1 Hn (k & Hk & Hwk); [lia|].
    rewrite seqZ_cons by lia. cbn [search_week]. destruct (Z.eqb_spec (weekday_for_days (day + from)) weekday) as [He|Hne].
    - pose proof (civil_real ay am ad Ha Hay (day + from) ltac:(fold day; lia)) as Hc.
      pose proof (days_of_civil (day + from)) as Hn'.
      destruct (civil_from_days (day + from)) as [[y m] d]. destruct Hc as [Hc Hp].
      exists y, m, d. rewrite Hn'. split_and!; [done|done|done|lia|lia].
    - replace (Z.pred (Z.of_nat (S n))) with (Z.of_nat n) by lia. apply IH; [lia|lia|].
      exists k. split; [|done]. destruct (Z.eq_dec k from) as [->|]; [done|lia]. }
  apply (Hfrom 7%nat 1); [lia|lia|].
  exists (1 + (weekday - day - 4) mod 7). split; [pose proof (Z.mod_pos_bound (weekday - day - 4) 7); lia|].
  unfold weekday_for_days. rewrite i64_to_u32_small by (pose proof (Z.mod_pos_bound (day + (1 + (weekday - day - 4) mod 7) + 3) 7); lia).
  Z.to_euclidean_division_equations. lia.
Qed.

Lemma weekday_index_range token w : weekday_index token = Some w → 0 ≤ w < 7.
Proof. unfold weekday_index. repeat case_match; intros [= <-]; lia. Qed.

(** A weekday's name alone always resolves: the search over the next seven days never
    runs out, and the answer is a day of that weekday, after the context's day and at
    most a week later. *)
Theorem weekday_resolves token w ay am ad :
  plain_date ay am ad → ay ≤ 9998 → weekday_index token = Some w →
  ∃ y m d, parse_day_or_weekday_date [token] (fmt_ymd ay am ad) = Some (fmt_ymd y m d) ∧ plain_date y m d ∧
    weekday_for_days (days_from_civil y m d) = w ∧
    days_from_civil ay am ad < days_from_civil y m d ≤ days_from_civil ay am ad + 7.
Proof.
  intros Ha Hay Hw. destruct (search_week_some ay am ad w Ha Hay (weekday_index_range _ _ Hw)) as (y & m & d & Hs & Hp & Hr).
  exists y, m, d. rewrite !fmt_ymd_plain by done. unfold parse_day_or_weekday_date.
  rewrite day_number_plain by done. cbn [mbind option_bind]. by rewrite Hw.
Qed.

(** ** Witnesses *)

Definition june_9 : plain_date 2026 6 9.
Proof. repeat split; discriminate. Defined.

Lemma instant_text_roundtrip_witness :
  epoch_ms_to_rfc3339_utc 1781000000000 = "2026-06-09T10:13:20Z"%string ∧
  parse_rfc3339_ms (epoch_ms_to_rfc3339_utc 1781000000000) = Some 1781000000000.
Proof. split; [by vm_compute|]. by destruct (instant_text_roundtrip 1781000000000) as (_ & _ & _ & H). Defined.

Lemma date_texts_ordered_witness : String.compare (fmt_ymd 2026 6 9) (fmt_ymd 2026 12 1) = Lt.
Proof. rewrite date_texts_ordered; [by vm_compute|apply june_9|repeat split; discriminate]. Defined.

Definition june_context : DateInputContext := from_epoch_ms 1781000000000 "UTC".

Lemma accepted_dates_exist_witness :
  normalize_civil_date "7/7/-123" (Some june_context) = Ok "-123-07-07"%string ∧
  real_date "-123-07-07" ∧ is_civil_date "-123-07-07" = false ∧
  normalize_civil_date "Tuesday the 7th" (Some june_context) = Ok "2026-07-07"%string ∧ real_date "2026-07-07".
Proof.
  assert (Hc : ∀ c, Some june_context = Some c → good_context c) by (intros c [= <-]; by apply from_epoch_good).
  assert (H1 : normalize_civil_date "7/7/-123" (Some june_context) = Ok "-123-07-07"%string) by by vm_compute.
  assert (H2 : normalize_civil_date "Tuesday the 7th" (Some june_context) = Ok "2026-07-07"%string) by by vm_compute.
  destruct (accepted_dates_exist _ _ _ Hc H1) as (Hr1 & Hs1 & _). destruct (accepted_dates_exist _ _ _ Hc H2) as (Hr2 & _).
  split; [exact H1|]. split; [exact Hr1|]. split; [exact Hs1|]. split; [exact H2|exact Hr2].
Defined.

Lemma yearless_date_is_next_witness :
  nearest_date_on_or_after (fmt_ymd 2026 6 9) 1 2 = Some "2027-01-02"%string ∧
  ∃ y, "2027-01-02"%string = fmt_ymd y 1 2 ∧ days_from_civil 2026 6 9 ≤ days_from_civil y 1 2.
Proof.
  assert (H : nearest_date_on_or_after (fmt_ymd 2026 6 9) 1 2 = Some "2027-01-02"%string) by by vm_compute.
  split; [exact H|]. pose proof (yearless_date_is_next 2026 6 9 1 2 june_9) as Hn. rewrite H in Hn.
  destruct Hn as (y & Hy & _ & Hle & _); [discriminate|discriminate|]. exists y. split; [exact Hy|exact Hle].
Defined.

Lemma weekday_resolves_witness :
  parse_day_or_weekday_date ["wednesday"%string] (fmt_ymd 2026 6 9) = Some "2026-06-10"%string ∧
  ∃ y m d, parse_day_or_weekday_date ["wednesday"%string] (fmt_ymd 2026 6 9) = Some (fmt_ymd y m d) ∧
    weekday_for_days (days_from_civil y m d) = 2.
Proof.
  split; [by vm_compute|].
  destruct (weekday_resolves "wednesday" 2 2026 6 9 june_9) as (y & m & d & Hr & _ & Hw & _);
    [discriminate|by vm_compute|]. exists y, m, d. split; [exact Hr|exact Hw].
Defined.

(** * The webhook reads RFC 3339 *)

Import Ingress Calendar DateInput.
Local Open Scope Z_scope.
Local Arguments String.append : simpl nomatch.

(** ** The grammar *)

Inductive Zone := Zulu | Offset (east : bool) (hours minutes : Z).

Definition zone_ok (zone : Zone) : Prop :=
  match zone with Zulu => True | Offset _ h m => 0 ≤ h ≤ 23 ∧ 0 ≤ m ≤ 59 end.
Definition zone_minutes (zone : Zone) : Z :=
  match zone with Zulu => 0 | Offset east h m => (if east then 1 else -1) * (h * 60 + m) end.
Definition zone_text (zone : Zone) : string :=
  match zone with
  | Zulu => "Z"
  | Offset east h m => String (if east then "+"%char else "-"%char) (two h +:+ ":" +:+ two m)
  end.

(** The digits of a fraction; none means there is no point either. *)
Definition digits_text (frac : list Z) : string := foldr (fun k s => String (digit k) s) ""%string frac.
Definition frac_ok (frac : list Z) : Prop := Forall (fun k => 0 ≤ k ≤ 9) frac.
Definition frac_text (frac : list Z) : string := match frac with [] => ""%string | _ => "." +:+ digits_text frac end.
Definition frac_millis (frac : list Z) : Z := nth 0 frac 0 * 100 + nth 1 frac 0 * 10 + nth 2 frac 0.

(** A date by its numbers, whether the month has the day or not. *)
Definition wide_date (y m d : Z) : Prop := 0 ≤ y ≤ 9999 ∧ 1 ≤ m ≤ 12 ∧ 1 ≤ d ≤ 31.
Definition wide_time (h mi s : Z) : Prop := 0 ≤ h ≤ 23 ∧ 0 ≤ mi ≤ 59 ∧ 0 ≤ s ≤ 60.

Definition instant (y m d h mi s : Z) (frac : list Z) (zone : Zone) : string :=
  ymd y m d +:+ "T" +:+ hms h mi s +:+ frac_text frac +:+ zone_text zone.

(** ** Pieces *)

Lemma digits_all frac : frac_ok frac → all_bytes is_digit (digits_text frac) = true.
Proof.
  intros Hf. induction Hf as [|k frac Hk _ IH]; [done|]. unfold all_bytes in *. simpl. by rewrite digit_is, IH.
Qed.

Definition three (v : Z) : string := String (digit (v / 100)) (two (v mod 100)).
Definition three_reads (v : Z) : bool := bool_decide (parse_i64 (three v) = Some v).

Lemma parse_three a b c :
  0 ≤ a ≤ 9 → 0 ≤ b ≤ 9 → 0 ≤ c ≤ 9 →
  parse_i64 (String (digit a) (String (digit b) (String (digit c) EmptyString))) = Some (a * 100 + b * 10 + c).
Proof.
  intros Ha Hb Hc. set (v := a * 100 + b * 10 + c).
  assert (He : String (digit a) (String (digit b) (String (digit c) EmptyString)) = three v).
  { destruct (two_of b c Hb Hc) as [_ Ht]. unfold three. assert (v / 100 = a ∧ v mod 100 = b * 10 + c) as [-> ->].
    { unfold v. split; Z.to_euclidean_division_equations; lia. }
    by rewrite Ht. }
  rewrite He. apply (bool_decide_eq_true_1 _). apply (all_below_spec (N.to_nat 1000) three_reads); [by vm_compute|lia].
Qed.

Lemma parse_millis_frac frac :
  frac_ok frac → parse_millis (match frac with [] => None | _ => Some (digits_text frac) end) = Some (frac_millis frac).
Proof.
  intros Hf. destruct frac as [|a frac]; [done|]. unfold parse_millis. rewrite digits_all by done. simpl negb. cbn [andb].
  apply Forall_cons in Hf as [Ha Hf]. unfold frac_millis.
  destruct frac as [|b frac]; [exact (parse_three a 0 0 Ha ltac:(lia) ltac:(lia))|].
  apply Forall_cons in Hf as [Hb Hf]. destruct frac as [|c frac]; [exact (parse_three a b 0 Ha Hb ltac:(lia))|].
  apply Forall_cons in Hf as [Hc Hf].
  assert (Hs : slice_str 0 3 (digits_text (a :: b :: c :: frac) +:+ "000") = String (digit a) (String (digit b) (String (digit c) EmptyString))).
  { unfold slice_str. simpl. by destruct (digits_text frac). }
  rewrite Hs. by apply parse_three.
Qed.

Lemma strip_last_other c a s : a ≠ c → strip_last c (s +:+ String a EmptyString) = None.
Proof.
  intros Ha. induction s as [|b s IH]; simpl.
  - by destruct (Ascii.eqb_spec a c).
  - rewrite IH. by destruct (s +:+ String a EmptyString) eqn:He; [destruct s|].
Qed.

Definition unsigned (s : string) : bool := all_bytes (fun a => negb (Ascii.eqb a "+" || Ascii.eqb a "-")) s.

Lemma rfind_none i s : unsigned s = true → rfind_sign i s = None.
Proof.
  unfold unsigned, all_bytes. revert i. induction s as [|a s IH]; intros i; simpl; [done|].
  intros [Ha%negb_true_iff Hs]%andb_true_iff. by rewrite IH, Ha.
Qed.

Lemma rfind_app i s a t :
  Ascii.eqb a "+" || Ascii.eqb a "-" = true → unsigned t = true →
  rfind_sign i (s +:+ String a t) = Some (i + String.length s)%nat.
Proof.
  intros Ha Ht. revert i. induction s as [|b s IH]; intros i; simpl.
  - rewrite rfind_none, Ha by done. by rewrite Nat.add_0_r.
  - rewrite IH. f_equal. lia.
Qed.

Lemma string_length_app s t : String.length (s +:+ t) = (String.length s + String.length t)%nat.
Proof. induction s as [|a s IH]; simpl; [done|by rewrite IH]. Qed.

Lemma substring_all s n : (String.length s ≤ n)%nat → String.substring 0 n s = s.
Proof. revert n. induction s as [|a s IH]; intros n Hn; destruct n; simpl in *; try done; try lia. by rewrite IH by lia. Qed.

Lemma slice_app_tail s t : slice_str (String.length s) (String.length (s +:+ t)) (s +:+ t) = t.
Proof.
  unfold slice_str. rewrite string_length_app. replace (_ - _)%nat with (String.length t) by lia.
  induction s as [|a s IH]; simpl; [by apply substring_all|done].
Qed.

Lemma parse_offset_text (east : bool) h m :
  0 ≤ h ≤ 23 → 0 ≤ m ≤ 59 →
  parse_offset_minutes (String (if east then "+"%char else "-"%char) (two h +:+ ":" +:+ two m))
  = Some ((if east then 1 else -1) * (h * 60 + m)).
Proof.
  intros Hh Hm. unfold parse_offset_minutes.
  assert (Hsplit : split_once ":" (two h +:+ ":" +:+ two m) = Some (two h, two m)).
  { change (two h +:+ ":" +:+ two m) with (two h +:+ String ":" (two m)). apply split_once_app.
    apply digits_lack; [done|]. apply two_all. lia. }
  destruct (fmt_two h ltac:(lia)) as (_ & _ & Ph), (fmt_two m ltac:(lia)) as (_ & _ & Pm).
  destruct east; cbn [mbind option_bind]; rewrite Hsplit; change (String.length _ =? 4)%nat with false; cbn [andb mbind option_bind];
    rewrite Ph; cbn [mbind option_bind]; rewrite Pm; cbn [mbind option_bind];
    (destruct (Z.leb_spec 0 h), (Z.leb_spec h 23), (Z.leb_spec 0 m), (Z.leb_spec m 59); try lia); done.
Qed.

Lemma unsigned_digits s : all_bytes is_digit s = true → unsigned s = true.
Proof.
  apply all_bytes_impl. intros a Ha. apply negb_true_iff.
  destruct (Ascii.eqb_spec a "+") as [->|]; [done|]. by destruct (Ascii.eqb_spec a "-") as [->|].
Qed.

Lemma unsigned_app s t : unsigned (s +:+ t) = unsigned s && unsigned t.
Proof. apply all_bytes_app. Qed.

Lemma split_offset_zone s zone :
  (10 ≤ String.length s)%nat → zone_ok zone → split_offset (s +:+ zone_text zone) = Some (s, zone_minutes zone).
Proof.
  intros Hl Hz. unfold split_offset. destruct zone as [|east h m].
  - change (zone_text Zulu) with (String "Z" EmptyString). by rewrite strip_last_app.
  - destruct Hz as [Hh Hm]. unfold zone_text. set (sg := if east then "+"%char else "-"%char).
    destruct (two_digits m ltac:(lia)) as [_ Hlast].
    assert (Hend : s +:+ String sg (two h +:+ ":" +:+ two m) =
      (s +:+ String sg (two h +:+ ":" +:+ String (digit (m / 10)) EmptyString)) +:+ String (digit (m mod 10)) EmptyString)
      by by rewrite string_app_assoc.
    assert (Hno : ∀ c, is_digit c = false → strip_last c (s +:+ String sg (two h +:+ ":" +:+ two m)) = None).
    { intros c Hc. rewrite Hend. apply strip_last_other. intros He. by rewrite <- He, digit_is in Hc. }
    rewrite !Hno by done.
    assert (Hun : unsigned (two h +:+ ":" +:+ two m) = true).
    { rewrite !unsigned_app, (unsigned_digits (two h)), (unsigned_digits (two m)) by (apply two_all; lia). done. }
    rewrite rfind_app by (done || by destruct east). cbn [mbind option_bind plus].
    assert (Hlt : (String.length s <? 10)%nat = false) by (apply Nat.ltb_ge; lia). rewrite Hlt.
    rewrite slice_app_tail, slice_app_0. unfold sg. rewrite parse_offset_text by done. done.
Qed.

(** ** The webhook *)

Lemma wide_ranges y m d : wide_date y m d → 0 ≤ y < 10000 ∧ 0 ≤ m < 100 ∧ 0 ≤ d < 100.
Proof. unfold wide_date. lia. Qed.

Lemma wide_bytes y m d : wide_date y m d → all_bytes date_byte (ymd y m d) = true.
Proof.
  intros H%wide_ranges. unfold ymd. rewrite !all_bytes_app.
  rewrite (digits_date_bytes (four y)) by (apply four_all; lia).
  by rewrite (digits_date_bytes (two m)), (digits_date_bytes (two d)) by (apply two_all; lia).
Qed.

Lemma frac_visible frac : frac_ok frac → all_visible (frac_text frac) = true.
Proof.
  intros Hf. destruct frac as [|k frac]; [done|]. unfold frac_text. rewrite all_visible_app.
  by rewrite (digits_visible (digits_text (k :: frac))) by by apply digits_all.
Qed.

Lemma zone_visible zone : zone_ok zone → all_visible (zone_text zone) = true.
Proof.
  destruct zone as [|east h m]; [done|]. intros [Hh Hm]. unfold zone_text.
  set (sg := if east then _ else _). change (all_visible (String sg ?s)) with (visible sg && all_visible s).
  rewrite !all_visible_app, (digits_visible (two h)), (digits_visible (two m)) by (apply two_all; lia).
  by destruct east.
Qed.

Lemma split_time_frac h mi s frac :
  0 ≤ h < 100 → 0 ≤ mi < 100 → 0 ≤ s < 100 → frac_ok frac →
  (match split_once "." (hms h mi s +:+ frac_text frac) with
   | Some (hms, frac) => (hms, Some frac)
   | None => (hms h mi s +:+ frac_text frac, None)
   end) = (hms h mi s, match frac with [] => None | _ => Some (digits_text frac) end).
Proof.
  intros Hh Hmi Hs Hf. pose proof (time_bytes h mi s Hh Hmi Hs) as Htb. destruct frac as [|k frac].
  - unfold frac_text. assert (Hn : hms h mi s +:+ "" = hms h mi s) by done.
    rewrite Hn, split_once_lacks by by apply date_byte_lacks. done.
  - change (frac_text (k :: frac)) with (String "." (digits_text (k :: frac))).
    by rewrite split_once_app by by apply date_byte_lacks.
Qed.

Lemma webhook_reads y m d h mi s frac zone :
  wide_date y m d → wide_time h mi s → frac_ok frac → zone_ok zone →
  parse_rfc3339_ms (instant y m d h mi s frac zone)
  = Some (days_from_civil y m d * 86400000 + h * 3600000 + mi * 60000 + s * 1000 + frac_millis frac
          - zone_minutes zone * 60000).
Proof.
  intros Hw Ht Hf Hz. pose proof (wide_ranges _ _ _ Hw) as (Hy & Hm & Hd). destruct Ht as (Hh & Hmi & Hs).
  pose proof (wide_bytes _ _ _ Hw) as Hdb. pose proof (time_bytes h mi s ltac:(lia) ltac:(lia) ltac:(lia)) as Htb.
  unfold parse_rfc3339_ms, instant. rewrite trim_visible.
  2: { rewrite !all_visible_app, (date_bytes_visible (ymd y m d)), (date_bytes_visible (hms h mi s)) by done.
       by rewrite frac_visible, zone_visible. }
  rewrite <- (string_app_assoc (hms h mi s)), <- (string_app_assoc "T"), <- (string_app_assoc (ymd y m d)).
  rewrite split_offset_zone; [|rewrite string_length_app; change (String.length (ymd y m d)) with 10%nat; lia|done].
  cbn [mbind option_bind]. change ("T" +:+ ?x) with (String "T" x). rewrite split_once_app by by apply date_byte_lacks.
  cbn [mbind option_bind].
  assert (Hsd : split_on "-" (ymd y m d) = [four y; two m; two d]).
  { change (ymd y m d) with (four y +:+ String "-" (two m +:+ String "-" (two d))).
    rewrite (split_on_digits "-" (four y)) by (done || apply four_all; lia).
    rewrite (split_on_digits "-" (two m)) by (done || apply two_all; lia).
    by rewrite split_on_lacks by (apply digits_lack; [done|apply two_all; lia]). }
  rewrite Hsd. destruct (fmt_four y) as (_ & _ & ->); [lia|]. destruct (fmt_two m) as (_ & -> & _); [lia|].
  destruct (fmt_two d) as (_ & -> & _); [lia|]. cbn [mbind option_bind].
  rewrite split_time_frac by (done || lia). rewrite split_time by lia.
  destruct (fmt_two h) as (_ & -> & _); [lia|]. destruct (fmt_two mi) as (_ & -> & _); [lia|].
  destruct (fmt_two s) as (_ & -> & _); [lia|]. cbn [mbind option_bind].
  destruct Hw as (Hy' & Hm' & Hd').
  destruct (Z.leb_spec 1 m), (Z.leb_spec m 12), (Z.eqb_spec d 0), (Z.ltb_spec 23 h), (Z.ltb_spec 59 mi), (Z.ltb_spec 60 s);
    try lia. cbn [andb negb orb]. rewrite parse_millis_frac by done. cbn [mbind option_bind].
  rewrite ingress_days by lia. cbn [mbind option_bind]. f_equal. apply wrap_small.
  assert (Hdays : -800000 ≤ days_from_civil y m d ≤ 4000000).
  { rewrite days_from_civil_number by lia. unfold day_number, year_start.
    assert (Hdoy : 0 ≤ day_of_year m d ≤ 1000)
      by (unfold day_of_year, month_start, shifted_month; Z.to_euclidean_division_equations; lia).
    assert (Hsy : -1 ≤ shifted y m ≤ 9999) by (unfold shifted; case_match; lia).
    Z.to_euclidean_division_equations. lia. }
  assert (Hfm : 0 ≤ frac_millis frac < 1000).
  { unfold frac_millis. assert (Hn : ∀ i, 0 ≤ nth i frac 0 ≤ 9).
    { intros i. destruct (nth_in_or_default i frac 0) as [Hin| ->]; [|lia].
      unfold frac_ok in Hf. rewrite Forall_forall in Hf. by apply Hf, list_elem_of_In. }
    pose proof (Hn 0%nat). pose proof (Hn 1%nat). pose proof (Hn 2%nat). lia. }
  assert (Hzm : -1500 ≤ zone_minutes zone ≤ 1500) by (destruct zone as [|[] zh zm]; simpl in *; lia).
  lia.
Qed.

(** ** The strict check *)

Lemma span_digits_text frac rest :
  frac_ok frac → (∀ a s, rest = String a s → is_digit a = false) →
  span_digits (digits_text frac +:+ rest) = (length frac, rest).
Proof.
  intros Hf Hr. induction Hf as [|k frac Hk _ IH]; simpl.
  - destruct rest as [|a s]; [done|]. simpl. by rewrite (Hr a s).
  - by rewrite digit_is, IH.
Qed.

Lemma is_offset_zone zone : zone_ok zone → is_offset (zone_text zone) = true.
Proof.
  destruct zone as [|east h m]; [done|]. intros [Hh Hm]. unfold zone_text. set (sg := if east then _ else _).
  destruct (two_digits h ltac:(lia)), (two_digits m ltac:(lia)).
  destruct (fmt_two h ltac:(lia)) as (_ & Ph & _), (fmt_two m ltac:(lia)) as (_ & Pm & _).
  set (rest := String sg (two h +:+ ":" +:+ two m)). unfold is_offset.
  change (slice_str 1 3 rest) with (two h). change (slice_str 4 6 rest) with (two m). rewrite Ph, Pm.
  destruct (_ || string_eqb rest "z"); [done|].
  assert (Hc : negb (String.length rest =? 6)%nat || negb (has_byte 0 "+" rest || has_byte 0 "-" rest)
    || negb (digit_at 1 rest) || negb (digit_at 2 rest) || negb (has_byte 3 ":" rest)
    || negb (digit_at 4 rest) || negb (digit_at 5 rest) = false).
  { unfold digit_at, byte_at, rest, two. cbn -[digit]. rewrite !digit_is by assumption. unfold sg. by destruct east. }
  rewrite Hc. destruct (Z.leb_spec h 23), (Z.leb_spec m 59); (done || lia).
Qed.

Lemma zone_head zone : ∀ a s, zone_text zone = String a s → is_digit a = false.
Proof. destruct zone as [|[] h m]; by intros a s [= <- <-]. Qed.

Lemma strict_wide y m d :
  wide_date y m d → strict_civil_date (ymd y m d) = if d <=? days_in_month y m then Some (ymd y m d) else None.
Proof.
  intros Hw. pose proof (wide_ranges _ _ _ Hw) as (Hy & Hm & Hd). destruct Hw as (Hy' & Hm' & Hd').
  destruct (Z.leb_spec d (days_in_month y m)) as [Hle|Hgt].
  - apply strict_plain. split; [split; lia|lia].
  - destruct (strict_civil_date (ymd y m d)) as [r|] eqn:Hs; [|done]. exfalso.
    destruct (strict_some _ _ Hs) as (_ & y' & m' & d' & Hp & He).
    assert (Hparse : parse_ymd (ymd y m d) = Some (y, m, d)).
    { unfold parse_ymd. change (slice_str 0 4 (ymd y m d)) with (four y). change (slice_str 5 7 (ymd y m d)) with (two m).
      change (slice_str 8 10 (ymd y m d)) with (two d). change (String.length (ymd y m d)) with 10%nat. cbn [Nat.eqb negb].
      destruct (fmt_four y) as (_ & -> & _); [lia|]. destruct (fmt_two m) as (_ & -> & _); [lia|].
      destruct (fmt_two d) as (_ & -> & _); [lia|]. done. }
    rewrite He, parse_ymd_plain in Hparse by done. simplify_eq. destruct Hp as [[_ ?] _]. lia.
Qed.

Lemma strict_reads y m d h mi s frac zone :
  wide_date y m d → wide_time h mi s → frac_ok frac → zone_ok zone →
  is_rfc3339_with_offset (instant y m d h mi s frac zone) = (d <=? days_in_month y m).
Proof.
  intros Hw (Hh & Hmi & Hs) Hf Hz. pose proof (wide_ranges _ _ _ Hw) as (Hy & Hm & Hd).
  pose proof (strict_wide _ _ _ Hw) as Hstrict.
  destruct (two_digits m ltac:(lia)), (two_digits d ltac:(lia)), (four_digits y ltac:(lia)) as (? & ? & ? & ?).
  destruct (two_digits h ltac:(lia)), (two_digits mi ltac:(lia)), (two_digits s ltac:(lia)).
  destruct (fmt_two h ltac:(lia)) as (_ & Ph & _), (fmt_two mi ltac:(lia)) as (_ & Pmi & _), (fmt_two s ltac:(lia)) as (_ & Ps & _).
  set (rest := frac_text frac +:+ zone_text zone). unfold instant. fold rest.
  set (text := ymd y m d +:+ "T" +:+ hms h mi s +:+ rest).
  assert (Hlen : (String.length text <? 20)%nat = false).
  { apply Nat.ltb_ge. unfold text. rewrite !string_length_app. unfold rest. rewrite string_length_app.
    change (String.length (ymd y m d)) with 10%nat. change (String.length (hms h mi s)) with 8%nat. simpl.
    destruct zone; simpl; lia. }
  assert (Hrest : slice_str 19 (String.length text) text = rest).
  { unfold slice_str, text. change (ymd y m d +:+ "T" +:+ hms h mi s +:+ rest) with ((ymd y m d +:+ "T" +:+ hms h mi s) +:+ rest).
    exact (slice_app_tail (ymd y m d +:+ "T" +:+ hms h mi s) rest). }
  unfold is_rfc3339_with_offset. rewrite Hlen, Hrest.
  change (slice_str 0 10 text) with (ymd y m d). rewrite Hstrict.
  change (slice_str 11 13 text) with (two h). change (slice_str 14 16 text) with (two mi).
  assert (Hsecs : slice_str 17 19 text = two s) by (clear; unfold slice_str, text; simpl; by destruct rest).
  rewrite Hsecs, Ph, Pmi, Ps.
  assert (Hdate : digit_at 0 text && digit_at 1 text && digit_at 2 text && digit_at 3 text && has_byte 4 "-" text
    && digit_at 5 text && digit_at 6 text && has_byte 7 "-" text && digit_at 8 text && digit_at 9 text = true).
  { unfold text, digit_at, byte_at, ymd, four, two. cbn -[digit]. by rewrite !digit_is by assumption. }
  assert (Htime : (has_byte 10 "T" text || has_byte 10 "t" text) && digit_at 11 text && digit_at 12 text
    && has_byte 13 ":" text && digit_at 14 text && digit_at 15 text && has_byte 16 ":" text
    && digit_at 17 text && digit_at 18 text = true).
  { unfold text, digit_at, byte_at, ymd, hms, four, two. cbn -[digit]. by rewrite !digit_is by assumption. }
  rewrite Hdate, Htime. cbn [negb orb].
  destruct (Z.leb_spec d (days_in_month y m)); [|by rewrite bool_decide_eq_true_2].
  rewrite bool_decide_eq_false_2 by done.
  assert (Hrange : (23 <? h) || (59 <? mi) || (60 <? s) = false)
    by (rewrite !orb_false_iff, !Z.ltb_ge; clear - Hh Hmi Hs; lia).
  rewrite Hrange.
  unfold rest. destruct frac as [|k frac].
  - change (frac_text [] +:+ zone_text zone) with (zone_text zone).
    assert (Hn : strip_prefix "." (zone_text zone) = None) by by destruct zone as [|[] ? ?].
    rewrite Hn. by apply is_offset_zone.
  - change (frac_text (k :: frac) +:+ zone_text zone) with ("." +:+ (digits_text (k :: frac) +:+ zone_text zone)).
    rewrite strip_prefix_app, span_digits_text by (done || apply zone_head). simpl. by apply is_offset_zone.
Qed.

(** ** The guarantee *)

(** For every RFC 3339 text - any four-digit year, month, day from 1 to 31, time of
    day with a leap second, fraction of any length, and offset - the mail webhook reads
    the instant the text names: the day's milliseconds and the time's, the fraction cut
    after its third digit, less the offset.  It does so whether or not the month has the
    day; the strict check of the drafts accepts exactly the texts whose month has it. *)
Theorem webhook_reads_every_instant y m d h mi s frac zone :
  wide_date y m d → wide_time h mi s → frac_ok frac → zone_ok zone →
  let text := instant y m d h mi s frac zone in
  parse_rfc3339_ms text
  = Some (days_from_civil y m d * 86400000 + h * 3600000 + mi * 60000 + s * 1000 + frac_millis frac
          - zone_minutes zone * 60000) ∧
  is_rfc3339_with_offset text = (d <=? days_in_month y m).
Proof. intros Hw Ht Hf Hz. split; [by apply webhook_reads|by apply strict_reads]. Qed.

Lemma webhook_reads_every_instant_witness :
  instant 2026 2 31 16 0 0 [1; 2] (Offset false 4 0) = "2026-02-31T16:00:00.12-04:00"%string ∧
  parse_rfc3339_ms "2026-02-31T16:00:00.12-04:00" = parse_rfc3339_ms "2026-03-03T20:00:00.120Z" ∧
  is_rfc3339_with_offset "2026-02-31T16:00:00.12-04:00" = false.
Proof.
  assert (Hf : frac_ok [1; 2]) by (constructor; [lia|constructor; [lia|constructor]]).
  split; [done|].
  destruct (webhook_reads_every_instant 2026 2 31 16 0 0 [1; 2] (Offset false 4 0)) as [Hp Hr];
    [repeat split; discriminate|repeat split; discriminate|done|repeat split; discriminate|].
  split; [etransitivity; [exact Hp|by vm_compute]|exact Hr].
Defined.
