(* ===== verification/DraftStore.v ===== *)
(** * Drafts awaiting an operator's decision ([bos-app/src/slices/draft_store.rs])

    Every kind of draft is a table of its own behind one interface: [DraftStore]
    says where its rows are and how they read, [DraftTableSpec] how an approval and
    a rejection change a row.  The operations are written once, against the
    interface.

    An approval or rejection first checks, by a query of its own, that the draft is
    staged, and then changes it in a transaction; both halves are definitions, so
    that other requests can come in between. *)

From S2P Require Import Prelude RustStd RustStr StoreCore AppOutbox Identity Schema Operators WorkItems WorkQueue.
Import Spine.

(** Where a filled field of a draft comes from, in the source's words. *)
(* src: crates/bos-contracts/src/calendar_drafts.rs:23-26 DraftFieldProvenance *)
Record DraftFieldProvenance := {
  field : string;
  quote : string;
}.

(** The traits [DraftStore] (table, entity kind, [map_row], [attach]),
    [ScopedDraftStore] and [ScopedStatusDraftStore]; the columns the queries use are
    projections of a row; a unique index beside the primary key is [row_conflicts]. *)
(* src: crates/bos-app/src/slices/draft_store.rs:12-37 DraftStore *)
Class DraftStore (Row WithRevision : Type) := {
  ENTITY_KIND : string;
  NOT_FOUND : string;
  draft_rows : SliceTables → gmap (string * string) Row;
  set_draft_rows : SliceTables → gmap (string * string) Row → SliceTables;
  row_draft_id : Row → string;
  row_item_id : Row → string;
  row_status : Row → string;
  row_source_user_id : Row → option string;
  row_outbox_job_id : Row → option string;
  row_created_at_ms : Row → Z;
  map_row : Row → N → Result StoreError.t WithRevision;
  attach : string → WithRevision → AppOp WithRevision;
  source_user_id : WithRevision → option string;
  (** Two rows of one client that a unique index of the table does not admit together. *)
  row_conflicts : Row → Row → bool;
}.

(** The statements [approve_sql] and [reject_sql] as updates of a row: the job's id,
    if there is one, and the time are their parameters. *)
(* src: crates/bos-app/src/slices/draft_store.rs:214-221 DraftTableSpec *)
Record DraftTableSpec (Row : Type) := {
  entity_kind : string;
  not_found_code : string;
  not_staged_code : string;
  approve_sql : option string → Z → Row → Row;
  reject_sql : Z → Row → Row;
}.
Arguments entity_kind {Row} _.
Arguments not_found_code {Row} _.
Arguments not_staged_code {Row} _.
Arguments approve_sql {Row} _ _ _ _.
Arguments reject_sql {Row} _ _ _.

(* src: crates/bos-app/src/slices/draft_store.rs:223-230 DraftMutationContext *)
Record DraftMutationContext := {
  draft_client_id : string;
  draft_actor_id : string;
  draft_scope : option OperatorScope.t;
  draft_expected_revision : option N;
  draft_idempotency_key : string;
  draft_now_ms : N;
}.

(* src: crates/bos-app/src/slices/draft_store.rs:245-256 DraftMutationContext::from (ScopedMutationContext) *)
Definition scoped_draft_context (ctx : ScopedMutationContext) : DraftMutationContext :=
  Build_DraftMutationContext (scoped_client_id ctx) (scoped_actor_id ctx) (Some (scoped_scope ctx))
    (scoped_expected_revision ctx) (scoped_idempotency_key ctx) (scoped_now_ms ctx).

(* src: crates/bos-app/src/slices/draft_store.rs:232-243 DraftMutationContext::from (MutationContext) *)
Definition unscoped_draft_context (ctx : UserActionContext) : DraftMutationContext :=
  Build_DraftMutationContext (ctx_client_id ctx) (ctx_actor_id ctx) None (ctx_expected_revision ctx)
    (ctx_idempotency_key ctx) (ctx_now_ms ctx).

(** The status as the one field of an object. *)
Definition draft_status_json (status : string) : string := "{" +:+ in_quotes "status" +:+ ":" +:+ in_quotes status +:+ "}".
Definition approved_json (job : option NewOutboxJob.t) : string :=
  match job with
  | None => draft_status_json "approved"
  | Some job => "{" +:+ in_quotes "status" +:+ ":" +:+ in_quotes "approved" +:+ "," +:+ in_quotes "outbox_job_id"
                +:+ ":" +:+ in_quotes (NewOutboxJob.job_id job) +:+ "}"
  end.

Module Drafts.
Section store.
Context {Row WithRevision : Type} `{!DraftStore Row WithRevision} (constraint_failed : string).

(** [COALESCE(er.revision, 0)] of the outer join. *)
Definition draft_revision (client_id : string) (db : AppDb) (row : Row) : N :=
  match Db.revisions db !! (client_id, ENTITY_KIND, row_draft_id row) with
  | Some revision => i64_as_u64 revision.1
  | None => 0
  end.

(** [.query_row(.., map_row).optional()?]. *)
Definition read_row (client_id : string) (db : AppDb) (row : option Row) : Result StoreError.t (option WithRevision) :=
  match row with
  | None => Ok None
  | Some row => entry ← map_row row (draft_revision client_id db row); Ok (Some entry)
  end.

(** [row.map(|entry| attach(conn, client_id, entry)).transpose()]. *)
Definition attach_option (client_id : string) (entry : option WithRevision) : AppOp (option WithRevision) :=
  match entry with
  | None => op_ret None
  | Some entry => op_map Some (attach client_id entry)
  end.

(** [for row in rows { drafts.push(attach(conn, client_id, row?)?) }]. *)
Fixpoint attach_rows (client_id : string) (rows : list Row) : AppOp (list WithRevision) :=
  match rows with
  | [] => op_ret []
  | row :: rows =>
    let? db := op_get in
    let? entry := op_lift (map_row row (draft_revision client_id db row)) in
    let? entry := attach client_id entry in
    let? drafts := attach_rows client_id rows in
    op_ret (entry :: drafts)
  end.

(** The client's rows that satisfy [p], [ORDER BY created_at_ms DESC, draft_id DESC]. *)
Definition newest_rows (client_id : string) (p : Row → bool) (t : SliceTables) : list Row :=
  sort_by_key (fun row => MkReverse (row_created_at_ms row, row_draft_id row))
    (snd <$> filter (fun '((client, _), row) => string_eqb client client_id && p row) (map_to_list (draft_rows t))).

(* src: crates/bos-app/src/slices/draft_store.rs:39-58 active_draft_for_item *)
Definition active_draft_for_item (client_id item_id : string) : AppOp (option WithRevision) :=
  let? db := op_get in
  let row := head (newest_rows client_id (fun row => string_eqb (row_item_id row) item_id
                                                     && negb (string_eqb (row_status row) "rejected")) (tables db)) in
  let? entry := op_lift (read_row client_id db row) in
  attach_option client_id entry.

(* src: crates/bos-app/src/slices/draft_store.rs:60-80 get_draft_scoped *)
Definition get_draft_scoped (client_id draft_id : string) (scope : OperatorScope.t) : AppOp (option WithRevision) :=
  let? db := op_get in
  let? entry := op_lift (read_row client_id db (draft_rows (tables db) !! (client_id, draft_id))) in
  attach_option client_id
    (entry ← entry; if OperatorScope.matches_source_user scope (source_user_id entry) then Some entry else None).

(* src: crates/bos-app/src/slices/draft_store.rs:82-100 get_draft_unscoped *)
Definition get_draft_unscoped (client_id draft_id : string) : AppOp (option WithRevision) :=
  let? db := op_get in
  let? entry := op_lift (read_row client_id db (draft_rows (tables db) !! (client_id, draft_id))) in
  attach_option client_id entry.

(** [?3 IS NULL OR d.item_id = ?3]. *)
Definition of_item (item_id : option string) (row : Row) : bool :=
  map_or_true (fun id => string_eqb (row_item_id row) id) item_id.

(* src: crates/bos-app/src/slices/draft_store.rs:102-136 list_drafts_scoped *)
Definition list_drafts_scoped (client_id : string) (item_id : option string) (limit : N) (scope : OperatorScope.t)
    : AppOp (list WithRevision) :=
  let? db := op_get in
  attach_rows client_id (sql_limit limit (newest_rows client_id
    (fun row => of_item item_id row && OperatorScope.sql_filter scope (row_source_user_id row)) (tables db))).

(* src: crates/bos-app/src/slices/draft_store.rs:138-162 list_drafts_unscoped *)
Definition list_drafts_unscoped (client_id : string) (item_id : option string) (limit : N) : AppOp (list WithRevision) :=
  let? db := op_get in
  attach_rows client_id (sql_limit limit (newest_rows client_id (of_item item_id) (tables db))).

(* src: crates/bos-app/src/slices/draft_store.rs:164-178 count_drafts_for_item *)
Definition count_drafts_for_item (client_id item_id : string) : AppOp N :=
  read_tables (fun t => len (newest_rows client_id (fun row => string_eqb (row_item_id row) item_id) t)).

(** [SELECT DISTINCT item_id]: each id once, in no particular order. *)
(* src: crates/bos-app/src/slices/draft_store.rs:180-194 staged_item_ids *)
Definition staged_item_ids (client_id : string) : AppOp (list string) :=
  read_tables (fun t => elements (list_to_set (C:=gset string)
    (row_item_id <$> newest_rows client_id (fun row => string_eqb (row_status row) "staged") t))).

(* src: crates/bos-app/src/slices/draft_store.rs:196-212 require_status_scoped *)
Definition require_status_scoped (client_id draft_id : string) : AppOp (string * option string) :=
  let? row := read_tables (fun t => draft_rows t !! (client_id, draft_id)) in
  op_lift (ok_or ((fun row => (row_status row, row_source_user_id row)) <$> row) (StoreError.Domain NOT_FOUND)).

(** ** Decisions *)

(* src: crates/bos-app/src/slices/draft_store.rs:258-298 require_staged *)
Definition require_staged (ctx : DraftMutationContext) (spec : DraftTableSpec Row) (draft_id : string) : AppOp unit :=
  let? row := read_tables (fun t => draft_rows t !! (draft_client_id ctx, draft_id)) in
  let? row := op_lift (ok_or row (StoreError.Domain (not_found_code spec))) in
  op_lift (match draft_scope ctx with
           | Some scope => OperatorScope.require_source_user scope (row_source_user_id row)
           | None => Ok tt
           end) ;;?
  op_lift (guard_err (negb (string_eqb (row_status row) "staged"))
             (StoreError.Domain (not_staged_code spec +:+ ":" +:+ row_status row))).

(** Another row of the client stands in the way of this one. *)
Definition index_violated (client_id draft_id : string) (row : Row) (rows : gmap (string * string) Row) : bool :=
  existsb (fun '((client, id), other) => string_eqb client client_id && negb (string_eqb id draft_id)
                                         && row_conflicts row other) (map_to_list rows).

(** [INSERT] of a staged draft; a violated constraint, of the primary key or of a unique
    index, is answered with a code of the slice. *)
Definition insert_draft_row (already_active client_id : string) (row : Row) : AppOp unit :=
  fun db =>
    let rows := draft_rows (tables db) in
    if bool_decide (is_Some (rows !! (client_id, row_draft_id row))) || index_violated client_id (row_draft_id row) row rows
    then (Err (StoreError.Domain already_active), db)
    else update_tables (fun t => set_draft_rows t (<[(client_id, row_draft_id row) := row]> (draft_rows t))) db.

(** [UPDATE ... WHERE client_id = ?1 AND draft_id = ?2]. *)
Definition update_draft_row (client_id draft_id : string) (f : Row → Row) : AppOp unit :=
  fun db =>
    if option_any (fun row => index_violated client_id draft_id (f row) (draft_rows (tables db)))
         (draft_rows (tables db) !! (client_id, draft_id))
    then (Err (StoreError.Sqlite constraint_failed), db)
    else update_tables (fun t => set_draft_rows t (alter f (client_id, draft_id) (draft_rows t))) db.

Definition decision_request (ctx : DraftMutationContext) (spec : DraftTableSpec Row) (draft_id change_kind : string)
    (correlation_id : option string) (after_json : string) : MutationRequest.t := {|
  MutationRequest.client_id := draft_client_id ctx;
  MutationRequest.entity_kind := entity_kind spec;
  MutationRequest.entity_id := draft_id;
  MutationRequest.change_kind := change_kind;
  MutationRequest.actor_id := draft_actor_id ctx;
  MutationRequest.actor_kind := Operator;
  MutationRequest.expected_revision := draft_expected_revision ctx;
  MutationRequest.idempotency_key := draft_idempotency_key ctx;
  MutationRequest.correlation_id := correlation_id;
  MutationRequest.causation_id := None;
  MutationRequest.before_json := Some (draft_status_json "staged");
  MutationRequest.after_json := Some after_json;
  MutationRequest.now_ms := draft_now_ms ctx;
|}.

(** The status, and the job in the same transaction. *)
(* src: crates/bos-app/src/slices/draft_store.rs:339-353 approve (transaction) *)
Definition approve_write (ctx : DraftMutationContext) (spec : DraftTableSpec Row) (draft_id : string)
    (job : option NewOutboxJob.t) : AppOp unit :=
  update_draft_row (draft_client_id ctx) draft_id
    (approve_sql spec (NewOutboxJob.job_id <$> job) (u64_as_i64 (draft_now_ms ctx))) ;;?
  match job with
  | Some job => Outbox.enqueue_within constraint_failed (draft_client_id ctx) job (draft_now_ms ctx)
  | None => op_ret tt
  end.

(* src: crates/bos-app/src/slices/draft_store.rs:308-354 approve (mutation) *)
Definition approve_commit (ctx : DraftMutationContext) (spec : DraftTableSpec Row) (draft_id : string)
    (job : option NewOutboxJob.t) : AppOp MutationOutcome.t :=
  mutate constraint_failed
    (decision_request ctx spec draft_id "approve" (NewOutboxJob.job_id <$> job) (approved_json job))
    (approve_write ctx spec draft_id job).

(* src: crates/bos-app/src/slices/draft_store.rs:300-355 approve *)
Definition approve (ctx : DraftMutationContext) (spec : DraftTableSpec Row) (draft_id : string)
    (job : option NewOutboxJob.t) : AppOp MutationOutcome.t :=
  require_staged ctx spec draft_id ;;?
  approve_commit ctx spec draft_id job.

(* src: crates/bos-app/src/slices/draft_store.rs:364-391 reject (mutation) *)
Definition reject_commit (ctx : DraftMutationContext) (spec : DraftTableSpec Row) (draft_id : string)
    : AppOp MutationOutcome.t :=
  mutate constraint_failed
    (decision_request ctx spec draft_id "reject" None (draft_status_json "rejected"))
    (update_draft_row (draft_client_id ctx) draft_id (reject_sql spec (u64_as_i64 (draft_now_ms ctx)))).

(* src: crates/bos-app/src/slices/draft_store.rs:357-392 reject *)
Definition reject (ctx : DraftMutationContext) (spec : DraftTableSpec Row) (draft_id : string)
    : AppOp MutationOutcome.t :=
  require_staged ctx spec draft_id ;;?
  reject_commit ctx spec draft_id.
End store.
End Drafts.
