(* ===== verification/DraftProps.v ===== *)
(** * What a table of drafts guarantees

    Proved once, against the interface: what a table must satisfy is [DraftLaws].  An
    approval changes the draft and enqueues its job together or not at all; decisions
    made on the revision the operator saw exclude each other; decisions made without
    one can cross. *)

From S2P Require Import Prelude RustStd RustStr StoreCore StoreCoreProps AppOutbox AppOutboxProps Identity Schema SliceCore Operators WorkItems WorkQueue DraftStore.
Import Spine Outbox Drafts.

(** ** Texts that are not blank *)

Lemma chars_take_prefix n l : ∃ q, l = chars_take n l ++ q.
Proof.
  revert n. induction l as [|a l IH]; intros n; simpl; [by exists []|].
  destruct (begins_char a).
  - destruct n as [|n]; [by exists (a :: l)|]. destruct (IH n) as [q Hq]. exists q. simpl. by f_equal.
  - destruct (IH n) as [q Hq]. exists q. simpl. by f_equal.
Qed.

(** A trimmed text that is not empty, cut to its first characters, is not blank. *)
Lemma cut_not_blank n s : trim s ≠ "" → is_blank (take_chars (S n) (trim s)) = false.
Proof.
  intros Hne. unfold take_chars. set (l := String.list_ascii_of_string (trim s)).
  destruct (chars_take_prefix (S n) l) as [q Hq]. apply no_head_not_blank.
  - pose proof (trim_no_head s) as Hh. fold l in Hh. rewrite Hq in Hh. by apply ws_head_app in Hh.
  - intros He. assert (Hs : take_chars (S n) (trim s) = "") by (unfold take_chars; fold l; by rewrite He).
    revert Hs. destruct (trim s) as [|a t]; [done|]. unfold take_chars. simpl. by destruct (begins_char a).
Qed.

(** A row that still stands for its item. *)
Definition is_active {Row WithRevision} `{!DraftStore Row WithRevision} (row : Row) : bool :=
  negb (string_eqb (row_status row) "rejected").

(** What the statements of a table do to a row, and its unique index. *)
Class DraftLaws {Row WithRevision : Type} `{!DraftStore Row WithRevision} (spec : DraftTableSpec Row) : Prop := {
  laws_set : ∀ t m, draft_rows (set_draft_rows t m) = m;
  laws_approve : ∀ job_id now row,
    row_status (approve_sql spec (Some job_id) now row) = "approved"%string ∧
    row_outbox_job_id (approve_sql spec (Some job_id) now row) = Some job_id ∧
    row_item_id (approve_sql spec (Some job_id) now row) = row_item_id row ∧
    row_source_user_id (approve_sql spec (Some job_id) now row) = row_source_user_id row;
  laws_reject : ∀ now row,
    row_status (reject_sql spec now row) = "rejected"%string ∧
    row_outbox_job_id (reject_sql spec now row) = row_outbox_job_id row ∧
    row_item_id (reject_sql spec now row) = row_item_id row ∧
    row_source_user_id (reject_sql spec now row) = row_source_user_id row;
  laws_index : ∀ row other,
    row_conflicts row other = is_active row && is_active other && string_eqb (row_item_id row) (row_item_id other);
}.

Section drafts.
Context {Row WithRevision : Type} `{!DraftStore Row WithRevision} (spec : DraftTableSpec Row) `{!DraftLaws spec}.
Context (constraint_failed : string).
Implicit Types (db : AppDb) (ctx : DraftMutationContext).

Definition rows_of db : gmap (string * string) Row := draft_rows (tables db).

(** One row per item stands, the others are rejected. *)
Definition one_active (rows : gmap (string * string) Row) : Prop :=
  ∀ k k' r r', rows !! k = Some r → rows !! k' = Some r' → k.1 = k'.1 → row_item_id r = row_item_id r' →
    is_active r = true → is_active r' = true → k = k'.

(** ** Updates *)

Lemma index_quiet rows client id row new :
  one_active rows → rows !! (client, id) = Some row → row_item_id new = row_item_id row →
  (is_active new = true → is_active row = true) → index_violated client id new rows = false.
Proof using DraftLaws0.
  intros Hone Hrow Hitem Hact. apply not_true_is_false. unfold index_violated.
  intros ([[c i] other] & Hin & H)%existsb_exists. apply list_elem_of_In, elem_of_map_to_list in Hin.
  rewrite !andb_true_iff, string_eqb_true, negb_true_iff, laws_index, !andb_true_iff, string_eqb_true in H.
  destruct H as [[-> Hne] [[Hn Ho] Hi]]. rewrite Hitem in Hi.
  assert (Hk : (client, id) = (client, i)) by by eapply Hone; eauto.
  injection Hk as ->. by rewrite (proj2 (string_eqb_true i i) eq_refl) in Hne.
Qed.

Lemma update_row_ok db client id row f :
  one_active (rows_of db) → rows_of db !! (client, id) = Some row → row_item_id (f row) = row_item_id row →
  (is_active (f row) = true → is_active row = true) →
  update_draft_row constraint_failed client id f db
  = (Ok tt, set_tables db (set_draft_rows (tables db) (<[(client, id) := f row]> (rows_of db)))).
Proof using DraftLaws0.
  intros Hone Hrow Hitem Hact. unfold update_draft_row. fold (rows_of db). rewrite Hrow. simpl.
  rewrite (index_quiet (rows_of db) client id row) by done. unfold update_tables. do 3 f_equal.
  apply map_eq. intros k. destruct (decide (k = (client, id))) as [->|Hne].
  - fold (rows_of db). by rewrite lookup_alter_eq, lookup_insert_eq, Hrow.
  - by rewrite lookup_alter_ne, lookup_insert_ne by done.
Qed.

(** Whatever the row was: what the index lets through leaves one row per item standing. *)
Lemma index_checked rows client id new :
  one_active rows → index_violated client id new rows = false → one_active (<[(client, id) := new]> rows).
Proof using DraftLaws0.
  intros Hone Hix.
  assert (Hn : ∀ k r, rows !! k = Some r → k ≠ (client, id) → k.1 = client → row_item_id new = row_item_id r →
                 is_active new = true → is_active r = true → False).
  { intros [c i] r Hr Hne Hc Hi Ha Ha'. simpl in Hc. subst c. apply not_true_iff_false in Hix. apply Hix.
    unfold index_violated. apply existsb_exists. exists ((client, i), r). split.
    - by apply list_elem_of_In, elem_of_map_to_list.
    - rewrite !andb_true_iff, string_eqb_true, negb_true_iff, laws_index, !andb_true_iff, string_eqb_true.
      split_and!; try done. destruct (string_eqb i id) eqn:He; [|done]. apply string_eqb_true in He as ->. done. }
  intros k k' r r'. rewrite !lookup_insert_Some.
  intros [[<- <-]|[Hne H1]] [[<- <-]|[Hne' H2]] Hc Hi Ha Ha'; [done|..].
  - exfalso. by apply (Hn k' r').
  - exfalso. by apply (Hn k r).
  - by eapply Hone.
Qed.

(** An update of a row, whatever was read before it. *)
Lemma update_row_inv db client id f db1 :
  one_active (rows_of db) → update_draft_row constraint_failed client id f db = (Ok tt, db1) →
  jobs db1 = jobs db ∧ one_active (rows_of db1) ∧
  (rows_of db !! (client, id) = None ∧ rows_of db1 = rows_of db ∨
   ∃ row, rows_of db !! (client, id) = Some row ∧ rows_of db1 = <[(client, id) := f row]> (rows_of db)).
Proof using DraftLaws0.
  intros Hone. unfold update_draft_row. fold (rows_of db).
  destruct (rows_of db !! (client, id)) as [row|] eqn:Hrow; simpl.
  - destruct (index_violated client id (f row) (rows_of db)) eqn:Hix; [done|]. intros [= Hdb].
    assert (Hr : rows_of db1 = <[(client, id) := f row]> (rows_of db)).
    { rewrite <- Hdb. unfold rows_of at 1. rewrite tables_set, laws_set. fold (rows_of db). apply map_eq. intros k. destruct (decide (k = (client, id))) as [->|Hne].
      - by rewrite lookup_alter_eq, lookup_insert_eq, Hrow.
      - by rewrite lookup_alter_ne, lookup_insert_ne by done. }
    split; [by rewrite <- Hdb|]. split; [|right; by exists row]. rewrite Hr. by apply index_checked.
  - intros [= Hdb]. assert (Hr : rows_of db1 = rows_of db).
    { rewrite <- Hdb. unfold rows_of at 1. rewrite tables_set, laws_set. fold (rows_of db). apply map_eq. intros k. destruct (decide (k = (client, id))) as [->|Hne].
      - by rewrite lookup_alter_eq, Hrow.
      - by rewrite lookup_alter_ne by done. }
    split; [by rewrite <- Hdb|]. split; [|by left]. by rewrite Hr.
Qed.

Lemma slice_write_update_row client id f : slice_write (update_draft_row constraint_failed client id f).
Proof. apply slice_write_if, slice_write_update. Qed.

Lemma approve_write_enqueues ctx id job : enqueues_only (approve_write constraint_failed ctx spec id job).
Proof.
  unfold approve_write. apply enqueues_only_seq; [apply slice_write_update_row|].
  destruct job; [apply enqueue_within_enqueues|]. apply slice_write_enqueues. by intros db db' [= <-].
Qed.

Lemma enqueues_spares (write : SliceWrite) : enqueues_only write → write_spares write.
Proof. intros He id db db' Hw. by destruct (He db db' Hw). Qed.

Lemma approve_write_spares ctx id job : write_spares (approve_write constraint_failed ctx spec id job).
Proof. apply enqueues_spares, approve_write_enqueues. Qed.

(** The transaction of an approval: the job's id decides. *)
Lemma approve_write_job ctx id job db row :
  one_active (rows_of db) → rows_of db !! (draft_client_id ctx, id) = Some row → is_active row = true →
  match approve_write constraint_failed ctx spec id (Some job) db with
  | (Ok _, db') =>
    jobs db !! (draft_client_id ctx, NewOutboxJob.job_id job) = None ∧
    rows_of db' = <[(draft_client_id ctx, id) :=
                      approve_sql spec (Some (NewOutboxJob.job_id job)) (u64_as_i64 (draft_now_ms ctx)) row]> (rows_of db) ∧
    (∃ j, fresh_job (draft_client_id ctx, NewOutboxJob.job_id job) j ∧ Job.payload_json j = NewOutboxJob.payload_json job ∧
          jobs db' = <[(draft_client_id ctx, NewOutboxJob.job_id job) := j]> (jobs db))
  | (Err err, _) => is_Some (jobs db !! (draft_client_id ctx, NewOutboxJob.job_id job)) ∧ err = StoreError.Sqlite constraint_failed
  end.
Proof using DraftLaws0.
  intros Hone Hrow Hact. unfold approve_write. destruct (laws_approve (NewOutboxJob.job_id job) (u64_as_i64 (draft_now_ms ctx)) row)
    as (Hst & _ & Hitem & _).
  erewrite op_bind_step; [|exact (update_row_ok db _ _ row _ Hone Hrow Hitem (fun _ => Hact))]. unfold enqueue_within. set (db1 := set_tables db _).
  change (jobs db1) with (jobs db). case_decide as Hj; [done|].
  apply eq_None_not_Some in Hj. split; [done|]. split; [apply laws_set|].
  eexists. rewrite jobs_set. split; [|split; [|reflexivity]]; done.
Qed.

(** ** The check before a decision *)

Definition allowed_scope ctx (row : Row) : Result StoreError.t unit :=
  match draft_scope ctx with
  | Some scope => OperatorScope.require_source_user scope (row_source_user_id row)
  | None => Ok tt
  end.

Lemma require_staged_cases ctx id db :
  require_staged ctx spec id db =
  (match rows_of db !! (draft_client_id ctx, id) with
   | None => Err (StoreError.Domain (not_found_code spec))
   | Some row =>
     match allowed_scope ctx row with
     | Err e => Err e
     | Ok _ => if string_eqb (row_status row) "staged" then Ok tt
               else Err (StoreError.Domain (not_staged_code spec +:+ ":" +:+ row_status row))
     end
   end, db).
Proof.
  unfold require_staged, op_bind, read_tables, op_lift. fold (rows_of db).
  destruct (rows_of db !! _) as [row|]; simpl; [|done]. fold (allowed_scope ctx row).
  destruct (allowed_scope ctx row); simpl; [|done]. by destruct (string_eqb (row_status row) "staged").
Qed.

(** The draft awaits a decision that the context may make. *)
Definition awaits ctx id db (row : Row) : Prop :=
  rows_of db !! (draft_client_id ctx, id) = Some row ∧ allowed_scope ctx row = Ok tt ∧ row_status row = "staged"%string.

Lemma require_staged_ok ctx id db u db' : require_staged ctx spec id db = (Ok u, db') → db' = db ∧ ∃ row, awaits ctx id db row.
Proof.
  rewrite require_staged_cases. destruct (rows_of db !! _) as [row|] eqn:Hrow; [|done].
  destruct (allowed_scope ctx row) as [[]|] eqn:Hs; [|done]. destruct (string_eqb (row_status row) "staged") eqn:Hst; [|done].
  apply string_eqb_true in Hst. intros [= _ <-]. split; [done|]. by exists row.
Qed.

Lemma awaits_active ctx id db row : awaits ctx id db row → is_active row = true.
Proof. intros (_ & _ & Hst). unfold is_active. by rewrite Hst. Qed.

(** ** Approval *)

Abbreviation approve_request ctx id job :=
  (decision_request ctx spec id "approve" (Some (NewOutboxJob.job_id job)) (approved_json (Some job))).
Abbreviation reject_request ctx id := (decision_request ctx spec id "reject" None (draft_status_json "rejected")).

(** Everything an approval can come to. *)
Inductive approval ctx id (job : NewOutboxJob.t) db : Result StoreError.t MutationOutcome.t * AppDb → Prop :=
| approval_missing :
    rows_of db !! (draft_client_id ctx, id) = None →
    approval ctx id job db (Err (StoreError.Domain (not_found_code spec)), db)
| approval_hidden row err :
    rows_of db !! (draft_client_id ctx, id) = Some row → allowed_scope ctx row = Err err →
    approval ctx id job db (Err err, db)
| approval_decided row :
    rows_of db !! (draft_client_id ctx, id) = Some row → allowed_scope ctx row = Ok tt → row_status row ≠ "staged"%string →
    approval ctx id job db (Err (StoreError.Domain (not_staged_code spec +:+ ":" +:+ row_status row)), db)
| approval_replayed row db' rid revision :
    awaits ctx id db row → request_used db (approve_request ctx id job) → Db.domain db' = Db.domain db →
    approval ctx id job db (Ok (MutationOutcome.ReplayedIdempotent rid revision), db')
| approval_conflict row db' rid revision :
    awaits ctx id db row → request_free db (approve_request ctx id job) → ¬ expectation_met db (approve_request ctx id job) →
    Db.domain db' = Db.domain db →
    approval ctx id job db (Ok (MutationOutcome.RevisionConflict rid revision), db')
| approval_job_exists row db' :
    awaits ctx id db row → request_free db (approve_request ctx id job) → expectation_met db (approve_request ctx id job) →
    is_Some (jobs db !! (draft_client_id ctx, NewOutboxJob.job_id job)) → Db.domain db' = Db.domain db →
    approval ctx id job db (Err (StoreError.Sqlite constraint_failed), db')
| approval_applied row j db' rid revision :
    awaits ctx id db row → request_free db (approve_request ctx id job) → expectation_met db (approve_request ctx id job) →
    jobs db !! (draft_client_id ctx, NewOutboxJob.job_id job) = None →
    rows_of db' = <[(draft_client_id ctx, id) :=
                      approve_sql spec (Some (NewOutboxJob.job_id job)) (u64_as_i64 (draft_now_ms ctx)) row]> (rows_of db) →
    fresh_job (draft_client_id ctx, NewOutboxJob.job_id job) j → Job.payload_json j = NewOutboxJob.payload_json job →
    jobs db' = <[(draft_client_id ctx, NewOutboxJob.job_id job) := j]> (jobs db) →
    approval ctx id job db (Ok (MutationOutcome.Applied rid revision), db').

Lemma rows_of_domain db db' : Db.domain db' = Db.domain db → rows_of db' = rows_of db.
Proof. unfold rows_of, tables. by intros ->. Qed.

Lemma approve_commit_cases ctx id job db row :
  spine_wf db → one_active (rows_of db) → awaits ctx id db row →
  approval ctx id job db (approve_commit constraint_failed ctx spec id (Some job) db).
Proof using DraftLaws0.
  intros Hwf Hone Ha. pose proof (awaits_active _ _ _ _ Ha) as Hact.
  pose proof (approve_write_job ctx id job db row Hone (proj1 Ha) Hact) as Hw.
  change (approve_commit constraint_failed ctx spec id (Some job) db)
    with (mutate constraint_failed (approve_request ctx id job) (approve_write constraint_failed ctx spec id (Some job)) db).
  destruct (slice_mutate_effect constraint_failed (approve_request ctx id job) (approve_write constraint_failed ctx spec id (Some job)) db Hwf
    (approve_write_spares ctx id (Some job))) as [He _].
  revert He. generalize (mutate constraint_failed (approve_request ctx id job) (approve_write constraint_failed ctx spec id (Some job)) db).
  intros res He. inversion He as [db' rid rev Hu Hd|db' rid rev Hf Hx Hd|db1 db' rid rev Hf Hx Hw1 Hd Hu|err db1 db' Hf Hx Hw1 Hd]; subst res.
  - by eapply approval_replayed.
  - by eapply approval_conflict.
  - rewrite Hw1 in Hw. destruct Hw as (Hn & Hrows & j & Hj & Hpay & Hjobs).
    eapply approval_applied; [done..| |exact Hj|done|].
    + by rewrite (rows_of_domain db1 db').
    + by rewrite (jobs_domain db1 db').
  - rewrite Hw1 in Hw. destruct Hw as (Hs & ->). by eapply approval_job_exists.
Qed.

Lemma approve_cases ctx id job db :
  spine_wf db → one_active (rows_of db) → approval ctx id job db (approve constraint_failed ctx spec id (Some job) db).
Proof using DraftLaws0.
  intros Hwf Hone. unfold approve. pose proof (require_staged_cases ctx id db) as Hr.
  destruct (rows_of db !! (draft_client_id ctx, id)) as [row|] eqn:Hrow.
  - destruct (allowed_scope ctx row) as [[]|err] eqn:Hs.
    + destruct (string_eqb (row_status row) "staged") eqn:Hst.
      * erewrite op_bind_step by exact Hr. apply (approve_commit_cases _ _ _ _ row); [done..|].
        by apply string_eqb_true in Hst.
      * unfold op_bind. rewrite Hr. apply (approval_decided _ _ _ _ row); [done..|].
        intros H. by apply string_eqb_true in H; rewrite H in Hst.
    + unfold op_bind. rewrite Hr. by apply (approval_hidden _ _ _ _ row).
  - unfold op_bind. rewrite Hr. by apply approval_missing.
Qed.

(** ** Rejection *)

Lemma reject_write_ok ctx id db row :
  one_active (rows_of db) → rows_of db !! (draft_client_id ctx, id) = Some row →
  update_draft_row constraint_failed (draft_client_id ctx) id (reject_sql spec (u64_as_i64 (draft_now_ms ctx))) db
  = (Ok tt, set_tables db (set_draft_rows (tables db)
              (<[(draft_client_id ctx, id) := reject_sql spec (u64_as_i64 (draft_now_ms ctx)) row]> (rows_of db)))).
Proof using DraftLaws0.
  intros Hone Hrow. destruct (laws_reject (u64_as_i64 (draft_now_ms ctx)) row) as (Hst & _ & Hitem & _).
  apply update_row_ok; [done|done|done|]. unfold is_active. by rewrite Hst.
Qed.

Lemma reject_write_spares ctx id :
  write_spares (update_draft_row constraint_failed (draft_client_id ctx) id (reject_sql spec (u64_as_i64 (draft_now_ms ctx)))).
Proof. apply slice_write_spares_receipts, slice_write_update_row. Qed.

(** What is rejected leaves its place free. *)
Lemma one_active_reject rows k row new :
  one_active rows → rows !! k = Some row → is_active new = false → one_active (<[k := new]> rows).
Proof.
  intros Hone Hrow Hnew k1 k2 r1 r2. rewrite !lookup_insert_Some.
  intros [[_ <-]|[_ H1]] [[_ <-]|[_ H2]] Hc Hi Ha1 Ha2; [congruence..|]. by eapply Hone.
Qed.

Lemma one_active_update rows k row new :
  one_active rows → rows !! k = Some row → row_item_id new = row_item_id row → is_active row = true →
  one_active (<[k := new]> rows).
Proof.
  intros Hone Hrow Hitem Hact k1 k2 r1 r2. rewrite !lookup_insert_Some.
  intros [[<- <-]|[Hn1 H1]] [[<- <-]|[Hn2 H2]] Hc Hi Ha1 Ha2; [done|..].
  - eapply (Hone k k2 row r2); eauto. by rewrite <- Hitem.
  - eapply (Hone k1 k r1 row); eauto. by rewrite <- Hitem.
  - by eapply Hone.
Qed.

(** ** Two decisions *)

Lemma distinct_keys_free (request request' : MutationRequest.t) (write : SliceWrite) db :
  spine_wf db → write_spares write →
  MutationRequest.client_id request = MutationRequest.client_id request' →
  MutationRequest.idempotency_key request ≠ MutationRequest.idempotency_key request' →
  request_free db request' → request_free (mutate constraint_failed request write db).2 request'.
Proof.
  intros Hwf Hs Hc Hk Hfree.
  destruct (key_free_or_used (mutate constraint_failed request write db).2 (MutationRequest.client_id request')
    (MutationRequest.idempotency_key request')) as [Hf|Hu]; [exact Hf|].
  destruct (mutate_uses constraint_failed request write db _ _ Hwf Hs Hu) as [Hu'|(_ & He & _)]; [|done].
  by destruct (key_used_not_free _ _ _ Hu').
Qed.

Lemma no_expectation db ctx id kind correlation after :
  draft_expected_revision ctx = None → expectation_met db (decision_request ctx spec id kind correlation after).
Proof. intros Hn e. simpl. by rewrite Hn. Qed.

(** C22: Without a revision to expect, an approval and a rejection of one draft can both
    succeed.  The check that the draft is staged is a query before the transaction, and
    requests run on connections of their own: two operators whose checks both pass, with
    distinct fresh keys and a fresh job id, are both told their decision was applied; the
    draft ends up rejected, and its job stays in the outbox, pending. *)
Theorem decisions_can_cross ctx_a ctx_r id job db :
  spine_wf db → one_active (rows_of db) → draft_client_id ctx_a = draft_client_id ctx_r →
  draft_expected_revision ctx_a = None → draft_expected_revision ctx_r = None →
  draft_idempotency_key ctx_a ≠ draft_idempotency_key ctx_r →
  request_free db (approve_request ctx_a id job) → request_free db (reject_request ctx_r id) →
  jobs db !! (draft_client_id ctx_a, NewOutboxJob.job_id job) = None →
  require_staged ctx_a spec id db = (Ok tt, db) → require_staged ctx_r spec id db = (Ok tt, db) →
  ∃ ra rr va vr db_a db_r row j,
    approve_commit constraint_failed ctx_a spec id (Some job) db = (Ok (MutationOutcome.Applied ra va), db_a) ∧
    reject_commit constraint_failed ctx_r spec id db_a = (Ok (MutationOutcome.Applied rr vr), db_r) ∧
    rows_of db_r !! (draft_client_id ctx_r, id) = Some row ∧ row_status row = "rejected"%string ∧
    row_outbox_job_id row = Some (NewOutboxJob.job_id job) ∧
    jobs db_r !! (draft_client_id ctx_a, NewOutboxJob.job_id job) = Some j ∧ Job.status j = STATUS_PENDING.
Proof using DraftLaws0.
  intros Hwf Hone Hc Hna Hnr Hk Hfa Hfr Hj Ha Hr.
  apply require_staged_ok in Ha as [_ [row0 Ha]]. apply require_staged_ok in Hr as [_ [row1 Hr]].
  pose proof (awaits_active _ _ _ _ Ha) as Hact. pose proof (proj1 Ha) as Hrow.
  set (wa := approve_write constraint_failed ctx_a spec id (Some job)).
  pose proof (mutate_fresh constraint_failed (approve_request ctx_a id job) wa db Hwf (approve_write_spares _ _ _) Hfa
    (no_expectation _ _ _ _ _ _ Hna)) as Hm.
  pose proof (approve_write_job ctx_a id job db row0 Hone Hrow Hact) as Hw. fold wa in Hw.
  destruct (wa db) as [[u|err] db1]; [|by destruct Hw as [[? Hs] _]; rewrite Hs in Hj].
  destruct Hm as (ra & va & db_a & Hma & Hda). destruct Hw as (_ & Hrows & j & Hfresh & _ & Hjobs).
  destruct (slice_mutate_effect constraint_failed (approve_request ctx_a id job) wa db Hwf (approve_write_spares _ _ _)) as (_ & Hwfa & _).
  pose proof (distinct_keys_free (approve_request ctx_a id job) (reject_request ctx_r id) wa db Hwf (approve_write_spares _ _ _)
    Hc Hk Hfr) as Hfr'.
  rewrite Hma in Hwfa, Hfr'. simpl in Hwfa, Hfr'.
  destruct (laws_approve (NewOutboxJob.job_id job) (u64_as_i64 (draft_now_ms ctx_a)) row0) as (_ & Hjob & Hitem & _).
  set (row2 := approve_sql spec _ _ row0) in *.
  assert (Hrows_a : rows_of db_a = <[(draft_client_id ctx_a, id) := row2]> (rows_of db))
    by by rewrite (rows_of_domain db1 db_a).
  assert (Hone_a : one_active (rows_of db_a)) by (rewrite Hrows_a; by eapply one_active_update).
  assert (Hrow_a : rows_of db_a !! (draft_client_id ctx_r, id) = Some row2) by (rewrite Hrows_a, <- Hc; apply lookup_insert_eq).
  pose proof (mutate_fresh constraint_failed (reject_request ctx_r id) _ db_a Hwfa (reject_write_spares ctx_r id) Hfr'
    (no_expectation _ _ _ _ _ _ Hnr)) as Hmr.
  rewrite (reject_write_ok ctx_r id db_a row2 Hone_a Hrow_a) in Hmr. destruct Hmr as (rr & vr & db_r & Hmr & Hdr).
  destruct (laws_reject (u64_as_i64 (draft_now_ms ctx_r)) row2) as (Hst & Hrj & _ & _).
  exists ra, rr, va, vr, db_a, db_r, (reject_sql spec (u64_as_i64 (draft_now_ms ctx_r)) row2), j.
  split; [exact Hma|]. split; [exact Hmr|]. split; [|split; [done|split; [by rewrite Hrj|split]]].
  - rewrite (rows_of_domain _ db_r Hdr). unfold rows_of. rewrite tables_set, laws_set. apply lookup_insert_eq.
  - rewrite (jobs_domain _ db_r Hdr). change (jobs (set_tables db_a _)) with (jobs db_a).
    rewrite (jobs_domain db1 db_a Hda), Hjobs. apply lookup_insert_eq.
  - by destruct Hfresh as (_ & _ & Hp & _).
Qed.

(** A decision: approve with a job, or reject. *)
Definition commit ctx id (decision : option NewOutboxJob.t) : AppOp MutationOutcome.t :=
  match decision with
  | Some job => approve_commit constraint_failed ctx spec id (Some job)
  | None => reject_commit constraint_failed ctx spec id
  end.

Lemma commit_mutates ctx id decision :
  ∃ kind correlation after write, write_spares write ∧
    commit ctx id decision = mutate constraint_failed (decision_request ctx spec id kind correlation after) write.
Proof.
  destruct decision as [job|]; do 4 eexists; (split; [|reflexivity]); [apply approve_write_spares|apply reject_write_spares].
Qed.

Lemma applied_revision (request : MutationRequest.t) (write : SliceWrite) db rid revision db' expected :
  spine_wf db → write_spares write → MutationRequest.expected_revision request = Some expected →
  mutate constraint_failed request write db = (Ok (MutationOutcome.Applied rid revision), db') →
  revision_of db' request = Some (wrapping_add_u64 expected 1).
Proof.
  intros Hwf Hs Hx Hm. destruct (mutate_cases constraint_failed request (fun _ => write) db Hwf Hs) as [Hc _].
  unfold mutate, mutate_with_receipt_id in Hm. rewrite Hm in Hc. inversion Hc as [| |db1 _ He _ rev|]; subst.
  specialize (He expected Hx). subst rev. rewrite He. unfold revision_of, append_receipt, set_revision. simpl.
  rewrite lookup_insert_eq. simpl. f_equal. apply u64_as_i64_roundtrip.
  unfold wrapping_add_u64, u64_modulus. apply N.mod_lt. done.
Qed.

(** Decisions made on the revision the operators saw exclude each other, whatever
    their checks found before: when one of two approvals or rejections that expect the
    same revision is applied, the other is not, and leaves every table as it is. *)
Theorem seen_revision_excludes ctx1 ctx2 id decision1 decision2 db db1 rid revision expected :
  spine_wf db → draft_client_id ctx1 = draft_client_id ctx2 →
  draft_expected_revision ctx1 = Some expected → draft_expected_revision ctx2 = Some expected →
  (expected < u64_modulus)%N →
  commit ctx1 id decision1 db = (Ok (MutationOutcome.Applied rid revision), db1) →
  (∀ rid' revision', (commit ctx2 id decision2 db1).1 ≠ Ok (MutationOutcome.Applied rid' revision')) ∧
  Db.domain (commit ctx2 id decision2 db1).2 = Db.domain db1.
Proof.
  intros Hwf Hc Hx1 Hx2 Hlt. destruct (commit_mutates ctx1 id decision1) as (k1 & c1 & a1 & w1 & Hs1 & ->).
  destruct (commit_mutates ctx2 id decision2) as (k2 & c2 & a2 & w2 & Hs2 & ->). intros Hm1.
  pose proof (applied_revision (decision_request ctx1 spec id k1 c1 a1) _ _ _ _ _ expected Hwf Hs1 Hx1 Hm1) as Hrev.
  destruct (slice_mutate_effect constraint_failed (decision_request ctx1 spec id k1 c1 a1) w1 db Hwf Hs1) as (_ & Hwf1 & _). rewrite Hm1 in Hwf1. simpl in Hwf1.
  set (request2 := decision_request ctx2 spec id k2 c2 a2).
  assert (Hn : ¬ expectation_met db1 request2).
  { intros He. specialize (He expected Hx2). unfold revision_of in He, Hrev. simpl in He, Hrev. rewrite <- Hc in He.
    rewrite Hrev in He. injection He as He. unfold wrapping_add_u64, u64_modulus in *.
    destruct (N.eq_dec expected 18446744073709551615%N) as [->|]; [done|]. rewrite N.mod_small in He; lia. }
  destruct (slice_mutate_effect constraint_failed request2 w2 db1 Hwf1 Hs2) as [He _].
  revert He. generalize (mutate constraint_failed request2 w2 db1). intros res He.
  inversion He as [db' r rev Hu Hd|db' r rev Hf Hx Hd|db2 db' r rev Hf Hx|err db2 db' Hf Hx Hw Hd]; subst res; by split.
Qed.

(** ** Guarantees of an approval *)

(** C20: An approval is all or nothing.  It is applied only to a draft that awaits a
    decision within the operator's scope, under a key not used before, at the expected
    revision, when no job has the new job's id; then the row is the approved one and names
    the job, and the job is enqueued, pending, with the payload it was given.  In every
    other case - no draft, another's draft, a decided draft, a replay, a conflict, a job
    id that exists - every table is as it was. *)
Theorem approval_all_or_nothing ctx id job db :
  spine_wf db → one_active (rows_of db) →
  let '(answer, db') := approve constraint_failed ctx spec id (Some job) db in
  match answer with
  | Ok (MutationOutcome.Applied _ _) =>
    ∃ row j, awaits ctx id db row ∧ request_free db (approve_request ctx id job) ∧
      expectation_met db (approve_request ctx id job) ∧
      jobs db !! (draft_client_id ctx, NewOutboxJob.job_id job) = None ∧
      rows_of db' = <[(draft_client_id ctx, id) :=
                        approve_sql spec (Some (NewOutboxJob.job_id job)) (u64_as_i64 (draft_now_ms ctx)) row]> (rows_of db) ∧
      fresh_job (draft_client_id ctx, NewOutboxJob.job_id job) j ∧ Job.payload_json j = NewOutboxJob.payload_json job ∧
      jobs db' = <[(draft_client_id ctx, NewOutboxJob.job_id job) := j]> (jobs db)
  | _ => Db.domain db' = Db.domain db
  end.
Proof using DraftLaws0.
  intros Hwf Hone. pose proof (approve_cases ctx id job db Hwf Hone) as Ha.
  destruct (approve constraint_failed ctx spec id (Some job) db) as [answer db'].
  inversion Ha; subst; try done. eauto 12.
Qed.

(** A decision that is sent again is not replayed: the request of an applied approval,
    sent once more under its key, is answered with an error that the draft is no longer
    staged, since the check for that comes before the spine's search for the key. *)
Theorem retried_approval_is_refused ctx id job db rid revision db1 :
  spine_wf db → one_active (rows_of db) →
  approve constraint_failed ctx spec id (Some job) db = (Ok (MutationOutcome.Applied rid revision), db1) →
  request_used db1 (approve_request ctx id job) ∧
  approve constraint_failed ctx spec id (Some job) db1
  = (Err (StoreError.Domain (not_staged_code spec +:+ ":approved")), db1).
Proof using DraftLaws0.
  intros Hwf Hone Happ. pose proof (approve_cases ctx id job db Hwf Hone) as Ha. rewrite Happ in Ha.
  inversion Ha as [| | | | | |row j db' ? ? Haw Hf Hx Hn Hrows _ _ _]; subst.
  destruct (laws_approve (NewOutboxJob.job_id job) (u64_as_i64 (draft_now_ms ctx)) row) as (Hst & _ & _ & Hsrc).
  set (row' := approve_sql spec _ _ row) in *.
  assert (Hrow' : rows_of db1 !! (draft_client_id ctx, id) = Some row') by (rewrite Hrows; apply lookup_insert_eq).
  assert (Hscope : allowed_scope ctx row' = Ok tt).
  { destruct Haw as (_ & Hs & _). unfold allowed_scope in *. by rewrite Hsrc. }
  split.
  - assert (Hstep : require_staged ctx spec id db = (Ok tt, db)).
    { rewrite require_staged_cases. destruct Haw as (-> & -> & ->). done. }
    unfold approve in Happ. rewrite (op_bind_step _ _ _ _ _ Hstep) in Happ.
    destruct (slice_mutate_effect constraint_failed (approve_request ctx id job)
      (approve_write constraint_failed ctx spec id (Some job)) db Hwf (approve_write_spares _ _ _)) as [He _].
    change (mutate constraint_failed (approve_request ctx id job) (approve_write constraint_failed ctx spec id (Some job)) db)
      with (approve_commit constraint_failed ctx spec id (Some job) db) in He.
    rewrite Happ in He. by inversion He.
  - unfold approve at 1. pose proof (require_staged_cases ctx id db1) as Hr. rewrite Hrow', Hscope, Hst in Hr.
    unfold op_bind. rewrite Hr. done.
Qed.
End drafts.

(** ** What holds of every row

    A property of a row and its key, kept by the statements of a decision, is kept by
    every operation of the table that writes rows with it. *)

Section rows.
Context {Row WithRevision : Type} `{!DraftStore Row WithRevision} (spec : DraftTableSpec Row) `{!DraftLaws spec}.
Context (constraint_failed : string) (P : string * string → Row → Prop).
Implicit Types (db : AppDb) (ctx : DraftMutationContext).

Record table_wf db : Prop := {
  table_rows : ∀ k row, rows_of db !! k = Some row → P k row;
  table_active : one_active (rows_of db);
}.

Definition table_good db : Prop := spine_wf db ∧ table_wf db.

Lemma table_wf_rows db db' : rows_of db' = rows_of db → table_wf db → table_wf db'.
Proof. intros Hr [H1 H2]. split; by rewrite ?Hr. Qed.

Lemma table_wf_domain db db' : Db.domain db' = Db.domain db → table_wf db → table_wf db'.
Proof. intros Hd. by apply table_wf_rows, rows_of_domain. Qed.

(** A row is replaced by one with the property. *)
Lemma table_wf_insert db db' k row :
  table_wf db → rows_of db' = <[k := row]> (rows_of db) → P k row → one_active (rows_of db') → table_wf db'.
Proof.
  intros [Hp _] Hr Hrow Hone. split; [|done]. intros k' row'. rewrite Hr, lookup_insert_Some.
  intros [[<- <-]|[_ H]]; [done|by apply Hp].
Qed.

Lemma good_mutation (request : MutationRequest.t) (write : SliceWrite) db :
  table_good db → write_spares write → (∀ db1, write db = (Ok tt, db1) → table_wf db1) →
  table_good (mutate constraint_failed request write db).2.
Proof.
  intros [Hsp Hwf] Hs Hw. destruct (slice_mutate_effect constraint_failed request write db Hsp Hs) as (He & Hsp' & _).
  split; [done|]. clear Hsp'. revert He. generalize (mutate constraint_failed request write db). intros res He.
  inversion He as [db' ? ? ? Hd|db' ? ? ? ? Hd|db1 db' ? ? ? ? Hw1 Hd|err db1 db' ? ? ? Hd]; subst res; simpl;
    eapply table_wf_domain; eauto.
Qed.

Lemma insert_draft_row_slice code client row : slice_write (insert_draft_row code client row).
Proof. apply (slice_write_if (fun db => _)), slice_write_update. Qed.

(** No row of the client stands for the item of a row the index admits. *)
Lemma index_admits client id row rows :
  index_violated client id row rows = false → is_active row = true →
  ∀ k other, rows !! k = Some other → k.1 = client → k.2 ≠ id → row_item_id other = row_item_id row → is_active other = false.
Proof using DraftLaws0.
  intros Hq Hact [c i] other Hother Hc Hi Hitem. simpl in Hc, Hi. subst c. apply not_true_is_false. intros Ho.
  enough (index_violated client id row rows = true) by congruence. unfold index_violated. apply existsb_exists.
  exists ((client, i), other). split; [by apply list_elem_of_In, elem_of_map_to_list|].
  rewrite laws_index, Hact, Ho, Hitem, !(proj2 (string_eqb_true _ _) eq_refl). simpl.
  rewrite andb_true_r. apply negb_true_iff, not_true_is_false. by intros ?%string_eqb_true.
Qed.

Lemma insert_draft_row_wf code client row db db1 :
  table_wf db → P (client, row_draft_id row) row → is_active row = true →
  insert_draft_row code client row db = (Ok tt, db1) → table_wf db1.
Proof using DraftLaws0.
  intros Hwf Hrow Hact. unfold insert_draft_row. fold (rows_of db).
  destruct (bool_decide _ || _) eqn:He; [done|]. intros [= <-].
  apply orb_false_iff in He as [Hfree Hq]. apply bool_decide_eq_false, eq_None_not_Some in Hfree.
  pose proof (index_admits _ _ _ _ Hq Hact) as Hadm. set (db1 := set_tables db _).
  assert (Hr : rows_of db1 = <[(client, row_draft_id row) := row]> (rows_of db)) by apply laws_set.
  apply (table_wf_insert db db1 (client, row_draft_id row) row Hwf Hr Hrow). rewrite Hr.
  intros k1 k2 r1 r2. rewrite !lookup_insert_Some. intros [[<- <-]|[Hn1 H1]] [[<- <-]|[Hn2 H2]] Hc Hi Ha1 Ha2; [done|..].
  - exfalso. assert (Hk : k2.2 ≠ row_draft_id row) by (destruct k2; simpl in *; congruence).
    rewrite (Hadm k2 r2 H2 (eq_sym Hc) Hk (eq_sym Hi)) in Ha2. done.
  - exfalso. assert (Hk : k1.2 ≠ row_draft_id row) by (destruct k1; simpl in *; congruence).
    rewrite (Hadm k1 r1 H1 Hc Hk Hi) in Ha1. done.
  - by eapply (table_active _ Hwf).
Qed.

Lemma good_insert (request : MutationRequest.t) code client row db :
  table_good db → P (client, row_draft_id row) row → is_active row = true →
  table_good (mutate constraint_failed request (insert_draft_row code client row) db).2.
Proof using DraftLaws0.
  intros Hg Hrow Hact. apply good_mutation; [done|apply slice_write_spares_receipts, insert_draft_row_slice|].
  intros db1. apply insert_draft_row_wf; [by destruct Hg|done..].
Qed.

(** An edit of a row that stands. *)
Lemma good_edit_row (request : MutationRequest.t) client id f row db :
  table_good db → rows_of db !! (client, id) = Some row → P (client, id) (f row) → row_item_id (f row) = row_item_id row →
  is_active row = true → table_good (mutate constraint_failed request (update_draft_row constraint_failed client id f) db).2.
Proof using DraftLaws0.
  intros Hg Hrow Hp Hitem Hact. apply good_mutation; [done|apply slice_write_spares_receipts, slice_write_update_row|].
  destruct Hg as [_ Hwf]. intros db1. rewrite (update_row_ok spec constraint_failed db client id row f (table_active _ Hwf) Hrow Hitem (fun _ => Hact)).
  intros [= <-]. eapply (table_wf_insert db _ (client, id)); [done|apply laws_set|done|]. unfold rows_of at 1. rewrite tables_set, laws_set.
  by apply (one_active_update _ _ row); [apply (table_active _ Hwf)|..].
Qed.

Context (HPa : ∀ k job_id now row, P k row → P k (approve_sql spec (Some job_id) now row))
  (HPr : ∀ k now row, P k row → row_status row = "staged"%string → P k (reject_sql spec now row)).

Lemma good_approval ctx id job db :
  table_good db → table_good (approve constraint_failed ctx spec id (Some job) db).2.
Proof using DraftLaws0 HPa.
  intros [Hsp Hwf]. split.
  - unfold approve. pose proof (require_staged_cases spec ctx id db) as Hr. unfold op_bind.
    destruct (require_staged ctx spec id db) as [[u|e] db0] eqn:Hs; [|by injection Hr as _ ->].
    apply require_staged_ok in Hs as [-> _]. by apply mutate_grows; [|apply approve_write_spares].
  - pose proof (approve_cases spec constraint_failed ctx id job db Hsp (table_active _ Hwf)) as Ha. revert Ha.
    generalize (approve constraint_failed ctx spec id (Some job) db). intros res Ha.
    inversion Ha as [| | |row db' ? ? ? ? Hd|row db' ? ? ? ? ? Hd|row db' ? ? ? ? Hd|row j db' rid rev Haw Hf Hx Hn Hrows Hfresh Hpay Hjobs];
      subst res; simpl; [done..|by eapply table_wf_domain|by eapply table_wf_domain|by eapply table_wf_domain|].
    pose proof (awaits_active _ _ _ _ Haw) as Hact. destruct Haw as (Hrow & _ & _).
    destruct (laws_approve (NewOutboxJob.job_id job) (u64_as_i64 (draft_now_ms ctx)) row) as (_ & _ & Hitem & _).
    eapply (table_wf_insert db db'); [done|exact Hrows| |]; [by apply HPa, (table_rows _ Hwf)|]. rewrite Hrows.
    by apply (one_active_update _ _ row); [apply (table_active _ Hwf)|..].
Qed.

Lemma good_rejection ctx id db : table_good db → table_good (reject constraint_failed ctx spec id db).2.
Proof using DraftLaws0 HPr.
  intros Hg. unfold reject. pose proof (require_staged_cases spec ctx id db) as Hr. unfold op_bind.
  destruct (require_staged ctx spec id db) as [[u|e] db0] eqn:Hs; [|by injection Hr as _ ->].
  apply require_staged_ok in Hs as [-> [row Haw]]. apply good_mutation; [done|apply reject_write_spares|].
  destruct Hg as [_ Hwf]. pose proof (proj1 Haw) as Hrow. intros db1.
  rewrite (reject_write_ok spec constraint_failed _ _ _ row (table_active _ Hwf) Hrow). intros [= <-].
  eapply (table_wf_insert db _ (draft_client_id ctx, id)); [done|apply laws_set|apply HPr; [by apply (table_rows _ Hwf)|by destruct Haw as (_ & _ & ?)]|].
  unfold rows_of at 1. rewrite tables_set, laws_set. eapply one_active_reject; [apply (table_active _ Hwf)|exact Hrow|].
  unfold is_active. by destruct (laws_reject (u64_as_i64 (draft_now_ms ctx)) row) as (-> & _).
Qed.
End rows.
