(* ===== verification/CrmDrafts.v ===== *)
(** * CRM note drafts ([bos-app/src/slices/crm_drafts/])

    A draft is staged from a work item's message, edited, and approved or rejected.
    Approving it enqueues the note for the configured provider.

    The handlers are after authentication: the actor and the scope are arguments.
    [draft_json], [provenance_json], [hubspot_json] and [espocrm_json] are serde's texts,
    [parse_provenance] reads one back, [result_fields] reads a delivery's result;
    [contact_exists] is the provider's search by an address.  What a delivery sends
    and how a draft is produced by a model are not here. *)

From S2P Require Import Prelude RustStd RustStr StoreCore AppOutbox Identity Schema Operators WorkItems WorkQueue Calendar DateInput DraftStore.
Import Spine.

(* src: crates/bos-contracts/src/crm_drafts.rs:13-17 CrmDraftStatus *)
Inductive CrmDraftStatus := Staged | Approved | Rejected.

Module CrmNoteDraft.
(* src: crates/bos-contracts/src/crm_drafts.rs:21-50 CrmNoteDraft *)
Record t := mk {
  draft_id : string;
  item_id : string;
  source_kind : string;
  source_ref : string;
  source_user_id : option string;
  status : CrmDraftStatus;
  note_body : string;
  contact_email : option string;
  occurred_at : string;
  provenance : list DraftFieldProvenance;
  model : string;
  confidence : string;
  outbox_job_id : option string;
  created_at_ms : N;
  updated_at_ms : N;
}.
End CrmNoteDraft.

(* src: crates/bos-contracts/src/crm_drafts.rs:54-60 CrmDraftWithRevision *)
Record CrmDraftWithRevision := {
  draft : CrmNoteDraft.t;
  revision : N;
  outbox_job : option OutboxJobSummary;
}.

(* src: crates/bos-app/src/slices/crm_drafts/store.rs:322-328 status_from_str *)
Definition status_from_str (raw : string) : CrmDraftStatus :=
  if string_eqb raw "approved" then Approved else if string_eqb raw "rejected" then Rejected else Staged.

Section rows.
Context (parse_provenance : string → option (list DraftFieldProvenance))
  (result_fields : string → option bool * option string).

(* src: crates/bos-app/src/slices/crm_drafts/store.rs:33-56 draft_from_row *)
Definition draft_from_row (row : CrmNoteDraftRow.t) (revision : N) : CrmDraftWithRevision := {|
  draft := {|
    CrmNoteDraft.draft_id := CrmNoteDraftRow.draft_id row;
    CrmNoteDraft.item_id := CrmNoteDraftRow.item_id row;
    CrmNoteDraft.source_kind := CrmNoteDraftRow.source_kind row;
    CrmNoteDraft.source_ref := CrmNoteDraftRow.source_ref row;
    CrmNoteDraft.source_user_id := CrmNoteDraftRow.source_user_id row;
    CrmNoteDraft.status := status_from_str (CrmNoteDraftRow.status row);
    CrmNoteDraft.note_body := CrmNoteDraftRow.note_body row;
    CrmNoteDraft.contact_email := CrmNoteDraftRow.contact_email row;
    CrmNoteDraft.occurred_at := CrmNoteDraftRow.occurred_at row;
    CrmNoteDraft.provenance := default [] (parse_provenance (CrmNoteDraftRow.provenance_json row));
    CrmNoteDraft.model := CrmNoteDraftRow.model row;
    CrmNoteDraft.confidence := CrmNoteDraftRow.confidence row;
    CrmNoteDraft.outbox_job_id := CrmNoteDraftRow.outbox_job_id row;
    CrmNoteDraft.created_at_ms := i64_as_u64 (CrmNoteDraftRow.created_at_ms row);
    CrmNoteDraft.updated_at_ms := i64_as_u64 (CrmNoteDraftRow.updated_at_ms row);
  |};
  revision := revision;
  outbox_job := None;
|}.

(* src: crates/bos-app/src/slices/crm_drafts/store.rs:58-67 attach_job_summary *)
Definition attach_job_summary (client_id : string) (entry : CrmDraftWithRevision) : AppOp CrmDraftWithRevision :=
  match CrmNoteDraft.outbox_job_id (draft entry) with
  | Some job_id =>
    let? job := Outbox.job_summary result_fields client_id job_id in
    op_ret (Build_CrmDraftWithRevision (draft entry) (revision entry) job)
  | None => op_ret entry
  end.

(** The table of the slice. *)
(* src: crates/bos-app/src/slices/crm_drafts/store.rs:69-103 CrmDraftStore *)
Definition CrmDraftStore : DraftStore CrmNoteDraftRow.t CrmDraftWithRevision := {|
  ENTITY_KIND := "crm_note_draft";
  NOT_FOUND := "crm_draft_not_found";
  draft_rows := crm_note_drafts;
  set_draft_rows := set_crm_note_drafts;
  row_draft_id := CrmNoteDraftRow.draft_id;
  row_item_id := CrmNoteDraftRow.item_id;
  row_status := CrmNoteDraftRow.status;
  row_source_user_id := CrmNoteDraftRow.source_user_id;
  row_outbox_job_id := CrmNoteDraftRow.outbox_job_id;
  row_created_at_ms := CrmNoteDraftRow.created_at_ms;
  map_row := fun row revision => Ok (draft_from_row row revision);
  attach := attach_job_summary;
  source_user_id := fun entry => CrmNoteDraft.source_user_id (draft entry);
  row_conflicts := fun row other =>
    negb (string_eqb (CrmNoteDraftRow.status row) "rejected") && negb (string_eqb (CrmNoteDraftRow.status other) "rejected")
    && string_eqb (CrmNoteDraftRow.item_id row) (CrmNoteDraftRow.item_id other);
|}.
End rows.

(** Only approvals with a job are asked for: without one the source has no statement for
    this table. *)
(* src: crates/bos-app/src/slices/crm_drafts/store.rs:17-28 DRAFT_TABLE *)
Definition DRAFT_TABLE : DraftTableSpec CrmNoteDraftRow.t := {|
  entity_kind := "crm_note_draft";
  not_found_code := "crm_draft_not_found";
  not_staged_code := "crm_draft_not_staged";
  approve_sql := fun job_id now row =>
    match job_id with Some job_id => CrmNoteDraftRow.approve row job_id now | None => row end;
  reject_sql := fun now row => CrmNoteDraftRow.reject row now;
|}.

Module CrmDrafts.
Section store.
Context (constraint_failed : string) (json_text : list (string * JsonValue) → string)
  (draft_json : CrmNoteDraft.t → string) (provenance_json : list DraftFieldProvenance → string)
  (parse_provenance : string → option (list DraftFieldProvenance))
  (result_fields : string → option bool * option string).
#[local] Existing Instance CrmDraftStore.
Abbreviation Store := (CrmDraftStore parse_provenance result_fields).

(* src: crates/bos-app/src/slices/crm_drafts/store.rs:104-110 active_draft_for_item *)
Definition active_draft_for_item (client_id item_id : string) : AppOp (option CrmDraftWithRevision) :=
  Drafts.active_draft_for_item (DraftStore0:=Store) client_id item_id.

(* src: crates/bos-app/src/slices/crm_drafts/store.rs:112-119 get_draft *)
Definition get_draft (client_id draft_id : string) (scope : OperatorScope.t) : AppOp (option CrmDraftWithRevision) :=
  Drafts.get_draft_scoped (DraftStore0:=Store) client_id draft_id scope.

(* src: crates/bos-app/src/slices/crm_drafts/store.rs:121-129 list_drafts *)
Definition list_drafts (client_id : string) (item_id : option string) (limit : N) (scope : OperatorScope.t)
    : AppOp (list CrmDraftWithRevision) :=
  Drafts.list_drafts_scoped (DraftStore0:=Store) client_id item_id limit scope.

(* src: crates/bos-app/src/slices/crm_drafts/store.rs:131-137 count_drafts_for_item *)
Definition count_drafts_for_item (client_id item_id : string) : AppOp N :=
  Drafts.count_drafts_for_item (DraftStore0:=Store) client_id item_id.

(* src: crates/bos-app/src/slices/crm_drafts/store.rs:141-143 staged_item_ids *)
Definition staged_item_ids (client_id : string) : AppOp (list string) :=
  Drafts.staged_item_ids (DraftStore0:=Store) client_id.

(* src: crates/bos-app/src/slices/crm_drafts/store.rs:314-320 require_status *)
Definition require_status (client_id draft_id : string) : AppOp (string * option string) :=
  Drafts.require_status_scoped (DraftStore0:=Store) client_id draft_id.

(** The client's rows of an item that are not rejected: the unique index admits one. *)
(* src: crates/bos-app/src/persistence/migrations/0013_crm_note_drafts.sql:24-26 crm_note_drafts_active_item *)
Definition active_for (client_id item_id : string) (row : CrmNoteDraftRow.t) : bool :=
  string_eqb (CrmNoteDraftRow.client_id row) client_id && string_eqb (CrmNoteDraftRow.item_id row) item_id
  && negb (string_eqb (CrmNoteDraftRow.status row) "rejected").

(* src: crates/bos-app/src/slices/crm_drafts/store.rs:175-198 insert_draft (values) *)
Definition staged_row (client_id : string) (draft : CrmNoteDraft.t) : CrmNoteDraftRow.t := {|
  CrmNoteDraftRow.client_id := client_id;
  CrmNoteDraftRow.draft_id := CrmNoteDraft.draft_id draft;
  CrmNoteDraftRow.item_id := CrmNoteDraft.item_id draft;
  CrmNoteDraftRow.source_kind := CrmNoteDraft.source_kind draft;
  CrmNoteDraftRow.source_ref := CrmNoteDraft.source_ref draft;
  CrmNoteDraftRow.source_user_id := CrmNoteDraft.source_user_id draft;
  CrmNoteDraftRow.status := "staged";
  CrmNoteDraftRow.note_body := CrmNoteDraft.note_body draft;
  CrmNoteDraftRow.contact_email := CrmNoteDraft.contact_email draft;
  CrmNoteDraftRow.occurred_at := CrmNoteDraft.occurred_at draft;
  CrmNoteDraftRow.provenance_json := provenance_json (CrmNoteDraft.provenance draft);
  CrmNoteDraftRow.model := CrmNoteDraft.model draft;
  CrmNoteDraftRow.confidence := CrmNoteDraft.confidence draft;
  CrmNoteDraftRow.outbox_job_id := None;
  CrmNoteDraftRow.created_at_ms := u64_as_i64 (CrmNoteDraft.created_at_ms draft);
  CrmNoteDraftRow.updated_at_ms := u64_as_i64 (CrmNoteDraft.created_at_ms draft);
|}.

(* src: crates/bos-app/src/slices/crm_drafts/store.rs:174-208 insert_draft (transaction) *)
Definition insert_row (client_id : string) (draft : CrmNoteDraft.t) : AppOp unit :=
  fun db =>
    let rows := crm_note_drafts (tables db) in
    if bool_decide (is_Some (rows !! (client_id, CrmNoteDraft.draft_id draft)))
       || existsb (active_for client_id (CrmNoteDraft.item_id draft)) (values rows)
    then (Err (StoreError.Domain "crm_draft_already_active"), db)
    else update_tables (fun t => set_crm_note_drafts t
           (<[(client_id, CrmNoteDraft.draft_id draft) := staged_row client_id draft]> (crm_note_drafts t))) db.

(* src: crates/bos-app/src/slices/crm_drafts/store.rs:145-209 insert_draft *)
Definition insert_draft (client_id actor_id : string) (draft : CrmNoteDraft.t) (idempotency_key : string)
    : AppOp MutationOutcome.t :=
  mutate constraint_failed {|
    MutationRequest.client_id := client_id;
    MutationRequest.entity_kind := "crm_note_draft";
    MutationRequest.entity_id := CrmNoteDraft.draft_id draft;
    MutationRequest.change_kind := "stage";
    MutationRequest.actor_id := actor_id;
    MutationRequest.actor_kind := Operator;
    MutationRequest.expected_revision := None;
    MutationRequest.idempotency_key := idempotency_key;
    MutationRequest.correlation_id := Some (CrmNoteDraft.item_id draft);
    MutationRequest.causation_id := None;
    MutationRequest.before_json := None;
    MutationRequest.after_json := Some (draft_json draft);
    MutationRequest.now_ms := CrmNoteDraft.created_at_ms draft;
  |} (insert_row client_id draft).

(* src: crates/bos-app/src/slices/crm_drafts/store.rs:214-221 approve_draft *)
Definition approve_draft (ctx : ScopedMutationContext) (draft_id : string) (job : NewOutboxJob.t)
    : AppOp MutationOutcome.t :=
  Drafts.approve (DraftStore0:=Store) constraint_failed (scoped_draft_context ctx) DRAFT_TABLE draft_id (Some job).

(* src: crates/bos-app/src/slices/crm_drafts/store.rs:223-229 reject_draft *)
Definition reject_draft (ctx : ScopedMutationContext) (draft_id : string) : AppOp MutationOutcome.t :=
  Drafts.reject (DraftStore0:=Store) constraint_failed (scoped_draft_context ctx) DRAFT_TABLE draft_id.

Definition note_json (body : string) (email : option string) : string :=
  json_text [("contact_email", match email with Some e => JString e | None => JNull end); ("note_body", JString body)].

(** [contact_email_raw.map(str::trim).filter(|s| !s.is_empty())]. *)
Definition trimmed_email (raw : option string) : option string :=
  raw ← raw; let email := trim raw in if is_empty email then None else Some email.

(* src: crates/bos-app/src/slices/crm_drafts/store.rs:235-312 update_draft *)
Definition update_draft (ctx : ScopedMutationContext) (draft_id note_body_raw : string) (contact_email_raw : option string)
    : AppOp MutationOutcome.t :=
  let? current := require_status (scoped_client_id ctx) draft_id in
  op_lift (OperatorScope.require_source_user (scoped_scope ctx) current.2) ;;?
  op_lift (guard_err (negb (string_eqb current.1 "staged"))
             (StoreError.Domain ("crm_draft_not_staged:" +:+ current.1))) ;;?
  let note_body := take_chars 2000 (trim note_body_raw) in
  op_lift (guard_err (is_empty note_body) (StoreError.Domain "crm_draft_body_required")) ;;?
  let contact_email := trimmed_email contact_email_raw in
  op_lift (guard_err (option_any (fun email => negb (has_char "@" email)) contact_email)
             (StoreError.Domain "crm_draft_contact_email_invalid")) ;;?
  let? row := read_tables (fun t => crm_note_drafts t !! (scoped_client_id ctx, draft_id)) in
  let? row := op_lift (ok_or row (StoreError.Sqlite "Query returned no rows")) in
  mutate constraint_failed {|
    MutationRequest.client_id := scoped_client_id ctx;
    MutationRequest.entity_kind := "crm_note_draft";
    MutationRequest.entity_id := draft_id;
    MutationRequest.change_kind := "edit";
    MutationRequest.actor_id := scoped_actor_id ctx;
    MutationRequest.actor_kind := Operator;
    MutationRequest.expected_revision := scoped_expected_revision ctx;
    MutationRequest.idempotency_key := scoped_idempotency_key ctx;
    MutationRequest.correlation_id := None;
    MutationRequest.causation_id := None;
    MutationRequest.before_json := Some (note_json (CrmNoteDraftRow.note_body row) (CrmNoteDraftRow.contact_email row));
    MutationRequest.after_json := Some (note_json note_body contact_email);
    MutationRequest.now_ms := scoped_now_ms ctx;
  |} (Drafts.update_draft_row (DraftStore0:=Store) constraint_failed (scoped_client_id ctx) draft_id
        (fun row => CrmNoteDraftRow.edit row note_body contact_email (u64_as_i64 (scoped_now_ms ctx)))).
End store.
End CrmDrafts.

(** ** Approval ([service.rs], [routes.rs]) *)

Definition PROVIDER_HUBSPOT : string := "hubspot".
Definition PROVIDER_ESPOCRM : string := "espocrm".

(** [raw] is the environment's value. *)
(* src: crates/bos-app/src/slices/crm_drafts/service.rs:49-57 configured_crm_provider *)
Definition configured_crm_provider (raw : option string) : Result string string :=
  let provider := to_ascii_lowercase (trim (default PROVIDER_HUBSPOT raw)) in
  if string_eqb provider PROVIDER_HUBSPOT then Ok PROVIDER_HUBSPOT
  else if string_eqb provider PROVIDER_ESPOCRM then Ok PROVIDER_ESPOCRM
  else Err ("unknown BOS_CRM_PROVIDER: " +:+ provider).

(** [HubSpotApprovalMetadata] and [EspoCrmApprovalMetadata] have the same fields. *)
(* src: crates/bos-integrations/src/hubspot.rs:196-200 HubSpotApprovalMetadata *)
Record ApprovalMetadata := {
  approval_id : string;
  approved_by : string;
  approved_at : string;
}.

(* src: crates/bos-integrations/src/hubspot.rs:212-219 HubSpotNoteCreateOutboxPayload *)
Record HubSpotNoteCreateOutboxPayload := {
  hubspot_idempotency_key : string;
  hubspot_approval : ApprovalMetadata;
  hubspot_note_body : string;
  hubspot_occurred_at : string;
}.

(* src: crates/bos-integrations/src/espocrm.rs:70-83 EspoCrmNoteCreateOutboxPayload *)
Record EspoCrmNoteCreateOutboxPayload := {
  espocrm_idempotency_key : string;
  espocrm_approval : ApprovalMetadata;
  espocrm_note_body : string;
  espocrm_occurred_at : string;
  espocrm_contact_email : option string;
}.

(* src: crates/bos-contracts/src/crm_drafts.rs:81-84 CrmDraftActionKind *)
Inductive CrmDraftActionKind := ApproveDraft | RejectDraft.

(** What a handler answers: a refusal of its own, or what the store said. *)
Inductive DraftAnswer :=
| Refused (status : N) (code : string)
| Answered (outcome : Result StoreError.t MutationOutcome.t).

Section approval.
Context (hubspot_json : HubSpotNoteCreateOutboxPayload → string) (espocrm_json : EspoCrmNoteCreateOutboxPayload → string).

(** The note's text as it is sent. *)
(* src: crates/bos-app/src/slices/crm_drafts/service.rs:474-481 build_approval_job (note) *)
Definition approved_note (draft : CrmNoteDraft.t) : string :=
  CrmNoteDraft.note_body draft
  +:+ (match CrmNoteDraft.contact_email draft with
       | Some email => DateInput.newline +:+ DateInput.newline +:+ "Contact: " +:+ email
       | None => ""
       end)
  +:+ DateInput.newline +:+ "Source: " +:+ CrmNoteDraft.source_kind draft +:+ " " +:+ CrmNoteDraft.source_ref draft
  +:+ " (via BusinessOS, draft " +:+ CrmNoteDraft.draft_id draft +:+ ")".

(* src: crates/bos-app/src/slices/crm_drafts/service.rs:463-517 build_approval_job *)
Definition build_approval_job (draft : CrmNoteDraft.t) (actor_id : string) (now_ms : N) (provider : string)
    : Result string NewOutboxJob.t :=
  let idempotency_key := "crmdraft:" +:+ CrmNoteDraft.draft_id draft in
  let approval := Build_ApprovalMetadata ("appr_" +:+ CrmNoteDraft.draft_id draft) actor_id
                    (Calendar.epoch_ms_to_rfc3339_utc now_ms) in
  payload_json ←
    (if string_eqb provider PROVIDER_HUBSPOT then
       Ok (hubspot_json (Build_HubSpotNoteCreateOutboxPayload idempotency_key approval (approved_note draft)
                           (CrmNoteDraft.occurred_at draft)))
     else if string_eqb provider PROVIDER_ESPOCRM then
       Ok (espocrm_json (Build_EspoCrmNoteCreateOutboxPayload idempotency_key approval (approved_note draft)
                           (CrmNoteDraft.occurred_at draft) (CrmNoteDraft.contact_email draft)))
     else Err ("unknown crm provider: " +:+ provider));
  Ok {|
    NewOutboxJob.job_id := "obj_" +:+ CrmNoteDraft.draft_id draft;
    NewOutboxJob.provider := provider;
    NewOutboxJob.capability := "create_note";
    NewOutboxJob.payload_json := payload_json;
    NewOutboxJob.source_entity_kind := "crm_note_draft";
    NewOutboxJob.source_entity_id := CrmNoteDraft.draft_id draft;
    NewOutboxJob.correlation_id := Some (CrmNoteDraft.item_id draft);
    NewOutboxJob.causation_id := None;
    NewOutboxJob.idempotency_key := idempotency_key;
  |}.

Context (constraint_failed : string) (parse_provenance : string → option (list DraftFieldProvenance))
  (result_fields : string → option bool * option string) (contact_exists : string → bool).

(** The error codes a handler answers with, for the statuses 400, 422 and 500. *)
(* src: crates/bos-app/src/slices/crm_drafts/routes.rs:117-199 draft_action *)
Definition draft_action (provider_env : option string) (ctx : ScopedMutationContext) (draft_id : string)
    (action : CrmDraftActionKind) (db : AppDb) : DraftAnswer * AppDb :=
  let answered (m : AppOp MutationOutcome.t) (db : AppDb) := let '(r, db) := m db in (Answered r, db) in
  if is_blank (scoped_idempotency_key ctx) then (Refused 400 "idempotency_key_required", db)
  else match action with
  | RejectDraft => answered (CrmDrafts.reject_draft constraint_failed parse_provenance result_fields ctx draft_id) db
  | ApproveDraft =>
    match CrmDrafts.get_draft parse_provenance result_fields (scoped_client_id ctx) draft_id (scoped_scope ctx) db with
    | (Ok (Some found), db) =>
      match configured_crm_provider provider_env with
      | Err _ => (Refused 500 "crm_provider_invalid", db)
      | Ok provider =>
        if string_eqb provider PROVIDER_ESPOCRM
           && option_any (fun email => negb (contact_exists email)) (CrmNoteDraft.contact_email (draft found))
        then (Refused 422 "crm_note_records_first", db)
        else match build_approval_job (draft found) (scoped_actor_id ctx) (scoped_now_ms ctx) provider with
             | Err _ => (Refused 500 "approval_job_build_failed", db)
             | Ok job =>
               answered (CrmDrafts.approve_draft constraint_failed parse_provenance result_fields ctx draft_id job) db
             end
      end
    | (Ok None, db) => (Refused 422 "crm_draft_not_found", db)
    | (Err err, db) => (Answered (Err err), db)
    end
  end.
End approval.
