(* ===== verification/CrmDraftProps.v ===== *)
(** * What the CRM drafts guarantee

    The table of note drafts satisfies the interface's laws, so the guarantees of
    DraftProps.v hold of it; whatever its handlers are asked, and however their checks and
    commits interleave, its rows stay well formed. *)

From S2P Require Import Prelude RustStd RustStr StoreCore StoreCoreProps AppOutbox AppOutboxProps Identity Schema SliceCore Operators WorkItems WorkQueue Calendar DateInput DraftStore DraftProps CrmDrafts.
Import Spine Outbox Drafts CrmDrafts.

Section crm.
Context (parse_provenance : string → option (list DraftFieldProvenance))
  (result_fields : string → option bool * option string).
#[local] Hint Extern 0 (DraftStore CrmNoteDraftRow.t _) =>
  exact (CrmDraftStore parse_provenance result_fields) : typeclass_instances.

#[export] Instance crm_laws : DraftLaws DRAFT_TABLE.
Proof. by split. Qed.

Context (constraint_failed : string) (json_text : list (string * JsonValue) → string)
  (draft_json : CrmNoteDraft.t → string) (provenance_json : list DraftFieldProvenance → string)
  (hubspot_json : HubSpotNoteCreateOutboxPayload → string) (espocrm_json : EspoCrmNoteCreateOutboxPayload → string)
  (contact_exists : string → bool).
Implicit Types (db : AppDb).

(** ** Requests *)

(** Requests run on connections of their own: a handler's checks are queries before its
    transaction, and other handlers' transactions may come in between.  So the transactions
    are steps of their own, whatever their checks have found before; a request served
    alone is one, or changes nothing. *)
Inductive Call :=
| CStage (client_id actor_id : string) (draft : CrmNoteDraft.t) (key : string)
| CEditCommit (ctx : ScopedMutationContext) (draft_id : string) (row : CrmNoteDraftRow.t) (body : string) (email : option string)
| CCommit (ctx : DraftMutationContext) (draft_id : string) (decision : option NewOutboxJob.t)
| CEdit (ctx : ScopedMutationContext) (draft_id body : string) (email : option string)
| CDecide (provider_env : option string) (ctx : ScopedMutationContext) (draft_id : string) (action : CrmDraftActionKind)
| COther (f : AppDb → AppDb).

(** The transaction of an edit that read [row]. *)
Definition edit_commit (ctx : ScopedMutationContext) (draft_id : string) (row : CrmNoteDraftRow.t) (note_body : string)
    (contact_email : option string) : AppOp MutationOutcome.t :=
  mutate constraint_failed {|
    MutationRequest.client_id := scoped_client_id ctx;
    MutationRequest.entity_kind := "crm_note_draft";
    MutationRequest.entity_id := draft_id;
    MutationRequest.change_kind := "edit";
    MutationRequest.actor_id := scoped_actor_id ctx;
    MutationRequest.actor_kind := Operator;
    MutationRequest.expected_revision := scoped_expected_revision ctx;
    MutationRequest.idempotency_key := scoped_idempotency_key ctx;
    MutationRequest.correlation_id := None;
    MutationRequest.causation_id := None;
    MutationRequest.before_json := Some (note_json json_text (CrmNoteDraftRow.note_body row) (CrmNoteDraftRow.contact_email row));
    MutationRequest.after_json := Some (note_json json_text note_body contact_email);
    MutationRequest.now_ms := scoped_now_ms ctx;
  |} (update_draft_row constraint_failed (scoped_client_id ctx) draft_id
        (fun row => CrmNoteDraftRow.edit row note_body contact_email (u64_as_i64 (scoped_now_ms ctx)))).

Definition serve db (call : Call) : AppDb :=
  match call with
  | CStage c actor draft key => (insert_draft constraint_failed draft_json provenance_json c actor draft key db).2
  | CEditCommit ctx id row body email => (edit_commit ctx id row body email db).2
  | CCommit ctx id decision => (commit DRAFT_TABLE constraint_failed ctx id decision db).2
  | CEdit ctx id body email =>
    (update_draft constraint_failed json_text parse_provenance result_fields ctx id body email db).2
  | CDecide env ctx id action =>
    (draft_action hubspot_json espocrm_json constraint_failed parse_provenance result_fields contact_exists env ctx id action db).2
  | COther f => f db
  end.
Definition serve_all : AppDb → list Call → AppDb := foldl serve.

(** Other slices and the delivery of jobs: they leave the drafts alone and remove no job. *)
Definition allowed (call : Call) : Prop :=
  match call with
  | COther f => ∀ db, spine_wf db → spine_wf (f db) ∧ crm_note_drafts (tables (f db)) = crm_note_drafts (tables db) ∧
                      ∀ k, is_Some (jobs db !! k) → is_Some (jobs (f db) !! k)
  | _ => True
  end.

(** ** The table *)

Abbreviation drafts db := (crm_note_drafts (tables db)).

Definition job_matches db (k : string * string) (row : CrmNoteDraftRow.t) : Prop :=
  match CrmNoteDraftRow.outbox_job_id row with
  | Some job_id => CrmNoteDraftRow.status row ∈ ["approved"; "rejected"]%string ∧ is_Some (jobs db !! (k.1, job_id))
  | None => CrmNoteDraftRow.status row ≠ "approved"%string
  end.

Record drafts_wf db : Prop := {
  wf_key : ∀ k row, drafts db !! k = Some row → CrmNoteDraftRow.client_id row = k.1 ∧ CrmNoteDraftRow.draft_id row = k.2;
  wf_status : ∀ k row, drafts db !! k = Some row → CrmNoteDraftRow.status row ∈ ["staged"; "approved"; "rejected"]%string;
  wf_active : one_active (drafts db);
  wf_job : ∀ k row, drafts db !! k = Some row → job_matches db k row;
}.

Lemma drafts_wf_same db db' : Db.domain db' = Db.domain db → drafts_wf db → drafts_wf db'.
Proof.
  intros Hd [Hk Hs Ha Hj]. assert (Ht : tables db' = tables db) by (unfold tables; by rewrite Hd).
  split; rewrite ?Ht; [done..|]. intros k row Hrow. unfold job_matches.
  rewrite (jobs_domain _ _ Hd). by apply Hj.
Qed.

(** A row is replaced; the others' jobs stay. *)
Lemma drafts_wf_insert db db' k row :
  drafts_wf db → drafts db' = <[k := row]> (drafts db) → (∀ k, is_Some (jobs db !! k) → is_Some (jobs db' !! k)) →
  CrmNoteDraftRow.client_id row = k.1 → CrmNoteDraftRow.draft_id row = k.2 →
  CrmNoteDraftRow.status row ∈ ["staged"; "approved"; "rejected"]%string →
  one_active (drafts db') → job_matches db' k row → drafts_wf db'.
Proof.
  intros [Hk Hs Ha Hj] Hd Hjobs Hc Hid Hst Hone Hjob.
  split; rewrite ?Hd; [| |by rewrite <- Hd|]; intros k' row'; rewrite lookup_insert_Some; intros [[<- <-]|[Hne Hrow]].
  - done.
  - by apply Hk.
  - done.
  - by eapply Hs.
  - done.
  - specialize (Hj k' row' Hrow). unfold job_matches in *. destruct (CrmNoteDraftRow.outbox_job_id row'); [|done].
    destruct Hj. auto.
Qed.

Lemma insert_row_wf c draft db db' :
  drafts_wf db → insert_row provenance_json c draft db = (Ok tt, db') → drafts_wf db'.
Proof.
  intros Hwf. unfold insert_row. destruct (bool_decide _ || _) eqn:He; [done|]. intros [= <-].
  apply orb_false_iff in He as [Hfree Hact]. apply bool_decide_eq_false in Hfree.
  set (row := staged_row provenance_json c draft).
  eapply (drafts_wf_insert db _ (c, CrmNoteDraft.draft_id draft) row); [done|done|done|done|done|by left| |].
  - change (drafts (set_tables db _)) with (<[(c, CrmNoteDraft.draft_id draft) := row]> (drafts db)).
    intros k1 k2 r1 r2. rewrite !lookup_insert_Some. intros [[<- <-]|[Hn1 H1]] [[<- <-]|[Hn2 H2]] Hc Hi Ha1 Ha2; [done|..].
    + exfalso. pose proof (existsb_values_false _ _ _ _ Hact H2) as Hno. unfold active_for in Hno.
      destruct (wf_key _ Hwf _ _ H2) as [Hc2 _]. rewrite Hc2 in Hno. simpl in Hc, Hi. rewrite <- Hc, <- Hi in Hno.
      unfold is_active in Ha2. simpl in Ha2. by rewrite Ha2, !(proj2 (string_eqb_true _ _) eq_refl) in Hno.
    + exfalso. pose proof (existsb_values_false _ _ _ _ Hact H1) as Hno. unfold active_for in Hno.
      destruct (wf_key _ Hwf _ _ H1) as [Hc2 _]. rewrite Hc2 in Hno. simpl in Hc, Hi. rewrite Hc, Hi in Hno.
      unfold is_active in Ha1. simpl in Ha1. by rewrite Ha1, !(proj2 (string_eqb_true _ _) eq_refl) in Hno.
    + by eapply (wf_active _ Hwf).
  - done.
Qed.

Lemma insert_row_slice c draft : slice_write (insert_row provenance_json c draft).
Proof. apply (slice_write_if (fun db => _)), slice_write_update. Qed.

(** ** Requests keep the table *)

Definition good db : Prop := spine_wf db ∧ drafts_wf db.

Lemma good_mutate (request : MutationRequest.t) (write : SliceWrite) db :
  good db → write_spares write → (∀ db1, write db = (Ok tt, db1) → drafts_wf db1) →
  good (mutate constraint_failed request write db).2.
Proof.
  intros [Hsp Hwf] Hs Hw. destruct (slice_mutate_effect constraint_failed request write db Hsp Hs) as (He & Hsp' & _).
  split; [done|]. clear Hsp'. revert He. generalize (mutate constraint_failed request write db). intros res He.
  inversion He as [db' ? ? ? Hd|db' ? ? ? ? Hd|db1 db' ? ? ? ? Hw1 Hd|err db1 db' ? ? ? Hd]; subst res; simpl;
    eapply drafts_wf_same; eauto.
Qed.

Lemma good_stage c actor draft key db :
  good db → good (insert_draft constraint_failed draft_json provenance_json c actor draft key db).2.
Proof.
  intros Hg. apply good_mutate; [done|apply slice_write_spares_receipts, insert_row_slice|].
  intros db1 Hw. eapply insert_row_wf, Hw. by destruct Hg.
Qed.

(** A transaction that updates one row, and may enqueue jobs. *)
Lemma update_wf db db1 db2 c id f :
  drafts_wf db → update_draft_row constraint_failed c id f db = (Ok tt, db1) →
  drafts db2 = drafts db1 → (∀ k, is_Some (jobs db1 !! k) → is_Some (jobs db2 !! k)) →
  (∀ row, drafts db !! (c, id) = Some row →
     CrmNoteDraftRow.client_id (f row) = CrmNoteDraftRow.client_id row ∧ CrmNoteDraftRow.draft_id (f row) = CrmNoteDraftRow.draft_id row ∧
     CrmNoteDraftRow.status (f row) ∈ ["staged"; "approved"; "rejected"]%string ∧ job_matches db2 (c, id) (f row)) →
  drafts_wf db2.
Proof.
  intros Hwf Hup Hd Hjobs Hf.
  destruct (update_row_inv DRAFT_TABLE constraint_failed db c id f db1 (wf_active _ Hwf) Hup) as (Hj & Hone & Hrows).
  change (rows_of (Row:=CrmNoteDraftRow.t) db1) with (drafts db1) in Hone, Hrows. change (rows_of (Row:=CrmNoteDraftRow.t) db) with (drafts db) in Hrows.
  rewrite Hj in Hjobs. destruct Hrows as [[_ Hsame]|(row & Hrow & Hnew)].
  - destruct Hwf as [Hk Hs _ Hm]. split; rewrite ?Hd; [| |done|]; rewrite ?Hsame; [done..|].
    intros k r Hr. specialize (Hm k r Hr). unfold job_matches in *. case_match; [|done]. destruct Hm. auto.
  - destruct (Hf row Hrow) as (Hc & Hi & Hst & Hjm). destruct (wf_key _ Hwf _ _ Hrow) as [Hc' Hi'].
    eapply (drafts_wf_insert db db2 (c, id) (f row)); [done|by rewrite Hd|done|by rewrite Hc|by rewrite Hi|done|by rewrite Hd|done].
Qed.

Lemma good_edit_commit ctx id row body email db : good db → good (edit_commit ctx id row body email db).2.
Proof.
  intros Hg. apply good_mutate; [done|apply slice_write_spares_receipts, slice_write_update_row|].
  destruct Hg as [_ Hwf]. intros db1 Hw. eapply update_wf; [exact Hwf|exact Hw|done|done|].
  intros r Hr. pose proof (wf_job _ Hwf _ _ Hr) as Hj. split_and!; [done|done|exact (wf_status _ Hwf _ _ Hr)|].
  destruct (update_row_inv DRAFT_TABLE constraint_failed db _ _ _ db1 (wf_active _ Hwf) Hw) as (Hjobs & _).
  unfold job_matches in *. by rewrite Hjobs.
Qed.

Lemma good_commit ctx id decision db : good db → good (commit DRAFT_TABLE constraint_failed ctx id decision db).2.
Proof.
  intros Hg. destruct decision as [job|]; apply good_mutate; try done; [apply approve_write_spares| |apply reject_write_spares|];
    destruct Hg as [_ Hwf]; intros db1 Hw.
  - unfold approve_write in Hw. apply op_bind_ok in Hw as ([] & db0 & Hup & Hen). unfold enqueue_within in Hen.
    case_decide as Hn; [done|]. injection Hen as <-. eapply update_wf; [exact Hwf|exact Hup|done| |].
    + intros k Hk. rewrite jobs_set. apply lookup_insert_is_Some'. by right.
    + intros r Hr. split_and!; [done|done|right; by left|]. split; [by left|]. rewrite jobs_set. simpl. by rewrite lookup_insert_eq.
  - eapply update_wf; [exact Hwf|exact Hw|done|done|]. intros r Hr. pose proof (wf_job _ Hwf _ _ Hr) as Hj.
    destruct (update_row_inv DRAFT_TABLE constraint_failed db _ _ _ db1 (wf_active _ Hwf) Hw) as (Hjobs & _).
    split_and!; [done|done|do 2 right; by left|]. unfold job_matches in *. rewrite Hjobs. simpl.
    destruct (CrmNoteDraftRow.outbox_job_id r); [|done]. destruct Hj as [_ Hj]. split; [right; by left|done].
Qed.

(** Requests served alone. *)
Lemma good_edit ctx id body email db :
  good db → good (update_draft constraint_failed json_text parse_provenance result_fields ctx id body email db).2.
Proof.
  intros Hg. unfold update_draft.
  assert (Hl : ∀ A B (r : Result StoreError.t A) (k : A → AppOp B),
    (∀ a, r = Ok a → good (k a db).2) → good (op_bind (op_lift r) k db).2).
  { intros A B r k Hk. unfold op_bind, op_lift. destruct r as [a|e]; [by apply Hk|done]. }
  unfold require_status, require_status_scoped. unfold op_bind at 1 2, read_tables at 1.
  change (draft_rows (tables db)) with (drafts db). unfold op_lift at 1.
  destruct (drafts db !! (scoped_client_id ctx, id)) as [row|] eqn:Hrow; simpl; [|done].
  apply Hl. intros [] _. apply Hl. intros [] Hst. apply Hl. intros [] _. apply Hl. intros [] _.
  unfold op_bind at 1, read_tables. rewrite Hrow. apply Hl. intros row' [= <-]. by apply good_edit_commit.
Qed.

Lemma good_checked {A} (check : AppOp unit) (m : AppOp A) db :
  good db → (check db).2 = db → good (m db).2 → good ((check ;;? m) db).2.
Proof. intros Hg Hc Hm. unfold op_bind. destruct (check db) as [[u|e] db0]; simpl in Hc; by subst db0. Qed.

Lemma require_staged_reads ctx id db : (require_staged ctx DRAFT_TABLE id db).2 = db.
Proof. by rewrite (require_staged_cases DRAFT_TABLE). Qed.

Lemma good_approve ctx id job db :
  good db → good (approve_draft constraint_failed parse_provenance result_fields ctx id job db).2.
Proof. intros Hg. apply good_checked; [done|apply require_staged_reads|]. exact (good_commit _ id (Some job) db Hg). Qed.

Lemma good_reject ctx id db :
  good db → good (reject_draft constraint_failed parse_provenance result_fields ctx id db).2.
Proof. intros Hg. apply good_checked; [done|apply require_staged_reads|]. exact (good_commit _ id None db Hg). Qed.

Lemma get_draft_reads c id scope db : (get_draft parse_provenance result_fields c id scope db).2 = db.
Proof.
  unfold get_draft, get_draft_scoped, op_bind, op_get, op_lift, read_row. change (draft_rows (tables db)) with (drafts db).
  destruct (drafts db !! (c, id)) as [row|]; [|done]. cbn.
  destruct (OperatorScope.matches_source_user scope (CrmNoteDraftRow.source_user_id row)); [|done]. cbn.
  unfold op_map, attach_job_summary, op_bind. cbn. by destruct (CrmNoteDraftRow.outbox_job_id row).
Qed.

Lemma good_decide env ctx id action db :
  good db →
  good (draft_action hubspot_json espocrm_json constraint_failed parse_provenance result_fields contact_exists env ctx id action db).2.
Proof.
  intros Hg. unfold draft_action. case_match; [done|]. destruct action.
  - pose proof (get_draft_reads (scoped_client_id ctx) id (scoped_scope ctx) db) as Hr.
    destruct (get_draft _ _ _ _ _ db) as [[[found|]|err] db0]; simpl in Hr; subst db0; [|done|done].
    case_match; [|done]. case_match; [done|]. case_match; [|done].
    pose proof (good_approve ctx id v0 db Hg) as Ha. by destruct (approve_draft _ _ _ _ _ _ db).
  - pose proof (good_reject ctx id db Hg) as Ha. by destruct (reject_draft _ _ _ _ _ db).
Qed.


(** C25: What an approval sends is what the table holds.  When the approve action of the
    route, with no other request in between, is applied, the draft's row was staged and within the operator's scope, the
    provider is the configured one, a note for EspoCRM that names a contact names one that
    exists, and the outbox now holds, pending, the job built from the stored row. *)
Theorem approval_enqueues_what_is_stored env ctx id db rid revision db' :
  spine_wf db → drafts_wf db →
  draft_action hubspot_json espocrm_json constraint_failed parse_provenance result_fields contact_exists env ctx id ApproveDraft db
  = (Answered (Ok (MutationOutcome.Applied rid revision)), db') →
  ∃ row provider job j,
    drafts db !! (scoped_client_id ctx, id) = Some row ∧ CrmNoteDraftRow.status row = "staged"%string ∧
    OperatorScope.matches_source_user (scoped_scope ctx) (CrmNoteDraftRow.source_user_id row) = true ∧
    configured_crm_provider env = Ok provider ∧
    (provider = PROVIDER_ESPOCRM → ∀ email, CrmNoteDraftRow.contact_email row = Some email → contact_exists email = true) ∧
    build_approval_job hubspot_json espocrm_json (draft (draft_from_row parse_provenance row 0)) (scoped_actor_id ctx)
      (scoped_now_ms ctx) provider = Ok job ∧
    jobs db' !! (scoped_client_id ctx, "obj_" +:+ id) = Some j ∧ Job.status j = STATUS_PENDING ∧
    Job.payload_json j = NewOutboxJob.payload_json job ∧
    drafts db' !! (scoped_client_id ctx, id)
    = Some (CrmNoteDraftRow.approve row ("obj_" +:+ id) (u64_as_i64 (scoped_now_ms ctx))).
Proof.
  intros Hsp Hwf. unfold draft_action. destruct (is_blank _); [done|].
  pose proof (get_draft_reads (scoped_client_id ctx) id (scoped_scope ctx) db) as Hr.
  destruct (get_draft parse_provenance result_fields (scoped_client_id ctx) id (scoped_scope ctx) db) as [[[found|]|err] db0] eqn:Hget;
    simpl in Hr; subst db0; [|done|done].
  unfold get_draft, get_draft_scoped, op_bind, op_get, op_lift, read_row in Hget. change (draft_rows (tables db)) with (drafts db) in Hget.
  destruct (drafts db !! (scoped_client_id ctx, id)) as [row|] eqn:Hrow; [|done]. cbn in Hget.
  destruct (OperatorScope.matches_source_user (scoped_scope ctx) (CrmNoteDraftRow.source_user_id row)) eqn:Hscope; [|done].
  assert (Hfound : draft found = draft (draft_from_row parse_provenance row 0)).
  { cbn in Hget. unfold op_map, attach_job_summary, op_bind in Hget. cbn in Hget.
    destruct (CrmNoteDraftRow.outbox_job_id row) eqn:Ejob; cbn in Hget; inversion Hget; unfold draft_from_row; simpl; by rewrite Ejob. }
  clear Hget. rewrite Hfound. destruct (configured_crm_provider env) as [provider|] eqn:Hprov; [|done].
  destruct (string_eqb provider PROVIDER_ESPOCRM && _) eqn:Hcontact; [done|].
  destruct (build_approval_job _ _ _ _ _ _) as [job|] eqn:Hjob; [|done].
  pose proof (approve_cases DRAFT_TABLE constraint_failed (scoped_draft_context ctx) id job db Hsp (wf_active _ Hwf)) as Ha.
  unfold approve_draft. destruct (approve constraint_failed (scoped_draft_context ctx) DRAFT_TABLE id (Some job) db) as [answer db1].
  intros [= -> ->]. inversion Ha as [| | | | | |row' j db'' ? ? Haw Hf Hx Hn Hrows Hfresh Hpay Hjobs]; subst.
  destruct Haw as (Hrow' & _ & Hst). change (drafts db !! (scoped_client_id ctx, id) = Some row') in Hrow'.
  rewrite Hrow in Hrow'. injection Hrow' as <-. destruct (wf_key _ Hwf _ _ Hrow) as [_ Hid]. simpl in Hid.
  assert (Hjid : NewOutboxJob.job_id job = "obj_" +:+ id).
  { unfold build_approval_job in Hjob. rewrite <- Hid.
    destruct (string_eqb provider PROVIDER_HUBSPOT), (string_eqb provider PROVIDER_ESPOCRM); try done; by injection Hjob as <-. }
  exists row, provider, job, j. split; [done|]. split; [done|]. split; [done|]. split; [done|]. split.
  { intros -> email He. change (CrmNoteDraft.contact_email (draft (draft_from_row parse_provenance row 0))) with
      (CrmNoteDraftRow.contact_email row) in Hcontact. rewrite He in Hcontact. simpl in Hcontact.
    by apply negb_false_iff in Hcontact. }
  split; [exact Hjob|]. split; [rewrite Hjobs, <- Hjid; apply lookup_insert_eq|].
  split; [by destruct Hfresh as (_ & _ & ? & _)|]. split; [done|].
  change (rows_of (Row:=CrmNoteDraftRow.t) db' !! (scoped_client_id ctx, id) = Some (CrmNoteDraftRow.approve row ("obj_" +:+ id) (u64_as_i64 (scoped_now_ms ctx)))).
  rewrite Hrows, <- Hjid. apply lookup_insert_eq.
Qed.
End crm.

(** ** A draft *)

Definition no_provenance (_ : string) : option (list DraftFieldProvenance) := None.
Definition no_fields (_ : string) : option bool * option string := (None, None).
Definition demo_payload (p : HubSpotNoteCreateOutboxPayload) : string := hubspot_note_body p.
Definition demo_espo (p : EspoCrmNoteCreateOutboxPayload) : string := espocrm_note_body p.
Definition demo_text (_ : list (string * JsonValue)) : string := "{}".
Definition demo_draft_json (_ : CrmNoteDraft.t) : string := "{}".
Definition demo_provenance_json (_ : list DraftFieldProvenance) : string := "[]".
#[local] Hint Extern 0 (DraftStore CrmNoteDraftRow.t _) => exact (CrmDraftStore no_provenance no_fields) : typeclass_instances.

Definition demo_note : CrmNoteDraft.t :=
  CrmNoteDraft.mk "cnd_wi_1_1" "wi_1" "email" "msg-1" (Some "user_ada"%string) Staged "Dana called about the storefront."
    (Some "dana@example.test"%string) "2026-06-10T11:45:00Z" [] "claude" "high" None 100 100.

Definition demo_ctx (key : string) (expected : option N) : ScopedMutationContext :=
  Build_ScopedMutationContext "acme" "user_ada" (OperatorScope.User "user_ada") expected key 200.

Abbreviation demo_serve :=
  (serve_all no_provenance no_fields "UNIQUE" demo_text demo_draft_json demo_provenance_json demo_payload demo_espo (fun _ => true)).
Definition demo_new : AppDb := spine_new (mk_tables ∅ empty_slices).
Definition demo_staged : AppDb := demo_serve demo_new [CStage "acme" "user_ada" demo_note "stage-1"].

Lemma demo_new_wf : drafts_wf no_provenance no_fields demo_new.
Proof. by split. Qed.

Lemma demo_good : good no_provenance no_fields demo_staged.
Proof. apply good_stage. split; [apply spine_wf_new|exact demo_new_wf]. Qed.

Definition demo_job : NewOutboxJob.t :=
  NewOutboxJob.mk "obj_cnd_wi_1_1" "hubspot" "create_note" "note" "crm_note_draft" "cnd_wi_1_1" (Some "wi_1"%string) None "crmdraft:cnd_wi_1_1".

(** Evaluated reads of receipts: no key of the client is used but the one it staged with. *)
Lemma demo_free key kind ctx correlation after :
  draft_client_id ctx = "acme"%string → draft_idempotency_key ctx = key → key ≠ "stage-1"%string →
  request_free demo_staged (decision_request ctx DRAFT_TABLE "cnd_wi_1_1" kind correlation after).
Proof.
  intros Hc Hk Hne r Hr. apply not_true_is_false. intros (Hrc & Hrk & _)%applied_with_key_true. simpl in Hrk. rewrite Hk in Hrk.
  assert (Hall : Forall (fun r => Receipt.idempotency_key r = "stage-1"%string) (Db.receipts demo_staged))
    by by repeat constructor.
  rewrite Forall_forall in Hall. specialize (Hall r Hr). congruence.
Qed.

Definition demo_decider (key : string) (expected : option N) : DraftMutationContext := scoped_draft_context (demo_ctx key expected).


Lemma demo_approve : (Drafts.approve (Row:=CrmNoteDraftRow.t) "UNIQUE" (demo_decider "approve-1" (Some 1%N)) DRAFT_TABLE "cnd_wi_1_1" (Some demo_job) demo_staged).1
  = Ok (MutationOutcome.Applied "rcpt_000000000002" 2).
Proof. by vm_compute. Qed.

Lemma approval_all_or_nothing_witness :
  ∃ row, drafts_wf no_provenance no_fields demo_staged ∧
    awaits (Row:=CrmNoteDraftRow.t) (demo_decider "approve-1" (Some 1%N)) "cnd_wi_1_1" demo_staged row.
Proof.
  pose proof (approval_all_or_nothing DRAFT_TABLE "UNIQUE" (demo_decider "approve-1" (Some 1%N)) "cnd_wi_1_1" demo_job demo_staged
    (proj1 demo_good) (wf_active _ _ _ (proj2 demo_good))) as H. pose proof demo_approve as He.
  destruct (Drafts.approve _ _ _ _ _ _) as [answer db']. simpl in He. subst answer. destruct H as (row & j & Haw & _).
  exists row. split; [exact (proj2 demo_good)|exact Haw].
Defined.

Lemma retried_approval_is_refused_witness :
  ∃ db1, Drafts.approve (Row:=CrmNoteDraftRow.t) "UNIQUE" (demo_decider "approve-1" (Some 1%N)) DRAFT_TABLE "cnd_wi_1_1" (Some demo_job) db1
    = (Err (StoreError.Domain "crm_draft_not_staged:approved"), db1).
Proof.
  pose proof demo_approve as He.
  destruct (Drafts.approve (Row:=CrmNoteDraftRow.t) "UNIQUE" (demo_decider "approve-1" (Some 1%N)) DRAFT_TABLE "cnd_wi_1_1" (Some demo_job) demo_staged)
    as [answer db1] eqn:Heq. simpl in He. subst answer. exists db1.
  exact (proj2 (retried_approval_is_refused DRAFT_TABLE "UNIQUE" (demo_decider "approve-1" (Some 1%N)) "cnd_wi_1_1" demo_job demo_staged _ _ db1
    (proj1 demo_good) (wf_active _ _ _ (proj2 demo_good)) Heq)).
Defined.

Lemma decisions_can_cross_witness :
  ∃ db' row, crm_note_drafts (tables db') !! ("acme", "cnd_wi_1_1")%string = Some row ∧
    CrmNoteDraftRow.status row = "rejected"%string ∧
    ∃ j, Outbox.jobs db' !! ("acme", "obj_cnd_wi_1_1")%string = Some j ∧ Job.status j = STATUS_PENDING.
Proof.
  destruct (decisions_can_cross DRAFT_TABLE "UNIQUE" (demo_decider "approve-1" None) (demo_decider "reject-1" None) "cnd_wi_1_1" demo_job demo_staged)
    as (ra & rr & va & vr & dba & dbr & row & j & _ & _ & Hrow & Hst & _ & Hj & Hp).
  - exact (proj1 demo_good).
  - exact (wf_active _ _ _ (proj2 demo_good)).
  - reflexivity.
  - reflexivity.
  - reflexivity.
  - discriminate.
  - by apply (demo_free "approve-1").
  - by apply (demo_free "reject-1").
  - reflexivity.
  - reflexivity.
  - reflexivity.
  - exists dbr, row. split; [exact Hrow|]. split; [exact Hst|]. exists j. split; [exact Hj|exact Hp].
Defined.

Lemma seen_revision_excludes_witness :
  ∃ db1 rid revision,
    commit DRAFT_TABLE "UNIQUE" (demo_decider "approve-1" (Some 1%N)) "cnd_wi_1_1" (Some demo_job) demo_staged
      = (Ok (MutationOutcome.Applied rid revision), db1) ∧
    ∀ rid' revision', (commit DRAFT_TABLE "UNIQUE" (demo_decider "reject-1" (Some 1%N)) "cnd_wi_1_1" None db1).1
      ≠ Ok (MutationOutcome.Applied rid' revision').
Proof.
  destruct (commit DRAFT_TABLE "UNIQUE" (demo_decider "approve-1" (Some 1%N)) "cnd_wi_1_1" (Some demo_job) demo_staged) as [answer db1] eqn:Hc.
  assert (Ha : answer = Ok (MutationOutcome.Applied "rcpt_000000000002" 2)).
  { change answer with (answer, db1).1. rewrite <- Hc. by vm_compute. }
  subst answer. exists db1, "rcpt_000000000002"%string, 2%N. split; [reflexivity|].
  exact (proj1 (seen_revision_excludes DRAFT_TABLE "UNIQUE" (demo_decider "approve-1" (Some 1%N)) (demo_decider "reject-1" (Some 1%N))
    "cnd_wi_1_1" (Some demo_job) None demo_staged db1 _ _ 1 (proj1 demo_good) eq_refl eq_refl eq_refl eq_refl Hc)).
Defined.

Lemma approval_enqueues_what_is_stored_witness :
  ∃ j (db' : AppDb), Outbox.jobs db' !! ("acme", "obj_cnd_wi_1_1")%string = Some j ∧ Job.status j = STATUS_PENDING.
Proof.
  destruct (draft_action demo_payload demo_espo "UNIQUE" no_provenance no_fields (fun _ => true) (Some " EspoCRM "%string)
    (demo_ctx "approve-1" (Some 1%N)) "cnd_wi_1_1" ApproveDraft demo_staged) as [answer db'] eqn:Ha.
  assert (He : answer = Answered (Ok (MutationOutcome.Applied "rcpt_000000000002" 2))).
  { change answer with (answer, db').1. rewrite <- Ha. by vm_compute. }
  subst answer.
  destruct (approval_enqueues_what_is_stored no_provenance no_fields "UNIQUE" demo_payload demo_espo (fun _ => true) _ _ _ _ _ _ _
    (proj1 demo_good) (proj2 demo_good) Ha) as (row & provider & job & j & _ & _ & _ & _ & _ & _ & Hj & Hp & _).
  exists j, db'. split; [exact Hj|exact Hp].
Defined.
