(* ===== verification/Json.v ===== *)
(** * JSON values ([serde_json::Value]) and machine integers of money

    A [Value] is what the program builds with [json!] and reads with [get],
    [as_str], [as_i64] and the like.  A number that is not an integer is kept as
    its text: the program only asks whether a number is one.  An object is the
    list of its fields; its texts are made by serde and are parameters where they
    are used.

    Amounts of money are [i64] cents: [checked_mul] and [checked_add] fail outside
    the range, plain arithmetic of a release build wraps around ([wrap_i64]). *)

From S2P Require Import Prelude RustStd RustStr Schema Calendar.

Module Json.
Inductive Value :=
| Null
| Bool (b : bool)
| Int (v : Z)
| Float (text : string)
| Str (s : string)
| Arr (l : list Value)
| Obj (fields : list (string * Value)).

Definition is_null (v : Value) : bool := match v with Null => true | _ => false end.
Definition as_str (v : Value) : option string := match v with Str s => Some s | _ => None end.
Definition as_bool (v : Value) : option bool := match v with Bool b => Some b | _ => None end.
Definition as_array (v : Value) : option (list Value) := match v with Arr l => Some l | _ => None end.
Definition as_object (v : Value) : option (list (string * Value)) := match v with Obj l => Some l | _ => None end.
(** Integers are stored as [u64] or [i64]; one beyond them is a float. *)
Definition as_i64 (v : Value) : option Z :=
  match v with Int z => in_range (-9223372036854775808) 9223372036854775807 z | _ => None end.
Definition as_u64 (v : Value) : option Z :=
  match v with Int z => in_range 0 18446744073709551615 z | _ => None end.

(** [value.get(key)]. *)
Definition get (key : string) (v : Value) : option Value :=
  fields ← as_object v; snd <$> List.find (fun field => string_eqb key field.1) fields.

(** [json!(option)]. *)
Definition of_option {A} (f : A → Value) (o : option A) : Value := match o with Some a => f a | None => Null end.

(** The helper several slices define: a trimmed text that is neither empty nor [null]. *)
Definition string_field (value : Value) (key : string) : option string :=
  raw ← (v ← get key value; as_str v);
  let raw := trim raw in
  if negb (is_empty raw) && negb (string_eqb raw "null") then Some raw else None.
End Json.

(** ** Machine integers *)

Definition i64_min : Z := -9223372036854775808.
Definition i64_max : Z := 9223372036854775807.
Definition is_i64 (v : Z) : Prop := (i64_min ≤ v ≤ i64_max)%Z.

(** [i64::checked_mul], [i64::checked_add], [i32::try_from]. *)
Definition checked_mul_i64 (a b : Z) : option Z := in_range i64_min i64_max (a * b)%Z.
Definition checked_add_i64 (a b : Z) : option Z := in_range i64_min i64_max (a + b)%Z.
Definition i32_try_from (v : Z) : option Z := in_range (-2147483648) 2147483647 v.

(** [saturating_add] and [saturating_sub] of [i64]. *)
Definition saturate_i64 (v : Z) : Z := Z.max i64_min (Z.min i64_max v).

(** [Iterator::sum::<i64>()]: from the left, wrapping. *)
Definition sum_i64 (l : list Z) : Z := foldl (fun acc v => wrap_i64 (acc + v)) 0%Z l.

Lemma in_range_spec lo hi v w : in_range lo hi v = Some w ↔ w = v ∧ (lo ≤ v ≤ hi)%Z.
Proof.
  unfold in_range. destruct (Z.leb_spec lo v), (Z.leb_spec v hi); simpl; split; try done; try lia.
  - intros [= ->]. by split.
  - by intros [-> _].
Qed.

Lemma in_range_none lo hi v : in_range lo hi v = None ↔ ¬ (lo ≤ v ≤ hi)%Z.
Proof. unfold in_range. destruct (Z.leb_spec lo v), (Z.leb_spec v hi); simpl; split; try done; lia. Qed.

Lemma wrap_i64_range v : is_i64 (wrap_i64 v).
Proof. unfold is_i64, wrap_i64, i64_min, i64_max. pose proof (Z.mod_pos_bound (v + 9223372036854775808) 18446744073709551616). lia. Qed.

Lemma wrap_i64_add v w : wrap_i64 (wrap_i64 v + w) = wrap_i64 (v + w).
Proof.
  unfold wrap_i64. f_equal.
  replace ((v + 9223372036854775808) mod 18446744073709551616 - 9223372036854775808 + w + 9223372036854775808)%Z
    with ((v + 9223372036854775808) mod 18446744073709551616 + w)%Z by lia.
  rewrite Zplus_mod_idemp_l. f_equal. lia.
Qed.

(** What a wrapping sum is: the exact one, wrapped once. *)
Lemma sum_i64_exact l : sum_i64 l = wrap_i64 (foldr Z.add 0%Z l).
Proof.
  unfold sum_i64. enough (H : ∀ acc, wrap_i64 acc = acc →
    foldl (fun acc v => wrap_i64 (acc + v)) acc l = wrap_i64 (acc + foldr Z.add 0%Z l)) by by rewrite H.
  induction l as [|v l IH]; intros acc Hacc; simpl; [by rewrite Z.add_0_r|].
  rewrite IH by (apply wrap_small; apply wrap_i64_range || (pose proof (wrap_i64_range (acc + v)) as Hr;
    unfold is_i64, i64_min, i64_max in Hr; lia)).
  by rewrite wrap_i64_add, Z.add_assoc.
Qed.

Lemma sum_i64_fits l : is_i64 (foldr Z.add 0%Z l) → sum_i64 l = foldr Z.add 0%Z l.
Proof. unfold is_i64, i64_min, i64_max. intros Hr. rewrite sum_i64_exact. apply wrap_small. lia. Qed.
