(* ===== verification/ProviderWrites.v ===== *)
(** * Writes to the books ([bos-integrations/src/qbo_payment_write.rs], [invoice_ninja.rs], [stripe.rs])

    The clients that carry out an approved payment or invoice at QuickBooks, Invoice
    Ninja and Stripe.  The transport is a parameter: a call takes the world outside
    from one state to the next and gives an answer or an error.  A payload is
    validated first, by the live client and by the one that only plans.

    Amounts go over the wire as [f64]: [SpecFloat]'s binary64 arithmetic, rounding to
    nearest even; [f64_json] and [as_f64] are serde's printing and reading of one,
    [encode] is the percent encoding. *)

From S2P Require Import Prelude RustStd RustStr StoreCore AppOutbox AccountingRecords Schema Calendar Json.
From Stdlib Require Import SpecFloat.

(** ** Binary64 *)

(** [v as f64]. *)
Definition f64_of_i64 (v : Z) : spec_float := binary_normalize 53 1024 v 0 false.

(** [x.round() as i64]: half away from zero, saturating, zero for what is no number. *)
Definition f64_round_i64 (x : spec_float) : Z :=
  match x with
  | S754_zero _ | S754_nan => 0
  | S754_infinity s => if s then i64_min else i64_max
  | S754_finite s m e =>
    let magnitude := (if 0 <=? e then Z.pos m * 2 ^ e else (Z.pos m + 2 ^ (- e - 1)) / 2 ^ (- e))%Z in
    saturate_i64 (if s then - magnitude else magnitude)
  end%Z.

(** [cents as f64 / 100.0] and [(amount * 100.0).round() as i64]. *)
Definition dollars (cents : Z) : spec_float := SFdiv 53 1024 (f64_of_i64 cents) (f64_of_i64 100).
Definition cents_of (amount : spec_float) : Z := f64_round_i64 (SFmul 53 1024 amount (f64_of_i64 100)).

(** [date.len() != 10 || date[4] != b'-' || date[7] != b'-']. *)
Definition date_shape_invalid (date : string) : bool :=
  negb (String.length date =? 10)%nat
  || negb (bool_decide (String.get 4 date = Some "-"%char)) || negb (bool_decide (String.get 7 date = Some "-"%char)).

(** The metadata of an approval; the three clients declare it alike. *)
(* src: crates/bos-integrations/src/qbo_payment_write.rs:38-43 QboApprovalMetadata *)
Record PaymentApproval := {
  payment_approval_id : string;
  payment_approved_by : string;
  payment_approved_at : string;
}.

(* src: crates/bos-integrations/src/qbo_payment_write.rs:46-50 QboApprovalMetadata::is_complete *)
Definition is_complete (a : PaymentApproval) : bool :=
  negb (is_blank (payment_approval_id a)) && negb (is_blank (payment_approved_by a)) && negb (is_blank (payment_approved_at a)).

(** [200..=299] and [500..=599]. *)
Definition is_success (status : N) : bool := ((200 <=? status) && (status <=? 299))%N.
Definition is_server_error (status : N) : bool := ((500 <=? status) && (status <=? 599))%N.

(** ** QuickBooks: record a payment *)

Module QboWrite.
(* src: crates/bos-integrations/src/qbo_payment_write.rs:18-22 QboWriteError *)
Inductive QboWriteError :=
| Retryable (code message : string)
| Permanent (code message : string).

(* src: crates/bos-integrations/src/qbo_payment_write.rs:53-74 QboPaymentOutboxPayload *)
Record QboPaymentOutboxPayload := {
  idempotency_key : string;
  approval : PaymentApproval;
  provider_invoice_id : string;
  provider_customer_id : string;
  amount_cents : Z;
  paid_date : string;
  payment_method : string;
  memo : string;
}.

(* src: crates/bos-integrations/src/qbo_payment_write.rs:76-81 QboWriteStatus *)
Record QboWriteStatus := {
  executed : bool;
  dry_run : bool;
  reason : option string;
}.

(* src: crates/bos-integrations/src/qbo_payment_write.rs:83-88 QboPaymentResponse *)
Record QboPaymentResponse := {
  status : QboWriteStatus;
  payment_id : string;
}.

(* src: crates/bos-integrations/src/qbo_payment_write.rs:229-233 QboWriteHttpResponse *)
Record QboWriteHttpResponse := {
  http_status : N;
  body : Json.Value;
}.

(* src: crates/bos-integrations/src/qbo_payment_write.rs:187-189 cents_to_decimal_string *)
Definition cents_to_decimal_string (cents : Z) : string :=
  fmt_int (Z.quot cents 100) +:+ "." +:+ fmt_pad 2 (Z.rem cents 100).

(* src: crates/bos-integrations/src/qbo_payment_write.rs:164-185 qbo_payment_body *)
Definition qbo_payment_body (payload : QboPaymentOutboxPayload) : Json.Value :=
  let note := take_chars 4000 (memo payload +:+ " [method: " +:+ payment_method payload +:+ "; "
                               +:+ idempotency_key payload +:+ "]") in
  Json.Obj [
    ("TotalAmt", Json.Str (cents_to_decimal_string (amount_cents payload)));
    ("TxnDate", Json.Str (paid_date payload));
    ("CustomerRef", Json.Obj [("value", Json.Str (provider_customer_id payload))]);
    ("PrivateNote", Json.Str note);
    ("Line", Json.Arr [Json.Obj [
       ("Amount", Json.Str (cents_to_decimal_string (amount_cents payload)));
       ("LinkedTxn", Json.Arr [Json.Obj [
          ("TxnId", Json.Str (provider_invoice_id payload));
          ("TxnType", Json.Str "Invoice")]])]])].

(** [body["TotalAmt"]] and the amounts of [body["Line"]] joined by ["+"]. *)
Definition body_total (body : Json.Value) : string := default "" (v ← Json.get "TotalAmt" body; Json.as_str v).
Definition body_line_sum (body : Json.Value) : string :=
  default "" ((fun lines => join "+" ((fun line => default "" (v ← Json.get "Amount" line; Json.as_str v)) <$> lines))
              <$> (v ← Json.get "Line" body; Json.as_array v)).

(* src: crates/bos-integrations/src/qbo_payment_write.rs:104-152 validate_payment_payload *)
Definition validate_payment_payload (payload : QboPaymentOutboxPayload) : Result QboWriteError unit :=
  if negb (is_complete (approval payload)) then
    Err (Permanent "qbo_payment_approval_missing" "approval metadata is incomplete")
  else if is_blank (idempotency_key payload) then
    Err (Permanent "qbo_payment_idempotency_key_missing" "idempotency key is required")
  else if is_blank (provider_invoice_id payload) || is_blank (provider_customer_id payload)
       || date_shape_invalid (paid_date payload) || is_blank (payment_method payload) then
    Err (Permanent "qbo_payment_payload_not_grounded"
           "QBO record payment payload requires invoice id, customer id, paid date, and payment method")
  else if (amount_cents payload <=? 0)%Z then
    Err (Permanent "qbo_payment_amount_invalid" "amount must be positive")
  else
    let body := qbo_payment_body payload in
    if negb (string_eqb (body_total body) (body_line_sum body)) then
      Err (Permanent "qbo_payment_amount_mismatch" "payment line amounts do not match the payment total")
    else Ok tt.

(* src: crates/bos-integrations/src/qbo_payment_write.rs:196-209 DryRunQboPaymentClient::record_payment *)
Definition dry_run_record_payment (payload : QboPaymentOutboxPayload) : Result QboWriteError QboPaymentResponse :=
  _ ← validate_payment_payload payload;
  Ok (Build_QboPaymentResponse (Build_QboWriteStatus false true (Some "qbo_write_disabled_dry_run"%string)) "dry-run").

(** *** What the provider's answers say ([qbo_read.rs]) *)

Section reading.
Context (as_f64 : Json.Value → option spec_float).

(* src: crates/bos-integrations/src/qbo_read.rs:606-613 string_field *)
Definition string_field (value : Json.Value) (key : string) : option string :=
  raw ← (v ← Json.get key value; Json.as_str v);
  let raw := trim raw in if is_empty raw then None else Some raw.

(* src: crates/bos-integrations/src/qbo_read.rs:617-623 cents_field *)
Definition cents_field (value : Json.Value) (key : string) : Z :=
  default 0%Z (v ← Json.get key value; amount ← as_f64 v; Some (cents_of amount)).

(* src: crates/bos-integrations/src/qbo_read.rs:625-651 invoice_record_from_value *)
Definition invoice_record_from_value (value : Json.Value) : option InvoiceRecord.t :=
  invoice_id ← string_field value "Id";
  let customer_ref := Json.get "CustomerRef" value in
  let total := cents_field value "TotalAmt" in
  let balance := cents_field value "Balance" in
  Some {|
    InvoiceRecord.invoice_id := invoice_id;
    InvoiceRecord.doc_number := string_field value "DocNumber";
    InvoiceRecord.customer_id := (cref ← customer_ref; string_field cref "value");
    InvoiceRecord.customer_name := (cref ← customer_ref; string_field cref "name");
    InvoiceRecord.txn_date := string_field value "TxnDate";
    InvoiceRecord.due_date := string_field value "DueDate";
    InvoiceRecord.total_amt_cents := total;
    InvoiceRecord.balance_cents := balance;
    InvoiceRecord.voided := (total =? 0)%Z && (balance =? 0)%Z
      && option_any (fun note => contains (to_ascii_lowercase note) "voided") (string_field value "PrivateNote");
    InvoiceRecord.updated_at := default "" (meta ← Json.get "MetaData" value; string_field meta "LastUpdatedTime");
  |}.

(** [find_map] over the custom fields. *)
(* src: crates/bos-integrations/src/qbo_read.rs:709-721 tier_custom_field *)
Definition tier_custom_field (value : Json.Value) : option string :=
  fields ← (v ← Json.get "CustomField" value; Json.as_array v);
  head (omap (M:=list) (fun field =>
    name ← string_field field "Name";
    let name := to_ascii_lowercase name in
    if negb (string_eqb name "tier") && negb (string_eqb name "customer_tier") then None
    else string_field field "StringValue") fields).

(* src: crates/bos-integrations/src/qbo_read.rs:678-707 customer_record_from_value *)
Definition customer_record_from_value (value : Json.Value) : option CustomerRecord.t :=
  customer_id ← string_field value "Id";
  let type_ref_name := (tref ← Json.get "CustomerTypeRef" value; string_field tref "name") in
  let custom_field_tier := tier_custom_field value in
  let '(tier_raw, tier_source) := match type_ref_name, custom_field_tier with
    | Some name, _ => (Some name, CustomerTypeRefName)
    | None, Some field => (Some field, CustomField)
    | None, None => (None, NotProvided)
    end in
  Some {|
    CustomerRecord.customer_id := customer_id;
    CustomerRecord.display_name := default customer_id (string_field value "DisplayName");
    CustomerRecord.company_name := string_field value "CompanyName";
    CustomerRecord.email := (addr ← Json.get "PrimaryEmailAddr" value; string_field addr "Address");
    CustomerRecord.phone := (phone ← Json.get "PrimaryPhone" value; string_field phone "FreeFormNumber");
    CustomerRecord.active := default true (v ← Json.get "Active" value; Json.as_bool v);
    CustomerRecord.tier_raw := tier_raw;
    CustomerRecord.tier_source := tier_source;
    CustomerRecord.updated_at := (meta ← Json.get "MetaData" value; string_field meta "LastUpdatedTime");
  |}.
End reading.

(* src: crates/bos-integrations/src/qbo_read.rs:598-604 entity_array *)
Definition entity_array (body : Json.Value) (entity : string) : list Json.Value :=
  default [] (response ← Json.get "QueryResponse" body; records ← Json.get entity response; Json.as_array records).

(* src: crates/bos-integrations/src/qbo_payment_write.rs:440-449 qbo_id_literal *)
Definition qbo_id_literal (id : string) : Result QboWriteError string :=
  let trimmed := trim id in
  if is_empty trimmed || has_char "'" trimmed || has_char "\" trimmed
  then Err (Permanent "qbo_payment_payload_not_grounded" "QBO provider ids must be non-empty simple literals")
  else Ok (take_chars 100 trimmed).

Section client.
Context {W : Type} (as_f64 : Json.Value → option spec_float) (encode : string → string)
  (body_text : Json.Value → string).
(** The transport, and the client's fields. *)
Context (get_json : string → string → Op W QboWriteError QboWriteHttpResponse)
  (post_json : string → string → Json.Value → Op W QboWriteError QboWriteHttpResponse)
  (api_base_url realm_id access_token : string).

(** The parameters are sorted by name. *)
(* src: crates/bos-integrations/src/qbo_read.rs:581-596 query_url *)
Definition query_url (query : string) : string :=
  trim_end_matches "/" api_base_url +:+ "/v3/company/" +:+ encode realm_id +:+ "/query?minorversion=" +:+ encode "75"
  +:+ "&query=" +:+ encode query.

(* src: crates/bos-integrations/src/qbo_payment_write.rs:328-332 LiveQboPaymentWriteClient::query_one (query) *)
Definition query_text (entity safe_id : string) : string :=
  if string_eqb entity "Customer" then "SELECT * FROM Customer WHERE Id = '" +:+ safe_id +:+ "' AND Active IN (true,false)"
  else "SELECT * FROM " +:+ entity +:+ " WHERE Id = '" +:+ safe_id +:+ "'".

(* src: crates/bos-integrations/src/qbo_payment_write.rs:326-360 LiveQboPaymentWriteClient::query_one *)
Definition query_one (entity id : string) : Op W QboWriteError (option Json.Value) :=
  let? safe_id := op_lift (qbo_id_literal id) in
  let? response := get_json (query_url (query_text entity safe_id)) access_token in
  let status := http_status response in
  op_lift (
    if is_success status then Ok (head (entity_array (body response) entity))
    else if (status =? 401)%N || (status =? 403)%N then
      Err (Retryable "qbo_payment_unauthorized" "access token rejected during QBO payment preflight")
    else if (status =? 429)%N then Err (Retryable "qbo_payment_throttled" "provider throttled the QBO payment preflight")
    else if (500 <=? status)%N then
      Err (Retryable "qbo_payment_server_error" ("provider returned " +:+ fmt_dec status +:+ " during QBO payment preflight"))
    else Err (Permanent "qbo_payment_preflight_rejected"
                ("provider returned " +:+ fmt_dec status +:+ " during QBO payment preflight: " +:+ body_text (body response)))).

(** What is wrong with the invoice and the customer the provider has now. *)
(* src: crates/bos-integrations/src/qbo_payment_write.rs:366-386 LiveQboPaymentWriteClient::preflight_payment_refs (customer) *)
Definition check_customer (payload : QboPaymentOutboxPayload) (customer : option CustomerRecord.t) : Result QboWriteError unit :=
  match customer with
  | None => Err (Permanent "qbo_payment_customer_missing" ("QBO customer " +:+ provider_customer_id payload
                   +:+ " was not found at write time; sync accounting and re-approve the payment"))
  | Some customer =>
    if negb (CustomerRecord.active customer) then
      Err (Permanent "qbo_payment_customer_inactive" ("QBO customer " +:+ provider_customer_id payload
             +:+ " is inactive; reactivate it in QBO or choose another invoice before approving this payment"))
    else Ok tt
  end.

(* src: crates/bos-integrations/src/qbo_payment_write.rs:388-436 LiveQboPaymentWriteClient::preflight_payment_refs (invoice) *)
Definition check_invoice (payload : QboPaymentOutboxPayload) (invoice : option InvoiceRecord.t) : Result QboWriteError unit :=
  let named text := "QBO invoice " +:+ provider_invoice_id payload +:+ text in
  match invoice with
  | None => Err (Permanent "qbo_payment_invoice_missing"
                   (named " was not found at write time; it may have been voided or deleted"))
  | Some invoice =>
    if InvoiceRecord.voided invoice then
      Err (Permanent "qbo_payment_invoice_voided" (named " is voided and cannot receive a payment"))
    else if (InvoiceRecord.balance_cents invoice <=? 0)%Z then
      Err (Permanent "qbo_payment_invoice_not_payable" (named " has no open balance at write time"))
    else if negb (InvoiceRecord.balance_cents invoice =? amount_cents payload)%Z then
      Err (Permanent "qbo_payment_invoice_balance_changed"
             (named " open balance changed before write; sync accounting and re-approve the payment"))
    else if negb (bool_decide (InvoiceRecord.customer_id invoice = Some (provider_customer_id payload))) then
      Err (Permanent "qbo_payment_invoice_customer_changed"
             (named (" no longer belongs to customer " +:+ provider_customer_id payload)))
    else Ok tt
  end.

(* src: crates/bos-integrations/src/qbo_payment_write.rs:362-437 LiveQboPaymentWriteClient::preflight_payment_refs *)
Definition preflight_payment_refs (payload : QboPaymentOutboxPayload) : Op W QboWriteError unit :=
  let? customer := query_one "Customer" (provider_customer_id payload) in
  op_lift (check_customer payload (value ← customer; customer_record_from_value value)) ;;?
  let? invoice := query_one "Invoice" (provider_invoice_id payload) in
  op_lift (check_invoice payload (value ← invoice; invoice_record_from_value as_f64 value)).

(** [format!("{}/v3/company/{}/payment?minorversion={}", ..)]. *)
Definition payment_url : string :=
  trim_end_matches "/" api_base_url +:+ "/v3/company/" +:+ realm_id +:+ "/payment?minorversion=75".

(** The answer to the post. *)
(* src: crates/bos-integrations/src/qbo_payment_write.rs:466-503 LiveQboPaymentWriteClient::record_payment (answer) *)
Definition payment_answer (response : QboWriteHttpResponse) : Result QboWriteError QboPaymentResponse :=
  let status := http_status response in
  if (status =? 200)%N || (status =? 201)%N then
    let payment_id := default "" (payment ← Json.get "Payment" (body response); id ← Json.get "Id" payment; Json.as_str id) in
    if is_empty payment_id then
      Err (Permanent "qbo_payment_response_missing_id" "provider response carried no Payment.Id")
    else Ok (Build_QboPaymentResponse (Build_QboWriteStatus true false None) payment_id)
  else if (status =? 401)%N || (status =? 403)%N then
    Err (Retryable "qbo_payment_unauthorized" "access token rejected; will re-resolve credentials")
  else if (status =? 429)%N then Err (Retryable "qbo_payment_throttled" "provider throttled the request")
  else if (500 <=? status)%N then
    Err (Retryable "qbo_payment_server_error" ("provider returned " +:+ fmt_dec status))
  else Err (Permanent "qbo_payment_rejected" ("provider returned " +:+ fmt_dec status +:+ ": " +:+ body_text (body response))).

(* src: crates/bos-integrations/src/qbo_payment_write.rs:452-504 LiveQboPaymentWriteClient::record_payment *)
Definition record_payment (payload : QboPaymentOutboxPayload) : Op W QboWriteError QboPaymentResponse :=
  op_lift (validate_payment_payload payload) ;;?
  preflight_payment_refs payload ;;?
  let? response := post_json payment_url access_token (qbo_payment_body payload) in
  op_lift (payment_answer response).
End client.
End QboWrite.

(** ** Invoice Ninja: record a receipt, draft an invoice *)

Module NinjaWrite.
(* src: crates/bos-integrations/src/invoice_ninja.rs:1064-1068 InvoiceNinjaWriteError *)
Inductive InvoiceNinjaWriteError :=
| Retryable (code message : string)
| Permanent (code message : string).

Module Receipt.
(* src: crates/bos-integrations/src/invoice_ninja.rs:1085-1100 InvoiceNinjaReceiptOutboxPayload *)
Record t := mk {
  idempotency_key : string;
  approval : PaymentApproval;
  payer_name : string;
  payer_email : option string;
  amount_cents : Z;
  paid_date : string;
  description : string;
  invoice_number : string;
}.
End Receipt.

Module InvoiceLine.
(* src: crates/bos-integrations/src/invoice_ninja.rs:1102-1114 InvoiceNinjaInvoiceLineItem *)
Record t := mk {
  line_number : N;
  label : string;
  description : option string;
  quantity : N;
  unit_amount_cents : Z;
  line_total_cents : Z;
}.
End InvoiceLine.

Module InvoiceDraftPayload.
(* src: crates/bos-integrations/src/invoice_ninja.rs:1116-1138 InvoiceNinjaInvoiceDraftOutboxPayload *)
Record t := mk {
  idempotency_key : string;
  approval : PaymentApproval;
  draft_ref : string;
  customer_name : string;
  customer_email : option string;
  due_date : option string;
  memo : option string;
  line_items : list InvoiceLine.t;
  subtotal_cents : Z;
  total_cents : Z;
}.
End InvoiceDraftPayload.

(* src: crates/bos-integrations/src/invoice_ninja.rs:1140-1145 InvoiceNinjaExecutionStatus *)
Record InvoiceNinjaExecutionStatus := {
  executed : bool;
  dry_run : bool;
  reason : option string;
}.

(* src: crates/bos-integrations/src/invoice_ninja.rs:1147-1155 InvoiceNinjaReceiptResponse *)
Record InvoiceNinjaReceiptResponse := {
  receipt_status : InvoiceNinjaExecutionStatus;
  receipt_client_id : string;
  receipt_invoice_id : string;
  receipt_payment_id : option string;
}.

(* src: crates/bos-integrations/src/invoice_ninja.rs:1157-1166 InvoiceNinjaInvoiceDraftResponse *)
Record InvoiceNinjaInvoiceDraftResponse := {
  draft_status : InvoiceNinjaExecutionStatus;
  draft_client_id : string;
  draft_invoice_id : string;
  draft_invoice_number : option string;
}.

(* src: crates/bos-integrations/src/invoice_ninja.rs:32-37 InvoiceNinjaHttpResponse *)
Record InvoiceNinjaHttpResponse := {
  http_status : N;
  body : Json.Value;
  retry_after_secs : option N;
}.

(** What became of an answer: a body that is not JSON, or was cut off, is [Null]. *)
(* src: crates/bos-integrations/src/invoice_ninja.rs:1383-1409 ReqwestInvoiceNinjaHttpClient::send *)
Definition read_response (status : N) (retry_after : option string) (parsed : option Json.Value) : InvoiceNinjaHttpResponse :=
  {| http_status := status; body := default Json.Null parsed;
     retry_after_secs := raw ← retry_after; parse_u64 (trim raw) |}.

(* src: crates/bos-integrations/src/invoice_ninja.rs:1186-1231 validate_receipt *)
Definition validate_receipt (request : Receipt.t) : Result InvoiceNinjaWriteError unit :=
  if negb (is_complete (Receipt.approval request)) then
    Err (Permanent "invoice_ninja_approval_missing" "approval metadata is incomplete")
  else if is_blank (Receipt.idempotency_key request) then
    Err (Permanent "invoice_ninja_idempotency_key_missing" "idempotency key is required")
  else if is_blank (Receipt.payer_name request) then
    Err (Permanent "invoice_ninja_payer_missing" "payer name is empty")
  else if (Receipt.amount_cents request <=? 0)%Z then
    Err (Permanent "invoice_ninja_amount_invalid" "amount must be positive")
  else if date_shape_invalid (Receipt.paid_date request) then
    Err (Permanent "invoice_ninja_date_invalid" "paid_date must be YYYY-MM-DD")
  else if is_blank (Receipt.invoice_number request) then
    Err (Permanent "invoice_ninja_invoice_number_missing" "invoice number is required")
  else Ok tt.

(** One line, and the sum so far; the products and the sum are [i64] and wrap. *)
Definition line_grounded (item : InvoiceLine.t) : bool :=
  negb (is_blank (InvoiceLine.label item)) && negb (InvoiceLine.quantity item =? 0)%N
  && (0 <? InvoiceLine.unit_amount_cents item)%Z
  && (InvoiceLine.line_total_cents item =? wrap_i64 (Z.of_N (InvoiceLine.quantity item) * InvoiceLine.unit_amount_cents item))%Z.

(* src: crates/bos-integrations/src/invoice_ninja.rs:1284-1297 validate_invoice_draft (lines) *)
Fixpoint validate_lines (subtotal : Z) (items : list InvoiceLine.t) : Result InvoiceNinjaWriteError Z :=
  match items with
  | [] => Ok subtotal
  | item :: items =>
    if negb (line_grounded item) then
      Err (Permanent "invoice_ninja_line_not_grounded"
             "line items require label, quantity, unit amount, and matching line total")
    else validate_lines (wrap_i64 (subtotal + InvoiceLine.line_total_cents item)) items
  end.

(* src: crates/bos-integrations/src/invoice_ninja.rs:1236-1305 validate_invoice_draft *)
Definition validate_invoice_draft (request : InvoiceDraftPayload.t) : Result InvoiceNinjaWriteError unit :=
  if negb (is_complete (InvoiceDraftPayload.approval request)) then
    Err (Permanent "invoice_ninja_approval_missing" "approval metadata is incomplete")
  else if is_blank (InvoiceDraftPayload.idempotency_key request) then
    Err (Permanent "invoice_ninja_idempotency_key_missing" "idempotency key is required")
  else if is_blank (InvoiceDraftPayload.customer_name request) then
    Err (Permanent "invoice_ninja_customer_missing" "customer name is empty")
  else if option_any (fun email => negb (has_char "@" email) || has_whitespace email) (InvoiceDraftPayload.customer_email request)
  then Err (Permanent "invoice_ninja_email_invalid" "customer email is malformed")
  else if option_any date_shape_invalid (InvoiceDraftPayload.due_date request) then
    Err (Permanent "invoice_ninja_date_invalid" "due_date must be YYYY-MM-DD")
  else if bool_decide (InvoiceDraftPayload.line_items request = []) || (InvoiceDraftPayload.total_cents request <=? 0)%Z then
    Err (Permanent "invoice_ninja_invoice_empty" "at least one line item and a positive total are required")
  else
    subtotal ← validate_lines 0 (InvoiceDraftPayload.line_items request);
    if negb (subtotal =? InvoiceDraftPayload.subtotal_cents request)%Z
       || negb (InvoiceDraftPayload.subtotal_cents request =? InvoiceDraftPayload.total_cents request)%Z
    then Err (Permanent "invoice_ninja_total_mismatch" "totals do not match line items")
    else Ok tt.

Definition dry_run_status : InvoiceNinjaExecutionStatus :=
  Build_InvoiceNinjaExecutionStatus false true (Some "invoice_ninja_write_disabled_dry_run"%string).

(* src: crates/bos-integrations/src/invoice_ninja.rs:1312-1327 DryRunInvoiceNinjaClient::record_receipt *)
Definition dry_run_record_receipt (request : Receipt.t) : Result InvoiceNinjaWriteError InvoiceNinjaReceiptResponse :=
  _ ← validate_receipt request;
  Ok (Build_InvoiceNinjaReceiptResponse dry_run_status "dry-run" "dry-run" (Some "dry-run"%string)).

(* src: crates/bos-integrations/src/invoice_ninja.rs:1329-1344 DryRunInvoiceNinjaClient::create_invoice_draft *)
Definition dry_run_create_invoice_draft (request : InvoiceDraftPayload.t)
    : Result InvoiceNinjaWriteError InvoiceNinjaInvoiceDraftResponse :=
  _ ← validate_invoice_draft request;
  Ok (Build_InvoiceNinjaInvoiceDraftResponse dry_run_status "dry-run" "dry-run" None).

(** *** What the provider's answers say *)

(** [number.as_i64().unwrap_or(0) != 0]: a float has no [i64]. *)
Definition nonzero_number (v : Json.Value) : bool := negb (default 0%Z (Json.as_i64 v) =? 0)%Z.

(* src: crates/bos-integrations/src/invoice_ninja.rs:226-236 truthy_invoice_ninja_field *)
Definition truthy_invoice_ninja_field (value : Json.Value) (key : string) : bool :=
  match Json.get key value with
  | Some (Json.Bool flag) => flag
  | Some (Json.Int _ as number) | Some (Json.Float _ as number) => nonzero_number number
  | Some (Json.Str raw) =>
    let trimmed := trim raw in
    negb (is_empty trimmed) && negb (string_eqb trimmed "0") && negb (string_eqb trimmed "false")
  | _ => false
  end.

(* src: crates/bos-integrations/src/invoice_ninja.rs:238-248 invoice_ninja_tombstone_field_is_set *)
Definition invoice_ninja_tombstone_field_is_set (value : Json.Value) (key : string) : bool :=
  match Json.get key value with
  | Some (Json.Int _ as number) | Some (Json.Float _ as number) => nonzero_number number
  | Some (Json.Str raw) => let trimmed := trim raw in negb (is_empty trimmed) && negb (string_eqb trimmed "0")
  | Some (Json.Bool flag) => flag
  | _ => false
  end.

(* src: crates/bos-integrations/src/invoice_ninja.rs:250-256 invoice_ninja_record_is_archived *)
Definition invoice_ninja_record_is_archived (value : Json.Value) : bool :=
  truthy_invoice_ninja_field value "is_deleted"
  || invoice_ninja_tombstone_field_is_set value "archived_at" || invoice_ninja_tombstone_field_is_set value "deleted_at".

Definition data_records (body : Json.Value) : option (list Json.Value) := data ← Json.get "data" body; Json.as_array data.
Definition record_id (record : Json.Value) : option string := id ← Json.get "id" record; Json.as_str id.

(* src: crates/bos-integrations/src/invoice_ninja.rs:1467-1474 LiveInvoiceNinjaWriteClient::first_id *)
Definition first_id (body : Json.Value) : option string :=
  records ← data_records body; record ← head records; record_id record.

(* src: crates/bos-integrations/src/invoice_ninja.rs:1476-1487 LiveInvoiceNinjaWriteClient::first_active_client_id *)
Definition first_active_client_id (body : Json.Value) : option string :=
  records ← data_records body;
  record ← List.find (fun record => negb (invoice_ninja_record_is_archived record)) records;
  record_id record.

(* src: crates/bos-integrations/src/invoice_ninja.rs:1489-1498 LiveInvoiceNinjaWriteClient::created_id *)
Definition created_id (body : Json.Value) (context : string) : Result InvoiceNinjaWriteError string :=
  ok_or (data ← Json.get "data" body; record_id data)
    (Permanent "invoice_ninja_response_invalid" (context +:+ ": created entity has no id")).

(* src: crates/bos-integrations/src/invoice_ninja.rs:1434-1465 LiveInvoiceNinjaWriteClient::check *)
Definition check_response (response : InvoiceNinjaHttpResponse) (context : string) : Result InvoiceNinjaWriteError Json.Value :=
  let status := http_status response in
  if is_success status then Ok (body response)
  else if (status =? 401)%N || (status =? 403)%N then
    Err (Permanent "invoice_ninja_auth_failed" (context +:+ ": check BOS_INVOICE_NINJA_API_TOKEN"))
  else if (status =? 429)%N then Err (Retryable "invoice_ninja_rate_limited" (context +:+ ": 429"))
  else if is_server_error status then Err (Retryable "invoice_ninja_server_error" (context +:+ ": " +:+ fmt_dec status))
  else Err (Permanent "invoice_ninja_request_rejected"
              (context +:+ ": " +:+ fmt_dec status +:+ " "
               +:+ default "" (message ← Json.get "message" (body response); Json.as_str message))).

(* src: crates/bos-integrations/src/invoice_ninja.rs:1662-1664 bos_draft_marker *)
Definition bos_draft_marker (draft_ref : string) : string := "[bos:draft " +:+ draft_ref +:+ "]".

(* src: crates/bos-integrations/src/invoice_ninja.rs:1667-1674 invoice_number_field *)
Definition invoice_number_field (record : Json.Value) : option string :=
  raw ← (number ← Json.get "number" record; Json.as_str number);
  let number := trim raw in if is_empty number then None else Some number.

(** *** The chain: look for the outcome of a step, else bring it about *)

Section client.
Context {W : Type} (as_f64 : Json.Value → option spec_float) (f64_json : spec_float → Json.Value) (encode : string → string).
Context (get_json : string → string → Op W InvoiceNinjaWriteError InvoiceNinjaHttpResponse)
  (post_json : string → string → Json.Value → Op W InvoiceNinjaWriteError InvoiceNinjaHttpResponse)
  (base_url api_token : string).

(* src: crates/bos-integrations/src/invoice_ninja.rs:1427-1432 LiveInvoiceNinjaWriteClient::url *)
Definition url (path_and_query : string) : string := trim_end_matches "/" base_url +:+ "/api/v1/" +:+ path_and_query.

Definition client_lookup (name : string) (email : option string) : string :=
  match email with
  | Some email => url ("clients?email=" +:+ encode email +:+ "&per_page=5")
  | None => url ("clients?name=" +:+ encode name +:+ "&per_page=5")
  end.
Definition client_body (name : string) (email : option string) : Json.Value :=
  Json.Obj [("name", Json.Str name);
            ("contacts", Json.Arr [Json.Obj
               (match email with Some email => [("email", Json.Str email)] | None => [] end
                ++ [("send_email", Json.Bool false)])])].

(* src: crates/bos-integrations/src/invoice_ninja.rs:1503-1536 LiveInvoiceNinjaWriteClient::ensure_client *)
Definition ensure_client (name : string) (email : option string) : Op W InvoiceNinjaWriteError string :=
  let? response := get_json (client_lookup name email) api_token in
  let? body := op_lift (check_response response "client lookup") in
  match first_active_client_id body with
  | Some id => op_ret id
  | None =>
    let? created := post_json (url "clients") api_token (client_body name email) in
    let? body := op_lift (check_response created "client create") in
    op_lift (created_id body "client create")
  end.

Definition balance_of (record : Json.Value) : option Z :=
  value ← Json.get "balance" record; amount ← as_f64 value; Some (cents_of amount).

(** The closure [find]: the record with the number, its id and its balance. *)
(* src: crates/bos-integrations/src/invoice_ninja.rs:1548-1566 LiveInvoiceNinjaWriteClient::ensure_invoice (find) *)
Definition find_invoice (number : string) (body : Json.Value) : option (string * Z) :=
  records ← data_records body;
  record ← List.find (fun record =>
    bool_decide ((value ← Json.get "number" record; Json.as_str value) = Some number)) records;
  id ← record_id record;
  Some (id, default 0%Z (balance_of record)).

Definition invoice_lookup (number : string) : string := url ("invoices?number=" +:+ encode number +:+ "&per_page=5").
Definition invoice_body (request : Receipt.t) (client_id : string) : Json.Value :=
  Json.Obj [("client_id", Json.Str client_id); ("date", Json.Str (Receipt.paid_date request));
            ("number", Json.Str (Receipt.invoice_number request));
            ("idempotency_key", Json.Str (Receipt.idempotency_key request));
            ("line_items", Json.Arr [Json.Obj [
               ("product_key", Json.Str "Receipt"); ("notes", Json.Str (Receipt.description request));
               ("cost", f64_json (dollars (Receipt.amount_cents request))); ("quantity", Json.Int 1);
               ("type_id", Json.Str "1")]])].

(* src: crates/bos-integrations/src/invoice_ninja.rs:1538-1615 LiveInvoiceNinjaWriteClient::ensure_invoice *)
Definition ensure_invoice (request : Receipt.t) (client_id : string) : Op W InvoiceNinjaWriteError (string * Z) :=
  let lookup := invoice_lookup (Receipt.invoice_number request) in
  let? response := get_json lookup api_token in
  let? found := op_lift (check_response response "invoice lookup") in
  match find_invoice (Receipt.invoice_number request) found with
  | Some found => op_ret found
  | None =>
    let? created := post_json (url "invoices?mark_sent=true") api_token (invoice_body request client_id) in
    if (http_status created =? 422)%N then
      let? response := get_json lookup api_token in
      let? found := op_lift (check_response response "invoice re-lookup") in
      op_lift (ok_or (find_invoice (Receipt.invoice_number request) found)
                 (Permanent "invoice_ninja_invoice_create_rejected" "422 on create but the invoice number is not taken"))
    else
      let? body := op_lift (check_response created "invoice create") in
      let? id := op_lift (created_id body "invoice create") in
      op_ret (id, default (Receipt.amount_cents request) (data ← Json.get "data" body; balance_of data))
  end.

Definition payment_lookup (request : Receipt.t) : string :=
  url ("payments?transaction_reference=" +:+ encode (Receipt.idempotency_key request) +:+ "&per_page=5").
Definition payment_body (request : Receipt.t) (client_id invoice_id : string) : Json.Value :=
  let amount_dollars := f64_json (dollars (Receipt.amount_cents request)) in
  Json.Obj [("client_id", Json.Str client_id); ("amount", amount_dollars); ("date", Json.Str (Receipt.paid_date request));
            ("transaction_reference", Json.Str (Receipt.idempotency_key request));
            ("idempotency_key", Json.Str (Receipt.idempotency_key request));
            ("private_notes", Json.Str ("via BusinessOS (" +:+ payment_approval_id (Receipt.approval request) +:+ ")"));
            ("invoices", Json.Arr [Json.Obj [("invoice_id", Json.Str invoice_id); ("amount", amount_dollars)]])].

(* src: crates/bos-integrations/src/invoice_ninja.rs:1617-1655 LiveInvoiceNinjaWriteClient::ensure_payment *)
Definition ensure_payment (request : Receipt.t) (client_id invoice_id : string) (invoice_balance_cents : Z)
    : Op W InvoiceNinjaWriteError (option string) :=
  if (invoice_balance_cents <=? 0)%Z then op_ret None
  else
    let? response := get_json (payment_lookup request) api_token in
    let? found := op_lift (check_response response "payment lookup") in
    match first_id found with
    | Some id => op_ret (Some id)
    | None =>
      let? created := post_json (url "payments?email_receipt=false") api_token (payment_body request client_id invoice_id) in
      let? body := op_lift (check_response created "payment create") in
      op_map Some (op_lift (created_id body "payment create"))
    end.

Definition executed_status : InvoiceNinjaExecutionStatus := Build_InvoiceNinjaExecutionStatus true false None.

(* src: crates/bos-integrations/src/invoice_ninja.rs:1774-1792 LiveInvoiceNinjaWriteClient::record_receipt *)
Definition record_receipt (request : Receipt.t) : Op W InvoiceNinjaWriteError InvoiceNinjaReceiptResponse :=
  op_lift (validate_receipt request) ;;?
  let? client_id := ensure_client (Receipt.payer_name request) (Receipt.payer_email request) in
  let? invoice := ensure_invoice request client_id in
  let? payment_id := ensure_payment request client_id invoice.1 invoice.2 in
  op_ret (Build_InvoiceNinjaReceiptResponse executed_status client_id invoice.1 payment_id).

(** The record that carries the marker in its private notes. *)
Definition find_marked (marker : string) (records : list Json.Value) : option (string * option string) :=
  record ← List.find (fun record =>
    option_any (fun notes => contains notes marker) (value ← Json.get "private_notes" record; Json.as_str value)) records;
  id ← record_id record;
  Some (id, invoice_number_field record).

Definition page_lookup (client_id : string) (page : N) : string :=
  url ("invoices?client_id=" +:+ encode client_id +:+ "&per_page=100&page=" +:+ fmt_dec page).

(** [for page in 1..]: until the marker is found or a page is not full.  Nothing bounds
    the loop, so it has fuel; [None] is running out of it. *)
(* src: crates/bos-integrations/src/invoice_ninja.rs:1690-1724 LiveInvoiceNinjaWriteClient::ensure_invoice_draft (loop) *)
Fixpoint scan_pages (fuel : nat) (client_id marker : string) (page : N)
    : Op W InvoiceNinjaWriteError (option (option (string * option string))) :=
  match fuel with
  | O => op_ret None
  | S fuel =>
    let? response := get_json (page_lookup client_id page) api_token in
    let? body := op_lift (check_response response "invoice lookup") in
    let records := default [] (data_records body) in
    match find_marked marker records with
    | Some found => op_ret (Some (Some found))
    | None => if (len records <? 100)%N then op_ret (Some None) else scan_pages fuel client_id marker (page + 1)
    end
  end.

Definition draft_line (line : InvoiceLine.t) : Json.Value :=
  Json.Obj [("product_key", Json.Str (InvoiceLine.label line)); ("notes", Json.Str (default "" (InvoiceLine.description line)));
            ("cost", f64_json (dollars (InvoiceLine.unit_amount_cents line)));
            ("quantity", Json.Int (Z.of_N (InvoiceLine.quantity line))); ("type_id", Json.Str "1")].
Definition draft_body (request : InvoiceDraftPayload.t) (client_id marker : string) : Json.Value :=
  Json.Obj ([("client_id", Json.Str client_id); ("idempotency_key", Json.Str (InvoiceDraftPayload.idempotency_key request));
             ("line_items", Json.Arr (draft_line <$> InvoiceDraftPayload.line_items request))]
            ++ match InvoiceDraftPayload.due_date request with Some due => [("due_date", Json.Str due)] | None => [] end
            ++ match InvoiceDraftPayload.memo request with Some memo => [("public_notes", Json.Str memo)] | None => [] end
            ++ [("private_notes", Json.Str (marker +:+ " via BusinessOS (approval "
                   +:+ payment_approval_id (InvoiceDraftPayload.approval request) +:+ ")"))]).

(* src: crates/bos-integrations/src/invoice_ninja.rs:1683-1770 LiveInvoiceNinjaWriteClient::ensure_invoice_draft *)
Definition ensure_invoice_draft (fuel : nat) (request : InvoiceDraftPayload.t) (client_id : string)
    : Op W InvoiceNinjaWriteError (option (string * option string)) :=
  let marker := bos_draft_marker (InvoiceDraftPayload.draft_ref request) in
  let? found := scan_pages fuel client_id marker 1 in
  match found with
  | None => op_ret None
  | Some (Some found) => op_ret (Some found)
  | Some None =>
    let? created := post_json (url "invoices") api_token (draft_body request client_id marker) in
    let? body := op_lift (check_response created "invoice create") in
    let? id := op_lift (created_id body "invoice create") in
    op_ret (Some (id, data ← Json.get "data" body; invoice_number_field data))
  end.

(* src: crates/bos-integrations/src/invoice_ninja.rs:1794-1812 LiveInvoiceNinjaWriteClient::create_invoice_draft *)
Definition create_invoice_draft (fuel : nat) (request : InvoiceDraftPayload.t)
    : Op W InvoiceNinjaWriteError (option InvoiceNinjaInvoiceDraftResponse) :=
  op_lift (validate_invoice_draft request) ;;?
  let? client_id := ensure_client (InvoiceDraftPayload.customer_name request) (InvoiceDraftPayload.customer_email request) in
  let? invoice := ensure_invoice_draft fuel request client_id in
  op_ret ((fun found => Build_InvoiceNinjaInvoiceDraftResponse executed_status client_id found.1 found.2) <$> invoice).
End client.
End NinjaWrite.

(** ** Stripe: draft an invoice *)

Module StripeWrite.
(* src: crates/bos-integrations/src/stripe.rs:440-444 StripeWriteError *)
Inductive StripeWriteError :=
| Retryable (code message : string)
| Permanent (code message : string).

Module Line.
(* src: crates/bos-integrations/src/stripe.rs:461-471 StripeInvoiceLineItem *)
Record t := mk {
  line_number : N;
  label : string;
  description : option string;
  quantity : N;
  unit_amount_cents : N;
  line_total_cents : N;
}.
End Line.

Module Payload.
(* src: crates/bos-integrations/src/stripe.rs:473-494 StripeInvoiceDraftOutboxPayload *)
Record t := mk {
  idempotency_key : string;
  approval : PaymentApproval;
  draft_ref : string;
  customer_name : string;
  customer_email : string;
  currency : string;
  memo : option string;
  due_date_epoch_seconds : option N;
  line_items : list Line.t;
  subtotal_cents : N;
  total_cents : N;
}.
End Payload.

(* src: crates/bos-integrations/src/stripe.rs:496-501 StripeExecutionStatus *)
Record StripeExecutionStatus := {
  executed : bool;
  dry_run : bool;
  reason : option string;
}.

(* src: crates/bos-integrations/src/stripe.rs:503-512 StripeInvoiceDraftResponse *)
Record StripeInvoiceDraftResponse := {
  status : StripeExecutionStatus;
  customer_id : string;
  invoice_id : string;
  provider_status : option string;
  hosted_invoice_url : option string;
}.

(* src: crates/bos-integrations/src/stripe.rs:44-51 StripeHttpResponse *)
Record StripeHttpResponse := {
  http_status : N;
  request_id : option string;
  retry_after_secs : option N;
  body : Json.Value;
}.

(** [u64::checked_mul] and [checked_add]. *)
Definition checked_u64 (v : N) : option N := if (v <=? u64_max)%N then Some v else None.

(** One line of the validation. *)
(* src: crates/bos-integrations/src/stripe.rs:562-587 validate_invoice_draft (lines) *)
Fixpoint validate_lines (subtotal : N) (items : list Line.t) : Result StripeWriteError N :=
  match items with
  | [] => Ok subtotal
  | item :: items =>
    if (Line.line_number item =? 0)%N || is_blank (Line.label item) || (Line.quantity item =? 0)%N
       || (Line.unit_amount_cents item =? 0)%N || (Line.line_total_cents item =? 0)%N
    then Err (Permanent "stripe_invoice_line_not_grounded" "line items require label, quantity, unit amount, and line total")
    else
      expected ← ok_or (checked_u64 (Line.quantity item * Line.unit_amount_cents item))
                   (Permanent "stripe_invoice_line_overflow" "line total overflowed");
      if negb (expected =? Line.line_total_cents item)%N then
        Err (Permanent "stripe_invoice_line_total_mismatch" "line total does not match quantity times unit amount")
      else
        subtotal ← ok_or (checked_u64 (subtotal + Line.line_total_cents item))
                     (Permanent "stripe_invoice_total_overflow" "total overflowed");
        validate_lines subtotal items
  end.

(* src: crates/bos-integrations/src/stripe.rs:525-595 validate_invoice_draft *)
Definition validate_invoice_draft (request : Payload.t) : Result StripeWriteError unit :=
  if negb (is_complete (Payload.approval request)) then
    Err (Permanent "stripe_approval_missing" "approval metadata is incomplete")
  else if is_blank (Payload.idempotency_key request) then
    Err (Permanent "stripe_idempotency_key_missing" "idempotency key is required")
  else if is_blank (Payload.customer_name request) || is_blank (Payload.customer_email request)
       || negb (has_char "@" (Payload.customer_email request)) then
    Err (Permanent "stripe_customer_not_grounded" "customer name and a valid email are required")
  else if is_blank (Payload.currency request) then Err (Permanent "stripe_currency_missing" "currency is required")
  else if bool_decide (Payload.line_items request = []) || (Payload.total_cents request =? 0)%N then
    Err (Permanent "stripe_invoice_draft_empty" "at least one line item and a non-zero total are required")
  else
    subtotal ← validate_lines 0 (Payload.line_items request);
    if negb (subtotal =? Payload.subtotal_cents request)%N
       || negb (Payload.subtotal_cents request =? Payload.total_cents request)%N
    then Err (Permanent "stripe_invoice_total_mismatch" "totals do not match line items")
    else Ok tt.

(* src: crates/bos-integrations/src/stripe.rs:602-618 DryRunStripeClient::create_invoice_draft *)
Definition dry_run_create_invoice_draft (request : Payload.t) : Result StripeWriteError StripeInvoiceDraftResponse :=
  _ ← validate_invoice_draft request;
  Ok (Build_StripeInvoiceDraftResponse (Build_StripeExecutionStatus false true (Some "stripe_write_disabled_dry_run"%string))
        "dry-run" "dry-run" None None).

(* src: crates/bos-integrations/src/stripe.rs:332-339 string_field *)
Definition string_field (value : Json.Value) (key : string) : option string :=
  raw ← (v ← Json.get key value; Json.as_str v);
  let raw := trim raw in if is_empty raw then None else Some raw.

(* src: crates/bos-integrations/src/stripe.rs:328-330 id_field *)
Definition id_field (value : Json.Value) : option string := string_field value "id".

(* src: crates/bos-integrations/src/stripe.rs:321-326 data_array *)
Definition data_array (body : Json.Value) : list Json.Value :=
  default [] (data ← Json.get "data" body; Json.as_array data).

(* src: crates/bos-integrations/src/stripe.rs:824-840 accounting_to_write_error *)
Definition accounting_to_write_error (err : AccountingError) : StripeWriteError :=
  match err with
  | RateLimited _ message => Retryable "stripe_rate_limited" message
  | AccountingRecords.Retryable code message => Retryable code message
  | AuthExpired message | AccountingRecords.Permanent _ message => Permanent "stripe_request_failed_permanently" message
  end.

(* src: crates/bos-integrations/src/stripe.rs:842-869 check_write_status *)
Definition check_write_status (step : string) (response : StripeHttpResponse) : Result StripeWriteError Json.Value :=
  let status := http_status response in
  if is_success status then Ok (body response)
  else if (status =? 401)%N || (status =? 403)%N then
    Err (Permanent "stripe_write_unauthorized" "check BOS_STRIPE_SECRET_KEY scopes")
  else if (status =? 429)%N || is_server_error status then
    Err (Retryable (step +:+ "_retryable_http_error") ("stripe " +:+ fmt_dec status))
  else Err (Permanent (step +:+ "_failed")
              ("stripe " +:+ fmt_dec status +:+ ": "
               +:+ default "(no error message)" (error ← Json.get "error" (body response);
                     message ← Json.get "message" error; Json.as_str message))).

Section client.
Context {W : Type} (to_lowercase : string → string).
Context (get_form : string → list (string * string) → string → Op W AccountingError StripeHttpResponse)
  (post_form : string → list (string * string) → string → string → Op W AccountingError StripeHttpResponse)
  (secret_key : string).

(** [.map_err(accounting_to_write_error)?]. *)
Definition or_write_error {A} (m : Op W AccountingError A) : Op W StripeWriteError A :=
  fun w => let '(r, w) := m w in
           (match r with Ok a => Ok a | Err err => Err (accounting_to_write_error err) end, w).

(* src: crates/bos-integrations/src/stripe.rs:645-656 LiveStripeWriteClient::get *)
Definition get (path : string) (params : list (string * string)) (step : string) : Op W StripeWriteError Json.Value :=
  let? response := or_write_error (get_form path params secret_key) in
  op_lift (check_write_status step response).

(* src: crates/bos-integrations/src/stripe.rs:658-670 LiveStripeWriteClient::post *)
Definition post (path : string) (params : list (string * string)) (idempotency_key step : string)
    : Op W StripeWriteError Json.Value :=
  let? response := or_write_error (post_form path params idempotency_key secret_key) in
  op_lift (check_write_status step response).

Definition customer_lookup_params (request : Payload.t) : list (string * string) :=
  [("email", Payload.customer_email request); ("limit", "1")]%string.

(* src: crates/bos-integrations/src/stripe.rs:674-709 LiveStripeWriteClient::find_or_create_customer *)
Definition find_or_create_customer (request : Payload.t) : Op W StripeWriteError string :=
  let? found := get "/v1/customers" (customer_lookup_params request) "stripe_customer_lookup" in
  match (record ← head (data_array found); id_field record) with
  | Some customer_id => op_ret customer_id
  | None =>
    let? created := post "/v1/customers"
      [("email", Payload.customer_email request); ("name", Payload.customer_name request);
       ("metadata[bos_draft_id]", Payload.draft_ref request)]
      (Payload.idempotency_key request +:+ ":customer") "stripe_customer_create" in
    op_lift (ok_or (id_field created)
      (Permanent "stripe_customer_create_invalid_response" "customer create response had no id"))
  end.

Definition invoice_params (request : Payload.t) (customer_id : string) : list (string * string) :=
  [("customer", customer_id); ("collection_method", "send_invoice"); ("auto_advance", "false");
   ("currency", to_lowercase (Payload.currency request)); ("metadata[bos_draft_id]", Payload.draft_ref request);
   ("metadata[bos_approval_id]", payment_approval_id (Payload.approval request))]%string
  ++ match Payload.due_date_epoch_seconds request with Some due => [("due_date"%string, fmt_dec due)] | None => [] end
  ++ match (memo ← Payload.memo request; let memo := trim memo in if is_empty memo then None else Some memo) with
     | Some memo => [("description"%string, memo)]
     | None => []
     end.

(* src: crates/bos-integrations/src/stripe.rs:711-749 LiveStripeWriteClient::create_invoice *)
Definition create_invoice (request : Payload.t) (customer_id : string) : Op W StripeWriteError Json.Value :=
  post "/v1/invoices" (invoice_params request customer_id) (Payload.idempotency_key request +:+ ":invoice")
    "stripe_invoice_create".

(** The dash is the byte sequence E2 80 94. *)
Definition em_dash : string := " " +:+ String "226" (String "128" (String "148" " ")).
Definition line_description (line : Line.t) : string :=
  match trim <$> Line.description line with
  | Some description => if is_empty description then trim (Line.label line)
                        else trim (Line.label line) +:+ em_dash +:+ description
  | None => trim (Line.label line)
  end.
Definition item_params (request : Payload.t) (customer_id invoice_id : string) (line : Line.t) : list (string * string) :=
  [("customer", customer_id); ("invoice", invoice_id); ("amount", fmt_dec (Line.line_total_cents line));
   ("currency", to_lowercase (Payload.currency request)); ("description", line_description line);
   ("metadata[bos_draft_id]", Payload.draft_ref request); ("metadata[bos_line_number]", fmt_dec (Line.line_number line));
   ("metadata[bos_quantity]", fmt_dec (Line.quantity line));
   ("metadata[bos_unit_amount_cents]", fmt_dec (Line.unit_amount_cents line))]%string.
Definition item_key (request : Payload.t) (line : Line.t) : string :=
  Payload.idempotency_key request +:+ ":line:" +:+ fmt_dec (Line.line_number line).

Fixpoint post_items (request : Payload.t) (customer_id invoice_id : string) (lines : list Line.t) : Op W StripeWriteError unit :=
  match lines with
  | [] => op_ret tt
  | line :: lines =>
    let? created := post "/v1/invoiceitems" (item_params request customer_id invoice_id line) (item_key request line)
                      "stripe_invoice_item_create" in
    post_items request customer_id invoice_id lines
  end.

(* src: crates/bos-integrations/src/stripe.rs:751-794 LiveStripeWriteClient::create_invoice_items *)
Definition create_invoice_items (request : Payload.t) (customer_id invoice_id : string) : Op W StripeWriteError unit :=
  post_items request customer_id invoice_id (Payload.line_items request).

(* src: crates/bos-integrations/src/stripe.rs:798-821 LiveStripeWriteClient::create_invoice_draft *)
Definition create_invoice_draft (request : Payload.t) : Op W StripeWriteError StripeInvoiceDraftResponse :=
  op_lift (validate_invoice_draft request) ;;?
  let? customer_id := find_or_create_customer request in
  let? invoice := create_invoice request customer_id in
  let? invoice_id := op_lift (ok_or (id_field invoice)
    (Permanent "stripe_invoice_create_invalid_response" "invoice create response had no id")) in
  create_invoice_items request customer_id invoice_id ;;?
  op_ret (Build_StripeInvoiceDraftResponse (Build_StripeExecutionStatus true false None) customer_id invoice_id
            (string_field invoice "status") (string_field invoice "hosted_invoice_url")).
End client.
End StripeWrite.
