(* ===== verification/GoogleCalendar.v ===== *)
(** * Events at Google Calendar ([bos-integrations/src/google_calendar.rs], [google_calendar/])

    The list of an event's attendees, the id of an event, the client that creates events
    and the one that only plans, and the adapter that turns an outbox payload into a call
    and the answer into a receipt.

    The transport and the exchange of the refresh token are parameters, over a state of the
    world outside; so are SHA-256 ([sha256]), the percent encoding ([encode]) and serde's
    texts of values ([value_text], [parse_value]) and of the payload ([parse_payload]). *)

From S2P Require Import Prelude RustStd Ids Errors RustStr StoreCore AppOutbox AccountingRecords Schema Calendar Json ProviderWrites.

Module GoogleCalendar.
(* src: crates/bos-integrations/src/google_calendar.rs:13-13 MAX_CALENDAR_ATTENDEES *)
Definition MAX_CALENDAR_ATTENDEES : nat := 25.

(** ** Attendees *)

Definition starts_with (prefix s : string) : bool := bool_decide (is_Some (strip_prefix prefix s)).
Definition ends_with (suffix s : string) : bool := bool_decide (is_Some (strip_suffix suffix s)).

(* src: crates/bos-integrations/src/google_calendar.rs:61-68 valid_calendar_attendee (label) *)
Definition valid_domain_label (label : string) : bool :=
  negb (is_empty label) && negb (starts_with "-" label) && negb (ends_with "-" label)
  && all_bytes (fun byte => is_ascii_alphanumeric byte || Ascii.eqb byte "-") label.

(* src: crates/bos-integrations/src/google_calendar.rs:34-69 valid_calendar_attendee *)
Definition valid_calendar_attendee (address : string) : bool :=
  if is_empty address || (254 <? String.length address)%nat || has_whitespace address
     || (has_char "<" address || has_char ">" address || has_char "," address || has_char ";" address)
  then false
  else match split_on "@" address with
       | [local; domain] =>
         if is_empty local || (64 <? String.length local)%nat || is_empty domain || negb (has_char "." domain)
            || starts_with "." domain || ends_with "." domain
         then false
         else forallb valid_domain_label (split_on "." domain)
       | _ => false
       end.

(** The loop: [seen] is the hash set. *)
(* src: crates/bos-integrations/src/google_calendar.rs:16-27 normalize_calendar_attendees (loop) *)
Fixpoint normalize_from (seen : gset string) (normalized attendees : list string) : Result string (list string) :=
  match attendees with
  | [] => Ok normalized
  | raw :: attendees =>
    let address := trim raw in
    if negb (valid_calendar_attendee address) then Err "google_calendar_attendee_invalid"%string
    else
      let key := to_ascii_lowercase address in
      if bool_decide (key ∈ seen) then normalize_from seen normalized attendees
      else normalize_from ({[key]} ∪ seen) (normalized ++ [address]) attendees
  end.

(* src: crates/bos-integrations/src/google_calendar.rs:15-32 normalize_calendar_attendees *)
Definition normalize_calendar_attendees (attendees : list string) : Result string (list string) :=
  normalized ← normalize_from ∅ [] attendees;
  if (MAX_CALENDAR_ATTENDEES <? length normalized)%nat then Err "google_calendar_attendee_limit_exceeded"%string
  else Ok normalized.

(** ** Requests and answers *)

Module OAuth.
(* src: crates/bos-integrations/src/google_oauth.rs:12-22 GoogleOAuthConfig *)
Record t := mk {
  client_id : string;
  client_secret : string;
  refresh_token : string;
  scopes : list string;
  token_url : option string;
}.
End OAuth.

(* src: crates/bos-integrations/src/google_calendar.rs:78-86 GoogleCalendarWriteConfig *)
Record GoogleCalendarWriteConfig := {
  oauth : OAuth.t;
  config_calendar_id : string;
  write_enabled : bool;
}.

(* src: crates/bos-integrations/src/google_calendar.rs:114-119 GoogleCalendarEventWriteOperation *)
Inductive GoogleCalendarEventWriteOperation := Create | Update.

(** The approval's metadata is declared like the one of the other writing clients. *)
Module Payload.
(* src: crates/bos-integrations/src/google_calendar/events.rs:12-30 GoogleCalendarEventCreateOutboxPayload *)
Record t := mk {
  calendar_id : string;
  idempotency_key : string;
  credential_user_id : option string;
  approval : PaymentApproval;
  summary : string;
  description : option string;
  start_at : string;
  end_at : string;
  timezone : option string;
  attendees : list string;
  send_invitations : bool;
  expected_revision : option N;
}.
End Payload.

Module WriteRequest.
(** The outbox payload of a write has the same fields. *)
(* src: crates/bos-integrations/src/google_calendar.rs:140-156 GoogleCalendarEventWriteRequest *)
Record t := mk {
  operation : GoogleCalendarEventWriteOperation;
  calendar_id : string;
  event_id : option string;
  idempotency_key : string;
  approval : PaymentApproval;
  summary : string;
  description : option string;
  start_at : string;
  end_at : string;
  timezone : option string;
  attendees : list string;
  send_invitations : bool;
  expected_etag : option string;
  expected_revision : option N;
}.
End WriteRequest.

(* src: crates/bos-integrations/src/google_calendar/events.rs:32-51 GoogleCalendarEventWriteOutboxPayload::from *)
Definition create_request (payload : Payload.t) : WriteRequest.t := {|
  WriteRequest.operation := Create;
  WriteRequest.calendar_id := Payload.calendar_id payload;
  WriteRequest.event_id := None;
  WriteRequest.idempotency_key := Payload.idempotency_key payload;
  WriteRequest.approval := Payload.approval payload;
  WriteRequest.summary := Payload.summary payload;
  WriteRequest.description := Payload.description payload;
  WriteRequest.start_at := Payload.start_at payload;
  WriteRequest.end_at := Payload.end_at payload;
  WriteRequest.timezone := Payload.timezone payload;
  WriteRequest.attendees := Payload.attendees payload;
  WriteRequest.send_invitations := Payload.send_invitations payload;
  WriteRequest.expected_etag := None;
  WriteRequest.expected_revision := Payload.expected_revision payload;
|}.

(* src: crates/bos-integrations/src/google_calendar.rs:158-164 GoogleCalendarExecutionStatus *)
Record GoogleCalendarExecutionStatus := {
  executed : bool;
  dry_run : bool;
  degraded : bool;
  reason : option string;
}.

Module WriteResponse.
(* src: crates/bos-integrations/src/google_calendar.rs:186-194 GoogleCalendarEventWriteResponse *)
Record t := mk {
  status : GoogleCalendarExecutionStatus;
  calendar_id : string;
  event_id : string;
  etag : string;
  revision : option N;
  approval : PaymentApproval;
}.
End WriteResponse.

(* src: crates/bos-integrations/src/google_calendar.rs:166-184 GoogleCalendarExecutionStatus::executed *)
Definition status_executed (reason : string) : GoogleCalendarExecutionStatus :=
  Build_GoogleCalendarExecutionStatus true false false (Some reason).
(* src: crates/bos-integrations/src/google_calendar.rs:167-174 GoogleCalendarExecutionStatus::dry_run *)
Definition status_dry_run (reason : string) : GoogleCalendarExecutionStatus :=
  Build_GoogleCalendarExecutionStatus false true false (Some reason).

Module ProviderState.
(* src: crates/bos-integrations/src/google_calendar.rs:196-204 GoogleCalendarProviderState *)
Record t := mk {
  provider_id : string;
  calendar_id : string;
  event_id : option string;
  current_etag : option string;
  degraded : bool;
  reason : string;
}.
End ProviderState.

(* src: crates/bos-integrations/src/google_calendar.rs:206-222 GoogleCalendarWriteError *)
Inductive GoogleCalendarWriteError :=
| Retryable (code message : string) (retry_after_ms : option Z)
| Permanent (code message : string)
| Conflict (code message : string) (provider_state : ProviderState.t).

(* src: crates/bos-integrations/src/google_calendar.rs:311-333 validate_calendar_write_request *)
Definition validate_calendar_write_request (request : WriteRequest.t) : Result GoogleCalendarWriteError unit :=
  match normalize_calendar_attendees (WriteRequest.attendees request) with
  | Err code => Err (Permanent code "google calendar attendee list is invalid")
  | Ok normalized =>
    if negb (bool_decide (normalized = WriteRequest.attendees request)) then
      Err (Permanent "google_calendar_attendee_not_normalized" "google calendar attendee list is not normalized")
    else if WriteRequest.send_invitations request && bool_decide (WriteRequest.attendees request = []) then
      Err (Permanent "google_calendar_invitation_attendees_required" "calendar invitations require at least one attendee")
    else Ok tt
  end.

(** ** Without writing *)

(** A character that is not ASCII is one hyphen, and its bytes are several: what is
    between hyphens is the same. *)
(* src: crates/bos-integrations/src/google_calendar.rs:335-350 stable_token *)
Definition stable_token (value : string) : string :=
  join "-" (List.filter (fun part => negb (is_empty part))
    (split_on "-" (map_bytes (fun byte => if is_ascii_alphanumeric byte then ascii_lower byte else "-"%char) value))).

(* src: crates/bos-integrations/src/google_calendar.rs:252-263 DryRunGoogleCalendarClient::write_event (approval) *)
Definition validate_write_approval (request : WriteRequest.t) : Result GoogleCalendarWriteError unit :=
  if negb (is_complete (WriteRequest.approval request)) then
    Err (Permanent "google_calendar_approval_missing" "google calendar write approval metadata is incomplete")
  else if is_blank (WriteRequest.idempotency_key request) then
    Err (Permanent "google_calendar_idempotency_key_missing" "google calendar write idempotency key is required")
  else Ok tt.

Definition is_update (request : WriteRequest.t) : bool :=
  match WriteRequest.operation request with Update => true | Create => false end.

(* src: crates/bos-integrations/src/google_calendar.rs:246-309 DryRunGoogleCalendarClient::write_event *)
Definition dry_run_write_event (request : WriteRequest.t) : Result GoogleCalendarWriteError WriteResponse.t :=
  _ ← validate_calendar_write_request request;
  _ ← validate_write_approval request;
  if is_update request && is_empty (default "" (trim <$> WriteRequest.expected_etag request)) then
    Err (Conflict "google_calendar_etag_required" "google calendar update requires an expected etag"
           (ProviderState.mk "google_calendar" (WriteRequest.calendar_id request) (WriteRequest.event_id request) None true
              "missing_expected_etag"))
  else
    let token := stable_token (WriteRequest.idempotency_key request) in
    Ok (WriteResponse.mk (status_dry_run "google_calendar_dry_run") (WriteRequest.calendar_id request)
          (default ("dry-run-calendar-event-" +:+ token) (WriteRequest.event_id request))
          (match WriteRequest.operation request with
           | Create => "dry-run-etag-" +:+ token
           | Update => "dry-run-etag-next-" +:+ stable_token (default "update" (WriteRequest.expected_etag request))
           end)
          ((fun revision => wrapping_add_u64 revision 1) <$> WriteRequest.expected_revision request)
          (WriteRequest.approval request)).

(** ** The id of an event *)

(* src: crates/bos-integrations/src/google_calendar/live.rs:164-164 BASE32HEX *)
Definition BASE32HEX : string := "0123456789abcdefghijklmnopqrstuv".
(** [BASE32HEX[(v & 0x1f)]] *)
(* src: crates/bos-integrations/src/google_calendar/live.rs:181-182 derive_event_id (idx) *)
Definition base32_digit (v : N) : ascii := default "0"%char (String.get (N.to_nat (N.land v 31)) BASE32HEX).
Definition push (out : string) (c : ascii) : string := out +:+ String c EmptyString.

(** [while bits >= 5]: it takes five bits at a time, so [bits] rounds are enough. *)
(* src: crates/bos-integrations/src/google_calendar/live.rs:179-183 derive_event_id (while) *)
Fixpoint drain (fuel : nat) (buffer bits : N) (out : string) : N * string :=
  match fuel with
  | O => (bits, out)
  | S fuel =>
    if (5 <=? bits)%N
    then let bits := (bits - 5)%N in drain fuel buffer bits (push out (base32_digit (N.shiftr buffer bits)))
    else (bits, out)
  end.

(** [buffer] is a [u32]: what is shifted out at the top is lost. *)
(* src: crates/bos-integrations/src/google_calendar/live.rs:176-184 derive_event_id (for) *)
Fixpoint encode_from (buffer bits : N) (bytes : list N) (out : string) : N * N * string :=
  match bytes with
  | [] => (buffer, bits, out)
  | b :: bytes =>
    let buffer := N.lor (N.shiftl buffer 8 mod 4294967296) b in
    let '(bits, out) := drain (N.to_nat (bits + 8)) buffer (bits + 8) out in
    encode_from buffer bits bytes out
  end.

Section event_id.
Context (sha256 : string → list N).

(* src: crates/bos-integrations/src/google_calendar/live.rs:166-190 derive_event_id *)
Definition derive_event_id (idempotency_key : string) : string :=
  let digest := sha256 idempotency_key in
  let '(buffer, bits, out) := encode_from 0 0 (take 20 digest) "" in
  if (0 <? bits)%N then push out (base32_digit (N.shiftl buffer (5 - bits) mod 4294967296)) else out.
End event_id.

(** ** What Google's errors say ([google_api_errors.rs]) *)

(* src: crates/bos-integrations/src/google_api_errors.rs:25-37 error_reasons *)
Definition error_reasons (body : Json.Value) : list string :=
  default [] (omap (M:=list) (fun error => reason ← Json.get "reason" error; Json.as_str reason)
              <$> (error ← Json.get "error" body; errors ← Json.get "errors" error; Json.as_array errors)).

(* src: crates/bos-integrations/src/google_api_errors.rs:39-41 first_error_reason *)
Definition first_error_reason (body : Json.Value) : option string := head (error_reasons body).

(* src: crates/bos-integrations/src/google_api_errors.rs:43-54 is_retryable_quota_reason *)
Definition is_retryable_quota_reason (reason : string) : bool :=
  existsb (string_eqb reason) ["rateLimitExceeded"; "userRateLimitExceeded"; "quotaExceeded"; "dailyLimitExceeded";
                               "limitExceeded"; "servingLimitExceeded"; "concurrentLimitExceeded"]%string.

(* src: crates/bos-integrations/src/google_api_errors.rs:56-60 has_retryable_quota_reason *)
Definition has_retryable_quota_reason (body : Json.Value) : bool := existsb is_retryable_quota_reason (error_reasons body).

(* src: crates/bos-integrations/src/google_api_errors.rs:62-68 error_message *)
Definition error_message (body : Json.Value) : option string :=
  message ← (match (error ← Json.get "error" body; message ← Json.get "message" error; Json.as_str message) with
             | Some message => Some message
             | None => message ← Json.get "message" body; Json.as_str message
             end);
  if is_blank message then None else Some message.

(* src: crates/bos-integrations/src/google_calendar/live.rs:81-89 calendar_status_message *)
Definition calendar_status_message (status : N) (body : Json.Value) : string :=
  "status " +:+ fmt_dec status +:+ default "" ((fun reason => " reason=" +:+ reason) <$> first_error_reason body)
  +:+ default "" ((fun message => " message=" +:+ message) <$> error_message body).

(** ** The live client *)

Module HttpResponse.
(* src: crates/bos-integrations/src/google_calendar/live.rs:31-36 CalendarHttpResponse *)
Record t := mk {
  status : N;
  body : Json.Value;
  retry_after_ms : option Z;
}.
End HttpResponse.

(* src: crates/bos-integrations/src/google_oauth.rs:129-131 has_scope *)
Definition has_scope (creds : OAuth.t) (scope : string) : bool := existsb (fun s => string_eqb s scope) (OAuth.scopes creds).

(* src: crates/bos-integrations/src/google_calendar/live.rs:27-29 has_calendar_scope *)
Definition has_calendar_scope (creds : OAuth.t) : bool :=
  has_scope creds "https://www.googleapis.com/auth/calendar.events" || has_scope creds "https://www.googleapis.com/auth/calendar".

(** [!scopes.is_empty() && !has_calendar_scope(..)]: what is known of the scopes rules writing out. *)
(* src: crates/bos-integrations/src/google_calendar/live.rs:444-444 google_calendar_execution_client (scopes) *)
Definition lacks_calendar_scope (creds : OAuth.t) : bool :=
  negb (bool_decide (OAuth.scopes creds = [])) && negb (has_calendar_scope creds).
(* src: crates/bos-integrations/src/google_calendar/live.rs:446-449 google_calendar_execution_client (scope missing) *)
Definition scope_missing : GoogleCalendarWriteError :=
  Permanent "google_calendar_scope_missing" "calendar.events (or calendar) scope absent from resolved credentials".

Module ListEntry.
(* src: crates/bos-integrations/src/google_calendar/live.rs:192-198 CalendarListEntry *)
Record t := mk {
  id : string;
  summary : string;
  primary : bool;
}.
End ListEntry.

(* src: crates/bos-integrations/src/google_calendar/live.rs:248-268 LiveGoogleCalendarClient::list_writable_calendars (item) *)
Definition writable_entry (item : Json.Value) : option ListEntry.t :=
  let access_role := default "" (role ← Json.get "accessRole" item; Json.as_str role) in
  if existsb (string_eqb access_role) ["owner"; "writer"; "writerWithoutPrivateAccess"]%string then
    id ← (id ← Json.get "id" item; Json.as_str id);
    Some (ListEntry.mk id (default "" (summary ← Json.get "summary" item; Json.as_str summary))
            (default false (primary ← Json.get "primary" item; Json.as_bool primary)))
  else None.

(** [json!({ "dateTime": at })] with the time zone, if there is one. *)
(* src: crates/bos-integrations/src/google_calendar/live.rs:300-305 build_body (start, end) *)
Definition event_time (at_ : string) (timezone : option string) : Json.Value :=
  Json.Obj ([("dateTime"%string, Json.Str at_)]
            ++ match timezone with Some tz => [("timeZone"%string, Json.Str tz)] | None => [] end).

(* src: crates/bos-integrations/src/google_calendar/live.rs:299-322 LiveGoogleCalendarClient::build_body *)
Definition build_body (request : WriteRequest.t) (event_id : string) : Json.Value :=
  Json.Obj ([("id"%string, Json.Str event_id);
             ("summary"%string, Json.Str (WriteRequest.summary request));
             ("start"%string, event_time (WriteRequest.start_at request) (WriteRequest.timezone request));
             ("end"%string, event_time (WriteRequest.end_at request) (WriteRequest.timezone request));
             ("attendees"%string, Json.Arr ((fun email => Json.Obj [("email"%string, Json.Str email)]) <$> WriteRequest.attendees request))]
            ++ match WriteRequest.description request with
               | Some description => [("description"%string, Json.Str description)]
               | None => []
               end).

(** What the factory makes: a client that plans, one that fails, or one with a token. *)
Inductive ExecutionClient :=
| DryRunGoogleCalendarClient
| FailedGoogleCalendarClient (error : GoogleCalendarWriteError)
| LiveGoogleCalendarClient (access_token : string).

Section client.
Context {W : Type} (sha256 : string → list N) (encode : string → string) (body_text : Json.Value → string).
Context (get_json : string → string → Op W GoogleCalendarWriteError HttpResponse.t)
  (post_json : string → string → Json.Value → Op W GoogleCalendarWriteError HttpResponse.t)
  (fetch_access_token : OAuth.t → Op W AppError.t string).

(* src: crates/bos-integrations/src/google_calendar/live.rs:210-226 LiveGoogleCalendarClient::from_credentials *)
Definition from_credentials (creds : OAuth.t) : Op W GoogleCalendarWriteError string :=
  if lacks_calendar_scope creds then op_lift (Err scope_missing)
  else fun w =>
    let '(token, w) := fetch_access_token creds w in
    (match token with
     | Ok access_token => Ok access_token
     | Err err => Err (match AppError.retry err with
                       | Never => Permanent "google_calendar_token_failed" (AppError.fmt err)
                       | _ => Retryable "google_calendar_token_failed" (AppError.fmt err) None
                       end)
     end, w).

(** [429 | 500..=599], and a 403 that is a quota's. *)
(* src: crates/bos-integrations/src/google_calendar/live.rs:400-411 write_event (retryable answers) *)
Definition try_again (response : HttpResponse.t) : bool :=
  (HttpResponse.status response =? 429)%N || is_server_error (HttpResponse.status response)
  || ((HttpResponse.status response =? 403)%N && has_retryable_quota_reason (HttpResponse.body response)).
Definition unavailable (code : string) (response : HttpResponse.t) : GoogleCalendarWriteError :=
  Retryable code (calendar_status_message (HttpResponse.status response) (HttpResponse.body response))
    (HttpResponse.retry_after_ms response).

(* src: crates/bos-integrations/src/google_calendar/live.rs:240-296 LiveGoogleCalendarClient::list_writable_calendars (answer) *)
Definition listed_calendars (response : HttpResponse.t) : Result GoogleCalendarWriteError (list ListEntry.t) :=
  let status := HttpResponse.status response in
  if (status =? 200)%N then
    Ok (default [] (omap (M:=list) writable_entry <$> (items ← Json.get "items" (HttpResponse.body response); Json.as_array items)))
  else if try_again response then Err (unavailable "google_calendar_rate_or_server" response)
  else if (status =? 401)%N || (status =? 403)%N then
    Err (Permanent "google_calendar_auth_failed" (calendar_status_message status (HttpResponse.body response)))
  else Err (Permanent "google_calendar_list_rejected"
              ("status " +:+ fmt_dec status +:+ ": " +:+ body_text (HttpResponse.body response))).

(* src: crates/bos-integrations/src/google_calendar/live.rs:234-297 LiveGoogleCalendarClient::list_writable_calendars *)
Definition list_writable_calendars (access_token : string) : Op W GoogleCalendarWriteError (list ListEntry.t) :=
  let? response := get_json ("https://www.googleapis.com/calendar/v3/users/me/calendarList"
    +:+ "?showHidden=true&maxResults=250&fields=items(id,summary,primary,accessRole)") access_token in
  op_lift (listed_calendars response).

(** [format!("{CALENDAR_EVENTS_URL_BASE}/{calendar_id}/events?sendUpdates={send_updates}")]. *)
(* src: crates/bos-integrations/src/google_calendar/live.rs:353-360 write_event (url) *)
Definition events_url (calendar_id : string) (send_invitations : bool) : string :=
  "https://www.googleapis.com/calendar/v3/calendars/" +:+ encode calendar_id +:+ "/events?sendUpdates="
  +:+ if send_invitations then "all" else "none".

(** The id an event gets: the request's own, else the one derived from its key. *)
(* src: crates/bos-integrations/src/google_calendar/live.rs:349-352 write_event (event_id) *)
Definition target_event_id (request : WriteRequest.t) : string :=
  default (derive_event_id sha256 (WriteRequest.idempotency_key request)) (WriteRequest.event_id request).

(* src: crates/bos-integrations/src/google_calendar/live.rs:362-416 LiveGoogleCalendarClient::write_event (answer) *)
Definition write_answer (request : WriteRequest.t) (response : HttpResponse.t)
    : Result GoogleCalendarWriteError WriteResponse.t :=
  let status := HttpResponse.status response in
  let written reason event_id etag :=
    WriteResponse.mk (status_executed reason) (WriteRequest.calendar_id request) event_id etag None (WriteRequest.approval request) in
  if is_success status then
    returned_id ← ok_or (id ← Json.get "id" (HttpResponse.body response); Json.as_str id)
      (Permanent "google_calendar_missing_event_id" "events.insert response missing id");
    Ok (written "event_created" returned_id (default "" (etag ← Json.get "etag" (HttpResponse.body response); Json.as_str etag)))
  else if (status =? 409)%N then Ok (written "already_exists" (target_event_id request) "")
  else if try_again response then Err (unavailable "google_calendar_event_create_unavailable" response)
  else Err (Permanent "google_calendar_event_create_failed"
              ("google calendar rejected the event (status " +:+ fmt_dec status +:+ ")")).

(* src: crates/bos-integrations/src/google_calendar/live.rs:325-417 LiveGoogleCalendarClient::write_event *)
Definition live_write_event (access_token : string) (request : WriteRequest.t) : Op W GoogleCalendarWriteError WriteResponse.t :=
  op_lift (validate_calendar_write_request request) ;;?
  op_lift (guard_err (is_update request)
             (Permanent "google_calendar_operation_not_enabled" "only event create is enabled in this slice")) ;;?
  op_lift (validate_write_approval request) ;;?
  let? response := post_json (events_url (WriteRequest.calendar_id request) (WriteRequest.send_invitations request)) access_token
                     (build_body request (target_event_id request)) in
  op_lift (write_answer request response).

(* src: crates/bos-integrations/src/google_calendar/live.rs:437-466 google_calendar_execution_client *)
Definition google_calendar_execution_client (config : GoogleCalendarWriteConfig) (w : W) : ExecutionClient * W :=
  if negb (write_enabled config) then (DryRunGoogleCalendarClient, w)
  else if lacks_calendar_scope (oauth config) then (FailedGoogleCalendarClient scope_missing, w)
  else match from_credentials (oauth config) w with
       | (Ok access_token, w) => (LiveGoogleCalendarClient access_token, w)
       | (Err err, w) => (FailedGoogleCalendarClient err, w)
       end.

(* src: crates/bos-integrations/src/google_calendar/live.rs:424-431 FailedGoogleCalendarClient::write_event *)
Definition write_event (client : ExecutionClient) (request : WriteRequest.t) : Op W GoogleCalendarWriteError WriteResponse.t :=
  match client with
  | DryRunGoogleCalendarClient => op_lift (dry_run_write_event request)
  | FailedGoogleCalendarClient error => op_lift (Err error)
  | LiveGoogleCalendarClient access_token => live_write_event access_token request
  end.
End client.

(** ** The outbox adapter ([events.rs]) *)

Module EventContext.
(* src: crates/bos-integrations/src/google_calendar/events.rs:53-61 GoogleCalendarEventCreateExecutionContext *)
Record t := mk {
  provider : string;
  capability : string;
  job_id : string;
  idempotency_key : string;
  approval_receipt_id : option string;
  now_epoch_ms : Z;
}.
End EventContext.

Module EventReceipt.
(* src: crates/bos-integrations/src/google_calendar/events.rs:63-74 GoogleCalendarEventCreateAdapterReceipt *)
Record t := mk {
  provider_object_id : option string;
  provider_status : string;
  normalized_status : string;
  retryable : bool;
  provider_error_code : option string;
  provider_request_id : option string;
  raw_response_json : string;
  sanitized_metadata_json : string;
  retry_after_ms : option Z;
}.
End EventReceipt.

(* src: crates/bos-integrations/src/google_calendar/events.rs:76-81 GoogleCalendarEventCreateAdapterResult *)
Inductive AdapterResult :=
| Success (receipt : EventReceipt.t)
| RetryableFailure (receipt : EventReceipt.t)
| TerminalFailure (receipt : EventReceipt.t).

Section adapter.
Context (value_text : Json.Value → string) (parse_payload : string → Result string Payload.t).

Definition context_fields (context : EventContext.t) : list (string * Json.Value) :=
  [("provider", Json.Str (EventContext.provider context)); ("capability", Json.Str (EventContext.capability context));
   ("job_id", Json.Str (EventContext.job_id context)); ("idempotency_key", Json.Str (EventContext.idempotency_key context));
   ("approval_receipt_id", Json.of_option Json.Str (EventContext.approval_receipt_id context))]%string.
Definition error_json (code message : string) : string :=
  value_text (Json.Obj [("code"%string, Json.Str code); ("message"%string, Json.Str message)]).

(* src: crates/bos-integrations/src/google_calendar/events.rs:202-235 calendar_event_retryable_receipt *)
Definition calendar_event_retryable_receipt (context : EventContext.t) (code message : string) (retry_after_ms : option Z)
    : AdapterResult :=
  let retry_after_ms := match retry_after_ms with Some ms => Some ms | None => Some 30000%Z end in
  RetryableFailure (EventReceipt.mk None "provider_retryable_failure" "retry_scheduled" true (Some code) None (error_json code message)
    (value_text (Json.Obj (context_fields context ++
       [("status"%string, Json.Str "retryable_failure"); ("retry_after_ms"%string, Json.of_option Json.Int retry_after_ms)])))
    retry_after_ms).

(* src: crates/bos-integrations/src/google_calendar/events.rs:237-271 calendar_event_terminal_receipt *)
Definition calendar_event_terminal_receipt (context : EventContext.t) (code message : string) (extra_metadata : option Json.Value)
    : AdapterResult :=
  TerminalFailure (EventReceipt.mk None "failed_provider_validation" "failed_terminal" false (Some code) None (error_json code message)
    (value_text (Json.Obj (context_fields context ++ [("status"%string, Json.Str "terminal_failure")]
       ++ match extra_metadata with Some extra => [("provider_context"%string, extra)] | None => [] end))) None).

Definition provider_state_json (state : ProviderState.t) : Json.Value :=
  Json.Obj [("provider_id", Json.Str (ProviderState.provider_id state)); ("calendar_id", Json.Str (ProviderState.calendar_id state));
            ("event_id", Json.of_option Json.Str (ProviderState.event_id state));
            ("current_etag", Json.of_option Json.Str (ProviderState.current_etag state));
            ("degraded", Json.Bool (ProviderState.degraded state)); ("reason", Json.Str (ProviderState.reason state))]%string.

(** The metadata of a success: what the worker reads of it, and the rest. *)
(* src: crates/bos-integrations/src/google_calendar/events.rs:133-150 GoogleCalendarEventCreateProviderOutboxAdapter::execute (metadata) *)
Definition success_metadata (context : EventContext.t) (request : WriteRequest.t) (response : WriteResponse.t) : Json.Value :=
  Json.Obj (context_fields context ++
    [("calendar_id", Json.Str (WriteResponse.calendar_id response)); ("event_id", Json.Str (WriteResponse.event_id response));
     ("etag", Json.Str (WriteResponse.etag response));
     ("revision", Json.of_option (fun n => Json.Int (Z.of_N n)) (WriteResponse.revision response));
     ("approval_id", Json.Str (payment_approval_id (WriteResponse.approval response)));
     ("dry_run", Json.Bool (dry_run (WriteResponse.status response)));
     ("degraded", Json.Bool (degraded (WriteResponse.status response)));
     ("execution_reason", Json.of_option Json.Str (reason (WriteResponse.status response)));
     ("attendee_count", Json.Int (Z.of_nat (length (WriteRequest.attendees request))));
     ("send_invitations", Json.Bool (WriteRequest.send_invitations request))]%string).

(* src: crates/bos-integrations/src/google_calendar/events.rs:131-198 GoogleCalendarEventCreateProviderOutboxAdapter::execute (answer) *)
Definition adapter_result (context : EventContext.t) (request : WriteRequest.t)
    (result : Result GoogleCalendarWriteError WriteResponse.t) : AdapterResult :=
  match result with
  | Ok response =>
    let metadata := value_text (success_metadata context request response) in
    Success (EventReceipt.mk (Some (WriteResponse.event_id response)) "event_created" "succeeded" false None None metadata metadata None)
  | Err (Retryable code message retry_after_ms) => calendar_event_retryable_receipt context code message retry_after_ms
  | Err (Permanent code message) => calendar_event_terminal_receipt context code message None
  | Err (Conflict code message provider_state) =>
    calendar_event_terminal_receipt context code message
      (Some (Json.Obj [("provider_state"%string, provider_state_json provider_state)]))
  end.

(** [write] is the adapter's client. *)
(* src: crates/bos-integrations/src/google_calendar/events.rs:97-199 GoogleCalendarEventCreateProviderOutboxAdapter::execute *)
Definition execute {W} (write : WriteRequest.t → Op W GoogleCalendarWriteError WriteResponse.t) (context : EventContext.t)
    (payload_json : string) (w : W) : AdapterResult * W :=
  if negb (string_eqb (EventContext.provider context) "google_calendar")
     || negb (string_eqb (EventContext.capability context) "create_event")
  then (calendar_event_terminal_receipt context "google_calendar_create_event_outbox_operation_mismatch"
          "google calendar create event adapter received unsupported job" None, w)
  else match parse_payload payload_json with
       | Err error => (calendar_event_terminal_receipt context "google_calendar_create_event_outbox_payload_invalid"
                         ("google calendar create event payload invalid: " +:+ error) None, w)
       | Ok payload =>
         let request := create_request payload in
         let '(result, w) := write request w in
         (adapter_result context request result, w)
       end.
End adapter.
End GoogleCalendar.

Import GoogleCalendar.

(** ** The list of attendees *)

(** What a list is like that the clients accept. *)
Record normal_attendees (l : list string) : Prop := {
  attendees_valid : Forall (fun a => valid_calendar_attendee a = true) l;
  attendees_distinct : NoDup (to_ascii_lowercase <$> l);
  attendees_few : (length l ≤ MAX_CALENDAR_ATTENDEES)%nat;
}.

(** The first of the addresses that differ in case only. *)
Fixpoint first_of_each (l : list string) : list string :=
  match l with
  | [] => []
  | a :: l => a :: filter (fun b => to_ascii_lowercase b ≠ to_ascii_lowercase a) (first_of_each l)
  end.

Lemma first_of_each_in x l : x ∈ first_of_each l → x ∈ l.
Proof.
  induction l as [|a l IH]; simpl; [done|]. rewrite !elem_of_cons, list_elem_of_filter. intros [->|[_ H]]; [by left|right; by apply IH].
Qed.

Lemma sublist_fmap {A B} (f : A → B) l k : l `sublist_of` k → f <$> l `sublist_of` f <$> k.
Proof. induction 1; simpl; by constructor. Qed.

Lemma first_of_each_distinct l : NoDup (to_ascii_lowercase <$> first_of_each l).
Proof.
  induction l as [|a l IH]; simpl; constructor.
  - rewrite list_elem_of_fmap. intros (b & Heq & [Hne _]%list_elem_of_filter). by apply Hne.
  - eapply sublist_NoDup; [exact IH|]. apply sublist_fmap, sublist_filter.
Qed.

Lemma filter_all {A} (P : A → Prop) `{!∀ x, Decision (P x)} (l : list A) : (∀ x, P x) → filter P l = l.
Proof. intros HP. induction l as [|x l IH]; [done|]. by rewrite filter_cons_True, IH. Qed.

(** The loop over the rest of a list, whatever was seen of it before. *)
Lemma normalize_from_spec seen acc l :
  normalize_from seen acc l =
  if forallb valid_calendar_attendee (trim <$> l)
  then Ok (acc ++ filter (fun b => to_ascii_lowercase b ∉ seen) (first_of_each (trim <$> l)))
  else Err "google_calendar_attendee_invalid"%string.
Proof.
  revert seen acc. induction l as [|raw l IH]; intros seen acc; simpl; [by rewrite app_nil_r|].
  destruct (valid_calendar_attendee (trim raw)); simpl; [|done].
  case_bool_decide as Hin; rewrite IH; destruct (forallb _ _); try done; f_equal.
  - rewrite filter_cons_False by (intros H; by apply H). f_equal. rewrite list_filter_filter. apply list_filter_iff. intros b. split; [|by intros [? _]].
    intros Hb. split; [done|]. intros Heq. by rewrite Heq in Hb.
  - rewrite filter_cons_True by done. rewrite <- (assoc_L (++)). simpl. do 2 f_equal. rewrite list_filter_filter. apply list_filter_iff.
    intros b. rewrite not_elem_of_union, not_elem_of_singleton. tauto.
Qed.

Lemma normalize_exact attendees :
  normalize_calendar_attendees attendees =
  if forallb valid_calendar_attendee (trim <$> attendees) then
    if (MAX_CALENDAR_ATTENDEES <? length (first_of_each (trim <$> attendees)))%nat
    then Err "google_calendar_attendee_limit_exceeded"%string else Ok (first_of_each (trim <$> attendees))
  else Err "google_calendar_attendee_invalid"%string.
Proof.
  unfold normalize_calendar_attendees. rewrite normalize_from_spec. destruct (forallb _ _); [|done].
  cbn [mbind Result_bind app]. rewrite filter_all; [done|]. set_solver.
Qed.

Lemma first_of_each_normal l : NoDup (to_ascii_lowercase <$> l) → first_of_each l = l.
Proof.
  induction l as [|a l IH]; simpl; [done|]. intros [Ha Hl]%NoDup_cons. rewrite (IH Hl). f_equal.
  clear IH Hl. induction l as [|b l IH]; [done|]. rewrite fmap_cons, not_elem_of_cons in Ha. destruct Ha as [Hb Hl].
  rewrite filter_cons_True by (intros H; by apply Hb). by rewrite IH.
Qed.

(** A valid address has no blanks, so trimming it changes nothing. *)
Lemma valid_trim a : valid_calendar_attendee a = true → trim a = a.
Proof.
  unfold valid_calendar_attendee. destruct (has_whitespace a) eqn:Hw; [by rewrite !orb_true_r|]. intros _. by apply trim_no_whitespace.
Qed.

Lemma normal_normalized l : normal_attendees l → normalize_calendar_attendees l = Ok l.
Proof.
  intros [Hv Hd Hl]. rewrite normalize_exact. assert (Ht : trim <$> l = l).
  { clear -Hv. induction Hv as [|a l Ha _ IH]; [done|]. rewrite fmap_cons, IH. by rewrite valid_trim. }
  rewrite Ht, first_of_each_normal by done. rewrite (proj2 (forallb_forall _ _)).
  - by rewrite (proj2 (Nat.ltb_ge _ _)).
  - intros a Ha%list_elem_of_In. by eapply Forall_forall in Hv.
Qed.

Lemma normalized_normal l r : normalize_calendar_attendees l = Ok r → normal_attendees r.
Proof.
  rewrite normalize_exact. destruct (forallb _ _) eqn:Hv; [|done]. destruct (Nat.ltb_spec MAX_CALENDAR_ATTENDEES (length (first_of_each (trim <$> l)))); [done|].
  intros [= <-]. split; [|apply first_of_each_distinct|done]. apply Forall_forall. intros a Ha%first_of_each_in.
  rewrite forallb_forall in Hv. by apply Hv, list_elem_of_In.
Qed.

(** An attendee list is accepted exactly if every address, without the blanks around
    it, has the form of one and no more than 25 of them differ in more than case; what is
    kept is the first of each, in order.  A malformed address is reported before a list
    that is too long.  An accepted list is accepted again as it is. *)
Theorem attendees_normal_form attendees :
  let addresses := trim <$> attendees in
  normalize_calendar_attendees attendees =
  (if forallb valid_calendar_attendee addresses then
     if (MAX_CALENDAR_ATTENDEES <? length (first_of_each addresses))%nat
     then Err "google_calendar_attendee_limit_exceeded"%string else Ok (first_of_each addresses)
   else Err "google_calendar_attendee_invalid"%string) ∧
  ∀ normalized, normalize_calendar_attendees attendees = Ok normalized → normalize_calendar_attendees normalized = Ok normalized.
Proof.
  split; [apply normalize_exact|]. intros normalized H%normalized_normal. by apply normal_normalized.
Qed.

(** *** Examples from the tests *)

Example ex_normalized : normalize_calendar_attendees [" Coach@example.test "; "coach@example.test"; "Guest@example.test"]%string
  = Ok ["Coach@example.test"; "Guest@example.test"]%string.
Proof. reflexivity. Qed.
Example ex_malformed : normalize_calendar_attendees ["not-an-email"]%string = Err "google_calendar_attendee_invalid"%string.
Proof. reflexivity. Qed.
Example ex_token : stable_token "Caldraft:ced_WI.1" = "caldraft-ced-wi-1".
Proof. reflexivity. Qed.

(** ** The id of an event *)

(** The number a character stands for, and the number an id spells. *)
Definition digit_value (c : ascii) : N :=
  if is_digit c then (byte_of c - 48)%N else (byte_of c - 87)%N.
Definition base32_value (s : string) : N :=
  fold_left (fun v c => v * 32 + digit_value c)%N (String.list_ascii_of_string s) 0%N.
Definition bytes_value (l : list N) : N := fold_left (fun v b => v * 256 + b)%N l 0%N.
(** [0-9a-v]. *)
Definition is_base32hex (c : ascii) : bool := ((is_digit c) || ((97 <=? byte_of c) && (byte_of c <=? 118)))%N.

Lemma base32_digit_value v : digit_value (base32_digit v) = (v mod 32)%N ∧ is_base32hex (base32_digit v) = true.
Proof.
  unfold base32_digit. change 31%N with (N.ones 5). rewrite N.land_ones. change (2 ^ 5)%N with 32%N.
  assert (Hr : (v mod 32 < 32)%N) by by apply N.mod_lt. generalize dependent (v mod 32)%N. intros r Hr.
  assert (Hall : forallb (fun i => (digit_value (default "0"%char (String.get i BASE32HEX)) =? N.of_nat i)%N
    && is_base32hex (default "0"%char (String.get i BASE32HEX))) (seq 0 32) = true) by reflexivity.
  rewrite forallb_forall in Hall. specialize (Hall (N.to_nat r)). rewrite N2Nat.id in Hall.
  destruct (andb_prop _ _ (Hall ltac:(apply in_seq; lia))) as [He%N.eqb_eq Hb]. by split.
Qed.

Lemma base32_value_push out c : base32_value (push out c) = (base32_value out * 32 + digit_value c)%N.
Proof. unfold base32_value, push. by rewrite list_ascii_app, fold_left_app. Qed.

Lemma length_push out c : String.length (push out c) = S (String.length out).
Proof. unfold push. rewrite <- !length_list_ascii, list_ascii_app, length_app. simpl. lia. Qed.

Lemma all_push p out c : all_bytes p (push out c) = all_bytes p out && p c.
Proof. unfold push. rewrite all_bytes_app. f_equal. unfold all_bytes. simpl. by rewrite andb_true_r. Qed.

(** What is left in the low bits continues what was written. *)
Definition spelled (buffer bits : N) (out : string) : N := (base32_value out * 2 ^ bits + buffer mod 2 ^ bits)%N.
Definition written (bits : N) (out : string) : N := (5 * N.of_nat (String.length out) + bits)%N.

Lemma take_five buffer bits : (5 <= bits)%N →
  (buffer mod 2 ^ bits = (N.shiftr buffer (bits - 5) mod 32) * 2 ^ (bits - 5) + buffer mod 2 ^ (bits - 5))%N.
Proof.
  intros Hb. rewrite N.shiftr_div_pow2. replace bits with ((bits - 5) + 5)%N at 1 by lia. rewrite N.pow_add_r.
  change (2 ^ 5)%N with 32%N. set (p := (2 ^ (bits - 5))%N). rewrite N.Div0.mod_mul_r. lia.
Qed.

Lemma drain_spec fuel buffer bits out bits' out' :
  (bits <= N.of_nat fuel)%N → all_bytes is_base32hex out = true → drain fuel buffer bits out = (bits', out') →
  (bits' < 5)%N ∧ spelled buffer bits' out' = spelled buffer bits out ∧ written bits' out' = written bits out ∧
  all_bytes is_base32hex out' = true.
Proof.
  revert bits out. induction fuel as [|fuel IH]; intros bits out Hf Hall; cbn [drain].
  - intros [= <- <-]. repeat split; [lia|done].
  - destruct (N.leb_spec 5 bits) as [Hb|Hb]; [|intros [= <- <-]; repeat split; [lia|done]].
    destruct (base32_digit_value (N.shiftr buffer (bits - 5))) as [Hv Hc]. intros Hd. apply IH in Hd as (Hlt & Hs & Hw & Ha); [|lia|].
    + split; [done|]. split; [|split; [|done]].
      * rewrite Hs. unfold spelled. rewrite base32_value_push, Hv, (take_five buffer bits Hb).
        replace (2 ^ bits)%N with (2 ^ (bits - 5) * 32)%N; [lia|]. change 32%N with (2 ^ 5)%N. rewrite <- N.pow_add_r. f_equal. lia.
      * rewrite Hw. unfold written. rewrite length_push. lia.
    + by rewrite all_push, Hall, Hc.
Qed.

(** A byte goes below the bits that are left. *)
Lemma next_byte buffer bits b : (bits < 5)%N → (b < 256)%N →
  (N.lor (N.shiftl buffer 8 mod 4294967296) b mod 2 ^ (bits + 8) = (buffer mod 2 ^ bits) * 256 + b)%N.
Proof.
  intros Hbits Hb. rewrite N.shiftl_mul_pow2. change 4294967296%N with (2 ^ 24 * 2 ^ 8)%N. rewrite N.Div0.mul_mod_distr_r.
  set (v := (buffer mod 2 ^ 24)%N).
  assert (Hz : N.land (v * 2 ^ 8) b = 0%N).
  { apply N.bits_inj. intros n. rewrite N.land_spec, N.bits_0. destruct (N.lt_ge_cases n 8).
    - by rewrite N.mul_pow2_bits_low.
    - rewrite <- (N.mod_small b (2 ^ 8)) by done. rewrite N.mod_pow2_bits_high by done. apply andb_false_r. }
  rewrite <- N.lxor_lor, <- N.add_nocarry_lxor by done. change (2 ^ 8)%N with 256%N. rewrite N.pow_add_r. change (2 ^ 8)%N with 256%N.
  rewrite (N.mul_comm (2 ^ bits)), N.Div0.mod_mul_r.
  rewrite (N.add_comm (v * 256) b), N.Div0.mod_add, N.div_add, (N.mod_small b), (N.div_small b), N.add_0_l by done. unfold v.
  assert (Hm : ((buffer mod 2 ^ 24) mod 2 ^ bits = buffer mod 2 ^ bits)%N).
  { replace 24%N with (bits + (24 - bits))%N at 1 by lia. rewrite N.pow_add_r, N.Div0.mod_mul_r. rewrite N.mul_comm, N.Div0.mod_add, N.Div0.mod_mod. done. }
  rewrite Hm. lia.
Qed.

Lemma encode_spec bytes : ∀ buffer bits out buffer' bits' out',
  (bits < 5)%N → Forall (fun b => b < 256)%N bytes → all_bytes is_base32hex out = true →
  encode_from buffer bits bytes out = (buffer', bits', out') →
  (bits' < 5)%N ∧ all_bytes is_base32hex out' = true ∧
  written bits' out' = (written bits out + 8 * N.of_nat (length bytes))%N ∧
  spelled buffer' bits' out' = fold_left (fun v b => v * 256 + b)%N bytes (spelled buffer bits out).
Proof.
  induction bytes as [|b bytes IH]; intros buffer bits out buffer' bits' out' Hbits Hbytes Hall; cbn [encode_from].
  - intros [= <- <- <-]. repeat split; [done|done|simpl; lia].
  - apply Forall_cons in Hbytes as [Hb Hbytes]. destruct (drain _ _ _ _) as [bits1 out1] eqn:Hd. apply drain_spec in Hd as (Hlt & Hs & Hw & Ha); [|lia|done].
    intros He. apply IH in He as (Hl & Hall' & Hw' & Hs'); [|done..]. split; [done|]. split; [done|]. split.
    + rewrite Hw', Hw. unfold written. simpl length. lia.
    + rewrite Hs', Hs. simpl. f_equal. unfold spelled at 1. rewrite next_byte by done. unfold spelled. rewrite N.pow_add_r. change (2 ^ 8)%N with 256%N. lia.
Qed.

Lemma bytes_value_inj l k : length l = length k → Forall (fun b => b < 256)%N l → Forall (fun b => b < 256)%N k →
  bytes_value l = bytes_value k → l = k.
Proof.
  unfold bytes_value. revert k. induction l as [|b l IH] using rev_ind; intros k Hlen Hl Hk; [by destruct k|].
  destruct k as [|c k _] using rev_ind; [rewrite length_app in Hlen; simpl in Hlen; lia|].
  rewrite !length_app in Hlen. simpl in Hlen. apply Forall_app in Hl as [Hl Hb], Hk as [Hk Hc].
  rewrite Forall_singleton in Hb, Hc.
  rewrite !fold_left_app. cbn [fold_left]. intros Hv.
  assert (b = c) as -> by lia.
  f_equal. apply IH; [lia|done|done|lia].
Qed.

Section ids.
Context (sha256 : string → list N).
(** A digest is 32 bytes. *)
Context (digest_bytes : ∀ key, length (sha256 key) = 32 ∧ Forall (fun b => b < 256)%N (sha256 key)).

Lemma digest_prefix key : length (take 20 (sha256 key)) = 20 ∧ Forall (fun b => b < 256)%N (take 20 (sha256 key)).
Proof using digest_bytes. destruct (digest_bytes key) as [Hl Hb]. split; [rewrite length_take; lia|by apply Forall_take]. Qed.

Lemma derived_spec key :
  let id := derive_event_id sha256 key in
  String.length id = 32 ∧ all_bytes is_base32hex id = true ∧ base32_value id = bytes_value (take 20 (sha256 key)).
Proof using digest_bytes.
  destruct (digest_prefix key) as [Hl Hb]. unfold derive_event_id. destruct (encode_from _ _ _ _) as [[buffer bits] out] eqn:He.
  apply encode_spec in He as (Hlt & Ha & Hw & Hs); [|done..]. unfold written in Hw. rewrite Hl in Hw. simpl in Hw.
  assert (bits = 0%N ∧ String.length out = 32) as [-> Hlen] by lia. simpl. split; [done|]. split; [done|].
  unfold spelled in Hs. change (2 ^ 0)%N with 1%N in Hs. rewrite !N.mod_1_r in Hs. change (base32_value "" * 1 + 0)%N with 0%N in Hs.
  unfold bytes_value. rewrite <- Hs. lia.
Qed.

(** C36: The id an event gets is 32 characters of [0-9a-v], as the provider asks, and spells
    in base 32 the first 20 bytes of the digest of the idempotency key: two keys get one id
    exactly if their digests begin alike. *)
Theorem event_id_spells_digest key :
  let id := derive_event_id sha256 key in
  String.length id = 32 ∧ all_bytes is_base32hex id = true ∧ base32_value id = bytes_value (take 20 (sha256 key)) ∧
  ∀ other, derive_event_id sha256 other = id ↔ take 20 (sha256 other) = take 20 (sha256 key).
Proof using digest_bytes.
  destruct (derived_spec key) as (Hl & Ha & Hv). cbv zeta. repeat (split; [done|]). intros other. split.
  - intros Heq. destruct (derived_spec other) as (_ & _ & Hv'). rewrite Heq in Hv'. destruct (digest_prefix key), (digest_prefix other).
    apply bytes_value_inj; [congruence|done|done|congruence].
  - intros Heq. unfold derive_event_id. by rewrite Heq.
Qed.
End ids.

(** ** Small instances *)

(** The text itself, padded to 32 bytes. *)
Definition demo_digest (key : string) : list N :=
  take 32 ((byte_of <$> String.list_ascii_of_string key) ++ replicate 32 0%N).

Lemma demo_digest_bytes key : length (demo_digest key) = 32 ∧ Forall (fun b => b < 256)%N (demo_digest key).
Proof.
  unfold demo_digest. split; [rewrite length_take, length_app, length_replicate; lia|]. apply Forall_take, Forall_app. split.
  - apply Forall_fmap, Forall_forall. intros a _. unfold compose, byte_of. apply N_ascii_bounded.
  - by apply Forall_replicate.
Qed.

Lemma event_id_spells_digest_witness :
  base32_value (derive_event_id demo_digest "caldraft:1") = bytes_value (take 20 (demo_digest "caldraft:1")) ∧
  derive_event_id demo_digest "caldraft:1" = "cdgmop3ic5j78ehh0000000000000000"%string ∧
  derive_event_id demo_digest "caldraft:2" ≠ derive_event_id demo_digest "caldraft:1".
Proof.
  destruct (event_id_spells_digest demo_digest demo_digest_bytes "caldraft:1") as (_ & _ & Hv & Hi).
  split; [exact Hv|]. split; [vm_compute; reflexivity|]. intros H%Hi. vm_compute in H. discriminate H.
Defined.

Lemma attendees_normal_form_witness :
  normalize_calendar_attendees ["Coach@example.test"; "Guest@example.test"]%string = Ok ["Coach@example.test"; "Guest@example.test"]%string.
Proof.
  apply (attendees_normal_form [" Coach@example.test "; "coach@example.test"; "Guest@example.test"]%string). reflexivity.
Defined.
