(* ===== verification/AccountingStore.v ===== *)
(** * The accounting store ([bos-app/src/slices/accounting/store.rs])

    One credential per client, a cursor per walked entity, and five caches of what
    the provider said.  A record is written when the hash of its contents differs
    from the cached one's, as a mutation whose idempotency key is made of the
    record's id and that hash; a cursor is written when it differs, under a key made
    of its contents.

    [sha256_hex] and [value_text] - serde's text of a value, whose objects are in the
    order of their keys - are parameters.  A customer's tier source is kept as
    itself instead of as its text.  [Host] is the database with the one static of
    the slice, the set of clients whose grant was rejected. *)

From S2P Require Import Prelude RustStd RustStr StoreCore AppOutbox AccountingRecords Schema Operators WorkItems Calendar Json.
Import Spine.

Class AccountingTexts := {
  sha256_hex : string → string;
  value_text : Json.Value → string;
}.

Definition CREDENTIAL_ENTITY_KIND : string := "qbo_credential".
Definition CURSOR_ENTITY_KIND : string := "accounting_sync_cursor".
Definition INVOICE_ENTITY_KIND : string := "accounting_invoice_snapshot".
Definition BILL_ENTITY_KIND : string := "accounting_bill_snapshot".
Definition CUSTOMER_ENTITY_KIND : string := "accounting_customer_snapshot".
Definition BALANCE_SHEET_ENTITY_KIND : string := "accounting_balance_sheet_snapshot".
Definition PNL_ENTITY_KIND : string := "accounting_pnl_snapshot".
Definition SYNC_ACTOR : string := "accounting_sync_pump".
Definition ENTITY_INVOICE : string := "invoice".
Definition ENTITY_BILL : string := "bill".
Definition ENTITY_CUSTOMER : string := "customer".

(** ** What is read back *)

Module StoredQboCredential.
(* src: crates/bos-app/src/slices/accounting/store.rs:57-70 StoredQboCredential *)
Record t := mk {
  realm_id : string;
  environment : string;
  refresh_token : string;
  refresh_token_expires_at_ms : N;
  access_token : option string;
  access_token_expires_at_ms : N;
  connected_by_user_id : string;
  connected_at_ms : N;
  reconnect_required : bool;
  connection_error_code : option string;
  connection_error_at_ms : option N;
}.
End StoredQboCredential.

Module QboSyncCursor.
(* src: crates/bos-app/src/slices/accounting/store.rs:378-390 QboSyncCursor *)
Record t := mk {
  high_water_updated_at : option string;
  walk_since : option string;
  walk_max_updated_at : option string;
  next_start_position : N;
  backfill_complete : bool;
  rate_limited_until_ms : N;
  last_error : option string;
  last_advanced_at_ms : option N;
}.

#[global] Instance eq_dec : EqDecision t.
Proof. solve_decision. Defined.

(* src: crates/bos-app/src/slices/accounting/store.rs:393-398 QboSyncCursor::initial *)
Definition initial : t := mk None None None 1 false 0 None None.
End QboSyncCursor.

(* src: crates/bos-app/src/slices/accounting/store.rs:517-521 UpsertSummary *)
Record UpsertSummary := {
  written : N;
  unchanged : N;
}.
Definition nothing_upserted : UpsertSummary := Build_UpsertSummary 0 0.

(** [UpsertSummary]'s counters after one record. *)
Definition count_upsert (summary : UpsertSummary) (was_written : bool) : UpsertSummary :=
  if was_written then Build_UpsertSummary (written summary + 1) (unchanged summary)
  else Build_UpsertSummary (written summary) (unchanged summary + 1).

Module InvoiceSnapshotRow.
(* src: crates/bos-app/src/slices/accounting/store.rs:888-899 InvoiceSnapshotRow *)
Record t := mk {
  invoice_id : string;
  doc_number : option string;
  customer_name : option string;
  txn_date : option string;
  due_date : option string;
  total_amt_cents : Z;
  balance_cents : Z;
  voided : bool;
}.
End InvoiceSnapshotRow.

Module BillSnapshotRow.
(* src: crates/bos-app/src/slices/accounting/store.rs:901-911 BillSnapshotRow *)
Record t := mk {
  bill_id : string;
  vendor_name : option string;
  txn_date : option string;
  due_date : option string;
  total_amt_cents : Z;
  balance_cents : Z;
  voided : bool;
}.
End BillSnapshotRow.

Module CustomerSnapshotRow.
(* src: crates/bos-app/src/slices/accounting/store.rs:1013-1021 CustomerSnapshotRow *)
Record t := mk {
  customer_id : string;
  display_name : string;
  company_name : option string;
  email : option string;
  tier : option string;
  active : bool;
}.
End CustomerSnapshotRow.

(* src: crates/bos-app/src/slices/accounting/store.rs:972-982 InvoiceBalanceMatch *)
Record InvoiceBalanceMatch := {
  match_invoice_id : string;
  match_customer_id : option string;
  match_customer_name : option string;
  match_doc_number : option string;
  match_customer_active : option bool;
}.

(** ** The database and the latch *)

Record Host := mk_host {
  host_db : AppDb;
  reconnect_latch : gset string;
}.
Abbreviation HostOp := (Op Host StoreError.t).

Definition on_db {A} (m : AppOp A) : HostOp A :=
  fun h => let (r, db) := m (host_db h) in (r, mk_host db (reconnect_latch h)).

(* src: crates/bos-app/src/slices/accounting/store.rs:45-47 latch_reconnect_required *)
Definition latch_reconnect_required (client_id : string) : HostOp unit :=
  fun h => (Ok tt, mk_host (host_db h) ({[client_id]} ∪ reconnect_latch h)).

(* src: crates/bos-app/src/slices/accounting/store.rs:49-51 reconnect_latched *)
Definition reconnect_latched (client_id : string) : HostOp bool :=
  fun h => (Ok (bool_decide (client_id ∈ reconnect_latch h)), h).

(* src: crates/bos-app/src/slices/accounting/store.rs:53-55 clear_reconnect_latch *)
Definition clear_reconnect_latch (client_id : string) : HostOp unit :=
  fun h => (Ok tt, mk_host (host_db h) (reconnect_latch h ∖ {[client_id]})).

(** ** Hashes *)

Definition bit_text (b : bool) : string := if b then "1" else "0".
Definition unit_separator : string := String (ascii_of_N 31) EmptyString.

Section hashes.
Context `{AccountingTexts}.

(* src: crates/bos-app/src/slices/accounting/store.rs:523-535 snapshot_hash *)
Definition snapshot_hash (parts : list string) : string :=
  sha256_hex (foldr (fun part rest => part +:+ unit_separator +:+ rest) EmptyString parts).

(* src: crates/bos-app/src/slices/accounting/store.rs:537-548 invoice_hash *)
Definition invoice_hash (r : InvoiceRecord.t) : string :=
  snapshot_hash [default "" (InvoiceRecord.doc_number r); default "" (InvoiceRecord.customer_id r);
    default "" (InvoiceRecord.customer_name r); default "" (InvoiceRecord.txn_date r);
    default "" (InvoiceRecord.due_date r); fmt_int (InvoiceRecord.total_amt_cents r);
    fmt_int (InvoiceRecord.balance_cents r); bit_text (InvoiceRecord.voided r)].

(* src: crates/bos-app/src/slices/accounting/store.rs:550-560 bill_hash *)
Definition bill_hash (r : BillRecord.t) : string :=
  snapshot_hash [default "" (BillRecord.vendor_id r); default "" (BillRecord.vendor_name r);
    default "" (BillRecord.txn_date r); default "" (BillRecord.due_date r);
    fmt_int (BillRecord.total_amt_cents r); fmt_int (BillRecord.balance_cents r); bit_text (BillRecord.voided r)].

(* src: crates/bos-app/src/slices/accounting/store.rs:562-572 customer_hash *)
Definition customer_hash (r : CustomerRecord.t) : string :=
  snapshot_hash [CustomerRecord.display_name r; default "" (CustomerRecord.company_name r);
    default "" (CustomerRecord.email r); default "" (CustomerRecord.phone r); bit_text (CustomerRecord.active r);
    default "" (CustomerRecord.tier_raw r); tier_source_str (CustomerRecord.tier_source r)].

Definition pnl_hash (r : PnlSnapshotRow.t) : string :=
  snapshot_hash [PnlSnapshotRow.period_end r; fmt_int (PnlSnapshotRow.total_income_cents r);
    fmt_int (PnlSnapshotRow.total_cogs_cents r); fmt_int (PnlSnapshotRow.gross_profit_cents r);
    bit_text (PnlSnapshotRow.is_complete r)].

Definition balance_sheet_hash (r : BalanceSheetSnapshotRow.t) : string :=
  snapshot_hash [BalanceSheetSnapshotRow.as_of_date r; fmt_int (BalanceSheetSnapshotRow.cash_on_hand_cents r)].

Definition cursor_hash (c : QboSyncCursor.t) : string :=
  snapshot_hash [default "" (QboSyncCursor.high_water_updated_at c); default "" (QboSyncCursor.walk_since c);
    default "" (QboSyncCursor.walk_max_updated_at c); fmt_dec (QboSyncCursor.next_start_position c);
    bit_text (QboSyncCursor.backfill_complete c); fmt_dec (QboSyncCursor.rate_limited_until_ms c);
    default "" (QboSyncCursor.last_error c)].
End hashes.

(** ** A cache table

    What the upserts of the five caches have in common: where the records are kept
    and under which key, the hash, and the request of the mutation. *)

Class CacheTable (R K : Type) `{Countable K} := {
  cache_rows : AccountingTables → gmap (string * K) (Cached R);
  set_cache_rows : AccountingTables → gmap (string * K) (Cached R) → AccountingTables;
  record_key : R → K;
  record_hash : R → string;
  record_entity_kind : string;
  record_entity_id : R → string;
  (** The idempotency key up to the hash. *)
  record_key_prefix : R → string;
  record_after : R → Json.Value;
}.

Definition update_accounting (f : AccountingTables → AccountingTables) : AppOp unit :=
  update_tables (fun t => set_accounting t (f (accounting t))).
Definition read_accounting {A} (f : AccountingTables → A) : AppOp A := read_tables (fun t => f (accounting t)).

(** Every mutation of the slice is without an expected revision. *)
Definition accounting_request (client_id entity_kind entity_id change_kind actor_id : string) (actor_kind : ActorKindDto)
    (idempotency_key after_json : string) (now_ms : N) : MutationRequest.t := {|
  MutationRequest.client_id := client_id;
  MutationRequest.entity_kind := entity_kind;
  MutationRequest.entity_id := entity_id;
  MutationRequest.change_kind := change_kind;
  MutationRequest.actor_id := actor_id;
  MutationRequest.actor_kind := actor_kind;
  MutationRequest.expected_revision := None;
  MutationRequest.idempotency_key := idempotency_key;
  MutationRequest.correlation_id := None;
  MutationRequest.causation_id := None;
  MutationRequest.before_json := None;
  MutationRequest.after_json := Some after_json;
  MutationRequest.now_ms := now_ms;
|}.

Section store.
Context (constraint_failed : string) `{AccountingTexts}.

Definition option_str (o : option string) : Json.Value := Json.of_option Json.Str o.

(** The cache tables; an update replaces every column but [first_seen_at_ms]. *)
#[local] Instance InvoiceCache : CacheTable InvoiceRecord.t string := {|
  cache_rows := accounting_invoice_snapshots;
  set_cache_rows := set_invoice_snapshots;
  record_key := InvoiceRecord.invoice_id;
  record_hash := invoice_hash;
  record_entity_kind := INVOICE_ENTITY_KIND;
  record_entity_id := InvoiceRecord.invoice_id;
  record_key_prefix := fun r => "accounting_sync:invoice:" +:+ InvoiceRecord.invoice_id r +:+ ":";
  record_after := fun r => Json.Obj [("balance_cents", Json.Int (InvoiceRecord.balance_cents r));
    ("customer_name", option_str (InvoiceRecord.customer_name r)); ("doc_number", option_str (InvoiceRecord.doc_number r));
    ("due_date", option_str (InvoiceRecord.due_date r)); ("total_amt_cents", Json.Int (InvoiceRecord.total_amt_cents r));
    ("txn_date", option_str (InvoiceRecord.txn_date r)); ("voided", Json.Bool (InvoiceRecord.voided r))]%string;
|}.

#[local] Instance BillCache : CacheTable BillRecord.t string := {|
  cache_rows := accounting_bill_snapshots;
  set_cache_rows := set_bill_snapshots;
  record_key := BillRecord.bill_id;
  record_hash := bill_hash;
  record_entity_kind := BILL_ENTITY_KIND;
  record_entity_id := BillRecord.bill_id;
  record_key_prefix := fun r => "accounting_sync:bill:" +:+ BillRecord.bill_id r +:+ ":";
  record_after := fun r => Json.Obj [("balance_cents", Json.Int (BillRecord.balance_cents r));
    ("due_date", option_str (BillRecord.due_date r)); ("total_amt_cents", Json.Int (BillRecord.total_amt_cents r));
    ("txn_date", option_str (BillRecord.txn_date r)); ("vendor_name", option_str (BillRecord.vendor_name r));
    ("voided", Json.Bool (BillRecord.voided r))]%string;
|}.

#[local] Instance CustomerCache : CacheTable CustomerRecord.t string := {|
  cache_rows := accounting_customer_snapshots;
  set_cache_rows := set_customer_snapshots;
  record_key := CustomerRecord.customer_id;
  record_hash := customer_hash;
  record_entity_kind := CUSTOMER_ENTITY_KIND;
  record_entity_id := CustomerRecord.customer_id;
  record_key_prefix := fun r => "accounting_sync:customer:" +:+ CustomerRecord.customer_id r +:+ ":";
  record_after := fun r => Json.Obj [("active", Json.Bool (CustomerRecord.active r));
    ("company_name", option_str (CustomerRecord.company_name r)); ("display_name", Json.Str (CustomerRecord.display_name r));
    ("email", option_str (CustomerRecord.email r)); ("tier", option_str (CustomerRecord.tier_raw r));
    ("tier_source", Json.Str (tier_source_str (CustomerRecord.tier_source r)))]%string;
|}.

Definition balance_sheet_entity (r : BalanceSheetSnapshotRow.t) : string :=
  "balance_sheet:" +:+ BalanceSheetSnapshotRow.as_of_date r.

#[local] Instance BalanceSheetCache : CacheTable BalanceSheetSnapshotRow.t string := {|
  cache_rows := accounting_balance_sheet_snapshots;
  set_cache_rows := set_balance_sheet_snapshots;
  record_key := BalanceSheetSnapshotRow.as_of_date;
  record_hash := balance_sheet_hash;
  record_entity_kind := BALANCE_SHEET_ENTITY_KIND;
  record_entity_id := balance_sheet_entity;
  record_key_prefix := fun r => "accounting_sync:" +:+ balance_sheet_entity r +:+ ":";
  record_after := fun r => Json.Obj [("as_of_date", Json.Str (BalanceSheetSnapshotRow.as_of_date r));
    ("cash_on_hand_cents", Json.Int (BalanceSheetSnapshotRow.cash_on_hand_cents r))]%string;
|}.

Definition pnl_entity (r : PnlSnapshotRow.t) : string :=
  PnlSnapshotRow.period_kind r +:+ ":" +:+ PnlSnapshotRow.period_start r.

#[local] Instance PnlCache : CacheTable PnlSnapshotRow.t (string * string) := {|
  cache_rows := accounting_pnl_snapshots;
  set_cache_rows := set_pnl_snapshots;
  record_key := fun r => (PnlSnapshotRow.period_kind r, PnlSnapshotRow.period_start r);
  record_hash := pnl_hash;
  record_entity_kind := PNL_ENTITY_KIND;
  record_entity_id := pnl_entity;
  record_key_prefix := fun r => "accounting_sync:pnl:" +:+ pnl_entity r +:+ ":";
  record_after := fun r => Json.Obj [("gross_profit_cents", Json.Int (PnlSnapshotRow.gross_profit_cents r));
    ("is_complete", Json.Bool (PnlSnapshotRow.is_complete r)); ("period_end", Json.Str (PnlSnapshotRow.period_end r));
    ("period_kind", Json.Str (PnlSnapshotRow.period_kind r)); ("period_start", Json.Str (PnlSnapshotRow.period_start r));
    ("total_cogs_cents", Json.Int (PnlSnapshotRow.total_cogs_cents r));
    ("total_income_cents", Json.Int (PnlSnapshotRow.total_income_cents r))]%string;
|}.

(** ** Upserts *)

Section upsert.
Context {R K : Type} `{CacheTable R K}.

Definition upsert_key (r : R) : string := record_key_prefix r +:+ record_hash r.

(** [INSERT .. ON CONFLICT .. DO UPDATE]. *)
Definition cache_record (client_id : string) (r : R) (first_seen now : Z) : AppOp unit :=
  update_accounting (fun t => set_cache_rows t
    (<[(client_id, record_key r) := mk_cached r (record_hash r) first_seen now]> (cache_rows t))).

(** Whether a mutation was made; its outcome is not looked at. *)
(* src: crates/bos-app/src/slices/accounting/store.rs:604-691 upsert_invoice_snapshots (a record) *)
Definition upsert_record (client_id : string) (r : R) (now_ms : N) : AppOp bool :=
  let? existing := read_accounting (fun t => cache_rows t !! (client_id, record_key r)) in
  if option_any (fun row => string_eqb (content_hash row) (record_hash r)) existing then op_ret false
  else
    let first_seen := default (u64_as_i64 now_ms) (first_seen_at_ms <$> existing) in
    mutate constraint_failed
      (accounting_request client_id record_entity_kind (record_entity_id r) "sync_upsert" SYNC_ACTOR System
         (upsert_key r) (value_text (record_after r)) now_ms)
      (cache_record client_id r first_seen (u64_as_i64 now_ms)) ;;?
    op_ret true.

Fixpoint upsert_records (client_id : string) (rs : list R) (now_ms : N) (summary : UpsertSummary) : AppOp UpsertSummary :=
  match rs with
  | [] => op_ret summary
  | r :: rs =>
    let? was_written := upsert_record client_id r now_ms in
    upsert_records client_id rs now_ms (count_upsert summary was_written)
  end.
End upsert.

(* src: crates/bos-app/src/slices/accounting/store.rs:597-694 upsert_invoice_snapshots *)
Definition upsert_invoice_snapshots (client_id : string) (rs : list InvoiceRecord.t) (now_ms : N) : AppOp UpsertSummary :=
  upsert_records client_id rs now_ms nothing_upserted.

(* src: crates/bos-app/src/slices/accounting/store.rs:696-790 upsert_bill_snapshots *)
Definition upsert_bill_snapshots (client_id : string) (rs : list BillRecord.t) (now_ms : N) : AppOp UpsertSummary :=
  upsert_records client_id rs now_ms nothing_upserted.

(* src: crates/bos-app/src/slices/accounting/store.rs:792-886 upsert_customer_snapshots *)
Definition upsert_customer_snapshots (client_id : string) (rs : list CustomerRecord.t) (now_ms : N) : AppOp UpsertSummary :=
  upsert_records client_id rs now_ms nothing_upserted.

(* src: crates/bos-app/src/slices/accounting/store.rs:1099-1171 upsert_balance_sheet_snapshot *)
Definition upsert_balance_sheet_snapshot (client_id as_of_date : string) (report : BalanceSheetSummary) (now_ms : N)
    : AppOp bool :=
  upsert_record client_id (BalanceSheetSnapshotRow.mk as_of_date (cash_on_hand report)) now_ms.

(* src: crates/bos-app/src/slices/accounting/store.rs:1239-1332 upsert_pnl_snapshot *)
Definition upsert_pnl_snapshot (client_id : string) (snapshot : PnlSnapshotRow.t) (now_ms : N) : AppOp bool :=
  upsert_record client_id snapshot now_ms.

(** ** The credential *)

(* src: crates/bos-app/src/slices/accounting/store.rs:72-103 get_credential *)
Definition get_credential (client_id : string) : AppOp (option StoredQboCredential.t) :=
  read_tables (fun t => (fun row => {|
    StoredQboCredential.realm_id := QboCredentialRow.realm_id row;
    StoredQboCredential.environment := QboCredentialRow.environment row;
    StoredQboCredential.refresh_token := QboCredentialRow.refresh_token row;
    StoredQboCredential.refresh_token_expires_at_ms := i64_as_u64 (QboCredentialRow.refresh_token_expires_at_ms row);
    StoredQboCredential.access_token := QboCredentialRow.access_token row;
    StoredQboCredential.access_token_expires_at_ms := i64_as_u64 (QboCredentialRow.access_token_expires_at_ms row);
    StoredQboCredential.connected_by_user_id := QboCredentialRow.connected_by_user_id row;
    StoredQboCredential.connected_at_ms := i64_as_u64 (QboCredentialRow.connected_at_ms row);
    StoredQboCredential.reconnect_required := QboCredentialRow.reconnect_required row;
    StoredQboCredential.connection_error_code := QboCredentialRow.connection_error_code row;
    StoredQboCredential.connection_error_at_ms := i64_as_u64 <$> QboCredentialRow.connection_error_at_ms row;
  |}) <$> qbo_credentials t !! client_id).

(** [DELETE FROM .. WHERE client_id = ?1]. *)
Definition other_clients {K V} `{Countable K} (client_id : string) (m : gmap (string * K) V) : gmap (string * K) V :=
  filter (fun kv => kv.1.1 ≠ client_id) m.

(* src: crates/bos-app/src/slices/accounting/store.rs:157-178 store_credential (another realm) *)
Definition wipe_other_realm (client_id : string) (t : AccountingTables) : AccountingTables := {|
  accounting_sync_cursors := other_clients client_id (accounting_sync_cursors t);
  accounting_invoice_snapshots := other_clients client_id (accounting_invoice_snapshots t);
  accounting_bill_snapshots := other_clients client_id (accounting_bill_snapshots t);
  accounting_customer_snapshots := other_clients client_id (accounting_customer_snapshots t);
  accounting_pnl_snapshots := accounting_pnl_snapshots t;
  accounting_balance_sheet_snapshots := other_clients client_id (accounting_balance_sheet_snapshots t);
|}.

Definition connected_row (realm_id environment : string) (grant : QboTokenGrant) (connected_by : string) (now_ms : N)
    (existing : option QboCredentialRow.t) : QboCredentialRow.t := {|
  QboCredentialRow.realm_id := realm_id;
  QboCredentialRow.environment := environment;
  QboCredentialRow.refresh_token := grant_refresh_token grant;
  QboCredentialRow.refresh_token_expires_at_ms := u64_as_i64 (grant_refresh_token_expires_at_ms grant);
  QboCredentialRow.access_token := Some (grant_access_token grant);
  QboCredentialRow.access_token_expires_at_ms := u64_as_i64 (grant_access_token_expires_at_ms grant);
  QboCredentialRow.connected_by_user_id := connected_by;
  QboCredentialRow.connected_at_ms := u64_as_i64 now_ms;
  QboCredentialRow.last_refreshed_at_ms := (row ← existing; QboCredentialRow.last_refreshed_at_ms row);
  QboCredentialRow.reconnect_required := false;
  QboCredentialRow.connection_error_code := None;
  QboCredentialRow.connection_error_at_ms := None;
|}.

(* src: crates/bos-app/src/slices/accounting/store.rs:155-209 store_credential (transaction) *)
Definition connect_write (client_id realm_id environment : string) (grant : QboTokenGrant) (connected_by : string)
    (realm_changed : bool) (now_ms : N) : AppOp unit :=
  (if realm_changed then update_accounting (wipe_other_realm client_id) else op_ret tt) ;;?
  update_tables (fun t => set_qbo_credentials t
    (partial_alter (fun existing => Some (connected_row realm_id environment grant connected_by now_ms existing))
       client_id (qbo_credentials t))).

Definition redacted : Json.Value := Json.Str "[redacted]".

(* src: crates/bos-app/src/slices/accounting/store.rs:108-213 store_credential *)
Definition store_credential (client_id realm_id environment : string) (grant : QboTokenGrant) (connected_by : string)
    (now_ms : N) : HostOp MutationOutcome.t :=
  let? current := on_db (get_credential client_id) in
  let realm_changed := option_any (fun c => negb (string_eqb (StoredQboCredential.realm_id c) realm_id)) current in
  let? outcome := on_db (mutate constraint_failed
    (accounting_request client_id CREDENTIAL_ENTITY_KIND "qbo" "connect" connected_by Operator
       ("qbo_connect:" +:+ realm_id +:+ ":" +:+ fmt_dec now_ms)
       (value_text (Json.Obj [("connected_by", Json.Str connected_by); ("environment", Json.Str environment);
          ("previous_realm_wiped", Json.Bool realm_changed); ("realm_id", Json.Str realm_id);
          ("refresh_token", redacted)]%string)) now_ms)
    (connect_write client_id realm_id environment grant connected_by realm_changed now_ms)) in
  clear_reconnect_latch client_id ;;?
  op_ret outcome.

Definition alter_credential (client_id : string) (f : QboCredentialRow.t → QboCredentialRow.t) : AppOp unit :=
  update_tables (fun t => set_qbo_credentials t (alter f client_id (qbo_credentials t))).

(* src: crates/bos-app/src/slices/accounting/store.rs:217-271 update_tokens_after_refresh *)
Definition update_tokens_after_refresh (client_id : string) (grant : QboTokenGrant) (now_ms : N)
    : HostOp MutationOutcome.t :=
  let? outcome := on_db (mutate constraint_failed
    (accounting_request client_id CREDENTIAL_ENTITY_KIND "qbo" "token_refresh" SYNC_ACTOR System
       ("qbo_token_refresh:" +:+ fmt_dec now_ms)
       (value_text (Json.Obj [("access_token", redacted); ("refresh_token", redacted);
          ("refresh_token_expires_at_ms", Json.Int (Z.of_N (grant_refresh_token_expires_at_ms grant)))]%string)) now_ms)
    (alter_credential client_id (fun row => QboCredentialRow.refresh row grant
       (u64_as_i64 (grant_refresh_token_expires_at_ms grant)) (u64_as_i64 (grant_access_token_expires_at_ms grant))
       (u64_as_i64 now_ms)))) in
  clear_reconnect_latch client_id ;;?
  op_ret outcome.

(* src: crates/bos-app/src/slices/accounting/store.rs:306-317 mark_reconnect_required (transaction) *)
Definition reject_write (client_id error_code : string) (now_ms : N) : AppOp unit :=
  let? row := read_tables (fun t => qbo_credentials t !! client_id) in
  match row with
  | None => op_lift (Err (StoreError.Domain "qbo credential missing"))
  | Some _ => alter_credential client_id (fun row => QboCredentialRow.require_reconnect row error_code (u64_as_i64 now_ms))
  end.

(* src: crates/bos-app/src/slices/accounting/store.rs:275-321 mark_reconnect_required *)
Definition mark_reconnect_required (client_id error_code : string) (now_ms : N) : HostOp MutationOutcome.t :=
  let? outcome := on_db (mutate constraint_failed
    (accounting_request client_id CREDENTIAL_ENTITY_KIND "qbo" "reconnect_required" SYNC_ACTOR System
       ("qbo_reconnect_required:" +:+ client_id)
       (value_text (Json.Obj [("connection_error_code", Json.Str error_code); ("reconnect_required", Json.Bool true)]%string))
       now_ms)
    (reject_write client_id error_code now_ms)) in
  latch_reconnect_required client_id ;;?
  op_ret outcome.

(* src: crates/bos-app/src/slices/accounting/store.rs:358-371 delete_credential (purge) *)
Definition purge_client (client_id : string) (t : AccountingTables) : AccountingTables := {|
  accounting_sync_cursors := other_clients client_id (accounting_sync_cursors t);
  accounting_invoice_snapshots := other_clients client_id (accounting_invoice_snapshots t);
  accounting_bill_snapshots := other_clients client_id (accounting_bill_snapshots t);
  accounting_customer_snapshots := other_clients client_id (accounting_customer_snapshots t);
  accounting_pnl_snapshots := other_clients client_id (accounting_pnl_snapshots t);
  accounting_balance_sheet_snapshots := other_clients client_id (accounting_balance_sheet_snapshots t);
|}.

(* src: crates/bos-app/src/slices/accounting/store.rs:326-376 delete_credential *)
Definition delete_credential (client_id actor_id : string) (purge : bool) (now_ms : N) : AppOp MutationOutcome.t :=
  mutate constraint_failed
    (accounting_request client_id CREDENTIAL_ENTITY_KIND "qbo" "disconnect" actor_id Operator
       ("qbo_disconnect:" +:+ fmt_dec now_ms) (value_text (Json.Obj [("purged"%string, Json.Bool purge)])) now_ms)
    (update_tables (fun t => set_qbo_credentials t (delete client_id (qbo_credentials t))) ;;?
     if purge then update_accounting (purge_client client_id) else op_ret tt).

(** ** Cursors *)

Definition cursor_from_row (row : SyncCursorRow.t) : QboSyncCursor.t := {|
  QboSyncCursor.high_water_updated_at := SyncCursorRow.high_water_updated_at row;
  QboSyncCursor.walk_since := SyncCursorRow.walk_since row;
  QboSyncCursor.walk_max_updated_at := SyncCursorRow.walk_max_updated_at row;
  QboSyncCursor.next_start_position := Z.to_N (SyncCursorRow.next_start_position row mod 4294967296);
  QboSyncCursor.backfill_complete := SyncCursorRow.backfill_complete row;
  QboSyncCursor.rate_limited_until_ms := i64_as_u64 (SyncCursorRow.rate_limited_until_ms row);
  QboSyncCursor.last_error := SyncCursorRow.last_error row;
  QboSyncCursor.last_advanced_at_ms := i64_as_u64 <$> SyncCursorRow.last_advanced_at_ms row;
|}.

(* src: crates/bos-app/src/slices/accounting/store.rs:401-428 get_cursor *)
Definition get_cursor (client_id entity : string) : AppOp QboSyncCursor.t :=
  read_accounting (fun t => default QboSyncCursor.initial (cursor_from_row <$> accounting_sync_cursors t !! (client_id, entity))).

Definition cursor_row (cursor : QboSyncCursor.t) (now_ms : N) : SyncCursorRow.t := {|
  SyncCursorRow.high_water_updated_at := QboSyncCursor.high_water_updated_at cursor;
  SyncCursorRow.walk_since := QboSyncCursor.walk_since cursor;
  SyncCursorRow.walk_max_updated_at := QboSyncCursor.walk_max_updated_at cursor;
  SyncCursorRow.next_start_position := Z.of_N (QboSyncCursor.next_start_position cursor);
  SyncCursorRow.backfill_complete := QboSyncCursor.backfill_complete cursor;
  SyncCursorRow.rate_limited_until_ms := u64_as_i64 (QboSyncCursor.rate_limited_until_ms cursor);
  SyncCursorRow.last_error := QboSyncCursor.last_error cursor;
  SyncCursorRow.last_advanced_at_ms := Some (u64_as_i64 now_ms);
|}.

Definition cursor_key (entity : string) (cursor : QboSyncCursor.t) : string :=
  "accounting_cursor:" +:+ entity +:+ ":" +:+ cursor_hash cursor.

(* src: crates/bos-app/src/slices/accounting/store.rs:432-515 put_cursor *)
Definition put_cursor (client_id entity : string) (cursor : QboSyncCursor.t) (now_ms : N) : AppOp bool :=
  let? current := get_cursor client_id entity in
  if bool_decide (current = cursor) then op_ret false
  else
    mutate constraint_failed
      (accounting_request client_id CURSOR_ENTITY_KIND entity "advance" SYNC_ACTOR System (cursor_key entity cursor)
         (value_text (Json.Obj [("backfill_complete", Json.Bool (QboSyncCursor.backfill_complete cursor));
            ("entity", Json.Str entity); ("high_water_updated_at", option_str (QboSyncCursor.high_water_updated_at cursor));
            ("last_error", option_str (QboSyncCursor.last_error cursor));
            ("next_start_position", Json.Int (Z.of_N (QboSyncCursor.next_start_position cursor)));
            ("rate_limited_until_ms", Json.Int (Z.of_N (QboSyncCursor.rate_limited_until_ms cursor)))]%string)) now_ms)
      (update_accounting (fun t => set_sync_cursors t
         (<[(client_id, entity) := cursor_row cursor now_ms]> (accounting_sync_cursors t)))) ;;?
    op_ret true.
End store.
#[export] Existing Instances InvoiceCache BillCache CustomerCache BalanceSheetCache PnlCache.

(** ** Queries *)

Section queries.
Context {R K : Type} `{Countable K}.

(** [WHERE client_id = ?1]. *)
Definition client_records (client_id : string) (m : gmap (string * K) (Cached R)) : list R :=
  cached_record <$> (snd <$> filter (fun kv => kv.1.1 = client_id) (map_to_list m)).
End queries.

(* src: crates/bos-app/src/slices/accounting/store.rs:913-940 list_bills *)
Definition list_bills (client_id : string) (limit : N) : AppOp (list BillSnapshotRow.t) :=
  read_accounting (fun t => (fun r => {|
    BillSnapshotRow.bill_id := BillRecord.bill_id r;
    BillSnapshotRow.vendor_name := BillRecord.vendor_name r;
    BillSnapshotRow.txn_date := BillRecord.txn_date r;
    BillSnapshotRow.due_date := BillRecord.due_date r;
    BillSnapshotRow.total_amt_cents := BillRecord.total_amt_cents r;
    BillSnapshotRow.balance_cents := BillRecord.balance_cents r;
    BillSnapshotRow.voided := BillRecord.voided r;
  |}) <$> sql_limit limit (sort_by_key (fun r => MkReverse (BillRecord.txn_date r, BillRecord.bill_id r))
            (client_records client_id (accounting_bill_snapshots t)))).

Definition invoice_snapshot (r : InvoiceRecord.t) : InvoiceSnapshotRow.t := {|
  InvoiceSnapshotRow.invoice_id := InvoiceRecord.invoice_id r;
  InvoiceSnapshotRow.doc_number := InvoiceRecord.doc_number r;
  InvoiceSnapshotRow.customer_name := InvoiceRecord.customer_name r;
  InvoiceSnapshotRow.txn_date := InvoiceRecord.txn_date r;
  InvoiceSnapshotRow.due_date := InvoiceRecord.due_date r;
  InvoiceSnapshotRow.total_amt_cents := InvoiceRecord.total_amt_cents r;
  InvoiceSnapshotRow.balance_cents := InvoiceRecord.balance_cents r;
  InvoiceSnapshotRow.voided := InvoiceRecord.voided r;
|}.

(* src: crates/bos-app/src/slices/accounting/store.rs:942-970 list_invoices *)
Definition list_invoices (client_id : string) (limit : N) : AppOp (list InvoiceSnapshotRow.t) :=
  read_accounting (fun t => invoice_snapshot <$>
    sql_limit limit (sort_by_key (fun r => MkReverse (InvoiceRecord.txn_date r, InvoiceRecord.invoice_id r))
      (client_records client_id (accounting_invoice_snapshots t)))).

(* src: crates/bos-app/src/slices/accounting/store.rs:984-1011 open_invoices_by_balance *)
Definition open_invoices_by_balance (client_id : string) (balance : Z) : AppOp (list InvoiceBalanceMatch) :=
  read_accounting (fun t => (fun r => {|
    match_invoice_id := InvoiceRecord.invoice_id r;
    match_customer_id := InvoiceRecord.customer_id r;
    match_customer_name := InvoiceRecord.customer_name r;
    match_doc_number := InvoiceRecord.doc_number r;
    match_customer_active :=
      (id ← InvoiceRecord.customer_id r; row ← accounting_customer_snapshots t !! (client_id, id);
       Some (CustomerRecord.active (cached_record row)));
  |}) <$> sort_by_key InvoiceRecord.invoice_id
            (filter (fun r => InvoiceRecord.voided r = false ∧ InvoiceRecord.balance_cents r = balance)
               (client_records client_id (accounting_invoice_snapshots t)))).

(** [COLLATE NOCASE] folds ASCII letters; rows it takes for equal come in no
    particular order. *)
(* src: crates/bos-app/src/slices/accounting/store.rs:1023-1047 list_customers *)
Definition list_customers (client_id : string) : AppOp (list CustomerSnapshotRow.t) :=
  read_accounting (fun t => (fun r => {|
    CustomerSnapshotRow.customer_id := CustomerRecord.customer_id r;
    CustomerSnapshotRow.display_name := CustomerRecord.display_name r;
    CustomerSnapshotRow.company_name := CustomerRecord.company_name r;
    CustomerSnapshotRow.email := CustomerRecord.email r;
    CustomerSnapshotRow.tier := CustomerRecord.tier_raw r;
    CustomerSnapshotRow.active := CustomerRecord.active r;
  |}) <$> sort_by_key (fun r => (if CustomerRecord.active r then 0%Z else 1%Z,
                                 to_ascii_lowercase (CustomerRecord.display_name r)))
            (client_records client_id (accounting_customer_snapshots t))).

(* src: crates/bos-app/src/slices/accounting/store.rs:1049-1061 snapshot_counts *)
Definition snapshot_counts (client_id : string) : AppOp (N * N) :=
  read_accounting (fun t => (len (client_records client_id (accounting_invoice_snapshots t)),
                             len (client_records client_id (accounting_customer_snapshots t)))).

(* src: crates/bos-app/src/slices/accounting/store.rs:1063-1070 bill_snapshot_count *)
Definition bill_snapshot_count (client_id : string) : AppOp N :=
  read_accounting (fun t => len (client_records client_id (accounting_bill_snapshots t))).

(* src: crates/bos-app/src/slices/accounting/store.rs:1078-1097 get_latest_balance_sheet_snapshot *)
Definition get_latest_balance_sheet_snapshot (client_id : string) : AppOp (option BalanceSheetSnapshotRow.t) :=
  read_accounting (fun t => head (sort_by_key (fun r => MkReverse (BalanceSheetSnapshotRow.as_of_date r))
    (client_records client_id (accounting_balance_sheet_snapshots t)))).

(* src: crates/bos-app/src/slices/accounting/store.rs:1187-1204 get_pnl_snapshot *)
Definition get_pnl_snapshot (client_id period_kind period_start : string) : AppOp (option PnlSnapshotRow.t) :=
  read_accounting (fun t => cached_record <$> accounting_pnl_snapshots t !! (client_id, (period_kind, period_start))).

(* src: crates/bos-app/src/slices/accounting/store.rs:1206-1223 list_pnl_snapshots *)
Definition list_pnl_snapshots (client_id period_kind : string) : AppOp (list PnlSnapshotRow.t) :=
  read_accounting (fun t => sort_by_key PnlSnapshotRow.period_start
    (filter (fun r => PnlSnapshotRow.period_kind r = period_kind) (client_records client_id (accounting_pnl_snapshots t)))).

(* src: crates/bos-app/src/slices/accounting/store.rs:1335-1351 complete_pnl_period_starts *)
Definition complete_pnl_period_starts (client_id : string) : AppOp (gset (string * string)) :=
  read_accounting (fun t => list_to_set
    ((fun r => (PnlSnapshotRow.period_kind r, PnlSnapshotRow.period_start r)) <$>
     filter (fun r => PnlSnapshotRow.is_complete r = true) (client_records client_id (accounting_pnl_snapshots t)))).
