(* ===== verification/AccountingViews.v ===== *)
(** * The accounting views ([bos-app/src/slices/accounting/service.rs])

    Everything the owner is shown is computed from the cached rows: the status and
    age of invoices, sales by week and month, the margin against its baseline, and
    which periods of the profit-and-loss report the cache should hold.

    [env] is what [env_registry::string] answers for a variable, [setting] what
    [admin_settings] does; [financials_from_store] is given the answer of
    [configured_accounting_provider].  Cents are [i64] and wrap around where the source adds
    them unchecked.  The connector's status and the URLs of the consent flow are not
    here.

    The months and weeks a sync keeps of the profit-and-loss report; who sees the books. *)

From S2P Require Import Prelude RustStd StoreCore AppOutbox RustStr Identity AccountingRecords Schema Operators WorkItems Calendar CalendarProps Json AccountingStore.
Import AccountingDates.

Local Open Scope Z_scope.

(** ** Contracts *)

Module AccountingInvoiceRow.
(* src: crates/bos-contracts/src/accounting.rs:63-84 AccountingInvoiceRow *)
Record t := mk {
  invoice_id : string;
  doc_number : option string;
  customer_name : option string;
  txn_date : option string;
  due_date : option string;
  total_cents : Z;
  balance_cents : Z;
  status : string;
  days_overdue : Z;
}.
End AccountingInvoiceRow.

Module AccountingCustomerRow.
(* src: crates/bos-contracts/src/accounting.rs:218-230 AccountingCustomerRow *)
Record t := mk {
  customer_id : string;
  display_name : string;
  company_name : option string;
  email : option string;
  tier : option string;
  active : bool;
}.
End AccountingCustomerRow.

Module AccountingAgingBucket.
(* src: crates/bos-contracts/src/accounting.rs:93-102 AccountingAgingBucket *)
Record t := mk {
  bucket : string;
  label : string;
  invoice_count : N;
  balance_cents : Z;
}.
End AccountingAgingBucket.

Module AccountingPnlMonth.
(* src: crates/bos-contracts/src/accounting.rs:113-130 AccountingPnlMonth *)
Record t := mk {
  month_start : string;
  total_income_cents : Z;
  total_cogs_cents : option Z;
  gross_profit_cents : option Z;
  is_complete : bool;
}.
End AccountingPnlMonth.

(* src: crates/bos-contracts/src/accounting.rs:40-61 AccountingSyncInfo *)
Record AccountingSyncInfo := {
  sync_enabled : bool;
  sync_in_flight : bool;
  sync_backfill_complete : bool;
  last_synced_at_ms : option N;
  invoice_count : N;
  customer_count : N;
  last_requests_used : N;
  next_sync_allowed_at_ms : N;
  sync_last_error : option string;
}.

Module Financials.
(* src: crates/bos-contracts/src/accounting.rs:132-216 AccountingFinancialsResponse *)
Record t := mk {
  basis : string;
  metric_basis : string;
  metric_basis_label : string;
  week_to_date_cents : Z;
  prior_week_cents : option Z;
  prior_week_to_date_cents : option Z;
  month_to_date_cents : Z;
  prior_month_cents : option Z;
  prior_month_to_date_cents : option Z;
  mtd_gross_profit_cents : option Z;
  mtd_cogs_cents : option Z;
  baseline_monthly_margin_cents : option Z;
  baseline_months_cached : N;
  baseline_window_start : option string;
  baseline_window_end : option string;
  margin_above_baseline_cents : option Z;
  metric_value_cents : option Z;
  metric_baseline_cents : option Z;
  metric_above_baseline_cents : option Z;
  metric_pending_reason : option string;
  months : list AccountingPnlMonth.t;
  sync : AccountingSyncInfo;
}.

(** The assignments of [apply_metric_basis]. *)
Definition with_metric (r : t) (basis' label : string) (value baseline above : option Z) (pending : option string) : t :=
  mk (basis r) basis' label (week_to_date_cents r) (prior_week_cents r) (prior_week_to_date_cents r)
    (month_to_date_cents r) (prior_month_cents r) (prior_month_to_date_cents r) (mtd_gross_profit_cents r)
    (mtd_cogs_cents r) (baseline_monthly_margin_cents r) (baseline_months_cached r) (baseline_window_start r)
    (baseline_window_end r) (margin_above_baseline_cents r) value baseline above pending (months r) (sync r).

Definition with_prior (r : t) (prior_week prior_month : option Z) : t :=
  mk (basis r) (metric_basis r) (metric_basis_label r) (week_to_date_cents r) (prior_week_cents r) prior_week
    (month_to_date_cents r) (prior_month_cents r) prior_month (mtd_gross_profit_cents r)
    (mtd_cogs_cents r) (baseline_monthly_margin_cents r) (baseline_months_cached r) (baseline_window_start r)
    (baseline_window_end r) (margin_above_baseline_cents r) (metric_value_cents r) (metric_baseline_cents r)
    (metric_above_baseline_cents r) (metric_pending_reason r) (months r) (sync r).
End Financials.

(** ** The metric's basis *)

(* src: crates/bos-app/src/slices/accounting/service.rs:18-23 AccountingMetricBasisKind *)
Inductive AccountingMetricBasisKind := GrossMargin | AdjustedGrossSales | InvoiceTotals.

#[export] Instance metric_basis_eq_dec : EqDecision AccountingMetricBasisKind.
Proof. solve_decision. Defined.

(* src: crates/bos-app/src/slices/accounting/service.rs:26-33 AccountingMetricBasisKind::parse *)
Definition parse_basis (raw : string) : option AccountingMetricBasisKind :=
  let raw := to_ascii_lowercase (trim raw) in
  if existsb (string_eqb raw) [""; "gross_margin"; "quickbooks_pnl"]%string then Some GrossMargin
  else if string_eqb raw "adjusted_gross_sales" then Some AdjustedGrossSales
  else if string_eqb raw "invoice_totals" then Some InvoiceTotals
  else None.

(* src: crates/bos-app/src/slices/accounting/service.rs:35-41 AccountingMetricBasisKind::as_str *)
Definition basis_str (b : AccountingMetricBasisKind) : string :=
  match b with GrossMargin => "gross_margin" | AdjustedGrossSales => "adjusted_gross_sales" | InvoiceTotals => "invoice_totals" end.

(* src: crates/bos-app/src/slices/accounting/service.rs:43-49 AccountingMetricBasisKind::default_label *)
Definition default_label (b : AccountingMetricBasisKind) : string :=
  match b with GrossMargin => "Gross margin" | AdjustedGrossSales => "Adjusted gross sales" | InvoiceTotals => "Invoice totals" end.

Module MetricConfig.
(* src: crates/bos-app/src/slices/accounting/service.rs:52-63 AccountingMetricBasisConfig *)
Record t := mk {
  basis : AccountingMetricBasisKind;
  label : string;
  baseline_cents : option Z;
  freight_cents : option Z;
  taxes_cents : option Z;
  insurance_cents : option Z;
  basis_explicit : bool;
  label_explicit : bool;
  configured : bool;
}.

(* src: crates/bos-app/src/slices/accounting/service.rs:66-80 AccountingMetricBasisConfig::default *)
Definition default : t := mk GrossMargin (default_label GrossMargin) None None None None false false false.
End MetricConfig.

(* src: crates/bos-app/src/overlay.rs:264-284 AccountingMetricBasisOverlay *)
Record AccountingMetricBasisOverlay := {
  overlay_basis : string;
  overlay_label : string;
  overlay_baseline_cents : option Z;
  overlay_freight_cents : option Z;
  overlay_taxes_cents : option Z;
  overlay_insurance_cents : option Z;
}.

Section config.
Context (env : string → option string).

(* src: crates/bos-app/src/slices/accounting/service.rs:83-91 env_i64 *)
Definition env_i64 (name : string) : Result StoreError.t (option Z) :=
  match env name with
  | None => Ok None
  | Some raw =>
    match parse_i64 (trim raw) with
    | Some v => Ok (Some v)
    | None => Err (StoreError.Domain (name +:+ " must be an integer number of cents"))
    end
  end.

(** [.filter(|s| !s.is_empty())] of a trimmed text. *)
Definition nonempty (s : string) : option string := if is_empty s then None else Some s.

Definition or_else {A} (a b : option A) : option A := match a with Some _ => a | None => b end.

Definition cents_setting (name : string) (overlay : option Z) : Result StoreError.t (option Z) :=
  v ← env_i64 name; Ok (or_else v overlay).

(* src: crates/bos-app/src/slices/accounting/service.rs:93-146 metric_basis_config_from_sources *)
Definition metric_basis_config_from_sources (overlay : option AccountingMetricBasisOverlay) : Result StoreError.t MetricConfig.t :=
  let overlay_basis' := config ← overlay; nonempty (trim (overlay_basis config)) in
  let raw_basis := or_else (raw ← env "BOS_ACCOUNTING_METRIC_BASIS"; if is_blank raw then None else Some raw) overlay_basis' in
  basis ← match raw_basis with
          | Some raw => ok_or (parse_basis raw)
              (StoreError.Domain ("unknown BOS_ACCOUNTING_METRIC_BASIS/accounting.metric_basis.basis: " +:+ trim raw))
          | None => Ok GrossMargin
          end;
  let raw_label := or_else (env "BOS_ACCOUNTING_METRIC_LABEL") (config ← overlay; nonempty (trim (overlay_label config))) in
  baseline ← cents_setting "BOS_ACCOUNTING_METRIC_BASELINE_CENTS" (overlay ≫= overlay_baseline_cents);
  freight ← cents_setting "BOS_ACCOUNTING_METRIC_ADJUSTED_FREIGHT_CENTS" (overlay ≫= overlay_freight_cents);
  taxes ← cents_setting "BOS_ACCOUNTING_METRIC_ADJUSTED_TAXES_CENTS" (overlay ≫= overlay_taxes_cents);
  insurance ← cents_setting "BOS_ACCOUNTING_METRIC_ADJUSTED_INSURANCE_CENTS" (overlay ≫= overlay_insurance_cents);
  let is_some {A} (o : option A) := match o with Some _ => true | None => false end in
  let basis_explicit := is_some raw_basis in
  let label_explicit := is_some raw_label in
  Ok (MetricConfig.mk basis (default (default_label basis) raw_label) baseline freight taxes insurance
        basis_explicit label_explicit
        (basis_explicit || label_explicit || is_some baseline || is_some freight || is_some taxes || is_some insurance)).
End config.

(* src: crates/bos-app/src/slices/accounting/service.rs:183-185 provider_supports_pnl *)
Definition provider_supports_pnl (provider : string) : bool := string_eqb provider "qbo".

(* src: crates/bos-app/src/slices/accounting/service.rs:148-169 effective_metric_config_for_provider *)
Definition effective_metric_config_for_provider (provider : string) (config : MetricConfig.t) : MetricConfig.t :=
  if provider_supports_pnl provider || MetricConfig.basis_explicit config
     || negb (bool_decide (MetricConfig.basis config = GrossMargin))
  then config
  else MetricConfig.mk InvoiceTotals
         (if MetricConfig.label_explicit config then MetricConfig.label config else default_label InvoiceTotals)
         (MetricConfig.baseline_cents config) (MetricConfig.freight_cents config) (MetricConfig.taxes_cents config)
         (MetricConfig.insurance_cents config) (MetricConfig.basis_explicit config) (MetricConfig.label_explicit config)
         (MetricConfig.configured config).

(* src: crates/bos-app/src/slices/accounting/service.rs:173-180 configured_accounting_provider *)
Definition configured_accounting_provider (env : string → option string) : Result string string :=
  let provider := trim (default "qbo"%string (env "BOS_ACCOUNTING_PROVIDER"%string)) in
  if existsb (string_eqb provider) ["qbo"; "invoice_ninja"; "stripe"]%string then Ok provider
  else Err ("unknown BOS_ACCOUNTING_PROVIDER: " +:+ provider).

(** ** Who sees the books *)

(* src: crates/bos-app/src/overlay.rs:286-293 AccountingVisibilityPolicy *)
Inductive AccountingVisibilityPolicy := AuthorizerOnly | AdminOnly | Shared.

#[export] Instance visibility_policy_eq_dec : EqDecision AccountingVisibilityPolicy.
Proof. solve_decision. Defined.

(* src: crates/bos-app/src/overlay.rs:296-303 AccountingVisibilityPolicy::parse *)
Definition parse_policy (raw : string) : option AccountingVisibilityPolicy :=
  let raw := to_ascii_lowercase (trim raw) in
  if string_eqb raw "authorizer_only" then Some AuthorizerOnly
  else if string_eqb raw "admin_only" then Some AdminOnly
  else if string_eqb raw "shared" then Some Shared
  else None.

Section visibility.
Context (setting : string → AppOp (option string)).

(* src: crates/bos-app/src/slices/accounting/service.rs:319-339 accounting_visibility_policy *)
Definition accounting_visibility_policy (overlay_policy : AccountingVisibilityPolicy) : AppOp AccountingVisibilityPolicy :=
  let? value := setting "BOS_ACCOUNTING_VISIBILITY_POLICY"%string in
  match value with
  | Some raw =>
    if is_blank raw then op_ret overlay_policy
    else op_lift (ok_or (parse_policy raw)
           (StoreError.Domain ("unknown BOS_ACCOUNTING_VISIBILITY_POLICY: " +:+ trim raw)))
  | None => op_ret overlay_policy
  end.

(** [matches!(scope, OperatorScope::All)]. *)
Definition is_admin (scope : OperatorScope.t) : bool :=
  match scope with OperatorScope.All => true | OperatorScope.User _ => false end.

(* src: crates/bos-app/src/slices/accounting/service.rs:343-363 financial_visibility_allowed *)
Definition financial_visibility_allowed (client_id : string) (scope : OperatorScope.t)
    (overlay_policy : AccountingVisibilityPolicy) : AppOp bool :=
  let? policy := accounting_visibility_policy overlay_policy in
  match policy with
  | Shared => op_ret true
  | AdminOnly => op_ret (is_admin scope)
  | AuthorizerOnly =>
    let? credential := get_credential client_id in
    op_ret (match credential, scope with
            | None, _ | Some _, OperatorScope.All => true
            | Some credential, OperatorScope.User user_id =>
              string_eqb (StoredQboCredential.connected_by_user_id credential) user_id
            end)
  end.

(* src: crates/bos-app/src/slices/accounting/service.rs:365-375 qbo_authorizer_allows *)
Definition qbo_authorizer_allows (client_id : string) (scope : OperatorScope.t) : AppOp bool :=
  match scope with
  | OperatorScope.All => op_ret true
  | OperatorScope.User user_id =>
    op_map (option_any (fun credential => string_eqb (StoredQboCredential.connected_by_user_id credential) user_id))
      (get_credential client_id)
  end.

(* src: crates/bos-app/src/slices/accounting/service.rs:399-410 has_cached_financial_rows *)
Definition has_cached_financial_rows (client_id : string) : AppOp bool :=
  let? counts := snapshot_counts client_id in
  if (0 <? counts.1)%N || (0 <? counts.2)%N then op_ret true
  else read_accounting (fun t => (0 <? len (client_records client_id (accounting_pnl_snapshots t)))%N).

(* src: crates/bos-app/src/slices/accounting/service.rs:377-397 cached_financial_visibility_allowed *)
Definition cached_financial_visibility_allowed (client_id : string) (scope : OperatorScope.t)
    (overlay_policy : AccountingVisibilityPolicy) : AppOp bool :=
  let? policy := accounting_visibility_policy overlay_policy in
  match policy with
  | Shared => op_ret true
  | AdminOnly => op_ret (is_admin scope)
  | AuthorizerOnly =>
    let? credential := get_credential client_id in
    match credential with
    | Some _ => qbo_authorizer_allows client_id scope
    | None => if is_admin scope then op_ret true else op_map negb (has_cached_financial_rows client_id)
    end
  end.
End visibility.

(** ** Invoices by age *)

(* src: crates/bos-app/src/slices/accounting/service.rs:474-478 days_overdue *)
Definition days_overdue (due_date : option string) (today_days : Z) : option Z :=
  due ← (date ← due_date; parse_date_days date); Some (today_days - due).

(* src: crates/bos-app/src/slices/accounting/service.rs:481-504 invoice_row *)
Definition invoice_row (snapshot : InvoiceSnapshotRow.t) (today : string) : AccountingInvoiceRow.t :=
  let today_days := default 0 (parse_date_days today) in
  let overdue_by := default 0 (days_overdue (InvoiceSnapshotRow.due_date snapshot) today_days) in
  let status :=
    if InvoiceSnapshotRow.voided snapshot then "voided"%string
    else if InvoiceSnapshotRow.balance_cents snapshot <=? 0 then "paid"%string
    else if 0 <? overdue_by then "overdue"%string
    else "open"%string in
  {|
    AccountingInvoiceRow.invoice_id := InvoiceSnapshotRow.invoice_id snapshot;
    AccountingInvoiceRow.doc_number := InvoiceSnapshotRow.doc_number snapshot;
    AccountingInvoiceRow.customer_name := InvoiceSnapshotRow.customer_name snapshot;
    AccountingInvoiceRow.txn_date := InvoiceSnapshotRow.txn_date snapshot;
    AccountingInvoiceRow.due_date := InvoiceSnapshotRow.due_date snapshot;
    AccountingInvoiceRow.total_cents := InvoiceSnapshotRow.total_amt_cents snapshot;
    AccountingInvoiceRow.balance_cents := InvoiceSnapshotRow.balance_cents snapshot;
    AccountingInvoiceRow.status := status;
    AccountingInvoiceRow.days_overdue := Z.max overdue_by 0;
  |}.

(* src: crates/bos-app/src/slices/accounting/service.rs:652-661 customer_row *)
Definition customer_row (snapshot : CustomerSnapshotRow.t) : AccountingCustomerRow.t := {|
  AccountingCustomerRow.customer_id := CustomerSnapshotRow.customer_id snapshot;
  AccountingCustomerRow.display_name := CustomerSnapshotRow.display_name snapshot;
  AccountingCustomerRow.company_name := CustomerSnapshotRow.company_name snapshot;
  AccountingCustomerRow.email := CustomerSnapshotRow.email snapshot;
  AccountingCustomerRow.tier := CustomerSnapshotRow.tier snapshot;
  AccountingCustomerRow.active := CustomerSnapshotRow.active snapshot;
|}.

(** The dashes of the labels are U+2013. *)
Definition en_dash : string := String (ascii_of_N 226) (String (ascii_of_N 128) (String (ascii_of_N 147) EmptyString)).

(* src: crates/bos-app/src/slices/accounting/service.rs:506-513 AGING_BUCKETS *)
Definition AGING_BUCKETS : list (string * string) := [
  ("current", "Current");
  ("days_1_30", "1" +:+ en_dash +:+ "30 days");
  ("days_31_60", "31" +:+ en_dash +:+ "60 days");
  ("days_61_90", "61" +:+ en_dash +:+ "90 days");
  ("days_90_plus", "90+ days");
  ("no_due_date", "No due date")]%string.

(** [match days_overdue(..)]. *)
Definition aging_index (days : option Z) : nat :=
  match days with
  | None => 5
  | Some days =>
    if days <=? 0 then 0
    else if days <=? 30 then 1
    else if days <=? 60 then 2
    else if days <=? 90 then 3
    else 4
  end.

(** [count += 1; balance += ..]. *)
Definition add_to_bucket (balance : Z) (b : AccountingAgingBucket.t) : AccountingAgingBucket.t :=
  AccountingAgingBucket.mk (AccountingAgingBucket.bucket b) (AccountingAgingBucket.label b)
    ((AccountingAgingBucket.invoice_count b + 1) mod 4294967296)%N
    (wrap_i64 (AccountingAgingBucket.balance_cents b + balance)).

Definition age_invoice (today_days : Z) (buckets : list AccountingAgingBucket.t) (invoice : InvoiceSnapshotRow.t)
    : list AccountingAgingBucket.t :=
  if InvoiceSnapshotRow.voided invoice || (InvoiceSnapshotRow.balance_cents invoice <=? 0) then buckets
  else alter (add_to_bucket (InvoiceSnapshotRow.balance_cents invoice))
         (aging_index (days_overdue (InvoiceSnapshotRow.due_date invoice) today_days)) buckets.

Definition empty_buckets : list AccountingAgingBucket.t :=
  (fun '(bucket, label) => AccountingAgingBucket.mk bucket label 0 0) <$> AGING_BUCKETS.

(* src: crates/bos-app/src/slices/accounting/service.rs:516-543 compute_aging *)
Definition compute_aging (invoices : list InvoiceSnapshotRow.t) (today : string) : list AccountingAgingBucket.t :=
  foldl (age_invoice (default 0 (parse_date_days today))) empty_buckets invoices.

(** ** Weeks, months and quarters *)

(* src: crates/bos-app/src/slices/accounting/service.rs:704-707 month_start_days *)
Definition month_start_days (days : Z) : Z :=
  let '(year, month, _) := civil_from_days days in days_from_civil year month 1.

(* src: crates/bos-app/src/slices/accounting/service.rs:710-716 shift_month_start *)
Definition shift_month_start (days delta : Z) : Z :=
  let '(year, month, _) := civil_from_days days in
  let zero_based := year * 12 + (month - 1) + delta in
  days_from_civil (zero_based / 12) (i64_to_u32 (zero_based mod 12 + 1)) 1.

(* src: crates/bos-app/src/slices/accounting/service.rs:719-723 quarter_start_days *)
Definition quarter_start_days (days : Z) : Z :=
  let '(year, month, _) := civil_from_days days in
  days_from_civil year (Z.quot (month - 1) 3 * 3 + 1) 1.

(* src: crates/bos-app/src/slices/accounting/service.rs:726-728 week_start_days *)
Definition week_start_days (days : Z) : Z := days - (days + 3) mod 7.

(* src: crates/bos-app/src/slices/accounting/service.rs:679-683 last_n_days_window *)
Definition last_n_days_window (today : string) (days : Z) : option (string * string) :=
  today_days ← parse_date_days today;
  let span := Z.max days 1 in
  Some (format_days (today_days - span + 1), format_days today_days).

(* src: crates/bos-app/src/slices/accounting/service.rs:685-691 prior_week_to_date_window *)
Definition prior_week_to_date_window (today : string) : option (string * string) :=
  today_days ← parse_date_days today;
  let current_week_start := week_start_days today_days in
  let prior_week_start := current_week_start - 7 in
  let comparable_end := prior_week_start + (today_days - current_week_start) in
  Some (format_days prior_week_start, format_days comparable_end).

(* src: crates/bos-app/src/slices/accounting/service.rs:693-701 prior_month_to_date_window *)
Definition prior_month_to_date_window (today : string) : option (string * string) :=
  today_days ← parse_date_days today;
  let current_month_start := month_start_days today_days in
  let prior_month_start := shift_month_start current_month_start (-1) in
  let prior_month_end := current_month_start - 1 in
  let '(_, _, day_of_month) := civil_from_days today_days in
  let comparable_end := Z.min (prior_month_start + day_of_month - 1) prior_month_end in
  Some (format_days prior_month_start, format_days comparable_end).

(* src: crates/bos-app/src/slices/accounting/service.rs:732-737 baseline_window *)
Definition baseline_window (today : string) : option (string * string) :=
  today_days ← parse_date_days today;
  let current_quarter := quarter_start_days today_days in
  let window_start := shift_month_start current_quarter (-12) in
  Some (format_days window_start, format_days (current_quarter - 1)).

Module PnlPeriod.
(* src: crates/bos-app/src/slices/accounting/service.rs:663-672 PnlPeriod *)
Record t := mk {
  kind : string;
  start : string;
  stop : string;
  is_complete : bool;
}.
End PnlPeriod.

(* src: crates/bos-app/src/slices/accounting/service.rs:752-759 needed_pnl_periods (a month) *)
Definition month_period (today_days current_month month : Z) : PnlPeriod.t :=
  let next := shift_month_start month 1 in
  let is_complete := (next - 1 <=? today_days) && negb (month =? current_month) in
  PnlPeriod.mk "month" (format_days month) (format_days (if is_complete then next - 1 else today_days)) is_complete.

(** [while month <= current_month { .. month = next; }]: a round moves [month]
    forward by a day or more, so the distance in days is fuel enough. *)
(* src: crates/bos-app/src/slices/accounting/service.rs:751-761 needed_pnl_periods (the months) *)
Fixpoint month_periods (fuel : nat) (today_days current_month month : Z) : list PnlPeriod.t :=
  match fuel with
  | O => []
  | S fuel =>
    if month <=? current_month
    then month_period today_days current_month month
         :: month_periods fuel today_days current_month (shift_month_start month 1)
    else []
  end.
Definition months_between (today_days current_month month : Z) : list PnlPeriod.t :=
  month_periods (Z.to_nat (current_month - month + 1)) today_days current_month month.

(* src: crates/bos-app/src/slices/accounting/service.rs:762-774 needed_pnl_periods (the weeks) *)
Definition week_periods (today_days : Z) : list PnlPeriod.t :=
  let week := week_start_days today_days in
  [PnlPeriod.mk "week" (format_days (week - 7)) (format_days (week - 1)) true;
   PnlPeriod.mk "week" (format_days week) (format_days today_days) false].

(* src: crates/bos-app/src/slices/accounting/service.rs:743-776 needed_pnl_periods *)
Definition needed_pnl_periods (today : string) : list PnlPeriod.t :=
  match parse_date_days today with
  | None => []
  | Some today_days =>
    let current_quarter := quarter_start_days today_days in
    let current_month := month_start_days today_days in
    months_between today_days current_month (shift_month_start current_quarter (-12)) ++ week_periods today_days
  end.

(* src: crates/bos-app/src/slices/accounting/service.rs:779-781 week_start_date *)
Definition week_start_date (date : string) : option string :=
  days ← parse_date_days date; Some (format_days (week_start_days days)).

(* src: crates/bos-app/src/slices/accounting/service.rs:784-786 month_start_date *)
Definition month_start_date (date : string) : option string :=
  days ← parse_date_days date; Some (format_days (month_start_days days)).

(* src: crates/bos-app/src/slices/accounting/service.rs:790-792 date_to_epoch_ms *)
Definition date_to_epoch_ms (date : string) : option N :=
  days ← parse_date_days date; if days <? 0 then None else Some (Z.to_N days * 86400000)%N.

(** ** The configured metric *)

(** [", ".join]. *)
Definition comma_list (l : list string) : string := String.concat ", " l.

(** [(Some(value), Some(baseline)) => Some(value - baseline)]. *)
Definition difference (value baseline : option Z) : option Z :=
  v ← value; b ← baseline; Some (wrap_i64 (v - b)).

Definition missing_deductions (config : MetricConfig.t) : list string :=
  omap (M:=list) (fun '(label, value) => match value with Some _ => None | None => Some label end)
    [("freight"%string, MetricConfig.freight_cents config); ("taxes"%string, MetricConfig.taxes_cents config);
     ("insurance"%string, MetricConfig.insurance_cents config)].

(* src: crates/bos-app/src/slices/accounting/service.rs:1014-1088 apply_metric_basis *)
Definition apply_metric_basis (response : Financials.t) (config : MetricConfig.t) : Financials.t :=
  let with_metric := Financials.with_metric response (basis_str (MetricConfig.basis config)) (MetricConfig.label config) in
  match MetricConfig.basis config with
  | GrossMargin =>
    let value := Financials.mtd_gross_profit_cents response in
    let baseline := or_else (Financials.baseline_monthly_margin_cents response) (MetricConfig.baseline_cents config) in
    with_metric value baseline (difference value baseline)
      (match value, baseline with
       | None, _ => Some "Gross margin needs provider P&L data."%string
       | Some _, None => Some ("Baseline not yet available (" +:+ fmt_dec (Financials.baseline_months_cached response)
                               +:+ " of 12 months cached).")
       | Some _, Some _ => None
       end)
  | AdjustedGrossSales =>
    let missing := missing_deductions config in
    let value :=
      match missing with
      | [] => Some (wrap_i64 (Financials.month_to_date_cents response
                     - wrap_i64 (wrap_i64 (default 0 (MetricConfig.freight_cents config) + default 0 (MetricConfig.taxes_cents config))
                                 + default 0 (MetricConfig.insurance_cents config))))
      | _ => Financials.metric_value_cents response
      end in
    let baseline := MetricConfig.baseline_cents config in
    with_metric value baseline (difference value baseline)
      (match missing, baseline with
       | _ :: _, _ => Some ("Adjusted gross sales needs imported current-period " +:+ comma_list missing +:+ ".")
       | [], None => Some "Adjusted gross sales baseline is not configured."%string
       | [], Some _ => None
       end)
  | InvoiceTotals =>
    let value := Some (Financials.month_to_date_cents response) in
    let baseline := MetricConfig.baseline_cents config in
    with_metric value baseline (difference value baseline)
      (if MetricConfig.configured config && bool_decide (baseline = None)
       then Some "Invoice-total baseline is not configured."%string else None)
  end.

(** ** Sales from invoices *)

(** [a >= b] of texts. *)
Definition str_ge (a b : string) : bool := String.leb b a.
Definition within (window : string * string) (date : string) : bool := str_ge date window.1 && str_ge window.2 date.

(** The sums of [compute_financials_from_invoices], in the order it declares them. *)
Record SalesSums := {
  week_to_date : Z;
  prior_week : Z;
  prior_week_to_date : Z;
  month_to_date : Z;
  prior_month : Z;
  prior_month_to_date : Z;
  monthly : gmap string Z;
}.
Definition no_sales : SalesSums := Build_SalesSums 0 0 0 0 0 0 ∅.

(** [if c { sum += total }]. *)
Definition add_if (c : bool) (sum total : Z) : Z := if c then wrap_i64 (sum + total) else sum.

(** What counts of an invoice: not voided, dated, and not in the future. *)
Definition dated_sale (invoice : InvoiceSnapshotRow.t) (today_days : Z) : option (string * Z) :=
  if InvoiceSnapshotRow.voided invoice then None
  else date ← InvoiceSnapshotRow.txn_date invoice; days ← parse_date_days date;
       if today_days <? days then None else Some (date, days).

(* src: crates/bos-app/src/slices/accounting/service.rs:568-606 compute_financials_from_invoices (an invoice) *)
Definition add_sale (today : string) (sums : SalesSums) (invoice : InvoiceSnapshotRow.t) : SalesSums :=
  let today_days := default 0 (parse_date_days today) in
  match dated_sale invoice today_days with
  | None => sums
  | Some (date, days) =>
    let total := InvoiceSnapshotRow.total_amt_cents invoice in
    let week_start := week_start_days today_days in
    let month_start := month_start_days today_days in
    let this_week := week_start <=? days in
    let last_week := negb this_week && (week_start - 7 <=? days) in
    let this_month := month_start <=? days in
    let last_month := negb this_month && (shift_month_start month_start (-1) <=? days) in
    let month_key := format_days (month_start_days days) in
    {|
      week_to_date := add_if this_week (week_to_date sums) total;
      prior_week := add_if last_week (prior_week sums) total;
      prior_week_to_date := add_if (last_week && option_any (fun w => within w date) (prior_week_to_date_window today))
                              (prior_week_to_date sums) total;
      month_to_date := add_if this_month (month_to_date sums) total;
      prior_month := add_if last_month (prior_month sums) total;
      prior_month_to_date := add_if (last_month && option_any (fun w => within w date) (prior_month_to_date_window today))
                               (prior_month_to_date sums) total;
      monthly := <[month_key := wrap_i64 (default 0 (monthly sums !! month_key) + total)]> (monthly sums);
    |}
  end.

(** A [BTreeMap] is walked in the order of its keys. *)
Definition sorted_entries {V} (m : gmap string V) : list (string * V) := sort_by_key fst (map_to_list m).

(* src: crates/bos-app/src/slices/accounting/service.rs:549-650 compute_financials_from_invoices *)
Definition compute_financials_from_invoices (invoices : list InvoiceSnapshotRow.t) (today : string) (sync : AccountingSyncInfo)
    : Financials.t :=
  let today_days := default 0 (parse_date_days today) in
  let sums := foldl (add_sale today) no_sales invoices in
  let current_month_key := format_days (month_start_days today_days) in
  apply_metric_basis {|
    Financials.basis := "invoice_totals";
    Financials.metric_basis := "";
    Financials.metric_basis_label := "";
    Financials.week_to_date_cents := week_to_date sums;
    Financials.prior_week_cents := Some (prior_week sums);
    Financials.prior_week_to_date_cents := (fun _ => prior_week_to_date sums) <$> prior_week_to_date_window today;
    Financials.month_to_date_cents := month_to_date sums;
    Financials.prior_month_cents := Some (prior_month sums);
    Financials.prior_month_to_date_cents := (fun _ => prior_month_to_date sums) <$> prior_month_to_date_window today;
    Financials.mtd_gross_profit_cents := None;
    Financials.mtd_cogs_cents := None;
    Financials.baseline_monthly_margin_cents := None;
    Financials.baseline_months_cached := 0;
    Financials.baseline_window_start := None;
    Financials.baseline_window_end := None;
    Financials.margin_above_baseline_cents := None;
    Financials.metric_value_cents := None;
    Financials.metric_baseline_cents := None;
    Financials.metric_above_baseline_cents := None;
    Financials.metric_pending_reason := None;
    Financials.months := (fun '(month_start, income) =>
      AccountingPnlMonth.mk month_start income None None (negb (string_eqb month_start current_month_key)))
      <$> sorted_entries (monthly sums);
    Financials.sync := sync;
  |} (MetricConfig.mk InvoiceTotals (default_label InvoiceTotals) None None None None false false false).

(** ** Financials from the profit-and-loss report *)

Definition period_row (rows : list PnlSnapshotRow.t) (start : string) : option PnlSnapshotRow.t :=
  List.find (fun row => string_eqb (PnlSnapshotRow.period_start row) start) rows.

Definition baseline_rows (months : list PnlSnapshotRow.t) (window : string * string) : list PnlSnapshotRow.t :=
  filter (fun row => PnlSnapshotRow.is_complete row && within window (PnlSnapshotRow.period_start row)) months.

(** The average of twelve months, or nothing. *)
Definition baseline_margin (rows : list PnlSnapshotRow.t) : option Z :=
  if (len rows mod 4294967296 =? 12)%N then Some (Z.quot (sum_i64 (PnlSnapshotRow.gross_profit_cents <$> rows)) 12) else None.

(* src: crates/bos-app/src/slices/accounting/service.rs:907-985 compute_financials_with_basis *)
Definition compute_financials_with_basis (months weeks : list PnlSnapshotRow.t) (today : string) (sync : AccountingSyncInfo)
    (metric_config : MetricConfig.t) : Financials.t :=
  let today_days := default 0 (parse_date_days today) in
  let current_month := format_days (month_start_days today_days) in
  let prior_month := format_days (shift_month_start (month_start_days today_days) (-1)) in
  let current_week := format_days (week_start_days today_days) in
  let prior_week := format_days (week_start_days today_days - 7) in
  let window := default (EmptyString, EmptyString) (baseline_window today) in
  let baseline_rows := baseline_rows months window in
  let baseline := baseline_margin baseline_rows in
  let mtd := period_row months current_month in
  apply_metric_basis {|
    Financials.basis := "quickbooks_pnl";
    Financials.metric_basis := "";
    Financials.metric_basis_label := "";
    Financials.week_to_date_cents := default 0 (PnlSnapshotRow.total_income_cents <$> period_row weeks current_week);
    Financials.prior_week_cents := PnlSnapshotRow.total_income_cents <$> period_row weeks prior_week;
    Financials.prior_week_to_date_cents := None;
    Financials.month_to_date_cents := default 0 (PnlSnapshotRow.total_income_cents <$> mtd);
    Financials.prior_month_cents := PnlSnapshotRow.total_income_cents <$> period_row months prior_month;
    Financials.prior_month_to_date_cents := None;
    Financials.mtd_gross_profit_cents := Some (default 0 (PnlSnapshotRow.gross_profit_cents <$> mtd));
    Financials.mtd_cogs_cents := Some (default 0 (PnlSnapshotRow.total_cogs_cents <$> mtd));
    Financials.baseline_monthly_margin_cents := baseline;
    Financials.baseline_months_cached := len baseline_rows mod 4294967296;
    Financials.baseline_window_start := Some window.1;
    Financials.baseline_window_end := Some window.2;
    Financials.margin_above_baseline_cents := difference (PnlSnapshotRow.gross_profit_cents <$> mtd) baseline;
    Financials.metric_value_cents := None;
    Financials.metric_baseline_cents := None;
    Financials.metric_above_baseline_cents := None;
    Financials.metric_pending_reason := None;
    Financials.months := (fun row => AccountingPnlMonth.mk (PnlSnapshotRow.period_start row)
      (PnlSnapshotRow.total_income_cents row) (Some (PnlSnapshotRow.total_cogs_cents row))
      (Some (PnlSnapshotRow.gross_profit_cents row)) (PnlSnapshotRow.is_complete row)) <$> months;
    Financials.sync := sync;
  |} metric_config.

(* src: crates/bos-app/src/slices/accounting/service.rs:892-905 compute_financials *)
Definition compute_financials (months weeks : list PnlSnapshotRow.t) (today : string) (sync : AccountingSyncInfo) : Financials.t :=
  compute_financials_with_basis months weeks today sync MetricConfig.default.

(** The rows of a window must be its days, one after the other. *)
Fixpoint sum_days (rows : list PnlSnapshotRow.t) (expected_day total : Z) : option (Z * Z) :=
  match rows with
  | [] => Some (expected_day, total)
  | row :: rows =>
    row_day ← parse_date_days (PnlSnapshotRow.period_start row);
    if negb (row_day =? expected_day) || negb (string_eqb (PnlSnapshotRow.period_end row) (PnlSnapshotRow.period_start row))
    then None
    else sum_days rows (expected_day + 1) (wrap_i64 (total + PnlSnapshotRow.total_income_cents row))
  end.

(* src: crates/bos-app/src/slices/accounting/service.rs:994-1012 sum_complete_daily_window *)
Definition sum_complete_daily_window (days : list PnlSnapshotRow.t) (window : string * string) : option Z :=
  expected_day ← parse_date_days window.1;
  end_day ← parse_date_days window.2;
  '(expected_day, total) ← sum_days (filter (fun row => within window (PnlSnapshotRow.period_start row)) days) expected_day 0;
  if expected_day =? end_day + 1 then Some total else None.

(* src: crates/bos-app/src/slices/accounting/service.rs:987-992 prior_month_to_date_from_daily *)
Definition prior_month_to_date_from_daily (days : list PnlSnapshotRow.t) (today : string) : option Z :=
  window ← prior_month_to_date_window today; sum_complete_daily_window days window.

(** ** From the store *)

(* src: crates/bos-app/src/slices/accounting/service.rs:841-854 daily_revenue_from_store *)
Definition daily_revenue_from_store (client_id today : string) : AppOp (list PnlSnapshotRow.t) :=
  match last_n_days_window today 7 with
  | None => op_ret []
  | Some window =>
    let? rows := list_pnl_snapshots client_id "day"%string in
    op_ret (filter (fun row => within window (PnlSnapshotRow.period_start row) = true) rows)
  end.

(** [configured_accounting_provider().unwrap_or_else(|err| err)] is [provider]. *)
(* src: crates/bos-app/src/slices/accounting/service.rs:860-886 financials_from_store *)
Definition financials_from_store (client_id today : string) (sync : AccountingSyncInfo) (metric_config : MetricConfig.t)
    (provider : string) : AppOp Financials.t :=
  let config := effective_metric_config_for_provider provider metric_config in
  if negb (provider_supports_pnl provider) then
    let? snapshots := list_invoices client_id 10000 in
    op_ret (apply_metric_basis (compute_financials_from_invoices snapshots today sync) config)
  else
    let? months := list_pnl_snapshots client_id "month"%string in
    let? weeks := list_pnl_snapshots client_id "week"%string in
    let? days := list_pnl_snapshots client_id "day"%string in
    op_ret (Financials.with_prior (compute_financials_with_basis months weeks today sync config)
      (window ← prior_week_to_date_window today; sum_complete_daily_window days window)
      (prior_month_to_date_from_daily days today)).

(** * What the accounting views compute *)

Import AccountingDates.

Local Open Scope Z_scope.

(** ** Months as numbers *)

(** Months are counted from January of the year 0. *)
Definition month_index (days : Z) : Z := let '(y, m, _) := civil_from_days days in y * 12 + (m - 1).
Definition first_of (i : Z) : Z := days_from_civil (i / 12) (i mod 12 + 1) 1.

Lemma civil_agrees days : civil_from_days days = Calendar.civil_from_days days.
Proof. by destruct (proj2 calendars_agree days) as (_ & ? & _). Qed.

Lemma month_of i : 1 ≤ i mod 12 + 1 ≤ 12.
Proof. pose proof (Z.mod_pos_bound i 12). lia. Qed.

Lemma month_has_days y m : 1 ≤ m ≤ 12 → 1 ≤ Calendar.days_in_month y m.
Proof.
  intros Hm. assert (Hcases : m = 1 ∨ m = 2 ∨ m = 3 ∨ m = 4 ∨ m = 5 ∨ m = 6 ∨ m = 7 ∨ m = 8 ∨ m = 9 ∨ m = 10 ∨ m = 11 ∨ m = 12) by lia.
  unfold Calendar.days_in_month. destruct_or! Hcases; subst; cbn; try lia. destruct (Calendar.is_leap_year y); lia.
Qed.

Lemma civil_first i : civil_from_days (first_of i) = (i / 12, i mod 12 + 1, 1).
Proof.
  pose proof (month_of i) as Hm. rewrite civil_agrees. unfold first_of.
  destruct (proj1 calendars_agree (i / 12) (i mod 12 + 1) 1 Hm) as (_ & -> & _).
  apply civil_of_days. split; [done|]. pose proof (month_has_days (i / 12) _ Hm). lia.
Qed.

Lemma index_first i : month_index (first_of i) = i.
Proof. unfold month_index. rewrite civil_first. pose proof (Z.div_mod i 12). lia. Qed.

Lemma first_of_lt i j : first_of i < first_of j ↔ i < j.
Proof.
  rewrite civil_key_lt, <- !civil_agrees, !civil_first. cbn [date_key].
  pose proof (Z.div_mod i 12). pose proof (Z.div_mod j 12). pose proof (month_of i). pose proof (month_of j). lia.
Qed.

Lemma first_of_le i j : first_of i ≤ first_of j ↔ i ≤ j.
Proof. pose proof (first_of_lt j i). lia. Qed.

(** A day lies in its month. *)
Lemma month_bounds days : first_of (month_index days) ≤ days < first_of (month_index days + 1).
Proof.
  assert (Hnot : ¬ days < first_of (month_index days) ∧ days < first_of (month_index days + 1)); [|lia].
  rewrite (civil_key_lt days (first_of _)), (civil_key_lt days (first_of (month_index days + 1))), <- !civil_agrees, !civil_first.
  unfold month_index.
  pose proof (civil_from_days_valid days) as Hv. rewrite <- civil_agrees in Hv.
  destruct (civil_from_days days) as [[y m] d]. destruct Hv as [Hm Hd]. cbn [date_key].
  pose proof (days_in_month_le y m) as Hle.
  assert (Hy : (y * 12 + (m - 1)) / 12 = y) by (symmetry; apply Z.div_unique with (m - 1); lia).
  assert (Hmod : (y * 12 + (m - 1)) mod 12 = m - 1) by (symmetry; apply Z.mod_unique with y; lia).
  rewrite Hy, Hmod. split; [lia|].
  pose proof (Z.div_mod (y * 12 + (m - 1) + 1) 12). pose proof (month_of (y * 12 + (m - 1) + 1)). lia.
Qed.

Lemma shift_month days delta : shift_month_start days delta = first_of (month_index days + delta).
Proof.
  unfold shift_month_start, month_index, first_of. destruct (civil_from_days days) as [[y m] d].
  pose proof (month_of (y * 12 + (m - 1) + delta)). by rewrite i64_to_u32_small by lia.
Qed.

Lemma month_start_first days : month_start_days days = first_of (month_index days).
Proof.
  unfold month_start_days, month_index, first_of. pose proof (civil_from_days_valid days) as Hv. rewrite <- civil_agrees in Hv.
  destruct (civil_from_days days) as [[y m] d]. destruct Hv as [Hm _].
  assert ((y * 12 + (m - 1)) / 12 = y) as -> by (symmetry; apply Z.div_unique with (m - 1); lia).
  assert ((y * 12 + (m - 1)) mod 12 = m - 1) as -> by (symmetry; apply Z.mod_unique with y; lia).
  f_equal. lia.
Qed.

(** The first month of the quarter. *)
Definition quarter_index (days : Z) : Z := 3 * (month_index days / 3).

Lemma quarter_start_first days : quarter_start_days days = first_of (quarter_index days).
Proof.
  unfold quarter_start_days, quarter_index, month_index, first_of. pose proof (civil_from_days_valid days) as Hv. rewrite <- civil_agrees in Hv.
  destruct (civil_from_days days) as [[y m] d]. destruct Hv as [Hm _].
  rewrite Z.quot_div_nonneg by lia.
  assert ((y * 12 + (m - 1)) / 3 = y * 4 + (m - 1) / 3) as -> by (rewrite <- Z.div_add_l by lia; f_equal; lia).
  assert (Hq : 0 ≤ (m - 1) / 3 ≤ 3) by (split; [apply Z.div_pos; lia|apply Z.lt_succ_r, Z.div_lt_upper_bound; lia]).
  assert ((3 * (y * 4 + (m - 1) / 3)) / 12 = y) as -> by (symmetry; apply Z.div_unique with (3 * ((m - 1) / 3)); lia).
  assert ((3 * (y * 4 + (m - 1) / 3)) mod 12 = 3 * ((m - 1) / 3)) as -> by (symmetry; apply Z.mod_unique with y; lia).
  f_equal. lia.
Qed.

(** ** The periods *)

Definition complete_month (i : Z) : PnlPeriod.t :=
  PnlPeriod.mk "month" (format_days (first_of i)) (format_days (first_of (i + 1) - 1)) true.
Definition running_month (today_days i : Z) : PnlPeriod.t :=
  PnlPeriod.mk "month" (format_days (first_of i)) (format_days today_days) false.

Lemma month_period_at days i :
  i ≤ month_index days →
  month_period days (first_of (month_index days)) (first_of i) =
    if decide (i = month_index days) then running_month days i else complete_month i.
Proof.
  intros Hi. unfold month_period. rewrite shift_month, index_first. destruct (decide _) as [->|Hne].
  - by rewrite Z.eqb_refl, andb_false_r.
  - assert (first_of i < first_of (month_index days)) by (apply first_of_lt; lia).
    assert (first_of (i + 1) ≤ first_of (month_index days)) by (apply first_of_le; lia).
    pose proof (month_bounds days). replace (first_of (i + 1) - 1 <=? days) with true by (symmetry; apply Z.leb_le; lia).
    by replace (first_of i =? first_of (month_index days)) with false by (symmetry; apply Z.eqb_neq; lia).
Qed.

(** The loop visits every month from [i] on; more fuel changes nothing. *)
Lemma month_periods_all days i fuel n :
  month_index days + 1 - i = Z.of_nat n → (n ≤ fuel)%nat →
  month_periods fuel days (first_of (month_index days)) (first_of i) =
    (fun j => month_period days (first_of (month_index days)) (first_of j)) <$> seqZ i (Z.of_nat n).
Proof.
  revert i fuel. induction n as [|n IH]; intros i fuel Hn Hf.
  - destruct fuel as [|fuel]; [done|]. cbn [month_periods]. pose proof (first_of_le i (month_index days)).
    by replace (_ <=? _) with false by (symmetry; apply Z.leb_gt; lia).
  - destruct fuel as [|fuel]; [lia|]. cbn [month_periods].
    assert (first_of i ≤ first_of (month_index days)) as ->%Z.leb_le by (apply first_of_le; lia).
    rewrite seqZ_cons by lia. cbn [fmap list_fmap]. f_equal. rewrite shift_month, index_first, (IH (i + 1) fuel) by lia.
    do 2 f_equal; lia.
Qed.

(** The distance in days is fuel enough. *)
Lemma months_apart i n : first_of i + Z.of_nat n ≤ first_of (i + Z.of_nat n).
Proof.
  induction n as [|n IH]; [by rewrite !Z.add_0_r|].
  assert (first_of (i + Z.of_nat n) < first_of (i + Z.of_nat (S n))) by (apply first_of_lt; lia). lia.
Qed.

Lemma quarter_bounds days : 0 ≤ month_index days - quarter_index days ≤ 2.
Proof. unfold quarter_index. pose proof (Z.mod_pos_bound (month_index days) 3). pose proof (Z.div_mod (month_index days) 3). lia. Qed.

Lemma shifted_quarter days : shift_month_start (quarter_start_days days) (-12) = first_of (quarter_index days - 12).
Proof. by rewrite quarter_start_first, shift_month, index_first. Qed.

(** The periods a sync keeps tile the time since a year before the quarter.  The loop
    over the months ends; it yields the twelve months of the baseline window and those of
    the quarter that are over, each complete and ending on the day before the next begins,
    then the running month up to today, then the week before and the running week. *)
Theorem pnl_periods_tile today days :
  parse_date_days today = Some days →
  let last := month_index days in let first := quarter_index days - 12 in
  let months := (complete_month <$> seqZ first (last - first)) ++ [running_month days last] in
  needed_pnl_periods today = months ++ week_periods days ∧
  (∀ fuel, (Z.to_nat (last - first + 1) ≤ fuel)%nat → month_periods fuel days (month_start_days days) (first_of first) = months) ∧
  12 ≤ last - first ≤ 14 ∧ first_of last ≤ days < first_of (last + 1) ∧
  baseline_window today = Some (format_days (first_of first), format_days (first_of (first + 12) - 1)).
Proof.
  intros Hp last first months. pose proof (quarter_bounds days) as Hq.
  assert (Hloop : ∀ fuel, (Z.to_nat (last - first + 1) ≤ fuel)%nat → month_periods fuel days (month_start_days days) (first_of first) = months).
  { intros fuel Hf. rewrite month_start_first, (month_periods_all days first fuel (Z.to_nat (last - first + 1))) by lia.
    unfold months. rewrite Z2Nat.id by lia. rewrite (seqZ_app first (last - first) 1) by lia. rewrite fmap_app. f_equal.
    - apply list_fmap_ext. intros k i Hi%list_elem_of_lookup_2%elem_of_seqZ. rewrite month_period_at by lia. by rewrite decide_False by lia.
    - replace (first + (last - first)) with last by lia. change (seqZ last 1) with [Z.of_nat 0 + last]. cbn [fmap list_fmap].
      replace (Z.of_nat 0 + last) with last by lia. unfold last. rewrite month_period_at by lia. by rewrite decide_True. }
  split_and!; [|exact Hloop|lia|lia|apply month_bounds|apply month_bounds|].
  - unfold needed_pnl_periods, months_between. rewrite Hp, shifted_quarter, Hloop; [done|].
    rewrite month_start_first. pose proof (months_apart first (Z.to_nat (last - first))) as Ha.
    rewrite Z2Nat.id in Ha by lia. replace (first + (last - first)) with last in Ha by lia. fold last first. lia.
  - unfold baseline_window. rewrite Hp. cbn [mbind option_bind]. rewrite shifted_quarter, quarter_start_first.
    by replace (first + 12) with (quarter_index days) by lia.
Qed.

Lemma pnl_periods_tile_witness :
  needed_pnl_periods "2026-02-10" =
    (complete_month <$> seqZ (2025 * 12) 13) ++ [running_month 20494 (2026 * 12 + 1)] ++ week_periods 20494.
Proof.
  destruct (pnl_periods_tile "2026-02-10" 20494 eq_refl) as (Hp & _). rewrite Hp. rewrite <- app_assoc. reflexivity.
Defined.
