(* ===== verification/AccountingSync.v ===== *)
(** * The accounting sync pump ([bos-app/src/slices/accounting/worker.rs])

    A cycle walks the customers, bills and invoices of the provider page by page,
    each walk from where its cursor stands, then fetches the periods of the
    profit-and-loss report, the days since the prior month and the balance sheet, all
    within a budget of requests.

    The provider is a parameter: what it answers to the [n]-th request that is sent to
    it.  A request is sent by [http] or, for a token, by [refresh_and_persist], and by nothing
    else; each adds one to [requests_sent], which is the model's own count and no part of the
    program.
    The lock on the database is not held during a request, so whatever else the
    process does meanwhile comes in between; that is a parameter too ([meanwhile]).  [recover] is what
    happens when a credential expires in mid-cycle.  A cycle that returns an error
    keeps what it has written.

    The loop over an entity's pages spends a request of the budget in every round: it
    is structural in the budget. *)

From S2P Require Import Prelude RustStd RustStr StoreCore AppOutbox Identity AccountingRecords Schema Operators WorkItems Calendar Json AccountingStore AccountingViews.
Import AccountingDates.

Definition ENTITY_PNL : string := "pnl".
Definition ENTITY_BALANCE_SHEET : string := "balance_sheet".
Definition ACCOUNTING_SYNC_COOLDOWN_MS : N := 120000.
Definition ACCESS_TOKEN_SLACK_MS : N := 300000.

(** ** The provider *)

(** [n] counts the requests sent so far. *)
(* src: crates/bos-integrations/src/accounting_read.rs:186-220 AccountingReadClient *)
Record AccountingReadClient := {
  fetch_invoices : N → PageRequest.t → Result AccountingError (Page InvoiceRecord.t);
  fetch_customers : N → PageRequest.t → Result AccountingError (Page CustomerRecord.t);
  supports_bills : bool;
  fetch_bills : N → PageRequest.t → Result AccountingError (Page BillRecord.t);
  supports_pnl : bool;
  fetch_profit_and_loss : N → PnlReportRequest → Result AccountingError PnlReport;
  supports_balance_sheet : bool;
  fetch_balance_sheet : N → string → Result AccountingError BalanceSheetSummary;
}.

(* src: crates/bos-app/src/slices/accounting/worker.rs:168-174 CycleSummary *)
Record CycleSummary := {
  requests_used : N;
  rows_written : N;
  rows_unchanged : N;
  rate_limited : bool;
}.
Definition empty_cycle : CycleSummary := Build_CycleSummary 0 0 0 false.

Definition spend (s : CycleSummary) : CycleSummary :=
  Build_CycleSummary (requests_used s + 1) (rows_written s) (rows_unchanged s) (rate_limited s).
Definition count_rows (s : CycleSummary) (u : UpsertSummary) : CycleSummary :=
  Build_CycleSummary (requests_used s) (rows_written s + written u) (rows_unchanged s + unchanged u) (rate_limited s).
Definition count_row (s : CycleSummary) (was_written : bool) : CycleSummary :=
  count_rows s (count_upsert nothing_upserted was_written).
Definition throttled (s : CycleSummary) : CycleSummary :=
  Build_CycleSummary (requests_used s) (rows_written s) (rows_unchanged s) true.

(* src: crates/bos-app/src/slices/accounting/worker.rs:768-772 PageRecords *)
Inductive PageRecords :=
| Invoices (page : Page InvoiceRecord.t)
| Bills (page : Page BillRecord.t)
| Customers (page : Page CustomerRecord.t).

(* src: crates/bos-app/src/slices/accounting/worker.rs:774-778 AppliedPage *)
Record AppliedPage := {
  applied : UpsertSummary;
  walk_complete : bool;
}.

(** ** The guard *)

Module SyncGuard.
(* src: crates/bos-app/src/http.rs:135-151 SyncGuard *)
Record t := mk {
  in_flight : bool;
  last_attempt_ms : option N;
  last_success_ms : option N;
  last_outcome : option string;
  units_used : N;
  next_allowed_at_ms : N;
  kick_pending : bool;
  last_duration_ms : option N;
}.
End SyncGuard.

(* src: crates/bos-app/src/slices/accounting/worker.rs:177-191 try_begin_sync *)
Definition try_begin_sync (now : N) : Op SyncGuard.t string unit :=
  fun g =>
    if SyncGuard.in_flight g then (Err "sync_in_flight"%string, g)
    else if (now <? SyncGuard.next_allowed_at_ms g)%N then (Err "sync_cooldown"%string, g)
    else (Ok tt, SyncGuard.mk true (Some now) (SyncGuard.last_success_ms g) (SyncGuard.last_outcome g)
                   (SyncGuard.units_used g) (SyncGuard.next_allowed_at_ms g) (SyncGuard.kick_pending g)
                   (SyncGuard.last_duration_ms g)).

(** What [run_guarded_cycle] leaves in the guard once the cycle has ended with [result]. *)
(* src: crates/bos-app/src/slices/accounting/worker.rs:195-215 run_guarded_cycle (release) *)
Definition end_sync (result : Result string CycleSummary) (now : N) (g : SyncGuard.t) : SyncGuard.t :=
  SyncGuard.mk false (SyncGuard.last_attempt_ms g) (SyncGuard.last_success_ms g)
    (Some match result with
          | Ok summary => if rate_limited summary then "rate_limited"%string else "ok"%string
          | Err err => "error: " +:+ err
          end)
    (match result with Ok summary => requests_used summary | Err _ => SyncGuard.units_used g end)
    (wrapping_add_u64 now ACCOUNTING_SYNC_COOLDOWN_MS) (SyncGuard.kick_pending g) (SyncGuard.last_duration_ms g).

(** The process and the outside: its host, and how many requests went out. *)
Record Pump := mk_pump {
  pump_host : Host;
  requests_sent : N;
}.

Section sync.
Context (constraint_failed : string) `{AccountingTexts} (client_id : string).

Abbreviation CycleOp := (Op Pump string).

(** [.map_err(|err| err.to_string())]. *)
Definition texted {A} (m : HostOp A) : CycleOp A :=
  fun w => let (r, h') := m (pump_host w) in
    (match r with Ok a => Ok a | Err e => Err (StoreError.fmt e) end, mk_pump h' (requests_sent w)).
Definition on_books {A} (m : AppOp A) : CycleOp A := texted (on_db m).

(** ** Tokens *)

(** [TOKEN_PERSIST_RETRY_DELAYS_MS] has three delays; sleeping is not modelled. *)
Fixpoint retry_persist {A} (retries : nat) (operation : HostOp A) : HostOp A :=
  match retries with
  | O => operation
  | S retries => fun h =>
    match operation h with
    | (Err error, h') => if is_sqlite_busy error then retry_persist retries operation h' else (Err error, h')
    | ok => ok
    end
  end.

(* src: crates/bos-app/src/slices/accounting/worker.rs:895-908 persist_with_lock_retry *)
Definition persist_with_lock_retry {A} (operation : HostOp A) : HostOp A := retry_persist 3 operation.

(** [matches!(&error, Permanent { code, .. } if code == "qbo_token_rejected")]. *)
Definition token_rejected (error : AccountingError) : bool :=
  match error with Permanent code _ => string_eqb code "qbo_token_rejected" | _ => false end.

(** [refresh] is the provider's token endpoint; during the request the database is not locked. *)
(* src: crates/bos-app/src/slices/accounting/worker.rs:847-890 refresh_and_persist *)
Definition refresh_and_persist (meanwhile : N → Host → Host) (refresh : string → N → Result AccountingError QboTokenGrant) (refresh_token : string) (now : N)
    : Op Pump AccountingError QboTokenGrant :=
  fun w =>
    let h := meanwhile (requests_sent w) (pump_host w) in
    let sent := (requests_sent w + 1)%N in
    match refresh refresh_token now with
    | Err error =>
      if token_rejected error then
        let h := (latch_reconnect_required client_id h).2 in
        (Err error, mk_pump (persist_with_lock_retry (mark_reconnect_required constraint_failed client_id "qbo_token_rejected" now) h).2 sent)
      else (Err error, mk_pump h sent)
    | Ok grant =>
      match persist_with_lock_retry (update_tokens_after_refresh constraint_failed client_id grant now) h with
      | (Ok _, h') => (Ok grant, mk_pump h' sent)
      | (Err err, h') => (Err (Permanent "qbo_token_persist_failed" (StoreError.fmt err)), mk_pump h' sent)
      end
    end.

(* src: crates/bos-app/src/slices/accounting/worker.rs:48-50 NoAuthRecovery::recover *)
Definition no_auth_recovery (now : N) : CycleOp unit :=
  op_lift (Err "credential expired and this provider has no refresh path"%string).

(** The client's token cell is part of the provider's further answers. *)
(* src: crates/bos-app/src/slices/accounting/worker.rs:62-69 QboAuthRecovery::recover *)
Definition qbo_auth_recovery (meanwhile : N → Host → Host) (refresh : string → N → Result AccountingError QboTokenGrant) (refresh_token : string) (now : N)
    : CycleOp unit :=
  fun w => match refresh_and_persist meanwhile refresh refresh_token now w with
           | (Ok _, w') => (Ok tt, w')
           | (Err err, w') => (Err (accounting_error_text err), w')
           end.

(** The credential, an access token, the requests spent, and the budget left. *)
(* src: crates/bos-app/src/slices/accounting/worker.rs:292-322 prepare_qbo_credentials *)
Definition prepare_qbo_credentials (meanwhile : N → Host → Host) (refresh : string → N → Result AccountingError QboTokenGrant) (budget : nat) (now : N)
    : CycleOp (option (StoredQboCredential.t * string * N) * nat) :=
  let? credential := on_books (get_credential client_id) in
  match credential with
  | None => op_ret (None, budget)
  | Some credential =>
    let? latched := texted (reconnect_latched client_id) in
    if StoredQboCredential.reconnect_required credential || latched then op_ret (None, budget)
    else
      match (token ← StoredQboCredential.access_token credential;
             if (wrapping_add_u64 now ACCESS_TOKEN_SLACK_MS <? StoredQboCredential.access_token_expires_at_ms credential)%N
             then Some token else None) with
      | Some token => op_ret (Some (credential, token, 0%N), budget)
      | None =>
        match budget with
        | O => op_lift (Err "request budget exhausted before token refresh"%string)
        | S budget => fun w =>
          match refresh_and_persist meanwhile refresh (StoredQboCredential.refresh_token credential) now w with
          | (Err err, w') => (Err ("token refresh failed: " +:+ accounting_error_text err), w')
          | (Ok grant, w') => (Ok (Some (StoredQboCredential.mk
              (StoredQboCredential.realm_id credential) (StoredQboCredential.environment credential)
              (grant_refresh_token grant) (StoredQboCredential.refresh_token_expires_at_ms credential)
              (StoredQboCredential.access_token credential) (StoredQboCredential.access_token_expires_at_ms credential)
              (StoredQboCredential.connected_by_user_id credential) (StoredQboCredential.connected_at_ms credential)
              (StoredQboCredential.reconnect_required credential) (StoredQboCredential.connection_error_code credential)
              (StoredQboCredential.connection_error_at_ms credential), grant_access_token grant, 1%N), budget), w')
          end
        end
      end
  end.

(** ** Pages *)

(** [.map(|r| r.updated_at.clone()).max()]. *)
Definition max_text (l : list string) : option string :=
  foldl (fun acc s => match acc with None => Some s | Some m => if str_ge s m then Some s else acc end) None l.

(** [match (walk_max.take(), max_updated)]. *)
Definition later (current seen : option string) : option string :=
  match current, seen with
  | Some current, Some seen => Some (if negb (str_ge current seen) then seen else current)
  | _, _ => or_else seen current
  end.

(** A page with its records written: what was counted, its length, its size, the latest change. *)
Definition upsert_page (page : PageRecords) (now : N) : AppOp (UpsertSummary * N * N * option string) :=
  match page with
  | Invoices page =>
    op_map (fun s => (s, len (records page), requested_page_size page, max_text (InvoiceRecord.updated_at <$> records page)))
      (upsert_invoice_snapshots constraint_failed client_id (records page) now)
  | Bills page =>
    op_map (fun s => (s, len (records page), requested_page_size page, max_text (BillRecord.updated_at <$> records page)))
      (upsert_bill_snapshots constraint_failed client_id (records page) now)
  | Customers page =>
    op_map (fun s => (s, len (records page), requested_page_size page,
                      max_text (omap (M:=list) CustomerRecord.updated_at (records page))))
      (upsert_customer_snapshots constraint_failed client_id (records page) now)
  end.

(** The cursor after a page: the walk's end promotes the high water. *)
(* src: crates/bos-app/src/slices/accounting/worker.rs:820-838 apply_page (the cursor) *)
Definition advance_cursor (cursor : QboSyncCursor.t) (walk_since : option string) (record_count page_size : N)
    (max_updated : option string) : QboSyncCursor.t :=
  let walk_max := later (QboSyncCursor.walk_max_updated_at cursor) max_updated in
  if (record_count <? page_size)%N then {|
    QboSyncCursor.high_water_updated_at := or_else walk_max (QboSyncCursor.high_water_updated_at cursor);
    QboSyncCursor.walk_since := None;
    QboSyncCursor.walk_max_updated_at := None;
    QboSyncCursor.next_start_position := 1;
    QboSyncCursor.backfill_complete := true;
    QboSyncCursor.rate_limited_until_ms := 0;
    QboSyncCursor.last_error := None;
    QboSyncCursor.last_advanced_at_ms := QboSyncCursor.last_advanced_at_ms cursor;
  |}
  else {|
    QboSyncCursor.high_water_updated_at := QboSyncCursor.high_water_updated_at cursor;
    QboSyncCursor.walk_since := walk_since;
    QboSyncCursor.walk_max_updated_at := walk_max;
    QboSyncCursor.next_start_position := ((QboSyncCursor.next_start_position cursor + page_size) mod 4294967296)%N;
    QboSyncCursor.backfill_complete := QboSyncCursor.backfill_complete cursor;
    QboSyncCursor.rate_limited_until_ms := 0;
    QboSyncCursor.last_error := None;
    QboSyncCursor.last_advanced_at_ms := QboSyncCursor.last_advanced_at_ms cursor;
  |}.

(* src: crates/bos-app/src/slices/accounting/worker.rs:781-845 apply_page *)
Definition apply_page (entity : string) (page : PageRecords) (cursor : QboSyncCursor.t) (walk_since : option string) (now : N)
    : AppOp AppliedPage :=
  let? applied := upsert_page page now in
  let '(summary, record_count, page_size, max_updated) := applied in
  put_cursor constraint_failed client_id entity (advance_cursor cursor walk_since record_count page_size max_updated) now ;;?
  op_ret (Build_AppliedPage summary (record_count <? page_size)%N).

Definition with_error (cursor : QboSyncCursor.t) (last_error : option string) : QboSyncCursor.t :=
  QboSyncCursor.mk (QboSyncCursor.high_water_updated_at cursor) (QboSyncCursor.walk_since cursor)
    (QboSyncCursor.walk_max_updated_at cursor) (QboSyncCursor.next_start_position cursor)
    (QboSyncCursor.backfill_complete cursor) (QboSyncCursor.rate_limited_until_ms cursor) last_error
    (QboSyncCursor.last_advanced_at_ms cursor).

(** [stamped.rate_limited_until_ms = now + retry_after_ms.unwrap_or(60_000); stamped.last_error = Some(message)]. *)
Definition stamped (cursor : QboSyncCursor.t) (retry_after_ms : option N) (message : string) (now : N) : QboSyncCursor.t :=
  QboSyncCursor.mk (QboSyncCursor.high_water_updated_at cursor) (QboSyncCursor.walk_since cursor)
    (QboSyncCursor.walk_max_updated_at cursor) (QboSyncCursor.next_start_position cursor)
    (QboSyncCursor.backfill_complete cursor) (wrapping_add_u64 now (default 60000%N retry_after_ms)) (Some message)
    (QboSyncCursor.last_advanced_at_ms cursor).

(** [cleared.last_error = None; cleared.backfill_complete = true]. *)
Definition cleared (cursor : QboSyncCursor.t) : QboSyncCursor.t :=
  QboSyncCursor.mk (QboSyncCursor.high_water_updated_at cursor) (QboSyncCursor.walk_since cursor)
    (QboSyncCursor.walk_max_updated_at cursor) (QboSyncCursor.next_start_position cursor) true
    (QboSyncCursor.rate_limited_until_ms cursor) None (QboSyncCursor.last_advanced_at_ms cursor).

(* src: crates/bos-app/src/slices/accounting/worker.rs:910-924 record_entity_error *)
Definition record_entity_error (entity error : string) (now : N) : CycleOp unit :=
  let? cursor := on_books (get_cursor client_id entity) in
  on_books (put_cursor constraint_failed client_id entity (with_error cursor (Some (take_chars 300 error))) now) ;;?
  op_ret tt.

(** ** The cycle *)

Section cycle.
Context (client : AccountingReadClient) (meanwhile : N → Host → Host) (recover : N → CycleOp unit) (now : N).

(** One HTTP request: the database is not locked while it runs. *)
Definition http {A} (answer : N → A) : CycleOp A :=
  fun w => (Ok (answer (requests_sent w)), mk_pump (meanwhile (requests_sent w) (pump_host w)) (requests_sent w + 1)).

(** [auth.recover(state, now)]. *)
Definition recovered : CycleOp (Result string unit) := fun w => let (r, w') := recover now w in (Ok r, w').

(* src: crates/bos-app/src/slices/accounting/worker.rs:754-766 fetch_entity_page *)
Definition fetch_entity_page (n : N) (entity : string) (page : PageRequest.t) : Result AccountingError PageRecords :=
  if string_eqb entity ENTITY_CUSTOMER then Result_map Customers (fetch_customers client n page)
  else if string_eqb entity ENTITY_BILL then Result_map Bills (fetch_bills client n page)
  else Result_map Invoices (fetch_invoices client n page).

(** What remains of the budget, what was done, whether a credential was recovered;
    and whether the cycle goes on or has returned [Ok(summary)]. *)
Record Progress := {
  budget : nat;
  done_so_far : CycleSummary;
  recovered_after_expiry : bool;
  goes_on : bool;
}.
Definition go_on (budget : nat) (s : CycleSummary) (recovered : bool) : Progress := Build_Progress budget s recovered true.
Definition stop (budget : nat) (s : CycleSummary) (recovered : bool) : Progress := Build_Progress budget s recovered false.

(** An in-progress walk keeps its filter, a fresh one starts from the high water. *)
Definition walk_filter (cursor : QboSyncCursor.t) : option string :=
  if (1 <? QboSyncCursor.next_start_position cursor)%N then QboSyncCursor.walk_since cursor
  else QboSyncCursor.high_water_updated_at cursor.

Definition page_request (cursor : QboSyncCursor.t) : PageRequest.t :=
  PageRequest.mk (walk_filter cursor) (QboSyncCursor.next_start_position cursor) ACCOUNTING_MAX_PAGE_SIZE.

(** The loop over the pages of an entity. *)
(* src: crates/bos-app/src/slices/accounting/worker.rs:380-465 run_sync_cycle (an entity) *)
Fixpoint sync_entity (budget : nat) (entity : string) (summary : CycleSummary) (retried : bool) : CycleOp Progress :=
  match budget with
  | O => op_ret (stop O summary retried)
  | S budget' =>
    let? cursor := on_books (get_cursor client_id entity) in
    if (now <? QboSyncCursor.rate_limited_until_ms cursor)%N then op_ret (go_on budget summary retried)
    else
      let spent := spend summary in
      let? fetched := http (fun n => fetch_entity_page n entity (page_request cursor)) in
      match fetched with
      | Ok page =>
        let? applied_page := on_books (apply_page entity page cursor (walk_filter cursor) now) in
        let summary := count_rows spent (applied applied_page) in
        if walk_complete applied_page then op_ret (go_on budget' summary retried)
        else sync_entity budget' entity summary retried
      | Err (RateLimited retry_after_ms message) =>
        on_books (put_cursor constraint_failed client_id entity (stamped cursor retry_after_ms message now) now) ;;?
        op_ret (stop budget' (throttled spent) retried)
      | Err (AuthExpired message) =>
        if retried then
          record_entity_error entity ("auth: " +:+ message) now ;;?
          op_lift (Err "provider rejected a freshly refreshed credential"%string)
        else
          match budget' with
          | O => op_ret (stop O spent retried)
          | S budget'' =>
            let? answer := recovered in
            match answer with
            | Ok _ => sync_entity budget'' entity (spend spent) true
            | Err err =>
              record_entity_error entity ("auth: " +:+ err) now ;;?
              op_lift (Err ("credential recovery failed: " +:+ err))
            end
          end
      | Err err =>
        record_entity_error entity (accounting_error_text err) now ;;?
        op_ret (go_on budget' spent retried)
      end
  end.

(** [for entity in entities]. *)
Fixpoint sync_entities (entities : list string) (p : Progress) : CycleOp Progress :=
  match entities with
  | [] => op_ret p
  | entity :: entities =>
    let? p := sync_entity (budget p) entity (done_so_far p) (recovered_after_expiry p) in
    if goes_on p then sync_entities entities p else op_ret p
  end.

(** [let mut ..]s that a step of the reports changes. *)
Abbreviation Ledger := (nat * CycleSummary)%type.

Definition pnl_snapshot (period : PnlPeriod.t) (report : PnlReport) : PnlSnapshotRow.t := {|
  PnlSnapshotRow.period_kind := PnlPeriod.kind period;
  PnlSnapshotRow.period_start := PnlPeriod.start period;
  PnlSnapshotRow.period_end := PnlPeriod.stop period;
  PnlSnapshotRow.total_income_cents := total_income (summary report);
  PnlSnapshotRow.total_cogs_cents := total_cogs (summary report);
  PnlSnapshotRow.gross_profit_cents := gross_profit (summary report);
  PnlSnapshotRow.is_complete := PnlPeriod.is_complete period;
|}.

(** The loop over the queue of periods: whether all were fetched, or that it returned. *)
(* src: crates/bos-app/src/slices/accounting/worker.rs:511-570 sync_pnl_periods (the queue) *)
Fixpoint fetch_periods (queue : list PnlPeriod.t) (cursor : QboSyncCursor.t) (budget : nat) (s : CycleSummary)
    : CycleOp (Ledger * option bool) :=
  match queue with
  | [] => op_ret ((budget, s), Some true)
  | period :: queue =>
    match budget with
    | O => op_ret ((O, s), Some false)
    | S budget =>
      let spent := spend s in
      let? fetched := http (fun n => fetch_profit_and_loss client n
                        (Build_PnlReportRequest (PnlPeriod.start period) (PnlPeriod.stop period) ByTotal)) in
      match fetched with
      | Ok report =>
        let? was_written := on_books (upsert_pnl_snapshot constraint_failed client_id (pnl_snapshot period report) now) in
        fetch_periods queue cursor budget (count_row spent was_written)
      | Err (RateLimited retry_after_ms message) =>
        on_books (put_cursor constraint_failed client_id ENTITY_PNL (stamped cursor retry_after_ms message now) now) ;;?
        op_ret ((budget, throttled spent), None)
      | Err err =>
        record_entity_error ENTITY_PNL (accounting_error_text err) now ;;?
        op_ret ((budget, spent), None)
      end
    end
  end.

(** Incomplete periods first, then the complete ones not yet cached. *)
(* src: crates/bos-app/src/slices/accounting/worker.rs:505-510 sync_pnl_periods (the order) *)
Definition period_queue (needed : list PnlPeriod.t) (cached_complete : gset (string * string)) : list PnlPeriod.t :=
  filter (fun p => PnlPeriod.is_complete p = false) needed
  ++ filter (fun p => PnlPeriod.is_complete p = true ∧ (PnlPeriod.kind p, PnlPeriod.start p) ∉ cached_complete) needed.

(* src: crates/bos-app/src/slices/accounting/worker.rs:482-587 sync_pnl_periods *)
Definition sync_pnl_periods (ledger : Ledger) : CycleOp Ledger :=
  let needed := needed_pnl_periods (today_string now) in
  let? cached_complete := on_books (complete_pnl_period_starts client_id) in
  let? cursor := on_books (get_cursor client_id ENTITY_PNL) in
  if (now <? QboSyncCursor.rate_limited_until_ms cursor)%N then op_ret ledger
  else
    let? fetched := fetch_periods (period_queue needed cached_complete) cursor ledger.1 ledger.2 in
    let (ledger, all_fetched) := fetched in
    match all_fetched with
    | Some true =>
      if bool_decide (is_Some (QboSyncCursor.last_error cursor)) || negb (QboSyncCursor.backfill_complete cursor) then
        on_books (put_cursor constraint_failed client_id ENTITY_PNL (cleared cursor) now) ;;?
        op_ret ledger
      else op_ret ledger
    | _ => op_ret ledger
    end.

Definition day_snapshot (day : PnlDailySummary) : PnlSnapshotRow.t :=
  PnlSnapshotRow.mk "day" (day_date day) (day_date day) (day_income day) 0 (day_income day) true.

(** The days of a report: the counts, and whether any was written. *)
Fixpoint upsert_days (days : list PnlDailySummary) (s : CycleSummary) (written_any : bool) : CycleOp (CycleSummary * bool) :=
  match days with
  | [] => op_ret (s, written_any)
  | day :: days =>
    let? was_written := on_books (upsert_pnl_snapshot constraint_failed client_id (day_snapshot day) now) in
    upsert_days days (count_row s was_written) (written_any || was_written)
  end.

(* src: crates/bos-app/src/slices/accounting/worker.rs:589-675 sync_daily_revenue *)
Definition sync_daily_revenue (ledger : Ledger) : CycleOp Ledger :=
  let today := today_string now in
  match prior_month_to_date_window today with
  | None => op_ret ledger
  | Some (start, _) =>
    let? cursor := on_books (get_cursor client_id ENTITY_PNL) in
    match ledger.1 with
    | O => op_ret ledger
    | S budget =>
      if (now <? QboSyncCursor.rate_limited_until_ms cursor)%N then op_ret ledger
      else
        let spent := spend ledger.2 in
        let? fetched := http (fun n => fetch_profit_and_loss client n (Build_PnlReportRequest start today ByDays)) in
        match fetched with
        | Ok report =>
          let? days := upsert_days (daily_income report) spent false in
          let (s, written_any) := days in
          if (written_any : bool) && bool_decide (is_Some (QboSyncCursor.last_error cursor)) then
            on_books (put_cursor constraint_failed client_id ENTITY_PNL (with_error cursor None) now) ;;?
            op_ret (budget, s)
          else op_ret (budget, s)
        | Err (RateLimited retry_after_ms message) =>
          on_books (put_cursor constraint_failed client_id ENTITY_PNL (stamped cursor retry_after_ms message now) now) ;;?
          op_ret (budget, throttled spent)
        | Err err =>
          record_entity_error ENTITY_PNL (accounting_error_text err) now ;;?
          op_ret (budget, spent)
        end
    end
  end.

(* src: crates/bos-app/src/slices/accounting/worker.rs:677-752 sync_balance_sheet *)
Definition sync_balance_sheet (ledger : Ledger) : CycleOp Ledger :=
  let today := today_string now in
  let? cursor := on_books (get_cursor client_id ENTITY_BALANCE_SHEET) in
  match ledger.1 with
  | O => op_ret ledger
  | S budget =>
    if (now <? QboSyncCursor.rate_limited_until_ms cursor)%N then op_ret ledger
    else
      let spent := spend ledger.2 in
      let? fetched := http (fun n => fetch_balance_sheet client n today) in
      match fetched with
      | Ok report =>
        let? was_written := on_books (upsert_balance_sheet_snapshot constraint_failed client_id today report now) in
        (if bool_decide (is_Some (QboSyncCursor.last_error cursor)) || negb (QboSyncCursor.backfill_complete cursor)
         then op_map (fun _ => tt) (on_books (put_cursor constraint_failed client_id ENTITY_BALANCE_SHEET (cleared cursor) now))
         else op_ret tt) ;;?
        op_ret (budget, count_row spent was_written)
      | Err (RateLimited retry_after_ms message) =>
        on_books (put_cursor constraint_failed client_id ENTITY_BALANCE_SHEET (stamped cursor retry_after_ms message now) now) ;;?
        op_ret (budget, throttled spent)
      | Err err =>
        record_entity_error ENTITY_BALANCE_SHEET (accounting_error_text err) now ;;?
        op_ret (budget, spent)
      end
  end.

(** Customers first, for their names; bills before invoices, so that a long backfill
    does not starve them. *)
Definition walked_entities : list string :=
  if supports_bills client then [ENTITY_CUSTOMER; ENTITY_BILL; ENTITY_INVOICE] else [ENTITY_CUSTOMER; ENTITY_INVOICE].

(** A deadline on any cursor stands for the whole account. *)
Definition backoff_until : AppOp N :=
  read_tables (fun t => foldr N.max 0%N ((fun entity =>
    QboSyncCursor.rate_limited_until_ms (default QboSyncCursor.initial
      (cursor_from_row <$> accounting_sync_cursors (accounting t) !! (client_id, entity))))
    <$> [ENTITY_CUSTOMER; ENTITY_BILL; ENTITY_INVOICE; ENTITY_PNL; ENTITY_BALANCE_SHEET])).

(* src: crates/bos-app/src/slices/accounting/worker.rs:327-476 run_sync_cycle *)
Definition run_sync_cycle (max_requests : nat) : CycleOp CycleSummary :=
  let? backoff := on_books backoff_until in
  if (now <? backoff)%N then op_ret empty_cycle
  else
    let? p := sync_entities walked_entities (go_on max_requests empty_cycle false) in
    if negb (goes_on p) then op_ret (done_so_far p)
    else
      let? ledger := if supports_pnl client
                     then (let? ledger := sync_pnl_periods (budget p, done_so_far p) in sync_daily_revenue ledger)
                     else op_ret (budget p, done_so_far p) in
      let? ledger := if supports_balance_sheet client then sync_balance_sheet ledger else op_ret ledger in
      op_ret ledger.2.
End cycle.

(** A cycle at QuickBooks.  The credential it starts with may cost a request, which the cycle
    has the less and counts in the end.  [app_configured]: the environment names an OAuth app.
    The refresh token of the grant is used for the one recovery there may be. *)
(* src: crates/bos-app/src/slices/accounting/worker.rs:260-287 run_live_qbo_cycle *)
Definition run_live_qbo_cycle (app_configured : bool) (refresh : string → N → Result AccountingError QboTokenGrant)
    (client : StoredQboCredential.t → string → AccountingReadClient) (meanwhile : N → Host → Host) (now : N) (max_requests : nat)
    : CycleOp CycleSummary :=
  op_lift (guard_err (negb app_configured) "qbo oauth app unconfigured"%string) ;;?
  let? prepared := prepare_qbo_credentials meanwhile refresh max_requests now in
  match prepared with
  | (None, _) => op_ret empty_cycle
  | (Some (credential, access_token, prep_requests), budget) =>
    let? summary := run_sync_cycle (client credential access_token) meanwhile
      (qbo_auth_recovery meanwhile refresh (StoredQboCredential.refresh_token credential)) now budget in
    op_ret (Build_CycleSummary (requests_used summary + prep_requests) (rows_written summary) (rows_unchanged summary)
              (rate_limited summary))
  end.
End sync.
