(* ===== verification/AccountingProps.v ===== *)
(** * What the accounting caches hold

    The caches are written under keys made of a record and the hash of its contents.
    A key takes effect once, so contents that come back after they have changed, or
    after the cache was emptied, are never written again. *)

From S2P Require Import Prelude RustStd RustStr StoreCore StoreCoreProps AppOutbox AppOutboxProps AccountingRecords Schema SliceCore Operators WorkItems Calendar Json AccountingStore.
Import Spine.

Section caches.
Context (constraint_failed : string) `{AccountingTexts}.
Implicit Types db : AppDb.

Abbreviation books db := (accounting (tables db)).

Lemma tables_accounting db f : accounting (set_accounting (tables db) (f (books db))) = f (books db).
Proof. done. Qed.

(** ** One record *)

Section record.
Context {R K : Type} `{CacheTable R K} (Hset : ∀ t rows, cache_rows (set_cache_rows t rows) = rows).
Abbreviation upsert := (upsert_record constraint_failed).

Definition cache_entry (c : string) (r : R) db : option (Cached R) := cache_rows (books db) !! (c, record_key r).
Definition entry_current (c : string) (r : R) db : Prop :=
  option_any (fun row => string_eqb (content_hash row) (record_hash r)) (cache_entry c r db) = true.

Definition new_entry (c : string) (r : R) (now : N) db : Cached R :=
  mk_cached r (record_hash r) (default (u64_as_i64 now) (first_seen_at_ms <$> cache_entry c r db)) (u64_as_i64 now).

(** An upsert leaves the cache alone if the contents are cached or their key was used
    before; otherwise it stores the record.  It never fails. *)
Inductive upserted (c : string) (r : R) (now : N) db : Result StoreError.t bool * AppDb → Prop :=
| upsert_current : entry_current c r db → upserted c r now db (Ok false, db)
| upsert_lost db' :
    ¬ entry_current c r db → key_used db c (upsert_key r) → tables db' = tables db → spine_wf db' →
    receipts_grow db db' → (∀ c k, key_used db' c k → key_used db c k) → upserted c r now db (Ok true, db')
| upsert_kept db' :
    ¬ entry_current c r db → key_free db c (upsert_key r) →
    tables db' = set_accounting (tables db)
      (set_cache_rows (books db) (<[(c, record_key r) := new_entry c r now db]> (cache_rows (books db)))) →
    spine_wf db' → receipts_grow db db' → key_used db' c (upsert_key r) →
    (∀ c' k, key_used db' c' k → key_used db c' k ∨ c' = c ∧ k = upsert_key r) → upserted c r now db (Ok true, db').

Lemma upsert_cases c r now db : spine_wf db → upserted c r now db (upsert c r now db).
Proof.
  intros Hwf. unfold upsert_record, read_accounting, read_tables, op_bind at 1.
  fold (cache_entry c r db). case_match eqn:Hcur; [by apply upsert_current|].
  assert (Hn : ¬ entry_current c r db) by (unfold entry_current; by rewrite Hcur).
  set (request := accounting_request _ _ _ _ _ _ _ _ _). set (write := cache_record _ _ _ _).
  pose proof (mutate_put constraint_failed request write
    (fun t => set_accounting t (set_cache_rows (accounting t) (<[(c, record_key r) := new_entry c r now db]> (cache_rows (accounting t)))))
    db Hwf (slice_write_update _) eq_refl ltac:(eexists; split; reflexivity)) as Hput.
  unfold op_bind. inversion Hput; [by eapply upsert_lost|by eapply upsert_kept].
Qed.

(** An upsert always answers, keeps the log and changes at most the record's entry. *)
Lemma upsert_total c r now db :
  spine_wf db → ∃ b db', upsert c r now db = (Ok b, db') ∧ spine_wf db' ∧ receipts_grow db db'.
Proof.
  intros Hwf. destruct (upsert_cases c r now db Hwf) as [|db'|db']; eexists _, _; (split; [done|]); [|done..].
  split; [done|apply receipts_grow_refl].
Qed.

Lemma upsert_others c r now db p :
  spine_wf db → p ≠ (c, record_key r) → cache_rows (books (upsert c r now db).2) !! p = cache_rows (books db) !! p.
Proof using Type Hset.
  intros Hwf Hp. destruct (upsert_cases c r now db Hwf) as [|db' _ _ Ht|db' _ _ Ht]; cbn [snd]; [done|by rewrite Ht|].
  rewrite Ht. cbn. by rewrite Hset, lookup_insert_ne.
Qed.

(** ** Many records *)

Definition upsert_each (c : string) (now : N) db (rs : list R) : AppDb := foldl (fun db r => (upsert c r now db).2) db rs.

Lemma upsert_records_each c rs now s db :
  spine_wf db → ∃ s', upsert_records constraint_failed c rs now s db = (Ok s', upsert_each c now db rs).
Proof.
  revert s db. induction rs as [|r rs IH]; intros s db Hwf; [by exists s|]. cbn [upsert_records upsert_each foldl].
  destruct (upsert_total c r now db Hwf) as (b & db' & Hu & Hwf' & _). unfold op_bind. rewrite Hu. by apply IH.
Qed.

Lemma upsert_each_wf c now rs db :
  spine_wf db → spine_wf (upsert_each c now db rs) ∧ receipts_grow db (upsert_each c now db rs).
Proof.
  revert db. induction rs as [|r rs IH]; intros db Hwf; [split; [done|apply receipts_grow_refl]|]. cbn [upsert_each foldl].
  destruct (upsert_total c r now db Hwf) as (b & db' & Hu & Hwf' & Hg). rewrite Hu. destruct (IH db' Hwf') as [Ha Hb].
  split; [exact Ha|]. by eapply receipts_grow_trans.
Qed.

(** ** What the cache shows

    The records of one key in the order they were given; of them those that said
    something for the first time. *)

Definition of_key (k : K) (rs : list R) : list R := filter (fun r => record_key r = k) rs.

Fixpoint first_said (seen : list string) (rs : list R) : list R :=
  match rs with
  | [] => []
  | r :: rs =>
    if existsb (string_eqb (record_hash r)) seen then first_said seen rs
    else r :: first_said (record_hash r :: seen) rs
  end.

Lemma said_before seen r rs :
  existsb (string_eqb (record_hash r)) (seen ++ (record_hash <$> rs)) = true ↔
  record_hash r ∈ seen ∨ ∃ r', r' ∈ rs ∧ record_hash r' = record_hash r.
Proof.
  rewrite existsb_string_eqb, bool_decide_eq_true, elem_of_app, list_elem_of_fmap.
  split; (intros [?|(x & ? & ?)]; [by left|right; by exists x]).
Qed.

Lemma existsb_same (s : string) l l' : (∀ x, x ∈ l ↔ x ∈ l') → existsb (string_eqb s) l = existsb (string_eqb s) l'.
Proof. intros Hl. rewrite !existsb_string_eqb. apply bool_decide_ext, Hl. Qed.

Lemma first_said_snoc seen rs r :
  first_said seen (rs ++ [r]) = first_said seen rs ++
    (if existsb (string_eqb (record_hash r)) (seen ++ (record_hash <$> rs)) then [] else [r]).
Proof.
  revert seen. induction rs as [|r' rs IH]; intros seen; cbn [first_said app fmap list_fmap].
  { rewrite app_nil_r. by destruct (existsb _ _). }
  rewrite !IH. destruct (existsb (string_eqb (record_hash r')) seen) eqn:Hs; cbn [app].
  - rewrite existsb_string_eqb, bool_decide_eq_true in Hs. f_equal.
    rewrite (existsb_same _ (seen ++ (record_hash <$> rs)) (seen ++ record_hash r' :: (record_hash <$> rs))); [done|clear Hset; set_solver].
  - do 2 f_equal. rewrite (existsb_same _ (record_hash r' :: seen ++ (record_hash <$> rs)) (seen ++ record_hash r' :: (record_hash <$> rs)));
      [done|clear Hset; set_solver].
Qed.

(** The entry of [k] is the last record of [history] that said something new, after what
    was said [before] the cache was emptied. *)
Definition shows_last_new (c : string) (k : K) (before history : list R) db : Prop :=
  cached_record <$> cache_rows (books db) !! (c, k)
    = last (first_said (record_hash <$> of_key k before) (of_key k history)) ∧
  ∀ row, cache_rows (books db) !! (c, k) = Some row → content_hash row = record_hash (cached_record row).

Record cache_follows (c : string) (before history : list R) db : Prop := {
  follows_wf : spine_wf db;
  follows_rows k : shows_last_new c k before history db;
  follows_keys r : key_used db c (upsert_key r) ↔ ∃ r', r' ∈ before ++ history ∧ upsert_key r' = upsert_key r;
}.

Context (Hkey : ∀ r r' : R, upsert_key r = upsert_key r' ↔ record_key r = record_key r' ∧ record_hash r = record_hash r').

Lemma of_key_snoc k rs r : of_key k (rs ++ [r]) = of_key k rs ++ (if decide (record_key r = k) then [r] else []).
Proof. unfold of_key. by rewrite filter_app. Qed.

(** Contents said before change nothing in the reference, new ones come last. *)
Lemma last_said_snoc k before rs r :
  record_key r = k →
  last (first_said (record_hash <$> of_key k before) (of_key k (rs ++ [r]))) =
    if existsb (string_eqb (record_hash r)) (record_hash <$> of_key k (before ++ rs))
    then last (first_said (record_hash <$> of_key k before) (of_key k rs)) else Some r.
Proof.
  intros Hk. rewrite of_key_snoc, decide_True by done. rewrite first_said_snoc.
  unfold of_key at 5. rewrite filter_app, fmap_app. fold (of_key k before) (of_key k rs).
  destruct (existsb _ _); [by rewrite app_nil_r|by rewrite last_snoc].
Qed.

Lemma said_key rs r :
  existsb (string_eqb (record_hash r)) (record_hash <$> of_key (record_key r) rs) = true ↔
  ∃ r', r' ∈ rs ∧ upsert_key r' = upsert_key r.
Proof using Type Hkey.
  change (record_hash <$> of_key (record_key r) rs) with ([] ++ (record_hash <$> of_key (record_key r) rs)).
  rewrite said_before, elem_of_nil. unfold of_key. split.
  - intros [[]|(r' & [Hk Hin]%list_elem_of_filter & Hh)]. exists r'. by rewrite Hkey.
  - intros (r' & Hin & [Hk Hh]%Hkey). right. exists r'. by rewrite list_elem_of_filter.
Qed.

Lemma written_snoc (history : list R) r x :
  (∃ r', r' ∈ history ++ [r] ∧ upsert_key r' = upsert_key x) ↔
  (∃ r', r' ∈ history ∧ upsert_key r' = upsert_key x) ∨ upsert_key r = upsert_key x.
Proof.
  split.
  - intros (r' & [Hin| ->%list_elem_of_singleton]%elem_of_app & Heq); [left; by exists r'|by right].
  - intros [(r' & Hin & Heq)|Heq]; [exists r'|exists r]; (split; [|done]); apply elem_of_app; [by left|right; by left].
Qed.

Lemma upsert_follows c now before history r db :
  cache_follows c before history db → cache_follows c before (history ++ [r]) (upsert c r now db).2.
Proof using Type Hset Hkey.
  intros [Hwf Hrows Hkeys].
  assert (Hsame : ∀ k, record_key r ≠ k → of_key k (history ++ [r]) = of_key k history).
  { intros k Hk. by rewrite of_key_snoc, decide_False, app_nil_r. }
  assert (Hold : ∀ db', tables db' = tables db → spine_wf db' → (∃ r', r' ∈ before ++ history ∧ upsert_key r' = upsert_key r) →
    (∀ r', key_used db' c (upsert_key r') ↔ key_used db c (upsert_key r')) → cache_follows c before (history ++ [r]) db').
  { intros db' Ht Hwf' Hin Hu. split; [done| |].
    - intros k. unfold shows_last_new. rewrite Ht. destruct (Hrows k) as [Ha Hb]. split; [|done]. rewrite Ha.
      destruct (decide (record_key r = k)) as [<-|Hk]; [|by rewrite Hsame].
      rewrite last_said_snoc by done. by rewrite (proj2 (said_key (before ++ history) r) Hin).
    - intros r'. rewrite Hu, Hkeys, app_assoc, written_snoc. split; [by left|intros [?|Heq]; [done|]].
      destruct Hin as (r0 & Hr0 & Heq0). exists r0. by rewrite Heq0, Heq. }
  destruct (upsert_cases c r now db Hwf) as [Hcur|db' _ Hused Ht Hwf' Hg Hu|db' _ Hfree Ht Hwf' Hg Hused Hu]; cbn [snd].
  - apply Hold; [done|done| |done]. unfold entry_current, cache_entry in Hcur. destruct (Hrows (record_key r)) as [Ha Hb].
    destruct (cache_rows (books db) !! (c, record_key r)) as [row|] eqn:Hrow; [|done]. cbn in Hcur, Ha. apply string_eqb_true in Hcur.
    rewrite (Hb _ eq_refl) in Hcur. apply (said_key (before ++ history) r).
    apply (said_before [] r). right. exists (cached_record row). split; [|done].
    unfold of_key. rewrite filter_app. fold (of_key (record_key r) before) (of_key (record_key r) history). apply elem_of_app. right.
    symmetry in Ha. apply last_Some_elem_of in Ha.
    assert (Hsub : ∀ rs seen x, x ∈ first_said seen rs → x ∈ rs).
    { induction rs as [|x rs IH]; intros seen y; cbn [first_said]; [done|]. destruct (existsb _ _); set_solver. }
    by eapply Hsub.
  - apply Hold; [done|done|by apply Hkeys|]. intros r'. split; [apply Hu|]. by apply key_used_grow.
  - assert (Hnot : existsb (string_eqb (record_hash r)) (record_hash <$> of_key (record_key r) (before ++ history)) = false).
    { destruct (existsb _ _) eqn:He; [|done]. apply said_key, Hkeys in He. by destruct (key_used_not_free _ _ _ He). }
    split; [done| |].
    + intros k. unfold shows_last_new. rewrite Ht. cbn. rewrite Hset.
      destruct (decide (record_key r = k)) as [<-|Hk].
      * rewrite lookup_insert_eq, last_said_snoc, Hnot by done. split; [done|]. by intros row [= <-].
      * rewrite lookup_insert_ne by naive_solver. rewrite Hsame by done. apply Hrows.
    + intros r'. rewrite app_assoc, written_snoc, <- Hkeys. split.
      * intros [Ho|[_ Ho]]%Hu; [by left|by right].
      * intros [Ho|<-]; [by eapply key_used_grow|done].
Qed.

Lemma upsert_each_follows c now rs before history db :
  cache_follows c before history db → cache_follows c before (history ++ rs) (upsert_each c now db rs).
Proof using Type Hset Hkey.
  revert history db. induction rs as [|r rs IH]; intros history db Hf; [by rewrite app_nil_r|].
  cbn [upsert_each foldl]. replace (history ++ r :: rs) with ((history ++ [r]) ++ rs) by by rewrite <- app_assoc.
  by apply IH, upsert_follows.
Qed.
(** Where the cache is emptied and the keys stay, all that was said is said before. *)
Lemma emptied_follows c before history db db' :
  cache_follows c before history db → spine_wf db' → (∀ k, cache_rows (books db') !! (c, k) = None) →
  (∀ r, key_used db' c (upsert_key r) ↔ key_used db c (upsert_key r)) → cache_follows c (before ++ history) [] db'.
Proof.
  intros [_ _ Hkeys] Hwf Hnone Hu. split; [done| |].
  - intros k. split; rewrite Hnone; [done|by intros ? [=]].
  - intros r. by rewrite Hu, Hkeys, app_nil_r.
Qed.
End record.

(** ** The invoices' cache *)

Abbreviation invoices db := (accounting_invoice_snapshots (books db)).
Abbreviation invoice_key := (upsert_key (R := InvoiceRecord.t)).
Abbreviation sync_invoices := (upsert_invoice_snapshots constraint_failed).

Lemma sync_invoices_each c rs now db :
  spine_wf db → ∃ s, sync_invoices c rs now db = (Ok s, upsert_each c now db rs).
Proof. apply upsert_records_each. Qed.

(** Digests are written in digits and letters. *)
Definition colon_free (s : string) : Prop := ":"%char ∉ String.list_ascii_of_string s.

Lemma split_last {A} (x : A) l l' a a' : x ∉ l → x ∉ l' → a ++ x :: l = a' ++ x :: l' → a = a' ∧ l = l'.
Proof.
  intros Hl Hl'. revert a'. induction a as [|y a IH]; intros [|y' a'] Heq; cbn in Heq; inversion Heq; subst.
  - by split.
  - destruct Hl. apply elem_of_app. right. by left.
  - destruct Hl'. apply elem_of_app. right. by left.
  - by destruct (IH a') as [-> ->].
Qed.

Lemma split_colon a h a' h' :
  colon_free h → colon_free h' → a +:+ ":" +:+ h = a' +:+ ":" +:+ h' → a = a' ∧ h = h'.
Proof.
  intros Hh Hh' Heq. apply (f_equal String.list_ascii_of_string) in Heq. rewrite !list_ascii_app in Heq.
  destruct (split_last _ _ _ _ _ Hh Hh' Heq) as [Ha Hb].
  split; [apply (f_equal String.string_of_list_ascii) in Ha; by rewrite !String.string_of_list_ascii_of_string in Ha|].
  apply (f_equal String.string_of_list_ascii) in Hb. by rewrite !String.string_of_list_ascii_of_string in Hb.
Qed.

Lemma invoice_keys_differ (Hhex : ∀ s, colon_free (sha256_hex s)) (r r' : InvoiceRecord.t) :
  invoice_key r = invoice_key r' ↔ InvoiceRecord.invoice_id r = InvoiceRecord.invoice_id r' ∧ invoice_hash r = invoice_hash r'.
Proof.
  unfold upsert_key. cbn [record_key_prefix record_hash InvoiceCache]. split; [|by intros [-> ->]].
  rewrite !string_app_assoc. intros Heq%string_app_inj_r. apply split_colon in Heq; [done|apply Hhex..].
Qed.

Lemma sync_one c r now db :
  sync_invoices c [r] now db = op_map (count_upsert nothing_upserted) (upsert_record constraint_failed c r now) db.
Proof.
  unfold upsert_invoice_snapshots. cbn [upsert_records]. unfold op_map, op_bind.
  by destruct (upsert_record constraint_failed c r now db) as [[b|e] db'].
Qed.

(** What the cache shows of an invoice. *)
Definition shown_invoice (c id : string) db : option InvoiceRecord.t := cached_record <$> invoices db !! (c, id).

(** The cache holds [b], and the key of [a] is used. *)
Definition stuck_at (c : string) (a b : InvoiceRecord.t) db : Prop :=
  spine_wf db ∧ key_used db c (invoice_key a) ∧
  ∃ row, invoices db !! (c, InvoiceRecord.invoice_id a) = Some row ∧ cached_record row = b ∧ content_hash row = invoice_hash b.

Lemma stuck_sync c a b now db :
  invoice_hash a ≠ invoice_hash b → stuck_at c a b db →
  (sync_invoices c [a] now db).1 = Ok (Build_UpsertSummary 1 0) ∧ stuck_at c a b (sync_invoices c [a] now db).2.
Proof.
  intros Hne (Hwf & Hu & row & Hrow & Hb & Hh). rewrite sync_one. unfold op_map, op_bind.
  destruct (upsert_cases c a now db Hwf) as [Hcur|db' _ _ Ht Hwf' Hg _|db' _ Hfree]; cbn [op_ret fst snd].
  - unfold entry_current, cache_entry in Hcur. cbn in Hcur. rewrite Hrow in Hcur. cbn in Hcur.
    apply string_eqb_true in Hcur. by destruct Hne; rewrite <- Hh.
  - split; [done|]. split; [done|]. split; [by eapply key_used_grow|]. exists row. by rewrite Ht.
  - by destruct (key_used_not_free _ _ _ Hu).
Qed.

(** A record whose key is free, over an entry with other contents or none, is stored. *)
Lemma sync_new c r now db :
  spine_wf db → key_free db c (invoice_key r) →
  (∀ row, invoices db !! (c, InvoiceRecord.invoice_id r) = Some row → content_hash row ≠ invoice_hash r) →
  let db' := (sync_invoices c [r] now db).2 in
  spine_wf db' ∧ receipts_grow db db' ∧ key_used db' c (invoice_key r) ∧
  (∀ k, key_used db' c k → key_used db c k ∨ k = invoice_key r) ∧
  ∃ row, invoices db' !! (c, InvoiceRecord.invoice_id r) = Some row ∧ cached_record row = r ∧ content_hash row = invoice_hash r.
Proof.
  intros Hwf Hfree Hrow. rewrite sync_one. unfold op_map, op_bind.
  destruct (upsert_cases c r now db Hwf) as [Hcur|db' _ Hu|db' _ _ Ht Hwf' Hg Hused Hk]; cbn [op_ret fst snd].
  - unfold entry_current, cache_entry in Hcur. cbn in Hcur. destruct (invoices db !! _) as [row|] eqn:He; [|done].
    cbn in Hcur. apply string_eqb_true in Hcur. by destruct (Hrow row).
  - by destruct (key_used_not_free _ _ _ Hu).
  - split_and!; [done..| |].
    + intros k [?|[_ ?]]%Hk; auto.
    + eexists. rewrite Ht. cbn. rewrite lookup_insert_eq. by split.
Qed.

(** C37: An invoice that returns to what it was stays what it became.  When an invoice was
    synced, then synced changed, every later sync of its first contents is counted as
    written and leaves the cached invoice changed, however often it is repeated. *)
Theorem reverted_invoice_is_lost c a b now1 now2 later db :
  spine_wf db → InvoiceRecord.invoice_id a = InvoiceRecord.invoice_id b → invoice_hash a ≠ invoice_hash b →
  invoices db !! (c, InvoiceRecord.invoice_id a) = None → key_free db c (invoice_key a) → key_free db c (invoice_key b) →
  let db2 := (sync_invoices c [b] now2 (sync_invoices c [a] now1 db).2).2 in
  let db3 := foldl (fun db now => (sync_invoices c [a] now db).2) db2 later in
  ∀ now, (sync_invoices c [a] now db3).1 = Ok (Build_UpsertSummary 1 0) ∧
    shown_invoice c (InvoiceRecord.invoice_id a) (sync_invoices c [a] now db3).2 = Some b.
Proof.
  intros Hwf Hid Hne Hnone Hfa Hfb db2 db3 now.
  destruct (sync_new c a now1 db Hwf Hfa ltac:(by rewrite Hnone)) as (Hwf1 & _ & Hua & Hk1 & row1 & Hr1 & _ & Hh1).
  destruct (sync_new c b now2 (sync_invoices c [a] now1 db).2 Hwf1) as (Hwf2 & Hg2 & _ & _ & row2 & Hr2 & Hb2 & Hh2).
  { destruct (key_free_or_used (sync_invoices c [a] now1 db).2 c (invoice_key b)) as [?|[Hu|Heq]%Hk1]; [done| |].
    - by destruct (key_used_not_free _ _ _ Hu).
    - unfold upsert_key in Heq. cbn in Heq. rewrite Hid in Heq. apply string_app_inj_r in Heq. by destruct Hne. }
  { rewrite <- Hid, Hr1. intros row [= <-]. by rewrite Hh1. }
  assert (Hs : stuck_at c a b db2).
  { split; [done|]. split; [by eapply key_used_grow|]. exists row2. by rewrite Hid. }
  assert (Hs3 : stuck_at c a b db3).
  { unfold db3. clearbody db2. clear -Hs Hne. revert db2 Hs.
    induction later as [|t later IH]; intros db2 Hs; [done|]. cbn. by apply IH, stuck_sync. }
  destruct (stuck_sync c a b now db3 Hne Hs3) as [Ha (_ & _ & row & Hrow & Hb & _)]. split; [done|].
  unfold shown_invoice. by rewrite Hrow, <- Hb.
Qed.

(** ** Disconnecting and connecting *)

(** Rows were written under their keys. *)
Definition cache_logged (c : string) db : Prop :=
  ∀ id row, invoices db !! (c, id) = Some row →
    InvoiceRecord.invoice_id (cached_record row) = id ∧ content_hash row = invoice_hash (cached_record row) ∧
    key_used db c (invoice_key (cached_record row)).

Lemma sync_uses_keys c rs now db :
  spine_wf db → cache_logged c db →
  let db' := (sync_invoices c rs now db).2 in
  spine_wf db' ∧ receipts_grow db db' ∧ cache_logged c db' ∧ ∀ r, r ∈ rs → key_used db' c (invoice_key r).
Proof.
  intros Hwf Hl. destruct (sync_invoices_each c rs now db Hwf) as [s ->]. cbn [snd].
  revert db Hwf Hl. induction rs as [|r rs IH]; intros db Hwf Hl; cbn [upsert_each foldl].
  { split_and!; [done|apply receipts_grow_refl|done|set_solver]. }
  assert (Hone : let db1 := (upsert_record constraint_failed c r now db).2 in
    spine_wf db1 ∧ receipts_grow db db1 ∧ cache_logged c db1 ∧ key_used db1 c (invoice_key r)).
  { destruct (upsert_cases c r now db Hwf) as [Hcur|db1 _ Hu Ht Hwf1 Hg _|db1 _ _ Ht Hwf1 Hg Hu _]; cbn [snd].
    - split_and!; [done|apply receipts_grow_refl|done|]. unfold entry_current, cache_entry in Hcur. cbn in Hcur.
      destruct (invoices db !! (c, InvoiceRecord.invoice_id r)) as [row|] eqn:Hrow; [|done]. cbn in Hcur.
      apply string_eqb_true in Hcur. destruct (Hl _ _ Hrow) as (Hid & Hh & Hu).
      unfold upsert_key in *. cbn in *. by rewrite <- Hid, <- Hcur, Hh.
    - split_and!; [done|done| |by eapply key_used_grow]. unfold cache_logged. rewrite Ht. intros id row Hrow.
      destruct (Hl _ _ Hrow) as (? & ? & ?). split_and!; [done..|by eapply key_used_grow].
    - split_and!; [done|done| |done]. unfold cache_logged. rewrite Ht. cbn. intros id row.
      destruct (decide (id = InvoiceRecord.invoice_id r)) as [->|Hne].
      + rewrite lookup_insert_eq. by intros [= <-].
      + rewrite lookup_insert_ne by congruence. intros Hrow. destruct (Hl _ _ Hrow) as (? & ? & ?).
        split_and!; [done..|by eapply key_used_grow]. }
  destruct Hone as (Hwf1 & Hg1 & Hl1 & Hu1). destruct (IH _ Hwf1 Hl1) as (Hwf2 & Hg2 & Hl2 & Hu2).
  split_and!; [done|by eapply receipts_grow_trans|done|].
  intros r' [->|Hin]%elem_of_cons; [by eapply key_used_grow|by apply Hu2].
Qed.

(** Where the keys are used and the rows are gone, a sync counts records and stores none. *)
Lemma sync_gone c rs now s db :
  spine_wf db → (∀ r, r ∈ rs → key_used db c (invoice_key r) ∧ invoices db !! (c, InvoiceRecord.invoice_id r) = None) →
  ∃ db', upsert_records constraint_failed c rs now s db = (Ok (Build_UpsertSummary (written s + len rs) (unchanged s)), db') ∧
    tables db' = tables db.
Proof.
  revert s db. induction rs as [|r rs IH]; intros s db Hwf Hrs.
  { exists db. unfold len. cbn. rewrite N.add_0_r. by destruct s. }
  destruct (Hrs r (list_elem_of_here _ _)) as [Hu Hnone]. cbn [upsert_records]. unfold op_bind at 1.
  destruct (upsert_cases c r now db Hwf) as [Hcur|db1 _ _ Ht Hwf1 Hg _|db1 _ Hf].
  - unfold entry_current, cache_entry in Hcur. cbn in Hcur. by rewrite Hnone in Hcur.
  - destruct (IH (count_upsert s true) db1 Hwf1) as (db' & Hrun & Ht').
    { intros r' Hr'. rewrite Ht. destruct (Hrs r') as [? ?]; [by right|]. split; [by eapply key_used_grow|done]. }
    exists db'. rewrite Hrun. split; [|by rewrite Ht']. do 3 f_equal. unfold len. cbn [written count_upsert length]. lia.
  - by destruct (key_used_not_free _ _ _ Hu).
Qed.

Lemma other_clients_gone {K V} `{Countable K} (c : string) (k : K) (m : gmap (string * K) V) : other_clients c m !! (c, k) = None.
Proof. apply map_lookup_filter_None. right. by intros v _ []. Qed.

Lemma other_clients_kept {K V} `{Countable K} (c c' : string) (k : K) (m : gmap (string * K) V) :
  c' ≠ c → other_clients c m !! (c', k) = m !! (c', k).
Proof.
  intros Hne. unfold other_clients. destruct (m !! (c', k)) as [v|] eqn:Hv.
  - by apply map_lookup_filter_Some.
  - apply map_lookup_filter_None. by left.
Qed.

(** What an applied mutation of the slice did. *)
Lemma applied_write request (write : SliceWrite) db id rev db' :
  spine_wf db → slice_write write → mutate constraint_failed request write db = (Ok (MutationOutcome.Applied id rev), db') →
  spine_wf db' ∧ receipts_grow db db' ∧ request_used db' request ∧
  ∃ db1, write db = (Ok tt, db1) ∧ tables db' = tables db1.
Proof.
  intros Hwf Hs Hm. apply slice_write_spares_receipts in Hs.
  destruct (slice_mutate_effect constraint_failed request write db Hwf Hs) as (He & Hwf' & Hg). rewrite Hm in He, Hwf', Hg.
  inversion He as [| |db1 ? ? ? _ _ Hw Hd Hu|]; subst. split_and!; [done..|]. exists db1. unfold tables. by rewrite Hd.
Qed.

Lemma disconnect_write_slice f g : slice_write (update_tables f ;;? update_accounting g).
Proof. apply slice_write_seq; apply slice_write_update. Qed.

(** Purged books stay empty.  After invoices were synced, the books disconnected and
    purged, syncing the same invoices again counts every one of them as written and
    stores none: their keys were used before the purge. *)
Theorem purged_books_stay_empty c actor rs now1 now2 now3 db id rev db2 :
  spine_wf db → cache_logged c db →
  delete_credential constraint_failed c actor true now2 (sync_invoices c rs now1 db).2 = (Ok (MutationOutcome.Applied id rev), db2) →
  ∃ db3, sync_invoices c rs now3 db2 = (Ok (Build_UpsertSummary (len rs) 0), db3) ∧ ∀ k, invoices db3 !! (c, k) = None.
Proof.
  intros Hwf Hl Hd. destruct (sync_uses_keys c rs now1 db Hwf Hl) as (Hwf1 & _ & _ & Hu).
  destruct (applied_write _ _ _ _ _ _ Hwf1 (disconnect_write_slice _ _) Hd) as (Hwf2 & Hg & _ & db1 & Hw & Ht).
  assert (Hnone : ∀ k, invoices db2 !! (c, k) = None).
  { intros k. rewrite Ht. unfold op_bind, update_accounting, update_tables in Hw. injection Hw as <-.
    apply (other_clients_gone c k). }
  destruct (sync_gone c rs now3 nothing_upserted db2 Hwf2) as (db3 & Hrun & Ht3).
  { intros r Hr. split; [|apply Hnone]. eapply key_used_grow; [exact Hg|]. by apply Hu. }
  exists db3. split; [exact Hrun|]. intros k. by rewrite Ht3.
Qed.

(** ** The rejected grant *)

Abbreviation mark := (mark_reconnect_required constraint_failed).

Lemma reject_write_slice c code now : slice_write (reject_write c code now).
Proof. intros db db'. unfold reject_write, op_bind, read_tables. destruct (qbo_credentials _ !! _); [|done]. by intros [= <-]. Qed.

Lemma connect_write_slice c realm env grant by_user changed now : slice_write (connect_write c realm env grant by_user changed now).
Proof. apply slice_write_seq; [|apply slice_write_update]. destruct changed; [apply slice_write_update|]. by intros db db' [= <-]. Qed.

(** A mutation whose key is used changes no table. *)
Lemma used_replays request (write : SliceWrite) db :
  spine_wf db → slice_write write → request_used db request →
  ∃ id rev db', mutate constraint_failed request write db = (Ok (MutationOutcome.ReplayedIdempotent id rev), db') ∧ tables db' = tables db.
Proof.
  intros Hwf Hs Hu. apply slice_write_spares_receipts in Hs.
  destruct (slice_mutate_effect constraint_failed request write db Hwf Hs) as (He & _).
  inversion He as [db' id rev _ Hd|db' id rev Hf|db1 db' id rev Hf|err db1 db' Hf]; try by destruct (key_used_not_free _ _ _ Hu).
  exists id, rev, db'. unfold tables. by rewrite Hd.
Qed.

(** A connection that was stored: the row, and the caches and cursors of another realm wiped. *)
Definition realm_changed (c realm : string) (t : SliceTables) : bool :=
  option_any (fun row => negb (string_eqb (QboCredentialRow.realm_id row) realm)) (qbo_credentials t !! c).
Definition connected (c realm env : string) (grant : QboTokenGrant) (by_user : string) (now : N) (t : SliceTables) : SliceTables :=
  let t' := if realm_changed c realm t then set_accounting t (wipe_other_realm c (accounting t)) else t in
  set_qbo_credentials t' (<[c := connected_row realm env grant by_user now (qbo_credentials t !! c)]> (qbo_credentials t)).

Lemma connect_runs c realm env grant by_user now db :
  ∃ db1, connect_write c realm env grant by_user (realm_changed c realm (tables db)) now db = (Ok tt, db1) ∧
    tables db1 = connected c realm env grant by_user now (tables db).
Proof.
  unfold connect_write, connected, op_bind, update_accounting, update_tables. destruct (realm_changed _ _ _);
    eexists; (split; [reflexivity|]).
  all: rewrite tables_set; f_equal; cbn; apply map_eq; intros k; destruct (decide (k = c)) as [->|Hne];
    [by rewrite lookup_partial_alter_eq, lookup_insert_eq|by rewrite lookup_partial_alter_ne, lookup_insert_ne by congruence].
Qed.

Lemma store_applied c realm env grant by_user now h id rev h' :
  spine_wf (host_db h) → store_credential constraint_failed c realm env grant by_user now h = (Ok (MutationOutcome.Applied id rev), h') →
  spine_wf (host_db h') ∧ receipts_grow (host_db h) (host_db h') ∧ reconnect_latch h' = reconnect_latch h ∖ {[c]} ∧
  tables (host_db h') = connected c realm env grant by_user now (tables (host_db h)).
Proof.
  intros Hwf. unfold store_credential, on_db, op_bind, get_credential, read_tables. cbn [fst snd host_db reconnect_latch].
  set (changed := option_any _ _). set (request := accounting_request _ _ _ _ _ _ _ _ _).
  assert (changed = realm_changed c realm (tables (host_db h))) as ->.
  { unfold changed, realm_changed. by destruct (qbo_credentials _ !! c). }
  pose proof (mutate_put constraint_failed request _ (connected c realm env grant by_user now) (host_db h) Hwf
    (connect_write_slice c realm env grant by_user _ now) eq_refl (connect_runs _ _ _ _ _ _ _)) as Hput.
  destruct Hput; [done|]. unfold clear_reconnect_latch, op_ret. cbn. intros [= _ _ <-]. by split_and!.
Qed.

Lemma mark_uses c code now h id rev h' :
  spine_wf (host_db h) → mark c code now h = (Ok (MutationOutcome.Applied id rev), h') →
  spine_wf (host_db h') ∧ key_used (host_db h') c ("qbo_reconnect_required:" +:+ c).
Proof.
  intros Hwf. unfold mark_reconnect_required, on_db, op_bind. destruct (mutate _ _ _ _) as [[o|e] db'] eqn:Hm; [|done].
  unfold latch_reconnect_required, op_ret. cbn. intros [= -> <-]. cbn [host_db].
  by destruct (applied_write _ _ _ _ _ _ Hwf (reject_write_slice c code now) Hm) as (? & _ & ? & _).
Qed.

(** ** What the cache shows of an invoice *)

(** Syncs; the product's own ways to empty the cache, a disconnect with purge and a connection
    to another realm; and whatever else writes to the database in between. *)
Inductive BooksEvent :=
| Synced (now : N) (rs : list InvoiceRecord.t)
| Disconnected (actor_id : string) (purge : bool) (now : N)
| Connected (realm_id environment : string) (grant : QboTokenGrant) (connected_by : string) (now : N)
| Elsewhere (f : AppDb → AppDb).

Definition serve_books (c : string) (h : Host) (e : BooksEvent) : Host :=
  match e with
  | Synced now rs => mk_host (sync_invoices c rs now (host_db h)).2 (reconnect_latch h)
  | Disconnected actor purge now => mk_host (delete_credential constraint_failed c actor purge now (host_db h)).2 (reconnect_latch h)
  | Connected realm env grant by_user now => (store_credential constraint_failed c realm env grant by_user now h).2
  | Elsewhere f => mk_host (f (host_db h)) (reconnect_latch h)
  end.

Definition was_applied (answer : Result StoreError.t MutationOutcome.t) : bool :=
  match answer with Ok (MutationOutcome.Applied _ _) => true | _ => false end.

(** Whether the event empties the client's cache. *)
Definition empties (c : string) (h : Host) (e : BooksEvent) : bool :=
  match e with
  | Disconnected actor purge now => purge && was_applied (delete_credential constraint_failed c actor purge now (host_db h)).1
  | Connected realm env grant by_user now =>
    realm_changed c realm (tables (host_db h)) && was_applied (store_credential constraint_failed c realm env grant by_user now h).1
  | _ => false
  end.

(** Everybody else: other clients' syncs and other slices.  They write no invoice of the client
    and use none of its keys. *)
Definition elsewhere (c : string) (e : BooksEvent) : Prop :=
  match e with
  | Elsewhere f => ∀ db, spine_wf db → spine_wf (f db) ∧ (∀ id, invoices (f db) !! (c, id) = invoices db !! (c, id)) ∧
                         ∀ r, key_used (f db) c (invoice_key r) ↔ key_used db c (invoice_key r)
  | _ => True
  end.

Definition said (e : BooksEvent) : list InvoiceRecord.t := match e with Synced _ rs => rs | _ => [] end.

(** What the provider said before the cache was last emptied, and since. *)
Fixpoint told (c : string) (h : Host) (events : list BooksEvent) (before since : list InvoiceRecord.t)
    : list InvoiceRecord.t * list InvoiceRecord.t :=
  match events with
  | [] => (before, since)
  | e :: events =>
    if empties c h e then told c (serve_books c h e) events (before ++ since) []
    else told c (serve_books c h e) events before (since ++ said e)
  end.

(** What an invoice says, but for its id and the time of its change; a text that is missing says
    what an empty one says. *)
Definition contents (r : InvoiceRecord.t) :=
  (default "" (InvoiceRecord.doc_number r), default "" (InvoiceRecord.customer_id r), default "" (InvoiceRecord.customer_name r),
   default "" (InvoiceRecord.txn_date r), default "" (InvoiceRecord.due_date r),
   InvoiceRecord.total_amt_cents r, InvoiceRecord.balance_cents r, InvoiceRecord.voided r)%string.

(** The records whose contents were not given before. *)
Fixpoint first_given (given : list (string * string * string * string * string * Z * Z * bool)) (rs : list InvoiceRecord.t)
    : list InvoiceRecord.t :=
  match rs with
  | [] => []
  | r :: rs => if decide (contents r ∈ given) then first_given given rs else r :: first_given (contents r :: given) rs
  end.

(** The text that stands for the contents, and what makes it do so: no unit separator in the
    texts, and no two of the digests that are taken collide. *)
Definition text_of (r : InvoiceRecord.t) : string :=
  (let u := String (ascii_of_N 31) EmptyString in
   default "" (InvoiceRecord.doc_number r) +:+ u +:+ (default "" (InvoiceRecord.customer_id r) +:+ u +:+
   (default "" (InvoiceRecord.customer_name r) +:+ u +:+ (default "" (InvoiceRecord.txn_date r) +:+ u +:+
   (default "" (InvoiceRecord.due_date r) +:+ u +:+ (fmt_int (InvoiceRecord.total_amt_cents r) +:+ u +:+
   (fmt_int (InvoiceRecord.balance_cents r) +:+ u +:+ ((if InvoiceRecord.voided r then "1" else "0") +:+ u +:+ ""))))))))%string.
Definition unit_free (s : string) : Prop := ascii_of_N 31 ∉ String.list_ascii_of_string s.
Definition plain (r : InvoiceRecord.t) : Prop :=
  Forall (fun text => unit_free (default ""%string text))
    [InvoiceRecord.doc_number r; InvoiceRecord.customer_id r; InvoiceRecord.customer_name r; InvoiceRecord.txn_date r; InvoiceRecord.due_date r].
Definition told_apart (rs : list InvoiceRecord.t) : Prop :=
  Forall plain rs ∧
  ∀ r r', r ∈ rs → r' ∈ rs → sha256_hex (text_of r) = sha256_hex (text_of r') → text_of r = text_of r'.

Lemma split_unit a b s t :
  unit_free a → unit_free b → a +:+ String (ascii_of_N 31) EmptyString +:+ s = b +:+ String (ascii_of_N 31) EmptyString +:+ t → a = b ∧ s = t.
Proof.
  unfold unit_free. revert b. induction a as [|x a IH]; intros [|y b] Ha Hb Heq; cbn in *.
  - by injection Heq.
  - injection Heq as Hx _. destruct Hb. rewrite <- Hx. by left.
  - injection Heq as Hx _. destruct Ha. rewrite Hx. by left.
  - injection Heq as -> Heq. destruct (IH b) as [-> ->]; [by intros ?; apply Ha; right|by intros ?; apply Hb; right|done|done].
Qed.

Lemma fmt_dec_unit_free n : unit_free (fmt_dec n).
Proof.
  unfold unit_free. pose proof (fmt_dec_digits n) as Hd. unfold all_bytes in Hd. rewrite forallb_forall in Hd.
  intros Hin%list_elem_of_In%Hd. by vm_compute in Hin.
Qed.

Lemma fmt_int_unit_free v : unit_free (fmt_int v).
Proof.
  unfold fmt_int. destruct (v <? 0)%Z; [|apply fmt_dec_unit_free].
  intros [|Hin]%elem_of_cons; [done|]. by apply fmt_dec_unit_free in Hin.
Qed.

Lemma fmt_int_inj v w : fmt_int v = fmt_int w → v = w.
Proof.
  assert (Hsign : ∀ m n, ("-" +:+ fmt_dec m)%string ≠ fmt_dec n).
  { intros m n Heq. pose proof (fmt_dec_digits n) as Hd. by rewrite <- Heq in Hd. }
  unfold fmt_int. destruct (Z.ltb_spec v 0), (Z.ltb_spec w 0); intros Heq.
  - apply string_app_inj_r, fmt_dec_inj in Heq. lia.
  - by apply Hsign in Heq.
  - symmetry in Heq. by apply Hsign in Heq.
  - apply fmt_dec_inj in Heq. lia.
Qed.

Lemma text_contents r r' : plain r → plain r' → text_of r = text_of r' ↔ contents r = contents r'.
Proof.
  unfold plain. rewrite !Forall_cons. intros (H1 & H2 & H3 & H4 & H5 & _) (H1' & H2' & H3' & H4' & H5' & _).
  unfold text_of, contents. cbv zeta. split.
  - intros [E1 [E2 [E3 [E4 [E5 Heq]%split_unit]%split_unit]%split_unit]%split_unit]%split_unit; [|done..].
    apply split_unit in Heq as [E6%fmt_int_inj Heq]; [|apply fmt_int_unit_free..].
    apply split_unit in Heq as [E7%fmt_int_inj Heq]; [|apply fmt_int_unit_free..].
    assert (E8 : InvoiceRecord.voided r = InvoiceRecord.voided r') by by destruct (InvoiceRecord.voided r), (InvoiceRecord.voided r').
    by rewrite E1, E2, E3, E4, E5, E6, E7, E8.
  - intros Heq. injection Heq as E1 E2 E3 E4 E5 E6 E7 E8. by rewrite E1, E2, E3, E4, E5, E6, E7, E8.
Qed.

(** The digest stands for the contents. *)
Lemma hash_contents rs r r' :
  told_apart rs → r ∈ rs → r' ∈ rs → invoice_hash r = invoice_hash r' ↔ contents r = contents r'.
Proof.
  intros [Hp Hd] Hr Hr'. rewrite Forall_forall in Hp. rewrite <- (text_contents r r') by auto.
  change (invoice_hash r) with (sha256_hex (text_of r)). change (invoice_hash r') with (sha256_hex (text_of r')).
  split; [by apply Hd|by intros ->].
Qed.

Lemma first_said_given all seen rs :
  told_apart all → (∀ r, r ∈ seen ++ rs → r ∈ all) →
  first_said (invoice_hash <$> seen) rs = first_given (contents <$> seen) rs.
Proof.
  intros Ht. revert seen. induction rs as [|r rs IH]; intros seen Hall; [done|]. cbn [first_said first_given].
  change (record_hash r) with (invoice_hash r).
  assert (Hr : r ∈ all) by (apply Hall, elem_of_app; right; by left).
  assert (Hsame : existsb (string_eqb (invoice_hash r)) (invoice_hash <$> seen) = bool_decide (contents r ∈ contents <$> seen)).
  { rewrite existsb_string_eqb. apply bool_decide_ext. rewrite !list_elem_of_fmap.
    split; intros (x & Hx & Hin); exists x; (split; [|done]); apply (hash_contents all); try done; apply Hall, elem_of_app; by left. }
  rewrite Hsame. case_bool_decide as Hin.
  - rewrite decide_True by done. apply IH. intros x [Hx|Hx]%elem_of_app; apply Hall, elem_of_app; [by left|right; by right].
  - rewrite decide_False by done. f_equal. apply (IH (r :: seen)).
    intros x [[->|Hx]%elem_of_cons|Hx]%elem_of_app; [done|apply Hall, elem_of_app; by left|apply Hall, elem_of_app; right; by right].
Qed.

(** *** What each event does *)

Definition never_synced (c : string) db : Prop :=
  spine_wf db ∧ (∀ id, invoices db !! (c, id) = None) ∧ ∀ r, key_free db c (invoice_key r).

(** A mutation of the connection that may empty the client's invoices. *)
Lemma mutate_empties request (write : SliceWrite) db (wipes : bool) c :
  spine_wf db → slice_write write → (∀ r, MutationRequest.idempotency_key request ≠ invoice_key r) →
  (∀ db1, write db = (Ok tt, db1) → ∀ id, invoices db1 !! (c, id) = if wipes then None else invoices db !! (c, id)) →
  let '(answer, db') := mutate constraint_failed request write db in
  spine_wf db' ∧ (∀ r, key_used db' c (invoice_key r) ↔ key_used db c (invoice_key r)) ∧
  ∀ id, invoices db' !! (c, id) = if wipes && was_applied answer then None else invoices db !! (c, id).
Proof.
  intros Hwf Hs Hkey Hw. pose proof (slice_write_spares_receipts _ Hs) as Hsp.
  pose proof (fun k => mutate_uses constraint_failed request write db c k Hwf Hsp) as Hu.
  destruct (slice_mutate_effect constraint_failed request write db Hwf Hsp) as (He & Hwf' & Hg).
  destruct (mutate constraint_failed request write db) as [answer db']. cbn [fst snd] in *.
  split; [done|]. split.
  { intros r. split; [|by apply key_used_grow]. intros [?|(_ & Heq & _)]%Hu; [done|by destruct (Hkey r)]. }
  intros id. unfold tables. inversion He as [? ? ? ? Hd|? ? ? ? ? Hd|db1 ? ? ? ? ? Hw1 Hd|? ? ? ? ? ? Hd]; subst; rewrite Hd; cbn [was_applied];
    rewrite ?andb_false_r, ?andb_true_r; [done|done|by apply Hw|done].
Qed.

Lemma store_books c realm env grant by_user now h :
  spine_wf (host_db h) →
  let '(answer, h') := store_credential constraint_failed c realm env grant by_user now h in
  spine_wf (host_db h') ∧ (∀ r, key_used (host_db h') c (invoice_key r) ↔ key_used (host_db h) c (invoice_key r)) ∧
  ∀ id, invoices (host_db h') !! (c, id)
        = if realm_changed c realm (tables (host_db h)) && was_applied answer then None else invoices (host_db h) !! (c, id).
Proof.
  intros Hwf. unfold store_credential, on_db, op_bind at 1, get_credential, read_tables. cbn [fst snd host_db reconnect_latch].
  set (changed := option_any _ _).
  assert (changed = realm_changed c realm (tables (host_db h))) as ->.
  { unfold changed, realm_changed. by destruct (qbo_credentials _ !! c). }
  unfold op_bind at 1. cbn [host_db reconnect_latch]. set (request := accounting_request _ _ _ _ _ _ _ _ _).
  pose proof (mutate_empties request (connect_write c realm env grant by_user (realm_changed c realm (tables (host_db h))) now) (host_db h)
    (realm_changed c realm (tables (host_db h))) c Hwf (connect_write_slice _ _ _ _ _ _ _) ltac:(discriminate)) as Hm.
  destruct (mutate constraint_failed request _ (host_db h)) as [[outcome|e] db']; cbn in *; apply Hm; clear Hm.
  all: intros db1 Hw id; destruct (connect_runs c realm env grant by_user now (host_db h)) as (db2 & Hrun & Ht); rewrite Hrun in Hw;
    injection Hw as <-; rewrite Ht; unfold connected; destruct (realm_changed _ _ _); [apply (other_clients_gone c id)|done].
Qed.

Lemma serve_follows (Hhex : ∀ s, colon_free (sha256_hex s)) c before history h e :
  elsewhere c e → cache_follows c before history (host_db h) →
  if empties c h e then cache_follows c (before ++ history) [] (host_db (serve_books c h e))
  else cache_follows c before (history ++ said e) (host_db (serve_books c h e)).
Proof.
  intros He Hf. assert (Hkept : ∀ db', spine_wf db' → (∀ r, key_used db' c (invoice_key r) ↔ key_used (host_db h) c (invoice_key r)) →
    (∀ id, invoices db' !! (c, id) = invoices (host_db h) !! (c, id)) → cache_follows c before (history ++ []) db').
  { intros db' Hwf' Hk Hr. rewrite app_nil_r. destruct Hf as [_ Hrows Hkeys].
    split; [done| |by intros r; rewrite Hk, Hkeys]. intros k. unfold shows_last_new. cbn [cache_rows InvoiceCache]. rewrite Hr. apply Hrows. }
  pose proof (follows_wf _ _ _ _ Hf) as Hwf. destruct e as [now rs|actor purge now|realm env grant by_user now|f]; cbn [serve_books said empties host_db].
  - destruct (sync_invoices_each c rs now (host_db h) Hwf) as [s ->]. cbn [snd].
    apply upsert_each_follows; [done|apply (invoice_keys_differ Hhex)|done].
  - unfold delete_credential. set (request := accounting_request _ _ _ _ _ _ _ _ _). set (write := op_bind _ _).
    pose proof (mutate_empties request write (host_db h) purge c Hwf) as Hm.
    destruct (mutate constraint_failed request write (host_db h)) as [answer db']. cbn [fst snd].
    destruct Hm as (Hwf' & Hk & Hr); [|discriminate| |].
    { unfold write. destruct purge; (apply slice_write_seq; [apply slice_write_update|]); [apply slice_write_update|by intros ? ? [= <-]]. }
    { intros db1 Hw id. unfold write, op_bind, update_tables, update_accounting in Hw. destruct purge; injection Hw as <-; [|done]. apply (other_clients_gone c id). }
    destruct (purge && was_applied answer); [by eapply emptied_follows|by apply Hkept].
  - pose proof (store_books c realm env grant by_user now h Hwf) as Hs.
    destruct (store_credential _ _ _ _ _ _ _ h) as [answer h']. cbn [fst snd]. destruct Hs as (Hwf' & Hk & Hr).
    destruct (realm_changed _ _ _ && was_applied _); [by eapply emptied_follows|by apply Hkept].
  - destruct (He (host_db h) Hwf) as (Hwf' & Hr & Hk). by apply Hkept.
Qed.

(** C18: The cache shows the last new thing that was said of an invoice.  Whatever is synced,
    however often the books are disconnected, with or without a purge, or connected to this
    realm or another, and whatever other clients and slices write in between, one after
    another: an invoice's cached record is, of the records the provider gave of it since the
    cache was last emptied, the last whose contents - the balance, the amounts, the dates,
    the customer, the number and whether it is void - had never been given before, before the
    emptying either; and there is none when there is no such record.  So the cache shows the
    provider's latest, unless that said again what it had said earlier.  (No text of the
    records has a unit separator in it, and none of their digests collide.) *)
Theorem cache_shows_last_new c h events :
  (∀ s, colon_free (sha256_hex s)) → told_apart (concat (said <$> events)) →
  never_synced c (host_db h) → Forall (elsewhere c) events →
  let '(before, since) := told c h events [] [] in
  let of_invoice id := filter (fun r => InvoiceRecord.invoice_id r = id) in
  ∀ id, cached_record <$> invoices (host_db (foldl (serve_books c) h events)) !! (c, id)
        = last (first_given (contents <$> of_invoice id before) (of_invoice id since)).
Proof.
  intros Hhex Hapart (Hwf & Hrows & Hfree) Hev.
  assert (Hf : let '(before, since) := told c h events [] [] in cache_follows c before since (host_db (foldl (serve_books c) h events)) ∧
                 ∀ r, r ∈ before ++ since → r ∈ concat (said <$> events)).
  { enough (Hall : ∀ before since all, cache_follows c before since (host_db h) → (∀ r, r ∈ before ++ since → r ∈ all) →
      let '(b, s) := told c h events before since in cache_follows c b s (host_db (foldl (serve_books c) h events)) ∧
        ∀ r, r ∈ b ++ s → r ∈ all ++ concat (said <$> events)).
    { apply (Hall [] [] []); [|by intros ? ?%not_elem_of_nil]. split; [done| |].
      - intros k. split; cbn; by rewrite Hrows.
      - intros r. split; [|by intros (? & ?%not_elem_of_nil & _)]. intros Hu. by destruct (key_used_not_free _ _ _ Hu). }
    clear Hapart Hwf Hrows Hfree. revert h. induction Hev as [|e events He Hev IH]; intros h before since all Hf Hin; cbn [told foldl fmap list_fmap concat].
    { split; [done|]. intros r Hr. rewrite app_nil_r. by apply Hin. }
    pose proof (serve_follows Hhex c before since h e He Hf) as Hs. rewrite app_assoc. destruct (empties c h e).
    - apply IH; [done|]. intros r Hr. rewrite app_nil_r in Hr. apply elem_of_app. left. by apply Hin.
    - apply IH; [done|]. intros r [Hr|[Hr|Hr]%elem_of_app]%elem_of_app; rewrite elem_of_app; [left; apply Hin, elem_of_app; by left|left; apply Hin, elem_of_app; by right|by right]. }
  destruct (told c h events [] []) as [before since]. destruct Hf as [Hf Hsaid]. intros of_invoice id.
  etrans; [exact (proj1 (follows_rows _ _ _ _ Hf id))|]. unfold of_invoice. f_equal.
  apply (first_said_given (concat (said <$> events))); [done|]. intros r Hr. apply Hsaid.
  apply elem_of_app in Hr as [[_ Hr]%list_elem_of_filter|[_ Hr]%list_elem_of_filter]; apply elem_of_app; [by left|by right].
Qed.

(** A second rejected grant is not marked.  The key of the mark is the client: after
    the first mark was written and the books connected again, a later rejection latches
    the process and leaves the stored connection shown as healthy. *)
Theorem second_rejection_is_unmarked c code code' realm env grant by_user now1 now2 now3 h h1 h1' h2 id rev id' rev' :
  spine_wf (host_db h) → mark c code now1 h = (Ok (MutationOutcome.Applied id rev), h1) →
  spine_wf (host_db h1') → receipts_grow (host_db h1) (host_db h1') →
  store_credential constraint_failed c realm env grant by_user now2 h1' = (Ok (MutationOutcome.Applied id' rev'), h2) →
  ∃ id3 rev3 h3, mark c code' now3 h2 = (Ok (MutationOutcome.ReplayedIdempotent id3 rev3), h3) ∧
    c ∈ reconnect_latch h3 ∧
    tables (host_db h3) = connected c realm env grant by_user now2 (tables (host_db h1')) ∧
    ∃ row, qbo_credentials (tables (host_db h3)) !! c = Some row ∧ QboCredentialRow.reconnect_required row = false ∧
      QboCredentialRow.connection_error_code row = None.
Proof.
  intros Hwf Hm Hwf1 Hg Hs. destruct (mark_uses _ _ _ _ _ _ _ Hwf Hm) as [_ Hu].
  destruct (store_applied _ _ _ _ _ _ _ _ _ _ Hwf1 Hs) as (Hwf2 & Hg2 & _ & Ht).
  unfold mark_reconnect_required, on_db, op_bind. set (request := accounting_request _ _ _ _ _ _ _ _ _).
  destruct (used_replays request _ (host_db h2) Hwf2 (reject_write_slice c code' now3)) as (id3 & rev3 & db3 & -> & Ht3).
  { do 2 (eapply key_used_grow; [eassumption|]). exact Hu. }
  unfold latch_reconnect_required, op_ret. cbn [host_db reconnect_latch]. eexists _, _, _. split; [done|].
  split; [cbn; set_solver|]. cbn [host_db]. rewrite Ht3, Ht. split; [done|]. eexists. split; [apply lookup_insert_eq|]. by split.
Qed.
End caches.

(** ** Witnesses *)

Definition demo_digit (a : ascii) : ascii := if Ascii.eqb a ":" then ";"%char else a.
Fixpoint demo_digest (s : string) : string :=
  match s with EmptyString => EmptyString | String a s => String (demo_digit a) (demo_digest s) end.
#[local] Instance demo_texts : AccountingTexts := { sha256_hex := demo_digest; value_text _ := "{}"%string }.

Lemma demo_digest_free s : colon_free (demo_digest s).
Proof.
  unfold colon_free. induction s as [|a s IH]; cbn; [by intros ?%not_elem_of_nil|]. intros [Ha|Hs]%elem_of_cons; [|done].
  unfold demo_digit in Ha. by destruct (Ascii.eqb_spec a ":"); subst.
Qed.

Definition demo_invoice (balance : Z) : InvoiceRecord.t :=
  InvoiceRecord.mk "17" (Some "1001"%string) None None None None 9000 balance false "2026-03-01".
Definition empty_books : AppDb := spine_new (mk_tables ∅ empty_slices).

Lemma empty_books_free c k : key_free empty_books c k.
Proof. by intros r ?%not_elem_of_nil. Qed.

(** Synced, changed and changed back; purged, and synced as it had been; then changed again. *)
Definition demo_purge : list BooksEvent :=
  [Synced 10 [demo_invoice 9000]; Synced 20 [demo_invoice 0]; Synced 30 [demo_invoice 9000];
   Disconnected "user_ada" true 40; Synced 50 [demo_invoice 9000]; Synced 60 [demo_invoice 500]].

Lemma demo_plain balance : plain (demo_invoice balance).
Proof. unfold plain. repeat (apply Forall_cons; split; [by apply (bool_decide_unpack _)|]). constructor. Qed.

Lemma demo_purge_apart : told_apart (concat (said <$> demo_purge)).
Proof.
  split; [repeat (apply Forall_cons; split; [apply demo_plain|]); constructor|].
  intros r r' Hr%list_elem_of_In Hr'%list_elem_of_In. cbn in Hr, Hr'.
  destruct Hr as [<-|[<-|[<-|[<-|[<-|[]]]]]], Hr' as [<-|[<-|[<-|[<-|[<-|[]]]]]]; vm_compute; exact (λ Heq, Heq).
Qed.

Lemma cache_shows_last_new_witness :
  let shown events := cached_record <$> accounting_invoice_snapshots (accounting (tables (host_db
    (foldl (serve_books "UNIQUE" "acme") (mk_host empty_books ∅) events)))) !! ("acme", "17")%string in
  shown (take 3 demo_purge) = Some (demo_invoice 0) ∧ shown (take 5 demo_purge) = None ∧ shown demo_purge = Some (demo_invoice 500).
Proof.
  intros shown. split; [vm_compute; reflexivity|]. split; [vm_compute; reflexivity|].
  pose proof (cache_shows_last_new (H:=demo_texts) "UNIQUE" "acme" (mk_host empty_books ∅) demo_purge demo_digest_free demo_purge_apart) as Hs.
  assert (Ht : told (H:=demo_texts) "UNIQUE" "acme" (mk_host empty_books ∅) demo_purge [] []
    = ([demo_invoice 9000; demo_invoice 0; demo_invoice 9000], [demo_invoice 9000; demo_invoice 500])) by (vm_compute; reflexivity).
  rewrite Ht in Hs. unfold shown. rewrite Hs; [reflexivity| |by repeat constructor].
  split; [apply spine_wf_new|]. split; [done|]. intros r. apply empty_books_free.
Defined.

Lemma reverted_invoice_is_lost_witness :
  let sync b now db := (upsert_invoice_snapshots "UNIQUE" "acme" [demo_invoice b] now db).2 in
  cached_record <$> accounting_invoice_snapshots (accounting (tables (sync 9000%Z 40%N (sync 9000%Z 30%N (sync 0%Z 20%N (sync 9000%Z 10%N empty_books))))))
    !! ("acme", "17")%string = Some (demo_invoice 0).
Proof.
  refine (proj2 (reverted_invoice_is_lost "UNIQUE" "acme" (demo_invoice 9000) (demo_invoice 0) 10 20 [30%N] empty_books
    (spine_wf_new _) eq_refl _ eq_refl (empty_books_free _ _) (empty_books_free _ _) 40)).
  discriminate.
Defined.

Definition demo_synced : AppDb := (upsert_invoice_snapshots "UNIQUE" "acme" [demo_invoice 9000] 10 empty_books).2.

Lemma purged_books_stay_empty_witness :
  let purged := (delete_credential "UNIQUE" "acme" "user_ada" true 20 demo_synced).2 in
  ∃ db3, upsert_invoice_snapshots "UNIQUE" "acme" [demo_invoice 9000] 30 purged = (Ok (Build_UpsertSummary 1 0), db3) ∧
    accounting_invoice_snapshots (accounting (tables db3)) !! ("acme", "17")%string = None.
Proof.
  intros purged.
  destruct (purged_books_stay_empty "UNIQUE" "acme" "user_ada" [demo_invoice 9000] 10 20 30 empty_books "rcpt_000000000002" 1 purged)
    as (db3 & Hrun & Hnone); [apply spine_wf_new|done|vm_compute; reflexivity|].
  exists db3. split; [exact Hrun|apply Hnone].
Defined.

Definition demo_grant : QboTokenGrant := Build_QboTokenGrant "at" 5000 "rt" 9000.
Definition demo_connect (now : N) (h : Host) := store_credential "UNIQUE" "acme" "realm" "production" demo_grant "user_ada" now h.
Definition demo_reject (now : N) (h : Host) := mark_reconnect_required "UNIQUE" "acme" "qbo_token_rejected" now h.
Definition demo_connected : Host := (demo_connect 10 (mk_host empty_books ∅)).2.
Definition demo_rejected : Host := (demo_reject 20 demo_connected).2.
Definition demo_reconnected : Host := (demo_connect 30 demo_rejected).2.

Lemma demo_connected_wf : spine_wf (host_db demo_connected).
Proof.
  destruct (store_applied "UNIQUE" "acme" "realm" "production" demo_grant "user_ada" 10 (mk_host empty_books ∅) "rcpt_000000000001" 1
    demo_connected) as [? _]; [apply spine_wf_new|vm_compute; reflexivity|done].
Qed.

Lemma second_rejection_is_unmarked_witness :
  ∃ h3, (demo_reject 40 demo_reconnected).2 = h3 ∧ "acme"%string ∈ reconnect_latch h3 ∧
    ∃ row, qbo_credentials (tables (host_db h3)) !! "acme"%string = Some row ∧ QboCredentialRow.reconnect_required row = false.
Proof.
  assert (Hmark : demo_reject 20 demo_connected = (Ok (MutationOutcome.Applied "rcpt_000000000002" 2), demo_rejected)) by (vm_compute; reflexivity).
  assert (Hconn : demo_connect 30 demo_rejected = (Ok (MutationOutcome.Applied "rcpt_000000000003" 3), demo_reconnected)) by (vm_compute; reflexivity).
  pose proof demo_connected_wf as Hwf0. revert Hmark Hconn Hwf0. unfold demo_reject, demo_connect.
  generalize demo_connected demo_rejected demo_reconnected. intros h h1 h2 Hmark Hconn Hwf0.
  pose proof (mark_uses _ _ _ _ _ _ _ _ Hwf0 Hmark) as [Hwf _].
  destruct (second_rejection_is_unmarked "UNIQUE" "acme" "qbo_token_rejected" "qbo_token_rejected" "realm" "production" demo_grant
    "user_ada" 20 30 40 h h1 h1 h2 _ _ _ _ Hwf0 Hmark Hwf
    (receipts_grow_refl _) Hconn) as (id3 & rev3 & h3 & Hrun & Hlatch & _ & row & Hrow & Hreq & _).
  exists h3. rewrite Hrun. split; [done|]. split; [exact Hlatch|]. by exists row.
Defined.
