(* ===== verification/AccountingSyncProps.v ===== *)
(** * What a sync cycle of the accounting books does

    The budget of requests; the walk over the pages of an entity; and what a cycle
    finds after the books were disconnected or changed. *)

From S2P Require Import Prelude RustStd RustStr StoreCore StoreCoreProps AppOutbox AppOutboxProps Identity AccountingRecords Schema SliceCore Operators WorkItems Calendar Json AccountingStore AccountingViews AccountingSync AccountingProps.
Import Spine AccountingDates.

Section cycles.
Context (constraint_failed : string) `{AccountingTexts} (c : string).
Implicit Types (h : Host) (s : CycleSummary).

(** ** The budget *)

(** How many requests went out is counted by the requests themselves: a step of the cycle
    must account for every one of them, in its summary and against its budget. *)
Section budget.
Context (meanwhile : N → Host → Host) (recover : N → Op Pump string unit) (now : N) (start : N) (max : nat).

(** Every request sent since [start] is in the summary, and what is left of the budget is
    what the summary leaves. *)
Definition accounted (b : nat) s (w : Pump) : Prop :=
  (requests_sent w <= start + requests_used s)%N ∧ (requests_used s + N.of_nat b <= N.of_nat max)%N.
Definition within (w : Pump) : Prop := (requests_sent w <= start + N.of_nat max)%N.

Lemma accounted_within b s w : accounted b s w → within w.
Proof. unfold accounted, within. lia. Qed.

(** Requests at the database send nothing. *)
Lemma after_books {A B} (m : HostOp A) (k : A → Op Pump string B) w Q (E : Pump → Prop) :
  (∀ w1, requests_sent w1 = requests_sent w → E w1) →
  (∀ a w1, requests_sent w1 = requests_sent w → op_post (k a) w1 Q E) → op_post (op_bind (texted m) k) w Q E.
Proof.
  intros He Hk. apply op_post_bind. unfold op_post at 1, texted. destruct (m (pump_host w)) as [[a|e] h]; [by apply Hk|by apply He].
Qed.

Lemma after_error {B} entity text (k : unit → Op Pump string B) w Q (E : Pump → Prop) :
  (∀ w1, requests_sent w1 = requests_sent w → E w1) →
  (∀ w1, requests_sent w1 = requests_sent w → op_post (k tt) w1 Q E) →
  op_post (op_bind (record_entity_error constraint_failed c entity text now) k) w Q E.
Proof.
  intros He Hk. unfold record_entity_error. apply op_post_bind.
  apply after_books; [done|]. intros cursor w1 H1. apply after_books; [intros w2 H2; apply He; congruence|].
  intros ? w2 H2. apply op_post_ret, Hk. congruence.
Qed.

Lemma after_http {A B} (answer : N → A) (k : A → Op Pump string B) w Q E :
  (∀ a w1, requests_sent w1 = (requests_sent w + 1)%N → op_post (k a) w1 Q E) → op_post (op_bind (http meanwhile answer) k) w Q E.
Proof. intros Hk. apply op_post_bind. unfold op_post at 1, http. by apply Hk. Qed.

Ltac account := unfold accounted, within in *; cbn in *; lia.
Ltac books := (apply after_books || apply after_error); [intros ??; account|intros].

Section provider.
Context (client : AccountingReadClient) (Hrecover : ∀ n w, (requests_sent (recover n w).2 <= requests_sent w + 1)%N).

Abbreviation accounted_for m w := (op_post m w (λ p w', accounted (budget p) (done_so_far p) w') within).

Lemma entity_accounted entity b s r w :
  accounted b s w → accounted_for (sync_entity constraint_failed c client meanwhile recover now b entity s r) w.
Proof using Hrecover.
  revert s r w. induction b as [b IH] using lt_wf_ind. intros s r w Hw.
  destruct b as [|b]; cbn [sync_entity]; [by apply op_post_ret|].
  books. case_match; [apply op_post_ret; account|]. apply after_http. intros [page|err] w2 H2.
  - books. case_match; [apply op_post_ret; account|apply IH; [lia|account]].
  - destruct err as [retry m|m|code m|m]; try (books; apply op_post_ret; account).
    case_match; [books; account|]. destruct b as [|b]; [apply op_post_ret; account|].
    apply op_post_bind. unfold op_post at 1, recovered. pose proof (Hrecover now w2) as Hr.
    destruct (recover now w2) as [[u|e] w3]; cbn in Hr; [apply IH; [lia|account]|].
    apply after_error; [intros; account|]. intros w4 H4. account.
Qed.

Lemma entities_accounted entities p w :
  accounted (budget p) (done_so_far p) w →
  accounted_for (sync_entities constraint_failed c client meanwhile recover now entities p) w.
Proof using Hrecover.
  revert p w. induction entities as [|e es IH]; intros p w Hp; cbn [sync_entities]; [by apply op_post_ret|].
  apply op_post_bind. eapply op_post_mono; [by apply entity_accounted| |done]. intros p' w' Hp'.
  case_match; [by apply IH|by apply op_post_ret].
Qed.

Lemma periods_accounted queue cursor b s w :
  accounted b s w →
  op_post (fetch_periods constraint_failed c client meanwhile now queue cursor b s) w (λ r w', accounted r.1.1 r.1.2 w') within.
Proof.
  revert b s w. induction queue as [|p queue IH]; intros b s w Hw; cbn [fetch_periods]; [by apply op_post_ret|].
  destruct b as [|b]; [by apply op_post_ret|]. apply after_http. intros [report|err] w1 H1.
  - books. apply IH. account.
  - destruct err; books; apply op_post_ret; account.
Qed.

Abbreviation ledger_accounted m w := (op_post m w (λ l w', accounted l.1 l.2 w') within).

Lemma pnl_accounted ledger w :
  accounted ledger.1 ledger.2 w → ledger_accounted (sync_pnl_periods constraint_failed c client meanwhile now ledger) w.
Proof.
  intros Hl. unfold sync_pnl_periods. books. books. case_match; [apply op_post_ret; account|].
  apply op_post_bind. eapply op_post_mono; [apply periods_accounted; account| |done]. intros [l all] w3 Hl'. cbn [fst snd] in Hl'.
  destruct all as [[]|]; [|by apply op_post_ret..].
  case_match; [books|]; apply op_post_ret; account.
Qed.

Lemma days_accounted days b s any w :
  accounted b s w →
  op_post (upsert_days constraint_failed c now days s any) w (λ r w', accounted b r.1 w') within.
Proof.
  revert s any w. induction days as [|d days IH]; intros s any w Hw; cbn [upsert_days]; [by apply op_post_ret|].
  books. apply IH. account.
Qed.

Lemma daily_accounted ledger w :
  accounted ledger.1 ledger.2 w → ledger_accounted (sync_daily_revenue constraint_failed c client meanwhile now ledger) w.
Proof.
  destruct ledger as [b s]. cbn [fst snd]. intros Hl. unfold sync_daily_revenue.
  destruct (prior_month_to_date_window _) as [[from to]|]; [|by apply op_post_ret].
  books. cbn [fst snd]. destruct b as [|b]; [apply op_post_ret; account|]. case_match; [apply op_post_ret; account|].
  apply after_http. intros [report|err] w2 H2.
  - apply op_post_bind. eapply op_post_mono; [apply (days_accounted _ b); account| |done]. intros [s' any] w3 H3. cbn [fst] in H3.
    case_match; [books|]; apply op_post_ret; account.
  - destruct err; books; apply op_post_ret; account.
Qed.

Lemma balance_sheet_accounted ledger w :
  accounted ledger.1 ledger.2 w → ledger_accounted (sync_balance_sheet constraint_failed c client meanwhile now ledger) w.
Proof.
  destruct ledger as [b s]. cbn [fst snd]. intros Hl. unfold sync_balance_sheet. books. cbn [fst snd].
  destruct b as [|b]; [apply op_post_ret; account|]. case_match; [apply op_post_ret; account|].
  apply after_http. intros [report|err] w2 H2.
  - books. apply op_post_bind. apply (op_post_mono _ _ (λ _ w', requests_sent w' = requests_sent w2) _ (λ w', requests_sent w' = requests_sent w2)).
    + case_match; [|by apply op_post_ret]. unfold op_map. apply after_books; [intros; congruence|]. intros ? w4 Hw4. apply op_post_ret. congruence.
    + intros ? w4 Hw4. apply op_post_ret. account.
    + intros w4 Hw4. account.
  - destruct err; books; apply op_post_ret; account.
Qed.

Lemma cycle_accounted b w :
  accounted b empty_cycle w →
  op_post (run_sync_cycle constraint_failed c client meanwhile recover now b) w (λ s w', ∃ b', accounted b' s w') within.
Proof using Hrecover.
  intros Hw. unfold run_sync_cycle. books. case_match; [apply op_post_ret; exists b; account|].
  apply op_post_bind. eapply op_post_mono; [apply entities_accounted; account| |done]. intros p w2 Hp.
  case_match; [apply op_post_ret; exists (budget p); exact Hp|]. apply op_post_bind.
  eapply (op_post_mono _ _ (λ l w', accounted l.1 l.2 w') _ within).
  - case_match; [|by apply op_post_ret]. apply op_post_bind. eapply op_post_mono; [by apply pnl_accounted|apply daily_accounted|done].
  - intros l w3 Hl. apply op_post_bind. eapply (op_post_mono _ _ (λ l w', accounted l.1 l.2 w') _ within); [|intros l' w4 Hl'; apply op_post_ret; exists l'.1; exact Hl'|done].
    case_match; [by apply balance_sheet_accounted|by apply op_post_ret].
  - done.
Qed.
End provider.

(** *** A cycle at QuickBooks *)

Lemma refresh_sends refresh token w :
  requests_sent (refresh_and_persist constraint_failed c meanwhile refresh token now w).2 = (requests_sent w + 1)%N.
Proof.
  unfold refresh_and_persist. destruct (refresh token now) as [grant|error].
  - by destruct (persist_with_lock_retry _ _) as [[?|?] ?].
  - by destruct (token_rejected error).
Qed.

Lemma qbo_recovery_sends refresh token n w :
  requests_sent (qbo_auth_recovery constraint_failed c meanwhile refresh token n w).2 = (requests_sent w + 1)%N.
Proof.
  unfold qbo_auth_recovery, refresh_and_persist. destruct (refresh token n) as [grant|error].
  - by destruct (persist_with_lock_retry _ _) as [[?|?] ?].
  - by destruct (token_rejected error).
Qed.

(** Preparing the credential takes from the budget what it sends. *)
Lemma prepare_accounted refresh b w :
  requests_sent w = start → (b <= max)%nat →
  op_post (prepare_qbo_credentials constraint_failed c meanwhile refresh b now) w
    (λ r w', match r with
             | (Some (_, _, n), b') => requests_sent w' = (start + n)%N ∧ (n + N.of_nat b' <= N.of_nat max)%N
             | (None, _) => requests_sent w' = start
             end) within.
Proof.
  intros Hw Hb. unfold prepare_qbo_credentials. apply after_books; [intros ??; account|]. intros [credential|] w1 H1; [|apply op_post_ret; congruence].
  apply after_books; [intros ??; account|]. intros latched w2 H2. case_match; [apply op_post_ret; congruence|].
  case_match; [apply op_post_ret; account|]. destruct b as [|b]; [account|]. unfold op_post.
  pose proof (refresh_sends refresh (StoredQboCredential.refresh_token credential) w2) as Hr.
  destruct (refresh_and_persist _ _ _ _ _ _ w2) as [[grant|err] w3]; account.
Qed.
End budget.

Lemma foldr_max_ge (l : list N) n : n ∈ l → (n <= foldr N.max 0%N l)%N.
Proof. induction l as [|m l IH]; intros Hin; [by apply not_elem_of_nil in Hin|]. cbn. apply elem_of_cons in Hin as [->|?]; [lia|]. specialize (IH ltac:(done)). lia. Qed.

(** While any of the account's deadlines is in the future the cycle stands down. *)
Lemma deadline_stands_down client meanwhile recover now max_requests w entity row :
  entity ∈ [ENTITY_CUSTOMER; ENTITY_BILL; ENTITY_INVOICE; ENTITY_PNL; ENTITY_BALANCE_SHEET] →
  accounting_sync_cursors (accounting (tables (host_db (pump_host w)))) !! (c, entity) = Some row →
  (now < i64_as_u64 (SyncCursorRow.rate_limited_until_ms row))%N →
  run_sync_cycle constraint_failed c client meanwhile recover now max_requests w = (Ok empty_cycle, w).
Proof.
  intros Hin Hrow Hlate.
  set (deadline := foldr N.max 0%N ((fun entity => QboSyncCursor.rate_limited_until_ms (default QboSyncCursor.initial
    (cursor_from_row <$> accounting_sync_cursors (accounting (tables (host_db (pump_host w)))) !! (c, entity))))
    <$> [ENTITY_CUSTOMER; ENTITY_BILL; ENTITY_INVOICE; ENTITY_PNL; ENTITY_BALANCE_SHEET])).
  assert ((now < deadline)%N) as Hbefore.
  { eapply N.lt_le_trans; [exact Hlate|]. apply foldr_max_ge, list_elem_of_fmap. exists entity. by rewrite Hrow. }
  unfold run_sync_cycle, op_bind at 1, on_books, texted, on_db, backoff_until, read_tables. cbn [fst snd].
  fold deadline. apply N.ltb_lt in Hbefore. rewrite Hbefore. by destruct w as [[? ?] ?].
Qed.

(** A whole cycle at QuickBooks, its token included. *)
Lemma live_accounted meanwhile now app_configured refresh qbo_client max_requests w :
  op_post (run_live_qbo_cycle constraint_failed c app_configured refresh qbo_client meanwhile now max_requests) w
    (λ s w', (requests_sent w' <= requests_sent w + requests_used s)%N ∧ (requests_used s <= N.of_nat max_requests)%N)
    (λ w', (requests_sent w' <= requests_sent w + N.of_nat max_requests)%N).
Proof.
  unfold run_live_qbo_cycle. apply op_post_bind, op_post_lift_any; [|lia]. intros _.
  apply op_post_bind. eapply op_post_mono; [apply (prepare_accounted meanwhile now (requests_sent w) max_requests); [done|lia]| |done].
  intros [[[[credential token] n]|] b] w1 Hp; [|apply op_post_ret; cbn; lia]. destruct Hp as [Hsent Hb].
  apply op_post_bind. eapply op_post_mono.
  - apply (cycle_accounted meanwhile _ now (requests_sent w1) b).
    + intros m w2. rewrite qbo_recovery_sends. lia.
    + unfold accounted. cbn. lia.
  - intros s w2 [b' [Hs Hu]]. apply op_post_ret. cbn. lia.
  - unfold within. intros w2 Hw2. lia.
Qed.


(** ** Cursors *)

Definition cursor_row_at (entity : string) (db : AppDb) : option SyncCursorRow.t :=
  accounting_sync_cursors (accounting (tables db)) !! (c, entity).
Definition cursor_at (entity : string) (db : AppDb) : QboSyncCursor.t :=
  default QboSyncCursor.initial (cursor_from_row <$> cursor_row_at entity db).

Definition with_cursor (entity : string) (cursor : QboSyncCursor.t) (now : N) (t : SliceTables) : SliceTables :=
  set_accounting t (set_sync_cursors (accounting t)
    (<[(c, entity) := cursor_row cursor now]> (accounting_sync_cursors (accounting t)))).

(** A cursor is stored if it is news and its contents were never stored before. *)
Inductive cursor_put (entity : string) (cursor : QboSyncCursor.t) (now : N) (db : AppDb) : Result StoreError.t bool * AppDb → Prop :=
| cursor_same : cursor_at entity db = cursor → cursor_put entity cursor now db (Ok false, db)
| cursor_lost db' :
    cursor_at entity db ≠ cursor → key_used db c (cursor_key entity cursor) → tables db' = tables db → spine_wf db' →
    receipts_grow db db' → (∀ c k, key_used db' c k → key_used db c k) → cursor_put entity cursor now db (Ok true, db')
| cursor_kept db' :
    cursor_at entity db ≠ cursor → key_free db c (cursor_key entity cursor) →
    tables db' = with_cursor entity cursor now (tables db) → spine_wf db' →
    receipts_grow db db' → key_used db' c (cursor_key entity cursor) →
    (∀ c' k, key_used db' c' k → key_used db c' k ∨ c' = c ∧ k = cursor_key entity cursor) →
    cursor_put entity cursor now db (Ok true, db').

Lemma put_cursor_cases entity cursor now db :
  spine_wf db → cursor_put entity cursor now db (put_cursor constraint_failed c entity cursor now db).
Proof.
  intros Hwf. unfold put_cursor, get_cursor, read_accounting, read_tables, op_bind at 1.
  fold (cursor_row_at entity db) (cursor_at entity db). case_bool_decide as Hcur; [by apply cursor_same|].
  set (request := accounting_request _ _ _ _ _ _ _ _ _). set (write := update_accounting _).
  pose proof (mutate_put constraint_failed request write (with_cursor entity cursor now)
    db Hwf (slice_write_update _) eq_refl ltac:(eexists; split; reflexivity)) as Hput.
  unfold op_bind. inversion Hput; [by eapply cursor_lost|by eapply cursor_kept].
Qed.

Lemma put_cursor_uses entity cursor now db :
  spine_wf db → cursor_at entity db ≠ cursor →
  let db' := (put_cursor constraint_failed c entity cursor now db).2 in
  spine_wf db' ∧ key_used db' c (cursor_key entity cursor).
Proof.
  intros Hwf Hne. destruct (put_cursor_cases entity cursor now db Hwf) as [|db' _ Hu _ ? Hg|db']; [done| |done].
  split; [done|]. by eapply key_used_grow.
Qed.

(** Invoices do not touch the cursors, nor use a cursor's key. *)
Lemma upsert_each_cursors rs now db entity :
  spine_wf db → cursor_row_at entity (upsert_each (R:=InvoiceRecord.t) constraint_failed c now db rs) = cursor_row_at entity db.
Proof.
  revert db. induction rs as [|r rs IH]; intros db Hwf; [done|]. cbn [upsert_each foldl].
  assert (Hone : spine_wf (upsert_record constraint_failed c r now db).2 ∧
    cursor_row_at entity (upsert_record constraint_failed c r now db).2 = cursor_row_at entity db).
  { unfold cursor_row_at. destruct (upsert_cases constraint_failed c r now db Hwf) as [|db' _ _ Ht Hwf'|db' _ _ Ht Hwf'];
      cbn [snd]; [done|by rewrite Ht|by rewrite Ht]. }
  destruct Hone as [Hwf1 <-]. by apply IH.
Qed.

Lemma upsert_each_free rs now db k :
  spine_wf db → (∀ r : InvoiceRecord.t, k ≠ upsert_key r) → key_free db c k →
  key_free (upsert_each (R:=InvoiceRecord.t) constraint_failed c now db rs) c k.
Proof.
  revert db. induction rs as [|r rs IH]; intros db Hwf Hne Hfree; [done|]. cbn [upsert_each foldl].
  destruct (upsert_cases constraint_failed c r now db Hwf) as [|db' _ _ _ Hwf' _ Hu|db' _ _ _ Hwf' _ _ Hu]; cbn [snd];
    (apply IH; [done..|]); [done| |].
  - destruct (key_free_or_used db' c k) as [|Hk%Hu]; [done|]. by destruct (key_used_not_free _ _ _ Hk).
  - destruct (key_free_or_used db' c k) as [|[Hk|[_ Hk]]%Hu]; [done| |by destruct (Hne r)].
    by destruct (key_used_not_free _ _ _ Hk).
Qed.

(** ** The walk *)

(** The rest of the process leaves the log whole and an entity's cursor alone. *)
Definition leaves_cursor (entity : string) (f : Host → Host) : Prop :=
  ∀ h, spine_wf (host_db h) →
    spine_wf (host_db (f h)) ∧ receipts_grow (host_db h) (host_db (f h)) ∧
    cursor_row_at entity (host_db (f h)) = cursor_row_at entity (host_db h).

(** The cursor after a full page of invoices. *)
Definition after_page (page : Page InvoiceRecord.t) (cursor : QboSyncCursor.t) : QboSyncCursor.t :=
  advance_cursor cursor (walk_filter cursor) (len (records page)) (requested_page_size page)
    (max_text (InvoiceRecord.updated_at <$> records page)).

Definition full_page (page : Page InvoiceRecord.t) : Prop :=
  len (records page) = requested_page_size page ∧ (0 < requested_page_size page < 4294967296)%N.

Lemma after_full_page page : full_page page → after_page page QboSyncCursor.initial ≠ QboSyncCursor.initial.
Proof.
  intros [Hlen Hsize] Heq. apply (f_equal QboSyncCursor.next_start_position) in Heq. revert Heq.
  unfold after_page, advance_cursor. rewrite Hlen, N.ltb_irrefl. cbn. intros Heq.
  destruct (N.eq_dec (requested_page_size page) 4294967295%N) as [He|Hne]; [by rewrite He in Heq|].
  rewrite N.mod_small in Heq; lia.
Qed.

(** What a page of invoices does: the records, then the cursor. *)
Lemma apply_invoices page cursor now db :
  spine_wf db →
  ∃ a, apply_page constraint_failed c ENTITY_INVOICE (Invoices page) cursor (walk_filter cursor) now db =
      (Ok (Build_AppliedPage a (len (records page) <? requested_page_size page)%N),
       (put_cursor constraint_failed c ENTITY_INVOICE (after_page page cursor) now
          (upsert_each constraint_failed c now db (records page))).2).
Proof.
  intros Hwf. destruct (sync_invoices_each constraint_failed c (records page) now db Hwf) as [a Hs]. exists a.
  destruct (upsert_each_wf constraint_failed c now (records page) db Hwf) as [Hwf1 _].
  unfold apply_page, upsert_page, op_map, op_bind. rewrite Hs. cbn [op_ret]. fold (after_page page cursor).
  by destruct (put_cursor_cases ENTITY_INVOICE (after_page page cursor) now _ Hwf1).
Qed.

(** A round of the loop, up to the answer. *)
Lemma sync_entity_round client meanwhile recover now b s r w cursor page :
  cursor_at ENTITY_INVOICE (host_db (pump_host w)) = cursor → QboSyncCursor.rate_limited_until_ms cursor = 0%N →
  fetch_invoices client (requests_sent w) (page_request cursor) = Ok page →
  let h1 := meanwhile (requests_sent w) (pump_host w) in
  spine_wf (host_db h1) →
  let db1 := upsert_each constraint_failed c now (host_db h1) (records page) in
  let h2 := mk_host (put_cursor constraint_failed c ENTITY_INVOICE (after_page page cursor) now db1).2 (reconnect_latch h1) in
  let w2 := mk_pump h2 (requests_sent w + 1) in
  ∃ a, sync_entity constraint_failed c client meanwhile recover now (S b) ENTITY_INVOICE s r w =
    if (len (records page) <? requested_page_size page)%N then (Ok (go_on b (count_rows (spend s) a) r), w2)
    else sync_entity constraint_failed c client meanwhile recover now b ENTITY_INVOICE (count_rows (spend s) a) r w2.
Proof.
  intros Hc Hrate Hpage h1 Hwf db1 h2 w2. destruct (apply_invoices page cursor now (host_db h1) Hwf) as [a Ha]. exists a.
  destruct w as [h n]. cbn [pump_host requests_sent] in *.
  cbn [sync_entity]. unfold op_bind at 1, on_books, texted, on_db, get_cursor, read_accounting, read_tables. cbn [fst snd pump_host requests_sent].
  fold (cursor_row_at ENTITY_INVOICE (host_db h)) (cursor_at ENTITY_INVOICE (host_db h)). rewrite Hc, Hrate.
  replace (now <? 0)%N with false by (symmetry; apply N.ltb_ge; lia).
  unfold op_bind at 1, http. cbn [fst snd pump_host requests_sent].
  change (fetch_entity_page client ?n ENTITY_INVOICE ?p) with (Result_map Invoices (fetch_invoices client n p)).
  rewrite Hpage. cbn [Result_map]. replace (mk_host (host_db h) (reconnect_latch h)) with h by by destruct h.
  fold h1. unfold op_bind at 1. cbn [pump_host requests_sent]. rewrite Ha. cbn [walk_complete applied]. by destruct (_ <? _)%N.
Qed.

Section stuck.
Context (client : AccountingReadClient) (meanwhile : N → Host → Host) (recover : N → Op Pump string unit) (now : N).
Context (page : Page InvoiceRecord.t) (Hfull : full_page page).
Context (Hclient : ∀ n, fetch_invoices client n (page_request QboSyncCursor.initial) = Ok page).
Context (Hmeanwhile : ∀ n, leaves_cursor ENTITY_INVOICE (meanwhile n)).

(** A walk whose second cursor was stored before starts again with every request. *)
Lemma walk_restarts b s r w :
  spine_wf (host_db (pump_host w)) → cursor_row_at ENTITY_INVOICE (host_db (pump_host w)) = None →
  key_used (host_db (pump_host w)) c (cursor_key ENTITY_INVOICE (after_page page QboSyncCursor.initial)) →
  ∃ p w', sync_entity constraint_failed c client meanwhile recover now b ENTITY_INVOICE s r w = (Ok p, w') ∧
    goes_on p = false ∧ requests_used (done_so_far p) = (requests_used s + N.of_nat b)%N ∧
    requests_sent w' = (requests_sent w + N.of_nat b)%N ∧ cursor_row_at ENTITY_INVOICE (host_db (pump_host w')) = None.
Proof using Type Hfull Hclient Hmeanwhile.
  revert s w. induction b as [|b IH]; intros s w Hwf Hnone Hused.
  { eexists _, w. cbn. split; [done|]. cbn. split_and!; [done|lia|lia|done]. }
  destruct (Hmeanwhile (requests_sent w) (pump_host w) Hwf) as (Hwf1 & Hg1 & Hc1).
  destruct (sync_entity_round client meanwhile recover now b s r w QboSyncCursor.initial page) as [a ->];
    [unfold cursor_at; by rewrite Hnone|done|apply Hclient|done|].
  destruct Hfull as [Hlen _]. rewrite Hlen, N.ltb_irrefl.
  set (h1 := meanwhile _ (pump_host w)) in *. set (db1 := upsert_each _ _ _ _ _). set (db2 := (put_cursor _ _ _ _ _ _).2).
  destruct (upsert_each_wf constraint_failed c now (records page) (host_db h1) Hwf1) as [Hwf2 Hg2].
  pose proof (upsert_each_cursors (records page) now (host_db h1) ENTITY_INVOICE Hwf1) as Hc2. fold db1 in Hwf2, Hg2, Hc2.
  assert (spine_wf db2 ∧ receipts_grow db1 db2 ∧ cursor_row_at ENTITY_INVOICE db2 = None) as (Hwf3 & Hg3 & Hc3).
  { unfold db2, cursor_row_at in *. destruct (put_cursor_cases ENTITY_INVOICE (after_page page QboSyncCursor.initial) now db1 Hwf2)
      as [|db' _ _ Ht|db' _ Hfree]; cbn [snd]; [|by rewrite Ht, Hc2, Hc1|].
    - split_and!; [done|apply receipts_grow_refl|by rewrite Hc2, Hc1].
    - destruct (key_used_not_free _ _ _ (key_used_grow _ _ _ _ Hg2 (key_used_grow _ _ _ _ Hg1 Hused)) Hfree). }
  destruct (IH (count_rows (spend s) a) (mk_pump (mk_host db2 (reconnect_latch h1)) (requests_sent w + 1)) Hwf3 Hc3)
    as (p & w' & -> & ? & Hreq & Hsent & ?).
  { do 3 (eapply key_used_grow; [eassumption|]). exact Hused. }
  exists p, w'. split; [done|]. split_and!; [done|rewrite Hreq; cbn; lia|rewrite Hsent; cbn; lia|done].
Qed.
End stuck.

(** A walk cannot be repeated from its start.  Once the cursor after the first, full
    page was stored, a purge of the books that removes the cursor makes every later walk
    over the same page spend the whole budget on fetching that page again: the cycle ends
    there, with the budget gone and no cursor stored. *)
Theorem purged_walk_restarts client meanwhile recover now0 now1 now2 page actor id rev db db1 db2 latch sent b s r :
  full_page page → (∀ n, fetch_invoices client n (page_request QboSyncCursor.initial) = Ok page) →
  (∀ n, leaves_cursor ENTITY_INVOICE (meanwhile n)) →
  spine_wf db → cursor_at ENTITY_INVOICE db = QboSyncCursor.initial →
  let first := apply_page constraint_failed c ENTITY_INVOICE (Invoices page) QboSyncCursor.initial None now0 db in
  spine_wf db1 → receipts_grow first.2 db1 →
  delete_credential constraint_failed c actor true now1 db1 = (Ok (MutationOutcome.Applied id rev), db2) →
  ∃ p w', sync_entity constraint_failed c client meanwhile recover now2 b ENTITY_INVOICE s r (mk_pump (mk_host db2 latch) sent) = (Ok p, w') ∧
    goes_on p = false ∧ requests_used (done_so_far p) = (requests_used s + N.of_nat b)%N ∧
    requests_sent w' = (sent + N.of_nat b)%N ∧ cursor_at ENTITY_INVOICE (host_db (pump_host w')) = QboSyncCursor.initial.
Proof.
  intros Hfull Hclient Hmw Hwf Hcur first Hwf1 Hg1 Hd.
  destruct (apply_invoices page QboSyncCursor.initial now0 db Hwf) as [a Hfirst].
  destruct (upsert_each_wf constraint_failed c now0 (records page) db Hwf) as [Hwf0 _].
  destruct (put_cursor_uses ENTITY_INVOICE (after_page page QboSyncCursor.initial) now0 _ Hwf0) as [_ Hused].
  { unfold cursor_at in *. rewrite upsert_each_cursors, Hcur by done. by intros ?%symmetry%(after_full_page page Hfull). }
  destruct (applied_write _ _ _ _ _ _ _ Hwf1 (disconnect_write_slice _ _) Hd) as (Hwf2 & Hg2 & _ & dbw & Hw & Ht).
  destruct (walk_restarts client meanwhile recover now2 page Hfull Hclient Hmw b s r (mk_pump (mk_host db2 latch) sent)) as (p & w' & Hrun & ? & ? & ? & Hnone).
  - exact Hwf2.
  - cbn [host_db pump_host]. unfold cursor_row_at. rewrite Ht. unfold op_bind, update_accounting, update_tables in Hw. injection Hw as <-.
    apply (other_clients_gone c ENTITY_INVOICE).
  - cbn [host_db pump_host]. eapply key_used_grow; [exact Hg2|]. eapply key_used_grow; [exact Hg1|].
    unfold first. change None with (walk_filter QboSyncCursor.initial). rewrite Hfirst. exact Hused.
  - exists p, w'. split_and!; [done..|]. unfold cursor_at. by rewrite Hnone.
Qed.

(** ** A backfill *)

Lemma str_ge_total a b : str_ge a b = true ∨ str_ge b a = true.
Proof. unfold str_ge. destruct (String.leb_total a b); auto. Qed.
Lemma str_ge_antisym a b : str_ge a b = true → str_ge b a = true → a = b.
Proof. unfold str_ge. intros Ha Hb. by apply String.leb_antisym. Qed.
Lemma str_ge_trans a b d : str_ge a b = true → str_ge b d = true → str_ge a d = true.
Proof.
  unfold str_ge. intros Ha%Is_true_true Hb%Is_true_true. apply Is_true_true. change (String.le d a).
  transitivity b; [exact Hb|exact Ha].
Qed.

Lemma later_some a b : later (Some a) (Some b) = Some (if str_ge b a then b else a).
Proof.
  cbn. destruct (str_ge a b) eqn:Ha, (str_ge b a) eqn:Hb; cbn; try done.
  - by rewrite (str_ge_antisym _ _ Ha Hb).
  - destruct (str_ge_total a b); congruence.
Qed.

Lemma later_none a : later a None = a.
Proof. by destruct a. Qed.

Lemma later_assoc a b d : later a (later b d) = later (later a b) d.
Proof.
  destruct a as [a|], b as [b|], d as [d|]; rewrite ?later_none; try done.
  rewrite !later_some. destruct (str_ge d b) eqn:Hdb, (str_ge b a) eqn:Hba; rewrite ?later_some, ?Hdb, ?Hba; [| |done|].
  - by rewrite (str_ge_trans _ _ _ Hdb Hba).
  - done.
  - destruct (str_ge d a) eqn:Hda; [|done]. destruct (str_ge_total a b) as [Hab|]; [|congruence].
    rewrite (str_ge_trans _ _ _ Hda Hab) in Hdb. done.
Qed.

Lemma max_text_app l l' : max_text (l ++ l') = later (max_text l) (max_text l').
Proof.
  assert (Hstep : ∀ l acc, foldl (fun acc x => match acc with None => Some x | Some m => if str_ge x m then Some x else acc end) acc l
                           = later acc (max_text l)).
  { induction l0 as [|x l0 IH]; intros acc; [by rewrite later_none|]. cbn [foldl]. unfold max_text. cbn [foldl].
    rewrite IH, (IH (Some x)). rewrite later_assoc. f_equal. destruct acc as [m|]; [|done]. rewrite later_some.
    by destruct (str_ge x m). }
  unfold max_text at 1. rewrite foldl_app, Hstep. done.
Qed.

Section backfill.
Context (client : AccountingReadClient) (meanwhile : N → Host → Host) (recover : N → Op Pump string unit) (now : N).
Context (rs : list InvoiceRecord.t).
Context (Hhex : ∀ t, colon_free (sha256_hex t)).

Definition page_length : nat := N.to_nat ACCOUNTING_MAX_PAGE_SIZE.

(** The provider answers unfiltered requests from one list of invoices. *)
Definition serves (client : AccountingReadClient) : Prop :=
  ∀ n page, PageRequest.since_updated_at page = None → PageRequest.page_size page = ACCOUNTING_MAX_PAGE_SIZE →
    fetch_invoices client n page =
      Ok (mk_page (take page_length (drop (N.to_nat (PageRequest.start_position page) - 1) rs)) ACCOUNTING_MAX_PAGE_SIZE).

(** The cursor after [k] full pages, and at the end. *)
Definition backfill_cursor (advanced : option N) (k : nat) : QboSyncCursor.t :=
  QboSyncCursor.mk None None (max_text (InvoiceRecord.updated_at <$> take (page_length * k) rs))
    (1 + N.of_nat (page_length * k)) false 0 None advanced.
Definition backfill_end (advanced : option N) : QboSyncCursor.t :=
  QboSyncCursor.mk (max_text (InvoiceRecord.updated_at <$> rs)) None None 1 true 0 None advanced.

(** The cursors stored from page [k] on. *)
Definition cursors_from (k : nat) : list QboSyncCursor.t :=
  (backfill_cursor None <$> seq (S k) (length rs / page_length - k)) ++ [backfill_end None].

Definition fresh_cursors (cursors : list QboSyncCursor.t) (db : AppDb) : Prop :=
  NoDup (cursor_key ENTITY_INVOICE <$> cursors) ∧
  ∀ cursor, cursor ∈ cursors → key_free db c (cursor_key ENTITY_INVOICE cursor).

Lemma cursor_key_invoice cursor r : cursor_key ENTITY_INVOICE cursor ≠ upsert_key (R:=InvoiceRecord.t) r.
Proof. discriminate. Qed.

(** Storing a cursor leaves the invoices' cache as it was. *)
Lemma put_cursor_follows entity cursor before history db :
  (∀ r : InvoiceRecord.t, cursor_key entity cursor ≠ upsert_key r) →
  cache_follows (R:=InvoiceRecord.t) c before history db →
  cache_follows (R:=InvoiceRecord.t) c before history (put_cursor constraint_failed c entity cursor now db).2.
Proof.
  intros Hne [Hwf Hrows Hkeys].
  destruct (put_cursor_cases entity cursor now db Hwf) as [|db' _ _ Ht Hwf' Hg Hu|db' _ _ Ht Hwf' Hg _ Hu]; cbn [snd]; [done| |];
    (split; [done|intros k; unfold shows_last_new; rewrite Ht; apply Hrows|intros r; rewrite <- Hkeys; split; [|by apply key_used_grow]]).
  - apply Hu.
  - by intros [?|[_ Heq]]%Hu; [|destruct (Hne r)].
Qed.

Definition page_at (k : nat) : Page InvoiceRecord.t :=
  mk_page (take page_length (drop (page_length * k) rs)) ACCOUNTING_MAX_PAGE_SIZE.

Context (Hserves : serves client) (Hquiet : ∀ n h, meanwhile n h = h).

Lemma backfill_page adv k n : fetch_invoices client n (page_request (backfill_cursor adv k)) = Ok (page_at k).
Proof using Type Hserves.
  unfold page_request, walk_filter. cbn [QboSyncCursor.next_start_position QboSyncCursor.walk_since QboSyncCursor.high_water_updated_at backfill_cursor].
  rewrite Hserves; [|by destruct (1 <? _)%N|done]. cbn [PageRequest.start_position].
  replace (N.to_nat (1 + N.of_nat (page_length * k)) - 1) with (page_length * k) by lia. done.
Qed.

Lemma page_length_at k : length (records (page_at k)) = Nat.min page_length (length rs - page_length * k).
Proof. unfold page_at. cbn [records]. by rewrite length_take, length_drop. Qed.

Lemma page_prefix k : take (page_length * k) rs ++ records (page_at k) = take (page_length * S k) rs.
Proof. unfold page_at. cbn [records]. rewrite take_take_drop. f_equal. lia. Qed.

Lemma cursors_from_step k :
  (page_length * S k ≤ length rs)%nat → cursors_from k = backfill_cursor None (S k) :: cursors_from (S k).
Proof.
  intros Hle. unfold cursors_from. assert (S k ≤ length rs / page_length)%nat by (apply Nat.div_le_lower_bound; [done|lia]).
  replace (length rs / page_length - k) with (S (length rs / page_length - S k)) by lia. done.
Qed.

(** One cursor put: read back, with the keys of the rest still free. *)
Lemma put_fresh cursor cursor0 cursors db :
  spine_wf db → cursor_at ENTITY_INVOICE db ≠ cursor → cursor_key ENTITY_INVOICE cursor = cursor_key ENTITY_INVOICE cursor0 →
  fresh_cursors (cursor0 :: cursors) db →
  let db' := (put_cursor constraint_failed c ENTITY_INVOICE cursor now db).2 in
  cursor_at ENTITY_INVOICE db' = cursor_from_row (cursor_row cursor now) ∧ fresh_cursors cursors db'.
Proof.
  intros Hwf Hne Hk [[Hnot Hnd]%NoDup_cons Hfree]. pose proof (Hfree cursor0 (list_elem_of_here _ _)) as Hf0. rewrite <- Hk in Hf0, Hnot.
  destruct (put_cursor_cases ENTITY_INVOICE cursor now db Hwf) as [|db' _ Hu|db' _ _ Ht _ _ _ Hu]; cbn [snd]; [done| |].
  { by destruct (key_used_not_free _ _ _ Hu). }
  split.
  - unfold cursor_at, cursor_row_at. rewrite Ht. cbn. by rewrite lookup_insert_eq.
  - split; [done|]. intros x Hx. destruct (key_free_or_used db' c (cursor_key ENTITY_INVOICE x)) as [|[Hux|[_ Heq]]%Hu]; [done| |].
    + destruct (key_used_not_free _ _ _ Hux). apply Hfree. by right.
    + destruct Hnot. rewrite <- Heq. apply list_elem_of_fmap. by exists x.
Qed.

Lemma fresh_upserts cursors l db :
  spine_wf db → fresh_cursors cursors db → fresh_cursors cursors (upsert_each (R:=InvoiceRecord.t) constraint_failed c now db l).
Proof.
  intros Hwf [Hnd Hfree]. split; [done|]. intros x Hx. apply upsert_each_free; [done|apply cursor_key_invoice|by apply Hfree].
Qed.

(** What is read back of a stored cursor. *)
Lemma cursor_read_back cursor :
  QboSyncCursor.rate_limited_until_ms cursor = 0%N → (QboSyncCursor.next_start_position cursor < 4294967296)%N →
  cursor_from_row (cursor_row cursor now) =
    QboSyncCursor.mk (QboSyncCursor.high_water_updated_at cursor) (QboSyncCursor.walk_since cursor)
      (QboSyncCursor.walk_max_updated_at cursor) (QboSyncCursor.next_start_position cursor) (QboSyncCursor.backfill_complete cursor)
      0 (QboSyncCursor.last_error cursor) (Some (i64_as_u64 (u64_as_i64 now))).
Proof.
  intros Hr Hn. destruct cursor. unfold cursor_row, cursor_from_row. cbn in *. subst. f_equal. rewrite Z.mod_small; lia.
Qed.

Context (Hsize : (len rs + 200 < 4294967296)%N).

Lemma after_page_at adv k :
  (page_length * k ≤ length rs)%nat →
  after_page (page_at k) (backfill_cursor adv k) =
    if decide (page_length * S k ≤ length rs)%nat then backfill_cursor adv (S k) else backfill_end adv.
Proof using Type Hsize.
  intros Hk. unfold after_page, advance_cursor. cbn [QboSyncCursor.walk_max_updated_at backfill_cursor].
  rewrite <- max_text_app, <- fmap_app, page_prefix.
  unfold len at 1. rewrite page_length_at. cbn [requested_page_size page_at].
  assert (HP : ACCOUNTING_MAX_PAGE_SIZE = N.of_nat page_length) by done. rewrite HP.
  destruct (decide (page_length * S k ≤ length rs)%nat) as [Hle|Hgt].
  - replace (Nat.min _ _) with page_length by lia. rewrite N.ltb_irrefl.
    assert (Hw : walk_filter (backfill_cursor adv k) = None) by (unfold walk_filter; by destruct (1 <? _)%N).
    rewrite Hw. unfold backfill_cursor. f_equal. unfold len in Hsize. assert (page_length = 100%nat) by done. cbn [QboSyncCursor.next_start_position]. rewrite N.mod_small; lia.
  - replace (_ <? _)%N with true by (symmetry; apply N.ltb_lt; lia). rewrite take_ge by lia.
    unfold backfill_end. f_equal. by destruct (max_text _).
Qed.



Lemma backfill_from m b k s r w adv :
  (length rs / page_length - k = m)%nat → (page_length * k ≤ length rs)%nat → (m < b)%nat →
  cursor_at ENTITY_INVOICE (host_db (pump_host w)) = backfill_cursor adv k →
  cache_follows c [] (take (page_length * k) rs) (host_db (pump_host w)) → fresh_cursors (cursors_from k) (host_db (pump_host w)) →
  ∃ p w' adv', sync_entity constraint_failed c client meanwhile recover now b ENTITY_INVOICE s r w = (Ok p, w') ∧
    goes_on p = true ∧ requests_used (done_so_far p) = (requests_used s + N.of_nat (S m))%N ∧
    requests_sent w' = (requests_sent w + N.of_nat (S m))%N ∧
    cache_follows c [] rs (host_db (pump_host w')) ∧ cursor_at ENTITY_INVOICE (host_db (pump_host w')) = backfill_end adv'.
Proof using Type Hserves Hquiet Hsize Hhex.
  revert b k s w adv. induction m as [|m IH]; intros b k s w adv Hm Hk Hb Hc Hf Hfresh; (destruct b as [|b]; [lia|]).
  all: destruct (sync_entity_round client meanwhile recover now b s r w (backfill_cursor adv k) (page_at k) Hc eq_refl
    (backfill_page adv k _)) as [a Hrun]; [rewrite Hquiet; exact (follows_wf _ _ _ _ Hf)|].
  all: rewrite Hquiet in Hrun; set (db1 := upsert_each _ _ _ _ _) in Hrun; set (db2 := (put_cursor _ _ _ _ _ _).2) in Hrun.
  all: assert (Hf1 : cache_follows c [] (take (page_length * S k) rs) db1)
    by (rewrite <- page_prefix; apply upsert_each_follows; [done|apply (invoice_keys_differ Hhex)|done]).
  all: assert (Hc1 : cursor_at ENTITY_INVOICE db1 = backfill_cursor adv k)
    by (unfold db1, cursor_at in *; rewrite upsert_each_cursors by exact (follows_wf _ _ _ _ Hf); done).
  all: pose proof (fresh_upserts _ (records (page_at k)) (host_db (pump_host w)) (follows_wf _ _ _ _ Hf) Hfresh) as Hfresh1.
  all: pose proof (Nat.div_mod (length rs) page_length ltac:(done)) as Hdm; pose proof (Nat.mod_upper_bound (length rs) page_length ltac:(done)) as Hub.
  all: pose proof (after_page_at adv k Hk) as Hafter; pose proof (page_length_at k) as Hlen.
  all: assert (Hkq : (k <= length rs / page_length)%nat) by (apply Nat.div_le_lower_bound; [done|lia]).
  - assert (Hq : (length rs / page_length = k)%nat) by lia. rewrite Hq in Hdm.
    rewrite decide_False in Hafter by lia. rewrite take_ge in Hf1 by lia.
    assert (Hlast : cursors_from k = [backfill_end None]) by (unfold cursors_from; rewrite Hq, Nat.sub_diag; done).
    rewrite Hlast in Hfresh1.
    destruct (put_fresh (backfill_end adv) (backfill_end None) [] db1 (follows_wf _ _ _ _ Hf1) ltac:(by rewrite Hc1) eq_refl Hfresh1) as [Hend _].
    replace (_ <? _)%N with true in Hrun by (symmetry; apply N.ltb_lt; unfold len; rewrite Hlen; change (requested_page_size (page_at k)) with (N.of_nat page_length); lia).
    eexists _, _, _. split; [exact Hrun|]. split; [done|]. split; [cbn; lia|]. split; [cbn; lia|]. cbn [host_db pump_host]. unfold db2. rewrite Hafter.
    split; [apply put_cursor_follows; [apply cursor_key_invoice|done]|]. rewrite Hend. rewrite cursor_read_back by done. reflexivity.
  - assert (Hq : (page_length * S k <= length rs)%nat).
    { rewrite Hdm. enough (page_length * S k <= page_length * (length rs / page_length))%nat by lia. apply Nat.mul_le_mono_l. lia. }
    rewrite decide_True in Hafter by done. rewrite cursors_from_step in Hfresh1 by done.
    assert (Hne : cursor_at ENTITY_INVOICE db1 ≠ backfill_cursor adv (S k)).
    { rewrite Hc1. intros Heq%(f_equal QboSyncCursor.next_start_position). cbn [QboSyncCursor.next_start_position backfill_cursor] in Heq. lia. }
    destruct (put_fresh (backfill_cursor adv (S k)) (backfill_cursor None (S k)) (cursors_from (S k)) db1 (follows_wf _ _ _ _ Hf1) Hne eq_refl Hfresh1)
      as [Hnext Hfresh2].
    replace (_ <? _)%N with false in Hrun by (symmetry; apply N.ltb_ge; unfold len; rewrite Hlen; change (requested_page_size (page_at k)) with (N.of_nat page_length); lia).
    edestruct (IH b (S k) (count_rows (spend s) a) (mk_pump (mk_host db2 (reconnect_latch (pump_host w))) (requests_sent w + 1))) as (p & w' & adv' & Hrest & ? & Hreq & Hsent & ? & ?).
    5: { cbn [host_db pump_host]. unfold db2. rewrite Hafter. apply put_cursor_follows; [apply cursor_key_invoice|exact Hf1]. }
    5: { cbn [host_db pump_host]. unfold db2. rewrite Hafter. exact Hfresh2. }
    4: { cbn [host_db pump_host]. unfold db2. rewrite Hafter, Hnext, cursor_read_back; [reflexivity|done|].
         cbn [QboSyncCursor.next_start_position backfill_cursor]. unfold len in Hsize. lia. }
    1-3: lia.
    exists p, w', adv'. rewrite Hrun. split; [exact Hrest|]. split; [done|]. split; [rewrite Hreq; cbn; lia|]. split; [rewrite Hsent; cbn; lia|done].
Qed.
End backfill.

(** Of the records of one list, what is cached of an invoice that has one record. *)
Lemma follows_list rs r db :
  cache_follows c [] rs db → r ∈ rs →
  (∀ r', r' ∈ rs → InvoiceRecord.invoice_id r' = InvoiceRecord.invoice_id r → r' = r) →
  cached_record <$> accounting_invoice_snapshots (accounting (tables db)) !! (c, InvoiceRecord.invoice_id r) = Some r.
Proof.
  intros Hf Hr Hone. etrans; [exact (proj1 (follows_rows _ _ _ _ Hf (InvoiceRecord.invoice_id r)))|].
  assert (Hall : ∀ r', r' ∈ of_key (InvoiceRecord.invoice_id r) rs → r' = r).
  { intros r' [Hk Hin]%list_elem_of_filter. by apply Hone. }
  assert (Hin : r ∈ of_key (InvoiceRecord.invoice_id r) rs) by by apply list_elem_of_filter.
  revert Hall Hin. generalize (of_key (InvoiceRecord.invoice_id r) rs). intros [|r0 l] Hall Hin; [by apply not_elem_of_nil in Hin|].
  cbn. rewrite (Hall r0) by by left.
  assert (Hnone : first_said [invoice_hash r] l = []).
  { assert (Hl : ∀ r', r' ∈ l → r' = r) by (intros r' Hr'; apply Hall; by right). clear -Hl. induction l as [|x l IH]; [done|]. cbn.
    rewrite (Hl x) by by left. rewrite string_eqb_refl. cbn. apply IH. intros r' Hr'. apply Hl. by right. }
  by rewrite Hnone.
Qed.

Lemma follows_unlisted rs id db :
  cache_follows c [] rs db → (∀ r, r ∈ rs → InvoiceRecord.invoice_id r ≠ id) →
  accounting_invoice_snapshots (accounting (tables db)) !! (c, id) = None.
Proof.
  intros Hf Hnot. pose proof (proj1 (follows_rows _ _ _ _ Hf id)) as Hrow. cbn [cache_rows InvoiceCache] in Hrow.
  assert (He : of_key id rs = []).
  { apply elem_of_nil_inv. intros r [Hk Hin]%list_elem_of_filter. by apply (Hnot r). }
  rewrite He in Hrow. by destruct (accounting_invoice_snapshots _ !! _).
Qed.

(** C19: A first walk over the invoices brings the whole list.  Where the client's invoices
    were never synced, its cursor is the initial one, none of the cursors the walk stores was
    stored before, and nobody writes between the requests: when a provider serves a list of
    invoices page by page (shorter than [2^32 - 200]), the walk sends [len / 100 + 1] requests
    and ends if the budget has them; the cache then shows every invoice of the list as the
    list has it, if the list has one record of it, and none that is not in the list, and the
    cursor is complete with the latest change as its high water. *)
Theorem first_walk_brings_all client meanwhile recover now rs b s r w :
  (∀ t, colon_free (sha256_hex t)) → serves rs client → (∀ n h, meanwhile n h = h) → (len rs + 200 < 4294967296)%N →
  never_synced c (host_db (pump_host w)) → cursor_at ENTITY_INVOICE (host_db (pump_host w)) = QboSyncCursor.initial →
  fresh_cursors (cursors_from rs 0) (host_db (pump_host w)) →
  let pages := S (length rs / 100) in (pages <= b)%nat →
  ∃ p w', sync_entity constraint_failed c client meanwhile recover now b ENTITY_INVOICE s r w = (Ok p, w') ∧
    let cache id := cached_record <$> accounting_invoice_snapshots (accounting (tables (host_db (pump_host w')))) !! (c, id) in
    goes_on p = true ∧ requests_used (done_so_far p) = (requests_used s + N.of_nat pages)%N ∧
    requests_sent w' = (requests_sent w + N.of_nat pages)%N ∧
    (∀ invoice, invoice ∈ rs →
       (∀ other, other ∈ rs → InvoiceRecord.invoice_id other = InvoiceRecord.invoice_id invoice → other = invoice) →
       cache (InvoiceRecord.invoice_id invoice) = Some invoice) ∧
    (∀ id, (∀ invoice, invoice ∈ rs → InvoiceRecord.invoice_id invoice ≠ id) → cache id = None) ∧
    QboSyncCursor.backfill_complete (cursor_at ENTITY_INVOICE (host_db (pump_host w'))) = true ∧
    QboSyncCursor.high_water_updated_at (cursor_at ENTITY_INVOICE (host_db (pump_host w'))) = max_text (InvoiceRecord.updated_at <$> rs).
Proof.
  intros Hhex Hserves Hquiet Hsize (Hwf & Hrows & Hfree) Hc Hfresh pages Hb.
  destruct (backfill_from client meanwhile recover now rs Hhex Hserves Hquiet Hsize (length rs / page_length) b 0 s r w None)
    as (p & w' & adv' & Hrun & ? & Hreq & Hsent & Hf & Hend); [lia|lia|exact Hb|exact Hc| |exact Hfresh|].
  { split; [done| |].
    - intros k. split; cbn; by rewrite Hrows.
    - intros x. split; [|by intros (? & ?%not_elem_of_nil & _)]. intros Hu. by destruct (key_used_not_free _ _ _ Hu). }
  exists p, w'. rewrite Hend. split; [exact Hrun|]. split; [done|]. split; [exact Hreq|]. split; [exact Hsent|].
  split; [intros invoice Hin Hone; by eapply follows_list|]. split; [|done].
  intros id Hnot. by rewrite (follows_unlisted _ _ _ Hf Hnot).
Qed.

(** ** Other books *)

Definition complete_period (p : PnlPeriod.t) (row : PnlSnapshotRow.t) : Prop :=
  PnlPeriod.is_complete p = true ∧ PnlSnapshotRow.is_complete row = true ∧
  PnlSnapshotRow.period_kind row = PnlPeriod.kind p ∧ PnlSnapshotRow.period_start row = PnlPeriod.start p.

(** The profit and loss of other books is kept.  Connecting the books of another realm
    empties the caches of invoices, bills, customers and balance sheets and resets every
    cursor, but keeps the cached profit-and-loss rows, and the complete periods among
    them are not fetched again: the figures of the old books stand for the new. *)
Theorem other_books_keep_profit realm env grant by_user now h id rev h' :
  spine_wf (host_db h) → realm_changed c realm (tables (host_db h)) = true →
  store_credential constraint_failed c realm env grant by_user now h = (Ok (MutationOutcome.Applied id rev), h') →
  let old := accounting (tables (host_db h)) in let books := accounting (tables (host_db h')) in
  (∀ k, accounting_invoice_snapshots books !! (c, k) = None ∧ accounting_bill_snapshots books !! (c, k) = None ∧
        accounting_customer_snapshots books !! (c, k) = None ∧ accounting_balance_sheet_snapshots books !! (c, k) = None ∧
        accounting_sync_cursors books !! (c, k) = None) ∧
  ∀ p cached, accounting_pnl_snapshots old !! (c, (PnlPeriod.kind p, PnlPeriod.start p)) = Some cached →
    complete_period p (cached_record cached) →
    accounting_pnl_snapshots books !! (c, (PnlPeriod.kind p, PnlPeriod.start p)) = Some cached ∧
    ∃ starts, complete_pnl_period_starts c (host_db h') = (Ok starts, host_db h') ∧ ∀ needed, p ∉ period_queue needed starts.
Proof.
  intros Hwf Hch Hs old books. destruct (store_applied _ _ _ _ _ _ _ _ _ _ _ Hwf Hs) as (_ & _ & _ & Ht).
  assert (Hbooks : books = wipe_other_realm c old) by (unfold books; rewrite Ht; unfold connected; by rewrite Hch).
  split; [intros k; rewrite Hbooks; split_and!; apply (other_clients_gone c k)|].
  intros p cached Hrow (Hp & Hcomplete & Hkind & Hstart).
  assert (Hrow' : accounting_pnl_snapshots books !! (c, (PnlPeriod.kind p, PnlPeriod.start p)) = Some cached) by by rewrite Hbooks.
  split; [done|]. eexists. split; [reflexivity|]. intros needed [Hin|Hin]%elem_of_app.
  { apply list_elem_of_filter in Hin as [Hin _]. by rewrite Hp in Hin. }
  apply list_elem_of_filter in Hin as [[_ Hnot] _]. apply Hnot, elem_of_list_to_set, list_elem_of_fmap.
  exists (cached_record cached). split; [by rewrite Hkind, Hstart|]. apply list_elem_of_filter. split; [done|].
  unfold client_records. rewrite <- list_fmap_compose. apply list_elem_of_fmap. eexists (_, cached). split; [reflexivity|].
  apply list_elem_of_filter. split; [|apply elem_of_map_to_list; exact Hrow']. done.
Qed.
End cycles.

(** ** Witnesses *)

#[local] Existing Instance demo_texts.

(** A provider that has invoices and customers only. *)
Definition invoices_only (answer : N → PageRequest.t → Result AccountingError (Page InvoiceRecord.t))
    (customers : N → PageRequest.t → Result AccountingError (Page CustomerRecord.t)) : AccountingReadClient := {|
  fetch_invoices := answer;
  fetch_customers := customers;
  supports_bills := false;
  fetch_bills _ _ := Err (Permanent "no_bills" "");
  supports_pnl := false;
  fetch_profit_and_loss _ _ := Err (Permanent "no_pnl" "");
  supports_balance_sheet := false;
  fetch_balance_sheet _ _ := Err (Permanent "no_balance_sheet" "");
|}.
Definition list_page (rs : list InvoiceRecord.t) (page : PageRequest.t) : Page InvoiceRecord.t :=
  mk_page (take page_length (drop (N.to_nat (PageRequest.start_position page) - 1) rs)) ACCOUNTING_MAX_PAGE_SIZE.
(** One list of invoices; whatever is asked after [known] requests fails. *)
Definition demo_provider (rs : list InvoiceRecord.t) (known : N) : AccountingReadClient := invoices_only
  (fun n page => if (n <? known)%N then Ok (list_page rs page) else Err (Retryable "down" "later"))
  (fun n page => if (n <? known)%N then Ok (mk_page [] 100) else Err (Retryable "down" "later")).
Definition list_server (rs : list InvoiceRecord.t) : AccountingReadClient :=
  invoices_only (fun _ page => Ok (list_page rs page)) (fun _ _ => Ok (mk_page [] 100)).
Definition demo_host (db : AppDb) : Pump := mk_pump (mk_host db ∅) 0.
Definition demo_cycle (known : N) := run_sync_cycle "UNIQUE" "acme" (demo_provider [demo_invoice 9000] known) (λ _ h, h) no_auth_recovery 1000 2
  (demo_host empty_books).

Lemma no_recovery_sends n w : (requests_sent (no_auth_recovery n w).2 <= requests_sent w + 1)%N.
Proof. cbn. lia. Qed.


Definition demo_page : Page InvoiceRecord.t := mk_page [demo_invoice 9000] 1.
Definition page_server : AccountingReadClient := invoices_only (fun _ _ => Ok demo_page) (fun _ _ => Ok (mk_page [] 100)).
Definition first_page_db : AppDb :=
  (apply_page "UNIQUE" "acme" ENTITY_INVOICE (Invoices demo_page) QboSyncCursor.initial None 10 empty_books).2.
Definition purged_db : AppDb := (delete_credential "UNIQUE" "acme" "user_ada" true 20 first_page_db).2.

Lemma first_page_wf : spine_wf first_page_db.
Proof.
  unfold first_page_db. change None with (walk_filter QboSyncCursor.initial).
  destruct (apply_invoices "UNIQUE" "acme" demo_page QboSyncCursor.initial 10 empty_books (spine_wf_new _)) as [a ->].
  destruct (upsert_each_wf "UNIQUE" "acme" 10 (records demo_page) empty_books (spine_wf_new _)) as [Hwf _].
  by destruct (put_cursor_cases "UNIQUE" "acme" ENTITY_INVOICE (after_page demo_page QboSyncCursor.initial) 10 _ Hwf).
Qed.

Lemma purged_walk_restarts_witness :
  ∃ p w', sync_entity "UNIQUE" "acme" page_server (λ _ h, h) no_auth_recovery 1000 5 ENTITY_INVOICE empty_cycle false (demo_host purged_db)
      = (Ok p, w') ∧ requests_sent w' = 5%N ∧ cursor_at "acme" ENTITY_INVOICE (host_db (pump_host w')) = QboSyncCursor.initial.
Proof.
  destruct (purged_walk_restarts "UNIQUE" "acme" page_server (λ _ h, h) no_auth_recovery 10 20 1000 demo_page "user_ada" "rcpt_000000000003" 1
    empty_books first_page_db purged_db ∅ 0 5 empty_cycle false) as (p & w' & Hrun & _ & _ & Hsent & Hc).
  - done.
  - done.
  - intros n h Hwf. split; [done|]. split; [apply receipts_grow_refl|done].
  - apply spine_wf_new.
  - done.
  - exact first_page_wf.
  - apply receipts_grow_refl.
  - vm_compute. reflexivity.
  - exists p, w'. split; [exact Hrun|]. split; [exact Hsent|exact Hc].
Defined.

Definition demo_march : PnlSnapshotRow.t := PnlSnapshotRow.mk "month" "2026-03-01" "2026-03-31" 500 100 400 true.
Definition demo_old_books : Host :=
  mk_host (upsert_pnl_snapshot "UNIQUE" "acme" demo_march 15 (host_db demo_connected)).2 ∅.
Definition demo_other_realm := store_credential "UNIQUE" "acme" "other" "production" demo_grant "user_ada" 20 demo_old_books.

Lemma demo_old_books_wf : spine_wf (host_db demo_old_books).
Proof. destruct (upsert_total "UNIQUE" "acme" demo_march 15 (host_db demo_connected) demo_connected_wf) as (b & db' & Hu & Hwf & _). unfold demo_old_books, upsert_pnl_snapshot. by rewrite Hu. Qed.

Lemma other_books_keep_profit_witness :
  let period := PnlPeriod.mk "month" "2026-03-01" "2026-03-31" true in
  ∃ starts, complete_pnl_period_starts "acme" (host_db demo_other_realm.2) = (Ok starts, host_db demo_other_realm.2) ∧
    period ∉ period_queue [period] starts.
Proof.
  intros period.
  assert (Hrow : accounting_pnl_snapshots (accounting (tables (host_db demo_old_books))) !! ("acme", ("month", "2026-03-01"))%string
    = Some (mk_cached demo_march (pnl_hash demo_march) 15 15)) by (vm_compute; reflexivity).
  destruct (other_books_keep_profit "UNIQUE" "acme" "other" "production" demo_grant "user_ada" 20 demo_old_books "rcpt_000000000003" 2
    demo_other_realm.2 demo_old_books_wf) as [_ Hkept]; [vm_compute; reflexivity|vm_compute; reflexivity|].
  destruct (Hkept period _ Hrow) as (_ & starts & Hstarts & Hnot); [done|]. exists starts. split; [exact Hstarts|apply Hnot].
Defined.

(** A list of 101 invoices, on two pages. *)
Definition demo_list : list InvoiceRecord.t :=
  (fun n => InvoiceRecord.mk (fmt_dec (N.of_nat n)) None None None None None 100 (Z.of_nat n) false "2026-03-01") <$> seq 0 101.

Lemma first_walk_brings_all_witness :
  ∃ p w', sync_entity "UNIQUE" "acme" (list_server demo_list) (λ _ h, h) no_auth_recovery 1000 3 ENTITY_INVOICE empty_cycle false
      (demo_host empty_books) = (Ok p, w') ∧ requests_sent w' = 2%N ∧
    cached_record <$> accounting_invoice_snapshots (accounting (tables (host_db (pump_host w')))) !! ("acme", "100")%string
      = Some (InvoiceRecord.mk "100" None None None None None 100 100 false "2026-03-01").
Proof.
  destruct (first_walk_brings_all (H:=demo_texts) "UNIQUE" "acme" (list_server demo_list) (λ _ h, h) no_auth_recovery 1000
    demo_list 3 empty_cycle false (demo_host empty_books) demo_digest_free) as (p & w' & Hrun & _ & _ & Hsent & Hcache & _).
  - done.
  - done.
  - done.
  - split; [apply spine_wf_new|]. split; [done|]. intros r. apply empty_books_free.
  - done.
  - split; [apply (bool_decide_unpack _); vm_compute; exact I|]. intros cursor _. apply empty_books_free.
  - cbn. lia.
  - exists p, w'. split; [exact Hrun|]. split; [exact Hsent|].
    refine (Hcache (InvoiceRecord.mk "100" None None None None None 100 100 false "2026-03-01") _ _).
    + apply list_elem_of_fmap. exists 100%nat. split; [vm_compute; reflexivity|apply elem_of_seq; lia].
    + intros other (n & -> & [_ Hn]%elem_of_seq)%list_elem_of_fmap. cbn. intros Heq.
      change "100"%string with (fmt_dec (N.of_nat 100)) in Heq. apply fmt_dec_inj, Nat2N.inj in Heq as ->. reflexivity.
Defined.
