(* ===== verification/QuoteProfile.v ===== *)
(** * Quote profiles ([bos-profile-api], [bos-app/src/slices/quote_workflows/profiles.rs])

    A profile turns a customer's request into priced lines and the steps it took.
    [QuoteWorkflowProfile] is the trait; [BuiltIn] is the one profile of the host,
    which reads one line item per line of the request. *)

From S2P Require Import Prelude RustStd RustStr Schema Calendar Json.

(* src: crates/bos-profile-api/src/lib.rs:85-90 QuoteProfileConfig *)
Record QuoteProfileConfig := {
  profile_config_id : string;
  settings : Json.Value;
}.

Module QuoteProfileInput.
(* src: crates/bos-profile-api/src/lib.rs:92-100 QuoteProfileInput *)
Record t := mk {
  source_kind : string;
  source_ref : string;
  customer_name : string;
  customer_tier : option string;
  request_text : string;
}.
End QuoteProfileInput.

(* src: crates/bos-profile-api/src/lib.rs:120-128 QuoteProfileStepKind *)
Inductive QuoteProfileStepKind := Read | Deterministic | Grounding | Policy | Stage.
#[global] Instance QuoteProfileStepKind_dec : EqDecision QuoteProfileStepKind.
Proof. solve_decision. Defined.

Module TracedValue.
(* src: crates/bos-profile-api/src/lib.rs:130-140 TracedValue *)
Record t := mk {
  label : string;
  value : Json.Value;
  unit : option string;
  formula : option string;
  source : option string;
}.
End TracedValue.

Module QuoteProfileStep.
(* src: crates/bos-profile-api/src/lib.rs:108-118 QuoteProfileStep *)
Record t := mk {
  node : string;
  kind : QuoteProfileStepKind;
  inputs : list TracedValue.t;
  outputs : list TracedValue.t;
  decision : option string;
}.
End QuoteProfileStep.

Module QuoteProfileLineItem.
(* src: crates/bos-profile-api/src/lib.rs:150-160 QuoteProfileLineItem *)
Record t := mk {
  sku : string;
  product_line : option string;
  description : string;
  quantity : Z;
  unit_cents : Z;
  total_cents : Z;
  source_quote : string;
}.
End QuoteProfileLineItem.

(* src: crates/bos-profile-api/src/lib.rs:142-148 QuoteProfileDraft *)
Record QuoteProfileDraft := {
  draft_summary : string;
  line_items : list QuoteProfileLineItem.t;
  policy_notes : list string;
}.

(* src: crates/bos-profile-api/src/lib.rs:102-106 QuoteProfileRun *)
Record QuoteProfileRun := {
  steps : list QuoteProfileStep.t;
  draft : QuoteProfileDraft;
}.

(* src: crates/bos-profile-api/src/lib.rs:162-166 QuoteProfileError *)
Record QuoteProfileError := {
  code : string;
  message : string;
}.

(* src: crates/bos-profile-api/src/lib.rs:65-83 QuoteWorkflowProfile *)
Record QuoteWorkflowProfile := {
  profile_id : string;
  parse_config : Json.Value → Result QuoteProfileError QuoteProfileConfig;
  run : QuoteProfileInput.t → QuoteProfileConfig → Result QuoteProfileError QuoteProfileRun;
}.

(** ** Texts *)

(** [s.split(p)]. *)
Fixpoint split_where (p : ascii → bool) (s : string) : list string :=
  match s with
  | EmptyString => [""%string]
  | String a s' =>
    if p a then ""%string :: split_where p s'
    else match split_where p s' with
         | [] => [String a EmptyString]
         | w :: ws => String a w :: ws
         end
  end.

(** [s.chars().take_while(p)] for a [p] of ASCII characters. *)
Fixpoint take_while (p : ascii → bool) (s : string) : string :=
  match s with
  | EmptyString => EmptyString
  | String a s' => if p a then String a (take_while p s') else EmptyString
  end.

(** [s.lines()]: at each line feed; the carriage return before one goes with it; what
    follows the last one is a line unless it is empty. *)
Definition strip_cr (s : string) : string :=
  match rev (String.list_ascii_of_string s) with
  | "013"%char :: l => String.string_of_list_ascii (rev l)
  | _ => s
  end.
Fixpoint drop_last_empty (l : list string) : list string :=
  match l with
  | [] => []
  | [""%string] => []
  | w :: l => w :: drop_last_empty l
  end.
Fixpoint strip_all_but_last (l : list string) : list string :=
  match l with
  | [] => []
  | [w] => [w]
  | w :: l => strip_cr w :: strip_all_but_last l
  end.
Definition lines (s : string) : list string := drop_last_empty (strip_all_but_last (split_on "010" s)).

(** ** The profile of the host *)

Module BuiltIn.
Definition error (code message : string) : QuoteProfileError := Build_QuoteProfileError code message.

(* src: crates/bos-app/src/slices/quote_workflows/profiles.rs:9-9 BUILT_IN_PROFILE_ID *)
Definition BUILT_IN_PROFILE_ID : string := "built_in".

(** [value]s are texts, counts, cents and a truth value. *)
(* src: crates/bos-app/src/slices/quote_workflows/profiles.rs:289-303 trace *)
Definition trace (label : string) (value : Json.Value) (unit formula source : option string) : TracedValue.t :=
  TracedValue.mk label value unit formula source.

(* src: crates/bos-app/src/slices/quote_workflows/profiles.rs:256-260 first_u32 *)
Definition first_u32 (line : string) : option Z :=
  part ← List.find (fun part => negb (is_empty part)) (split_where (fun ch => negb (is_digit ch)) line);
  parse_u32 part.

(** Two digits of cents: cut, or filled up with a zero. *)
Definition two_digits (part : string) : string :=
  let cents := take_bytes 2 part in
  match String.length cents with 0 => "00" | 1 => cents +:+ "0" | _ => cents end.

(** The product and the sum are not checked. *)
(* src: crates/bos-app/src/slices/quote_workflows/profiles.rs:262-287 first_money_cents *)
Definition first_money_cents (line : string) : option Z :=
  after ← snd <$> split_once "$" line;
  let raw := take_while (fun ch => is_digit ch || Ascii.eqb ch "." || Ascii.eqb ch ",") after in
  let raw := String.string_of_list_ascii (List.filter (fun ch => negb (Ascii.eqb ch ",")) (String.list_ascii_of_string raw)) in
  if is_empty raw then None
  else
    let parts := split_on "." raw in
    dollars ← (part ← head parts; parse_i64 part);
    cents ← (match tail parts with
             | part :: _ => parse_i64 (two_digits part)
             | [] => Some 0%Z
             end);
    Some (wrap_i64 (dollars * 100 + cents)).

(* src: crates/bos-app/src/slices/quote_workflows/profiles.rs:171-185 validate_input *)
Definition validate_input (input : QuoteProfileInput.t) : Result QuoteProfileError unit :=
  guard_err (is_blank (QuoteProfileInput.customer_name input))
    (error "quote_customer_required" "quote customer is required") ;;
  guard_err (is_blank (QuoteProfileInput.request_text input))
    (error "quote_request_text_required" "quote request text is required").

(** The line at [index], if it is not blank. *)
(* src: crates/bos-app/src/slices/quote_workflows/profiles.rs:191-213 parse_line_items (a line) *)
Definition parse_line (index : N) (raw : string) : Result QuoteProfileError (option QuoteProfileLineItem.t) :=
  let line := trim raw in
  if is_empty line then Ok None
  else
    let quantity := default 1%Z (first_u32 line) in
    unit_cents ← ok_or (first_money_cents line) (error "quote_line_amount_required" "quote line amount is required");
    Ok (Some {|
      QuoteProfileLineItem.sku := "LINE-" +:+ fmt_dec (index + 1);
      QuoteProfileLineItem.product_line := None;
      QuoteProfileLineItem.description := line;
      QuoteProfileLineItem.quantity := quantity;
      QuoteProfileLineItem.unit_cents := unit_cents;
      QuoteProfileLineItem.total_cents := wrap_i64 (unit_cents * quantity);
      QuoteProfileLineItem.source_quote := line;
    |}).

Fixpoint parse_lines (index : N) (raws : list string) : Result QuoteProfileError (list QuoteProfileLineItem.t) :=
  match raws with
  | [] => Ok []
  | raw :: raws =>
    item ← parse_line index raw;
    items ← parse_lines (index + 1) raws;
    Ok (match item with Some item => item :: items | None => items end)
  end.

(* src: crates/bos-app/src/slices/quote_workflows/profiles.rs:187-221 parse_line_items *)
Definition parse_line_items (input : QuoteProfileInput.t) : Result QuoteProfileError (list QuoteProfileLineItem.t) :=
  items ← parse_lines 0 (lines (QuoteProfileInput.request_text input));
  match items with
  | [] => Err (error "quote_line_item_required" "quote request must contain at least one line item")
  | _ => Ok items
  end.

(* src: crates/bos-app/src/slices/quote_workflows/profiles.rs:223-242 validate_grounding *)
Fixpoint validate_grounding (input : QuoteProfileInput.t) (items : list QuoteProfileLineItem.t)
    : Result QuoteProfileError unit :=
  match items with
  | [] => Ok tt
  | item :: items =>
    guard_err (is_blank (QuoteProfileLineItem.source_quote item)
               || negb (contains (QuoteProfileInput.request_text input) (QuoteProfileLineItem.source_quote item)))
      (error "quote_line_not_grounded" "quote line is not grounded in the request text") ;;
    guard_err (QuoteProfileLineItem.total_cents item <=? 0)%Z
      (error "quote_line_amount_invalid" "quote line amount must be positive") ;;
    validate_grounding input items
  end.

Definition subtotal (items : list QuoteProfileLineItem.t) : Z := sum_i64 (QuoteProfileLineItem.total_cents <$> items).

(* src: crates/bos-app/src/slices/quote_workflows/profiles.rs:244-254 policy_review *)
Definition policy_review (items : list QuoteProfileLineItem.t) : list string :=
  if (100000 <=? subtotal items)%Z
  then ["Subtotal is at least $1,000; operator should confirm margin before sending."%string]
  else ["No deterministic policy blocks found."%string].

(* src: crates/bos-app/src/slices/quote_workflows/profiles.rs:45-59 BuiltInQuoteProfile::parse_config *)
Definition parse_config (raw : Json.Value) : Result QuoteProfileError QuoteProfileConfig :=
  if negb (Json.is_null raw) && negb (option_any (fun obj => bool_decide (obj = [])) (Json.as_object raw))
  then Err (error "quote_profile_config_invalid" "built_in quote profile does not accept profile-specific config")
  else Ok (Build_QuoteProfileConfig BUILT_IN_PROFILE_ID Json.Null).

Definition step (node : string) (kind : QuoteProfileStepKind) (inputs outputs : list TracedValue.t) (decision : string)
    : QuoteProfileStep.t := QuoteProfileStep.mk node kind inputs outputs (Some decision).

(* src: crates/bos-app/src/slices/quote_workflows/profiles.rs:61-168 BuiltInQuoteProfile::run *)
Definition run (input : QuoteProfileInput.t) (_ : QuoteProfileConfig) : Result QuoteProfileError QuoteProfileRun :=
  validate_input input ;;
  let request := trace "request_text" (Json.Str (QuoteProfileInput.request_text input)) None None None in
  let source_step := step "gather_source" Read
    [trace "source_ref" (Json.Str (QuoteProfileInput.source_ref input)) None None None]
    [trace "customer_name" (Json.Str (QuoteProfileInput.customer_name input)) None None None; request]
    "source_snapshot_captured" in
  items ← parse_line_items input;
  let count := N.of_nat (length items) in
  let parse_step := step "parse_request" Deterministic [request]
    [trace "line_item_count" (Json.Int (Z.of_N count)) (Some "count"%string) None None]
    ("parsed_" +:+ fmt_dec count +:+ "_line_items") in
  validate_grounding input items ;;
  let grounding_step := step "validate_grounding" Grounding
    ((fun item => trace ("source_quote:" +:+ QuoteProfileLineItem.sku item)
                    (Json.Str (QuoteProfileLineItem.source_quote item)) None None (Some "request_text"%string)) <$> items)
    [trace "grounded" (Json.Bool true) None None None] "all_line_items_grounded_to_source_quotes" in
  let notes := policy_review items in
  let policy_step := step "policy" Policy
    [trace "subtotal" (Json.Int (subtotal items)) (Some "cents"%string) (Some "sum(line_items.total_cents)"%string) None]
    (imap (fun index note => trace ("policy_note_" +:+ fmt_dec (N.of_nat index + 1)) (Json.Str note) None None None) notes)
    "ready_for_operator_review" in
  let summary := "Quote for " +:+ QuoteProfileInput.customer_name input in
  let stage_step := step "stage_draft" Stage
    [trace "summary" (Json.Str summary) None None None]
    [trace "subtotal" (Json.Int (subtotal items)) (Some "cents"%string) None None] "quote_draft_staged" in
  Ok {|
    steps := [source_step; parse_step; grounding_step; policy_step; stage_step];
    draft := {| draft_summary := summary; line_items := items; policy_notes := notes |};
  |}.

(* src: crates/bos-app/src/slices/quote_workflows/profiles.rs:38-43 BuiltInQuoteProfile *)
Definition BuiltInQuoteProfile : QuoteWorkflowProfile := Build_QuoteWorkflowProfile BUILT_IN_PROFILE_ID parse_config run.
End BuiltIn.

(* src: crates/bos-app/src/slices/quote_workflows/profiles.rs:11-16 select_profile *)
Definition select_profile (id : string) : option QuoteWorkflowProfile :=
  if string_eqb id BuiltIn.BUILT_IN_PROFILE_ID then Some BuiltIn.BuiltInQuoteProfile else None.

(* src: crates/bos-app/src/slices/quote_workflows/profiles.rs:18-20 available_profile_ids *)
Definition available_profile_ids : list string := [BuiltIn.BUILT_IN_PROFILE_ID].

(** The error's text is its code and its message. *)
(* src: crates/bos-app/src/slices/quote_workflows/profiles.rs:22-36 validate_profile_config *)
Definition validate_profile_config (profile_id : string) (raw_config : Json.Value) : Result string unit :=
  match select_profile profile_id with
  | None => Err ("unknown quote_workflows.profile '" +:+ profile_id +:+ "' (available: "
                 +:+ join ", " available_profile_ids +:+ ")")
  | Some profile =>
    match parse_config profile raw_config with
    | Ok _ => Ok tt
    | Err err => Err (code err +:+ ": " +:+ message err)
    end
  end.

Module QuoteProfileExamples.
Example reads_amounts : (BuiltIn.first_money_cents <$> ["2 gallons primer at $25.00"; "$1,234.5 each"; "$.50"; "$7.999"])
  = [Some 2500; Some 123450; None; Some 799]%Z.
Proof. reflexivity. Qed.

Example reads_quantities : (BuiltIn.first_u32 <$> ["2 gallons"; "no number"; "99999999999 bolts"]) = [Some 2%Z; None; None].
Proof. reflexivity. Qed.

Example reads_lines : lines ("a" +:+ String "013" (String "010" ("b" +:+ String "010" ""))) = ["a"; "b"]%string.
Proof. reflexivity. Qed.

(** Without a quantity the amount itself is read as one. *)
Example amount_as_quantity : BuiltIn.first_u32 "Consulting $150" = Some 150%Z.
Proof. reflexivity. Qed.
End QuoteProfileExamples.
