(* ===== verification/QuoteGuardrails.v ===== *)
(** * Price guardrails of quotes ([bos-contracts/src/quote_workflows.rs],
    [bos-app/src/slices/quote_workflows/service.rs])

    The lines of a quote are checked against the request they come from, and its
    prices against the operator's price list: a discount or a price change beyond the
    configured thresholds makes the quote wait for a named approver.

    The configuration is JSON: [config_from_value] and [config_to_value] are the
    derived (de)serializers, [sha256_hex] the digest, [value_text] serde's text. *)

From S2P Require Import Prelude RustStd RustStr StoreCore Schema Calendar Json QuoteProfile.

Module QuoteLineItem.
(* src: crates/bos-contracts/src/quote_workflows.rs:27-40 QuoteLineItem *)
Record t := mk {
  sku : string;
  product_line : option string;
  description : string;
  quantity : Z;
  unit_cents : Z;
  total_cents : Z;
  source_quote : string;
}.
End QuoteLineItem.

(* src: crates/bos-contracts/src/quote_workflows.rs:42-48 QuoteGuardrailStatus *)
Inductive QuoteGuardrailStatus := WithinGuardrails | NeedsApproval.
#[global] Instance QuoteGuardrailStatus_dec : EqDecision QuoteGuardrailStatus.
Proof. solve_decision. Defined.

(* src: crates/bos-contracts/src/quote_workflows.rs:50-58 QuoteGuardrailSeverity *)
Inductive QuoteGuardrailSeverity := Info | Review | ApprovalRequired | Major.

Module QuoteGuardrailFinding.
(* src: crates/bos-contracts/src/quote_workflows.rs:60-82 QuoteGuardrailFinding *)
Record t := mk {
  code : string;
  severity : QuoteGuardrailSeverity;
  message : string;
  line_sku : option string;
  product_line : option string;
  customer_tier : option string;
  list_unit_cents : option Z;
  quoted_unit_cents : option Z;
  delta_bps : option Z;
  required_approver_id : option string;
}.
End QuoteGuardrailFinding.

(* src: crates/bos-contracts/src/quote_workflows.rs:84-89 QuoteApprovalRoute *)
Record QuoteApprovalRoute := {
  approver_id : string;
  reason : string;
}.

(* src: crates/bos-contracts/src/quote_workflows.rs:91-102 QuoteGuardrailEvaluation *)
Record QuoteGuardrailEvaluation := {
  status : QuoteGuardrailStatus;
  config_hash : string;
  findings : list QuoteGuardrailFinding.t;
  approval_routes : list QuoteApprovalRoute;
  config_snapshot_json : Json.Value;
}.

Module QuoteWorkflowInput.
(** The attachments are what the input's text carries of them. *)
(* src: crates/bos-app/src/slices/quote_workflows/store.rs:21-30 QuoteWorkflowInput *)
Record t := mk {
  source_kind : string;
  source_ref : string;
  source_attachments : list string;
  customer_name : string;
  customer_tier : option string;
  request_text : string;
}.
End QuoteWorkflowInput.

Module QuoteGuardrailPrice.
(* src: crates/bos-app/src/slices/quote_workflows/service.rs:492-500 QuoteGuardrailPrice *)
Record t := mk {
  sku : string;
  product_line : option string;
  customer_tier : option string;
  unit_cents : Z;
}.
End QuoteGuardrailPrice.

Module QuoteGuardrailConfig.
(* src: crates/bos-app/src/slices/quote_workflows/service.rs:478-490 QuoteGuardrailConfig *)
Record t := mk {
  enabled : bool;
  routine_max_discount_bps : option Z;
  major_change_threshold_bps : option Z;
  major_change_approver_id : option string;
  price_lists : list QuoteGuardrailPrice.t;
}.

(** [#[derive(Default)]]. *)
Definition default : t := mk false None None None [].
End QuoteGuardrailConfig.

Definition domain {A} (code : string) : Result StoreError.t A := Err (StoreError.Domain code).

(** ** The lines of a profile's run *)

(* src: crates/bos-app/src/slices/quote_workflows/service.rs:456-464 profile_input *)
Definition profile_input (input : QuoteWorkflowInput.t) : QuoteProfileInput.t := {|
  QuoteProfileInput.source_kind := QuoteWorkflowInput.source_kind input;
  QuoteProfileInput.source_ref := QuoteWorkflowInput.source_ref input;
  QuoteProfileInput.customer_name := QuoteWorkflowInput.customer_name input;
  QuoteProfileInput.customer_tier := QuoteWorkflowInput.customer_tier input;
  QuoteProfileInput.request_text := QuoteWorkflowInput.request_text input;
|}.

(* src: crates/bos-app/src/slices/quote_workflows/service.rs:466-476 line_item *)
Definition line_item (item : QuoteProfileLineItem.t) : QuoteLineItem.t := {|
  QuoteLineItem.sku := QuoteProfileLineItem.sku item;
  QuoteLineItem.product_line := QuoteProfileLineItem.product_line item;
  QuoteLineItem.description := QuoteProfileLineItem.description item;
  QuoteLineItem.quantity := QuoteProfileLineItem.quantity item;
  QuoteLineItem.unit_cents := QuoteProfileLineItem.unit_cents item;
  QuoteLineItem.total_cents := QuoteProfileLineItem.total_cents item;
  QuoteLineItem.source_quote := QuoteProfileLineItem.source_quote item;
|}.

(* src: crates/bos-app/src/slices/quote_workflows/service.rs:373-404 validate_profile_line *)
Definition validate_profile_line (input : QuoteWorkflowInput.t) (item : QuoteProfileLineItem.t)
    : Result StoreError.t unit :=
  guard_err (is_blank (QuoteProfileLineItem.sku item)) (StoreError.Domain "quote_line_sku_required") ;;
  guard_err (is_blank (QuoteProfileLineItem.description item)) (StoreError.Domain "quote_line_description_required") ;;
  guard_err (QuoteProfileLineItem.quantity item =? 0)%Z (StoreError.Domain "quote_line_quantity_invalid") ;;
  guard_err ((QuoteProfileLineItem.unit_cents item <=? 0) || (QuoteProfileLineItem.total_cents item <=? 0))%Z
    (StoreError.Domain "quote_line_amount_invalid") ;;
  expected_total ← ok_or (checked_mul_i64 (QuoteProfileLineItem.unit_cents item) (QuoteProfileLineItem.quantity item))
    (StoreError.Domain "quote_line_total_overflow");
  guard_err (negb (QuoteProfileLineItem.total_cents item =? expected_total)%Z)
    (StoreError.Domain "quote_line_total_mismatch") ;;
  guard_err (is_blank (QuoteProfileLineItem.source_quote item)
             || negb (contains (QuoteWorkflowInput.request_text input) (QuoteProfileLineItem.source_quote item)))
    (StoreError.Domain "quote_line_not_grounded").

Fixpoint validate_lines (input : QuoteWorkflowInput.t) (items : list QuoteProfileLineItem.t) : Result StoreError.t unit :=
  match items with
  | [] => Ok tt
  | item :: items => validate_profile_line input item ;; validate_lines input items
  end.

(* src: crates/bos-app/src/slices/quote_workflows/service.rs:357-371 validate_profile_run *)
Definition validate_profile_run (input : QuoteWorkflowInput.t) (run : QuoteProfileRun) : Result StoreError.t unit :=
  guard_err (is_blank (draft_summary (draft run))) (StoreError.Domain "quote_summary_required") ;;
  guard_err (bool_decide (line_items (draft run) = [])) (StoreError.Domain "quote_line_item_required") ;;
  validate_lines input (line_items (draft run)).

(** [steps.iter().position(|step| step.kind == Stage)]. *)
Fixpoint stage_position (steps : list QuoteProfileStep.t) : option nat :=
  match steps with
  | [] => None
  | step :: steps =>
    if bool_decide (QuoteProfileStep.kind step = Stage) then Some 0 else S <$> stage_position steps
  end.

(** The two checks [persist_profile_steps] makes as well. *)
Definition stage_index (steps : list QuoteProfileStep.t) : Result StoreError.t nat :=
  index ← ok_or (stage_position steps) (StoreError.Domain "quote_profile_stage_step_missing");
  guard_err (negb (Nat.eqb (index + 1) (length steps))) (StoreError.Domain "quote_profile_stage_step_must_be_last") ;;
  Ok index.

(* src: crates/bos-app/src/slices/quote_workflows/service.rs:337-355 validate_profile_steps *)
Definition validate_profile_steps (steps : list QuoteProfileStep.t) : Result StoreError.t unit :=
  stage_index steps ;;
  guard_err (existsb (fun step => is_blank (QuoteProfileStep.node step)) steps)
    (StoreError.Domain "quote_profile_step_node_required").

(** ** Guardrails *)

(* src: crates/bos-app/src/slices/quote_workflows/service.rs:686-688 option_matches *)
Definition option_matches (configured actual : option string) : bool :=
  map_or_true (fun configured => option_any (fun actual => string_eqb configured actual) actual) configured.

(* src: crates/bos-app/src/slices/quote_workflows/service.rs:690-692 price_specificity *)
Definition price_specificity (price : QuoteGuardrailPrice.t) : N :=
  (if bool_decide (is_Some (QuoteGuardrailPrice.product_line price)) then 1 else 0)
  + (if bool_decide (is_Some (QuoteGuardrailPrice.customer_tier price)) then 1 else 0).

(* src: crates/bos-app/src/slices/quote_workflows/service.rs:668-673 matching_price (an entry) *)
Definition price_matches (input : QuoteWorkflowInput.t) (line : QuoteLineItem.t) (price : QuoteGuardrailPrice.t) : bool :=
  string_eqb (QuoteGuardrailPrice.sku price) (QuoteLineItem.sku line)
  && option_matches (QuoteGuardrailPrice.product_line price) (QuoteLineItem.product_line line)
  && option_matches (QuoteGuardrailPrice.customer_tier price) (QuoteWorkflowInput.customer_tier input).

(** The loop: [best] and [best_score] so far. *)
(* src: crates/bos-app/src/slices/quote_workflows/service.rs:665-683 matching_price (the loop) *)
Fixpoint search_price (input : QuoteWorkflowInput.t) (line : QuoteLineItem.t) (best : option QuoteGuardrailPrice.t)
    (best_score : N) (prices : list QuoteGuardrailPrice.t) : option QuoteGuardrailPrice.t :=
  match prices with
  | [] => best
  | price :: prices =>
    if negb (price_matches input line price) then search_price input line best best_score prices
    else
      let score := price_specificity price in
      if bool_decide (best = None) || (best_score <? score)%N
      then search_price input line (Some price) score prices
      else search_price input line best best_score prices
  end.

(* src: crates/bos-app/src/slices/quote_workflows/service.rs:660-684 matching_price *)
Definition matching_price (prices : list QuoteGuardrailPrice.t) (input : QuoteWorkflowInput.t) (line : QuoteLineItem.t)
    : option QuoteGuardrailPrice.t := search_price input line None 0 prices.

(** Both prices are positive: their difference fits. *)
(* src: crates/bos-app/src/slices/quote_workflows/service.rs:694-700 price_delta_bps *)
Definition price_delta_bps (list_unit_cents quoted_unit_cents : Z) : Result StoreError.t Z :=
  numerator ← ok_or (checked_mul_i64 (wrap_i64 (list_unit_cents - quoted_unit_cents)) 10000)
    (StoreError.Domain "quote_guardrail_delta_overflow");
  ok_or (i32_try_from (Z.quot numerator list_unit_cents)) (StoreError.Domain "quote_guardrail_delta_overflow").

(** A finding about a line whose price is listed. *)
Definition price_finding (config : QuoteGuardrailConfig.t) (input : QuoteWorkflowInput.t) (line : QuoteLineItem.t)
    (price : QuoteGuardrailPrice.t) (delta_bps : Z) (code : string) (severity : QuoteGuardrailSeverity)
    (message : string) : QuoteGuardrailFinding.t := {|
  QuoteGuardrailFinding.code := code;
  QuoteGuardrailFinding.severity := severity;
  QuoteGuardrailFinding.message := message;
  QuoteGuardrailFinding.line_sku := Some (QuoteLineItem.sku line);
  QuoteGuardrailFinding.product_line :=
    match QuoteLineItem.product_line line with Some p => Some p | None => QuoteGuardrailPrice.product_line price end;
  QuoteGuardrailFinding.customer_tier :=
    match QuoteWorkflowInput.customer_tier input with Some t => Some t | None => QuoteGuardrailPrice.customer_tier price end;
  QuoteGuardrailFinding.list_unit_cents := Some (QuoteGuardrailPrice.unit_cents price);
  QuoteGuardrailFinding.quoted_unit_cents := Some (QuoteLineItem.unit_cents line);
  QuoteGuardrailFinding.delta_bps := Some delta_bps;
  QuoteGuardrailFinding.required_approver_id := QuoteGuardrailConfig.major_change_approver_id config;
|}.

(** [delta_bps] is an [i32]: its positive part as [u32], its absolute value. *)
(* src: crates/bos-app/src/slices/quote_workflows/service.rs:547-577 evaluate_guardrails (the thresholds) *)
Definition exceeds (limit : option Z) (v : Z) : bool := option_any (fun limit => (limit <? v)%Z) limit.

(* src: crates/bos-app/src/slices/quote_workflows/service.rs:546-572 evaluate_guardrails (the discount) *)
Definition discount_findings (config : QuoteGuardrailConfig.t) (input : QuoteWorkflowInput.t) (line : QuoteLineItem.t)
    (price : QuoteGuardrailPrice.t) (delta_bps : Z) : list QuoteGuardrailFinding.t :=
  let discount_bps := Z.max delta_bps 0 in
  if exceeds (QuoteGuardrailConfig.routine_max_discount_bps config) discount_bps
  then [price_finding config input line price delta_bps "quote_discount_exceeds_routine_max" ApprovalRequired
          ("SKU " +:+ QuoteLineItem.sku line +:+ " is discounted " +:+ fmt_int discount_bps
           +:+ " bps from the configured tier price")]
  else [].

(* src: crates/bos-app/src/slices/quote_workflows/service.rs:573-599 evaluate_guardrails (the change) *)
Definition change_findings (config : QuoteGuardrailConfig.t) (input : QuoteWorkflowInput.t) (line : QuoteLineItem.t)
    (price : QuoteGuardrailPrice.t) (delta_bps : Z) : list QuoteGuardrailFinding.t :=
  if exceeds (QuoteGuardrailConfig.major_change_threshold_bps config) (Z.abs delta_bps)
  then [price_finding config input line price delta_bps "quote_major_price_change" Major
          ("SKU " +:+ QuoteLineItem.sku line +:+ " differs from the configured tier price by "
           +:+ fmt_int (Z.abs delta_bps) +:+ " bps")]
  else [].

(** The body of the loop over the lines. *)
(* src: crates/bos-app/src/slices/quote_workflows/service.rs:522-600 evaluate_guardrails (a line) *)
Definition line_findings (config : QuoteGuardrailConfig.t) (input : QuoteWorkflowInput.t) (line : QuoteLineItem.t)
    : Result StoreError.t (list QuoteGuardrailFinding.t) :=
  match matching_price (QuoteGuardrailConfig.price_lists config) input line with
  | None =>
    Ok (if negb (bool_decide (QuoteGuardrailConfig.price_lists config = [])) then
      [{|
        QuoteGuardrailFinding.code := "quote_price_list_missing";
        QuoteGuardrailFinding.severity := Review;
        QuoteGuardrailFinding.message := "No configured price-list entry matched SKU " +:+ QuoteLineItem.sku line;
        QuoteGuardrailFinding.line_sku := Some (QuoteLineItem.sku line);
        QuoteGuardrailFinding.product_line := QuoteLineItem.product_line line;
        QuoteGuardrailFinding.customer_tier := QuoteWorkflowInput.customer_tier input;
        QuoteGuardrailFinding.list_unit_cents := None;
        QuoteGuardrailFinding.quoted_unit_cents := Some (QuoteLineItem.unit_cents line);
        QuoteGuardrailFinding.delta_bps := None;
        QuoteGuardrailFinding.required_approver_id := None;
      |}]
    else [])
  | Some price =>
    guard_err (QuoteGuardrailPrice.unit_cents price <=? 0)%Z
      (StoreError.Domain "quote_guardrail_price_unit_cents_invalid") ;;
    delta_bps ← price_delta_bps (QuoteGuardrailPrice.unit_cents price) (QuoteLineItem.unit_cents line);
    Ok (discount_findings config input line price delta_bps ++ change_findings config input line price delta_bps)
  end.

Fixpoint all_findings (config : QuoteGuardrailConfig.t) (input : QuoteWorkflowInput.t) (lines : list QuoteLineItem.t)
    : Result StoreError.t (list QuoteGuardrailFinding.t) :=
  match lines with
  | [] => Ok []
  | line :: lines =>
    found ← line_findings config input line;
    rest ← all_findings config input lines;
    Ok (found ++ rest)
  end.

(** The loop that collects each approver once. *)
Fixpoint collect_routes (routes : list QuoteApprovalRoute) (approvers : list string) : list QuoteApprovalRoute :=
  match approvers with
  | [] => routes
  | approver :: approvers =>
    if forallb (fun route => negb (string_eqb (approver_id route) approver)) routes
    then collect_routes (routes ++ [Build_QuoteApprovalRoute approver "quote_guardrail_escalation"]) approvers
    else collect_routes routes approvers
  end.

(** [iter().filter_map(f)]. *)
Definition filter_map {A B} (f : A → option B) (l : list A) : list B :=
  foldr (fun a acc => match f a with Some b => b :: acc | None => acc end) [] l.

Definition escalates (finding : QuoteGuardrailFinding.t) : bool :=
  match QuoteGuardrailFinding.severity finding with ApprovalRequired | Major => true | _ => false end.

Section guardrails.
Context (sha256_hex : string → string) (value_text : Json.Value → string)
  (config_from_value : Json.Value → Result string QuoteGuardrailConfig.t)
  (config_to_value : QuoteGuardrailConfig.t → Json.Value).

(* src: crates/bos-app/src/slices/quote_workflows/service.rs:743-745 hash_str *)
Definition hash_str (value : string) : string := sha256_hex value.

Fixpoint validate_prices (prices : list QuoteGuardrailPrice.t) : Result StoreError.t unit :=
  match prices with
  | [] => Ok tt
  | price :: prices =>
    guard_err (is_blank (QuoteGuardrailPrice.sku price)) (StoreError.Domain "quote_guardrail_price_sku_required") ;;
    guard_err (QuoteGuardrailPrice.unit_cents price <=? 0)%Z
      (StoreError.Domain "quote_guardrail_price_unit_cents_invalid") ;;
    validate_prices prices
  end.

(* src: crates/bos-app/src/slices/quote_workflows/service.rs:636-658 parse_guardrail_config *)
Definition parse_guardrail_config (config_json : Json.Value) : Result StoreError.t QuoteGuardrailConfig.t :=
  config ← (if Json.is_null config_json then Ok QuoteGuardrailConfig.default
            else match config_from_value config_json with
                 | Ok config => Ok config
                 | Err err => domain ("quote_guardrail_config_invalid: " +:+ err)
                 end);
  validate_prices (QuoteGuardrailConfig.price_lists config) ;;
  Ok config.

(** The error's text is its code. *)
(* src: crates/bos-app/src/slices/quote_workflows/service.rs:299-303 validate_guardrail_config_json *)
Definition validate_guardrail_config_json (config_json : Json.Value) : Result StoreError.t unit :=
  parse_guardrail_config config_json ;; Ok tt.

(* src: crates/bos-app/src/slices/quote_workflows/service.rs:502-634 evaluate_guardrails *)
Definition evaluate_guardrails (input : QuoteWorkflowInput.t) (line_items : list QuoteLineItem.t)
    (config_json : Json.Value) : Result StoreError.t QuoteGuardrailEvaluation :=
  config ← parse_guardrail_config config_json;
  let snapshot := config_to_value config in
  let hash := hash_str (value_text snapshot) in
  if negb (QuoteGuardrailConfig.enabled config) then
    Ok (Build_QuoteGuardrailEvaluation WithinGuardrails hash [] [] snapshot)
  else
    found ← all_findings config input line_items;
    Ok {|
      status := if existsb escalates found then NeedsApproval else WithinGuardrails;
      config_hash := hash;
      findings := found;
      approval_routes := collect_routes [] (filter_map QuoteGuardrailFinding.required_approver_id found);
      config_snapshot_json := snapshot;
    |}.
End guardrails.

(* src: crates/bos-app/src/slices/quote_workflows/service.rs:702-720 require_guardrail_approver *)
Definition require_guardrail_approver (guardrails : QuoteGuardrailEvaluation) (actor_id : string)
    : Result StoreError.t unit :=
  if negb (bool_decide (status guardrails = NeedsApproval)) then Ok tt
  else if bool_decide (approval_routes guardrails = [])
          || existsb (fun route => string_eqb (approver_id route) actor_id) (approval_routes guardrails)
  then Ok tt
  else domain "quote_guardrail_approval_required".
