(* ===== verification/QuoteWorkflow.v ===== *)
(** * The quote builder ([bos-app/src/slices/quote_workflows/])

    A run is started, its profile prepares steps and a draft, the steps and the draft
    are written one mutation each, and the operator approves or rejects the draft.
    [Trace] numbers a run's steps and chains their receipts.

    A request takes the lock on the database for each phase anew, so other requests can
    come in between: each phase is an operation.  [QuoteTexts] holds
    what is not under [src/]: serde's texts and their readers, the digest, and the
    commit the program was built from. *)

From S2P Require Import Prelude RustStd RustStr StoreCore AppOutbox Identity Schema Operators WorkItems Calendar Json QuoteProfile QuoteGuardrails.
Import Spine.

(** ** Data *)

(* src: crates/bos-contracts/src/quote_workflows.rs:6-16 WorkflowRunStatus *)
Inductive WorkflowRunStatus := RunRunning | RunStaged | RunNeedsOperatorInput | RunFailed | RunApproved | RunRejected.

(* src: crates/bos-contracts/src/quote_workflows.rs:18-25 QuoteDraftStatus *)
Inductive QuoteDraftStatus := DraftStaged | DraftApproved | DraftRejected.
#[global] Instance QuoteDraftStatus_dec : EqDecision QuoteDraftStatus.
Proof. solve_decision. Defined.

Module QuoteDraft.
(* src: crates/bos-contracts/src/quote_workflows.rs:104-125 QuoteDraft *)
Record t := mk {
  draft_id : string;
  run_id : string;
  source_kind : string;
  source_ref : string;
  status : QuoteDraftStatus;
  customer_name : string;
  summary : string;
  line_items : list QuoteLineItem.t;
  subtotal_cents : Z;
  guardrails : QuoteGuardrailEvaluation;
  policy_notes : list string;
  outbox_job_id : option string;
  created_at_ms : N;
  updated_at_ms : N;
}.
End QuoteDraft.

(* src: crates/bos-contracts/src/quote_workflows.rs:127-135 QuoteDraftWithRevision *)
Record QuoteDraftWithRevision := {
  quote : QuoteDraft.t;
  quote_revision : N;
  quote_outbox_job : option OutboxJobSummary;
}.

Module WorkflowRun.
(* src: crates/bos-contracts/src/quote_workflows.rs:137-158 WorkflowRun *)
Record t := mk {
  run_id : string;
  workflow : string;
  version : string;
  profile_id : string;
  build_sha : option string;
  status : WorkflowRunStatus;
  input_snapshot_json : Json.Value;
  terminal_json : option Json.Value;
  started_at_ms : N;
  finished_at_ms : option N;
  updated_at_ms : N;
}.
End WorkflowRun.

Module WorkflowTraceValue.
(* src: crates/bos-contracts/src/quote_workflows.rs:190-202 WorkflowTraceValue *)
Record t := mk {
  label : string;
  value : Json.Value;
  unit : option string;
  formula : option string;
  source : option string;
}.
End WorkflowTraceValue.

Module WorkflowStep.
(* src: crates/bos-contracts/src/quote_workflows.rs:160-188 WorkflowStep *)
Record t := mk {
  run_id : string;
  step_index : N;
  node : string;
  node_kind : string;
  input_hash : option string;
  output_hash : option string;
  decision : option string;
  inputs : list WorkflowTraceValue.t;
  outputs : list WorkflowTraceValue.t;
  llm_usage : option Json.Value;
  latency_ms : N;
  status : string;
  error_code : option string;
  receipt_id : string;
  created_at_ms : N;
}.
End WorkflowStep.

(* src: crates/bos-contracts/src/quote_workflows.rs:218-224 QuoteWorkflowRunResponse *)
Record QuoteWorkflowRunResponse := {
  response_run : WorkflowRun.t;
  response_draft : option QuoteDraftWithRevision;
}.

(* src: crates/bos-contracts/src/quote_workflows.rs:226-232 QuoteDraftActionKind *)
Inductive QuoteDraftActionKind := ApproveQuote | RejectQuote.

Module StepRecord.
(* src: crates/bos-app/src/slices/quote_workflows/store.rs:32-45 StepRecord *)
Record t := mk {
  node : string;
  node_kind : string;
  input_hash : option string;
  output_hash : option string;
  decision : option string;
  inputs : list WorkflowTraceValue.t;
  outputs : list WorkflowTraceValue.t;
  llm_usage_json : option string;
  latency_ms : N;
  status : string;
  error_code : option string;
}.
End StepRecord.

Module Trace.
(** Without the connection. *)
(* src: crates/bos-app/src/slices/quote_workflows/store.rs:47-54 Trace *)
Record t := mk {
  client_id : string;
  actor_id : string;
  run_id : string;
  next_step_index : N;
  last_receipt_id : option string;
}.
End Trace.

(* src: crates/bos-app/src/slices/quote_workflows/store.rs:72-78 RunFinishContext *)
Record RunFinishContext := {
  finish_client_id : string;
  finish_actor_id : string;
  finish_run_id : string;
  finish_causation_id : option string;
  finish_now_ms : N;
}.

(* src: crates/bos-app/src/slices/quote_workflows/service.rs:27-35 QuoteRunContext *)
Record QuoteRunContext := {
  run_client_id : string;
  run_actor_id : string;
  run_profile_id : string;
  run_profile_config_json : Json.Value;
  run_guardrail_config_json : Json.Value;
  run_idempotency_key : string;
  run_now_ms : N;
}.

Module StartedQuoteRun.
(* src: crates/bos-app/src/slices/quote_workflows/service.rs:37-48 StartedQuoteRun *)
Record t := mk {
  client_id : string;
  actor_id : string;
  run_id : string;
  profile_id : string;
  profile_config_json : Json.Value;
  guardrail_config_json : Json.Value;
  input : QuoteWorkflowInput.t;
  request_idempotency_key : string;
  start_receipt_id : string;
  now_ms : N;
}.
End StartedQuoteRun.

(* src: crates/bos-app/src/slices/quote_workflows/service.rs:50-53 PreparedQuoteRun *)
Record PreparedQuoteRun := {
  started : StartedQuoteRun.t;
  profile_run : QuoteProfileRun;
}.

(** What the slice takes from serde, the digest, and the build. *)
Class QuoteTexts := {
  sha256_hex : string → string;
  value_text : Json.Value → string;
  parse_value : string → option Json.Value;
  config_from_value : Json.Value → Result string QuoteGuardrailConfig.t;
  config_to_value : QuoteGuardrailConfig.t → Json.Value;
  input_text : QuoteWorkflowInput.t → string;
  traced_text : list TracedValue.t → string;
  trace_text : list WorkflowTraceValue.t → string;
  parse_trace : string → option (list WorkflowTraceValue.t);
  lines_text : list QuoteLineItem.t → string;
  parse_lines : string → option (list QuoteLineItem.t);
  notes_text : list string → string;
  parse_notes : string → option (list string);
  guardrails_text : QuoteGuardrailEvaluation → string;
  parse_guardrails : string → option QuoteGuardrailEvaluation;
  quote_text : QuoteDraft.t → string;
  build_sha : option string;
}.

Definition RUN_ENTITY_KIND : string := "workflow_run".
Definition QUOTE_ENTITY_KIND : string := "quote_draft".
Definition WORKFLOW : string := "quote_builder".
Definition VERSION : string := "v1".
Definition PROVIDER_QUOTE_WORKFLOW : string := "quote_workflow".
Definition CAPABILITY_STAGE_QUOTE_DRAFT : string := "stage_quote_draft".

(* src: crates/bos-app/src/slices/quote_workflows/store.rs:731-737 receipt_id *)
Definition receipt_id (outcome : MutationOutcome.t) : string :=
  match outcome with
  | MutationOutcome.Applied receipt_id _ | MutationOutcome.ReplayedIdempotent receipt_id _
  | MutationOutcome.RevisionConflict receipt_id _ => receipt_id
  end.

(* src: crates/bos-app/src/slices/quote_workflows/store.rs:739-745 draft_status_from_str *)
Definition draft_status_from_str (raw : string) : QuoteDraftStatus :=
  if string_eqb raw "approved" then DraftApproved else if string_eqb raw "rejected" then DraftRejected else DraftStaged.

(* src: crates/bos-app/src/slices/quote_workflows/store.rs:747-756 run_status_from_str *)
Definition run_status_from_str (raw : string) : WorkflowRunStatus :=
  if string_eqb raw "staged" then RunStaged
  else if string_eqb raw "needs_operator_input" then RunNeedsOperatorInput
  else if string_eqb raw "failed" then RunFailed
  else if string_eqb raw "approved" then RunApproved
  else if string_eqb raw "rejected" then RunRejected
  else RunRunning.

(* src: crates/bos-app/src/slices/quote_workflows/store.rs:758-767 run_status_str *)
Definition run_status_str (status : WorkflowRunStatus) : string :=
  match status with
  | RunRunning => "running"
  | RunStaged => "staged"
  | RunNeedsOperatorInput => "needs_operator_input"
  | RunFailed => "failed"
  | RunApproved => "approved"
  | RunRejected => "rejected"
  end.

(* src: crates/bos-app/src/slices/quote_workflows/service.rs:422-430 step_kind_str *)
Definition step_kind_str (kind : QuoteProfileStepKind) : string :=
  match kind with
  | Read => "read"
  | Deterministic => "deterministic"
  | Grounding => "grounding"
  | Policy => "policy"
  | Stage => "stage"
  end.

(* src: crates/bos-app/src/slices/quote_workflows/service.rs:722-730 trace_value *)
Definition trace_value (value : TracedValue.t) : WorkflowTraceValue.t :=
  WorkflowTraceValue.mk (TracedValue.label value) (TracedValue.value value) (TracedValue.unit value)
    (TracedValue.formula value) (TracedValue.source value).

Module Quotes.
Section quotes.
Context `{!QuoteTexts} (constraint_failed : string) (result_fields : string → option bool * option string).

(** ** Reading *)

(* src: crates/bos-app/src/slices/quote_workflows/store.rs:774-789 guardrails_from_json *)
Definition guardrails_from_json (guardrails_raw config_raw : option string) : QuoteGuardrailEvaluation :=
  match (raw ← guardrails_raw; parse_guardrails raw) with
  | Some guardrails => guardrails
  | None => Build_QuoteGuardrailEvaluation WithinGuardrails "unconfigured" [] []
              (default Json.Null (raw ← config_raw; parse_value raw))
  end.

(* src: crates/bos-app/src/slices/quote_workflows/store.rs:660-684 draft_from_row *)
Definition draft_from_row (row : QuoteDraftRow.t) (revision : N) : QuoteDraftWithRevision := {|
  quote := {|
    QuoteDraft.draft_id := QuoteDraftRow.draft_id row;
    QuoteDraft.run_id := QuoteDraftRow.run_id row;
    QuoteDraft.source_kind := QuoteDraftRow.source_kind row;
    QuoteDraft.source_ref := QuoteDraftRow.source_ref row;
    QuoteDraft.status := draft_status_from_str (QuoteDraftRow.status row);
    QuoteDraft.customer_name := QuoteDraftRow.customer_name row;
    QuoteDraft.summary := QuoteDraftRow.summary row;
    QuoteDraft.line_items := default [] (parse_lines (QuoteDraftRow.line_items_json row));
    QuoteDraft.subtotal_cents := QuoteDraftRow.subtotal_cents row;
    QuoteDraft.guardrails := guardrails_from_json (QuoteDraftRow.guardrails_json row) (QuoteDraftRow.guardrail_config_json row);
    QuoteDraft.policy_notes := default [] (parse_notes (QuoteDraftRow.policy_notes_json row));
    QuoteDraft.outbox_job_id := QuoteDraftRow.outbox_job_id row;
    QuoteDraft.created_at_ms := i64_as_u64 (QuoteDraftRow.created_at_ms row);
    QuoteDraft.updated_at_ms := i64_as_u64 (QuoteDraftRow.updated_at_ms row);
  |};
  quote_revision := revision;
  quote_outbox_job := None;
|}.

(* src: crates/bos-app/src/slices/quote_workflows/store.rs:686-702 run_from_row *)
Definition run_from_row (row : WorkflowRunRow.t) : WorkflowRun.t := {|
  WorkflowRun.run_id := WorkflowRunRow.run_id row;
  WorkflowRun.workflow := WorkflowRunRow.workflow row;
  WorkflowRun.version := WorkflowRunRow.version row;
  WorkflowRun.profile_id := WorkflowRunRow.profile_id row;
  WorkflowRun.build_sha := WorkflowRunRow.build_sha row;
  WorkflowRun.status := run_status_from_str (WorkflowRunRow.status row);
  WorkflowRun.input_snapshot_json := default Json.Null (parse_value (WorkflowRunRow.input_snapshot_json row));
  WorkflowRun.terminal_json := (raw ← WorkflowRunRow.terminal_json row; parse_value raw);
  WorkflowRun.started_at_ms := i64_as_u64 (WorkflowRunRow.started_at_ms row);
  WorkflowRun.finished_at_ms := i64_as_u64 <$> WorkflowRunRow.finished_at_ms row;
  WorkflowRun.updated_at_ms := i64_as_u64 (WorkflowRunRow.updated_at_ms row);
|}.

(* src: crates/bos-app/src/slices/quote_workflows/store.rs:704-729 step_from_row *)
Definition step_from_row (run_id : string) (index : Z) (row : WorkflowStepRow.t) : WorkflowStep.t := {|
  WorkflowStep.run_id := run_id;
  WorkflowStep.step_index := Z.to_N (i64_to_u32 index);
  WorkflowStep.node := WorkflowStepRow.node row;
  WorkflowStep.node_kind := WorkflowStepRow.node_kind row;
  WorkflowStep.input_hash := WorkflowStepRow.input_hash row;
  WorkflowStep.output_hash := WorkflowStepRow.output_hash row;
  WorkflowStep.decision := WorkflowStepRow.decision row;
  WorkflowStep.inputs := default [] (parse_trace (WorkflowStepRow.input_values_json row));
  WorkflowStep.outputs := default [] (parse_trace (WorkflowStepRow.output_values_json row));
  WorkflowStep.llm_usage := (raw ← WorkflowStepRow.llm_usage_json row; parse_value raw);
  WorkflowStep.latency_ms := i64_as_u64 (WorkflowStepRow.latency_ms row);
  WorkflowStep.status := WorkflowStepRow.status row;
  WorkflowStep.error_code := WorkflowStepRow.error_code row;
  WorkflowStep.receipt_id := WorkflowStepRow.receipt_id row;
  WorkflowStep.created_at_ms := i64_as_u64 (WorkflowStepRow.created_at_ms row);
|}.

(* src: crates/bos-app/src/slices/quote_workflows/store.rs:642-651 attach_job_summary *)
Definition attach_job_summary (client_id : string) (draft : QuoteDraftWithRevision) : AppOp QuoteDraftWithRevision :=
  match QuoteDraft.outbox_job_id (quote draft) with
  | Some job_id =>
    let? job := Outbox.job_summary result_fields client_id job_id in
    op_ret (Build_QuoteDraftWithRevision (quote draft) (quote_revision draft) job)
  | None => op_ret draft
  end.

(** The row with its revision, [COALESCE(er.revision, 0)], and its job. *)
Definition read_quote (client_id : string) (row : option QuoteDraftRow.t) : AppOp (option QuoteDraftWithRevision) :=
  match row with
  | None => op_ret None
  | Some row =>
    let? revision := current_revision client_id QUOTE_ENTITY_KIND (QuoteDraftRow.draft_id row) in
    op_map Some (attach_job_summary client_id (draft_from_row row (default 0%N revision)))
  end.

(* src: crates/bos-app/src/slices/quote_workflows/store.rs:611-631 get_draft *)
Definition get_draft (client_id draft_id : string) : AppOp (option QuoteDraftWithRevision) :=
  let? row := read_tables (fun t => quote_drafts t !! (client_id, draft_id)) in
  read_quote client_id row.

(** One row, whichever the query finds first; a run has one draft. *)
Definition drafts_of_run (client_id run_id : string) (t : SliceTables) : list QuoteDraftRow.t :=
  snd <$> filter (fun '((client, _), row) => string_eqb client client_id && string_eqb (QuoteDraftRow.run_id row) run_id)
            (map_to_list (quote_drafts t)).

(* src: crates/bos-app/src/slices/quote_workflows/store.rs:589-609 draft_for_run *)
Definition draft_for_run (client_id run_id : string) : AppOp (option QuoteDraftWithRevision) :=
  let? row := read_tables (fun t => head (drafts_of_run client_id run_id t)) in
  read_quote client_id row.

(* src: crates/bos-app/src/slices/quote_workflows/store.rs:554-568 get_run *)
Definition get_run (client_id run_id : string) : AppOp (option WorkflowRun.t) :=
  read_tables (fun t => run_from_row <$> workflow_runs t !! (client_id, run_id)).

(* src: crates/bos-app/src/slices/quote_workflows/store.rs:570-587 steps_for_run *)
Definition steps_for_run (client_id run_id : string) : AppOp (list WorkflowStep.t) :=
  read_tables (fun t => (fun '(index, row) => step_from_row run_id index row) <$>
    sort_by_key fst (omap (fun '((client, run, index), row) =>
      if string_eqb client client_id && string_eqb run run_id then Some (index, row) else None)
      (map_to_list (workflow_steps t)))).

(* src: crates/bos-app/src/slices/quote_workflows/store.rs:633-640 require_draft *)
Definition require_draft (client_id draft_id : string) : AppOp QuoteDraftWithRevision :=
  let? draft := get_draft client_id draft_id in
  op_lift (ok_or draft (StoreError.Domain "quote_draft_not_found")).

(** ** The trace of a run *)

Definition trace_request (client_id kind entity_id change_kind actor_id key run_id : string)
    (causation_id : option string) (after_json : string) (now_ms : N) : MutationRequest.t := {|
  MutationRequest.client_id := client_id;
  MutationRequest.entity_kind := kind;
  MutationRequest.entity_id := entity_id;
  MutationRequest.change_kind := change_kind;
  MutationRequest.actor_id := actor_id;
  MutationRequest.actor_kind := Agent;
  MutationRequest.expected_revision := None;
  MutationRequest.idempotency_key := key;
  MutationRequest.correlation_id := Some run_id;
  MutationRequest.causation_id := causation_id;
  MutationRequest.before_json := None;
  MutationRequest.after_json := Some after_json;
  MutationRequest.now_ms := now_ms;
|}.

(** [ON CONFLICT(client_id, run_id) DO NOTHING]. *)
Definition insert_run (client_id run_id profile_id : string) (input : QuoteWorkflowInput.t) (now_ms : N) : AppOp unit :=
  update_tables (fun t =>
    match workflow_runs t !! (client_id, run_id) with
    | Some _ => t
    | None => set_workflow_runs t (<[(client_id, run_id) := {|
        WorkflowRunRow.client_id := client_id;
        WorkflowRunRow.run_id := run_id;
        WorkflowRunRow.workflow := WORKFLOW;
        WorkflowRunRow.version := VERSION;
        WorkflowRunRow.profile_id := profile_id;
        WorkflowRunRow.build_sha := build_sha;
        WorkflowRunRow.status := "running";
        WorkflowRunRow.input_snapshot_json := input_text input;
        WorkflowRunRow.terminal_json := None;
        WorkflowRunRow.started_at_ms := u64_as_i64 now_ms;
        WorkflowRunRow.finished_at_ms := None;
        WorkflowRunRow.updated_at_ms := u64_as_i64 now_ms;
      |}]> (workflow_runs t))
    end).

(* src: crates/bos-app/src/slices/quote_workflows/store.rs:81-147 Trace::start *)
Definition trace_start (client_id actor_id run_id profile_id idempotency_key : string) (now_ms : N)
    (input : QuoteWorkflowInput.t) : AppOp Trace.t :=
  let after := value_text (Json.Obj [("profile_id", Json.Str profile_id); ("run_id", Json.Str run_id);
    ("status", Json.Str "running"); ("version", Json.Str VERSION); ("workflow", Json.Str WORKFLOW)]%string) in
  let? outcome := mutate constraint_failed
    (trace_request client_id RUN_ENTITY_KIND run_id "start" actor_id idempotency_key run_id None after now_ms)
    (insert_run client_id run_id profile_id input now_ms) in
  op_ret (Trace.mk client_id actor_id run_id 0 (Some (receipt_id outcome))).

(* src: crates/bos-app/src/slices/quote_workflows/store.rs:149-158 Trace::resume *)
Definition trace_resume (client_id actor_id run_id last_receipt_id : string) : Trace.t :=
  Trace.mk client_id actor_id run_id 0 (Some last_receipt_id).

(* src: crates/bos-app/src/slices/quote_workflows/store.rs:406-445 insert_step_row *)
Definition insert_step_row (client_id run_id : string) (step_index : N) (record : StepRecord.t) (receipt_id : string)
    (now_ms : N) : AppOp unit :=
  fun db =>
    if decide (is_Some (workflow_steps (tables db) !! (client_id, run_id, Z.of_N step_index)))
    then (Err (StoreError.Sqlite constraint_failed), db)
    else update_tables (fun t => set_workflow_steps t (<[(client_id, run_id, Z.of_N step_index) := {|
        WorkflowStepRow.node := StepRecord.node record;
        WorkflowStepRow.node_kind := StepRecord.node_kind record;
        WorkflowStepRow.input_hash := StepRecord.input_hash record;
        WorkflowStepRow.output_hash := StepRecord.output_hash record;
        WorkflowStepRow.decision := StepRecord.decision record;
        WorkflowStepRow.input_values_json := trace_text (StepRecord.inputs record);
        WorkflowStepRow.output_values_json := trace_text (StepRecord.outputs record);
        WorkflowStepRow.llm_usage_json := StepRecord.llm_usage_json record;
        WorkflowStepRow.latency_ms := u64_as_i64 (StepRecord.latency_ms record);
        WorkflowStepRow.status := StepRecord.status record;
        WorkflowStepRow.error_code := StepRecord.error_code record;
        WorkflowStepRow.receipt_id := receipt_id;
        WorkflowStepRow.created_at_ms := u64_as_i64 now_ms;
      |}]> (workflow_steps t))) db.

(** [format!("{}:{index}", self.run_id)]. *)
Definition step_key (run_id : string) (index : N) : string := run_id +:+ ":" +:+ fmt_dec index.

(* src: crates/bos-app/src/slices/quote_workflows/store.rs:358-404 insert_step_mutation *)
Definition insert_step_mutation (client_id actor_id run_id : string) (step_index : N) (causation_id : option string)
    (idempotency_key : string) (now_ms : N) (record : StepRecord.t) : AppOp string :=
  let after := value_text (Json.Obj [("node", Json.Str (StepRecord.node record)); ("run_id", Json.Str run_id);
    ("status", Json.Str (StepRecord.status record)); ("step_index", Json.Int (Z.of_N step_index))]%string) in
  op_map receipt_id (mutate_with_receipt_id constraint_failed
    (trace_request client_id RUN_ENTITY_KIND run_id "step" actor_id idempotency_key run_id causation_id after now_ms)
    (fun receipt_id => insert_step_row client_id run_id step_index record receipt_id now_ms)).

(** [self.next_step_index += 1], a [u32]. *)
Definition next_index (index : N) : N := (index + 1) mod 4294967296.

Definition advance (trace : Trace.t) (receipt : string) : Trace.t :=
  Trace.mk (Trace.client_id trace) (Trace.actor_id trace) (Trace.run_id trace)
    (next_index (Trace.next_step_index trace)) (Some receipt).

(** On an error the trace is dropped by every caller. *)
(* src: crates/bos-app/src/slices/quote_workflows/store.rs:164-182 Trace::step *)
Definition trace_step (trace : Trace.t) (record : StepRecord.t) (now_ms : N) : AppOp Trace.t :=
  let index := Trace.next_step_index trace in
  op_map (advance trace) (insert_step_mutation (Trace.client_id trace) (Trace.actor_id trace) (Trace.run_id trace) index
    (Trace.last_receipt_id trace) (step_key (Trace.run_id trace) index) now_ms record).

(** [UPDATE workflow_runs SET status = ?, updated_at_ms = ?]. *)
Definition set_run_status (client_id run_id status : string) (now_ms : N) : AppOp unit :=
  update_tables (fun t => set_workflow_runs t
    (alter (fun row => WorkflowRunRow.set_status row status (u64_as_i64 now_ms)) (client_id, run_id) (workflow_runs t))).

Definition staged_row (client_id : string) (draft : QuoteDraft.t) (now_ms : N) : QuoteDraftRow.t := {|
  QuoteDraftRow.client_id := client_id;
  QuoteDraftRow.draft_id := QuoteDraft.draft_id draft;
  QuoteDraftRow.run_id := QuoteDraft.run_id draft;
  QuoteDraftRow.source_kind := QuoteDraft.source_kind draft;
  QuoteDraftRow.source_ref := QuoteDraft.source_ref draft;
  QuoteDraftRow.status := "staged";
  QuoteDraftRow.customer_name := QuoteDraft.customer_name draft;
  QuoteDraftRow.summary := QuoteDraft.summary draft;
  QuoteDraftRow.line_items_json := lines_text (QuoteDraft.line_items draft);
  QuoteDraftRow.subtotal_cents := QuoteDraft.subtotal_cents draft;
  QuoteDraftRow.policy_notes_json := notes_text (QuoteDraft.policy_notes draft);
  QuoteDraftRow.guardrails_json := Some (guardrails_text (QuoteDraft.guardrails draft));
  QuoteDraftRow.guardrail_config_json := Some (value_text (config_snapshot_json (QuoteDraft.guardrails draft)));
  QuoteDraftRow.outbox_job_id := None;
  QuoteDraftRow.created_at_ms := u64_as_i64 now_ms;
  QuoteDraftRow.updated_at_ms := u64_as_i64 now_ms;
|}.

(** The index [quote_drafts_active_run]: the client's drafts of a run that are not rejected. *)
Definition active_quote (client_id run_id : string) (row : QuoteDraftRow.t) : bool :=
  string_eqb (QuoteDraftRow.client_id row) client_id && string_eqb (QuoteDraftRow.run_id row) run_id
  && negb (string_eqb (QuoteDraftRow.status row) "rejected").

Definition insert_quote (client_id : string) (draft : QuoteDraft.t) (now_ms : N) : AppOp unit :=
  fun db =>
    let rows := quote_drafts (tables db) in
    if bool_decide (is_Some (rows !! (client_id, QuoteDraft.draft_id draft)))
       || existsb (active_quote client_id (QuoteDraft.run_id draft)) (values rows)
    then (Err (StoreError.Sqlite constraint_failed), db)
    else update_tables (fun t => set_quote_drafts t
           (<[(client_id, QuoteDraft.draft_id draft) := staged_row client_id draft now_ms]> (quote_drafts t))) db.

(** The draft, its step and the run's status, in one transaction. *)
(* src: crates/bos-app/src/slices/quote_workflows/store.rs:223-259 Trace::stage_draft (transaction) *)
Definition stage_write (client_id run_id : string) (index : N) (draft : QuoteDraft.t) (record : StepRecord.t) (now_ms : N)
    (receipt_id : string) : AppOp unit :=
  insert_quote client_id draft now_ms ;;?
  insert_step_row client_id run_id index record receipt_id now_ms ;;?
  set_run_status client_id run_id "staged" now_ms.

(* src: crates/bos-app/src/slices/quote_workflows/store.rs:184-270 Trace::stage_draft *)
Definition trace_stage_draft (trace : Trace.t) (draft : QuoteDraft.t) (record : StepRecord.t) (now_ms : N) : AppOp Trace.t :=
  let index := Trace.next_step_index trace in
  let? outcome := mutate_with_receipt_id constraint_failed
    (trace_request (Trace.client_id trace) QUOTE_ENTITY_KIND (QuoteDraft.draft_id draft) "stage" (Trace.actor_id trace)
      (step_key (Trace.run_id trace) index) (Trace.run_id trace) (Trace.last_receipt_id trace) (quote_text draft) now_ms)
    (stage_write (Trace.client_id trace) (Trace.run_id trace) index draft record now_ms) in
  op_ret (advance trace (receipt_id outcome)).

(* src: crates/bos-app/src/slices/quote_workflows/store.rs:296-346 finish_run *)
Definition finish_run (ctx : RunFinishContext) (status : WorkflowRunStatus) (terminal_json : Json.Value) : AppOp string :=
  let status_str := run_status_str status in
  let after := value_text (Json.Obj [("run_id", Json.Str (finish_run_id ctx)); ("status", Json.Str status_str);
    ("terminal", terminal_json)]%string) in
  op_map receipt_id (mutate constraint_failed
    (trace_request (finish_client_id ctx) RUN_ENTITY_KIND (finish_run_id ctx) "finish" (finish_actor_id ctx)
      (finish_run_id ctx +:+ ":finish") (finish_run_id ctx) (finish_causation_id ctx) after (finish_now_ms ctx))
    (update_tables (fun t => set_workflow_runs t (alter (fun row =>
       WorkflowRunRow.finish row status_str (value_text terminal_json) (u64_as_i64 (finish_now_ms ctx)))
       (finish_client_id ctx, finish_run_id ctx) (workflow_runs t))))).

(* src: crates/bos-app/src/slices/quote_workflows/store.rs:272-293 Trace::finish *)
Definition trace_finish (trace : Trace.t) (status : WorkflowRunStatus) (terminal_json : Json.Value) (now_ms : N)
    : AppOp string :=
  finish_run (Build_RunFinishContext (Trace.client_id trace) (Trace.actor_id trace) (Trace.run_id trace)
                (Trace.last_receipt_id trace) now_ms) status terminal_json.

(** ** Decisions in the store *)

Definition quote_decision (ctx : UserActionContext) (draft : QuoteDraft.t) (draft_id change_kind after_json : string)
    : MutationRequest.t := {|
  MutationRequest.client_id := ctx_client_id ctx;
  MutationRequest.entity_kind := QUOTE_ENTITY_KIND;
  MutationRequest.entity_id := draft_id;
  MutationRequest.change_kind := change_kind;
  MutationRequest.actor_id := ctx_actor_id ctx;
  MutationRequest.actor_kind := Operator;
  MutationRequest.expected_revision := ctx_expected_revision ctx;
  MutationRequest.idempotency_key := ctx_idempotency_key ctx;
  MutationRequest.correlation_id := Some (QuoteDraft.run_id draft);
  MutationRequest.causation_id := None;
  MutationRequest.before_json := None;
  MutationRequest.after_json := Some after_json;
  MutationRequest.now_ms := ctx_now_ms ctx;
|}.

(** [UPDATE quote_drafts ... WHERE client_id = ?1 AND draft_id = ?2 AND status = 'staged']. *)
Definition update_staged (client_id draft_id : string) (f : QuoteDraftRow.t → QuoteDraftRow.t) : AppOp unit :=
  update_tables (fun t => set_quote_drafts t
    (alter (fun row => if string_eqb (QuoteDraftRow.status row) "staged" then f row else row) (client_id, draft_id)
       (quote_drafts t))).

(* src: crates/bos-app/src/slices/quote_workflows/store.rs:485-505 approve_draft (transaction) *)
Definition approve_write (ctx : UserActionContext) (draft_id run_id : string) (job : NewOutboxJob.t) : AppOp unit :=
  update_staged (ctx_client_id ctx) draft_id
    (fun row => QuoteDraftRow.approve row (NewOutboxJob.job_id job) (u64_as_i64 (ctx_now_ms ctx))) ;;?
  set_run_status (ctx_client_id ctx) run_id "approved" (ctx_now_ms ctx) ;;?
  Outbox.enqueue_within constraint_failed (ctx_client_id ctx) job (ctx_now_ms ctx).

(* src: crates/bos-app/src/slices/quote_workflows/store.rs:463-506 approve_draft (mutation) *)
Definition approve_commit (ctx : UserActionContext) (draft : QuoteDraft.t) (draft_id : string) (job : NewOutboxJob.t)
    : AppOp MutationOutcome.t :=
  mutate constraint_failed
    (quote_decision ctx draft draft_id "approve"
      (value_text (Json.Obj [("outbox_job_id", Json.Str (NewOutboxJob.job_id job)); ("status", Json.Str "approved")]%string)))
    (approve_write ctx draft_id (QuoteDraft.run_id draft) job).

Definition require_staged (client_id draft_id : string) : AppOp QuoteDraft.t :=
  let? draft := require_draft client_id draft_id in
  op_lift (guard_err (negb (bool_decide (QuoteDraft.status (quote draft) = DraftStaged)))
             (StoreError.Domain "quote_draft_not_staged")) ;;?
  op_ret (quote draft).

(* src: crates/bos-app/src/slices/quote_workflows/store.rs:449-507 approve_draft *)
Definition approve_draft (ctx : UserActionContext) (draft_id : string) (job : NewOutboxJob.t) : AppOp MutationOutcome.t :=
  let? draft := require_staged (ctx_client_id ctx) draft_id in
  approve_commit ctx draft draft_id job.

(* src: crates/bos-app/src/slices/quote_workflows/store.rs:521-551 reject_draft (mutation) *)
Definition reject_commit (ctx : UserActionContext) (draft : QuoteDraft.t) (draft_id : string) : AppOp MutationOutcome.t :=
  mutate constraint_failed
    (quote_decision ctx draft draft_id "reject" (value_text (Json.Obj [("status", Json.Str "rejected")]%string)))
    (update_staged (ctx_client_id ctx) draft_id (fun row => QuoteDraftRow.reject row (u64_as_i64 (ctx_now_ms ctx))) ;;?
     set_run_status (ctx_client_id ctx) (QuoteDraft.run_id draft) "rejected" (ctx_now_ms ctx)).

(* src: crates/bos-app/src/slices/quote_workflows/store.rs:509-552 reject_draft *)
Definition reject_draft (ctx : UserActionContext) (draft_id : string) : AppOp MutationOutcome.t :=
  let? draft := require_staged (ctx_client_id ctx) draft_id in
  reject_commit ctx draft draft_id.

(* src: crates/bos-app/src/slices/quote_workflows/store.rs:769-772 quote_payload *)
Definition quote_payload (draft : QuoteDraft.t) : string := quote_text draft.

(** ** A run, phase by phase *)

(* src: crates/bos-app/src/slices/quote_workflows/service.rs:732-735 run_id_for *)
Definition run_id_for (idempotency_key : string) : string := take_bytes 20 ("qwr_" +:+ sha256_hex idempotency_key).

(* src: crates/bos-app/src/slices/quote_workflows/service.rs:83-85 quote_run_id *)
Definition quote_run_id (idempotency_key : string) : string := run_id_for idempotency_key.

(* src: crates/bos-app/src/slices/quote_workflows/service.rs:87-97 existing_run_response *)
Definition existing_run_response (client_id run_id : string) : AppOp (option QuoteWorkflowRunResponse) :=
  let? run := get_run client_id run_id in
  match run with
  | None => op_ret None
  | Some run =>
    let? draft := draft_for_run client_id run_id in
    op_ret (Some (Build_QuoteWorkflowRunResponse run draft))
  end.

(* src: crates/bos-app/src/slices/quote_workflows/service.rs:107-142 start_quote_builder *)
Definition start_quote_builder (input : QuoteWorkflowInput.t) (ctx : QuoteRunContext) : AppOp StartedQuoteRun.t :=
  let run_id := quote_run_id (run_idempotency_key ctx) in
  let? trace := trace_start (run_client_id ctx) (run_actor_id ctx) run_id (run_profile_id ctx) (run_id +:+ ":start")
                  (run_now_ms ctx) input in
  let? start_receipt_id := op_lift (ok_or (Trace.last_receipt_id trace)
                                      (StoreError.Domain "quote_workflow_start_receipt_missing")) in
  op_ret {|
    StartedQuoteRun.client_id := run_client_id ctx;
    StartedQuoteRun.actor_id := run_actor_id ctx;
    StartedQuoteRun.run_id := run_id;
    StartedQuoteRun.profile_id := run_profile_id ctx;
    StartedQuoteRun.profile_config_json := run_profile_config_json ctx;
    StartedQuoteRun.guardrail_config_json := run_guardrail_config_json ctx;
    StartedQuoteRun.input := input;
    StartedQuoteRun.request_idempotency_key := run_idempotency_key ctx;
    StartedQuoteRun.start_receipt_id := start_receipt_id;
    StartedQuoteRun.now_ms := run_now_ms ctx;
  |}.

(** A profile's error keeps its code. *)
Definition profile_result {A} (r : Result QuoteProfileError A) : Result StoreError.t A :=
  match r with Ok a => Ok a | Err err => domain (code err) end.

(** The error comes with [started]; the permit is the caller's. *)
(* src: crates/bos-app/src/slices/quote_workflows/service.rs:144-173 prepare_quote_builder *)
Definition prepare_quote_builder (started : StartedQuoteRun.t) : Result StoreError.t PreparedQuoteRun :=
  let input := StartedQuoteRun.input started in
  profile ← ok_or (select_profile (StartedQuoteRun.profile_id started))
              (StoreError.Domain ("quote_profile_unknown:" +:+ StartedQuoteRun.profile_id started));
  profile_config ← profile_result (parse_config profile (StartedQuoteRun.profile_config_json started));
  profile_run ← profile_result (run profile (profile_input input) profile_config);
  validate_profile_run input profile_run ;;
  validate_profile_steps (steps profile_run) ;;
  Ok (Build_PreparedQuoteRun started profile_run).

(* src: crates/bos-app/src/slices/quote_workflows/service.rs:179-204 fail_started_quote_builder *)
Definition fail_started_quote_builder (started : StartedQuoteRun.t) (err : StoreError.t) (now_ms : N) : AppOp string :=
  let error_code := match err with StoreError.Domain code => code | StoreError.Sqlite _ => "store_sqlite_error"%string end in
  finish_run (Build_RunFinishContext (StartedQuoteRun.client_id started) (StartedQuoteRun.actor_id started)
                (StartedQuoteRun.run_id started) (Some (StartedQuoteRun.start_receipt_id started)) now_ms)
    RunFailed (Json.Obj [("error_code", Json.Str error_code); ("profile_id", Json.Str (StartedQuoteRun.profile_id started))]%string).

(* src: crates/bos-app/src/slices/quote_workflows/service.rs:406-420 step_record *)
Definition step_record (step : QuoteProfileStep.t) : StepRecord.t := {|
  StepRecord.node := QuoteProfileStep.node step;
  StepRecord.node_kind := step_kind_str (QuoteProfileStep.kind step);
  StepRecord.input_hash := Some (hash_str sha256_hex (traced_text (QuoteProfileStep.inputs step)));
  StepRecord.output_hash := Some (hash_str sha256_hex (traced_text (QuoteProfileStep.outputs step)));
  StepRecord.decision := QuoteProfileStep.decision step;
  StepRecord.inputs := trace_value <$> QuoteProfileStep.inputs step;
  StepRecord.outputs := trace_value <$> QuoteProfileStep.outputs step;
  StepRecord.llm_usage_json := None;
  StepRecord.latency_ms := 0;
  StepRecord.status := "succeeded";
  StepRecord.error_code := None;
|}.

(** [now_ms + index], from the first step on. *)
Fixpoint record_steps (trace : Trace.t) (steps : list QuoteProfileStep.t) (index now_ms : N) : AppOp Trace.t :=
  match steps with
  | [] => op_ret trace
  | step :: steps =>
    let? trace := trace_step trace (step_record step) (wrapping_add_u64 now_ms index) in
    record_steps trace steps (index + 1) now_ms
  end.

(** All steps but the last are written; the last is returned. *)
(* src: crates/bos-app/src/slices/quote_workflows/service.rs:316-335 persist_profile_steps *)
Definition persist_profile_steps (trace : Trace.t) (steps : list QuoteProfileStep.t) (now_ms : N)
    : AppOp (Trace.t * StepRecord.t) :=
  op_lift (validate_profile_steps steps) ;;?
  let? index := op_lift (stage_index steps) in
  let? trace := record_steps trace (take index steps) 0 now_ms in
  match steps !! index with
  | Some step => op_ret (trace, step_record step)
  | None => op_lift (Err (StoreError.Domain "quote_profile_stage_step_missing"))
  end.

(* src: crates/bos-app/src/slices/quote_workflows/store.rs:791-817 draft_from_interpretation *)
Definition draft_from_interpretation (run_id : string) (input : QuoteWorkflowInput.t) (line_items : list QuoteLineItem.t)
    (guardrails : QuoteGuardrailEvaluation) (policy_notes : list string) (summary : string) (now_ms : N) : QuoteDraft.t := {|
  QuoteDraft.draft_id := "qd_" +:+ run_id;
  QuoteDraft.run_id := run_id;
  QuoteDraft.source_kind := QuoteWorkflowInput.source_kind input;
  QuoteDraft.source_ref := QuoteWorkflowInput.source_ref input;
  QuoteDraft.status := DraftStaged;
  QuoteDraft.customer_name := QuoteWorkflowInput.customer_name input;
  QuoteDraft.summary := summary;
  QuoteDraft.line_items := line_items;
  QuoteDraft.subtotal_cents := sum_i64 (QuoteLineItem.total_cents <$> line_items);
  QuoteDraft.guardrails := guardrails;
  QuoteDraft.policy_notes := policy_notes;
  QuoteDraft.outbox_job_id := None;
  QuoteDraft.created_at_ms := now_ms;
  QuoteDraft.updated_at_ms := now_ms;
|}.

(* src: crates/bos-app/src/slices/quote_workflows/service.rs:432-454 draft_from_profile_run *)
Definition draft_from_profile_run (run_id : string) (input : QuoteWorkflowInput.t) (draft : QuoteProfileDraft)
    (guardrail_config_json : Json.Value) (now_ms : N) : Result StoreError.t QuoteDraft.t :=
  let items := line_item <$> line_items draft in
  guardrails ← evaluate_guardrails sha256_hex value_text config_from_value config_to_value input items guardrail_config_json;
  Ok (draft_from_interpretation run_id input items guardrails (policy_notes draft) (draft_summary draft) now_ms).

(* src: crates/bos-app/src/slices/quote_workflows/service.rs:206-250 persist_prepared_quote_builder *)
Definition persist_prepared_quote_builder (prepared : PreparedQuoteRun) : AppOp QuoteWorkflowRunResponse :=
  let started := started prepared in
  let now_ms := StartedQuoteRun.now_ms started in
  let trace := trace_resume (StartedQuoteRun.client_id started) (StartedQuoteRun.actor_id started)
                 (StartedQuoteRun.run_id started) (StartedQuoteRun.start_receipt_id started) in
  let stage_offset := len (steps (profile_run prepared)) in
  let? persisted := persist_profile_steps trace (steps (profile_run prepared)) (wrapping_add_u64 now_ms 1) in
  let '(trace, stage_step) := persisted in
  let? draft := op_lift (draft_from_profile_run (StartedQuoteRun.run_id started) (StartedQuoteRun.input started)
                  (draft (profile_run prepared)) (StartedQuoteRun.guardrail_config_json started)
                  (wrapping_add_u64 now_ms stage_offset)) in
  let? trace := trace_stage_draft trace draft stage_step (wrapping_add_u64 now_ms stage_offset) in
  trace_finish trace RunStaged
    (Json.Obj [("draft_id", Json.Str (QuoteDraft.draft_id draft)); ("profile_id", Json.Str (StartedQuoteRun.profile_id started))]%string)
    (wrapping_add_u64 (wrapping_add_u64 now_ms stage_offset) 1) ;;?
  let? run := get_run (StartedQuoteRun.client_id started) (StartedQuoteRun.run_id started) in
  let? run := op_lift (ok_or run (StoreError.Domain "quote_workflow_run_missing")) in
  let? draft := draft_for_run (StartedQuoteRun.client_id started) (StartedQuoteRun.run_id started) in
  op_ret (Build_QuoteWorkflowRunResponse run draft).

(** [permit]: one of the two concurrent runs is free. *)
(* src: crates/bos-app/src/slices/quote_workflows/service.rs:61-81 run_quote_builder *)
Definition run_quote_builder (permit : bool) (input : QuoteWorkflowInput.t) (ctx : QuoteRunContext)
    : AppOp QuoteWorkflowRunResponse :=
  let? existing := existing_run_response (run_client_id ctx) (quote_run_id (run_idempotency_key ctx)) in
  match existing with
  | Some response => op_ret response
  | None =>
    op_lift (guard_err (negb permit) (StoreError.Domain "quote_workflow_busy")) ;;?
    let? started := start_quote_builder input ctx in
    match prepare_quote_builder started with
    | Ok prepared => persist_prepared_quote_builder prepared
    | Err err =>
      fail_started_quote_builder started err (wrapping_add_u64 (StartedQuoteRun.now_ms started) 1) ;;?
      op_lift (Err err)
    end
  end.

(* src: crates/bos-app/src/slices/quote_workflows/service.rs:277-291 apply_draft_action (job) *)
Definition quote_job (draft : QuoteDraft.t) : NewOutboxJob.t := {|
  NewOutboxJob.job_id := "qwj_" +:+ QuoteDraft.run_id draft;
  NewOutboxJob.provider := PROVIDER_QUOTE_WORKFLOW;
  NewOutboxJob.capability := CAPABILITY_STAGE_QUOTE_DRAFT;
  NewOutboxJob.payload_json := quote_payload draft;
  NewOutboxJob.source_entity_kind := QUOTE_ENTITY_KIND;
  NewOutboxJob.source_entity_id := QuoteDraft.draft_id draft;
  NewOutboxJob.correlation_id := Some (QuoteDraft.run_id draft);
  NewOutboxJob.causation_id := None;
  NewOutboxJob.idempotency_key := "quote_outbox:" +:+ QuoteDraft.run_id draft;
|}.

(* src: crates/bos-app/src/slices/quote_workflows/service.rs:270-297 apply_draft_action *)
Definition apply_draft_action (ctx : UserActionContext) (draft_id : string) (action : QuoteDraftActionKind)
    : AppOp MutationOutcome.t :=
  match action with
  | ApproveQuote =>
    let? draft := require_draft (ctx_client_id ctx) draft_id in
    let draft := quote draft in
    op_lift (require_guardrail_approver (QuoteDraft.guardrails draft) (ctx_actor_id ctx)) ;;?
    approve_draft ctx draft_id (quote_job draft)
  | RejectQuote => reject_draft ctx draft_id
  end.

(** Its delivery is a dry run. *)
(* src: crates/bos-app/src/slices/quote_workflows/service.rs:305-314 deliver *)
Definition deliver (job : ClaimedJob.t) (now_ms : N) : AttemptOutcome.t :=
  AttemptOutcome.Delivered (value_text (Json.Obj [("delivered_at_ms", Json.Int (Z.of_N now_ms)); ("dry_run", Json.Bool true);
    ("provider_object_id", Json.Str ("quote_draft:" +:+ ClaimedJob.job_id job))]%string)).

(** The receipts and jobs of the inspection come from the spine and the outbox. *)
(* src: crates/bos-contracts/src/quote_workflows.rs:246-255 QuoteWorkflowInspection *)
Record QuoteWorkflowInspection := {
  inspected_run : WorkflowRun.t;
  inspected_steps : list WorkflowStep.t;
  inspected_draft : option QuoteDraftWithRevision;
  inspected_receipts : list Receipt.dto;
  inspected_jobs : list OutboxJobSummary;
}.

(* src: crates/bos-app/src/slices/quote_workflows/service.rs:252-268 inspect_run *)
Definition inspect_run (client_id run_id : string) : AppOp (option QuoteWorkflowInspection) :=
  let? run := get_run client_id run_id in
  match run with
  | None => op_ret None
  | Some run =>
    let? steps := steps_for_run client_id run_id in
    let? draft := draft_for_run client_id run_id in
    let? receipts := receipts_by_correlation client_id [run_id] 200 in
    let? jobs := Outbox.jobs_by_correlation result_fields client_id [run_id] 50 in
    op_ret (Some (Build_QuoteWorkflowInspection run steps draft receipts jobs))
  end.
End quotes.
End Quotes.
