(* ===== verification/QuoteProps.v ===== *)
(** * What the quote rules guarantee

    The guardrails flag exactly the prices that are out of policy, and the host's
    profile prices exactly the lines of the request; a line without a quantity is
    priced by its dollars twice. *)

From Stdlib Require Import ZifyBool.
From S2P Require Import Prelude RustStd RustStr StoreCore StoreCoreProps AppOutbox Identity Schema Operators WorkItems Calendar DateInput CalendarProps DateProps Json QuoteProfile QuoteGuardrails QuoteWorkflow.
Local Open Scope Z_scope.

(** ** The price list *)

Implicit Types (input : QuoteWorkflowInput.t) (line : QuoteLineItem.t) (price : QuoteGuardrailPrice.t).

(** The entry that chosen: it matches, every match before it is less specific and none
    after it is more specific. *)
Definition chosen prices input line price : Prop :=
  ∃ before after, prices = before ++ price :: after ∧ price_matches input line price = true ∧
    (∀ p, p ∈ before → price_matches input line p = true → (price_specificity p < price_specificity price)%N) ∧
    (∀ p, p ∈ after → price_matches input line p = true → (price_specificity p ≤ price_specificity price)%N).

(** What the search has found in the entries [seen]. *)
Definition found input line seen (best : option QuoteGuardrailPrice.t) (score : N) : Prop :=
  match best with
  | None => ∀ p, p ∈ seen → price_matches input line p = false
  | Some price => score = price_specificity price ∧ chosen seen input line price
  end.

Lemma search_price_found input line prices seen best score :
  found input line seen best score →
  ∃ score', found input line (seen ++ prices) (search_price input line best score prices) score'.
Proof.
  revert seen best score. induction prices as [|p prices IH]; intros seen best score Hf.
  { exists score. by rewrite app_nil_r. }
  replace (seen ++ p :: prices) with ((seen ++ [p]) ++ prices) by by rewrite <- app_assoc.
  simpl. destruct (price_matches input line p) eqn:Hp; simpl.
  - case_bool_decide as Hb; simpl; [|destruct (N.ltb_spec score (price_specificity p)) as [Hlt|Hle]]; apply IH.
    + subst best. split; [done|]. exists seen, []. split_and!; [done|done| |by intros ? ?%elem_of_nil].
      intros q Hq Hm. by rewrite (Hf q Hq) in Hm.
    + destruct best as [b|]; [|done]. destruct Hf as [-> (bf & af & -> & Hb' & Hbf & Haf)]. split; [done|].
      exists (bf ++ b :: af), []. split_and!; [done|done| |by intros ? ?%elem_of_nil].
      intros q [Hq|[->|Hq]%elem_of_cons]%elem_of_app Hm; [specialize (Hbf q Hq Hm); lia|lia|specialize (Haf q Hq Hm); lia].
    + destruct best as [b|]; [|done]. destruct Hf as [-> (bf & af & -> & Hb' & Hbf & Haf)]. split; [done|].
      exists bf, (af ++ [p]). split_and!; [by rewrite <- app_assoc|done|done|].
      intros q [Hq|Hq%list_elem_of_singleton]%elem_of_app Hm; [by apply Haf|by subst q].
  - apply IH. destruct best as [b|]; simpl in *.
    + destruct Hf as [-> (bf & af & -> & Hb' & Hbf & Haf)]. split; [done|]. exists bf, (af ++ [p]).
      split_and!; [by rewrite <- app_assoc|done|done|].
      intros q [Hq|Hq%list_elem_of_singleton]%elem_of_app Hm; [by apply Haf|subst q; congruence].
    + intros q [Hq|Hq%list_elem_of_singleton]%elem_of_app; [by apply Hf|by subst q].
Qed.

Lemma matching_price_found prices input line : ∃ score, found input line prices (matching_price prices input line) score.
Proof. apply (search_price_found input line prices [] None 0). by intros ? ?%elem_of_nil. Qed.

Lemma matching_price_chosen prices input line price :
  matching_price prices input line = Some price → chosen prices input line price.
Proof. intros Hm. destruct (matching_price_found prices input line) as [s Hf]. rewrite Hm in Hf. apply Hf. Qed.

Lemma chosen_unique prices input line p q : chosen prices input line p → chosen prices input line q → p = q.
Proof.
  intros (b1 & a1 & -> & Hp & Hb1 & Ha1) (b2 & a2 & Heq & Hq & Hb2 & Ha2).
  apply app_eq_inv in Heq as [(k & -> & Heq)|(k & -> & Heq)].
  - destruct k as [|x k]; simpl in Heq; [by injection Heq|]. injection Heq as <- ->.
    assert (Hq' : (price_specificity q < price_specificity p)%N) by (apply Hb1; [apply elem_of_app; right; by left|done]).
    assert (Hp' : (price_specificity p ≤ price_specificity q)%N) by (apply Ha2; [apply elem_of_app; right; by left|done]). lia.
  - destruct k as [|x k]; simpl in Heq; [by injection Heq|]. injection Heq as <- ->.
    assert (Hp' : (price_specificity p < price_specificity q)%N) by (apply Hb2; [apply elem_of_app; right; by left|done]).
    assert (Hq' : (price_specificity q ≤ price_specificity p)%N) by (apply Ha1; [apply elem_of_app; right; by left|done]). lia.
Qed.

Lemma chosen_matching prices input line price :
  matching_price prices input line = Some price ↔ chosen prices input line price.
Proof.
  split; [apply matching_price_chosen|]. intros Hd. destruct (matching_price_found prices input line) as [s Hf].
  destruct (matching_price prices input line) as [q|]; simpl in Hf.
  - f_equal. eapply chosen_unique; [apply Hf|done].
  - destruct Hd as (b & a & -> & Hp & _). rewrite Hf in Hp; [done|]. apply elem_of_app. right. by left.
Qed.

(** ** Out of policy *)

(** An entry applies to a line of a request: it has the line's SKU, and the product line and
    the customer tier it names, if it names them, are the line's and the customer's. *)
Definition applies input line price : Prop :=
  QuoteGuardrailPrice.sku price = QuoteLineItem.sku line ∧
  (∀ name, QuoteGuardrailPrice.product_line price = Some name → QuoteLineItem.product_line line = Some name) ∧
  (∀ tier, QuoteGuardrailPrice.customer_tier price = Some tier → QuoteWorkflowInput.customer_tier input = Some tier).

(** How many of the two it names. *)
Definition names price : nat :=
  length (omap id [QuoteGuardrailPrice.product_line price; QuoteGuardrailPrice.customer_tier price]).

(** The entry that decides: it applies, every entry before it that applies names fewer, and
    none after it that applies names more. *)
Definition decides prices input line price : Prop :=
  ∃ before after, prices = before ++ price :: after ∧ applies input line price ∧
    (∀ p, p ∈ before → applies input line p → (names p < names price)%nat) ∧
    (∀ p, p ∈ after → applies input line p → (names p ≤ names price)%nat).

Lemma option_matches_spec configured actual :
  option_matches configured actual = true ↔ ∀ name, configured = Some name → actual = Some name.
Proof.
  unfold option_matches. destruct configured as [c|]; [|by split]. split.
  - destruct actual as [a|]; [|done]. intros H%string_eqb_true name [= <-]. by rewrite H.
  - intros H. rewrite (H c eq_refl). apply string_eqb_refl.
Qed.

Lemma price_matches_applies input line price : price_matches input line price = true ↔ applies input line price.
Proof.
  unfold price_matches, applies. rewrite !andb_true_iff, !option_matches_spec, string_eqb_true. tauto.
Qed.

Lemma price_specificity_names price : price_specificity price = N.of_nat (names price).
Proof.
  unfold price_specificity, names. by destruct (QuoteGuardrailPrice.product_line price), (QuoteGuardrailPrice.customer_tier price).
Qed.

Lemma chosen_decides prices input line price : chosen prices input line price ↔ decides prices input line price.
Proof.
  unfold chosen, decides. setoid_rewrite price_matches_applies. setoid_rewrite price_specificity_names.
  split; intros (before & after & ? & ? & Hb & Ha); exists before, after; (split_and!; [done..| |]); intros p Hp Hm;
    [specialize (Hb p Hp Hm)|specialize (Ha p Hp Hm)|specialize (Hb p Hp Hm)|specialize (Ha p Hp Hm)]; lia.
Qed.

Lemma decides_matching prices input line price :
  matching_price prices input line = Some price ↔ decides prices input line price.
Proof. by rewrite chosen_matching, chosen_decides. Qed.

Lemma decides_unique prices input line p q : decides prices input line p → decides prices input line q → p = q.
Proof. rewrite <- !chosen_decides. apply chosen_unique. Qed.

(** Basis points off the listed price, rounded towards the list price. *)
Definition bps_off (listed quoted : Z) : Z := Z.quot ((listed - quoted) * 10000) listed.

(** The line's discount off the price that decides is more than the routine one, or its
    change, up or down, more than the major one, if the configuration names them. *)
Definition out_of_policy (config : QuoteGuardrailConfig.t) input line : Prop :=
  ∃ price, decides (QuoteGuardrailConfig.price_lists config) input line price ∧
    let delta := bps_off (QuoteGuardrailPrice.unit_cents price) (QuoteLineItem.unit_cents line) in
    (∃ most, QuoteGuardrailConfig.routine_max_discount_bps config = Some most ∧ most < Z.max delta 0) ∨
    (∃ most, QuoteGuardrailConfig.major_change_threshold_bps config = Some most ∧ most < Z.abs delta).

Lemma exceeds_spec limit v : exceeds limit v = true ↔ ∃ most, limit = Some most ∧ most < v.
Proof.
  unfold exceeds. destruct limit as [l|]; simpl; [|split; [done|by intros (? & ? & _)]]. rewrite Z.ltb_lt. naive_solver.
Qed.

Lemma price_delta_exact listed quoted delta :
  is_i64 listed → is_i64 quoted → 0 < listed → 0 < quoted →
  price_delta_bps listed quoted = Ok delta → delta = bps_off listed quoted.
Proof.
  unfold is_i64, i64_min, i64_max, price_delta_bps, bps_off. intros Hl Hq Hl0 Hq0.
  rewrite wrap_small by lia. unfold checked_mul_i64, ok_or, i32_try_from.
  destruct (in_range i64_min _ _) as [n|] eqn:Hn; [|done]. apply in_range_spec in Hn as [-> _]. simpl.
  destruct (in_range _ _ (Z.quot _ _)) as [d|] eqn:Hd; [|done]. apply in_range_spec in Hd as [-> _]. by intros [= <-].
Qed.

(** What one line contributes. *)
Lemma line_findings_spec config input line l :
  0 < QuoteLineItem.unit_cents line → is_i64 (QuoteLineItem.unit_cents line) →
  Forall (fun p => is_i64 (QuoteGuardrailPrice.unit_cents p)) (QuoteGuardrailConfig.price_lists config) →
  line_findings config input line = Ok l →
  (existsb escalates l = true ↔ out_of_policy config input line) ∧
  Forall (fun f => QuoteGuardrailFinding.required_approver_id f =
                   if escalates f then QuoteGuardrailConfig.major_change_approver_id config else None) l.
Proof.
  intros Hq Hqi Hli. unfold line_findings.
  destruct (matching_price (QuoteGuardrailConfig.price_lists config) input line) as [price|] eqn:Hm.
  - apply decides_matching in Hm as Hd. destruct (Z.leb_spec (QuoteGuardrailPrice.unit_cents price) 0) as [|Hpos]; [done|].
    assert (Hpi : is_i64 (QuoteGuardrailPrice.unit_cents price)).
    { destruct Hd as (b & a & Heq & _). rewrite Heq, Forall_app, Forall_cons in Hli. tauto. }
    cbn [guard_err mbind Result_bind].
    destruct (price_delta_bps _ _) as [delta|] eqn:Hdelta; [|done]. apply price_delta_exact in Hdelta; [|done..].
    cbn [mbind Result_bind]. intros [= <-]. unfold out_of_policy, discount_findings, change_findings. rewrite existsb_app, orb_true_iff.
    split.
    + split.
      * intros H. exists price. split; [done|]. rewrite <- Hdelta. cbv zeta.
        rewrite <- !exceeds_spec.
        destruct (exceeds (QuoteGuardrailConfig.routine_max_discount_bps config) _), (exceeds (QuoteGuardrailConfig.major_change_threshold_bps config) _);
          simpl in H; naive_solver.
      * intros (p' & Hd' & H). rewrite <- (decides_unique _ _ _ _ _ Hd Hd'), <- Hdelta in H. cbv zeta in H. rewrite <- !exceeds_spec in H.
        destruct H as [H|H]; rewrite H; simpl; tauto.
    + apply Forall_app. split; repeat case_match; repeat constructor.
  - intros [= <-]. split.
    + split; [by case_match|]. intros (p & Hd & _). apply decides_matching in Hd. by rewrite Hd in Hm.
    + by case_match; repeat constructor.
Qed.

Lemma all_findings_spec config input lines l :
  Forall (fun line => 0 < QuoteLineItem.unit_cents line ∧ is_i64 (QuoteLineItem.unit_cents line)) lines →
  Forall (fun p => is_i64 (QuoteGuardrailPrice.unit_cents p)) (QuoteGuardrailConfig.price_lists config) →
  all_findings config input lines = Ok l →
  (existsb escalates l = true ↔ Exists (out_of_policy config input) lines) ∧
  Forall (fun f => QuoteGuardrailFinding.required_approver_id f =
                   if escalates f then QuoteGuardrailConfig.major_change_approver_id config else None) l.
Proof.
  intros Hlines Hli. revert l. induction Hlines as [|line lines [Hq Hqi] _ IH]; simpl; intros l.
  { intros [= <-]. split; [|done]. by rewrite Exists_nil. }
  destruct (line_findings config input line) as [here|] eqn:Hhere; [|done].
  destruct (all_findings config input lines) as [rest|] eqn:Hrest; [|done]. cbn [mbind Result_bind]. intros [= <-].
  destruct (line_findings_spec _ _ _ _ Hq Hqi Hli Hhere) as [H1 F1]. destruct (IH rest eq_refl) as [H2 F2].
  split; [|by apply Forall_app]. by rewrite existsb_app, orb_true_iff, H1, H2, Exists_cons.
Qed.

Lemma collect_routes_same a n :
  collect_routes [Build_QuoteApprovalRoute a "quote_guardrail_escalation"] (replicate n a)
  = [Build_QuoteApprovalRoute a "quote_guardrail_escalation"].
Proof. induction n as [|n IH]; [done|]. simpl. by rewrite string_eqb_refl. Qed.

(** The only approver a finding names is the configured one. *)
Lemma routes_of_findings (approver : option string) l :
  Forall (fun f => QuoteGuardrailFinding.required_approver_id f = if escalates f then approver else None) l →
  collect_routes [] (filter_map QuoteGuardrailFinding.required_approver_id l) =
  if existsb escalates l
  then match approver with Some a => [Build_QuoteApprovalRoute a "quote_guardrail_escalation"] | None => [] end
  else [].
Proof.
  intros Hl. assert (Hr : ∃ n, filter_map QuoteGuardrailFinding.required_approver_id l =
    (match approver with Some a => replicate n a | None => [] end) ∧ (existsb escalates l = negb (Nat.eqb n 0))).
  { induction Hl as [|f l Hf _ (n & Hn & He)]; [exists 0%nat; by destruct approver|]. simpl. rewrite Hf. fold (filter_map QuoteGuardrailFinding.required_approver_id l).
    destruct (escalates f); simpl; [|by exists n]. destruct approver as [a|]; [exists (S n)|exists 1%nat]; by rewrite Hn. }
  destruct Hr as (n & -> & ->). destruct approver as [a|]; [|by destruct n]. destruct n as [|n]; [done|]. simpl. apply collect_routes_same.
Qed.

(** ** Blank texts *)

Lemma is_empty_trim s : is_empty (trim s) = is_blank (trim s).
Proof. unfold is_blank. by rewrite trim_idemp. Qed.

(** ** Lines the host accepts *)

(** A line priced exactly, within [i64], and quoted from the request. *)
Definition exact_line input (item : QuoteProfileLineItem.t) : Prop :=
  0 < QuoteProfileLineItem.unit_cents item ∧ QuoteProfileLineItem.quantity item ≠ 0 ∧
  QuoteProfileLineItem.total_cents item = QuoteProfileLineItem.unit_cents item * QuoteProfileLineItem.quantity item ∧
  0 < QuoteProfileLineItem.total_cents item ≤ i64_max ∧
  is_blank (QuoteProfileLineItem.source_quote item) = false ∧
  ∃ before after, QuoteWorkflowInput.request_text input = before +:+ QuoteProfileLineItem.source_quote item +:+ after.

Lemma validate_line_exact input item : validate_profile_line input item = Ok tt → exact_line input item.
Proof.
  unfold validate_profile_line, guard_err, exact_line.
  repeat match goal with |- context [if ?b then Err _ else Ok tt] => destruct b eqn:?; cbn [mbind Result_bind]; [done|] end.
  destruct (checked_mul_i64 _ _) as [total|] eqn:Ht; [|done]. apply in_range_spec in Ht as [-> Hr].
  cbn [ok_or mbind Result_bind].
  repeat match goal with |- context [if ?b then Err _ else Ok tt] => destruct b eqn:?; cbn [mbind Result_bind]; [done|] end.
  intros _. apply orb_false_iff in Heqb4 as [Hb Hc]. apply negb_false_iff, contains_spec in Hc.
  unfold i64_max, i64_min in *. split_and!; [lia..|done|done].
Qed.

Lemma validate_lines_exact input items : validate_lines input items = Ok tt → Forall (exact_line input) items.
Proof.
  induction items as [|item items IH]; simpl; [by intros|].
  destruct (validate_profile_line input item) as [[]|] eqn:Hl; [|done]. cbn [mbind Result_bind]. intros Hi.
  constructor; [by apply validate_line_exact|by apply IH].
Qed.

Lemma validate_run_exact input run :
  validate_profile_run input run = Ok tt → line_items (draft run) ≠ [] ∧ Forall (exact_line input) (line_items (draft run)).
Proof.
  unfold validate_profile_run, guard_err. destruct (is_blank _); [done|]. cbn [mbind Result_bind].
  case_bool_decide; [done|]. cbn [mbind Result_bind]. intros Hv. split; [done|]. by apply validate_lines_exact.
Qed.

(** ** Amounts read from a line *)

Section amounts.
#[local] Arguments String.append : simpl nomatch.

Lemma split_where_skip p s t :
  all_bytes p s = true →
  List.find (fun part => negb (is_empty part)) (split_where p (s +:+ t))
  = List.find (fun part => negb (is_empty part)) (split_where p t).
Proof.
  induction s as [|a s IH]; [done|]. unfold all_bytes. simpl. intros [Ha Hs]%andb_true_iff.
  change (String a s +:+ t) with (String a (s +:+ t)). cbn [split_where]. rewrite Ha. simpl. by apply IH.
Qed.

(** A word, and what stops it. *)
Definition stops (p : ascii → bool) (t : string) : bool :=
  match t with EmptyString => true | String a _ => p a end.

Lemma split_where_word p s t :
  all_bytes (fun a => negb (p a)) s = true → stops p t = true → ∃ rest, split_where p (s +:+ t) = s :: rest.
Proof.
  intros Hs Ht. induction s as [|a s IH].
  - destruct t as [|b t]; simpl in *; [by exists []|]. rewrite Ht. by eexists.
  - unfold all_bytes in *. simpl in Hs. apply andb_true_iff in Hs as [Ha Hs%IH]. destruct Hs as [rest Hr].
    change (String a s +:+ t) with (String a (s +:+ t)). cbn [split_where]. apply negb_true_iff in Ha. rewrite Ha, Hr. by exists rest.
Qed.

Lemma take_while_all p s : all_bytes p s = true → take_while p s = s.
Proof.
  induction s as [|a s IH]; [done|]. unfold all_bytes. simpl. intros [-> Hs]%andb_true_iff. f_equal. by apply IH.
Qed.

Lemma digits_of_parse lo hi d : lo ≤ 0 → Z.of_N d ≤ hi → parse_int lo hi (fmt_dec d) = Some (Z.of_N d).
Proof.
  intros Hlo Hhi. assert (Hp : parse_digits (fmt_dec d) = Some (Z.of_N d)).
  { unfold parse_digits, fmt_dec. destruct (DecimalString.NilEmpty.string_of_uint (N.to_uint d)) as [|a s] eqn:Hs.
    - destruct (fmt_dec_nonempty d). exact Hs.
    - by rewrite <- Hs, DecimalString.NilEmpty.usu; cbn [mbind option_bind]; rewrite DecimalN.Unsigned.of_to. }
  assert (Hr : in_range lo hi (Z.of_N d) = Some (Z.of_N d)) by (apply in_range_spec; lia).
  unfold parse_int. destruct (fmt_dec d) as [|a s] eqn:Hs; [by rewrite Hp|].
  assert (Ha : is_digit a = true).
  { pose proof (fmt_dec_digits d) as Hd. rewrite Hs in Hd. unfold all_bytes in Hd. simpl in Hd. by apply andb_true_iff in Hd as [? _]. }
  rewrite <- Hs in *. rewrite Hs. destruct a as [[] [] [] [] [] [] [] []]; try discriminate Ha; rewrite <- Hs, Hp; exact Hr.
Qed.

(** A line with an amount and nothing else that looks like a number. *)
Definition priced_text (prefix : string) (dollars : N) (cents : Z) : string :=
  prefix +:+ "$" +:+ fmt_dec dollars +:+ "." +:+ two cents.

Definition wordy (prefix : string) : bool := all_bytes (fun a => negb (is_digit a) && negb (Ascii.eqb a "$")) prefix.

Lemma wordy_quantity prefix dollars cents :
  wordy prefix = true → (dollars ≤ 4294967295)%N →
  BuiltIn.first_u32 (priced_text prefix dollars cents) = Some (Z.of_N dollars).
Proof.
  intros Hw Hd. unfold BuiltIn.first_u32, priced_text.
  set (nd := fun ch => negb (is_digit ch)).
  replace (prefix +:+ "$" +:+ fmt_dec dollars +:+ "." +:+ two cents)
    with ((prefix +:+ "$") +:+ fmt_dec dollars +:+ "." +:+ two cents) by by rewrite string_app_assoc.
  rewrite split_where_skip.
  2: { rewrite all_bytes_app. apply andb_true_iff. split; [|done].
       eapply all_bytes_impl, Hw. intros a [? _]%andb_true_iff. done. }
  destruct (split_where_word nd (fmt_dec dollars) ("." +:+ two cents)) as [rest ->].
  { eapply all_bytes_impl, fmt_dec_digits. intros a Ha. unfold nd. by rewrite Ha. }
  { done. }
  simpl. pose proof (fmt_dec_nonempty dollars) as Hne. destruct (fmt_dec dollars) as [|a s] eqn:Hs; [done|].
  cbn [is_empty negb mbind option_bind]. rewrite <- Hs. apply digits_of_parse; lia.
Qed.

Lemma wordy_amount prefix dollars cents :
  wordy prefix = true → (dollars ≤ 4294967295)%N → 0 ≤ cents < 100 →
  BuiltIn.first_money_cents (priced_text prefix dollars cents) = Some (Z.of_N dollars * 100 + cents).
Proof.
  intros Hw Hd Hc. unfold BuiltIn.first_money_cents, priced_text.
  change ("$" +:+ fmt_dec dollars +:+ "." +:+ two cents) with (String "$" (fmt_dec dollars +:+ "." +:+ two cents)).
  rewrite split_once_app by (eapply all_bytes_impl, Hw; by intros a [_ ?]%andb_true_iff).
  cbn [fmap option_fmap option_map mbind option_bind snd].
  destruct (two_digits cents Hc) as [H1 H2].
  assert (Htwo : all_bytes is_digit (two cents) = true).
  { unfold all_bytes, two. simpl. by rewrite !digit_is. }
  rewrite take_while_all.
  2: { change ("." +:+ two cents) with (String "." (two cents)).
       rewrite all_bytes_app. apply andb_true_iff. split.
       - eapply all_bytes_impl, fmt_dec_digits. by intros a ->.
       - unfold all_bytes in *. cbn [String.list_ascii_of_string forallb]. rewrite orb_true_r. cbn [andb orb].
         eapply all_bytes_impl, Htwo. by intros a ->. }
  assert (Hf : ∀ s, all_bytes (fun a => is_digit a || Ascii.eqb a ".") s = true →
    String.string_of_list_ascii (List.filter (fun ch => negb (Ascii.eqb ch ",")) (String.list_ascii_of_string s)) = s).
  { induction s as [|a s IH]; [done|]. unfold all_bytes. cbn [String.list_ascii_of_string forallb]. intros [Ha Hs]%andb_true_iff.
    cbn [List.filter]. destruct (Ascii.eqb_spec a ",") as [->|_]; [done|]. cbn [negb String.string_of_list_ascii]. f_equal. by apply IH. }
  rewrite Hf.
  2: { change ("." +:+ two cents) with (String "." (two cents)). rewrite all_bytes_app. apply andb_true_iff. split.
       - eapply all_bytes_impl, fmt_dec_digits. by intros a ->.
       - unfold all_bytes in *. cbn [String.list_ascii_of_string forallb]. rewrite orb_true_r. cbn [andb].
         eapply all_bytes_impl, Htwo. by intros a ->. }
  destruct (fmt_dec dollars +:+ "." +:+ two cents) as [|a s] eqn:Hs.
  { pose proof (fmt_dec_nonempty dollars). by destruct (fmt_dec dollars). }
  cbn [is_empty]. rewrite <- Hs. change ("." +:+ two cents) with (String "." (two cents)).
  rewrite split_on_app by by apply digits_lack; [|apply fmt_dec_digits].
  rewrite split_on_lacks by by apply digits_lack. cbn [head mbind option_bind tail].
  unfold parse_i64. rewrite digits_of_parse by lia. cbn [mbind option_bind].
  change (BuiltIn.two_digits (two cents)) with (two cents).
  destruct (fmt_two cents Hc) as (_ & Hu & _). unfold parse_u32, parse_int in *.
  change (two cents) with (String (digit (cents / 10)) (String (digit (cents mod 10)) EmptyString)) in *.
  pose proof (digit_is (cents / 10) H1) as Hdig. revert Hu.
  destruct (digit (cents / 10)) as [[] [] [] [] [] [] [] []]; try discriminate Hdig;
    (intros (n & Hn & [-> _]%in_range_spec)%bind_Some; rewrite Hn; cbn [mbind option_bind];
     rewrite (proj2 (in_range_spec _ _ n n)) by lia; cbn [mbind option_bind]; f_equal; apply wrap_small; lia).
Qed.
End amounts.

(** What the phases before the writing have checked. *)
Lemma prepared_inv `{!QuoteTexts} started prepared :
  Quotes.prepare_quote_builder started = Ok prepared →
  QuoteWorkflow.started prepared = started ∧
  validate_profile_run (StartedQuoteRun.input started) (profile_run prepared) = Ok tt ∧
  validate_profile_steps (steps (profile_run prepared)) = Ok tt.
Proof.
  unfold Quotes.prepare_quote_builder. destruct (ok_or _ _) as [profile|]; [|done]. cbn [mbind Result_bind].
  destruct (Quotes.profile_result (parse_config _ _)) as [cfg|]; [|done]. cbn [mbind Result_bind].
  destruct (Quotes.profile_result (run _ _ _)) as [r|]; [|done]. cbn [mbind Result_bind].
  destruct (validate_profile_run _ _) as [[]|] eqn:Hv; [|done]. cbn [mbind Result_bind].
  destruct (validate_profile_steps _) as [[]|] eqn:Hs; [|done]. cbn [mbind Result_bind]. by intros [= <-].
Qed.

(** ** Claims *)

Section claims.
Context `{!QuoteTexts}.

(** Who has to approve what. *)
Lemma guardrails_decide input lines config_json config e :
  Forall (fun line => 0 < QuoteLineItem.unit_cents line ∧ is_i64 (QuoteLineItem.unit_cents line)) lines →
  parse_guardrail_config config_from_value config_json = Ok config →
  Forall (fun p => is_i64 (QuoteGuardrailPrice.unit_cents p)) (QuoteGuardrailConfig.price_lists config) →
  evaluate_guardrails sha256_hex value_text config_from_value config_to_value input lines config_json = Ok e →
  (status e = NeedsApproval ↔ QuoteGuardrailConfig.enabled config = true ∧ Exists (out_of_policy config input) lines) ∧
  ∀ actor, require_guardrail_approver e actor = Ok tt ↔
    (status e = NeedsApproval → ∀ a, QuoteGuardrailConfig.major_change_approver_id config = Some a → actor = a).
Proof.
  intros Hlines Hc Hli. unfold evaluate_guardrails. rewrite Hc. cbn [mbind Result_bind].
  destruct (QuoteGuardrailConfig.enabled config) eqn:Hen; cbn [negb].
  - destruct (all_findings config input lines) as [l|] eqn:Hl; [|done]. cbn [mbind Result_bind]. intros [= <-]. cbn [status].
    destruct (all_findings_spec _ _ _ _ Hlines Hli Hl) as [Hiff Happ].
    unfold require_guardrail_approver. cbn [status approval_routes].
    rewrite (routes_of_findings _ _ Happ). rewrite <- Hiff. split; [destruct (existsb escalates l); naive_solver|]. intros actor.
    destruct (existsb escalates l) eqn:He; simpl.
    + destruct (QuoteGuardrailConfig.major_change_approver_id config) as [a|]; simpl.
      * rewrite orb_false_r. destruct (string_eqb a actor) eqn:Ha; split; try done.
        -- apply string_eqb_true in Ha. intros _ _ b [= <-]. done.
        -- intros Hact. specialize (Hact eq_refl a eq_refl). subst actor. by rewrite string_eqb_refl in Ha.
      * split; [|done]. intros _ _ a [=].
    + split; [|done]. intros _ [=].
  - intros [= <-]. unfold require_guardrail_approver. cbn [status].
    rewrite bool_decide_eq_false_2 by done. simpl. split; [split; [done|]; by intros [[=] _]|].
    intros actor. split; [|done]. intros _ [=].
Qed.

(** C28: The guardrails flag exactly the prices out of policy, and route them to the
    configured approver.  For lines with positive prices, an evaluated quote needs
    approval exactly when the guardrails are on and some line is out of policy: its price
    is off the price that decides - the first of those entries that apply and name most of
    product line and customer tier - by more than the routine discount or the major
    change, in basis points rounded towards zero.  Such a quote can be approved
    by the configured approver only, or by anybody if none is configured; every other
    quote by anybody. *)
Theorem guardrails_flag_exactly input lines config_json config e :
  Forall (fun line => 0 < QuoteLineItem.unit_cents line ∧ is_i64 (QuoteLineItem.unit_cents line)) lines →
  parse_guardrail_config config_from_value config_json = Ok config →
  Forall (fun p => is_i64 (QuoteGuardrailPrice.unit_cents p)) (QuoteGuardrailConfig.price_lists config) →
  evaluate_guardrails sha256_hex value_text config_from_value config_to_value input lines config_json = Ok e →
  (status e = NeedsApproval ↔ QuoteGuardrailConfig.enabled config = true ∧ Exists (out_of_policy config input) lines) ∧
  ∀ actor, require_guardrail_approver e actor = Ok tt ↔
    (status e = NeedsApproval → ∀ a, QuoteGuardrailConfig.major_change_approver_id config = Some a → actor = a).
Proof. apply guardrails_decide. Qed.

(** What is staged is priced exactly.  Whatever the profile, when a run is prepared
    and its draft built, there are lines, and every line quotes a part of the request at a
    positive price whose product with the quantity is its total, without overflow.  The
    draft's subtotal is the sum of the totals if that fits 64 bits; beyond, it is the sum
    wrapped around. *)
Theorem staged_lines_priced_exactly started prepared now_ms d :
  Quotes.prepare_quote_builder started = Ok prepared →
  Quotes.draft_from_profile_run (StartedQuoteRun.run_id started) (StartedQuoteRun.input started)
    (draft (profile_run prepared)) (StartedQuoteRun.guardrail_config_json started) now_ms = Ok d →
  let items := line_items (draft (profile_run prepared)) in
  QuoteDraft.line_items d = line_item <$> items ∧ items ≠ [] ∧ Forall (exact_line (StartedQuoteRun.input started)) items ∧
  let sum := foldr Z.add 0 (QuoteProfileLineItem.total_cents <$> items) in
  QuoteDraft.subtotal_cents d = wrap_i64 sum ∧ (sum ≤ i64_max → QuoteDraft.subtotal_cents d = sum).
Proof.
  intros (_ & Hv & _)%prepared_inv. unfold Quotes.draft_from_profile_run.
  destruct (evaluate_guardrails _ _ _ _ _ _ _) as [g|]; [|done]. cbn [mbind Result_bind]. intros [= <-].
  apply validate_run_exact in Hv as [Hne Hx]. split; [done|]. split; [done|]. split; [done|].
  unfold Quotes.draft_from_interpretation. cbn [QuoteDraft.subtotal_cents]. rewrite <- list_fmap_compose.
  change (QuoteLineItem.total_cents ∘ line_item) with QuoteProfileLineItem.total_cents.
  rewrite sum_i64_exact. split; [done|]. intros Hs. apply wrap_small.
  assert (0 ≤ foldr Z.add 0 (QuoteProfileLineItem.total_cents <$> line_items (draft (profile_run prepared)))).
  { clear -Hx. induction Hx as [|i l Hi _ IH]; [done|]. rewrite fmap_cons. cbn [foldr]. destruct Hi as (_ & _ & _ & [? _] & _). lia. }
  unfold i64_max in Hs. lia.
Qed.
End claims.

(** A line without a quantity is multiplied by its own price.  The quantity is the first
    number of the line wherever it stands, and an amount is a number: a line whose only
    number is an amount of [dollars] and [cents] is priced as [dollars] pieces of it - the
    default of one piece never applies to it. *)
Theorem amount_read_as_quantity index raw prefix dollars cents :
  trim raw = priced_text prefix dollars cents → wordy prefix = true → (dollars ≤ 100000000)%N → 0 ≤ cents < 100 →
  ∃ item, BuiltIn.parse_line index raw = Ok (Some item) ∧
    QuoteProfileLineItem.quantity item = Z.of_N dollars ∧
    QuoteProfileLineItem.unit_cents item = Z.of_N dollars * 100 + cents ∧
    QuoteProfileLineItem.total_cents item = Z.of_N dollars * (Z.of_N dollars * 100 + cents).
Proof.
  intros Ht Hw Hd Hc. unfold BuiltIn.parse_line. rewrite Ht.
  assert (He : is_empty (priced_text prefix dollars cents) = false) by by destruct prefix.
  rewrite He, wordy_quantity, wordy_amount by first [done | lia]. cbn [ok_or mbind Result_bind default]. eexists. split; [done|].
  cbn. split_and!; [done|done|]. rewrite wrap_small; [lia|].
  assert (0 ≤ Z.of_N dollars ≤ 100000000) as HD by lia. set (D := Z.of_N dollars) in *. clearbody D.
  assert (0 ≤ (D * 100 + cents) * D ≤ 10000000099 * 100000000); [|lia].
  split; [nia|]. apply Z.mul_le_mono_nonneg; lia.
Qed.

(** ** A quote *)

#[local] Instance demo_texts : QuoteTexts := {|
  sha256_hex := fun _ => "00112233445566778899aabbccddeeff";
  value_text := fun _ => "{}";
  parse_value := fun _ => None;
  config_from_value := fun v =>
    match v with
    | Json.Int price => Ok (QuoteGuardrailConfig.mk true (Some 500) (Some 1000) (Some "jordan"%string)
                              [QuoteGuardrailPrice.mk "LINE-1" None None price])
    | _ => Err "expected a number"%string
    end;
  config_to_value := fun _ => Json.Null;
  input_text := fun _ => "{}";
  traced_text := fun _ => "[]";
  trace_text := fun _ => "[]";
  parse_trace := fun _ => None;
  lines_text := fun _ => "[]";
  QuoteWorkflow.parse_lines := fun _ => None;
  notes_text := fun _ => "[]";
  parse_notes := fun _ => None;
  guardrails_text := fun _ => "{}";
  parse_guardrails := fun _ => None;
  quote_text := fun _ => "{}";
  build_sha := None;
|}.

Definition demo_input (text : string) : QuoteWorkflowInput.t :=
  QuoteWorkflowInput.mk "email" "msg-1" [] "Dana" None text.
Definition demo_line (text : string) (quantity unit : Z) : QuoteLineItem.t :=
  QuoteLineItem.mk "LINE-1" None text quantity unit (unit * quantity) text.

Definition demo_config : QuoteGuardrailConfig.t :=
  QuoteGuardrailConfig.mk true (Some 500) (Some 1000) (Some "jordan"%string) [QuoteGuardrailPrice.mk "LINE-1" None None 2500].

(** A fifth off the listed price. *)
Lemma guardrails_flag_exactly_witness :
  ∃ e, evaluate_guardrails sha256_hex value_text config_from_value config_to_value (demo_input "2 gallons primer at $20.00")
         [demo_line "2 gallons primer at $20.00" 2 2000] (Json.Int 2500) = Ok e ∧
    status e = NeedsApproval ∧ require_guardrail_approver e "sam" ≠ Ok tt.
Proof.
  assert (Hlines : Forall (fun line => 0 < QuoteLineItem.unit_cents line ∧ is_i64 (QuoteLineItem.unit_cents line))
    [demo_line "2 gallons primer at $20.00" 2 2000]) by (repeat constructor; by vm_compute).
  assert (Hli : Forall (fun p => is_i64 (QuoteGuardrailPrice.unit_cents p)) (QuoteGuardrailConfig.price_lists demo_config))
    by (repeat constructor; by vm_compute).
  eexists. split; [reflexivity|]. split; [reflexivity|]. intros H.
  destruct (guardrails_flag_exactly (H:=demo_texts) (demo_input "2 gallons primer at $20.00") [demo_line "2 gallons primer at $20.00" 2 2000]
    (Json.Int 2500) demo_config _ Hlines eq_refl Hli eq_refl) as [_ Hactor].
  pose proof (proj1 (Hactor "sam"%string) H eq_refl "jordan"%string eq_refl) as Hno. discriminate Hno.
Defined.

Definition demo_started (text : string) : StartedQuoteRun.t :=
  StartedQuoteRun.mk "acme" "agent" "qwr_0011223344556677" "built_in" Json.Null Json.Null (demo_input text) "key-1" "rcpt_000000000001" 100.

(** Two lines whose totals fit and whose sum does not. *)
Definition huge_request : string := "1 lot at $92233720368547758" +:+ String "010" "1 lot at $92233720368547758".

Definition demo_draft (prepared : PreparedQuoteRun) : Result StoreError.t QuoteDraft.t :=
  Quotes.draft_from_profile_run "qwr_0011223344556677" (demo_input huge_request) (draft (profile_run prepared)) Json.Null 105.

Lemma staged_lines_priced_exactly_witness :
  ∃ prepared d, Quotes.prepare_quote_builder (demo_started huge_request) = Ok prepared ∧
    QuoteDraft.subtotal_cents d = -16 ∧
    QuoteDraft.subtotal_cents d =
      wrap_i64 (foldr Z.add 0 (QuoteProfileLineItem.total_cents <$> line_items (draft (profile_run prepared)))).
Proof.
  assert (Hex : match Quotes.prepare_quote_builder (demo_started huge_request) with
    | Ok p => match demo_draft p with Ok d => QuoteDraft.subtotal_cents d = -16 | Err _ => False end
    | Err _ => False end) by by vm_compute.
  destruct (Quotes.prepare_quote_builder (demo_started huge_request)) as [p|] eqn:Hp; [|destruct Hex].
  destruct (demo_draft p) as [d|] eqn:Hd; [|destruct Hex]. exists p, d. split; [reflexivity|]. split; [exact Hex|].
  exact (proj1 (proj2 (proj2 (proj2 (staged_lines_priced_exactly (H:=demo_texts) (demo_started huge_request) p 105 d Hp Hd))))).
Defined.

Lemma amount_read_as_quantity_witness :
  ∃ item, BuiltIn.parse_line 0 " Site visit $150.00 " = Ok (Some item) ∧ QuoteProfileLineItem.total_cents item = 2250000.
Proof.
  destruct (amount_read_as_quantity 0 " Site visit $150.00 " "Site visit " 150 0 eq_refl eq_refl ltac:(lia) ltac:(lia))
    as (item & Hp & _ & _ & Ht).
  exists item. split; [exact Hp|]. rewrite Ht. reflexivity.
Defined.
