(* ===== verification/QuoteFlow.v ===== *)
(** * Quotes from request to decision

    Requests of the quote builder are served one at a time: a run is started, a
    started run is finished (prepared and written, or failed), a draft is approved or
    rejected.  (The server has several connections: a decision's check that the draft is
    staged, and the commits of a run, can be interleaved with another request's.  What
    that does to decisions is in DraftProps.)  Served so, whatever they are, a draft agrees with its run and its job, and an
    approved draft was approved by somebody its guardrails admit. *)

From Stdlib Require Import ZifyBool.
From S2P Require Import Prelude RustStd RustStr StoreCore StoreCoreProps AppOutbox AppOutboxProps Identity Schema SliceCore Operators WorkItems Calendar Json QuoteProfile QuoteGuardrails QuoteWorkflow QuoteProps.
Import Spine Outbox Quotes.
Local Open Scope Z_scope.
#[local] Open Scope string_scope.

Abbreviation drafts db := (quote_drafts (tables db)).
Abbreviation runs db := (workflow_runs (tables db)).
Abbreviation run_steps db := (workflow_steps (tables db)).

Definition jobs_grow (db db' : AppDb) : Prop := ∀ k, is_Some (jobs db !! k) → is_Some (jobs db' !! k).

Section invariant.
Context {texts : QuoteTexts}.

(** ** What the log says *)

(** An applied approval of a draft, by somebody its guardrails admit. *)
Definition approved_by (k : string * string) (row : QuoteDraftRow.t) (r : Receipt.t) : Prop :=
  Receipt.client_id r = k.1 ∧ Receipt.entity_kind r = QUOTE_ENTITY_KIND ∧ Receipt.entity_id r = k.2 ∧
  Receipt.change_kind r = "approve" ∧ Receipt.is_applied r = true ∧
  require_guardrail_approver (guardrails_from_json (QuoteDraftRow.guardrails_json row) (QuoteDraftRow.guardrail_config_json row))
    (Receipt.actor_id r) = Ok tt.

(** The applied mutation that wrote a step. *)
Definition wrote_step (k : string * string * Z) (step : WorkflowStepRow.t) (r : Receipt.t) : Prop :=
  let '(client, run, index) := k in
  Receipt.receipt_id r = WorkflowStepRow.receipt_id step ∧ Receipt.client_id r = client ∧
  Receipt.correlation_id r = Some run ∧ Receipt.is_applied r = true ∧
  ∃ i, index = Z.of_N i ∧ Receipt.idempotency_key r = step_key run i.

Lemma approved_by_strip k row r r' : Receipt.strip r' = Receipt.strip r → approved_by k row r → approved_by k row r'.
Proof. destruct r, r'. unfold Receipt.strip, approved_by, Receipt.is_applied. simpl. intros [=]. by subst. Qed.

Lemma wrote_step_strip k step r r' : Receipt.strip r' = Receipt.strip r → wrote_step k step r → wrote_step k step r'.
Proof. destruct r, r', k as [[??]?]. unfold Receipt.strip, wrote_step, Receipt.is_applied. simpl. intros [=]. by subst. Qed.

Definition logged_as (P : Receipt.t → Prop) (db : AppDb) : Prop := ∃ r, r ∈ Db.receipts db ∧ P r.

Lemma logged_grow (P : Receipt.t → Prop) (db db' : AppDb) :
  (∀ r r', Receipt.strip r' = Receipt.strip r → P r → P r') → receipts_grow db db' → logged_as P db → logged_as P db'.
Proof.
  intros HP Hg (r & Hin & Hr). destruct (grow_lookup _ _ r Hg Hin) as (r' & Hin' & Heq). exists r'. split; [done|]. by eapply HP.
Qed.

(** ** The invariant *)

Definition finish_key (run : string) : string := run +:+ ":finish".
Definition start_key (run : string) : string := run +:+ ":start".

(** The row that was staged for a prepared run. *)
Definition made (client : string) (row : QuoteDraftRow.t) : Prop :=
  ∃ started prepared d stage_ms now_ms,
    prepare_quote_builder started = Ok prepared ∧
    draft_from_profile_run (StartedQuoteRun.run_id started) (StartedQuoteRun.input started)
      (draft (profile_run prepared)) (StartedQuoteRun.guardrail_config_json started) stage_ms = Ok d ∧
    row = staged_row client d now_ms.

Definition decided (staged row : QuoteDraftRow.t) : Prop :=
  row = staged ∨ (∃ job now, row = QuoteDraftRow.approve staged job now) ∨ (∃ now, row = QuoteDraftRow.reject staged now).

(** [open]: the run whose draft is written and whose finish is not. *)
Record row_wf (open : option (string * string)) (db : AppDb) (k : string * string) (row : QuoteDraftRow.t) : Prop := {
  row_key : QuoteDraftRow.client_id row = k.1 ∧ QuoteDraftRow.draft_id row = k.2 ∧ k.2 = "qd_" +:+ QuoteDraftRow.run_id row;
  row_run : ∀ run, runs db !! (k.1, QuoteDraftRow.run_id row) = Some run → WorkflowRunRow.status run = QuoteDraftRow.status row;
  row_started : key_used db k.1 (start_key (QuoteDraftRow.run_id row));
  row_finished : key_used db k.1 (finish_key (QuoteDraftRow.run_id row)) ∨
                 open = Some (k.1, QuoteDraftRow.run_id row) ∧ QuoteDraftRow.status row = "staged";
  row_made : ∃ staged, made k.1 staged ∧ decided staged row;
  row_job : match QuoteDraftRow.outbox_job_id row with
            | Some job => QuoteDraftRow.status row = "approved" ∧ job = "qwj_" +:+ QuoteDraftRow.run_id row ∧ is_Some (jobs db !! (k.1, job))
            | None => QuoteDraftRow.status row ∈ ["staged"; "rejected"]
            end;
  row_approved : QuoteDraftRow.status row = "approved" → logged_as (approved_by k row) db;
}.

Record quotes_wf (open : option (string * string)) (db : AppDb) : Prop := {
  wf_rows : ∀ k row, drafts db !! k = Some row → row_wf open db k row;
  wf_steps : ∀ k step, run_steps db !! k = Some step → logged_as (wrote_step k step) db;
}.

Definition pending_wf (db : AppDb) (started : StartedQuoteRun.t) : Prop :=
  key_used db (StartedQuoteRun.client_id started) (start_key (StartedQuoteRun.run_id started)).

Lemma row_wf_grow open db db' k row :
  receipts_grow db db' → jobs_grow db db' →
  runs db' !! (k.1, QuoteDraftRow.run_id row) = runs db !! (k.1, QuoteDraftRow.run_id row) →
  row_wf open db k row → row_wf open db' k row.
Proof.
  intros Hg Hj Hr [Hk Hrun Hs Hf Hm Hjob Ha]. split; [done|by rewrite Hr|by eapply key_used_grow| |done| |].
  - destruct Hf as [Hf|?]; [left; by eapply key_used_grow|by right].
  - case_match; [|done]. naive_solver.
  - intros Hst. eapply logged_grow, Ha; [|done|done]. apply approved_by_strip.
Qed.

Lemma steps_grow db db' :
  receipts_grow db db' → run_steps db' = run_steps db →
  (∀ k step, run_steps db !! k = Some step → logged_as (wrote_step k step) db) →
  ∀ k step, run_steps db' !! k = Some step → logged_as (wrote_step k step) db'.
Proof. intros Hg Hr Hs k step. rewrite Hr. intros Hk. eapply logged_grow, Hs; [|done|done]. apply wrote_step_strip. Qed.

Lemma quotes_wf_grow open db db' :
  receipts_grow db db' → Db.domain db' = Db.domain db → quotes_wf open db → quotes_wf open db'.
Proof.
  intros Hg Hd [Hr Hs]. assert (Ht : tables db' = tables db) by (unfold tables; by rewrite Hd). split.
  - intros k row. rewrite Ht. intros Hk. apply (row_wf_grow open db); [done| |by rewrite Ht|by apply Hr].
    intros k'. by rewrite (jobs_domain _ _ Hd).
  - eapply steps_grow; [done|by rewrite Ht|done].
Qed.

(** Only the run itself has its draft. *)
Lemma row_of_run open db k row c r :
  quotes_wf open db → drafts db !! k = Some row → k.1 = c → QuoteDraftRow.run_id row = r → k = (c, "qd_" +:+ r).
Proof. intros Hwf Hk <- <-. destruct (row_key _ _ _ _ (wf_rows _ _ Hwf _ _ Hk)) as (_ & _ & <-). by destruct k. Qed.

Definition good (open : option (string * string)) (db : AppDb) : Prop := spine_wf db ∧ quotes_wf open db.
End invariant.

(** ** Requests *)

(** ** Every write keeps the invariant *)

Section writes.
Context {texts : QuoteTexts} (constraint_failed : string).

Lemma wf_weaken open db : quotes_wf None db → quotes_wf open db.
Proof.
  intros [Hr Hs]. split; [|done]. intros k row Hk. destruct (Hr k row Hk) as [? ? ? [?|[[=] _]] ? ? ?].
  split; try done. by left.
Qed.

Lemma good_idle open open' db db' :
  good open db → (quotes_wf open db → quotes_wf open' db) →
  receipts_grow db db' → Db.domain db' = Db.domain db → spine_wf db' → good open' db'.
Proof. intros [_ Hq] Hw Hg Hd Hs. split; [done|]. apply (quotes_wf_grow _ db); auto. Qed.

Lemma slice_spares (dw : string → SliceWrite) : (∀ id, slice_write (dw id)) → spares_receipts dw.
Proof. intros Hw id db db' H. by destruct (Hw _ _ _ H) as (-> & _). Qed.

Lemma slice_insert_run c run profile input now : slice_write (insert_run c run profile input now).
Proof. apply slice_write_update. Qed.

Lemma slice_insert_step c run index record receipt now : slice_write (insert_step_row constraint_failed c run index record receipt now).
Proof. intros db db'. unfold insert_step_row. case_decide; [done|]. by intros [= <-]. Qed.

Lemma slice_insert_quote c d now : slice_write (insert_quote constraint_failed c d now).
Proof. apply (slice_write_if (fun db => _)), slice_write_update. Qed.

(** ** The start *)

Lemma start_good input ctx db :
  good None db →
  good None (start_quote_builder constraint_failed input ctx db).2 ∧
  receipts_grow db (start_quote_builder constraint_failed input ctx db).2 ∧
  ∀ started, (start_quote_builder constraint_failed input ctx db).1 = Ok started →
    pending_wf (start_quote_builder constraint_failed input ctx db).2 started.
Proof.
  intros Hgood. pose proof Hgood as [Hsp Hq]. unfold start_quote_builder, trace_start.
  set (run := quote_run_id (run_idempotency_key ctx)).
  set (request := trace_request _ _ _ _ _ _ _ _ _ _). set (write := insert_run _ _ _ _ _).
  pose proof (mutate_logged constraint_failed request (fun _ => write) db Hsp
    (slice_write_spares_receipts _ (slice_insert_run _ _ _ _ _))) as Hm.
  change (mutate_with_receipt_id constraint_failed request (fun _ => write) db) with (mutate constraint_failed request write db) in Hm.
  unfold op_bind, op_lift, op_ret.
  inversion Hm as [db' id rev Hu Hd Hg Hs|db' id rev Hf Hx Hd Hg Hs|db1 db' before rev Hf Hx Hw Hd Hg Hs Hin|err db1 db' Hf Hx Hw Hd Hg Hs];
    cbn [fst snd Trace.last_receipt_id ok_or].
  - split; [by eapply good_idle|]. split; [done|]. intros started [= <-]. by eapply key_used_grow.
  - destruct Hx. by intros e [=].
  - split; [|split; [done|]; intros started [= <-]; exact (applied_uses _ _ _ _ _ Hin)].
    split; [done|]. injection Hw as <-. destruct Hq as [Hr Hst].
    assert (Hdr : drafts db' = drafts db /\ run_steps db' = run_steps db /\ jobs db' = jobs db ∧
      (runs db' = runs db ∨ ∃ new, runs db' = <[(run_client_id ctx, run) := new]> (runs db))).
    { rewrite (jobs_domain _ _ Hd). unfold tables. rewrite Hd.
      change (others (Db.domain (set_tables db ?t))) with t. unfold insert_run.
      destruct (workflow_runs (tables db) !! (run_client_id ctx, run)) eqn:Hrun; simpl; eauto 10. }
    destruct Hdr as (Hdr & Hsteps & Hjobs & Hruns). split; [|by eapply steps_grow].
    intros k row. rewrite Hdr. intros Hk. apply (row_wf_grow None db); [done|by intros k'; rewrite Hjobs| |by apply Hr].
    destruct Hruns as [->|[new ->]]; [done|]. apply lookup_insert_ne. intros [= Hc Hrun].
    pose proof (row_started _ _ _ _ (Hr k row Hk)) as Hused. rewrite <- Hc, <- Hrun in Hused.
    by destruct (key_used_not_free _ _ _ Hused).
  - by unfold write, insert_run in Hw.
Qed.

(** ** Steps, the draft and the finish *)

(** One mutation: it changes nothing, or its write and its receipt are there. *)
Lemma mutation_good open open' request dw db :
  good open db → spares_receipts dw →
  (∀ db', request_used db request ∨ ¬ expectation_met db request ∨ (∃ err, (dw (next_name db) db).1 = Err err) →
    receipts_grow db db' → quotes_wf open db' → quotes_wf open' db') →
  (∀ db1 db' before rev, request_free db request → dw (next_name db) db = (Ok tt, db1) →
    tables db' = tables db1 → jobs db' = jobs db1 → receipts_grow db db' →
    receipt_row request Applied None before (Some rev) (next_name db) ∈ Db.receipts db' → quotes_wf open' db') →
  good open' (mutate_with_receipt_id constraint_failed request dw db).2 ∧
  receipts_grow db (mutate_with_receipt_id constraint_failed request dw db).2.
Proof.
  intros [Hsp Hq] Hs Hidle Happ.
  pose proof (mutate_logged constraint_failed request dw db Hsp Hs) as Hm.
  inversion Hm as [db' id rev Hu Hd Hg Hs'|db' id rev Hf Hx Hd Hg Hs'|db1 db' before rev Hf Hx Hw Hd Hg Hs' Hin|err db1 db' Hf Hx Hw Hd Hg Hs'];
    cbn [snd]; (split; [split; [done|]|done]).
  - apply Hidle; [by left|done|by eapply quotes_wf_grow].
  - apply Hidle; [by right; left|done|by eapply quotes_wf_grow].
  - eapply Happ; [done|done| |by apply jobs_domain|done|done]. unfold tables. by rewrite Hd.
  - apply Hidle; [right; right; exists err; by rewrite Hw|done|by eapply quotes_wf_grow].
Qed.

Lemma insert_step_ok c run index record receipt now db db1 :
  insert_step_row constraint_failed c run index record receipt now db = (Ok tt, db1) →
  jobs db1 = jobs db ∧ ∃ step, WorkflowStepRow.receipt_id step = receipt ∧
    tables db1 = set_workflow_steps (tables db) (<[(c, run, Z.of_N index) := step]> (run_steps db)).
Proof.
  unfold insert_step_row. case_decide; [done|]. intros [= <-]. split; [done|]. eexists. split; [|done]. done.
Qed.

(** A step and the receipt of the mutation that wrote it. *)
Lemma steps_insert c run index step request before rev db db' :
  quotes_wf None db → receipts_grow db db' →
  run_steps db' = <[(c, run, Z.of_N index) := step]> (run_steps db) →
  receipt_row request Applied None before (Some rev) (WorkflowStepRow.receipt_id step) ∈ Db.receipts db' →
  MutationRequest.client_id request = c → MutationRequest.correlation_id request = Some run →
  MutationRequest.idempotency_key request = step_key run index →
  ∀ k step, run_steps db' !! k = Some step → logged_as (wrote_step k step) db'.
Proof.
  intros [_ Hsteps] Hg Hs Hin Hc Hrun Hkey k step'. rewrite Hs, lookup_insert_Some. intros [[<- <-]|[Hne Hk]].
  - eexists. split; [exact Hin|]. split; [done|]. split; [done|]. split; [done|].
    split; [by apply is_applied_row|]. by exists index.
  - eapply logged_grow, Hsteps; [apply wrote_step_strip|done|done].
Qed.

Lemma step_good c actor run index causation key now record db :
  key = step_key run index → good None db →
  good None (insert_step_mutation constraint_failed c actor run index causation key now record db).2 ∧
  receipts_grow db (insert_step_mutation constraint_failed c actor run index causation key now record db).2.
Proof.
  intros -> Hgood. unfold insert_step_mutation, op_map, op_bind, op_ret.
  set (request := trace_request _ _ _ _ _ _ _ _ _ _).
  set (dw := fun receipt_id => insert_step_row constraint_failed c run index record receipt_id now).
  destruct (mutation_good None None request dw db Hgood) as [Hg Hgrow].
  - apply slice_spares. intros id. apply slice_insert_step.
  - done.
  - intros db1 db' before rev _ (Hj & step & Hid & Ht1)%insert_step_ok Ht Hjobs Hgrow Hin. rewrite Ht1 in Ht.
    destruct Hgood as [_ Hq]. rewrite <- Hid in Hin. split.
    + intros k row. rewrite Ht. intros Hk. apply (row_wf_grow None db); [done| |by rewrite Ht|by apply (wf_rows _ _ Hq)].
      intros k'. by rewrite Hjobs, Hj.
    + by eapply (steps_insert c run index step request); [| |rewrite Ht|..].
  - by destruct (mutate_with_receipt_id _ _ _ _) as [[]].
Qed.

Lemma insert_quote_ok c d now db db1 :
  insert_quote constraint_failed c d now db = (Ok tt, db1) →
  drafts db !! (c, QuoteDraft.draft_id d) = None ∧ jobs db1 = jobs db ∧
  tables db1 = set_quote_drafts (tables db) (<[(c, QuoteDraft.draft_id d) := staged_row c d now]> (drafts db)).
Proof.
  unfold insert_quote. destruct (bool_decide _ || _) eqn:He; [done|]. intros [= <-].
  apply orb_false_iff in He as [Hfree _]. apply bool_decide_eq_false in Hfree. by apply eq_None_not_Some in Hfree.
Qed.

Lemma stage_write_ok c run index d record now id db db1 :
  stage_write constraint_failed c run index d record now id db = (Ok tt, db1) →
  drafts db !! (c, QuoteDraft.draft_id d) = None ∧ jobs db1 = jobs db ∧
  drafts db1 = <[(c, QuoteDraft.draft_id d) := staged_row c d now]> (drafts db) ∧
  runs db1 = alter (fun row => WorkflowRunRow.set_status row "staged" (u64_as_i64 now)) (c, run) (runs db) ∧
  ∃ step, WorkflowStepRow.receipt_id step = id ∧ run_steps db1 = <[(c, run, Z.of_N index) := step]> (run_steps db).
Proof.
  intros ([] & db2 & (Hfree & Hj2 & Ht2)%insert_quote_ok & H)%op_bind_ok.
  apply op_bind_ok in H as ([] & db3 & (Hj3 & step & Hid & Ht3)%insert_step_ok & H). injection H as <-.
  rewrite Ht2 in Ht3.
  set (dba := set_tables _ _).
  assert (Hta : tables dba = set_workflow_runs (tables db3) (alter (fun row => WorkflowRunRow.set_status row "staged" (u64_as_i64 now)) (c, run) (runs db3))) by done.
  change (jobs dba) with (jobs db3). rewrite Hta, Ht3, Hj3, Hj2. cbn. split_and!; [done..|].
  by exists step.
Qed.

Lemma stage_good trace d record now db :
  let c := Trace.client_id trace in let run := Trace.run_id trace in
  good None db → key_used db c (start_key run) → made c (staged_row c d now) →
  QuoteDraft.run_id d = run → QuoteDraft.draft_id d = "qd_" +:+ run →
  good (Some (c, run)) (trace_stage_draft constraint_failed trace d record now db).2 ∧
  receipts_grow db (trace_stage_draft constraint_failed trace d record now db).2.
Proof.
  intros c run Hgood Hstart Hmade Hrun Hid. unfold trace_stage_draft, op_bind, op_ret. fold c run.
  set (index := Trace.next_step_index trace). set (request := trace_request _ _ _ _ _ _ _ _ _ _).
  set (dw := stage_write constraint_failed c run index d record now).
  destruct (mutation_good None (Some (c, run)) request dw db Hgood) as [Hg Hgrow].
  - apply slice_spares. intros id. apply slice_write_seq; [apply slice_insert_quote|].
    apply slice_write_seq; [apply slice_insert_step|apply slice_write_update].
  - intros db' _ _. apply wf_weaken.
  - intros db1 db' before rev _ (Hfree & Hj & Hdr & Hruns & step & Hsid & Hst)%stage_write_ok Ht Hjobs Hgrow Hin.
    destruct Hgood as [_ Hq]. rewrite <- Ht in Hdr, Hruns, Hst. rewrite <- Hsid in Hin. split.
    2: { by eapply (steps_insert c run index step request). }
    intros k row. rewrite Hdr, lookup_insert_Some. intros [[<- <-]|[Hne Hk]].
    + split; cbn; rewrite ?Hrun; [done| |by eapply key_used_grow|by right|by eexists; split; [exact Hmade|left]|by left|done].
      intros r. rewrite Hruns, lookup_alter_Some. intros [(_ & r0 & _ & ->)|[[] _]]; done.
    + eapply row_wf_grow; [exact Hgrow|by intros k'; rewrite Hjobs, Hj| |by apply wf_rows; [apply wf_weaken|]].
      rewrite Hruns. apply lookup_alter_ne. intros [= Hc Hr]. apply Hne.
      rewrite (row_of_run _ _ _ _ c run Hq Hk (eq_sym Hc) (eq_sym Hr)), Hid. done.
  - by destruct (mutate_with_receipt_id _ _ _ _) as [[]].
Qed.

Lemma finish_good open ctx status terminal db :
  let c := finish_client_id ctx in let run := finish_run_id ctx in
  good open db → open = None ∨ open = Some (c, run) ∧ status = RunStaged →
  good None (finish_run constraint_failed ctx status terminal db).2 ∧
  receipts_grow db (finish_run constraint_failed ctx status terminal db).2.
Proof.
  intros c run Hgood Hopen. unfold finish_run, op_map, op_bind, op_ret. fold c run.
  set (request := trace_request _ _ _ _ _ _ _ _ _ _). set (write := update_tables _).
  destruct (mutation_good open None request (fun _ => write) db Hgood) as [Hg Hgrow].
  - apply slice_write_spares_receipts, slice_write_update.
  - intros db' [Hu|[Hx|[err [=]]]] Hgrow [Hr Hs]; [|destruct Hx; by intros e [=]]. split; [|done].
    intros k row Hk. destruct (Hr k row Hk) as [? ? ? Hf ? ? ?]. split; try done. left.
    destruct Hf as [Hf|[-> _]]; [done|]. destruct Hopen as [[=]|[[= -> ->] _]]. by eapply key_used_grow.
  - intros db1 db' before rev Hf [= <-] Ht Hjobs Hgrow Hin. destruct Hgood as [_ [Hr Hs]].
    pose proof (applied_uses _ _ _ _ _ Hin) as Hused.
    split; [|by eapply steps_grow; [|rewrite Ht|]].
    intros k row. rewrite Ht. intros Hk. change (drafts db !! k = Some row) in Hk. pose proof (Hr k row Hk) as Hrow.
    destruct (decide ((c, run) = (k.1, QuoteDraftRow.run_id row))) as [Heq|Hne].
    + injection Heq as Hc Hrun. destruct (row_finished _ _ _ _ Hrow) as [Hfin|[Ho Hst]].
      { rewrite <- Hc, <- Hrun in Hfin. by destruct (key_used_not_free _ _ _ Hfin). }
      destruct Hopen as [->|[_ ->]]; [done|].
      destruct Hrow as [Hkey _ Hstart _ Hmade Hjob Happ]. split; [done| |by eapply key_used_grow| |done| |].
      * intros r. rewrite Ht. cbn. rewrite <- Hc, <- Hrun. rewrite lookup_alter_Some.
        intros [(_ & r0 & _ & ->)|[[] _]]; done.
      * left. rewrite <- Hc, <- Hrun. exact Hused.
      * rewrite Hjobs. done.
      * by rewrite Hst.
    + assert (Hrow' : row_wf open db' k row).
      { apply (row_wf_grow open db); [done|by intros k'; rewrite Hjobs| |done]. rewrite Ht. by apply lookup_alter_ne. }
      destruct Hrow' as [? ? ? Hfin ? ? ?]. split; try done. left.
      destruct Hfin as [|[-> _]]; [done|]. destruct Hopen as [[=]|[[= H1 H2] _]]. by rewrite H1, H2 in Hne.
  - unfold mutate. by destruct (mutate_with_receipt_id _ _ _ _) as [[]].
Qed.

(** A mutation that failed left no draft open. *)
Lemma mutation_failed open request dw db e :
  good open db → spares_receipts dw → (mutate_with_receipt_id constraint_failed request dw db).1 = Err e →
  good open (mutate_with_receipt_id constraint_failed request dw db).2.
Proof.
  intros [Hsp Hq] Hs. pose proof (mutate_logged constraint_failed request dw db Hsp Hs) as Hm. inversion Hm; [done..|].
  intros _. split; [done|]. by eapply quotes_wf_grow.
Qed.

Lemma stage_failed trace d record now db e :
  good None db → (trace_stage_draft constraint_failed trace d record now db).1 = Err e →
  good None (trace_stage_draft constraint_failed trace d record now db).2.
Proof.
  intros Hgood. unfold trace_stage_draft, op_bind, op_ret.
  match goal with |- context [mutate_with_receipt_id _ ?r ?w] =>
    pose proof (mutation_failed None r w db e Hgood) as Hf end.
  destruct (mutate_with_receipt_id _ _ _ _) as [[]]; [done|]. intros He. cbn in He. injection He as ->. apply Hf; [|done].
  apply slice_spares. intros id. apply slice_write_seq; [apply slice_insert_quote|].
  apply slice_write_seq; [apply slice_insert_step|apply slice_write_update].
Qed.
End writes.

(** ** Requests *)

Section flow.
Context {texts : QuoteTexts} (constraint_failed : string) (result_fields : string → option bool * option string).

(** The database and the runs that were started. *)
Record World := { w_db : AppDb; w_pending : list StartedQuoteRun.t }.

Inductive Call :=
| CStart (input : QuoteWorkflowInput.t) (ctx : QuoteRunContext)
| CFinish (n : nat) (now_ms : N)
| CDecide (ctx : UserActionContext) (draft_id : string) (action : QuoteDraftActionKind)
| COther (f : AppDb → AppDb).

(** The second half of a request, of one thread or of another ([run_quote_builder]). *)
Definition finish_started (started : StartedQuoteRun.t) (now_ms : N) : AppOp unit :=
  match prepare_quote_builder started with
  | Ok prepared => op_map (fun _ => tt) (persist_prepared_quote_builder constraint_failed result_fields prepared)
  | Err err => op_map (fun _ => tt) (fail_started_quote_builder constraint_failed started err now_ms)
  end.

Definition serve (w : World) (call : Call) : World :=
  match call with
  | CStart input ctx =>
    match start_quote_builder constraint_failed input ctx (w_db w) with
    | (Ok started, db) => Build_World db (w_pending w ++ [started])
    | (Err _, db) => Build_World db (w_pending w)
    end
  | CFinish n now_ms =>
    match w_pending w !! n with
    | Some started => Build_World (finish_started started now_ms (w_db w)).2 (w_pending w)
    | None => w
    end
  | CDecide ctx draft_id action =>
    Build_World (apply_draft_action constraint_failed result_fields ctx draft_id action (w_db w)).2 (w_pending w)
  | COther f => Build_World (f (w_db w)) (w_pending w)
  end.
Definition serve_all : World → list Call → World := foldl serve.

(** Other slices and the delivery of jobs: they leave the slice's tables alone, remove
    no job and no receipt, and may use any idempotency key. *)
Definition allowed (call : Call) : Prop :=
  match call with
  | COther f => ∀ db, spine_wf db → spine_wf (f db) ∧ drafts (f db) = drafts db ∧ runs (f db) = runs db ∧
                      run_steps (f db) = run_steps db ∧ jobs_grow db (f db) ∧ receipts_grow db (f db)
  | _ => True
  end.

(** Kept from [base] on. *)
Definition kept (base db : AppDb) : Prop := good None db ∧ receipts_grow base db.

Lemma kept_refl db : good None db → kept db db.
Proof. intros Hg. split; [done|apply receipts_grow_refl]. Qed.

Lemma keeps base {A} (m : AppOp A) :
  (∀ db, good None db → good None (m db).2 ∧ receipts_grow db (m db).2) → preserves (kept base) m.
Proof. intros Hm db [Hg Hgrow]. destruct (Hm db Hg). split; [done|]. by eapply receipts_grow_trans. Qed.

(** What every step keeps, a list of steps keeps. *)
Definition step_keeps (I : AppDb → Prop) : Prop :=
  ∀ c actor run index causation now record,
    preserves I (insert_step_mutation constraint_failed c actor run index causation (step_key run index) now record).

Lemma record_steps_keeps I trace steps index now : step_keeps I → preserves I (record_steps constraint_failed trace steps index now).
Proof.
  intros HI. revert trace index. induction steps as [|step steps IH]; intros trace index; simpl; [apply preserves_ret|].
  apply preserves_bind; [|intros a; apply IH]. apply preserves_map, HI.
Qed.

Lemma persist_steps_keeps I trace steps now : step_keeps I → preserves I (persist_profile_steps constraint_failed trace steps now).
Proof.
  intros HI. unfold persist_profile_steps. apply preserves_bind; [apply preserves_lift|intros _].
  apply preserves_bind; [apply preserves_lift|intros index].
  apply preserves_bind; [by apply record_steps_keeps|intros t]. destruct (_ !! _); [apply preserves_ret|apply preserves_lift].
Qed.

Lemma kept_steps base : step_keeps (kept base).
Proof. intros c actor run index causation now record. apply keeps. intros db Hg. by apply step_good. Qed.

(** A step changes neither runs nor drafts. *)
Definition untouched (db0 db : AppDb) : Prop := spine_wf db ∧ runs db = runs db0 ∧ drafts db = drafts db0.

Lemma untouched_steps db0 : step_keeps (untouched db0).
Proof.
  intros c actor run index causation now record. apply preserves_map. intros db (Hs & Hr & Hd).
  match goal with |- context [mutate_with_receipt_id _ ?r ?w] =>
    pose proof (mutate_logged constraint_failed r w db Hs (slice_spares _ (fun id => slice_insert_step constraint_failed c run index record id now))) as Hm end.
  inversion Hm as [db' id rev Hu Hd' Hg Hs'|db' id rev Hf Hx Hd' Hg Hs'|db1 db' before rev Hf Hx Hw Hd' Hg Hs' Hin|err db1 db' Hf Hx Hw Hd' Hg Hs'];
    unfold untouched, tables; cbn [snd]; rewrite Hd'; [done..| |done].
  apply insert_step_ok in Hw as (_ & step & _ & Ht). unfold tables in Ht. by rewrite Ht.
Qed.

Lemma record_steps_trace trace steps index now db trace' db' :
  record_steps constraint_failed trace steps index now db = (Ok trace', db') →
  Trace.client_id trace' = Trace.client_id trace ∧ Trace.run_id trace' = Trace.run_id trace.
Proof.
  revert trace index db. induction steps as [|step steps IH]; intros trace index db; simpl.
  - by intros [= <- _].
  - intros (t & db1 & Ht & Hr)%op_bind_ok. apply IH in Hr as [-> ->]. by apply op_map_ok in Ht as (a & _ & ->).
Qed.

Lemma persist_steps_trace trace steps now db trace' record db' :
  persist_profile_steps constraint_failed trace steps now db = (Ok (trace', record), db') →
  Trace.client_id trace' = Trace.client_id trace ∧ Trace.run_id trace' = Trace.run_id trace.
Proof.
  intros ([] & db1 & H1 & H)%op_bind_ok. injection H1 as H1 <-. apply op_bind_ok in H as (index & db2 & H2 & H). injection H2 as H2 <-.
  apply op_bind_ok in H as (t & db3 & H3 & H). apply record_steps_trace in H3 as [<- <-].
  destruct (_ !! _); [|done]. by injection H as <- _ _.
Qed.

Lemma read_quote_reads c row : reads (read_quote result_fields c row).
Proof.
  destruct row as [row|]; [|done]. apply reads_bind; [done|intros rev]. apply reads_map. unfold attach_job_summary.
  case_match; [|done]. by apply reads_bind.
Qed.

Lemma draft_for_run_reads c run : reads (draft_for_run result_fields c run).
Proof. apply reads_bind; [done|]. intros row. apply read_quote_reads. Qed.

Lemma draft_names run input pd config now d :
  draft_from_profile_run run input pd config now = Ok d → QuoteDraft.run_id d = run ∧ QuoteDraft.draft_id d = "qd_" +:+ run.
Proof.
  unfold draft_from_profile_run. destruct (evaluate_guardrails _ _ _ _ _ _ _) as [g|]; [|done]. cbn [mbind Result_bind]. by intros [= <-].
Qed.

Lemma persist_kept base started prepared db :
  prepare_quote_builder started = Ok prepared → kept base db → pending_wf db started →
  kept base (persist_prepared_quote_builder constraint_failed result_fields prepared db).2.
Proof.
  intros Hprep Hkept Hpend. unfold persist_prepared_quote_builder. rewrite (proj1 (prepared_inv _ _ Hprep)).
  set (trace := trace_resume _ _ _ _). set (now := wrapping_add_u64 _ 1).
  unfold op_bind at 1. pose proof (persist_steps_keeps _ trace (steps (profile_run prepared)) now (kept_steps db) db (kept_refl db (proj1 Hkept))) as Hsteps.
  destruct (persist_profile_steps _ _ _ _ db) as [[[trace' record]|e] db1] eqn:Hp; cbn [snd] in Hsteps;
    [|split; [apply Hsteps|eapply receipts_grow_trans; [apply Hkept|apply Hsteps]]].
  apply persist_steps_trace in Hp as [Hc Hrun]. destruct Hsteps as [Hg1 Hgrow1].
  unfold op_bind at 1, op_lift at 1.
  destruct (draft_from_profile_run _ _ _ _ _) as [d|e] eqn:Hd; [|by split; [|eapply receipts_grow_trans; [apply Hkept|]]].
  set (at_ms := wrapping_add_u64 _ (len _)) in *.
  pose proof (draft_names _ _ _ _ _ _ Hd) as [Hdr Hdi].
  assert (Hstage := stage_good constraint_failed trace' d record at_ms db1). cbv zeta in Hstage.
  rewrite Hc, Hrun in Hstage. destruct Hstage as [Hg2 Hgrow2]; [done|by eapply key_used_grow| |done|done|].
  { by exists started, prepared, d, at_ms, at_ms. }
  unfold op_bind at 1. pose proof (stage_failed constraint_failed trace' d record at_ms db1) as Hfail.
  destruct (trace_stage_draft _ _ _ _ _ db1) as [[trace2|e] db2] eqn:Hs; cbn [fst snd] in *.
  2: { split; [by eapply Hfail|]. eapply receipts_grow_trans; [apply Hkept|]. by eapply receipts_grow_trans. }
  assert (Ht2 : Trace.client_id trace2 = Trace.client_id trace' ∧ Trace.run_id trace2 = Trace.run_id trace').
  { unfold trace_stage_draft in Hs. apply op_bind_ok in Hs as (o & db3 & _ & Hs). by injection Hs as <- _. }
  destruct Ht2 as [Hc2 Hr2]. unfold trace_finish.
  match goal with |- context [finish_run _ ?c _ ?t] =>
    pose proof (finish_good constraint_failed _ c RunStaged t db2 Hg2) as Hfin; set (terminal := t) in * end.
  cbv zeta in Hfin. cbn [finish_client_id finish_run_id] in Hfin. rewrite Hc2, Hr2, Hc, Hrun in Hfin.
  destruct Hfin as [Hg3 Hgrow3]; [by right|].
  assert (Hall : ∀ db3, good None db3 → receipts_grow db2 db3 → kept base db3).
  { intros db3 Hg Hgr. split; [done|]. eapply receipts_grow_trans; [apply Hkept|]. eapply receipts_grow_trans; [exact Hgrow1|].
    by eapply receipts_grow_trans. }
  unfold op_bind at 1. rewrite Hc2, Hr2, Hc, Hrun.
  destruct (finish_run _ _ _ _ db2) as [[r|e] db3]; cbn [snd] in *; [|by apply Hall].
  refine (preserves_reads (kept base) _ _ db3 (Hall _ Hg3 Hgrow3)).
  apply reads_bind; [done|intros run]. apply reads_bind; [apply reads_lift|intros run'].
  apply reads_bind; [apply draft_for_run_reads|done].
Qed.

Lemma finish_started_good started now db :
  good None db → pending_wf db started →
  good None (finish_started started now db).2 ∧ receipts_grow db (finish_started started now db).2.
Proof.
  intros Hg Hp. unfold finish_started. destruct (prepare_quote_builder started) as [prepared|err] eqn:Hprep.
  - unfold op_map, op_bind, op_ret. pose proof (persist_kept db started prepared db Hprep (kept_refl db Hg) Hp) as H.
    by destruct (persist_prepared_quote_builder _ _ _ _) as [[]].
  - unfold op_map, op_bind, op_ret, fail_started_quote_builder.
    match goal with |- context [finish_run _ ?c _ ?t] =>
      pose proof (finish_good constraint_failed None c RunFailed t db Hg (or_introl eq_refl)) as H end.
    by destruct (finish_run _ _ _ _ _) as [[]].
Qed.

(** ** Decisions *)

Lemma require_draft_cases c id db :
  match drafts db !! (c, id) with
  | None => require_draft result_fields c id db = (Err (StoreError.Domain "quote_draft_not_found"), db)
  | Some row => ∃ d, require_draft result_fields c id db = (Ok d, db) ∧ quote d = quote (draft_from_row row 0)
  end.
Proof.
  unfold require_draft, get_draft, read_tables, op_bind. cbn.
  destruct (drafts db !! (c, id)) as [row|]; [|done]. cbn. unfold op_map, op_bind, attach_job_summary, current_revision. cbn.
  destruct (QuoteDraftRow.outbox_job_id row) eqn:Hjob; unfold op_bind, op_ret; cbn; eexists; (split; [reflexivity|]);
    unfold draft_from_row; cbn; by rewrite ?Hjob.
Qed.

(** The row a decision is made on. *)
Definition awaits (db : AppDb) (k : string * string) (row : QuoteDraftRow.t) : Prop :=
  drafts db !! k = Some row ∧ QuoteDraftRow.status row = "staged".

Lemma require_staged_quote c id db :
  quotes_wf None db →
  (∃ row, awaits db (c, id) row ∧ require_staged result_fields c id db = (Ok (quote (draft_from_row row 0)), db)) ∨
  (∃ e, require_staged result_fields c id db = (Err e, db)).
Proof.
  intros Hq. unfold require_staged, op_bind. pose proof (require_draft_cases c id db) as Hd.
  destruct (drafts db !! (c, id)) as [row|] eqn:Hrow; [|right; eexists; by rewrite Hd]. destruct Hd as (d & -> & Hquote).
  rewrite Hquote. unfold op_lift, guard_err, op_ret. cbn.
  case_bool_decide as Hst; cbn; [|right; eauto]. left. exists row. split; [|done]. split; [done|].
  unfold draft_status_from_str in Hst.
  pose proof (row_job _ _ _ _ (wf_rows _ _ Hq _ _ Hrow)) as Hjob.
  destruct (string_eqb (QuoteDraftRow.status row) "approved") eqn:Ha; [done|].
  destruct (string_eqb (QuoteDraftRow.status row) "rejected") eqn:Hr; [done|].
  destruct (QuoteDraftRow.outbox_job_id row); [destruct Hjob as [Hj _]; by rewrite Hj in Ha|].
  apply elem_of_cons in Hjob as [->|Hj%list_elem_of_singleton]; [done|]. by rewrite Hj in Hr.
Qed.

(** The row is decided: the others, their runs and their jobs stay. *)
Lemma decided_wf db db' k row row' status now :
  quotes_wf None db → awaits db k row → receipts_grow db db' → jobs_grow db db' →
  drafts db' = alter (fun r => if string_eqb (QuoteDraftRow.status r) "staged" then row' else r) k (drafts db) →
  runs db' = alter (fun r => WorkflowRunRow.set_status r status now) (k.1, QuoteDraftRow.run_id row) (runs db) →
  run_steps db' = run_steps db →
  QuoteDraftRow.run_id row' = QuoteDraftRow.run_id row → QuoteDraftRow.status row' = status →
  QuoteDraftRow.client_id row' = QuoteDraftRow.client_id row → QuoteDraftRow.draft_id row' = QuoteDraftRow.draft_id row →
  decided row row' →
  match QuoteDraftRow.outbox_job_id row' with
  | Some job => status = "approved" ∧ job = "qwj_" +:+ QuoteDraftRow.run_id row ∧ is_Some (jobs db' !! (k.1, job))
  | None => status = "rejected"
  end →
  (status = "approved" → logged_as (approved_by k row') db') →
  quotes_wf None db'.
Proof.
  intros Hq [Hrow Hst] Hg Hj Hdr Hruns Hsteps Hrun <- Hc Hid Hdec Hjob Happ. pose proof (wf_rows _ _ Hq _ _ Hrow) as Hwf.
  split; [|by eapply steps_grow; [| |apply (wf_steps _ _ Hq)]].
  intros k' r. rewrite Hdr, lookup_alter_Some. intros [(<- & r0 & Hr0 & ->)|[Hne Hk]].
  - rewrite Hrow in Hr0. injection Hr0 as <-. rewrite Hst, string_eqb_refl.
    destruct Hwf as [(? & ? & ?) _ Hs Hf (st & Hm & Hd) _ _]. split; rewrite ?Hrun, ?Hc, ?Hid; [done| |by eapply key_used_grow| | | |done].
    + intros r. rewrite Hruns, lookup_alter_Some. intros [(_ & r0 & _ & ->)|[[] _]]; done.
    + destruct Hf as [Hf|[[=] _]]. left. by eapply key_used_grow.
    + assert (row = st) as <-. { destruct Hd as [->|[(? & ? & ->)|(? & ->)]]; done. } by exists row.
    + destruct (QuoteDraftRow.outbox_job_id row'); [done|]. rewrite Hjob. right. by left.
  - apply (row_wf_grow None db); [done..| |by apply wf_rows]. rewrite Hruns. apply lookup_alter_ne. intros [= H1 H2]. apply Hne.
    rewrite (row_of_run _ _ _ _ k.1 (QuoteDraftRow.run_id row) Hq Hk (eq_sym H1) (eq_sym H2)).
    destruct (row_key _ _ _ _ Hwf) as (_ & _ & <-). by destruct k.
Qed.

Lemma approve_spares ctx id run job : spares_receipts (fun _ => approve_write constraint_failed ctx id run job).
Proof.
  intros receipt db db' Hw. eapply enqueues_only_seq; [| |exact Hw]; [apply slice_write_update|].
  apply enqueues_only_seq; [apply slice_write_update|apply enqueue_within_enqueues].
Qed.

Lemma approve_write_ok ctx id run job db db1 :
  approve_write constraint_failed ctx id run job db = (Ok tt, db1) →
  drafts db1 = alter (fun r => if string_eqb (QuoteDraftRow.status r) "staged"
    then QuoteDraftRow.approve r (NewOutboxJob.job_id job) (u64_as_i64 (ctx_now_ms ctx)) else r) (ctx_client_id ctx, id) (drafts db) ∧
  runs db1 = alter (fun r => WorkflowRunRow.set_status r "approved" (u64_as_i64 (ctx_now_ms ctx))) (ctx_client_id ctx, run) (runs db) ∧
  run_steps db1 = run_steps db ∧
  jobs_grow db db1 ∧ is_Some (jobs db1 !! (ctx_client_id ctx, NewOutboxJob.job_id job)).
Proof.
  unfold approve_write, update_staged, set_run_status, update_tables, op_bind. cbn.
  unfold enqueue_within. case_decide; [done|]. intros [= <-]. split_and!; [done..| |]; unfold jobs_grow; rewrite jobs_set.
  - intros k Hk. apply lookup_insert_is_Some'. by right.
  - by rewrite lookup_insert_eq.
Qed.

Lemma alter_at {A} (f g : A → A) (k : string * string) (m : gmap (string * string) A) x :
  m !! k = Some x → f x = g x → alter f k m = alter g k m.
Proof.
  intros Hk Hfg. apply map_eq. intros k'. rewrite !lookup_alter. case_decide; [subst; by rewrite Hk; simpl; rewrite Hfg|done].
Qed.

Lemma approve_good ctx id row db :
  good None db → awaits db (ctx_client_id ctx, id) row →
  require_guardrail_approver (guardrails_from_json (QuoteDraftRow.guardrails_json row) (QuoteDraftRow.guardrail_config_json row))
    (ctx_actor_id ctx) = Ok tt →
  let d := quote (draft_from_row row 0) in
  good None (approve_commit constraint_failed ctx d id (quote_job d) db).2 ∧
  receipts_grow db (approve_commit constraint_failed ctx d id (quote_job d) db).2.
Proof.
  intros Hgood Haw Hauth d. unfold approve_commit, mutate.
  apply (mutation_good constraint_failed None None); [done|apply approve_spares|done|].
  intros db1 db' before rev _ (Hdr & Hruns & Hsteps & Hjobs1 & Hjob)%approve_write_ok Ht Hjobs Hgrow Hin.
  set (row' := QuoteDraftRow.approve row (NewOutboxJob.job_id (quote_job d)) (u64_as_i64 (ctx_now_ms ctx))).
  apply (decided_wf db db' (ctx_client_id ctx, id) row row' "approved" (u64_as_i64 (ctx_now_ms ctx)));
    [by destruct Hgood|done|done|by intros k; rewrite Hjobs; apply Hjobs1| |by rewrite Ht|by rewrite Ht|done..|right; left; by eexists _, _| |].
  - rewrite Ht, Hdr. eapply alter_at; [by destruct Haw|]. destruct Haw as [_ Hst]. by rewrite Hst.
  - cbn. split; [done|]. split; [done|]. by rewrite Hjobs.
  - intros _. eexists. split; [exact Hin|]. split_and!; [done..|by apply is_applied_row|done].
Qed.

Lemma reject_good ctx id row db :
  good None db → awaits db (ctx_client_id ctx, id) row →
  good None (reject_commit constraint_failed ctx (quote (draft_from_row row 0)) id db).2 ∧
  receipts_grow db (reject_commit constraint_failed ctx (quote (draft_from_row row 0)) id db).2.
Proof.
  intros Hgood Haw. unfold reject_commit, mutate.
  apply (mutation_good constraint_failed None None); [done| |done|].
  - apply slice_write_spares_receipts, slice_write_seq; apply slice_write_update.
  - intros db1 db' before rev _ [= <-] Ht Hjobs Hgrow _.
    set (row' := QuoteDraftRow.reject row (u64_as_i64 (ctx_now_ms ctx))).
    apply (decided_wf db db' (ctx_client_id ctx, id) row row' "rejected" (u64_as_i64 (ctx_now_ms ctx)));
      [by destruct Hgood|done|done|by intros k; rewrite Hjobs| |by rewrite Ht|by rewrite Ht|done..|right; right; by eexists| |done].
    + rewrite Ht. cbn. eapply alter_at; [by destruct Haw|]. destruct Haw as [_ Hst]. by rewrite Hst.
    + cbn. destruct Haw as [Hrow Hst]. pose proof (row_job _ _ _ _ (wf_rows _ _ (proj2 Hgood) _ _ Hrow)) as Hjob.
      destruct (QuoteDraftRow.outbox_job_id row); [|done]. destruct Hjob as [Hj _]. by rewrite Hj in Hst.
Qed.

Lemma decide_good ctx id action db :
  good None db →
  good None (apply_draft_action constraint_failed result_fields ctx id action db).2 ∧
  receipts_grow db (apply_draft_action constraint_failed result_fields ctx id action db).2.
Proof.
  intros Hgood. pose proof (require_staged_quote (ctx_client_id ctx) id db (proj2 Hgood)) as Hstaged. destruct action; simpl.
  - unfold op_bind, op_lift. pose proof (require_draft_cases (ctx_client_id ctx) id db) as Hd.
    destruct (drafts db !! (ctx_client_id ctx, id)) as [row|] eqn:Hrow; [|rewrite Hd; by apply kept_refl].
    destruct Hd as (d & -> & Hquote). rewrite Hquote.
    destruct (require_guardrail_approver _ _) as [[]|e] eqn:Hauth; [|by apply kept_refl].
    unfold approve_draft, op_bind. destruct Hstaged as [(row' & Haw & ->)|(e & ->)]; [|by apply kept_refl].
    destruct (Haw) as [Hrow' _]. rewrite Hrow in Hrow'. injection Hrow' as <-. by apply approve_good.
  - unfold reject_draft, op_bind. destruct Hstaged as [(row & Haw & ->)|(e & ->)]; [|by apply kept_refl]. by apply reject_good.
Qed.

(** ** All requests *)

Definition world_wf (w : World) : Prop := good None (w_db w) ∧ Forall (pending_wf (w_db w)) (w_pending w).

Lemma pending_grow db db' pending : receipts_grow db db' → Forall (pending_wf db) pending → Forall (pending_wf db') pending.
Proof. intros Hg H. eapply Forall_impl; [exact H|]. intros started. by apply key_used_grow. Qed.

Lemma serve_wf w call : allowed call → world_wf w → world_wf (serve w call).
Proof.
  intros Ha [Hg Hp]. destruct call as [input ctx|n now|ctx id action|f]; simpl.
  - destruct (start_good constraint_failed input ctx (w_db w) Hg) as (Hg' & Hgrow & Hst).
    destruct (start_quote_builder _ _ _ _) as [[started|e] db]; cbn [fst snd] in *; (split; [done|]); simpl.
    + apply Forall_app. split; [by eapply pending_grow|]. apply Forall_singleton. by apply Hst.
    + by eapply pending_grow.
  - destruct (w_pending w !! n) as [started|] eqn:Hn; [|done].
    destruct (finish_started_good started now (w_db w) Hg) as [Hg' Hgrow]; [by eapply Forall_lookup_1|].
    split; [done|]. by eapply pending_grow.
  - destruct (decide_good ctx id action (w_db w) Hg) as [Hg' Hgrow]. split; [done|]. by eapply pending_grow.
  - destruct Hg as [Hsp [Hr Hs]]. destruct (Ha _ Hsp) as (Hsp' & Hd & Hru & Hst & Hj & Hgrow).
    split; [|by eapply pending_grow]. split; [done|]. split; simpl; [|by eapply steps_grow].
    intros k row. rewrite Hd. intros Hk. apply (row_wf_grow None (w_db w)); [done..|by rewrite Hru|by apply Hr].
Qed.

Lemma serve_all_wf w calls : Forall allowed calls → world_wf w → world_wf (serve_all w calls).
Proof. intros Hc. revert w. induction Hc as [|call calls Ha Hcs IH]; intros w Hw; [done|]. apply IH. by apply serve_wf. Qed.

(** ** What an approval says about prices *)

(** serde reads prices as integers of 64 bits. *)
Definition configs_fit : Prop :=
  ∀ v config, config_from_value v = Ok config → Forall (fun p => is_i64 (QuoteGuardrailPrice.unit_cents p)) (QuoteGuardrailConfig.price_lists config).

Lemma config_prices v config :
  configs_fit → parse_guardrail_config config_from_value v = Ok config →
  Forall (fun p => is_i64 (QuoteGuardrailPrice.unit_cents p)) (QuoteGuardrailConfig.price_lists config).
Proof.
  intros Hv. unfold parse_guardrail_config.
  destruct (Json.is_null v); [|destruct (config_from_value v) as [c|] eqn:Hc; [|done]]; cbn [mbind Result_bind];
    destruct (validate_prices _); [|done|..|done]; cbn [mbind Result_bind]; intros [= <-]; [constructor|by eapply Hv].
Qed.

Lemma exact_line_units input items :
  Forall (exact_line input) items →
  Forall (fun line => (0 < QuoteLineItem.unit_cents line)%Z ∧ is_i64 (QuoteLineItem.unit_cents line)) (line_item <$> items).
Proof.
  intros Hx. apply Forall_fmap. eapply Forall_impl; [exact Hx|]. intros item (Hu & Hq & Ht & Hr & _). cbn. split; [done|].
  unfold is_i64, i64_min, i64_max in *. nia.
Qed.

(** Who may approve a prepared draft. *)
Lemma prepared_approver started prepared ms d config actor :
  configs_fit → prepare_quote_builder started = Ok prepared →
  draft_from_profile_run (StartedQuoteRun.run_id started) (StartedQuoteRun.input started)
    (draft (profile_run prepared)) (StartedQuoteRun.guardrail_config_json started) ms = Ok d →
  parse_guardrail_config config_from_value (StartedQuoteRun.guardrail_config_json started) = Ok config →
  require_guardrail_approver (QuoteDraft.guardrails d) actor = Ok tt →
  QuoteGuardrailConfig.enabled config = true →
  Exists (out_of_policy config (StartedQuoteRun.input started)) (QuoteDraft.line_items d) →
  ∀ a, QuoteGuardrailConfig.major_change_approver_id config = Some a → actor = a.
Proof.
  intros Hf Hprep Hd Hc Hact Hen Hex. pose proof (prepared_inv _ _ Hprep) as (_ & Hv & _). apply validate_run_exact in Hv as [_ Hx].
  unfold draft_from_profile_run in Hd. destruct (evaluate_guardrails _ _ _ _ _ _ _) as [g|] eqn:Hg; [|done].
  cbn [mbind Result_bind] in Hd. injection Hd as <-. cbn in Hact, Hex.
  destruct (guardrails_decide (StartedQuoteRun.input started) _ _ config g (exact_line_units _ _ Hx) Hc (config_prices _ _ Hf Hc) Hg)
    as [Hst Hok].
  apply Hok; [done|]. by apply Hst.
Qed.

(** ** Claims *)

(** Quotes are well formed as long as requests are served one at a time.  From a
    well-formed database, whatever runs are started, prepared, written, failed or decided
    by whomever in whatever order, and whatever other slices and the delivery of jobs do: every draft is stored under its own
    and its run's name, was staged for a run that was prepared, and has its run's status;
    it is approved exactly when it names its job, which is in the outbox, and then the log
    holds an approval of it by somebody its guardrails admit; and every step of a trace
    names the receipt of the mutation that wrote it. *)
Lemma quotes_always_wf w calls :
  Forall allowed calls → world_wf w →
  let db := w_db (serve_all w calls) in
  (∀ k row, drafts db !! k = Some row → row_wf None db k row) ∧
  (∀ k step, run_steps db !! k = Some step → logged_as (wrote_step k step) db).
Proof. intros Hc Hw. destruct (serve_all_wf w calls Hc Hw) as [[_ [Hr Hs]] _]. by split. Qed.

(** C12: A quote out of policy is approved by the configured approver alone.  Whatever
    requests have come in, served one at a time: behind an approved draft there is a run that was prepared and
    the draft built from it, with the lines and the subtotal that are stored, and an
    applied approval in the log; and if the run's guardrails were on, one of the lines is
    out of their policy, and their evaluation reads back as it was written, that approval
    is the configured approver's. *)
Theorem escalated_quote_needs_approver w calls k row :
  configs_fit → Forall allowed calls → world_wf w →
  drafts (w_db (serve_all w calls)) !! k = Some row → QuoteDraftRow.status row = "approved" →
  ∃ started prepared ms d r,
    prepare_quote_builder started = Ok prepared ∧
    draft_from_profile_run (StartedQuoteRun.run_id started) (StartedQuoteRun.input started)
      (draft (profile_run prepared)) (StartedQuoteRun.guardrail_config_json started) ms = Ok d ∧
    QuoteDraftRow.line_items_json row = lines_text (QuoteDraft.line_items d) ∧
    QuoteDraftRow.subtotal_cents row = QuoteDraft.subtotal_cents d ∧
    r ∈ Db.receipts (w_db (serve_all w calls)) ∧ Receipt.client_id r = k.1 ∧ Receipt.entity_kind r = QUOTE_ENTITY_KIND ∧
    Receipt.entity_id r = k.2 ∧ Receipt.change_kind r = "approve" ∧ Receipt.is_applied r = true ∧
    (parse_guardrails (guardrails_text (QuoteDraft.guardrails d)) = Some (QuoteDraft.guardrails d) →
     ∀ config, parse_guardrail_config config_from_value (StartedQuoteRun.guardrail_config_json started) = Ok config →
      QuoteGuardrailConfig.enabled config = true →
      Exists (out_of_policy config (StartedQuoteRun.input started)) (QuoteDraft.line_items d) →
      ∀ a, QuoteGuardrailConfig.major_change_approver_id config = Some a → Receipt.actor_id r = a).
Proof.
  intros Hf Hc Hw Hrow Hst. destruct (serve_all_wf w calls Hc Hw) as [[_ [Hr _]] _].
  destruct (Hr _ _ Hrow) as [_ _ _ _ (staged & (started & prepared & d & ms & now & Hprep & Hd & ->) & Hdec) _ Happ].
  destruct (Happ Hst) as (r & Hin & Hcl & Hk & He & Hch & Ha & Hauth).
  exists started, prepared, ms, d, r.
  assert (Hsame : QuoteDraftRow.line_items_json row = lines_text (QuoteDraft.line_items d) ∧
    QuoteDraftRow.subtotal_cents row = QuoteDraft.subtotal_cents d ∧
    QuoteDraftRow.guardrails_json row = Some (guardrails_text (QuoteDraft.guardrails d))).
  { by destruct Hdec as [->|[(? & ? & ->)|(? & ->)]]. }
  destruct Hsame as (H1 & H2 & H3). split_and!; [done..|]. intros Hback config Hcfg Hen Hex a Ha'.
  rewrite H3 in Hauth. unfold guardrails_from_json in Hauth. cbn [mbind option_bind] in Hauth. rewrite Hback in Hauth.
  by eapply prepared_approver.
Qed.

Definition running_without_draft (c run : string) (row : WorkflowRunRow.t) (db : AppDb) : Prop :=
  runs db !! (c, run) = Some row ∧ WorkflowRunRow.status row = "running" ∧ drafts_of_run c run (tables db) = [].

(** A quote whose guardrails cannot be evaluated stays running.  If evaluating the
    guardrails fails - a price too far from its list price is enough - after the run was
    prepared, writing the run fails and nothing marks it as failed: it stays [running]
    without a draft, and from then on the same request is answered with that run. *)
Theorem failed_persist_sticks started prepared err row db :
  spine_wf db → prepare_quote_builder started = Ok prepared →
  evaluate_guardrails sha256_hex value_text config_from_value config_to_value (StartedQuoteRun.input started)
    (line_item <$> line_items (draft (profile_run prepared))) (StartedQuoteRun.guardrail_config_json started) = Err err →
  running_without_draft (StartedQuoteRun.client_id started) (StartedQuoteRun.run_id started) row db →
  ∃ e db', persist_prepared_quote_builder constraint_failed result_fields prepared db = (Err e, db') ∧
    running_without_draft (StartedQuoteRun.client_id started) (StartedQuoteRun.run_id started) row db' ∧ drafts db' = drafts db ∧
    ∀ permit input ctx, run_client_id ctx = StartedQuoteRun.client_id started →
      quote_run_id (run_idempotency_key ctx) = StartedQuoteRun.run_id started →
      ∃ run, run_quote_builder constraint_failed result_fields permit input ctx db' = (Ok (Build_QuoteWorkflowRunResponse run None), db') ∧
        WorkflowRun.status run = RunRunning.
Proof.
  intros Hsp Hprep Hev (Hrow & Hst & Hno).
  assert (Hp : ∃ e db', persist_prepared_quote_builder constraint_failed result_fields prepared db = (Err e, db') ∧ untouched db db').
  { unfold persist_prepared_quote_builder. rewrite (proj1 (prepared_inv _ _ Hprep)).
    set (trace := trace_resume _ _ _ _). set (now := wrapping_add_u64 _ 1).
    assert (Hkeep := persist_steps_keeps (untouched db) trace (steps (profile_run prepared)) now (untouched_steps db) db).
    specialize (Hkeep (conj Hsp (conj eq_refl eq_refl))). unfold op_bind at 1.
    destruct (persist_profile_steps _ _ _ _ db) as [[[trace' record]|e] db1]; [|by eauto].
    unfold op_bind at 1, op_lift, draft_from_profile_run. rewrite Hev. cbn. eauto. }
  destruct Hp as (e & db' & Hp & _ & Hruns & Hdr). exists e, db'. split; [done|]. split.
  { unfold running_without_draft, drafts_of_run in *. by rewrite Hruns, Hdr. }
  split; [done|].
  intros permit input ctx Hc Hid. exists (run_from_row row).
  unfold run_quote_builder, existing_run_response, get_run, draft_for_run, read_tables, op_bind.
  rewrite Hc, Hid, Hruns, Hrow. cbn. unfold drafts_of_run in *. rewrite Hdr, Hno. cbn. split; [done|]. by rewrite Hst.
Qed.
End flow.

(** ** A quote of an approver *)

Definition flow_config (price : Z) : QuoteGuardrailConfig.t :=
  QuoteGuardrailConfig.mk true (Some 500) (Some 1000) (Some "jordan") [QuoteGuardrailPrice.mk "LINE-1" None None price].
Definition flow_config_from (v : Json.Value) : Result string QuoteGuardrailConfig.t :=
  match v with
  | Json.Int price => if bool_decide (is_i64 price) then Ok (flow_config price) else Err "out of range"
  | _ => Err "expected a number"
  end.

Definition flow_input (text : string) : QuoteWorkflowInput.t := QuoteWorkflowInput.mk "email" "msg-1" [] "Dana" None text.
Definition flow_line : QuoteLineItem.t :=
  QuoteLineItem.mk "LINE-1" None "2 gallons primer at $20.00" 2 2000 4000 "2 gallons primer at $20.00".

(** The one evaluation of the demonstration, and its text. *)
Definition flow_evaluation : option QuoteGuardrailEvaluation :=
  match evaluate_guardrails (fun _ => "0011223344556677") (fun _ => "{}") flow_config_from (fun _ => Json.Null)
          (flow_input "2 gallons primer at $20.00") [flow_line] (Json.Int 2500) with
  | Ok e => Some e
  | Err _ => None
  end.

Definition flow_texts : QuoteTexts := {|
  sha256_hex := fun _ => "0011223344556677";
  value_text := fun _ => "{}";
  parse_value := fun _ => None;
  config_from_value := flow_config_from;
  config_to_value := fun _ => Json.Null;
  input_text := fun _ => "{}";
  traced_text := fun _ => "[]";
  trace_text := fun _ => "[]";
  parse_trace := fun _ => None;
  lines_text := fun _ => "[]";
  QuoteWorkflow.parse_lines := fun _ => None;
  notes_text := fun _ => "[]";
  parse_notes := fun _ => None;
  guardrails_text := fun _ => "{}";
  parse_guardrails := fun _ => flow_evaluation;
  quote_text := fun _ => "{}";
  build_sha := None;
|}.

Definition flow_new : AppDb := spine_new (mk_tables ∅ empty_slices).
Definition flow_ctx (price : Z) : QuoteRunContext := {|
  run_client_id := "acme"; run_actor_id := "agent"; run_profile_id := "built_in"; run_profile_config_json := Json.Null;
  run_guardrail_config_json := Json.Int price; run_idempotency_key := "key-1"; run_now_ms := 100;
|}.
Definition flow_decider (actor : string) : UserActionContext := Build_UserActionContext "acme" actor None ("decide-" +:+ actor) 500.
Definition flow_draft : string := "qd_qwr_0011223344556677".

(** A quote a fifth below its list price; sam's approval is refused, jordan's is not. *)
Definition flow_calls : list Call :=
  [CStart (flow_input "2 gallons primer at $20.00") (flow_ctx 2500); CFinish 0 200;
   CDecide (flow_decider "sam") flow_draft ApproveQuote; CDecide (flow_decider "jordan") flow_draft ApproveQuote].

Definition no_fields (_ : string) : option bool * option string := (None, None).
Definition flow_world : World := serve_all (texts := flow_texts) "UNIQUE" no_fields (Build_World flow_new []) flow_calls.

Lemma flow_new_wf : good (texts := flow_texts) None flow_new.
Proof. split; [apply spine_wf_new|]. split; intros k row; [change (drafts flow_new) with (∅ : gmap (string * string) QuoteDraftRow.t)|change (run_steps flow_new) with (∅ : gmap (string * string * Z) WorkflowStepRow.t)]; by rewrite lookup_empty. Qed.

Lemma flow_allowed : Forall allowed flow_calls.
Proof. by repeat constructor. Qed.

Lemma flow_approved :
  match drafts (w_db flow_world) !! ("acme", flow_draft) with
  | Some row => QuoteDraftRow.status row = "approved" ∧ QuoteDraftRow.outbox_job_id row = Some "qwj_qwr_0011223344556677"
  | None => False
  end.
Proof. by vm_compute. Qed.

Lemma quotes_always_wf_witness :
  ∃ row, drafts (w_db flow_world) !! ("acme", flow_draft) = Some row ∧
    is_Some (jobs (w_db flow_world) !! ("acme", "qwj_qwr_0011223344556677")).
Proof.
  pose proof flow_approved as Hex. destruct (drafts (w_db flow_world) !! ("acme", flow_draft)) as [row|] eqn:Hrow; [|destruct Hex].
  exists row. split; [reflexivity|].
  destruct (quotes_always_wf (texts := flow_texts) "UNIQUE" no_fields (Build_World flow_new []) flow_calls flow_allowed
    (conj flow_new_wf (Forall_nil_2 _))) as [Hrows _].
  pose proof (row_job _ _ _ _ (Hrows _ _ Hrow)) as Hjob. rewrite (proj2 Hex) in Hjob. exact (proj2 (proj2 Hjob)).
Defined.

Lemma flow_config_fits v config :
  flow_config_from v = Ok config → Forall (fun p => is_i64 (QuoteGuardrailPrice.unit_cents p)) (QuoteGuardrailConfig.price_lists config).
Proof.
  unfold flow_config_from. destruct v as [|b|price|f|t|l|o]; try done. destruct (decide (is_i64 price)) as [Hp|Hn].
  - rewrite bool_decide_eq_true_2 by done. intros [= <-]. constructor; [exact Hp|constructor].
  - by rewrite bool_decide_eq_false_2.
Qed.

Lemma flow_configs_fit : configs_fit (texts := flow_texts).
Proof. exact flow_config_fits. Qed.

Lemma escalated_quote_needs_approver_witness :
  ∃ r, r ∈ Db.receipts (w_db flow_world) ∧ Receipt.entity_id r = flow_draft ∧ Receipt.change_kind r = "approve" ∧
    Receipt.is_applied r = true.
Proof.
  pose proof flow_approved as Hex. destruct (drafts (w_db flow_world) !! ("acme", flow_draft)) as [row|] eqn:Hrow; [|destruct Hex].
  destruct (escalated_quote_needs_approver (texts := flow_texts) "UNIQUE" no_fields (Build_World flow_new []) flow_calls
    ("acme", flow_draft) row flow_configs_fit flow_allowed (conj flow_new_wf (Forall_nil_2 _)) Hrow (proj1 Hex))
    as (started & prepared & ms & d & r & _ & _ & _ & _ & Hin & _ & _ & He & Hc & Ha & _).
  exists r. split; [exact Hin|]. split; [exact He|]. split; [exact Hc|exact Ha].
Defined.

(** A price so far from its list price that the difference in basis points overflows. *)
Definition stuck_started : option (StartedQuoteRun.t * AppDb) :=
  match start_quote_builder (H := flow_texts) "UNIQUE" (flow_input "1 lot at $92233720368547758") (flow_ctx 1) flow_new with
  | (Ok started, db) => Some (started, db)
  | _ => None
  end.

Lemma failed_persist_sticks_witness :
  match stuck_started with
  | Some (started, db) => ∃ prepared e db' run,
      prepare_quote_builder started = Ok prepared ∧
      persist_prepared_quote_builder (H := flow_texts) "UNIQUE" no_fields prepared db = (Err e, db') ∧
      run_quote_builder (H := flow_texts) "UNIQUE" no_fields true (flow_input "1 lot at $92233720368547758") (flow_ctx 1) db'
      = (Ok (Build_QuoteWorkflowRunResponse run None), db') ∧ WorkflowRun.status run = RunRunning
  | None => False
  end.
Proof.
  assert (Hex : match stuck_started with
    | Some (started, db) =>
      StartedQuoteRun.client_id started = "acme" ∧ StartedQuoteRun.run_id started = "qwr_0011223344556677" ∧
      option_map WorkflowRunRow.status (runs db !! ("acme", "qwr_0011223344556677")) = Some "running" ∧
      drafts_of_run "acme" "qwr_0011223344556677" (tables db) = [] ∧
      match prepare_quote_builder started with
      | Ok prepared => is_ok (evaluate_guardrails (sha256_hex (QuoteTexts:=flow_texts)) (value_text (QuoteTexts:=flow_texts))
          (config_from_value (QuoteTexts:=flow_texts)) (config_to_value (QuoteTexts:=flow_texts)) (StartedQuoteRun.input started)
          (line_item <$> line_items (draft (profile_run prepared))) (StartedQuoteRun.guardrail_config_json started)) = false
      | Err _ => False
      end
    | None => False end) by (vm_compute; repeat split).
  assert (Hsp : ∀ started db, stuck_started = Some (started, db) → spine_wf db).
  { intros started db. unfold stuck_started.
    destruct (start_good (texts := flow_texts) "UNIQUE" (flow_input "1 lot at $92233720368547758") (flow_ctx 1) flow_new flow_new_wf) as [[Hs _] _].
    destruct (start_quote_builder _ _ _ _) as [[s|] db0]; [|discriminate]. intros [= <- <-]. exact Hs. }
  destruct stuck_started as [[started db]|]; [|exact Hex]. destruct Hex as (Hc & Hr & Hrow & Hno & Hex).
  destruct (prepare_quote_builder started) as [prepared|] eqn:Hp; [|destruct Hex].
  destruct (evaluate_guardrails _ _ _ _ _ _ _) as [|err] eqn:He; [discriminate Hex|].
  destruct (runs db !! ("acme", "qwr_0011223344556677")) as [row|] eqn:Hl; [|discriminate Hrow]. injection Hrow as Hst.
  rewrite <- Hc, <- Hr in Hl, Hno.
  destruct (failed_persist_sticks (texts := flow_texts) "UNIQUE" no_fields started prepared err row db (Hsp _ _ eq_refl) Hp He (conj Hl (conj Hst Hno)))
    as (e & db' & Hpers & _ & _ & Hagain).
  destruct (Hagain true (flow_input "1 lot at $92233720368547758") (flow_ctx 1) (eq_sym Hc) (eq_sym Hr)) as (run & Hrun & Hs).
  exists prepared, e, db', run. split; [reflexivity|]. split; [exact Hpers|]. split; [exact Hrun|exact Hs].
Defined.
