(* ===== verification/QuoteTrace.v ===== *)
(** * The trace of a quote run

    A request whose run is new, whose profile accepts it and whose guardrails can be
    evaluated is answered with a staged quote, and leaves its whole trace: every step of
    the profile in order, each caused by the one before it, from the start to the finish. *)

From Stdlib Require Import ZifyBool.
From S2P Require Import Prelude RustStd RustStr StoreCore StoreCoreProps AppOutbox AppOutboxProps Identity Schema SliceCore Operators WorkItems Calendar Json QuoteProfile QuoteGuardrails QuoteWorkflow QuoteProps QuoteFlow.
Import Spine Outbox Quotes.
Local Open Scope Z_scope.
#[local] Open Scope string_scope.
#[local] Open Scope list_scope.

Abbreviation drafts db := (quote_drafts (tables db)).
Abbreviation runs db := (workflow_runs (tables db)).
Abbreviation run_steps db := (workflow_steps (tables db)).

Section trace.
Context {texts : QuoteTexts} (constraint_failed : string) (result_fields : string → option bool * option string).

(** ** What a trace is *)

(** The row of a step. *)
Definition row_of_step (step : QuoteProfileStep.t) (row : WorkflowStepRow.t) : Prop :=
  WorkflowStepRow.node row = QuoteProfileStep.node step ∧
  WorkflowStepRow.node_kind row = step_kind_str (QuoteProfileStep.kind step) ∧
  WorkflowStepRow.decision row = QuoteProfileStep.decision step ∧
  WorkflowStepRow.input_values_json row = trace_text (trace_value <$> QuoteProfileStep.inputs step) ∧
  WorkflowStepRow.output_values_json row = trace_text (trace_value <$> QuoteProfileStep.outputs step).

(** From [index] on the run's rows are these steps; the receipt of each is caused by the one
    before it, the first one's by [cause], and the last receipt is [last]. *)
Fixpoint traced (db : AppDb) (c run : string) (cause : option string) (index : N) (steps : list QuoteProfileStep.t)
    (last : option string) : Prop :=
  match steps with
  | [] => cause = last
  | step :: steps => ∃ r row,
      r ∈ Db.receipts db ∧ run_steps db !! (c, run, Z.of_N index) = Some row ∧
      wrote_step (c, run, Z.of_N index) row r ∧ row_of_step step row ∧ Receipt.causation_id r = cause ∧
      traced db c run (Some (Receipt.receipt_id r)) (index + 1) steps last
  end.

Lemma traced_app db c run cause index steps1 steps2 mid last :
  traced db c run cause index steps1 mid → traced db c run mid (index + len steps1) steps2 last →
  traced db c run cause index (steps1 ++ steps2) last.
Proof.
  revert cause index. induction steps1 as [|step steps1 IH]; intros cause index; simpl.
  - intros ->. by rewrite N.add_0_r.
  - intros (r & row & Hin & Hrow & Hw & Hof & Hc & Ht) Hmore. exists r, row. do 5 (split; [done|]). apply IH; [done|].
    replace (index + 1 + len steps1)%N with (index + len (step :: steps1))%N by (unfold len; simpl; lia). done.
Qed.

Lemma strip_names r r' : Receipt.strip r' = Receipt.strip r →
  Receipt.receipt_id r' = Receipt.receipt_id r ∧ Receipt.causation_id r' = Receipt.causation_id r.
Proof. destruct r, r'. unfold Receipt.strip. simpl. by intros [=]. Qed.

Lemma traced_grow db db' c run cause index steps last :
  receipts_grow db db' → (∀ k row, run_steps db !! k = Some row → run_steps db' !! k = Some row) →
  traced db c run cause index steps last → traced db' c run cause index steps last.
Proof.
  intros Hg Hs. revert cause index. induction steps as [|step steps IH]; intros cause index; simpl; [done|].
  intros (r & row & Hin & Hrow & Hw & Hr & Hc & Ht). destruct (grow_lookup _ _ r Hg Hin) as (r' & Hin' & Heq).
  exists r', row. destruct (strip_names _ _ Heq) as [Hid Hcause]. split; [done|]. split; [by apply Hs|].
  split; [exact (wrote_step_strip (c, run, Z.of_N index) row _ _ Heq Hw)|]. split; [done|]. split; [by rewrite Hcause|]. rewrite Hid. by apply IH.
Qed.

(** ** A run that is new *)

(** Its keys and rows from a step on are unused. *)
Record unwritten (db : AppDb) (c run : string) (index : N) : Prop := {
  un_spine : spine_wf db;
  un_steps : ∀ j, (index ≤ j)%N → key_free db c (step_key run j) ∧ run_steps db !! (c, run, Z.of_N j) = None;
  un_finish : key_free db c (finish_key run);
}.

Lemma step_key_inj run i j : step_key run i = step_key run j → i = j.
Proof. unfold step_key. by intros H%string_app_inj_r%string_app_inj_r%fmt_dec_inj. Qed.

Lemma digits_not_letter n a s : is_digit a = false → fmt_dec n ≠ String a s.
Proof. intros Ha Hs. pose proof (fmt_dec_digits n) as Hd. rewrite Hs in Hd. unfold all_bytes in Hd. simpl in Hd. by rewrite Ha in Hd. Qed.

Lemma step_key_finish run i : step_key run i ≠ finish_key run.
Proof.
  unfold step_key, finish_key. change ":finish" with (":" +:+ "finish"). intros H%string_app_inj_r%string_app_inj_r.
  by apply digits_not_letter in H.
Qed.

Lemma step_key_start run i : step_key run i ≠ start_key run.
Proof.
  unfold step_key, start_key. change ":start" with (":" +:+ "start"). intros H%string_app_inj_r%string_app_inj_r.
  by apply digits_not_letter in H.
Qed.

Lemma finish_key_start run : finish_key run ≠ start_key run.
Proof. unfold finish_key, start_key. by intros H%string_app_inj_r. Qed.

(** One more key is used. *)
Definition uses_only (db db' : AppDb) (c key : string) : Prop :=
  ∀ c' k, key_used db' c' k → key_used db c' k ∨ c' = c ∧ k = key.

Lemma still_free db db' c key k : uses_only db db' c key → k ≠ key → key_free db c k → key_free db' c k.
Proof.
  intros Hu Hne Hf. destruct (key_free_or_used db' c k) as [|Hk]; [done|].
  destruct (Hu c k Hk) as [Hk'|[_ ->]]; [by destruct (key_used_not_free _ _ _ Hk')|done].
Qed.

(** ** Its writes *)

Lemma insert_step_fresh c run i step receipt now db :
  run_steps db !! (c, run, Z.of_N i) = None →
  ∃ row, WorkflowStepRow.receipt_id row = receipt ∧ row_of_step step row ∧
    insert_step_row constraint_failed c run i (step_record step) receipt now db
    = (Ok tt, set_tables db (set_workflow_steps (tables db) (<[(c, run, Z.of_N i) := row]> (run_steps db)))).
Proof.
  intros Hn. unfold insert_step_row. rewrite decide_False by (by apply eq_None_not_Some).
  eexists. split; [|split; [|unfold update_tables; reflexivity]]; [done|]. by split_and!.
Qed.

(** The step's row and its receipt are there. *)
Lemma step_written db db' c run i step row request before rev :
  unwritten db c run i → spine_wf db' → receipts_grow db db' → uses_only db db' c (step_key run i) →
  receipt_row request Applied None before (Some rev) (WorkflowStepRow.receipt_id row) ∈ Db.receipts db' →
  run_steps db' = <[(c, run, Z.of_N i) := row]> (run_steps db) → row_of_step step row →
  MutationRequest.client_id request = c → MutationRequest.correlation_id request = Some run →
  MutationRequest.idempotency_key request = step_key run i →
  unwritten db' c run (i + 1) ∧ (∀ k row, run_steps db !! k = Some row → run_steps db' !! k = Some row) ∧
  traced db' c run (MutationRequest.causation_id request) i [step] (Some (WorkflowStepRow.receipt_id row)).
Proof.
  intros [Hs Hst Hf] Hs' Hg Hu Hin Hrows Hrow Hc Hrun Hkey. split; [split; [done| |]|split].
  - intros j Hj. destruct (Hst j) as [Hfree Hnone]; [lia|]. split.
    + eapply still_free; [exact Hu| |done]. intros ?%step_key_inj. lia.
    + rewrite Hrows, lookup_insert_ne; [done|]. intros [= ?%N2Z.inj]. lia.
  - eapply still_free; [exact Hu|by intros ?%eq_sym%step_key_finish|done].
  - intros k r Hk. rewrite Hrows, lookup_insert_ne; [done|]. intros <-. destruct (Hst i) as [_ Hn]; [lia|]. by rewrite Hn in Hk.
  - eexists _, row. split; [exact Hin|]. split; [by rewrite Hrows, lookup_insert_eq|].
    split; [|by split]. split; [done|]. split; [done|]. split; [done|]. split; [by apply is_applied_row|]. by exists i.
Qed.

Lemma small_index i : (i + 1 < 4294967296)%N → next_index i = (i + 1)%N.
Proof. intros Hi. unfold next_index. by apply N.mod_small. Qed.

Lemma step_fresh c actor run i cause step now db :
  unwritten db c run i → (i + 1 < 4294967296)%N →
  ∃ receipt db', trace_step constraint_failed (Trace.mk c actor run i cause) (step_record step) now db
                 = (Ok (Trace.mk c actor run (i + 1) (Some receipt)), db') ∧
    unwritten db' c run (i + 1) ∧ runs db' = runs db ∧ drafts db' = drafts db ∧ receipts_grow db db' ∧
    (∀ k row, run_steps db !! k = Some row → run_steps db' !! k = Some row) ∧
    traced db' c run cause i [step] (Some receipt).
Proof.
  intros Hun Hi. unfold trace_step, insert_step_mutation, op_map, op_bind, op_ret. cbn.
  set (request := trace_request _ _ _ _ _ _ _ _ _ _).
  set (dw := fun receipt_id => insert_step_row constraint_failed c run i (step_record step) receipt_id now).
  destruct (un_steps _ _ _ _ Hun i) as [Hfree Hnone]; [lia|].
  destruct (insert_step_fresh c run i step (next_name db) now db Hnone) as (row & Hid & Hrow & Hw).
  destruct (mutate_logged_fresh constraint_failed request dw db _ (un_spine _ _ _ _ Hun)
    (slice_spares dw (fun id => slice_insert_step constraint_failed c run i (step_record step) id now)) Hfree eq_refl Hw)
    as (before & rev & db' & Hm & Hd & Hs' & Hg & Hin & Hu).
  rewrite Hm. cbn. exists (next_name db), db'.
  assert (Ht : tables db' = set_workflow_steps (tables db) (<[(c, run, Z.of_N i) := row]> (run_steps db)))
    by (unfold tables; by rewrite Hd).
  destruct (step_written db db' c run i step row request before rev) as (Hnext & Hkeep & Htr); try done; try (by rewrite Hid); try (by rewrite Ht).
  rewrite Hid in Htr. unfold advance. cbn. rewrite (small_index i Hi).
  do 2 (split; [done|]). split; [by rewrite Ht|]. split; [by rewrite Ht|]. split; [done|]. by split.
Qed.

Lemma record_steps_fresh c actor run i cause steps index now db :
  unwritten db c run i → (i + len steps < 4294967296)%N →
  ∃ last db', record_steps constraint_failed (Trace.mk c actor run i cause) steps index now db
              = (Ok (Trace.mk c actor run (i + len steps) last), db') ∧
    unwritten db' c run (i + len steps) ∧ runs db' = runs db ∧ drafts db' = drafts db ∧ receipts_grow db db' ∧
    (∀ k row, run_steps db !! k = Some row → run_steps db' !! k = Some row) ∧
    traced db' c run cause i steps last.
Proof.
  revert i cause index db. induction steps as [|step steps IH]; intros i cause index db Hun Hlen; simpl.
  - exists cause, db. rewrite N.add_0_r. by split_and!; try done; apply receipts_grow_refl.
  - assert (Hl : (i + len (step :: steps) = i + 1 + len steps)%N) by (unfold len; simpl; lia). rewrite Hl in *.
    destruct (step_fresh c actor run i cause step (wrapping_add_u64 now index) db Hun) as (receipt & db1 & Hs & Hun1 & Hr1 & Hd1 & Hg1 & Hk1 & Ht1); [lia|].
    destruct (IH (i + 1)%N (Some receipt) (index + 1)%N db1 Hun1 Hlen) as (last & db' & Hrec & Hun' & Hr & Hd & Hg & Hk & Ht).
    exists last, db'. unfold op_bind. rewrite Hs, Hrec. split; [done|]. split; [done|]. split; [congruence|]. split; [congruence|].
    split; [by eapply receipts_grow_trans|]. split; [auto|].
    apply (traced_app db' c run cause i [step] steps (Some receipt) last); [|done]. by eapply traced_grow.
Qed.

Lemma stage_fresh c actor run i cause d step now db :
  unwritten db c run i → (i + 1 < 4294967296)%N → drafts db !! (c, QuoteDraft.draft_id d) = None →
  existsb (active_quote c (QuoteDraft.run_id d)) (values (drafts db)) = false →
  ∃ receipt db', trace_stage_draft constraint_failed (Trace.mk c actor run i cause) d (step_record step) now db
                 = (Ok (Trace.mk c actor run (i + 1) (Some receipt)), db') ∧
    unwritten db' c run (i + 1) ∧ receipts_grow db db' ∧
    drafts db' = <[(c, QuoteDraft.draft_id d) := staged_row c d now]> (drafts db) ∧
    runs db' = alter (fun row => WorkflowRunRow.set_status row "staged" (u64_as_i64 now)) (c, run) (runs db) ∧
    (∀ k row, run_steps db !! k = Some row → run_steps db' !! k = Some row) ∧
    traced db' c run cause i [step] (Some receipt).
Proof.
  intros Hun Hi Hdraft Hact. unfold trace_stage_draft, op_bind, op_ret. cbn [Trace.client_id Trace.run_id Trace.next_step_index Trace.actor_id Trace.last_receipt_id].
  set (request := trace_request _ _ _ _ _ _ _ _ _ _). set (dw := stage_write constraint_failed c run i d (step_record step) now).
  destruct (un_steps _ _ _ _ Hun i) as [Hfree Hnone]; [lia|].
  set (db1 := set_tables db (set_quote_drafts (tables db) (<[(c, QuoteDraft.draft_id d) := staged_row c d now]> (drafts db)))).
  destruct (insert_step_fresh c run i step (next_name db) now db1 Hnone) as (row & Hid & Hrow & Hw1).
  assert (Hs : spares_receipts dw).
  { apply slice_spares. intros id. apply slice_write_seq; [apply slice_insert_quote|].
    apply slice_write_seq; [apply slice_insert_step|apply slice_write_update]. }
  eassert (Hw : dw (next_name db) db = (Ok tt, _)).
  { unfold dw, stage_write, op_bind at 1, insert_quote. rewrite bool_decide_eq_false_2 by (rewrite Hdraft; by intros [? [=]]).
    rewrite Hact. cbn [orb]. unfold update_tables at 1. fold db1. unfold op_bind. rewrite Hw1. unfold set_run_status, update_tables. reflexivity. }
  destruct (mutate_logged_fresh constraint_failed request dw db _ (un_spine _ _ _ _ Hun) Hs Hfree eq_refl Hw)
    as (before & rev & db' & Hm & Hd & Hs' & Hg & Hin & Hu).
  rewrite Hm. cbn [receipt_id]. exists (next_name db), db'.
  match type of Hd with _ = Db.domain ?d => set (db2 := d) in * end.
  assert (Ht : tables db' = tables db2) by (unfold tables; by rewrite Hd).
  assert (Hrows : run_steps db' = <[(c, run, Z.of_N i) := row]> (run_steps db)) by by rewrite Ht.
  destruct (step_written db db' c run i step row request before rev) as (Hnext & Hkeep & Htr); try done; try (by rewrite Hid).
  rewrite Hid in Htr. unfold advance. cbn [Trace.client_id Trace.run_id Trace.next_step_index Trace.actor_id].
  rewrite (small_index i Hi). do 3 (split; [done|]). split; [by rewrite Ht|]. split; [by rewrite Ht|]. by split.
Qed.

Lemma finish_fresh c actor run i cause status terminal now db :
  unwritten db c run i →
  ∃ receipt db', finish_run constraint_failed (Build_RunFinishContext c actor run cause now) status terminal db = (Ok receipt, db') ∧
    receipts_grow db db' ∧ drafts db' = drafts db ∧ run_steps db' = run_steps db ∧
    runs db' = alter (fun row => WorkflowRunRow.finish row (run_status_str status) (value_text terminal) (u64_as_i64 now)) (c, run) (runs db) ∧
    ∃ r, r ∈ Db.receipts db' ∧ applied_with_key c (finish_key run) r = true ∧ Receipt.causation_id r = cause.
Proof.
  intros Hun. unfold finish_run, op_map, op_bind, op_ret. cbn [finish_client_id finish_actor_id finish_run_id finish_causation_id finish_now_ms].
  set (request := trace_request _ _ _ _ _ _ _ _ _ _). set (write := update_tables _).
  destruct (mutate_logged_fresh constraint_failed request (fun _ => write) db _ (un_spine _ _ _ _ Hun)
    (slice_write_spares_receipts _ (slice_write_update _)) (un_finish _ _ _ _ Hun) eq_refl eq_refl)
    as (before & rev & db' & Hm & Hd & Hs' & Hg & Hin & Hu).
  unfold mutate. rewrite Hm. cbn [receipt_id]. exists (next_name db), db'.
  assert (Ht : tables db' = tables (set_tables db _)) by (unfold tables; rewrite Hd; reflexivity).
  rewrite Ht. do 5 (split; [done|]). eexists. split; [exact Hin|]. split; [|done].
  apply applied_with_key_true. split; [done|]. split; [done|]. by apply is_applied_row.
Qed.

(** ** From the request to the answer *)

(** What [start_quote_builder] hands on, once the start is written. *)
Definition started_run (input : QuoteWorkflowInput.t) (ctx : QuoteRunContext) (receipt : string) : StartedQuoteRun.t :=
  StartedQuoteRun.mk (run_client_id ctx) (run_actor_id ctx) (quote_run_id (run_idempotency_key ctx)) (run_profile_id ctx)
    (run_profile_config_json ctx) (run_guardrail_config_json ctx) input (run_idempotency_key ctx) receipt (run_now_ms ctx).

(** No key of the run is used and it has no row. *)
Definition new_run (db : AppDb) (c run : string) : Prop :=
  (∀ key, key_free db c (run +:+ ":" +:+ key)) ∧ runs db !! (c, run) = None.

Lemma new_run_drafts db c run k row :
  quotes_wf None db → new_run db c run → drafts db !! k = Some row → k.1 = c → QuoteDraftRow.run_id row ≠ run.
Proof.
  intros Hq [Hf _] Hk <- <-. apply (key_used_not_free _ _ _ (row_started _ _ _ _ (wf_rows _ _ Hq _ _ Hk))). apply (Hf "start").
Qed.

Lemma new_run_steps db c run i : quotes_wf None db → new_run db c run → run_steps db !! (c, run, i) = None.
Proof.
  intros Hq [Hf _]. destruct (run_steps db !! (c, run, i)) as [step|] eqn:Hs; [|done].
  destruct (wf_steps _ _ Hq _ _ Hs) as (r & Hin & _ & Hc & _ & Ha & j & _ & Hkey).
  exfalso. eapply (key_used_not_free db c (run +:+ ":" +:+ fmt_dec j)); [|apply Hf]. exists r. split; [done|]. by apply applied_with_key_true.
Qed.

Lemma start_fresh input ctx db :
  let c := run_client_id ctx in let run := quote_run_id (run_idempotency_key ctx) in
  good None db → new_run db c run →
  ∃ db', start_quote_builder constraint_failed input ctx db = (Ok (started_run input ctx (next_name db)), db') ∧
    unwritten db' c run 0 ∧ drafts db' = drafts db ∧
    ∃ row, runs db' = <[(c, run) := row]> (runs db).
Proof.
  intros c run [Hsp Hq] Hnew. unfold start_quote_builder, trace_start, op_bind, op_ret, op_lift. fold c run.
  set (request := trace_request _ _ _ _ _ _ _ _ _ _). set (write := insert_run _ _ _ _ _).
  destruct (mutate_logged_fresh constraint_failed request (fun _ => write) db _ Hsp
    (slice_write_spares_receipts _ (slice_insert_run _ _ _ _ _)) (proj1 Hnew "start") eq_refl eq_refl)
    as (before & rev & db' & Hm & Hd & Hs' & Hg & Hin & Hu).
  unfold mutate. rewrite Hm. exists db'. split; [done|].
  assert (Ht : tables db' = tables (set_tables db _)) by (unfold tables; rewrite Hd; reflexivity).
  rewrite tables_set, (proj2 Hnew) in Ht. split; [split; [done| |]|split].
  - intros j _. rewrite Ht. split; [|by apply new_run_steps].
    eapply still_free; [exact Hu|apply step_key_start|apply (proj1 Hnew)].
  - eapply still_free; [exact Hu|apply finish_key_start|apply (proj1 Hnew "finish")].
  - by rewrite Ht.
  - rewrite Ht. by eexists.
Qed.

Lemma stage_index_last (steps : list QuoteProfileStep.t) index :
  stage_index steps = Ok index → ∃ step, steps !! index = Some step ∧ steps = take index steps ++ [step].
Proof.
  unfold stage_index. destruct (ok_or (stage_position steps) _) as [j|]; [|done]. cbn [mbind Result_bind].
  unfold guard_err. destruct (Nat.eqb_spec (j + 1) (length steps)) as [Hj|]; [|done]. intros [= <-].
  destruct (lookup_lt_is_Some_2 steps j) as [step Hstep]; [lia|]. exists step. split; [done|].
  rewrite <- (take_S_r _ _ _ Hstep). symmetry. apply take_ge. lia.
Qed.

(** All steps but the last are written in order; the last one is returned. *)
Lemma persist_steps_fresh c actor run cause steps now db :
  unwritten db c run 0 → (len steps < 4294967296)%N → validate_profile_steps steps = Ok tt →
  ∃ front stage last db', steps = front ++ [stage] ∧
    persist_profile_steps constraint_failed (Trace.mk c actor run 0 cause) steps now db
    = (Ok (Trace.mk c actor run (len front) last, step_record stage), db') ∧
    unwritten db' c run (len front) ∧ runs db' = runs db ∧ drafts db' = drafts db ∧ receipts_grow db db' ∧
    traced db' c run cause 0 front last.
Proof.
  intros Hun Hlen Hv. unfold persist_profile_steps, op_bind, op_lift. rewrite Hv.
  unfold validate_profile_steps in Hv. destruct (stage_index steps) as [index|] eqn:Hi; [|done]. clear Hv.
  destruct (stage_index_last _ _ Hi) as (stage & Hstage & Hsplit).
  destruct (record_steps_fresh c actor run 0 cause (take index steps) 0 now db Hun) as (last & db' & Hr & Hun' & H1 & H2 & H3 & _ & H5).
  { enough (len (take index steps) ≤ len steps)%N by lia. unfold len. rewrite length_take. lia. }
  rewrite N.add_0_l in *. rewrite Hr, Hstage. by exists (take index steps), stage, last, db'.
Qed.

Lemma drafts_of_new c run k row (t t' : SliceTables) :
  (∀ k row, quote_drafts t !! k = Some row → k.1 = c → QuoteDraftRow.run_id row ≠ run) →
  quote_drafts t' = <[k := row]> (quote_drafts t) → quote_drafts t !! k = None → k.1 = c → QuoteDraftRow.run_id row = run →
  drafts_of_run c run t' = [row].
Proof.
  intros Hno Ht Hk Hc Hrun. unfold drafts_of_run. rewrite Ht.
  apply Permutation_singleton_r. rewrite (map_to_list_insert _ _ _ Hk), filter_cons. destruct k as [c' id]. simpl in Hc. subst c' run.
  rewrite decide_True by by rewrite !string_eqb_refl. rewrite fmap_cons. cbn [snd]. f_equiv.
  match goal with |- snd <$> ?found ≡ₚ [] => destruct found as [|[[c' id'] row'] l] eqn:Hl; [done|] end. exfalso.
  assert (Hin : (c', id', row') ∈ (c', id', row') :: l) by by left. rewrite <- Hl in Hin.
  apply list_elem_of_filter in Hin as [Hp%Is_true_true Hin%elem_of_map_to_list].
  apply andb_true_iff in Hp as [H1%string_eqb_true H2%string_eqb_true]. by apply (Hno _ _ Hin H1).
Qed.

Lemma no_active db c run :
  quotes_wf None db → new_run db c run → existsb (active_quote c run) (values (drafts db)) = false.
Proof.
  intros Hq Hnew. apply not_true_iff_false. intros (row & Hin & Ha)%existsb_exists.
  apply list_elem_of_In, list_elem_of_fmap in Hin as ([k row'] & -> & Hk%elem_of_map_to_list).
  unfold active_quote in Ha. apply andb_true_iff in Ha as [[Hc%string_eqb_true Hr%string_eqb_true]%andb_true_iff _].
  apply (new_run_drafts db c run k row' Hq Hnew Hk); [|done].
  destruct (row_key _ _ _ _ (wf_rows _ _ Hq _ _ Hk)) as [<- _]. done.
Qed.

Lemma free_draft_id db c run : quotes_wf None db → new_run db c run → drafts db !! (c, "qd_" +:+ run) = None.
Proof.
  intros Hq Hnew. destruct (drafts db !! _) as [row|] eqn:Hrow; [|done].
  destruct (row_key _ _ _ _ (wf_rows _ _ Hq _ _ Hrow)) as (_ & _ & Hid%string_app_inj_r).
  by destruct (new_run_drafts _ _ _ _ _ Hq Hnew Hrow eq_refl).
Qed.

(** The second half of the request, once the run's row is there. *)
Lemma persist_fresh started prepared d row0 db :
  let c := StartedQuoteRun.client_id started in
  let run := StartedQuoteRun.run_id started in
  let steps := steps (profile_run prepared) in
  let ms := wrapping_add_u64 (StartedQuoteRun.now_ms started) (len steps) in
  prepare_quote_builder started = Ok prepared → (len steps < 4294967296)%N →
  draft_from_profile_run run (StartedQuoteRun.input started) (draft (profile_run prepared))
    (StartedQuoteRun.guardrail_config_json started) ms = Ok d →
  unwritten db c run 0 → runs db !! (c, run) = Some row0 →
  (∀ k row, drafts db !! k = Some row → k.1 = c → QuoteDraftRow.run_id row ≠ run) →
  drafts db !! (c, "qd_" +:+ run) = None → existsb (active_quote c run) (values (drafts db)) = false →
  ∃ db' q row last,
    persist_prepared_quote_builder constraint_failed result_fields prepared db
    = (Ok (Build_QuoteWorkflowRunResponse (run_from_row row) (Some q)), db') ∧
    quote q = quote (draft_from_row (staged_row c d ms) 0) ∧
    drafts db' = <[(c, "qd_" +:+ run) := staged_row c d ms]> (drafts db) ∧
    runs db' = <[(c, run) := row]> (runs db) ∧ WorkflowRunRow.status row = "staged" ∧
    traced db' c run (Some (StartedQuoteRun.start_receipt_id started)) 0 steps last ∧
    ∃ r, r ∈ Db.receipts db' ∧ applied_with_key c (finish_key run) r = true ∧ Receipt.causation_id r = last.
Proof.
  intros c run steps ms Hprep Hlen Hd Hun Hrow0 Hno Hfree Hact.
  destruct (prepared_inv _ _ Hprep) as (Hst & _ & Hv). fold steps in Hv.
  unfold persist_prepared_quote_builder, trace_resume. rewrite Hst. fold c run steps ms.
  destruct (persist_steps_fresh c (StartedQuoteRun.actor_id started) run (Some (StartedQuoteRun.start_receipt_id started)) steps
    (wrapping_add_u64 (StartedQuoteRun.now_ms started) 1) db Hun Hlen Hv)
    as (front & stage & last1 & db1 & Hsplit & Hpersist & Hun1 & Hruns1 & Hdr1 & Hg1 & Ht1).
  assert (Hfront : (len front + 1 < 4294967296)%N) by (rewrite Hsplit in Hlen; unfold len in *; rewrite length_app in Hlen; simpl in Hlen; lia).
  destruct (draft_names _ _ _ _ _ _ Hd) as [Hdrun Hdid].
  destruct (stage_fresh c (StartedQuoteRun.actor_id started) run (len front) last1 d stage ms db1 Hun1 Hfront)
    as (receipt & db2 & Hstage & Hun2 & Hg2 & Hdr2 & Hruns2 & Hk2 & Ht2); [by rewrite Hdr1, Hdid|by rewrite Hdr1, Hdrun|].
  unfold op_bind at 1. rewrite Hpersist. unfold op_bind at 1, op_lift at 1. rewrite Hd.
  unfold op_bind at 1. rewrite Hstage. unfold trace_finish. cbn [Trace.client_id Trace.actor_id Trace.run_id Trace.last_receipt_id].
  match goal with |- context [finish_run _ _ RunStaged ?t] => set (terminal := t) end.
  destruct (finish_fresh c (StartedQuoteRun.actor_id started) run (len front + 1) (Some receipt) RunStaged terminal
    (wrapping_add_u64 ms 1) db2 Hun2) as (rf & db3 & Hfin & Hg3 & Hdr3 & Hsteps3 & Hruns3 & Hrf).
  unfold op_bind at 1. rewrite Hfin.
  rewrite Hruns2, Hruns1 in Hruns3. rewrite Hdr2, Hdr1, Hdid in Hdr3.
  set (row := WorkflowRunRow.finish (WorkflowRunRow.set_status row0 "staged" (u64_as_i64 ms)) (run_status_str RunStaged)
    (value_text terminal) (u64_as_i64 (wrapping_add_u64 ms 1))).
  assert (Hruns : runs db3 = <[(c, run) := row]> (runs db)).
  { rewrite Hruns3. apply map_eq. intros k. destruct (decide ((c, run) = k)) as [<-|Hne].
    - by rewrite lookup_insert_eq, !lookup_alter_eq, Hrow0.
    - by rewrite lookup_insert_ne, !lookup_alter_ne. }
  unfold op_bind at 1, get_run, read_tables at 1. rewrite Hruns, lookup_insert_eq. cbn [fmap option_fmap option_map].
  unfold op_bind at 1, op_lift at 1. cbn [ok_or].
  unfold op_bind at 1, draft_for_run, read_tables, op_bind at 1.
  rewrite (drafts_of_new c run (c, "qd_" +:+ run) (staged_row c d ms) (tables db) (tables db3) Hno Hdr3 Hfree eq_refl Hdrun).
  cbn [head]. unfold read_quote, op_bind, current_revision, op_map, attach_job_summary, op_ret, op_bind.
  exists db3. eexists. exists row, (Some receipt). split; [reflexivity|]. split; [done|]. split; [exact Hdr3|]. split; [exact Hruns|].
  split; [done|]. split; [|done].
  rewrite Hsplit. apply (traced_app _ _ _ _ _ _ _ last1).
  - eapply traced_grow; [exact (receipts_grow_trans _ _ _ Hg2 Hg3)| |exact Ht1]. intros k r Hk. rewrite Hsteps3. by apply Hk2.
  - rewrite N.add_0_l. eapply traced_grow; [exact Hg3| |exact Ht2]. intros k r Hk. by rewrite Hsteps3.
Qed.

(** C27: A new quote request is traced from the start to the finish.  If nothing of its run
    was written before and nobody else writes meanwhile, its profile accepts the request and its guardrails can be evaluated,
    then it is answered with a staged run and the staged draft; the draft is stored, the run
    is [staged]; all steps of the profile are stored in order, each with the receipt of the
    mutation that wrote it, caused by the one before it, the first by the start's; and the
    finish is caused by the last. *)
Theorem new_quote_run_is_traced input ctx prepared d db :
  let c := run_client_id ctx in
  let run := quote_run_id (run_idempotency_key ctx) in
  let steps := steps (profile_run prepared) in
  let ms := wrapping_add_u64 (run_now_ms ctx) (len steps) in
  good None db → new_run db c run →
  prepare_quote_builder (started_run input ctx (next_name db)) = Ok prepared → (len steps < 4294967296)%N →
  draft_from_profile_run run input (draft (profile_run prepared)) (run_guardrail_config_json ctx) ms = Ok d →
  ∃ db' answer q row last,
    run_quote_builder constraint_failed result_fields true input ctx db = (Ok (Build_QuoteWorkflowRunResponse answer (Some q)), db') ∧
    WorkflowRun.status answer = RunStaged ∧ quote q = quote (draft_from_row (staged_row c d ms) 0) ∧
    drafts db' = <[(c, "qd_" +:+ run) := staged_row c d ms]> (drafts db) ∧
    runs db' = <[(c, run) := row]> (runs db) ∧ WorkflowRunRow.status row = "staged" ∧
    traced db' c run (Some (next_name db)) 0 steps last ∧
    ∃ r, r ∈ Db.receipts db' ∧ applied_with_key c (finish_key run) r = true ∧ Receipt.causation_id r = last.
Proof.
  intros c run steps ms Hgood Hnew Hprep Hlen Hd. pose proof Hgood as [_ Hq].
  destruct (start_fresh input ctx db Hgood Hnew) as (db1 & Hstart & Hun & Hdr1 & row0 & Hruns1). fold c run in Hstart, Hun, Hruns1.
  destruct (persist_fresh (started_run input ctx (next_name db)) prepared d row0 db1 Hprep Hlen Hd Hun)
    as (db' & q & row & last & Hp & Hquote & Hdr & Hruns & Hst & Ht & Hfin);
    [by rewrite Hruns1, lookup_insert_eq|rewrite Hdr1; intros k r; by apply new_run_drafts
    |by rewrite Hdr1; apply free_draft_id|by rewrite Hdr1; apply no_active|].
  exists db', (run_from_row row), q, row, last.
  split; [|split; [by cbn; rewrite Hst|]; split; [done|]; split; [by rewrite Hdr, Hdr1|]; split;
    [by rewrite Hruns, Hruns1, insert_insert_eq|]; by split].
  unfold run_quote_builder, existing_run_response, get_run, read_tables, op_bind. fold c run. rewrite (proj2 Hnew). cbn.
  rewrite Hstart, Hprep. exact Hp.
Qed.
End trace.

(** ** A new request *)

Lemma flow_new_run : new_run flow_new "acme" "qwr_0011223344556677".
Proof. split; [by intros key r ?%elem_of_nil|]. change (runs flow_new) with (∅ : gmap (string * string) WorkflowRunRow.t). by rewrite lookup_empty. Qed.

Definition flow_prepared : option (PreparedQuoteRun * QuoteDraft.t) :=
  match prepare_quote_builder (started_run (texts := flow_texts) (flow_input "2 gallons primer at $20.00") (flow_ctx 2500) (next_name flow_new)) with
  | Ok prepared =>
    match draft_from_profile_run (H := flow_texts) "qwr_0011223344556677" (flow_input "2 gallons primer at $20.00")
            (draft (profile_run prepared)) (Json.Int 2500) (wrapping_add_u64 100 (len (steps (profile_run prepared)))) with
    | Ok d => Some (prepared, d)
    | Err _ => None
    end
  | Err _ => None
  end.

Lemma new_quote_run_is_traced_witness :
  match flow_prepared with
  | Some (prepared, d) => ∃ db' answer q last,
      run_quote_builder (H := flow_texts) "UNIQUE" no_fields true (flow_input "2 gallons primer at $20.00") (flow_ctx 2500) flow_new
      = (Ok (Build_QuoteWorkflowRunResponse answer (Some q)), db') ∧
      traced (texts := flow_texts) db' "acme" "qwr_0011223344556677" (Some (next_name flow_new)) 0 (steps (profile_run prepared)) last ∧
      len (steps (profile_run prepared)) = 5%N
  | None => False
  end.
Proof.
  assert (Hex : match flow_prepared with Some (prepared, _) => len (steps (profile_run prepared)) = 5%N | None => False end) by by vm_compute.
  unfold flow_prepared in *.
  destruct (prepare_quote_builder _) as [prepared|] eqn:Hp; [|destruct Hex].
  destruct (draft_from_profile_run _ _ _ _ _) as [d|] eqn:Hd; [|destruct Hex].
  assert (Hlen : (len (steps (profile_run prepared)) < 4294967296)%N) by (rewrite Hex; reflexivity).
  destruct (new_quote_run_is_traced (texts := flow_texts) "UNIQUE" no_fields (flow_input "2 gallons primer at $20.00") (flow_ctx 2500) prepared d flow_new
    flow_new_wf flow_new_run Hp Hlen Hd) as (db' & answer & q & row & last & Hrun & _ & _ & _ & _ & _ & Ht & _).
  exists db', answer, q, last. split; [exact Hrun|]. split; [exact Ht|exact Hex].
Defined.
