(* ===== verification/FollowUpTasks.v ===== *)
(** * Follow-up tasks ([bos-app/src/slices/follow_up_tasks/])

    A draft is filled from an accepted work item - by a model, whose answer is checked,
    or by an operator - edited, and approved or rejected.  Approving it writes the task
    itself, in the same transaction.  Open tasks are sorted into lanes by their date.

    The table of drafts is one of the interface of DraftStore.v, as the CRM notes' is; its
    approval is the slice's own.  [draft_json] and [provenance_json] are serde's texts,
    [parse_provenance] and [parse_strings] read them back.  The handlers are after
    authentication.  The request to the model, its grounding and the decoration of tasks by
    the e-mail drafts are not here. *)

From S2P Require Import Prelude RustStd RustStr StoreCore AppOutbox Identity Schema Operators WorkItems WorkQueue Calendar DateInput DraftStore Json.
Import Spine DateInput.

(** ** Data *)

(* src: crates/bos-contracts/src/follow_up_tasks.rs:13-20 FollowUpDraftStatus *)
Inductive FollowUpDraftStatus := DraftStaged | DraftApproved | DraftRejected.

Module FollowUpDraft.
(* src: crates/bos-contracts/src/follow_up_tasks.rs:22-50 FollowUpDraft *)
Record t := mk {
  draft_id : string;
  item_id : string;
  source_kind : string;
  source_ref : string;
  source_user_id : option string;
  status : FollowUpDraftStatus;
  title : string;
  due_date : option string;
  context : string;
  provenance : list DraftFieldProvenance;
  model : string;
  confidence : string;
  task_id : option string;
  created_at_ms : N;
  updated_at_ms : N;
}.
End FollowUpDraft.

(* src: crates/bos-contracts/src/follow_up_tasks.rs:52-58 FollowUpDraftWithRevision *)
Record FollowUpDraftWithRevision := {
  follow_up_draft : FollowUpDraft.t;
  follow_up_revision : N;
}.

(* src: crates/bos-contracts/src/follow_up_tasks.rs:96-102 FollowUpDraftActionKind *)
Inductive FollowUpDraftActionKind := ApproveFollowUp | RejectFollowUp.

(* src: crates/bos-contracts/src/follow_up_tasks.rs:118-124 TaskStatus *)
Inductive TaskStatus := TaskOpen | TaskDone.
#[global] Instance TaskStatus_dec : EqDecision TaskStatus.
Proof. solve_decision. Defined.

Module TaskRecord.
(* src: crates/bos-contracts/src/follow_up_tasks.rs:126-149 TaskRecord *)
Record t := mk {
  task_id : string;
  title : string;
  due_date : option string;
  context : string;
  source_kind : string;
  source_ref : string;
  source_user_id : option string;
  source_item_id : option string;
  status : TaskStatus;
  created_at_ms : N;
  updated_at_ms : N;
}.
End TaskRecord.

(* src: crates/bos-contracts/src/follow_up_tasks.rs:151-161 TaskDueLane *)
Inductive TaskDueLane := Overdue | DueToday | Upcoming | NoDueDate.

(* src: crates/bos-contracts/src/follow_up_tasks.rs:163-175 TaskEscalationLevel *)
Inductive TaskEscalationLevel := NotEscalated | Missed | Escalated | Critical.

(* src: crates/bos-contracts/src/follow_up_tasks.rs:177-191 TaskEscalation *)
Record TaskEscalation := {
  lane : TaskDueLane;
  level : TaskEscalationLevel;
  days_overdue : Z;
  days_until_due : Z;
  reason : option string;
}.

(** Without the field the e-mail drafts fill. *)
(* src: crates/bos-contracts/src/follow_up_tasks.rs:193-207 TaskWithRevision *)
Record TaskWithRevision := {
  task : TaskRecord.t;
  task_revision : N;
  escalation : option TaskEscalation;
}.

Definition DRAFT_ENTITY_KIND : string := "follow_up_task_draft".
Definition TASK_ENTITY_KIND : string := "task".
Definition PACKET_KIND : string := "follow_up_task".

(* src: crates/bos-app/src/slices/follow_up_tasks/store.rs:559-565 draft_status_from_str *)
Definition draft_status_from_str (raw : string) : FollowUpDraftStatus :=
  if string_eqb raw "approved" then DraftApproved else if string_eqb raw "rejected" then DraftRejected else DraftStaged.

(* src: crates/bos-app/src/slices/follow_up_tasks/store.rs:567-572 task_status_str *)
Definition task_status_str (status : TaskStatus) : string :=
  match status with TaskOpen => "open" | TaskDone => "done" end.

(* src: crates/bos-app/src/slices/follow_up_tasks/store.rs:574-579 task_status_from_str *)
Definition task_status_from_str (raw : string) : TaskStatus :=
  if string_eqb raw "done" then TaskDone else TaskOpen.

(** ** The table of drafts *)

Section rows.
Context (parse_provenance : string → option (list DraftFieldProvenance)).

(* src: crates/bos-app/src/slices/follow_up_tasks/store.rs:37-59 draft_from_row *)
Definition draft_from_row (row : FollowUpDraftRow.t) (revision : N) : FollowUpDraftWithRevision := {|
  follow_up_draft := {|
    FollowUpDraft.draft_id := FollowUpDraftRow.draft_id row;
    FollowUpDraft.item_id := FollowUpDraftRow.item_id row;
    FollowUpDraft.source_kind := FollowUpDraftRow.source_kind row;
    FollowUpDraft.source_ref := FollowUpDraftRow.source_ref row;
    FollowUpDraft.source_user_id := FollowUpDraftRow.source_user_id row;
    FollowUpDraft.status := draft_status_from_str (FollowUpDraftRow.status row);
    FollowUpDraft.title := FollowUpDraftRow.title row;
    FollowUpDraft.due_date := FollowUpDraftRow.due_date row;
    FollowUpDraft.context := FollowUpDraftRow.context row;
    FollowUpDraft.provenance := default [] (parse_provenance (FollowUpDraftRow.provenance_json row));
    FollowUpDraft.model := FollowUpDraftRow.model row;
    FollowUpDraft.confidence := FollowUpDraftRow.confidence row;
    FollowUpDraft.task_id := FollowUpDraftRow.task_id row;
    FollowUpDraft.created_at_ms := i64_as_u64 (FollowUpDraftRow.created_at_ms row);
    FollowUpDraft.updated_at_ms := i64_as_u64 (FollowUpDraftRow.updated_at_ms row);
  |};
  follow_up_revision := revision;
|}.

(** The id an approval sets is a task's, not a job's; [attach] is the trait's default. *)
(* src: crates/bos-app/src/slices/follow_up_tasks/store.rs:61-86 FollowUpDraftStore *)
Definition FollowUpDraftStore : DraftStore FollowUpDraftRow.t FollowUpDraftWithRevision := {|
  ENTITY_KIND := DRAFT_ENTITY_KIND;
  NOT_FOUND := "follow_up_draft_not_found";
  draft_rows := follow_up_task_drafts;
  set_draft_rows := set_follow_up_task_drafts;
  row_draft_id := FollowUpDraftRow.draft_id;
  row_item_id := FollowUpDraftRow.item_id;
  row_status := FollowUpDraftRow.status;
  row_source_user_id := FollowUpDraftRow.source_user_id;
  row_outbox_job_id := FollowUpDraftRow.task_id;
  row_created_at_ms := FollowUpDraftRow.created_at_ms;
  map_row := fun row revision => Ok (draft_from_row row revision);
  attach := fun _ entry => op_ret entry;
  source_user_id := fun entry => FollowUpDraft.source_user_id (follow_up_draft entry);
  row_conflicts := fun row other =>
    negb (string_eqb (FollowUpDraftRow.status row) "rejected") && negb (string_eqb (FollowUpDraftRow.status other) "rejected")
    && string_eqb (FollowUpDraftRow.item_id row) (FollowUpDraftRow.item_id other);
|}.
End rows.

(* src: crates/bos-app/src/slices/follow_up_tasks/store.rs:24-31 DRAFT_TABLE *)
Definition DRAFT_TABLE : DraftTableSpec FollowUpDraftRow.t := {|
  entity_kind := DRAFT_ENTITY_KIND;
  not_found_code := "follow_up_draft_not_found";
  not_staged_code := "follow_up_draft_not_staged";
  approve_sql := fun task_id now row => FollowUpDraftRow.approve row task_id now;
  reject_sql := fun now row => FollowUpDraftRow.reject row now;
|}.

(** ** The store *)

Module FollowUps.
Section store.
Context (constraint_failed : string) (json_text : list (string * JsonValue) → string)
  (draft_json : FollowUpDraft.t → string) (provenance_json : list DraftFieldProvenance → string)
  (parse_provenance : string → option (list DraftFieldProvenance)).
#[local] Existing Instance FollowUpDraftStore.
Abbreviation Store := (FollowUpDraftStore parse_provenance).

(* src: crates/bos-app/src/slices/follow_up_tasks/store.rs:89-95 active_draft_for_item *)
Definition active_draft_for_item (client_id item_id : string) : AppOp (option FollowUpDraftWithRevision) :=
  Drafts.active_draft_for_item (DraftStore0:=Store) client_id item_id.

(* src: crates/bos-app/src/slices/follow_up_tasks/store.rs:97-104 get_draft *)
Definition get_draft (client_id draft_id : string) (scope : OperatorScope.t) : AppOp (option FollowUpDraftWithRevision) :=
  Drafts.get_draft_scoped (DraftStore0:=Store) client_id draft_id scope.

(* src: crates/bos-app/src/slices/follow_up_tasks/store.rs:107-115 list_drafts *)
Definition list_drafts (client_id : string) (item_id : option string) (limit : N) (scope : OperatorScope.t)
    : AppOp (list FollowUpDraftWithRevision) :=
  Drafts.list_drafts_scoped (DraftStore0:=Store) client_id item_id limit scope.

(* src: crates/bos-app/src/slices/follow_up_tasks/store.rs:117-123 count_drafts_for_item *)
Definition count_drafts_for_item (client_id item_id : string) : AppOp N :=
  Drafts.count_drafts_for_item (DraftStore0:=Store) client_id item_id.

(* src: crates/bos-app/src/slices/follow_up_tasks/store.rs:127-129 staged_item_ids *)
Definition staged_item_ids (client_id : string) : AppOp (list string) :=
  Drafts.staged_item_ids (DraftStore0:=Store) client_id.

(* src: crates/bos-app/src/slices/follow_up_tasks/store.rs:551-557 require_draft_status *)
Definition require_draft_status (client_id draft_id : string) : AppOp (string * option string) :=
  Drafts.require_status_scoped (DraftStore0:=Store) client_id draft_id.

(** The client's rows of an item that are not rejected: the unique index admits one. *)
(* src: crates/bos-app/src/persistence/migrations/0010_follow_up_tasks.sql:26-28 follow_up_task_drafts_active_item *)
Definition active_for (client_id item_id : string) (row : FollowUpDraftRow.t) : bool :=
  string_eqb (FollowUpDraftRow.client_id row) client_id && string_eqb (FollowUpDraftRow.item_id row) item_id
  && negb (string_eqb (FollowUpDraftRow.status row) "rejected").

Definition staged_row (client_id : string) (draft : FollowUpDraft.t) : FollowUpDraftRow.t := {|
  FollowUpDraftRow.client_id := client_id;
  FollowUpDraftRow.draft_id := FollowUpDraft.draft_id draft;
  FollowUpDraftRow.item_id := FollowUpDraft.item_id draft;
  FollowUpDraftRow.source_kind := FollowUpDraft.source_kind draft;
  FollowUpDraftRow.source_ref := FollowUpDraft.source_ref draft;
  FollowUpDraftRow.source_user_id := FollowUpDraft.source_user_id draft;
  FollowUpDraftRow.status := "staged";
  FollowUpDraftRow.title := FollowUpDraft.title draft;
  FollowUpDraftRow.due_date := FollowUpDraft.due_date draft;
  FollowUpDraftRow.context := FollowUpDraft.context draft;
  FollowUpDraftRow.provenance_json := provenance_json (FollowUpDraft.provenance draft);
  FollowUpDraftRow.model := FollowUpDraft.model draft;
  FollowUpDraftRow.confidence := FollowUpDraft.confidence draft;
  FollowUpDraftRow.task_id := None;
  FollowUpDraftRow.created_at_ms := u64_as_i64 (FollowUpDraft.created_at_ms draft);
  FollowUpDraftRow.updated_at_ms := u64_as_i64 (FollowUpDraft.created_at_ms draft);
|}.

(* src: crates/bos-app/src/slices/follow_up_tasks/store.rs:163-195 insert_draft (transaction) *)
Definition insert_row (client_id : string) (draft : FollowUpDraft.t) : AppOp unit :=
  fun db =>
    let rows := follow_up_task_drafts (tables db) in
    if bool_decide (is_Some (rows !! (client_id, FollowUpDraft.draft_id draft)))
       || existsb (active_for client_id (FollowUpDraft.item_id draft)) (values rows)
    then (Err (StoreError.Domain "follow_up_draft_already_active"), db)
    else update_tables (fun t => set_follow_up_task_drafts t
           (<[(client_id, FollowUpDraft.draft_id draft) := staged_row client_id draft]> (follow_up_task_drafts t))) db.

(* src: crates/bos-app/src/slices/follow_up_tasks/store.rs:133-197 insert_draft *)
Definition insert_draft (client_id actor_id : string) (draft : FollowUpDraft.t) (idempotency_key : string)
    : AppOp MutationOutcome.t :=
  mutate constraint_failed {|
    MutationRequest.client_id := client_id;
    MutationRequest.entity_kind := DRAFT_ENTITY_KIND;
    MutationRequest.entity_id := FollowUpDraft.draft_id draft;
    MutationRequest.change_kind := "stage";
    MutationRequest.actor_id := actor_id;
    MutationRequest.actor_kind := Operator;
    MutationRequest.expected_revision := None;
    MutationRequest.idempotency_key := idempotency_key;
    MutationRequest.correlation_id := Some (FollowUpDraft.item_id draft);
    MutationRequest.causation_id := None;
    MutationRequest.before_json := None;
    MutationRequest.after_json := Some (draft_json draft);
    MutationRequest.now_ms := FollowUpDraft.created_at_ms draft;
  |} (insert_row client_id draft).

Definition task_row (client_id : string) (task : TaskRecord.t) (now_ms : N) : TaskRow.t := {|
  TaskRow.client_id := client_id;
  TaskRow.task_id := TaskRecord.task_id task;
  TaskRow.title := TaskRecord.title task;
  TaskRow.due_date := TaskRecord.due_date task;
  TaskRow.context := TaskRecord.context task;
  TaskRow.source_kind := TaskRecord.source_kind task;
  TaskRow.source_ref := TaskRecord.source_ref task;
  TaskRow.source_user_id := TaskRecord.source_user_id task;
  TaskRow.status := "open";
  TaskRow.created_at_ms := u64_as_i64 now_ms;
  TaskRow.updated_at_ms := u64_as_i64 now_ms;
|}.

(* src: crates/bos-app/src/slices/follow_up_tasks/store.rs:256-288 insert_task_within *)
Definition insert_task_within (client_id : string) (task : TaskRecord.t) (now_ms : N) : AppOp unit :=
  (fun db =>
     if decide (is_Some (follow_up_tasks (tables db) !! (client_id, TaskRecord.task_id task)))
     then (Err (StoreError.Sqlite constraint_failed), db)
     else update_tables (fun t => set_follow_up_tasks t
            (<[(client_id, TaskRecord.task_id task) := task_row client_id task now_ms]> (follow_up_tasks t))) db) ;;?
  initialize_revision_within constraint_failed client_id TASK_ENTITY_KIND (TaskRecord.task_id task) 1 now_ms.

(** The request a decision or an edit of a draft makes. *)
Definition draft_request (ctx : ScopedMutationContext) (entity_kind entity_id change_kind : string)
    (correlation_id : option string) (before_json after_json : string) : MutationRequest.t := {|
  MutationRequest.client_id := scoped_client_id ctx;
  MutationRequest.entity_kind := entity_kind;
  MutationRequest.entity_id := entity_id;
  MutationRequest.change_kind := change_kind;
  MutationRequest.actor_id := scoped_actor_id ctx;
  MutationRequest.actor_kind := Operator;
  MutationRequest.expected_revision := scoped_expected_revision ctx;
  MutationRequest.idempotency_key := scoped_idempotency_key ctx;
  MutationRequest.correlation_id := correlation_id;
  MutationRequest.causation_id := None;
  MutationRequest.before_json := Some before_json;
  MutationRequest.after_json := Some after_json;
  MutationRequest.now_ms := scoped_now_ms ctx;
|}.

(** The draft is the caller's and still staged. *)
Definition require_staged (ctx : ScopedMutationContext) (draft_id : string) : AppOp unit :=
  let? current := require_draft_status (scoped_client_id ctx) draft_id in
  op_lift (OperatorScope.require_source_user (scoped_scope ctx) current.2) ;;?
  op_lift (guard_err (negb (string_eqb current.1 "staged"))
             (StoreError.Domain ("follow_up_draft_not_staged:" +:+ current.1))).

(* src: crates/bos-app/src/slices/follow_up_tasks/store.rs:240-248 approve_draft (transaction) *)
Definition approve_write (ctx : ScopedMutationContext) (draft_id : string) (task : TaskRecord.t) : AppOp unit :=
  Drafts.update_draft_row (DraftStore0:=Store) constraint_failed (scoped_client_id ctx) draft_id
    (fun row => FollowUpDraftRow.approve row (Some (TaskRecord.task_id task)) (u64_as_i64 (scoped_now_ms ctx))) ;;?
  insert_task_within (scoped_client_id ctx) task (scoped_now_ms ctx).

Definition approved_json (task_id : string) : string :=
  "{" +:+ in_quotes "status" +:+ ":" +:+ in_quotes "approved" +:+ "," +:+ in_quotes "task_id" +:+ ":" +:+ in_quotes task_id +:+ "}".

(* src: crates/bos-app/src/slices/follow_up_tasks/store.rs:203-250 approve_draft *)
Definition approve_draft (ctx : ScopedMutationContext) (draft_id : string) (task : TaskRecord.t) : AppOp MutationOutcome.t :=
  require_staged ctx draft_id ;;?
  mutate constraint_failed
    (draft_request ctx DRAFT_ENTITY_KIND draft_id "approve" (Some (TaskRecord.task_id task))
       (draft_status_json "staged") (approved_json (TaskRecord.task_id task)))
    (approve_write ctx draft_id task).

(* src: crates/bos-app/src/slices/follow_up_tasks/store.rs:291-297 reject_draft *)
Definition reject_draft (ctx : ScopedMutationContext) (draft_id : string) : AppOp MutationOutcome.t :=
  Drafts.reject (DraftStore0:=Store) constraint_failed (scoped_draft_context ctx) DRAFT_TABLE draft_id.

(* src: crates/bos-app/src/slices/follow_up_tasks/store.rs:378-383 FollowUpEditableFields *)
Record FollowUpEditableFields := {
  edited_title : string;
  edited_due_date : option string;
  edited_context : string;
}.

(** [.map(|date| normalize_civil_date(date, ..)).transpose()]. *)
Definition normalize_due (date : option string) (date_context : option DateInputContext) : Result StoreError.t (option string) :=
  match date with
  | None => Ok None
  | Some date => match normalize_civil_date date date_context with
                 | Ok date => Ok (Some date)
                 | Err _ => Err (StoreError.Domain "follow_up_draft_due_date_invalid")
                 end
  end.

(* src: crates/bos-app/src/slices/follow_up_tasks/store.rs:386-413 normalize_editable_fields *)
Definition normalize_editable_fields (title_raw : string) (due_date_raw : option string) (context_raw : string) (now_ms : N)
    : Result StoreError.t FollowUpEditableFields :=
  let title := take_chars 200 (trim title_raw) in
  guard_err (is_empty title) (StoreError.Domain "follow_up_draft_title_required") ;;
  due_date ← normalize_due (trimmed due_date_raw) (Some (context_from_now_ms now_ms));
  Ok (Build_FollowUpEditableFields title due_date (take_chars 1000 (trim context_raw))).

Definition fields_json (title : string) (due_date : option string) (context : string) : string :=
  json_text [("context", JString context); ("due_date", match due_date with Some d => JString d | None => JNull end);
             ("title", JString title)].

(* src: crates/bos-app/src/slices/follow_up_tasks/store.rs:304-376 update_draft *)
Definition update_draft (ctx : ScopedMutationContext) (draft_id title_raw : string) (due_date_raw : option string)
    (context_raw : string) : AppOp MutationOutcome.t :=
  require_staged ctx draft_id ;;?
  let? fields := op_lift (normalize_editable_fields title_raw due_date_raw context_raw (scoped_now_ms ctx)) in
  let? row := read_tables (fun t => follow_up_task_drafts t !! (scoped_client_id ctx, draft_id)) in
  let? row := op_lift (ok_or row (StoreError.Sqlite "Query returned no rows")) in
  mutate constraint_failed
    (draft_request ctx DRAFT_ENTITY_KIND draft_id "edit" None
       (fields_json (FollowUpDraftRow.title row) (FollowUpDraftRow.due_date row) (FollowUpDraftRow.context row))
       (fields_json (edited_title fields) (edited_due_date fields) (edited_context fields)))
    (Drafts.update_draft_row (DraftStore0:=Store) constraint_failed (scoped_client_id ctx) draft_id
       (fun row => FollowUpDraftRow.edit row (edited_title fields) (edited_due_date fields) (edited_context fields)
                     (u64_as_i64 (scoped_now_ms ctx)))).

(** ** Tasks *)

(** The drafts the outer join finds for a task. *)
Definition drafts_of_task (t : SliceTables) (row : TaskRow.t) : list string :=
  FollowUpDraftRow.item_id <$> filter (fun draft =>
    string_eqb (FollowUpDraftRow.client_id draft) (TaskRow.client_id row)
    && option_any (string_eqb (TaskRow.task_id row)) (FollowUpDraftRow.task_id draft)
    && string_eqb (FollowUpDraftRow.status draft) "approved") (values (follow_up_task_drafts t)).

Definition joined_items (t : SliceTables) (row : TaskRow.t) : list (option string) :=
  match drafts_of_task t row with [] => [None] | items => Some <$> items end.

(** [ORDER BY status, due_date IS NULL, due_date, created_at_ms DESC]. *)
Definition task_order (entry : TaskRow.t * option string) : string * (Z * (string * Reverse Z)) :=
  let row := entry.1 in
  (TaskRow.status row, (if bool_decide (is_Some (TaskRow.due_date row)) then 0%Z else 1%Z,
    (default "" (TaskRow.due_date row), MkReverse (TaskRow.created_at_ms row)))).

Definition task_revision_of (db : AppDb) (row : TaskRow.t) : N :=
  match Db.revisions db !! (TaskRow.client_id row, TASK_ENTITY_KIND, TaskRow.task_id row) with
  | Some revision => i64_as_u64 revision.1
  | None => 0
  end.

Definition task_of_row (db : AppDb) (entry : TaskRow.t * option string) : TaskWithRevision :=
  let row := entry.1 in {|
  task := {|
    TaskRecord.task_id := TaskRow.task_id row;
    TaskRecord.title := TaskRow.title row;
    TaskRecord.due_date := TaskRow.due_date row;
    TaskRecord.context := TaskRow.context row;
    TaskRecord.source_kind := TaskRow.source_kind row;
    TaskRecord.source_ref := TaskRow.source_ref row;
    TaskRecord.source_user_id := TaskRow.source_user_id row;
    TaskRecord.source_item_id := entry.2;
    TaskRecord.status := task_status_from_str (TaskRow.status row);
    TaskRecord.created_at_ms := i64_as_u64 (TaskRow.created_at_ms row);
    TaskRecord.updated_at_ms := i64_as_u64 (TaskRow.updated_at_ms row);
  |};
  task_revision := task_revision_of db row;
  escalation := None;
|}.

(* src: crates/bos-app/src/slices/follow_up_tasks/store.rs:415-474 list_tasks *)
Definition list_tasks (client_id : string) (status : option TaskStatus) (limit : N) (scope : OperatorScope.t)
    : AppOp (list TaskWithRevision) :=
  fun db =>
    let t := tables db in
    let rows := filter (fun row => string_eqb (TaskRow.client_id row) client_id
                  && map_or_true (fun st => string_eqb (TaskRow.status row) (task_status_str st)) status
                  && OperatorScope.sql_filter scope (TaskRow.source_user_id row)) (values (follow_up_tasks t)) in
    let joined := row ← rows; (pair row <$> joined_items t row) in
    (Ok (task_of_row db <$> sql_limit limit (sort_by_key task_order joined)), db).

(* src: crates/bos-app/src/slices/follow_up_tasks/store.rs:476-480 TaskAction *)
Inductive TaskAction := Complete | Reopen.

(* src: crates/bos-app/src/slices/follow_up_tasks/store.rs:483-488 TaskAction::change_kind *)
Definition change_kind (action : TaskAction) : string :=
  match action with Complete => "complete" | Reopen => "reopen" end.

(* src: crates/bos-app/src/slices/follow_up_tasks/store.rs:490-495 TaskAction::target_status *)
Definition target_status (action : TaskAction) : string :=
  match action with Complete => "done" | Reopen => "open" end.

(* src: crates/bos-app/src/slices/follow_up_tasks/store.rs:498-549 apply_task_action *)
Definition apply_task_action (ctx : ScopedMutationContext) (task_id : string) (action : TaskAction) : AppOp MutationOutcome.t :=
  let? row := read_tables (fun t => follow_up_tasks t !! (scoped_client_id ctx, task_id)) in
  let? row := op_lift (ok_or row (StoreError.Domain "task_not_found")) in
  op_lift (OperatorScope.require_source_user (scoped_scope ctx) (TaskRow.source_user_id row)) ;;?
  mutate constraint_failed
    (draft_request ctx TASK_ENTITY_KIND task_id (change_kind action) None
       (draft_status_json (TaskRow.status row)) (draft_status_json (target_status action)))
    (update_tables (fun t => set_follow_up_tasks t
       (alter (fun row => TaskRow.set_status row (target_status action) (u64_as_i64 (scoped_now_ms ctx)))
          (scoped_client_id ctx, task_id) (follow_up_tasks t)))).

(* src: crates/bos-app/src/slices/follow_up_tasks/store.rs:584-598 count_done_between *)
Definition count_done_between (client_id : string) (start_ms end_ms : N) : AppOp N :=
  read_tables (fun t => len (filter (fun row =>
    string_eqb (TaskRow.client_id row) client_id && string_eqb (TaskRow.status row) "done"
    && (u64_as_i64 start_ms <=? TaskRow.updated_at_ms row)%Z && (TaskRow.updated_at_ms row <? u64_as_i64 end_ms)%Z)
    (values (follow_up_tasks t)))).
End store.
End FollowUps.

(** ** Filling a draft *)

Module FollowUpFill.
Definition PROVENANCE_FIELDS : list string := ["title"; "due_date"; "context"].

(* src: crates/bos-app/src/slices/follow_up_tasks/service.rs:371-379 TaskFill *)
Record TaskFill := {
  fill_title : string;
  fill_due_date : option string;
  fill_context : string;
  fill_confidence : string;
  fill_provenance : list DraftFieldProvenance;
}.

(* src: crates/bos-app/src/slices/follow_up_tasks/service.rs:406-424 parse_task_fill_response_with_context (provenance) *)
Definition provenance_entry (entry : Json.Value) : option DraftFieldProvenance :=
  raw ← (value ← Json.get "field" entry; Json.as_str value);
  let field := trim raw in
  if existsb (string_eqb field) PROVENANCE_FIELDS
  then Some (Build_DraftFieldProvenance field
               (take_chars 300 (trim (default "" (value ← Json.get "quote" entry; Json.as_str value)))))
  else None.

(** [matches!(raw, ..)]. *)
Definition known_confidence (raw : string) : option string :=
  if existsb (string_eqb raw) ["high"; "medium"; "low"]%string then Some raw else None.

(** [.map(|date| normalize_civil_date(&date, ..)).transpose()]. *)
Definition fill_due (date : option string) (date_context : option DateInputContext) : Result string (option string) :=
  match date with
  | None => Ok None
  | Some date => match normalize_civil_date date date_context with
                 | Ok date => Ok (Some date)
                 | Err _ => Err ("due_date is not a supported date: " +:+ date)
                 end
  end.

(* src: crates/bos-app/src/slices/follow_up_tasks/service.rs:387-433 parse_task_fill_response_with_context *)
Definition parse_task_fill_response_with_context (response : Json.Value) (date_context : option DateInputContext)
    : Result string TaskFill :=
  title ← ok_or (Json.string_field response "title") "title missing or empty"%string;
  due_date ← fill_due (Json.string_field response "due_date") date_context;
  let context := default "" (Json.string_field response "context") in
  confidence ← ok_or (raw ← Json.string_field response "confidence"; known_confidence raw) "confidence missing or invalid"%string;
  let entries : option (list Json.Value) := (value ← Json.get "provenance" response; Json.as_array value) in
  let provenance := default [] (omap (M:=list) provenance_entry <$> entries) in
  Ok (Build_TaskFill (take_chars 200 title) due_date (take_chars 1000 context) confidence provenance).

(* src: crates/bos-app/src/slices/follow_up_tasks/service.rs:383-385 parse_task_fill_response *)
Definition parse_task_fill_response (response : Json.Value) : Result string TaskFill :=
  parse_task_fill_response_with_context response None.

(** [format!("fud_{}_{attempt}", item.item_id)]. *)
Definition draft_id_for (item : WorkItem.t) (attempt : N) : string :=
  "fud_" +:+ WorkItem.item_id item +:+ "_" +:+ fmt_dec attempt.

(* src: crates/bos-app/src/slices/follow_up_tasks/service.rs:436-460 draft_from_fill *)
Definition draft_from_fill (item : WorkItem.t) (fill : TaskFill) (attempt : N) (model : string) (now_ms : N) : FollowUpDraft.t := {|
  FollowUpDraft.draft_id := draft_id_for item attempt;
  FollowUpDraft.item_id := WorkItem.item_id item;
  FollowUpDraft.source_kind := WorkItem.source_kind item;
  FollowUpDraft.source_ref := WorkItem.source_ref item;
  FollowUpDraft.source_user_id := WorkItem.source_user_id item;
  FollowUpDraft.status := DraftStaged;
  FollowUpDraft.title := fill_title fill;
  FollowUpDraft.due_date := fill_due_date fill;
  FollowUpDraft.context := fill_context fill;
  FollowUpDraft.provenance := fill_provenance fill;
  FollowUpDraft.model := model;
  FollowUpDraft.confidence := fill_confidence fill;
  FollowUpDraft.task_id := None;
  FollowUpDraft.created_at_ms := now_ms;
  FollowUpDraft.updated_at_ms := now_ms;
|}.

(* src: crates/bos-app/src/slices/follow_up_tasks/service.rs:462-485 manual_draft *)
Definition manual_draft (item : WorkItem.t) (fields : FollowUps.FollowUpEditableFields) (attempt now_ms : N) : FollowUpDraft.t := {|
  FollowUpDraft.draft_id := draft_id_for item attempt;
  FollowUpDraft.item_id := WorkItem.item_id item;
  FollowUpDraft.source_kind := WorkItem.source_kind item;
  FollowUpDraft.source_ref := WorkItem.source_ref item;
  FollowUpDraft.source_user_id := WorkItem.source_user_id item;
  FollowUpDraft.status := DraftStaged;
  FollowUpDraft.title := FollowUps.edited_title fields;
  FollowUpDraft.due_date := FollowUps.edited_due_date fields;
  FollowUpDraft.context := FollowUps.edited_context fields;
  FollowUpDraft.provenance := [];
  FollowUpDraft.model := "manual";
  FollowUpDraft.confidence := "high";
  FollowUpDraft.task_id := None;
  FollowUpDraft.created_at_ms := now_ms;
  FollowUpDraft.updated_at_ms := now_ms;
|}.

(* src: crates/bos-app/src/slices/follow_up_tasks/service.rs:488-502 task_from_draft *)
Definition task_from_draft (draft : FollowUpDraft.t) (now_ms : N) : TaskRecord.t := {|
  TaskRecord.task_id := "task_" +:+ FollowUpDraft.draft_id draft;
  TaskRecord.title := FollowUpDraft.title draft;
  TaskRecord.due_date := FollowUpDraft.due_date draft;
  TaskRecord.context := FollowUpDraft.context draft;
  TaskRecord.source_kind := FollowUpDraft.source_kind draft;
  TaskRecord.source_ref := FollowUpDraft.source_ref draft;
  TaskRecord.source_user_id := FollowUpDraft.source_user_id draft;
  TaskRecord.source_item_id := Some (FollowUpDraft.item_id draft);
  TaskRecord.status := TaskOpen;
  TaskRecord.created_at_ms := now_ms;
  TaskRecord.updated_at_ms := now_ms;
|}.
End FollowUpFill.

(** ** The watchdog's lanes *)

Module Watchdog.
(* src: crates/bos-app/src/slices/follow_up_tasks/service.rs:570-575 WatchdogPolicy *)
Record WatchdogPolicy := {
  escalation_after_days : N;
  critical_after_days : N;
}.

(* src: crates/bos-app/src/slices/follow_up_tasks/service.rs:578-583 WatchdogPolicy::default *)
Definition default_policy : WatchdogPolicy := Build_WatchdogPolicy 1 7.

(* src: crates/bos-app/src/slices/follow_up_tasks/service.rs:666-668 day_number *)
Definition day_number (date : string) : option Z := civil_day_number date.

(** The level of a task that is [days_overdue] late, and its text. *)
Definition overdue_level (policy : WatchdogPolicy) (days_overdue : Z) : TaskEscalationLevel :=
  if (Z.of_N (critical_after_days policy) <=? days_overdue)%Z then Critical
  else if (Z.of_N (escalation_after_days policy) <=? days_overdue)%Z then Escalated
  else Missed.
Definition level_reason (level : TaskEscalationLevel) (days_overdue : Z) : option string :=
  let late := "missed follow-up by " +:+ fmt_int days_overdue +:+ " day(s)" in
  match level with
  | Missed => Some late
  | Escalated => Some (late +:+ "; escalation threshold reached")
  | Critical => Some (late +:+ "; critical escalation threshold reached")
  | NotEscalated => None
  end.

(* src: crates/bos-app/src/slices/follow_up_tasks/service.rs:588-648 classify_task_due *)
Definition classify_task_due (due_date : option string) (today : string) (policy : WatchdogPolicy) : TaskEscalation :=
  match (due ← due_date; day_number due), day_number today with
  | Some due_day, Some today_day =>
    let days := (due_day - today_day)%Z in
    if (0 <? days)%Z then Build_TaskEscalation Upcoming NotEscalated 0 days None
    else if (days =? 0)%Z then Build_TaskEscalation DueToday NotEscalated 0 0 None
    else let days_overdue := Z.abs days in
         let level := overdue_level policy days_overdue in
         Build_TaskEscalation Overdue level days_overdue 0 (level_reason level days_overdue)
  | _, _ => Build_TaskEscalation NoDueDate NotEscalated 0 0 None
  end.

(* src: crates/bos-app/src/slices/follow_up_tasks/service.rs:651-662 decorate_task_escalations *)
Definition decorate_task_escalations (entries : list TaskWithRevision) (today : string) : list TaskWithRevision :=
  (fun entry =>
    if bool_decide (TaskRecord.status (task entry) = TaskOpen)
    then Build_TaskWithRevision (task entry) (task_revision entry)
           (Some (classify_task_due (TaskRecord.due_date (task entry)) today default_policy))
    else entry) <$> entries.
End Watchdog.

(** ** Handlers ([routes.rs]) *)

Module FollowUpRoutes.
(** What a handler answers: a refusal of its own, what the store said, a draft, or tasks. *)
Inductive FollowUpAnswer :=
| Refused (status : N) (code : string)
| Failed (err : StoreError.t)
| Mutated (outcome : MutationOutcome.t)
| Drafted (draft : FollowUpDraftWithRevision)
| Listed (tasks : list TaskWithRevision).

Section routes.
Context (constraint_failed : string) (json_text : list (string * JsonValue) → string)
  (draft_json : FollowUpDraft.t → string) (provenance_json : list DraftFieldProvenance → string)
  (parse_provenance : string → option (list DraftFieldProvenance)) (parse_strings : string → option (list string)).

(** A store's answer as the handler's. *)
Definition answer {A} (f : A → FollowUpAnswer) (m : AppOp A) (db : AppDb) : FollowUpAnswer * AppDb :=
  match m db with
  | (Ok a, db) => (f a, db)
  | (Err err, db) => (Failed err, db)
  end.
Definition and_then {A} (m : AppOp A) (k : A → AppDb → FollowUpAnswer * AppDb) (db : AppDb) : FollowUpAnswer * AppDb :=
  match m db with
  | (Ok a, db) => k a db
  | (Err err, db) => (Failed err, db)
  end.

(* src: crates/bos-app/src/produce.rs:1121-1129 validate_item_for_kind *)
Definition validate_item_for_kind (item : WorkItem.t) (packet_kind : string) : Result string unit :=
  match WorkItem.status item with
  | Accepted =>
    guard_err (negb (existsb (fun kind => string_eqb kind packet_kind) (WorkItem.packet_kinds item))) "produce_kind_not_suggested"%string
  | _ => Err "produce_item_not_accepted"%string
  end.

(* src: crates/bos-app/src/slices/follow_up_tasks/routes.rs:39-105 manual_stage *)
Definition manual_stage (client_id actor_id : string) (scope : OperatorScope.t) (item_id title : string)
    (due_date : option string) (context idempotency_key : string) (now : N) (db : AppDb) : FollowUpAnswer * AppDb :=
  if is_blank idempotency_key then (Refused 400 "idempotency_key_required", db)
  else and_then (WorkStore.get_item_scoped parse_strings client_id item_id scope) (fun found db =>
    match found with
    | None => (Refused 422 "work_item_not_found", db)
    | Some entry =>
      let item := WorkItemWithRevision.item entry in
      match validate_item_for_kind item PACKET_KIND with
      | Err code => (Refused 422 code, db)
      | Ok _ =>
        and_then (FollowUps.active_draft_for_item parse_provenance client_id (WorkItem.item_id item)) (fun active db =>
          match active with
          | Some draft => (Drafted draft, db)
          | None =>
            match FollowUps.normalize_editable_fields title due_date context now with
            | Err err => (Failed err, db)
            | Ok fields =>
              and_then (FollowUps.count_drafts_for_item parse_provenance client_id (WorkItem.item_id item)) (fun count db =>
                let draft := FollowUpFill.manual_draft item fields (wrapping_add_u64 count 1) now in
                and_then (FollowUps.insert_draft constraint_failed draft_json provenance_json client_id actor_id draft idempotency_key)
                  (fun _ db =>
                    and_then (FollowUps.active_draft_for_item parse_provenance client_id (WorkItem.item_id item)) (fun active db =>
                      match active with
                      | Some draft => (Drafted draft, db)
                      | None => (Refused 500 "follow_up_draft_not_found", db)
                      end) db) db) db
            end
          end) db
      end
    end) db.

(* src: crates/bos-app/src/slices/follow_up_tasks/routes.rs:160-195 draft_update *)
Definition draft_update (ctx : ScopedMutationContext) (draft_id title : string) (due_date : option string) (context : string)
    (db : AppDb) : FollowUpAnswer * AppDb :=
  if is_blank (scoped_idempotency_key ctx) then (Refused 400 "idempotency_key_required", db)
  else answer Mutated (FollowUps.update_draft constraint_failed json_text parse_provenance ctx draft_id title due_date context) db.

(* src: crates/bos-app/src/slices/follow_up_tasks/routes.rs:197-243 draft_action *)
Definition draft_action (ctx : ScopedMutationContext) (draft_id : string) (action : FollowUpDraftActionKind) (db : AppDb)
    : FollowUpAnswer * AppDb :=
  if is_blank (scoped_idempotency_key ctx) then (Refused 400 "idempotency_key_required", db)
  else match action with
  | ApproveFollowUp =>
    and_then (FollowUps.get_draft parse_provenance (scoped_client_id ctx) draft_id (scoped_scope ctx)) (fun found db =>
      match found with
      | None => (Refused 422 "follow_up_draft_not_found", db)
      | Some found =>
        let task := FollowUpFill.task_from_draft (follow_up_draft found) (scoped_now_ms ctx) in
        answer Mutated (FollowUps.approve_draft constraint_failed parse_provenance ctx draft_id task) db
      end) db
  | RejectFollowUp => answer Mutated (FollowUps.reject_draft constraint_failed parse_provenance ctx draft_id) db
  end.

(** [today] is the operator's date. *)
(* src: crates/bos-app/src/slices/follow_up_tasks/routes.rs:255-299 tasks_list *)
Definition tasks_list (client_id : string) (scope : OperatorScope.t) (status today : option string) (db : AppDb)
    : FollowUpAnswer * AppDb :=
  let list (status : option TaskStatus) :=
    let decorated (today : option string) :=
      answer (fun tasks => Listed (match today with
                                   | Some today => Watchdog.decorate_task_escalations tasks today
                                   | None => tasks
                                   end)) (FollowUps.list_tasks client_id status 200 scope) db in
    match trim <$> today with
    | None => decorated None
    | Some raw => if is_empty raw then decorated None
                  else if is_civil_date raw then decorated (Some raw)
                  else (Refused 400 "task_today_invalid", db)
    end in
  match status with
  | None => list None
  | Some raw => if string_eqb raw "open" then list (Some TaskOpen)
                else if string_eqb raw "done" then list (Some TaskDone)
                else (Refused 400 "task_status_invalid", db)
  end.

(* src: crates/bos-app/src/slices/follow_up_tasks/routes.rs:301-333 task_action *)
Definition task_action (ctx : ScopedMutationContext) (task_id : string) (action : FollowUps.TaskAction) (db : AppDb)
    : FollowUpAnswer * AppDb :=
  if is_blank (scoped_idempotency_key ctx) then (Refused 400 "idempotency_key_required", db)
  else answer Mutated (FollowUps.apply_task_action constraint_failed ctx task_id action) db.
End routes.
End FollowUpRoutes.
