(* ===== verification/FollowUpProps.v ===== *)
(** * What the follow-up tasks guarantee

    An approved draft has its task, and only an approval makes one of a draft; what a
    model fills in is bounded; the watchdog counts the days of the calendar. *)

From Stdlib Require Import ZifyBool.
From S2P Require Import Prelude RustStd RustStr StoreCore StoreCoreProps AppOutbox AppOutboxProps Identity Schema SliceCore Operators WorkItems WorkQueue Calendar CalendarProps DateInput DateProps DraftStore DraftProps Json FollowUpTasks.
Import Spine Outbox Drafts FollowUps FollowUpRoutes Calendar DateInput.
#[local] Open Scope string_scope.
#[local] Open Scope list_scope.

Abbreviation drafts db := (follow_up_task_drafts (tables db)).
Abbreviation tasks db := (follow_up_tasks (tables db)).

Section follow_ups.
Context (parse_provenance : string → option (list DraftFieldProvenance)).
#[local] Hint Extern 0 (DraftStore FollowUpDraftRow.t _) => exact (FollowUpDraftStore parse_provenance) : typeclass_instances.

#[export] Instance follow_up_laws : DraftLaws DRAFT_TABLE.
Proof. by split. Qed.

Context (constraint_failed : string) (json_text : list (string * JsonValue) → string)
  (draft_json : FollowUpDraft.t → string) (provenance_json : list DraftFieldProvenance → string).
Implicit Types (db : AppDb).

(** ** The tables *)

Definition task_id_of (draft_id : string) : string := "task_" +:+ draft_id.

(** A task carries what its draft carries. *)
Definition task_matches (row : FollowUpDraftRow.t) (task : TaskRow.t) : Prop :=
  TaskRow.title task = FollowUpDraftRow.title row ∧ TaskRow.due_date task = FollowUpDraftRow.due_date row ∧
  TaskRow.context task = FollowUpDraftRow.context row ∧ TaskRow.source_kind task = FollowUpDraftRow.source_kind row ∧
  TaskRow.source_ref task = FollowUpDraftRow.source_ref row ∧ TaskRow.source_user_id task = FollowUpDraftRow.source_user_id row.

(** Up to its status and the time of its last change. *)
Definition same_task (task task' : TaskRow.t) : Prop :=
  TaskRow.set_status task (TaskRow.status task') (TaskRow.updated_at_ms task') = task'.

Definition draft_wf db (k : string * string) (row : FollowUpDraftRow.t) : Prop :=
  FollowUpDraftRow.client_id row = k.1 ∧ FollowUpDraftRow.draft_id row = k.2 ∧
  match FollowUpDraftRow.task_id row with
  | Some id => FollowUpDraftRow.status row = "approved" ∧ id = task_id_of k.2 ∧
               ∃ task, tasks db !! (k.1, id) = Some task ∧ task_matches row task
  | None => FollowUpDraftRow.status row ∈ ["staged"; "rejected"]
  end.

Definition task_wf (k : string * string) (task : TaskRow.t) : Prop :=
  TaskRow.client_id task = k.1 ∧ TaskRow.task_id task = k.2 ∧ TaskRow.status task ∈ ["open"; "done"].

Record follow_ups_wf db : Prop := {
  wf_drafts : ∀ k row, drafts db !! k = Some row → draft_wf db k row;
  wf_one : one_active (drafts db);
  wf_tasks : ∀ k task, tasks db !! k = Some task → task_wf k task;
}.

Definition tasks_kept db db' : Prop :=
  ∀ k task, tasks db !! k = Some task → ∃ task', tasks db' !! k = Some task' ∧ same_task task task'.

Lemma draft_wf_kept db db' k row : tasks_kept db db' → draft_wf db k row → draft_wf db' k row.
Proof.
  intros Hk (Hc & Hid & Ht). split; [done|]. split; [done|]. destruct (FollowUpDraftRow.task_id row) as [id|]; [|done].
  destruct Ht as (Hst & -> & task & Htask & Hm). destruct (Hk _ _ Htask) as (task' & Htask' & Hsame).
  do 2 (split; [done|]). exists task'. split; [done|]. by rewrite <- Hsame.
Qed.

Lemma tasks_kept_refl db db' : tasks db' = tasks db → tasks_kept db db'.
Proof. intros Ht k task Hk. rewrite Ht. exists task. split; [done|]. by destruct task. Qed.

(** The rows other than one keep, the tasks are kept. *)
Lemma follow_ups_wf_insert db db' k row :
  follow_ups_wf db → drafts db' = <[k := row]> (drafts db) → tasks_kept db db' →
  (∀ k task, tasks db' !! k = Some task → task_wf k task) → draft_wf db' k row → one_active (drafts db') → follow_ups_wf db'.
Proof.
  intros [Hd _ _] Hins Hk Ht Hrow Hone. split; [|done|done]. intros k' row'. rewrite Hins, lookup_insert_Some.
  intros [[<- <-]|[_ Hk']]; [done|]. by eapply draft_wf_kept, Hd.
Qed.

Lemma follow_ups_wf_same db db' : tables db' = tables db → follow_ups_wf db → follow_ups_wf db'.
Proof.
  intros Ht [Hd Ho Htk]. split; rewrite ?Ht; [|done|done]. intros k row Hk.
  eapply draft_wf_kept; [apply tasks_kept_refl; by rewrite Ht|by apply Hd].
Qed.

Definition good db : Prop := spine_wf db ∧ follow_ups_wf db.

(** One mutation: nothing, or its write. *)
Lemma mutation_keeps (request : MutationRequest.t) (write : SliceWrite) db :
  good db → write_spares write →
  (∀ db1, write db = (Ok tt, db1) → follow_ups_wf db1) →
  good (mutate constraint_failed request write db).2 ∧
  match mutate constraint_failed request write db with
  | (Ok (MutationOutcome.Applied _ _), db') => ∃ db1, write db = (Ok tt, db1) ∧ Db.domain db' = Db.domain db1
  | (_, db') => Db.domain db' = Db.domain db
  end.
Proof.
  intros [Hsp Hq] Hs Hw. destruct (slice_mutate_effect constraint_failed request write db Hsp Hs) as (He & Hsp' & _).
  assert (Hdom : ∀ d d', Db.domain d' = Db.domain d → follow_ups_wf d → follow_ups_wf d').
  { intros d d' Hd. apply follow_ups_wf_same. unfold tables. by rewrite Hd. }
  revert Hsp'. inversion He; simpl; intros Hsp'; (split; [split; [done|eapply Hdom; eauto]|eauto]).
Qed.

(** ** Staging and editing *)

Lemma insert_row_keeps c draft db db' :
  follow_ups_wf db → insert_row provenance_json c draft db = (Ok tt, db') → follow_ups_wf db'.
Proof.
  intros Hwf. unfold insert_row. destruct (bool_decide _ || _) eqn:He; [done|]. intros [= <-].
  apply orb_false_iff in He as [_ Hact].
  eapply (follow_ups_wf_insert db _ (c, FollowUpDraft.draft_id draft)); [done|reflexivity|by apply tasks_kept_refl
    |apply (wf_tasks _ Hwf)|by do 2 (split; [done|]); left|].
  set (row := staged_row provenance_json c draft).
  change (drafts (set_tables db _)) with (<[(c, FollowUpDraft.draft_id draft) := row]> (drafts db)).
  assert (Hno : ∀ k other, drafts db !! k = Some other → k.1 = c → FollowUpDraftRow.item_id other = FollowUpDraft.item_id draft →
    is_active other = true → False).
  { intros k other Hk Hc Hi Ha. pose proof (existsb_values_false _ _ _ _ Hact Hk) as Hn. unfold active_for in Hn.
    destruct (wf_drafts _ Hwf _ _ Hk) as [Hc' _]. unfold is_active in Ha. simpl in Ha.
    by rewrite Hc', Hc, Hi, !string_eqb_refl, Ha in Hn. }
  intros k1 k2 r1 r2. rewrite !lookup_insert_Some. intros [[<- <-]|[Hn1 H1]] [[<- <-]|[Hn2 H2]] Hc Hi Ha1 Ha2; [done|..].
  - destruct (Hno k2 r2); eauto.
  - destruct (Hno k1 r1); eauto.
  - by eapply (wf_one _ Hwf).
Qed.

Lemma insert_row_tables c draft : slice_write (insert_row provenance_json c draft).
Proof. apply (slice_write_if (fun db => _)), slice_write_update. Qed.

Lemma staging_good c actor draft key db :
  good db → good (insert_draft constraint_failed draft_json provenance_json c actor draft key db).2.
Proof.
  intros Hg. apply mutation_keeps; [done|apply slice_write_spares_receipts, insert_row_tables|].
  intros db1 Hw. eapply insert_row_keeps, Hw. apply Hg.
Qed.

(** What the slice's own check lets through. *)
Lemma checked ctx id db :
  (∃ row : FollowUpDraftRow.t, awaits (scoped_draft_context ctx) id db row ∧ FollowUps.require_staged parse_provenance ctx id db = (Ok tt, db)) ∨
  (∃ err, FollowUps.require_staged parse_provenance ctx id db = (Err err, db)).
Proof.
  unfold FollowUps.require_staged, require_draft_status, require_status_scoped, op_bind, read_tables, op_lift.
  change (draft_rows (tables db)) with (drafts db).
  destruct (drafts db !! (scoped_client_id ctx, id)) as [row|] eqn:Hrow; simpl; [|eauto].
  destruct (OperatorScope.require_source_user _ _) as [[]|] eqn:Hs; simpl; [|eauto].
  unfold guard_err. destruct (string_eqb (FollowUpDraftRow.status row) "staged") eqn:Hst; simpl; [|eauto].
  apply string_eqb_true in Hst. left. by exists row.
Qed.

Lemma staged_active db k row : drafts db !! k = Some row → FollowUpDraftRow.status row = "staged" → is_active row = true.
Proof. intros _ Hst. unfold is_active. simpl. by rewrite Hst. Qed.

(** A staged draft has no task. *)
Lemma staged_no_task db k row :
  follow_ups_wf db → drafts db !! k = Some row → FollowUpDraftRow.status row = "staged" → FollowUpDraftRow.task_id row = None.
Proof.
  intros Hwf Hk Hst. destruct (wf_drafts _ Hwf _ _ Hk) as (_ & _ & Ht). destruct (FollowUpDraftRow.task_id row); [|done].
  destruct Ht as [Ht _]. by rewrite Hst in Ht.
Qed.

Lemma edit_good ctx id title due context db :
  good db → good (update_draft constraint_failed json_text parse_provenance ctx id title due context db).2.
Proof.
  intros Hg. unfold update_draft, op_bind at 1. destruct (checked ctx id db) as [(row & (Hrow & _ & Hst) & ->)|[err ->]]; [|done].
  unfold op_bind at 1, op_lift at 1. destruct (normalize_editable_fields _ _ _ _) as [fields|]; [|done].
  unfold op_bind at 1, read_tables. change (drafts db !! (scoped_client_id ctx, id) = Some row) in Hrow. rewrite Hrow.
  unfold op_bind, op_lift. cbn [ok_or].
  apply mutation_keeps; [done|apply slice_write_spares_receipts, slice_write_update_row|].
  intros db1 Hw. destruct Hg as [_ Hwf]. pose proof (staged_active _ _ _ Hrow Hst) as Hact.
  erewrite (update_row_ok DRAFT_TABLE) in Hw; [|apply (wf_one _ Hwf)|exact Hrow|done|by intros _].
  injection Hw as <-. destruct (wf_drafts _ Hwf _ _ Hrow) as (Hc & Hid & Ht).
  eapply (follow_ups_wf_insert db _ (scoped_client_id ctx, id)); [done|reflexivity|by apply tasks_kept_refl|apply (wf_tasks _ Hwf)| |].
  - split; [done|]. split; [done|]. cbn. by rewrite (staged_no_task _ _ _ Hwf Hrow Hst) in *.
  - by apply (one_active_update _ _ row); [apply (wf_one _ Hwf)| | |].
Qed.

(** ** Decisions *)

Definition approved_task (ctx : ScopedMutationContext) (id : string) (row : FollowUpDraftRow.t) : TaskRow.t :=
  task_row (scoped_client_id ctx)
    (FollowUpFill.task_from_draft (follow_up_draft (draft_from_row parse_provenance row 0)) (scoped_now_ms ctx)) (scoped_now_ms ctx).

(** The transaction of an approval: the task's id decides. *)
Lemma approval_write_ok ctx id row db db1 :
  follow_ups_wf db → drafts db !! (scoped_client_id ctx, id) = Some row → FollowUpDraftRow.status row = "staged" →
  let task := FollowUpFill.task_from_draft (follow_up_draft (draft_from_row parse_provenance row 0)) (scoped_now_ms ctx) in
  approve_write constraint_failed parse_provenance ctx id task db = (Ok tt, db1) →
  tasks db !! (scoped_client_id ctx, task_id_of id) = None ∧
  drafts db1 = <[(scoped_client_id ctx, id) := FollowUpDraftRow.approve row (Some (task_id_of id)) (u64_as_i64 (scoped_now_ms ctx))]> (drafts db) ∧
  tasks db1 = <[(scoped_client_id ctx, task_id_of id) := approved_task ctx id row]> (tasks db).
Proof.
  intros Hwf Hrow Hst task. destruct (wf_drafts _ Hwf _ _ Hrow) as (Hc & Hid & _).
  assert (Htid : TaskRecord.task_id task = task_id_of id) by (unfold task; cbn; by rewrite Hid).
  unfold approve_write. erewrite op_bind_step.
  2: { apply (update_row_ok DRAFT_TABLE); [apply (wf_one _ Hwf)|exact Hrow|done|]. intros _. by apply (staged_active db (scoped_client_id ctx, id)). }
  unfold insert_task_within, op_bind, initialize_revision_within. rewrite Htid.
  set (db0 := set_tables db _). change (tasks db0) with (tasks db).
  destruct (decide (is_Some (tasks db !! (scoped_client_id ctx, task_id_of id)))) as [|Hn]; [done|].
  apply eq_None_not_Some in Hn. unfold update_tables. case_decide; [done|]. unfold write_revision. intros [= <-].
  split; [done|]. split; [|done]. reflexivity.
Qed.

Lemma approval_spares ctx id task : write_spares (approve_write constraint_failed parse_provenance ctx id task).
Proof.
  intros receipt db db' ([] & db1 & Hu & H)%op_bind_ok.
  destruct (slice_write_update_row constraint_failed _ _ _ _ _ Hu) as (<- & _ & _).
  unfold insert_task_within, op_bind, initialize_revision_within, update_tables in H.
  destruct (decide _); [done|]. destruct (decide _); [done|]. by injection H as <-.
Qed.

(** An approval creates its task at revision 1 and raises nothing else. *)
Lemma approval_raises ctx id task :
  raises_revisions (fun _ => approve_write constraint_failed parse_provenance ctx id task).
Proof.
  apply creates_raises, creates_seq.
  - apply spares_creates. intros receipt db db' Hu. by destruct (slice_write_update_row constraint_failed _ _ _ _ _ Hu) as (_ & -> & _).
  - apply creates_seq; [|apply initialize_creates]. apply spares_creates. intros receipt db db'. case_decide; [done|]. by intros [= <-].
Qed.

Lemma tasks_kept_insert db db' k task : tasks db !! k = None → tasks db' = <[k := task]> (tasks db) → tasks_kept db db'.
Proof.
  intros Hn Ht k' task' Hk. exists task'. rewrite Ht, lookup_insert_ne by (intros <-; by rewrite Hn in Hk). split; [done|]. by destruct task'.
Qed.

Lemma approved_wf ctx id row db db1 :
  follow_ups_wf db → drafts db !! (scoped_client_id ctx, id) = Some row → FollowUpDraftRow.status row = "staged" →
  tasks db !! (scoped_client_id ctx, task_id_of id) = None →
  drafts db1 = <[(scoped_client_id ctx, id) := FollowUpDraftRow.approve row (Some (task_id_of id)) (u64_as_i64 (scoped_now_ms ctx))]> (drafts db) →
  tasks db1 = <[(scoped_client_id ctx, task_id_of id) := approved_task ctx id row]> (tasks db) → follow_ups_wf db1.
Proof.
  intros Hwf Hrow Hst Hn Hd Ht. destruct (wf_drafts _ Hwf _ _ Hrow) as (Hc & Hid & _).
  eapply (follow_ups_wf_insert db db1 (scoped_client_id ctx, id)); [done|exact Hd|by eapply tasks_kept_insert| | |].
  - intros k task. rewrite Ht, lookup_insert_Some. intros [[<- <-]|[_ Hk]]; [|by apply (wf_tasks _ Hwf)].
    split; [done|]. split; [cbn; by rewrite Hid|]. by left.
  - split; [done|]. split; [done|]. cbn. do 2 (split; [done|]). exists (approved_task ctx id row).
    rewrite Ht, lookup_insert_eq. split; [done|]. by split_and!.
  - rewrite Hd. apply (one_active_update _ _ row); [apply (wf_one _ Hwf)|done|done|]. by eapply staged_active.
Qed.

Lemma approval_good ctx id row db :
  good db → drafts db !! (scoped_client_id ctx, id) = Some row →
  let task := FollowUpFill.task_from_draft (follow_up_draft (draft_from_row parse_provenance row 0)) (scoped_now_ms ctx) in
  good (approve_draft constraint_failed parse_provenance ctx id task db).2.
Proof.
  intros Hg Hrow task. unfold approve_draft, op_bind.
  destruct (checked ctx id db) as [(row' & (Hrow' & _ & Hst) & ->)|[err ->]]; [|done].
  change (drafts db !! (scoped_client_id ctx, id) = Some row') in Hrow'. rewrite Hrow in Hrow'. injection Hrow' as <-.
  apply mutation_keeps; [done|apply approval_spares|]. destruct Hg as [_ Hwf].
  intros db1 (Hn & Hd & Ht)%approval_write_ok; [|done..]. by eapply approved_wf.
Qed.

Lemma rejection_good ctx id db : good db → good (reject_draft constraint_failed parse_provenance ctx id db).2.
Proof.
  intros Hg. unfold reject_draft, reject, op_bind. pose proof (require_staged_cases DRAFT_TABLE (scoped_draft_context ctx) id db) as Hr.
  destruct (Drafts.require_staged (scoped_draft_context ctx) DRAFT_TABLE id db) as [[u|e] db0] eqn:Hs; [|by injection Hr as _ ->].
  apply require_staged_ok in Hs as [-> [row Haw]].
  apply mutation_keeps; [done|apply reject_write_spares|]. destruct Hg as [_ Hwf].
  pose proof (proj1 Haw) as Hrow. pose proof (proj2 (proj2 Haw)) as Hst. destruct (wf_drafts _ Hwf _ _ Hrow) as (Hc & Hid & _).
  intros db1 Hw. rewrite (reject_write_ok DRAFT_TABLE constraint_failed _ _ _ row (wf_one _ Hwf) Hrow) in Hw.
  injection Hw as <-.
  eapply (follow_ups_wf_insert db _ (scoped_client_id ctx, id)); [done|reflexivity|by apply tasks_kept_refl|apply (wf_tasks _ Hwf)| |].
  - split; [done|]. split; [done|]. cbn. rewrite (staged_no_task _ _ _ Hwf Hrow Hst). right. by left.
  - eapply one_active_reject; [apply (wf_one _ Hwf)|exact Hrow|done].
Qed.

(** ** Handlers *)

Lemma get_draft_cases c id scope db :
  get_draft parse_provenance c id scope db =
  (Ok (row ← drafts db !! (c, id);
       if OperatorScope.matches_source_user scope (FollowUpDraftRow.source_user_id row)
       then Some (draft_from_row parse_provenance row (draft_revision c db row)) else None), db).
Proof.
  unfold get_draft, get_draft_scoped, op_bind, op_get, op_lift, read_row. change (draft_rows (tables db)) with (drafts db).
  destruct (drafts db !! (c, id)) as [row|]; [|done]. cbn.
  by destruct (OperatorScope.matches_source_user scope (FollowUpDraftRow.source_user_id row)).
Qed.

Lemma good_answer {A} (f : A → FollowUpAnswer) (m : AppOp A) db : good (m db).2 → good (answer f m db).2.
Proof. unfold answer. by destruct (m db) as [[]]. Qed.

Lemma decision_good ctx id action db :
  good db → good (draft_action constraint_failed parse_provenance ctx id action db).2.
Proof.
  intros Hg. unfold draft_action. destruct (is_blank _); [done|]. destruct action.
  - unfold and_then. rewrite get_draft_cases. destruct (drafts db !! (scoped_client_id ctx, id)) as [row|] eqn:Hrow; [|done]. cbn [mbind option_bind].
    destruct (OperatorScope.matches_source_user _ _); [|done]. by apply good_answer, (approval_good ctx id row).
  - by apply good_answer, rejection_good.
Qed.

Lemma good_task ctx id action db : good db → good (task_action constraint_failed ctx id action db).2.
Proof.
  intros Hg. unfold task_action. destruct (is_blank _); [done|]. apply good_answer.
  unfold apply_task_action, op_bind, read_tables, op_lift.
  destruct (tasks db !! (scoped_client_id ctx, id)) as [task|]; cbn; [|done].
  destruct (OperatorScope.require_source_user _ _); [|done].
  apply mutation_keeps; [done|apply slice_write_spares_receipts, slice_write_update|].
  intros db1 [= <-]. destruct Hg as [_ [Hd Ho Ht]].
  assert (Hkept : tasks_kept db (set_tables db (set_follow_up_tasks (tables db)
    (alter (fun row => TaskRow.set_status row (target_status action) (u64_as_i64 (scoped_now_ms ctx))) (scoped_client_id ctx, id) (tasks db))))).
  { intros k t Hk. cbn. rewrite lookup_alter. case_decide; [subst k; rewrite Hk|rewrite Hk]; eexists; (split; [reflexivity|by destruct t]). }
  split; [|done|].
  - intros k row Hk. eapply draft_wf_kept; [exact Hkept|]. by apply Hd.
  - intros k t. cbn. rewrite lookup_alter_Some. intros [(_ & t0 & Hk & ->)|[_ Hk]]; [|by apply Ht].
    destruct (Ht _ _ Hk) as (Hc & Hid & _). split; [done|]. split; [done|]. destruct action; [right; by left|by left].
Qed.

(** ** All requests *)

Context (parse_strings : string → option (list string)).

Inductive Call :=
| CStage (client_id actor_id : string) (draft : FollowUpDraft.t) (key : string)
| CManual (client_id actor_id : string) (scope : OperatorScope.t) (item_id title : string) (due_date : option string)
    (context key : string) (now_ms : N)
| CEdit (ctx : ScopedMutationContext) (draft_id title : string) (due_date : option string) (context : string)
| CDecide (ctx : ScopedMutationContext) (draft_id : string) (action : FollowUpDraftActionKind)
| CTask (ctx : ScopedMutationContext) (task_id : string) (action : TaskAction)
| COther (f : AppDb → AppDb).

Definition serve db (call : Call) : AppDb :=
  match call with
  | CStage c actor draft key => (insert_draft constraint_failed draft_json provenance_json c actor draft key db).2
  | CManual c actor scope item title due context key now =>
    (manual_stage constraint_failed draft_json provenance_json parse_provenance parse_strings c actor scope item title due context key now db).2
  | CEdit ctx id title due context => (draft_update constraint_failed json_text parse_provenance ctx id title due context db).2
  | CDecide ctx id action => (draft_action constraint_failed parse_provenance ctx id action db).2
  | CTask ctx id action => (task_action constraint_failed ctx id action db).2
  | COther f => f db
  end.
Definition serve_all : AppDb → list Call → AppDb := foldl serve.

(** Other slices leave the drafts alone; they may add tasks, and change a task's status. *)
Definition allowed (call : Call) : Prop :=
  match call with
  | COther f => ∀ db, spine_wf db → spine_wf (f db) ∧ drafts (f db) = drafts db ∧ tasks_kept db (f db) ∧
                      ((∀ k task, tasks db !! k = Some task → task_wf k task) → ∀ k task, tasks (f db) !! k = Some task → task_wf k task)
  | _ => True
  end.

Lemma active_draft_reads c item : reads (active_draft_for_item parse_provenance c item).
Proof.
  apply reads_bind; [done|]. intros db. apply reads_bind; [apply reads_lift|]. intros [entry|]; [|done]. by apply reads_map.
Qed.

Lemma get_item_reads c id scope : reads (WorkStore.get_item_scoped parse_strings c id scope).
Proof.
  apply reads_bind.
  - unfold WorkStore.get_item_unscoped. intros db. by destruct (work_items (tables db) !! _).
  - intros [entry|]; [|done]. apply reads_bind; [|done].
    unfold WorkStore.item_visible_to_scope. destruct scope; [done|]. by case_bool_decide.
Qed.

Lemma good_then {A} (m : AppOp A) (k : A → AppDb → FollowUpAnswer * AppDb) db :
  reads m → (∀ a, good (k a db).2) → good db → good (and_then m k db).2.
Proof. intros Hm Hk Hg. unfold and_then. pose proof (Hm db) as Hdb. destruct (m db) as [[a|e] db']; simpl in Hdb; subst db'; auto. Qed.

Lemma good_manual c actor scope item title due context key now db :
  good db →
  good (manual_stage constraint_failed draft_json provenance_json parse_provenance parse_strings c actor scope item title due context key now db).2.
Proof.
  intros Hg. unfold manual_stage. destruct (is_blank key); [done|]. apply good_then; [apply get_item_reads| |done].
  intros [entry|]; [|done]. destruct (validate_item_for_kind _ _); [|done]. apply good_then; [apply active_draft_reads| |done].
  intros [active|]; [done|]. destruct (normalize_editable_fields _ _ _ _); [|done]. apply good_then; [done| |done].
  intros count. unfold and_then at 1. set (draft := FollowUpFill.manual_draft _ _ _ _).
  pose proof (staging_good c actor draft key db Hg) as Hs.
  destruct (insert_draft _ _ _ _ _ _ _ db) as [[outcome|e] db1]; [|done]. simpl in Hs.
  apply good_then; [apply active_draft_reads| |done]. by intros [].
Qed.

Lemma serve_good db call : allowed call → good db → good (serve db call).
Proof.
  intros Ha Hg. destruct call as [c actor draft key|c actor scope item title due context key now|ctx id title due context|ctx id action|ctx id action|f]; simpl.
  - by apply staging_good.
  - by apply good_manual.
  - unfold draft_update. destruct (is_blank _); [done|]. by apply good_answer, edit_good.
  - by apply decision_good.
  - by apply good_task.
  - destruct Hg as [Hsp [Hd Ho Ht]]. destruct (Ha db Hsp) as (Hsp' & Hdr & Hk & Htk). split; [done|]. split; rewrite ?Hdr; [|done|by apply Htk].
    intros k row Hrow. eapply draft_wf_kept; [exact Hk|]. by apply Hd.
Qed.

Lemma serve_all_good calls db : Forall allowed calls → good db → good (serve_all db calls).
Proof. intros Hc. revert db. induction Hc as [|call calls Ha Hcs IH]; intros db Hg; [done|]. apply IH. by apply serve_good. Qed.

(** ** Claims *)

(** Every approved follow-up has its task.  Whatever drafts are staged, by a model's fill
    or by hand, edited, approved or rejected by whomever, whatever tasks are completed or
    reopened, and whatever other slices do: a draft is approved exactly when it names a
    task, the one named after it; that task exists and carries the draft's title, date,
    context and source; of an item's drafts at most one is not rejected; and every task is
    open or done. *)
Theorem follow_ups_always_wf db calls :
  Forall allowed calls → spine_wf db → follow_ups_wf db → follow_ups_wf (serve_all db calls).
Proof. intros Hc Hsp Hwf. by apply serve_all_good. Qed.

(** C29: An approval makes exactly its task, or changes nothing.  If the approve action is
    answered as applied, the draft was staged and within the operator's scope and no task
    had its name; now it is approved, its task - open, with what the row holds - is there,
    and no other draft or task has changed.  Whatever else is answered, no table has. *)
Theorem approval_makes_its_task ctx id db :
  spine_wf db → follow_ups_wf db →
  match draft_action constraint_failed parse_provenance ctx id ApproveFollowUp db with
  | (Mutated (MutationOutcome.Applied _ _), db') => ∃ row,
      drafts db !! (scoped_client_id ctx, id) = Some row ∧ FollowUpDraftRow.status row = "staged" ∧
      OperatorScope.matches_source_user (scoped_scope ctx) (FollowUpDraftRow.source_user_id row) = true ∧
      tasks db !! (scoped_client_id ctx, task_id_of id) = None ∧
      drafts db' = <[(scoped_client_id ctx, id) := FollowUpDraftRow.approve row (Some (task_id_of id)) (u64_as_i64 (scoped_now_ms ctx))]> (drafts db) ∧
      ∃ task, tasks db' = <[(scoped_client_id ctx, task_id_of id) := task]> (tasks db) ∧
        task_matches row task ∧ TaskRow.status task = "open" ∧ TaskRow.created_at_ms task = u64_as_i64 (scoped_now_ms ctx)
  | (_, db') => Db.domain db' = Db.domain db
  end.
Proof.
  intros Hsp Hwf. unfold draft_action. destruct (is_blank _); [done|]. unfold and_then. rewrite get_draft_cases.
  destruct (drafts db !! (scoped_client_id ctx, id)) as [row|] eqn:Hrow; [|done]. cbn [mbind option_bind].
  destruct (OperatorScope.matches_source_user _ _) eqn:Hscope; [|done].
  set (task := FollowUpFill.task_from_draft _ _). unfold answer, approve_draft, op_bind.
  destruct (checked ctx id db) as [(row' & (Hrow' & _ & Hst) & ->)|[err ->]]; [|done].
  change (drafts db !! (scoped_client_id ctx, id) = Some row') in Hrow'. rewrite Hrow in Hrow'. injection Hrow' as <-.
  set (request := draft_request _ _ _ _ _ _ _).
  destruct (mutation_keeps request (approve_write constraint_failed parse_provenance ctx id task) db) as [_ Hm];
    [done|apply approval_spares| |].
  { intros db1 (Hn & Hd & Ht)%approval_write_ok; [|done..]. by eapply approved_wf. }
  destruct (mutate _ _ _ db) as [[[]|err] db']; [|done..]. destruct Hm as (db1 & Hw & Hd).
  apply approval_write_ok in Hw as (Hn & Hdr & Ht); [|done..].
  assert (Htab : tables db' = tables db1) by (unfold tables; by rewrite Hd).
  exists row. do 4 (split; [done|]). rewrite Htab. split; [done|]. exists (approved_task ctx id row). by split_and!.
Qed.
End follow_ups.

(** ** What a fill holds *)

Lemma take_chars_bound n s : (str_chars (take_chars n s) ≤ N.of_nat n)%N.
Proof.
  unfold str_chars, take_chars. rewrite String.list_ascii_of_string_of_list_ascii.
  pose proof (chars_take_count n (String.list_ascii_of_string s)). lia.
Qed.

Lemma take_chars_nonempty n s : s ≠ "" → take_chars (S n) s ≠ "".
Proof. destruct s as [|a s]; [done|]. intros _. unfold take_chars. simpl. by destruct (begins_char a). Qed.

Lemma string_field_nonempty value key raw : Json.string_field value key = Some raw → raw ≠ "".
Proof.
  unfold Json.string_field. destruct (Json.get key value) as [v|]; [|done]. cbn. destruct (Json.as_str v) as [s|]; [|done]. cbn.
  destruct (trim s) as [|a t] eqn:Ht; [done|]. case_match; [|done]. by intros [= <-].
Qed.

Lemma provenance_bounded entry p :
  FollowUpFill.provenance_entry entry = Some p → field p ∈ FollowUpFill.PROVENANCE_FIELDS ∧ (str_chars (quote p) ≤ 300)%N.
Proof.
  unfold FollowUpFill.provenance_entry. intros (raw & _ & H)%bind_Some.
  destruct (existsb (string_eqb (trim raw)) FollowUpFill.PROVENANCE_FIELDS) eqn:He; [|done]. injection H as <-. cbn [field quote].
  split; [|apply (take_chars_bound 300)].
  apply existsb_exists in He as (f & Hf & Heq%string_eqb_true). rewrite Heq. by apply list_elem_of_In.
Qed.

Definition quote_bounded (p : DraftFieldProvenance) : Prop :=
  field p ∈ FollowUpFill.PROVENANCE_FIELDS ∧ (str_chars (quote p) ≤ 300)%N.

(** What a model fills in is bounded.  An accepted answer has a title of at most 200
    characters that is not empty, at most 1000 characters of context, a due date that
    exists if it has one, one of the three confidences, and its quotes are at most 300
    characters each and are for the three fields only. *)
Theorem fill_is_bounded response date_context fill :
  (∀ c, date_context = Some c → good_context c) →
  FollowUpFill.parse_task_fill_response_with_context response date_context = Ok fill →
  FollowUpFill.fill_title fill ≠ "" ∧ (str_chars (FollowUpFill.fill_title fill) ≤ 200)%N ∧
  (str_chars (FollowUpFill.fill_context fill) ≤ 1000)%N ∧
  (∀ date, FollowUpFill.fill_due_date fill = Some date → real_date date) ∧
  FollowUpFill.fill_confidence fill ∈ ["high"; "medium"; "low"] ∧
  Forall quote_bounded (FollowUpFill.fill_provenance fill).
Proof.
  intros Hctx. unfold FollowUpFill.parse_task_fill_response_with_context.
  destruct (Json.string_field response "title") as [title|] eqn:Ht; [|done]. cbn [ok_or mbind Result_bind].
  destruct (FollowUpFill.fill_due _ _) as [due|] eqn:Hdue; [|done]. cbn [mbind Result_bind].
  destruct (raw ← Json.string_field response "confidence"; FollowUpFill.known_confidence raw) as [conf|] eqn:Hconf; [|done].
  cbn [ok_or mbind Result_bind]. intros [= <-]. cbn [FollowUpFill.fill_title FollowUpFill.fill_context FollowUpFill.fill_due_date
    FollowUpFill.fill_confidence FollowUpFill.fill_provenance].
  split; [by eapply take_chars_nonempty, string_field_nonempty|]. split; [apply (take_chars_bound 200)|].
  split; [apply (take_chars_bound 1000)|]. split; [|split].
  - intros date ->. unfold FollowUpFill.fill_due in Hdue. destruct (Json.string_field response "due_date") as [raw|]; [|done].
    destruct (normalize_civil_date raw date_context) as [r|] eqn:Hr; [|done]. injection Hdue as <-. by eapply accepted_real.
  - apply bind_Some in Hconf as (raw & _ & Hk). unfold FollowUpFill.known_confidence in Hk. case_match eqn:He; [|done]. injection Hk as <-.
    apply existsb_exists in He as (c & Hc & <-%string_eqb_true). by apply list_elem_of_In.
  - destruct (value ← Json.get "provenance" response; Json.as_array value) as [entries|]; [|constructor]. cbn.
    apply Forall_forall. intros p (entry & _ & Hp)%list_elem_of_omap. by eapply provenance_bounded.
Qed.

(** ** Days between two dates *)

Lemma iter_days n y m d :
  valid_date (y, m, d) → Nat.iter n next_date (y, m, d) = civil_from_days (days_from_civil y m d + Z.of_nat n)%Z.
Proof.
  intros Hv. induction n as [|n IH]; simpl.
  - by rewrite Z.add_0_r, civil_of_days.
  - rewrite IH, <- civil_next, <- Z.add_assoc. by replace (Z.of_nat n + 1)%Z with (Z.pos (Pos.of_succ_nat n)) by lia.
Qed.

Lemma days_apart n y m d y' m' d' :
  valid_date (y, m, d) → Nat.iter n next_date (y, m, d) = (y', m', d') →
  days_from_civil y' m' d' = (days_from_civil y m d + Z.of_nat n)%Z.
Proof.
  intros Hv Hn. rewrite iter_days in Hn by done. pose proof (days_of_civil (days_from_civil y m d + Z.of_nat n)%Z) as H.
  by rewrite Hn in H.
Qed.

Definition days_overdue_by (policy : Watchdog.WatchdogPolicy) (n : nat) : TaskEscalation :=
  if (n =? 0)%nat then Build_TaskEscalation DueToday NotEscalated 0 0 None
  else let level := Watchdog.overdue_level policy (Z.of_nat n) in
       Build_TaskEscalation Overdue level (Z.of_nat n) 0 (Watchdog.level_reason level (Z.of_nat n)).

(** The watchdog counts the days of the calendar.  Against a day of the calendar, a
    task due [n] days earlier - stepping through the calendar day by day - is overdue by
    exactly [n] days and critical from the policy's threshold on, one due that day is due
    today, one due [n] days later is due in [n] days; a task without a date, or with a text
    that is none, is in its own lane and never escalates.  With the default policy an
    overdue task is escalated at once and critical after a week. *)
Theorem watchdog_counts_days y m d n y' m' d' policy :
  plain_date y m d → Nat.iter n next_date (y, m, d) = (y', m', d') → plain_date y' m' d' →
  Watchdog.classify_task_due (Some (ymd y m d)) (ymd y' m' d') policy =
    days_overdue_by policy n ∧
  Watchdog.classify_task_due (Some (ymd y' m' d')) (ymd y m d) policy =
    Build_TaskEscalation (if (n =? 0)%nat then DueToday else Upcoming) NotEscalated 0 (Z.of_nat n) None ∧
  (∀ due, option_map is_civil_date due ≠ Some true →
     Watchdog.classify_task_due due (ymd y m d) policy = Build_TaskEscalation NoDueDate NotEscalated 0 0 None) ∧
  ((0 < n)%nat → Watchdog.overdue_level Watchdog.default_policy (Z.of_nat n) = if (n <? 7)%nat then Escalated else Critical).
Proof.
  intros Hp Hn Hp'. pose proof (days_apart n y m d y' m' d' (proj1 Hp) Hn) as Hdays.
  unfold Watchdog.classify_task_due, Watchdog.day_number. cbn [mbind option_bind].
  rewrite !day_number_plain by done. rewrite Hdays. set (day := days_from_civil y m d). split_and!.
  - replace (day - (day + Z.of_nat n))%Z with (- Z.of_nat n)%Z by lia.
    destruct (Z.ltb_spec 0 (- Z.of_nat n)); [lia|]. destruct n as [|n]; [done|].
    destruct (Z.eqb_spec (- Z.of_nat (S n)) 0); [lia|]. replace (Z.abs (- Z.of_nat (S n))) with (Z.of_nat (S n)) by lia. done.
  - replace (day + Z.of_nat n - day)%Z with (Z.of_nat n) by lia. destruct n as [|n]; [done|].
    destruct (Z.ltb_spec 0 (Z.of_nat (S n))); [done|lia].
  - intros [due|]; [|done]. cbn. unfold is_civil_date, civil_day_number.
    destruct (strict_civil_date due); [|done]. rewrite bool_decide_eq_true_2 by done. done.
  - intros H0. unfold Watchdog.overdue_level. cbn [Watchdog.default_policy Watchdog.critical_after_days Watchdog.escalation_after_days Z.of_N].
    destruct (Z.leb_spec 7 (Z.of_nat n)), (Nat.ltb_spec n 7); try lia; [done|].
    destruct (Z.leb_spec 1 (Z.of_nat n)); [done|lia].
Qed.

(** ** Demonstrations *)

Definition no_provenance (_ : string) : option (list DraftFieldProvenance) := None.
Definition demo_draft : FollowUpDraft.t :=
  FollowUpDraft.mk "fud_wi_1_1" "wi_1" "email" "msg-1" (Some "user_ada") DraftStaged "Reply to Dana" (Some "2026-06-15")
    "Dana waits for the quote." [] "claude" "high" None 100 100.
Definition demo_ctx : ScopedMutationContext :=
  Build_ScopedMutationContext "acme" "user_ada" (OperatorScope.User "user_ada") (Some 1%N) "approve-1" 200.
Definition demo_new : AppDb := spine_new (mk_tables ∅ empty_slices).
Abbreviation demo_serve := (serve_all no_provenance "UNIQUE" (fun _ => "{}") (fun _ => "{}") (fun _ => "[]") (fun _ => None)).
Definition demo_calls : list Call :=
  [CStage "acme" "user_ada" demo_draft "stage-1"; CDecide demo_ctx "fud_wi_1_1" ApproveFollowUp].
Definition demo_staged : AppDb := demo_serve demo_new (take 1 demo_calls).

Lemma demo_new_good : good no_provenance demo_new.
Proof. split; [apply spine_wf_new|]. by split. Qed.

Lemma follow_ups_always_wf_witness :
  ∃ row task, drafts (demo_serve demo_new demo_calls) !! ("acme", "fud_wi_1_1") = Some row ∧
    tasks (demo_serve demo_new demo_calls) !! ("acme", "task_fud_wi_1_1") = Some task ∧ task_matches row task.
Proof.
  assert (Hex : match drafts (demo_serve demo_new demo_calls) !! ("acme", "fud_wi_1_1") with
    | Some row => FollowUpDraftRow.task_id row = Some "task_fud_wi_1_1" | None => False end) by by vm_compute.
  destruct (drafts (demo_serve demo_new demo_calls) !! ("acme", "fud_wi_1_1")) as [row|] eqn:Hrow; [|destruct Hex].
  destruct (wf_drafts _ _ (follow_ups_always_wf no_provenance "UNIQUE" (fun _ => "{}") (fun _ => "{}") (fun _ => "[]") (fun _ => None)
    demo_new demo_calls ltac:(by repeat constructor) (proj1 demo_new_good) (proj2 demo_new_good)) _ _ Hrow) as (_ & _ & Ht).
  rewrite Hex in Ht. destruct Ht as (_ & _ & task & Htask & Hm). exists row, task. split; [reflexivity|]. split; [exact Htask|exact Hm].
Defined.

Lemma approval_makes_its_task_witness :
  ∃ row task, drafts demo_staged !! ("acme", "fud_wi_1_1") = Some row ∧ task_matches row task ∧ TaskRow.status task = "open" ∧
    tasks (draft_action "UNIQUE" no_provenance demo_ctx "fud_wi_1_1" ApproveFollowUp demo_staged).2
      = <[("acme", "task_fud_wi_1_1") := task]> (tasks demo_staged).
Proof.
  assert (Hg : good no_provenance demo_staged) by (apply serve_all_good; [by repeat constructor|exact demo_new_good]).
  pose proof (approval_makes_its_task no_provenance "UNIQUE" demo_ctx "fud_wi_1_1" demo_staged (proj1 Hg) (proj2 Hg)) as H.
  assert (Hex : match draft_action "UNIQUE" no_provenance demo_ctx "fud_wi_1_1" ApproveFollowUp demo_staged with
    | (Mutated (MutationOutcome.Applied _ _), _) => True | _ => False end) by by vm_compute.
  destruct (draft_action _ _ _ _ _ _) as [[st code|e|[rid rev|rid rev|rid rev]|d|l] db']; try (destruct Hex).
  destruct H as (row & Hrow & _ & _ & _ & _ & task & Ht & Hm & Hs & _). exists row, task.
  split; [exact Hrow|]. split; [exact Hm|]. split; [exact Hs|exact Ht].
Defined.

Definition demo_response : Json.Value := Json.Obj [("title", Json.Str " Reply to Dana "); ("due_date", Json.Str "June 15, 2026");
  ("confidence", Json.Str "high"); ("provenance", Json.Arr [Json.Obj [("field", Json.Str "due_date"); ("quote", Json.Str "by Monday")]])].

Definition demo_dates : DateInputContext := from_epoch_ms 1781000000000 "UTC".
Lemma demo_dates_good c : Some demo_dates = Some c → good_context c.
Proof. intros H. injection H as H. rewrite <- H. by apply from_epoch_good. Qed.
Definition demo_filled : Result string FollowUpFill.TaskFill :=
  FollowUpFill.parse_task_fill_response_with_context demo_response (Some demo_dates).
Lemma demo_filled_due : match demo_filled with Ok fill => FollowUpFill.fill_due_date fill = Some "2026-06-15" | Err _ => False end.
Proof. by vm_compute. Qed.

Lemma fill_is_bounded_witness :
  ∃ fill, demo_filled = Ok fill ∧ FollowUpFill.fill_due_date fill = Some "2026-06-15" ∧ real_date "2026-06-15" ∧
    (str_chars (FollowUpFill.fill_title fill) ≤ 200)%N.
Proof.
  pose proof demo_filled_due as Hd. destruct demo_filled as [fill|e] eqn:Hf; [|destruct Hd].
  destruct (fill_is_bounded demo_response (Some demo_dates) fill demo_dates_good Hf) as (_ & Ht & _ & Hdue & _).
  exists fill. split; [reflexivity|]. split; [exact Hd|]. split; [exact (Hdue _ Hd)|exact Ht].
Defined.

(** A leap day in between. *)
Lemma watchdog_counts_days_witness :
  lane (Watchdog.classify_task_due (Some "2028-02-27") "2028-03-05" Watchdog.default_policy) = Overdue ∧
  Watchdog.classify_task_due (Some (ymd 2028 2 27)) (ymd 2028 3 5) Watchdog.default_policy
  = Build_TaskEscalation Overdue Critical 7 0 (Some "missed follow-up by 7 day(s); critical escalation threshold reached").
Proof.
  split; [reflexivity|].
  exact (proj1 (watchdog_counts_days 2028 2 27 7 2028 3 5 Watchdog.default_policy
    ltac:(by vm_compute) ltac:(by vm_compute) ltac:(by vm_compute))).
Defined.
