(* ===== verification/LedgerDrafts.v ===== *)
(** * Ledger entry drafts ([bos-app/src/slices/ledger_drafts/])

    A received payment, read from an e-mail by a model whose answer is checked, is
    staged as a draft, edited, and approved or rejected.  Approving it enqueues the
    record of the payment: a receipt at Invoice Ninja, or a payment of the one open
    invoice of that balance in the cached QuickBooks books.

    The table is one of the interface of DraftStore.v.  [draft_json], [value_text],
    [provenance_json], [receipt_json] and [payment_json] are serde's texts, [parse_provenance],
    [parse_receipt] and [parse_payment] read them back.  The handlers are after
    authentication.  The request to the model is not here. *)

From S2P Require Import Prelude RustStd RustStr StoreCore AppOutbox Identity AccountingRecords Schema Operators WorkItems WorkQueue Calendar DateInput DraftStore Json ProviderWrites AccountingStore AccountingViews FollowUpTasks.
Import Spine DateInput.

(** ** Data *)

(* src: crates/bos-contracts/src/ledger_drafts.rs:12-19 LedgerDraftStatus *)
Inductive LedgerDraftStatus := LedgerStaged | LedgerApproved | LedgerRejected.

Module LedgerEntryDraft.
(* src: crates/bos-contracts/src/ledger_drafts.rs:21-55 LedgerEntryDraft *)
Record t := mk {
  draft_id : string;
  item_id : string;
  source_kind : string;
  source_ref : string;
  source_user_id : option string;
  status : LedgerDraftStatus;
  payer_name : string;
  payer_email : option string;
  amount_cents : Z;
  paid_date : string;
  description : string;
  provenance : list DraftFieldProvenance;
  model : string;
  confidence : string;
  outbox_job_id : option string;
  created_at_ms : N;
  updated_at_ms : N;
}.
End LedgerEntryDraft.

(* src: crates/bos-contracts/src/ledger_drafts.rs:57-65 LedgerDraftWithRevision *)
Record LedgerDraftWithRevision := {
  ledger_draft : LedgerEntryDraft.t;
  ledger_revision : N;
  ledger_job : option OutboxJobSummary;
}.

(* src: crates/bos-contracts/src/ledger_drafts.rs:88-94 LedgerDraftActionKind *)
Inductive LedgerDraftActionKind := ApproveLedger | RejectLedger.

(* src: crates/bos-app/src/slices/ledger_drafts/store.rs:354-360 status_from_str *)
Definition ledger_status_from_str (raw : string) : LedgerDraftStatus :=
  if string_eqb raw "approved" then LedgerApproved else if string_eqb raw "rejected" then LedgerRejected else LedgerStaged.

Definition LEDGER_ENTITY_KIND : string := "ledger_entry_draft".

(** ** The table *)

Section rows.
Context (parse_provenance : string → option (list DraftFieldProvenance))
  (result_fields : string → option bool * option string).

(* src: crates/bos-app/src/slices/ledger_drafts/store.rs:36-61 draft_from_row *)
Definition ledger_from_row (row : LedgerDraftRow.t) (revision : N) : LedgerDraftWithRevision := {|
  ledger_draft := {|
    LedgerEntryDraft.draft_id := LedgerDraftRow.draft_id row;
    LedgerEntryDraft.item_id := LedgerDraftRow.item_id row;
    LedgerEntryDraft.source_kind := LedgerDraftRow.source_kind row;
    LedgerEntryDraft.source_ref := LedgerDraftRow.source_ref row;
    LedgerEntryDraft.source_user_id := LedgerDraftRow.source_user_id row;
    LedgerEntryDraft.status := ledger_status_from_str (LedgerDraftRow.status row);
    LedgerEntryDraft.payer_name := LedgerDraftRow.payer_name row;
    LedgerEntryDraft.payer_email := LedgerDraftRow.payer_email row;
    LedgerEntryDraft.amount_cents := LedgerDraftRow.amount_cents row;
    LedgerEntryDraft.paid_date := LedgerDraftRow.paid_date row;
    LedgerEntryDraft.description := LedgerDraftRow.description row;
    LedgerEntryDraft.provenance := default [] (parse_provenance (LedgerDraftRow.provenance_json row));
    LedgerEntryDraft.model := LedgerDraftRow.model row;
    LedgerEntryDraft.confidence := LedgerDraftRow.confidence row;
    LedgerEntryDraft.outbox_job_id := LedgerDraftRow.outbox_job_id row;
    LedgerEntryDraft.created_at_ms := i64_as_u64 (LedgerDraftRow.created_at_ms row);
    LedgerEntryDraft.updated_at_ms := i64_as_u64 (LedgerDraftRow.updated_at_ms row);
  |};
  ledger_revision := revision;
  ledger_job := None;
|}.

(* src: crates/bos-app/src/slices/ledger_drafts/store.rs:63-72 attach_job_summary *)
Definition attach_ledger_job (client_id : string) (entry : LedgerDraftWithRevision) : AppOp LedgerDraftWithRevision :=
  match LedgerEntryDraft.outbox_job_id (ledger_draft entry) with
  | Some job_id =>
    let? job := Outbox.job_summary result_fields client_id job_id in
    op_ret (Build_LedgerDraftWithRevision (ledger_draft entry) (ledger_revision entry) job)
  | None => op_ret entry
  end.

(** The unique index admits one row of an item that is not rejected. *)
(* src: crates/bos-app/src/slices/ledger_drafts/store.rs:74-107 LedgerDraftStore *)
Definition LedgerDraftStore : DraftStore LedgerDraftRow.t LedgerDraftWithRevision := {|
  ENTITY_KIND := LEDGER_ENTITY_KIND;
  NOT_FOUND := "ledger_draft_not_found";
  draft_rows := fun t => ledger_entry_drafts (money t);
  set_draft_rows := fun t rows => set_money t (set_ledger_entry_drafts (money t) rows);
  row_draft_id := LedgerDraftRow.draft_id;
  row_item_id := LedgerDraftRow.item_id;
  row_status := LedgerDraftRow.status;
  row_source_user_id := LedgerDraftRow.source_user_id;
  row_outbox_job_id := LedgerDraftRow.outbox_job_id;
  row_created_at_ms := LedgerDraftRow.created_at_ms;
  map_row := fun row revision => Ok (ledger_from_row row revision);
  attach := attach_ledger_job;
  source_user_id := fun entry => LedgerEntryDraft.source_user_id (ledger_draft entry);
  row_conflicts := fun row other =>
    negb (string_eqb (LedgerDraftRow.status row) "rejected") && negb (string_eqb (LedgerDraftRow.status other) "rejected")
    && string_eqb (LedgerDraftRow.item_id row) (LedgerDraftRow.item_id other);
|}.
End rows.

(* src: crates/bos-app/src/slices/ledger_drafts/store.rs:15-28 DRAFT_TABLE *)
Definition LEDGER_TABLE : DraftTableSpec LedgerDraftRow.t := {|
  entity_kind := LEDGER_ENTITY_KIND;
  not_found_code := "ledger_draft_not_found";
  not_staged_code := "ledger_draft_not_staged";
  approve_sql := fun job_id now row =>
    match job_id with Some job_id => LedgerDraftRow.approve row job_id now | None => row end;
  reject_sql := fun now row => LedgerDraftRow.reject row now;
|}.

Module LedgerDrafts.
Section store.
Context (constraint_failed : string) (value_text : Json.Value → string)
  (draft_json : LedgerEntryDraft.t → string) (provenance_json : list DraftFieldProvenance → string)
  (parse_provenance : string → option (list DraftFieldProvenance))
  (result_fields : string → option bool * option string).
#[local] Existing Instance LedgerDraftStore.
Abbreviation Store := (LedgerDraftStore parse_provenance result_fields).

(* src: crates/bos-app/src/slices/ledger_drafts/store.rs:109-115 active_draft_for_item *)
Definition active_draft_for_item (client_id item_id : string) : AppOp (option LedgerDraftWithRevision) :=
  Drafts.active_draft_for_item (DraftStore0:=Store) client_id item_id.

(* src: crates/bos-app/src/slices/ledger_drafts/store.rs:117-124 get_draft *)
Definition get_draft (client_id draft_id : string) (scope : OperatorScope.t) : AppOp (option LedgerDraftWithRevision) :=
  Drafts.get_draft_scoped (DraftStore0:=Store) client_id draft_id scope.

(* src: crates/bos-app/src/slices/ledger_drafts/store.rs:126-134 list_drafts *)
Definition list_drafts (client_id : string) (item_id : option string) (limit : N) (scope : OperatorScope.t)
    : AppOp (list LedgerDraftWithRevision) :=
  Drafts.list_drafts_scoped (DraftStore0:=Store) client_id item_id limit scope.

(* src: crates/bos-app/src/slices/ledger_drafts/store.rs:136-142 count_drafts_for_item *)
Definition count_drafts_for_item (client_id item_id : string) : AppOp N :=
  Drafts.count_drafts_for_item (DraftStore0:=Store) client_id item_id.

(* src: crates/bos-app/src/slices/ledger_drafts/store.rs:146-148 staged_item_ids *)
Definition staged_item_ids (client_id : string) : AppOp (list string) :=
  Drafts.staged_item_ids (DraftStore0:=Store) client_id.

(* src: crates/bos-app/src/slices/ledger_drafts/store.rs:346-352 require_status *)
Definition require_status (client_id draft_id : string) : AppOp (string * option string) :=
  Drafts.require_status_scoped (DraftStore0:=Store) client_id draft_id.

(* src: crates/bos-app/src/slices/ledger_drafts/store.rs:181-204 insert_draft (values) *)
Definition staged_row (client_id : string) (draft : LedgerEntryDraft.t) : LedgerDraftRow.t := {|
  LedgerDraftRow.client_id := client_id;
  LedgerDraftRow.draft_id := LedgerEntryDraft.draft_id draft;
  LedgerDraftRow.item_id := LedgerEntryDraft.item_id draft;
  LedgerDraftRow.source_kind := LedgerEntryDraft.source_kind draft;
  LedgerDraftRow.source_ref := LedgerEntryDraft.source_ref draft;
  LedgerDraftRow.source_user_id := LedgerEntryDraft.source_user_id draft;
  LedgerDraftRow.status := "staged";
  LedgerDraftRow.payer_name := LedgerEntryDraft.payer_name draft;
  LedgerDraftRow.payer_email := LedgerEntryDraft.payer_email draft;
  LedgerDraftRow.amount_cents := LedgerEntryDraft.amount_cents draft;
  LedgerDraftRow.paid_date := LedgerEntryDraft.paid_date draft;
  LedgerDraftRow.description := LedgerEntryDraft.description draft;
  LedgerDraftRow.provenance_json := provenance_json (LedgerEntryDraft.provenance draft);
  LedgerDraftRow.model := LedgerEntryDraft.model draft;
  LedgerDraftRow.confidence := LedgerEntryDraft.confidence draft;
  LedgerDraftRow.outbox_job_id := None;
  LedgerDraftRow.created_at_ms := u64_as_i64 (LedgerEntryDraft.created_at_ms draft);
  LedgerDraftRow.updated_at_ms := u64_as_i64 (LedgerEntryDraft.created_at_ms draft);
|}.

(** A constraint violation is the primary key or the index of active drafts. *)
(* src: crates/bos-app/src/slices/ledger_drafts/store.rs:180-215 insert_draft (transaction) *)
Definition insert_row (client_id : string) (draft : LedgerEntryDraft.t) : AppOp unit :=
  Drafts.insert_draft_row (DraftStore0:=Store) "ledger_draft_already_active" client_id (staged_row client_id draft).

(* src: crates/bos-app/src/slices/ledger_drafts/store.rs:150-216 insert_draft *)
Definition insert_draft (client_id actor_id : string) (draft : LedgerEntryDraft.t) (idempotency_key : string)
    : AppOp MutationOutcome.t :=
  mutate constraint_failed {|
    MutationRequest.client_id := client_id;
    MutationRequest.entity_kind := LEDGER_ENTITY_KIND;
    MutationRequest.entity_id := LedgerEntryDraft.draft_id draft;
    MutationRequest.change_kind := "stage";
    MutationRequest.actor_id := actor_id;
    MutationRequest.actor_kind := Operator;
    MutationRequest.expected_revision := None;
    MutationRequest.idempotency_key := idempotency_key;
    MutationRequest.correlation_id := Some (LedgerEntryDraft.item_id draft);
    MutationRequest.causation_id := None;
    MutationRequest.before_json := None;
    MutationRequest.after_json := Some (draft_json draft);
    MutationRequest.now_ms := LedgerEntryDraft.created_at_ms draft;
  |} (insert_row client_id draft).

(* src: crates/bos-app/src/slices/ledger_drafts/store.rs:221-228 approve_draft *)
Definition approve_draft (ctx : ScopedMutationContext) (draft_id : string) (job : NewOutboxJob.t)
    : AppOp MutationOutcome.t :=
  Drafts.approve (DraftStore0:=Store) constraint_failed (scoped_draft_context ctx) LEDGER_TABLE draft_id (Some job).

(* src: crates/bos-app/src/slices/ledger_drafts/store.rs:230-236 reject_draft *)
Definition reject_draft (ctx : ScopedMutationContext) (draft_id : string) : AppOp MutationOutcome.t :=
  Drafts.reject (DraftStore0:=Store) constraint_failed (scoped_draft_context ctx) LEDGER_TABLE draft_id.

Definition entry_json (payer_name : string) (payer_email : option string) (amount_cents : Z) (paid_date description : string)
    : string :=
  value_text (Json.Obj [("payer_name", Json.Str payer_name); ("payer_email", Json.of_option Json.Str payer_email);
                        ("amount_cents", Json.Int amount_cents); ("paid_date", Json.Str paid_date);
                        ("description", Json.Str description)]).

(** The fields of an edit, checked. *)
Record LedgerEdit := {
  edit_payer_name : string;
  edit_payer_email : option string;
  edit_amount_cents : Z;
  edit_paid_date : string;
  edit_description : string;
}.

(* src: crates/bos-app/src/slices/ledger_drafts/store.rs:260-283 update_draft (checks) *)
Definition checked_edit (now_ms : N) (payer_name_raw : string) (payer_email_raw : option string) (amount_cents : Z)
    (paid_date_raw description_raw : string) : Result StoreError.t LedgerEdit :=
  let payer_name := take_chars 200 (trim payer_name_raw) in
  _ ← guard_err (is_empty payer_name) (StoreError.Domain "ledger_draft_payer_required");
  _ ← guard_err (amount_cents <=? 0)%Z (StoreError.Domain "ledger_draft_amount_invalid");
  paid_date ← match normalize_civil_date paid_date_raw (Some (context_from_now_ms now_ms)) with
              | Ok date => Ok date
              | Err _ => Err (StoreError.Domain "ledger_draft_date_invalid")
              end;
  let payer_email := (raw ← trim <$> payer_email_raw; if is_empty raw then None else Some raw) in
  _ ← guard_err (option_any (fun email => negb (has_char "@" email)) payer_email)
        (StoreError.Domain "ledger_draft_payer_email_invalid");
  Ok (Build_LedgerEdit payer_name payer_email amount_cents paid_date (take_chars 500 (trim description_raw))).

(* src: crates/bos-app/src/slices/ledger_drafts/store.rs:243-344 update_draft *)
Definition update_draft (ctx : ScopedMutationContext) (draft_id payer_name_raw : string) (payer_email_raw : option string)
    (amount_cents : Z) (paid_date_raw description_raw : string) : AppOp MutationOutcome.t :=
  let? current := require_status (scoped_client_id ctx) draft_id in
  op_lift (OperatorScope.require_source_user (scoped_scope ctx) current.2) ;;?
  op_lift (guard_err (negb (string_eqb current.1 "staged"))
             (StoreError.Domain ("ledger_draft_not_staged:" +:+ current.1))) ;;?
  let? edit := op_lift (checked_edit (scoped_now_ms ctx) payer_name_raw payer_email_raw amount_cents paid_date_raw
                          description_raw) in
  let? row := read_tables (fun t => ledger_entry_drafts (money t) !! (scoped_client_id ctx, draft_id)) in
  let? row := op_lift (ok_or row (StoreError.Sqlite "Query returned no rows")) in
  mutate constraint_failed {|
    MutationRequest.client_id := scoped_client_id ctx;
    MutationRequest.entity_kind := LEDGER_ENTITY_KIND;
    MutationRequest.entity_id := draft_id;
    MutationRequest.change_kind := "edit";
    MutationRequest.actor_id := scoped_actor_id ctx;
    MutationRequest.actor_kind := Operator;
    MutationRequest.expected_revision := scoped_expected_revision ctx;
    MutationRequest.idempotency_key := scoped_idempotency_key ctx;
    MutationRequest.correlation_id := None;
    MutationRequest.causation_id := None;
    MutationRequest.before_json := Some (entry_json (LedgerDraftRow.payer_name row) (LedgerDraftRow.payer_email row)
      (LedgerDraftRow.amount_cents row) (LedgerDraftRow.paid_date row) (LedgerDraftRow.description row));
    MutationRequest.after_json := Some (entry_json (edit_payer_name edit) (edit_payer_email edit) (edit_amount_cents edit)
      (edit_paid_date edit) (edit_description edit));
    MutationRequest.now_ms := scoped_now_ms ctx;
  |} (Drafts.update_draft_row (DraftStore0:=Store) constraint_failed (scoped_client_id ctx) draft_id
        (fun row => LedgerDraftRow.edit row (edit_payer_name edit) (edit_payer_email edit) (edit_amount_cents edit)
           (edit_paid_date edit) (edit_description edit) (u64_as_i64 (scoped_now_ms ctx)))).
End store.
End LedgerDrafts.

(** ** Filling a draft ([service.rs]) *)

Module LedgerFill.
Definition PROVENANCE_FIELDS : list string := ["payer_name"; "payer_email"; "amount_cents"; "paid_date"].

(* src: crates/bos-app/src/slices/ledger_drafts/service.rs:120-130 ReceiptFill *)
Record ReceiptFill := {
  fill_payer_name : string;
  fill_payer_email : option string;
  fill_amount_cents : Z;
  fill_paid_date : option string;
  fill_description : string;
  fill_confidence : string;
  fill_provenance : list DraftFieldProvenance;
}.

(** The characters that are not in [',' | '$' | ' ' | '\u{a0}']; the last is C2 A0. *)
Fixpoint strip_separators (s : string) : string :=
  match s with
  | EmptyString => EmptyString
  | String a s1 =>
    if existsb (Ascii.eqb a) [","; "$"; " "]%char then strip_separators s1
    else match s1 with
         | String b s2 => if (byte_of a =? 194)%N && (byte_of b =? 160)%N then strip_separators s2
                          else String a (strip_separators s1)
         | EmptyString => String a EmptyString
         end
  end.

(* src: crates/bos-app/src/slices/ledger_drafts/service.rs:136-148 quote_contains_amount *)
Definition quote_contains_amount (quote : string) (amount_cents : Z) : bool :=
  let normalized := strip_separators quote in
  let dollars := Z.quot amount_cents 100 in
  let cents := Z.rem amount_cents 100 in
  let exact := fmt_int dollars +:+ "." +:+ fmt_pad 2 cents in
  contains normalized exact || ((cents =? 0)%Z && contains normalized (fmt_int dollars)).

(* src: crates/bos-app/src/slices/ledger_drafts/service.rs:182-196 parse_receipt_fill_response_with_context (provenance) *)
Definition provenance_entry (entry : Json.Value) : option DraftFieldProvenance :=
  raw ← (value ← Json.get "field" entry; Json.as_str value);
  let field := trim raw in
  if negb (existsb (string_eqb field) PROVENANCE_FIELDS) then None
  else Some (Build_DraftFieldProvenance field
               (take_chars 300 (trim (default "" (value ← Json.get "quote" entry; Json.as_str value))))).

(** [.map(|date| normalize_civil_date(..)).transpose()?]. *)
Definition fill_date (date : option string) (date_context : option DateInputContext) : Result string (option string) :=
  match date with
  | None => Ok None
  | Some date => match normalize_civil_date date date_context with
                 | Ok date => Ok (Some date)
                 | Err _ => Err ("paid_date is not a supported date: " +:+ date)
                 end
  end.

Definition amount_grounded (amount_cents : Z) (provenance : list DraftFieldProvenance) : bool :=
  existsb (fun entry => string_eqb (field entry) "amount_cents" && negb (is_empty (quote entry))
                        && quote_contains_amount (quote entry) amount_cents) provenance.

(* src: crates/bos-app/src/slices/ledger_drafts/service.rs:154-219 parse_receipt_fill_response_with_context *)
Definition parse_receipt_fill_response_with_context (response : Json.Value) (date_context : option DateInputContext)
    : Result string ReceiptFill :=
  payer_name ← ok_or (Json.string_field response "payer_name") "payer_name missing or empty"%string;
  let payer_email := (raw ← Json.string_field response "payer_email";
                      if has_char "@" raw && negb (has_whitespace raw) then Some raw else None) in
  amount_cents ← ok_or (cents ← (value ← Json.get "amount_cents" response; Json.as_i64 value);
                        if (0 <? cents)%Z then Some cents else None) "amount_cents missing or non-positive"%string;
  paid_date ← fill_date (Json.string_field response "paid_date") date_context;
  let description := default "" (Json.string_field response "description") in
  confidence ← ok_or (raw ← Json.string_field response "confidence"; FollowUpFill.known_confidence raw)
                 "confidence missing or invalid"%string;
  let entries : option (list Json.Value) := (value ← Json.get "provenance" response; Json.as_array value) in
  let provenance := default [] (omap (M:=list) provenance_entry <$> entries) in
  if negb (amount_grounded amount_cents provenance)
  then Err "amount_cents has no literal provenance quote containing the amount"%string
  else Ok (Build_ReceiptFill (take_chars 200 payer_name) payer_email amount_cents paid_date (take_chars 500 description)
             confidence provenance).

(* src: crates/bos-app/src/slices/ledger_drafts/service.rs:150-152 parse_receipt_fill_response *)
Definition parse_receipt_fill_response (response : Json.Value) : Result string ReceiptFill :=
  parse_receipt_fill_response_with_context response None.

(** Of the message its [internal_date_ms] and [ingested_at_ms] matter. *)
(* src: crates/bos-app/src/slices/ledger_drafts/service.rs:223-258 draft_from_fill *)
Definition draft_from_fill (item : WorkItem.t) (internal_date_ms : option Z) (ingested_at_ms : N) (fill : ReceiptFill)
    (attempt : N) (model : string) (now_ms : N) : LedgerEntryDraft.t :=
  let grounded_ms := i64_as_u64 (Z.max 0 (default (u64_as_i64 ingested_at_ms) internal_date_ms)) in
  {|
    LedgerEntryDraft.draft_id := "led_" +:+ WorkItem.item_id item +:+ "_" +:+ fmt_dec attempt;
    LedgerEntryDraft.item_id := WorkItem.item_id item;
    LedgerEntryDraft.source_kind := WorkItem.source_kind item;
    LedgerEntryDraft.source_ref := WorkItem.source_ref item;
    LedgerEntryDraft.source_user_id := WorkItem.source_user_id item;
    LedgerEntryDraft.status := LedgerStaged;
    LedgerEntryDraft.payer_name := fill_payer_name fill;
    LedgerEntryDraft.payer_email := fill_payer_email fill;
    LedgerEntryDraft.amount_cents := fill_amount_cents fill;
    LedgerEntryDraft.paid_date := default (AccountingDates.today_string grounded_ms) (fill_paid_date fill);
    LedgerEntryDraft.description := fill_description fill;
    LedgerEntryDraft.provenance := fill_provenance fill;
    LedgerEntryDraft.model := model;
    LedgerEntryDraft.confidence := fill_confidence fill;
    LedgerEntryDraft.outbox_job_id := None;
    LedgerEntryDraft.created_at_ms := now_ms;
    LedgerEntryDraft.updated_at_ms := now_ms;
  |}.
End LedgerFill.

(** What the produce flow stages of a model's answer; of the message its dates matter. *)
(* src: crates/bos-app/src/slices/ledger_drafts/service.rs:314-345 Produce::stage *)
Definition stage_receipt (constraint_failed : string) (draft_json : LedgerEntryDraft.t → string)
    (provenance_json : list DraftFieldProvenance → string) (parse_provenance : string → option (list DraftFieldProvenance))
    (result_fields : string → option bool * option string)
    (client_id actor_id : string) (item : WorkItem.t) (internal_date_ms : option Z) (ingested_at_ms : N)
    (response : Json.Value) (model : string) (attempt : N) (idempotency_key : string) (now_ms : N) : AppOp unit :=
  let date_context := context_from_email internal_date_ms ingested_at_ms in
  match LedgerFill.parse_receipt_fill_response_with_context response (Some date_context) with
  | Err _ => op_lift (Err (StoreError.Domain "ledger_fill_invalid_response"))
  | Ok fill =>
    let draft := LedgerFill.draft_from_fill item internal_date_ms ingested_at_ms fill attempt model now_ms in
    LedgerDrafts.insert_draft constraint_failed draft_json provenance_json parse_provenance result_fields client_id actor_id
      draft idempotency_key ;;?
    op_ret tt
  end.

(** ** Approval and delivery *)

Module LedgerApproval.
Definition PROVIDER_INVOICE_NINJA : string := "invoice_ninja".
Definition PROVIDER_QBO : string := "qbo".
Definition CAPABILITY_RECORD_RECEIPT : string := "record_receipt".
Definition CAPABILITY_RECORD_PAYMENT : string := "record_payment".

Definition approval_of (draft : LedgerEntryDraft.t) (actor_id : string) (now_ms : N) : PaymentApproval :=
  Build_PaymentApproval ("appr_" +:+ LedgerEntryDraft.draft_id draft) actor_id (Calendar.epoch_ms_to_rfc3339_utc now_ms).
Definition job_key (draft : LedgerEntryDraft.t) : string := "ledgerdraft:" +:+ LedgerEntryDraft.draft_id draft.

(** The job both arms build around a payload. *)
Definition job_for (draft : LedgerEntryDraft.t) (provider capability payload_json : string) : NewOutboxJob.t := {|
  NewOutboxJob.job_id := "obj_" +:+ LedgerEntryDraft.draft_id draft;
  NewOutboxJob.provider := provider;
  NewOutboxJob.capability := capability;
  NewOutboxJob.payload_json := payload_json;
  NewOutboxJob.source_entity_kind := LEDGER_ENTITY_KIND;
  NewOutboxJob.source_entity_id := LedgerEntryDraft.draft_id draft;
  NewOutboxJob.correlation_id := Some (LedgerEntryDraft.item_id draft);
  NewOutboxJob.causation_id := None;
  NewOutboxJob.idempotency_key := job_key draft;
|}.

(* src: crates/bos-app/src/slices/ledger_drafts/service.rs:355-376 build_approval_job (payload) *)
Definition receipt_payload (draft : LedgerEntryDraft.t) (actor_id : string) (now_ms : N) : NinjaWrite.Receipt.t := {|
  NinjaWrite.Receipt.idempotency_key := job_key draft;
  NinjaWrite.Receipt.approval := approval_of draft actor_id now_ms;
  NinjaWrite.Receipt.payer_name := LedgerEntryDraft.payer_name draft;
  NinjaWrite.Receipt.payer_email := LedgerEntryDraft.payer_email draft;
  NinjaWrite.Receipt.amount_cents := LedgerEntryDraft.amount_cents draft;
  NinjaWrite.Receipt.paid_date := LedgerEntryDraft.paid_date draft;
  NinjaWrite.Receipt.description :=
    if is_empty (LedgerEntryDraft.description draft)
    then "Received payment (via BusinessOS, draft " +:+ LedgerEntryDraft.draft_id draft +:+ ")"
    else LedgerEntryDraft.description draft;
  NinjaWrite.Receipt.invoice_number := "BOS-" +:+ LedgerEntryDraft.draft_id draft;
|}.

Section approval.
Context (receipt_json : NinjaWrite.Receipt.t → string) (payment_json : QboWrite.QboPaymentOutboxPayload → string)
  (parse_receipt : string → Result string NinjaWrite.Receipt.t)
  (parse_payment : string → Result string QboWrite.QboPaymentOutboxPayload)
  (error_text : StoreError.t → string) (result_text : Json.Value → string).

(* src: crates/bos-app/src/slices/ledger_drafts/service.rs:350-389 build_approval_job *)
Definition build_approval_job (draft : LedgerEntryDraft.t) (actor_id : string) (now_ms : N) : Result string NewOutboxJob.t :=
  Ok (job_for draft PROVIDER_INVOICE_NINJA CAPABILITY_RECORD_RECEIPT (receipt_json (receipt_payload draft actor_id now_ms))).

(** The one candidate, or the one whose customer's name is part of the payer's or the
    other way round. *)
(* src: crates/bos-app/src/slices/ledger_drafts/service.rs:505-526 build_qbo_approval_job (match) *)
Definition matched_invoice (payer_name : string) (candidates : list InvoiceBalanceMatch) : Result string InvoiceBalanceMatch :=
  match candidates with
  | [] => Err "qbo_payment_no_invoice_with_matching_balance"%string
  | [candidate] => Ok candidate
  | _ =>
    let payer := to_ascii_lowercase payer_name in
    match filter (fun candidate => option_any (fun name => let name := to_ascii_lowercase name in
                                                           contains name payer || contains payer name)
                                     (match_customer_name candidate)) candidates with
    | [single] => Ok single
    | _ => Err "qbo_payment_invoice_match_ambiguous"%string
    end
  end.

Definition payment_payload (draft : LedgerEntryDraft.t) (invoice_id customer_id actor_id : string) (now_ms : N)
    : QboWrite.QboPaymentOutboxPayload := {|
  QboWrite.idempotency_key := job_key draft;
  QboWrite.approval := approval_of draft actor_id now_ms;
  QboWrite.provider_invoice_id := invoice_id;
  QboWrite.provider_customer_id := customer_id;
  QboWrite.amount_cents := LedgerEntryDraft.amount_cents draft;
  QboWrite.paid_date := LedgerEntryDraft.paid_date draft;
  QboWrite.payment_method := "email_receipt";
  QboWrite.memo :=
    if is_empty (LedgerEntryDraft.description draft)
    then "Received payment from " +:+ LedgerEntryDraft.payer_name draft +:+ " (via BusinessOS, draft "
         +:+ LedgerEntryDraft.draft_id draft +:+ ")"
    else LedgerEntryDraft.description draft;
|}.

(** The customer to be paid for: named, and not known to be inactive. *)
(* src: crates/bos-app/src/slices/ledger_drafts/service.rs:527-537 build_qbo_approval_job (customer) *)
Definition matched_customer (matched : InvoiceBalanceMatch) : Result string string :=
  customer_id ← ok_or (raw ← match_customer_id matched; let id := trim raw in if is_empty id then None else Some id)
                  "qbo_payment_invoice_missing_customer"%string;
  if bool_decide (match_customer_active matched = Some false) then Err "qbo_payment_customer_inactive"%string
  else Ok customer_id.

(* src: crates/bos-app/src/slices/ledger_drafts/service.rs:492-572 build_qbo_approval_job *)
Definition build_qbo_approval_job (client_id : string) (draft : LedgerEntryDraft.t) (actor_id : string) (now_ms : N) (db : AppDb)
    : Result string NewOutboxJob.t :=
  match (open_invoices_by_balance client_id (LedgerEntryDraft.amount_cents draft) db).1 with
  | Err err => Err ("qbo_payment_snapshot_read_failed:" +:+ error_text err)
  | Ok candidates =>
    matched ← matched_invoice (LedgerEntryDraft.payer_name draft) candidates;
    customer_id ← matched_customer matched;
    Ok (job_for draft PROVIDER_QBO CAPABILITY_RECORD_PAYMENT
          (payment_json (payment_payload draft (match_invoice_id matched) customer_id actor_id now_ms)))
  end.

(** *** Carrying out a job *)

Definition str_or_null (o : option string) : Json.Value := Json.of_option Json.Str o.

(** [AttemptOutcome] with the time of the next try for an error worth one. *)
Definition retry_at (job : ClaimedJob.t) (now_ms : N) : N := wrapping_add_u64 now_ms (retry_backoff_ms (ClaimedJob.attempts job)).

(* src: crates/bos-app/src/slices/ledger_drafts/service.rs:436-455 execute_job (outcome) *)
Definition receipt_outcome (job : ClaimedJob.t) (now_ms : N)
    (result : Result NinjaWrite.InvoiceNinjaWriteError NinjaWrite.InvoiceNinjaReceiptResponse) : AttemptOutcome.t :=
  match result with
  | Ok response =>
    AttemptOutcome.Delivered (result_text (Json.Obj [
      ("dry_run", Json.Bool (NinjaWrite.dry_run (NinjaWrite.receipt_status response)));
      ("provider_object_id", Json.Str (NinjaWrite.receipt_invoice_id response));
      ("provider_status", str_or_null (NinjaWrite.reason (NinjaWrite.receipt_status response)));
      ("client_id", Json.Str (NinjaWrite.receipt_client_id response));
      ("payment_id", str_or_null (NinjaWrite.receipt_payment_id response))]))
  | Err (NinjaWrite.Retryable code _) => AttemptOutcome.Retry code (retry_at job now_ms)
  | Err (NinjaWrite.Permanent code message) =>
    AttemptOutcome.Terminal (provider_error_detail code message) (Some (result_text (Json.Obj [("message", Json.Str message)])))
  end.

Section delivery.
Context {W : Type}.

(** [record] is the client the gate chose: the live one or the one that plans. *)
(* src: crates/bos-app/src/slices/ledger_drafts/service.rs:414-456 execute_job *)
Definition execute_job (record : NinjaWrite.Receipt.t → W → Result NinjaWrite.InvoiceNinjaWriteError
                                   NinjaWrite.InvoiceNinjaReceiptResponse * W)
    (job : ClaimedJob.t) (now_ms : N) (w : W) : AttemptOutcome.t * W :=
  if negb (string_eqb (ClaimedJob.provider job) PROVIDER_INVOICE_NINJA)
     || negb (string_eqb (ClaimedJob.capability job) CAPABILITY_RECORD_RECEIPT)
  then (AttemptOutcome.Terminal ("outbox_unsupported_job:" +:+ ClaimedJob.provider job +:+ ":" +:+ ClaimedJob.capability job) None, w)
  else match parse_receipt (ClaimedJob.payload_json job) with
       | Err err => (AttemptOutcome.Terminal ("invoice_ninja_payload_invalid:" +:+ err) None, w)
       | Ok payload => let '(result, w) := record payload w in (receipt_outcome job now_ms result, w)
       end.

(* src: crates/bos-app/src/slices/ledger_drafts/service.rs:635-668 execute_qbo_job *)
Definition execute_qbo_job (record : QboWrite.QboPaymentOutboxPayload → W → Result QboWrite.QboWriteError
                                       QboWrite.QboPaymentResponse * W)
    (job : ClaimedJob.t) (now_ms : N) (w : W) : AttemptOutcome.t * W :=
  match parse_payment (ClaimedJob.payload_json job) with
  | Err err => (AttemptOutcome.Terminal ("qbo_payment_payload_invalid:" +:+ err) None, w)
  | Ok payload =>
    let '(result, w) := record payload w in
    (match result with
     | Ok response =>
       AttemptOutcome.Delivered (result_text (Json.Obj [
         ("dry_run", Json.Bool (QboWrite.dry_run (QboWrite.status response)));
         ("provider_object_id", Json.Str (QboWrite.payment_id response));
         ("provider_status", str_or_null (QboWrite.reason (QboWrite.status response)));
         ("linked_invoice_id", Json.Str (QboWrite.provider_invoice_id payload))]))
     | Err (QboWrite.Retryable code _) => AttemptOutcome.Retry code (retry_at job now_ms)
     | Err (QboWrite.Permanent code message) =>
       AttemptOutcome.Terminal (provider_error_detail code message) (Some (result_text (Json.Obj [("message", Json.Str message)])))
     end, w)
  end.
End delivery.

(** *** The routes *)

Context (constraint_failed : string) (value_text : Json.Value → string)
  (parse_provenance : string → option (list DraftFieldProvenance)) (result_fields : string → option bool * option string)
  (env : string → option string).

(** What a handler answers: a refusal of its own, or what the store said. *)
Inductive LedgerAnswer :=
| Refused (status : N) (code : string)
| Answered (outcome : Result StoreError.t MutationOutcome.t).

(** The provider's job, or the refusal that stands for the error. *)
(* src: crates/bos-app/src/slices/ledger_drafts/routes.rs:151-206 draft_action (job) *)
Definition approval_job (ctx : ScopedMutationContext) (draft : LedgerEntryDraft.t) (db : AppDb) : NewOutboxJob.t + (N * string) :=
  let failed (result : Result string NewOutboxJob.t) (domain : string → bool) :=
    match result with
    | Ok job => inl job
    | Err code => if domain code then inr (422%N, code) else inr (500%N, "approval_job_build_failed"%string)
    end in
  match configured_accounting_provider env with
  | Ok provider =>
    if string_eqb provider PROVIDER_QBO then
      failed (build_qbo_approval_job (scoped_client_id ctx) draft (scoped_actor_id ctx) (scoped_now_ms ctx) db)
        (fun code => bool_decide (is_Some (strip_prefix "qbo_payment_" code)))
    else if string_eqb provider PROVIDER_INVOICE_NINJA then
      failed (build_approval_job draft (scoped_actor_id ctx) (scoped_now_ms ctx)) (fun _ => false)
    else inr (422%N, "accounting_provider_not_writable"%string)
  | Err _ => inr (422%N, "accounting_provider_not_writable"%string)
  end.

(* src: crates/bos-app/src/slices/ledger_drafts/routes.rs:122-218 draft_action *)
Definition draft_action (ctx : ScopedMutationContext) (draft_id : string) (action : LedgerDraftActionKind) (db : AppDb)
    : LedgerAnswer * AppDb :=
  let answered (m : AppOp MutationOutcome.t) (db : AppDb) := let '(r, db) := m db in (Answered r, db) in
  if is_blank (scoped_idempotency_key ctx) then (Refused 400 "idempotency_key_required", db)
  else match action with
  | RejectLedger => answered (LedgerDrafts.reject_draft constraint_failed parse_provenance result_fields ctx draft_id) db
  | ApproveLedger =>
    match LedgerDrafts.get_draft parse_provenance result_fields (scoped_client_id ctx) draft_id (scoped_scope ctx) db with
    | (Ok (Some found), db) =>
      match approval_job ctx (ledger_draft found) db with
      | inl job => answered (LedgerDrafts.approve_draft constraint_failed parse_provenance result_fields ctx draft_id job) db
      | inr (status, code) => (Refused status code, db)
      end
    | (Ok None, db) => (Refused 422 "ledger_draft_not_found", db)
    | (Err err, db) => (Answered (Err err), db)
    end
  end.

(* src: crates/bos-app/src/slices/ledger_drafts/routes.rs:83-120 draft_update *)
Definition draft_update (ctx : ScopedMutationContext) (draft_id payer_name : string) (payer_email : option string)
    (amount_cents : Z) (paid_date description : string) (db : AppDb) : LedgerAnswer * AppDb :=
  if is_blank (scoped_idempotency_key ctx) then (Refused 400 "idempotency_key_required", db)
  else let '(r, db) := LedgerDrafts.update_draft constraint_failed value_text parse_provenance result_fields ctx draft_id
                         payer_name payer_email amount_cents paid_date description db in
       (Answered r, db).
End approval.
End LedgerApproval.
