(* ===== verification/LedgerProps.v ===== *)
(** * What the ledger drafts guarantee

    Every staged receipt can be delivered: what the approval hands to the outbox passes
    the client's validation.  The money of a fill is grounded in a quote only as far as a
    part of a longer number counts. *)

From S2P Require Import Prelude RustStd RustStr StoreCore StoreCoreProps AppOutbox AppOutboxProps Identity AccountingRecords Schema SliceCore Operators WorkItems WorkQueue Calendar CalendarProps DateInput DateProps DraftStore DraftProps Json ProviderWrites AccountingStore AccountingViews FollowUpTasks LedgerDrafts.
Import Spine Outbox Drafts DateInput.

Lemma prefix_not_blank a p s : visible a = true → is_blank (String a p +:+ s) = false.
Proof. apply is_blank_visible_head. Qed.

(** ** Dates have ten characters *)

Lemma fmt_four_length y : (-999 ≤ y ≤ 9999)%Z → String.length (fmt_pad 4 y) = 4%nat.
Proof.
  intros Hy. destruct (Z.le_gt_cases 0 y) as [H|H].
  - destruct (fmt_four y) as (-> & _); [lia|done].
  - set (p := fun v => bool_decide (String.length (fmt_pad 4 (- v)) = 4%nat)).
    assert (Hp : p (- y)%Z = true) by (apply (all_below_spec 1000 p); [by vm_compute|lia]).
    unfold p in Hp. rewrite Z.opp_involutive in Hp. by apply bool_decide_eq_true in Hp.
Qed.

Lemma real_date_shape text : real_date text → date_shape_invalid text = false.
Proof.
  intros (y & m & d & [Hm Hd] & Hy & ->). pose proof (days_in_month_le y m). unfold fmt_ymd.
  destruct (fmt_two m) as (-> & _); [lia|]. destruct (fmt_two d) as (-> & _); [lia|].
  pose proof (fmt_four_length y Hy) as Hl. destruct (fmt_pad 4 y) as [|a [|b [|c [|e [|]]]]]; try done.
Qed.

Lemma today_real ms : (ms < 253370764800000)%N → real_date (AccountingDates.today_string ms).
Proof.
  intros Hms. unfold AccountingDates.today_string. assert (Hd : u64_as_i64 (ms / 86400000) = Z.of_N (ms / 86400000)).
  { assert (Hq : (ms / 86400000 < 2932532)%N) by (apply N.Div0.div_lt_upper_bound; lia).
    unfold u64_as_i64. destruct (N.leb_spec (ms / 86400000) 9223372036854775807); [done|lia]. }
  rewrite Hd. destruct (proj2 calendars_agree (Z.of_N (ms / 86400000))) as (_ & -> & _).
  pose proof (days_plain (Z.of_N (ms / 86400000))) as Hp.
  assert (Hb : (-719528 ≤ Z.of_N (ms / 86400000) < 2932897)%Z) by (rewrite N2Z.inj_div; Z.to_euclidean_division_equations; lia).
  specialize (Hp Hb). destruct (Calendar.civil_from_days _) as [[y m] d]. exists y, m, d. destruct Hp. split; [done|]. split; [lia|done].
Qed.

(** ** The rows *)

(** An e-mail address as far as the store looks. *)
Definition email_shape (email : option string) : Prop := ∀ e, email = Some e → has_char "@" e = true.

Record ledger_row (k : string * string) (row : LedgerDraftRow.t) : Prop := {
  ledger_key : LedgerDraftRow.client_id row = k.1 ∧ LedgerDraftRow.draft_id row = k.2;
  ledger_status : LedgerDraftRow.status row ∈ ["staged"; "approved"; "rejected"]%string;
  ledger_approved : LedgerDraftRow.status row = "approved"%string ↔ is_Some (LedgerDraftRow.outbox_job_id row);
  ledger_payer : is_blank (LedgerDraftRow.payer_name row) = false;
  ledger_email : email_shape (LedgerDraftRow.payer_email row);
  ledger_amount : (0 < LedgerDraftRow.amount_cents row)%Z;
  ledger_date : real_date (LedgerDraftRow.paid_date row);
}.

Section ledger.
Context (parse_provenance : string → option (list DraftFieldProvenance))
  (result_fields : string → option bool * option string).
#[local] Hint Extern 0 (DraftStore LedgerDraftRow.t _) =>
  exact (LedgerDraftStore parse_provenance result_fields) : typeclass_instances.

#[export] Instance ledger_laws : DraftLaws LEDGER_TABLE.
Proof. by split. Qed.

Context (constraint_failed : string) (value_text : Json.Value → string)
  (draft_json : LedgerEntryDraft.t → string) (provenance_json : list DraftFieldProvenance → string)
  (receipt_json : NinjaWrite.Receipt.t → string) (payment_json : QboWrite.QboPaymentOutboxPayload → string)
  (error_text : StoreError.t → string).
Implicit Types (db : AppDb).

Abbreviation drafts db := (ledger_entry_drafts (money (tables db))).
Abbreviation good := (table_good (Row:=LedgerDraftRow.t) ledger_row).

(** ** Requests *)

Inductive Call :=
| LStage (client_id actor_id : string) (item : WorkItem.t) (internal_date_ms : option Z) (ingested_at_ms : N)
    (response : Json.Value) (model : string) (attempt : N) (key : string) (now_ms : N)
| LEdit (ctx : ScopedMutationContext) (draft_id payer : string) (email : option string) (amount : Z) (date description : string)
| LDecide (env : string → option string) (ctx : ScopedMutationContext) (draft_id : string) (action : LedgerDraftActionKind)
| LOther (f : AppDb → AppDb).

Definition serve db (call : Call) : AppDb :=
  match call with
  | LStage c actor item internal ingested response model attempt key now =>
    (stage_receipt constraint_failed draft_json provenance_json parse_provenance result_fields c actor item internal ingested
       response model attempt key now db).2
  | LEdit ctx id payer email amount date description =>
    (LedgerApproval.draft_update constraint_failed value_text parse_provenance result_fields ctx id payer email amount date
       description db).2
  | LDecide env ctx id action =>
    (LedgerApproval.draft_action receipt_json payment_json error_text constraint_failed parse_provenance result_fields env ctx id
       action db).2
  | LOther f => f db
  end.
Definition serve_all : AppDb → list Call → AppDb := foldl serve.

(** Messages and clocks are of the time before the year 9999; other slices leave the
    drafts alone. *)
Definition grounded_ms (internal_date_ms : option Z) (ingested_at_ms : N) : N :=
  i64_as_u64 (Z.max (default (u64_as_i64 ingested_at_ms) internal_date_ms) 0).
Definition before_9999 (ms : N) : Prop := (ms < 253370764800000)%N.
Definition allowed (call : Call) : Prop :=
  match call with
  | LStage _ _ _ internal ingested _ _ _ _ _ => before_9999 (grounded_ms internal ingested)
  | LEdit ctx _ _ _ _ _ _ => before_9999 (scoped_now_ms ctx)
  | LOther f => ∀ db, spine_wf db → spine_wf (f db) ∧ drafts (f db) = drafts db
  | _ => True
  end.

(** ** Requests keep the table *)

Lemma approve_keeps k job_id now row : ledger_row k row → ledger_row k (LedgerDraftRow.approve row job_id now).
Proof. intros []. split; try done. right; by left. Qed.

Lemma reject_keeps k now row : ledger_row k row → LedgerDraftRow.status row = "staged"%string →
  ledger_row k (LedgerDraftRow.reject row now).
Proof.
  intros [? ? Ha] Hs. split; try done; [do 2 right; by left|]. simpl. split; [done|].
  intros Hj%Ha. by rewrite Hs in Hj.
Qed.

Lemma context_good internal ingested c :
  before_9999 (grounded_ms internal ingested) → Some (context_from_email internal ingested) = Some c → good_context c.
Proof. intros Hb Hc. injection Hc as <-. exact (from_epoch_good _ "UTC" Hb). Qed.

Lemma string_field_trimmed value key raw : Json.string_field value key = Some raw → ∃ s, raw = trim s ∧ raw ≠ "".
Proof.
  unfold Json.string_field. destruct (v ← Json.get key value; Json.as_str v) as [s|]; [|done]. cbn.
  destruct (is_empty (trim s)) eqn:He; [done|]. destruct (string_eqb _ _); [done|]. intros [= <-].
  exists s. split; [done|]. by intros Ht; rewrite Ht in He.
Qed.

(** What an accepted answer holds. *)
Lemma fill_spec response context fill :
  (∀ c, context = Some c → good_context c) → LedgerFill.parse_receipt_fill_response_with_context response context = Ok fill →
  is_blank (LedgerFill.fill_payer_name fill) = false ∧ email_shape (LedgerFill.fill_payer_email fill) ∧
  (0 < LedgerFill.fill_amount_cents fill)%Z ∧ (∀ date, LedgerFill.fill_paid_date fill = Some date → real_date date).
Proof.
  intros Hctx. unfold LedgerFill.parse_receipt_fill_response_with_context.
  destruct (Json.string_field response "payer_name") as [payer|] eqn:Hp; [|done]. cbn [ok_or mbind Result_bind].
  destruct (cents ← (value ← Json.get "amount_cents" response; Json.as_i64 value); if (0 <? cents)%Z then Some cents else None)
    as [cents|] eqn:Hc; [|done]. cbn [ok_or mbind Result_bind].
  destruct (LedgerFill.fill_date _ _) as [date|] eqn:Hd; [|done]. cbn [mbind Result_bind].
  destruct (raw ← Json.string_field response "confidence"; FollowUpFill.known_confidence raw) as [conf|]; [|done].
  cbn [ok_or mbind Result_bind]. case_match; [done|]. intros [= <-].
  cbn [LedgerFill.fill_payer_name LedgerFill.fill_payer_email LedgerFill.fill_amount_cents LedgerFill.fill_paid_date].
  split; [|split; [|split]].
  - apply string_field_trimmed in Hp as (s & -> & Hs). by apply cut_not_blank.
  - intros e (raw & _ & He)%bind_Some. destruct (has_char "@" raw) eqn:Hat; [|done]. simpl in He.
    destruct (negb (has_whitespace raw)); [by injection He as <-|done].
  - apply bind_Some in Hc as (v & _ & Hv). destruct (Z.ltb_spec 0 v); [|done]. by injection Hv as <-.
  - intros d ->. unfold LedgerFill.fill_date in Hd. destruct (Json.string_field response "paid_date") as [raw|]; [|done].
    destruct (normalize_civil_date raw context) as [r|] eqn:Hr; [|done]. injection Hd as <-. by eapply accepted_real.
Qed.

Lemma ledger_good_stage c actor item internal ingested response model attempt key now db :
  before_9999 (grounded_ms internal ingested) → good db →
  good (stage_receipt constraint_failed draft_json provenance_json parse_provenance result_fields c actor item internal ingested
     response model attempt key now db).2.
Proof.
  intros Hb Hg. unfold stage_receipt. destruct (LedgerFill.parse_receipt_fill_response_with_context _ _) as [fill|] eqn:Hf; [|done].
  destruct (fill_spec _ _ _ (fun c => context_good _ _ c Hb) Hf) as (Hpayer & Hemail & Hamount & Hdate).
  set (draft := LedgerFill.draft_from_fill _ _ _ _ _ _ _).
  assert (Hins : good (LedgerDrafts.insert_draft constraint_failed draft_json provenance_json parse_provenance result_fields c actor draft key db).2).
  { apply (good_insert LEDGER_TABLE); [done| |done]. split; try done; simpl; [by left|split; [done|by intros []]|].
    destruct (LedgerFill.fill_paid_date fill) as [date|] eqn:Hd; [by apply Hdate|]. simpl. rewrite Z.max_comm. by apply today_real. }
  unfold op_bind. by destruct (LedgerDrafts.insert_draft _ _ _ _ _ _ _ _ _ _) as [[o|e] db'].
Qed.

Lemma edit_spec now payer email amount date description edit :
  before_9999 now → LedgerDrafts.checked_edit now payer email amount date description = Ok edit →
  is_blank (LedgerDrafts.edit_payer_name edit) = false ∧ email_shape (LedgerDrafts.edit_payer_email edit) ∧
  (0 < LedgerDrafts.edit_amount_cents edit)%Z ∧ real_date (LedgerDrafts.edit_paid_date edit).
Proof.
  intros Hnow. unfold LedgerDrafts.checked_edit. destruct (is_empty (take_chars 200 (trim payer))) eqn:Hp; [done|]. cbn [guard_err mbind Result_bind].
  destruct (Z.leb_spec amount 0); [done|]. cbn [guard_err mbind Result_bind].
  destruct (normalize_civil_date date _) as [d|] eqn:Hd; [|done]. cbn [guard_err mbind Result_bind].
  destruct (option_any _ _) eqn:He; [done|]. cbn [guard_err mbind Result_bind]. intros [= <-]. simpl.
  split; [|split; [|split; [done|]]].
  - apply cut_not_blank. by intros Ht; rewrite Ht in Hp.
  - intros e Hs. rewrite Hs in He. simpl in He. by apply negb_false_iff in He.
  - eapply accepted_real; [|exact Hd]. intros c Hc. injection Hc as <-. exact (from_epoch_good now "UTC" Hnow).
Qed.

Lemma ledger_good_edit ctx id payer email amount date description db :
  before_9999 (scoped_now_ms ctx) → good db →
  good (LedgerDrafts.update_draft constraint_failed value_text parse_provenance result_fields ctx id payer email amount date
          description db).2.
Proof.
  intros Hnow Hg. unfold LedgerDrafts.update_draft.
  assert (Hl : ∀ A B (r : Result StoreError.t A) (k : A → AppOp B),
    (∀ a, r = Ok a → good (k a db).2) → good (op_bind (op_lift r) k db).2).
  { intros A B r k Hk. unfold op_bind, op_lift. destruct r as [a|e]; [by apply Hk|done]. }
  unfold LedgerDrafts.require_status, require_status_scoped. unfold op_bind at 1 2, read_tables at 1.
  change (draft_rows (tables db)) with (drafts db). unfold op_lift at 1.
  destruct (drafts db !! (scoped_client_id ctx, id)) as [row|] eqn:Hrow; simpl; [|done].
  apply Hl. intros [] _. apply Hl. intros [] Hst. apply Hl. intros edit He%edit_spec; [|done]. destruct He as (Hp & Hem & Ham & Hda).
  unfold op_bind at 1, read_tables. rewrite Hrow. apply Hl. intros row' [= <-].
  destruct (table_rows _ _ (proj2 Hg) (scoped_client_id ctx, id) row Hrow) as [Hk Hs Ha _ _ _ _].
  apply (good_edit_row LEDGER_TABLE constraint_failed ledger_row _ _ _ _ row); [done|exact Hrow|by split|done|].
  unfold is_active. simpl. destruct (string_eqb (LedgerDraftRow.status row) "staged") eqn:E; [|discriminate Hst].
  apply string_eqb_true in E. by rewrite E.
Qed.

Lemma ledger_get_reads c id scope db : (LedgerDrafts.get_draft parse_provenance result_fields c id scope db).2 = db.
Proof.
  unfold LedgerDrafts.get_draft, get_draft_scoped, op_bind, op_get, op_lift, read_row. change (draft_rows (tables db)) with (drafts db).
  destruct (drafts db !! (c, id)) as [row|]; [|done]. cbn.
  destruct (OperatorScope.matches_source_user scope (LedgerDraftRow.source_user_id row)); [|done]. cbn.
  unfold op_map, attach_ledger_job, op_bind. cbn. by destruct (LedgerDraftRow.outbox_job_id row).
Qed.

Lemma ledger_good_decide env ctx id action db :
  good db →
  good (LedgerApproval.draft_action receipt_json payment_json error_text constraint_failed parse_provenance result_fields env ctx id action db).2.
Proof.
  intros Hg. unfold LedgerApproval.draft_action. case_match; [done|]. destruct action.
  - pose proof (ledger_get_reads (scoped_client_id ctx) id (scoped_scope ctx) db) as Hr.
    destruct (LedgerDrafts.get_draft _ _ _ _ _ db) as [[[found|]|err] db0]; simpl in Hr; subst db0; [|done|done].
    case_match; [|by case_match].
    match goal with |- context [LedgerDrafts.approve_draft ?a ?b ?c ?d ?e ?j db] =>
      pose proof (good_approval LEDGER_TABLE constraint_failed ledger_row approve_keeps (scoped_draft_context d) e j db Hg) as Ha;
      unfold LedgerDrafts.approve_draft end.
    by destruct (approve _ _ _ _ _ db).
  - pose proof (good_rejection LEDGER_TABLE constraint_failed ledger_row reject_keeps (scoped_draft_context ctx) id db Hg) as Ha.
    unfold LedgerDrafts.reject_draft. by destruct (reject _ _ _ _ db).
Qed.

Lemma ledger_serve_good calls db : Forall allowed calls → good db → good (serve_all db calls).
Proof.
  intros Hcalls. revert db. induction Hcalls as [|call calls Ha Hcs IH]; intros db Hg; [done|]. simpl. apply IH.
  destruct call as [c actor item internal ingested response model attempt key now|ctx id payer email amount date description
    |env ctx id action|f]; simpl.
  - by apply ledger_good_stage.
  - unfold LedgerApproval.draft_update. case_match; [done|].
    pose proof (ledger_good_edit ctx id payer email amount date description db Ha Hg) as He. by destruct (LedgerDrafts.update_draft _ _ _ _ _ _ _ _ _ _ _ db).
  - by apply ledger_good_decide.
  - destruct Hg as [Hsp Hwf]. destruct (Ha db Hsp) as [Hsp' Hd]. split; [done|].
    eapply table_wf_rows; [|exact Hwf]. exact Hd.
Qed.

(** ** What an approval hands to the outbox *)

Lemma instant_not_blank ms : before_9999 ms → is_blank (Calendar.epoch_ms_to_rfc3339_utc ms) = false.
Proof.
  intros Hms. unfold before_9999 in Hms. pose proof (instant_text ms ltac:(lia)) as H. cbv zeta in H.
  destruct (Calendar.civil_from_days _) as [[y m] d]. destruct H as (Hp & _ & ->). apply plain_ranges in Hp as (Hy & _ & _).
  pose proof (four_all y Hy) as Hall. unfold ymd, four in *. apply is_blank_visible_head.
  unfold all_bytes in Hall. simpl in Hall. apply andb_true_iff in Hall as [Hd _]. unfold is_digit in Hd. unfold visible. lia.
Qed.

Lemma approval_complete draft actor now :
  is_blank actor = false → before_9999 now → is_complete (LedgerApproval.approval_of draft actor now) = true.
Proof. intros Ha Hn. unfold is_complete. cbn -[is_blank Calendar.epoch_ms_to_rfc3339_utc]. by rewrite Ha, instant_not_blank, prefix_not_blank by done. Qed.

Lemma receipt_valid k row revision actor now :
  ledger_row k row → is_blank actor = false → before_9999 now →
  NinjaWrite.validate_receipt (LedgerApproval.receipt_payload (ledger_draft (ledger_from_row parse_provenance row revision)) actor now)
  = Ok tt.
Proof.
  intros [_ _ _ Hp _ Ha Hd] Hactor Hnow. unfold NinjaWrite.validate_receipt. cbn -[is_blank is_complete date_shape_invalid].
  rewrite (approval_complete _ _ _ Hactor Hnow), (real_date_shape _ Hd), Hp. destruct (Z.leb_spec (LedgerDraftRow.amount_cents row) 0); [lia|].
  unfold LedgerApproval.job_key. by rewrite !prefix_not_blank.
Qed.

Lemma matched_customer_not_blank matched customer :
  LedgerApproval.matched_customer matched = Ok customer → is_blank customer = false.
Proof.
  unfold LedgerApproval.matched_customer. destruct (match_customer_id matched) as [raw|]; [|done]. cbn.
  destruct (is_empty (trim raw)) eqn:He; [done|]. cbn. case_bool_decide; [done|]. intros [= <-].
  by rewrite is_blank_trim.
Qed.

Lemma matched_invoice_in payer candidates matched :
  LedgerApproval.matched_invoice payer candidates = Ok matched → matched ∈ candidates.
Proof.
  unfold LedgerApproval.matched_invoice. destruct candidates as [|c [|c' l]]; [done|intros [= <-]; by left|].
  destruct (filter _ (c :: c' :: l)) as [|m [|]] eqn:Hf; [done| |done]. intros [= <-].
  match type of Hf with ?f = _ => assert (Hin : m ∈ f) by (rewrite Hf; by left) end.
  by apply list_elem_of_filter in Hin as [_ Hin].
Qed.

Lemma payment_valid k row revision invoice customer actor now :
  ledger_row k row → is_blank actor = false → before_9999 now → is_blank invoice = false → is_blank customer = false →
  QboWrite.validate_payment_payload
    (LedgerApproval.payment_payload (ledger_draft (ledger_from_row parse_provenance row revision)) invoice customer actor now) = Ok tt.
Proof.
  intros [_ _ _ Hp _ Ha Hd] Hactor Hnow Hi Hc. unfold QboWrite.validate_payment_payload.
  cbn -[is_blank is_complete date_shape_invalid QboWrite.qbo_payment_body].
  unfold LedgerApproval.job_key.
  rewrite (approval_complete _ _ _ Hactor Hnow), (real_date_shape _ Hd), Hi, Hc, prefix_not_blank, is_blank_visible_head by done.
  destruct (Z.leb_spec (LedgerDraftRow.amount_cents row) 0); [lia|]. simpl.
  by rewrite (proj2 (string_eqb_true _ _) eq_refl).
Qed.

(** The cached open invoice a payment is for. *)
Definition open_invoice db (client_id : string) (amount : Z) (invoice_id : string) : Prop :=
  ∃ k r, accounting_invoice_snapshots (accounting (tables db)) !! k = Some r ∧ k.1 = client_id ∧
    InvoiceRecord.invoice_id (cached_record r) = invoice_id ∧ InvoiceRecord.balance_cents (cached_record r) = amount ∧
    InvoiceRecord.voided (cached_record r) = false.

Lemma candidate_open client amount db candidates m :
  (open_invoices_by_balance client amount db).1 = Ok candidates → m ∈ candidates → open_invoice db client amount (match_invoice_id m).
Proof.
  unfold open_invoices_by_balance, read_accounting, read_tables. intros [= <-].
  intros (r & -> & Hr)%list_elem_of_fmap. apply elem_of_sort_by_key, list_elem_of_filter in Hr as [[Hv Hb] Hr].
  apply list_elem_of_fmap in Hr as (row & -> & ([k row'] & -> & Hin)%list_elem_of_fmap). apply list_elem_of_filter in Hin as [Hc Hin].
  apply elem_of_map_to_list in Hin. by exists k, row'.
Qed.

(** What the route finds for an approval that is applied. *)
Lemma approval_found env ctx id db rid revision db' :
  LedgerApproval.draft_action receipt_json payment_json error_text constraint_failed parse_provenance result_fields env ctx id
    ApproveLedger db = (LedgerApproval.Answered (Ok (MutationOutcome.Applied rid revision)), db') →
  ∃ row job, drafts db !! (scoped_client_id ctx, id) = Some row ∧
    OperatorScope.matches_source_user (scoped_scope ctx) (LedgerDraftRow.source_user_id row) = true ∧
    LedgerApproval.approval_job receipt_json payment_json error_text env ctx (ledger_draft (ledger_from_row parse_provenance row 0)) db = inl job ∧
    LedgerDrafts.approve_draft constraint_failed parse_provenance result_fields ctx id job db
    = (Ok (MutationOutcome.Applied rid revision), db').
Proof.
  unfold LedgerApproval.draft_action. destruct (is_blank _); [done|].
  pose proof (ledger_get_reads (scoped_client_id ctx) id (scoped_scope ctx) db) as Hr.
  destruct (LedgerDrafts.get_draft parse_provenance result_fields (scoped_client_id ctx) id (scoped_scope ctx) db)
    as [[[found|]|err] db0] eqn:Hget; simpl in Hr; subst db0; [|done|done].
  unfold LedgerDrafts.get_draft, get_draft_scoped, op_bind, op_get, op_lift, read_row in Hget.
  change (draft_rows (tables db)) with (drafts db) in Hget.
  destruct (drafts db !! (scoped_client_id ctx, id)) as [row|] eqn:Hrow; [|done]. cbn in Hget.
  destruct (OperatorScope.matches_source_user (scoped_scope ctx) (LedgerDraftRow.source_user_id row)) eqn:Hscope; [|done].
  assert (Hfound : ledger_draft found = ledger_draft (ledger_from_row parse_provenance row 0)).
  { cbn in Hget. unfold op_map, attach_ledger_job, op_bind in Hget. cbn in Hget.
    destruct (LedgerDraftRow.outbox_job_id row) eqn:Ejob; cbn in Hget; inversion Hget; unfold ledger_from_row; simpl; by rewrite Ejob. }
  rewrite Hfound. destruct (LedgerApproval.approval_job _ _ _ _ _ _ db) as [job|[status code]] eqn:Hjob; [|done].
  destruct (LedgerDrafts.approve_draft _ _ _ ctx id job db) as [answer db1] eqn:Ha. intros [= -> ->]. by exists row, job.
Qed.

(** What is behind a job: the receipt or the payment it carries can be delivered. *)
Definition deliverable (provider : string) (job_payload : string) (row : LedgerDraftRow.t) (client : string) db : Prop :=
  (provider = LedgerApproval.PROVIDER_INVOICE_NINJA ∧
   ∃ p, job_payload = receipt_json p ∧ NinjaWrite.validate_receipt p = Ok tt ∧
        NinjaWrite.Receipt.payer_name p = LedgerDraftRow.payer_name row ∧
        NinjaWrite.Receipt.amount_cents p = LedgerDraftRow.amount_cents row ∧
        NinjaWrite.Receipt.paid_date p = LedgerDraftRow.paid_date row ∧
        NinjaWrite.Receipt.invoice_number p = "BOS-" +:+ LedgerDraftRow.draft_id row) ∨
  (provider = LedgerApproval.PROVIDER_QBO ∧
   ∃ p, job_payload = payment_json p ∧ QboWrite.amount_cents p = LedgerDraftRow.amount_cents row ∧
        QboWrite.paid_date p = LedgerDraftRow.paid_date row ∧
        open_invoice db client (LedgerDraftRow.amount_cents row) (QboWrite.provider_invoice_id p) ∧
        (is_blank (QboWrite.provider_invoice_id p) = false → QboWrite.validate_payment_payload p = Ok tt)).

Lemma job_deliverable env ctx row job db :
  ledger_row (scoped_client_id ctx, LedgerDraftRow.draft_id row) row → is_blank (scoped_actor_id ctx) = false → before_9999 (scoped_now_ms ctx) →
  LedgerApproval.approval_job receipt_json payment_json error_text env ctx (ledger_draft (ledger_from_row parse_provenance row 0)) db = inl job →
  NewOutboxJob.job_id job = "obj_" +:+ LedgerDraftRow.draft_id row ∧
  ∃ provider, configured_accounting_provider env = Ok provider ∧
    deliverable provider (NewOutboxJob.payload_json job) row (scoped_client_id ctx) db.
Proof.
  intros Hrow Hactor Hnow. unfold LedgerApproval.approval_job.
  destruct (configured_accounting_provider env) as [provider|]; [|done].
  destruct (string_eqb provider LedgerApproval.PROVIDER_QBO) eqn:Hq.
  - apply string_eqb_true in Hq as ->. unfold LedgerApproval.build_qbo_approval_job.
    destruct (open_invoices_by_balance _ _ db).1 as [candidates|err] eqn:Hopen; [|by case_match].
    destruct (LedgerApproval.matched_invoice _ candidates) as [matched|] eqn:Hm; [|cbn [mbind Result_bind]; by case_match]. cbn [mbind Result_bind].
    destruct (LedgerApproval.matched_customer matched) as [customer|] eqn:Hc; [|cbn [mbind Result_bind]; by case_match]. cbn [mbind Result_bind].
    intros [= <-]. split; [done|]. exists LedgerApproval.PROVIDER_QBO. split; [done|]. right. split; [done|].
    eexists. split; [reflexivity|]. split; [done|]. split; [done|]. split.
    + eapply candidate_open; [exact Hopen|by eapply matched_invoice_in].
    + intros Hi. eapply (payment_valid _ row 0); [exact Hrow|done|done|done|by eapply matched_customer_not_blank].
  - destruct (string_eqb provider LedgerApproval.PROVIDER_INVOICE_NINJA) eqn:Hn; [|done]. apply string_eqb_true in Hn as ->.
    intros [= <-]. split; [done|]. exists LedgerApproval.PROVIDER_INVOICE_NINJA. split; [done|]. left. split; [done|].
    eexists. split; [reflexivity|]. split; [eapply (receipt_valid _ row 0); [exact Hrow|done..]|done].
Qed.

(** C6: Nothing undeliverable is staged.  After whatever requests, served one at a
    time - receipts read by a model, edits, decisions, other slices' work - when an approval is answered as applied,
    the draft was staged and within the operator's scope, and its job is in the outbox,
    pending.  With Invoice Ninja the job carries the row's payer, amount, date and number
    and passes the client's validation; with QuickBooks it pays an invoice that is open in
    the cached books with exactly that balance, and passes validation too unless the cached
    invoice has a blank id. *)
Theorem approved_entry_is_deliverable env ctx id db0 calls rid revision db' :
  let db := serve_all db0 calls in
  good db0 → Forall allowed calls → is_blank (scoped_actor_id ctx) = false → before_9999 (scoped_now_ms ctx) →
  LedgerApproval.draft_action receipt_json payment_json error_text constraint_failed parse_provenance result_fields env ctx id
    ApproveLedger db = (LedgerApproval.Answered (Ok (MutationOutcome.Applied rid revision)), db') →
  ∃ row j provider,
    drafts db !! (scoped_client_id ctx, id) = Some row ∧ LedgerDraftRow.status row = "staged"%string ∧
    OperatorScope.matches_source_user (scoped_scope ctx) (LedgerDraftRow.source_user_id row) = true ∧
    jobs db' !! (scoped_client_id ctx, "obj_" +:+ id) = Some j ∧ Job.status j = STATUS_PENDING ∧
    configured_accounting_provider env = Ok provider ∧ deliverable provider (Job.payload_json j) row (scoped_client_id ctx) db.
Proof.
  intros db Hg0 Hcalls Hactor Hnow Happ. pose proof (ledger_serve_good calls db0 Hcalls Hg0) as Hg. fold db in Hg.
  apply approval_found in Happ as (row & job & Hrow & Hscope & Hjob & Ha).
  pose proof (table_rows _ _ (proj2 Hg) (scoped_client_id ctx, id) row Hrow) as Hwf. destruct (ledger_key _ _ Hwf) as [_ Hid]. simpl in Hid.
  pose proof (approve_cases LEDGER_TABLE constraint_failed (scoped_draft_context ctx) id job db (proj1 Hg) (table_active _ _ (proj2 Hg))) as Hc.
  unfold LedgerDrafts.approve_draft in Ha. rewrite Ha in Hc.
  inversion Hc as [| | | | | |row' j db'' ? ? Haw Hf Hx Hn Hrows Hfresh Hpay Hjobs]; subst.
  destruct Haw as (Hrow' & _ & Hst). change (drafts db !! (scoped_client_id ctx, LedgerDraftRow.draft_id row) = Some row') in Hrow'.
  rewrite Hrow in Hrow'. injection Hrow' as <-.
  destruct (job_deliverable env ctx row job db Hwf Hactor Hnow Hjob) as (Hjid & provider & Hprov & Hdel).
  exists row, j, provider. split; [done|]. split; [done|]. split; [done|].
  split; [rewrite Hjobs, <- Hjid; apply lookup_insert_eq|]. split; [by destruct Hfresh as (_ & _ & ? & _)|].
  split; [done|]. by rewrite Hpay.
Qed.
End ledger.

(** ** What a quote grounds *)

(** Digits and thousands separators. *)
Definition figures (s : string) : Prop := all_bytes (fun a => is_digit a || Ascii.eqb a ",") s = true.

Lemma figures_cons a s : figures (String a s) ↔ (is_digit a || Ascii.eqb a "," = true) ∧ figures s.
Proof. unfold figures, all_bytes. simpl. by rewrite andb_true_iff. Qed.

Lemma figures_visible s : figures s → all_visible s = true.
Proof.
  apply all_bytes_impl. intros a [Ha|Ha%Ascii.eqb_eq]%orb_true_iff; [|by subst a]. unfold is_digit in Ha. unfold visible. lia.
Qed.

Lemma strip_cons a s : visible a = true →
  LedgerFill.strip_separators (String a s) =
  if existsb (Ascii.eqb a) [","; "$"; " "]%char then LedgerFill.strip_separators s else String a (LedgerFill.strip_separators s).
Proof.
  intros Ha. cbn [LedgerFill.strip_separators]. destruct (existsb _ _); [done|]. destruct s as [|b s]; [done|].
  assert (Hb : (byte_of a =? 194)%N = false) by (unfold visible in Ha; lia). by rewrite Hb.
Qed.

Lemma strip_app s t : all_visible s = true →
  LedgerFill.strip_separators (s +:+ t) = LedgerFill.strip_separators s +:+ LedgerFill.strip_separators t.
Proof.
  induction s as [|a s IH]; [done|]. intros [Ha Hs]%andb_true_iff. change (String a s +:+ t) with (String a (s +:+ t)).
  rewrite !strip_cons by done. rewrite (IH Hs). by destruct (existsb _ _).
Qed.

Lemma strip_digits s : all_bytes is_digit s = true → LedgerFill.strip_separators s = s.
Proof.
  induction s as [|a s IH]; [done|]. unfold all_bytes. simpl String.list_ascii_of_string. intros [Ha Hs]%andb_true_iff.
  assert (Hsep : existsb (Ascii.eqb a) [","; "$"; " "]%char = false).
  { apply not_true_is_false. intros (c & Hc & He)%existsb_exists. apply Ascii.eqb_eq in He as ->.
    destruct Hc as [<-|[<-|[<-|[]]]]; vm_compute in Ha; done. }
  rewrite strip_cons by (unfold is_digit in Ha; unfold visible; lia). by rewrite Hsep, (IH Hs).
Qed.

(** The quote of an amount of which only a part is claimed. *)
Definition partial_quote (before : string) (dollars : N) (after : string) : string :=
  "$" +:+ before +:+ fmt_dec dollars +:+ after +:+ ".00".
Definition partial_response (payer before : string) (dollars : N) (after : string) : Json.Value :=
  Json.Obj [("payer_name", Json.Str payer); ("amount_cents", Json.Int (Z.of_N dollars * 100)); ("confidence", Json.Str "high");
            ("provenance", Json.Arr [Json.Obj [("field", Json.Str "amount_cents");
               ("quote", Json.Str (partial_quote before dollars after))]])].

Lemma partial_visible before dollars after : figures before → figures after → all_visible (partial_quote before dollars after) = true.
Proof.
  intros Hb%figures_visible Ha%figures_visible. unfold partial_quote. rewrite !all_visible_app, Hb, Ha, fmt_dec_visible. done.
Qed.

Lemma partial_contains before dollars after : figures before → figures after →
  LedgerFill.quote_contains_amount (partial_quote before dollars after) (Z.of_N dollars * 100) = true.
Proof.
  intros Hb%figures_visible Ha%figures_visible.
  assert (Hs : LedgerFill.strip_separators (partial_quote before dollars after)
               = LedgerFill.strip_separators before +:+ fmt_dec dollars +:+ LedgerFill.strip_separators (after +:+ ".00")).
  { unfold partial_quote. rewrite (strip_app "$") by done. rewrite (strip_app before), (strip_app (fmt_dec dollars)) by (done || apply fmt_dec_visible).
    by rewrite (strip_digits (fmt_dec dollars)) by apply fmt_dec_digits. }
  unfold LedgerFill.quote_contains_amount. rewrite Hs, Z.quot_mul, Z.rem_mul by done. apply orb_true_iff. right.
  rewrite (proj2 (Z.eqb_eq 0 0) eq_refl). cbn [andb]. apply contains_spec.
  unfold fmt_int. destruct (Z.ltb_spec (Z.of_N dollars) 0); [lia|]. rewrite N2Z.id. by eexists _, _.
Qed.

(** C38: A quote grounds an amount it contains as a part of a longer number, and nothing
    checks that the quote is from the e-mail.  An answer that claims any run of the digits
    of the quoted number as its amount in dollars is accepted with that amount: of a
    receipt of $1,500.00 a payment of $500, $50 or $1 can be recorded. *)
Theorem quote_grounds_part_of_amount payer before dollars after context :
  trim payer = payer → payer ≠ "" → payer ≠ "null" → (0 < dollars < 92233720368547758)%N →
  figures before → figures after → (String.length (partial_quote before dollars after) ≤ 300)%nat →
  ∃ fill, LedgerFill.parse_receipt_fill_response_with_context (partial_response payer before dollars after) context = Ok fill ∧
    LedgerFill.fill_amount_cents fill = (Z.of_N dollars * 100)%Z ∧
    LedgerFill.fill_provenance fill = [Build_DraftFieldProvenance "amount_cents" (partial_quote before dollars after)].
Proof.
  intros Htrim Hne Hnull Hd Hb Ha Hlen. pose proof (partial_visible before dollars after Hb Ha) as Hvis.
  pose proof (partial_contains before dollars after Hb Ha) as Hc. set (q := partial_quote before dollars after) in *.
  assert (Hq : take_chars 300 (trim q) = q).
  { rewrite trim_visible, take_chars_visible by done. unfold take_bytes. rewrite firstn_all2; [apply String.string_of_list_ascii_of_string|].
    by rewrite length_list_ascii. }
  set (response := partial_response payer before dollars after).
  assert (Hp : Json.string_field response "payer_name" = Some payer).
  { unfold Json.string_field. change (Json.get "payer_name" response) with (Some (Json.Str payer)). cbn [mbind option_bind Json.as_str].
    rewrite Htrim. destruct payer as [|a payer]; [done|]. simpl is_empty. cbn [negb andb].
    destruct (string_eqb _ _) eqn:He; [by apply string_eqb_true in He|done]. }
  assert (Hi : Json.as_i64 (Json.Int (Z.of_N dollars * 100)) = Some (Z.of_N dollars * 100)%Z).
  { cbn [Json.as_i64]. apply in_range_spec. split; [done|lia]. }
  assert (Hent : LedgerFill.provenance_entry (Json.Obj [("field", Json.Str "amount_cents"); ("quote", Json.Str q)]%string)
                 = Some (Build_DraftFieldProvenance "amount_cents" q)).
  { unfold LedgerFill.provenance_entry. change (Json.get "quote" _) with (Some (Json.Str q)). 
    change (Json.get "field" _) with (Some (Json.Str "amount_cents")). cbn [mbind option_bind Json.as_str from_option]. unfold id.
    rewrite Hq. done. }
  unfold LedgerFill.parse_receipt_fill_response_with_context. rewrite Hp. cbn [ok_or mbind Result_bind].
  change (Json.get "amount_cents" response) with (Some (Json.Int (Z.of_N dollars * 100))). cbn [mbind option_bind]. rewrite Hi.
  change (Json.string_field response "paid_date") with (@None string). cbn [LedgerFill.fill_date ok_or mbind Result_bind].
  change (Json.string_field response "confidence") with (Some "high"%string). cbn [mbind option_bind].
  change (FollowUpFill.known_confidence "high") with (Some "high"%string). cbn [ok_or mbind Result_bind].
  change (Json.get "provenance" response) with (Some (Json.Arr [Json.Obj [("field", Json.Str "amount_cents"); ("quote", Json.Str q)]%string])).
  cbn [mbind option_bind Json.as_array fmap option_fmap option_map from_option omap list_omap]. unfold id. rewrite Hent.
  assert (Hg : LedgerFill.amount_grounded (Z.of_N dollars * 100) [Build_DraftFieldProvenance "amount_cents" q] = true).
  { unfold LedgerFill.amount_grounded. cbn [existsb field quote]. rewrite Hc. done. }
  rewrite (proj2 (Z.ltb_lt 0 (Z.of_N dollars * 100))) by lia. cbn [ok_or mbind Result_bind]. rewrite Hg. cbn [negb]. eexists. split; [reflexivity|]. by split.
Qed.

(** ** A receipt *)

Lemma quote_grounds_part_of_amount_witness :
  partial_quote "1," 500 "" = "$1,500.00" ∧
  ∃ fill, LedgerFill.parse_receipt_fill_response_with_context (partial_response "Acme" "1," 500 "") None = Ok fill ∧
    LedgerFill.fill_amount_cents fill = 50000%Z.
Proof.
  split; [reflexivity|].
  destruct (quote_grounds_part_of_amount "Acme" "1," 500 "" None) as (fill & Hf & Ha & _);
    [reflexivity|done|done|by vm_compute|reflexivity|reflexivity|by vm_compute; lia|].
  by exists fill.
Defined.

(** Texts that read back: the bits of stdpp's encoding. *)
Fixpoint bits (p : positive) : string :=
  match p with xH => "" | xO p => String "0" (bits p) | xI p => String "1" (bits p) end.
Fixpoint of_bits (s : string) : positive :=
  match s with EmptyString => xH | String c s => if Ascii.eqb c "0" then xO (of_bits s) else xI (of_bits s) end.

Lemma of_bits_bits p : of_bits (bits p) = p.
Proof. induction p as [p IH|p IH|]; simpl; by rewrite ?IH. Qed.

Definition no_provenance (_ : string) : option (list DraftFieldProvenance) := None.
Definition no_fields (_ : string) : option bool * option string := (None, None).
Definition demo_value (_ : Json.Value) : string := "{}".
Definition demo_draft_json (_ : LedgerEntryDraft.t) : string := "{}".
Definition demo_provenance_json (_ : list DraftFieldProvenance) : string := "[]".
Definition demo_receipt (p : NinjaWrite.Receipt.t) : string := NinjaWrite.Receipt.payer_name p.
Definition demo_payment (p : QboWrite.QboPaymentOutboxPayload) : string := QboWrite.provider_invoice_id p.
Definition demo_error (_ : StoreError.t) : string := "error".
Definition demo_env (_ : string) : option string := Some "invoice_ninja"%string.
Definition demo_ctx (key : string) : ScopedMutationContext :=
  Build_ScopedMutationContext "acme" "user_ada" (OperatorScope.User "user_ada") None key 1781000000000.
Definition demo_item : WorkItem.t :=
  WorkItem.mk "wi_1" "email" "msg-1" "receipts" "Payment received" "" ["ledger_entry"%string] Accepted None false "" ""
    (Some "user_ada"%string) None [] 1780000000000 1780000000000.
Definition demo_calls : list Call :=
  [LStage "acme" "user_ada" demo_item (Some 1780000000000%Z) 1780000000000 (partial_response "Acme Ltd" "" 1500 "") "model" 1 "stage-1" 1780000000000;
   LEdit (demo_ctx "edit-1") "led_wi_1_1" "Acme Ltd" (Some "pay@acme.test"%string) 150000 "2026-06-01" "Storefront"].
#[local] Hint Extern 0 (DraftStore LedgerDraftRow.t _) => exact (LedgerDraftStore no_provenance no_fields) : typeclass_instances.
Definition demo_new : AppDb := spine_new (mk_tables ∅ empty_slices).
Abbreviation demo_serve :=
  (serve_all no_provenance no_fields "UNIQUE" demo_value demo_draft_json demo_provenance_json demo_receipt demo_payment demo_error).
Abbreviation demo_approve db :=
  (LedgerApproval.draft_action demo_receipt demo_payment demo_error "UNIQUE" no_provenance no_fields demo_env (demo_ctx "approve-1")
     "led_wi_1_1" ApproveLedger db).

Lemma demo_allowed : Forall allowed demo_calls.
Proof. apply Forall_cons; split; [by vm_compute|]. apply Forall_cons; split; [by vm_compute|]. by apply Forall_nil. Qed.

Lemma ledger_demo_good : table_good ledger_row demo_new.
Proof. split; [apply spine_wf_new|]. by split. Qed.

Lemma approved_entry_is_deliverable_witness :
  ∃ j (db' : AppDb), jobs db' !! ("acme", "obj_led_wi_1_1")%string = Some j ∧ Job.payload_json j = "Acme Ltd"%string.
Proof.
  destruct (demo_approve (demo_serve demo_new demo_calls)) as [answer db'] eqn:Ha.
  assert (He : answer = LedgerApproval.Answered (Ok (MutationOutcome.Applied "rcpt_000000000003" 3))).
  { change answer with (answer, db').1. rewrite <- Ha. by vm_compute. }
  subst answer.
  destruct (approved_entry_is_deliverable no_provenance no_fields "UNIQUE" demo_value demo_draft_json demo_provenance_json demo_receipt
    demo_payment demo_error demo_env (demo_ctx "approve-1") "led_wi_1_1" demo_new demo_calls _ _ db' ledger_demo_good demo_allowed eq_refl eq_refl Ha)
    as (row & j & provider & Hrow & _ & _ & Hj & _ & Hp & Hd).
  match type of Hrow with ?stored = _ =>
    assert (Hpay : LedgerDraftRow.payer_name <$> stored = Some "Acme Ltd"%string) by (vm_compute; reflexivity) end.
  rewrite Hrow in Hpay. injection Hpay as Hpay. clear Hrow Ha.
  exists j, db'. split; [exact Hj|]. destruct Hd as [(_ & p & -> & _ & Hpayer & _)|[Hq _]].
  - unfold demo_receipt. rewrite Hpayer. exact Hpay.
  - injection Hp as <-. discriminate Hq.
Defined.
