(* ===== verification/DeliveryProps.v ===== *)
(** * What a delivery does at the provider

    A delivery may be tried up to eight times and may lose the provider's answer after
    the provider has done its part.  The laws of each provider - what it documents of
    look-ups, creations and idempotency keys - are the hypotheses of a section. *)

From S2P Require Import Prelude RustStd RustStr StoreCore StoreCoreProps AppOutbox AccountingRecords Schema Json ProviderWrites.

(** ** Receipts at Invoice Ninja *)

Section receipt.
Context {W : Type} (as_f64 : Json.Value → option SpecFloat.spec_float) (f64_json : SpecFloat.spec_float → Json.Value) (encode : string → string).
Context (get_json : string → string → Op W NinjaWrite.InvoiceNinjaWriteError NinjaWrite.InvoiceNinjaHttpResponse)
  (post_json : string → string → Json.Value → Op W NinjaWrite.InvoiceNinjaWriteError NinjaWrite.InvoiceNinjaHttpResponse)
  (base_url api_token : string) (request : NinjaWrite.Receipt.t).

(** How many payments carry the request's key as their reference; and how many answers to
    look-ups of the payment came back with success and a body that could not be read. *)
Context (paid unread : W → nat).

Abbreviation url := (NinjaWrite.url base_url).
Abbreviation record_receipt := (NinjaWrite.record_receipt as_f64 f64_json encode get_json post_json base_url api_token request).
Abbreviation pay_path := "payments?email_receipt=false"%string.

(** A look-up records nothing; where its answer could be read it finds the payments there
    are, where not it is [Null] (see [NinjaWrite.read_response]).  Only a post of the payment
    makes one; what it made it answers with success. *)
Record ReceiptServer : Prop := {
  rs_get : ∀ u w, let w' := (get_json u api_token w).2 in paid w' = paid w ∧ (unread w ≤ unread w')%nat;
  rs_post : ∀ path body w, path ≠ pay_path →
    let w' := (post_json (url path) api_token body w).2 in paid w' = paid w ∧ (unread w ≤ unread w')%nat;
  rs_lookup : ∀ w response w',
    get_json (NinjaWrite.payment_lookup encode base_url request) api_token w = (Ok response, w') →
    is_success (NinjaWrite.http_status response) = true →
    (NinjaWrite.first_id (NinjaWrite.body response) = None ↔ paid w = 0%nat) ∨
    (NinjaWrite.body response = Json.Null ∧ (unread w < unread w')%nat);
  rs_pay : ∀ client_id invoice_id w,
    let made w' := (unread w ≤ unread w')%nat ∧ (paid w' = paid w ∨ paid w' = S (paid w)) in
    op_post (post_json (url pay_path) api_token (NinjaWrite.payment_body f64_json request client_id invoice_id)) w (fun _ => made) made;
  rs_paid : ∀ client_id invoice_id w response w',
    post_json (url pay_path) api_token (NinjaWrite.payment_body f64_json request client_id invoice_id) w = (Ok response, w') →
    is_success (NinjaWrite.http_status response) = true → paid w' = S (paid w);
}.

Context (server : ReceiptServer).

(** Since [k] unread look-ups, with [l] payments that came late: every payment but the first
    is one of those or has an unread look-up of its own. *)
Definition excused (k l : nat) (w : W) : Prop := (k ≤ unread w)%nat ∧ (paid w + k ≤ S (unread w) + l)%nat.

Lemma get_keeps k l u : preserves (excused k l) (get_json u api_token).
Proof using server. intros w Hw. destruct (rs_get server u w). unfold excused in *. lia. Qed.

Lemma post_keeps k l path body : path ≠ pay_path → preserves (excused k l) (post_json (url path) api_token body).
Proof using server. intros Hp w Hw. destruct (rs_post server path body w Hp). unfold excused in *. lia. Qed.

#[local] Hint Resolve get_keeps post_keeps : op_db.

Lemma ensure_client_keeps k l name email :
  preserves (excused k l) (NinjaWrite.ensure_client encode get_json post_json base_url api_token name email).
Proof using server.
  unfold NinjaWrite.ensure_client. apply preserves_bind; [apply get_keeps|]. intros response.
  apply preserves_bind; [apply preserves_lift|]. intros body. destruct (NinjaWrite.first_active_client_id body); [apply preserves_ret|].
  apply preserves_bind; [by apply post_keeps|]. intros created. apply preserves_bind; [apply preserves_lift|]. intros b. apply preserves_lift.
Qed.

Lemma ensure_invoice_keeps k l client_id :
  preserves (excused k l) (NinjaWrite.ensure_invoice as_f64 f64_json encode get_json post_json base_url api_token request client_id).
Proof using server.
  unfold NinjaWrite.ensure_invoice. apply preserves_bind; [apply get_keeps|]. intros response.
  apply preserves_bind; [apply preserves_lift|]. intros found. destruct (NinjaWrite.find_invoice _ _ found); [apply preserves_ret|].
  apply preserves_bind; [by apply post_keeps|]. intros created. destruct (_ =? 422)%N.
  - apply preserves_bind; [apply get_keeps|]. intros again. apply preserves_bind; [apply preserves_lift|]. intros b. apply preserves_lift.
  - apply preserves_bind; [apply preserves_lift|]. intros b. apply preserves_bind; [apply preserves_lift|]. intros id. apply preserves_ret.
Qed.

(** The payment step pays only when nothing was paid. *)
Lemma check_response_success response context body :
  NinjaWrite.check_response response context = Ok body →
  is_success (NinjaWrite.http_status response) = true ∧ body = NinjaWrite.body response.
Proof.
  unfold NinjaWrite.check_response. destruct (is_success _); [by intros [= <-]|].
  destruct (_ || _); [done|]. destruct (_ =? 429)%N; [done|]. by destruct (is_server_error _).
Qed.

Lemma ensure_payment_once k l client_id invoice_id balance w : excused k l w →
  op_post (NinjaWrite.ensure_payment f64_json encode get_json post_json base_url api_token request client_id invoice_id balance) w
    (fun id w' => excused k l w' ∧ (id ≠ None → (0 < paid w')%nat)) (excused k l).
Proof using server.
  unfold excused. intros Hw. unfold NinjaWrite.ensure_payment. destruct (balance <=? 0)%Z; [by apply op_post_ret|].
  apply op_post_bind. unfold op_post. pose proof (rs_get server (NinjaWrite.payment_lookup encode base_url request) w) as Hget. cbv zeta in Hget.
  destruct (get_json _ api_token w) as [[response|e] w1] eqn:Hl; simpl in Hget; [|lia].
  apply op_post_bind, op_post_lift; [|lia]. intros found [Hs ->]%check_response_success.
  pose proof (rs_lookup server _ _ _ Hl Hs) as Hfound. destruct (NinjaWrite.first_id _) as [id|] eqn:Hid.
  { apply op_post_ret. split; [lia|]. intros _. destruct Hfound as [Hfound|[Hnull _]]; [|by rewrite Hnull in Hid].
    assert (paid w ≠ 0%nat) by (intros H%Hfound; done). lia. }
  assert (H0 : paid w1 = 0%nat ∨ (unread w < unread w1)%nat).
  { destruct Hfound as [Hfound|[_ ?]]; [left|by right]. assert (paid w = 0%nat) by by apply Hfound. lia. }
  pose proof (rs_pay server client_id invoice_id w1) as Hpay. cbv zeta in Hpay. apply op_post_bind. unfold op_post in *.
  destruct (post_json _ _ _ w1) as [[created|e] w2] eqn:Hp; [|lia].
  apply op_post_bind, op_post_lift; [|lia]. intros body [Hs2 ->]%check_response_success.
  pose proof (rs_paid server _ _ _ _ _ Hp Hs2) as H1. unfold op_map. apply op_post_bind, op_post_lift; [|lia].
  intros id _. apply op_post_ret. lia.
Qed.

Lemma receipt_once k l w : excused k l w →
  op_post record_receipt w
    (fun answer w' => excused k l w' ∧ (NinjaWrite.receipt_payment_id answer ≠ None → (0 < paid w')%nat)) (excused k l).
Proof using server.
  intros Hw. unfold NinjaWrite.record_receipt. apply op_post_bind, op_post_lift_any; [|done]. intros _.
  apply op_post_bind. eapply op_post_mono; [apply (op_post_preserves _ _ _ _ (ensure_client_keeps k l _ _) Hw (fun _ _ H => H))| |done].
  intros client_id w1 H1. apply op_post_bind.
  eapply op_post_mono; [apply (op_post_preserves _ _ _ _ (ensure_invoice_keeps k l client_id) H1 (fun _ _ H => H))| |done].
  intros invoice w2 H2. apply op_post_bind.
  eapply op_post_mono; [apply ensure_payment_once; exact H2| |done]. intros id w3 H3. by apply op_post_ret.
Qed.

(** The payload is delivered again and again, and in between others work at the provider;
    [late] payments of this payload, posted by a delivery that was given up, take effect only then. *)
Inductive Event :=
| Deliver
| Others (f : W → W) (late : nat).
Definition play (w : W) (event : Event) : W :=
  match event with
  | Deliver => (record_receipt w).2
  | Others f _ => f w
  end.
Definition late_payments (event : Event) : nat := match event with Deliver => 0 | Others _ late => late end.
Definition leaves_payments (event : Event) : Prop :=
  match event with Deliver => True | Others f late => ∀ w, (paid (f w) ≤ paid w + late)%nat ∧ unread (f w) = unread w end.

(** C5: However often a receipt is delivered, one delivery after another, and whichever
    answers do not arrive: every payment that carries its key but the first either took
    effect late, after the delivery that posted it had been given up, or was made by a
    delivery whose look-up of the payment was answered with success and a body that could
    not be read.  So as long as neither happens there is at most one payment.  A
    delivery that reports a payment leaves one. *)
Theorem receipt_paid_once w0 events :
  (paid w0 ≤ 1)%nat → Forall leaves_payments events →
  let w := foldl play w0 events in let late := sum_list_with late_payments events in
  (paid w + unread w0 ≤ 1 + unread w + late)%nat ∧ (unread w = unread w0 → late = 0%nat → (paid w ≤ 1)%nat) ∧
  ∀ answer w', record_receipt w = (Ok answer, w') → NinjaWrite.receipt_payment_id answer ≠ None →
    (0 < paid w')%nat ∧ (unread w' = unread w0 → late = 0%nat → paid w' = 1%nat).
Proof using server.
  intros H0 Hev. assert (Hw : excused (unread w0) (sum_list_with late_payments events) (foldl play w0 events)).
  { assert (Hi : excused (unread w0) 0 w0) by (unfold excused; lia). revert Hi. generalize (unread w0). intros k. clear H0.
    change (sum_list_with late_payments events) with (0 + sum_list_with late_payments events)%nat. generalize 0%nat as l. revert w0.
    induction Hev as [|[|f late] events Hf _ IH]; intros w0 l Hi; [by rewrite Nat.add_0_r| |]; simpl; rewrite ?Nat.add_assoc; apply IH.
    - apply (op_post_ends _ _ _ _ (receipt_once k l w0 Hi)). by intros a w' [? _].
    - destruct (Hf w0). unfold excused in *. lia. }
  pose proof (receipt_once _ _ _ Hw) as Hr. unfold op_post in Hr. cbv zeta.
  set (w := foldl play w0 events) in *. set (late := sum_list_with _ _) in *.
  unfold excused in Hw. split; [lia|]. split; [lia|]. intros answer w' Ha Hid. rewrite Ha in Hr. destruct Hr as [He Hr].
  specialize (Hr Hid). unfold excused in He. lia.
Qed.
End receipt.

(** ** Invoice drafts at Invoice Ninja *)

Section drafts.
Context {W : Type} (f64_json : SpecFloat.spec_float → Json.Value) (encode : string → string).
Context (get_json : string → string → Op W NinjaWrite.InvoiceNinjaWriteError NinjaWrite.InvoiceNinjaHttpResponse)
  (post_json : string → string → Json.Value → Op W NinjaWrite.InvoiceNinjaWriteError NinjaWrite.InvoiceNinjaHttpResponse)
  (base_url api_token : string) (request : NinjaWrite.InvoiceDraftPayload.t) (client_id : string).

(** The invoices of the client, as the provider lists them. *)
Context (listed : W → list Json.Value).

Abbreviation marker := (NinjaWrite.bos_draft_marker (NinjaWrite.InvoiceDraftPayload.draft_ref request)).
Abbreviation scan := (NinjaWrite.scan_pages encode get_json base_url api_token).
Abbreviation ensure fuel :=
  (NinjaWrite.ensure_invoice_draft f64_json encode get_json post_json base_url api_token fuel request client_id).

(** The notes name the draft. *)
Definition marked (record : Json.Value) : bool :=
  option_any (fun notes => contains notes marker) (value ← Json.get "private_notes" record; Json.as_str value).
Definition drafted (w : W) : nat := length (List.filter marked (listed w)).

Definition page_of (page : N) (records : list Json.Value) : list Json.Value :=
  take 100 (drop (100 * (N.to_nat page - 1)) records).

(** A read records nothing; a post creates the draft or does not, and where the answer
    is a success it did; marked invoices have an id. *)
Record DraftServer : Prop := {
  ds_get : ∀ u w, listed (get_json u api_token w).2 = listed w;
  ds_ids : ∀ w record, record ∈ listed w → marked record = true → is_Some (NinjaWrite.record_id record);
  ds_post : ∀ w, let body := NinjaWrite.draft_body f64_json request client_id marker in
    let created w' := drafted w' = S (drafted w) in
    op_post (post_json (NinjaWrite.url base_url "invoices") api_token body) w
      (fun response w' => created w' ∨ (is_success (NinjaWrite.http_status response) = false ∧ listed w' = listed w))
      (fun w' => created w' ∨ listed w' = listed w);
}.

(** A page that is answered with success is the page there is. *)
Definition PagesServed : Prop := ∀ page w response w',
  (1 ≤ page)%N → get_json (NinjaWrite.page_lookup encode base_url client_id page) api_token w = (Ok response, w') →
  is_success (NinjaWrite.http_status response) = true →
  NinjaWrite.data_records (NinjaWrite.body response) = Some (page_of page (listed w)).

Context (server : DraftServer).

Lemma find_marked_none records : List.filter marked records = [] → NinjaWrite.find_marked marker records = None.
Proof.
  unfold NinjaWrite.find_marked. fold marked. intros Hf. destruct (List.find marked records) as [r|] eqn:Hr; [|done].
  apply List.find_some in Hr as [Hin Hm]. assert (Hin' : In r (List.filter marked records)) by by apply filter_In.
  by rewrite Hf in Hin'.
Qed.

Lemma find_marked_some records : (∀ r, r ∈ records → marked r = true → is_Some (NinjaWrite.record_id r)) →
  List.filter marked records ≠ [] → is_Some (NinjaWrite.find_marked marker records).
Proof.
  intros Hids Hf. unfold NinjaWrite.find_marked. fold marked. destruct (List.find marked records) as [r|] eqn:Hr.
  - apply List.find_some in Hr as [Hin Hm]. destruct (Hids r) as [id Hid]; [by apply list_elem_of_In|done|].
    simpl. rewrite Hid. by eexists.
  - destruct Hf. clear Hids. induction records as [|a l IH]; [done|]. simpl in *. destruct (marked a); [done|]. by apply IH.
Qed.

(** From page [page] on: [fuel] pages reach the end. *)
Lemma scan_pages_spec fuel page w : PagesServed → (1 ≤ page)%N →
  (length (drop (100 * (N.to_nat page - 1)) (listed w)) < 100 * fuel)%nat →
  op_post (scan fuel client_id marker page) w
    (fun found w' => listed w' = listed w ∧ ∃ o, found = Some o ∧
       (o = None ↔ List.filter marked (drop (100 * (N.to_nat page - 1)) (listed w)) = []))
    (fun w' => listed w' = listed w).
Proof using server.
  intros Hpages. revert page w. induction fuel as [|fuel IH]; intros page w Hp Hfuel; [lia|]. cbn [NinjaWrite.scan_pages].
  apply op_post_bind. unfold op_post at 1. pose proof (ds_get server (NinjaWrite.page_lookup encode base_url client_id page) w) as Hget.
  destruct (get_json _ api_token w) as [[response|e] w1] eqn:Hl; simpl in Hget; [|done].
  apply op_post_bind, op_post_lift; [|done]. intros body [Hs ->]%check_response_success.
  rewrite (Hpages _ _ _ _ Hp Hl Hs). cbn [default from_option]. unfold id, page_of. set (rest := drop _ (listed w)) in *.
  assert (Hall : List.filter marked rest = List.filter marked (take 100 rest) ++ List.filter marked (drop 100 rest))
    by by rewrite <- List.filter_app, take_drop.
  rewrite Hall. clear Hall.
  destruct (List.filter marked (take 100 rest)) as [|r l] eqn:Hf.
  - rewrite (find_marked_none _ Hf). unfold len. rewrite length_take. destruct (N.ltb_spec (N.of_nat (100 `min` length rest)) 100) as [Hshort|Hlong].
    + apply op_post_ret. split; [done|]. exists None. split; [done|]. rewrite drop_ge by lia. done.
    + assert (Hd : drop (100 * (N.to_nat (page + 1) - 1)) (listed w1) = drop 100 rest).
      { unfold rest. rewrite Hget, drop_drop. f_equal. lia. }
      eapply op_post_mono; [apply (IH (page + 1)%N w1); [lia|]| |].
      * rewrite Hd, length_drop. lia.
      * rewrite Hd, Hget. intros found w' [Hw' (o & -> & Ho)]. split; [done|]. exists o. split; [done|]. exact Ho.
      * intros w' Hw'. by rewrite Hw'.
  - destruct (find_marked_some (take 100 rest)) as [found Hfound].
    { intros x Hx. apply (ds_ids server w). unfold rest in Hx. eapply subseteq_drop, subseteq_take, Hx. }
    { by rewrite Hf. }
    rewrite Hfound. apply op_post_ret. split; [done|]. exists (Some found). split; [done|]. by split.
Qed.

Lemma filter_nil_drafted w : List.filter marked (listed w) = [] ↔ drafted w = 0%nat.
Proof. unfold drafted. by rewrite length_zero_iff_nil. Qed.

(** The step creates the draft only if no invoice names it, and with more fuel than hundreds
    of invoices its scan never runs out. *)
Lemma ensure_draft_once fuel w :
  PagesServed → (length (listed w) / 100 < fuel)%nat →
  op_post (ensure fuel) w
    (fun found w' => is_Some found ∧ drafted w' = Nat.max 1 (drafted w)) (fun w' => (drafted w' ≤ Nat.max 1 (drafted w))%nat).
Proof using server.
  intros Hpages Hfuel. assert (Hlen : (length (listed w) < 100 * fuel)%nat).
  { pose proof (Nat.div_mod_eq (length (listed w)) 100). pose proof (Nat.mod_upper_bound (length (listed w)) 100). lia. }
  pose proof (scan_pages_spec fuel 1 w Hpages) as Hscan. change (100 * (N.to_nat 1 - 1))%nat with 0%nat in Hscan.
  rewrite drop_0 in Hscan. specialize (Hscan ltac:(lia) Hlen).
  assert (Hsame : ∀ w', listed w' = listed w → drafted w' = drafted w) by (intros w' H; unfold drafted; by rewrite H).
  unfold NinjaWrite.ensure_invoice_draft. apply op_post_bind. eapply op_post_mono; [exact Hscan| |].
  2: { intros w1 H1. rewrite (Hsame w1 H1). lia. }
  intros found w1 (H1 & o & -> & Ho). rewrite filter_nil_drafted in Ho. rewrite <- (Hsame w1 H1) in Ho |- *. clear Hsame Hscan Hlen Hfuel H1 w.
  destruct o as [[id number]|].
  { apply op_post_ret. assert (drafted w1 ≠ 0%nat) by (intros H%Ho; done). split; [eauto|lia]. }
  assert (H0 : drafted w1 = 0%nat) by by apply Ho. pose proof (ds_post server w1) as Hpost. cbv zeta in Hpost.
  assert (Hsame : ∀ w', listed w' = listed w1 → drafted w' = 0%nat) by (intros w' H; unfold drafted in *; by rewrite H).
  rewrite H0 in *. apply op_post_bind. unfold op_post in *. destruct (post_json _ _ _ w1) as [[created|e] w2].
  2: { destruct Hpost as [H|H%Hsame]; lia. }
  assert (Hx : (drafted w2 ≤ 1)%nat) by (destruct Hpost as [H|[_ H%Hsame]]; lia).
  apply op_post_bind, op_post_lift; [|lia]. intros body [Hs ->]%check_response_success.
  destruct Hpost as [H|[Hf _]]; [|by rewrite Hs in Hf].
  apply op_post_bind, op_post_lift; [|lia]. intros id _. apply op_post_ret. split; [by eexists|lia].
Qed.

(** *** Whole deliveries *)

(** Whether the provider has the client, under [client_id]. *)
Context (known : W → bool).

Abbreviation create fuel :=
  (NinjaWrite.create_invoice_draft f64_json encode get_json post_json base_url api_token fuel request).
Abbreviation its_client_lookup := (NinjaWrite.client_lookup encode base_url (NinjaWrite.InvoiceDraftPayload.customer_name request)
  (NinjaWrite.InvoiceDraftPayload.customer_email request)).

(** A read makes no client; a post of the client makes no invoice, and where there was no such
    client and it is answered with success and an id, that is the client's. *)
Record ClientServer : Prop := {
  cs_get : ∀ u w, known (get_json u api_token w).2 = known w;
  cs_post : ∀ body w, listed (post_json (NinjaWrite.url base_url "clients") api_token body w).2 = listed w;
  cs_created : ∀ body w response w' id, known w = false →
    post_json (NinjaWrite.url base_url "clients") api_token body w = (Ok response, w') →
    is_success (NinjaWrite.http_status response) = true →
    NinjaWrite.created_id (NinjaWrite.body response) "client create" = Ok id → id = client_id;
}.

(** A look-up of the client that is answered with success shows whether it is there. *)
Definition ClientServed : Prop := ∀ w response w',
  get_json its_client_lookup api_token w = (Ok response, w') → is_success (NinjaWrite.http_status response) = true →
  NinjaWrite.first_active_client_id (NinjaWrite.body response) = if known w then Some client_id else None.

Context (clients : ClientServer).

Lemma ensure_client_found w : ClientServed →
  op_post (NinjaWrite.ensure_client encode get_json post_json base_url api_token (NinjaWrite.InvoiceDraftPayload.customer_name request)
             (NinjaWrite.InvoiceDraftPayload.customer_email request)) w
    (fun id w' => id = client_id ∧ listed w' = listed w) (fun w' => listed w' = listed w).
Proof using server clients.
  intros Hserved. unfold NinjaWrite.ensure_client. apply op_post_bind. unfold op_post at 1.
  pose proof (ds_get server its_client_lookup w) as Hget. pose proof (cs_get clients its_client_lookup w) as Hknown.
  destruct (get_json _ api_token w) as [[response|e] w1] eqn:Hl; simpl in Hget, Hknown; [|done].
  apply op_post_bind, op_post_lift; [|done]. intros body [Hs ->]%check_response_success.
  rewrite (Hserved _ _ _ Hl Hs). destruct (known w); [by apply op_post_ret|].
  apply op_post_bind. unfold op_post at 1. set (body := NinjaWrite.client_body _ _).
  pose proof (cs_post clients body w1) as Hp. destruct (post_json _ _ body w1) as [[created|e] w2] eqn:Hc; simpl in Hp; [|by rewrite Hp].
  apply op_post_bind, op_post_lift; [|by rewrite Hp]. intros b [Hs2 ->]%check_response_success.
  apply op_post_lift; [|by rewrite Hp]. intros id Hi. split; [by eapply (cs_created clients)|by rewrite Hp].
Qed.

(** One delivery of the draft. *)
Lemma delivery_once fuel w :
  PagesServed → ClientServed → (length (listed w) / 100 < fuel)%nat →
  op_post (create fuel) w
    (fun found w' => is_Some found ∧ drafted w' = Nat.max 1 (drafted w)) (fun w' => (drafted w' ≤ Nat.max 1 (drafted w))%nat).
Proof using server clients.
  intros Hpages Hserved Hfuel. unfold NinjaWrite.create_invoice_draft. apply op_post_bind, op_post_lift_any; [|lia]. intros _.
  apply op_post_bind. eapply op_post_mono; [by apply ensure_client_found| |].
  2: { intros w' H. unfold drafted. rewrite H. lia. }
  intros id w1 [-> H1]. rewrite <- H1 in Hfuel. assert (Hd : drafted w1 = drafted w) by (unfold drafted; by rewrite H1). rewrite <- Hd.
  apply op_post_bind. eapply op_post_mono; [by apply ensure_draft_once| |done].
  intros found w2 [[x ->] Hf]. split; [by eexists|done].
Qed.

(** The draft is delivered again and again, and others work at the provider too; [late]
    invoices that name the draft appear there by other means than a delivery that is going
    on: a post whose delivery was given up takes effect, or someone makes a copy. *)
Inductive DraftEvent :=
| DeliverDraft (fuel : nat)
| OthersWork (f : W → W) (late : nat).
Definition draft_event (w : W) (event : DraftEvent) : W :=
  match event with DeliverDraft fuel => (create fuel w).2 | OthersWork f _ => f w end.
Definition late_drafts (event : DraftEvent) : nat := match event with DeliverDraft _ => 0 | OthersWork _ late => late end.

(** Every scan has fuel for the pages there are. *)
Fixpoint fueled (w : W) (events : list DraftEvent) : Prop :=
  match events with
  | [] => True
  | DeliverDraft fuel :: events => (length (listed w) / 100 < fuel)%nat ∧ fueled (draft_event w (DeliverDraft fuel)) events
  | OthersWork f late :: events => (∀ w, (drafted (f w) ≤ drafted w + late)%nat) ∧ fueled (f w) events
  end.

(** C14: As long as the provider shows the client and the pages of its invoices in full
    whenever it answers a look-up with success, and keeps the client: however often an invoice draft is delivered,
    one delivery after another, and whichever other answers are lost, at most one of the
    client's invoices names it, not counting those that came late, from a post whose
    delivery had been given up, or from elsewhere.  A delivery whose scan has more fuel than
    hundreds of invoices never runs out of it, makes none where there is one, and
    leaves one when it is answered. *)
Theorem draft_created_once w0 events :
  PagesServed → ClientServed → (drafted w0 ≤ 1)%nat → fueled w0 events →
  let w := foldl draft_event w0 events in
  (drafted w ≤ 1 + sum_list_with late_drafts events)%nat ∧
  ∀ fuel, (length (listed w) / 100 < fuel)%nat →
    let '(answer, w') := create fuel w in
    (drafted w' ≤ Nat.max 1 (drafted w))%nat ∧
    ∀ found, answer = Ok found → is_Some found ∧ drafted w' = Nat.max 1 (drafted w).
Proof using server clients.
  intros Hpages Hserved H0 Hev. cbv zeta. split.
  - cut (∀ l, (drafted w0 ≤ 1 + l)%nat → (drafted (foldl draft_event w0 events) ≤ 1 + (l + sum_list_with late_drafts events))%nat).
    { intros H. by apply (H 0%nat). }
    clear H0. revert w0 Hev.
    induction events as [|[fuel|f late] events IH]; intros w0 Hev l Hi; [simpl; lia| |]; destruct Hev as [He Hev]; simpl; rewrite ?Nat.add_assoc;
      apply (IH _ Hev).
    + apply (op_post_ends _ _ (fun _ w' => (drafted w' ≤ 1 + l)%nat) (fun w' => (drafted w' ≤ 1 + l)%nat)); [|done].
      eapply op_post_mono; [by apply delivery_once| |]; [intros a w' [_ ?]; lia|intros w' H; cbv beta in H; lia].
    + pose proof (He w0). lia.
  - intros fuel Hfuel. pose proof (delivery_once fuel _ Hpages Hserved Hfuel) as Hd. unfold op_post in Hd.
    destruct (create fuel _) as [[found|e] w']; [|by split]. destruct Hd as [? Hd]. split; [lia|]. by intros ? [= <-].
Qed.

(** C39: A page whose body cannot be read counts as an empty one: [send] turns it into
    [Null] under its status 200.  So a redelivery whose look-up is answered but cut off
    does not find the draft that is there and creates another. *)
Theorem unread_page_duplicates_draft fuel w w1 retry_after :
  drafted w = 1%nat →
  get_json (NinjaWrite.page_lookup encode base_url client_id 1) api_token w = (Ok (NinjaWrite.read_response 200 retry_after None), w1) →
  (∀ response w', post_json (NinjaWrite.url base_url "invoices") api_token (NinjaWrite.draft_body f64_json request client_id marker) w1
     = (Ok response, w') → is_success (NinjaWrite.http_status response) = true) →
  ∀ answer w', ensure (S fuel) w = (Ok answer, w') → drafted w' = 2%nat.
Proof using server.
  intros H1 Hget Hok answer w'. pose proof (ds_get server (NinjaWrite.page_lookup encode base_url client_id 1) w) as Hl.
  rewrite Hget in Hl. simpl in Hl. assert (Hd : drafted w1 = 1%nat) by (unfold drafted in *; by rewrite Hl).
  unfold NinjaWrite.ensure_invoice_draft. rewrite op_bind_ok. intros (found & w2 & Hs & Hrest).
  assert (Hs' : scan (S fuel) client_id marker 1 w = (Ok (Some None), w1)).
  { cbn [NinjaWrite.scan_pages]. erewrite op_bind_step by exact Hget. done. }
  rewrite Hs in Hs'. injection Hs' as -> ->. apply op_bind_ok in Hrest as (created & w3 & Hc & Hrest).
  pose proof (ds_post server w1) as Hpost. cbv zeta in Hpost. unfold op_post in Hpost. rewrite Hc in Hpost.
  pose proof (Hok _ _ Hc) as Hsucc. apply op_bind_ok in Hrest as (body & w4 & Hb & Hrest). injection Hb as _ <-.
  apply op_bind_ok in Hrest as (id & w5 & Hi & Hrest). injection Hi as _ <-. injection Hrest as _ <-.
  destruct Hpost as [H|[H _]]; [by rewrite H, Hd|by rewrite Hsucc in H].
Qed.
End drafts.

(** ** Payments at QuickBooks *)

Section payment.
Context {W : Type} (as_f64 : Json.Value → option SpecFloat.spec_float) (encode : string → string) (body_text : Json.Value → string).
Context (get_json : string → string → Op W QboWrite.QboWriteError QboWrite.QboWriteHttpResponse)
  (post_json : string → string → Json.Value → Op W QboWrite.QboWriteError QboWrite.QboWriteHttpResponse)
  (api_base_url realm_id access_token : string) (payload : QboWrite.QboPaymentOutboxPayload).

(** The open balance of the payload's invoice, and the payments made from the payload. *)
Context (balance : W → Z) (posted : W → nat).

Abbreviation query_one := (QboWrite.query_one encode body_text get_json api_base_url realm_id access_token).
Abbreviation record_payment :=
  (QboWrite.record_payment as_f64 encode body_text get_json post_json api_base_url realm_id access_token payload).

(** A read changes nothing and shows the balance there is; while a post is waited for it
    makes the payment and takes its amount off the balance, or does nothing - so far. *)
Record PaymentServer : Prop := {
  ps_get : ∀ u w, posted (get_json u access_token w).2 = posted w ∧ balance (get_json u access_token w).2 = balance w;
  ps_invoice : ∀ w w' value invoice, query_one "Invoice" (QboWrite.provider_invoice_id payload) w = (Ok (Some value), w') →
    QboWrite.invoice_record_from_value as_f64 value = Some invoice → InvoiceRecord.balance_cents invoice = balance w;
  ps_post : ∀ w, let effect w' := (posted w' = posted w ∧ balance w' = balance w)
                    ∨ (posted w' = S (posted w) ∧ balance w' = (balance w - QboWrite.amount_cents payload)%Z) in
    op_post (post_json (QboWrite.payment_url api_base_url realm_id) access_token (QboWrite.qbo_payment_body payload)) w
      (fun _ w' => effect w') effect;
}.

Context (server : PaymentServer).

Abbreviation at_books n z := (fun w => posted w = n ∧ balance w = z).

Lemma query_one_keeps n z entity id : preserves (at_books n z) (query_one entity id).
Proof using server.
  unfold QboWrite.query_one. apply preserves_bind; [apply preserves_lift|]. intros safe.
  apply preserves_bind; [|intros response; apply preserves_lift]. intros w [Hp Hb].
  by destruct (ps_get server (QboWrite.query_url encode api_base_url realm_id (QboWrite.query_text entity safe)) w) as [-> ->].
Qed.

(** The preflight lets a payment through only at exactly its balance. *)
Lemma preflight_spec w :
  op_post (QboWrite.preflight_payment_refs as_f64 encode body_text get_json api_base_url realm_id access_token payload) w
    (fun _ w' => at_books (posted w) (balance w) w' ∧ balance w = QboWrite.amount_cents payload ∧ (0 < balance w)%Z)
    (at_books (posted w) (balance w)).
Proof using server.
  set (n := posted w). set (z := balance w). assert (Hw : at_books n z w) by done. clearbody n z.
  unfold QboWrite.preflight_payment_refs. apply op_post_bind.
  eapply op_post_mono; [apply (op_post_preserves _ _ _ _ (query_one_keeps n z _ _) Hw (fun _ _ H => H))| |done].
  intros customer w1 H1. apply op_post_bind, op_post_lift_any; [|done]. intros _. apply op_post_bind.
  pose proof (query_one_keeps n z "Invoice" (QboWrite.provider_invoice_id payload) w1 H1) as Hk. unfold op_post at 1.
  destruct (query_one "Invoice" _ w1) as [[found|e] w2] eqn:Hq; [|done]. apply op_post_lift; [|done]. intros [] Hc. split; [done|].
  unfold QboWrite.check_invoice in Hc. destruct found as [value|]; [|done]. cbn [mbind option_bind] in Hc.
  destruct (QboWrite.invoice_record_from_value as_f64 value) as [invoice|] eqn:Hi; [|done].
  destruct (InvoiceRecord.voided invoice); [done|]. pose proof (ps_invoice server _ _ _ _ Hq Hi) as Hb. destruct H1 as [_ H1].
  destruct (InvoiceRecord.balance_cents invoice <=? 0)%Z eqn:Hpos; [done|].
  destruct (InvoiceRecord.balance_cents invoice =? QboWrite.amount_cents payload)%Z eqn:Heq; [|done]. lia.
Qed.

(** What is known of the invoice between deliveries, [l] payments having come late. *)
Definition once_paid (l : nat) (w : W) : Prop := posted w = 0%nat ∨ ((posted w ≤ 1 + l)%nat ∧ (balance w ≤ 0)%Z).

Lemma payment_once l w : once_paid l w →
  op_post record_payment w (fun _ w' => once_paid l w' ∧ posted w = 0%nat) (fun w' => once_paid l w' ∧ (posted w ≠ 0%nat → posted w' = posted w)).
Proof using server.
  intros Hw. unfold QboWrite.record_payment. apply op_post_bind, op_post_lift_any; [|by split]. intros [].
  apply op_post_bind. eapply op_post_mono; [apply preflight_spec| |].
  2: { intros w' [Hp Hb]. unfold once_paid in *. rewrite Hp, Hb. done. }
  intros [] w1 ([Hp Hb] & Ha & Hpos). assert (H0 : posted w = 0%nat) by (destruct Hw as [?|[_ ?]]; [done|lia]).
  pose proof (ps_post server w1) as Hpost. cbv zeta in Hpost.
  assert (Hx : ∀ w', (posted w' = posted w1 ∧ balance w' = balance w1)
                     ∨ (posted w' = S (posted w1) ∧ balance w' = (balance w1 - QboWrite.amount_cents payload)%Z) → once_paid l w').
  { intros w' [[H1 H2]|[H1 H2]]; unfold once_paid; rewrite H1, Hp, H0; [by left|]. right. lia. }
  apply op_post_bind. unfold op_post in *. destruct (post_json _ _ _ w1) as [[response|e] w2].
  - apply op_post_lift_any; [intros answer|]; split; auto. lia.
  - split; [auto|]. lia.
Qed.

(** Deliveries of the job, one after another; work of others; and a post of a delivery that
    was given up, which takes effect only now. *)
Inductive BookEvent :=
| Post
| Elsewhere (f : W → W)
| Late (f : W → W).
Definition keep_books (w : W) (event : BookEvent) : W :=
  match event with
  | Post => (record_payment w).2
  | Elsewhere f | Late f => f w
  end.
Definition late_posts (event : BookEvent) : nat := match event with Late _ => 1 | _ => 0 end.
(** Others make no payment of this payload and do not open the invoice again; a late
    payment pays what is left of it. *)
Definition keeps_closed (event : BookEvent) : Prop :=
  match event with
  | Post => True
  | Elsewhere f => ∀ w, posted (f w) = posted w ∧ (balance (f w) ≤ balance w)%Z
  | Late f => ∀ w, posted (f w) = S (posted w) ∧ (balance (f w) ≤ 0)%Z
  end.

(** C15: As long as nobody opens the invoice's balance again, a payment is posted at most
    once by deliveries that follow one another, and once more for every post that takes
    effect only after its delivery was given up.  But when its answer was lost it is never
    reported as made: once it is there, every delivery of the job posts nothing and is
    answered with an error, and the one that sees the invoice as it is fails for good, as
    "not payable". *)
Theorem lost_payment_reported_failed w0 events :
  posted w0 = 0%nat → Forall keeps_closed events →
  let w := foldl keep_books w0 events in
  (posted w ≤ 1 + sum_list_with late_posts events)%nat ∧
  (posted w ≠ 0%nat → ∀ answer w', record_payment w = (answer, w') →
     posted w' = posted w ∧ (∃ e, answer = Err e) ∧
     ∀ customer w1 value w2 invoice,
       QboWrite.validate_payment_payload payload = Ok tt →
       query_one "Customer" (QboWrite.provider_customer_id payload) w = (Ok customer, w1) →
       QboWrite.check_customer payload (v ← customer; QboWrite.customer_record_from_value v) = Ok tt →
       query_one "Invoice" (QboWrite.provider_invoice_id payload) w1 = (Ok (Some value), w2) →
       QboWrite.invoice_record_from_value as_f64 value = Some invoice → InvoiceRecord.voided invoice = false →
       ∃ message, answer = Err (QboWrite.Permanent "qbo_payment_invoice_not_payable" message)).
Proof using server.
  intros H0 Hev. assert (Hw : once_paid (sum_list_with late_posts events) (foldl keep_books w0 events)).
  { assert (Hi : once_paid 0 w0) by by left. clear H0. revert Hi.
    change (sum_list_with late_posts events) with (0 + sum_list_with late_posts events)%nat. generalize 0%nat as l. revert w0.
    induction Hev as [|[|f|f] events Hf _ IH]; intros w0 l Hi; [by rewrite Nat.add_0_r|..]; simpl; try apply IH.
    - apply (op_post_ends record_payment w0 (fun _ w' => once_paid l w' ∧ posted w0 = 0%nat)); [|by intros a w' [? _]].
      eapply op_post_mono; [apply (payment_once l w0 Hi)|done|]. by intros w' [? _].
    - destruct (Hf w0) as [Hp Hb]. unfold once_paid in *. rewrite Hp. destruct Hi as [?|[? ?]]; [by left|right; lia].
    - rewrite <- Nat.add_succ_comm. apply IH. destruct (Hf w0) as [Hp Hb]. unfold once_paid in *. right. lia. }
  cbv zeta. set (w := foldl keep_books w0 events) in *. clearbody w. split; [unfold once_paid in Hw; lia|].
  intros H1 answer w' Ha. pose proof (payment_once _ w Hw) as Hp. unfold op_post in Hp. rewrite Ha in Hp.
  destruct answer as [answer|e]; [lia|]. destruct Hp as [_ Hp]. split; [auto|]. split; [by exists e|].
  intros customer w1 value w2 invoice Hv Hc Hcc Hi Hir Hvoid. unfold QboWrite.record_payment in Ha.
  rewrite Hv in Ha. unfold op_bind at 1, op_lift at 1 in Ha. unfold QboWrite.preflight_payment_refs in Ha.
  unfold op_bind at 1 in Ha. erewrite op_bind_step in Ha by exact Hc. rewrite Hcc in Ha. unfold op_bind at 1, op_lift at 1 in Ha.
  erewrite op_bind_step in Ha by exact Hi. cbn [mbind option_bind] in Ha. rewrite Hir in Ha. unfold op_lift, QboWrite.check_invoice in Ha.
  rewrite Hvoid in Ha. assert (Hb : (InvoiceRecord.balance_cents invoice ≤ 0)%Z).
  { rewrite (ps_invoice server _ _ _ _ Hi Hir). destruct Hw as [?|[_ Hb]]; [lia|].
    pose proof (query_one_keeps (posted w) (balance w) "Customer" (QboWrite.provider_customer_id payload) w (conj eq_refl eq_refl)) as [_ Hk].
    rewrite Hc in Hk. simpl in Hk. lia. }
  apply Z.leb_le in Hb. rewrite Hb in Ha. injection Ha as <- _. by eexists.
Qed.
End payment.

(** ** Invoice items at Stripe *)

Section stripe.
Context {W : Type} (to_lowercase : string → string).
Context (get_form : string → list (string * string) → string → Op W AccountingError StripeWrite.StripeHttpResponse)
  (post_form : string → list (string * string) → string → string → Op W AccountingError StripeWrite.StripeHttpResponse)
  (secret_key : string) (request : StripeWrite.Payload.t).

(** The request the provider saw under an idempotency key. *)
Context (remembered : W → string → option (string * list (string * string))).

(** A key that was used answers its own request only: another request under it is an
    error.  Keys are kept for as long as the deliveries of a job last. *)
Record StripeServer : Prop := {
  ss_post : ∀ path params key w,
    op_post (post_form path params key secret_key) w
      (fun response w' => (∀ k seen, remembered w k = Some seen → remembered w' k = Some seen) ∧
         (is_success (StripeWrite.http_status response) = true → remembered w' key = Some (path, params)))
      (fun _ => True);
}.

Context (server : StripeServer).

Abbreviation post_items := (StripeWrite.post_items to_lowercase post_form secret_key request).
Abbreviation items_path := "/v1/invoiceitems"%string.

(** A post that is answered with success leaves its key for its request. *)
Lemma post_remembers path params key step w :
  op_post (StripeWrite.post post_form secret_key path params key step) w
    (fun _ w' => (∀ k seen, remembered w k = Some seen → remembered w' k = Some seen) ∧ remembered w' key = Some (path, params))
    (fun _ => True).
Proof using server.
  unfold StripeWrite.post. apply op_post_bind. pose proof (ss_post server path params key w) as Hp.
  unfold op_post in *. unfold StripeWrite.or_write_error. destruct (post_form path params key secret_key w) as [[response|e] w1]; [|done].
  unfold op_lift, StripeWrite.check_write_status. destruct (is_success _) eqn:Hs; [by destruct Hp as [? Hr]; auto|].
  repeat (destruct (_ || _); [done|]). done.
Qed.

(** Every line that was posted has its key to itself. *)
Lemma post_items_remembered customer_id invoice_id lines w :
  op_post (post_items customer_id invoice_id lines) w
    (fun _ w' => (∀ k seen, remembered w k = Some seen → remembered w' k = Some seen) ∧
       ∀ line, line ∈ lines → remembered w' (StripeWrite.item_key request line)
         = Some (items_path, StripeWrite.item_params to_lowercase request customer_id invoice_id line))
    (fun _ => True).
Proof using server.
  revert w. induction lines as [|line lines IH]; intros w; [by split; [auto|intros ? ?%elem_of_nil]|].
  cbn [StripeWrite.post_items]. apply op_post_bind. eapply op_post_mono; [apply post_remembers| |done].
  intros created w1 [Hkeep Hkey]. eapply op_post_mono; [apply IH| |done]. intros [] w2 [Hkeep2 Hlines]. split; [auto|].
  intros l [->|Hl]%elem_of_cons; auto.
Qed.

(** Two lines with one number and different totals share an idempotency key, and the
    provider answers a key with one request. *)
Lemma shared_key_never_invoiced a b w :
  a ∈ StripeWrite.Payload.line_items request → b ∈ StripeWrite.Payload.line_items request →
  StripeWrite.Line.line_number a = StripeWrite.Line.line_number b →
  StripeWrite.Line.line_total_cents a ≠ StripeWrite.Line.line_total_cents b →
  ∃ e, (StripeWrite.create_invoice_draft to_lowercase get_form post_form secret_key request w).1 = Err e.
Proof using server.
  intros Ha Hb Hn Ht. destruct (StripeWrite.create_invoice_draft _ _ _ _ _ w) as [[answer|e] w'] eqn:Hr; [|by exists e].
  exfalso. unfold StripeWrite.create_invoice_draft in Hr.
  apply op_bind_ok in Hr as ([] & w1 & _ & Hr). apply op_bind_ok in Hr as (customer & w2 & _ & Hr).
  apply op_bind_ok in Hr as (invoice & w3 & _ & Hr). apply op_bind_ok in Hr as (invoice_id & w4 & _ & Hr).
  apply op_bind_ok in Hr as ([] & w5 & Hi & _). pose proof (post_items_remembered customer invoice_id (StripeWrite.Payload.line_items request) w4) as Hp.
  unfold op_post in Hp. unfold StripeWrite.create_invoice_items in Hi. rewrite Hi in Hp. destruct Hp as [_ Hp].
  pose proof (Hp a Ha) as Hka. pose proof (Hp b Hb) as Hkb. unfold StripeWrite.item_key in Hka, Hkb. rewrite Hn in Hka. rewrite Hka in Hkb.
  apply Some_inj in Hkb. apply (f_equal snd) in Hkb. simpl in Hkb. unfold StripeWrite.item_params in Hkb.
  apply (f_equal (fun l => l !! 2%nat)) in Hkb. simpl in Hkb. injection Hkb as Heq. by apply Ht, fmt_dec_inj.
Qed.
End stripe.

(** ** Small providers *)

Definition toy_answer (status : N) (body : Json.Value) : NinjaWrite.InvoiceNinjaHttpResponse :=
  NinjaWrite.Build_InvoiceNinjaHttpResponse status body None.
Definition toy_data (records : list Json.Value) : Json.Value := Json.Obj [("data", Json.Arr records)]%string.
Definition toy_created : Json.Value := Json.Obj [("data", Json.Obj [("id", Json.Str "new")])]%string.
Definition toy_approval : PaymentApproval := Build_PaymentApproval "ap_1" "ada" "2026-06-15T10:00:00Z".

(** An Invoice Ninja whose answer to a payment is always lost. *)
Definition toy_receipt : NinjaWrite.Receipt.t :=
  NinjaWrite.Receipt.mk "receipt:led_1" toy_approval "Acme" None 50000 "2026-06-01" "Storefront" "BOS-1".
Definition ninja_get (u _ : string) : Op nat NinjaWrite.InvoiceNinjaWriteError NinjaWrite.InvoiceNinjaHttpResponse :=
  fun paid => (Ok (toy_answer 200 (toy_data
    (if string_eqb u (NinjaWrite.payment_lookup id "" toy_receipt) && negb (paid =? 0)%nat
     then [Json.Obj [("id", Json.Str "pay_1")]]%string else []))), paid).
Definition ninja_post (u _ : string) (_ : Json.Value) : Op nat NinjaWrite.InvoiceNinjaWriteError NinjaWrite.InvoiceNinjaHttpResponse :=
  fun paid => if string_eqb u (NinjaWrite.url "" "payments?email_receipt=false")
              then (Err (NinjaWrite.Retryable "invoice_ninja_request_failed" "timed out"), S paid)
              else (Ok (toy_answer 201 toy_created), paid).
Definition no_f64 (_ : Json.Value) : option SpecFloat.spec_float := None.
Definition toy_f64_json (_ : SpecFloat.spec_float) : Json.Value := Json.Null.
Abbreviation ninja_deliver := (NinjaWrite.record_receipt no_f64 toy_f64_json id ninja_get ninja_post "" "" toy_receipt).

Lemma ninja_server : ReceiptServer toy_f64_json id ninja_get ninja_post "" "" toy_receipt id (fun _ => 0%nat).
Proof.
  split; try done.
  - intros path body w Hp. unfold ninja_post. destruct (string_eqb _ _) eqn:He; [|by split; [|lia]].
    by apply string_eqb_true, (string_app_inj_r (trim_end_matches "/" "" +:+ "/api/v1/") path) in He.
  - intros w response w' [= <- <-] _. left. by destruct w as [|w]; split.
  - intros client_id invoice_id w. unfold op_post, ninja_post. rewrite string_eqb_refl. split; [lia|by right].
Qed.

Lemma receipt_paid_once_witness :
  (ninja_deliver 0%nat).2 = 1%nat ∧ ∃ answer, ninja_deliver 1%nat = (Ok answer, 1%nat) ∧
    NinjaWrite.receipt_payment_id answer = Some "pay_1"%string ∧
    (foldl (play no_f64 toy_f64_json id ninja_get ninja_post "" "" toy_receipt) 0%nat [Deliver; Others id 0; Deliver; Deliver] ≤ 1)%nat.
Proof.
  split; [by vm_compute|]. eexists. split; [vm_compute; reflexivity|]. split; [reflexivity|].
  destruct (receipt_paid_once no_f64 toy_f64_json id ninja_get ninja_post "" "" toy_receipt id (fun _ => 0%nat) ninja_server 0%nat
    [Deliver; Others id 0; Deliver; Deliver]) as (_ & Hpaid & _); [by vm_compute; lia|repeat constructor; simpl; lia|by apply Hpaid].
Defined.

(** An Invoice Ninja with one client, c_1; [true] once the draft was created. *)
Definition toy_invoice : NinjaWrite.InvoiceDraftPayload.t :=
  NinjaWrite.InvoiceDraftPayload.mk "invoicedraft:inv_1" toy_approval "inv_1" "Acme" None None None
    [NinjaWrite.InvoiceLine.mk 1 "Work" None 1 5000 5000] 5000 5000.
Definition drafts_of (drafts : nat) : list Json.Value :=
  replicate drafts (Json.Obj [("id", Json.Str "doc_1"); ("private_notes", Json.Str (NinjaWrite.bos_draft_marker "inv_1"))])%string.
Definition drafts_get (u token : string) : Op bool NinjaWrite.InvoiceNinjaWriteError NinjaWrite.InvoiceNinjaHttpResponse :=
  fun drafted => (Ok (toy_answer 200 (toy_data
    (if string_eqb u (NinjaWrite.client_lookup id "" "Acme" None) then [Json.Obj [("id", Json.Str "c_1")]]%string
     else if string_eqb u (NinjaWrite.page_lookup id "" "c_1" 1) && drafted then drafts_of 1 else []))), drafted).
Definition drafts_post (u _ : string) (_ : Json.Value) : Op bool NinjaWrite.InvoiceNinjaWriteError NinjaWrite.InvoiceNinjaHttpResponse :=
  fun drafted => if drafted || negb (string_eqb u (NinjaWrite.url "" "invoices"))
                 then (Err (NinjaWrite.Retryable "invoice_ninja_request_failed" "refused"), drafted)
                 else (Ok (toy_answer 201 toy_created), true).
Definition toy_listed (drafted : bool) : list Json.Value := drafts_of (if drafted then 1 else 0).

Lemma drafts_server : DraftServer toy_f64_json drafts_get drafts_post "" "" toy_invoice "c_1" toy_listed.
Proof.
  split; [done| |].
  - intros [] record; [|by intros ?%elem_of_nil]. intros [->|[]%elem_of_nil]%elem_of_cons _. by eexists.
  - intros []; cbv zeta; unfold op_post; simpl; [by right|by left].
Qed.

Lemma first_page_only page : (1 ≤ page)%N → page ≠ 1%N → ∀ (records : list Json.Value), (length records ≤ 100)%nat → page_of page records = [].
Proof. intros H1 Hne records Hl. unfold page_of. rewrite drop_ge by lia. by rewrite take_nil. Qed.

Lemma answered_inv {W E A} (a b : A) (w w' : W) : (Ok (E:=E) a, w) = (Ok b, w') → a = b ∧ w = w'.
Proof. intros [= <- <-]. done. Qed.

Lemma drafts_pages : PagesServed id drafts_get "" "" "c_1" toy_listed.
Proof.
  intros page w response w' Hp [<- <-]%answered_inv _. unfold toy_answer, toy_data.
  rewrite (eq_refl : string_eqb (NinjaWrite.page_lookup id "" "c_1" page) (NinjaWrite.client_lookup id "" "Acme" None) = false).
  match goal with |- context [string_eqb ?u ?v] => destruct (string_eqb u v) eqn:He end.
  - apply string_eqb_true in He. unfold NinjaWrite.page_lookup, NinjaWrite.url in He.
    apply (string_app_inj_r (trim_end_matches "/" "" +:+ "/api/v1/invoices?client_id=c_1&per_page=100&page=") (fmt_dec page) (fmt_dec 1)) in He.
    apply fmt_dec_inj in He as ->. by destruct w.
  - destruct (decide (page = 1%N)) as [->|Hne]; [by rewrite string_eqb_refl in He|].
    rewrite first_page_only; [done..|]. destruct w; simpl; lia.
Qed.

Lemma drafts_clients : ClientServer drafts_get drafts_post "" "" "c_1" toy_listed (fun _ => true).
Proof. split; [done| |done]. intros body w. unfold drafts_post. by destruct w. Qed.

Lemma drafts_client_served : ClientServed id drafts_get "" "" toy_invoice "c_1" (fun _ => true).
Proof. intros w response w' [<- <-]%answered_inv _. by vm_compute. Qed.

(** Drafted once, after a delivery whose answer was taken for lost, and found by the next. *)
Lemma draft_created_once_witness :
  let deliver := NinjaWrite.create_invoice_draft toy_f64_json id drafts_get drafts_post "" "" 1 toy_invoice in
  (deliver false).2 = true ∧
  ∃ found, deliver true = (Ok (Some found), true) ∧ (drafted toy_invoice toy_listed true = 1)%nat.
Proof.
  split; [by vm_compute|].
  destruct (draft_created_once toy_f64_json id drafts_get drafts_post "" "" toy_invoice "c_1" toy_listed drafts_server (fun _ => true) drafts_clients
    false [DeliverDraft 1; OthersWork id 0] drafts_pages drafts_client_served) as [_ H].
  - by vm_compute; lia.
  - split; [by vm_compute; lia|]. split; [intros w; unfold id; lia|done].
  - specialize (H 1%nat ltac:(vm_compute; lia)). eexists. split; [vm_compute; reflexivity|].
    destruct (NinjaWrite.create_invoice_draft _ _ _ _ _ _ _ _ _) as [answer w'] eqn:He in H.
    vm_compute in He. injection He as <- <-. by apply (proj2 H _ eq_refl).
Defined.

(** The same client, counting the drafts; pages are cut off. *)
Definition cut_get (_ _ : string) : Op nat NinjaWrite.InvoiceNinjaWriteError NinjaWrite.InvoiceNinjaHttpResponse :=
  fun drafts => (Ok (NinjaWrite.read_response 200 None None), drafts).
Definition count_post (_ _ : string) (_ : Json.Value) : Op nat NinjaWrite.InvoiceNinjaWriteError NinjaWrite.InvoiceNinjaHttpResponse :=
  fun drafts => (Ok (toy_answer 201 toy_created), S drafts).

Lemma toy_drafted n : drafted toy_invoice drafts_of n = n.
Proof. unfold drafted. induction n as [|n IH]; [done|]. cbn [drafts_of replicate List.filter]. by f_equal/=. Qed.

Lemma cut_server : DraftServer toy_f64_json cut_get count_post "" "" toy_invoice "c_1" drafts_of.
Proof.
  split; [done| |].
  - intros n record [-> _]%elem_of_replicate _. by eexists.
  - intros n. cbv zeta. unfold op_post, count_post. left. by rewrite !toy_drafted.
Qed.

Lemma unread_page_duplicates_draft_witness :
  ∃ answer, NinjaWrite.ensure_invoice_draft toy_f64_json id cut_get count_post "" "" 1 toy_invoice "c_1" 1%nat = (Ok answer, 2%nat) ∧
    drafted toy_invoice drafts_of 2%nat = 2%nat.
Proof.
  eexists. split; [vm_compute; reflexivity|].
  by apply (unread_page_duplicates_draft toy_f64_json id cut_get count_post "" "" toy_invoice "c_1" drafts_of cut_server 0 1%nat 1%nat None
           (toy_drafted 1) eq_refl ltac:(by intros response w' [= <- _]) (Some ("new", None))%string 2%nat).
Defined.

(** QuickBooks with one invoice of 500 dollars; [true] once it is paid.  The answer to the
    first payment is lost, another one is refused. *)
Definition toy_payment : QboWrite.QboPaymentOutboxPayload :=
  QboWrite.Build_QboPaymentOutboxPayload "receipt:led_1" toy_approval "45" "9" 50000 "2026-06-01" "Check" "Storefront".
Definition toy_f64 (v : Json.Value) : option SpecFloat.spec_float := f64_of_i64 <$> Json.as_i64 v.
Definition qbo_books (paid : bool) : Json.Value :=
  Json.Obj [("QueryResponse", Json.Obj [
    ("Customer", Json.Arr [Json.Obj [("Id", Json.Str "9"); ("DisplayName", Json.Str "Acme")]]);
    ("Invoice", Json.Arr [Json.Obj [("Id", Json.Str "45"); ("CustomerRef", Json.Obj [("value", Json.Str "9")]);
       ("TotalAmt", Json.Int 500); ("Balance", Json.Int (if paid then 0 else 500))]])])]%string.
Definition qbo_get (_ _ : string) : Op bool QboWrite.QboWriteError QboWrite.QboWriteHttpResponse :=
  fun paid => (Ok (QboWrite.Build_QboWriteHttpResponse 200 (qbo_books paid)), paid).
Definition qbo_post (_ _ : string) (_ : Json.Value) : Op bool QboWrite.QboWriteError QboWrite.QboWriteHttpResponse :=
  fun paid => if paid then (Ok (QboWrite.Build_QboWriteHttpResponse 400 Json.Null), true)
              else (Err (QboWrite.Retryable "qbo_request_failed" "timed out"), true).
Definition qbo_balance (paid : bool) : Z := if paid then 0 else 50000.
Definition qbo_posted (paid : bool) : nat := if paid then 1 else 0.
Definition toy_text (_ : Json.Value) : string := "".

Lemma qbo_server : PaymentServer toy_f64 id toy_text qbo_get qbo_post "" "1" "" toy_payment qbo_balance qbo_posted.
Proof.
  split; [done| |].
  - intros w w' value invoice Hq Hi.
    assert (Hv : value = Json.Obj [("Id", Json.Str "45"); ("CustomerRef", Json.Obj [("value", Json.Str "9")]);
                                   ("TotalAmt", Json.Int 500); ("Balance", Json.Int (if w then 0 else 500))]%string).
    { destruct w; vm_compute in Hq; injection Hq as <- _; reflexivity. }
    subst value. destruct w; vm_compute in Hi; injection Hi as <-; reflexivity.
  - intros []; cbv zeta; unfold op_post; simpl; [by left|by right].
Qed.

Lemma lost_payment_reported_failed_witness :
  let deliver := QboWrite.record_payment toy_f64 id toy_text qbo_get qbo_post "" "1" "" toy_payment in
  QboWrite.validate_payment_payload toy_payment = Ok tt ∧
  deliver false = (Err (QboWrite.Retryable "qbo_request_failed" "timed out"), true) ∧
  ∃ message, deliver true = (Err (QboWrite.Permanent "qbo_payment_invoice_not_payable" message), true).
Proof.
  split; [by vm_compute|]. split; [by vm_compute|].
  destruct (lost_payment_reported_failed toy_f64 id toy_text qbo_get qbo_post "" "1" "" toy_payment qbo_balance qbo_posted qbo_server
    false [Post; Elsewhere id; Post]) as [_ H]; [reflexivity|by repeat constructor|].
  specialize (H ltac:(by vm_compute)).
  assert (Hd : ∃ e, QboWrite.record_payment toy_f64 id toy_text qbo_get qbo_post "" "1" "" toy_payment true = (Err e, true))
    by (eexists; vm_compute; reflexivity).
  destruct Hd as [e Hd]. destruct (H (Err e) true Hd) as (_ & _ & Hm).
  destruct (Hm (head (QboWrite.entity_array (qbo_books true) "Customer")) true _ true _ ltac:(by vm_compute) ltac:(by vm_compute) ltac:(by vm_compute)
    ltac:(by vm_compute) ltac:(by vm_compute) ltac:(by vm_compute)) as [message He].
  exists message. rewrite <- He. exact Hd.
Defined.

(** Stripe, remembering the request it saw under each key. *)
Definition stripe_answer (status : N) : StripeWrite.StripeHttpResponse :=
  StripeWrite.Build_StripeHttpResponse status None None (Json.Obj [("id", Json.Str "obj_1"); ("data", Json.Arr [])])%string.
Abbreviation Keys := (list (string * (string * list (string * string)))).
Definition seen_under (keys : Keys) (key : string) : option (string * list (string * string)) :=
  snd <$> List.find (fun entry => string_eqb key entry.1) keys.
Definition stripe_get (_ : string) (_ : list (string * string)) (_ : string) : Op Keys AccountingError StripeWrite.StripeHttpResponse :=
  op_ret (stripe_answer 200).
Definition stripe_post (path : string) (params : list (string * string)) (key _ : string)
    : Op Keys AccountingError StripeWrite.StripeHttpResponse :=
  fun keys => match seen_under keys key with
              | Some seen => (Ok (stripe_answer (if decide (seen = (path, params)) then 200 else 400)), keys)
              | None => (Ok (stripe_answer 200), (key, (path, params)) :: keys)
              end.
Lemma stripe_server : StripeServer stripe_post "" seen_under.
Proof.
  split. intros path params key keys. unfold op_post, stripe_post.
  destruct (seen_under keys key) as [seen|] eqn:Hs.
  - split; [auto|]. destruct (decide _) as [->|Hne]; [by rewrite Hs|done].
  - split; [|by unfold seen_under; simpl; rewrite string_eqb_refl].
    intros k seen Hk. unfold seen_under. simpl. destruct (string_eqb k key) eqn:He; [|exact Hk].
    apply string_eqb_true in He as ->. by rewrite Hs in Hk.
Qed.
