(* ===== verification/InvoiceDrafts.v ===== *)
(** * Invoice drafts ([bos-app/src/slices/invoice_drafts/])

    Billable work, read from an e-mail or a note by a model whose answer is checked, is
    staged as a draft of an invoice, its customer enriched, edited, and approved or
    rejected.  Approving it enqueues the creation of the invoice at Invoice Ninja or
    Stripe.

    The table is one of the interface of DraftStore.v.  [draft_json], [lines_json],
    [provenance_json], [value_text], [stripe_json] and [ninja_json] are serde's texts and
    [parse_lines], [parse_provenance], [parse_stripe] and [parse_ninja] read them back;
    [to_lowercase] is Unicode's.  The handlers are after authentication.  The request to
    the model, the grounding of the customer and the run of the enrichment are not here. *)

From S2P Require Import Prelude RustStd RustStr StoreCore AppOutbox Identity AccountingRecords Schema Operators WorkItems WorkQueue Calendar DateInput DraftStore Json ProviderWrites AccountingStore AccountingViews FollowUpTasks LedgerDrafts.
Import Spine DateInput.

(** ** Data *)

(* src: crates/bos-contracts/src/invoice_drafts.rs:15-22 InvoiceDraftStatus *)
Inductive InvoiceDraftStatus := InvoiceStaged | InvoiceApproved | InvoiceRejected.

Module DraftLine.
(* src: crates/bos-contracts/src/invoice_drafts.rs:24-41 InvoiceDraftLineItem *)
Record t := mk {
  line_number : N;
  label : string;
  description : option string;
  quantity : N;
  unit_amount_cents : Z;
  line_total_cents : Z;
}.
End DraftLine.

Module InvoiceDraft.
(* src: crates/bos-contracts/src/invoice_drafts.rs:43-88 InvoiceDraft *)
Record t := mk {
  draft_id : string;
  item_id : string;
  source_kind : string;
  source_ref : string;
  source_user_id : option string;
  status : InvoiceDraftStatus;
  customer_name : string;
  customer_email : option string;
  currency : string;
  line_items : list DraftLine.t;
  subtotal_cents : Z;
  total_cents : Z;
  due_date : option string;
  memo : string;
  provenance : list DraftFieldProvenance;
  model : string;
  confidence : string;
  outbox_job_id : option string;
  created_at_ms : N;
  updated_at_ms : N;
}.
End InvoiceDraft.

(* src: crates/bos-contracts/src/invoice_drafts.rs:90-98 InvoiceDraftWithRevision *)
Record InvoiceDraftWithRevision := {
  invoice_draft : InvoiceDraft.t;
  invoice_revision : N;
  invoice_job : option OutboxJobSummary;
}.

(* src: crates/bos-contracts/src/invoice_drafts.rs:121-127 InvoiceDraftActionKind *)
Inductive InvoiceDraftActionKind := ApproveInvoice | RejectInvoice.

(* src: crates/bos-app/src/slices/invoice_drafts/store.rs:593-599 status_from_str *)
Definition invoice_status_from_str (raw : string) : InvoiceDraftStatus :=
  if string_eqb raw "approved" then InvoiceApproved else if string_eqb raw "rejected" then InvoiceRejected else InvoiceStaged.

Definition INVOICE_ENTITY_KIND : string := "invoice_draft".

(** [v as u32]. *)
Definition as_u32 (v : Z) : N := Z.to_N (i64_to_u32 v).

(** ** The table *)

Section rows.
Context (parse_lines : string → option (list DraftLine.t)) (parse_provenance : string → option (list DraftFieldProvenance))
  (result_fields : string → option bool * option string).

(* src: crates/bos-app/src/slices/invoice_drafts/store.rs:40-69 draft_from_row *)
Definition invoice_from_row (row : InvoiceDraftRow.t) (revision : N) : InvoiceDraftWithRevision := {|
  invoice_draft := {|
    InvoiceDraft.draft_id := InvoiceDraftRow.draft_id row;
    InvoiceDraft.item_id := InvoiceDraftRow.item_id row;
    InvoiceDraft.source_kind := InvoiceDraftRow.source_kind row;
    InvoiceDraft.source_ref := InvoiceDraftRow.source_ref row;
    InvoiceDraft.source_user_id := InvoiceDraftRow.source_user_id row;
    InvoiceDraft.status := invoice_status_from_str (InvoiceDraftRow.status row);
    InvoiceDraft.customer_name := InvoiceDraftRow.customer_name row;
    InvoiceDraft.customer_email := InvoiceDraftRow.customer_email row;
    InvoiceDraft.currency := InvoiceDraftRow.currency row;
    InvoiceDraft.line_items := default [] (parse_lines (InvoiceDraftRow.line_items_json row));
    InvoiceDraft.subtotal_cents := InvoiceDraftRow.subtotal_cents row;
    InvoiceDraft.total_cents := InvoiceDraftRow.total_cents row;
    InvoiceDraft.due_date := InvoiceDraftRow.due_date row;
    InvoiceDraft.memo := InvoiceDraftRow.memo row;
    InvoiceDraft.provenance := default [] (parse_provenance (InvoiceDraftRow.provenance_json row));
    InvoiceDraft.model := InvoiceDraftRow.model row;
    InvoiceDraft.confidence := InvoiceDraftRow.confidence row;
    InvoiceDraft.outbox_job_id := InvoiceDraftRow.outbox_job_id row;
    InvoiceDraft.created_at_ms := i64_as_u64 (InvoiceDraftRow.created_at_ms row);
    InvoiceDraft.updated_at_ms := i64_as_u64 (InvoiceDraftRow.updated_at_ms row);
  |};
  invoice_revision := revision;
  invoice_job := None;
|}.

(* src: crates/bos-app/src/slices/invoice_drafts/store.rs:71-80 attach_job_summary *)
Definition attach_invoice_job (client_id : string) (entry : InvoiceDraftWithRevision) : AppOp InvoiceDraftWithRevision :=
  match InvoiceDraft.outbox_job_id (invoice_draft entry) with
  | Some job_id =>
    let? job := Outbox.job_summary result_fields client_id job_id in
    op_ret (Build_InvoiceDraftWithRevision (invoice_draft entry) (invoice_revision entry) job)
  | None => op_ret entry
  end.

(** The unique index admits one row of an item that is not rejected. *)
(* src: crates/bos-app/src/slices/invoice_drafts/store.rs:81-116 InvoiceDraftStore *)
Definition InvoiceDraftStore : DraftStore InvoiceDraftRow.t InvoiceDraftWithRevision := {|
  ENTITY_KIND := INVOICE_ENTITY_KIND;
  NOT_FOUND := "invoice_draft_not_found";
  draft_rows := fun t => invoice_drafts (money t);
  set_draft_rows := fun t rows => set_money t (set_invoice_drafts (money t) rows);
  row_draft_id := InvoiceDraftRow.draft_id;
  row_item_id := InvoiceDraftRow.item_id;
  row_status := InvoiceDraftRow.status;
  row_source_user_id := InvoiceDraftRow.source_user_id;
  row_outbox_job_id := InvoiceDraftRow.outbox_job_id;
  row_created_at_ms := InvoiceDraftRow.created_at_ms;
  map_row := fun row revision => Ok (invoice_from_row row revision);
  attach := attach_invoice_job;
  source_user_id := fun entry => InvoiceDraft.source_user_id (invoice_draft entry);
  row_conflicts := fun row other =>
    negb (string_eqb (InvoiceDraftRow.status row) "rejected") && negb (string_eqb (InvoiceDraftRow.status other) "rejected")
    && string_eqb (InvoiceDraftRow.item_id row) (InvoiceDraftRow.item_id other);
|}.
End rows.

(* src: crates/bos-app/src/slices/invoice_drafts/store.rs:21-33 DRAFT_TABLE *)
Definition INVOICE_TABLE : DraftTableSpec InvoiceDraftRow.t := {|
  entity_kind := INVOICE_ENTITY_KIND;
  not_found_code := "invoice_draft_not_found";
  not_staged_code := "invoice_draft_not_staged";
  approve_sql := fun job_id now row =>
    match job_id with Some job_id => InvoiceDraftRow.approve row job_id now | None => row end;
  reject_sql := fun now row => InvoiceDraftRow.reject row now;
|}.

(** ** Lines and totals *)

Module InvoiceLines.
(** One line: its total, checked. *)
(* src: crates/bos-app/src/slices/invoice_drafts/service.rs:174-186 recompute_totals (line) *)
Definition recomputed_line (item : DraftLine.t) : Result string DraftLine.t :=
  if is_blank (DraftLine.label item) then Err "line item label is empty"%string
  else if (DraftLine.quantity item =? 0)%N || (10000 <? DraftLine.quantity item)%N then Err "line item quantity out of range"%string
  else if (DraftLine.unit_amount_cents item <=? 0)%Z then Err "line item unit amount must be positive"%string
  else
    line_total ← ok_or (checked_mul_i64 (Z.of_N (DraftLine.quantity item)) (DraftLine.unit_amount_cents item))
                   "line total overflowed"%string;
    Ok (DraftLine.mk (DraftLine.line_number item) (DraftLine.label item) (DraftLine.description item) (DraftLine.quantity item)
          (DraftLine.unit_amount_cents item) line_total).

(** The lines with their totals, and the subtotal. *)
(* src: crates/bos-app/src/slices/invoice_drafts/service.rs:171-191 recompute_totals *)
Fixpoint recompute_from (subtotal : Z) (line_items : list DraftLine.t) : Result string (list DraftLine.t * Z) :=
  match line_items with
  | [] => Ok ([], subtotal)
  | item :: rest =>
    item ← recomputed_line item;
    subtotal ← ok_or (checked_add_i64 subtotal (DraftLine.line_total_cents item)) "subtotal overflowed"%string;
    '(rest, subtotal) ← recompute_from subtotal rest;
    Ok (item :: rest, subtotal)
  end.
(* src: crates/bos-app/src/slices/invoice_drafts/service.rs:171-173 recompute_totals (start) *)
Definition recompute_totals (line_items : list DraftLine.t) : Result string (list DraftLine.t * Z) := recompute_from 0 line_items.
End InvoiceLines.

(** ** When a value is a model's guess ([produce.rs]) *)

Module DraftFieldPolicy.
Fixpoint trim_start_fuel (fuel : nat) (prefix s : string) : string :=
  match fuel with
  | O => s
  | S fuel => match strip_prefix prefix s with Some s' => trim_start_fuel fuel prefix s' | None => s end
  end.
(** [s.trim_start_matches(prefix)]: every repetition goes; the prefix is not empty. *)
Definition trim_start_matches (prefix s : string) : string := trim_start_fuel (String.length s) prefix s.

Definition is_ascii_alphabetic (a : ascii) : bool := is_ascii_alphanumeric a && negb (is_digit a).

(* src: crates/bos-app/src/produce.rs:215-234 is_domain_like_display_name *)
Definition is_domain_like_display_name (value : string) : bool :=
  let value := trim (trim_end_matches "/" (trim_start_matches "www." (trim_start_matches "http://"
                 (trim_start_matches "https://" (trim value))))) in
  if is_empty value || has_whitespace value then false
  else
    let labels := split_on "." value in
    (2 <=? length labels)%nat
    && forallb (fun label => negb (is_empty label) && all_bytes (fun c => is_ascii_alphanumeric c || Ascii.eqb c "-") label) labels
    && option_any (fun tld => (2 <=? String.length tld)%nat && (String.length tld <=? 24)%nat && all_bytes is_ascii_alphabetic tld)
         (last labels).

Section policy.
Context (to_lowercase : string → string).
(* src: crates/bos-app/src/produce.rs:239-252 still_ai_prefill *)
Definition still_ai_prefill (provenance : list DraftFieldProvenance) (field_name current : string) : bool :=
  let current := to_lowercase (trim current) in
  negb (is_empty current)
  && existsb (fun entry => string_eqb (field entry) field_name
       && bool_decide (strip_prefix "page:" (quote entry) = None)
       && negb (string_eqb (quote entry) "crm_match" || string_eqb (quote entry) "provider_match")
       && contains (to_lowercase (quote entry)) current) provenance.
End policy.
End DraftFieldPolicy.

(** ** The store ([store.rs]) *)

Module InvoiceDrafts.
Section store.
Context (constraint_failed : string) (value_text : Json.Value → string) (to_lowercase : string → string)
  (draft_json : InvoiceDraft.t → string) (lines_json : list DraftLine.t → string) (provenance_json : list DraftFieldProvenance → string)
  (parse_lines : string → option (list DraftLine.t)) (parse_provenance : string → option (list DraftFieldProvenance))
  (result_fields : string → option bool * option string).
Abbreviation Store := (InvoiceDraftStore parse_lines parse_provenance result_fields).

(* src: crates/bos-app/src/slices/invoice_drafts/store.rs:117-123 active_draft_for_item *)
Definition active_draft_for_item (client_id item_id : string) : AppOp (option InvoiceDraftWithRevision) :=
  Drafts.active_draft_for_item (DraftStore0:=Store) client_id item_id.

(* src: crates/bos-app/src/slices/invoice_drafts/store.rs:125-132 get_draft *)
Definition get_draft (client_id draft_id : string) (scope : OperatorScope.t) : AppOp (option InvoiceDraftWithRevision) :=
  Drafts.get_draft_scoped (DraftStore0:=Store) client_id draft_id scope.

(* src: crates/bos-app/src/slices/invoice_drafts/store.rs:134-142 list_drafts *)
Definition list_drafts (client_id : string) (item_id : option string) (limit : N) (scope : OperatorScope.t)
    : AppOp (list InvoiceDraftWithRevision) :=
  Drafts.list_drafts_scoped (DraftStore0:=Store) client_id item_id limit scope.

(* src: crates/bos-app/src/slices/invoice_drafts/store.rs:144-150 count_drafts_for_item *)
Definition count_drafts_for_item (client_id item_id : string) : AppOp N :=
  Drafts.count_drafts_for_item (DraftStore0:=Store) client_id item_id.

(* src: crates/bos-app/src/slices/invoice_drafts/store.rs:154-156 staged_item_ids *)
Definition staged_item_ids (client_id : string) : AppOp (list string) :=
  Drafts.staged_item_ids (DraftStore0:=Store) client_id.

(* src: crates/bos-app/src/slices/invoice_drafts/store.rs:158-231 insert_draft (values) *)
Definition staged_row (client_id : string) (draft : InvoiceDraft.t) : InvoiceDraftRow.t := {|
  InvoiceDraftRow.client_id := client_id;
  InvoiceDraftRow.draft_id := InvoiceDraft.draft_id draft;
  InvoiceDraftRow.item_id := InvoiceDraft.item_id draft;
  InvoiceDraftRow.source_kind := InvoiceDraft.source_kind draft;
  InvoiceDraftRow.source_ref := InvoiceDraft.source_ref draft;
  InvoiceDraftRow.source_user_id := InvoiceDraft.source_user_id draft;
  InvoiceDraftRow.status := "staged";
  InvoiceDraftRow.customer_name := InvoiceDraft.customer_name draft;
  InvoiceDraftRow.customer_email := InvoiceDraft.customer_email draft;
  InvoiceDraftRow.currency := InvoiceDraft.currency draft;
  InvoiceDraftRow.line_items_json := lines_json (InvoiceDraft.line_items draft);
  InvoiceDraftRow.subtotal_cents := InvoiceDraft.subtotal_cents draft;
  InvoiceDraftRow.total_cents := InvoiceDraft.total_cents draft;
  InvoiceDraftRow.due_date := InvoiceDraft.due_date draft;
  InvoiceDraftRow.memo := InvoiceDraft.memo draft;
  InvoiceDraftRow.provenance_json := provenance_json (InvoiceDraft.provenance draft);
  InvoiceDraftRow.model := InvoiceDraft.model draft;
  InvoiceDraftRow.confidence := InvoiceDraft.confidence draft;
  InvoiceDraftRow.outbox_job_id := None;
  InvoiceDraftRow.created_at_ms := u64_as_i64 (InvoiceDraft.created_at_ms draft);
  InvoiceDraftRow.updated_at_ms := u64_as_i64 (InvoiceDraft.created_at_ms draft);
|}.

(* src: crates/bos-app/src/slices/invoice_drafts/store.rs:158-231 insert_draft *)
Definition insert_draft (client_id actor_id : string) (draft : InvoiceDraft.t) (idempotency_key : string)
    : AppOp MutationOutcome.t :=
  mutate constraint_failed {|
    MutationRequest.client_id := client_id;
    MutationRequest.entity_kind := INVOICE_ENTITY_KIND;
    MutationRequest.entity_id := InvoiceDraft.draft_id draft;
    MutationRequest.change_kind := "stage";
    MutationRequest.actor_id := actor_id;
    MutationRequest.actor_kind := Operator;
    MutationRequest.expected_revision := None;
    MutationRequest.idempotency_key := idempotency_key;
    MutationRequest.correlation_id := Some (InvoiceDraft.item_id draft);
    MutationRequest.causation_id := None;
    MutationRequest.before_json := None;
    MutationRequest.after_json := Some (draft_json draft);
    MutationRequest.now_ms := InvoiceDraft.created_at_ms draft;
  |} (Drafts.insert_draft_row (DraftStore0:=Store) "invoice_draft_already_active" client_id (staged_row client_id draft)).

(* src: crates/bos-app/src/slices/invoice_drafts/store.rs:575-591 require_draft *)
Definition require_draft (ctx : ScopedMutationContext) (draft_id : string) : AppOp (string * option string * Z) :=
  let? row := read_tables (fun t => invoice_drafts (money t) !! (scoped_client_id ctx, draft_id)) in
  let? row := op_lift (ok_or row (StoreError.Domain "invoice_draft_not_found")) in
  op_lift (OperatorScope.require_source_user (scoped_scope ctx) (InvoiceDraftRow.source_user_id row)) ;;?
  op_ret (InvoiceDraftRow.status row, InvoiceDraftRow.customer_email row, InvoiceDraftRow.total_cents row).

Definition require_staged (status : string) : Result StoreError.t unit :=
  guard_err (negb (string_eqb status "staged")) (StoreError.Domain ("invoice_draft_not_staged:" +:+ status)).

(** The trimmed text, if there is any. *)
Definition non_blank (raw : option string) : option string :=
  raw ← trim <$> raw; if is_empty raw then None else Some raw.

(* src: crates/bos-app/src/slices/invoice_drafts/store.rs:400-428 approve_draft *)
Definition approve_draft (ctx : ScopedMutationContext) (draft_id : string) (job : NewOutboxJob.t) : AppOp MutationOutcome.t :=
  let? current := require_draft ctx draft_id in
  let '(status, customer_email, total_cents) := current in
  op_lift (require_staged status) ;;?
  op_lift (guard_err (bool_decide (non_blank customer_email = None)) (StoreError.Domain "invoice_draft_email_required")) ;;?
  op_lift (guard_err (total_cents <=? 0)%Z (StoreError.Domain "invoice_draft_total_required")) ;;?
  Drafts.approve (DraftStore0:=Store) constraint_failed (scoped_draft_context ctx) INVOICE_TABLE draft_id (Some job).

(* src: crates/bos-app/src/slices/invoice_drafts/store.rs:430-436 reject_draft *)
Definition reject_draft (ctx : ScopedMutationContext) (draft_id : string) : AppOp MutationOutcome.t :=
  Drafts.reject (DraftStore0:=Store) constraint_failed (scoped_draft_context ctx) INVOICE_TABLE draft_id.

(** *** Edits *)

Record InvoiceEdit := {
  edit_customer_name : string;
  edit_customer_email : option string;
  edit_due_date : option string;
  edit_memo : string;
  edit_line_items : list DraftLine.t;
  edit_total_cents : Z;
}.

(** [.map(|date| normalize_civil_date(..)).transpose()?]. *)
Definition edited_date (now_ms : N) (due_date : option string) : Result StoreError.t (option string) :=
  match due_date with
  | None => Ok None
  | Some date => match normalize_civil_date date (Some (context_from_now_ms now_ms)) with
                 | Ok date => Ok (Some date)
                 | Err _ => Err (StoreError.Domain "invoice_draft_date_invalid")
                 end
  end.

(* src: crates/bos-app/src/slices/invoice_drafts/store.rs:492-507 update_draft (lines) *)
Definition edited_line (index : nat) (line : DraftLine.t) : DraftLine.t := {|
  DraftLine.line_number := N.of_nat index + 1;
  DraftLine.label := take_chars 200 (trim (DraftLine.label line));
  DraftLine.description := take_chars 500 <$> non_blank (DraftLine.description line);
  DraftLine.quantity := DraftLine.quantity line;
  DraftLine.unit_amount_cents := DraftLine.unit_amount_cents line;
  DraftLine.line_total_cents := 0;
|}.

(* src: crates/bos-app/src/slices/invoice_drafts/store.rs:457-510 update_draft (checks) *)
Definition checked_edit (now_ms : N) (customer_name_raw : string) (customer_email_raw due_date_raw : option string)
    (memo_raw : string) (line_items_raw : list DraftLine.t) : Result StoreError.t InvoiceEdit :=
  let customer_name := take_chars 200 (trim customer_name_raw) in
  _ ← guard_err (is_empty customer_name) (StoreError.Domain "invoice_draft_customer_required");
  let customer_email := non_blank customer_email_raw in
  _ ← guard_err (option_any (fun email => negb (has_char "@" email) || has_whitespace email) customer_email)
        (StoreError.Domain "invoice_draft_email_invalid");
  due_date ← edited_date now_ms (non_blank due_date_raw);
  _ ← guard_err (bool_decide (line_items_raw = []) || (20 <? length line_items_raw)%nat)
        (StoreError.Domain "invoice_draft_line_items_invalid");
  match InvoiceLines.recompute_totals (imap edited_line line_items_raw) with
  | Err _ => Err (StoreError.Domain "invoice_draft_line_items_invalid")
  | Ok (line_items, subtotal) =>
    Ok (Build_InvoiceEdit customer_name customer_email due_date (take_chars 500 (trim memo_raw)) line_items subtotal)
  end.

Definition invoice_json (customer_name : string) (customer_email due_date : option string) (memo lines : string) (total : Z)
    : string :=
  value_text (Json.Obj [("customer_name", Json.Str customer_name); ("customer_email", Json.of_option Json.Str customer_email);
                        ("due_date", Json.of_option Json.Str due_date); ("memo", Json.Str memo); ("line_items", Json.Str lines);
                        ("total_cents", Json.Int total)]).

(* src: crates/bos-app/src/slices/invoice_drafts/store.rs:442-573 update_draft *)
Definition update_draft (ctx : ScopedMutationContext) (draft_id customer_name_raw : string)
    (customer_email_raw due_date_raw : option string) (memo_raw : string) (line_items_raw : list DraftLine.t)
    : AppOp MutationOutcome.t :=
  let? current := require_draft ctx draft_id in
  op_lift (require_staged current.1.1) ;;?
  let? edit := op_lift (checked_edit (scoped_now_ms ctx) customer_name_raw customer_email_raw due_date_raw memo_raw
                          line_items_raw) in
  let line_items := lines_json (edit_line_items edit) in
  let? row := read_tables (fun t => invoice_drafts (money t) !! (scoped_client_id ctx, draft_id)) in
  let? row := op_lift (ok_or row (StoreError.Sqlite "Query returned no rows")) in
  mutate constraint_failed {|
    MutationRequest.client_id := scoped_client_id ctx;
    MutationRequest.entity_kind := INVOICE_ENTITY_KIND;
    MutationRequest.entity_id := draft_id;
    MutationRequest.change_kind := "edit";
    MutationRequest.actor_id := scoped_actor_id ctx;
    MutationRequest.actor_kind := Operator;
    MutationRequest.expected_revision := scoped_expected_revision ctx;
    MutationRequest.idempotency_key := scoped_idempotency_key ctx;
    MutationRequest.correlation_id := None;
    MutationRequest.causation_id := None;
    MutationRequest.before_json := Some (invoice_json (InvoiceDraftRow.customer_name row) (InvoiceDraftRow.customer_email row)
      (InvoiceDraftRow.due_date row) (InvoiceDraftRow.memo row) (InvoiceDraftRow.line_items_json row)
      (InvoiceDraftRow.total_cents row));
    MutationRequest.after_json := Some (invoice_json (edit_customer_name edit) (edit_customer_email edit) (edit_due_date edit)
      (edit_memo edit) line_items (edit_total_cents edit));
    MutationRequest.now_ms := scoped_now_ms ctx;
  |} (Drafts.update_draft_row (DraftStore0:=Store) constraint_failed (scoped_client_id ctx) draft_id
        (fun row => InvoiceDraftRow.edit row (edit_customer_name edit) (edit_customer_email edit) (edit_due_date edit)
           (edit_memo edit) line_items (edit_total_cents edit) (u64_as_i64 (scoped_now_ms ctx)))).

(** *** What the enrichment found of the customer *)

(* src: crates/bos-app/src/slices/invoice_drafts/store.rs:235-241 CustomerEnrichedValue *)
Record CustomerEnrichedValue := {
  value : string;
  provenance_quote : string;
}.

(* src: crates/bos-app/src/slices/invoice_drafts/store.rs:243-249 CustomerEnrichmentApply *)
Record CustomerEnrichmentApply := {
  apply_customer_name : option CustomerEnrichedValue;
  apply_customer_email : option CustomerEnrichedValue;
}.

(* src: crates/bos-app/src/slices/invoice_drafts/store.rs:306-330 apply_customer_enrichment (name) *)
Definition enriched_name (incoming : option CustomerEnrichedValue) (name : string) (provenance : list DraftFieldProvenance)
    : bool * string * list DraftFieldProvenance :=
  match incoming with
  | None => (false, name, provenance)
  | Some incoming =>
    let current := trim name in
    let replacement := trim (value incoming) in
    if negb (is_empty replacement)
       && negb (string_eqb (to_ascii_lowercase replacement) (to_ascii_lowercase current))
       && negb (DraftFieldPolicy.is_domain_like_display_name replacement)
       && DraftFieldPolicy.is_domain_like_display_name current
       && DraftFieldPolicy.still_ai_prefill to_lowercase provenance "customer_name" current
    then (true, take_chars 200 replacement,
          List.filter (fun p => negb (string_eqb (field p) "customer_name")) provenance
          ++ [Build_DraftFieldProvenance "customer_name" (provenance_quote incoming)])
    else (false, name, provenance)
  end.

(* src: crates/bos-app/src/slices/invoice_drafts/store.rs:332-352 apply_customer_enrichment (email) *)
Definition enriched_email (incoming : option CustomerEnrichedValue) (email : option string) (provenance : list DraftFieldProvenance)
    : bool * option string * list DraftFieldProvenance :=
  match email, incoming with
  | None, Some incoming =>
    let trimmed := trim (value incoming) in
    if has_char "@" trimmed && negb (has_whitespace trimmed)
    then (true, Some (take_chars 300 trimmed),
          if existsb (fun p => string_eqb (field p) "customer_email") provenance then provenance
          else provenance ++ [Build_DraftFieldProvenance "customer_email" (provenance_quote incoming)])
    else (false, None, provenance)
  | _, _ => (false, email, provenance)
  end.

(* src: crates/bos-app/src/slices/invoice_drafts/store.rs:260-395 apply_customer_enrichment *)
Definition apply_customer_enrichment (ctx : ScopedMutationContext) (draft_id : string) (apply : CustomerEnrichmentApply)
    : AppOp (option MutationOutcome.t) :=
  let? row := read_tables (fun t => invoice_drafts (money t) !! (scoped_client_id ctx, draft_id)) in
  let? row := op_lift (ok_or row (StoreError.Domain "invoice_draft_not_found")) in
  op_lift (OperatorScope.require_source_user (scoped_scope ctx) (InvoiceDraftRow.source_user_id row)) ;;?
  op_lift (require_staged (InvoiceDraftRow.status row)) ;;?
  let provenance := default [] (parse_provenance (InvoiceDraftRow.provenance_json row)) in
  let '(name_changed, name, provenance) := enriched_name (apply_customer_name apply) (InvoiceDraftRow.customer_name row) provenance in
  let '(email_changed, email, provenance) :=
    enriched_email (apply_customer_email apply) (InvoiceDraftRow.customer_email row) provenance in
  if negb (name_changed || email_changed) then op_ret None
  else
    op_map Some (mutate constraint_failed {|
      MutationRequest.client_id := scoped_client_id ctx;
      MutationRequest.entity_kind := INVOICE_ENTITY_KIND;
      MutationRequest.entity_id := draft_id;
      MutationRequest.change_kind := "enrich";
      MutationRequest.actor_id := scoped_actor_id ctx;
      MutationRequest.actor_kind := System;
      MutationRequest.expected_revision := scoped_expected_revision ctx;
      MutationRequest.idempotency_key := scoped_idempotency_key ctx;
      MutationRequest.correlation_id := None;
      MutationRequest.causation_id := None;
      MutationRequest.before_json := None;
      MutationRequest.after_json := Some (value_text (Json.Obj [("customer_enrichment", Json.Bool true)]))%string;
      MutationRequest.now_ms := scoped_now_ms ctx;
    |} (Drafts.update_draft_row (DraftStore0:=Store) constraint_failed (scoped_client_id ctx) draft_id
          (fun row => InvoiceDraftRow.enrich row name email (provenance_json provenance) (u64_as_i64 (scoped_now_ms ctx))))).
End store.

(** *** The invoicing defaults *)

Section settings.
Context (constraint_failed : string) (days_json : option N → string).

(* src: crates/bos-app/src/slices/invoice_drafts/store.rs:604-608 StoredInvoiceSettings *)
Record StoredInvoiceSettings := {
  default_due_days : option N;
  settings_revision : option N;
}.

Definition INVOICE_SETTINGS_ENTITY : string := "invoice_settings".

(* src: crates/bos-app/src/slices/invoice_drafts/store.rs:610-634 get_invoice_settings *)
Definition get_invoice_settings (client_id : string) : AppOp (option StoredInvoiceSettings) :=
  let? row := read_tables (fun t => invoice_settings (money t) !! client_id) in
  match row with
  | None => op_ret None
  | Some row =>
    let? revision := current_revision client_id INVOICE_SETTINGS_ENTITY INVOICE_SETTINGS_ENTITY in
    op_ret (Some (Build_StoredInvoiceSettings (as_u32 <$> InvoiceSettingsRow.default_due_days row) revision))
  end.

(* src: crates/bos-app/src/slices/invoice_drafts/store.rs:636-681 replace_invoice_settings *)
Definition store_invoice_settings (client_id actor_id : string) (expected_revision : option N) (idempotency_key : string)
    (due_days : option N) (now_ms : N) : AppOp MutationOutcome.t :=
  let? before := get_invoice_settings client_id in
  mutate constraint_failed {|
    MutationRequest.client_id := client_id;
    MutationRequest.entity_kind := INVOICE_SETTINGS_ENTITY;
    MutationRequest.entity_id := INVOICE_SETTINGS_ENTITY;
    MutationRequest.change_kind := "replace";
    MutationRequest.actor_id := actor_id;
    MutationRequest.actor_kind := Operator;
    MutationRequest.expected_revision := expected_revision;
    MutationRequest.idempotency_key := idempotency_key;
    MutationRequest.correlation_id := None;
    MutationRequest.causation_id := None;
    MutationRequest.before_json := (fun settings => days_json (default_due_days settings)) <$> before;
    MutationRequest.after_json := Some (days_json due_days);
    MutationRequest.now_ms := now_ms;
  |} (update_tables (fun t => set_money t (set_invoice_settings (money t)
        (<[client_id := InvoiceSettingsRow.mk (Z.of_N <$> due_days) (u64_as_i64 now_ms)]> (invoice_settings (money t)))))).

(* src: crates/bos-app/src/slices/invoice_drafts/service.rs:2008-2023 replace_invoice_settings *)
Definition replace_invoice_settings (client_id actor_id : string) (expected_revision : option N) (idempotency_key : string)
    (due_days : option N) (now_ms : N) : AppOp MutationOutcome.t :=
  op_lift (guard_err (option_any (fun days => negb ((1 <=? days) && (days <=? 365))%N) due_days)
             (StoreError.Domain "invoice_default_due_days_out_of_range")) ;;?
  store_invoice_settings client_id actor_id expected_revision idempotency_key due_days now_ms.
End settings.
End InvoiceDrafts.

(** ** Filling a draft ([service.rs]) *)

Module InvoiceFill.
(* src: crates/bos-app/src/slices/invoice_drafts/service.rs:156-166 InvoiceFill *)
Record InvoiceFill := {
  fill_customer_name : string;
  fill_customer_email : option string;
  fill_line_items : list DraftLine.t;
  fill_due_date : option string;
  fill_memo : string;
  fill_confidence : string;
  fill_provenance : list DraftFieldProvenance;
}.

(* src: crates/bos-app/src/slices/enrichment/service.rs:869-871 valid_email_shape *)
Definition valid_email_shape (value : string) : bool := has_char "@" value && negb (has_whitespace value).

(* src: crates/bos-app/src/slices/invoice_drafts/service.rs:215-242 parse_invoice_fill_response_with_context (provenance) *)
Definition provenance_entry (entry : Json.Value) : option DraftFieldProvenance :=
  raw ← (value ← Json.get "field" entry; Json.as_str value);
  let field := trim raw in
  if existsb (string_eqb field) ["customer_name"; "customer_email"; "due_date"; "memo"]%string
     || (bool_decide (is_Some (strip_prefix "line_" field)) && bool_decide (is_Some (strip_suffix "_amount" field)))
  then Some (Build_DraftFieldProvenance field
               (take_chars 300 (trim (default "" (value ← Json.get "quote" entry; Json.as_str value)))))
  else None.

Definition line_field (line_number : N) : string := "line_" +:+ fmt_dec line_number +:+ "_amount".
(* src: crates/bos-app/src/slices/invoice_drafts/service.rs:281-288 parse_invoice_fill_response_with_context (grounded) *)
Definition line_grounded (provenance : list DraftFieldProvenance) (line_number : N) (unit_amount_cents : Z) : bool :=
  existsb (fun entry => string_eqb (field entry) (line_field line_number) && negb (is_empty (quote entry))
                        && LedgerFill.quote_contains_amount (quote entry) unit_amount_cents) provenance.

(* src: crates/bos-app/src/slices/invoice_drafts/service.rs:255-302 parse_invoice_fill_response_with_context (lines) *)
Definition fill_line (provenance : list DraftFieldProvenance) (index : nat) (raw : Json.Value) : Result string DraftLine.t :=
  let line_number := default (N.of_nat index + 1)%N
    (n ← (value ← Json.get "line_number" raw; Json.as_u64 value); if (0 <? as_u32 n)%N then Some (as_u32 n) else None) in
  let named text := "line " +:+ fmt_dec line_number +:+ text in
  label ← ok_or (Json.string_field raw "label") (named ": label missing");
  unit_amount_cents ← ok_or (cents ← (value ← Json.get "unit_amount_cents" raw; Json.as_i64 value);
                             if (0 <? cents)%Z then Some cents else None) (named ": unit_amount_cents missing");
  if negb (line_grounded provenance line_number unit_amount_cents)
  then Err (named ": unit amount has no literal provenance quote containing it")
  else Ok {|
    DraftLine.line_number := line_number;
    DraftLine.label := take_chars 200 label;
    DraftLine.description := take_chars 500 <$> Json.string_field raw "description";
    DraftLine.quantity := default 1%N (as_u32 <$> (value ← Json.get "quantity" raw; Json.as_u64 value));
    DraftLine.unit_amount_cents := unit_amount_cents;
    DraftLine.line_total_cents := 0;
  |}.

Fixpoint fill_lines (provenance : list DraftFieldProvenance) (index : nat) (raw_lines : list Json.Value)
    : Result string (list DraftLine.t) :=
  match raw_lines with
  | [] => Ok []
  | raw :: rest =>
    line ← fill_line provenance index raw;
    rest ← fill_lines provenance (S index) rest;
    Ok (line :: rest)
  end.

(** [.map(|date| normalize_civil_date(..)).transpose()?]. *)
Definition fill_date (date : option string) (date_context : option DateInputContext) : Result string (option string) :=
  match date with
  | None => Ok None
  | Some date => match normalize_civil_date date date_context with
                 | Ok date => Ok (Some date)
                 | Err _ => Err ("due_date is not a supported date: " +:+ date)
                 end
  end.

(* src: crates/bos-app/src/slices/invoice_drafts/service.rs:197-313 parse_invoice_fill_response_with_context *)
Definition parse_invoice_fill_response_with_context (response : Json.Value) (date_context : option DateInputContext)
    : Result string InvoiceFill :=
  customer_name ← ok_or (Json.string_field response "customer_name") "customer_name missing or empty"%string;
  let customer_email := (raw ← Json.string_field response "customer_email"; if valid_email_shape raw then Some raw else None) in
  due_date ← fill_date (Json.string_field response "due_date") date_context;
  let memo := default "" (Json.string_field response "memo") in
  confidence ← ok_or (raw ← Json.string_field response "confidence"; FollowUpFill.known_confidence raw)
                 "confidence missing or invalid"%string;
  let entries : option (list Json.Value) := (value ← Json.get "provenance" response; Json.as_array value) in
  let provenance := default [] (omap (M:=list) provenance_entry <$> entries) in
  raw_lines ← ok_or (value ← Json.get "line_items" response; Json.as_array value) "line_items missing"%string;
  if bool_decide (raw_lines = []) then Err ("line_items is empty" +:+ StripeWrite.em_dash +:+ "nothing billable was found")
  else if (20 <? length raw_lines)%nat then Err ("too many line items (" +:+ fmt_dec (len raw_lines) +:+ ")")
  else
    line_items ← fill_lines provenance 0 raw_lines;
    '(line_items, _) ← InvoiceLines.recompute_totals line_items;
    Ok (Build_InvoiceFill (take_chars 200 customer_name) customer_email line_items due_date (take_chars 500 memo) confidence
          provenance).

(** *** Terms of payment *)

(** The characters up to the first that is not [p], and the rest. *)
Fixpoint span (p : ascii → bool) (s : string) : string * string :=
  match s with
  | EmptyString => (EmptyString, EmptyString)
  | String a s' => if p a then let '(taken, rest) := span p s' in (String a taken, rest) else (EmptyString, s)
  end.

Definition is_net (a b c : ascii) : bool :=
  string_eqb (to_ascii_lowercase (String a (String b (String c EmptyString)))) "net".

(** What follows a [net]: the days, with the text that was read, where they are a term. *)
(* src: crates/bos-app/src/slices/invoice_drafts/service.rs:330-351 due_date_from_net_terms (days) *)
Definition net_days (before : option ascii) (rest : string) : option (N * string) :=
  if option_any is_ascii_alphanumeric before then None
  else
    let '(skipped, rest) := span (fun a => Ascii.eqb a " " || Ascii.eqb a "-") rest in
    let '(digits, rest) := span is_digit rest in
    if is_empty digits then None
    else if match rest with String a _ => is_ascii_alphanumeric a | EmptyString => false end then None
    else
      days ← parse_u64 digits;
      if (days <=? u32_max)%N && (1 <=? days)%N && (days <=? 365)%N then Some (days, skipped +:+ digits) else None.

(** The loop: the first [net] that gives a term; [before] is the byte read last. *)
Fixpoint find_net_terms (before : option ascii) (source : string) : option (N * string) :=
  match source with
  | EmptyString => None
  | String a tail =>
    match tail with
    | String b (String c rest) =>
      if is_net a b c then
        match net_days before rest with
        | Some (days, text) => Some (days, String a (String b (String c text)))
        | None => find_net_terms (Some c) rest
        end
      else find_net_terms (Some a) tail
    | _ => None
    end
  end.

(** [stamp.get(..10).unwrap_or(&stamp)] of an ASCII stamp. *)
Definition stamp_date (stamp : string) : string := String.substring 0 10 stamp.
Definition due_in_days (now_ms days : N) : string :=
  stamp_date (Calendar.epoch_ms_to_rfc3339_utc (saturating_add_u64 now_ms (days * 86400000))).

(* src: crates/bos-app/src/slices/invoice_drafts/service.rs:321-362 due_date_from_net_terms *)
Definition due_date_from_net_terms (source : string) (now_ms : N) : option (string * string) :=
  found ← find_net_terms None source;
  Some (due_in_days now_ms found.1, found.2).

(* src: crates/bos-app/src/slices/invoice_drafts/service.rs:364-398 draft_from_fill *)
Definition draft_from_fill (item : WorkItem.t) (fill : InvoiceFill) (attempt : N) (model : string) (now_ms : N) : InvoiceDraft.t :=
  let subtotal := foldl (fun sum line => wrap_i64 (sum + DraftLine.line_total_cents line)) 0%Z (fill_line_items fill) in
  {|
    InvoiceDraft.draft_id := "inv_" +:+ WorkItem.item_id item +:+ "_" +:+ fmt_dec attempt;
    InvoiceDraft.item_id := WorkItem.item_id item;
    InvoiceDraft.source_kind := WorkItem.source_kind item;
    InvoiceDraft.source_ref := WorkItem.source_ref item;
    InvoiceDraft.source_user_id := WorkItem.source_user_id item;
    InvoiceDraft.status := InvoiceStaged;
    InvoiceDraft.customer_name := fill_customer_name fill;
    InvoiceDraft.customer_email := fill_customer_email fill;
    InvoiceDraft.currency := "usd";
    InvoiceDraft.line_items := fill_line_items fill;
    InvoiceDraft.subtotal_cents := subtotal;
    InvoiceDraft.total_cents := subtotal;
    InvoiceDraft.due_date := fill_due_date fill;
    InvoiceDraft.memo := fill_memo fill;
    InvoiceDraft.provenance := fill_provenance fill;
    InvoiceDraft.model := model;
    InvoiceDraft.confidence := fill_confidence fill;
    InvoiceDraft.outbox_job_id := None;
    InvoiceDraft.created_at_ms := now_ms;
    InvoiceDraft.updated_at_ms := now_ms;
  |}.

(** *** What the flow adds to an answer *)

Module PartyCandidate.
(* src: crates/bos-app/src/slices/grounding/types.rs:5-12 PartyCandidate *)
Record t := mk {
  source : string;
  source_id : string;
  display_name : option string;
  company_name : option string;
  email : option string;
}.
End PartyCandidate.

Module ResolvedParty.
(* src: crates/bos-app/src/slices/grounding/types.rs:14-20 ResolvedParty *)
Record t := mk {
  selected : option PartyCandidate.t;
  confidence : string;
  reason : string;
  candidates : list PartyCandidate.t;
}.
End ResolvedParty.

Section stage.
Context (read_party : Json.Value → option ResolvedParty.t).

(* src: crates/bos-app/src/slices/invoice_drafts/service.rs:1672-1682 high_confidence_grounded_party *)
Definition high_confidence_grounded_party (context : Json.Value) : option PartyCandidate.t :=
  resolved ← (party ← Json.get "resolve_party" context; read_party party);
  if string_eqb (ResolvedParty.confidence resolved) "high" && string_eqb (ResolvedParty.reason resolved) "exact_email"
  then ResolvedParty.selected resolved else None.

Definition with_due_date (fill : InvoiceFill) (date quote : string) : InvoiceFill :=
  Build_InvoiceFill (fill_customer_name fill) (fill_customer_email fill) (fill_line_items fill) (Some date) (fill_memo fill)
    (fill_confidence fill) (fill_provenance fill ++ [Build_DraftFieldProvenance "due_date" quote]).
Definition with_email (fill : InvoiceFill) (email quote : string) : InvoiceFill :=
  Build_InvoiceFill (fill_customer_name fill) (Some email) (fill_line_items fill) (fill_due_date fill) (fill_memo fill)
    (fill_confidence fill) (fill_provenance fill ++ [Build_DraftFieldProvenance "customer_email" quote]).
Definition with_name (fill : InvoiceFill) (name quote : string) : InvoiceFill :=
  Build_InvoiceFill name (fill_customer_email fill) (fill_line_items fill) (fill_due_date fill) (fill_memo fill)
    (fill_confidence fill) (fill_provenance fill ++ [Build_DraftFieldProvenance "customer_name" quote]).

(** A due date of the source's terms, else of the configured default. *)
(* src: crates/bos-app/src/slices/invoice_drafts/service.rs:1496-1528 Produce::stage (due date) *)
Definition stage_due_date (source : string) (default_due_days : option N) (now_ms : N) (fill : InvoiceFill) : InvoiceFill :=
  match fill_due_date fill, due_date_from_net_terms source now_ms, default_due_days with
  | Some _, _, _ => fill
  | None, Some (date, term), _ => with_due_date fill date term
  | None, None, Some days => with_due_date fill (due_in_days now_ms days) ("default Net " +:+ fmt_dec days)
  | None, None, None => fill
  end.

Definition billing_field (context : Json.Value) (key : string) : option string :=
  billing ← Json.get "crm_billing" context; v ← Json.get key billing; Json.as_str v.

(* src: crates/bos-app/src/slices/invoice_drafts/service.rs:1529-1556 Produce::stage (customer_email) *)
Definition stage_email (context : Json.Value) (fill : InvoiceFill) : InvoiceFill :=
  match fill_customer_email fill, billing_field context "email" with
  | Some _, _ => fill
  | None, Some email => with_email fill email "crm_match"
  | None, None =>
    match (party ← high_confidence_grounded_party context; email ← PartyCandidate.email party;
           if valid_email_shape email then Some email else None) with
    | Some email => with_email fill email "grounding:exact_email"
    | None => fill
    end
  end.

(* src: crates/bos-app/src/slices/invoice_drafts/service.rs:1557-1591 Produce::stage (customer_name) *)
Definition stage_name (context : Json.Value) (fill : InvoiceFill) : InvoiceFill :=
  match InvoiceDrafts.non_blank (billing_field context "customer_name") with
  | Some name => with_name fill (take_chars 200 name) "crm_match"
  | None =>
    match (party ← high_confidence_grounded_party context;
           raw ← match PartyCandidate.company_name party with Some name => Some name | None => PartyCandidate.display_name party end;
           let name := take_chars 200 (trim raw) in if is_empty name then None else Some name) with
    | Some name => with_name fill name "grounding:exact_email"
    | None => fill
    end
  end.

(** [source] is the subject and the body; of the message its dates matter besides. *)
(* src: crates/bos-app/src/slices/invoice_drafts/service.rs:1467-1595 stage *)
Definition stage_invoice (constraint_failed : string) (draft_json : InvoiceDraft.t → string) (lines_json : list DraftLine.t → string)
    (provenance_json : list DraftFieldProvenance → string) (parse_lines : string → option (list DraftLine.t))
    (parse_provenance : string → option (list DraftFieldProvenance)) (result_fields : string → option bool * option string)
    (client_id actor_id : string) (item : WorkItem.t) (internal_date_ms : option Z) (ingested_at_ms : N) (source : string)
    (response context : Json.Value) (model : string) (attempt : N) (idempotency_key : string) (now_ms : N) : AppOp unit :=
  let date_context := context_from_email internal_date_ms ingested_at_ms in
  match parse_invoice_fill_response_with_context response (Some date_context) with
  | Err _ => op_lift (Err (StoreError.Domain "invoice_fill_invalid_response"))
  | Ok fill =>
    let? settings := InvoiceDrafts.get_invoice_settings client_id in
    let default_due_days := (stored ← settings; InvoiceDrafts.default_due_days stored) in
    let fill := stage_name context (stage_email context (stage_due_date source default_due_days now_ms fill)) in
    InvoiceDrafts.insert_draft constraint_failed draft_json lines_json provenance_json parse_lines parse_provenance result_fields
      client_id actor_id (draft_from_fill item fill attempt model now_ms) idempotency_key ;;?
    op_ret tt
  end.
End stage.
End InvoiceFill.

(** ** Approval and delivery *)

Module InvoiceApproval.
Definition PROVIDER_STRIPE : string := "stripe".
Definition CAPABILITY_CREATE_INVOICE_DRAFT : string := "create_invoice_draft".

Definition approval_of (draft : InvoiceDraft.t) (actor_id : string) (now_ms : N) : PaymentApproval :=
  Build_PaymentApproval ("appr_" +:+ InvoiceDraft.draft_id draft) actor_id (Calendar.epoch_ms_to_rfc3339_utc now_ms).
Definition job_key (draft : InvoiceDraft.t) : string := "invoicedraft:" +:+ InvoiceDraft.draft_id draft.
Definition memo_of (draft : InvoiceDraft.t) : option string :=
  if is_blank (InvoiceDraft.memo draft) then None else Some (InvoiceDraft.memo draft).

(** The job both arms build around a payload. *)
Definition job_for (draft : InvoiceDraft.t) (provider payload_json : string) : NewOutboxJob.t := {|
  NewOutboxJob.job_id := "obj_" +:+ InvoiceDraft.draft_id draft;
  NewOutboxJob.provider := provider;
  NewOutboxJob.capability := CAPABILITY_CREATE_INVOICE_DRAFT;
  NewOutboxJob.payload_json := payload_json;
  NewOutboxJob.source_entity_kind := INVOICE_ENTITY_KIND;
  NewOutboxJob.source_entity_id := InvoiceDraft.draft_id draft;
  NewOutboxJob.correlation_id := Some (InvoiceDraft.item_id draft);
  NewOutboxJob.causation_id := None;
  NewOutboxJob.idempotency_key := job_key draft;
|}.

(** [cents.max(0) as u64]. *)
Definition cents_u64 (cents : Z) : N := Z.to_N (Z.max cents 0).

Definition stripe_line (line : DraftLine.t) : StripeWrite.Line.t := {|
  StripeWrite.Line.line_number := DraftLine.line_number line;
  StripeWrite.Line.label := DraftLine.label line;
  StripeWrite.Line.description := DraftLine.description line;
  StripeWrite.Line.quantity := DraftLine.quantity line;
  StripeWrite.Line.unit_amount_cents := cents_u64 (DraftLine.unit_amount_cents line);
  StripeWrite.Line.line_total_cents := cents_u64 (DraftLine.line_total_cents line);
|}.

(* src: crates/bos-app/src/slices/invoice_drafts/service.rs:1738-1768 build_approval_job (payload) *)
Definition stripe_payload (draft : InvoiceDraft.t) (customer_email actor_id : string) (now_ms : N) : StripeWrite.Payload.t := {|
  StripeWrite.Payload.idempotency_key := job_key draft;
  StripeWrite.Payload.approval := approval_of draft actor_id now_ms;
  StripeWrite.Payload.draft_ref := InvoiceDraft.draft_id draft;
  StripeWrite.Payload.customer_name := InvoiceDraft.customer_name draft;
  StripeWrite.Payload.customer_email := customer_email;
  StripeWrite.Payload.currency := InvoiceDraft.currency draft;
  StripeWrite.Payload.memo := memo_of draft;
  StripeWrite.Payload.due_date_epoch_seconds :=
    (ms ← (date ← InvoiceDraft.due_date draft; date_to_epoch_ms date); Some (ms / 1000)%N);
  StripeWrite.Payload.line_items := stripe_line <$> InvoiceDraft.line_items draft;
  StripeWrite.Payload.subtotal_cents := cents_u64 (InvoiceDraft.subtotal_cents draft);
  StripeWrite.Payload.total_cents := cents_u64 (InvoiceDraft.total_cents draft);
|}.

Definition ninja_line (line : DraftLine.t) : NinjaWrite.InvoiceLine.t := {|
  NinjaWrite.InvoiceLine.line_number := DraftLine.line_number line;
  NinjaWrite.InvoiceLine.label := DraftLine.label line;
  NinjaWrite.InvoiceLine.description := DraftLine.description line;
  NinjaWrite.InvoiceLine.quantity := DraftLine.quantity line;
  NinjaWrite.InvoiceLine.unit_amount_cents := DraftLine.unit_amount_cents line;
  NinjaWrite.InvoiceLine.line_total_cents := DraftLine.line_total_cents line;
|}.

(* src: crates/bos-app/src/slices/invoice_drafts/service.rs:1802-1828 build_invoice_ninja_approval_job (payload) *)
Definition ninja_payload (draft : InvoiceDraft.t) (customer_email actor_id : string) (now_ms : N)
    : NinjaWrite.InvoiceDraftPayload.t := {|
  NinjaWrite.InvoiceDraftPayload.idempotency_key := job_key draft;
  NinjaWrite.InvoiceDraftPayload.approval := approval_of draft actor_id now_ms;
  NinjaWrite.InvoiceDraftPayload.draft_ref := InvoiceDraft.draft_id draft;
  NinjaWrite.InvoiceDraftPayload.customer_name := InvoiceDraft.customer_name draft;
  NinjaWrite.InvoiceDraftPayload.customer_email := Some customer_email;
  NinjaWrite.InvoiceDraftPayload.due_date := InvoiceDraft.due_date draft;
  NinjaWrite.InvoiceDraftPayload.memo := memo_of draft;
  NinjaWrite.InvoiceDraftPayload.line_items := ninja_line <$> InvoiceDraft.line_items draft;
  NinjaWrite.InvoiceDraftPayload.subtotal_cents := InvoiceDraft.subtotal_cents draft;
  NinjaWrite.InvoiceDraftPayload.total_cents := InvoiceDraft.total_cents draft;
|}.

Section approval.
Context (stripe_json : StripeWrite.Payload.t → string) (ninja_json : NinjaWrite.InvoiceDraftPayload.t → string)
  (parse_stripe : string → Result string StripeWrite.Payload.t) (parse_ninja : string → Result string NinjaWrite.InvoiceDraftPayload.t)
  (result_text : Json.Value → string).

Definition EMAIL_REQUIRED : string := "invoice_draft_email_required".

(* src: crates/bos-app/src/slices/invoice_drafts/service.rs:1724-1780 build_approval_job *)
Definition build_approval_job (draft : InvoiceDraft.t) (actor_id : string) (now_ms : N) : Result string NewOutboxJob.t :=
  email ← ok_or (InvoiceDrafts.non_blank (InvoiceDraft.customer_email draft)) EMAIL_REQUIRED;
  Ok (job_for draft PROVIDER_STRIPE (stripe_json (stripe_payload draft email actor_id now_ms))).

(* src: crates/bos-app/src/slices/invoice_drafts/service.rs:1788-1841 build_invoice_ninja_approval_job *)
Definition build_invoice_ninja_approval_job (draft : InvoiceDraft.t) (actor_id : string) (now_ms : N) : Result string NewOutboxJob.t :=
  email ← ok_or (InvoiceDrafts.non_blank (InvoiceDraft.customer_email draft)) EMAIL_REQUIRED;
  Ok (job_for draft LedgerApproval.PROVIDER_INVOICE_NINJA (ninja_json (ninja_payload draft email actor_id now_ms))).

(** *** Carrying out a job *)

Section delivery.
Context {W : Type}.

(** [create] is the client the gate chose: the live one or the one that plans. *)
(* src: crates/bos-app/src/slices/invoice_drafts/service.rs:1871-1920 execute_invoice_ninja_job *)
Definition execute_invoice_ninja_job
    (create : NinjaWrite.InvoiceDraftPayload.t → W → Result NinjaWrite.InvoiceNinjaWriteError
                                                       NinjaWrite.InvoiceNinjaInvoiceDraftResponse * W)
    (job : ClaimedJob.t) (now_ms : N) (w : W) : AttemptOutcome.t * W :=
  if negb (string_eqb (ClaimedJob.capability job) CAPABILITY_CREATE_INVOICE_DRAFT)
  then (AttemptOutcome.Terminal ("outbox_unsupported_job:" +:+ ClaimedJob.provider job +:+ ":" +:+ ClaimedJob.capability job) None, w)
  else match parse_ninja (ClaimedJob.payload_json job) with
       | Err err => (AttemptOutcome.Terminal ("invoice_ninja_payload_invalid:" +:+ err) None, w)
       | Ok payload =>
         let '(result, w) := create payload w in
         (match result with
          | Ok response =>
            AttemptOutcome.Delivered (result_text (Json.Obj [
              ("dry_run", Json.Bool (NinjaWrite.dry_run (NinjaWrite.draft_status response)));
              ("provider_object_id", Json.Str (default (NinjaWrite.draft_invoice_id response)
                                                 (NinjaWrite.draft_invoice_number response)));
              ("provider_status", LedgerApproval.str_or_null (NinjaWrite.reason (NinjaWrite.draft_status response)));
              ("client_id", Json.Str (NinjaWrite.draft_client_id response));
              ("invoice_id", Json.Str (NinjaWrite.draft_invoice_id response));
              ("invoice_number", LedgerApproval.str_or_null (NinjaWrite.draft_invoice_number response))]))
          | Err (NinjaWrite.Retryable code _) => AttemptOutcome.Retry code (LedgerApproval.retry_at job now_ms)
          | Err (NinjaWrite.Permanent code message) =>
            AttemptOutcome.Terminal (provider_error_detail code message)
              (Some (result_text (Json.Obj [("message", Json.Str message)])))
          end, w)
       end.

(* src: crates/bos-app/src/slices/invoice_drafts/service.rs:1944-1983 execute_job *)
Definition execute_job
    (create : StripeWrite.Payload.t → W → Result StripeWrite.StripeWriteError StripeWrite.StripeInvoiceDraftResponse * W)
    (job : ClaimedJob.t) (now_ms : N) (w : W) : AttemptOutcome.t * W :=
  if negb (string_eqb (ClaimedJob.provider job) PROVIDER_STRIPE)
     || negb (string_eqb (ClaimedJob.capability job) CAPABILITY_CREATE_INVOICE_DRAFT)
  then (AttemptOutcome.Terminal ("outbox_unsupported_job:" +:+ ClaimedJob.provider job +:+ ":" +:+ ClaimedJob.capability job) None, w)
  else match parse_stripe (ClaimedJob.payload_json job) with
       | Err err => (AttemptOutcome.Terminal ("stripe_payload_invalid:" +:+ err) None, w)
       | Ok payload =>
         let '(result, w) := create payload w in
         (match result with
          | Ok response =>
            AttemptOutcome.Delivered (result_text (Json.Obj [
              ("dry_run", Json.Bool (StripeWrite.dry_run (StripeWrite.status response)));
              ("provider_object_id", Json.Str (StripeWrite.invoice_id response));
              ("provider_status", LedgerApproval.str_or_null (match StripeWrite.provider_status response with
                 | Some status => Some status | None => StripeWrite.reason (StripeWrite.status response) end));
              ("customer_id", Json.Str (StripeWrite.customer_id response));
              ("hosted_invoice_url", LedgerApproval.str_or_null (StripeWrite.hosted_invoice_url response))]))
          | Err (StripeWrite.Retryable code _) => AttemptOutcome.Retry code (LedgerApproval.retry_at job now_ms)
          | Err (StripeWrite.Permanent code message) =>
            AttemptOutcome.Terminal (provider_error_detail code message)
              (Some (result_text (Json.Obj [("message", Json.Str message)])))
          end, w)
       end.
End delivery.

(** *** The routes *)

Context (constraint_failed : string) (value_text : Json.Value → string) (lines_json : list DraftLine.t → string)
  (parse_lines : string → option (list DraftLine.t)) (parse_provenance : string → option (list DraftFieldProvenance))
  (result_fields : string → option bool * option string) (days_json : option N → string) (env : string → option string).

(** The provider's job, or the refusal that stands for the error. *)
(* src: crates/bos-app/src/slices/invoice_drafts/routes.rs:270-305 draft_action (job) *)
Definition approval_job (ctx : ScopedMutationContext) (draft : InvoiceDraft.t) : NewOutboxJob.t + (N * string) :=
  let built (result : Result string NewOutboxJob.t) : NewOutboxJob.t + (N * string) :=
    match result with
    | Ok job => inl job
    | Err code => if string_eqb code EMAIL_REQUIRED then inr (422%N, code) else inr (500%N, "approval_job_build_failed"%string)
    end in
  match configured_accounting_provider env with
  | Ok provider =>
    if string_eqb provider PROVIDER_STRIPE then built (build_approval_job draft (scoped_actor_id ctx) (scoped_now_ms ctx))
    else if string_eqb provider LedgerApproval.PROVIDER_INVOICE_NINJA then
      built (build_invoice_ninja_approval_job draft (scoped_actor_id ctx) (scoped_now_ms ctx))
    else inr (422%N, "accounting_provider_not_writable"%string)
  | Err _ => inr (422%N, "accounting_provider_not_writable"%string)
  end.

(* src: crates/bos-app/src/slices/invoice_drafts/routes.rs:221-314 draft_action *)
Definition draft_action (ctx : ScopedMutationContext) (draft_id : string) (action : InvoiceDraftActionKind) (db : AppDb)
    : LedgerApproval.LedgerAnswer * AppDb :=
  let answered (m : AppOp MutationOutcome.t) (db : AppDb) := let '(r, db) := m db in (LedgerApproval.Answered r, db) in
  if is_blank (scoped_idempotency_key ctx) then (LedgerApproval.Refused 400 "idempotency_key_required", db)
  else match action with
  | RejectInvoice => answered (InvoiceDrafts.reject_draft constraint_failed parse_lines parse_provenance result_fields ctx draft_id) db
  | ApproveInvoice =>
    match InvoiceDrafts.get_draft parse_lines parse_provenance result_fields (scoped_client_id ctx) draft_id (scoped_scope ctx) db with
    | (Ok (Some found), db) =>
      match approval_job ctx (invoice_draft found) with
      | inl job => answered (InvoiceDrafts.approve_draft constraint_failed parse_lines parse_provenance result_fields ctx draft_id job) db
      | inr (status, code) => (LedgerApproval.Refused status code, db)
      end
    | (Ok None, db) => (LedgerApproval.Refused 422 "invoice_draft_not_found", db)
    | (Err err, db) => (LedgerApproval.Answered (Err err), db)
    end
  end.

(* src: crates/bos-app/src/slices/invoice_drafts/routes.rs:182-219 draft_update *)
Definition draft_update (ctx : ScopedMutationContext) (draft_id customer_name : string) (customer_email due_date : option string)
    (memo : string) (line_items : list DraftLine.t) (db : AppDb) : LedgerApproval.LedgerAnswer * AppDb :=
  if is_blank (scoped_idempotency_key ctx) then (LedgerApproval.Refused 400 "idempotency_key_required", db)
  else let '(r, db) := InvoiceDrafts.update_draft constraint_failed value_text lines_json parse_lines parse_provenance result_fields
                         ctx draft_id customer_name customer_email due_date memo line_items db in
       (LedgerApproval.Answered r, db).

(* src: crates/bos-app/src/slices/invoice_drafts/routes.rs:51-75 update_invoice_settings *)
Definition update_invoice_settings (client_id actor_id : string) (expected_revision : option N) (idempotency_key : string)
    (due_days : option N) (now_ms : N) (db : AppDb) : LedgerApproval.LedgerAnswer * AppDb :=
  if is_blank idempotency_key then (LedgerApproval.Refused 400 "idempotency_key_required", db)
  else let '(r, db) := InvoiceDrafts.replace_invoice_settings constraint_failed days_json client_id actor_id expected_revision
                         idempotency_key due_days now_ms db in
       (LedgerApproval.Answered r, db).
End approval.
End InvoiceApproval.
