(* ===== verification/InvoiceProps.v ===== *)
(** * What the invoice drafts guarantee

    The totals of every draft are the sums of its lines, the due date and the customer are
    there in the shape the providers ask for, and an approved invoice passes the
    provider's validation - but for an e-mail address with a blank in it, which only the
    client of Invoice Ninja refuses.  Two lines may carry one number. *)

From S2P Require Import Prelude RustStd RustStr StoreCore StoreCoreProps AppOutbox AppOutboxProps Identity AccountingRecords Schema SliceCore Operators WorkItems WorkQueue Calendar CalendarProps DateInput DateProps DraftStore DraftProps Json ProviderWrites AccountingStore AccountingViews FollowUpTasks LedgerDrafts LedgerProps DeliveryProps InvoiceDrafts.
Import Spine Outbox Drafts DateInput.

(** ** Lines add up *)

Definition line_ok (line : DraftLine.t) : Prop :=
  is_blank (DraftLine.label line) = false ∧ (0 < DraftLine.quantity line ≤ 10000)%N ∧ (0 < DraftLine.unit_amount_cents line)%Z ∧
  DraftLine.line_total_cents line = (Z.of_N (DraftLine.quantity line) * DraftLine.unit_amount_cents line)%Z.

(** From [start] the lines add up to [total], and no sum on the way is out of range. *)
Fixpoint adds_up (start : Z) (lines : list DraftLine.t) (total : Z) : Prop :=
  match lines with
  | [] => total = start
  | line :: rest => line_ok line ∧ (start + DraftLine.line_total_cents line ≤ i64_max)%Z
                    ∧ adds_up (start + DraftLine.line_total_cents line) rest total
  end.

Lemma line_total_pos line : line_ok line → (0 < DraftLine.line_total_cents line)%Z.
Proof. intros (_ & Hq & Hu & ->). nia. Qed.

Lemma recomputed_line_spec item line : InvoiceLines.recomputed_line item = Ok line →
  line_ok line ∧ DraftLine.line_number line = DraftLine.line_number item.
Proof.
  unfold InvoiceLines.recomputed_line. destruct (is_blank _) eqn:Hb; [done|].
  destruct (_ || _) eqn:Hq; [done|]. destruct (Z.leb_spec (DraftLine.unit_amount_cents item) 0); [done|].
  destruct (checked_mul_i64 _ _) as [total|] eqn:Ht; [|done]. apply in_range_spec in Ht as [-> _].
  intros [= <-]. unfold line_ok. simpl. split; [|done]. split; [done|]. split; [lia|]. by split.
Qed.

Lemma recompute_adds start items lines total : (0 ≤ start)%Z →
  InvoiceLines.recompute_from start items = Ok (lines, total) →
  adds_up start lines total ∧ DraftLine.line_number <$> lines = DraftLine.line_number <$> items.
Proof.
  revert start lines. induction items as [|item items IH]; intros start lines Hs; simpl; [by intros [= <- <-]|].
  destruct (InvoiceLines.recomputed_line item) as [line|] eqn:Hl; [|done]. apply recomputed_line_spec in Hl as [Hl Hn]. cbn [mbind Result_bind].
  destruct (checked_add_i64 _ _) as [sum|] eqn:Hsum; [|done]. apply in_range_spec in Hsum as [-> Hr]. cbn [ok_or mbind Result_bind].
  pose proof (line_total_pos line Hl). destruct (InvoiceLines.recompute_from _ items) as [[rest t]|] eqn:Hrest; [|done].
  intros [= <- <-]. apply IH in Hrest as [Ha Hns]; [|lia]. split; [by split; [|split; [lia|]]|].
  rewrite !fmap_cons. by rewrite Hn, Hns.
Qed.

Lemma adds_bounds start lines total : adds_up start lines total → (start ≤ total)%Z ∧ (lines ≠ [] → start < total)%Z.
Proof.
  revert start. induction lines as [|line lines IH]; simpl; intros start; [intros ->; split; [lia|done]|].
  intros (Hl & _ & Ha). apply line_total_pos in Hl. apply IH in Ha as [Hle _]. split; [|intros _]; lia.
Qed.

Lemma adds_max start lines total : (start ≤ i64_max)%Z → adds_up start lines total → (total ≤ i64_max)%Z.
Proof. revert start. induction lines as [|line lines IH]; simpl; intros start Hs; [by intros ->|]. intros (_ & Hm & Ha). by eapply IH. Qed.

(** What [draft_from_fill] sums is the subtotal that was checked. *)
Lemma sum_adds start lines total : (0 ≤ start)%Z → adds_up start lines total →
  foldl (fun sum line => wrap_i64 (sum + DraftLine.line_total_cents line)) start lines = total.
Proof.
  revert start. induction lines as [|line lines IH]; simpl; intros start Hs; [done|]. intros (Hl & Hm & Ha).
  pose proof (line_total_pos _ Hl). rewrite wrap_small by (unfold i64_max in *; lia). apply IH; [lia|done].
Qed.

(** *** The validations of the providers agree *)

Lemma ninja_lines start lines total : (0 ≤ start)%Z → adds_up start lines total →
  NinjaWrite.validate_lines start (InvoiceApproval.ninja_line <$> lines) = Ok total.
Proof.
  revert start. induction lines as [|line lines IH]; simpl; intros start Hs; [by intros ->|]. intros (Hl & Hm & Ha).
  pose proof (line_total_pos _ Hl) as Hpos. destruct Hl as (Hb & Hq & Hu & Ht).
  assert (Hg : NinjaWrite.line_grounded (InvoiceApproval.ninja_line line) = true).
  { unfold NinjaWrite.line_grounded. cbn -[is_blank wrap_i64]. rewrite Hb, wrap_small by (unfold i64_max in *; lia).
    rewrite Ht, Z.eqb_refl. destruct (N.eqb_spec (DraftLine.quantity line) 0); [lia|]. by rewrite (proj2 (Z.ltb_lt _ _) Hu). }
  rewrite Hg. cbn [negb]. rewrite wrap_small by (unfold i64_max in *; lia). apply IH; [lia|done].
Qed.

Lemma cents_u64_of v : (0 ≤ v)%Z → InvoiceApproval.cents_u64 v = Z.to_N v.
Proof. intros Hv. unfold InvoiceApproval.cents_u64. by rewrite Z.max_l. Qed.

Lemma stripe_lines start lines total : (0 ≤ start)%Z → Forall (fun line => (0 < DraftLine.line_number line)%N) lines →
  adds_up start lines total →
  StripeWrite.validate_lines (Z.to_N start) (InvoiceApproval.stripe_line <$> lines) = Ok (Z.to_N total).
Proof.
  intros Hs Hn. revert start Hs. induction Hn as [|line lines Hn _ IH]; simpl; intros start Hs; [by intros ->|]. intros (Hl & Hm & Ha).
  pose proof (line_total_pos _ Hl) as Hpos. destruct Hl as (Hb & Hq & Hu & Ht). unfold i64_max in Hm.
  rewrite Hb, !cents_u64_of by lia.
  destruct (N.eqb_spec (DraftLine.line_number line) 0), (N.eqb_spec (DraftLine.quantity line) 0),
    (N.eqb_spec (Z.to_N (DraftLine.unit_amount_cents line)) 0), (N.eqb_spec (Z.to_N (DraftLine.line_total_cents line)) 0); try lia.
  cbn [orb]. assert (He : (DraftLine.quantity line * Z.to_N (DraftLine.unit_amount_cents line))%N = Z.to_N (DraftLine.line_total_cents line)).
  { rewrite Ht, Z2N.inj_mul by lia. by rewrite N2Z.id. }
  rewrite He. unfold StripeWrite.checked_u64, u64_max.
  destruct (N.leb_spec (Z.to_N (DraftLine.line_total_cents line)) 18446744073709551615); [|lia]. cbn [ok_or mbind Result_bind].
  rewrite N.eqb_refl. cbn [negb]. rewrite <- Z2N.inj_add by lia.
  destruct (N.leb_spec (Z.to_N (start + DraftLine.line_total_cents line)) 18446744073709551615); [|lia]. cbn [ok_or mbind Result_bind].
  apply IH; [lia|done].
Qed.

(** ** Due dates *)

Lemma stamp_shape ms : (ms < 253402300800000)%N → date_shape_invalid (InvoiceFill.stamp_date (Calendar.epoch_ms_to_rfc3339_utc ms)) = false.
Proof.
  intros Hms. pose proof (instant_text ms Hms) as H. cbv zeta in H. destruct (Calendar.civil_from_days _) as [[y m] d].
  destruct H as (_ & _ & ->). reflexivity.
Qed.

(** A year and more before the year 9999. *)
Definition before_9998 (ms : N) : Prop := (ms < 253339228800000)%N.

Lemma due_shape now days : before_9998 now → (days ≤ 365)%N → date_shape_invalid (InvoiceFill.due_in_days now days) = false.
Proof. unfold before_9998. intros Hn Hd. apply stamp_shape. unfold saturating_add_u64. lia. Qed.

Lemma net_terms_range before source found : InvoiceFill.find_net_terms before source = Some found → (1 ≤ found.1 ≤ 365)%N.
Proof.
  revert before. induction source as [source IH] using (induction_ltof1 _ String.length). unfold ltof in IH. intros before.
  destruct source as [|a [|b [|c rest]]]; [done..|]. cbn [InvoiceFill.find_net_terms]. destruct (InvoiceFill.is_net a b c).
  - destruct (InvoiceFill.net_days before rest) as [[days text]|] eqn:Hd.
    + intros [= <-]. simpl. unfold InvoiceFill.net_days in Hd. destruct (option_any _ _); [done|].
      destruct (InvoiceFill.span _ rest) as [skipped r1]. destruct (InvoiceFill.span _ r1) as [digits r2].
      destruct (is_empty digits); [done|]. destruct (match r2 with EmptyString => _ | _ => _ end); [done|].
      destruct (parse_u64 digits) as [n|]; [|done]. simpl in Hd. destruct (_ && _) eqn:Hr; [|done]. injection Hd as <- _. lia.
    + exact (IH rest ltac:(simpl; lia) (Some c)).
  - exact (IH (String b (String c rest)) ltac:(simpl; lia) (Some a)).
Qed.

(** ** The rows *)

(** An address as far as all the checks look: there is an [@] in what is left of it
    without the blanks around it. *)
Definition email_named (email : option string) : Prop := ∀ e, email = Some e → has_char "@" (trim e) = true.

Record filled_line_items (lines : list DraftLine.t) (total : Z) : Prop := {
  lines_some : lines ≠ [];
  lines_numbered : Forall (fun line => (0 < DraftLine.line_number line)%N) lines;
  lines_add_up : adds_up 0 lines total;
}.

Section invoices.
Context (lines_json : list DraftLine.t → string) (parse_lines : string → option (list DraftLine.t))
  (parse_provenance : string → option (list DraftFieldProvenance)) (result_fields : string → option bool * option string).
(** The lines serde writes are the lines it reads. *)
Context (lines_back : ∀ lines, parse_lines (lines_json lines) = Some lines).

Record invoice_row (k : string * string) (row : InvoiceDraftRow.t) : Prop := {
  invoice_key : InvoiceDraftRow.client_id row = k.1 ∧ InvoiceDraftRow.draft_id row = k.2;
  invoice_status : InvoiceDraftRow.status row ∈ ["staged"; "approved"; "rejected"]%string;
  invoice_approved : InvoiceDraftRow.status row = "approved"%string ↔ is_Some (InvoiceDraftRow.outbox_job_id row);
  invoice_customer : is_blank (InvoiceDraftRow.customer_name row) = false;
  invoice_email : email_named (InvoiceDraftRow.customer_email row);
  invoice_currency : InvoiceDraftRow.currency row = "usd"%string;
  invoice_lines : ∃ lines, parse_lines (InvoiceDraftRow.line_items_json row) = Some lines ∧
    filled_line_items lines (InvoiceDraftRow.total_cents row);
  invoice_subtotal : InvoiceDraftRow.subtotal_cents row = InvoiceDraftRow.total_cents row;
  invoice_due : ∀ date, InvoiceDraftRow.due_date row = Some date → date_shape_invalid date = false;
}.

#[local] Hint Extern 0 (DraftStore InvoiceDraftRow.t _) =>
  exact (InvoiceDraftStore parse_lines parse_provenance result_fields) : typeclass_instances.

#[export] Instance invoice_laws : DraftLaws INVOICE_TABLE.
Proof. by split. Qed.

Context (constraint_failed : string) (value_text : Json.Value → string) (to_lowercase : string → string)
  (draft_json : InvoiceDraft.t → string) (provenance_json : list DraftFieldProvenance → string)
  (read_party : Json.Value → option InvoiceFill.ResolvedParty.t) (days_json : option N → string)
  (stripe_json : StripeWrite.Payload.t → string) (ninja_json : NinjaWrite.InvoiceDraftPayload.t → string).
Implicit Types (db : AppDb).

Abbreviation drafts db := (invoice_drafts (money (tables db))).

(** The configured term is one the settings accept. *)
Definition settings_ok (t : SliceTables) : Prop :=
  ∀ client row days, invoice_settings (money t) !! client = Some row → InvoiceSettingsRow.default_due_days row = Some days →
    (1 ≤ days ≤ 365)%Z.
Definition invoices_good db : Prop := table_good (Row:=InvoiceDraftRow.t) invoice_row db ∧ settings_ok (tables db).

(** ** Requests *)

Inductive InvoiceCall :=
| CStage (client_id actor_id : string) (item : WorkItem.t) (internal_date_ms : option Z) (ingested_at_ms : N) (source : string)
    (response context : Json.Value) (model : string) (attempt : N) (key : string) (now_ms : N)
| CEnrich (ctx : ScopedMutationContext) (draft_id : string) (apply : InvoiceDrafts.CustomerEnrichmentApply)
| CEdit (ctx : ScopedMutationContext) (draft_id name : string) (email due_date : option string) (memo : string)
    (lines : list DraftLine.t)
| CDecide (env : string → option string) (ctx : ScopedMutationContext) (draft_id : string) (action : InvoiceDraftActionKind)
| CSettings (client_id actor_id : string) (expected : option N) (key : string) (days : option N) (now_ms : N)
| COther (f : AppDb → AppDb).

Definition call_one db (call : InvoiceCall) : AppDb :=
  match call with
  | CStage c actor item internal ingested source response context model attempt key now =>
    (InvoiceFill.stage_invoice read_party constraint_failed draft_json lines_json provenance_json parse_lines parse_provenance
       result_fields c actor item internal ingested source response context model attempt key now db).2
  | CEnrich ctx id apply =>
    (InvoiceDrafts.apply_customer_enrichment constraint_failed value_text to_lowercase provenance_json parse_lines parse_provenance
       result_fields ctx id apply db).2
  | CEdit ctx id name email due memo lines =>
    (InvoiceApproval.draft_update constraint_failed value_text lines_json parse_lines parse_provenance result_fields ctx id name
       email due memo lines db).2
  | CDecide env ctx id action =>
    (InvoiceApproval.draft_action stripe_json ninja_json constraint_failed parse_lines parse_provenance result_fields env ctx id
       action db).2
  | CSettings c actor expected key days now =>
    (InvoiceApproval.update_invoice_settings constraint_failed days_json c actor expected key days now db).2
  | COther f => f db
  end.
Definition call_all : AppDb → list InvoiceCall → AppDb := foldl call_one.

(** Messages and clocks are of the time before the year 9998; the address of a CRM draft
    has an [@], and so has one the enrichment found within its first 300 characters; other
    slices leave the drafts and the settings alone. *)
Definition call_allowed (call : InvoiceCall) : Prop :=
  match call with
  | CStage _ _ _ internal ingested _ _ context _ _ _ now =>
    before_9999 (grounded_ms internal ingested) ∧ before_9998 now ∧ email_named (InvoiceFill.billing_field context "email")
  | CEnrich _ _ apply => ∀ found, InvoiceDrafts.apply_customer_email apply = Some found →
      has_char "@" (trim (InvoiceDrafts.value found)) = true →
      has_char "@" (trim (take_chars 300 (trim (InvoiceDrafts.value found)))) = true
  | CEdit ctx _ _ _ _ _ _ => before_9999 (scoped_now_ms ctx)
  | COther f => ∀ db, spine_wf db → spine_wf (f db) ∧ drafts (f db) = drafts db ∧
      invoice_settings (money (tables (f db))) = invoice_settings (money (tables db))
  | _ => True
  end.


(** ** The settings stay in range *)

Abbreviation keeps_settings := (preserves (E:=StoreError.t) (fun db => settings_ok (tables db))).

Lemma insert_keeps code client (row : InvoiceDraftRow.t) : keeps_settings (insert_draft_row code client row).
Proof. intros db Hs. unfold insert_draft_row. by case_match. Qed.

Lemma update_keeps client id (f : InvoiceDraftRow.t → InvoiceDraftRow.t) : keeps_settings (update_draft_row constraint_failed client id f).
Proof. intros db Hs. unfold update_draft_row. by case_match. Qed.

Lemma mutate_keeps_settings request (write : SliceWrite) db :
  keeps_settings write → write_spares write → spine_wf db → settings_ok (tables db) →
  settings_ok (tables (mutate constraint_failed request write db).2).
Proof.
  intros Hk Hw Hwf Hs. apply (mutate_keeps constraint_failed settings_ok request write Hw); [|by split].
  intros db1 db2 Hdb Hs1. specialize (Hk db1 Hs1). by rewrite Hdb in Hk.
Qed.

Lemma enqueue_keeps client job now : keeps_settings (enqueue_within constraint_failed client job now).
Proof. intros db Hs. unfold enqueue_within. repeat case_match; done. Qed.

Lemma decide_keeps ctx id job db : spine_wf db → settings_ok (tables db) →
  settings_ok (tables (approve constraint_failed ctx INVOICE_TABLE id (Some job) db).2) ∧
  settings_ok (tables (reject constraint_failed ctx INVOICE_TABLE id db).2).
Proof.
  intros Hwf Hs. pose proof (require_staged_cases INVOICE_TABLE ctx id db) as Hr. unfold approve, reject, op_bind.
  destruct (require_staged ctx INVOICE_TABLE id db) as [[u|e] db0] eqn:Hq; [|by injection Hr as _ ->].
  apply require_staged_ok in Hq as [-> _]. split.
  - apply mutate_keeps_settings; [|apply approve_write_spares|done..].
    unfold approve_write. apply preserves_bind; [apply update_keeps|]. intros _. apply enqueue_keeps.
  - apply mutate_keeps_settings; [apply update_keeps|apply reject_write_spares|done..].
Qed.

(** Enriching, editing and staging change one row. *)
Lemma good_change request client id (f : InvoiceDraftRow.t → InvoiceDraftRow.t) row db :
  invoices_good db → drafts db !! (client, id) = Some row → invoice_row (client, id) (f row) →
  InvoiceDraftRow.item_id (f row) = InvoiceDraftRow.item_id row → InvoiceDraftRow.status row = "staged"%string →
  invoices_good (mutate constraint_failed request (update_draft_row constraint_failed client id f) db).2.
Proof.
  intros [Hg Hs] Hrow Hf Hitem Hst. split.
  - apply (good_edit_row INVOICE_TABLE constraint_failed invoice_row request client id f row); [done|exact Hrow|done|done|].
    unfold is_active. simpl. by rewrite Hst.
  - apply mutate_keeps_settings; [apply update_keeps|apply slice_write_spares_receipts, slice_write_update_row|by destruct Hg|done].
Qed.

(** ** What an accepted answer holds *)

Lemma fill_lines_numbered provenance index raws lines :
  InvoiceFill.fill_lines provenance index raws = Ok lines →
  Forall (fun line => (0 < DraftLine.line_number line)%N) lines ∧ length lines = length raws.
Proof.
  revert index lines. induction raws as [|raw raws IH]; intros index lines; simpl; [intros [= <-]; by split|].
  destruct (InvoiceFill.fill_line provenance index raw) as [line|] eqn:Hl; [|done]. cbn [mbind Result_bind].
  destruct (InvoiceFill.fill_lines provenance (S index) raws) as [rest|] eqn:Hr; [|done]. intros [= <-].
  apply IH in Hr as [Hf Hlen]. split; [|simpl; lia]. constructor; [|done]. unfold InvoiceFill.fill_line in Hl.
  destruct (Json.string_field raw "label") as [label|]; [|done]. cbn [ok_or mbind Result_bind] in Hl.
  destruct (cents ← _; if (0 <? cents)%Z then Some cents else None) as [cents|]; [|done]. cbn [ok_or mbind Result_bind] in Hl.
  case_match; [done|]. injection Hl as <-. simpl. destruct (n ← _; if (0 <? as_u32 n)%N then _ else None) as [n|] eqn:Hn; simpl; [|lia].
  apply bind_Some in Hn as (v & _ & Hv). destruct (N.ltb_spec 0 (as_u32 v)); [|done]. by injection Hv as <-.
Qed.

Lemma numbered_same items lines : DraftLine.line_number <$> lines = DraftLine.line_number <$> items →
  Forall (fun line => (0 < DraftLine.line_number line)%N) items → Forall (fun line => (0 < DraftLine.line_number line)%N) lines.
Proof.
  intros Hn Hi. assert (H : Forall (fun n => (0 < n)%N) (DraftLine.line_number <$> lines)) by (rewrite Hn, Forall_fmap; exact Hi).
  by rewrite Forall_fmap in H.
Qed.

(** What a fill needs for its draft to be a row. *)
Record filled_well (fill : InvoiceFill.InvoiceFill) : Prop := {
  filled_customer : is_blank (InvoiceFill.fill_customer_name fill) = false;
  filled_email : email_named (InvoiceFill.fill_customer_email fill);
  filled_lines : ∃ total, filled_line_items (InvoiceFill.fill_line_items fill) total;
  filled_due : ∀ date, InvoiceFill.fill_due_date fill = Some date → date_shape_invalid date = false;
}.

Lemma fill_well response context fill :
  (∀ c, context = Some c → good_context c) → InvoiceFill.parse_invoice_fill_response_with_context response context = Ok fill →
  filled_well fill.
Proof.
  intros Hctx. unfold InvoiceFill.parse_invoice_fill_response_with_context.
  destruct (Json.string_field response "customer_name") as [name|] eqn:Hname; [|done]. cbn [ok_or mbind Result_bind].
  destruct (InvoiceFill.fill_date _ _) as [date|] eqn:Hd; [|done]. cbn [mbind Result_bind].
  destruct (raw ← Json.string_field response "confidence"; FollowUpFill.known_confidence raw) as [conf|]; [|done]. cbn [ok_or mbind Result_bind].
  destruct (value ← Json.get "line_items" response; Json.as_array value) as [raws|]; [|done]. cbn [ok_or mbind Result_bind].
  case_bool_decide as Hraws; [done|]. case_match; [done|].
  destruct (InvoiceFill.fill_lines _ 0 raws) as [items|] eqn:Hitems; [|done]. cbn [mbind Result_bind].
  unfold InvoiceLines.recompute_totals. destruct (InvoiceLines.recompute_from 0 items) as [[lines total]|] eqn:Hr; [|done]. intros [= <-].
  apply fill_lines_numbered in Hitems as [Hnum Hlen]. apply recompute_adds in Hr as [Hadds Hsame]; [|done]. split; simpl.
  - apply string_field_trimmed in Hname as (s & -> & Hs). by apply cut_not_blank.
  - intros e (raw & Hraw & He)%bind_Some. unfold InvoiceFill.valid_email_shape in He. destruct (has_char "@" raw) eqn:Hat; [|done]. simpl in He.
    destruct (negb (has_whitespace raw)); [|done]. injection He as <-. apply string_field_trimmed in Hraw as (s & -> & _). by rewrite trim_idemp.
  - exists total. split; [|by eapply numbered_same|done]. intros ->. apply (f_equal length) in Hsame. rewrite !length_fmap in Hsame.
    destruct raws; [done|simpl in *; lia].
  - intros d ->. unfold InvoiceFill.fill_date in Hd. destruct (Json.string_field response "due_date") as [raw|]; [|done].
    destruct (normalize_civil_date raw context) as [r|] eqn:Hnorm; [|done]. injection Hd as <-. apply real_date_shape. by eapply accepted_real.
Qed.

(** What the flow adds keeps it so. *)
Lemma due_well source days now fill :
  before_9998 now → (∀ d, days = Some d → (d ≤ 365)%N) → filled_well fill → filled_well (InvoiceFill.stage_due_date source days now fill).
Proof.
  intros Hnow Hdays [Hc He Hl Hd]. unfold InvoiceFill.stage_due_date. destruct (InvoiceFill.fill_due_date fill) eqn:Hdue; [by split; rewrite ?Hdue|].
  unfold InvoiceFill.due_date_from_net_terms. destruct (InvoiceFill.find_net_terms None source) as [found|] eqn:Hf; simpl.
  - apply net_terms_range in Hf. split; try done. intros date [= <-]. apply due_shape; [done|lia].
  - destruct days as [days|]; [|by split; rewrite ?Hdue]. split; try done. intros date [= <-]. apply due_shape; auto.
Qed.

Lemma email_well context fill :
  email_named (InvoiceFill.billing_field context "email") → filled_well fill → filled_well (InvoiceFill.stage_email read_party context fill).
Proof.
  intros Hb [Hc He Hl Hd]. unfold InvoiceFill.stage_email. destruct (InvoiceFill.fill_customer_email fill) eqn:Hem; [by split; rewrite ?Hem|].
  destruct (InvoiceFill.billing_field context "email") as [email|]; [split; try done; intros e [= <-]; by apply Hb|].
  destruct (party ← _; email ← _; _) as [email|] eqn:Hp; [|by split; rewrite ?Hem]. split; try done. intros e [= <-].
  apply bind_Some in Hp as (party & _ & Hp). apply bind_Some in Hp as (raw & _ & Hp). destruct (InvoiceFill.valid_email_shape raw) eqn:Hv; [|done].
  injection Hp as <-. unfold InvoiceFill.valid_email_shape in Hv. apply andb_true_iff in Hv as [Hat Hws].
  rewrite trim_no_whitespace by (by apply negb_true_iff). done.
Qed.

Lemma name_well context fill : filled_well fill → filled_well (InvoiceFill.stage_name read_party context fill).
Proof.
  intros [Hc He Hl Hd]. unfold InvoiceFill.stage_name.
  destruct (InvoiceDrafts.non_blank (InvoiceFill.billing_field context "customer_name")) as [name|] eqn:Hn.
  - split; try done. simpl. unfold InvoiceDrafts.non_blank in Hn. apply bind_Some in Hn as (raw & Hraw & Hn).
    destruct (is_empty raw) eqn:Hem; [done|]. injection Hn as <-. destruct (InvoiceFill.billing_field context "customer_name"); [|done].
    injection Hraw as <-. apply cut_not_blank. by intros H; rewrite H in Hem.
  - destruct (party ← _; raw ← _; _) as [name|] eqn:Hp; [|done]. split; try done. simpl.
    apply bind_Some in Hp as (party & _ & Hp). apply bind_Some in Hp as (raw & _ & Hp). destruct (is_empty _) eqn:Hem; [done|]. injection Hp as <-.
    apply cut_not_blank. intros H. by rewrite H in Hem.
Qed.

(** ** Requests keep the drafts well formed *)

Lemma stage_call_good c actor item internal ingested source response context model attempt key now db :
  before_9999 (grounded_ms internal ingested) → before_9998 now → email_named (InvoiceFill.billing_field context "email") →
  invoices_good db →
  invoices_good (InvoiceFill.stage_invoice read_party constraint_failed draft_json lines_json provenance_json parse_lines
    parse_provenance result_fields c actor item internal ingested source response context model attempt key now db).2.
Proof using lines_back.
  intros Hb Hnow Hemail [Hg Hs]. unfold InvoiceFill.stage_invoice.
  destruct (InvoiceFill.parse_invoice_fill_response_with_context _ _) as [fill|] eqn:Hf; [|done].
  pose proof (fill_well _ _ _ (fun c => context_good _ _ c Hb) Hf) as Hfill. clear Hf.
  assert (Hset : ∃ settings, InvoiceDrafts.get_invoice_settings c db = (Ok settings, db) ∧
    ∀ d, (stored ← settings; InvoiceDrafts.default_due_days stored) = Some d → (d ≤ 365)%N).
  { unfold InvoiceDrafts.get_invoice_settings, op_bind, read_tables, current_revision, op_ret.
    destruct (invoice_settings (money (tables db)) !! c) as [row|] eqn:Hrow; [|by exists None]. eexists. split; [reflexivity|].
    simpl. intros d Hd. destruct (InvoiceSettingsRow.default_due_days row) as [days|] eqn:Hdays; [|done]. injection Hd as <-.
    specialize (Hs _ _ _ Hrow Hdays). unfold as_u32, i64_to_u32. rewrite Z.mod_small by lia. lia. }
  destruct Hset as (settings & Hset & Hdays). erewrite op_bind_step by exact Hset.
  set (days := settings ≫= InvoiceDrafts.default_due_days) in *.
  set (filled := InvoiceFill.stage_name read_party context (InvoiceFill.stage_email read_party context (InvoiceFill.stage_due_date source days now fill))).
  assert (Hw : filled_well filled) by (apply name_well, email_well, due_well; [done|done|done|exact Hfill]).
  set (draft := InvoiceFill.draft_from_fill item filled attempt model now).
  assert (Hrow : invoice_row (c, InvoiceDraft.draft_id draft) (InvoiceDrafts.staged_row lines_json provenance_json c draft)).
  { destruct Hw as [Hc He (total & Hl) Hd]. pose proof (sum_adds 0 _ total ltac:(lia) (lines_add_up _ _ Hl)) as Hsum.
    split; simpl; try done; [by left|]. exists (InvoiceFill.fill_line_items filled).
    split; [apply lines_back|]. by rewrite Hsum. }
  assert (Hins : invoices_good (InvoiceDrafts.insert_draft constraint_failed draft_json lines_json provenance_json parse_lines parse_provenance
                   result_fields c actor draft key db).2).
  { split.
    - apply (good_insert INVOICE_TABLE); [done|exact Hrow|done].
    - apply mutate_keeps_settings; [apply insert_keeps|apply slice_write_spares_receipts, insert_draft_row_slice|by destruct Hg|done]. }
  unfold op_bind. by destruct (InvoiceDrafts.insert_draft _ _ _ _ _ _ _ _ _ _ _ _) as [[o|e] db'].
Qed.

Lemma edit_call_spec now name email due memo lines edit :
  before_9999 now → InvoiceDrafts.checked_edit now name email due memo lines = Ok edit →
  is_blank (InvoiceDrafts.edit_customer_name edit) = false ∧ email_named (InvoiceDrafts.edit_customer_email edit) ∧
  filled_line_items (InvoiceDrafts.edit_line_items edit) (InvoiceDrafts.edit_total_cents edit) ∧
  (∀ date, InvoiceDrafts.edit_due_date edit = Some date → date_shape_invalid date = false).
Proof.
  intros Hnow. unfold InvoiceDrafts.checked_edit. destruct (is_empty (take_chars 200 (trim name))) eqn:Hn; [done|]. cbn [guard_err mbind Result_bind].
  destruct (option_any _ _) eqn:He; [done|]. cbn [guard_err mbind Result_bind].
  destruct (InvoiceDrafts.edited_date _ _) as [date|] eqn:Hd; [|done]. cbn [guard_err mbind Result_bind].
  destruct (bool_decide (lines = []) || _) eqn:Hlines; [done|]. cbn [guard_err mbind Result_bind].
  unfold InvoiceLines.recompute_totals. destruct (InvoiceLines.recompute_from 0 _) as [[items total]|] eqn:Hr; [|done]. intros [= <-]. simpl.
  apply recompute_adds in Hr as [Hadds Hsame]; [|done]. split; [|split; [|split]].
  - apply cut_not_blank. by intros Ht; rewrite Ht in Hn.
  - intros e Hs. rewrite Hs in He. simpl in He. apply orb_false_iff in He as [He _]. apply negb_false_iff in He.
    unfold InvoiceDrafts.non_blank in Hs. apply bind_Some in Hs as (raw & Hraw & Hs). destruct (is_empty raw); [done|]. injection Hs as <-.
    destruct email; [|done]. injection Hraw as <-. by rewrite trim_idemp.
  - apply orb_false_iff in Hlines as [Hne _]. apply bool_decide_eq_false in Hne. split; [| |done].
    + intros ->. apply (f_equal length) in Hsame. rewrite !length_fmap, length_imap in Hsame. by destruct lines.
    + apply (numbered_same _ _ Hsame), Forall_forall. intros line Hin. apply elem_of_lookup_imap in Hin as (i & raw & -> & _). simpl. lia.
  - intros d ->. unfold InvoiceDrafts.edited_date in Hd. destruct (InvoiceDrafts.non_blank due) as [raw|]; [|done].
    destruct (normalize_civil_date raw _) as [r|] eqn:Hnorm; [|done]. injection Hd as <-. apply real_date_shape. eapply accepted_real; [|exact Hnorm].
    intros c Hc. injection Hc as <-. exact (from_epoch_good now "UTC" Hnow).
Qed.

Lemma staged_word status : InvoiceDrafts.require_staged status = Ok tt → status = "staged"%string.
Proof. unfold InvoiceDrafts.require_staged. destruct (string_eqb status "staged") eqn:E; [|done]. by apply string_eqb_true in E. Qed.

(** An early return leaves the drafts as they are. *)
Lemma lift_good {A B} (r : Result StoreError.t A) (k : A → AppOp B) db :
  invoices_good db → (∀ a, r = Ok a → invoices_good (k a db).2) → invoices_good (op_bind (op_lift r) k db).2.
Proof. intros Hg Hk. unfold op_bind, op_lift. destruct r as [a|e]; [by apply Hk|done]. Qed.

Lemma edit_call_good ctx id name email due memo lines db :
  before_9999 (scoped_now_ms ctx) → invoices_good db →
  invoices_good (InvoiceDrafts.update_draft constraint_failed value_text lines_json parse_lines parse_provenance result_fields ctx id
    name email due memo lines db).2.
Proof using lines_back.
  intros Hnow Hg. unfold InvoiceDrafts.update_draft, InvoiceDrafts.require_draft.
  unfold op_bind at 1 2, read_tables at 1. destruct (drafts db !! (scoped_client_id ctx, id)) as [row|] eqn:Hrow; [|done].
  unfold op_bind at 1, op_lift at 1. cbn [ok_or]. destruct (OperatorScope.require_source_user _ _) as [u|e]; [|done].
  unfold op_bind at 1, op_lift at 1, op_ret at 1. cbn [fst snd]. apply lift_good; [done|]. intros [] Hst%staged_word.
  apply lift_good; [done|]. intros edit He%edit_call_spec; [|done]. destruct He as (Hn & Hem & Hl & Hd).
  unfold op_bind at 1, read_tables. rewrite Hrow. apply lift_good; [done|]. intros row' [= <-].
  destruct (table_rows _ _ (proj2 (proj1 Hg)) (scoped_client_id ctx, id) row Hrow) as [Hk Hs Ha _ _ Hcur _ _ _].
  eapply good_change; [done|exact Hrow| |done|done]. split; try done. simpl. eexists. split; [apply lines_back|done].
Qed.

Lemma enrich_call_good ctx id apply db :
  call_allowed (CEnrich ctx id apply) → invoices_good db →
  invoices_good (InvoiceDrafts.apply_customer_enrichment constraint_failed value_text to_lowercase provenance_json parse_lines
    parse_provenance result_fields ctx id apply db).2.
Proof.
  intros Hfits Hg. unfold InvoiceDrafts.apply_customer_enrichment.
  unfold op_bind at 1, read_tables. destruct (drafts db !! (scoped_client_id ctx, id)) as [row|] eqn:Hrow; [|done].
  apply lift_good; [done|]. intros row' [= <-]. apply lift_good; [done|]. intros [] _. apply lift_good; [done|]. intros [] Hst%staged_word.
  destruct (table_rows _ _ (proj2 (proj1 Hg)) (scoped_client_id ctx, id) row Hrow) as [Hk Hs Ha Hc He Hcur Hl Hsub Hd].
  destruct (InvoiceDrafts.enriched_name _ _ _ _) as [[name_changed name] provenance] eqn:Hname.
  destruct (InvoiceDrafts.enriched_email _ _ _) as [[email_changed email] provenance'] eqn:Hemail. case_match; [done|].
  assert (Hn : is_blank name = false).
  { unfold InvoiceDrafts.enriched_name in Hname. destruct (InvoiceDrafts.apply_customer_name apply) as [incoming|]; [|by injection Hname as _ <- _].
    destruct (_ && _) eqn:Hmay; [|by injection Hname as _ <- _]. injection Hname as _ <- _. apply cut_not_blank. intros Ht. by rewrite Ht in Hmay. }
  assert (Hem : email_named email).
  { unfold InvoiceDrafts.enriched_email in Hemail. destruct (InvoiceDraftRow.customer_email row) as [e0|] eqn:He0; [injection Hemail as _ <- _; done|].
    destruct (InvoiceDrafts.apply_customer_email apply) as [incoming|] eqn:Hin; [|by injection Hemail as _ <- _].
    destruct (has_char "@" (trim (InvoiceDrafts.value incoming))) eqn:Hat; [|by injection Hemail as _ <- _]. simpl in Hemail.
    destruct (negb _); [|by injection Hemail as _ <- _]. injection Hemail as _ <- _. intros e [= <-]. by apply Hfits. }
  match goal with |- context [mutate constraint_failed ?request (update_draft_row _ ?client _ ?f)] =>
    pose proof (good_change request client id f row db Hg Hrow ltac:(by split) eq_refl Hst) as Hgood end.
  unfold op_map, op_bind. by destruct (mutate _ _ _ db) as [[o|e] db'].
Qed.

Lemma invoice_get_reads c id scope db :
  (InvoiceDrafts.get_draft parse_lines parse_provenance result_fields c id scope db).2 = db.
Proof.
  unfold InvoiceDrafts.get_draft, get_draft_scoped, op_bind, op_get, op_lift, read_row. change (draft_rows (tables db)) with (drafts db).
  destruct (drafts db !! (c, id)) as [row|]; [|done]. cbn.
  destruct (OperatorScope.matches_source_user scope (InvoiceDraftRow.source_user_id row)); [|done]. cbn.
  unfold op_map, attach_invoice_job, op_bind. cbn. by destruct (InvoiceDraftRow.outbox_job_id row).
Qed.

(** The gate reads only. *)
Lemma approve_gate ctx id job db :
  InvoiceDrafts.approve_draft constraint_failed parse_lines parse_provenance result_fields ctx id job db
  = approve constraint_failed (scoped_draft_context ctx) INVOICE_TABLE id (Some job) db ∨
  ∃ e, InvoiceDrafts.approve_draft constraint_failed parse_lines parse_provenance result_fields ctx id job db = (Err e, db).
Proof.
  unfold InvoiceDrafts.approve_draft, InvoiceDrafts.require_draft. unfold op_bind, read_tables, op_lift, op_ret.
  destruct (drafts db !! (scoped_client_id ctx, id)) as [row|]; cbn [ok_or]; [|right; by eexists].
  destruct (OperatorScope.require_source_user _ _) as [u|e]; [|right; by exists e].
  destruct (InvoiceDrafts.require_staged _) as [u1|e]; [|right; by exists e].
  destruct (guard_err (bool_decide _) _) as [u2|e]; [|right; by exists e].
  destruct (guard_err (_ <=? 0)%Z _) as [u3|e]; [by left|right; by exists e].
Qed.

Lemma approve_keeps_row k job_id now row : invoice_row k row → invoice_row k (InvoiceDraftRow.approve row job_id now).
Proof. intros []. split; try done. right; by left. Qed.

Lemma reject_keeps_row k now row : invoice_row k row → InvoiceDraftRow.status row = "staged"%string →
  invoice_row k (InvoiceDraftRow.reject row now).
Proof.
  intros [? ? Ha] Hs. split; try done; [do 2 right; by left|]. simpl. split; [done|].
  intros Hj%Ha. by rewrite Hs in Hj.
Qed.

Lemma decide_call_good env ctx id action db : invoices_good db →
  invoices_good (InvoiceApproval.draft_action stripe_json ninja_json constraint_failed parse_lines parse_provenance result_fields env ctx id
    action db).2.
Proof.
  intros [Hg Hs]. pose proof (proj1 Hg) as Hwf. unfold InvoiceApproval.draft_action. case_match; [done|]. destruct action.
  - pose proof (invoice_get_reads (scoped_client_id ctx) id (scoped_scope ctx) db) as Hr.
    destruct (InvoiceDrafts.get_draft _ _ _ _ _ _ db) as [[[found|]|err] db0]; simpl in Hr; subst db0; [|done|done].
    destruct (InvoiceApproval.approval_job _ _ _ _ _) as [job|[status code]]; [|done].
    pose proof (good_approval INVOICE_TABLE constraint_failed invoice_row approve_keeps_row (scoped_draft_context ctx) id job db Hg) as Ha.
    pose proof (proj1 (decide_keeps (scoped_draft_context ctx) id job db Hwf Hs)) as Hk.
    destruct (approve_gate ctx id job db) as [->|[e ->]]; [|done]. by destruct (approve _ _ _ _ _ db).
  - pose proof (good_rejection INVOICE_TABLE constraint_failed invoice_row reject_keeps_row (scoped_draft_context ctx) id db Hg) as Ha.
    pose proof (proj2 (decide_keeps (scoped_draft_context ctx) id (NewOutboxJob.mk "" "" "" "" "" "" None None "") db Hwf Hs)) as Hk.
    unfold InvoiceDrafts.reject_draft. by destruct (reject _ _ _ _ db).
Qed.

Lemma settings_call_good c actor expected key days now db : invoices_good db →
  invoices_good (InvoiceApproval.update_invoice_settings constraint_failed days_json c actor expected key days now db).2.
Proof.
  intros Hg. unfold InvoiceApproval.update_invoice_settings. case_match; [done|].
  cut (invoices_good (InvoiceDrafts.replace_invoice_settings constraint_failed days_json c actor expected key days now db).2).
  { by destruct (InvoiceDrafts.replace_invoice_settings _ _ _ _ _ _ _ _ db). }
  unfold InvoiceDrafts.replace_invoice_settings. apply lift_good; [done|]. intros [] Hd. unfold InvoiceDrafts.store_invoice_settings.
  assert (Hget : ∃ settings, InvoiceDrafts.get_invoice_settings c db = (Ok settings, db)).
  { unfold InvoiceDrafts.get_invoice_settings, op_bind, read_tables, current_revision, op_ret.
    destruct (invoice_settings (money (tables db)) !! c); by eexists. }
  destruct Hget as [settings Hget]. erewrite op_bind_step by exact Hget. destruct Hg as [Hg Hs]. split.
  - apply good_mutation; [done|apply slice_write_spares_receipts, slice_write_update|]. intros db1 [= <-].
    eapply table_wf_rows; [|exact (proj2 Hg)]. done.
  - apply mutate_keeps_settings; [|apply slice_write_spares_receipts, slice_write_update|by destruct Hg|done].
    intros db1 Hs1 client row d. simpl. destruct (decide (client = c)) as [->|Hne]; [|rewrite lookup_insert_ne by done; apply Hs1].
    rewrite lookup_insert_eq. intros [= <-]. simpl. destruct days as [n|]; [|done]. intros [= <-]. simpl in Hd.
    destruct (negb _) eqn:Hr; [done|]. apply negb_false_iff in Hr. lia.
Qed.

Lemma calls_good calls db : Forall call_allowed calls → invoices_good db → invoices_good (call_all db calls).
Proof using lines_back.
  intros Hcalls. revert db. induction Hcalls as [|call calls Ha Hcs IH]; intros db Hg; [done|]. simpl. apply IH.
  destruct call as [c actor item internal ingested source response context model attempt key now|ctx id apply
    |ctx id name email due memo lines|env ctx id action|c actor expected key days now|f]; simpl.
  - destruct Ha as (? & ? & ?). by apply stage_call_good.
  - by apply enrich_call_good.
  - unfold InvoiceApproval.draft_update. case_match; [done|].
    pose proof (edit_call_good ctx id name email due memo lines db Ha Hg) as He. by destruct (InvoiceDrafts.update_draft _ _ _ _ _ _ _ _ _ _ _ _ _ db).
  - by apply decide_call_good.
  - by apply settings_call_good.
  - destruct Hg as [[Hsp Hwf] Hs]. destruct (Ha db Hsp) as (Hsp' & Hd & Hset). split; [split; [done|]|].
    + eapply table_wf_rows; [|exact Hwf]. exact Hd.
    + intros client row d Hrow. rewrite Hset in Hrow. by apply (Hs client row d).
Qed.

(** ** What an approval hands to the outbox *)

Lemma invoice_approval_complete draft actor now :
  is_blank actor = false → before_9999 now → is_complete (InvoiceApproval.approval_of draft actor now) = true.
Proof. intros Ha Hn. unfold is_complete. cbn -[is_blank Calendar.epoch_ms_to_rfc3339_utc]. by rewrite Ha, instant_not_blank, prefix_not_blank by done. Qed.

(** The row as the route reads it. *)
Abbreviation read_draft row := (invoice_draft (invoice_from_row parse_lines parse_provenance row 0)).

Lemma stripe_valid k row email actor now :
  invoice_row k row → InvoiceDrafts.non_blank (InvoiceDraftRow.customer_email row) = Some email → is_blank actor = false → before_9999 now →
  StripeWrite.validate_invoice_draft (InvoiceApproval.stripe_payload (read_draft row) email actor now) = Ok tt.
Proof.
  intros [_ _ _ Hc He Hcur (lines & Hparse & [Hne Hnum Hadds]) Hsub _] Hemail Hactor Hnow. unfold StripeWrite.validate_invoice_draft.
  cbn -[is_blank is_complete StripeWrite.validate_lines]. rewrite (invoice_approval_complete _ _ _ Hactor Hnow). unfold InvoiceApproval.job_key.
  rewrite prefix_not_blank, Hc, Hcur, Hsub, Hparse by done.
  unfold InvoiceDrafts.non_blank in Hemail. apply bind_Some in Hemail as (raw & Hraw & Hr). destruct (is_empty raw) eqn:Hempty; [done|].
  injection Hr as <-. destruct (InvoiceDraftRow.customer_email row) as [e|] eqn:Hee; [|done]. injection Hraw as <-.
  unfold is_blank at 1. rewrite trim_idemp, Hempty, (He e eq_refl). destruct (adds_bounds _ _ _ Hadds) as [_ Hpos]. specialize (Hpos Hne).
  rewrite !cents_u64_of by lia. cbn [default from_option]. unfold id. 
  assert (Hlines : bool_decide (InvoiceApproval.stripe_line <$> lines = []) = false).
  { apply bool_decide_eq_false. by intros ->%fmap_nil_inv. }
  rewrite Hlines. destruct (N.eqb_spec (Z.to_N (InvoiceDraftRow.total_cents row)) 0); [lia|]. cbn [negb orb].
  change 0%N with (Z.to_N 0). rewrite (stripe_lines 0 lines _ ltac:(lia) Hnum Hadds). cbn [mbind Result_bind]. by rewrite N.eqb_refl.
Qed.

Lemma ninja_valid k row email actor now :
  invoice_row k row → InvoiceDrafts.non_blank (InvoiceDraftRow.customer_email row) = Some email → is_blank actor = false → before_9999 now →
  NinjaWrite.validate_invoice_draft (InvoiceApproval.ninja_payload (read_draft row) email actor now)
  = if has_whitespace email then Err (NinjaWrite.Permanent "invoice_ninja_email_invalid" "customer email is malformed") else Ok tt.
Proof.
  intros [_ _ _ Hc He _ (lines & Hparse & [Hne Hnum Hadds]) Hsub Hdue] Hemail Hactor Hnow. unfold NinjaWrite.validate_invoice_draft.
  cbn -[is_blank is_complete NinjaWrite.validate_lines has_whitespace date_shape_invalid]. rewrite (invoice_approval_complete _ _ _ Hactor Hnow).
  unfold InvoiceApproval.job_key. rewrite prefix_not_blank, Hc, Hsub, Hparse by done.
  unfold InvoiceDrafts.non_blank in Hemail. apply bind_Some in Hemail as (raw & Hraw & Hr). destruct (is_empty raw) eqn:Hempty; [done|].
  injection Hr as <-. destruct (InvoiceDraftRow.customer_email row) as [e|] eqn:Hee; [|done]. injection Hraw as <-.
  rewrite (He e eq_refl). cbn [negb orb]. destruct (has_whitespace (trim e)); [done|].
  assert (Hd : option_any date_shape_invalid (InvoiceDraftRow.due_date row) = false).
  { destruct (InvoiceDraftRow.due_date row) as [d|]; [by apply Hdue|done]. }
  rewrite Hd. destruct (adds_bounds _ _ _ Hadds) as [_ Hpos]. specialize (Hpos Hne). cbn [default from_option]. unfold id.
  assert (Hlines : bool_decide (InvoiceApproval.ninja_line <$> lines = []) = false).
  { apply bool_decide_eq_false. by intros ->%fmap_nil_inv. }
  rewrite Hlines. destruct (Z.leb_spec (InvoiceDraftRow.total_cents row) 0); [lia|]. cbn [negb orb].
  rewrite (ninja_lines 0 lines _ ltac:(lia) Hadds). cbn [mbind Result_bind]. by rewrite Z.eqb_refl.
Qed.

(** What is behind a job. *)
Definition invoice_deliverable (provider job_payload : string) (row : InvoiceDraftRow.t) : Prop :=
  (provider = InvoiceApproval.PROVIDER_STRIPE ∧
   ∃ p, job_payload = stripe_json p ∧ StripeWrite.validate_invoice_draft p = Ok tt ∧
        StripeWrite.Payload.draft_ref p = InvoiceDraftRow.draft_id row ∧
        StripeWrite.Payload.customer_name p = InvoiceDraftRow.customer_name row ∧
        Z.of_N (StripeWrite.Payload.total_cents p) = InvoiceDraftRow.total_cents row) ∨
  (provider = LedgerApproval.PROVIDER_INVOICE_NINJA ∧
   ∃ p email, job_payload = ninja_json p ∧ NinjaWrite.InvoiceDraftPayload.customer_email p = Some email ∧
        NinjaWrite.InvoiceDraftPayload.draft_ref p = InvoiceDraftRow.draft_id row ∧
        NinjaWrite.InvoiceDraftPayload.customer_name p = InvoiceDraftRow.customer_name row ∧
        NinjaWrite.InvoiceDraftPayload.total_cents p = InvoiceDraftRow.total_cents row ∧
        NinjaWrite.validate_invoice_draft p
        = if has_whitespace email then Err (NinjaWrite.Permanent "invoice_ninja_email_invalid" "customer email is malformed") else Ok tt).

Lemma invoice_job_deliverable env ctx k row job :
  invoice_row k row → is_blank (scoped_actor_id ctx) = false → before_9999 (scoped_now_ms ctx) →
  InvoiceApproval.approval_job stripe_json ninja_json env ctx (read_draft row) = inl job →
  NewOutboxJob.job_id job = "obj_" +:+ InvoiceDraftRow.draft_id row ∧
  ∃ provider, configured_accounting_provider env = Ok provider ∧ invoice_deliverable provider (NewOutboxJob.payload_json job) row.
Proof.
  intros Hrow Hactor Hnow. unfold InvoiceApproval.approval_job. destruct (configured_accounting_provider env) as [provider|]; [|done].
  destruct (string_eqb provider InvoiceApproval.PROVIDER_STRIPE) eqn:Hs.
  - apply string_eqb_true in Hs as ->. unfold InvoiceApproval.build_approval_job.
    change (InvoiceDraft.customer_email (read_draft row)) with (InvoiceDraftRow.customer_email row).
    destruct (InvoiceDrafts.non_blank _) as [email|] eqn:He; [|by cbn [ok_or mbind Result_bind]]. cbn [ok_or mbind Result_bind].
    intros [= <-]. split; [done|]. exists InvoiceApproval.PROVIDER_STRIPE. split; [done|]. left. split; [done|].
    eexists. split; [reflexivity|]. split; [by eapply stripe_valid|]. split; [done|]. split; [done|]. simpl.
    destruct Hrow as [_ _ _ _ _ _ (lines & _ & [_ _ Hadds]) _ _]. apply adds_bounds in Hadds as [Hge _].
    rewrite cents_u64_of by done. by rewrite Z2N.id.
  - destruct (string_eqb provider LedgerApproval.PROVIDER_INVOICE_NINJA) eqn:Hn; [|done]. apply string_eqb_true in Hn as ->.
    unfold InvoiceApproval.build_invoice_ninja_approval_job.
    change (InvoiceDraft.customer_email (read_draft row)) with (InvoiceDraftRow.customer_email row).
    destruct (InvoiceDrafts.non_blank _) as [email|] eqn:He; [|by cbn [ok_or mbind Result_bind]]. cbn [ok_or mbind Result_bind].
    intros [= <-]. split; [done|]. exists LedgerApproval.PROVIDER_INVOICE_NINJA. split; [done|]. right. split; [done|].
    eexists _, email. split; [reflexivity|]. repeat (split; [done|]). by eapply ninja_valid.
Qed.

Lemma invoice_approval_found env ctx id db rid revision db' :
  InvoiceApproval.draft_action stripe_json ninja_json constraint_failed parse_lines parse_provenance result_fields env ctx id
    ApproveInvoice db = (LedgerApproval.Answered (Ok (MutationOutcome.Applied rid revision)), db') →
  ∃ row job, drafts db !! (scoped_client_id ctx, id) = Some row ∧
    OperatorScope.matches_source_user (scoped_scope ctx) (InvoiceDraftRow.source_user_id row) = true ∧
    InvoiceApproval.approval_job stripe_json ninja_json env ctx (read_draft row) = inl job ∧
    approve constraint_failed (scoped_draft_context ctx) INVOICE_TABLE id (Some job) db = (Ok (MutationOutcome.Applied rid revision), db').
Proof.
  unfold InvoiceApproval.draft_action. destruct (is_blank _); [done|].
  pose proof (invoice_get_reads (scoped_client_id ctx) id (scoped_scope ctx) db) as Hr.
  destruct (InvoiceDrafts.get_draft parse_lines parse_provenance result_fields (scoped_client_id ctx) id (scoped_scope ctx) db)
    as [[[found|]|err] db0] eqn:Hget; simpl in Hr; subst db0; [|done|done].
  unfold InvoiceDrafts.get_draft, get_draft_scoped, op_bind, op_get, op_lift, read_row in Hget.
  change (draft_rows (tables db)) with (drafts db) in Hget.
  destruct (drafts db !! (scoped_client_id ctx, id)) as [row|] eqn:Hrow; [|done]. cbn in Hget.
  destruct (OperatorScope.matches_source_user (scoped_scope ctx) (InvoiceDraftRow.source_user_id row)) eqn:Hscope; [|done].
  assert (Hfound : invoice_draft found = read_draft row).
  { cbn in Hget. unfold op_map, attach_invoice_job, op_bind in Hget. cbn in Hget.
    destruct (InvoiceDraftRow.outbox_job_id row) eqn:Ejob; cbn in Hget; inversion Hget; unfold invoice_from_row; simpl; by rewrite Ejob. }
  rewrite Hfound. destruct (InvoiceApproval.approval_job _ _ _ _ _) as [job|[status code]] eqn:Hjob; [|done].
  destruct (approve_gate ctx id job db) as [->|[e ->]]; [|done].
  destruct (approve _ _ _ id _ db) as [answer db1] eqn:Ha. intros [= -> ->]. by exists row, job.
Qed.

(** C4: Whatever drafts were staged, enriched, edited and decided and whatever else was
    done, one request after another, when an approval is answered as applied the draft was staged and within the
    operator's scope, and its job is in the outbox, pending, with the row's customer and
    total.  Its payload passes Stripe's validation; it passes Invoice Ninja's unless there
    is a blank inside the e-mail address, and is then refused there for good. *)
Theorem approved_invoice_is_deliverable env ctx id db0 calls rid revision db' :
  let db := call_all db0 calls in
  invoices_good db0 → Forall call_allowed calls → is_blank (scoped_actor_id ctx) = false → before_9999 (scoped_now_ms ctx) →
  InvoiceApproval.draft_action stripe_json ninja_json constraint_failed parse_lines parse_provenance result_fields env ctx id
    ApproveInvoice db = (LedgerApproval.Answered (Ok (MutationOutcome.Applied rid revision)), db') →
  ∃ row j provider,
    drafts db !! (scoped_client_id ctx, id) = Some row ∧ InvoiceDraftRow.status row = "staged"%string ∧
    OperatorScope.matches_source_user (scoped_scope ctx) (InvoiceDraftRow.source_user_id row) = true ∧
    jobs db' !! (scoped_client_id ctx, "obj_" +:+ id) = Some j ∧ Job.status j = STATUS_PENDING ∧
    configured_accounting_provider env = Ok provider ∧ invoice_deliverable provider (Job.payload_json j) row.
Proof using lines_back.
  intros db Hg0 Hcalls Hactor Hnow Happ. destruct (calls_good calls db0 Hcalls Hg0) as [Hg _]. fold db in Hg.
  apply invoice_approval_found in Happ as (row & job & Hrow & Hscope & Hjob & Ha).
  pose proof (table_rows _ _ (proj2 Hg) (scoped_client_id ctx, id) row Hrow) as Hwf. destruct (invoice_key _ _ Hwf) as [_ Hid]. simpl in Hid.
  pose proof (approve_cases INVOICE_TABLE constraint_failed (scoped_draft_context ctx) id job db (proj1 Hg) (table_active _ _ (proj2 Hg))) as Hc.
  rewrite Ha in Hc. inversion Hc as [| | | | | |row' j db'' ? ? Haw Hf Hx Hn Hrows Hfresh Hpay Hjobs]; subst.
  destruct Haw as (Hrow' & _ & Hst). change (drafts db !! (scoped_client_id ctx, InvoiceDraftRow.draft_id row) = Some row') in Hrow'.
  rewrite Hrow in Hrow'. injection Hrow' as <-.
  destruct (invoice_job_deliverable env ctx _ row job Hwf Hactor Hnow Hjob) as (Hjid & provider & Hprov & Hdel).
  exists row, j, provider. split; [done|]. split; [done|]. split; [done|].
  split; [rewrite Hjobs, <- Hjid; apply lookup_insert_eq|]. split; [by destruct Hfresh as (_ & _ & ? & _)|].
  split; [done|]. by rewrite Hpay.
Qed.
End invoices.

(** ** Two lines with one number *)

Section shared.
Context {W : Type} (to_lowercase : string → string).
Context (get_form : string → list (string * string) → string → Op W AccountingError StripeWrite.StripeHttpResponse)
  (post_form : string → list (string * string) → string → string → Op W AccountingError StripeWrite.StripeHttpResponse)
  (secret_key : string) (remembered : W → string → option (string * list (string * string))).
Context (server : StripeServer post_form secret_key remembered).

(** An answer of the model: two lines numbered 1, each with its quote. *)
Definition answered_line (label : string) (dollars : N) : Json.Value :=
  Json.Obj [("line_number", Json.Int 1); ("label", Json.Str label); ("unit_amount_cents", Json.Int (Z.of_N dollars * 100))]%string.
Definition answered_quote (dollars : N) : Json.Value :=
  Json.Obj [("field", Json.Str "line_1_amount"); ("quote", Json.Str (partial_quote "" dollars ""))]%string.
Definition answer_of (customer email label1 label2 : string) (dollars1 dollars2 : N) : Json.Value :=
  Json.Obj [("customer_name", Json.Str customer); ("customer_email", Json.Str email); ("confidence", Json.Str "high");
            ("line_items", Json.Arr [answered_line label1 dollars1; answered_line label2 dollars2]);
            ("provenance", Json.Arr [answered_quote dollars1; answered_quote dollars2])]%string.

(** A text the readers of an answer take as it is. *)
Definition plain_text (s : string) : Prop := trim s = s ∧ s ≠ "" ∧ s ≠ "null".

Lemma plain_field key text fields : Json.get key (Json.Obj fields) = Some (Json.Str text) → plain_text text →
  Json.string_field (Json.Obj fields) key = Some text.
Proof.
  intros Hget (Htrim & Hne & Hnull). unfold Json.string_field. rewrite Hget. cbn [mbind option_bind Json.as_str]. rewrite Htrim.
  destruct text as [|a text]; [done|]. simpl is_empty. cbn [negb andb]. destruct (string_eqb _ _) eqn:He; [by apply string_eqb_true in He|done].
Qed.

Lemma plain_cut n text : plain_text text → is_blank (take_chars (S n) text) = false.
Proof. intros (Ht & Hne & _). rewrite <- Ht at 1. apply cut_not_blank. by rewrite Ht. Qed.

Lemma quoted_entry dollars : (String.length (partial_quote "" dollars "") ≤ 300)%nat →
  InvoiceFill.provenance_entry (answered_quote dollars) = Some (Build_DraftFieldProvenance "line_1_amount" (partial_quote "" dollars "")).
Proof.
  intros Hlen. unfold InvoiceFill.provenance_entry, answered_quote.
  change (Json.get "field" _) with (Some (Json.Str "line_1_amount")). change (Json.get "quote" _) with (Some (Json.Str (partial_quote "" dollars ""))).
  cbn [mbind option_bind Json.as_str from_option]. unfold id. pose proof (partial_visible "" dollars "" eq_refl eq_refl) as Hvis.
  rewrite (trim_visible (partial_quote "" dollars "")), take_chars_visible by done.
  unfold take_bytes. rewrite firstn_all2 by (by rewrite length_list_ascii). by rewrite String.string_of_list_ascii_of_string.
Qed.

Lemma answered_item provenance index label dollars :
  Build_DraftFieldProvenance "line_1_amount" (partial_quote "" dollars "") ∈ provenance → plain_text label →
  (0 < dollars < 92233720368547758)%N →
  InvoiceFill.fill_line provenance index (answered_line label dollars)
  = Ok (DraftLine.mk 1 (take_chars 200 label) None 1 (Z.of_N dollars * 100) 0).
Proof.
  intros Hin Hlabel Hd. unfold InvoiceFill.fill_line.
  assert (Hf : Json.string_field (answered_line label dollars) "label" = Some label) by by apply plain_field.
  rewrite Hf. change (Json.get "line_number" (answered_line label dollars)) with (Some (Json.Int 1)).
  change (Json.get "unit_amount_cents" (answered_line label dollars)) with (Some (Json.Int (Z.of_N dollars * 100))).
  change (Json.get "quantity" (answered_line label dollars)) with (@None Json.Value).
  change (Json.string_field (answered_line label dollars) "description") with (@None string).
  cbn [mbind option_bind Json.as_u64]. change (in_range 0 18446744073709551615 1) with (Some 1%Z). cbn [mbind option_bind].
  change (as_u32 1) with 1%N. cbn [N.ltb N.compare Pos.compare default from_option ok_or mbind Result_bind]. unfold id.
  assert (Hi : Json.as_i64 (Json.Int (Z.of_N dollars * 100)) = Some (Z.of_N dollars * 100)%Z) by (apply in_range_spec; split; [done|lia]).
  rewrite Hi. cbn [mbind option_bind]. rewrite (proj2 (Z.ltb_lt 0 (Z.of_N dollars * 100))) by lia. cbn [ok_or mbind Result_bind].
  assert (Hg : InvoiceFill.line_grounded provenance 1 (Z.of_N dollars * 100) = true).
  { apply existsb_exists. eexists. split; [by apply list_elem_of_In|]. cbn [field quote]. rewrite partial_contains by done. done. }
  rewrite Hg. done.
Qed.

Definition answered_draft_line (label : string) (dollars : N) : DraftLine.t :=
  DraftLine.mk 1 (take_chars 200 label) None 1 (Z.of_N dollars * 100) (Z.of_N dollars * 100).

Lemma answered_recomputed start label dollars rest :
  plain_text label → (0 < dollars)%N → (0 ≤ start)%Z → (start + Z.of_N dollars * 100 ≤ i64_max)%Z →
  InvoiceLines.recompute_from start (DraftLine.mk 1 (take_chars 200 label) None 1 (Z.of_N dollars * 100) 0 :: rest)
  = ('(lines, total) ← InvoiceLines.recompute_from (start + Z.of_N dollars * 100) rest;
     Ok (answered_draft_line label dollars :: lines, total)).
Proof.
  intros Hl Hd Hs Hm. cbn [InvoiceLines.recompute_from]. unfold InvoiceLines.recomputed_line.
  cbn [DraftLine.label DraftLine.quantity DraftLine.unit_amount_cents DraftLine.line_number DraftLine.description].
  rewrite (plain_cut 199) by done. cbn [N.eqb N.ltb N.compare Pos.compare Pos.compare_cont orb].
  destruct (Z.leb_spec (Z.of_N dollars * 100) 0); [lia|]. unfold checked_mul_i64, checked_add_i64. rewrite Z.mul_1_l.
  assert (Hr : ∀ v, (0 ≤ v ≤ i64_max)%Z → in_range i64_min i64_max v = Some v).
  { intros v Hv. apply in_range_spec. unfold i64_min, i64_max in *. lia. }
  rewrite (Hr (Z.of_N dollars * 100)%Z) by lia. cbn [ok_or mbind Result_bind DraftLine.line_total_cents].
  by rewrite (Hr (start + Z.of_N dollars * 100)%Z) by lia.
Qed.

(** C16: A model's answer may number two lines alike.  It is accepted, the draft's payload
    passes Stripe's validation - and is never delivered: the two lines share an idempotency
    key, which Stripe answers for one request only, so every delivery ends in an error
    after the invoice and its first line were made. *)
Theorem shared_line_number_stuck customer email label1 label2 dollars1 dollars2 context item attempt model actor now later :
  plain_text customer → plain_text email → InvoiceFill.valid_email_shape email = true → plain_text label1 → plain_text label2 →
  (0 < dollars1)%N → (0 < dollars2)%N → dollars1 ≠ dollars2 → (dollars1 + dollars2 < 92233720368547758)%N →
  (String.length (partial_quote "" dollars1 "") ≤ 300)%nat → (String.length (partial_quote "" dollars2 "") ≤ 300)%nat →
  is_blank actor = false → before_9999 later →
  ∃ fill, InvoiceFill.parse_invoice_fill_response_with_context (answer_of customer email label1 label2 dollars1 dollars2) context = Ok fill ∧
    let payload := InvoiceApproval.stripe_payload (InvoiceFill.draft_from_fill item fill attempt model now) email actor later in
    StripeWrite.validate_invoice_draft payload = Ok tt ∧
    ∀ w, ∃ e, (StripeWrite.create_invoice_draft to_lowercase get_form post_form secret_key payload w).1 = Err e.
Proof using server.
  intros Hc Hemail Hshape Hl1 Hl2 H1 H2 Hne Hsum Hlen1 Hlen2 Hactor Hlater.
  set (lines := [answered_draft_line label1 dollars1; answered_draft_line label2 dollars2]).
  set (total := (0 + Z.of_N dollars1 * 100 + Z.of_N dollars2 * 100)%Z).
  set (provenance := [Build_DraftFieldProvenance "line_1_amount" (partial_quote "" dollars1 "");
                      Build_DraftFieldProvenance "line_1_amount" (partial_quote "" dollars2 "")]).
  assert (Hr : InvoiceLines.recompute_from 0 [DraftLine.mk 1 (take_chars 200 label1) None 1 (Z.of_N dollars1 * 100) 0;
                                              DraftLine.mk 1 (take_chars 200 label2) None 1 (Z.of_N dollars2 * 100) 0] = Ok (lines, total)).
  { rewrite answered_recomputed by (done || (unfold i64_max; lia)). rewrite answered_recomputed by (done || (unfold i64_max; lia)). done. }
  set (fill := InvoiceFill.Build_InvoiceFill (take_chars 200 customer) (Some email) lines None "" "high" provenance). exists fill. split.
  - unfold InvoiceFill.parse_invoice_fill_response_with_context. set (answer := answer_of customer email label1 label2 dollars1 dollars2).
    assert (Hcf : Json.string_field answer "customer_name" = Some customer) by by apply plain_field.
    assert (Hef : Json.string_field answer "customer_email" = Some email) by by apply plain_field.
    rewrite Hcf, Hef. cbn [ok_or mbind Result_bind option_bind]. rewrite Hshape.
    change (Json.string_field answer "due_date") with (@None string). cbn [InvoiceFill.fill_date mbind Result_bind].
    change (Json.string_field answer "confidence") with (Some "high"%string). cbn [mbind option_bind].
    change (FollowUpFill.known_confidence "high") with (Some "high"%string). cbn [ok_or mbind Result_bind].
    change (Json.string_field answer "memo") with (@None string).
    change (Json.get "provenance" answer) with (Some (Json.Arr [answered_quote dollars1; answered_quote dollars2])).
    change (Json.get "line_items" answer) with (Some (Json.Arr [answered_line label1 dollars1; answered_line label2 dollars2])).
    cbn [mbind option_bind Json.as_array fmap option_fmap option_map from_option omap list_omap ok_or Result_bind].
    rewrite !quoted_entry by done. fold provenance. unfold id. cbn [length Nat.ltb Nat.leb]. case_bool_decide as Hnil; [done|].
    cbn [InvoiceFill.fill_lines]. rewrite (answered_item _ _ label1) by (done || lia || by left). cbn [mbind Result_bind].
    rewrite (answered_item _ _ label2) by (done || lia || by right; left). cbn [mbind Result_bind].
    unfold InvoiceLines.recompute_totals. rewrite Hr. done.
  - assert (Hadds : filled_line_items lines total).
    { split; [done|by repeat constructor|]. exact (proj1 (recompute_adds 0 _ lines total ltac:(lia) Hr)). }
    intros payload. split.
    + set (draft := InvoiceFill.draft_from_fill item fill attempt model now).
      refine (stripe_valid (fun _ => Some lines) (fun _ => None) ("", InvoiceDraft.draft_id draft)%string
                (InvoiceDrafts.staged_row (fun _ => "") (fun _ => "") "" draft)%string email actor later _ _ Hactor Hlater).
      * split; simpl; try done; [by left|by apply (plain_cut 199)| |].
        { intros e [= <-]. unfold InvoiceFill.valid_email_shape in Hshape. destruct Hemail as (-> & _). by apply andb_true_iff in Hshape as [-> _]. }
        exists lines. split; [done|]. rewrite (wrap_small (0 + _)) by lia. rewrite wrap_small by lia. done.
      * unfold InvoiceDrafts.non_blank. simpl. destruct Hemail as (-> & Hem & _). by destruct email.
    + intros w. apply (shared_key_never_invoiced to_lowercase get_form post_form secret_key payload remembered server
        (InvoiceApproval.stripe_line (answered_draft_line label1 dollars1)) (InvoiceApproval.stripe_line (answered_draft_line label2 dollars2)));
        [by left|by right; left|done|].
      simpl. rewrite !cents_u64_of by lia. lia.
Qed.
End shared.

(** ** Small instances *)

Lemma shared_line_number_stuck_witness :
  ∃ payload, StripeWrite.validate_invoice_draft payload = Ok tt ∧ length (StripeWrite.Payload.line_items payload) = 2%nat ∧
    ∃ e, (StripeWrite.create_invoice_draft (fun s => s) stripe_get stripe_post "" payload []).1 = Err e.
Proof.
  destruct (shared_line_number_stuck (fun s => s) stripe_get stripe_post "" seen_under stripe_server
    "Acme Ltd" "pay@acme.test" "Work" "Travel" 50 25 None demo_item 1 "model" "user_ada" 1780000000000 1781000000000) as (fill & Hf & Hv & Hs);
    [by split; [reflexivity|split]|by split; [reflexivity|split]|reflexivity|by split; [reflexivity|split]|by split; [reflexivity|split]
    |reflexivity|reflexivity|discriminate|reflexivity|by vm_compute; lia|by vm_compute; lia|reflexivity|reflexivity|].
  eexists. split; [exact Hv|]. split; [|exact (Hs [])].
  assert (Hl : InvoiceFill.fill_line_items <$> (match InvoiceFill.parse_invoice_fill_response_with_context
    (answer_of "Acme Ltd" "pay@acme.test" "Work" "Travel" 50 25) None with Ok f => Some f | Err _ => None end)
    = Some [answered_draft_line "Work" 50; answered_draft_line "Travel" 25]) by (vm_compute; reflexivity).
  rewrite Hf in Hl. injection Hl as Hl. simpl. rewrite Hl. reflexivity.
Defined.

Abbreviation LineFields := (N * string * option string * N * Z * Z)%type.
Definition line_fields (line : DraftLine.t) : LineFields :=
  (DraftLine.line_number line, DraftLine.label line, DraftLine.description line, DraftLine.quantity line,
   DraftLine.unit_amount_cents line, DraftLine.line_total_cents line).
Definition of_fields (t : LineFields) : DraftLine.t :=
  let '(number, label, description, quantity, unit, total) := t in DraftLine.mk number label description quantity unit total.
Definition demo_lines_json (lines : list DraftLine.t) : string := bits (encode (line_fields <$> lines)).
Definition demo_parse_lines (text : string) : option (list DraftLine.t) :=
  map of_fields <$> decode (A:=list LineFields) (of_bits text).

Lemma demo_lines_back lines : demo_parse_lines (demo_lines_json lines) = Some lines.
Proof.
  unfold demo_parse_lines, demo_lines_json. rewrite of_bits_bits, decode_encode. simpl. f_equal.
  induction lines as [|[] lines IH]; [done|]. simpl. f_equal. exact IH.
Qed.

Definition demo_no_party (_ : Json.Value) : option InvoiceFill.ResolvedParty.t := None.
Definition demo_days_json (_ : option N) : string := "null".
Definition demo_lowercase (s : string) : string := s.
Definition demo_invoice_json (_ : InvoiceDraft.t) : string := "{}".
Definition demo_stripe (p : StripeWrite.Payload.t) : string := StripeWrite.Payload.customer_name p.
Definition demo_ninja (p : NinjaWrite.InvoiceDraftPayload.t) : string := NinjaWrite.InvoiceDraftPayload.customer_name p.
Definition demo_invoice_calls : list InvoiceCall :=
  [CSettings "acme" "user_ada" None "settings-1" (Some 30%N) 1780000000000;
   CStage "acme" "user_ada" demo_item (Some 1780000000000%Z) 1780000000000 "Work on the store"
     (answer_of "acme.test" "pay@acme.test" "Work" "Travel" 50 25) (Json.Obj []) "model" 1 "stage-1" 1780000000000;
   CEdit (demo_ctx "edit-1") "inv_wi_1_1" "Acme Ltd" (Some "pay@acme.test"%string) (Some "2026-07-01"%string) ""
     [answered_draft_line "Work" 60]].
Abbreviation demo_invoices db :=
  (call_all demo_lines_json demo_parse_lines no_provenance no_fields "UNIQUE" demo_value demo_lowercase demo_invoice_json
     demo_provenance_json demo_no_party demo_days_json demo_stripe demo_ninja db demo_invoice_calls).
Abbreviation demo_approve_invoice db :=
  (InvoiceApproval.draft_action demo_stripe demo_ninja "UNIQUE" demo_parse_lines no_provenance no_fields demo_env
     (demo_ctx "approve-1") "inv_wi_1_1" ApproveInvoice db).

Lemma invoice_demo_allowed : Forall call_allowed demo_invoice_calls.
Proof.
  apply Forall_cons; split; [done|]. apply Forall_cons; split; [split; [by vm_compute|split; [by vm_compute|done]]|].
  apply Forall_cons; split; [by vm_compute|]. by apply Forall_nil.
Qed.

Lemma invoice_demo_good : invoices_good demo_parse_lines no_provenance no_fields demo_new.
Proof. split; [split; [apply spine_wf_new|by split]|]. done. Qed.

Lemma approved_invoice_is_deliverable_witness :
  ∃ j (db' : AppDb), jobs db' !! ("acme", "obj_inv_wi_1_1")%string = Some j ∧ Job.payload_json j = "Acme Ltd"%string.
Proof.
  destruct (demo_approve_invoice (demo_invoices demo_new)) as [answer db'] eqn:Ha.
  assert (He : answer = LedgerApproval.Answered (Ok (MutationOutcome.Applied "rcpt_000000000004" 3))).
  { change answer with (answer, db').1. rewrite <- Ha. vm_compute. reflexivity. }
  subst answer.
  destruct (approved_invoice_is_deliverable demo_lines_json demo_parse_lines no_provenance no_fields demo_lines_back "UNIQUE" demo_value
    demo_lowercase demo_invoice_json demo_provenance_json demo_no_party demo_days_json demo_stripe demo_ninja demo_env (demo_ctx "approve-1")
    "inv_wi_1_1" demo_new demo_invoice_calls _ _ db' invoice_demo_good invoice_demo_allowed eq_refl eq_refl Ha)
    as (row & j & provider & Hrow & _ & _ & Hj & _ & Hp & Hd).
  match type of Hrow with ?stored = _ =>
    assert (Hpay : InvoiceDraftRow.customer_name <$> stored = Some "Acme Ltd"%string) by (vm_compute; reflexivity) end.
  rewrite Hrow in Hpay. injection Hpay as Hpay. clear Hrow Ha.
  exists j, db'. split; [exact Hj|]. destruct Hd as [[Hs _]|(_ & p & email & -> & _ & _ & Hname & _)].
  - injection Hp as <-. discriminate Hs.
  - unfold demo_ninja. rewrite Hname. exact Hpay.
Defined.
