(* ===== verification/CalendarDrafts.v ===== *)
(** * Calendar drafts ([bos-app/src/slices/calendar_drafts/])

    An event, read from an e-mail by a model whose answer is checked, is staged as a draft,
    edited, and approved or rejected.  Approving it enqueues the creation of the event at
    Google Calendar with the credential of the draft's owner.

    The table is one of the interface of DraftStore.v.  [draft_json], [attendees_json],
    [provenance_json], [value_text] and [payload_json] are serde's texts and
    [parse_attendees], [parse_provenance], [parse_value] and [parse_payload] read them back.
    The handlers are after authentication.  The request to the model and the text of the
    message ([evidence]) are not made here; what other slices know - a note's author, the
    credential that acts for a user, the write gate - is a parameter. *)

From S2P Require Import Prelude RustStd Ids Errors RustStr StoreCore AppOutbox Identity AccountingRecords Schema Operators WorkItems WorkQueue Calendar DateInput DraftStore Json ProviderWrites GoogleCalendar FollowUpTasks LedgerDrafts.
Import Spine DateInput GoogleCalendar.

(** ** Data *)

(* src: crates/bos-contracts/src/calendar_drafts.rs:11-17 CalendarDraftStatus *)
Inductive CalendarDraftStatus := CalendarStaged | CalendarApproved | CalendarRejected.

Module CalendarDraft.
(* src: crates/bos-contracts/src/calendar_drafts.rs:28-72 CalendarEventDraft *)
Record t := mk {
  draft_id : string;
  item_id : string;
  source_kind : string;
  source_ref : string;
  source_user_id : option string;
  status : CalendarDraftStatus;
  title : string;
  start_at : string;
  end_at : string;
  timezone : option string;
  location : option string;
  description : option string;
  calendar_id : option string;
  attendees : list string;
  send_invitations : bool;
  provenance : list DraftFieldProvenance;
  model : string;
  confidence : string;
  outbox_job_id : option string;
  created_at_ms : N;
  updated_at_ms : N;
}.
End CalendarDraft.

(* src: crates/bos-contracts/src/calendar_drafts.rs:95-103 CalendarDraftWithRevision *)
Record CalendarDraftWithRevision := {
  calendar_draft : CalendarDraft.t;
  calendar_revision : N;
  calendar_job : option OutboxJobSummary;
}.

(* src: crates/bos-contracts/src/calendar_drafts.rs:126-132 CalendarDraftActionKind *)
Inductive CalendarDraftActionKind := ApproveEvent | RejectEvent.

(* src: crates/bos-app/src/slices/calendar_drafts/store.rs:410-416 status_from_str *)
Definition calendar_status_from_str (raw : string) : CalendarDraftStatus :=
  if string_eqb raw "approved" then CalendarApproved else if string_eqb raw "rejected" then CalendarRejected else CalendarStaged.

(* src: crates/bos-app/src/slices/calendar_drafts/store.rs:17-17 DRAFT_ENTITY_KIND *)
Definition CALENDAR_ENTITY_KIND : string := "calendar_event_draft".

(** ** The table *)

Section rows.
Context (parse_attendees : string → option (list string)) (parse_provenance : string → option (list DraftFieldProvenance))
  (result_fields : string → option bool * option string) (conversion_failed : string).

(** A list of attendees that does not read is an error; provenance that does not is none. *)
(* src: crates/bos-app/src/slices/calendar_drafts/store.rs:38-75 draft_from_row *)
Definition calendar_from_row (row : CalendarDraftRow.t) (revision : N) : Result StoreError.t CalendarDraftWithRevision :=
  attendees ← ok_or (parse_attendees (CalendarDraftRow.attendees_json row)) (StoreError.Sqlite conversion_failed);
  Ok {|
    calendar_draft := {|
      CalendarDraft.draft_id := CalendarDraftRow.draft_id row;
      CalendarDraft.item_id := CalendarDraftRow.item_id row;
      CalendarDraft.source_kind := CalendarDraftRow.source_kind row;
      CalendarDraft.source_ref := CalendarDraftRow.source_ref row;
      CalendarDraft.source_user_id := CalendarDraftRow.source_user_id row;
      CalendarDraft.status := calendar_status_from_str (CalendarDraftRow.status row);
      CalendarDraft.title := CalendarDraftRow.title row;
      CalendarDraft.start_at := CalendarDraftRow.start_at row;
      CalendarDraft.end_at := CalendarDraftRow.end_at row;
      CalendarDraft.timezone := CalendarDraftRow.timezone row;
      CalendarDraft.location := CalendarDraftRow.location row;
      CalendarDraft.description := CalendarDraftRow.description row;
      CalendarDraft.calendar_id := CalendarDraftRow.calendar_id row;
      CalendarDraft.attendees := attendees;
      CalendarDraft.send_invitations := CalendarDraftRow.send_invitations row;
      CalendarDraft.provenance := default [] (parse_provenance (CalendarDraftRow.provenance_json row));
      CalendarDraft.model := CalendarDraftRow.model row;
      CalendarDraft.confidence := CalendarDraftRow.confidence row;
      CalendarDraft.outbox_job_id := CalendarDraftRow.outbox_job_id row;
      CalendarDraft.created_at_ms := i64_as_u64 (CalendarDraftRow.created_at_ms row);
      CalendarDraft.updated_at_ms := i64_as_u64 (CalendarDraftRow.updated_at_ms row);
    |};
    calendar_revision := revision;
    calendar_job := None;
  |}.

(* src: crates/bos-app/src/slices/calendar_drafts/store.rs:77-86 attach_job_summary *)
Definition attach_calendar_job (client_id : string) (entry : CalendarDraftWithRevision) : AppOp CalendarDraftWithRevision :=
  match CalendarDraft.outbox_job_id (calendar_draft entry) with
  | Some job_id =>
    let? job := Outbox.job_summary result_fields client_id job_id in
    op_ret (Build_CalendarDraftWithRevision (calendar_draft entry) (calendar_revision entry) job)
  | None => op_ret entry
  end.

(** The unique index admits one row of an item that is not rejected. *)
(* src: crates/bos-app/src/slices/calendar_drafts/store.rs:88-121 CalendarDraftStore *)
Definition CalendarDraftStore : DraftStore CalendarDraftRow.t CalendarDraftWithRevision := {|
  ENTITY_KIND := CALENDAR_ENTITY_KIND;
  NOT_FOUND := "calendar_draft_not_found";
  draft_rows := calendar_event_drafts;
  set_draft_rows := set_calendar_event_drafts;
  row_draft_id := CalendarDraftRow.draft_id;
  row_item_id := CalendarDraftRow.item_id;
  row_status := CalendarDraftRow.status;
  row_source_user_id := CalendarDraftRow.source_user_id;
  row_outbox_job_id := CalendarDraftRow.outbox_job_id;
  row_created_at_ms := CalendarDraftRow.created_at_ms;
  map_row := calendar_from_row;
  attach := attach_calendar_job;
  source_user_id := fun entry => CalendarDraft.source_user_id (calendar_draft entry);
  row_conflicts := fun row other =>
    negb (string_eqb (CalendarDraftRow.status row) "rejected") && negb (string_eqb (CalendarDraftRow.status other) "rejected")
    && string_eqb (CalendarDraftRow.item_id row) (CalendarDraftRow.item_id other);
|}.
End rows.

(* src: crates/bos-app/src/slices/calendar_drafts/store.rs:18-31 DRAFT_TABLE *)
Definition CALENDAR_TABLE : DraftTableSpec CalendarDraftRow.t := {|
  entity_kind := CALENDAR_ENTITY_KIND;
  not_found_code := "calendar_draft_not_found";
  not_staged_code := "calendar_draft_not_staged";
  approve_sql := fun job_id now row =>
    match job_id with Some job_id => CalendarDraftRow.approve row job_id now | None => row end;
  reject_sql := fun now row => CalendarDraftRow.reject row now;
|}.

(** ** The store ([store.rs]) *)

Module CalendarDrafts.
(* src: crates/bos-app/src/slices/calendar_drafts/store.rs:265-279 CalendarDraftEdit *)
Record CalendarDraftEdit := {
  edit_title : string;
  edit_start_at : string;
  edit_end_at : string;
  edit_timezone : option string;
  edit_location : option string;
  edit_description : option string;
  edit_calendar_id : option string;
  edit_attendees : list string;
  edit_send_invitations : bool;
}.

(** The closure [opt]. *)
(* src: crates/bos-app/src/slices/calendar_drafts/store.rs:308-313 update_draft (opt) *)
Definition opt (raw : option string) : option string :=
  raw ← trim <$> raw; if is_empty raw then None else Some (take_chars 1000 raw).

(* src: crates/bos-app/src/slices/calendar_drafts/store.rs:304-307 update_draft (instants) *)
Definition edited_instant (code raw : string) : Result StoreError.t string :=
  match normalize_rfc3339_datetime raw with Ok at_ => Ok at_ | Err _ => Err (StoreError.Domain code) end.

(* src: crates/bos-app/src/slices/calendar_drafts/store.rs:298-327 update_draft (checks) *)
Definition checked_edit (edit : CalendarDraftEdit) : Result StoreError.t CalendarDraftEdit :=
  let title := take_chars 200 (trim (edit_title edit)) in
  _ ← guard_err (is_empty title) (StoreError.Domain "calendar_draft_title_required");
  start_at ← edited_instant "calendar_draft_start_invalid" (edit_start_at edit);
  end_at ← edited_instant "calendar_draft_end_invalid" (edit_end_at edit);
  match normalize_calendar_attendees (edit_attendees edit) with
  | Err code => Err (StoreError.Domain code)
  | Ok attendees =>
    _ ← guard_err (edit_send_invitations edit && bool_decide (attendees = []))
          (StoreError.Domain "google_calendar_invitation_attendees_required");
    Ok (Build_CalendarDraftEdit title start_at end_at (opt (edit_timezone edit)) (opt (edit_location edit))
          (opt (edit_description edit)) (opt (edit_calendar_id edit)) attendees (edit_send_invitations edit))
  end.

Section store.
Context (constraint_failed conversion_failed : string) (value_text : Json.Value → string)
  (parse_value : string → option Json.Value)
  (draft_json : CalendarDraft.t → string) (attendees_json : list string → string) (provenance_json : list DraftFieldProvenance → string)
  (parse_attendees : string → option (list string)) (parse_provenance : string → option (list DraftFieldProvenance))
  (result_fields : string → option bool * option string).
Abbreviation Store := (CalendarDraftStore parse_attendees parse_provenance result_fields conversion_failed).

(* src: crates/bos-app/src/slices/calendar_drafts/store.rs:123-131 active_draft_for_item *)
Definition active_draft_for_item (client_id item_id : string) : AppOp (option CalendarDraftWithRevision) :=
  Drafts.active_draft_for_item (DraftStore0:=Store) client_id item_id.

(* src: crates/bos-app/src/slices/calendar_drafts/store.rs:133-140 get_draft *)
Definition get_draft (client_id draft_id : string) (scope : OperatorScope.t) : AppOp (option CalendarDraftWithRevision) :=
  Drafts.get_draft_scoped (DraftStore0:=Store) client_id draft_id scope.

(* src: crates/bos-app/src/slices/calendar_drafts/store.rs:142-151 list_drafts *)
Definition list_drafts (client_id : string) (item_id : option string) (limit : N) (scope : OperatorScope.t)
    : AppOp (list CalendarDraftWithRevision) :=
  Drafts.list_drafts_scoped (DraftStore0:=Store) client_id item_id limit scope.

(* src: crates/bos-app/src/slices/calendar_drafts/store.rs:153-159 count_drafts_for_item *)
Definition count_drafts_for_item (client_id item_id : string) : AppOp N :=
  Drafts.count_drafts_for_item (DraftStore0:=Store) client_id item_id.

(* src: crates/bos-app/src/slices/calendar_drafts/store.rs:161-165 staged_item_ids *)
Definition staged_item_ids (client_id : string) : AppOp (list string) :=
  Drafts.staged_item_ids (DraftStore0:=Store) client_id.

(* src: crates/bos-app/src/slices/calendar_drafts/store.rs:200-228 insert_draft (values) *)
Definition staged_row (client_id : string) (draft : CalendarDraft.t) : CalendarDraftRow.t := {|
  CalendarDraftRow.client_id := client_id;
  CalendarDraftRow.draft_id := CalendarDraft.draft_id draft;
  CalendarDraftRow.item_id := CalendarDraft.item_id draft;
  CalendarDraftRow.source_kind := CalendarDraft.source_kind draft;
  CalendarDraftRow.source_ref := CalendarDraft.source_ref draft;
  CalendarDraftRow.source_user_id := CalendarDraft.source_user_id draft;
  CalendarDraftRow.status := "staged";
  CalendarDraftRow.title := CalendarDraft.title draft;
  CalendarDraftRow.start_at := CalendarDraft.start_at draft;
  CalendarDraftRow.end_at := CalendarDraft.end_at draft;
  CalendarDraftRow.timezone := CalendarDraft.timezone draft;
  CalendarDraftRow.location := CalendarDraft.location draft;
  CalendarDraftRow.description := CalendarDraft.description draft;
  CalendarDraftRow.calendar_id := CalendarDraft.calendar_id draft;
  CalendarDraftRow.attendees_json := attendees_json (CalendarDraft.attendees draft);
  CalendarDraftRow.send_invitations := CalendarDraft.send_invitations draft;
  CalendarDraftRow.provenance_json := provenance_json (CalendarDraft.provenance draft);
  CalendarDraftRow.model := CalendarDraft.model draft;
  CalendarDraftRow.confidence := CalendarDraft.confidence draft;
  CalendarDraftRow.outbox_job_id := None;
  CalendarDraftRow.created_at_ms := u64_as_i64 (CalendarDraft.created_at_ms draft);
  CalendarDraftRow.updated_at_ms := u64_as_i64 (CalendarDraft.created_at_ms draft);
|}.

(* src: crates/bos-app/src/slices/calendar_drafts/store.rs:167-242 insert_draft *)
Definition insert_draft (client_id actor_id : string) (draft : CalendarDraft.t) (idempotency_key : string)
    : AppOp MutationOutcome.t :=
  mutate constraint_failed {|
    MutationRequest.client_id := client_id;
    MutationRequest.entity_kind := CALENDAR_ENTITY_KIND;
    MutationRequest.entity_id := CalendarDraft.draft_id draft;
    MutationRequest.change_kind := "stage";
    MutationRequest.actor_id := actor_id;
    MutationRequest.actor_kind := Operator;
    MutationRequest.expected_revision := None;
    MutationRequest.idempotency_key := idempotency_key;
    MutationRequest.correlation_id := Some (CalendarDraft.item_id draft);
    MutationRequest.causation_id := None;
    MutationRequest.before_json := None;
    MutationRequest.after_json := Some (draft_json draft);
    MutationRequest.now_ms := CalendarDraft.created_at_ms draft;
  |} (Drafts.insert_draft_row (DraftStore0:=Store) "calendar_draft_already_active" client_id (staged_row client_id draft)).

(* src: crates/bos-app/src/slices/calendar_drafts/store.rs:246-254 approve_draft *)
Definition approve_draft (ctx : ScopedMutationContext) (draft_id : string) (job : NewOutboxJob.t) : AppOp MutationOutcome.t :=
  Drafts.approve (DraftStore0:=Store) constraint_failed (scoped_draft_context ctx) CALENDAR_TABLE draft_id (Some job).

(* src: crates/bos-app/src/slices/calendar_drafts/store.rs:256-263 reject_draft *)
Definition reject_draft (ctx : ScopedMutationContext) (draft_id : string) : AppOp MutationOutcome.t :=
  Drafts.reject (DraftStore0:=Store) constraint_failed (scoped_draft_context ctx) CALENDAR_TABLE draft_id.

(** The texts of an edit's receipt: before from the row, after from the edit. *)
Definition event_json (title start_at end_at : string) (timezone location description calendar_id : option string)
    (attendees : Json.Value) (send_invitations : bool) : string :=
  value_text (Json.Obj [("title", Json.Str title); ("start_at", Json.Str start_at); ("end_at", Json.Str end_at);
    ("timezone", Json.of_option Json.Str timezone); ("location", Json.of_option Json.Str location);
    ("description", Json.of_option Json.Str description); ("calendar_id", Json.of_option Json.Str calendar_id);
    ("attendees", attendees); ("send_invitations", Json.Bool send_invitations)]%string).
Definition row_json (row : CalendarDraftRow.t) : string :=
  event_json (CalendarDraftRow.title row) (CalendarDraftRow.start_at row) (CalendarDraftRow.end_at row)
    (CalendarDraftRow.timezone row) (CalendarDraftRow.location row) (CalendarDraftRow.description row)
    (CalendarDraftRow.calendar_id row) (default (Json.Arr []) (parse_value (CalendarDraftRow.attendees_json row)))
    (CalendarDraftRow.send_invitations row).
Definition edit_json (edit : CalendarDraftEdit) : string :=
  event_json (edit_title edit) (edit_start_at edit) (edit_end_at edit) (edit_timezone edit) (edit_location edit)
    (edit_description edit) (edit_calendar_id edit) (Json.Arr (Json.Str <$> edit_attendees edit)) (edit_send_invitations edit).

(* src: crates/bos-app/src/slices/calendar_drafts/store.rs:281-400 update_draft *)
Definition update_draft (ctx : ScopedMutationContext) (draft_id : string) (edit : CalendarDraftEdit) : AppOp MutationOutcome.t :=
  let? current := Drafts.require_status_scoped (DraftStore0:=Store) (scoped_client_id ctx) draft_id in
  op_lift (OperatorScope.require_source_user (scoped_scope ctx) current.2) ;;?
  op_lift (guard_err (negb (string_eqb current.1 "staged")) (StoreError.Domain ("calendar_draft_not_staged:" +:+ current.1))) ;;?
  let? edit := op_lift (checked_edit edit) in
  let? row := read_tables (fun t => calendar_event_drafts t !! (scoped_client_id ctx, draft_id)) in
  let? row := op_lift (ok_or row (StoreError.Sqlite "Query returned no rows")) in
  mutate constraint_failed {|
    MutationRequest.client_id := scoped_client_id ctx;
    MutationRequest.entity_kind := CALENDAR_ENTITY_KIND;
    MutationRequest.entity_id := draft_id;
    MutationRequest.change_kind := "edit";
    MutationRequest.actor_id := scoped_actor_id ctx;
    MutationRequest.actor_kind := Operator;
    MutationRequest.expected_revision := scoped_expected_revision ctx;
    MutationRequest.idempotency_key := scoped_idempotency_key ctx;
    MutationRequest.correlation_id := None;
    MutationRequest.causation_id := None;
    MutationRequest.before_json := Some (row_json row);
    MutationRequest.after_json := Some (edit_json edit);
    MutationRequest.now_ms := scoped_now_ms ctx;
  |} (Drafts.update_draft_row (DraftStore0:=Store) constraint_failed (scoped_client_id ctx) draft_id
        (fun row => CalendarDraftRow.edit row (edit_title edit) (edit_start_at edit) (edit_end_at edit) (edit_timezone edit)
           (edit_location edit) (edit_description edit) (edit_calendar_id edit) (attendees_json (edit_attendees edit))
           (edit_send_invitations edit) (u64_as_i64 (scoped_now_ms ctx)))).
End store.
End CalendarDrafts.

(** ** What the model found ([service.rs]) *)

Module EventExtract.
(* src: crates/bos-app/src/slices/calendar_drafts/service.rs:268-280 EventExtract *)
Record t := mk {
  title : string;
  start_at : string;
  end_at : string;
  timezone : option string;
  location : option string;
  description : option string;
  attendees : list string;
  confidence : string;
  provenance : list DraftFieldProvenance;
}.
End EventExtract.

(* src: crates/bos-app/src/slices/calendar_drafts/service.rs:282-289 ExtractOutcome *)
Inductive ExtractOutcome :=
| Event (extract : EventExtract.t)
| NoEvent (reason : string).

Module EventFill.
(* src: crates/bos-app/src/slices/calendar_drafts/service.rs:36-43 PROVENANCE_FIELDS *)
Definition PROVENANCE_FIELDS : list string := ["title"; "start_at"; "end_at"; "timezone"; "location"; "description"]%string.

(* src: crates/bos-app/src/slices/calendar_drafts/service.rs:337-353 parse_event_extract_response_with_evidence (provenance) *)
Definition provenance_entry (entry : Json.Value) : option DraftFieldProvenance :=
  raw ← (value ← Json.get "field" entry; Json.as_str value);
  let field := trim raw in
  if existsb (string_eqb field) PROVENANCE_FIELDS
  then Some (Build_DraftFieldProvenance field
               (take_chars 300 (trim (default "" (value ← Json.get "quote" entry; Json.as_str value)))))
  else None.

(** *** Attendees with a quote *)

(* src: crates/bos-app/src/slices/calendar_drafts/service.rs:435-437 is_email_address_character *)
Definition is_email_address_character (character : ascii) : bool :=
  is_ascii_alphanumeric character || existsb (Ascii.eqb character) ["."; "_"; "%"; "+"; "-"; "@"]%char.

(** The characters beside a match: a byte of a longer character is none of an address. *)
(* src: crates/bos-app/src/slices/calendar_drafts/service.rs:430-431 quote_contains_exact_email (neighbours) *)
Definition stands_alone (before after : option ascii) : bool :=
  negb (option_any is_email_address_character before) && negb (option_any is_email_address_character after).
Definition first_byte (s : string) : option ascii := match s with EmptyString => None | String a _ => Some a end.

(** The matches of [match_indices] from left to right, none inside another ([skip] bytes of
    the last one are left) and each at the beginning of a character. *)
(* src: crates/bos-app/src/slices/calendar_drafts/service.rs:426-432 quote_contains_exact_email (matches) *)
Fixpoint matches_alone (before : option ascii) (skip : nat) (quote email : string) : bool :=
  match quote with
  | EmptyString => (skip =? 0)%nat && is_empty email && stands_alone before None
  | String a rest =>
    match skip with
    | S skip => matches_alone (Some a) skip rest email
    | O =>
      match (if begins_char a then strip_prefix email quote else None) with
      | Some after => stands_alone before (first_byte after) || matches_alone (Some a) (String.length email - 1) rest email
      | None => matches_alone (Some a) 0 rest email
      end
    end
  end.

(* src: crates/bos-app/src/slices/calendar_drafts/service.rs:423-433 quote_contains_exact_email *)
Definition quote_contains_exact_email (quote email : string) : bool :=
  matches_alone None 0 (to_ascii_lowercase quote) (to_ascii_lowercase email).

Definition eq_ignore_ascii_case (a b : string) : bool := string_eqb (to_ascii_lowercase a) (to_ascii_lowercase b).

(** An address and the quote it stands in, if the quote is of the message. *)
(* src: crates/bos-app/src/slices/calendar_drafts/service.rs:360-371 parse_event_extract_response_with_evidence (attendee) *)
Definition proposed_attendee (evidence : option string) (entry : Json.Value) : option (string * string) :=
  email ← trim <$> (value ← Json.get "email" entry; Json.as_str value);
  quote ← trim <$> (value ← Json.get "quote" entry; Json.as_str value);
  source ← evidence;
  if is_empty quote || negb (contains source quote) || negb (quote_contains_exact_email quote email) then None
  else Some (email, quote).

(** Of the proposed: the well formed, each once, at most 25. *)
(* src: crates/bos-app/src/slices/calendar_drafts/service.rs:373-395 parse_event_extract_response_with_evidence (raw_attendees) *)
Fixpoint keep_attendees (kept : list string) (proposed : list (string * string)) : list string :=
  match proposed with
  | [] => kept
  | (email, _) :: proposed =>
    if negb (is_ok (normalize_calendar_attendees [email])) || existsb (fun k => eq_ignore_ascii_case k email) kept
    then keep_attendees kept proposed
    else if (length kept =? MAX_CALENDAR_ATTENDEES)%nat then kept
    else keep_attendees (kept ++ [email]) proposed
  end.

(* src: crates/bos-app/src/slices/calendar_drafts/service.rs:397-407 parse_event_extract_response_with_evidence (attendee_provenance) *)
Definition attendee_provenance (proposed : list (string * string)) (attendee : string) : option DraftFieldProvenance :=
  found ← List.find (fun p => eq_ignore_ascii_case p.1 attendee) proposed;
  Some (Build_DraftFieldProvenance ("attendee:" +:+ attendee) (take_chars 300 found.2)).

(* src: crates/bos-app/src/slices/calendar_drafts/service.rs:322-327 parse_event_extract_response_with_evidence (instants) *)
Definition instant_field (response : Json.Value) (key missing invalid : string) : Result string string :=
  raw ← ok_or (Json.string_field response key) missing;
  match normalize_rfc3339_datetime raw with Ok at_ => Ok at_ | Err _ => Err (invalid +:+ raw) end.

Definition entries_of (response : Json.Value) (key : string) : list Json.Value :=
  default [] (value ← Json.get key response; Json.as_array value).

(** The fields are read one after the other, the instants after both are known to be there. *)
(* src: crates/bos-app/src/slices/calendar_drafts/service.rs:307-421 parse_event_extract_response_with_evidence *)
Definition parse_event_extract_response_with_evidence (response : Json.Value) (evidence : option string)
    : Result string ExtractOutcome :=
  extractable ← ok_or (value ← Json.get "extractable" response; Json.as_bool value) "extractable missing or not a boolean"%string;
  if negb extractable then Ok (NoEvent (default "no concrete dated event found" (Json.string_field response "reason")))
  else
    title ← ok_or (Json.string_field response "title") "title missing or empty"%string;
    _ ← ok_or (Json.string_field response "start_at") "start_at missing or empty"%string;
    _ ← ok_or (Json.string_field response "end_at") "end_at missing or empty"%string;
    start_at ← instant_field response "start_at" "start_at missing or empty" "start_at is not RFC3339 with offset: ";
    end_at ← instant_field response "end_at" "end_at missing or empty" "end_at is not RFC3339 with offset: ";
    confidence ← ok_or (raw ← Json.string_field response "confidence"; FollowUpFill.known_confidence raw)
      "confidence missing or invalid"%string;
    let provenance := omap (M:=list) provenance_entry (entries_of response "provenance") in
    let proposed := omap (M:=list) (proposed_attendee evidence) (entries_of response "attendees") in
    let attendees := keep_attendees [] proposed in
    Ok (Event (EventExtract.mk (take_chars 200 title) start_at end_at (Json.string_field response "timezone")
      (take_chars 300 <$> Json.string_field response "location") (take_chars 1000 <$> Json.string_field response "description")
      attendees confidence (provenance ++ omap (M:=list) (attendee_provenance proposed) attendees))).

(* src: crates/bos-app/src/slices/calendar_drafts/service.rs:291-305 parse_event_extract_response *)
Definition parse_event_extract_response (response : Json.Value) : Result string ExtractOutcome :=
  parse_event_extract_response_with_evidence response None.

(* src: crates/bos-app/src/slices/calendar_drafts/service.rs:174-194 stage_failure_message *)
Definition stage_failure_message (response : Json.Value) (error_code : string) : option string :=
  if string_eqb error_code "calendar_extract_invalid_response" then
    match parse_event_extract_response response with Err reason => Some (take_chars 500 reason) | Ok _ => None end
  else if string_eqb error_code "calendar_extract_no_event" then
    reason ← trim <$> (value ← Json.get "reason" response; Json.as_str value);
    if is_empty reason then None else Some (take_chars 500 reason)
  else None.

(** [format!("ced_{}_{attempt}", item.item_id)]. *)
(* src: crates/bos-app/src/slices/calendar_drafts/service.rs:448-448 draft_from_extract (draft_id) *)
Definition draft_id_for (item : WorkItem.t) (attempt : N) : string := "ced_" +:+ WorkItem.item_id item +:+ "_" +:+ fmt_dec attempt.

(* src: crates/bos-app/src/slices/calendar_drafts/service.rs:439-472 draft_from_extract *)
Definition draft_from_extract (item : WorkItem.t) (extract : EventExtract.t) (attempt : N) (model : string) (now_ms : N)
    : CalendarDraft.t := {|
  CalendarDraft.draft_id := draft_id_for item attempt;
  CalendarDraft.item_id := WorkItem.item_id item;
  CalendarDraft.source_kind := WorkItem.source_kind item;
  CalendarDraft.source_ref := WorkItem.source_ref item;
  CalendarDraft.source_user_id := WorkItem.source_user_id item;
  CalendarDraft.status := CalendarStaged;
  CalendarDraft.title := EventExtract.title extract;
  CalendarDraft.start_at := EventExtract.start_at extract;
  CalendarDraft.end_at := EventExtract.end_at extract;
  CalendarDraft.timezone := EventExtract.timezone extract;
  CalendarDraft.location := EventExtract.location extract;
  CalendarDraft.description := EventExtract.description extract;
  CalendarDraft.calendar_id := None;
  CalendarDraft.attendees := EventExtract.attendees extract;
  CalendarDraft.send_invitations := false;
  CalendarDraft.provenance := EventExtract.provenance extract;
  CalendarDraft.model := model;
  CalendarDraft.confidence := EventExtract.confidence extract;
  CalendarDraft.outbox_job_id := None;
  CalendarDraft.created_at_ms := now_ms;
  CalendarDraft.updated_at_ms := now_ms;
|}.

(* src: crates/bos-app/src/slices/calendar_drafts/service.rs:132-172 stage *)
Definition stage_event (constraint_failed conversion_failed : string) (draft_json : CalendarDraft.t → string)
    (attendees_json : list string → string) (provenance_json : list DraftFieldProvenance → string)
    (parse_attendees : string → option (list string)) (parse_provenance : string → option (list DraftFieldProvenance))
    (result_fields : string → option bool * option string)
    (client_id actor_id : string) (item : WorkItem.t) (evidence : string) (response : Json.Value) (model : string) (attempt : N)
    (idempotency_key : string) (now_ms : N) : AppOp unit :=
  match parse_event_extract_response_with_evidence response (Some evidence) with
  | Ok (Event extract) =>
    CalendarDrafts.insert_draft constraint_failed conversion_failed draft_json attendees_json provenance_json parse_attendees
      parse_provenance result_fields client_id actor_id (draft_from_extract item extract attempt model now_ms) idempotency_key ;;?
    op_ret tt
  | Ok (NoEvent _) => op_lift (Err (StoreError.Domain "calendar_extract_no_event"))
  | Err _ => op_lift (Err (StoreError.Domain "calendar_extract_invalid_response"))
  end.
End EventFill.

(** ** Approval and delivery *)

Module CalendarApproval.
(* src: crates/bos-app/src/slices/calendar_drafts/service.rs:32-32 PROVIDER_GOOGLE_CALENDAR *)
Definition PROVIDER_GOOGLE_CALENDAR : string := "google_calendar".
(* src: crates/bos-app/src/slices/calendar_drafts/service.rs:33-33 CAPABILITY_CREATE_EVENT *)
Definition CAPABILITY_CREATE_EVENT : string := "create_event".
Definition SERVICE_GMAIL : string := "gmail".
Definition SOURCE_KIND_OPERATOR_NOTE : string := "operator_note".

(* src: crates/bos-app/src/slices/calendar_drafts/service.rs:492-492 build_approval_job (idempotency_key) *)
Definition job_key (draft : CalendarDraft.t) : string := "caldraft:" +:+ CalendarDraft.draft_id draft.
(** The calendar client has no field for the place. *)
(* src: crates/bos-app/src/slices/calendar_drafts/service.rs:484-491 build_approval_job (description) *)
Definition with_location (location description : option string) : option string :=
  match location, description with
  | Some location, Some description =>
    Some ("Location: " +:+ location +:+ String "010" (String "010" EmptyString) +:+ description)
  | Some location, None => Some ("Location: " +:+ location)
  | None, description => description
  end.

(* src: crates/bos-app/src/slices/calendar_drafts/service.rs:492-516 build_approval_job (payload) *)
Definition event_payload (draft : CalendarDraft.t) (credential_user_id approved_by : string) (now_ms : N)
    (default_calendar_id : string) : Payload.t := {|
  Payload.calendar_id := default default_calendar_id
    (id ← trim <$> CalendarDraft.calendar_id draft; if is_empty id then None else Some id);
  Payload.idempotency_key := job_key draft;
  Payload.credential_user_id := Some credential_user_id;
  Payload.approval := Build_PaymentApproval ("appr_" +:+ CalendarDraft.draft_id draft) approved_by
    (Calendar.epoch_ms_to_rfc3339_utc now_ms);
  Payload.summary := CalendarDraft.title draft;
  Payload.description := with_location (CalendarDraft.location draft) (CalendarDraft.description draft);
  Payload.start_at := CalendarDraft.start_at draft;
  Payload.end_at := CalendarDraft.end_at draft;
  Payload.timezone := CalendarDraft.timezone draft;
  Payload.attendees := CalendarDraft.attendees draft;
  Payload.send_invitations := CalendarDraft.send_invitations draft;
  Payload.expected_revision := None;
|}.

Section approval.
Context (payload_json : Payload.t → string) (parse_payload : string → Result string Payload.t)
  (value_text : Json.Value → string) (parse_value : string → option Json.Value).

(* src: crates/bos-app/src/slices/calendar_drafts/service.rs:473-530 build_approval_job *)
Definition build_approval_job (draft : CalendarDraft.t) (credential_user_id approved_by : string) (now_ms : N)
    (default_calendar_id : string) : NewOutboxJob.t := {|
  NewOutboxJob.job_id := "obj_" +:+ CalendarDraft.draft_id draft;
  NewOutboxJob.provider := PROVIDER_GOOGLE_CALENDAR;
  NewOutboxJob.capability := CAPABILITY_CREATE_EVENT;
  NewOutboxJob.payload_json := payload_json (event_payload draft credential_user_id approved_by now_ms default_calendar_id);
  NewOutboxJob.source_entity_kind := CALENDAR_ENTITY_KIND;
  NewOutboxJob.source_entity_id := CalendarDraft.draft_id draft;
  NewOutboxJob.correlation_id := Some (CalendarDraft.item_id draft);
  NewOutboxJob.causation_id := None;
  NewOutboxJob.idempotency_key := job_key draft;
|}.

(** *** Carrying out a job ([worker.rs]) *)

(* src: crates/bos-app/src/slices/calendar_drafts/worker.rs:60-67 credential_user_id *)
Definition credential_user_id (payload : string) : option string :=
  value ← parse_value payload; user ← Json.get "credential_user_id" value; Json.as_str user.

(* src: crates/bos-app/src/slices/calendar_drafts/worker.rs:105-163 execute_job (outcome) *)
Definition event_outcome (job : ClaimedJob.t) (now_ms : N) (result : AdapterResult) : AttemptOutcome.t :=
  match result with
  | Success receipt =>
    let metadata := parse_value (EventReceipt.sanitized_metadata_json receipt) in
    AttemptOutcome.Delivered (value_text (Json.Obj [
      ("dry_run", Json.of_option Json.Bool (meta ← metadata; v ← Json.get "dry_run" meta; Json.as_bool v));
      ("attendee_count", Json.of_option Json.Int (meta ← metadata; v ← Json.get "attendee_count" meta; Json.as_u64 v));
      ("send_invitations", Json.of_option Json.Bool (meta ← metadata; v ← Json.get "send_invitations" meta; Json.as_bool v));
      ("provider_object_id", Json.of_option Json.Str (EventReceipt.provider_object_id receipt));
      ("provider_status", Json.Str (EventReceipt.provider_status receipt))]%string))
  | RetryableFailure receipt =>
    AttemptOutcome.Retry (default "provider_retryable_failure" (EventReceipt.provider_error_code receipt))
      (wrapping_add_u64 now_ms (default (retry_backoff_ms (ClaimedJob.attempts job)) (i64_as_u64 <$> EventReceipt.retry_after_ms receipt)))
  | TerminalFailure receipt =>
    let code := default "provider_terminal_failure" (EventReceipt.provider_error_code receipt) in
    let message := (value ← parse_value (EventReceipt.raw_response_json receipt); text ← Json.get "message" value; Json.as_str text) in
    AttemptOutcome.Terminal (default code (provider_error_detail code <$> message)) (Some (EventReceipt.sanitized_metadata_json receipt))
  end.

Section delivery.
Context {W : Type} (sha256 : string → list N) (encode : string → string)
  (post_json : string → string → Json.Value → Op W GoogleCalendarWriteError HttpResponse.t)
  (fetch_access_token : OAuth.t → Op W AppError.t string).

(* src: crates/bos-app/src/slices/calendar_drafts/worker.rs:69-164 execute_job *)
Definition execute_job (job : ClaimedJob.t) (oauth : option OAuth.t) (write_enabled : bool) (calendar_id : string) (now_ms : N)
    (w : W) : AttemptOutcome.t * W :=
  if negb (string_eqb (ClaimedJob.provider job) PROVIDER_GOOGLE_CALENDAR)
     || negb (string_eqb (ClaimedJob.capability job) CAPABILITY_CREATE_EVENT)
  then (AttemptOutcome.Terminal ("outbox_unsupported_job:" +:+ ClaimedJob.provider job +:+ ":" +:+ ClaimedJob.capability job) None, w)
  else match oauth with
  | None => (AttemptOutcome.Retry "google_credential_unavailable"
               (wrapping_add_u64 now_ms (retry_backoff_ms (ClaimedJob.attempts job))), w)
  | Some oauth =>
    let '(client, w) := google_calendar_execution_client fetch_access_token
                          (Build_GoogleCalendarWriteConfig oauth calendar_id write_enabled) w in
    let context := EventContext.mk (ClaimedJob.provider job) (ClaimedJob.capability job) (ClaimedJob.job_id job)
                     (ClaimedJob.idempotency_key job) None (u64_as_i64 now_ms) in
    let '(result, w) := execute value_text parse_payload (write_event sha256 encode post_json client) context
                          (ClaimedJob.payload_json job) w in
    (event_outcome job now_ms result, w)
  end.

(** The credential is the payload's user's; a job without one takes what there is. *)
Context (env : string → option string)
  (bound_oauth : AppDb → string → string → Result StoreError.t (option OAuth.t))
  (resolve_oauth : AppDb → string → option string → Result StoreError.t (option OAuth.t))
  (write_gate : AppDb → string → Result StoreError.t bool).

Definition ok_default {E A} (a : A) (r : Result E A) : A := match r with Ok a => a | Err _ => a end.

(* src: crates/bos-app/src/slices/calendar_drafts/routes.rs:30-35 default_calendar_id *)
Definition default_calendar_id : string := default "primary" (env "BOS_GOOGLE_CALENDAR_ID").

(* src: crates/bos-app/src/slices/calendar_drafts/worker.rs:23-58 deliver *)
Definition deliver (client_id : string) (db : AppDb) (job : ClaimedJob.t) (now_ms : N) (w : W) : AttemptOutcome.t * W :=
  let oauth := ok_default None (match credential_user_id (ClaimedJob.payload_json job) with
                                | Some user_id => bound_oauth db client_id user_id
                                | None => resolve_oauth db client_id None
                                end) in
  execute_job job oauth (ok_default false (write_gate db client_id)) default_calendar_id now_ms w.
End delivery.

(** *** The routes *)

Context (constraint_failed conversion_failed : string) (attendees_json : list string → string)
  (parse_attendees : string → option (list string)) (parse_provenance : string → option (list DraftFieldProvenance))
  (result_fields : string → option bool * option string) (env : string → option string)
  (bound_oauth : AppDb → string → string → Result StoreError.t (option OAuth.t))
  (resolve_oauth : AppDb → string → option string → Result StoreError.t (option OAuth.t))
  (write_gate : AppDb → string → Result StoreError.t bool)
  (note_author : AppDb → string → string → Result StoreError.t (option string)).

(* src: crates/bos-app/src/slices/calendar_drafts/routes.rs:37-47 default_calendar_for *)
Definition default_calendar_for (db : AppDb) (client_id actor_id : string) : string :=
  default (default_calendar_id env)
    (user ← ok_default None (UserStore.get_user client_id actor_id db).1; OperatorUser.default_calendar_id user).

(** A note an assistant wrote acts for the operator who approves it. *)
(* src: crates/bos-app/src/slices/calendar_drafts/routes.rs:49-61 is_mcp_operator_note *)
Definition is_mcp_operator_note (db : AppDb) (client_id : string) (draft : CalendarDraft.t) : Result StoreError.t bool :=
  if negb (string_eqb (CalendarDraft.source_kind draft) SOURCE_KIND_OPERATOR_NOTE) then Ok false
  else author ← note_author db client_id (CalendarDraft.source_ref draft); Ok (option_any (starts_with "mcp:") author).

(** The user whose credential delivers the event, or why there is none. *)
(* src: crates/bos-app/src/slices/calendar_drafts/routes.rs:266-314 draft_action (credential) *)
Definition credential_for (db : AppDb) (client_id actor_id : string) (draft : CalendarDraft.t)
    : string + LedgerApproval.LedgerAnswer :=
  match is_mcp_operator_note db client_id draft with
  | Err err => inr (LedgerApproval.Answered (Err err))
  | Ok true =>
    match bound_oauth db client_id actor_id with
    | Ok (Some _) => inl actor_id
    | Ok None => inr (LedgerApproval.Refused 422 "google_credential_unavailable")
    | Err err => inr (LedgerApproval.Answered (Err err))
    end
  | Ok false =>
    match CalendarDraft.source_user_id draft with
    | Some source_user_id =>
      if bool_decide ((client_id, source_user_id, SERVICE_GMAIL) ∈ google_oauth_credentials (tables db)) then inl source_user_id
      else inr (LedgerApproval.Refused 422 "source_user_credential_unavailable")
    | None => inl actor_id
    end
  end.

(** When writing is on, a credential that is known to lack the scope is refused at once. *)
(* src: crates/bos-app/src/slices/calendar_drafts/routes.rs:315-338 draft_action (scope) *)
Definition scope_refused (db : AppDb) (client_id credential_user_id : string) : bool :=
  ok_default false (write_gate db client_id)
  && option_any lacks_calendar_scope (ok_default None (resolve_oauth db client_id (Some credential_user_id))).

(* src: crates/bos-app/src/slices/calendar_drafts/routes.rs:229-363 draft_action *)
Definition draft_action (ctx : ScopedMutationContext) (draft_id : string) (action : CalendarDraftActionKind) (db : AppDb)
    : LedgerApproval.LedgerAnswer * AppDb :=
  let answered (m : AppOp MutationOutcome.t) (db : AppDb) := let '(r, db) := m db in (LedgerApproval.Answered r, db) in
  if is_blank (scoped_idempotency_key ctx) then (LedgerApproval.Refused 400 "idempotency_key_required", db)
  else match action with
  | RejectEvent =>
    answered (CalendarDrafts.reject_draft constraint_failed conversion_failed parse_attendees parse_provenance result_fields ctx draft_id) db
  | ApproveEvent =>
    match CalendarDrafts.get_draft conversion_failed parse_attendees parse_provenance result_fields (scoped_client_id ctx) draft_id
            (scoped_scope ctx) db with
    | (Ok (Some found), db) =>
      let draft := calendar_draft found in
      match credential_for db (scoped_client_id ctx) (scoped_actor_id ctx) draft with
      | inr refusal => (refusal, db)
      | inl user =>
        if scope_refused db (scoped_client_id ctx) user then (LedgerApproval.Refused 422 "google_calendar_scope_missing", db)
        else
          let job := build_approval_job draft user (scoped_actor_id ctx) (scoped_now_ms ctx)
                       (default_calendar_for db (scoped_client_id ctx) user) in
          answered (CalendarDrafts.approve_draft constraint_failed conversion_failed parse_attendees parse_provenance result_fields
                      ctx draft_id job) db
      end
    | (Ok None, db) => (LedgerApproval.Refused 422 "calendar_draft_not_found", db)
    | (Err err, db) => (LedgerApproval.Answered (Err err), db)
    end
  end.

(* src: crates/bos-app/src/slices/calendar_drafts/routes.rs:135-174 draft_update *)
Definition draft_update (ctx : ScopedMutationContext) (draft_id : string) (edit : CalendarDrafts.CalendarDraftEdit) (db : AppDb)
    : LedgerApproval.LedgerAnswer * AppDb :=
  if is_blank (scoped_idempotency_key ctx) then (LedgerApproval.Refused 400 "idempotency_key_required", db)
  else let '(r, db) := CalendarDrafts.update_draft constraint_failed conversion_failed value_text parse_value attendees_json
                         parse_attendees parse_provenance result_fields ctx draft_id edit db in
       (LedgerApproval.Answered r, db).
End approval.
End CalendarApproval.
