(* ===== verification/CalendarDraftProps.v ===== *)
(** * What the calendar drafts guarantee

    The attendees of a draft are addresses of the message, each once and in a form the
    provider accepts; an approved draft's job passes the client's validation and acts with
    its owner's credential; any number of deliveries makes one event.  Whether an event
    ends after it begins is checked nowhere. *)

From S2P Require Import Prelude RustStd Ids Errors RustStr StoreCore StoreCoreProps AppOutbox AppOutboxProps Identity AccountingRecords Schema SliceCore Operators WorkItems WorkQueue Calendar DateInput DraftStore DraftProps Json ProviderWrites GoogleCalendar FollowUpTasks LedgerDrafts LedgerProps CalendarDrafts.
Import Spine Outbox Drafts DateInput GoogleCalendar.

(** ** Attendees stand in the message *)

(** The address stands in the text, in whatever case, and no character of an address is
    beside it. *)
Definition mentions (text email : string) : Prop :=
  ∃ before after, to_ascii_lowercase text = before +:+ to_ascii_lowercase email +:+ after ∧
    option_any EventFill.is_email_address_character (last (String.list_ascii_of_string before)) = false ∧
    option_any EventFill.is_email_address_character (EventFill.first_byte after) = false.

Lemma stands_alone_true b a : EventFill.stands_alone b a = true →
  option_any EventFill.is_email_address_character b = false ∧ option_any EventFill.is_email_address_character a = false.
Proof. unfold EventFill.stands_alone. by intros [?%negb_true_iff ?%negb_true_iff]%andb_true_iff. Qed.

(** The last byte of [s], which follows [before]. *)
Definition last_after (before : option ascii) (s : string) : option ascii :=
  match last (String.list_ascii_of_string s) with Some a => Some a | None => before end.

Lemma last_after_cons before a s : last_after before (String a s) = last_after (Some a) s.
Proof.
  unfold last_after. cbn [String.list_ascii_of_string]. destruct (String.list_ascii_of_string s) as [|b l]; [done|].
  rewrite last_cons_cons. destruct (last (b :: l)) eqn:Hl; [done|]. by apply last_None in Hl.
Qed.

Lemma matches_alone_spec before skip quote email : EventFill.matches_alone before skip quote email = true →
  ∃ b a, quote = b +:+ email +:+ a ∧
    option_any EventFill.is_email_address_character (last_after before b) = false ∧
    option_any EventFill.is_email_address_character (EventFill.first_byte a) = false.
Proof.
  revert before skip. induction quote as [|c quote IH]; intros before skip; cbn [EventFill.matches_alone].
  - intros [[_ He]%andb_true_iff [Hb Ha]%stands_alone_true]%andb_true_iff. exists ""%string, ""%string.
    destruct email; [by split|done].
  - assert (Hnext : ∀ skip', EventFill.matches_alone (Some c) skip' quote email = true →
      ∃ b a, String c quote = b +:+ email +:+ a ∧
        option_any EventFill.is_email_address_character (last_after before b) = false ∧
        option_any EventFill.is_email_address_character (EventFill.first_byte a) = false).
    { intros skip' (b & a & -> & Hb & Ha)%IH. exists (String c b), a. by rewrite last_after_cons. }
    destruct skip as [|skip]; [|apply Hnext].
    destruct (if begins_char c then strip_prefix email (String c quote) else None) as [after|] eqn:Hm; [|apply Hnext].
    destruct (begins_char c); [|done]. apply strip_prefix_some in Hm.
    intros [[Hb Ha]%stands_alone_true|H]%orb_true_iff; [|by eapply Hnext]. exists ""%string, after. by rewrite Hm.
Qed.

Lemma quote_mentions quote email : EventFill.quote_contains_exact_email quote email = true → mentions quote email.
Proof.
  intros (b & a & Hq & Hb & Ha)%matches_alone_spec. exists b, a. split; [done|]. split; [|done].
  unfold last_after in Hb. by destruct (last _).
Qed.

(** What stands in a text stands there in any case. *)
Lemma mentions_case text email email' :
  EventFill.eq_ignore_ascii_case email email' = true → mentions text email → mentions text email'.
Proof. unfold EventFill.eq_ignore_ascii_case, mentions. by intros ->%string_eqb_true. Qed.

(** One address is accepted if it has the form of one. *)
Lemma normalize_one email : trim email = email →
  is_ok (normalize_calendar_attendees [email]) = valid_calendar_attendee email.
Proof. intros Ht. rewrite normalize_exact. cbn [fmap list_fmap]. rewrite Ht. simpl. by destruct (valid_calendar_attendee email). Qed.

(** Every proposal is a trimmed address in a quote of the message. *)
Definition proposed_from (evidence : string) (p : string * string) : Prop :=
  trim p.1 = p.1 ∧ p.2 ≠ ""%string ∧ contains evidence p.2 = true ∧ mentions p.2 p.1.

Lemma proposed_spec evidence entry p : EventFill.proposed_attendee (Some evidence) entry = Some p → proposed_from evidence p.
Proof.
  unfold EventFill.proposed_attendee. destruct (value ← Json.get "email" entry; Json.as_str value) as [email|]; [|done].
  destruct (value ← Json.get "quote" entry; Json.as_str value) as [quote|]; [|done]. cbn [fmap option_fmap option_map mbind option_bind].
  destruct (_ || _) eqn:Hbad; [done|]. intros [= <-]. apply orb_false_iff in Hbad as [[Hq Hc%negb_false_iff]%orb_false_iff Hm%negb_false_iff].
  split; [apply trim_idemp|]. split; [by intros He; cbn [snd] in He; rewrite He in Hq|]. split; [done|by apply quote_mentions].
Qed.

Lemma keep_spec kept proposed :
  Forall (fun p => trim p.1 = p.1) proposed → normal_attendees kept →
  normal_attendees (EventFill.keep_attendees kept proposed) ∧
  ∀ a, a ∈ EventFill.keep_attendees kept proposed → a ∈ kept ∨ a ∈ proposed.*1.
Proof.
  intros Hp. revert kept. induction Hp as [|[email quote] proposed Ht _ IH]; intros kept Hk; cbn [EventFill.keep_attendees]; [by split; [|left]|].
  cbn [fst] in Ht. rewrite (normalize_one _ Ht).
  assert (Hskip : normal_attendees (EventFill.keep_attendees kept proposed) ∧
    ∀ a, a ∈ EventFill.keep_attendees kept proposed → a ∈ kept ∨ a ∈ ((email, quote) :: proposed).*1).
  { destruct (IH kept Hk) as [Hn Hin]. split; [done|]. intros a [Ha|Ha]%Hin; [by left|right]. by right. }
  destruct (negb _ || _) eqn:Hout; [done|]. apply orb_false_iff in Hout as [Hv%negb_false_iff Hnew].
  destruct (Nat.eqb_spec (length kept) MAX_CALENDAR_ATTENDEES) as [|Hlt]; [by split; [|left]|].
  destruct Hk as [Hval Hdist Hfew]. destruct (IH (kept ++ [email])) as [Hn Hin].
  - split; [|rewrite fmap_app; apply NoDup_app|rewrite length_app; simpl; lia].
    + apply Forall_app. by rewrite Forall_singleton.
    + split; [done|]. split; [|apply NoDup_singleton]. intros x (k & -> & Hk)%list_elem_of_fmap Hx.
      apply list_elem_of_singleton in Hx. apply not_true_iff_false in Hnew. apply Hnew, existsb_exists. exists k.
      split; [by apply list_elem_of_In|]. unfold EventFill.eq_ignore_ascii_case. by apply string_eqb_true.
  - split; [done|]. intros a [[Ha|Ha%list_elem_of_singleton]%elem_of_app|Ha]%Hin; [by left|right; subst; by left|right; by right].
Qed.

Lemma find_same (proposed : list (string * string)) a : a ∈ proposed.*1 →
  ∃ p, List.find (fun p => EventFill.eq_ignore_ascii_case p.1 a) proposed = Some p.
Proof.
  intros (p & -> & Hp)%list_elem_of_fmap. destruct (List.find _ proposed) as [q|] eqn:Hf; [by exists q|].
  apply list_elem_of_In in Hp. pose proof (find_none _ _ Hf p Hp) as He. unfold EventFill.eq_ignore_ascii_case in He.
  by rewrite (proj2 (string_eqb_true _ _) eq_refl) in He.
Qed.

(** ** What is accepted of an answer *)

(** A text the strict check accepts, in its normal form. *)
Definition accepted_instant (text : string) : Prop := ∃ raw, normalize_rfc3339_datetime raw = Ok text.

Lemma instant_field_spec response key missing invalid text :
  EventFill.instant_field response key missing invalid = Ok text → accepted_instant text.
Proof.
  unfold EventFill.instant_field. destruct (Json.string_field response key) as [raw|]; [|done]. cbn [ok_or mbind Result_bind].
  destruct (normalize_rfc3339_datetime raw) as [t|] eqn:Hn; [|done]. intros [= <-]. by exists raw.
Qed.

Definition proposals (response : Json.Value) (evidence : string) : list (string * string) :=
  omap (M:=list) (EventFill.proposed_attendee (Some evidence)) (EventFill.entries_of response "attendees").

Lemma proposals_from response evidence : Forall (proposed_from evidence) (proposals response evidence).
Proof. apply Forall_forall. intros p (entry & _ & Hp)%list_elem_of_omap. by eapply proposed_spec. Qed.

Lemma extract_spec response evidence extract :
  EventFill.parse_event_extract_response_with_evidence response (Some evidence) = Ok (Event extract) →
  is_blank (EventExtract.title extract) = false ∧
  accepted_instant (EventExtract.start_at extract) ∧ accepted_instant (EventExtract.end_at extract) ∧
  EventExtract.attendees extract = EventFill.keep_attendees [] (proposals response evidence) ∧
  ∃ given, EventExtract.provenance extract
    = given ++ omap (M:=list) (EventFill.attendee_provenance (proposals response evidence)) (EventExtract.attendees extract).
Proof.
  unfold EventFill.parse_event_extract_response_with_evidence.
  destruct (value ← Json.get "extractable" response; Json.as_bool value) as [[]|]; cbn [ok_or mbind Result_bind negb]; [|done|done].
  destruct (Json.string_field response "title") as [title|] eqn:Ht; [|done]. cbn [ok_or mbind Result_bind].
  destruct (Json.string_field response "start_at"); [|done]. destruct (Json.string_field response "end_at"); [|done]. cbn [ok_or mbind Result_bind].
  destruct (EventFill.instant_field response "start_at" _ _) as [begins|] eqn:Hs; [|done]. cbn [mbind Result_bind].
  destruct (EventFill.instant_field response "end_at" _ _) as [ends|] eqn:He; [|done]. cbn [mbind Result_bind].
  destruct (raw ← Json.string_field response "confidence"; _) as [conf|]; [|done]. cbn [ok_or mbind Result_bind].
  intros [= <-]. simpl. split; [|split; [by eapply instant_field_spec|split; [by eapply instant_field_spec|split; [done|by eexists]]]].
  apply string_field_trimmed in Ht as (raw & -> & Hne). by apply cut_not_blank.
Qed.

Lemma extract_attendees response evidence extract :
  EventFill.parse_event_extract_response_with_evidence response (Some evidence) = Ok (Event extract) →
  normal_attendees (EventExtract.attendees extract) ∧
  ∀ a, a ∈ EventExtract.attendees extract → a ∈ (proposals response evidence).*1.
Proof.
  intros (_ & _ & _ & -> & _)%extract_spec. destruct (keep_spec [] (proposals response evidence)) as [Hn Hin].
  - eapply Forall_impl; [apply proposals_from|]. by intros p [Ht _].
  - split; [by apply Forall_nil|by apply NoDup_nil|simpl; unfold MAX_CALENDAR_ATTENDEES; lia].
  - split; [done|]. intros a [Ha%not_elem_of_nil|Ha]%Hin; done.
Qed.

(** C9: No attendee is invented.  For every attendee of an accepted answer the draft keeps,
    cut to 300 characters, a quote that is a text of the message and in which the address
    stands, in whatever case and with no character of an address beside it; the list is in
    the form the provider accepts: well-formed addresses, no two alike but for case, at
    most 25. *)
Theorem attendees_from_message response evidence extract :
  EventFill.parse_event_extract_response_with_evidence response (Some evidence) = Ok (Event extract) →
  normalize_calendar_attendees (EventExtract.attendees extract) = Ok (EventExtract.attendees extract) ∧
  ∀ a, a ∈ EventExtract.attendees extract →
    ∃ before quote after, evidence = before +:+ quote +:+ after ∧ mentions quote a ∧
      Build_DraftFieldProvenance ("attendee:" +:+ a) (take_chars 300 quote) ∈ EventExtract.provenance extract.
Proof.
  intros Hp. destruct (extract_attendees _ _ _ Hp) as [Hn Hin]. split; [by apply normal_normalized|]. intros a Ha.
  pose proof (proposals_from response evidence) as Hfrom. rewrite Forall_forall in Hfrom.
  destruct (find_same _ _ (Hin a Ha)) as [p Hf]. destruct (List.find_some _ _ Hf) as [Hpin%list_elem_of_In Hsame].
  destruct (Hfrom p Hpin) as (_ & _ & (b & c & ->)%contains_spec & Hm). exists b, p.2, c. split; [done|].
  split; [by eapply mentions_case|].
  destruct (extract_spec _ _ _ Hp) as (_ & _ & _ & _ & given & ->). apply elem_of_app. right. apply list_elem_of_omap. exists a.
  split; [done|]. unfold EventFill.attendee_provenance. by rewrite Hf.
Qed.

(** ** The rows *)

(** What other slices answer while a decision is made. *)
Record Surroundings := {
  around_env : string → option string;
  around_bound : AppDb → string → string → Result StoreError.t (option OAuth.t);
  around_resolve : AppDb → string → option string → Result StoreError.t (option OAuth.t);
  around_gate : AppDb → string → Result StoreError.t bool;
  around_author : AppDb → string → string → Result StoreError.t (option string);
}.

Section calendar.
Context (attendees_json : list string → string) (parse_attendees : string → option (list string))
  (parse_provenance : string → option (list DraftFieldProvenance)) (result_fields : string → option bool * option string)
  (conversion_failed : string).
(** The attendees serde writes are the attendees it reads. *)
Context (attendees_back : ∀ l, parse_attendees (attendees_json l) = Some l).

Record event_row (k : string * string) (row : CalendarDraftRow.t) : Prop := {
  event_key : CalendarDraftRow.client_id row = k.1 ∧ CalendarDraftRow.draft_id row = k.2;
  event_status : CalendarDraftRow.status row ∈ ["staged"; "approved"; "rejected"]%string;
  event_approved : CalendarDraftRow.status row = "approved"%string ↔ is_Some (CalendarDraftRow.outbox_job_id row);
  event_title : is_blank (CalendarDraftRow.title row) = false;
  event_times : accepted_instant (CalendarDraftRow.start_at row) ∧ accepted_instant (CalendarDraftRow.end_at row);
  event_attendees : ∃ l, parse_attendees (CalendarDraftRow.attendees_json row) = Some l ∧ normal_attendees l ∧
    (CalendarDraftRow.send_invitations row = true → l ≠ []);
}.

#[local] Hint Extern 0 (DraftStore CalendarDraftRow.t _) =>
  exact (CalendarDraftStore parse_attendees parse_provenance result_fields conversion_failed) : typeclass_instances.

#[export] Instance calendar_laws : DraftLaws CALENDAR_TABLE.
Proof. by split. Qed.

Context (constraint_failed : string) (value_text : Json.Value → string) (parse_value : string → option Json.Value)
  (draft_json : CalendarDraft.t → string) (provenance_json : list DraftFieldProvenance → string) (payload_json : Payload.t → string).
Implicit Types (db : AppDb).

Abbreviation drafts db := (calendar_event_drafts (tables db)).
Abbreviation good := (table_good (Row:=CalendarDraftRow.t) event_row).

(** ** Requests *)

Inductive EventCall :=
| EStage (client_id actor_id : string) (item : WorkItem.t) (evidence : string) (response : Json.Value) (model : string) (attempt : N)
    (key : string) (now_ms : N)
| EEdit (ctx : ScopedMutationContext) (draft_id : string) (edit : CalendarDrafts.CalendarDraftEdit)
| EDecide (around : Surroundings) (ctx : ScopedMutationContext) (draft_id : string) (action : CalendarDraftActionKind)
| EOther (f : AppDb → AppDb).

Abbreviation decide_draft around ctx id action :=
  (CalendarApproval.draft_action payload_json constraint_failed conversion_failed parse_attendees parse_provenance result_fields
     (around_env around) (around_bound around) (around_resolve around) (around_gate around) (around_author around) ctx id action).

Definition event_call db (call : EventCall) : AppDb :=
  match call with
  | EStage c actor item evidence response model attempt key now =>
    (EventFill.stage_event constraint_failed conversion_failed draft_json attendees_json provenance_json parse_attendees parse_provenance
       result_fields c actor item evidence response model attempt key now db).2
  | EEdit ctx id edit =>
    (CalendarApproval.draft_update value_text parse_value constraint_failed conversion_failed attendees_json parse_attendees
       parse_provenance result_fields ctx id edit db).2
  | EDecide around ctx id action => (decide_draft around ctx id action db).2
  | EOther f => f db
  end.
Definition event_calls : AppDb → list EventCall → AppDb := foldl event_call.

(** Other slices leave the drafts alone. *)
Definition event_allowed (call : EventCall) : Prop :=
  match call with EOther f => ∀ db, spine_wf db → spine_wf (f db) ∧ drafts (f db) = drafts db | _ => True end.

Lemma event_approve_keeps k job_id now row : event_row k row → event_row k (CalendarDraftRow.approve row job_id now).
Proof. intros []. split; try done. right; by left. Qed.

Lemma event_reject_keeps k now row : event_row k row → CalendarDraftRow.status row = "staged"%string →
  event_row k (CalendarDraftRow.reject row now).
Proof.
  intros [? ? Ha] Hs. split; try done; [do 2 right; by left|]. simpl. split; [done|].
  intros Hj%Ha. by rewrite Hs in Hj.
Qed.

Lemma event_good_stage c actor item evidence response model attempt key now db : good db →
  good (event_call db (EStage c actor item evidence response model attempt key now)).
Proof using attendees_back.
  intros Hg. simpl. unfold EventFill.stage_event.
  destruct (EventFill.parse_event_extract_response_with_evidence _ _) as [[extract|reason]|err] eqn:Hp; [|done|done].
  destruct (extract_attendees _ _ _ Hp) as [Hn _]. destruct (extract_spec _ _ _ Hp) as (Ht & Hs & He & _).
  set (draft := EventFill.draft_from_extract _ _ _ _ _).
  assert (Hins : good (CalendarDrafts.insert_draft constraint_failed conversion_failed draft_json attendees_json provenance_json
    parse_attendees parse_provenance result_fields c actor draft key db).2).
  { apply (good_insert CALENDAR_TABLE); [done| |done]. split; try done; simpl; [by left|split; [done|by intros []]|].
    eexists. split; [apply attendees_back|done]. }
  unfold op_bind. by destruct (CalendarDrafts.insert_draft _ _ _ _ _ _ _ _ _ _ _ _ db) as [[o|e] db'].
Qed.

Lemma checked_edit_spec edit edit' : CalendarDrafts.checked_edit edit = Ok edit' →
  is_blank (CalendarDrafts.edit_title edit') = false ∧
  accepted_instant (CalendarDrafts.edit_start_at edit') ∧ accepted_instant (CalendarDrafts.edit_end_at edit') ∧
  normal_attendees (CalendarDrafts.edit_attendees edit') ∧
  (CalendarDrafts.edit_send_invitations edit' = true → CalendarDrafts.edit_attendees edit' ≠ []).
Proof.
  assert (Hi : ∀ code raw at_, CalendarDrafts.edited_instant code raw = Ok at_ → accepted_instant at_).
  { intros code raw at_. unfold CalendarDrafts.edited_instant. destruct (normalize_rfc3339_datetime raw) eqn:Hn; [|done]. intros [= <-]. by exists raw. }
  unfold CalendarDrafts.checked_edit. destruct (is_empty (take_chars 200 _)) eqn:Ht; [done|]. cbn [guard_err mbind Result_bind].
  destruct (CalendarDrafts.edited_instant _ (CalendarDrafts.edit_start_at edit)) eqn:Hs; [|done]. cbn [mbind Result_bind].
  destruct (CalendarDrafts.edited_instant _ (CalendarDrafts.edit_end_at edit)) eqn:He; [|done]. cbn [mbind Result_bind].
  destruct (normalize_calendar_attendees _) as [l|] eqn:Ha; [|done].
  destruct (_ && _) eqn:Hinv; [done|]. cbn [guard_err mbind Result_bind]. intros [= <-]. simpl.
  split; [apply cut_not_blank; by intros H; rewrite H in Ht|]. split; [by eapply Hi|]. split; [by eapply Hi|].
  split; [by eapply normalized_normal|]. intros Hsend. rewrite Hsend in Hinv. by apply bool_decide_eq_false in Hinv.
Qed.

(** An early return leaves the drafts as they are. *)
Lemma event_lift {A B} (r : Result StoreError.t A) (k : A → AppOp B) db :
  good db → (∀ a, r = Ok a → good (k a db).2) → good (op_bind (op_lift r) k db).2.
Proof. intros Hg Hk. unfold op_bind, op_lift. destruct r as [a|e]; [by apply Hk|done]. Qed.

Lemma event_good_edit ctx id edit db : good db →
  good (CalendarDrafts.update_draft constraint_failed conversion_failed value_text parse_value attendees_json parse_attendees
          parse_provenance result_fields ctx id edit db).2.
Proof using attendees_back.
  intros Hg. unfold CalendarDrafts.update_draft, require_status_scoped. unfold op_bind at 1 2, read_tables at 1.
  change (draft_rows (tables db)) with (drafts db). unfold op_lift at 1.
  destruct (drafts db !! (scoped_client_id ctx, id)) as [row|] eqn:Hrow; simpl; [|done].
  apply event_lift; [done|]. intros [] _. apply event_lift; [done|]. intros [] Hst. apply event_lift; [done|].
  intros edit' (Ht & Hs & He & Hl & Hi)%checked_edit_spec. unfold op_bind at 1, read_tables. rewrite Hrow. apply event_lift; [done|].
  intros row' [= <-]. destruct (table_rows _ _ (proj2 Hg) (scoped_client_id ctx, id) row Hrow) as [Hk Hst' Ha _ _ _].
  apply (good_edit_row CALENDAR_TABLE constraint_failed event_row _ _ _ _ row); [done|exact Hrow| |done|].
  - split; try done. simpl. eexists. split; [apply attendees_back|done].
  - unfold is_active. simpl. destruct (string_eqb (CalendarDraftRow.status row) "staged") eqn:E; [|discriminate Hst].
    apply string_eqb_true in E. by rewrite E.
Qed.

Lemma event_get c id scope db :
  good db →
  CalendarDrafts.get_draft conversion_failed parse_attendees parse_provenance result_fields c id scope db =
  (Ok None, db) ∨
  ∃ row l found, drafts db !! (c, id) = Some row ∧ parse_attendees (CalendarDraftRow.attendees_json row) = Some l ∧
    OperatorScope.matches_source_user scope (CalendarDraftRow.source_user_id row) = true ∧
    CalendarDrafts.get_draft conversion_failed parse_attendees parse_provenance result_fields c id scope db = (Ok (Some found), db) ∧
    ∀ revision, Ok (calendar_draft found)
      = (entry ← calendar_from_row parse_attendees parse_provenance conversion_failed row revision; Ok (calendar_draft entry)).
Proof.
  intros Hg. unfold CalendarDrafts.get_draft, get_draft_scoped, op_bind, op_get, op_lift, read_row.
  change (draft_rows (tables db)) with (drafts db). destruct (drafts db !! (c, id)) as [row|] eqn:Hrow; [|by left].
  destruct (event_attendees _ _ (table_rows _ _ (proj2 Hg) (c, id) row Hrow)) as (l & Hl & _).
  cbn [map_row source_user_id CalendarDraftStore]. set (revision0 := draft_revision c db row). clearbody revision0.
  destruct (calendar_from_row _ _ _ row revision0) as [entry|e] eqn:Hm; [|unfold calendar_from_row in Hm; by rewrite Hl in Hm].
  assert (Hentry : CalendarDraft.source_user_id (calendar_draft entry) = CalendarDraftRow.source_user_id row ∧
    ∀ revision, Ok (E:=StoreError.t) (calendar_draft entry)
      = (entry ← calendar_from_row parse_attendees parse_provenance conversion_failed row revision; Ok (calendar_draft entry))).
  { unfold calendar_from_row in *. rewrite Hl in *. by injection Hm as <-. }
  destruct Hentry as [Hsource Hread]. cbn [mbind Result_bind option_bind]. rewrite Hsource.
  destruct (OperatorScope.matches_source_user scope _) eqn:Hscope; [|by left]. right.
  unfold attach_option, op_map. cbn [attach CalendarDraftStore]. unfold attach_calendar_job.
  destruct (CalendarDraft.outbox_job_id (calendar_draft entry)) as [job|]; unfold op_bind; cbn;
    eexists row, l, _; (do 3 (split; [done|])); split; [reflexivity|exact Hread|reflexivity|exact Hread].
Qed.

Lemma event_good_decide around ctx id action db : good db → good (decide_draft around ctx id action db).2.
Proof.
  intros Hg. unfold CalendarApproval.draft_action. case_match; [done|]. destruct action.
  - destruct (event_get (scoped_client_id ctx) id (scoped_scope ctx) db Hg) as [->|(row & l & found & _ & _ & _ & -> & _)]; [done|].
    destruct (CalendarApproval.credential_for _ _ _ _ _ _) as [user|]; [|done]. destruct (CalendarApproval.scope_refused _ _ _ _ _); [done|].
    match goal with |- context [CalendarDrafts.approve_draft _ _ _ _ _ ?c ?i ?j db] =>
      pose proof (good_approval CALENDAR_TABLE constraint_failed event_row event_approve_keeps (scoped_draft_context c) i j db Hg) as Ha end.
    unfold CalendarDrafts.approve_draft. by destruct (approve _ _ _ _ _ db).
  - pose proof (good_rejection CALENDAR_TABLE constraint_failed event_row event_reject_keeps (scoped_draft_context ctx) id db Hg) as Ha.
    unfold CalendarDrafts.reject_draft. by destruct (reject _ _ _ _ db).
Qed.

Lemma event_calls_good calls db : Forall event_allowed calls → good db → good (event_calls db calls).
Proof using attendees_back.
  intros Hcalls. revert db. induction Hcalls as [|call calls Ha Hcs IH]; intros db Hg; [done|]. simpl. apply IH.
  destruct call as [c actor item evidence response model attempt key now|ctx id edit|around ctx id action|f].
  - by apply event_good_stage.
  - simpl. unfold CalendarApproval.draft_update. case_match; [done|].
    pose proof (event_good_edit ctx id edit db Hg) as He. by destruct (CalendarDrafts.update_draft _ _ _ _ _ _ _ _ _ _ _ db).
  - by apply event_good_decide.
  - destruct Hg as [Hsp Hwf]. destruct (Ha db Hsp) as [Hsp' Hd]. split; [done|]. eapply table_wf_rows; [|exact Hwf]. exact Hd.
Qed.

(** ** What an approval hands to the outbox *)

(** The client's checks before it writes. *)
Definition passes_client (p : Payload.t) : Prop :=
  validate_calendar_write_request (create_request p) = Ok tt ∧ validate_write_approval (create_request p) = Ok tt.

Lemma payload_passes draft user actor now calendar :
  normal_attendees (CalendarDraft.attendees draft) → (CalendarDraft.send_invitations draft = true → CalendarDraft.attendees draft ≠ []) →
  is_blank actor = false → before_9999 now → passes_client (CalendarApproval.event_payload draft user actor now calendar).
Proof.
  intros Hn Hi Hactor Hnow. split.
  - unfold validate_calendar_write_request. simpl. rewrite (normal_normalized _ Hn), bool_decide_eq_true_2 by done. cbn [negb].
    destruct (CalendarDraft.send_invitations draft); [|done]. by rewrite bool_decide_eq_false_2 by (by apply Hi).
  - unfold validate_write_approval, is_complete. cbn -[is_blank Calendar.epoch_ms_to_rfc3339_utc].
    rewrite Hactor, instant_not_blank, prefix_not_blank by done. unfold CalendarApproval.job_key. by rewrite prefix_not_blank.
Qed.

(** The draft acts for the user it came from: no assistant wrote it as a note. *)
Definition acts_for_owner (around : Surroundings) db (client : string) (row : CalendarDraftRow.t) : Prop :=
  CalendarDraftRow.source_kind row ≠ CalendarApproval.SOURCE_KIND_OPERATOR_NOTE ∨
  ∃ author, around_author around db client (CalendarDraftRow.source_ref row) = Ok author ∧ option_any (starts_with "mcp:") author = false.

Lemma owner_credential around db client actor draft row user owner :
  CalendarDraft.source_kind draft = CalendarDraftRow.source_kind row → CalendarDraft.source_ref draft = CalendarDraftRow.source_ref row →
  CalendarDraft.source_user_id draft = Some owner → acts_for_owner around db client row →
  CalendarApproval.credential_for (around_bound around) (around_author around) db client actor draft = inl user →
  user = owner ∧ (client, owner, CalendarApproval.SERVICE_GMAIL) ∈ google_oauth_credentials (tables db).
Proof.
  intros Hk Hr Ho Hacts. unfold CalendarApproval.credential_for.
  assert (Hmcp : CalendarApproval.is_mcp_operator_note (around_author around) db client draft = Ok false).
  { unfold CalendarApproval.is_mcp_operator_note. rewrite Hk, Hr. destruct Hacts as [Hne|(author & -> & Ha)].
    - destruct (string_eqb _ _) eqn:E; [by apply string_eqb_true in E|done].
    - destruct (negb _); [done|]. cbn [mbind Result_bind]. by rewrite Ha. }
  rewrite Hmcp, Ho. case_bool_decide as Hin; [|done]. by intros [= <-].
Qed.

(** C7: Whatever drafts were staged, edited and decided and whatever else was done, one
    request after another, when an approval is answered as applied the draft was staged and within the operator's scope,
    and its job is in the outbox, pending, with the draft's title and times.  Its payload
    passes the checks of the client.  A draft that came from a user acts with that user's
    own, stored credential, whoever approves it, unless it is a note of an assistant. *)
Theorem approved_event_is_deliverable around ctx id db0 calls rid revision db' :
  let db := event_calls db0 calls in
  good db0 → Forall event_allowed calls → is_blank (scoped_actor_id ctx) = false → before_9999 (scoped_now_ms ctx) →
  decide_draft around ctx id ApproveEvent db = (LedgerApproval.Answered (Ok (MutationOutcome.Applied rid revision)), db') →
  ∃ row j p user,
    drafts db !! (scoped_client_id ctx, id) = Some row ∧ CalendarDraftRow.status row = "staged"%string ∧
    OperatorScope.matches_source_user (scoped_scope ctx) (CalendarDraftRow.source_user_id row) = true ∧
    jobs db' !! (scoped_client_id ctx, "obj_" +:+ id) = Some j ∧ Job.status j = STATUS_PENDING ∧
    Job.payload_json j = payload_json p ∧ passes_client p ∧
    Payload.summary p = CalendarDraftRow.title row ∧ Payload.start_at p = CalendarDraftRow.start_at row ∧
    Payload.end_at p = CalendarDraftRow.end_at row ∧ Payload.credential_user_id p = Some user ∧
    ∀ owner, CalendarDraftRow.source_user_id row = Some owner → acts_for_owner around db (scoped_client_id ctx) row →
      user = owner ∧ (scoped_client_id ctx, owner, CalendarApproval.SERVICE_GMAIL) ∈ google_oauth_credentials (tables db).
Proof using attendees_back.
  intros db Hg0 Hcalls Hactor Hnow Happ. pose proof (event_calls_good calls db0 Hcalls Hg0) as Hg. fold db in Hg.
  unfold CalendarApproval.draft_action in Happ. destruct (is_blank (scoped_idempotency_key ctx)); [done|].
  destruct (event_get (scoped_client_id ctx) id (scoped_scope ctx) db Hg) as [Hget|(row & l & found & Hrow & Hl & Hscope & Hget & Hread)];
    rewrite Hget in Happ; [done|]. specialize (Hread 0%N).
  pose proof (table_rows _ _ (proj2 Hg) (scoped_client_id ctx, id) row Hrow) as Hwf. destruct (event_key _ _ Hwf) as [_ Hid]. simpl in Hid.
  destruct (event_attendees _ _ Hwf) as (l' & Hl' & Hnormal & Hinvite). rewrite Hl in Hl'. injection Hl' as <-.
  unfold calendar_from_row in Hread. rewrite Hl in Hread. cbn [ok_or mbind Result_bind] in Hread. injection Hread as Hread. set (draft := calendar_draft found) in *.
  destruct (CalendarApproval.credential_for _ _ db _ _ draft) as [user|refusal] eqn:Hcred.
  2: { revert Hcred Happ. unfold CalendarApproval.credential_for. repeat case_match; intros [= <-]; done. }
  destruct (CalendarApproval.scope_refused _ _ _ _ _); [done|]. unfold CalendarDrafts.approve_draft in Happ.
  set (job := CalendarApproval.build_approval_job _ draft user _ _ _) in Happ.
  pose proof (approve_cases CALENDAR_TABLE constraint_failed (scoped_draft_context ctx) id job db (proj1 Hg) (table_active _ _ (proj2 Hg))) as Hc.
  destruct (approve constraint_failed (scoped_draft_context ctx) CALENDAR_TABLE id (Some job) db) as [answer db1]. injection Happ as -> ->.
  inversion Hc as [| | | | | |row' j db'' ? ? Haw Hf Hx Hn Hrows Hfresh Hpay Hjobs]; subst.
  destruct Haw as (Hrow' & _ & Hst). change (drafts db !! (scoped_client_id ctx, CalendarDraftRow.draft_id row) = Some row') in Hrow'.
  rewrite Hrow in Hrow'. injection Hrow' as <-.
  eexists row, j, _, user. split; [done|]. split; [done|]. split; [done|]. rewrite Hjobs.
  replace (NewOutboxJob.job_id job) with ("obj_" +:+ CalendarDraftRow.draft_id row) by (simpl; by rewrite Hread).
  split; [apply lookup_insert_eq|]. split; [by destruct Hfresh as (_ & _ & ? & _)|]. split; [rewrite Hpay; reflexivity|].
  split; [apply payload_passes; [rewrite Hread; done..|done|done]|]. simpl. rewrite Hread. simpl.
  repeat (split; [done|]). intros owner Ho Hacts. eapply (owner_credential around db _ _ draft row); [by rewrite Hread..|done|exact Hcred].
Qed.
End calendar.

(** ** An event that ends before it begins *)

(** An answer without attendees. *)
Definition event_answer (title start_at end_at : string) : Json.Value :=
  Json.Obj [("extractable", Json.Bool true); ("title", Json.Str title); ("start_at", Json.Str start_at); ("end_at", Json.Str end_at);
            ("confidence", Json.Str "high")]%string.

Lemma accepted_field key raw text fields :
  Json.get key (Json.Obj fields) = Some (Json.Str raw) → normalize_rfc3339_datetime raw = Ok text →
  ∃ field, Json.string_field (Json.Obj fields) key = Some field ∧ normalize_rfc3339_datetime field = Ok text.
Proof.
  intros Hget Hn. exists (trim raw). unfold normalize_rfc3339_datetime in *. rewrite trim_idemp. split; [|done].
  destruct (is_rfc3339_with_offset (trim raw)) eqn:Hr; [|done].
  assert (Hlen : (20 ≤ String.length (trim raw))%nat).
  { unfold is_rfc3339_with_offset in Hr. destruct (Nat.ltb_spec (String.length (trim raw)) 20); done. }
  unfold Json.string_field. rewrite Hget. cbn [mbind option_bind Json.as_str].
  destruct (is_empty (trim raw)) eqn:He; [by destruct (trim raw)|].
  destruct (string_eqb (trim raw) "null") eqn:Hnull; [apply string_eqb_true in Hnull; rewrite Hnull in Hlen; simpl in Hlen; lia|done].
Qed.

(** C35: Whatever two instants an answer gives as the beginning and the end of an event, in
    whatever order, it is accepted with them; the draft can be edited to any two instants;
    and the payload of the draft's job passes the checks of the client.  Only the provider
    can refuse an event that ends before it begins, after its approval. *)
Theorem event_times_unrelated title start_at end_at begins ends evidence :
  trim title ≠ "" → trim title ≠ "null" →
  normalize_rfc3339_datetime start_at = Ok begins → normalize_rfc3339_datetime end_at = Ok ends →
  ∃ extract, EventFill.parse_event_extract_response_with_evidence (event_answer title start_at end_at) evidence = Ok (Event extract) ∧
    EventExtract.start_at extract = begins ∧ EventExtract.end_at extract = ends ∧
    (∀ edit, CalendarDrafts.edit_title edit = title → CalendarDrafts.edit_start_at edit = start_at →
       CalendarDrafts.edit_end_at edit = end_at → CalendarDrafts.edit_attendees edit = [] → CalendarDrafts.edit_send_invitations edit = false →
       ∃ edit', CalendarDrafts.checked_edit edit = Ok edit' ∧
         CalendarDrafts.edit_start_at edit' = begins ∧ CalendarDrafts.edit_end_at edit' = ends) ∧
    ∀ item attempt model now user actor later calendar, is_blank actor = false → before_9999 later →
      passes_client (CalendarApproval.event_payload (EventFill.draft_from_extract item extract attempt model now) user actor later calendar).
Proof.
  intros Ht Hnull Hs He. set (answer := event_answer title start_at end_at).
  destruct (accepted_field "start_at" start_at begins _ (eq_refl : Json.get "start_at" answer = _) Hs) as (s1 & Hs1 & Hs2).
  destruct (accepted_field "end_at" end_at ends _ (eq_refl : Json.get "end_at" answer = _) He) as (e1 & He1 & He2).
  assert (Htitle : Json.string_field answer "title" = Some (trim title)).
  { unfold Json.string_field. change (Json.get "title" answer) with (Some (Json.Str title)). cbn [mbind option_bind Json.as_str].
    destruct (is_empty (trim title)) eqn:Hem; [by destruct (trim title)|].
    destruct (string_eqb (trim title) "null") eqn:Hn; [by apply string_eqb_true in Hn|done]. }
  eexists. split.
  { unfold EventFill.parse_event_extract_response_with_evidence, EventFill.instant_field.
    change (value ← Json.get "extractable" answer; Json.as_bool value) with (Some true). rewrite Htitle.
    rewrite (Hs1 : Json.string_field answer "start_at" = Some s1), (He1 : Json.string_field answer "end_at" = Some e1).
    cbn [ok_or mbind Result_bind negb]. rewrite Hs2, He2. cbn [mbind Result_bind]. reflexivity. }
  split; [done|]. split; [done|]. split.
  - intros edit Et Es Ee Ea Ei. unfold CalendarDrafts.checked_edit, CalendarDrafts.edited_instant. rewrite Et, Es, Ee, Ea, Ei, Hs, He.
    assert (Hb : is_empty (take_chars 200 (trim title)) = false).
    { apply not_true_is_false. intros H. pose proof (cut_not_blank 199 title Ht) as Hc. unfold is_blank in Hc. destruct (take_chars 200 (trim title)); [|done]. done. }
    rewrite Hb. cbn [guard_err mbind Result_bind]. eexists. split; [reflexivity|]. by split.
  - intros item attempt model now user actor later calendar Hactor Hlater. apply payload_passes; [|done|done|done].
    split; [by apply Forall_nil|by apply NoDup_nil|simpl; unfold MAX_CALENDAR_ATTENDEES; lia].
Qed.

(** ** Any number of deliveries make one event *)

Section deliveries.
Context {W : Type} (sha256 : string → list N) (encode : string → string) (value_text : Json.Value → string)
  (parse_value : string → option Json.Value) (payload_json : Payload.t → string) (parse_payload : string → Result string Payload.t).
Context (post_json : string → string → Json.Value → Op W GoogleCalendarWriteError HttpResponse.t)
  (fetch_access_token : OAuth.t → Op W AppError.t string).

(** The ids of a calendar's events, oldest first. *)
Context (events : W → string → list string).

(** What the provider documents of a request to insert an event with an id of one's own:
    where the id is taken nothing changes, where it is free at most the one event is made,
    whatever is answered and whether the answer arrives; an answer of success, or 409, means
    that the event is there.  An exchange of a token makes no event. *)
Record EventServer : Prop := {
  server_insert : ∀ cal inv token body id w, Json.get "id" body = Some (Json.Str id) →
    let after := (post_json (events_url encode cal inv) token body w).2 in
    events after cal = events w cal ∨ (id ∉ events w cal ∧ events after cal = events w cal ++ [id]);
  server_done : ∀ cal inv token body id w response, Json.get "id" body = Some (Json.Str id) →
    (post_json (events_url encode cal inv) token body w).1 = Ok response →
    is_success (HttpResponse.status response) = true ∨ HttpResponse.status response = 409%N →
    id ∈ events (post_json (events_url encode cal inv) token body w).2 cal;
  server_token : ∀ creds w cal, events (fetch_access_token creds w).2 cal = events w cal;
}.
Context (server : EventServer) (payload : Payload.t) (payload_back : parse_payload (payload_json payload) = Ok payload).

Abbreviation event_id := (derive_event_id sha256 (Payload.idempotency_key payload)).
Abbreviation its_events w := (events w (Payload.calendar_id payload)).
Abbreviation request := (create_request payload).

Lemma body_id : Json.get "id" (build_body request event_id) = Some (Json.Str event_id).
Proof. done. Qed.

(** What the provider answers to the request for the event. *)
Definition insertion (token : string) (w : W) : Result GoogleCalendarWriteError HttpResponse.t :=
  (post_json (events_url encode (Payload.calendar_id payload) (Payload.send_invitations payload)) token (build_body request event_id) w).1.

(** Only a 409, a success and what may be tried again are not refusals. *)
Lemma try_again_unsuccessful response :
  try_again response = true → is_success (HttpResponse.status response) = false ∧ (HttpResponse.status response =? 409)%N = false.
Proof.
  unfold try_again, is_success, is_server_error. intros Ht.
  destruct (N.eqb_spec (HttpResponse.status response) 429), (N.eqb_spec (HttpResponse.status response) 403); cbn in Ht; lia.
Qed.

Lemma live_write token w :
  let '(result, w') := live_write_event sha256 encode post_json token request w in
  (its_events w' = its_events w ∨ (event_id ∉ its_events w ∧ its_events w' = its_events w ++ [event_id])) ∧
  (∀ response, result = Ok response → event_id ∈ its_events w') ∧
  (passes_client payload →
     match insertion token w with
     | Ok response =>
       (HttpResponse.status response = 409%N → is_ok result = true) ∧
       (try_again response = true → ∃ code message ms, result = Err (Retryable code message ms))
     | Err err => result = Err err
     end).
Proof using server.
  unfold live_write_event, passes_client, insertion. change (target_event_id sha256 request) with event_id.
  unfold op_bind, op_lift, guard_err. cbn [is_update WriteRequest.operation create_request].
  destruct (validate_calendar_write_request request) as [[]|e1]; [|by split; [left|split; [|intros [? _]]]].
  destruct (validate_write_approval request) as [[]|e2]; [|by split; [left|split; [|intros [_ ?]]]].
  set (inv := WriteRequest.send_invitations request). set (cal := WriteRequest.calendar_id request). set (body := build_body request event_id).
  pose proof (server_insert server cal inv token body event_id w body_id) as Hi.
  pose proof (λ r, server_done server cal inv token body event_id w r body_id) as Hd.
  destruct (post_json _ token body w) as [[response|err] w']; cbn [fst snd] in *.
  - split; [exact Hi|]. split.
    + intros written. unfold write_answer. specialize (Hd response eq_refl). destruct (is_success _) eqn:Hs; [intros _; apply Hd; by left|].
      destruct (N.eqb_spec (HttpResponse.status response) 409); [intros _; apply Hd; by right|]. by destruct (try_again response).
    + intros _. unfold write_answer. split.
      * intros Hs. rewrite Hs. done.
      * intros Hagain. destruct (try_again_unsuccessful _ Hagain) as [-> ->]. rewrite Hagain. unfold unavailable. by eexists _, _, _.
  - split; [exact Hi|]. by split.
Qed.

(** A job of this payload, whatever else is new on it since the last attempt. *)
Record its_job (job : ClaimedJob.t) : Prop := {
  its_provider : ClaimedJob.provider job = CalendarApproval.PROVIDER_GOOGLE_CALENDAR;
  its_capability : ClaimedJob.capability job = CalendarApproval.CAPABILITY_CREATE_EVENT;
  its_payload : ClaimedJob.payload_json job = payload_json payload;
}.

Abbreviation deliver_once job oauth enabled calendar now :=
  (CalendarApproval.execute_job parse_payload value_text parse_value sha256 encode post_json fetch_access_token job oauth enabled calendar now).

Definition is_delivered (outcome : AttemptOutcome.t) : bool :=
  match outcome with AttemptOutcome.Delivered _ => true | _ => false end.
Definition is_retry (outcome : AttemptOutcome.t) : bool :=
  match outcome with AttemptOutcome.Retry _ _ => true | _ => false end.

(** What an answer of the provider makes of the job: an id that is taken is a success, what
    may pass is tried again, as is a request that did not get through. *)
Definition answered_with (answer : Result GoogleCalendarWriteError HttpResponse.t) (outcome : AttemptOutcome.t) : Prop :=
  match answer with
  | Ok response => (HttpResponse.status response = 409%N → is_delivered outcome = true) ∧ (try_again response = true → is_retry outcome = true)
  | Err (Retryable _ _ _) => is_retry outcome = true
  | Err _ => is_delivered outcome = false
  end.

(** The outcome is the client's result in the words of the outbox. *)
Lemma outcome_of job now context result :
  is_delivered (CalendarApproval.event_outcome value_text parse_value job now (adapter_result value_text context request result)) = is_ok result ∧
  (∀ code message ms, result = Err (Retryable code message ms) →
    is_retry (CalendarApproval.event_outcome value_text parse_value job now (adapter_result value_text context request result)) = true).
Proof. destruct result as [response|[code message ms|code message|code message state]]; by split. Qed.

Lemma deliver_step job oauth enabled calendar now w : its_job job →
  let '(outcome, w') := deliver_once job oauth enabled calendar now w in
  (its_events w' = its_events w ∨ (event_id ∉ its_events w ∧ its_events w' = its_events w ++ [event_id])) ∧
  (enabled = true → is_delivered outcome = true → event_id ∈ its_events w') ∧
  (enabled = false → w' = w) ∧
  (∀ creds w1 token, oauth = Some creds → enabled = true → lacks_calendar_scope creds = false → fetch_access_token creds w = (Ok token, w1) →
     passes_client payload → answered_with (insertion token w1) outcome).
Proof using server payload_back.
  intros [Hp Hc Hj]. unfold CalendarApproval.execute_job. rewrite Hp, Hc. cbn [string_eqb]. 
  destruct oauth as [creds|]; [|by simpl; split; [left|]]. simpl. unfold google_calendar_execution_client. cbn [write_enabled oauth].
  destruct enabled; cbn [negb].
  2: { unfold execute. cbn [EventContext.provider EventContext.capability string_eqb]. simpl. rewrite Hj, payload_back.
       unfold write_event, op_lift. by split; [left|]. }
  destruct (lacks_calendar_scope creds) eqn:Hscope.
  { unfold execute. simpl. rewrite Hj, payload_back. unfold write_event, op_lift. split; [by left|]. split; [done|]. split; [done|].
    intros creds' w1 token [= <-] _. by rewrite Hscope. }
  unfold from_credentials. rewrite Hscope. pose proof (server_token server creds w (Payload.calendar_id payload)) as Htok.
  destruct (fetch_access_token creds w) as [[token|err] w1] eqn:Hf; simpl in Htok.
  - unfold execute. simpl. rewrite Hj, payload_back. cbn [write_event]. pose proof (live_write token w1) as Hl.
    destruct (live_write_event _ _ _ token request w1) as [result w2]. rewrite Htok in Hl. destruct Hl as (Hev & Hok & Hhere).
    match goal with |- context [adapter_result value_text ?context request result] => destruct (outcome_of job now context result) as [Hd Hr] end.
    split; [done|]. split; [|split; [done|]].
    + intros _ Hdel. rewrite Hdel in Hd. destruct result as [response|]; [by eapply Hok|done].
    + intros creds' w1' token' [= <-] _ _ Heq Hpass. rewrite Hf in Heq. injection Heq as <- <-. specialize (Hhere Hpass). unfold answered_with.
      destruct (insertion token w1) as [response|err].
      * destruct Hhere as [Hdup Hagain]. split; [intros Hs; rewrite Hd; by apply Hdup|].
        intros (code & message & ms & Herr)%Hagain. by eapply Hr.
      * subst result. destruct err; [by eapply Hr|exact Hd..].
  - unfold execute. simpl. rewrite Hj, payload_back. unfold write_event, op_lift. split; [left; done|]. split; [|split; [done|]].
    + intros _. destruct (AppError.retry err); done.
    + intros creds' w1' token [= <-] _ _. by rewrite Hf.
Qed.

(** *** A history of deliveries *)

(** An attempt of the outbox, with whatever credential and gate; or anything else. *)
Inductive Delivery :=
| Attempt (job : ClaimedJob.t) (oauth : option OAuth.t) (enabled : bool) (calendar : string) (now_ms : N)
| Elsewhere (f : W → W).

(** The events of this id on the draft's calendar. *)
Definition copies (w : W) : nat := length (filter (fun id => id = event_id) (its_events w)).

(** Nothing else makes or removes this event. *)
Definition delivery_allowed (d : Delivery) : Prop :=
  match d with Attempt job _ _ _ _ => its_job job | Elsewhere f => ∀ w, copies (f w) = copies w end.

(** Whether the gate was open, and the outcome, of every attempt. *)
Fixpoint deliver_all (ds : list Delivery) (w : W) : list (bool * AttemptOutcome.t) * W :=
  match ds with
  | [] => ([], w)
  | Attempt job oauth enabled calendar now :: ds =>
    let '(outcome, w) := deliver_once job oauth enabled calendar now w in
    let '(outcomes, w) := deliver_all ds w in ((enabled, outcome) :: outcomes, w)
  | Elsewhere f :: ds => deliver_all ds (f w)
  end.

Definition written_live (o : bool * AttemptOutcome.t) : bool := o.1 && is_delivered o.2.

Lemma copies_in w : event_id ∈ its_events w ↔ (0 < copies w)%nat.
Proof.
  unfold copies. split.
  - intros Hin. destruct (filter _ (its_events w)) as [|x l] eqn:Hf; [|simpl; lia]. exfalso. apply (not_elem_of_nil (A:=string) event_id).
    rewrite <- Hf. by apply list_elem_of_filter.
  - destruct (filter _ (its_events w)) as [|x l] eqn:Hf; [simpl; lia|]. intros _.
    assert (Hx : x ∈ filter (fun id => id = event_id) (its_events w)) by (rewrite Hf; by left).
    by apply list_elem_of_filter in Hx as [-> Hx].
Qed.

Lemma copies_step w w' :
  its_events w' = its_events w ∨ (event_id ∉ its_events w ∧ its_events w' = its_events w ++ [event_id]) →
  copies w' = copies w ∨ (copies w = 0 ∧ copies w' = 1)%nat.
Proof.
  intros [He|[Hfree He]]; [left; unfold copies; by rewrite He|right]. rewrite copies_in in Hfree. split; [lia|].
  unfold copies in *. rewrite He, filter_app, filter_cons_True, filter_nil, length_app by done. simpl. lia.
Qed.

Lemma deliveries_spec ds : ∀ w, Forall delivery_allowed ds → (copies w <= 1)%nat →
  let '(outcomes, w') := deliver_all ds w in
  (copies w <= copies w' <= 1)%nat ∧ (existsb written_live outcomes = true → copies w' = 1)%nat ∧
  (existsb fst outcomes = false → copies w' = copies w).
Proof using server payload_back.
  induction ds as [|d ds IH]; intros w Hds Hone; [simpl; repeat split; lia || done|]. apply Forall_cons in Hds as [Hd Hds].
  destruct d as [job oauth enabled calendar now|f]; cbn [deliver_all].
  - pose proof (deliver_step job oauth enabled calendar now w Hd) as Hs.
    destruct (deliver_once job oauth enabled calendar now w) as [outcome w1]. destruct Hs as (Hev & Hdel & Hdry & _). apply copies_step in Hev.
    specialize (IH w1 Hds ltac:(lia)). destruct (deliver_all ds w1) as [outcomes w']. destruct IH as (Hb & Hw & Hn). split; [lia|]. split.
    + cbn [existsb]. unfold written_live at 1. cbn [fst snd]. intros [[-> Hout]%andb_true_iff|Hl]%orb_true_iff; [|by apply Hw].
      specialize (Hdel eq_refl Hout). apply copies_in in Hdel. lia.
    + cbn [existsb fst]. intros [-> Hl]%orb_false_iff. rewrite (Hn Hl). by rewrite Hdry.
  - simpl in Hd. specialize (IH (f w) Hds ltac:(by rewrite Hd)). rewrite Hd in IH. done.
Qed.

(** C8: However often a job is delivered, one delivery after another - its answers lost, its
    credential missing, the gate opened and closed, other work in between - the calendar has
    at most one event of it: exactly one once a delivery with the gate open reports success,
    none while the gate was closed.  When the event is there, a delivery with the gate open,
    a token, a scope that does not rule writing out and a payload that passes the client's
    checks leaves it at that: it reports success where the provider answers that the id is
    taken, and is tried again where the provider is busy or the request does not get through. *)
Theorem event_created_once ds w0 :
  Forall delivery_allowed ds → copies w0 = 0%nat →
  let '(outcomes, w) := deliver_all ds w0 in
  (copies w <= 1)%nat ∧
  (existsb written_live outcomes = true → copies w = 1%nat) ∧
  (existsb fst outcomes = false → copies w = 0%nat) ∧
  ∀ job creds calendar now w1 token, its_job job → passes_client payload → copies w = 1%nat →
    lacks_calendar_scope creds = false → fetch_access_token creds w = (Ok token, w1) →
    let '(outcome, w') := deliver_once job (Some creds) true calendar now w in
    copies w' = 1%nat ∧ answered_with (insertion token w1) outcome.
Proof using server payload_back.
  intros Hds Hnone. pose proof (deliveries_spec ds w0 Hds ltac:(lia)) as H. destruct (deliver_all ds w0) as [outcomes w].
  destruct H as (Hb & Hw & Hn). split; [lia|]. split; [exact Hw|]. split; [intros Hl; rewrite (Hn Hl); lia|].
  intros job creds calendar now w1 token Hjob Hpass Hthere Hscope Htoken.
  pose proof (deliver_step job (Some creds) true calendar now w Hjob) as Hs. destruct (deliver_once job (Some creds) true calendar now w) as [outcome w'].
  destruct Hs as (Hev & _ & _ & Hs). apply copies_step in Hev. split; [lia|]. by eapply Hs.
Qed.
End deliveries.

(** ** Small instances *)

Definition demo_evidence : string := "From: kim@club.test, practice on Friday at four, write to coach@club.test or call."%string.
Definition demo_attendee (email quote : string) : Json.Value := Json.Obj [("email", Json.Str email); ("quote", Json.Str quote)]%string.
(** One attendee of the message, one cut out of a longer address, one of nowhere. *)
Definition demo_event_answer : Json.Value :=
  Json.Obj [("extractable", Json.Bool true); ("title", Json.Str "Soccer practice"); ("start_at", Json.Str "2026-06-12t16:00:00-04:00");
            ("end_at", Json.Str "2026-06-12T17:00:00-04:00"); ("confidence", Json.Str "high");
            ("attendees", Json.Arr [demo_attendee "Coach@club.test" "write to coach@club.test"; demo_attendee "im@club.test" "kim@club.test";
                                    demo_attendee "boss@other.test" "boss@other.test"])]%string.

Lemma attendees_from_message_witness :
  ∃ extract, EventFill.parse_event_extract_response_with_evidence demo_event_answer (Some demo_evidence) = Ok (Event extract) ∧
    EventExtract.attendees extract = ["Coach@club.test"]%string ∧
    ∃ before quote after, demo_evidence = before +:+ quote +:+ after ∧ mentions quote "Coach@club.test".
Proof.
  eexists. split; [vm_compute; reflexivity|]. split; [reflexivity|].
  destruct (proj2 (attendees_from_message demo_event_answer demo_evidence _ ltac:(vm_compute; reflexivity))
    "Coach@club.test"%string ltac:(simpl; by left)) as (before & quote & after & He & Hm & _).
  exists before, quote, after. by split.
Defined.

Lemma event_times_unrelated_witness :
  ∃ extract, EventFill.parse_event_extract_response_with_evidence
      (event_answer "Dinner" "2026-06-12T18:00:00Z" "2026-06-12t17:00:00z") None = Ok (Event extract) ∧
    EventExtract.start_at extract = "2026-06-12T18:00:00Z"%string ∧ EventExtract.end_at extract = "2026-06-12T17:00:00Z"%string.
Proof.
  destruct (event_times_unrelated "Dinner" "2026-06-12T18:00:00Z" "2026-06-12t17:00:00z" "2026-06-12T18:00:00Z" "2026-06-12T17:00:00Z" None)
    as (extract & Hp & Hs & He & _); [by vm_compute|by vm_compute|vm_compute; reflexivity|vm_compute; reflexivity|].
  by exists extract.
Defined.

Definition demo_attendees_json (l : list string) : string := bits (encode l).
Definition demo_parse_attendees (text : string) : option (list string) := decode (of_bits text).

Lemma demo_attendees_back l : demo_parse_attendees (demo_attendees_json l) = Some l.
Proof. unfold demo_parse_attendees, demo_attendees_json. by rewrite of_bits_bits, decode_encode. Qed.

Definition demo_no_value (_ : string) : option Json.Value := None.
Definition demo_event_json (_ : CalendarDraft.t) : string := "{}".
Definition demo_payload_json (p : Payload.t) : string := Payload.summary p +:+ " for " +:+ default "" (Payload.credential_user_id p).
Definition demo_around : Surroundings :=
  Build_Surroundings (fun _ => None) (fun _ _ _ => Ok None) (fun _ _ _ => Ok None) (fun _ _ => Ok false) (fun _ _ _ => Ok None).
(** Ada has connected her account. *)
Definition demo_connected : AppDb :=
  spine_new (mk_tables ∅ (mk_slices ∅ ∅ ∅ {[("acme", "user_ada", "gmail")%string]} ∅ empty_accounting ∅ ∅ ∅ ∅ ∅ ∅ ∅ ∅ ∅ empty_money ∅)).
Definition demo_event_calls : list EventCall :=
  [EStage "acme" "user_ada" demo_item demo_evidence demo_event_answer "model" 1 "stage-1" 1780000000000;
   EEdit (demo_ctx "edit-1") "ced_wi_1_1"
     (CalendarDrafts.Build_CalendarDraftEdit "Practice" "2026-06-12T16:30:00-04:00" "2026-06-12T17:30:00-04:00" None (Some "Field 3"%string)
        None None [" Coach@club.test "; "coach@club.test"]%string true)].
Abbreviation demo_events db :=
  (event_calls demo_attendees_json demo_parse_attendees no_provenance no_fields "conversion" "UNIQUE" demo_value demo_no_value
     demo_event_json demo_provenance_json demo_payload_json db demo_event_calls).
Abbreviation demo_approve_event db :=
  (CalendarApproval.draft_action demo_payload_json "UNIQUE" "conversion" demo_parse_attendees no_provenance no_fields
     (around_env demo_around) (around_bound demo_around) (around_resolve demo_around) (around_gate demo_around) (around_author demo_around)
     (demo_ctx "approve-1") "ced_wi_1_1" ApproveEvent db).

Lemma event_demo_good :
  @table_good _ _ (CalendarDraftStore demo_parse_attendees no_provenance no_fields "conversion") (event_row demo_parse_attendees) demo_connected.
Proof. split; [apply spine_wf_new|by split]. Qed.

Lemma approved_event_is_deliverable_witness :
  ∃ j (db' : AppDb), jobs db' !! ("acme", "obj_ced_wi_1_1")%string = Some j ∧ Job.payload_json j = "Practice for user_ada"%string.
Proof.
  destruct (demo_approve_event (demo_events demo_connected)) as [answer db'] eqn:Ha.
  assert (He : answer = LedgerApproval.Answered (Ok (MutationOutcome.Applied "rcpt_000000000003" 3))).
  { change answer with (answer, db').1. rewrite <- Ha. vm_compute. reflexivity. }
  subst answer.
  destruct (approved_event_is_deliverable demo_attendees_json demo_parse_attendees no_provenance no_fields "conversion" demo_attendees_back
    "UNIQUE" demo_value demo_no_value demo_event_json demo_provenance_json demo_payload_json demo_around (demo_ctx "approve-1") "ced_wi_1_1"
    demo_connected demo_event_calls _ _ db' event_demo_good ltac:(by repeat constructor) eq_refl ltac:(by vm_compute) Ha)
    as (row & j & p & user & Hrow & _ & _ & Hj & _ & Hpay & _ & Hsum & _ & _ & Huser & Howner).
  match type of Hrow with ?stored = _ =>
    assert (Hst : (fun r => (CalendarDraftRow.title r, CalendarDraftRow.source_user_id r, CalendarDraftRow.source_kind r)) <$> stored
                  = Some ("Practice", Some "user_ada", "email")%string) by (vm_compute; reflexivity) end.
  rewrite Hrow in Hst. injection Hst as Ht Hs Hk. exists j, db'. split; [exact Hj|].
  assert (Hnote : CalendarDraftRow.source_kind row ≠ CalendarApproval.SOURCE_KIND_OPERATOR_NOTE) by (rewrite Hk; discriminate).
  destruct (Howner "user_ada"%string Hs (or_introl Hnote)) as [-> _].
  rewrite Hpay. unfold demo_payload_json. rewrite Hsum, Huser, Ht. reflexivity.
Defined.

(** A provider that keeps its word: what it holds is the state, and an exchange that gives
    the token [lost] is one whose answers do not arrive. *)
Definition demo_insert (url token : string) (body : Json.Value) : Op (list string) GoogleCalendarWriteError HttpResponse.t :=
  fun held =>
    match (id ← Json.get "id" body; Json.as_str id) with
    | None => (Ok (HttpResponse.mk 400 Json.Null None), held)
    | Some id =>
      if bool_decide (id ∈ held) then (Ok (HttpResponse.mk 409 Json.Null None), held)
      else ((if string_eqb token "lost" then Err (Retryable "google_calendar_http_send_failed" "timed out" None)
             else Ok (HttpResponse.mk 200 (Json.Obj [("id"%string, Json.Str id)]) None)), held ++ [id])
    end.
Definition demo_token (creds : OAuth.t) : Op (list string) AppError.t string := op_ret (OAuth.refresh_token creds).
Definition demo_encode (s : string) : string := s.
Definition demo_held (held : list string) (_ : string) : list string := held.

Lemma demo_event_server : EventServer demo_encode demo_insert demo_token demo_held.
Proof.
  split; unfold demo_held; try done.
  - intros cal inv token body id held Hid. unfold demo_insert. rewrite Hid. cbn [mbind option_bind Json.as_str].
    case_bool_decide; [by left|by right].
  - intros cal inv token body id held response Hid. unfold demo_insert. rewrite Hid. cbn [mbind option_bind Json.as_str].
    case_bool_decide as Hin; [done|]. intros _ _. apply elem_of_app. right. by left.
Qed.

Definition demo_payload : Payload.t :=
  Payload.mk "primary" "caldraft:1" (Some "user_ada"%string) (Build_PaymentApproval "appr_1" "user_ada" "2026-06-01T00:00:00Z") "Practice" None
    "2026-06-12T16:00:00-04:00" "2026-06-12T17:00:00-04:00" None ["coach@club.test"]%string true None.
Definition demo_job : ClaimedJob.t :=
  ClaimedJob.mk "obj_1" CalendarApproval.PROVIDER_GOOGLE_CALENDAR CalendarApproval.CAPABILITY_CREATE_EVENT "p" 1 CALENDAR_ENTITY_KIND "1" None
    "caldraft:1".
Definition demo_creds (token : string) : OAuth.t := OAuth.mk "client" "secret" token [] None.
Definition demo_parse (_ : string) : Result string Payload.t := Ok demo_payload.
(** No credential, a dry run, an answer lost, and again. *)
Definition demo_deliveries : list (Delivery (W:=list string)) :=
  [Attempt demo_job None true "primary" 0; Attempt demo_job (Some (demo_creds "t")) false "primary" 1;
   Attempt demo_job (Some (demo_creds "lost")) true "primary" 2; Attempt demo_job (Some (demo_creds "t")) true "primary" 3].

Lemma event_created_once_witness :
  let '(outcomes, held) := deliver_all demo_digest demo_encode demo_value demo_no_value demo_parse demo_insert demo_token demo_deliveries [] in
  (fun o => (o.1, is_delivered o.2)) <$> outcomes = [(true, false); (false, true); (true, false); (true, true)] ∧
  copies demo_digest demo_held demo_payload held = 1%nat.
Proof.
  pose proof (event_created_once demo_digest demo_encode demo_value demo_no_value (fun _ => "p"%string) demo_parse demo_insert demo_token demo_held
    demo_event_server demo_payload eq_refl demo_deliveries [] ltac:(by repeat constructor) eq_refl) as H.
  destruct (deliver_all demo_digest demo_encode demo_value demo_no_value demo_parse demo_insert demo_token demo_deliveries []) as [outcomes held] eqn:Hd.
  assert (Ho : (fun o => (o.1, is_delivered o.2)) <$> outcomes = [(true, false); (false, true); (true, false); (true, true)]).
  { change outcomes with (outcomes, held).1. rewrite <- Hd. vm_compute. reflexivity. }
  split; [exact Ho|]. destruct H as (_ & H & _). apply H.
  destruct outcomes as [|[] [|[] [|[] [|[b o] rest]]]]; try discriminate Ho. injection Ho as -> H1 -> H2 -> H3 -> H4 _.
  simpl. unfold written_live. simpl. rewrite H4. by rewrite !orb_true_r.
Defined.
